(* ===== verification/_CoqProject ===== *)
-Q . S2P
Prelude.v
Errors.v
Paths.v
WavMath.v
MemoryPlan.v
SampleRing.v
RingSpec.v
RingSnapshots.v
RingTheorems.v
CaptureRuntime.v
IngressQueue.v
IngressSpec.v
CalibrationCapture.v
CalibrationTheorems.v
CaptureWorker.v
WorkerSpec.v
WorkerTheorems.v
WorkerLiveness.v
OperationLane.v
Lifecycle.v
RetryScheduler.v
Activity.v
ActivitySpec.v
ActivityTheorems.v
ExportPattern.v
ExportPaths.v
Text.v
LegacyConfig.v
AppConfig.v
Profile.v
ProfileTheorems.v
InputIdentity.v
PipeWireTarget.v
PipeWireTheorems.v
PipeWireHealth.v
PipeWireChunk.v
SessionInputs.v
SessionTheorems.v
ConfigExamples.v
Bootstrap.v
Supervisor.v
Transactions.v
Daemon.v
SupervisorSpec.v
SupervisorEnv.v
SupervisorSections.v
SupervisorPublish.v
SupervisorPrograms.v
SupervisorTheorems.v
SupervisorStop.v
SupervisorExamples.v
CaptureClient.v
CaptureClientSpec.v
DumpCoordinator.v
DumpSpec.v
DumpTheorems.v
DumpArena.v
DumpExamples.v
FileSystem.v
Manifest.v
ManifestJson.v
ManifestTheorems.v
Recovery.v
RecoverySpec.v
RecoverySync.v
RecoveryTheorems.v
RecoveryScan.v
RecoveryDump.v
FileWrites.v
ManifestStore.v
ManifestStoreTheorems.v
DumpPublish.v
DumpPublishSpec.v
DumpAtomic.v
RecoveryExamples.v
PublishExamples.v
