(* ===== verification/Prelude.v ===== *)
(** * LAMB: a verification library for the LastAudioMemoryBuffer daemon

    LAMB keeps the last seconds of a multichannel audio input in memory and
    exports them to WAV files on command. The library models its core, the Rust
    sources under src/src/, as executable definitions with the names of the
    source, and proves what each part promises. A Rust method is a function of
    the state monad [M] below: it changes a record and returns a value, an error
    or a panic. Machine integers are [Z] in their range; the release profile has
    no overflow checks, so plain arithmetic wraps ([wrap64]).

    ** Parts and files

    - Prelude: outcomes, the monad and its tactics, record update, machine
      integers, floats, slices, loops and the lemmas they share. Errors
      (error.rs): the error type and exit codes. Paths: the functions of
      std::path on texts, shared by the export policy and recovery.
    - WavMath (math.rs): the split of a channel into WAV parts. MemoryPlan
      (memory_plan.rs) and CaptureRuntime (capture_runtime.rs): the memory a
      session needs, computed before anything is allocated, and the ring it
      configures.
    - SampleRing (sample_ring.rs): the chunked ring, its writer, its readers and
      its pinned snapshots. RingSpec states the invariant and the history of
      frames that a ring represents, RingSnapshots the pin counts and the
      segments, RingTheorems the properties.
    - IngressQueue, CalibrationCapture, CaptureWorker (capture_arena.rs): the
      bounded queue from the audio callback to the worker, one definition per
      atomic step; the calibration slot; the worker's loop with its two epochs,
      each a ring, that take turns, and its command slot. IngressSpec,
      CalibrationTheorems, WorkerSpec, WorkerTheorems and WorkerLiveness hold
      their specifications and properties.
    - CaptureClient (capture_arena.rs): the calls of the control plane on the
      worker, with timeouts, beside a schedule of what the other threads do;
      CaptureClientSpec shows that each call returns and what it promises.
    - DumpCoordinator (dump.rs): the cursor that recall and dump share, frozen
      transactions, losses, clears and their recoveries. It calls the arena and
      the persistence workspace through the classes [ArenaOps] and
      [WorkspaceOps]; DumpSpec states the laws it needs ([ArenaLaws],
      [WorkspaceLaws]), DumpTheorems proves its properties from them, DumpArena
      proves the laws for [CaptureArena], and DumpExamples runs a session.
    - OperationLane (control_server.rs), Lifecycle and RetryScheduler
      (daemon_lifecycle.rs): the job queue of the daemon, its lifecycle state
      and the thread that retries failed captures through the lane.
    - Activity (activity.rs): detectors and the classification of a frozen
      epoch. ActivitySpec holds the reference on the whole stream,
      ActivityTheorems the equivalence and what follows from it.
    - ExportPattern and ExportPaths (export_policy.rs): name patterns, layouts,
      path validation and the preview of the paths of an export.
    - Text: trimming and comparing texts, the integers of configuration files.
      LegacyConfig (config.rs), AppConfig (app_config.rs), Profile (profile.rs):
      the two configuration formats after parsing, their checks, the ports and
      the export policy they resolve to, and the commands that edit profiles.
      InputIdentity (calibration.rs): the identities of configured and live
      inputs and the text whose digest is the input id.
    - PipeWireTarget, PipeWireHealth, PipeWireChunk (capture_pipewire.rs): the
      choice of a node and its ports in a graph and the plan of the links; the
      faults of a capture and their reports; a mapped buffer and its push.
      SessionInputs (daemon.rs): what a session checks before it is built.
      ProfileTheorems, PipeWireTheorems and SessionTheorems hold the
      properties, ConfigExamples runs them on small configurations.
    - Bootstrap (daemon.rs): the configuration file, read at startup and by a
      command, against the interface [ConfigLanguage] of toml. Supervisor: the
      runtime state, what exists of the captures, and the critical sections of
      the operations, each a step. Transactions: startup, reload, start, stop,
      retry, fault and shutdown as programs of sections ([Prog]); what the
      outside world answers to one of them is its [Answers]. Daemon: the worker,
      the listener, the scheduler and the backends as one system whose [Event]s
      interleave section by section. SupervisorSpec states the invariant and
      the rules of programs ([wp]), SupervisorEnv what the other threads keep,
      SupervisorSections and SupervisorPublish a lemma per section,
      SupervisorPrograms one per operation; SupervisorTheorems and
      SupervisorStop hold the properties, SupervisorExamples runs a daemon and
      shows the races that are left.
    - FileSystem: files, directories and symbolic links under the calls of
      std::fs, any of which may fail; what a run removes ([removes_only]) and
      what it synchronizes. Manifest and ManifestJson (recovery.rs): the
      manifest of a transaction in its fixed slots and path arena, and its JSON
      text against the interfaces [JsonText] and [JsonCodec];
      ManifestTheorems their properties. Recovery (recovery.rs): validation of
      a manifest, the decision, the end or the rollback of a recall and of a
      dump, and the scans at startup. RecoverySpec relates a validated manifest
      to the names in the tree ([views]), RecoverySync the text walk over the
      directories, RecoveryTheorems, RecoveryDump and RecoveryScan hold the
      properties, RecoveryExamples runs them on small trees.
    - FileWrites: the calls that change a file system (openat, write, renameat2,
      unlinkat), against the class [Kernel] of what the kernel chooses.
      ManifestStore (ManifestStore::write_prepared_at of recovery.rs and its
      callers in export_wav.rs): how a manifest is replaced;
      ManifestStoreTheorems its properties. DumpPublish (publish_prepared_dump
      of export_wav.rs, the path buffers of persistence_workspace.rs): the
      publication of a dump. DumpPublishSpec lists the file systems that a
      publication can leave, DumpAtomic joins it with recovery, and
      PublishExamples stops a publication at chosen calls and recovers it.

    ** How the parts interact

    The callback pushes blocks into the ingress queue; the worker pops them,
    writes them to the active epoch's ring and feeds a running calibration. A
    freeze hands the active epoch out and continues in the other one; the
    exporter classifies the frozen epoch with the detectors, reads its frames by
    their absolute position, splits them into parts and names the files; a
    release gives the epoch back. The dump coordinator drives this with the calls
    of the arena and moves its cursor only when an export is published or a clear
    has reported. The lane runs the operations of the control socket and of the
    retry scheduler one after the other. A publication leaves a manifest with
    the device and inode of each of its files; after a crash, recovery reads it
    and ends or undoes the publication.

    The supervisor owns at most one published capture. An operation takes a token
    and a generation, builds its candidate while other threads run, and publishes
    it in a section that checks that the token is still current; what it replaced
    is dropped afterwards. A fault or a retry comes back through the scheduler and
    the lane with the generation it was made for.

    A profile is resolved to ports; PipeWire finds their sources in its graph and
    plans one link per port, in the order of the channels; the session joins each
    port with the identity of its input.

    ** What the theorems show

    - Rings and snapshots: a write appends, readers see exactly the last frames
      written, a snapshot keeps its frames while the writer goes on, pin counts
      are exact.
    - Queue: what is popped is what was pushed, in order, each slot has one
      owner at a time, refused frames are counted; a calibration starts at a
      boundary that no producer straddles.
    - Worker: a frozen epoch reads as the frames of the stream at their absolute
      positions, no frame is lost between two freezes, a release happens once, a
      clear accounts for every frame, and every command is answered.
    - Coordinator: the delivered outcomes account for every frame of the stream
      once, whatever fails or times out, and the decision and the epoch always
      have one owner, so a command can be retried.
    - Activity: the streaming detectors compute the reference; a channel that is
      left out is inaudible.
    - Export: parsing and printing patterns are inverse; previewed files stay
      under the output directory, are apart from each other and cover the export;
      a rendered path keeps to the maximum length, and is refused afterwards only
      for the names of a custom pattern.
    - Configuration and backends: a profile that resolves has sound ports and a
      policy of the same channels; channel i of a capture is linked to the
      source of port i; a resolved profile with a target in the graph passes
      every check of the session; the channels of the policy and of the capture
      of a session configuration are as stated for each backend, and differ in
      one defect (legacy_channels_agree); equal
      input ids are of equal inputs; the first fault of a capture is reported
      once; a chunk is pushed whole or refused.
    - Lane, lifecycle, scheduler: jobs run once and in order, the state record
      stays well formed, a retry is delivered once, never stale, and eventually.
    - Supervisor: however operations, faults, stops and poisoned locks
      interleave, a finished operation leaves exactly the published capture and
      its session (one_owner); the fault of the published capture is accepted,
      that of a dropped one never (fault_authority), and ends in a published
      retry (fault_ends_in_retry); an announced retry is pending somewhere
      (announced_retry_kept); after a stop nothing is published (stop_is_final).
      Two races and one wrong answer are shown at examples.
    - Recovery: whatever calls fail, nothing is removed without a manifest that
      validate_manifest accepts, and under one only nodes that it names and whose
      identity it records, below its roots; a publication whose files are
      all in place is never undone, and is synchronized before its manifest
      goes; one that is reported as undone has left nothing of its own; a scan
      accounts for every transaction. A manifest text that is written reads back;
      reading any text stays within the buffers. Two defects are shown at
      examples (trailing_slash_panics, existing_check_reads).
    - Publication: whatever calls fail, a manifest's name holds the old or the
      complete new manifest, which is synchronized first. A dump is published as
      a whole: whatever fails or stops the publication and any number of
      recoveries after it, its directory is missing or has every file as it was
      staged, in accordance with the outcome that was reported.
    - Plan: the requirement is the sum of its components with the headroom.

    ** Loops and fuel

    A [while] loop is [loop]: at most 2^64 turns of its body by binary
    iteration, which still computes. [loop_rule] is total correctness: a measure
    that fits in a [u64] and decreases makes the loop return, so 2^64 turns are
    enough for every loop of the sources; theorems about loops state that they
    return.

    ** Not modelled

    Threads are modelled by the interleaving of their atomic steps, with
    sequentially consistent memory; a Release store and the Acquire load that
    reads it are one step each. A call of the arena runs beside the events of its
    schedule (turns of the worker, pushes, calibration requests, status calls of
    other threads), which end at its deadline; the schedules are bounded so that
    the frame counter does not reach 2^64. No mutex is ever poisoned but the one of
    the runtime state of the supervisor. Allocation never fails outside MemoryPlan.
    A section of the supervisor is one step: the listener and the worker run theirs
    under the operation authority, and a fault that a backend reports inside of a
    section takes the mutexes of its health and of the scheduler, so the outcome is
    that of a report before or after it. The clock is read once per operation; what
    backends, files, the graph and recoveries answer to an operation is arbitrary.
    The file system is changed by nobody else while recovery runs, the entries of
    a directory are those it had when it was opened, a file is read in one piece,
    and errors other than those that are distinguished are one ([Fault]). A call
    that fails has no effect; a program that is stopped is one whose calls all
    fail from some point on. What a disk loses in a power failure is not modelled,
    only what was synchronized before what ([effects]).
    serde's alternative forms (structs as arrays) and the texts of its errors are
    left out; its conversions of single values are parameters.
    Not modelled are the control sockets, the status and the text of responses,
    the threshold commands and the delivery of recalls, clears and dumps to
    clients (daemon.rs), the writing of the staged files and the
    publication of recalls (export_wav.rs, persistence_workspace.rs), the
    path-based manifest writer that only tests use (ManifestStore::write), the
    calibration store (calibration.rs), the control protocol (control.rs), the
    writing of configuration files and their syntax (serde and toml), the main loops
    and callbacks of the audio libraries, the command line, the shutdown of the
    arena, and the older entry points of the coordinator over a ring or a
    publisher closure. The persistence workspace is an interface of the
    coordinator: its calls return, with any outcome. *)
From Stdlib Require Export ZArith Lia List SpecFloat.
From stdpp Require Export base list numbers option strings pretty.

#[global] Open Scope string_scope.
#[global] Open Scope list_scope.
#[global] Open Scope Z_scope.

(** ** Outcomes and the state monad

    A Rust function that returns [Result<T, E>] and may also panic (an index
    out of range, an [expect] on [None]) has type [outcome E T]; a method that
    mutates its receiver as well has type [M S E T]. As in Rust, the mutations
    made before an early [Err] return stay in the final state. *)
Inductive outcome (E A : Type) : Type :=
  | Ok (a : A)
  | Err (e : E)
  | Panic.
Arguments Ok {E A} a.
Arguments Err {E A} e.
Arguments Panic {E A}.

Definition obind {E A B} (m : outcome E A) (k : A -> outcome E B) : outcome E B :=
  match m with Ok a => k a | Err e => Err e | Panic => Panic end.

Definition omap {E A B} (f : A -> B) (m : outcome E A) : outcome E B :=
  obind m (fun a => Ok (f a)).

(** [Option::ok_or] *)
Definition ok_or {E A} (o : option A) (e : E) : outcome E A :=
  match o with Some a => Ok a | None => Err e end.

(** [Option::unwrap], [Option::expect] and slice indexing. *)
Definition unwrap {E A} (o : option A) : outcome E A :=
  match o with Some a => Ok a | None => Panic end.

Definition is_ok {E A} (m : outcome E A) : bool :=
  match m with Ok _ => true | _ => false end.

Definition M (S E A : Type) : Type := S -> S * outcome E A.

Section state_monad.
Context {S E : Type}.

Definition ret {A} (a : A) : M S E A := fun s => (s, Ok a).
Definition bind {A B} (m : M S E A) (k : A -> M S E B) : M S E B :=
  fun s => match m s with
           | (s', Ok a) => k a s'
           | (s', Err e) => (s', Err e)
           | (s', Panic) => (s', Panic)
           end.
Definition fail {A} (e : E) : M S E A := fun s => (s, Err e).
Definition panic {A} : M S E A := fun s => (s, Panic).
Definition get : M S E S := fun s => (s, Ok s).
Definition gets {A} (f : S -> A) : M S E A := fun s => (s, Ok (f s)).
Definition modify (f : S -> S) : M S E unit := fun s => (f s, Ok tt).
Definition lift {A} (o : outcome E A) : M S E A := fun s => (s, o).
(** An early [return Err(e)] taken when the condition holds. *)
Definition fail_if (b : bool) (e : E) : M S E unit :=
  if b then fail e else ret tt.
(** Runs [m] and hands its outcome on instead of propagating an error. *)
Definition catch {A} (m : M S E A) : M S E (outcome E A) :=
  fun s => match m s with
           | (s', Panic) => (s', Panic)
           | (s', o) => (s', Ok o)
           end.
End state_monad.

Declare Scope lamb_scope.
Delimit Scope lamb_scope with lamb.
Notation "'let!' x ':=' m 'in' k" := (bind m (fun x => k))
  (at level 10, x pattern, m at level 100, k at level 200) : lamb_scope.
Notation "m ;; k" := (bind m (fun _ => k))
  (at level 100, k at level 200, right associativity) : lamb_scope.
Notation "'let?' x ':=' m 'in' k" := (obind m (fun x => k))
  (at level 10, x pattern, m at level 100, k at level 200) : lamb_scope.
#[global] Open Scope lamb_scope.

(** ** Record update

    [r <| f := v |>] and [r <| f ::= g |>] build the record [r] with one field
    replaced. A record type takes part by an [Eta] instance that rebuilds it
    from its fields; the setter of a field is found from it. *)
Class Eta (R : Type) := eta : R -> R.
Class Setter {R F : Type} (field : R -> F) := update : (F -> F) -> R -> R.
Arguments update {R F} field {_} _ _ /.

Ltac find_setter R F field :=
  let e := constr:(_ : Eta R) in
  let body := eval red in e in
  let u := fresh "u" in
  let x := fresh "x" in
  red; intros u x;
  let b := eval cbv beta in (body x) in
  lazymatch b with
  | context C [field x] => let b' := context C [u (field x)] in exact b'
  end.

#[export] Hint Extern 1 (@Setter ?R ?F ?field) => find_setter R F field : typeclass_instances.

Notation "r <| f := v |>" := (update f (fun _ => v) r)
  (at level 1, left associativity, f at level 0, v at level 100) : lamb_scope.
Notation "r <| f ::= g |>" := (update f g r)
  (at level 1, left associativity, f at level 0, g at level 100) : lamb_scope.

(** ** Machine integers

    [u8], [u32], [u64] and [usize] values are the integers of [Z] in their
    range; [usize] is 64 bits wide. A plain [+], [-] or [*] of the source wraps
    around (the release profile has no overflow checks), so it is written with
    [wrap64]; a [checked_*] operation returns [None] out of range. *)
Definition u32_max : Z := 2 ^ 32 - 1.
Definition u64_max : Z := 2 ^ 64 - 1.
Definition u128_max : Z := 2 ^ 128 - 1.

Definition is_u32 (x : Z) : Prop := 0 <= x <= u32_max.
Definition is_u64 (x : Z) : Prop := 0 <= x <= u64_max.

Definition wrap32 (x : Z) : Z := x mod 2 ^ 32.
Definition wrap64 (x : Z) : Z := x mod 2 ^ 64.

Definition checked (max x : Z) : option Z :=
  if (0 <=? x) && (x <=? max) then Some x else None.
Definition add_checked (x y : Z) : option Z := checked u64_max (x + y).
Definition sub_checked (x y : Z) : option Z := checked u64_max (x - y).
Definition mul_checked (x y : Z) : option Z := checked u64_max (x * y).
Definition saturating_add (x y : Z) : Z := Z.min (x + y) u64_max.
Definition saturating_sub (x y : Z) : Z := Z.max (x - y) 0.
Definition div_ceil (x y : Z) : Z := (x + (y - 1)) / y.
(** [usize::is_multiple_of] *)
Definition is_multiple_of (x y : Z) : bool :=
  if y =? 0 then x =? 0 else x mod y =? 0.

(** ** Samples

    An [f32] sample is an IEEE-754 binary32 datum, an [f64] a binary64 one. *)
Definition f32 : Type := spec_float.
Definition f64 : Type := spec_float.
Definition f32_zero : f32 := S754_zero false.

Definition is_finite (x : spec_float) : bool :=
  match x with
  | S754_zero _ | S754_finite _ _ _ => true
  | S754_infinity _ | S754_nan => false
  end.

(** [x as f64] for an integer [x], [f64::mul], [f64::ceil] and the saturating
    [x as u64]; comparisons are those of [SpecFloat]. *)
Definition f64_of_Z (x : Z) : f64 := binary_normalize 53 1024 x 0 false.
Definition f64_mul (x y : f64) : f64 := SFmul 53 1024 x y.
Definition f64_add (x y : f64) : f64 := SFadd 53 1024 x y.
Definition f64_sub (x y : f64) : f64 := SFsub 53 1024 x y.
Definition f64_div (x y : f64) : f64 := SFdiv 53 1024 x y.
Definition f64_sqrt (x : f64) : f64 := SFsqrt 53 1024 x.
(** [f64::max]: a NaN operand is ignored. *)
Definition f64_max (x y : f64) : f64 :=
  match x, y with
  | S754_nan, _ => y
  | _, S754_nan => x
  | _, _ => if SFltb x y then y else x
  end.
Definition f64_ceil (x : f64) : f64 :=
  match x with
  | S754_finite s m e =>
      if 0 <=? e then x
      else let z := - (- (cond_Zopp s (Z.pos m)) / 2 ^ (- e)) in
           if z =? 0 then S754_zero s else f64_of_Z z
  | _ => x
  end.
Definition f64_to_u64 (x : f64) : Z :=
  match x with
  | S754_finite false m e =>
      Z.min u64_max (if 0 <=? e then Z.pos m * 2 ^ e else Z.pos m / 2 ^ (- e))
  | S754_infinity false => u64_max
  | _ => 0
  end.

(** [f64::to_bits] of a canonical datum: a normal number has a mantissa of
    53 bits, a subnormal one has the least exponent. *)
Definition f64_to_bits (x : f64) : Z :=
  let sign (s : bool) := if s then 2 ^ 63 else 0 in
  match x with
  | S754_zero s => sign s
  | S754_infinity s => sign s + 2047 * 2 ^ 52
  | S754_nan => 2047 * 2 ^ 52 + 2 ^ 51
  | S754_finite s m e =>
      if Z.pos m <? 2 ^ 52 then sign s + Z.pos m
      else sign s + (e + 1075) * 2 ^ 52 + (Z.pos m - 2 ^ 52)
  end.

(** ** Slices

    [slice l a b] is [l[a..b]], [copy_into dst a src] the list [dst] after
    [dst[a..a + src.len()].copy_from_slice(src)]; both are [None] where Rust
    panics. *)
Definition zlen {A} (l : list A) : Z := Z.of_nat (length l).
Definition zlookup {A} (l : list A) (i : Z) : option A :=
  if 0 <=? i then l !! Z.to_nat i else None.
Definition zupdate {A} (l : list A) (i : Z) (f : A -> A) : list A :=
  if 0 <=? i then alter f (Z.to_nat i) l else l.

(** The elements from [a] on, [n] of them. *)
Definition segment {A} (l : list A) (a n : Z) : list A :=
  take (Z.to_nat n) (drop (Z.to_nat a) l).

Definition slice {A} (l : list A) (a b : Z) : option (list A) :=
  if (0 <=? a) && (a <=? b) && (b <=? zlen l) then Some (segment l a (b - a)) else None.

Definition copy_into {A} (dst : list A) (a : Z) (src : list A) : option (list A) :=
  if (0 <=? a) && (a + zlen src <=? zlen dst)
  then Some (segment dst 0 a ++ src ++ drop (Z.to_nat (a + zlen src)) dst)
  else None.

(** The samples of channel [k] in [n] frames of the interleaved list [h], from
    frame [a] on. *)
Fixpoint channel_samples (h : list f32) (ch k a : Z) (n : nat) : list f32 :=
  match n with
  | O => []
  | S n' => default f32_zero (zlookup h (a * ch + k)) :: channel_samples h ch k (a + 1) n'
  end.

(** ** Loops

    A [while] loop is a step function that yields the next loop state ([inl])
    or the loop's result ([inr]). [iterate] runs it at most [p] times and stops
    early, so the fuel of [loop], which no counter of the program can reach
    before it leaves the range of [u64], costs nothing when the model runs.
    [loop_rule] is the total-correctness rule: a measure that decreases in
    every step and fits in a [u64] makes the loop return. *)
Section loops.
Context {St R : Type} (step : St -> St + R).

Fixpoint iterate (p : positive) (s : St) : St + R :=
  match p with
  | xH => step s
  | xO q => match iterate q s with
            | inl s' => iterate q s'
            | inr r => inr r
            end
  | xI q => match step s with
            | inl s' => match iterate q s' with
                        | inl s'' => iterate q s''
                        | inr r => inr r
                        end
            | inr r => inr r
            end
  end.

Definition loop (s : St) : option R :=
  match iterate (2 ^ 64)%positive s with inl _ => None | inr r => Some r end.

Context (I : St -> Prop) (measure : St -> Z) (Q : R -> Prop).
Hypothesis step_ok : forall s, I s ->
  match step s with
  | inl s' => I s' /\ 0 <= measure s' < measure s
  | inr r => Q r
  end.

Lemma iterate_rule p s :
  I s ->
  match iterate p s with
  | inl s' => I s' /\ 0 <= measure s' /\ measure s' + Z.pos p <= measure s
  | inr r => Q r
  end.
Proof using step_ok.
  revert s. induction p as [q IH|q IH|]; intros s HI; cbn.
  - pose proof (step_ok s HI) as H1. destruct (step s) as [s1|r]; [|done].
    destruct H1 as [H1 ?]. pose proof (IH s1 H1) as H2. destruct (iterate q s1) as [s2|r]; [|done].
    destruct H2 as [H2 ?]. pose proof (IH s2 H2) as H3. destruct (iterate q s2); [|done].
    destruct H3. split; [done|lia].
  - pose proof (IH s HI) as H2. destruct (iterate q s) as [s2|r]; [|done].
    destruct H2 as [H2 ?]. pose proof (IH s2 H2) as H3. destruct (iterate q s2); [|done].
    destruct H3. split; [done|lia].
  - pose proof (step_ok s HI) as H1. destruct (step s); [|done]. destruct H1; split; [done|lia].
Qed.

Lemma loop_rule s : I s -> measure s <= u64_max -> exists r, loop s = Some r /\ Q r.
Proof using step_ok.
  intros HI Hm. unfold loop. pose proof (iterate_rule (2 ^ 64)%positive s HI) as H.
  destruct (iterate _ s) as [s'|r]; [|eauto]. destruct H as (_ & ? & ?).
  unfold u64_max in *. lia.
Qed.
End loops.

(** A [while] loop whose body reads and writes the state [S] of a method; its
    own variables are the loop state [L]. *)
Section method_loops.
Context {S E L B : Type} (body : L -> M S E (L + B)).

Definition mstep_fn (x : S * L) : (S * L) + (S * outcome E B) :=
  match body x.2 x.1 with
  | (s', Ok (inl l')) => inl (s', l')
  | (s', Ok (inr b)) => inr (s', Ok b)
  | (s', Err e) => inr (s', Err e)
  | (s', Panic) => inr (s', Panic)
  end.

Definition mloop (l : L) : M S E B :=
  fun s => match loop mstep_fn (s, l) with
           | Some r => r
           | None => (s, Panic)
           end.

Lemma mloop_rule (I : S -> L -> Prop) (measure : S -> L -> Z) (Q : S -> outcome E B -> Prop) :
  (forall s l, I s l ->
     match body l s with
     | (s', Ok (inl l')) => I s' l' /\ 0 <= measure s' l' < measure s l
     | (s', Ok (inr b)) => Q s' (Ok b)
     | (s', Err e) => Q s' (Err e)
     | (s', Panic) => Q s' Panic
     end) ->
  forall s l, I s l -> measure s l <= u64_max ->
  exists s' o, mloop l s = (s', o) /\ Q s' o.
Proof.
  intros Hstep s l HI Hm. unfold mloop.
  destruct (loop_rule mstep_fn (fun x => I x.1 x.2) (fun x => measure x.1 x.2)
              (fun r => Q r.1 r.2)) with (s := (s, l)) as ([s' o] & -> & HQ);
    [| done | done | exists s', o; done].
  intros [s1 l1]; cbn. intros H1. unfold mstep_fn; cbn. specialize (Hstep s1 l1 H1).
  destruct (body l1 s1) as [s2 [[?|?]|?|]]; done.
Qed.
End method_loops.

(** ** Automation *)

(** Turns the boolean tests of the code into the propositions they decide. *)
Ltac to_prop :=
  repeat match goal with
  | H : (_ && _) = true |- _ => apply andb_prop in H; destruct H
  | H : (_ || _) = false |- _ => apply orb_false_elim in H; destruct H
  | H : (_ && _) = false |- _ => apply andb_false_iff in H
  | H : (_ || _) = true |- _ => apply orb_true_iff in H
  | H : negb _ = true |- _ => apply negb_true_iff in H
  | H : negb _ = false |- _ => apply negb_false_iff in H
  | H : (_ <? _) = true |- _ => apply Z.ltb_lt in H
  | H : (_ <? _) = false |- _ => apply Z.ltb_ge in H
  | H : (_ <=? _) = true |- _ => apply Z.leb_le in H
  | H : (_ <=? _) = false |- _ => apply Z.leb_gt in H
  | H : (_ =? _) = true |- _ => apply Z.eqb_eq in H
  | H : (_ =? _) = false |- _ => apply Z.eqb_neq in H
  end.

(** Evaluates a comparison of the goal whose value follows by [lia]. *)
Ltac decide_cmp :=
  match goal with
  | |- context [?a <? ?b] =>
      first [ rewrite (proj2 (Z.ltb_lt a b)) by lia
            | rewrite (proj2 (Z.ltb_ge a b)) by lia ]
  | |- context [?a <=? ?b] =>
      first [ rewrite (proj2 (Z.leb_le a b)) by lia
            | rewrite (proj2 (Z.leb_gt a b)) by lia ]
  | |- context [?a =? ?b] =>
      first [ rewrite (proj2 (Z.eqb_eq a b)) by lia
            | rewrite (proj2 (Z.eqb_neq a b)) by lia ]
  end.

Lemma obind_Ok {E A B} (m : outcome E A) (k : A -> outcome E B) b :
  obind m k = Ok b <-> exists a, m = Ok a /\ k a = Ok b.
Proof.
  destruct m; cbn; split; [eauto | | done | | done | ]; intros (? & [=] & ?); by subst.
Qed.

Lemma ok_or_Ok {E A} (o : option A) (e : E) a : ok_or o e = Ok a <-> o = Some a.
Proof. destruct o; cbn; split; intros [=]; by subst. Qed.

Lemma Ok_inj {E A} (a b : A) : @Ok E A a = Ok b -> a = b.
Proof. by intros [=]. Qed.

(** Splits a successful chain of [let?] steps into its successful steps. *)
Ltac ok_steps :=
  repeat match goal with
  | H : obind _ _ = Ok _ |- _ =>
      let x := fresh "x" in let Hx := fresh "Hx" in
      apply obind_Ok in H as (x & Hx & H)
  | H : ok_or _ _ = Ok _ |- _ => apply ok_or_Ok in H
  | H : Ok _ = Ok _ |- _ => apply Ok_inj in H
  end.

(** The monad's equations; [msteps] runs a method of the goal as far as its
    conditions are known. *)
Section monad_equations.
Context {S E : Type}.

Lemma bind_get {B} (k : S -> M S E B) s : bind get k s = k s s.
Proof. done. Qed.
Lemma bind_gets {A B} (f : S -> A) (k : A -> M S E B) s : bind (gets f) k s = k (f s) s.
Proof. done. Qed.
Lemma bind_ret {A B} (a : A) (k : A -> M S E B) s : bind (ret a) k s = k a s.
Proof. done. Qed.
Lemma bind_modify {B} (f : S -> S) (k : unit -> M S E B) s : bind (modify f) k s = k tt (f s).
Proof. done. Qed.
Lemma bind_lift_Ok {A B} (a : A) (k : A -> M S E B) s : bind (lift (Ok a)) k s = k a s.
Proof. done. Qed.
Lemma bind_lift_Err {A B} (e : E) (k : A -> M S E B) s : bind (lift (Err e)) k s = (s, Err e).
Proof. done. Qed.
Lemma bind_fail {A B} (e : E) (k : A -> M S E B) s : bind (fail e) k s = (s, Err e).
Proof. done. Qed.
Lemma bind_fail_if_false {B} (e : E) (k : unit -> M S E B) s :
  bind (fail_if false e) k s = k tt s.
Proof. done. Qed.
Lemma bind_fail_if_true {B} (e : E) (k : unit -> M S E B) s :
  bind (fail_if true e) k s = (s, Err e).
Proof. done. Qed.
Lemma bind_bind {A B C} (m : M S E A) (k : A -> M S E B) (k' : B -> M S E C) s :
  bind (bind m k) k' s = bind m (fun a => bind (k a) k') s.
Proof. unfold bind. destruct (m s) as [? []]; done. Qed.
Lemma bind_run {A B} (m : M S E A) (k : A -> M S E B) s s' o :
  m s = (s', o) ->
  bind m k s = match o with Ok a => k a s' | Err e => (s', Err e) | Panic => (s', Panic) end.
Proof. intros H. unfold bind. rewrite H. by destruct o. Qed.
Lemma lift_run {A} (o : outcome E A) (s : S) : lift o s = (s, o).
Proof. done. Qed.
Lemma ret_run {A} (a : A) (s : S) : @ret S E A a s = (s, Ok a).
Proof. done. Qed.
Lemma fail_run {A} (e : E) (s : S) : @fail S E A e s = (s, Err e).
Proof. done. Qed.
Lemma modify_run (f : S -> S) (s : S) : @modify S E f s = (f s, Ok tt).
Proof. done. Qed.

(** A method that satisfies an invariant-style specification in each step. *)
Lemma bind_inv {A B} (m : M S E A) (k : A -> M S E B) s s' b :
  bind m k s = (s', Ok b) -> exists s1 a, m s = (s1, Ok a) /\ k a s1 = (s', Ok b).
Proof. unfold bind. destruct (m s) as [s1 [a|?|]]; [eauto | done | done]. Qed.
End monad_equations.

Ltac msteps :=
  repeat (first
    [ rewrite bind_bind | rewrite bind_get | rewrite bind_gets | rewrite bind_ret
    | rewrite bind_modify | rewrite bind_lift_Ok | rewrite bind_lift_Err | rewrite bind_fail
    | rewrite bind_fail_if_false | rewrite bind_fail_if_true ]; cbv beta).

(** ** Relations that methods keep *)

(** A method that keeps a reflexive and transitive relation to its start. *)
Definition keeps {S E A} (R : S -> S -> Prop) (m : M S E A) : Prop := forall s, R s (m s).1.

Section keeping.
Context {S E : Type} (R : S -> S -> Prop) `{!PreOrder R}.

Lemma keeps_ret {A} (a : A) : keeps R (@ret S E A a).
Proof using PreOrder0. intros q. cbn. reflexivity. Qed.
Lemma keeps_lift {A} (o : outcome E A) : keeps R (lift o).
Proof using PreOrder0. intros q. cbn. reflexivity. Qed.
Lemma keeps_get : keeps R (@get S E).
Proof using PreOrder0. intros q. cbn. reflexivity. Qed.
Lemma keeps_fail {A} e : keeps R (@fail S E A e).
Proof using PreOrder0. intros q. cbn. reflexivity. Qed.
Lemma keeps_fail_if b (e : E) : keeps R (fail_if b e).
Proof using PreOrder0. intros q. unfold fail_if. destruct b; cbn; reflexivity. Qed.
Lemma keeps_modify (f : S -> S) : (forall q, R q (f q)) -> keeps R (@modify S E f).
Proof using Type. intros H q. apply H. Qed.
Lemma keeps_bind {A B} (m : M S E A) (k : A -> M S E B) :
  keeps R m -> (forall a, keeps R (k a)) -> keeps R (bind m k).
Proof using PreOrder0.
  intros Hm Hk q. specialize (Hm q). unfold bind. destruct (m q) as [q1 [a|e|]]; cbn in *; try done.
  etrans; [done|]. apply Hk.
Qed.
Lemma keeps_catch {A} (m : M S E A) : keeps R m -> keeps R (catch m).
Proof using Type. intros Hm q. specialize (Hm q). unfold catch. by destruct (m q) as [q1 [a|e|]]. Qed.
Lemma keeps_iterate {L B} (body : L -> M S E (L + B)) p q0 x :
  (forall l, keeps R (body l)) -> R q0 x.1 ->
  match iterate (mstep_fn body) p x with inl y => R q0 y.1 | inr y => R q0 y.1 end.
Proof using PreOrder0.
  intros Hb. assert (forall x, R q0 x.1 ->
    match mstep_fn body x with inl y => R q0 y.1 | inr y => R q0 y.1 end) as Hstep.
  { intros [q l] Hx. unfold mstep_fn; cbn in *. specialize (Hb l q).
    destruct (body l q) as [q1 [[l1|b]|e|]]; cbn in *; by etrans. }
  revert x. induction p as [p IH|p IH|]; intros x Hx; cbn [iterate]; [| |by apply Hstep].
  - specialize (Hstep x Hx). destruct (mstep_fn body x) as [x1|y]; [|done].
    specialize (IH x1 Hstep) as H1. destruct (iterate _ p x1) as [x2|y]; [|done]. by apply IH.
  - specialize (IH x Hx) as H1. destruct (iterate _ p x) as [x2|y]; [|done]. by apply IH.
Qed.
Lemma keeps_mloop {L B} (body : L -> M S E (L + B)) l :
  (forall l, keeps R (body l)) -> keeps R (mloop body l).
Proof using PreOrder0.
  intros Hb q. unfold mloop, loop.
  pose proof (keeps_iterate body (2 ^ 64)%positive q (q, l) Hb ltac:(cbn; reflexivity)) as H.
  destruct (iterate _ _ _) as [y|y]; [cbn; reflexivity|done].
Qed.
End keeping.

(** Reduces the claim that a method keeps a relation to its [modify] steps. *)
Ltac keep_steps :=
  repeat first
    [ apply keeps_bind; [tc_solve | | intros ?]
    | apply keeps_get; tc_solve | apply keeps_lift; tc_solve | apply keeps_ret; tc_solve
    | apply keeps_fail; tc_solve | apply keeps_fail_if; tc_solve | apply keeps_catch
    | apply keeps_modify; intros ? | progress case_match ].

Create HintDb lamb discriminated.

(** ** Lemmas on machine integers *)

Lemma wrap64_small x : is_u64 x -> wrap64 x = x.
Proof. unfold is_u64, u64_max, wrap64. intros. apply Z.mod_small. lia. Qed.

Lemma checked_Some max x y : checked max x = Some y <-> y = x /\ 0 <= x <= max.
Proof.
  unfold checked. destruct ((0 <=? x) && (x <=? max)) eqn:E; to_prop.
  - split; [intros [=]; lia | intros [-> _]; done].
  - split; [done | intros [_ ?]; destruct E; to_prop; lia].
Qed.

Lemma checked_None max x : checked max x = None <-> ~ 0 <= x <= max.
Proof.
  destruct (checked max x) eqn:E.
  - apply checked_Some in E. split; [done | lia].
  - split; [| done]. intros _ H.
    assert (checked max x = Some x) by (apply checked_Some; lia). congruence.
Qed.

Lemma add_checked_ok x y : 0 <= x + y <= u64_max -> add_checked x y = Some (x + y).
Proof. intros. apply checked_Some. lia. Qed.

Lemma mul_checked_ok x y : 0 <= x * y <= u64_max -> mul_checked x y = Some (x * y).
Proof. intros. apply checked_Some. lia. Qed.

Lemma add_checked_inv x y z : add_checked x y = Some z -> z = x + y /\ 0 <= x + y <= u64_max.
Proof. apply checked_Some. Qed.

Lemma sub_checked_inv x y z : sub_checked x y = Some z -> z = x - y /\ 0 <= x - y <= u64_max.
Proof. apply checked_Some. Qed.

Lemma mul_checked_inv x y z : mul_checked x y = Some z -> z = x * y /\ 0 <= x * y <= u64_max.
Proof. apply checked_Some. Qed.

Lemma div_ceil_spec x y : 0 < y -> (div_ceil x y - 1) * y < x <= div_ceil x y * y.
Proof.
  intros. unfold div_ceil.
  pose proof (Z.div_mod (x + (y - 1)) y ltac:(lia)).
  pose proof (Z.mod_pos_bound (x + (y - 1)) y ltac:(lia)). nia.
Qed.

Lemma div_ceil_nonneg x y : 0 <= x -> 0 < y -> 0 <= div_ceil x y.
Proof. intros. unfold div_ceil. apply Z.div_pos; lia. Qed.

(** ** Lemmas on slices *)

Section slices.
Context {A : Type}.
Implicit Types l dst src : list A.

Lemma zlen_nonneg l : 0 <= zlen l.
Proof. unfold zlen. lia. Qed.

Lemma zlen_app l1 l2 : zlen (l1 ++ l2) = zlen l1 + zlen l2.
Proof. unfold zlen. rewrite length_app. lia. Qed.

Lemma zlen_segment l a n :
  0 <= a -> 0 <= n -> a + n <= zlen l -> zlen (segment l a n) = n.
Proof. unfold zlen, segment. intros. rewrite length_take, length_drop. lia. Qed.

Lemma segment_app_l l1 l2 a n :
  0 <= a -> 0 <= n -> a + n <= zlen l1 -> segment (l1 ++ l2) a n = segment l1 a n.
Proof.
  unfold zlen, segment. intros.
  rewrite drop_app_le by lia. rewrite take_app_le; [done|]. rewrite length_drop. lia.
Qed.

Lemma segment_app_exact l1 l2 n : n = zlen l2 -> segment (l1 ++ l2) (zlen l1) n = l2.
Proof.
  unfold zlen, segment. intros ->. rewrite !Nat2Z.id, drop_app_length.
  apply firstn_all.
Qed.

Lemma segment_split l a n m :
  0 <= a -> 0 <= n -> 0 <= m -> segment l a (n + m) = segment l a n ++ segment l (a + n) m.
Proof.
  unfold segment. intros. rewrite !Z2Nat.inj_add by lia.
  rewrite <- drop_drop. rewrite <- take_take_drop. done.
Qed.

Lemma segment_segment l a n b m :
  0 <= a -> 0 <= b -> 0 <= m -> b + m <= n ->
  segment (segment l a n) b m = segment l (a + b) m.
Proof.
  unfold segment. intros.
  rewrite skipn_firstn_comm, take_take, drop_drop. f_equal; [lia | f_equal; lia].
Qed.

Lemma segment_0_all l n : n = zlen l -> segment l 0 n = l.
Proof. unfold segment, zlen. intros ->. rewrite drop_0, Nat2Z.id. apply firstn_all. Qed.

Lemma segment_nil l a : segment l a 0 = [].
Proof. done. Qed.

Lemma slice_Some l a b : 0 <= a -> a <= b -> b <= zlen l -> slice l a b = Some (segment l a (b - a)).
Proof. intros. unfold slice. repeat decide_cmp. done. Qed.

Lemma copy_into_Some dst a src :
  0 <= a -> a + zlen src <= zlen dst ->
  copy_into dst a src =
    Some (segment dst 0 a ++ src ++ drop (Z.to_nat (a + zlen src)) dst).
Proof. intros. unfold copy_into. repeat decide_cmp. done. Qed.

Lemma copy_into_length dst a src dst' :
  copy_into dst a src = Some dst' -> zlen dst' = zlen dst.
Proof.
  unfold copy_into. destruct (_ && _) eqn:E; [|done]. intros [= <-]. to_prop.
  pose proof (zlen_nonneg src). rewrite !zlen_app, zlen_segment by lia.
  unfold zlen in *. rewrite length_drop. lia.
Qed.

(** After a copy at [a], the prefix that ends where the copy ends. *)
Lemma copy_into_prefix dst a src dst' :
  copy_into dst a src = Some dst' ->
  segment dst' 0 (a + zlen src) = segment dst 0 a ++ src.
Proof.
  unfold copy_into. destruct (_ && _) eqn:E; [|done]. intros [= <-]. to_prop.
  pose proof (zlen_nonneg src). rewrite app_assoc, segment_app_l.
  - apply segment_0_all. rewrite zlen_app, zlen_segment; lia.
  - lia.
  - lia.
  - rewrite zlen_app, zlen_segment; lia.
Qed.

Lemma copy_into_drop dst a src dst' :
  copy_into dst a src = Some dst' ->
  drop (Z.to_nat (a + zlen src)) dst' = drop (Z.to_nat (a + zlen src)) dst.
Proof.
  unfold copy_into. destruct (_ && _) eqn:E; [|done]. intros [= <-]. to_prop.
  pose proof (zlen_nonneg src). rewrite app_assoc. rewrite drop_app_ge.
  - assert (zlen (segment dst 0 a ++ src) = a + zlen src) as Hl
      by (rewrite zlen_app, zlen_segment; lia).
    unfold zlen in Hl. rewrite drop_drop. f_equal. unfold zlen in *. lia.
  - assert (zlen (segment dst 0 a ++ src) = a + zlen src) as Hl
      by (rewrite zlen_app, zlen_segment; lia).
    unfold zlen in *. lia.
Qed.

(** A copy that continues where an earlier one into the same buffer ended. *)
Lemma copy_into_extend dst src1 src2 :
  zlen src1 + zlen src2 <= zlen dst ->
  copy_into (src1 ++ drop (Z.to_nat (zlen src1)) dst) (zlen src1) src2 =
    Some ((src1 ++ src2) ++ drop (Z.to_nat (zlen (src1 ++ src2))) dst).
Proof.
  intros. pose proof (zlen_nonneg src1). pose proof (zlen_nonneg src2).
  rewrite copy_into_Some; [| lia |].
  - rewrite segment_app_l, segment_0_all by lia. rewrite <- app_assoc. do 3 f_equal.
    rewrite zlen_app, drop_app_ge, drop_drop by (unfold zlen; lia).
    f_equal. unfold zlen. lia.
  - rewrite zlen_app. unfold zlen in *. rewrite length_drop. lia.
Qed.

Lemma zlookup_lt l i : 0 <= i < zlen l -> is_Some (zlookup l i).
Proof.
  intros. unfold zlookup, zlen in *. repeat decide_cmp. apply lookup_lt_is_Some. lia.
Qed.

Lemma zlookup_Some_lt l i x : zlookup l i = Some x -> 0 <= i < zlen l.
Proof.
  unfold zlookup, zlen. destruct (0 <=? i) eqn:E; [|done]. intros H%lookup_lt_Some.
  to_prop. lia.
Qed.

Lemma zlen_zupdate l i f : zlen (zupdate l i f) = zlen l.
Proof. unfold zupdate, zlen. destruct (0 <=? i); [rewrite length_alter|]; done. Qed.

Lemma zlookup_zupdate_eq l i f x :
  zlookup l i = Some x -> zlookup (zupdate l i f) i = Some (f x).
Proof.
  unfold zlookup, zupdate. destruct (0 <=? i); [|done]. intros H.
  rewrite list_lookup_alter_eq, H. done.
Qed.

Lemma zupdate_ext l i f g : (forall x, f x = g x) -> zupdate l i f = zupdate l i g.
Proof.
  unfold zupdate. intros. destruct (0 <=? i); [|done]. apply list_alter_ext; auto.
Qed.

Lemma map_zupdate {B} (g : A -> B) l i f :
  (forall x, g (f x) = g x) -> map g (zupdate l i f) = map g l.
Proof.
  unfold zupdate. intros Hf. destruct (0 <=? i); [|done]. apply list_eq. intros k.
  rewrite !list_lookup_fmap. destruct (decide (k = Z.to_nat i)) as [->|].
  - rewrite list_lookup_alter_eq. destruct (l !! Z.to_nat i); cbn; by rewrite ?Hf.
  - by rewrite list_lookup_alter_ne.
Qed.

Lemma zupdate_zupdate l i f g : zupdate (zupdate l i f) i g = zupdate l i (fun x => g (f x)).
Proof.
  unfold zupdate. destruct (0 <=? i); [|done]. apply list_eq. intros k.
  destruct (decide (k = Z.to_nat i)) as [->|].
  - rewrite !list_lookup_alter_eq. by destruct (l !! Z.to_nat i).
  - by rewrite !list_lookup_alter_ne by done.
Qed.

Lemma zlookup_zupdate_ne l i j f : i <> j -> zlookup (zupdate l i f) j = zlookup l j.
Proof.
  unfold zlookup, zupdate. intros. destruct (0 <=? j) eqn:E1, (0 <=? i) eqn:E2; try done.
  to_prop. apply list_lookup_alter_ne. lia.
Qed.
End slices.


(** ** Lemmas on the samples of a channel *)

Lemma zlen_channel_samples h ch k a n : zlen (channel_samples h ch k a n) = Z.of_nat n.
Proof.
  revert a. induction n as [|n IH]; intros a; [done|]. cbn [channel_samples].
  unfold zlen in *. cbn [length]. specialize (IH (a + 1)). lia.
Qed.

Lemma channel_samples_app h ch k a n m :
  channel_samples h ch k a (n + m) =
    channel_samples h ch k a n ++ channel_samples h ch k (a + Z.of_nat n) m.
Proof.
  revert a. induction n as [|n IH]; intros a; cbn [channel_samples Nat.add app].
  - f_equal. lia.
  - f_equal. rewrite IH. do 2 f_equal. lia.
Qed.

Lemma channel_samples_ext h h' ch k a a' n :
  (forall i, 0 <= i < Z.of_nat n -> zlookup h ((a + i) * ch + k) = zlookup h' ((a' + i) * ch + k)) ->
  channel_samples h ch k a n = channel_samples h' ch k a' n.
Proof.
  revert a a'. induction n as [|n IH]; intros a a' Hi; [done|]. cbn [channel_samples]. f_equal.
  - specialize (Hi 0 ltac:(lia)). rewrite !Z.add_0_r in Hi. by rewrite Hi.
  - apply IH. intros i ?. specialize (Hi (1 + i) ltac:(lia)). by rewrite !Z.add_assoc in Hi.
Qed.

Lemma channel_samples_prefix h x ch k a n :
  0 <= k < ch -> 0 <= a -> (a + Z.of_nat n) * ch <= zlen h ->
  channel_samples (h ++ x) ch k a n = channel_samples h ch k a n.
Proof.
  intros Hk. revert a. induction n as [|n IH]; intros a Ha Hn; [done|]. cbn [channel_samples].
  assert (0 <= a * ch) by (apply Z.mul_nonneg_nonneg; lia).
  assert (0 <= Z.of_nat n * ch) by (apply Z.mul_nonneg_nonneg; lia).
  assert ((a + Z.of_nat (S n)) * ch = a * ch + ch + Z.of_nat n * ch) by lia.
  rewrite IH by lia. f_equal. f_equal. unfold zlookup, zlen in *. decide_cmp.
  apply lookup_app_l. lia.
Qed.

(** A copied stretch of frames holds the samples it was copied from. *)
Lemma channel_samples_segment h rest ch k c n :
  0 <= k < ch -> 0 <= c -> 0 <= n -> (c + n) * ch <= zlen h ->
  channel_samples (segment h (c * ch) (n * ch) ++ rest) ch k 0 (Z.to_nat n) =
    channel_samples h ch k c (Z.to_nat n).
Proof.
  intros Hk Hc Hn Hl. apply channel_samples_ext. intros i Hi. rewrite Z2Nat.id in Hi by done.
  assert ((i + 1) * ch <= n * ch) by (apply Z.mul_le_mono_nonneg_r; lia).
  assert (0 <= i * ch) by (apply Z.mul_nonneg_nonneg; lia).
  assert (0 <= c * ch) by (apply Z.mul_nonneg_nonneg; lia).
  assert (zlen (segment h (c * ch) (n * ch)) = n * ch) as Hs by (apply zlen_segment; lia).
  unfold zlookup, segment, zlen in *. repeat decide_cmp.
  rewrite lookup_app_l, lookup_take_lt, lookup_drop by lia. f_equal. lia.
Qed.

#[export] Hint Resolve zlen_nonneg : lamb.
Create Rewrite HintDb zlen.
#[export] Hint Rewrite @zlen_app @zlen_zupdate : zlen.
