(* ===== verification/Errors.v ===== *)
(** * Errors (src/error.rs)

    The error type shared by every component and the process exit codes. *)
From S2P Require Import Prelude.

Definition EX_CONFIG : Z := 78.

Inductive ExitCode := Failure | PermanentBootstrap.

Definition as_i32 (c : ExitCode) : Z :=
  match c with
  | Failure => 1
  | PermanentBootstrap => EX_CONFIG
  end.

(** A path is its text; an I/O error the description the operating system
    gives. *)
Inductive LambError :=
  | NonRestartableBootstrap (source : LambError)
  | Config (message : string)
  | Validation (message : string)
  | Io (path : string) (source : string)
  | PersistenceCleanup (operation cleanup : LambError)
  | IndeterminatePublicationError (operation : LambError)
  | UnidentifiedStagingCleanup (path : string)
  | Control (message : string)
  | Capture (message : string)
  | DaemonFatal (message : string)
  | CaptureInvariant (message : string)
  | Export (message : string)
  | ExportInvariant (message : string)
  | ControlInvariant (message : string).

Abbreviation Result := (outcome LambError).

Definition non_restartable_bootstrap (source : LambError) : LambError :=
  NonRestartableBootstrap source.

Definition process_exit_code (e : LambError) : Z :=
  match e with
  | NonRestartableBootstrap _ => as_i32 PermanentBootstrap
  | _ => as_i32 Failure
  end.

Definition io_error (path source : string) : LambError := Io path source.

(** The [Display] text of an error. *)
Fixpoint display (e : LambError) : string :=
  match e with
  | NonRestartableBootstrap source => "cannot establish inspectable daemon: " +:+ display source
  | Config message => "configuration error: " +:+ message
  | Validation message => "validation error: " +:+ message
  | Io path source => "I/O error at " +:+ path +:+ ": " +:+ source
  | PersistenceCleanup operation cleanup =>
      "persistence failed (" +:+ display operation +:+ "); cleanup also failed (" +:+ display cleanup +:+ ")"
  | IndeterminatePublicationError operation =>
      "publication outcome is indeterminate after: " +:+ display operation
  | UnidentifiedStagingCleanup path =>
      "unidentified staging at " +:+ path +:+ " requires manual removal or recovery"
  | Control message | ControlInvariant message => "control error: " +:+ message
  | Capture message | CaptureInvariant message => "capture error: " +:+ message
  | DaemonFatal message => "fatal daemon error: " +:+ message
  | Export message | ExportInvariant message => "export error: " +:+ message
  end.

#[export] Instance LambError_eq_dec : EqDecision LambError.
Proof. intros x y. unfold Decision. repeat decide equality. Defined.
