(* ===== verification/Paths.v ===== *)
(** * Strings and paths of the standard library

    A string is its bytes; [slen] is its length in bytes. A path is its text;
    its components are those of [std::path] on Unix. *)
From Stdlib Require Import Ascii.
From S2P Require Import Prelude.

(** ** Strings *)

(** [str::find] of a character that satisfies [stop], with the slices before it
    and from it on. *)
Fixpoint find (stop : Ascii.ascii -> bool) (s : string) : option (string * string) :=
  match s with
  | EmptyString => None
  | String c s' =>
      if stop c then Some (EmptyString, s)
      else match find stop s' with
           | Some (before, after) => Some (String c before, after)
           | None => None
           end
  end.

(** [str::contains] of a character. *)
Definition contains (c : Ascii.ascii) (s : string) : bool :=
  match find (Ascii.eqb c) s with Some _ => true | None => false end.

(** [str::len] *)
Definition slen (s : string) : Z := Z.of_nat (String.length s).

(** No byte of [s] satisfies [stop]. *)
Fixpoint free_of (stop : Ascii.ascii -> bool) (s : string) : bool :=
  match s with
  | EmptyString => true
  | String c s' => negb (stop c) && free_of stop s'
  end.

Lemma string_nil_app (b : string) : "" +:+ b = b.
Proof. done. Qed.
Lemma string_cons_app c (a b : string) : String c a +:+ b = String c (a +:+ b).
Proof. done. Qed.

Lemma find_Some stop s before after :
  find stop s = Some (before, after) ->
  s = before +:+ after /\ free_of stop before = true
  /\ exists c rest, after = String c rest /\ stop c = true.
Proof.
  revert before after. induction s as [|c s IH]; intros before after; cbn; [done|].
  destruct (stop c) eqn:E; [intros [= <- <-]; split_and!; [done|done|by exists c, s]|].
  destruct (find stop s) as [[b a]|]; [|done]. intros [= <- <-].
  destruct (IH b a eq_refl) as (-> & Hb & Ha). cbn. by rewrite E.
Qed.

Lemma find_None stop s : find stop s = None -> free_of stop s = true.
Proof.
  induction s as [|c s IH]; cbn; [done|]. destruct (stop c); [done|].
  destruct (find stop s) as [[]|]; [done|]. intros _. by apply IH.
Qed.

Lemma find_free stop s : free_of stop s = true -> find stop s = None.
Proof.
  induction s as [|c s IH]; cbn; [done|]. intros H. apply andb_prop in H as [H1 H2].
  apply negb_true_iff in H1. by rewrite H1, IH.
Qed.

Lemma find_app stop before c rest :
  free_of stop before = true -> stop c = true ->
  find stop (before +:+ String c rest) = Some (before, String c rest).
Proof.
  intros Hb Hc. induction before as [|x before IH].
  { rewrite string_nil_app. cbn. by rewrite Hc. }
  rewrite string_cons_app. cbn in *. apply andb_prop in Hb as [H1 H2]. apply negb_true_iff in H1. by rewrite H1, IH.
Qed.

Lemma free_of_weaken (stop stop' : Ascii.ascii -> bool) s :
  (forall c, stop' c = true -> stop c = true) -> free_of stop s = true -> free_of stop' s = true.
Proof.
  intros Hw. induction s as [|c s IH]; cbn; [done|]. intros H. apply andb_prop in H as [H1 H2].
  rewrite IH by done. rewrite andb_true_r. apply negb_true_iff. apply negb_true_iff in H1.
  destruct (stop' c) eqn:E; [|done]. by rewrite (Hw c E) in H1.
Qed.

Lemma string_app_assoc (a b c : string) : (a +:+ b) +:+ c = a +:+ (b +:+ c).
Proof. induction a as [|x a IH]; [done|]. by rewrite !string_cons_app, IH. Qed.
Lemma string_app_nil (a : string) : a +:+ "" = a.
Proof. induction a as [|x a IH]; [done|]. by rewrite !string_cons_app, IH. Qed.
Lemma slen_app (a b : string) : slen (a +:+ b) = slen a + slen b.
Proof.
  unfold slen. induction a as [|x a IH]; [done|]. rewrite string_cons_app. cbn [String.length]. lia.
Qed.
Lemma slen_cons c s : slen (String c s) = 1 + slen s.
Proof. unfold slen. cbn [String.length]. lia. Qed.
Lemma slen_nonneg s : 0 <= slen s.
Proof. unfold slen. lia. Qed.

(** ** Paths *)

Definition slash : Ascii.ascii := "/"%char.
Definition backslash : Ascii.ascii := Ascii.ascii_of_nat 92.
Definition nul : Ascii.ascii := Ascii.zero.

Definition starts_slash (s : string) : bool :=
  match s with String c _ => Ascii.eqb c slash | EmptyString => false end.

Fixpoint ends_slash (s : string) : bool :=
  match s with
  | EmptyString => false
  | String c EmptyString => Ascii.eqb c slash
  | String _ s' => ends_slash s'
  end.

(** [text.contains("//")] *)
Fixpoint double_slash (s : string) : bool :=
  match s with
  | EmptyString => false
  | String c s' => (Ascii.eqb c slash && starts_slash s') || double_slash s'
  end.

(** [text.split('/')] *)
Fixpoint split_slash (s : string) : list string :=
  match s with
  | EmptyString => [EmptyString]
  | String c s' =>
      if Ascii.eqb c slash then EmptyString :: split_slash s'
      else match split_slash s' with
           | p :: ps => String c p :: ps
           | [] => [String c EmptyString]
           end
  end.

(** The ranges of the bytes that follow the first byte of a character. *)
Definition utf8_follow (b : Z) : option (list (Z * Z)) :=
  let c := (128, 191) in
  if b <? 128 then Some []
  else if b <? 194 then None
  else if b <? 224 then Some [c]
  else if b =? 224 then Some [(160, 191); c]
  else if b =? 237 then Some [(128, 159); c]
  else if b <? 240 then Some [c; c]
  else if b =? 240 then Some [(144, 191); c; c]
  else if b <? 244 then Some [c; c; c]
  else if b =? 244 then Some [(128, 143); c; c]
  else None.

Fixpoint utf8_from (expected : list (Z * Z)) (s : string) : bool :=
  match s with
  | EmptyString => match expected with [] => true | _ => false end
  | String c s' =>
      let b := Z.of_N (N_of_ascii c) in
      match expected with
      | [] => match utf8_follow b with Some e => utf8_from e s' | None => false end
      | (lo, hi) :: e => (lo <=? b) && (b <=? hi) && utf8_from e s'
      end
  end.

Definition utf8 (s : string) : bool := utf8_from [] s.

(** [Path::to_str] *)
Definition to_str (path : string) : option string := if utf8 path then Some path else None.

Inductive Component := RootDir | CurDir | ParentDir | Normal (name : string).

#[export] Instance Component_eq_dec : EqDecision Component.
Proof. solve_decision. Defined.

Definition is_absolute (path : string) : bool := starts_slash path.

(** The component of one part between separators: empty parts and inner [.]
    are skipped, a leading [.] of a relative path is kept. *)
Definition part_component (leading : bool) (part : string) : list Component :=
  if String.eqb part "" then []
  else if String.eqb part "." then (if leading then [CurDir] else [])
  else if String.eqb part ".." then [ParentDir]
  else [Normal part].

Definition inner_components (parts : list string) : list Component :=
  concat (map (part_component false) parts).

Definition components (path : string) : list Component :=
  (if is_absolute path then [RootDir] else []) ++
  match split_slash path with
  | [] => []
  | p :: ps => part_component (negb (is_absolute path)) p ++ inner_components ps
  end.

(** [Path == Path], [Path::starts_with] and [Path::join]. *)
Definition path_eq (a b : string) : bool := bool_decide (components a = components b).

Fixpoint is_prefix (base l : list Component) : bool :=
  match base, l with
  | [], _ => true
  | b :: base', c :: l' => bool_decide (b = c) && is_prefix base' l'
  | _ :: _, [] => false
  end.

Definition path_starts_with (path base : string) : bool := is_prefix (components base) (components path).

Definition path_join (path extra : string) : string :=
  if is_absolute extra then extra
  else if String.eqb path "" || ends_slash path then path +:+ extra
  else path +:+ String slash extra.

(** [str::starts_with] and [str::ends_with] of a text. *)
Definition str_starts_with (s p : string) : bool := String.prefix p s.

Definition str_ends_with (s p : string) : bool :=
  (slen p <=? slen s) && String.eqb (String.substring (String.length s - String.length p) (String.length p) s) p.

(** [str::get(..n)] and [str::get(n..)]: what is before and from the byte [n]
    on, if it lies between characters. *)
Definition str_prefix (s : string) (n : Z) : option string :=
  let p := String.substring 0 (Z.to_nat n) s in
  if (n <=? slen s) && utf8 p then Some p else None.

Definition str_suffix (s : string) (n : Z) : option string :=
  match str_prefix s n with
  | Some _ => Some (String.substring (Z.to_nat n) (String.length s - Z.to_nat n) s)
  | None => None
  end.

(** [Path::file_name] *)
Definition file_name (path : string) : option string :=
  match last (components path) with
  | Some (Normal name) => Some name
  | _ => None
  end.

Fixpoint join_slash (parts : list string) : string :=
  match parts with
  | [] => ""
  | [p] => p
  | p :: ps => p +:+ String slash (join_slash ps)
  end.

(** Drops the parts at the front that are no components. *)
Fixpoint drop_blank (parts : list string) : list string :=
  match parts with
  | p :: ps => if String.eqb p "" || String.eqb p "." then drop_blank ps else parts
  | [] => []
  end.

Definition trim_right (parts : list string) : list string := reverse (drop_blank (reverse parts)).

(** [Path::parent]: the text before the last component, without the separators
    and [.] parts that follow it. *)
Definition parent (path : string) : option string :=
  match split_slash path with
  | [] => None
  | first :: ps =>
      match reverse (trim_right ps) with
      | [] => if String.eqb first "" then None else Some ""
      | _ :: up =>
          match trim_right (reverse up) with
          | [] => Some (if is_absolute path then "/" else first)
          | ps' => Some (join_slash (first :: ps'))
          end
      end
  end.

(** [Path::strip_prefix], as the components that remain. *)
Definition strip_prefix (path base : string) : option (list Component) :=
  if path_starts_with path base then Some (drop (length (components base)) (components path)) else None.

(** [Path::with_file_name] *)
Definition with_file_name (path name : string) : string :=
  match file_name path with
  | Some _ => path_join (default "" (parent path)) name
  | None => path_join path name
  end.

(** [Component::as_os_str] *)
Definition as_os_str (c : Component) : string :=
  match c with RootDir => "/" | CurDir => "." | ParentDir => ".." | Normal name => name end.

(** ** Components of joined paths *)

Lemma split_slash_cons s : exists p ps, split_slash s = p :: ps.
Proof.
  destruct s as [|c s]; cbn; [eauto|]. destruct (Ascii.eqb c slash); [eauto|].
  destruct (split_slash s); eauto.
Qed.

Lemma split_slash_app a b : split_slash (a +:+ String slash b) = split_slash a ++ split_slash b.
Proof.
  induction a as [|c a IH]; [done|]. rewrite string_cons_app. cbn [split_slash]. rewrite IH.
  destruct (Ascii.eqb c slash); [done|].
  destruct (split_slash_cons a) as (p & ps & ->). done.
Qed.

Lemma contains_cons c x s : contains c (String x s) = Ascii.eqb c x || contains c s.
Proof.
  unfold contains. cbn [find]. destruct (Ascii.eqb c x); [done|]. by destruct (find _ s) as [[]|].
Qed.

Lemma contains_app c a b : contains c (a +:+ b) = contains c a || contains c b.
Proof.
  induction a as [|x a IH]; [done|]. change (String x a +:+ b) with (String x (a +:+ b)).
  by rewrite !contains_cons, IH, orb_assoc.
Qed.

Lemma split_slash_whole s : contains slash s = false -> split_slash s = [s].
Proof.
  induction s as [|c s IH]; [done|]. rewrite contains_cons, orb_false_iff. intros [Hc Hs].
  cbn [split_slash]. by rewrite Ascii.eqb_sym, Hc, IH.
Qed.

Lemma ends_slash_inv s : ends_slash s = true -> exists s', s = s' +:+ String slash "".
Proof.
  induction s as [|c s IH]; [done|]. destruct s as [|d s].
  - cbn. intros H. apply Ascii.eqb_eq in H as ->. by exists "".
  - intros H. destruct IH as [s' Hs]; [done|]. exists (String c s'). by rewrite string_cons_app, Hs.
Qed.

Lemma inner_components_app l l' : inner_components (l ++ l') = inner_components l ++ inner_components l'.
Proof. unfold inner_components. by rewrite map_app, concat_app. Qed.

Lemma components_absolute s :
  is_absolute s = true -> components s = RootDir :: inner_components (split_slash s).
Proof.
  destruct s as [|c s]; [done|]. intros H. unfold components. rewrite H. cbn [negb app].
  by destruct (split_slash (String c s)).
Qed.

(** Joining a relative path appends its components. *)
Lemma path_join_absolute a b : is_absolute a = true -> is_absolute b = false -> is_absolute (path_join a b) = true.
Proof. intros Ha Hb. unfold path_join. rewrite Hb. destruct a; [done|]. by destruct (_ || _). Qed.

Lemma components_join a b :
  is_absolute a = true -> is_absolute b = false ->
  components (path_join a b) = components a ++ inner_components (split_slash b).
Proof.
  intros Ha Hb. rewrite (components_absolute _ (path_join_absolute _ _ Ha Hb)), components_absolute by done.
  unfold path_join. rewrite Hb. replace (String.eqb a "") with false by by destruct a. cbn [orb app].
  f_equal. destruct (ends_slash a) eqn:E.
  - apply ends_slash_inv in E as [a' ->].
    rewrite string_app_assoc, string_cons_app, string_nil_app, !split_slash_app, !inner_components_app.
    by rewrite app_nil_r.
  - by rewrite split_slash_app, inner_components_app.
Qed.

(** The name of one file or directory. *)
Definition normal_name (name : string) : Prop :=
  name <> "" /\ name <> "." /\ name <> ".." /\ contains slash name = false.

Lemma split_slash_parts s : Forall (fun p => contains slash p = false) (split_slash s).
Proof.
  induction s as [|c s IH]; [by constructor|]. cbn [split_slash].
  destruct (Ascii.eqb c slash) eqn:E; [by constructor|]. rewrite Ascii.eqb_sym in E.
  destruct (split_slash s) as [|p ps].
  - constructor; [|done]. by rewrite contains_cons, E.
  - apply Forall_cons in IH as [H1 H2]. constructor; [|done]. by rewrite contains_cons, E.
Qed.

Lemma is_prefix_spec a b : is_prefix a b = true <-> a `prefix_of` b.
Proof.
  revert b. induction a as [|x a IH]; intros b; cbn.
  { split; [intros _; apply prefix_nil|done]. }
  destruct b as [|y b]; [split; [done|by intros ?%prefix_nil_not]|].
  rewrite andb_true_iff, bool_decide_eq_true, IH. split.
  - intros [-> H]. by apply prefix_cons.
  - intros H. split; [by eapply prefix_cons_inv_1|by eapply prefix_cons_inv_2].
Qed.

