(* ===== verification/WavMath.v ===== *)
(** * Frame and WAV arithmetic (src/math.rs)

    Ring sizing, chunk sizing and the split of one channel into WAV parts. The
    theorems show that the parts tile the frame range, that each part with its
    header fits in the configured limit and that the closed-form part count is
    the number of parts. *)
From S2P Require Import Prelude.
From S2P Require Import Errors.

Definition WAV_SPLIT_DEFAULT_BYTES : Z := 3900000000.
Definition WAV_HEADER_BYTES : Z := 44.

Record WavPart := mkWavPart { start_frame : Z; frame_count : Z }.

(** [headroom < 1.0 || !headroom.is_finite()] *)
Definition bad_headroom (headroom : f64) : bool :=
  SFltb headroom (f64_of_Z 1) || negb (is_finite headroom).

Definition estimate_ring_bytes
    (seconds sample_rate channels bytes_per_sample : Z) (headroom : f64) : Result Z :=
  if bad_headroom headroom
  then Err (Validation "headroom must be finite and >= 1.0")
  else
    let? frames := ok_or (mul_checked seconds sample_rate)
                     (Validation "frame count overflow") in
    let? raw := ok_or (match mul_checked frames channels with
                       | Some v => mul_checked v bytes_per_sample
                       | None => None
                       end) (Validation "ring byte estimate overflow") in
    let with_headroom := f64_mul (f64_of_Z raw) headroom in
    if SFltb (f64_of_Z u64_max) with_headroom
    then Err (Validation "ring byte estimate overflow")
    else Ok (f64_to_u64 (f64_ceil with_headroom)).

Definition derive_chunk_frames (sample_rate : Z) (requested : option Z) : Result Z :=
  if sample_rate =? 0 then Err (Validation "sampleRate must be > 0")
  else match requested with
  | Some frames =>
      if frames =? 0 then Err (Validation "chunkFrames must be > 0") else Ok frames
  | None =>
      let frames := wrap64 (sample_rate * 250) / 1000 in
      Ok (wrap32 (Z.max frames 1))
  end.

Definition descriptor_count (seconds sample_rate chunk_frames : Z) : Result Z :=
  if chunk_frames =? 0 then Err (Validation "chunkFrames must be > 0")
  else
    let? frames := ok_or (mul_checked seconds sample_rate)
                     (Validation "descriptor frame count overflow") in
    Ok (div_ceil frames chunk_frames).

Definition wav_frames_per_part (bytes_per_frame split_when_over_bytes : Z) : Result Z :=
  if bytes_per_frame =? 0 then Err (Validation "bytes_per_frame must be > 0")
  else if split_when_over_bytes <=? WAV_HEADER_BYTES
  then Err (Validation "splitWhenOverBytes must leave room for WAV data")
  else
    let max_data := split_when_over_bytes - WAV_HEADER_BYTES in
    let frames_per_part := max_data / bytes_per_frame in
    if frames_per_part =? 0
    then Err (Validation "splitWhenOverBytes is too small for one frame")
    else Ok frames_per_part.

(** The body of the [while start < total_frames] loop; the parts pushed so far
    are kept in reverse. *)
Definition wav_parts_step (total_frames frames_per_part : Z)
    (st : Z * list WavPart) : (Z * list WavPart) + list WavPart :=
  let '(start, parts) := st in
  if start <? total_frames then
    let remaining := total_frames - start in
    let count := Z.min remaining frames_per_part in
    inl (wrap64 (start + count), mkWavPart start count :: parts)
  else inr (rev parts).

Definition wav_parts_for_channel
    (total_frames bytes_per_frame split_when_over_bytes : Z) : Result (list WavPart) :=
  let? frames_per_part := wav_frames_per_part bytes_per_frame split_when_over_bytes in
  unwrap (loop (wav_parts_step total_frames frames_per_part) (0, [])).

Definition wav_part_count
    (total_frames bytes_per_frame split_when_over_bytes : Z) : Result Z :=
  let? frames_per_part := wav_frames_per_part bytes_per_frame split_when_over_bytes in
  Ok (div_ceil total_frames frames_per_part).

(** ** Specification *)

(** The parts cover the frames from [from] to [to] in order, without gap or
    overlap; every part has a frame and at most [most] of them. *)
Fixpoint tiles (most from to : Z) (parts : list WavPart) : Prop :=
  match parts with
  | [] => from = to
  | p :: rest =>
      start_frame p = from /\ 0 < frame_count p <= most /\
      tiles most (from + frame_count p) to rest
  end.

Lemma tiles_app most a b c ps qs :
  tiles most a b ps -> tiles most b c qs -> tiles most a c (ps ++ qs).
Proof.
  revert a. induction ps as [|p ps IH]; cbn; intros a H1 H2.
  - subst. done.
  - destruct H1 as (? & ? & ?). eauto.
Qed.

Lemma wav_frames_per_part_inv bpf split fpp :
  0 <= bpf -> is_u64 split -> wav_frames_per_part bpf split = Ok fpp ->
  0 < bpf /\ WAV_HEADER_BYTES < split /\ fpp = (split - WAV_HEADER_BYTES) / bpf /\
  0 < fpp <= u64_max /\ fpp * bpf + WAV_HEADER_BYTES <= split.
Proof.
  unfold wav_frames_per_part, is_u64. intros Hb Hs.
  destruct (bpf =? 0) eqn:E1; [done|]. destruct (split <=? _) eqn:E2; [done|].
  destruct (_ / _ =? 0) eqn:E3; [done|]. intros [= <-]. to_prop. unfold WAV_HEADER_BYTES in *.
  pose proof (Z.div_pos (split - 44) bpf ltac:(lia) ltac:(lia)).
  pose proof (Z.mul_div_le (split - 44) bpf ltac:(lia)).
  pose proof (Z.div_le_upper_bound (split - 44) bpf (split - 44) ltac:(lia) ltac:(nia)).
  split_and!; try lia.
Qed.

(** The loop returns, with parts that tile the range and are as many as the
    closed form says. *)
Lemma wav_parts_loop total fpp :
  is_u64 total -> 0 < fpp ->
  exists parts, loop (wav_parts_step total fpp) (0, []) = Some parts /\
    tiles fpp 0 total parts /\ Z.of_nat (length parts) = div_ceil total fpp.
Proof.
  intros Ht Hf.
  destruct (loop_rule (wav_parts_step total fpp)
    (fun '(start, ps) => 0 <= start <= total /\ tiles fpp 0 start (rev ps) /\
       (start = total \/ start = zlen ps * fpp) /\
       zlen ps = div_ceil start fpp)
    (fun '(start, _) => total - start)
    (fun ps => tiles fpp 0 total ps /\ zlen ps = div_ceil total fpp))
    with (s := (0, @nil WavPart)) as (ps & ? & ? & ?).
  - intros [start ps] (Hr & Htile & Hfull & Hlen). unfold wav_parts_step.
    destruct (start <? total) eqn:E; to_prop.
    + destruct Hfull as [->|Hfull]; [lia|].
      rewrite wrap64_small by (unfold is_u64 in *; lia). split; [|lia].
      cbn [rev]. unfold zlen in *. cbn [length]. split_and!; try lia.
      * eapply tiles_app; [done|]. cbn. lia.
      * set (c := Z.min _ _).
        pose proof (div_ceil_spec (start + c) fpp Hf). nia.
    + assert (start = total) as -> by lia. split; [done|].
      unfold zlen in *. rewrite length_rev. done.
  - unfold is_u64 in *. unfold zlen, div_ceil. cbn.
    split_and!; try lia. rewrite Z.div_small; lia.
  - unfold is_u64 in *. lia.
  - eauto.
Qed.

(** A tiling of at most [most] frames per part keeps every part with its WAV
    header within the byte limit. *)
Lemma tiles_bytes most from to bpf split parts :
  0 < bpf -> most * bpf + WAV_HEADER_BYTES <= split -> tiles most from to parts ->
  Forall (fun p => frame_count p * bpf + WAV_HEADER_BYTES <= split) parts.
Proof.
  intros Hb Hm. revert from. induction parts as [|p ps IH]; intros from H; [done|].
  destruct H as (? & ? & ?). constructor; [nia | eauto].
Qed.

(** Splitting a channel of [total] frames: the loop always returns; the parts
    tile [0, total) in order without gap or overlap, each part holds at least one
    frame, each part with its 44-byte header fits the split limit, and
    [wav_part_count] is exactly the number of parts. *)
Theorem wav_parts_tile_and_fit total bpf split fpp :
  is_u64 total -> is_u32 bpf -> is_u64 split ->
  wav_frames_per_part bpf split = Ok fpp ->
  exists parts,
    wav_parts_for_channel total bpf split = Ok parts /\
    tiles fpp 0 total parts /\
    Forall (fun p => frame_count p * bpf + WAV_HEADER_BYTES <= split) parts /\
    wav_part_count total bpf split = Ok (Z.of_nat (length parts)).
Proof.
  intros Ht Hb Hs Hf. unfold wav_parts_for_channel, wav_part_count. rewrite Hf. cbn.
  destruct (wav_frames_per_part_inv bpf split fpp) as (? & ? & ? & ? & ?);
    [unfold is_u32 in *; lia | done | done |].
  destruct (wav_parts_loop total fpp) as (ps & -> & Htile & <-); [done | lia |].
  exists ps. split_and!; try done. eapply tiles_bytes; [| |done]; lia.
Qed.

Lemma wav_parts_tile_and_fit_witness :
  wav_parts_for_channel 5 3 50 =
    Ok [mkWavPart 0 2; mkWavPart 2 2; mkWavPart 4 1] /\
  exists parts, wav_parts_for_channel 5 3 50 = Ok parts /\
    tiles 2 0 5 parts /\
    Forall (fun p => frame_count p * 3 + WAV_HEADER_BYTES <= 50) parts /\
    wav_part_count 5 3 50 = Ok (Z.of_nat (length parts)).
Proof.
  split; [reflexivity|].
  apply (wav_parts_tile_and_fit 5 3 50 2); unfold is_u64, is_u32, u64_max, u32_max; [lia..|].
  reflexivity.
Defined.
