(* ===== verification/MemoryPlan.v ===== *)
(** * Session memory plan (src/memory_plan.rs)

    Every buffer a capture session needs is budgeted before capture starts, in
    checked [u64] arithmetic; the plan is then compared with the configured
    maximum. [calculate] is the source's function, cut into consecutive pieces
    (one definition per group of budgets) that run in the source's order. *)
From S2P Require Import Prelude.
From S2P Require Import Errors.
From S2P Require Import WavMath.

(** What the plan takes from the platform: the page size [sysconf] reports,
    whether the allocator can provide a block, and the size the compiler gives
    to the one private slot type whose layout the language does not fix. *)
Class Platform := {
  sysconf_page_size : Z;
  can_allocate : Z -> bool;
  size_of_current_artifact_slot : Z;
}.

(** The sample format (src/sample_ring.rs). *)
Inductive SampleFormat := F32Le.

Definition RING_COUNT : Z := 2.
Definition WAV_SAMPLE_BYTES : Z := 3.
Definition OUTPUT_PATH_SLOTS_PER_PART : Z := 2.
Definition MANIFEST_FIXED_PATH_ENTRIES : Z := 5.
Definition ALLOCATOR_HEADER_RESERVE_BYTES : Z := 64.
Definition RING_CHUNK_OBJECT_RESERVE_BYTES : Z := 512.
Definition RING_FIXED_METADATA_RESERVE_BYTES : Z := 512.
Definition SPLIT_PART_SLOT_BYTES : Z := 32.
Definition FILE_WRITER_SLOT_BYTES : Z := 256.
Definition PATH_SLOT_METADATA_BYTES : Z := 32.
Definition MANIFEST_ENTRY_METADATA_BYTES : Z := 128.
Definition MANIFEST_DIRECTORY_METADATA_BYTES : Z := 64.
Definition MANIFEST_PATH_ESCAPE_MULTIPLIER : Z := 6.
Definition MANIFEST_JSON_ENTRY_OVERHEAD_BYTES : Z := 256.
Definition MANIFEST_JSON_DIRECTORY_OVERHEAD_BYTES : Z := 192.
Definition MANIFEST_JSON_FIXED_OVERHEAD_BYTES : Z := 1024.
Definition OPERATION_QUEUE_SLOT_BYTES : Z := 256.
Definition RUNTIME_METADATA_RESERVE_BYTES : Z := 512.
Definition CAPTURE_QUEUE_SLOT_METADATA_BYTES : Z := 64.
Definition CAPTURE_COMMAND_RESULT_SLOT_BYTES : Z := 512.
Definition FROZEN_EXPORT_DECISION_SLOT_BYTES : Z := 24.
Definition ACTIVITY_DETECTOR_STATE_SLOT_BYTES : Z := 104.
Definition CALIBRATION_SLOT_METADATA_BYTES : Z := 256.
Definition PUBLICATION_SYNC_SLOT_BYTES : Z := 16.

(** [size_of::<f32>()] and [size_of::<usize>()] *)
Definition size_of_f32 : Z := 4.
Definition size_of_usize : Z := 8.

Record SessionMemoryInputs := mkInputs {
  in_retention_frames : Z;
  in_channels : Z;
  in_sample_rate : Z;
  in_sample_format : SampleFormat;
  in_chunk_frames : Z;
  in_max_active_snapshots : Z;
  in_sample_bytes : Z;
  in_split_when_over_bytes : Z;
  in_control_queue_capacity : Z;
  in_worker_stack_bytes : Z;
  in_capture_queue_slots : Z;
  in_capture_slot_frames : Z;
  in_capture_worker_stack_bytes : Z;
  in_io_buffer_bytes_per_channel : Z;
  in_maximum_path_bytes : Z;
  in_maximum_calibration_seconds : Z;
  in_headroom : f64;
}.

Record MemoryComponent := mkComponent { component_name : string; bytes : Z }.

Record SessionMemoryPlan := mkPlan {
  components : list MemoryComponent;
  committed_bytes : Z;
  required_with_headroom : Z;
  retention_frames : Z;
  allocated_retention_frames : Z;
  channels : Z;
  sample_rate : Z;
  sample_format : SampleFormat;
  chunk_frames : Z;
  chunk_count : Z;
  max_active_snapshots : Z;
  sample_bytes : Z;
  capture_queue_slots : Z;
  capture_slot_frames : Z;
  capture_worker_stack_bytes : Z;
  split_when_over_bytes : Z;
  io_buffer_bytes_per_channel : Z;
  maximum_path_bytes : Z;
  maximum_wav_parts_per_channel : Z;
  output_file_slots : Z;
  path_slots : Z;
  manifest_paths_bytes : Z;
  manifest_directory_slots : Z;
  publication_scratch : Z;
  calibration_sample_frames : Z;
  calibration_complete_windows : Z;
  calibration_window_frames : Z;
  calibration_hop_frames : Z;
}.

Definition checked_add (context : string) (left right : Z) : Result Z :=
  ok_or (add_checked left right) (Validation context).
Definition checked_mul (context : string) (left right : Z) : Result Z :=
  ok_or (mul_checked left right) (Validation context).

(** [u64::checked_sub] turned into the function's error. *)
Definition checked_pad (context : string) (left right : Z) : Result Z :=
  ok_or (sub_checked left right) (Validation context).

(** The first name whose value is zero. *)
Fixpoint require_positive (l : list (string * Z)) : Result unit :=
  match l with
  | [] => Ok tt
  | (name, value) :: rest =>
      if value =? 0 then Err (Validation (name +:+ " must be > 0")) else require_positive rest
  end.

Definition validate_inputs (inputs : SessionMemoryInputs) : Result unit :=
  if 30 <? in_maximum_calibration_seconds inputs
  then Err (Validation "maximum_calibration_seconds must be <= 30")
  else
    let? _ := require_positive
      [("retention_frames", in_retention_frames inputs);
       ("channels", in_channels inputs);
       ("sample_rate", in_sample_rate inputs);
       ("chunk_frames", in_chunk_frames inputs);
       ("max_active_snapshots", in_max_active_snapshots inputs);
       ("sample_bytes", in_sample_bytes inputs);
       ("control_queue_capacity", in_control_queue_capacity inputs);
       ("worker_stack_bytes", in_worker_stack_bytes inputs);
       ("capture_queue_slots", in_capture_queue_slots inputs);
       ("capture_slot_frames", in_capture_slot_frames inputs);
       ("capture_worker_stack_bytes", in_capture_worker_stack_bytes inputs);
       ("io_buffer_bytes_per_channel", in_io_buffer_bytes_per_channel inputs);
       ("maximum_path_bytes", in_maximum_path_bytes inputs)] in
    if negb (in_sample_bytes inputs =? size_of_f32)
    then Err (Validation "sample_bytes must be 4 for the supported f32 ring layout")
    else match in_sample_format inputs with
    | F32Le =>
        if bad_headroom (in_headroom inputs)
        then Err (Validation "headroom must be finite and >= 1.0")
        else Ok tt
    end.

(** [u128::trailing_zeros] of a positive number. *)
Fixpoint trailing_zeros_pos (p : positive) : Z :=
  match p with
  | xO q => 1 + trailing_zeros_pos q
  | _ => 0
  end.
Definition trailing_zeros_u128 (x : Z) : Z :=
  match x with Z.pos p => trailing_zeros_pos p | _ => 128 end.

(** [u128::checked_shl] fails only when the shift amount is not below the
    width; the bits shifted out are lost. *)
Definition checked_shl_u128 (x n : Z) : option Z :=
  if n <? 128 then Some (Z.shiftl x n mod 2 ^ 128) else None.

(** The headroom as the exact ratio [numerator / denominator]. *)
Definition headroom_ratio (headroom : f64) : Result (Z * Z) :=
  let bits := f64_to_bits headroom in
  let exponent := Z.land (Z.shiftr bits 52) 2047 - 1023 - 52 in
  let numerator := Z.lor (Z.land bits (2 ^ 52 - 1)) (2 ^ 52) in
  if exponent <? 0 then
    let common_power := Z.min (trailing_zeros_u128 numerator) (- exponent) in
    let numerator := Z.shiftr numerator common_power in
    let? denominator := ok_or (checked_shl_u128 1 (- exponent - common_power))
                          (Validation "headroom ratio exponent overflow") in
    Ok (numerator, denominator)
  else
    let? numerator := ok_or (checked_shl_u128 numerator exponent)
                        (Validation "headroom ratio overflow") in
    Ok (numerator, 1).

Definition required_bytes_with_headroom (committed_bytes : Z) (headroom : f64) : Result Z :=
  if bad_headroom headroom
  then Err (Validation "headroom must be finite and >= 1.0")
  else
    let? r := headroom_ratio headroom in
    let '(numerator, denominator) := r in
    let? product := ok_or (checked u128_max (committed_bytes * numerator))
                      (Validation "memory requirement overflow") in
    let quotient := product / denominator in
    let? required := ok_or (checked u128_max
                        (quotient + (if product mod denominator =? 0 then 0 else 1)))
                      (Validation "memory requirement overflow") in
    ok_or (checked u64_max required) (Validation "memory requirement with headroom overflow").

Section budgets.
Context `{Platform}.

Definition system_page_size : Z :=
  if (0 <? sysconf_page_size) && (sysconf_page_size <=? u64_max)
  then sysconf_page_size else 4096.

Definition allocation_budget_bytes (payload_bytes : Z) : Result Z :=
  let? reserved := checked_add "allocation reserve overflow"
                     payload_bytes ALLOCATOR_HEADER_RESERVE_BYTES in
  checked_mul "page-rounded allocation budget overflow"
    (div_ceil reserved system_page_size) system_page_size.

Record RingMetadataBudget := mkRingMetadata {
  sample_allocator_padding : Z;
  chunk_objects : Z;
  chunk_index : Z;
  fixed : Z;
}.

Definition ring_metadata_total (b : RingMetadataBudget) : Result Z :=
  let? subtotal := checked_add "ring metadata budget overflow"
                     (sample_allocator_padding b) (chunk_objects b) in
  let? subtotal := checked_add "ring metadata budget overflow" subtotal (chunk_index b) in
  checked_add "ring metadata budget overflow" subtotal (fixed b).

Definition ring_metadata_budget (chunk_object_count chunk_sample_bytes : Z)
    : Result RingMetadataBudget :=
  let? chunk_object_allocation := allocation_budget_bytes RING_CHUNK_OBJECT_RESERVE_BYTES in
  let? chunk_objects := checked_mul "ring chunk object budget overflow"
                          chunk_object_count chunk_object_allocation in
  let? chunk_index_payload := checked_mul "ring chunk index payload overflow"
                                chunk_object_count size_of_usize in
  let? sample_allocation := allocation_budget_bytes chunk_sample_bytes in
  let? sample_allocator_padding := checked_pad "ring sample allocator padding underflow"
                                     sample_allocation chunk_sample_bytes in
  let? padding := checked_mul "ring sample allocator padding overflow"
                    chunk_object_count sample_allocator_padding in
  let? chunk_index := allocation_budget_bytes chunk_index_payload in
  let? fixed := allocation_budget_bytes RING_FIXED_METADATA_RESERVE_BYTES in
  Ok (mkRingMetadata padding chunk_objects chunk_index fixed).

(** *** The two retention rings *)
Record RingBudget := mkRingBudget {
  rb_chunk_count : Z;
  rb_allocated_frames : Z;
  rb_samples : Z;
  rb_sample_allocator_padding : Z;
  rb_chunk_objects : Z;
  rb_chunk_index : Z;
  rb_fixed_metadata : Z;
}.

Definition ring_budget (inputs : SessionMemoryInputs) : Result RingBudget :=
  let chunk_count := div_ceil (in_retention_frames inputs) (in_chunk_frames inputs) in
  let? chunk_count := ok_or (checked u32_max chunk_count)
                        (Validation "ring chunk count exceeds supported maximum") in
  let? allocated_frames := checked_mul "ring frame allocation overflow"
                             chunk_count (in_chunk_frames inputs) in
  let? samples_per_ring := checked_mul "ring sample count overflow"
                             allocated_frames (in_channels inputs) in
  let? sample_bytes_per_ring := checked_mul "ring sample byte count overflow"
                                  samples_per_ring (in_sample_bytes inputs) in
  let? ring_samples := checked_mul "dual-ring sample byte count overflow"
                         sample_bytes_per_ring RING_COUNT in
  let? chunk_samples := checked_mul "chunk sample count overflow"
                          (in_chunk_frames inputs) (in_channels inputs) in
  let? chunk_sample_bytes := checked_mul "chunk sample byte count overflow"
                               chunk_samples (in_sample_bytes inputs) in
  let? ring_metadata := ring_metadata_budget chunk_count chunk_sample_bytes in
  let? padding := checked_mul "dual-ring sample allocator padding overflow"
                    (sample_allocator_padding ring_metadata) RING_COUNT in
  let? objects := checked_mul "dual-ring chunk object budget overflow"
                    (chunk_objects ring_metadata) RING_COUNT in
  let? index := checked_mul "dual-ring chunk index budget overflow"
                  (chunk_index ring_metadata) RING_COUNT in
  let? fixed := checked_mul "dual-ring fixed metadata budget overflow"
                  (fixed ring_metadata) RING_COUNT in
  Ok (mkRingBudget chunk_count allocated_frames ring_samples padding objects index fixed).

(** *** The capture ingress queue and worker *)
Record QueueBudget := mkQueueBudget {
  qb_samples : Z;
  qb_slot_metadata : Z;
  qb_command_result_slot : Z;
  qb_worker_stack : Z;
}.

Definition capture_queue_budget (inputs : SessionMemoryInputs) : Result QueueBudget :=
  let? samples := checked_mul "capture slot sample count overflow"
                    (in_capture_slot_frames inputs) (in_channels inputs) in
  let? capture_slot_sample_bytes := checked_mul "capture slot sample byte count overflow"
                                      samples (in_sample_bytes inputs) in
  let? slot_allocation := allocation_budget_bytes capture_slot_sample_bytes in
  let? queue_samples := checked_mul "capture queue sample storage overflow"
                          (in_capture_queue_slots inputs) slot_allocation in
  let? slot_metadata := checked_mul "capture queue slot metadata overflow"
                          (in_capture_queue_slots inputs) CAPTURE_QUEUE_SLOT_METADATA_BYTES in
  let? slot_metadata := allocation_budget_bytes slot_metadata in
  let? command_slot := allocation_budget_bytes CAPTURE_COMMAND_RESULT_SLOT_BYTES in
  let? worker_stack := allocation_budget_bytes (in_capture_worker_stack_bytes inputs) in
  Ok (mkQueueBudget queue_samples slot_metadata command_slot worker_stack).

(** *** The calibration buffers *)
Record CalibrationBudget := mkCalibrationBudget {
  cb_sample_frames : Z;
  cb_window_frames : Z;
  cb_hop_frames : Z;
  cb_complete_windows : Z;
  cb_samples : Z;
  cb_rms : Z;
  cb_peak : Z;
  cb_slot_metadata : Z;
}.

Definition calibration_allocation (payload : Z) : Result Z :=
  if payload =? 0 then Ok 0 else allocation_budget_bytes payload.

Definition calibration_budget (inputs : SessionMemoryInputs) : Result CalibrationBudget :=
  let? sample_frames := checked_mul "calibration sample frame count overflow"
                          (in_maximum_calibration_seconds inputs) (in_sample_rate inputs) in
  let? window := checked_mul "calibration window geometry overflow" (in_sample_rate inputs) 20 in
  let window_frames := Z.max (div_ceil window 1000) 1 in
  let? hop := checked_mul "calibration hop geometry overflow" (in_sample_rate inputs) 10 in
  let hop_frames := Z.max (div_ceil hop 1000) 1 in
  let? complete_windows :=
    if (sample_frames =? 0) || (sample_frames <? window_frames) then Ok 0
    else ok_or (match sub_checked sample_frames window_frames with
                | Some remaining => add_checked (remaining / hop_frames) 1
                | None => None
                end) (Validation "calibration window count overflow") in
  let? samples_payload := checked_mul "calibration sample storage overflow"
                            sample_frames size_of_f32 in
  let? rms_payload := checked_mul "calibration RMS storage overflow"
                        complete_windows size_of_f32 in
  let? samples := calibration_allocation samples_payload in
  let? rms := calibration_allocation rms_payload in
  let? peak := calibration_allocation rms_payload in
  let? slot_metadata := allocation_budget_bytes CALIBRATION_SLOT_METADATA_BYTES in
  Ok (mkCalibrationBudget sample_frames window_frames hop_frames complete_windows
        samples rms peak slot_metadata).

(** *** The persistence workspace *)
Record WorkspaceBudget := mkWorkspaceBudget {
  wb_interleaved_scratch : Z;
  wb_persistence_workspace : Z;
  wb_allocator_padding : Z;
}.

Definition workspace_budget (inputs : SessionMemoryInputs) : Result WorkspaceBudget :=
  let? samples := checked_mul "interleaved scratch sample count overflow"
                    (in_chunk_frames inputs) (in_channels inputs) in
  let? interleaved_scratch := checked_mul "interleaved scratch byte count overflow"
                                samples (in_sample_bytes inputs) in
  let? channel_io := checked_mul "channel I/O workspace overflow"
                       (in_channels inputs) (in_io_buffer_bytes_per_channel inputs) in
  let? persistence_workspace := checked_add "persistence workspace overflow"
                                  interleaved_scratch channel_io in
  let? scratch_allocation := allocation_budget_bytes interleaved_scratch in
  let? scratch_padding := checked_pad "scratch allocator padding underflow"
                            scratch_allocation interleaved_scratch in
  let? channel_allocation := allocation_budget_bytes (in_io_buffer_bytes_per_channel inputs) in
  let? channel_padding := checked_pad "channel allocator padding underflow"
                            channel_allocation (in_io_buffer_bytes_per_channel inputs) in
  let? all_channel_padding := checked_mul "channel allocator padding overflow"
                                (in_channels inputs) channel_padding in
  let? workspace_padding := checked_add "workspace allocator padding overflow"
                              scratch_padding all_channel_padding in
  Ok (mkWorkspaceBudget interleaved_scratch persistence_workspace workspace_padding).

(** *** Output files, paths and their slots *)
Record OutputBudget := mkOutputBudget {
  ob_parts_per_channel : Z;
  ob_part_slots : Z;
  ob_split_part_slots : Z;
  ob_file_writer_slots : Z;
  ob_path_slot_count : Z;
  ob_path_bytes : Z;
  ob_path_allocator_padding : Z;
  ob_path_slot_metadata : Z;
}.

Definition output_budget (inputs : SessionMemoryInputs) : Result OutputBudget :=
  let? parts_per_channel := wav_part_count (in_retention_frames inputs) WAV_SAMPLE_BYTES
                              (in_split_when_over_bytes inputs) in
  let? part_slots := checked_mul "WAV part slot count overflow"
                       parts_per_channel (in_channels inputs) in
  let? split_part_slots := checked_mul "split-part slot byte count overflow"
                             part_slots SPLIT_PART_SLOT_BYTES in
  let? split_part_slots := allocation_budget_bytes split_part_slots in
  let? file_writer_slots := checked_mul "file/writer slot byte count overflow"
                              (in_channels inputs) FILE_WRITER_SLOT_BYTES in
  let? file_writer_slots := allocation_budget_bytes file_writer_slots in
  let? output_path_slots := checked_mul "output path slot count overflow"
                              part_slots OUTPUT_PATH_SLOTS_PER_PART in
  let? path_slot_count := checked_add "path slot count overflow"
                            output_path_slots MANIFEST_FIXED_PATH_ENTRIES in
  let? path_bytes := checked_mul "path byte count overflow"
                       path_slot_count (in_maximum_path_bytes inputs) in
  let? path_allocation := allocation_budget_bytes (in_maximum_path_bytes inputs) in
  let? padding_per_slot := checked_pad "path allocator padding underflow"
                             path_allocation (in_maximum_path_bytes inputs) in
  let? path_allocator_padding := checked_mul "path allocator padding overflow"
                                   path_slot_count padding_per_slot in
  let? path_slot_metadata := checked_mul "path slot metadata byte count overflow"
                               path_slot_count PATH_SLOT_METADATA_BYTES in
  let? path_slot_metadata := allocation_budget_bytes path_slot_metadata in
  Ok (mkOutputBudget parts_per_channel part_slots split_part_slots file_writer_slots
        path_slot_count path_bytes path_allocator_padding path_slot_metadata).

(** *** The transaction manifest and publication scratch *)
Record ManifestBudget := mkManifestBudget {
  mb_entries : Z;
  mb_directory_slots : Z;
  mb_directories : Z;
  mb_publication_scratch : Z;
  mb_serialization : Z;
  mb_paths : Z;
}.

Definition publication_budget (inputs : SessionMemoryInputs) (directory_slots : Z)
    : Result Z :=
  let? component_bytes := checked_add "publication component buffer overflow"
                            (in_maximum_path_bytes inputs) 1 in
  let? sync_payload := checked_mul "publication sync slot storage overflow"
                         directory_slots PUBLICATION_SYNC_SLOT_BYTES in
  let? artifact_slot := ok_or (checked u64_max size_of_current_artifact_slot)
    (Validation "publication current artifact slot byte count overflow") in
  let? sync := allocation_budget_bytes sync_payload in
  let? component := allocation_budget_bytes component_bytes in
  let? buffers := checked_mul "publication component buffer storage overflow" 2 component in
  let? subtotal := checked_add "publication scratch overflow" sync buffers in
  let? artifact := allocation_budget_bytes artifact_slot in
  checked_add "publication scratch overflow" subtotal artifact.

Definition manifest_budget (inputs : SessionMemoryInputs) (part_slots : Z)
    : Result ManifestBudget :=
  let? entries := checked_mul "manifest entry byte count overflow"
                    part_slots MANIFEST_ENTRY_METADATA_BYTES in
  let? entries := allocation_budget_bytes entries in
  let? directory_slots := checked_mul "manifest directory slot count overflow"
                            part_slots (div_ceil (in_maximum_path_bytes inputs) 2) in
  let? directories := checked_mul "manifest directory metadata overflow"
                        directory_slots MANIFEST_DIRECTORY_METADATA_BYTES in
  let? directories := allocation_budget_bytes directories in
  let? scratch := publication_budget inputs directory_slots in
  let? path_count := checked_mul "manifest entry path count overflow" part_slots 3 in
  let? path_entries := checked_add "manifest entry path slot count overflow"
                         path_count MANIFEST_FIXED_PATH_ENTRIES in
  let? escaped_path_bytes := checked_mul "escaped manifest path byte count overflow"
                               (in_maximum_path_bytes inputs) MANIFEST_PATH_ESCAPE_MULTIPLIER in
  let? path_entry_bytes := checked_add "manifest path entry byte count overflow"
                             escaped_path_bytes MANIFEST_JSON_ENTRY_OVERHEAD_BYTES in
  let? all_path_entries := checked_mul "manifest path entries byte count overflow"
                             path_entries path_entry_bytes in
  let? directory_serialization := checked_mul "manifest directory serialization overflow"
                                    directory_slots MANIFEST_JSON_DIRECTORY_OVERHEAD_BYTES in
  let? total := checked_add "manifest serialization total overflow"
                  MANIFEST_JSON_FIXED_OVERHEAD_BYTES all_path_entries in
  let? payload := checked_add "manifest serialization payload overflow"
                    total directory_serialization in
  let? serialization := allocation_budget_bytes payload in
  let? paths_payload := checked_mul "manifest path arena byte count overflow"
                          path_entries (in_maximum_path_bytes inputs) in
  let? paths := allocation_budget_bytes paths_payload in
  Ok (mkManifestBudget entries directory_slots directories scratch serialization paths).

(** *** The operation worker and the activity detector *)
Record RuntimeBudget := mkRuntimeBudget {
  ub_operation_queue : Z;
  ub_operation_worker_stack : Z;
  ub_fixed_metadata : Z;
  ub_frozen_export_decisions : Z;
  ub_activity_detector_workspace : Z;
}.

Definition runtime_budget (inputs : SessionMemoryInputs) (interleaved_scratch : Z)
    : Result RuntimeBudget :=
  let? operation_queue := checked_mul "operation queue byte count overflow"
                            (in_control_queue_capacity inputs) OPERATION_QUEUE_SLOT_BYTES in
  let? operation_queue := allocation_budget_bytes operation_queue in
  let? operation_worker_stack := allocation_budget_bytes (in_worker_stack_bytes inputs) in
  let? runtime_fixed_metadata := allocation_budget_bytes RUNTIME_METADATA_RESERVE_BYTES in
  let? decisions := checked_mul "frozen export decision storage overflow"
                      (in_channels inputs) FROZEN_EXPORT_DECISION_SLOT_BYTES in
  let? decisions := allocation_budget_bytes decisions in
  let? states := checked_mul "activity detector state storage overflow"
                   (in_channels inputs) ACTIVITY_DETECTOR_STATE_SLOT_BYTES in
  let? states := allocation_budget_bytes states in
  let? detector_decisions := checked_mul "activity detector decision storage overflow"
                               (in_channels inputs) FROZEN_EXPORT_DECISION_SLOT_BYTES in
  let? detector_decisions := allocation_budget_bytes detector_decisions in
  let? scratch := allocation_budget_bytes interleaved_scratch in
  let? workspace := checked_add "activity detector state and decision workspace overflow"
                      states detector_decisions in
  let? workspace := checked_add "activity detector workspace overflow" workspace scratch in
  Ok (mkRuntimeBudget operation_queue operation_worker_stack runtime_fixed_metadata
        decisions workspace).

(** *** The plan *)
Definition plan_components (r : RingBudget) (q : QueueBudget) (c : CalibrationBudget)
    (w : WorkspaceBudget) (o : OutputBudget) (m : ManifestBudget) (u : RuntimeBudget)
    : list MemoryComponent :=
  [ mkComponent "ring_samples" (rb_samples r);
    mkComponent "ring_sample_allocator_padding" (rb_sample_allocator_padding r);
    mkComponent "ring_chunk_objects" (rb_chunk_objects r);
    mkComponent "ring_chunk_index" (rb_chunk_index r);
    mkComponent "ring_fixed_metadata" (rb_fixed_metadata r);
    mkComponent "capture_queue_samples" (qb_samples q);
    mkComponent "capture_queue_slot_metadata" (qb_slot_metadata q);
    mkComponent "capture_command_result_slot" (qb_command_result_slot q);
    mkComponent "capture_worker_stack" (qb_worker_stack q);
    mkComponent "calibration_samples" (cb_samples c);
    mkComponent "calibration_rms" (cb_rms c);
    mkComponent "calibration_peak" (cb_peak c);
    mkComponent "calibration_slot_metadata" (cb_slot_metadata c);
    mkComponent "persistence_workspace" (wb_persistence_workspace w);
    mkComponent "workspace_allocator_padding" (wb_allocator_padding w);
    mkComponent "split_part_slots" (ob_split_part_slots o);
    mkComponent "file_writer_slots" (ob_file_writer_slots o);
    mkComponent "path_bytes" (ob_path_bytes o);
    mkComponent "path_allocator_padding" (ob_path_allocator_padding o);
    mkComponent "path_slot_metadata" (ob_path_slot_metadata o);
    mkComponent "manifest_entries" (mb_entries m);
    mkComponent "manifest_directories" (mb_directories m);
    mkComponent "publication_scratch" (mb_publication_scratch m);
    mkComponent "manifest_serialization" (mb_serialization m);
    mkComponent "manifest_paths" (mb_paths m);
    mkComponent "operation_worker_stack" (ub_operation_worker_stack u);
    mkComponent "operation_queue" (ub_operation_queue u);
    mkComponent "runtime_fixed_metadata" (ub_fixed_metadata u);
    mkComponent "frozen_export_decisions" (ub_frozen_export_decisions u);
    mkComponent "activity_detector_workspace" (ub_activity_detector_workspace u) ].

(** [components.iter().try_fold(0, ..)] *)
Fixpoint sum_components (total : Z) (l : list MemoryComponent) : Result Z :=
  match l with
  | [] => Ok total
  | c :: rest =>
      let? total := checked_add "committed memory byte count overflow" total (bytes c) in
      sum_components total rest
  end.

Definition calculate (inputs : SessionMemoryInputs) : Result SessionMemoryPlan :=
  let? _ := validate_inputs inputs in
  let? r := ring_budget inputs in
  let? q := capture_queue_budget inputs in
  let? c := calibration_budget inputs in
  let? w := workspace_budget inputs in
  let? o := output_budget inputs in
  let? m := manifest_budget inputs (ob_part_slots o) in
  let? u := runtime_budget inputs (wb_interleaved_scratch w) in
  let components := plan_components r q c w o m u in
  let? committed := sum_components 0 components in
  let? required := required_bytes_with_headroom committed (in_headroom inputs) in
  Ok {| components := components;
        committed_bytes := committed;
        required_with_headroom := required;
        retention_frames := in_retention_frames inputs;
        allocated_retention_frames := rb_allocated_frames r;
        channels := in_channels inputs;
        sample_rate := in_sample_rate inputs;
        sample_format := in_sample_format inputs;
        chunk_frames := in_chunk_frames inputs;
        chunk_count := rb_chunk_count r;
        max_active_snapshots := in_max_active_snapshots inputs;
        sample_bytes := in_sample_bytes inputs;
        capture_queue_slots := in_capture_queue_slots inputs;
        capture_slot_frames := in_capture_slot_frames inputs;
        capture_worker_stack_bytes := in_capture_worker_stack_bytes inputs;
        split_when_over_bytes := in_split_when_over_bytes inputs;
        io_buffer_bytes_per_channel := in_io_buffer_bytes_per_channel inputs;
        maximum_path_bytes := in_maximum_path_bytes inputs;
        maximum_wav_parts_per_channel := ob_parts_per_channel o;
        output_file_slots := ob_part_slots o;
        path_slots := ob_path_slot_count o;
        manifest_paths_bytes := mb_paths m;
        manifest_directory_slots := mb_directory_slots m;
        publication_scratch := mb_publication_scratch m;
        calibration_sample_frames := cb_sample_frames c;
        calibration_complete_windows := cb_complete_windows c;
        calibration_window_frames := cb_window_frames c;
        calibration_hop_frames := cb_hop_frames c |}.

Definition component (plan : SessionMemoryPlan) (name : string) : option MemoryComponent :=
  List.find (fun c => String.eqb (component_name c) name) (components plan).

Definition describe_limit_failure (plan : SessionMemoryPlan) (limit : Z) : string :=
  "session memory requirement " +:+ pretty (required_with_headroom plan) +:+
  " bytes exceeds configured maximum " +:+ pretty limit +:+ " bytes (committed=" +:+
  pretty (committed_bytes plan) +:+ " bytes; " +:+
  String.concat ", " (map (fun c => component_name c +:+ "=" +:+ pretty (bytes c) +:+ " bytes")
                        (components plan)) +:+ ")".

Definition validate_max (plan : SessionMemoryPlan) (maximum : option Z) : Result unit :=
  match maximum with
  | Some limit =>
      if limit <? required_with_headroom plan
      then Err (Validation (describe_limit_failure plan limit))
      else Ok tt
  | None => Ok tt
  end.

(** [allocate] is the caller's closure: it runs only when the plan fits. *)
Definition allocate_within {S T} (plan : SessionMemoryPlan) (maximum : option Z)
    (allocate : M S LambError T) : M S LambError T :=
  lift (validate_max plan maximum) ;; allocate.

(** *** Buffers

    An allocation fails when its layout exceeds [isize::MAX] bytes or the
    allocator has no block; otherwise the buffer has exactly the length asked
    for. *)
Definition layout_array (element_bytes length : Z) (overflow : string) : Result Z :=
  if 2 ^ 63 - 1 <? element_bytes * length then Err (Validation overflow)
  else Ok (element_bytes * length).

Definition new_zeroed (len : Z) : Result (list f32) :=
  let? size := layout_array size_of_f32 len "materialized buffer layout overflow" in
  if (size =? 0) || can_allocate size
  then Ok (replicate (Z.to_nat len) f32_zero)
  else Err (Validation ("unable to allocate " +:+ pretty size +:+
                        "-byte materialized buffer")).

(** [ExactArray::try_from_fn]: the initializer runs once per index in order,
    and its first error drops what was built. *)
Fixpoint init_elements {S T} (initialize : Z -> M S LambError T) (index : Z) (n : nat)
    : M S LambError (list T) :=
  match n with
  | O => ret []
  | Datatypes.S n' =>
      let! value := initialize index in
      let! rest := init_elements initialize (index + 1) n' in
      ret (value :: rest)
  end.

Definition try_from_fn {S T} (element_bytes length : Z) (initialize : Z -> M S LambError T)
    : M S LambError (list T) :=
  let! size := lift (layout_array element_bytes length "exact array layout overflow") in
  if (size =? 0) || can_allocate size
  then init_elements initialize 0 (Z.to_nat length)
  else fail (Validation ("unable to allocate " +:+ pretty size +:+ "-byte exact array")).
End budgets.

(** ** Specification *)

Section plan_facts.
Context `{Platform}.

Lemma system_page_size_pos : 0 < system_page_size.
Proof. unfold system_page_size. destruct (_ && _) eqn:E; to_prop; lia. Qed.

Lemma checked_add_Ok ctx l r x :
  checked_add ctx l r = Ok x -> x = l + r /\ 0 <= x <= u64_max.
Proof. unfold checked_add. intros. ok_steps. apply add_checked_inv in H0. lia. Qed.

Lemma checked_mul_Ok ctx l r x :
  checked_mul ctx l r = Ok x -> x = l * r /\ 0 <= x <= u64_max.
Proof. unfold checked_mul. intros. ok_steps. apply mul_checked_inv in H0. lia. Qed.

Lemma checked_pad_Ok ctx l r x :
  checked_pad ctx l r = Ok x -> x = l - r /\ 0 <= x <= u64_max.
Proof. unfold checked_pad. intros. ok_steps. apply sub_checked_inv in H0. lia. Qed.

Lemma allocation_budget_Ok payload b :
  allocation_budget_bytes payload = Ok b ->
  payload + ALLOCATOR_HEADER_RESERVE_BYTES <= b <
    payload + ALLOCATOR_HEADER_RESERVE_BYTES + system_page_size /\
  b mod system_page_size = 0 /\ 0 <= b <= u64_max.
Proof.
  unfold allocation_budget_bytes. intros. ok_steps.
  apply checked_add_Ok in Hx as [-> ?]. apply checked_mul_Ok in H0 as [-> ?].
  pose proof system_page_size_pos as Hp.
  pose proof (div_ceil_spec (payload + ALLOCATOR_HEADER_RESERVE_BYTES) _ Hp).
  rewrite Z.mod_mul by lia. nia.
Qed.

Fixpoint total_bytes (l : list MemoryComponent) : Z :=
  match l with [] => 0 | c :: rest => bytes c + total_bytes rest end.

Lemma sum_components_Ok l t x :
  sum_components t l = Ok x -> is_u64 t -> x = t + total_bytes l /\ is_u64 x.
Proof.
  revert t. induction l as [|c l IH]; cbn; intros t Hs Ht; ok_steps; [split; [lia|congruence]|].
  apply checked_add_Ok in Hx as [-> ?]. apply IH in Hs as [-> ?]; [split; [lia|done]|].
  unfold is_u64 in *; lia.
Qed.

Lemma validate_max_Ok plan maximum :
  validate_max plan maximum = Ok tt <->
  (forall limit, maximum = Some limit -> required_with_headroom plan <= limit).
Proof.
  unfold validate_max. destruct maximum as [limit|]; [|naive_solver].
  destruct (limit <? _) eqn:E; to_prop; split; try done.
  - intros Hl. specialize (Hl limit eq_refl). lia.
  - intros _ ? [= <-]. lia.
Qed.
End plan_facts.

Lemma lor_pow2 a n : 0 <= n -> 0 <= a < 2 ^ n -> Z.lor a (2 ^ n) = a + 2 ^ n.
Proof.
  intros Hn Ha. assert (Z.land a (2 ^ n) = 0) as Hland.
  { apply Z.bits_inj'. intros i Hi. rewrite Z.land_spec, Z.bits_0, Z.pow2_bits_eqb by lia.
    destruct (Z.eqb_spec n i) as [<-|]; [|apply andb_false_r].
    rewrite <- (Z.mod_small a (2 ^ n)) by lia. rewrite Z.mod_pow2_bits_high by lia. done. }
  pose proof (Z.add_lor_land a (2 ^ n)). lia.
Qed.

(** *** The exact headroom ratio *)

(** A canonical binary64 datum that is normal and at least one. *)
Definition normal_f64 (m : positive) (e : Z) : Prop :=
  2 ^ 52 <= Z.pos m < 2 ^ 53 /\ -52 <= e <= 971.

Lemma bad_headroom_normal m e :
  normal_f64 m e -> bad_headroom (S754_finite false m e) = false.
Proof.
  unfold bad_headroom. intros [Hm He]. cbn [is_finite negb]. rewrite orb_false_r.
  assert (f64_of_Z 1 = S754_finite false 4503599627370496 (-52)) as -> by reflexivity.
  unfold SFltb, SFcompare. destruct (Z.compare_spec e (-52)) as [->|?|?].
  - destruct (Pos.compare_cont Eq m 4503599627370496) eqn:E; [reflexivity | | reflexivity].
    assert (Z.pos m < 4503599627370496) by exact E. change (2 ^ 52) with 4503599627370496 in Hm. lia.
  - lia.
  - reflexivity.
Qed.

Lemma bits_of_normal m e :
  normal_f64 m e ->
  let bits := f64_to_bits (S754_finite false m e) in
  Z.land (Z.shiftr bits 52) 2047 - 1023 - 52 = e /\
  Z.lor (Z.land bits (2 ^ 52 - 1)) (2 ^ 52) = Z.pos m.
Proof.
  intros [Hm He]. unfold f64_to_bits. decide_cmp. cbv zeta.
  replace (0 + (e + 1075) * 2 ^ 52 + (Z.pos m - 2 ^ 52))
    with ((Z.pos m - 2 ^ 52) + (e + 1075) * 2 ^ 52) by lia.
  rewrite Z.shiftr_div_pow2, Z.div_add, Z.div_small by lia.
  change 2047 with (Z.ones 11). rewrite Z.land_ones, Z.mod_small by lia. split; [lia|].
  change (2 ^ 52 - 1) with (Z.ones 52). rewrite Z.land_ones, Z.mod_add, Z.mod_small by lia.
  rewrite lor_pow2 by lia. lia.
Qed.

Lemma trailing_zeros_pos_spec p :
  0 <= trailing_zeros_pos p /\ exists q, Z.pos p = q * 2 ^ trailing_zeros_pos p.
Proof.
  induction p as [p IH|p IH|]; cbn [trailing_zeros_pos].
  - split; [lia|]. exists (Z.pos p~1). lia.
  - destruct IH as [H1 [q Hq]]. split; [lia|]. exists q.
    rewrite Z.pow_add_r by lia. lia.
  - split; [lia|]. exists 1. lia.
Qed.

Lemma ceil_unique p d a b :
  0 < d -> (a - 1) * d < p <= a * d -> (b - 1) * d < p <= b * d -> a = b.
Proof. nia. Qed.

Lemma ceil_ratio_spec p d :
  0 < d -> let c := p / d + (if p mod d =? 0 then 0 else 1) in (c - 1) * d < p <= c * d.
Proof.
  intros Hd c. subst c. pose proof (Z.div_mod p d ltac:(lia)).
  pose proof (Z.mod_pos_bound p d Hd). destruct (p mod d =? 0) eqn:E; to_prop; nia.
Qed.

(** [ceil (committed * m * 2^e)], computed exactly. *)
Definition exact_requirement (committed : Z) (m : positive) (e : Z) : Z :=
  if 0 <=? e then committed * Z.pos m * 2 ^ e
  else div_ceil (committed * Z.pos m) (2 ^ (- e)).

(** Below [2^128] the ratio is the headroom, in lowest terms. *)
Lemma headroom_ratio_exact m e :
  normal_f64 m e -> e <= 75 ->
  exists num den, headroom_ratio (S754_finite false m e) = Ok (num, den) /\
    0 < num < 2 ^ 128 /\ 0 < den /\
    (0 <= e -> num = Z.pos m * 2 ^ e /\ den = 1) /\
    (e < 0 -> num < 2 ^ 53 /\ exists k, 0 < k /\ Z.pos m = num * k /\ 2 ^ (- e) = den * k).
Proof.
  intros Hn He. destruct (bits_of_normal m e Hn) as [Hexp Hnum].
  unfold headroom_ratio. rewrite Hexp, Hnum. destruct Hn as [Hm He'].
  destruct (e <? 0) eqn:E; to_prop.
  - destruct (trailing_zeros_pos_spec m) as [Hz [q Hq]].
    cbn [trailing_zeros_u128]. set (k := Z.min _ _).
    assert (0 < 2 ^ k) by (apply Z.pow_pos_nonneg; lia).
    assert (Z.pos m = Z.shiftr (Z.pos m) k * 2 ^ k) as Hk.
    { rewrite Z.shiftr_div_pow2 by lia.
      replace (trailing_zeros_pos m) with ((trailing_zeros_pos m - k) + k) in Hq by lia.
      rewrite Z.pow_add_r in Hq by lia. rewrite Hq at 2. rewrite Z.mul_assoc, Z.div_mul by lia.
      lia. }
    assert (2 ^ (- e) = 2 ^ (- e - k) * 2 ^ k) as Hden.
    { rewrite <- Z.pow_add_r by lia. f_equal. lia. }
    assert (2 ^ (- e) <= 2 ^ 52) by (apply Z.pow_le_mono_r; lia).
    assert (0 < 2 ^ (- e - k)) by (apply Z.pow_pos_nonneg; lia).
    unfold checked_shl_u128. decide_cmp. cbn [ok_or obind].
    rewrite Z.shiftl_1_l, Z.mod_small by nia.
    exists (Z.shiftr (Z.pos m) k), (2 ^ (- e - k)). split_and!; try done; try nia.
    intros _. split; [nia|]. exists (2 ^ k). done.
  - assert (2 ^ e <= 2 ^ 75) by (apply Z.pow_le_mono_r; lia).
    assert (0 < 2 ^ e) by (apply Z.pow_pos_nonneg; lia).
    unfold checked_shl_u128. decide_cmp. cbn [ok_or obind].
    rewrite Z.shiftl_mul_pow2, Z.mod_small by nia.
    exists (Z.pos m * 2 ^ e), 1. split_and!; try done; try nia.
Qed.

Lemma committed_le_requirement committed m e :
  normal_f64 m e -> 0 <= committed -> committed <= exact_requirement committed m e.
Proof.
  intros [Hm He] Hc. unfold exact_requirement. destruct (0 <=? e) eqn:E; to_prop.
  - assert (1 <= 2 ^ e) by (apply (Z.pow_le_mono_r 2 0); lia).
    rewrite <- Z.mul_assoc. assert (1 <= Z.pos m * 2 ^ e) by nia. nia.
  - assert (0 < 2 ^ (- e)) by (apply Z.pow_pos_nonneg; lia).
    pose proof (div_ceil_spec (committed * Z.pos m) (2 ^ (- e)) ltac:(done)).
    assert (2 ^ (- e) <= 2 ^ 52) by (apply Z.pow_le_mono_r; lia).
    assert (committed * 2 ^ (- e) <= committed * Z.pos m) by (apply Z.mul_le_mono_nonneg_l; lia).
    nia.
Qed.

Lemma required_bytes_exact committed m e r :
  is_u64 committed -> normal_f64 m e -> e <= 75 ->
  required_bytes_with_headroom committed (S754_finite false m e) = Ok r <->
  r = exact_requirement committed m e /\ exact_requirement committed m e <= u64_max.
Proof.
  intros Hc Hn He. unfold required_bytes_with_headroom.
  rewrite (bad_headroom_normal m e Hn).
  destruct (headroom_ratio_exact m e Hn He) as (num & den & -> & Hnum & Hden & Hpos & Hneg).
  cbn [obind].
  set (req := exact_requirement committed m e).
  assert ((req - 1) * den < committed * num <= req * den) as Hspec.
  { subst req. unfold exact_requirement. destruct (0 <=? e) eqn:E; to_prop.
    - destruct (Hpos E) as [-> ->]. lia.
    - destruct (Hneg E) as [_ (k & Hk & Hm & Hd)].
      pose proof (div_ceil_spec (committed * Z.pos m) (2 ^ (- e)) ltac:(nia)) as Hs.
      rewrite Hd, Hm in Hs |- *. nia. }
  assert (committed * num / den + (if committed * num mod den =? 0 then 0 else 1) = req) as Hreq
    by (apply (ceil_unique (committed * num) den); [done | by apply ceil_ratio_spec | done]).
  unfold is_u64 in Hc. split.
  - intros H. ok_steps. apply checked_Some in Hx as [-> ?], Hx0 as [-> ?], H as [-> ?]. lia.
  - intros [-> Hle]. assert (den <= 2 ^ 52) as Hd52.
    { destruct (Z.lt_ge_cases e 0) as [Hlt|Hge].
      - destruct (Hneg Hlt) as [_ (k & Hk & _ & Hd)]. destruct Hn as [_ ?].
        assert (2 ^ (- e) <= 2 ^ 52) by (apply Z.pow_le_mono_r; lia). nia.
      - destruct (Hpos Hge). lia. }
    assert (0 <= req) by nia.
    rewrite (proj2 (checked_Some u128_max _ _)) by (unfold u128_max, u64_max in *; split; [reflexivity|nia]).
    cbn [ok_or obind]. rewrite Hreq.
    rewrite (proj2 (checked_Some u128_max _ _)) by (unfold u128_max, u64_max in *; split; [reflexivity|lia]).
    cbn [ok_or obind].
    rewrite (proj2 (checked_Some u64_max _ _)) by (split; [reflexivity|lia]). done.
Qed.

Section plan_theorems.
Context `{Platform}.

Lemma ring_budget_Ok inputs r :
  0 < in_chunk_frames inputs -> ring_budget inputs = Ok r ->
  rb_chunk_count r = div_ceil (in_retention_frames inputs) (in_chunk_frames inputs) /\
  is_u32 (rb_chunk_count r) /\
  rb_allocated_frames r = rb_chunk_count r * in_chunk_frames inputs /\
  rb_samples r =
    rb_allocated_frames r * in_channels inputs * in_sample_bytes inputs * RING_COUNT.
Proof.
  unfold ring_budget. intros Hc Hr. ok_steps. subst r. cbn.
  apply checked_Some in Hx as [-> ?].
  repeat match goal with
  | Hm : checked_mul _ _ _ = Ok _ |- _ => apply checked_mul_Ok in Hm as [-> ?]
  end. done.
Qed.

Lemma require_positive_Ok l :
  require_positive l = Ok tt -> Forall (fun p => p.2 <> 0) l.
Proof.
  induction l as [|[n v] l IH]; cbn; [done|]. destruct (v =? 0) eqn:E; [done|].
  intros ?. to_prop. constructor; eauto.
Qed.

Lemma validate_inputs_Ok inputs :
  validate_inputs inputs = Ok tt ->
  in_maximum_calibration_seconds inputs <= 30 /\ in_chunk_frames inputs <> 0 /\
  in_channels inputs <> 0 /\ in_sample_bytes inputs = size_of_f32 /\
  bad_headroom (in_headroom inputs) = false.
Proof.
  unfold validate_inputs. destruct (30 <? _) eqn:E1; [done|]. intros Hv. ok_steps.
  destruct x. apply require_positive_Ok in Hx.
  repeat (apply Forall_cons in Hx as [? Hx]). cbn in *.
  destruct (_ =? size_of_f32) eqn:E2; [|done]. destruct (in_sample_format inputs).
  destruct (bad_headroom _); [done|]. to_prop. done.
Qed.

Lemma validate_inputs_retention inputs :
  validate_inputs inputs = Ok tt -> in_retention_frames inputs <> 0.
Proof.
  unfold validate_inputs. destruct (30 <? _) eqn:E1; [done|]. intros Hv. ok_steps.
  destruct x. apply require_positive_Ok in Hx. by apply Forall_cons in Hx as [? _].
Qed.

Lemma calculate_Ok inputs plan :
  calculate inputs = Ok plan ->
  exists r q c w o m u,
    validate_inputs inputs = Ok tt /\ ring_budget inputs = Ok r /\
    components plan = plan_components r q c w o m u /\
    chunk_count plan = rb_chunk_count r /\
    allocated_retention_frames plan = rb_allocated_frames r /\
    retention_frames plan = in_retention_frames inputs /\
    chunk_frames plan = in_chunk_frames inputs /\ channels plan = in_channels inputs /\
    sum_components 0 (components plan) = Ok (committed_bytes plan) /\
    required_bytes_with_headroom (committed_bytes plan) (in_headroom inputs) =
      Ok (required_with_headroom plan).
Proof.
  unfold calculate. intros Hp. ok_steps. subst plan. destruct x. repeat eexists; done.
Qed.

(** A calculated plan commits exactly the sum of its components (no wrap),
    and requires exactly [ceil (committed * headroom)], the headroom taken as
    the exact rational its bits denote; in particular at least what is committed. *)
Theorem plan_requirement_exact inputs plan m e :
  calculate inputs = Ok plan ->
  in_headroom inputs = S754_finite false m e -> normal_f64 m e -> e <= 75 ->
  committed_bytes plan = total_bytes (components plan) /\ is_u64 (committed_bytes plan) /\
  required_with_headroom plan = exact_requirement (committed_bytes plan) m e /\
  committed_bytes plan <= required_with_headroom plan <= u64_max.
Proof.
  intros Hp Hh Hn He. apply calculate_Ok in Hp as (r & q & c & w & o & mb & u & _ & _ & _ &
    _ & _ & _ & _ & _ & Hsum & Hreq).
  apply sum_components_Ok in Hsum as [Hsum Hc]; [|unfold is_u64, u64_max; lia].
  rewrite Hh in Hreq. apply required_bytes_exact in Hreq as [-> Hle]; try done.
  split_and!; [lia | done | done | | done].
  apply committed_le_requirement; [done|]. unfold is_u64 in Hc. lia.
Qed.

(** The retention rings of a plan hold at least the frames asked for and
    less than one chunk more, and the "ring_samples" component is the size of
    the two rings' samples. *)
Theorem plan_ring_geometry inputs plan :
  0 < in_chunk_frames inputs -> calculate inputs = Ok plan ->
  allocated_retention_frames plan = chunk_count plan * chunk_frames plan /\
  retention_frames plan <= allocated_retention_frames plan <
    retention_frames plan + chunk_frames plan /\
  component plan "ring_samples" =
    Some (mkComponent "ring_samples"
            (2 * (allocated_retention_frames plan * channels plan * size_of_f32))).
Proof.
  intros Hcf Hp. apply calculate_Ok in Hp as (r & q & c & w & o & mb & u & Hv & Hr & Hcomp &
    Hcc & Ha & Hrf & Hc & Hch & _ & _).
  apply validate_inputs_Ok in Hv as (_ & _ & _ & Hsb & _).
  apply ring_budget_Ok in Hr as (Hn & _ & Hal & Hrs); [|done].
  rewrite Hcc, Ha, Hrf, Hc, Hch. split_and!; [done | | |].
  - pose proof (div_ceil_spec (in_retention_frames inputs) _ Hcf). nia.
  - pose proof (div_ceil_spec (in_retention_frames inputs) _ Hcf). nia.
  - unfold component. rewrite Hcomp. cbn. do 2 f_equal. rewrite Hrs, Hsb. unfold RING_COUNT. lia.
Qed.

(** The memory gate: the allocating closure runs exactly when no maximum is
    configured or the requirement does not exceed it; otherwise nothing runs,
    the state is untouched and the error is a validation error. *)
Theorem allocate_within_gate {S T} plan maximum (allocate : M S LambError T) s :
  ((forall limit, maximum = Some limit -> required_with_headroom plan <= limit) /\
     allocate_within plan maximum allocate s = allocate s) \/
  (exists limit, maximum = Some limit /\ limit < required_with_headroom plan /\
     allocate_within plan maximum allocate s =
       (s, Err (Validation (describe_limit_failure plan limit)))).
Proof.
  unfold allocate_within, bind, lift, validate_max. destruct maximum as [limit|]; [|by left].
  destruct (limit <? required_with_headroom plan) eqn:E; to_prop.
  - right. exists limit. done.
  - left. split; [by intros ? [= <-] | done].
Qed.
End plan_theorems.

(** The exact requirement is lost for a headroom of [2^128]: the mantissa is
    shifted out of the [u128] numerator (the shift is checked for its amount,
    not for lost bits), the requirement becomes zero and every maximum admits it. *)
Theorem headroom_numerator_overflow :
  bad_headroom (S754_finite false (2 ^ 52) 76) = false /\
  required_bytes_with_headroom 1000000 (S754_finite false (2 ^ 52) 76) = Ok 0.
Proof. split; vm_compute; reflexivity. Qed.

(** A small session on a platform with 4096-byte pages. *)
#[local] Instance sample_platform : Platform :=
  { sysconf_page_size := 4096; can_allocate := fun _ => true;
    size_of_current_artifact_slot := 88 }.

Definition sample_inputs : SessionMemoryInputs := {|
  in_retention_frames := 15; in_channels := 2; in_sample_rate := 48000;
  in_sample_format := F32Le; in_chunk_frames := 4; in_max_active_snapshots := 1;
  in_sample_bytes := 4; in_split_when_over_bytes := 1000000; in_control_queue_capacity := 2;
  in_worker_stack_bytes := 65536; in_capture_queue_slots := 8; in_capture_slot_frames := 4;
  in_capture_worker_stack_bytes := 262144; in_io_buffer_bytes_per_channel := 4096;
  in_maximum_path_bytes := 512; in_maximum_calibration_seconds := 0;
  in_headroom := S754_finite false 6755399441055744 (-52) |}.

Definition sample_plan : SessionMemoryPlan :=
  Eval vm_compute in match calculate sample_inputs with
                     | Ok p => p
                     | _ => mkPlan [] 0 0 0 0 0 0 F32Le 0 0 0 0 0 0 0 0 0 0 0 0 0 0 0 0 0 0 0 0
                     end.

Lemma sample_plan_calculated : calculate sample_inputs = Ok sample_plan.
Proof. vm_compute. reflexivity. Qed.

Lemma plan_requirement_exact_witness :
  committed_bytes sample_plan = total_bytes (components sample_plan) /\
  is_u64 (committed_bytes sample_plan) /\
  required_with_headroom sample_plan =
    exact_requirement (committed_bytes sample_plan) 6755399441055744 (-52) /\
  committed_bytes sample_plan <= required_with_headroom sample_plan <= u64_max.
Proof.
  apply (plan_requirement_exact sample_inputs sample_plan 6755399441055744 (-52)).
  - exact sample_plan_calculated.
  - reflexivity.
  - unfold normal_f64. lia.
  - lia.
Defined.

Lemma plan_ring_geometry_witness :
  allocated_retention_frames sample_plan = chunk_count sample_plan * chunk_frames sample_plan /\
  retention_frames sample_plan <= allocated_retention_frames sample_plan <
    retention_frames sample_plan + chunk_frames sample_plan /\
  component sample_plan "ring_samples" =
    Some (mkComponent "ring_samples"
      (2 * (allocated_retention_frames sample_plan * channels sample_plan * size_of_f32))).
Proof.
  apply (plan_ring_geometry sample_inputs sample_plan).
  - reflexivity.
  - exact sample_plan_calculated.
Defined.
