(* ===== verification/SampleRing.v ===== *)
(** * The sample ring (src/sample_ring.rs)

    A ring of chunks that one writer fills and snapshots pin. The atomics of a
    chunk are fields of its record; a snapshot refers to a chunk by its index in
    the shared ring, as the [Arc]s of the source do. The writer lock makes one
    turn of [write_interleaved]'s loop, [reset], and the pinning half of a
    snapshot atomic; [finish_snapshot] and the reads run without it, on pinned
    chunks. A panic in another thread that poisons a lock is the corresponding
    [_poisoned] flag. *)
From S2P Require Import Prelude.
From S2P Require Import Errors.
From S2P Require Import MemoryPlan.

Inductive ChunkState := Writable | Writing | Published | Stale.

(** [state as u8] *)
Definition as_u8 (s : ChunkState) : Z :=
  match s with Writable => 0 | Writing => 1 | Published => 2 | Stale => 3 end.

Definition from_u8 (value : Z) : ChunkState :=
  if value =? 1 then Writing
  else if value =? 2 then Published
  else if value =? 3 then Stale
  else Writable.

Record RingConfig := mkRingConfig {
  cfg_channels : Z;
  cfg_sample_rate : Z;
  cfg_format : SampleFormat;
  cfg_chunk_frames : Z;
  cfg_chunk_count : Z;
  cfg_max_active_snapshots : Z;
}.

Record RingStatus := mkRingStatus {
  status_dropped_frames : Z;
  status_retained_frames : Z;
  status_capacity_frames : Z;
  status_active_snapshots : Z;
  status_last_overrun : option Z;
}.

Record Chunk := mkChunk {
  sequence : Z;
  state : Z;
  pin_count : Z;
  valid_start_frame : Z;
  valid_frame_count : Z;
  data : list f32;
  data_poisoned : bool;
}.
#[export] Instance eta_Chunk : Eta Chunk := fun c =>
  mkChunk (sequence c) (state c) (pin_count c) (valid_start_frame c) (valid_frame_count c)
    (data c) (data_poisoned c).

Record SnapshotSegment := mkSegment {
  chunk : Z;
  expected_sequence : Z;
  start_frame_in_chunk : Z;
  frame_count : Z;
}.

(** [active_counter] says whether the snapshot holds one of the ring's
    active-snapshot slots. *)
Record Snapshot := mkSnapshot {
  segments : list SnapshotSegment;
  start_frame : Z;
  end_frame : Z;
  snapshot_channels : Z;
  snapshot_sample_rate : Z;
  snapshot_format : SampleFormat;
  total_frames : Z;
  active_counter : bool;
}.

Record SnapshotSelection := mkSelection {
  requested_start : Z;
  selection_oldest_frame : Z;
  snapshot : Snapshot;
}.

Record SampleRing := mkRing {
  cfg : RingConfig;
  chunks : list Chunk;
  write_chunk : Z;
  global_write_frame : Z;
  clear_after_frame : Z;
  next_sequence : Z;
  dropped_frames : Z;
  active_snapshots : Z;
  last_overrun : option Z;
  allocated_sample_bytes : Z;
  metadata_budget_bytes : Z;
  write_lock_poisoned : bool;
  overrun_lock_poisoned : bool;
}.
#[export] Instance eta_SampleRing : Eta SampleRing := fun r =>
  mkRing (cfg r) (chunks r) (write_chunk r) (global_write_frame r) (clear_after_frame r)
    (next_sequence r) (dropped_frames r) (active_snapshots r) (last_overrun r)
    (allocated_sample_bytes r) (metadata_budget_bytes r) (write_lock_poisoned r)
    (overrun_lock_poisoned r).

Abbreviation RM := (M SampleRing LambError).

(** ** Construction *)

Definition fresh_chunk (samples : list f32) : Chunk :=
  mkChunk 0 (as_u8 Writable) 0 0 0 samples false.

Section construction.
Context `{Platform}.

(** The closure that builds one chunk; its state is the running total of
    allocated sample bytes. *)
Definition build_chunk (samples_per_chunk : Z) (_ : Z) : M Z LambError Chunk :=
  let! samples := lift (new_zeroed samples_per_chunk) in
  let data_bytes := zlen samples * size_of_f32 in
  let! allocated := get in
  let! total := lift (ok_or (add_checked allocated data_bytes)
                        (Validation "ring sample byte count overflow")) in
  modify (fun _ => total) ;;
  ret (fresh_chunk samples).

Definition new (c : RingConfig) : Result SampleRing :=
  if cfg_channels c =? 0 then Err (Validation "channels must be > 0")
  else if cfg_sample_rate c =? 0 then Err (Validation "sample_rate must be > 0")
  else if cfg_chunk_frames c =? 0 then Err (Validation "chunk_frames must be > 0")
  else if cfg_chunk_count c =? 0 then Err (Validation "chunk_count must be > 0")
  else if cfg_max_active_snapshots c =? 0
  then Err (Validation "max_active_snapshots must be > 0")
  else
    let? samples_per_chunk := ok_or (mul_checked (cfg_chunk_frames c) (cfg_channels c))
                                (Validation "chunk allocation size overflow") in
    let '(allocated, built) :=
      try_from_fn size_of_usize (cfg_chunk_count c) (build_chunk samples_per_chunk) 0 in
    let? chunks := built in
    let? sample_bytes := ok_or (mul_checked samples_per_chunk size_of_f32)
                           (Validation "ring chunk sample byte count overflow") in
    let? budget := ring_metadata_budget (zlen chunks) sample_bytes in
    let? metadata := ring_metadata_total budget in
    Ok {| cfg := c; chunks := chunks; write_chunk := 0; global_write_frame := 0;
          clear_after_frame := 0; next_sequence := 1; dropped_frames := 0;
          active_snapshots := 0; last_overrun := None; allocated_sample_bytes := allocated;
          metadata_budget_bytes := metadata; write_lock_poisoned := false;
          overrun_lock_poisoned := false |}.
End construction.

(** ** Helpers on the shared chunk index *)

Definition chunk_at {S} (chunks : list Chunk) (i : Z) : M S LambError Chunk :=
  lift (unwrap (zlookup chunks i)).

Definition update_chunk (i : Z) (f : Chunk -> Chunk) (r : SampleRing) : SampleRing :=
  r <| chunks ::= (fun cs => zupdate cs i f) |>.

Definition chunk_state (c : Chunk) : ChunkState := from_u8 (state c).

Definition is_state (s : ChunkState) (c : Chunk) : bool :=
  match s, chunk_state c with
  | Writable, Writable | Writing, Writing | Published, Published | Stale, Stale => true
  | _, _ => false
  end.

(** ** Reset *)

Definition reset_chunk (c : Chunk) : Chunk :=
  c <| sequence := 0 |> <| valid_start_frame := 0 |> <| valid_frame_count := 0 |>
    <| state := as_u8 Writable |>.

Definition reset : RM unit :=
  let! r := get in
  fail_if (write_lock_poisoned r) (Control "write chunk lock poisoned") ;;
  fail_if (overrun_lock_poisoned r) (Control "last overrun lock poisoned") ;;
  fail_if (negb (active_snapshots r =? 0) ||
           existsb (fun c => negb (pin_count c =? 0)) (chunks r))
    (Control "cannot reset ring while a snapshot is active") ;;
  fail_if (existsb (is_state Writing) (chunks r))
    (Control "cannot reset ring while a writer is active") ;;
  modify (fun r => r <| chunks ::= map reset_chunk |> <| write_chunk := 0 |>
    <| global_write_frame := 0 |> <| clear_after_frame := 0 |> <| next_sequence := 1 |>
    <| dropped_frames := 0 |> <| last_overrun := None |>).

(** ** Retained range *)

(** One turn of the loop of [oldest_frame_at]: [inl] the older boundary, [inr]
    the final one ([break]). *)
Definition oldest_step (r : SampleRing) (oldest : Z) : Result (Z + Z) :=
  if oldest =? 0 then Ok (inr oldest)
  else
    let preceding_frame := oldest - 1 in
    let chunk_index := (preceding_frame / cfg_chunk_frames (cfg r)) mod zlen (chunks r) in
    let? c := unwrap (zlookup (chunks r) chunk_index) in
    if negb (is_state Published c) then Ok (inr oldest)
    else
      let start := valid_start_frame c in
      let end_ := wrap64 (start + valid_frame_count c) in
      if (oldest <=? start) || (end_ <? oldest) then Ok (inr oldest) else Ok (inl start).

Fixpoint oldest_loop (r : SampleRing) (turns : nat) (oldest : Z) : Result Z :=
  match turns with
  | O => Ok oldest
  | S turns' =>
      let? next := oldest_step r oldest in
      match next with
      | inl older => oldest_loop r turns' older
      | inr final => Ok final
      end
  end.

Definition oldest_frame_at (r : SampleRing) (head : Z) : Result Z :=
  let? oldest := oldest_loop r (length (chunks r)) head in
  Ok (Z.max oldest (clear_after_frame r)).

Definition write_head_frame (r : SampleRing) : Z := global_write_frame r.

(** Recovers the guard of a poisoned lock. *)
Definition oldest_frame (r : SampleRing) : Result Z :=
  oldest_frame_at r (write_head_frame r).

(** ** Writing *)

Definition add_dropped_frames (frames : Z) : RM unit :=
  let! r := get in
  let! total := lift (ok_or (add_checked (dropped_frames r) frames)
                        (CaptureInvariant "dropped frame counter exhausted")) in
  modify (fun r => r <| dropped_frames := total |>).

Definition record_overrun (now frames : Z) : RM unit :=
  add_dropped_frames frames ;;
  modify (fun r => if overrun_lock_poisoned r then r else r <| last_overrun := Some now |>).

Definition record_dropped_frames (frames : Z) : RM unit := add_dropped_frames frames.

(** The preparation of the write chunk: at a chunk boundary the chunk is taken
    over under a new sequence number, otherwise it is extended. *)
Definition begin_chunk (index offset global_frame : Z) (next_seq : option Z) : RM unit :=
  if offset =? 0 then
    modify (update_chunk index (fun c => c <| state := as_u8 Writing |>)) ;;
    modify (update_chunk index (fun c => c <| valid_start_frame := global_frame |>)) ;;
    modify (update_chunk index (fun c => c <| valid_frame_count := 0 |>)) ;;
    let! sequence_number := gets next_sequence in
    let! next := lift (ok_or next_seq
                         (CaptureInvariant "ring sequence state is inconsistent")) in
    modify (fun r => r <| next_sequence := next |>) ;;
    modify (update_chunk index (fun c => c <| sequence := sequence_number |>))
  else modify (update_chunk index (fun c => c <| state := as_u8 Writing |>)).

(** The copy into the chunk's buffer, under its own lock. *)
Definition copy_to_chunk (index offset ch frame_index frames_to_copy : Z) (samples : list f32)
    : RM unit :=
  let! r := get in
  let! c := chunk_at (chunks r) index in
  fail_if (data_poisoned c) (CaptureInvariant "chunk data lock poisoned") ;;
  let dst_start := wrap64 (offset * ch) in
  let src_start := wrap64 (frame_index * ch) in
  let sample_count := wrap64 (frames_to_copy * ch) in
  let! src := lift (unwrap (slice samples src_start (wrap64 (src_start + sample_count)))) in
  let! written := lift (unwrap (copy_into (data c) dst_start src)) in
  modify (update_chunk index (fun c => c <| data := written |>)).

(** One turn of the writer's loop, under the writer lock: [inl] the next frame
    index, [inr tt] when the remaining frames are dropped. *)
Definition write_turn (now : Z) (samples : list f32) (ch total frame_index : Z)
    : RM (Z + unit) :=
  let! r := get in
  fail_if (write_lock_poisoned r) (CaptureInvariant "write chunk lock poisoned") ;;
  let global_frame := global_write_frame r in
  let offset := wrap32 (global_frame mod cfg_chunk_frames (cfg r)) in
  let index := write_chunk r in
  let! c := chunk_at (chunks r) index in
  let frames_available := cfg_chunk_frames (cfg r) - offset in
  let frames_to_copy := Z.min frames_available (total - frame_index) in
  let! new_global := lift (ok_or (add_checked global_frame frames_to_copy)
                             (CaptureInvariant "local frame counter exhausted")) in
  let! next_seq :=
    if offset =? 0 then
      let! next := lift (ok_or (add_checked (next_sequence r) 1)
                           (CaptureInvariant "ring sequence exhausted")) in
      ret (Some next)
    else ret None in
  if 0 <? pin_count c then
    record_overrun now (total - frame_index) ;;
    ret (inr tt)
  else
    begin_chunk index offset global_frame next_seq ;;
    copy_to_chunk index offset ch frame_index frames_to_copy samples ;;
    let new_valid := wrap32 (offset + frames_to_copy) in
    modify (update_chunk index (fun c => c <| valid_frame_count := new_valid |>)) ;;
    modify (update_chunk index (fun c => c <| state := as_u8 Published |>)) ;;
    modify (fun r => r <| global_write_frame := new_global |>) ;;
    (if cfg_chunk_frames (cfg r) <=? new_valid
     then modify (fun r => r <| write_chunk := wrap64 (index + 1) mod zlen (chunks r) |>)
     else ret tt) ;;
    ret (inl (frame_index + frames_to_copy)).

(** [while frame_index < total_frames { ... }] *)
Definition write_loop_body (now : Z) (samples : list f32) (ch total : Z) (frame_index : Z)
    : RM (Z + unit) :=
  if frame_index <? total then write_turn now samples ch total frame_index
  else ret (inr tt).

Definition write_interleaved (now : Z) (samples : list f32) (ch : Z) : RM unit :=
  let! r := get in
  fail_if (negb (ch =? cfg_channels (cfg r)))
    (CaptureInvariant "incoming channels do not match ring channels") ;;
  fail_if ((ch =? 0) || negb (is_multiple_of (zlen samples) ch))
    (CaptureInvariant "input sample length is not whole frames") ;;
  mloop (write_loop_body now samples ch (zlen samples / ch)) 0.

(** ** Copying a retained range

    The state of the copy is the caller's destination buffer. *)
Abbreviation CM := (M (list f32) LambError).

(** One turn of the copy loop: [(cursor, destination_frame)]. *)
Definition copy_turn (r : SampleRing) (copy_end cursor destination_frame : Z)
    : CM ((Z * Z) + Z) :=
  let ch := cfg_channels (cfg r) in
  let chunk_index := (cursor / cfg_chunk_frames (cfg r)) mod zlen (chunks r) in
  let! c := chunk_at (chunks r) chunk_index in
  fail_if (negb (is_state Published c)) (ExportInvariant "copy range has incomplete coverage") ;;
  let valid_start := valid_start_frame c in
  let! valid_end := lift (ok_or (add_checked valid_start (valid_frame_count c))
                            (ExportInvariant "chunk frame range overflow")) in
  fail_if ((cursor <? valid_start) || (valid_end <=? cursor))
    (ExportInvariant "copy range has incomplete coverage") ;;
  let segment_end := Z.min copy_end valid_end in
  let segment_frames := segment_end - cursor in
  let source_frame := cursor - valid_start in
  let! source_start := lift (ok_or (mul_checked source_frame ch)
                               (ExportInvariant "copy sample offset overflow")) in
  let! sample_count := lift (ok_or (mul_checked segment_frames ch)
                               (ExportInvariant "copy sample count overflow")) in
  let! destination_start := lift (ok_or (mul_checked destination_frame ch)
                                    (ExportInvariant "destination sample offset overflow")) in
  fail_if (data_poisoned c) (ExportInvariant "chunk data lock poisoned") ;;
  let! source := lift (unwrap (slice (data c) source_start
                                 (wrap64 (source_start + sample_count)))) in
  let! destination := get in
  let! written := lift (unwrap (copy_into destination destination_start source)) in
  modify (fun _ => written) ;;
  ret (inl (segment_end, wrap64 (destination_frame + segment_frames))).

Definition copy_loop_body (r : SampleRing) (copy_end : Z) (l : Z * Z) : CM ((Z * Z) + Z) :=
  if l.1 <? copy_end then copy_turn r copy_end l.1 l.2 else ret (inr l.2).

Definition copy_interleaved_range_into (r : SampleRing) (range_start range_end : Z) : CM Z :=
  fail_if (range_end <? range_start) (ExportInvariant "copy range start exceeds end") ;;
  let ch := cfg_channels (cfg r) in
  let! destination := get in
  fail_if (negb (is_multiple_of (zlen destination) ch))
    (ExportInvariant "destination sample length is not whole frames") ;;
  fail_if (write_lock_poisoned r) (ExportInvariant "write chunk lock poisoned") ;;
  let head := write_head_frame r in
  let! oldest := lift (oldest_frame_at r head) in
  fail_if ((range_start <? oldest) || (head <? range_end))
    (ExportInvariant "copy range is outside retained range") ;;
  let destination_frames := zlen destination / ch in
  let! capacity_end := lift (ok_or (add_checked range_start destination_frames)
                               (ExportInvariant "copy frame range overflow")) in
  let copy_end := Z.min range_end capacity_end in
  mloop (copy_loop_body r copy_end) (range_start, 0).

(** ** Snapshots *)

(** [ActiveSnapshotGuard::acquire] *)
Definition acquire_slot : RM unit :=
  let! r := get in
  fail_if (cfg_max_active_snapshots (cfg r) <=? active_snapshots r)
    (Control "export already active") ;;
  modify (fun r => r <| active_snapshots ::= (fun n => wrap32 (n + 1)) |>).

(** The release of a slot by a dropped guard or snapshot. *)
Definition release_slot (r : SampleRing) : SampleRing :=
  r <| active_snapshots ::= (fun n => wrap32 (n - 1)) |>.

Definition unpin (r : SampleRing) (s : SnapshotSegment) : SampleRing :=
  update_chunk (chunk s) (fun c => c <| pin_count ::= (fun n => wrap32 (n - 1)) |>) r.

(** The segment that a published chunk contributes to [[start, end_)]. *)
Definition overlap (index : Z) (c : Chunk) (start end_ : Z)
    : option SnapshotSegment :=
  if negb (is_state Published c) then None
  else
    let valid_start := valid_start_frame c in
    let valid_end := wrap64 (valid_start + valid_frame_count c) in
    if (valid_end <=? start) || (end_ <=? valid_start) then None
    else
      let overlap_start := Z.max valid_start start in
      let overlap_end := Z.min valid_end end_ in
      if overlap_end <=? overlap_start then None
      else Some {| chunk := index;
                   expected_sequence := sequence c;
                   start_frame_in_chunk := wrap32 (overlap_start - valid_start);
                   frame_count := wrap32 (overlap_end - overlap_start) |}.

(** The candidate at one offset: it is pinned, and unpinned again when its state
    or sequence changed meanwhile. *)
Definition collect_one (index start end_ : Z) : RM (option SnapshotSegment) :=
  let! r := get in
  let! c := chunk_at (chunks r) index in
  match overlap index c start end_ with
  | None => ret None
  | Some segment =>
      modify (update_chunk index (fun c => c <| pin_count ::= (fun n => wrap32 (n + 1)) |>)) ;;
      let! r' := get in
      let! after := chunk_at (chunks r') index in
      if negb (is_state Published after) || negb (sequence after =? sequence c)
      then modify (fun r => unpin r segment) ;; ret None
      else ret (Some segment)
  end.

Fixpoint collect_segments (first_chunk offset : Z) (turns : nat) (start end_ : Z)
    : RM (list SnapshotSegment) :=
  match turns with
  | O => ret []
  | S turns' =>
      let! r := get in
      let! found := collect_one ((first_chunk + offset) mod zlen (chunks r))
                      start end_ in
      let! rest := collect_segments first_chunk (offset + 1) turns' start end_ in
      ret (match found with Some s => s :: rest | None => rest end)
  end.

(** A range whose chunks are pinned; [guard] says whether it holds an
    active-snapshot slot ([Some] guard; [None] for an empty range). *)
Record PinnedRange := mkPinned {
  range_start : Z;
  range_end : Z;
  pinned_segments : list SnapshotSegment;
  guard : bool;
}.

Definition pin_snapshot_range (start end_ head oldest : Z) : RM PinnedRange :=
  fail_if (end_ <? start)
    (Control ("snapshot range start " +:+ pretty start +:+ " exceeds end " +:+ pretty end_)) ;;
  fail_if (start <? oldest)
    (Control ("snapshot range starts at " +:+ pretty start +:+
              ", before oldest retained frame " +:+ pretty oldest)) ;;
  fail_if (head <? end_)
    (Control ("snapshot range ends at " +:+ pretty end_ +:+ ", after write head " +:+
              pretty head)) ;;
  if start =? end_ then ret (mkPinned start end_ [] false)
  else
    acquire_slot ;;
    let! r := get in
    let first_chunk := (start / cfg_chunk_frames (cfg r)) mod zlen (chunks r) in
    let! segments := collect_segments first_chunk 0 (length (chunks r)) start end_ in
    ret (mkPinned start end_ segments true).

(** The absolute first frame of a segment, the sort key. *)
Definition segment_start (r : SampleRing) (s : SnapshotSegment) : Result Z :=
  let? c := unwrap (zlookup (chunks r) (chunk s)) in
  Ok (wrap64 (valid_start_frame c + start_frame_in_chunk s)).

Definition segment_key (r : SampleRing) (s : SnapshotSegment) : Z :=
  match segment_start r s with Ok k => k | _ => 0 end.

(** [sort_by_key] is stable; so is insertion from the right. *)
Fixpoint insert_by_key (r : SampleRing) (s : SnapshotSegment) (l : list SnapshotSegment)
    : list SnapshotSegment :=
  match l with
  | [] => [s]
  | x :: rest => if segment_key r s <=? segment_key r x then s :: l
                 else x :: insert_by_key r s rest
  end.

Definition sort_by_key (r : SampleRing) (l : list SnapshotSegment) : list SnapshotSegment :=
  foldr (insert_by_key r) [] l.

Definition incomplete_coverage (frame : Z) : LambError :=
  Control ("snapshot range has incomplete coverage at frame " +:+ pretty frame).

(** The coverage proof of [finish_snapshot]. *)
Fixpoint check_coverage (r : SampleRing) (expected_start : Z) (l : list SnapshotSegment)
    : Result Z :=
  match l with
  | [] => Ok expected_start
  | s :: rest =>
      let? start := segment_start r s in
      if negb (start =? expected_start) then Err (incomplete_coverage expected_start)
      else check_coverage r (wrap64 (start + frame_count s)) rest
  end.

(** [Drop for Snapshot] *)
Definition drop_snapshot (s : Snapshot) (r : SampleRing) : SampleRing :=
  let r' := fold_left unpin (segments s) r in
  if active_counter s then release_slot r' else r'.

(** Runs after the writer lock has been released. On an error path the snapshot
    under construction and the guard are dropped: the pins and the slot are given
    back. *)
Definition finish_snapshot (p : PinnedRange) : RM Snapshot :=
  let! r := get in
  let sorted := sort_by_key r (pinned_segments p) in
  let total := fold_left (fun n s => wrap64 (n + frame_count s)) sorted 0 in
  let snapshot := mkSnapshot sorted (range_start p) (range_end p) (cfg_channels (cfg r))
                    (cfg_sample_rate (cfg r)) (cfg_format (cfg r)) total in
  let abandon (e : LambError) :=
    modify (drop_snapshot (snapshot false)) ;;
    modify (fun r => if guard p then release_slot r else r) ;; fail e in
  match check_coverage r (range_start p) sorted with
  | Ok expected_start =>
      if negb (expected_start =? range_end p) then abandon (incomplete_coverage expected_start)
      else ret (snapshot (guard p))
  | Err e => abandon e
  | Panic => panic
  end.

(** The blocks of the three snapshot methods that hold the writer lock. *)
Definition pin_range (start end_ : Z) : RM PinnedRange :=
  let! r := get in
  fail_if (write_lock_poisoned r) (Control "write chunk lock poisoned") ;;
  let head := write_head_frame r in
  let! oldest := lift (oldest_frame_at r head) in
  pin_snapshot_range start end_ head oldest.

Definition pin_last_frames (requested_frames : Z) : RM PinnedRange :=
  let! r := get in
  fail_if (write_lock_poisoned r) (Control "write chunk lock poisoned") ;;
  let head := write_head_frame r in
  let! oldest := lift (oldest_frame_at r head) in
  pin_snapshot_range (Z.max (saturating_sub head requested_frames) oldest) head head oldest.

(** [(requested_start, oldest_frame, pinned range)] *)
Definition pin_selection (committed_start : option Z) : RM (Z * Z * PinnedRange) :=
  let! r := get in
  fail_if (write_lock_poisoned r) (Control "write chunk lock poisoned") ;;
  let head := write_head_frame r in
  let! oldest := lift (oldest_frame_at r head) in
  let requested := match committed_start with Some c => c | None => oldest end in
  let! pinned := pin_snapshot_range (Z.max requested oldest) head head oldest in
  ret (requested, oldest, pinned).

Definition snapshot_range (start end_ : Z) : RM Snapshot :=
  let! p := pin_range start end_ in finish_snapshot p.

Definition snapshot_last_frames (requested_frames : Z) : RM Snapshot :=
  let! p := pin_last_frames requested_frames in finish_snapshot p.

Definition select_snapshot (committed_start : option Z) : RM SnapshotSelection :=
  let! (requested, oldest, p) := pin_selection committed_start in
  let! snapshot := finish_snapshot p in
  ret (mkSelection requested oldest snapshot).

(** The samples of one channel in one segment. *)
Fixpoint read_frames (samples : list f32) (ch channel frame : Z) (n : nat)
    : Result (list f32) :=
  match n with
  | O => Ok []
  | S n' =>
      let? x := unwrap (zlookup samples (wrap64 (wrap64 (frame * ch) + channel))) in
      let? rest := read_frames samples ch channel (frame + 1) n' in
      Ok (x :: rest)
  end.

Fixpoint read_segments (r : SampleRing) (ch channel : Z) (l : list SnapshotSegment)
    : Result (list f32) :=
  match l with
  | [] => Ok []
  | s :: rest =>
      let? c := unwrap (zlookup (chunks r) (chunk s)) in
      if negb (sequence c =? expected_sequence s) || negb (is_state Published c)
      then Err (Export "snapshot segment generation mismatch")
      else if data_poisoned c then Err (Export "chunk data lock poisoned")
      else
        let? out := read_frames (data c) ch channel (start_frame_in_chunk s)
                      (Z.to_nat (frame_count s)) in
        let? more := read_segments r ch channel rest in
        Ok (out ++ more)
  end.

Definition read_channel_samples (r : SampleRing) (s : Snapshot) (channel_index : Z)
    : Result (list f32) :=
  if snapshot_channels s <=? channel_index
  then Err (Export ("channel index " +:+ pretty channel_index +:+ " out of range for " +:+
                    pretty (snapshot_channels s) +:+ " channels"))
  else read_segments r (snapshot_channels s) channel_index (segments s).

(** ** Clear and status *)

Definition clear : RM unit :=
  modify (fun r => r <| clear_after_frame := global_write_frame r |>).

Definition status (r : SampleRing) : Result RingStatus :=
  let global := write_head_frame r in
  let? oldest := oldest_frame_at r global in
  Ok {| status_dropped_frames := dropped_frames r;
        status_retained_frames := saturating_sub global oldest;
        status_capacity_frames :=
          wrap64 (cfg_chunk_frames (cfg r) * cfg_chunk_count (cfg r));
        status_active_snapshots := active_snapshots r;
        status_last_overrun := last_overrun r |}.
