(* ===== verification/RingSpec.v ===== *)
(** * Correctness of the sample ring

    The abstract state of a ring is its history: every sample accepted since
    the last reset, interleaved. [ring_inv] says how the chunks represent the
    end of that history. The file proves that the operations of [SampleRing]
    preserve the representation and refine list operations on the history. *)
From S2P Require Import Prelude.
From S2P Require Import Errors.
From S2P Require Import MemoryPlan.
From S2P Require Import SampleRing.

(** ** The representation invariant *)

Section representation.
Context (r : SampleRing).

Definition CF : Z := cfg_chunk_frames (cfg r).
Definition CH : Z := cfg_channels (cfg r).
Definition NC : Z := zlen (chunks r).
Definition HEAD : Z := global_write_frame r.
(** The blocks of [CF] frames that the history has started. *)
Definition BLOCKS : Z := div_ceil HEAD CF.

(** Chunk [c] holds block [j] of the history [h]. *)
Definition block_ok (h : list f32) (j : Z) (c : Chunk) : Prop :=
  chunk_state c = Published /\
  valid_start_frame c = j * CF /\
  valid_frame_count c = Z.min CF (HEAD - j * CF) /\
  segment (data c) 0 (valid_frame_count c * CH) =
    segment h (j * CF * CH) (valid_frame_count c * CH).

Definition chunk_wf (c : Chunk) : Prop :=
  zlen (data c) = CF * CH /\ data_poisoned c = false /\ is_u32 (pin_count c) /\
  chunk_state c <> Writing /\ 0 <= sequence c < next_sequence r.

Record ring_inv (h : list f32) : Prop := {
  inv_cf : 0 < CF <= u32_max;
  inv_ch : 0 < CH <= u32_max;
  inv_size : CF * CH <= 2 ^ 63;
  inv_nc : 0 < NC <= u32_max;
  inv_count : NC = cfg_chunk_count (cfg r);
  inv_head : is_u64 HEAD;
  inv_hist : zlen h = HEAD * CH;
  inv_write : write_chunk r = (HEAD / CF) mod NC;
  inv_clear : 0 <= clear_after_frame r <= HEAD;
  inv_dropped : is_u64 (dropped_frames r);
  inv_seq : 1 <= next_sequence r <= BLOCKS + 1;
  inv_seq64 : next_sequence r <= u64_max;
  inv_locks : write_lock_poisoned r = false;
  inv_block : forall j, 0 <= j -> BLOCKS - NC <= j < BLOCKS ->
    exists c, zlookup (chunks r) (j mod NC) = Some c /\ block_ok h j c;
  inv_fresh : forall i, BLOCKS <= i < NC ->
    exists c, zlookup (chunks r) i = Some c /\ chunk_state c = Writable;
  inv_chunks : forall i c, zlookup (chunks r) i = Some c -> chunk_wf c;
}.

(** The oldest retained block and frame. *)
Definition FIRST_BLOCK : Z := Z.max 0 (BLOCKS - NC).
Definition OLDEST : Z := Z.max (FIRST_BLOCK * CF) (clear_after_frame r).
End representation.

(** The flags that say whether a chunk's state byte is one of the enum. *)
Lemma chunk_state_as_u8 c s : chunk_state (c <| state := as_u8 s |>) = s.
Proof. by destruct s. Qed.

Lemma is_state_spec s c : is_state s c = true <-> chunk_state c = s.
Proof. unfold is_state. destruct s, (chunk_state c); done. Qed.

Lemma is_published c : chunk_state c = Published -> is_state Published c = true.
Proof. apply is_state_spec. Qed.

Lemma not_published c : chunk_state c <> Published -> is_state Published c = false.
Proof.
  intros H. destruct (is_state Published c) eqn:E; [|done].
  apply is_state_spec in E. done.
Qed.

Section block_arithmetic.
Context {r : SampleRing} {h : list f32} (Hinv : ring_inv r h).

Lemma blocks_nonneg : 0 <= BLOCKS r.
Proof using Hinv.
  pose proof (inv_head _ _ Hinv) as [? _]. pose proof (inv_cf _ _ Hinv).
  apply div_ceil_nonneg; lia.
Qed.

Lemma blocks_bound : (BLOCKS r - 1) * CF r < HEAD r <= BLOCKS r * CF r.
Proof using Hinv. pose proof (inv_cf _ _ Hinv). apply div_ceil_spec. lia. Qed.

Lemma frame_block f : 0 <= f < HEAD r -> 0 <= f / CF r < BLOCKS r.
Proof using Hinv.
  intros Hf. pose proof (inv_cf _ _ Hinv). pose proof blocks_bound.
  split; [apply Z.div_pos; lia|]. apply Z.div_lt_upper_bound; lia.
Qed.

(** The frames of a retained block. *)
Lemma block_chunk j :
  FIRST_BLOCK r <= j < BLOCKS r ->
  exists c, zlookup (chunks r) (j mod NC r) = Some c /\ block_ok r h j c.
Proof using Hinv.
  unfold FIRST_BLOCK. intros. apply (inv_block _ _ Hinv); lia.
Qed.

Lemma block_end j c :
  0 <= j -> block_ok r h j c -> j < BLOCKS r ->
  wrap64 (valid_start_frame c + valid_frame_count c) = Z.min ((j + 1) * CF r) (HEAD r) /\
  j * CF r < Z.min ((j + 1) * CF r) (HEAD r).
Proof using Hinv.
  intros Hj (_ & -> & -> & _) Hjb. pose proof (inv_cf _ _ Hinv). pose proof blocks_bound.
  pose proof (inv_head _ _ Hinv) as Hh. unfold is_u64 in Hh.
  assert (j * CF r < HEAD r) by nia.
  rewrite wrap64_small; [nia | unfold is_u64; nia].
Qed.

Lemma oldest_le_head : 0 <= OLDEST r <= HEAD r.
Proof using Hinv.
  unfold OLDEST, FIRST_BLOCK. pose proof (inv_clear _ _ Hinv). pose proof blocks_bound.
  pose proof (inv_nc _ _ Hinv). pose proof (inv_cf _ _ Hinv). pose proof (inv_head _ _ Hinv) as [? _].
  pose proof blocks_nonneg. nia.
Qed.

(** ** [oldest_frame_at] *)

Lemma oldest_step_block j :
  FIRST_BLOCK r <= j < BLOCKS r ->
  oldest_step r (Z.min ((j + 1) * CF r) (HEAD r)) = Ok (inl (j * CF r)).
Proof using Hinv.
  intros Hj. pose proof (inv_cf _ _ Hinv). pose proof blocks_bound.
  destruct (block_chunk j Hj) as (c & Hc & Hb).
  assert (0 <= j) by (unfold FIRST_BLOCK in Hj; lia).
  destruct (block_end j c ltac:(done) Hb ltac:(lia)) as [He Hlt].
  unfold oldest_step. set (b := Z.min _ _) in *.
  assert (0 < b) by nia. decide_cmp.
  assert ((b - 1) / cfg_chunk_frames (cfg r) = j) as ->.
  { symmetry. apply (Z.div_unique_pos _ _ _ (b - 1 - j * CF r)); unfold CF in *; lia. }
  change (zlen (chunks r)) with (NC r). rewrite Hc. cbn [unwrap obind].
  rewrite (is_published c) by apply Hb. cbn [negb].
  rewrite He. destruct Hb as (_ & Hs & _). rewrite Hs.
  repeat decide_cmp. done.
Qed.

Lemma oldest_loop_block turns j :
  FIRST_BLOCK r <= j + 1 <= BLOCKS r ->
  j + 1 - FIRST_BLOCK r <= Z.of_nat turns ->
  FIRST_BLOCK r = 0 \/ j + 1 - FIRST_BLOCK r = Z.of_nat turns ->
  oldest_loop r turns (Z.min ((j + 1) * CF r) (HEAD r)) = Ok (FIRST_BLOCK r * CF r).
Proof using Hinv.
  pose proof blocks_bound as Hbb. pose proof (inv_cf _ _ Hinv) as Hcf.
  assert (0 <= FIRST_BLOCK r) by (unfold FIRST_BLOCK; lia).
  assert (forall b, 0 <= b < BLOCKS r -> Z.min (b * CF r) (HEAD r) = b * CF r) as Hmin by nia.
  revert j. induction turns as [|turns IH]; intros j Hj Hle Hend; cbn [oldest_loop].
  - assert (j + 1 = FIRST_BLOCK r) as -> by lia. f_equal.
    assert (FIRST_BLOCK r < BLOCKS r \/ FIRST_BLOCK r = BLOCKS r) as [?|Heq] by lia.
    + apply Hmin. unfold FIRST_BLOCK in *. lia.
    + pose proof (inv_nc _ _ Hinv). pose proof blocks_nonneg. unfold FIRST_BLOCK in *.
      assert (BLOCKS r = 0) by lia. pose proof (inv_head _ _ Hinv) as [? _]. nia.
  - destruct (Z.eq_dec (j + 1) (FIRST_BLOCK r)) as [Heq|Hne].
    + assert (FIRST_BLOCK r = 0) as H0 by lia. rewrite Heq, H0.
      pose proof (inv_head _ _ Hinv) as [? _].
      unfold oldest_step. rewrite Z.min_l by lia. done.
    + rewrite oldest_step_block by lia. cbn [obind].
      replace (j * CF r) with (Z.min ((j - 1 + 1) * CF r) (HEAD r)).
      * apply IH; lia.
      * replace (j - 1 + 1) with j by lia. apply Hmin. unfold FIRST_BLOCK in *. lia.
Qed.

Lemma oldest_frame_at_spec : oldest_frame_at r (HEAD r) = Ok (OLDEST r).
Proof using Hinv.
  unfold oldest_frame_at, OLDEST. pose proof blocks_bound. pose proof blocks_nonneg.
  pose proof (inv_nc _ _ Hinv) as Hn. unfold NC, zlen in Hn.
  replace (HEAD r) with (Z.min ((BLOCKS r - 1 + 1) * CF r) (HEAD r)) at 1
    by (replace (BLOCKS r - 1 + 1) with (BLOCKS r); lia).
  rewrite oldest_loop_block; [done | unfold FIRST_BLOCK, NC, zlen; lia..].
Qed.
End block_arithmetic.

(** ** [copy_interleaved_range_into] *)

Section copying.
Context {r : SampleRing} {h : list f32} (Hinv : ring_inv r h).

Lemma is_multiple_of_spec x y : 0 < y -> is_multiple_of x y = (x mod y =? 0).
Proof using. intros. unfold is_multiple_of. decide_cmp. done. Qed.

(** The samples of the frames [[a, a + n)] inside the chunk of block [j]. *)
Lemma block_samples j c a n :
  FIRST_BLOCK r <= j < BLOCKS r -> block_ok r h j c ->
  zlookup (chunks r) (j mod NC r) = Some c ->
  j * CF r <= a -> 0 <= n -> a + n <= Z.min ((j + 1) * CF r) (HEAD r) ->
  (a - j * CF r) * CH r + n * CH r <= zlen (data c) /\ zlen (data c) <= 2 ^ 63 /\
  segment (data c) ((a - j * CF r) * CH r) (n * CH r) = segment h (a * CH r) (n * CH r).
Proof using Hinv.
  intros Hj (_ & _ & Hvc & Hdata) Hc Ha Hn Hend.
  pose proof (inv_ch _ _ Hinv). pose proof (inv_cf _ _ Hinv).
  destruct (inv_chunks _ _ Hinv _ _ Hc) as (Hlen & _). rewrite Hlen.
  pose proof (inv_size _ _ Hinv). assert (0 <= j) by (unfold FIRST_BLOCK in Hj; lia).
  assert (a - j * CF r + n <= valid_frame_count c) as Hfit by (rewrite Hvc; nia).
  split_and!; [rewrite Hvc in Hfit; nia | nia |].
  transitivity (segment (segment (data c) 0 (valid_frame_count c * CH r))
                  ((a - j * CF r) * CH r) (n * CH r)).
  - rewrite segment_segment by nia. done.
  - rewrite Hdata, segment_segment by nia. f_equal. lia.
Qed.

Context (a b : Z) (dst : list f32).
Definition copied : Z := Z.min (b - a) (zlen dst / CH r).
Context (Hrange : OLDEST r <= a <= b) (Hb : b <= HEAD r)
  (Hdst : zlen dst mod CH r = 0) (Hlen : zlen dst <= u64_max)
  (Hcap : a + zlen dst / CH r <= u64_max).

Definition copy_state (n : Z) : list f32 :=
  segment h (a * CH r) (n * CH r) ++ drop (Z.to_nat (n * CH r)) dst.

Lemma copied_bounds : 0 <= copied /\ copied * CH r <= zlen dst /\ a + copied <= b.
Proof using Hinv Hrange Hdst.
  pose proof (inv_ch _ _ Hinv). unfold copied. pose proof (zlen_nonneg dst).
  pose proof (Z.div_pos (zlen dst) (CH r)). pose proof (Z.mul_div_le (zlen dst) (CH r)).
  nia.
Qed.

Lemma history_segment_length n :
  0 <= n -> n <= copied -> zlen (segment h (a * CH r) (n * CH r)) = n * CH r.
Proof using Hinv Hrange Hb Hdst.
  intros. pose proof (inv_ch _ _ Hinv). pose proof copied_bounds.
  pose proof (oldest_le_head Hinv). rewrite zlen_segment; [done | nia | nia |].
  rewrite (inv_hist _ _ Hinv). nia.
Qed.

Lemma copy_turn_spec cursor n :
  a <= cursor < a + copied -> n = cursor - a ->
  exists next, cursor < next <= a + copied /\
    copy_turn r (a + copied) cursor n (copy_state n) =
      (copy_state (next - a), Ok (inl (next, next - a))).
Proof using Hinv Hrange Hb Hdst Hlen.
  intros Hcur ->. pose proof (inv_ch _ _ Hinv). pose proof (inv_cf _ _ Hinv).
  pose proof copied_bounds. pose proof (oldest_le_head Hinv) as Hold.
  pose proof (frame_block Hinv cursor ltac:(lia)) as Hj. set (j := cursor / CF r) in *.
  pose proof (Z.div_mod cursor (CF r) ltac:(lia)) as Hdm. fold j in Hdm.
  pose proof (Z.mod_pos_bound cursor (CF r) ltac:(lia)).
  assert (FIRST_BLOCK r <= j) as Hfj.
  { apply Z.div_le_lower_bound; [lia|]. unfold OLDEST in Hrange. lia. }
  destruct (block_chunk Hinv j ltac:(lia)) as (c & Hc & Hblk).
  destruct (block_end Hinv j c ltac:(lia) Hblk ltac:(lia)) as [Hve _].
  pose proof (inv_head _ _ Hinv) as [_ Hh64].
  set (ve := Z.min ((j + 1) * CF r) (HEAD r)) in *.
  assert (cursor < ve <= u64_max) by nia.
  set (next := Z.min (a + copied) ve). exists next. split; [lia|].
  assert (valid_start_frame c + valid_frame_count c = ve) as Hsum.
  { destruct Hblk as (_ & -> & -> & _). subst ve. lia. }
  assert (valid_start_frame c = j * CF r) as Hvs by apply Hblk.
  destruct (block_samples j c cursor (next - cursor)) as (Hfit & Hbig & Hseg);
    [lia | done | done | lia | lia | lia |].
  unfold copy_turn, chunk_at. change (cfg_chunk_frames (cfg r)) with (CF r).
  change (zlen (chunks r)) with (NC r). change (cfg_channels (cfg r)) with (CH r).
  fold j. rewrite Hc. cbn [unwrap]. msteps.
  rewrite (is_published c) by apply Hblk. cbn [negb]. msteps.
  rewrite add_checked_ok by lia. cbn [ok_or]. msteps. rewrite Hsum.
  repeat decide_cmp. cbn [orb]. msteps. fold next. rewrite Hvs.
  assert (0 <= (cursor - j * CF r) * CH r) by (apply Z.mul_nonneg_nonneg; lia).
  assert (0 <= (next - cursor) * CH r) by (apply Z.mul_nonneg_nonneg; lia).
  assert (0 <= a * CH r) by (apply Z.mul_nonneg_nonneg; lia).
  assert (0 <= (cursor - a) * CH r <= copied * CH r)
    by (split; [apply Z.mul_nonneg_nonneg | apply Z.mul_le_mono_nonneg_r]; lia).
  rewrite !mul_checked_ok by (unfold u64_max in *; lia). cbn [ok_or]. msteps.
  destruct (inv_chunks _ _ Hinv _ _ Hc) as (_ & -> & _). msteps.
  rewrite wrap64_small by (unfold is_u64, u64_max; lia).
  rewrite slice_Some by lia. rewrite Z.add_simpl_l, Hseg. cbn [unwrap]. msteps.
  pose proof (history_segment_length (cursor - a) ltac:(lia) ltac:(lia)) as Hl1.
  unfold copy_state at 1 2. rewrite <- Hl1 at 2 3. rewrite copy_into_extend.
  - cbn [unwrap]. msteps. rewrite ret_run. f_equal; [|].
    + unfold copy_state.
      assert (segment h (a * CH r) ((cursor - a) * CH r) ++
              segment h (cursor * CH r) ((next - cursor) * CH r) =
              segment h (a * CH r) ((next - a) * CH r)) as ->.
      { replace ((next - a) * CH r) with ((cursor - a) * CH r + (next - cursor) * CH r) by lia.
        rewrite segment_split by lia. do 2 f_equal. lia. }
      rewrite history_segment_length by lia. done.
    + do 2 f_equal. rewrite wrap64_small by (unfold is_u64, u64_max in *; lia). f_equal. lia.
  - rewrite Hl1, zlen_segment; [ | lia | lia | ].
    + assert ((next - a) * CH r <= copied * CH r)
        by (apply Z.mul_le_mono_nonneg_r; lia). lia.
    + rewrite (inv_hist _ _ Hinv), <- Z.mul_add_distr_r.
      apply Z.mul_le_mono_nonneg_r; lia.
Qed.

Lemma copy_loop_spec :
  exists s' o, mloop (copy_loop_body r (a + copied)) (a, 0) dst = (s', o) /\
    s' = copy_state copied /\ o = Ok copied.
Proof using Hinv Hrange Hb Hdst Hlen.
  pose proof copied_bounds. pose proof (oldest_le_head Hinv).
  pose proof (inv_head _ _ Hinv) as [_ Hh64].
  apply (mloop_rule (copy_loop_body r (a + copied))
           (fun s l => a <= l.1 <= a + copied /\ l.2 = l.1 - a /\ s = copy_state l.2)
           (fun _ l => a + copied - l.1) (fun s' o => s' = copy_state copied /\ o = Ok copied)).
  - intros s [cursor n]; cbn [fst snd]. intros (Hc & -> & ->). unfold copy_loop_body; cbn [fst snd].
    destruct (cursor <? a + copied) eqn:E; to_prop.
    + destruct (copy_turn_spec cursor (cursor - a)) as (next & Hn & ->); [lia | done |].
      cbn [fst snd]. split_and!; [lia | lia | done | done | lia | lia].
    + rewrite ret_run. assert (cursor - a = copied) as -> by lia. done.
  - cbn [fst snd]. split_and!; [lia | lia | lia |]. unfold copy_state. done.
  - cbn [fst snd]. unfold u64_max in *. lia.
Qed.
End copying.

(** A destination buffer receives exactly the retained frames that fit. *)
Lemma copy_range_refines r h a b dst :
  ring_inv r h -> OLDEST r <= a <= b -> b <= HEAD r ->
  zlen dst mod CH r = 0 -> zlen dst <= u64_max -> a + zlen dst / CH r <= u64_max ->
  copy_interleaved_range_into r a b dst =
    (copy_state (r := r) (h := h) a dst (copied (r := r) a b dst),
     Ok (copied (r := r) a b dst)).
Proof.
  intros Hinv Hr Hb Hd Hl Hcap. pose proof (inv_ch _ _ Hinv).
  pose proof (zlen_nonneg dst). pose proof (Z.div_pos (zlen dst) (CH r)).
  pose proof (oldest_le_head Hinv).
  unfold copy_interleaved_range_into. decide_cmp. msteps.
  rewrite is_multiple_of_spec by (unfold CH in *; lia). unfold CH in Hd. rewrite Hd.
  decide_cmp. cbn [negb]. msteps. rewrite (inv_locks _ _ Hinv). msteps.
  unfold write_head_frame. change (global_write_frame r) with (HEAD r).
  rewrite (oldest_frame_at_spec Hinv). msteps. repeat decide_cmp. cbn [orb]. msteps.
  change (cfg_channels (cfg r)) with (CH r) in *.
  rewrite add_checked_ok by lia. cbn [ok_or]. msteps.
  replace (Z.min b (a + zlen dst / CH r)) with (a + copied (r := r) a b dst)
    by (unfold copied; lia).
  destruct (copy_loop_spec Hinv a b dst Hr Hb Hd Hl) as (s' & o & -> & -> & ->). done.
Qed.

(** ** [write_interleaved] *)

Section writing.
Context {r : SampleRing} {h : list f32} (Hinv : ring_inv r h).
Context (now : Z) (samples : list f32) (total : Z)
  (Htotal : zlen samples = total * CH r) (Hlen : zlen samples <= 2 ^ 63).

(** The block being written, the frames it already holds, and its chunk after
    [n] more frames, with buffer [d]. *)
Definition WRITE_BLOCK : Z := HEAD r / CF r.
Definition OFFSET : Z := HEAD r mod CF r.

Definition written_chunk (n : Z) (d : list f32) (c : Chunk) : Chunk :=
  mkChunk (if OFFSET =? 0 then next_sequence r else sequence c) (as_u8 Published)
    (pin_count c) (if OFFSET =? 0 then HEAD r else valid_start_frame c) (OFFSET + n) d
    (data_poisoned c).

Definition written_ring (n : Z) (d : list f32) : SampleRing :=
  r <| chunks := zupdate (chunks r) (write_chunk r) (written_chunk n d) |>
    <| next_sequence := if OFFSET =? 0 then next_sequence r + 1 else next_sequence r |>
    <| global_write_frame := HEAD r + n |>
    <| write_chunk := if CF r <=? OFFSET + n
                      then (write_chunk r + 1) mod NC r else write_chunk r |>.

Lemma write_position :
  HEAD r = WRITE_BLOCK * CF r + OFFSET /\ 0 <= OFFSET < CF r /\ 0 <= WRITE_BLOCK /\
  (OFFSET = 0 /\ BLOCKS r = WRITE_BLOCK \/ 0 < OFFSET /\ BLOCKS r = WRITE_BLOCK + 1).
Proof using Hinv.
  pose proof (inv_cf _ _ Hinv). pose proof (inv_head _ _ Hinv) as [? _].
  pose proof (blocks_bound Hinv) as Hbb. unfold WRITE_BLOCK, OFFSET.
  pose proof (Z.div_mod (HEAD r) (CF r) ltac:(lia)).
  pose proof (Z.mod_pos_bound (HEAD r) (CF r) ltac:(lia)).
  pose proof (Z.div_pos (HEAD r) (CF r) ltac:(lia) ltac:(lia)).
  split_and!; [lia | lia | lia | lia |]. nia.
Qed.

Lemma write_chunk_lookup :
  exists c, zlookup (chunks r) (write_chunk r) = Some c /\ chunk_wf r c /\
    (0 < OFFSET -> block_ok r h WRITE_BLOCK c).
Proof using Hinv.
  pose proof (inv_nc _ _ Hinv). pose proof write_position as (Hp & Hof & Hw & Hb).
  destruct (zlookup_lt (chunks r) (write_chunk r)) as [c Hc].
  { rewrite (inv_write _ _ Hinv). apply Z.mod_pos_bound. unfold NC in *. lia. }
  exists c. split_and!; [done | by apply (inv_chunks _ _ Hinv _ _ Hc) |].
  intros Hpos. destruct (inv_block _ _ Hinv WRITE_BLOCK) as (c' & Hc' & Hok); [lia | lia |].
  rewrite (inv_write _ _ Hinv) in Hc. fold WRITE_BLOCK in Hc. congruence.
Qed.

Lemma written_ring_blocks n :
  0 < n -> OFFSET + n <= CF r -> div_ceil (HEAD r + n) (CF r) = WRITE_BLOCK + 1.
Proof using Hinv.
  intros. pose proof (inv_cf _ _ Hinv). pose proof write_position as (Hp & Hof & Hw & _).
  unfold div_ceil. symmetry.
  apply (Z.div_unique_pos _ _ _ (OFFSET + n - 1)); lia.
Qed.

(** The frames accepted into the write chunk extend the history. *)
Lemma written_ring_inv n src d c :
  0 < n -> OFFSET + n <= CF r -> HEAD r + n <= u64_max ->
  (OFFSET = 0 -> next_sequence r + 1 <= u64_max) ->
  zlen src = n * CH r -> zlookup (chunks r) (write_chunk r) = Some c ->
  copy_into (data c) (OFFSET * CH r) src = Some d ->
  ring_inv (written_ring n d) (h ++ src).
Proof using Hinv.
  intros Hn Hfit Hmax Hseq Hsrc Hc Hd.
  pose proof (inv_ch _ _ Hinv) as Hch. pose proof (inv_cf _ _ Hinv) as Hcf.
  pose proof (inv_nc _ _ Hinv) as Hnc. pose proof write_position as (Hp & Hof & Hw & Hb).
  pose proof (inv_head _ _ Hinv) as [Hh0 _]. pose proof (inv_hist _ _ Hinv) as Hhist.
  pose proof (written_ring_blocks n Hn Hfit) as Hblk.
  pose proof (inv_write _ _ Hinv) as Hwc. fold WRITE_BLOCK in Hwc.
  pose proof write_chunk_lookup as (c0 & Hc0 & Hwf & Hblock).
  assert (c0 = c) as -> by congruence. clear Hc0.
  destruct Hwf as (Hdl & Hdp & Hpin & _ & Hsq).
  pose proof (copy_into_length _ _ _ _ Hd) as Hl. pose proof (copy_into_prefix _ _ _ _ Hd) as Hpre.
  rewrite Hsrc in Hpre.
  set (r' := written_ring n d).
  assert (BLOCKS r' = WRITE_BLOCK + 1) as Hb' by exact Hblk.
  assert (NC r' = NC r) as Hnc' by apply zlen_zupdate.
  constructor; rewrite ?Hb', ?Hnc'; try apply Hinv; try done.
  - unfold is_u64. change (HEAD r') with (HEAD r + n). lia.
  - change (HEAD r') with (HEAD r + n). rewrite zlen_app. change (CH r') with (CH r). lia.
  - change (HEAD r') with (HEAD r + n). change (CF r') with (CF r).
    change (write_chunk r') with (if CF r <=? OFFSET + n
                      then (write_chunk r + 1) mod NC r else write_chunk r).
    rewrite Hwc. destruct (CF r <=? OFFSET + n) eqn:E; to_prop.
    + rewrite Z.add_mod_idemp_l by lia. f_equal.
      apply (Z.div_unique_pos _ _ _ 0); lia.
    + f_equal. apply (Z.div_unique_pos _ _ _ (OFFSET + n)); lia.
  - change (clear_after_frame r') with (clear_after_frame r).
    change (HEAD r') with (HEAD r + n). pose proof (inv_clear _ _ Hinv). lia.
  - change (next_sequence r') with (if OFFSET =? 0 then next_sequence r + 1 else next_sequence r).
    pose proof (inv_seq _ _ Hinv). destruct (OFFSET =? 0) eqn:E; to_prop; lia.
  - change (next_sequence r') with (if OFFSET =? 0 then next_sequence r + 1 else next_sequence r).
    pose proof (inv_seq64 _ _ Hinv). destruct (OFFSET =? 0) eqn:E; to_prop; [auto | lia].
  - intros j Hj0 Hj. destruct (Z.eq_dec j WRITE_BLOCK) as [->|Hne].
    + exists (written_chunk n d c). rewrite <- Hwc. split; [by apply zlookup_zupdate_eq|].
      unfold block_ok. change (HEAD r') with (HEAD r + n). change (CF r') with (CF r).
      change (CH r') with (CH r). unfold written_chunk; cbn [valid_start_frame valid_frame_count data].
      split_and!; [done | | lia |].
      * destruct (OFFSET =? 0) eqn:E; to_prop; [lia|]. apply Hblock. lia.
      * rewrite Z.mul_add_distr_r, Hpre, segment_split by (try lia; apply Z.mul_nonneg_nonneg; lia).
        assert (WRITE_BLOCK * CF r * CH r + OFFSET * CH r = zlen h) as Heq
          by (rewrite Hhist, Hp; lia).
        f_equal.
        -- rewrite segment_app_l; [| apply Z.mul_nonneg_nonneg; lia.. | lia].
           destruct (Z.eq_dec OFFSET 0) as [->|]; [done|].
           destruct (Hblock ltac:(lia)) as (_ & _ & Hvc & Hs). rewrite Hvc in Hs.
           replace (Z.min (CF r) (HEAD r - WRITE_BLOCK * CF r)) with OFFSET in Hs by lia. done.
        -- rewrite Heq. symmetry. apply segment_app_exact. done.
    + destruct (inv_block _ _ Hinv j Hj0) as (cj & Hcj & Hst & Hvs & Hvc & Hs); [lia|].
      exists cj. split.
      * change (chunks r') with (zupdate (chunks r) (write_chunk r) (written_chunk n d)).
        rewrite zlookup_zupdate_ne; [done|]. rewrite Hwc. intros Heq.
        pose proof (Z.div_mod j (NC r) ltac:(lia)). pose proof (Z.div_mod WRITE_BLOCK (NC r) ltac:(lia)).
        assert (WRITE_BLOCK / NC r = j / NC r) by nia. nia.
      * assert ((j + 1) * CF r <= HEAD r) by nia.
        assert (valid_frame_count cj = CF r) as Hfull by lia.
        unfold block_ok. change (HEAD r') with (HEAD r + n). change (CF r') with (CF r).
        change (CH r') with (CH r). split_and!; [done | done | lia |].
        rewrite Hs, Hfull. symmetry. apply segment_app_l.
        -- apply Z.mul_nonneg_nonneg; [apply Z.mul_nonneg_nonneg|]; lia.
        -- apply Z.mul_nonneg_nonneg; lia.
        -- rewrite Hhist, <- Z.mul_add_distr_r. apply Z.mul_le_mono_nonneg_r; lia.
  - intros i Hi. destruct (inv_fresh _ _ Hinv i) as (ci & Hci & Hst); [lia|].
    exists ci. split; [|done].
    change (chunks r') with (zupdate (chunks r) (write_chunk r) (written_chunk n d)).
    rewrite zlookup_zupdate_ne; [done|]. rewrite Hwc, Z.mod_small; lia.
  - intros i ci Hci.
    change (chunks r') with (zupdate (chunks r) (write_chunk r) (written_chunk n d)) in Hci.
    assert (next_sequence r <= next_sequence r') as Hns.
    { change (next_sequence r') with (if OFFSET =? 0 then next_sequence r + 1 else next_sequence r).
      destruct (OFFSET =? 0); lia. }
    unfold chunk_wf. change (CF r') with (CF r). change (CH r') with (CH r).
    destruct (Z.eq_dec i (write_chunk r)) as [->|Hne].
    + rewrite (zlookup_zupdate_eq _ _ _ _ Hc) in Hci. injection Hci as <-.
      unfold written_chunk; cbn. split_and!; [lia | done | apply Hpin | done | |].
      * pose proof (inv_seq _ _ Hinv). destruct (OFFSET =? 0); lia.
      * change (next_sequence r') with (if OFFSET =? 0 then next_sequence r + 1 else next_sequence r).
        destruct (OFFSET =? 0); lia.
    + rewrite zlookup_zupdate_ne in Hci by done.
      destruct (inv_chunks _ _ Hinv _ _ Hci) as (? & ? & ? & ? & ?). split_and!; try done; lia.
Qed.
End writing.

(** What a write leaves alone: the configuration, the snapshot accounting, the
    cleared position, and every pinned chunk. *)
Record same_pins (r r' : SampleRing) : Prop := {
  pins_cfg : cfg r' = cfg r;
  pins_active : active_snapshots r' = active_snapshots r;
  pins_clear : clear_after_frame r' = clear_after_frame r;
  pins_count : map pin_count (chunks r') = map pin_count (chunks r);
  pins_frozen : forall i c, zlookup (chunks r) i = Some c -> 0 < pin_count c ->
    zlookup (chunks r') i = Some c;
}.

#[export] Instance same_pins_preorder : PreOrder same_pins.
Proof.
  split.
  - intros r. by constructor.
  - intros r1 r2 r3 [] []. constructor; [congruence.. |]. eauto.
Qed.

(** The steps of a turn, as updates of the chunk being written. *)
Section turn_steps.
Context (index : Z).

Lemma update_chunk_update_chunk f g r :
  update_chunk index f (update_chunk index g r) = update_chunk index (fun c => f (g c)) r.
Proof. unfold update_chunk, update; cbn. by rewrite zupdate_zupdate. Qed.

Lemma update_chunk_lookup f r c :
  zlookup (chunks r) index = Some c ->
  zlookup (chunks (update_chunk index f r)) index = Some (f c).
Proof. apply zlookup_zupdate_eq. Qed.

Definition taken_chunk (offset global seq : Z) (c : Chunk) : Chunk :=
  if offset =? 0
  then mkChunk seq (as_u8 Writing) (pin_count c) global 0 (data c) (data_poisoned c)
  else c <| state := as_u8 Writing |>.

Lemma begin_chunk_run offset global r next :
  begin_chunk index offset global (if offset =? 0 then Some next else None) r =
    ((update_chunk index (taken_chunk offset global (next_sequence r)) r)
       <| next_sequence := if offset =? 0 then next else next_sequence r |>, Ok tt).
Proof.
  unfold begin_chunk, taken_chunk. destruct (offset =? 0).
  - msteps. cbn [ok_or]. msteps. rewrite modify_run. rewrite !update_chunk_update_chunk.
    unfold update_chunk, update; cbn. by rewrite !zupdate_zupdate.
  - rewrite modify_run. by destruct r.
Qed.

Lemma copy_to_chunk_run offset ch fi n samples r c d :
  zlookup (chunks r) index = Some c -> data_poisoned c = false ->
  0 <= offset * ch -> 0 <= fi * ch -> 0 <= n * ch ->
  offset * ch + n * ch <= 2 ^ 63 -> fi * ch + n * ch <= zlen samples ->
  zlen samples <= 2 ^ 63 ->
  copy_into (data c) (offset * ch) (segment samples (fi * ch) (n * ch)) = Some d ->
  copy_to_chunk index offset ch fi n samples r =
    (update_chunk index (fun c => c <| data := d |>) r, Ok tt).
Proof.
  intros Hc Hp ? ? ? ? ? ? Hd. unfold copy_to_chunk. msteps. unfold chunk_at. rewrite Hc.
  cbn [unwrap]. msteps. rewrite Hp. msteps.
  assert (is_u64 (fi * ch + n * ch) /\ is_u64 (n * ch) /\ is_u64 (fi * ch) /\ is_u64 (offset * ch))
    as (? & ? & ? & ?) by (unfold is_u64, u64_max; lia).
  rewrite !(wrap64_small (_ * _)), wrap64_small by done.
  rewrite slice_Some by lia. rewrite Z.add_simpl_l. cbn [unwrap]. msteps.
  rewrite Hd. cbn [unwrap]. msteps. done.
Qed.
End turn_steps.

Section write_turns.
Context {r : SampleRing} {h : list f32} (Hinv : ring_inv r h).
Context (now : Z) (samples : list f32) (total fi : Z)
  (Htotal : zlen samples = total * CH r) (Hlen : zlen samples <= 2 ^ 63)
  (Hfi : 0 <= fi < total).

(** The frames one turn accepts. *)
Definition turn_frames : Z := Z.min (CF r - OFFSET (r := r)) (total - fi).

Lemma turn_frames_bounds :
  0 < turn_frames /\ OFFSET (r := r) + turn_frames <= CF r /\ fi + turn_frames <= total.
Proof using Hinv Hfi.
  pose proof (write_position Hinv) as (_ & Hof & _ & _). unfold turn_frames. lia.
Qed.

(** The part of a turn before its first effect. *)
Lemma write_turn_starts c :
  zlookup (chunks r) (write_chunk r) = Some c ->
  write_turn now samples (CH r) total fi r =
  (let! new_global := lift (ok_or (add_checked (HEAD r) (Z.min (CF r - OFFSET (r := r)) (total - fi)))
                              (CaptureInvariant "local frame counter exhausted")) in
   let! next_seq :=
     if OFFSET (r := r) =? 0 then
       let! next := lift (ok_or (add_checked (next_sequence r) 1)
                            (CaptureInvariant "ring sequence exhausted")) in
       ret (Some next)
     else ret None in
   if 0 <? pin_count c then
     record_overrun now (total - fi) ;;
     ret (inr tt)
   else
     begin_chunk (write_chunk r) (OFFSET (r := r)) (HEAD r) next_seq ;;
     copy_to_chunk (write_chunk r) (OFFSET (r := r)) (CH r) fi
       (Z.min (CF r - OFFSET (r := r)) (total - fi)) samples ;;
     let new_valid := wrap32 (OFFSET (r := r) + Z.min (CF r - OFFSET (r := r)) (total - fi)) in
     modify (update_chunk (write_chunk r) (fun c => c <| valid_frame_count := new_valid |>)) ;;
     modify (update_chunk (write_chunk r) (fun c => c <| state := as_u8 Published |>)) ;;
     modify (fun r => r <| global_write_frame := new_global |>) ;;
     (if CF r <=? new_valid
      then modify (fun r' => r' <| write_chunk := wrap64 (write_chunk r + 1) mod zlen (chunks r') |>)
      else ret tt) ;;
     ret (inl (fi + Z.min (CF r - OFFSET (r := r)) (total - fi)))) r.
Proof using Hinv.
  intros Hc. pose proof (inv_cf _ _ Hinv). pose proof (write_position Hinv) as (_ & Hof & _).
  unfold write_turn. msteps. rewrite (inv_locks _ _ Hinv). msteps.
  unfold chunk_at at 1. rewrite Hc. cbn [unwrap]. msteps.
  change (global_write_frame r mod cfg_chunk_frames (cfg r)) with (OFFSET (r := r)).
  assert (wrap32 (OFFSET (r := r)) = OFFSET (r := r)) as ->
    by (apply Z.mod_small; unfold u32_max in *; lia).
  done.
Qed.

Lemma write_turn_accepts c :
  zlookup (chunks r) (write_chunk r) = Some c -> pin_count c = 0 ->
  HEAD r + turn_frames <= u64_max -> (OFFSET (r := r) = 0 -> next_sequence r < u64_max) ->
  exists d,
    copy_into (data c) (OFFSET (r := r) * CH r) (segment samples (fi * CH r) (turn_frames * CH r))
      = Some d /\
    write_turn now samples (CH r) total fi r =
      (written_ring (r := r) turn_frames d, Ok (inl (fi + turn_frames))).
Proof using Hinv Htotal Hlen Hfi.
  intros Hc Hpin Hmax Hseq.
  pose proof (inv_ch _ _ Hinv) as Hch. pose proof (inv_cf _ _ Hinv) as Hcf.
  pose proof (write_position Hinv) as (Hp & Hof & Hw & _). pose proof turn_frames_bounds as (Ht & Hfit & Htot).
  pose proof (inv_head _ _ Hinv) as [Hh0 _]. pose proof (inv_size _ _ Hinv).
  destruct (inv_chunks _ _ Hinv _ _ Hc) as (Hdl & Hdp & _ & _ & _).
  pose proof (inv_seq _ _ Hinv).
  set (n := turn_frames) in *. set (o := OFFSET (r := r)) in *.
  assert (0 <= o * CH r) by (apply Z.mul_nonneg_nonneg; lia).
  assert (0 <= n * CH r) by (apply Z.mul_nonneg_nonneg; lia).
  assert (0 <= fi * CH r) by (apply Z.mul_nonneg_nonneg; lia).
  assert ((o + n) * CH r <= CF r * CH r) by (apply Z.mul_le_mono_nonneg_r; lia).
  assert ((fi + n) * CH r <= total * CH r) by (apply Z.mul_le_mono_nonneg_r; lia).
  assert (zlen (segment samples (fi * CH r) (n * CH r)) = n * CH r) as Hsl
    by (apply zlen_segment; lia).
  eexists. split; [apply copy_into_Some; lia|].
  rewrite (write_turn_starts c Hc). change (Z.min (CF r - OFFSET) (total - fi)) with n. fold o.
  rewrite add_checked_ok by lia. cbn [ok_or]. msteps.
  rewrite Hpin. cbn [Z.ltb Z.compare].
  rewrite (bind_run _ _ _ r (Ok (if o =? 0 then Some (next_sequence r + 1) else None))).
  2:{ destruct (o =? 0) eqn:E; [|done]. to_prop.
      rewrite add_checked_ok by (unfold u64_max in *; lia). done. }
  rewrite (bind_run _ _ _ _ _ (begin_chunk_run _ _ _ _ _)). fold n.
  set (r1 := _ <| next_sequence := _ |>).
  set (c1 := taken_chunk o (HEAD r) (next_sequence r) c).
  assert (zlookup (chunks r1) (write_chunk r) = Some c1) as Hc1
    by (apply update_chunk_lookup; done).
  assert (data c1 = data c /\ data_poisoned c1 = false) as [Hd1 Hp1]
    by (unfold c1, taken_chunk; destruct (o =? 0); done).
  erewrite (bind_run (copy_to_chunk _ _ _ _ _ _)).
  2:{ apply (copy_to_chunk_run _ _ _ _ _ _ _ c1); try done; try lia.
      rewrite Hd1. apply copy_into_Some; lia. }
  set (d := _ ++ _). msteps.
  assert (wrap32 (o + n) = o + n) as -> by (apply Z.mod_small; unfold u32_max in *; lia).
  rewrite !update_chunk_update_chunk.
  assert (written_ring (r := r) n d =
    ((update_chunk (write_chunk r) (fun c => c <| data := d |>
        <| valid_frame_count := o + n |> <| state := as_u8 Published |>) r1)
       <| global_write_frame := HEAD r + n |>)
       <| write_chunk := if CF r <=? o + n
                         then (write_chunk r + 1) mod NC r else write_chunk r |>) as ->.
  { unfold written_ring, r1, update_chunk, update; cbn. fold o. rewrite zupdate_zupdate.
    f_equal. apply zupdate_ext. intros c'. unfold written_chunk, taken_chunk, update; cbn.
    fold o. by destruct (o =? 0). }
  pose proof (inv_nc _ _ Hinv) as Hnc. pose proof (inv_write _ _ Hinv) as Hwc.
  pose proof (Z.mod_pos_bound (HEAD r / CF r) (NC r) ltac:(lia)).
  destruct (CF r <=? o + n); [msteps | by msteps].
  rewrite wrap64_small by (unfold is_u64, u64_max, u32_max in *; lia).
  unfold r1, NC, update_chunk, update; cbn. by rewrite !zlen_zupdate.
Qed.

Lemma written_ring_pins n d c :
  zlookup (chunks r) (write_chunk r) = Some c -> pin_count c = 0 ->
  same_pins r (written_ring (r := r) n d).
Proof using.
  intros Hc Hp. constructor; try done.
  - change (chunks (written_ring n d)) with
      (zupdate (chunks r) (write_chunk r) (written_chunk (r := r) n d)).
    apply map_zupdate. done.
  - intros i c' Hi Hpin. change (chunks (written_ring n d)) with
      (zupdate (chunks r) (write_chunk r) (written_chunk (r := r) n d)).
    rewrite zlookup_zupdate_ne; [done|]. intros <-. assert (c' = c) by congruence. subst. lia.
Qed.

(** A counter of the ring that has no room for the frames left. *)
Definition exhausted (r : SampleRing) (frames : Z) : Prop :=
  u64_max < HEAD r + frames \/ next_sequence r = u64_max \/
  u64_max < dropped_frames r + frames.

Definition write_pinned (r : SampleRing) : Prop :=
  exists c, zlookup (chunks r) (write_chunk r) = Some c /\ 0 < pin_count c.

Lemma record_overrun_spec frames r0 h0 :
  ring_inv r0 h0 -> 0 <= frames ->
  match record_overrun now frames r0 with
  | (r', Ok _) => ring_inv r' h0 /\ same_pins r0 r' /\ chunks r' = chunks r0 /\
      write_chunk r' = write_chunk r0 /\
      dropped_frames r' = dropped_frames r0 + frames
  | (r', Err _) => r' = r0 /\ u64_max < dropped_frames r0 + frames
  | (_, Panic) => False
  end.
Proof using.
  intros Hi Hf. pose proof (inv_dropped _ _ Hi) as Hd. unfold record_overrun, add_dropped_frames.
  msteps. destruct (add_checked (dropped_frames r0) frames) as [t|] eqn:E; cbn [ok_or]; msteps.
  - apply add_checked_inv in E as [-> ?]. rewrite modify_run.
    destruct (overrun_lock_poisoned _); cbn; (split; [constructor; try apply Hi; done | done]).
  - apply checked_None in E. unfold is_u64 in Hd. split; [done|lia].
Qed.

Lemma write_turn_refines :
  match write_turn now samples (CH r) total fi r with
  | (r', Ok (inl fi')) =>
      fi < fi' <= total /\ same_pins r r' /\ dropped_frames r' = dropped_frames r /\
      ring_inv r' (h ++ segment samples (fi * CH r) ((fi' - fi) * CH r))
  | (r', Ok (inr _)) =>
      same_pins r r' /\ dropped_frames r' = dropped_frames r + (total - fi) /\
      ring_inv r' h /\ write_pinned r'
  | (r', Err _) => r' = r /\ exhausted r (total - fi)
  | (_, Panic) => False
  end.
Proof using Hinv Htotal Hlen Hfi.
  pose proof turn_frames_bounds as (Ht & Hfit & Htot).
  pose proof (write_chunk_lookup Hinv) as (c & Hc & (_ & _ & Hpin & _) & _).
  destruct (Z_gt_le_dec (HEAD r + turn_frames) u64_max) as [Hg|Hg];
    [|destruct (decide (OFFSET (r := r) = 0 /\ u64_max <= next_sequence r)) as [[Ho Hs]|Hs];
      [|destruct (Z_gt_le_dec (pin_count c) 0) as [Hp|Hp]]].
  - rewrite (write_turn_starts c) by done. unfold turn_frames in *.
    destruct (add_checked (HEAD r) _) eqn:E; [apply add_checked_inv in E; lia|].
    cbn [ok_or]. msteps. split; [done|]. left. lia.
  - rewrite (write_turn_starts c) by done. rewrite add_checked_ok; [|].
    + cbn [ok_or]. msteps. rewrite Ho. cbn [Z.eqb]. msteps.
      destruct (add_checked (next_sequence r) 1) eqn:E; [apply add_checked_inv in E; lia|].
      cbn [ok_or]. msteps. split; [done|]. right; left.
      pose proof (inv_seq64 _ _ Hinv). lia.
    + pose proof (inv_head _ _ Hinv) as [? _]. fold turn_frames. lia.
  - rewrite (write_turn_starts c) by done. fold turn_frames. rewrite add_checked_ok; [|].
    + cbn [ok_or]. msteps.
      rewrite (bind_run _ _ _ r (Ok (if OFFSET (r := r) =? 0 then Some (next_sequence r + 1) else None))).
      2:{ destruct (OFFSET (r := r) =? 0) eqn:E; [|done]. to_prop.
          pose proof (inv_seq _ _ Hinv).
          rewrite add_checked_ok by (unfold u64_max in *; lia). done. }
      decide_cmp. pose proof (record_overrun_spec (total - fi) r h Hinv ltac:(lia)) as Hr.
      unfold bind. destruct (record_overrun now (total - fi) r) as [r' [?|?|]]; [| |done].
      * destruct Hr as (Hi & Hsp & Hch & Hwc & Hd). cbn. split_and!; try done.
        exists c. rewrite Hch, Hwc. split; [done|lia].
      * destruct Hr as (-> & ?). split; [done|]. unfold exhausted. lia.
    + pose proof (inv_head _ _ Hinv) as [? _]. lia.
  - assert (pin_count c = 0) as Hp0 by (unfold is_u32 in Hpin; lia).
    destruct (write_turn_accepts c Hc Hp0 Hg ltac:(intros ?; lia)) as (d & Hd & ->).
    split_and!; [lia | lia | by eapply written_ring_pins | done |].
    rewrite Z.add_simpl_l. pose proof (inv_ch _ _ Hinv).
    eapply written_ring_inv; try done; try lia.
    apply zlen_segment; [apply Z.mul_nonneg_nonneg; lia.. |].
    rewrite Htotal, <- Z.mul_add_distr_r. apply Z.mul_le_mono_nonneg_r; lia.
Qed.
End write_turns.

(** A write of whole frames appends a prefix of them to the history; the rest
    is counted as dropped, and only a pin on the write chunk or an exhausted
    counter makes it shorter than the input. *)
Lemma write_refines r h now samples total :
  ring_inv r h -> zlen samples = total * CH r -> zlen samples <= 2 ^ 63 ->
  exists r' o k, write_interleaved now samples (CH r) r = (r', o) /\
    0 <= k <= total /\ same_pins r r' /\
    ring_inv r' (h ++ segment samples 0 (k * CH r)) /\
    match o with
    | Ok _ => dropped_frames r' = dropped_frames r + (total - k) /\ (k < total -> write_pinned r')
    | Err _ => dropped_frames r' = dropped_frames r /\ k < total /\ exhausted r' (total - k)
    | Panic => False
    end.
Proof.
  intros Hinv Ht Hl. pose proof (inv_ch _ _ Hinv) as Hch. pose proof (zlen_nonneg samples).
  assert (0 <= total <= 2 ^ 63) as Htot by nia.
  unfold write_interleaved. msteps. change (cfg_channels (cfg r)) with (CH r).
  rewrite Z.eqb_refl. cbn [negb]. msteps.
  rewrite is_multiple_of_spec, Ht, Z.mod_mul, Z.div_mul by lia. repeat decide_cmp. cbn [orb negb]. msteps.
  destruct (mloop_rule (write_loop_body now samples (CH r) total)
    (fun s l => 0 <= l <= total /\ same_pins r s /\ dropped_frames s = dropped_frames r /\
       ring_inv s (h ++ segment samples 0 (l * CH r)))
    (fun _ l => total - l)
    (fun s o => exists k, 0 <= k <= total /\ same_pins r s /\
       ring_inv s (h ++ segment samples 0 (k * CH r)) /\
       match o with
       | Ok _ => dropped_frames s = dropped_frames r + (total - k) /\ (k < total -> write_pinned s)
       | Err _ => dropped_frames s = dropped_frames r /\ k < total /\ exhausted s (total - k)
       | Panic => False
       end)) with (s := r) (l := 0) as (s' & o & -> & k & ?).
  - intros s l (Hl1 & Hsp & Hd & Hi). unfold write_loop_body. destruct (l <? total) eqn:E; to_prop.
    + assert (CH s = CH r) as Hcs by (unfold CH; by rewrite (pins_cfg _ _ Hsp)).
      rewrite <- Hcs.
      pose proof (write_turn_refines Hi now samples total l ltac:(congruence) Hl ltac:(lia)) as Hw.
      destruct (write_turn now samples (CH s) total l s) as [s1 [[l1|[]]|e|]]; [| | |done].
      * destruct Hw as (? & Hsp1 & Hd1 & Hi1). split_and!; [lia | lia | by etrans | lia | | lia | lia].
        rewrite <- app_assoc, Hcs in Hi1.
        replace (segment samples 0 (l1 * CH s)) with
          (segment samples 0 (l * CH r) ++ segment samples (l * CH r) ((l1 - l) * CH r)); [done|].
        rewrite Hcs. replace (l1 * CH r) with (l * CH r + (l1 - l) * CH r) by lia.
        symmetry. apply segment_split; [lia | apply Z.mul_nonneg_nonneg; lia..].
      * destruct Hw as (Hsp1 & Hd1 & Hi1 & Hp). rewrite <- Hcs in Hi.
        exists l. rewrite Hcs in *. split_and!; first [done | lia | by etrans].
      * destruct Hw as (-> & He). exists l. rewrite Hcs. split_and!; try done; lia.
    + rewrite ret_run. assert (l = total) as -> by lia.
      exists total. split_and!; first [done | lia].
  - split_and!; [lia | lia | done | done |]. rewrite Z.mul_0_l, segment_nil, app_nil_r. done.
  - unfold u64_max. lia.
  - exists s', o, k. done.
Qed.

(** ** [clear], [reset] and [new] *)

Lemma clear_refines r h :
  ring_inv r h ->
  exists r', clear r = (r', Ok tt) /\ ring_inv r' h /\ OLDEST r' = HEAD r' /\ HEAD r' = HEAD r.
Proof.
  intros Hi. eexists. split; [done|]. pose proof (oldest_le_head Hi). pose proof (inv_head _ _ Hi) as [? _].
  assert (ring_inv (r <| clear_after_frame := global_write_frame r |>) h) as Hi'.
  { constructor; try apply Hi. cbn. unfold HEAD, update; cbn. unfold HEAD in *. lia. }
  split_and!; [done | | done].
  pose proof (oldest_le_head Hi'). unfold OLDEST in *. cbn [clear_after_frame update] in *.
  unfold HEAD in *; cbn [global_write_frame update] in *. lia.
Qed.

(** [reset] empties an idle ring in place; with a snapshot alive, or a poisoned
    lock, it changes nothing. *)
Lemma reset_refines r h :
  ring_inv r h ->
  match reset r with
  | (r', Ok _) => ring_inv r' [] /\ HEAD r' = 0 /\ dropped_frames r' = 0 /\ cfg r' = cfg r /\
      active_snapshots r = 0 /\ (forall c, c ∈ chunks r -> pin_count c = 0)
  | (r', Err _) => r' = r
  | (_, Panic) => False
  end.
Proof.
  intros Hi. pose proof (inv_cf _ _ Hi). pose proof (inv_ch _ _ Hi). pose proof (inv_nc _ _ Hi).
  unfold reset. msteps. rewrite (inv_locks _ _ Hi). msteps.
  destruct (overrun_lock_poisoned r); msteps; [done|].
  destruct (negb _ || existsb _ _) eqn:E1; msteps; [done|].
  destruct (existsb (is_state Writing) _) eqn:E2; msteps; [done|]. rewrite modify_run. to_prop.
  assert (forall c, c ∈ chunks r -> pin_count c = 0) as Hpins.
  { intros c Hc. destruct (pin_count c =? 0) eqn:E; to_prop; [done|].
    assert (existsb (fun c => negb (pin_count c =? 0)) (chunks r) = true) as Hex.
    { apply existsb_exists. exists c. split; [by apply list_elem_of_In|]. by decide_cmp. }
    congruence. }
  split_and!; try done.
  assert (forall i c, zlookup (map reset_chunk (chunks r)) i = Some c ->
            exists c0, zlookup (chunks r) i = Some c0 /\ c = reset_chunk c0) as Hlk.
  { intros i c. unfold zlookup. destruct (0 <=? i); [|done]. rewrite list_lookup_fmap.
    destruct (chunks r !! Z.to_nat i); cbn; [|done]. intros [= <-]. eauto. }
  assert (zlen (map reset_chunk (chunks r)) = NC r) as Hlen
    by (unfold NC, zlen; by rewrite length_map).
  constructor; cbn; try done; try apply Hi.
  - unfold NC, update; cbn. by rewrite Hlen.
  - unfold NC, update; cbn. rewrite Hlen. apply Hi.
  - unfold BLOCKS, HEAD, CF, div_ceil, update; cbn. rewrite Z.div_small by (unfold CF in *; lia). lia.
  - intros j Hj0. unfold BLOCKS, HEAD, CF, div_ceil, update; cbn.
    rewrite Z.div_small by (unfold CF in *; lia). lia.
  - intros i. unfold NC, update; cbn. rewrite Hlen.
    unfold BLOCKS, HEAD, CF, div_ceil, update; cbn. rewrite Z.div_small by (unfold CF in *; lia).
    intros Hr. destruct (zlookup_lt (map reset_chunk (chunks r)) i) as [c Hc]; [lia|].
    exists c. split; [done|]. by apply Hlk in Hc as (c0 & _ & ->).
  - intros i c Hc. unfold update in Hc; cbn in Hc. apply Hlk in Hc as (c0 & Hc0 & ->).
    destruct (inv_chunks _ _ Hi _ _ Hc0) as (? & ? & ? & _).
    unfold chunk_wf, CF, CH, update in *; cbn. split_and!; try done; lia.
Qed.

Section construction.
Context `{Platform}.

Lemma new_zeroed_Ok n l :
  0 <= n -> new_zeroed n = Ok l -> l = replicate (Z.to_nat n) f32_zero /\ n * 4 <= 2 ^ 63 - 1.
Proof.
  unfold new_zeroed, layout_array, size_of_f32. intros Hn.
  destruct (2 ^ 63 - 1 <? 4 * n) eqn:E; cbn; [done|]. to_prop.
  destruct (_ || _); [|done]. intros [= <-]. split; [done|lia].
Qed.

Lemma build_chunks n spc i a a' cs :
  0 <= spc -> init_elements (build_chunk spc) i n a = (a', Ok cs) ->
  cs = replicate n (fresh_chunk (replicate (Z.to_nat spc) f32_zero)) /\
  a' = a + Z.of_nat n * (spc * 4) /\ (n <> 0%nat -> spc * 4 <= 2 ^ 63 - 1).
Proof.
  intros Hs. revert i a cs. induction n as [|n IH]; intros i a cs; cbn [init_elements].
  - intros [= -> <-]. split_and!; [done | lia | done].
  - unfold build_chunk. intros (s1 & c & Hc & Hr)%bind_inv.
    apply bind_inv in Hc as (s2 & l & [= <- Hl] & Hc).
    apply new_zeroed_Ok in Hl as [-> Hlen]; [|done].
    apply bind_inv in Hc as (s3 & al & [= <- <-] & Hc).
    apply bind_inv in Hc as (s4 & t & [= <- Ht] & Hc). apply ok_or_Ok in Ht.
    apply add_checked_inv in Ht as [-> _]. injection Hc as <- <-.
    apply bind_inv in Hr as (s5 & rest & Hr & [= <- <-]).
    apply IH in Hr as (-> & -> & _). split_and!; [done | | lia].
    unfold zlen, size_of_f32. rewrite length_replicate. lia.
Qed.

Lemma new_refines c r :
  is_u32 (cfg_channels c) -> is_u32 (cfg_chunk_frames c) -> is_u32 (cfg_chunk_count c) ->
  new c = Ok r ->
  ring_inv r [] /\ cfg r = c /\ OLDEST r = 0 /\ HEAD r = 0 /\ active_snapshots r = 0 /\
  (forall ch, ch ∈ chunks r -> pin_count ch = 0) /\
  allocated_sample_bytes r = 4 * (CF r * CH r) * NC r.
Proof.
  unfold is_u32, new. intros Hch Hcf Hcc.
  destruct (cfg_channels c =? 0) eqn:E1; [done|].
  destruct (cfg_sample_rate c =? 0) eqn:E2; [done|].
  destruct (cfg_chunk_frames c =? 0) eqn:E3; [done|].
  destruct (cfg_chunk_count c =? 0) eqn:E4; [done|].
  destruct (cfg_max_active_snapshots c =? 0) eqn:E5; [done|]. to_prop. intros Hn.
  apply obind_Ok in Hn as (spc & Hspc & Hn). apply ok_or_Ok, mul_checked_inv in Hspc as [-> Hb].
  unfold try_from_fn in Hn. destruct (bind _ _ 0) as [allocated built] eqn:Eb.
  ok_steps. subst r. rename x into cs, Hx into Hcs. subst built.
  apply bind_inv in Eb as (s1 & sz & [= <- Hsz] & Eb).
  destruct (_ || _) in Eb; [|done].
  apply build_chunks in Eb as (-> & -> & Hsmall); [|lia].
  specialize (Hsmall ltac:(lia)).
  set (fc := fresh_chunk _). set (n := Z.to_nat (cfg_chunk_count c)).
  assert (zlen (replicate n fc) = cfg_chunk_count c) as Hlen
    by (unfold zlen, n; rewrite length_replicate; lia).
  assert (forall i x, zlookup (replicate n fc) i = Some x -> x = fc) as Hlk.
  { intros i x. unfold zlookup. destruct (0 <=? i); [|done]. by intros [-> _]%lookup_replicate. }
  assert (div_ceil 0 (cfg_chunk_frames c) = 0) as Hd0
    by (unfold div_ceil; apply Z.div_small; lia).
  split_and!; try done.
  - constructor; cbn; rewrite ?Hd0; try done;
      try (unfold CF, CH, NC, HEAD, BLOCKS, u32_max in *; cbn; rewrite ?Hlen, ?Hd0; lia).
+ unfold BLOCKS, HEAD, CF; cbn. rewrite Hd0. lia.
    + intros j. unfold BLOCKS, HEAD, CF; cbn. rewrite Hd0. lia.
    + intros i. unfold NC; cbn. rewrite Hlen. unfold BLOCKS, HEAD, CF; cbn. rewrite Hd0. intros Hr.
      destruct (zlookup_lt (replicate n fc) i) as [x Hx]; [lia|].
      exists x. split; [done|]. by rewrite (Hlk _ _ Hx).
    + intros i x Hx. rewrite (Hlk _ _ Hx). unfold chunk_wf, CF, CH, fc, fresh_chunk; cbn.
      split_and!; try done. unfold zlen. rewrite length_replicate. lia.
  - unfold OLDEST, FIRST_BLOCK, BLOCKS, HEAD, CF; cbn. rewrite Hd0. pose proof (zlen_nonneg (replicate n fc)). unfold NC; cbn. rewrite Z.max_l; lia.
  - intros x Hx. by apply elem_of_replicate_inv in Hx as ->.
  - cbn. unfold CF, CH, NC; cbn. rewrite Hlen. unfold n. lia.
Qed.
End construction.
