(* ===== verification/RingSnapshots.v ===== *)
(** * Snapshots of the sample ring

    A snapshot pins the chunks it reads. The file proves that taking one always
    covers the range it asks for, that what it reads is the history of that
    range, and that both stay true while the writer and other snapshots go on. *)
From S2P Require Import Prelude.
From S2P Require Import Errors.
From S2P Require Import MemoryPlan.
From S2P Require Import SampleRing.
From S2P Require Import RingSpec.

(** ** Rings that differ in pins only *)

Definition strip_chunk (c : Chunk) : Chunk := c <| pin_count := 0 |>.

Definition strip (r : SampleRing) : SampleRing :=
  r <| chunks ::= map strip_chunk |> <| active_snapshots := 0 |>.

Definition pins (r : SampleRing) (i : Z) : Z :=
  match zlookup (chunks r) i with Some c => pin_count c | None => 0 end.

Lemma strip_fields r r' :
  strip r = strip r' ->
  cfg r' = cfg r /\ write_chunk r' = write_chunk r /\
  global_write_frame r' = global_write_frame r /\ clear_after_frame r' = clear_after_frame r /\
  next_sequence r' = next_sequence r /\ dropped_frames r' = dropped_frames r /\
  write_lock_poisoned r' = write_lock_poisoned r /\ zlen (chunks r') = zlen (chunks r).
Proof.
  destruct r, r'. unfold strip, update; cbn. intros [= ? Hc]. subst.
  apply (f_equal length) in Hc. rewrite !length_map in Hc. unfold zlen. split_and!; congruence.
Qed.

Lemma strip_lookup r r' i c' :
  strip r = strip r' -> zlookup (chunks r') i = Some c' ->
  exists c, zlookup (chunks r) i = Some c /\ strip_chunk c = strip_chunk c'.
Proof.
  destruct r, r'. unfold strip, update; cbn. intros [= ? Hc _ _]. unfold zlookup.
  destruct (0 <=? i); [|done]. intros Hi.
  apply (f_equal (fun l => l !! Z.to_nat i)) in Hc. rewrite !list_lookup_fmap, Hi in Hc.
  destruct (chunks !! Z.to_nat i) as [c|] eqn:E; cbn in Hc; [|done].
  injection Hc as Hc. exists c. split; [done|]. unfold strip_chunk, update in *. cbn in *. congruence.
Qed.

Lemma strip_chunk_eq c c' :
  strip_chunk c = strip_chunk c' ->
  sequence c' = sequence c /\ chunk_state c' = chunk_state c /\
  valid_start_frame c' = valid_start_frame c /\ valid_frame_count c' = valid_frame_count c /\
  data c' = data c /\ data_poisoned c' = data_poisoned c.
Proof. destruct c, c'. unfold strip_chunk, chunk_state, update; cbn. intros [=]. by subst. Qed.

Section strip_invariant.
Context {r r' : SampleRing} {h : list f32} (Hinv : ring_inv r h) (Hs : strip r = strip r')
  (Hpins : forall i, is_u32 (pins r' i)).

Lemma strip_block j c c' :
  strip_chunk c = strip_chunk c' -> block_ok r h j c -> block_ok r' h j c'.
Proof using Hs.
  intros (Hsq & Hst & Hvs & Hvc & Hd & Hp)%strip_chunk_eq (H1 & H2 & H3 & H4).
  destruct (strip_fields _ _ Hs) as (Hcfg & _ & Hg & _).
  unfold block_ok, CF, CH, HEAD in *. rewrite Hst, Hvs, Hvc, Hd, Hg, Hcfg. done.
Qed.

Lemma strip_inv : ring_inv r' h.
Proof using Hinv Hs Hpins.
  destruct (strip_fields _ _ Hs) as (Hcfg & Hw & Hg & Hc & Hn & Hd & Hl & Hz).
  assert (CF r' = CF r) as E1 by (unfold CF; congruence).
  assert (CH r' = CH r) as E2 by (unfold CH; congruence).
  assert (NC r' = NC r) as E3 by (unfold NC; congruence).
  assert (HEAD r' = HEAD r) as E4 by (unfold HEAD; congruence).
  assert (BLOCKS r' = BLOCKS r) as E5 by (unfold BLOCKS; congruence).
  constructor; rewrite ?E1, ?E2, ?E3, ?E4, ?E5, ?Hcfg, ?Hw, ?Hc, ?Hn, ?Hd, ?Hl; try apply Hinv.
  - intros j Hj0 Hj. destruct (inv_block _ _ Hinv j Hj0 Hj) as (c & Hlk & Hok).
    destruct (strip_lookup _ _ _ _ (eq_sym Hs) Hlk) as (c' & Hlk' & Heq).
    exists c'. split; [done|]. by apply (strip_block j c).
  - intros i Hi. destruct (inv_fresh _ _ Hinv i Hi) as (c & Hlk & Hst).
    destruct (strip_lookup _ _ _ _ (eq_sym Hs) Hlk) as (c' & Hlk' & Heq).
    exists c'. split; [done|]. symmetry in Heq. apply strip_chunk_eq in Heq as (_ & -> & _). done.
  - intros i c' Hlk'. destruct (strip_lookup _ _ _ _ Hs Hlk') as (c & Hlk & Heq).
    apply strip_chunk_eq in Heq as (Hsq & Hst & _ & _ & Hda & Hpo).
    destruct (inv_chunks _ _ Hinv _ _ Hlk) as (? & ? & _ & ? & ?).
    specialize (Hpins i). unfold pins in Hpins. rewrite Hlk' in Hpins.
    unfold chunk_wf. rewrite E1, E2, Hda, Hpo, Hst, Hsq, Hn. done.
Qed.

Lemma strip_oldest : OLDEST r' = OLDEST r /\ HEAD r' = HEAD r.
Proof using Hs.
  destruct (strip_fields _ _ Hs) as (Hcfg & Hw & Hg & Hc & Hn & Hd & Hl & Hz).
  unfold OLDEST, FIRST_BLOCK, BLOCKS, HEAD, CF, NC. by rewrite Hcfg, Hg, Hc, Hz.
Qed.
End strip_invariant.

(** ** References *)

Fixpoint refs (i : Z) (l : list SnapshotSegment) : Z :=
  match l with
  | [] => 0
  | s :: rest => (if chunk s =? i then 1 else 0) + refs i rest
  end.

Lemma refs_nonneg i l : 0 <= refs i l.
Proof. induction l as [|s l IH]; cbn; [lia|]. destruct (chunk s =? i); lia. Qed.

Definition pin (r : SampleRing) (s : SnapshotSegment) : SampleRing :=
  update_chunk (chunk s) (fun c => c <| pin_count ::= (fun n => wrap32 (n + 1)) |>) r.

Definition in_range (r : SampleRing) (l : list SnapshotSegment) : Prop :=
  Forall (fun s => 0 <= chunk s < NC r) l.

Lemma map_strip_zupdate l i f :
  (forall c, strip_chunk (f c) = strip_chunk c) ->
  map strip_chunk (zupdate l i f) = map strip_chunk l.
Proof. apply map_zupdate. Qed.

Lemma strip_update_chunk i f r :
  (forall c, strip_chunk (f c) = strip_chunk c) -> strip (update_chunk i f r) = strip r.
Proof.
  intros Hf. unfold strip, update_chunk, update; cbn. by rewrite map_strip_zupdate.
Qed.

(** The pin counts after the pins of a snapshot are taken, and given back. *)
Section pin_accounting.
Context (d : Z) (move : SampleRing -> SnapshotSegment -> SampleRing)
  (Hmove : forall r s, move r s =
     update_chunk (chunk s) (fun c => c <| pin_count ::= (fun n => wrap32 (n + d)) |>) r).

Lemma move_strip l r : strip (fold_left move l r) = strip r.
Proof using Hmove.
  revert r. induction l as [|s l IH]; intros r; [done|]. cbn. rewrite IH, Hmove.
  by apply strip_update_chunk.
Qed.

Lemma move_active l r : active_snapshots (fold_left move l r) = active_snapshots r.
Proof using Hmove.
  revert r. induction l as [|s l IH]; intros r; [done|]. cbn. by rewrite IH, Hmove.
Qed.

Lemma move_length l r : zlen (chunks (fold_left move l r)) = zlen (chunks r).
Proof using Hmove.
  revert r. induction l as [|s l IH]; intros r; [done|]. cbn. rewrite IH, Hmove. apply zlen_zupdate.
Qed.

Lemma move_pins l r i :
  in_range r l -> 0 <= i < NC r ->
  (forall n, 0 <= n <= refs i l -> is_u32 (pins r i + d * n)) ->
  pins (fold_left move l r) i = pins r i + d * refs i l.
Proof using Hmove.
  revert r. induction l as [|s l IH]; intros r Hl Hi Hu; [cbn; lia|].
  inversion Hl as [|? ? Hs Hl']; subst. cbn [fold_left refs] in *.
  pose proof (refs_nonneg i l).
  assert (pins (move r s) i = pins r i + d * (if chunk s =? i then 1 else 0)) as Hp.
  { rewrite Hmove. unfold pins, update_chunk, update; cbn.
    destruct (zlookup_lt (chunks r) i Hi) as [c Hc]. destruct (chunk s =? i) eqn:E; to_prop.
    - rewrite E, (zlookup_zupdate_eq _ _ _ _ Hc), Hc; cbn.
      assert (is_u32 (pin_count c + d)) as Hu1.
      { replace (pin_count c + d) with (pins r i + d * 1) by (unfold pins; rewrite Hc; lia).
        apply Hu. destruct (chunk s =? i) eqn:E'; to_prop; lia. }
      rewrite Z.mul_1_r in *. unfold is_u32, u32_max in Hu1. apply Z.mod_small. lia.
    - rewrite zlookup_zupdate_ne by done. rewrite Hc. lia. }
  rewrite IH, Hp; [lia | | |].
  - unfold in_range, NC in *. rewrite Hmove. unfold update_chunk, update; cbn.
    by rewrite zlen_zupdate.
  - unfold NC in *. rewrite Hmove. unfold update_chunk, update; cbn. by rewrite zlen_zupdate.
  - intros n Hn. rewrite Hp, <- Z.add_assoc, <- Z.mul_add_distr_l. apply Hu.
    destruct (chunk s =? i); lia.
Qed.
End pin_accounting.

(** ** Taking a snapshot *)

(** The segments [l] of [r] read exactly the frames [[a, b)] of the history. *)
Fixpoint chain (r : SampleRing) (h : list f32) (a : Z) (l : list SnapshotSegment) (b : Z) : Prop :=
  match l with
  | [] => a = b
  | s :: rest =>
      (exists c, zlookup (chunks r) (chunk s) = Some c /\ chunk_state c = Published /\
        sequence c = expected_sequence s /\ data_poisoned c = false /\
        a = valid_start_frame c + start_frame_in_chunk s /\
        0 <= start_frame_in_chunk s /\ 0 < frame_count s /\ a + frame_count s <= u64_max /\
        (start_frame_in_chunk s + frame_count s) * CH r <= zlen (data c) <= 2 ^ 63 /\
        (a + frame_count s) * CH r <= zlen h /\
        segment (data c) (start_frame_in_chunk s * CH r) (frame_count s * CH r) =
          segment h (a * CH r) (frame_count s * CH r)) /\
      chain r h (a + frame_count s) rest b
  end.

Section taking.
Context {r : SampleRing} {h : list f32} (Hinv : ring_inv r h).
Context (a b : Z) (Hrange : OLDEST r <= a < b) (Hb : b <= HEAD r).

(** The segment found at the [k]-th chunk after the one of frame [a]. *)
Definition FROM : Z := a / CF r.
Definition found (k : Z) : option SnapshotSegment :=
  match zlookup (chunks r) ((FROM + k) mod NC r) with
  | Some c => overlap ((FROM + k) mod NC r) c a b
  | None => None
  end.

Fixpoint found_from (k : Z) (turns : nat) : list SnapshotSegment :=
  match turns with
  | O => []
  | S turns' => match found k with
                | Some s => s :: found_from (k + 1) turns'
                | None => found_from (k + 1) turns'
                end
  end.

Lemma overlap_chunk i c s : overlap i c a b = Some s -> chunk s = i.
Proof using.
  unfold overlap. repeat case_match; try done. by intros [= <-].
Qed.

Lemma overlap_strip i c c' :
  strip_chunk c = strip_chunk c' -> overlap i c' a b = overlap i c a b.
Proof using.
  intros (Hsq & Hst & Hvs & Hvc & _)%strip_chunk_eq. unfold overlap, is_state.
  by rewrite Hst, Hvs, Hvc, Hsq.
Qed.

Lemma collect_one_run r1 k :
  strip r1 = strip r ->
  collect_one ((FROM + k) mod NC r) a b r1 =
    (match found k with Some s => pin r1 s | None => r1 end, Ok (found k)).
Proof using Hinv.
  intros Hs. set (i := (FROM + k) mod NC r). pose proof (inv_nc _ _ Hinv).
  destruct (zlookup_lt (chunks r) i) as [c Hc]; [apply Z.mod_pos_bound; unfold NC in *; lia|].
  destruct (strip_lookup _ _ _ _ Hs Hc) as (c1 & Hc1 & Heq).
  unfold found. fold i. rewrite Hc, (overlap_strip _ _ _ Heq).
  unfold collect_one, chunk_at. msteps. rewrite Hc1. cbn [unwrap]. msteps.
  destruct (overlap i c1 a b) as [s|] eqn:E; [|done].
  pose proof (overlap_chunk _ _ _ E) as Hi. msteps.
  erewrite update_chunk_lookup by done. cbn [unwrap]. msteps. cbn [sequence update].
  rewrite Z.eqb_refl.
  assert (is_state Published c1 = true) as Hst.
  { unfold overlap in E. destruct (is_state Published c1); done. }
  match goal with
  | |- context [is_state Published ?x] => change (is_state Published x) with (is_state Published c1)
  end.
  rewrite Hst. cbn [negb orb]. rewrite ret_run.
  unfold pin. by rewrite Hi.
Qed.

Lemma collect_run r1 k turns :
  strip r1 = strip r ->
  collect_segments (FROM mod NC r) k turns a b r1 =
    (fold_left pin (found_from k turns) r1, Ok (found_from k turns)).
Proof using Hinv.
  revert r1 k. induction turns as [|t IH]; intros r1 k Hs; [done|].
  pose proof (inv_nc _ _ Hinv).
  cbn [collect_segments found_from]. msteps.
  assert (zlen (chunks r1) = NC r) as -> by (symmetry; by apply strip_fields).
  rewrite Z.add_mod_idemp_l by lia.
  rewrite (bind_run _ _ _ _ _ (collect_one_run r1 k Hs)).
  assert (strip (match found k with Some s => pin r1 s | None => r1 end) = strip r) as Hs'.
  { destruct (found k); [|done]. rewrite <- Hs. by apply strip_update_chunk. }
  rewrite (bind_run _ _ _ _ _ (IH _ (k + 1) Hs')). rewrite ret_run.
  by destruct (found k).
Qed.

(** The blocks from the one of [a] to the one of [b - 1] are found, in order. *)
Lemma from_bounds :
  FIRST_BLOCK r <= FROM /\ 0 <= FROM /\ FROM * CF r <= a < (FROM + 1) * CF r /\
  FROM < BLOCKS r /\ BLOCKS r - FROM <= NC r.
Proof using Hinv Hrange Hb.
  pose proof (inv_cf _ _ Hinv). pose proof (oldest_le_head Hinv).
  pose proof (frame_block Hinv a ltac:(lia)). fold FROM in *.
  pose proof (Z.div_mod a (CF r) ltac:(lia)). pose proof (Z.mod_pos_bound a (CF r) ltac:(lia)).
  fold FROM in *. assert (FIRST_BLOCK r <= FROM).
  { apply Z.div_le_lower_bound; [lia|]. unfold OLDEST in Hrange. lia. }
  unfold FIRST_BLOCK in *. split_and!; lia.
Qed.

Definition block_from (j : Z) : Z := Z.max a (j * CF r).
Definition block_to (j : Z) : Z := Z.min ((j + 1) * CF r) b.

Lemma found_block k c :
  let j := FROM + k in
  0 <= k -> j * CF r < b -> zlookup (chunks r) (j mod NC r) = Some c -> block_ok r h j c ->
  found k = Some {| chunk := j mod NC r; expected_sequence := sequence c;
                    start_frame_in_chunk := block_from j - j * CF r;
                    frame_count := block_to j - block_from j |}.
Proof using Hinv Hrange Hb.
  intros j Hk Hj Hc Hok. pose proof from_bounds. pose proof (inv_cf _ _ Hinv).
  pose proof (blocks_bound Hinv). assert (j < BLOCKS r) by nia.
  destruct (block_end Hinv j c ltac:(lia) Hok ltac:(lia)) as [He Hlt].
  unfold found. fold j. rewrite Hc. unfold overlap.
  rewrite (is_published c) by apply Hok. cbn [negb]. rewrite He.
  destruct Hok as (_ & Hvs & _). rewrite Hvs.
  assert (a < (j + 1) * CF r) by nia.
  assert (j * CF r <= a \/ a < j * CF r) by lia.
  repeat decide_cmp. cbn [orb]. unfold block_from, block_to.
  replace (Z.min (Z.min ((j + 1) * CF r) (HEAD r)) b) with (Z.min ((j + 1) * CF r) b) by lia.
  rewrite Z.max_comm. unfold wrap32.
  rewrite !(Z.mod_small _ (2 ^ 32)); [done | unfold u32_max in *; lia..].
Qed.

Lemma found_none k : 0 <= k < NC r -> b <= (FROM + k) * CF r -> found k = None.
Proof using Hinv Hrange Hb.
  intros Hk Hj. pose proof from_bounds as (? & ? & ? & ? & ?). pose proof (inv_cf _ _ Hinv).
  pose proof (inv_nc _ _ Hinv). pose proof (blocks_bound Hinv). set (j := FROM + k) in *.
  assert (forall c, chunk_state c <> Published -> overlap (j mod NC r) c a b = None) as Hnp.
  { intros c Hc. unfold overlap. by rewrite (not_published _ Hc). }
  assert (forall j' c, 0 <= j' < BLOCKS r -> block_ok r h j' c ->
            Z.min ((j' + 1) * CF r) (HEAD r) <= a \/ b <= j' * CF r ->
            overlap (j mod NC r) c a b = None) as Hout.
  { intros j' c Hj' Hok Hx. destruct (block_end Hinv j' c ltac:(lia) Hok ltac:(lia)) as [He _].
    unfold overlap. destruct (negb _); [done|]. rewrite He. destruct Hok as (_ & -> & _).
    destruct Hx; [rewrite (proj2 (Z.leb_le _ a)) by lia; done|].
    rewrite (proj2 (Z.leb_le b _)) by lia. by rewrite orb_true_r. }
  unfold found. fold j. destruct (Z_lt_ge_dec j (BLOCKS r)) as [Hlt|Hge].
  - destruct (block_chunk Hinv j ltac:(unfold j; lia)) as (c & -> & Hok).
    apply (Hout j c); [lia | done | by right].
  - destruct (Z_lt_ge_dec j (NC r)) as [Hs|Hs].
    + destruct (inv_fresh _ _ Hinv j) as (c & Hc & Hst); [lia|].
      rewrite (Z.mod_small j) in * by lia. rewrite Hc. apply Hnp. congruence.
    + assert ((j - NC r) mod NC r = j mod NC r) as Hm.
      { replace (j - NC r) with (j + (-1) * NC r) by lia. apply Z.mod_add. lia. }
      destruct (inv_block _ _ Hinv (j - NC r)) as (c & Hc & Hok); [lia | unfold j in *; lia |].
      rewrite Hm in Hc. rewrite Hc. apply (Hout (j - NC r) c); [unfold j in *; lia | done |].
      left. assert ((j - NC r + 1) * CF r <= FROM * CF r)
        by (apply Z.mul_le_mono_nonneg_r; unfold j in *; lia). lia.
Qed.

Lemma found_chain k turns :
  0 <= k -> k + Z.of_nat turns = NC r ->
  chain r h (if (FROM + k) * CF r <? b then block_from (FROM + k) else b)
    (found_from k turns) b.
Proof using Hinv Hrange Hb.
  pose proof from_bounds as (? & ? & ? & ? & ?). pose proof (inv_cf _ _ Hinv) as Hcf.
  pose proof (inv_nc _ _ Hinv). pose proof (blocks_bound Hinv). pose proof (inv_ch _ _ Hinv) as Hch.
  revert k. induction turns as [|t IH]; intros k Hk Hend; cbn [found_from].
  - assert (BLOCKS r * CF r <= (FROM + k) * CF r) by (apply Z.mul_le_mono_nonneg_r; lia).
    decide_cmp. done.
  - specialize (IH (k + 1) ltac:(lia) ltac:(lia)). set (j := FROM + k) in *.
    replace (FROM + (k + 1)) with (j + 1) in IH by (unfold j; lia).
    destruct (j * CF r <? b) eqn:E; to_prop.
    + assert (j < BLOCKS r) by nia.
      destruct (block_chunk Hinv j ltac:(unfold j; lia)) as (c & Hc & Hok).
      rewrite (found_block k c ltac:(lia) E Hc Hok). fold j. cbn [chain].
      assert (FROM * CF r <= j * CF r) by (apply Z.mul_le_mono_nonneg_r; unfold j; lia).
      assert (a < (j + 1) * CF r).
      { assert ((FROM + 1) * CF r <= (j + 1) * CF r) by (apply Z.mul_le_mono_nonneg_r; unfold j; lia). lia. }
      pose proof (inv_head _ _ Hinv) as [_ Hh64]. pose proof (inv_hist _ _ Hinv) as Hhl.
      cbn [chunk expected_sequence start_frame_in_chunk frame_count]. split.
      * assert (block_from j + (block_to j - block_from j) <= HEAD r) as Hle
          by (unfold block_to; lia).
        assert (0 <= block_to j - block_from j) by (unfold block_to, block_from; lia).
        destruct (block_samples Hinv j c (block_from j) (block_to j - block_from j))
          as (Hf1 & Hf2 & Hf3);
          [unfold j in *; lia | done | done | unfold block_from; lia | lia
          | unfold block_to; lia |].
        assert (chunk_wf r c) as (_ & Hpo & _) by by apply (inv_chunks _ _ Hinv _ _ Hc).
        exists c. destruct Hok as (Hst & Hvs & _).
        split_and!; try done; try (unfold block_from, block_to; lia).
        -- unfold block_from, block_to in *. lia.
        -- rewrite Hhl. apply Z.mul_le_mono_nonneg_r; lia.
      * replace (block_from j + (block_to j - block_from j)) with (block_to j) by lia.
        replace (if (j + 1) * CF r <? b then block_from (j + 1) else b) with (block_to j) in IH;
          [done|].
        unfold block_to, block_from. destruct ((j + 1) * CF r <? b) eqn:E2; to_prop; lia.
    + rewrite found_none by (unfold j in *; lia).
      replace (if (j + 1) * CF r <? b then block_from (j + 1) else b) with b in IH; [done|].
      rewrite (proj2 (Z.ltb_ge _ _)); [done | lia].
Qed.
End taking.

(** ** Properties of chains *)

Section chains.
Context {h : list f32}.

Lemma chain_strip r r' a l b : strip r = strip r' -> chain r h a l b -> chain r' h a l b.
Proof.
  intros Hs. destruct (strip_fields _ _ Hs) as (Hcfg & _).
  assert (CH r' = CH r) as Hch by (unfold CH; congruence).
  revert a. induction l as [|s l IH]; intros a; [done|]. cbn [chain]. intros [(c & Hc & H1) H2].
  split; [|by apply IH]. destruct (strip_lookup _ _ _ _ (eq_sym Hs) Hc) as (c' & Hc' & Heq).
  symmetry in Heq. apply strip_chunk_eq in Heq as (Hsq & Hst & Hvs & Hvc & Hd & Hp).
  exists c'. rewrite Hst, Hsq, Hp, Hvs, Hd, Hch. done.
Qed.

(** A write keeps the chunks of the chain, as they are pinned. *)
Lemma chain_same_pins r r' x a l b :
  same_pins r r' -> Forall (fun s => 0 < pins r (chunk s)) l -> 0 <= a ->
  0 <= CH r -> chain r h a l b -> chain r' (h ++ x) a l b.
Proof.
  intros Hsp. assert (CH r' = CH r) as Hch by (unfold CH; by rewrite (pins_cfg _ _ Hsp)).
  revert a. induction l as [|s l IH]; intros a Hpin Ha Hc0; [done|]. cbn [chain].
  intros [(c & Hc & H1) H2]. destruct H1 as (? & ? & ? & ? & ? & ? & ? & ? & Hend & Hseg).
  apply Forall_cons in Hpin as [Hp Hpin].
  split; [|apply IH; [done | lia | done | done]].
  exists c. rewrite Hch. split_and!; try done; try lia.
  - apply (pins_frozen _ _ Hsp); [done|]. unfold pins in Hp. by rewrite Hc in Hp.
  - rewrite zlen_app. pose proof (zlen_nonneg x). lia.
  - rewrite Hseg. symmetry. apply segment_app_l; [apply Z.mul_nonneg_nonneg; lia.. | lia].
Qed.

Lemma chain_le r a l b : chain r h a l b -> a <= b.
Proof.
  revert a. induction l as [|s l IH]; intros a; cbn [chain]; [lia|].
  intros [(c & _ & _ & _ & _ & _ & _ & ? & _) Hr%IH]. lia.
Qed.

Lemma chain_start r a s l b :
  0 <= a -> chain r h a (s :: l) b -> segment_start r s = Ok a /\ segment_key r s = a.
Proof.
  intros Ha [(c & Hc & _ & _ & _ & Hst & ? & ? & ? & _) _]. unfold segment_key, segment_start.
  rewrite Hc. cbn [unwrap obind]. rewrite <- Hst, wrap64_small by (unfold is_u64; lia). done.
Qed.

Lemma chain_sorted r a l b : 0 <= a -> chain r h a l b -> sort_by_key r l = l.
Proof.
  revert a. induction l as [|s l IH]; intros a Ha H; [done|].
  cbn. pose proof H as [(c & _ & _ & _ & _ & _ & _ & ? & _) H2].
  change (foldr (insert_by_key r) [] l) with (sort_by_key r l).
  rewrite (IH (a + frame_count s)) by (done || lia).
  destruct l as [|x l]; [done|]. cbn [insert_by_key].
  destruct (chain_start r a s (x :: l) b Ha H) as [_ ->].
  destruct (chain_start r (a + frame_count s) x l b ltac:(lia) H2) as [_ ->]. decide_cmp. done.
Qed.

Lemma chain_covers r a l b : 0 <= a -> chain r h a l b -> check_coverage r a l = Ok b.
Proof.
  revert a. induction l as [|s l IH]; intros a Ha H; cbn [check_coverage]; [cbn in H; congruence|].
  destruct (chain_start r a s l b Ha H) as [-> _]. cbn [obind]. rewrite Z.eqb_refl. cbn [negb].
  destruct H as [(c & _ & _ & _ & _ & _ & _ & ? & ? & _) H2].
  rewrite wrap64_small by (unfold is_u64; lia). apply IH; [lia|done].
Qed.

Lemma chain_total r a l b n :
  0 <= n -> n + (b - a) <= u64_max -> chain r h a l b ->
  fold_left (fun n s => wrap64 (n + frame_count s)) l n = n + (b - a).
Proof.
  revert a n. induction l as [|s l IH]; intros a n Hn Hmax H; cbn [fold_left]; [cbn in H; lia|].
  destruct H as [(c & _ & _ & _ & _ & _ & _ & ? & ? & _) H2]. pose proof (chain_le _ _ _ _ H2).
  rewrite wrap64_small by (unfold is_u64; lia). rewrite (IH (a + frame_count s)); [lia..|done].
Qed.

Lemma chain_in_range r a l b : chain r h a l b -> in_range r l.
Proof.
  revert a. induction l as [|s l IH]; intros a; [constructor|].
  intros [(c & Hc & _) H2]. constructor; [|by eapply IH]. by apply zlookup_Some_lt in Hc.
Qed.

(** *** Reading *)

Lemma segment_lookup {A} (l l' : list A) x y n i :
  segment l x n = segment l' y n -> 0 <= x -> 0 <= y -> 0 <= i < n ->
  zlookup l (x + i) = zlookup l' (y + i).
Proof.
  unfold segment, zlookup. intros Heq ? ? ?. repeat decide_cmp.
  apply (f_equal (fun l => l !! Z.to_nat i)) in Heq.
  rewrite !lookup_take_lt, !lookup_drop in Heq by lia.
  rewrite !Z2Nat.inj_add by lia. done.
Qed.

Lemma read_frames_history d ch k a f n :
  0 <= k < ch -> 0 <= f -> 0 <= a -> (f + Z.of_nat n) * ch <= zlen d <= 2 ^ 63 ->
  segment d (f * ch) (Z.of_nat n * ch) = segment h (a * ch) (Z.of_nat n * ch) ->
  read_frames d ch k f n = Ok (channel_samples h ch k a n).
Proof.
  intros Hk. revert a f. induction n as [|n IH]; intros a f Hf Ha Hlen Heq; [done|].
  cbn [read_frames channel_samples].
  assert (0 <= f * ch) by (apply Z.mul_nonneg_nonneg; lia).
  assert (0 <= a * ch) by (apply Z.mul_nonneg_nonneg; lia).
  assert (0 <= Z.of_nat n * ch) by (apply Z.mul_nonneg_nonneg; lia).
  assert ((f + Z.of_nat (S n)) * ch = f * ch + ch + Z.of_nat n * ch) as Hsum by lia.
  rewrite !wrap64_small by (rewrite ?wrap64_small; unfold is_u64, u64_max; lia).
  destruct (zlookup_lt d (f * ch + k)) as [x Hx]; [lia|].
  rewrite <- (segment_lookup _ _ _ _ _ k Heq) by lia. rewrite Hx. cbn [unwrap obind default].
  rewrite (IH (a + 1) (f + 1)); [done | lia | lia | lia |].
  apply (f_equal (fun l => segment l ch (Z.of_nat n * ch))) in Heq.
  rewrite !segment_segment in Heq by lia.
  replace ((f + 1) * ch) with (f * ch + ch) by lia.
  replace ((a + 1) * ch) with (a * ch + ch) by lia. done.
Qed.

Lemma chain_reads r a l b k :
  0 <= k < CH r -> 0 <= a -> chain r h a l b ->
  read_segments r (CH r) k l = Ok (channel_samples h (CH r) k a (Z.to_nat (b - a))).
Proof.
  intros Hk. revert a. induction l as [|s l IH]; intros a Ha H; cbn [read_segments].
  - cbn in H. subst. by rewrite Z.sub_diag.
  - destruct H as [(c & Hc & Hst & Hsq & Hp & Hva & Hsf & Hfc & Hov & Hfit & _ & Hseg) H2].
    pose proof (chain_le _ _ _ _ H2). rewrite Hc. cbn [unwrap obind].
    rewrite (is_published c Hst), Hsq, Z.eqb_refl, Hp. cbn [negb orb].
    rewrite (read_frames_history _ _ _ a); [| done | done | done | |].
    + cbn [obind]. rewrite (IH (a + frame_count s)) by (done || lia). cbn [obind].
      replace (Z.to_nat (b - a)) with
        (Z.to_nat (frame_count s) + Z.to_nat (b - (a + frame_count s)))%nat by lia.
      rewrite channel_samples_app, Z2Nat.id by lia. done.
    + rewrite Z2Nat.id by lia. lia.
    + rewrite Z2Nat.id by lia. done.
Qed.
End chains.

(** ** The snapshot operations *)

(** The live snapshot [s] of ring [r] reads its range of the history [h]. *)
Record snap_ok (r : SampleRing) (h : list f32) (s : Snapshot) : Prop := {
  snap_channels : snapshot_channels s = CH r;
  snap_start : 0 <= start_frame s;
  snap_chain : chain r h (start_frame s) (segments s) (end_frame s);
  snap_total : total_frames s = end_frame s - start_frame s;
  snap_refs : forall i, refs i (segments s) <= (if active_counter s then 1 else 0);
}.

Section taking_snapshots.
Context {r : SampleRing} {h : list f32} (Hinv : ring_inv r h).

Lemma found_from_refs a b i k turns :
  0 <= k -> k + Z.of_nat turns <= NC r ->
  refs i (found_from (r := r) a b k turns) <= 1 /\
  (0 < refs i (found_from (r := r) a b k turns) ->
   exists k', k <= k' < NC r /\ i = (FROM (r := r) a + k') mod NC r).
Proof using Hinv.
  pose proof (inv_nc _ _ Hinv).
  revert k. induction turns as [|t IH]; intros k Hk Hn; cbn [found_from]; [cbn; lia|].
  destruct (IH (k + 1) ltac:(lia) ltac:(lia)) as [IH1 IH2].
  destruct (found a b k) as [s|] eqn:E.
  - assert (chunk s = (FROM (r := r) a + k) mod NC r) as Hc.
    { unfold found in E. destruct (zlookup _ _); [|done]. by apply overlap_chunk in E. }
    cbn [refs]. destruct (chunk s =? i) eqn:Ei; to_prop.
    + assert (refs i (found_from (r := r) a b (k + 1) t) = 0) as ->.
      { destruct (Z_gt_le_dec (refs i (found_from (r := r) a b (k + 1) t)) 0) as [Hg|Hg];
          [|pose proof (refs_nonneg i (found_from (r := r) a b (k + 1) t)); lia].
        destruct (IH2 ltac:(lia)) as (k' & Hk' & Hi). exfalso.
        rewrite <- Ei, Hc in Hi. set (f := FROM (r := r) a) in *.
        pose proof (Z.div_mod (f + k) (NC r) ltac:(lia)).
        pose proof (Z.div_mod (f + k') (NC r) ltac:(lia)).
        assert ((f + k) / NC r = (f + k') / NC r) by nia. nia. }
      split; [lia|]. intros _. exists k. split; [lia|congruence].
    + split; [lia|]. intros Hr. destruct (IH2 ltac:(lia)) as (k' & ? & ?).
      exists k'. split; [lia|done].
  - split; [done|]. intros Hr. destruct (IH2 Hr) as (k' & ? & ?). exists k'. split; [lia|done].
Qed.

(** The snapshot that a pinned range will become. *)
Definition promised (p : PinnedRange) : Snapshot :=
  mkSnapshot (pinned_segments p) (range_start p) (range_end p) (cfg_channels (cfg r))
    (cfg_sample_rate (cfg r)) (cfg_format (cfg r)) (range_end p - range_start p) (guard p).

(** Finishing keeps the promise: it needs no lock, only the chunks pinned. *)
Lemma finish_run p :
  snap_ok r h (promised p) -> range_end p - range_start p <= u64_max ->
  finish_snapshot p r = (r, Ok (promised p)).
Proof using.
  intros [_ Ha Hch _ _] Hlen. cbn [promised start_frame segments end_frame] in *.
  unfold finish_snapshot. msteps. rewrite (chain_sorted _ _ _ _ Ha Hch).
  rewrite (chain_covers _ _ _ _ Ha Hch), Z.eqb_refl. cbn [negb].
  rewrite (chain_total r _ _ _ 0 ltac:(lia) Hlen Hch). done.
Qed.

Context (Hactive : 0 <= active_snapshots r <= cfg_max_active_snapshots (cfg r))
  (Hmax : is_u32 (cfg_max_active_snapshots (cfg r)))
  (Hpins : forall i, 0 <= pins r i <= active_snapshots r).

(** What pinning [[a, b)] does: it succeeds exactly on a retained range while a
    slot is free, and otherwise leaves the ring as it was. *)
Definition pinned (a b : Z) (res : SampleRing * outcome LambError PinnedRange) : Prop :=
  match res with
  | (r', Ok p) =>
      OLDEST r <= a <= b /\ b <= HEAD r /\ range_start p = a /\ range_end p = b /\
      strip r' = strip r /\ snap_ok r' h (promised p) /\
      active_snapshots r' = active_snapshots r + (if guard p then 1 else 0) /\
      active_snapshots r' <= cfg_max_active_snapshots (cfg r) /\
      (forall i, 0 <= i < NC r -> pins r' i = pins r i + refs i (pinned_segments p))
  | (r', Err _) => r' = r /\
      ~ (OLDEST r <= a <= b /\ b <= HEAD r /\
         (a = b \/ active_snapshots r < cfg_max_active_snapshots (cfg r)))
  | (_, Panic) => False
  end.

Lemma pin_spec a b : pinned a b (pin_snapshot_range a b (HEAD r) (OLDEST r) r).
Proof using Hinv Hactive Hmax Hpins.
  pose proof (oldest_le_head Hinv). pose proof (inv_head _ _ Hinv) as [_ Hh64].
  pose proof (inv_nc _ _ Hinv) as Hnc. unfold pin_snapshot_range, pinned.
  destruct (b <? a) eqn:E1; to_prop; msteps; [split; [done|lia]|].
  destruct (a <? OLDEST r) eqn:E2; to_prop; msteps; [split; [done|lia]|].
  destruct (HEAD r <? b) eqn:E3; to_prop; msteps; [split; [done|lia]|].
  destruct (a =? b) eqn:E4; to_prop.
  { rewrite ret_run. cbn [guard range_start range_end pinned_segments].
    split_and!; try done; try lia; [| intros; cbn; lia].
    constructor; cbn; try done; lia. }
  unfold acquire_slot. msteps.
  destruct (_ <=? active_snapshots r) eqn:E5; to_prop; msteps; [split; [done|lia]|].
  set (r1 := r <| active_snapshots ::= _ |>).
  assert (strip r1 = strip r) as Hs1 by done.
  change (zlen (chunks r1)) with (NC r).
  change (a / cfg_chunk_frames (cfg r1)) with (FROM (r := r) a).
  change (length (chunks r1)) with (length (chunks r)).
  rewrite (bind_run _ _ _ _ _ (collect_run Hinv a b r1 0 _ Hs1)), ret_run.
  set (l := found_from a b 0 _).
  pose proof (found_chain Hinv a b ltac:(lia) E3 0 (length (chunks r)) ltac:(lia) ltac:(done)) as Hch.
  fold l in Hch. rewrite Z.add_0_r in Hch.
  pose proof (from_bounds Hinv a b ltac:(lia) E3) as (_ & _ & Hfr & _).
  assert ((if FROM (r := r) a * CF r <? b then block_from (r := r) a (FROM (r := r) a) else b) = a) as Hst.
  { decide_cmp. unfold block_from. lia. }
  rewrite Hst in Hch. pose proof (chain_in_range _ _ _ _ Hch) as Hir.
  assert (forall i, refs i l <= 1) as Hrefs
    by (intros i; apply (found_from_refs a b i 0 (length (chunks r))); [lia | unfold NC, zlen; lia]).
  pose proof (move_strip 1 pin ltac:(done) l r1) as Hs2. rewrite Hs1 in Hs2.
  assert (active_snapshots r1 = active_snapshots r + 1) as Ha1.
  { unfold r1, update; cbn. unfold wrap32, is_u32, u32_max in *. apply Z.mod_small. lia. }
  cbn [guard range_start range_end pinned_segments].
  rewrite (move_active 1 pin ltac:(done)), Ha1.
  split_and!; try done; try lia.
  - constructor; cbn; try done; [ | lia | by apply (chain_strip r)].
    unfold CH. by destruct (strip_fields _ _ Hs2) as (<- & _).
  - intros i Hi. rewrite (move_pins 1 pin ltac:(done)); [| done | done |].
    + change (pins r1 i) with (pins r i). lia.
    + intros n Hn. change (pins r1 i) with (pins r i). specialize (Hrefs i). specialize (Hpins i).
      unfold is_u32, u32_max in *. lia.
Qed.
End taking_snapshots.

(** ** A ring and its live snapshots *)

(** The atomic steps that the threads of the daemon interleave on one ring. The
    writer's loop may be anywhere between two of its turns ([WriteTurn]); a
    snapshot pins under the lock ([PinRange], [PinLastFrames], [PinSelection]) and
    is finished later ([FinishSnapshot]). *)
Inductive ring_op :=
  | WriteTurn (now : Z) (samples : list f32) (frame_index : Z)
  | RecordDropped (frames : Z)
  | PinRange (start end_ : Z)
  | PinLastFrames (requested_frames : Z)
  | PinSelection (committed_start : option Z)
  | FinishSnapshot (index : nat)
  | DropSnapshot (index : nat)
  | Clear
  | Reset.

Record ring_system := mkSystem {
  ring : SampleRing;
  unfinished : list PinnedRange;
  live : list Snapshot;
}.

(** The arguments are values of their Rust types; a slice of [f32] is shorter
    than [isize::MAX] bytes and holds whole frames, and the loop is in it. *)
Definition valid_op (r : SampleRing) (op : ring_op) : Prop :=
  match op with
  | WriteTurn _ samples fi =>
      zlen samples <= 2 ^ 61 /\ zlen samples mod CH r = 0 /\ 0 <= fi < zlen samples / CH r
  | RecordDropped n => is_u64 n
  | _ => True
  end.

Definition keep_pinned (x : ring_system) (res : SampleRing * outcome LambError PinnedRange)
    : ring_system :=
  match res with
  | (r, Ok p) => mkSystem r (p :: unfinished x) (live x)
  | (r, _) => mkSystem r (unfinished x) (live x)
  end.

Definition run_op (x : ring_system) (op : ring_op) : ring_system :=
  let with_ring r := mkSystem r (unfinished x) (live x) in
  let ch := cfg_channels (cfg (ring x)) in
  match op with
  | WriteTurn now samples fi =>
      with_ring (write_turn now samples ch (zlen samples / ch) fi (ring x)).1
  | RecordDropped n => with_ring (record_dropped_frames n (ring x)).1
  | PinRange a b => keep_pinned x (pin_range a b (ring x))
  | PinLastFrames n => keep_pinned x (pin_last_frames n (ring x))
  | PinSelection c => keep_pinned x ((let! (_, p) := pin_selection c in ret p) (ring x))
  | FinishSnapshot i =>
      match unfinished x !! i with
      | Some p =>
          match finish_snapshot p (ring x) with
          | (r, Ok s) => mkSystem r (delete i (unfinished x)) (s :: live x)
          | (r, _) => mkSystem r (delete i (unfinished x)) (live x)
          end
      | None => x
      end
  | DropSnapshot i =>
      match live x !! i with
      | Some s => mkSystem (drop_snapshot s (ring x)) (unfinished x) (delete i (live x))
      | None => x
      end
  | Clear => with_ring (clear (ring x)).1
  | Reset => with_ring (reset (ring x)).1
  end.

Fixpoint live_refs (i : Z) (live : list Snapshot) : Z :=
  match live with [] => 0 | s :: rest => refs i (segments s) + live_refs i rest end.
Fixpoint live_active (live : list Snapshot) : Z :=
  match live with
  | [] => 0
  | s :: rest => (if active_counter s then 1 else 0) + live_active rest
  end.

Record live_inv (r : SampleRing) (h : list f32) (live : list Snapshot) : Prop := {
  live_ring : ring_inv r h;
  live_max : is_u32 (cfg_max_active_snapshots (cfg r));
  live_snaps : Forall (snap_ok r h) live;
  live_pins : forall i, 0 <= i < NC r -> pins r i = live_refs i live;
  live_count : active_snapshots r = live_active live;
  live_bound : active_snapshots r <= cfg_max_active_snapshots (cfg r);
}.

Lemma live_refs_nonneg i live : 0 <= live_refs i live.
Proof. induction live as [|s l IH]; cbn; [lia|]. pose proof (refs_nonneg i (segments s)). lia. Qed.

Lemma live_active_nonneg live : 0 <= live_active live.
Proof. induction live as [|s l IH]; cbn; [lia|]. destruct (active_counter s); lia. Qed.

Lemma live_refs_active r h live i :
  Forall (snap_ok r h) live -> live_refs i live <= live_active live.
Proof.
  induction 1 as [|s l Hs _ IH]; cbn; [lia|]. pose proof (snap_refs _ _ _ Hs i).
  destruct (active_counter s); lia.
Qed.

Lemma live_refs_delete i k live s :
  live !! k = Some s -> live_refs i live = refs i (segments s) + live_refs i (delete k live).
Proof.
  revert k. induction live as [|x l IH]; intros [|k]; try done; [by intros [= ->]|].
  intros H. change (delete (S k) (x :: l)) with (x :: delete k l). cbn [live_refs].
  rewrite (IH k H). lia.
Qed.

Lemma live_active_delete k live s :
  live !! k = Some s ->
  live_active live = (if active_counter s then 1 else 0) + live_active (delete k live).
Proof.
  revert k. induction live as [|x l IH]; intros [|k]; try done; [by intros [= ->]|].
  intros H. change (delete (S k) (x :: l)) with (x :: delete k l). cbn [live_active].
  rewrite (IH k H). lia.
Qed.

Lemma refs_in s l : s ∈ l -> 0 < refs (chunk s) l.
Proof.
  induction l as [|y l IH]; intros Hs; [by apply not_elem_of_nil in Hs|]. cbn.
  pose proof (refs_nonneg (chunk s) l). apply elem_of_cons in Hs as [->|Hs].
  - rewrite Z.eqb_refl. lia.
  - specialize (IH Hs). destruct (chunk y =? chunk s); lia.
Qed.

Lemma live_refs_in i s live : s ∈ live -> refs i (segments s) <= live_refs i live.
Proof.
  intros Hs. apply list_elem_of_lookup in Hs as [k Hk]. rewrite (live_refs_delete i k live s Hk).
  pose proof (live_refs_nonneg i (delete k live)). lia.
Qed.

Lemma snap_ok_strip r r' h s : strip r = strip r' -> snap_ok r h s -> snap_ok r' h s.
Proof.
  intros Hs [H1 H2 H3 H4 H5]. destruct (strip_fields _ _ Hs) as (Hcfg & _).
  constructor; try done; [unfold CH in *; congruence | by apply (chain_strip r)].
Qed.

Section live_rings.
Context {r : SampleRing} {h : list f32} {live : list Snapshot} (Hinv : live_inv r h live).

Lemma live_pins_bound i : 0 <= pins r i <= active_snapshots r.
Proof using Hinv.
  rewrite (live_count _ _ _ Hinv). pose proof (live_active_nonneg live).
  destruct (decide (0 <= i < NC r)) as [Hi|Hi].
  - rewrite (live_pins _ _ _ Hinv i Hi). pose proof (live_refs_nonneg i live).
    pose proof (live_refs_active r h live i (live_snaps _ _ _ Hinv)). lia.
  - unfold pins. destruct (zlookup (chunks r) i) eqn:E; [|lia].
    by apply zlookup_Some_lt in E.
Qed.

Lemma live_pins_u32 i : is_u32 (pins r i).
Proof using Hinv.
  pose proof (live_pins_bound i). pose proof (live_bound _ _ _ Hinv).
  pose proof (live_max _ _ _ Hinv). unfold is_u32 in *. lia.
Qed.

Lemma live_pin_spec a b :
  pinned (r := r) (h := h) a b (pin_snapshot_range a b (HEAD r) (OLDEST r) r).
Proof using Hinv.
  apply pin_spec; [apply Hinv | | apply Hinv | apply live_pins_bound].
  split; [|apply Hinv]. rewrite (live_count _ _ _ Hinv). apply live_active_nonneg.
Qed.

(** A pinned range joins the live snapshots. *)
Lemma live_pinned a b r' p :
  pinned (r := r) (h := h) a b (r', Ok p) ->
  live_inv r' h (promised (r := r) p :: live).
Proof using Hinv.
  intros (_ & _ & _ & _ & Hs & Hok & Ha & Hle & Hp).
  assert (NC r' = NC r) as HNC by (symmetry; by apply strip_fields).
  assert (cfg r' = cfg r) as Hcfg by (symmetry; by apply strip_fields).
  pose proof (live_pins_bound) as Hpb.
  constructor; cbn.
  - apply (strip_inv (live_ring _ _ _ Hinv) (eq_sym Hs)). intros i.
    pose proof (live_max _ _ _ Hinv) as Hmx.
    destruct (decide (0 <= i < NC r)) as [Hi|Hi].
    + rewrite (Hp i Hi). pose proof (snap_refs _ _ _ Hok i) as Hr1. cbn [promised segments active_counter] in Hr1.
      pose proof (refs_nonneg i (pinned_segments p)). specialize (Hpb i).
      unfold is_u32 in *. destruct (guard p); lia.
    + unfold pins. destruct (zlookup (chunks r') i) eqn:E; [|done].
      apply zlookup_Some_lt in E. unfold NC in *. lia.
  - rewrite Hcfg. apply Hinv.
  - constructor; [done|]. eapply Forall_impl; [apply Hinv|]. intros s' Hs'.
    by apply (snap_ok_strip r r' h s' (eq_sym Hs)).
  - intros i Hi. rewrite HNC in Hi. rewrite (Hp i Hi), (live_pins _ _ _ Hinv i Hi). lia.
  - rewrite Ha, (live_count _ _ _ Hinv). lia.
  - rewrite Hcfg. done.
Qed.

Lemma live_drop k s :
  live !! k = Some s -> live_inv (drop_snapshot s r) h (delete k live).
Proof using Hinv.
  intros Hk.
  assert (snap_ok r h s) as Hok
    by (eapply Forall_lookup_1; [apply Hinv | done]).
  pose proof (chain_in_range _ _ _ _ (snap_chain _ _ _ Hok)) as Hir.
  assert (strip (drop_snapshot s r) = strip r) as Hs.
  { unfold drop_snapshot.
    transitivity (strip (fold_left unpin (segments s) r));
      [by destruct (active_counter s)|]. by apply (move_strip (-1)). }
  assert (forall i, 0 <= i < NC r -> pins (drop_snapshot s r) i = live_refs i (delete k live)) as Hp.
  { intros i Hi. transitivity (pins (fold_left unpin (segments s) r) i).
    { unfold drop_snapshot. by destruct (active_counter s). }
    rewrite (move_pins (-1) unpin ltac:(done)); [| done | done |].
    - rewrite (live_pins _ _ _ Hinv i Hi), (live_refs_delete i k live s Hk). lia.
    - intros n Hn. rewrite (live_pins _ _ _ Hinv i Hi).
      pose proof (live_pins_u32 i) as Hu. rewrite (live_pins _ _ _ Hinv i Hi) in Hu.
      pose proof (live_refs_in i s live ltac:(by eapply list_elem_of_lookup_2)).
      unfold is_u32 in *. lia. }
  assert (active_snapshots (drop_snapshot s r) = live_active (delete k live)) as Ha.
  { unfold drop_snapshot. pose proof (live_count _ _ _ Hinv) as Hc.
    rewrite (live_active_delete k live s Hk) in Hc. pose proof (live_active_nonneg (delete k live)).
    pose proof (live_bound _ _ _ Hinv). pose proof (live_max _ _ _ Hinv) as Hmx.
    unfold is_u32, u32_max in Hmx.
    destruct (active_counter s); unfold release_slot, update; cbn;
      rewrite (move_active (-1) unpin ltac:(done)); [unfold wrap32; rewrite Z.mod_small; lia | lia]. }
  assert (NC (drop_snapshot s r) = NC r) as HNC by by apply strip_fields.
  assert (cfg (drop_snapshot s r) = cfg r) as Hcfg by (symmetry; by apply strip_fields).
  assert (Forall (snap_ok r h) (delete k live)) as Hfa by (apply Forall_delete; apply Hinv).
  constructor.
  - apply (strip_inv (live_ring _ _ _ Hinv) (eq_sym Hs)). intros i.
    destruct (decide (0 <= i < NC r)) as [Hi|Hi].
    + rewrite (Hp i Hi). pose proof (live_refs_nonneg i (delete k live)).
      pose proof (live_pins_u32 i) as Hu. rewrite (live_pins _ _ _ Hinv i Hi) in Hu.
      rewrite (live_refs_delete i k live s Hk) in Hu. pose proof (refs_nonneg i (segments s)).
      unfold is_u32 in *. lia.
    + unfold pins. destruct (zlookup _ i) eqn:E; [|done].
      apply zlookup_Some_lt in E. unfold NC in *. lia.
  - rewrite Hcfg. apply Hinv.
  - eapply Forall_impl; [done|]. intros s'. by apply snap_ok_strip.
  - intros i Hi. rewrite HNC in Hi. by apply Hp.
  - done.
  - rewrite Hcfg, Ha. pose proof (live_bound _ _ _ Hinv) as Hb. rewrite (live_count _ _ _ Hinv) in Hb.
    rewrite (live_active_delete k live s Hk) in Hb. destruct (active_counter s); lia.
Qed.
End live_rings.

(** ** Every operation keeps the invariant *)

(** The history after an operation: it grows at its end, and only a reset,
    which no live snapshot with a segment allows, starts a new one. *)
Definition grows (h h' : list f32) (live : list Snapshot) : Prop :=
  (exists x, h' = h ++ x) \/ h' = [] /\ Forall (fun s => segments s = []) live.

Lemma pins_map r r' i :
  map pin_count (chunks r') = map pin_count (chunks r) -> pins r' i = pins r i.
Proof.
  intros Hm. unfold pins, zlookup. destruct (0 <=? i); [|done].
  apply (f_equal (fun l => l !! Z.to_nat i)) in Hm. rewrite !list_lookup_fmap in Hm.
  destruct (chunks r' !! _), (chunks r !! _); cbn in Hm; congruence.
Qed.

Lemma chain_end r h a l b :
  0 <= a -> chain r h a l b -> l <> [] -> b * CH r <= zlen h.
Proof.
  revert a. induction l as [|s l IH]; [done|]. intros a Ha [(c & Hc) H2] _.
  destruct Hc as (_ & _ & _ & _ & _ & _ & ? & _ & _ & Hle & _).
  destruct l as [|s2 l]; [cbn in H2; by subst|]. apply (IH (a + frame_count s)); [lia | done | done].
Qed.

Lemma chain_ext r r' h a l b :
  chunks r' = chunks r -> cfg r' = cfg r -> chain r h a l b -> chain r' h a l b.
Proof.
  intros H1 H2. assert (CH r' = CH r) as H3 by (unfold CH; congruence). revert a.
  induction l as [|s l IH]; intros a; [done|]. cbn [chain]. rewrite H1, H3.
  intros [? ?]. split; [done|]. by apply IH.
Qed.

Section live_operations.
Context {r : SampleRing} {h : list f32} {live : list Snapshot} (Hinv : live_inv r h live).

Lemma live_same_pins r' x :
  same_pins r r' -> ring_inv r' (h ++ x) -> live_inv r' (h ++ x) live.
Proof using Hinv.
  intros Hsp Hr. pose proof (live_ring _ _ _ Hinv) as Hi.
  assert (forall i, pins r' i = pins r i) as Hp by (intros; apply pins_map, Hsp).
  assert (zlen (chunks r') = zlen (chunks r)) as Hz.
  { pose proof (pins_count _ _ Hsp) as Hm. apply (f_equal length) in Hm.
    rewrite !length_map in Hm. unfold zlen. by rewrite Hm. }
  constructor; rewrite ?(pins_cfg _ _ Hsp), ?(pins_active _ _ Hsp); try apply Hinv; [done | |].
  - eapply Forall_impl; [apply Forall_and; split; [apply Hinv | apply list.Forall_forall]|].
    { intros s. exact (fun H => H). }
    intros s [[H1 H2 H3 H4 H5] Hs]. constructor; try done.
    + unfold CH in *. by rewrite (pins_cfg _ _ Hsp).
    + apply (chain_same_pins r); try done; [|pose proof (inv_ch _ _ Hi); lia].
      apply list.Forall_forall. intros sg Hsg.
      pose proof (chain_in_range _ _ _ _ H3) as Hir. unfold in_range in Hir.
      rewrite list.Forall_forall in Hir. rewrite (live_pins _ _ _ Hinv) by by apply Hir.
      pose proof (live_refs_in (chunk sg) s live Hs). pose proof (refs_in sg _ Hsg). lia.
  - intros i Hrange. rewrite Hp. apply Hinv. unfold NC in *. lia.
Qed.

Lemma write_unchanged now samples ch :
  ch <> CH r \/ zlen samples mod CH r <> 0 -> (write_interleaved now samples ch r).1 = r.
Proof using Hinv.
  intros Hbad. pose proof (inv_ch _ _ (live_ring _ _ _ Hinv)).
  unfold write_interleaved. msteps. change (cfg_channels (cfg r)) with (CH r).
  destruct (ch =? CH r) eqn:E; cbn [negb]; msteps; [|done]. to_prop. subst ch.
  rewrite is_multiple_of_spec by lia. destruct Hbad; [done|].
  repeat decide_cmp. cbn [negb orb]. by msteps.
Qed.

Lemma live_write_turn now samples fi :
  zlen samples <= 2 ^ 61 -> zlen samples mod CH r = 0 -> 0 <= fi < zlen samples / CH r ->
  exists h', live_inv (write_turn now samples (CH r) (zlen samples / CH r) fi r).1 h' live /\
    grows h h' live.
Proof using Hinv.
  intros Hl Hm Hfi. pose proof (inv_ch _ _ (live_ring _ _ _ Hinv)) as Hch.
  pose proof (Z.div_mod (zlen samples) (CH r) ltac:(lia)) as Hdm.
  pose proof (write_turn_refines (live_ring _ _ _ Hinv) now samples (zlen samples / CH r) fi
                ltac:(lia) ltac:(lia) Hfi) as Hw.
  assert (grows h h live) as Hsame by (left; exists []; by rewrite app_nil_r).
  destruct (write_turn _ _ _ _ _ r) as [r' [[fi'|u]|e|]]; cbn [fst]; [| | | done].
  - destruct Hw as (_ & Hsp & _ & Hi). eexists. split; [by apply live_same_pins|]. left. eauto.
  - destruct Hw as (Hsp & _ & Hi & _). exists h. split; [|done].
    rewrite <- (app_nil_r h). apply live_same_pins; [done|]. by rewrite app_nil_r.
  - destruct Hw as [-> _]. by exists h.
Qed.

Lemma live_record_dropped n :
  is_u64 n -> live_inv (record_dropped_frames n r).1 h live.
Proof using Hinv.
  intros Hn. pose proof (live_ring _ _ _ Hinv) as Hi. pose proof (inv_dropped _ _ Hi) as Hd.
  unfold record_dropped_frames, add_dropped_frames. msteps.
  destruct (add_checked (dropped_frames r) n) as [t|] eqn:E; cbn [ok_or]; msteps; [|done].
  apply add_checked_inv in E as [-> ?]. rewrite modify_run. cbn [fst].
  rewrite <- (app_nil_r h). apply live_same_pins; [by constructor|]. rewrite app_nil_r.
  by constructor; try apply Hi.
Qed.

Lemma live_clear : live_inv (clear r).1 h live.
Proof using Hinv.
  destruct (clear_refines r h (live_ring _ _ _ Hinv)) as (r' & Hc & Hr & _). rewrite Hc.
  injection Hc as <-. constructor; try apply Hinv; [done|].
  eapply Forall_impl; [apply Hinv|]. intros s [H1 H2 H3 H4 H5]. constructor; try done.
  revert H3. by apply chain_ext.
Qed.

Lemma live_reset : exists h', live_inv (reset r).1 h' live /\ grows h h' live.
Proof using Hinv.
  pose proof (reset_refines r h (live_ring _ _ _ Hinv)) as Hr.
  destruct (reset r) as [r' [[]|e|]] eqn:E; cbn; [| subst; exists h; split; [done|] | done].
  2:{ left. exists []. by rewrite app_nil_r. }
  destruct Hr as (Hr & Hh & Hd & Hcfg & Ha & Hp).
  assert (forall i, 0 <= i < NC r -> live_refs i live = 0) as Hrefs.
  { intros i Hi. rewrite <- (live_pins _ _ _ Hinv i Hi). unfold pins.
    destruct (zlookup (chunks r) i) eqn:Ez; [|done]. apply Hp.
    unfold zlookup in Ez. destruct (0 <=? i); [|done]. by eapply list_elem_of_lookup_2. }
  assert (Forall (fun s => segments s = []) live) as Hempty.
  { apply list.Forall_forall. intros s Hs. destruct (segments s) as [|sg l] eqn:Es; [done|].
    assert (snap_ok r h s) as [_ _ Hch _ _].
    { pose proof (live_snaps _ _ _ Hinv) as Hf. rewrite list.Forall_forall in Hf. by apply Hf. }
    pose proof (chain_in_range _ _ _ _ Hch) as Hir. rewrite Es in Hir. inversion Hir; subst.
    pose proof (live_refs_in (chunk sg) s live Hs) as Hle. rewrite Hrefs in Hle by done.
    rewrite Es in Hle. pose proof (refs_in sg (sg :: l) ltac:(left)). lia. }
  exists []. split; [|by right].
  unfold reset in E. rewrite bind_get in E. cbv beta in E.
  repeat (apply bind_inv in E as (s1 & [] & Hf & E);
          unfold fail_if in Hf; case_match; [done|]; injection Hf as <-).
  injection E as <-.
  constructor; try done.
  - apply Hinv.
  - eapply Forall_impl; [apply Forall_and; split; [apply Hinv | exact Hempty]|].
    intros s [[? ? Hch ? ?] He]. constructor; try done. by rewrite He in *.
  - intros i Hi. unfold NC, update in Hi; cbn in Hi.
    unfold pins, update; cbn. rewrite Hrefs by (unfold NC, zlen in *; rewrite length_map in Hi; lia).
    unfold zlookup. destruct (0 <=? i) eqn:Ei; [|done]. rewrite list_lookup_fmap.
    destruct (chunks r !! Z.to_nat i) eqn:Ec; [|done]. cbn. apply Hp.
    by eapply list_elem_of_lookup_2.
  - cbn. apply Hinv.
  - cbn. apply Hinv.
Qed.

(** The locked blocks pin a range of the retained frames. *)
Lemma pin_range_run a b : pin_range a b r = pin_snapshot_range a b (HEAD r) (OLDEST r) r.
Proof using Hinv.
  unfold pin_range. msteps. rewrite (inv_locks _ _ (live_ring _ _ _ Hinv)). msteps.
  unfold write_head_frame. fold (HEAD r).
  rewrite (oldest_frame_at_spec (live_ring _ _ _ Hinv)). by msteps.
Qed.

Lemma pin_last_frames_run n :
  pin_last_frames n r =
    pin_snapshot_range (Z.max (saturating_sub (HEAD r) n) (OLDEST r)) (HEAD r) (HEAD r) (OLDEST r) r.
Proof using Hinv.
  unfold pin_last_frames. msteps. rewrite (inv_locks _ _ (live_ring _ _ _ Hinv)). msteps.
  unfold write_head_frame. fold (HEAD r).
  rewrite (oldest_frame_at_spec (live_ring _ _ _ Hinv)). by msteps.
Qed.

Definition selected (c : option Z) : Z := match c with Some c => c | None => OLDEST r end.

Lemma pin_selection_run c :
  pin_selection c r =
    (let! p := pin_snapshot_range (Z.max (selected c) (OLDEST r)) (HEAD r) (HEAD r) (OLDEST r) in
     ret (selected c, OLDEST r, p)) r.
Proof using Hinv.
  unfold pin_selection. msteps. rewrite (inv_locks _ _ (live_ring _ _ _ Hinv)). msteps.
  unfold write_head_frame. fold (HEAD r).
  rewrite (oldest_frame_at_spec (live_ring _ _ _ Hinv)). by msteps.
Qed.

(** A live snapshot reads the history of its range. *)
Lemma live_reads s k :
  s ∈ live -> 0 <= k < CH r ->
  read_channel_samples r s k =
    Ok (channel_samples h (CH r) k (start_frame s)
          (Z.to_nat (end_frame s - start_frame s))).
Proof using Hinv.
  intros Hs Hk. pose proof (live_snaps _ _ _ Hinv) as Hf. rewrite list.Forall_forall in Hf.
  destruct (Hf s Hs) as [H1 H2 H3 H4 H5]. unfold read_channel_samples.
  rewrite H1. decide_cmp. by apply (chain_reads r _ _ (end_frame s)).
Qed.
End live_operations.

(** ** Systems *)

Lemma promised_cfg r r' p : cfg r' = cfg r -> promised (r := r') p = promised (r := r) p.
Proof. unfold promised. by intros ->. Qed.

(** The snapshots that hold pins: the live ones and those still to be finished. *)
Definition held (x : ring_system) : list Snapshot :=
  live x ++ map (promised (r := ring x)) (unfinished x).

Definition system_inv (x : ring_system) (h : list f32) : Prop := live_inv (ring x) h (held x).

Lemma live_inv_perm r h l l' : Permutation l l' -> live_inv r h l -> live_inv r h l'.
Proof.
  intros Hp [H1 H2 H3 H4 H5 H6]. constructor; try done.
  - by rewrite <- Hp.
  - intros i Hi. rewrite (H4 i Hi). clear -Hp. induction Hp; cbn; lia.
  - rewrite H5. clear -Hp. induction Hp; cbn; lia.
Qed.

Lemma grows_refl h l : grows h h l.
Proof. left. exists []. by rewrite app_nil_r. Qed.
#[export] Hint Resolve grows_refl : lamb.

Lemma delete_app_l {A} (l1 l2 : list A) i :
  (i < length l1)%nat -> delete i (l1 ++ l2) = delete i l1 ++ l2.
Proof.
  revert i. induction l1 as [|y l1 IH]; intros i Hi; [cbn in Hi; lia|].
  destruct i as [|i]; [done|]. cbn in Hi.
  change (y :: delete i (l1 ++ l2) = y :: delete i l1 ++ l2). f_equal. apply IH. lia.
Qed.

Section systems.
Context {x : ring_system} {h : list f32} (Hinv : system_inv x h).

Lemma map_promised r' :
  cfg r' = cfg (ring x) ->
  map (promised (r := r')) (unfinished x) = map (promised (r := ring x)) (unfinished x).
Proof using. intros Hc. apply map_ext. intros p. by apply promised_cfg. Qed.

Lemma system_with_ring r' h' :
  cfg r' = cfg (ring x) -> live_inv r' h' (held x) ->
  system_inv (mkSystem r' (unfinished x) (live x)) h'.
Proof using. intros Hc Hi. unfold system_inv, held; cbn [live unfinished ring]. by rewrite (map_promised r'). Qed.

Lemma system_keep_pinned a b res :
  pinned (r := ring x) (h := h) a b res ->
  system_inv (keep_pinned x res) h /\ cfg (ring (keep_pinned x res)) = cfg (ring x).
Proof using Hinv.
  destruct res as [r' [p|e|]]; cbn; [| intros [-> _]; by destruct x | done].
  intros Hp. assert (cfg r' = cfg (ring x)) as Hc.
  { destruct Hp as (_ & _ & _ & _ & Hs & _). symmetry. by apply strip_fields. }
  split; [|done]. apply (live_pinned Hinv) in Hp. revert Hp. apply live_inv_perm.
  unfold held; cbn [live unfinished ring map]. rewrite (map_promised r') by done.
  rewrite (promised_cfg _ _ p Hc). apply Permutation_middle.
Qed.

Lemma system_finish i p :
  unfinished x !! i = Some p ->
  finish_snapshot p (ring x) = (ring x, Ok (promised (r := ring x) p)) /\
  system_inv (mkSystem (ring x) (delete i (unfinished x)) (promised (r := ring x) p :: live x)) h.
Proof using Hinv.
  intros Hp. assert (promised (r := ring x) p ∈ held x) as Hin.
  { apply elem_of_app. right. apply list_elem_of_In, in_map, list_elem_of_In.
    by eapply list_elem_of_lookup_2. }
  pose proof (live_snaps _ _ _ Hinv) as Hf. rewrite list.Forall_forall in Hf.
  specialize (Hf _ Hin). split.
  - apply (finish_run p Hf). pose proof (snap_start _ _ _ Hf) as Hst.
    pose proof (snap_chain _ _ _ Hf) as Hch.
    cbn [promised segments start_frame end_frame] in *.
    destruct (decide (pinned_segments p = [])) as [He|Hne].
    + rewrite He in Hch. cbn in Hch. unfold u64_max. lia.
    + pose proof (chain_end _ _ _ _ _ Hst Hch Hne) as He.
      pose proof (live_ring _ _ _ Hinv) as Hr. rewrite (inv_hist _ _ Hr) in He.
      pose proof (inv_ch _ _ Hr). pose proof (inv_head _ _ Hr) as [_ ?].
      apply Z.mul_le_mono_pos_r in He; lia.
  - revert Hinv. apply live_inv_perm. unfold held; cbn [live unfinished ring].
    rewrite (delete_Permutation _ _ _ Hp) at 1. cbn [map]. symmetry. apply Permutation_middle.
Qed.

Lemma system_drop i s :
  live x !! i = Some s ->
  system_inv (mkSystem (drop_snapshot s (ring x)) (unfinished x) (delete i (live x))) h /\
  cfg (drop_snapshot s (ring x)) = cfg (ring x).
Proof using Hinv.
  intros Hs. assert (cfg (drop_snapshot s (ring x)) = cfg (ring x)) as Hc.
  { unfold drop_snapshot. transitivity (cfg (fold_left unpin (segments s) (ring x)));
      [by destruct (active_counter s)|].
    apply strip_fields. symmetry. by apply (move_strip (-1)). }
  split; [|done]. unfold system_inv, held; cbn [live unfinished ring].
  rewrite (map_promised (drop_snapshot s (ring x))) by done.
  assert (i < length (live x))%nat as Hlt by by eapply lookup_lt_Some.
  pose proof (live_drop Hinv i s) as Hd. unfold held in Hd. rewrite lookup_app_l in Hd by done.
  rewrite delete_app_l in Hd by done. auto.
Qed.

(** A step of a thread keeps the invariant. *)
Lemma system_step op :
  valid_op (ring x) op ->
  exists h', system_inv (run_op x op) h' /\ grows h h' (held x) /\
    cfg (ring (run_op x op)) = cfg (ring x).
Proof using Hinv.
  pose proof (live_ring _ _ _ Hinv) as Hr.
  destruct op as [now samples fi|n|a b|n|c|i|i| |]; cbn [valid_op run_op].
  - intros (Hl & Hm & Hfi).
    destruct (live_write_turn Hinv now samples fi Hl Hm Hfi) as (h' & Hi & Hg).
    change (CH (ring x)) with (cfg_channels (cfg (ring x))) in *.
    assert (cfg (write_turn now samples (cfg_channels (cfg (ring x)))
                   (zlen samples / cfg_channels (cfg (ring x))) fi (ring x)).1 = cfg (ring x)) as Hc.
    { pose proof (inv_ch _ _ Hr). pose proof (Z.div_mod (zlen samples) (CH (ring x)) ltac:(lia)).
      pose proof (write_turn_refines Hr now samples (zlen samples / CH (ring x)) fi
                    ltac:(unfold CH in *; lia) ltac:(lia) Hfi) as Hw.
      change (CH (ring x)) with (cfg_channels (cfg (ring x))) in *.
      destruct (write_turn _ _ _ _ _ _) as [r' [[fi'|u]|e|]]; cbn [fst]; [| | |done].
      - apply Hw. - apply Hw. - by destruct Hw as [-> _]. }
    exists h'. split_and!; [by apply system_with_ring | done | done].
  - intros Hn. assert (cfg (record_dropped_frames n (ring x)).1 = cfg (ring x)) as Hc.
    { unfold record_dropped_frames, add_dropped_frames. msteps.
      destruct (add_checked _ _); cbn [ok_or]; by msteps. }
    exists h. split_and!; [| apply grows_refl | done].
    apply system_with_ring; [done|]. by apply live_record_dropped.
  - intros _. exists h. rewrite (pin_range_run Hinv).
    destruct (system_keep_pinned a b _ (live_pin_spec Hinv a b)). auto with lamb.
  - intros _. exists h. rewrite (pin_last_frames_run Hinv).
    match goal with |- context [pin_snapshot_range ?a ?b _ _ _] =>
      destruct (system_keep_pinned a b _ (live_pin_spec Hinv a b)) end. auto with lamb.
  - intros _. exists h.
    assert ((let! (_, p) := pin_selection c in ret p) (ring x) =
      pin_snapshot_range (Z.max (selected (r := ring x) c) (OLDEST (ring x))) (HEAD (ring x))
        (HEAD (ring x)) (OLDEST (ring x)) (ring x)) as ->.
    { unfold bind at 1. rewrite (pin_selection_run Hinv). unfold bind.
      by destruct (pin_snapshot_range _ _ _ _ _) as [? []]. }
    match goal with |- context [pin_snapshot_range ?a ?b _ _ _] =>
      destruct (system_keep_pinned a b _ (live_pin_spec Hinv a b)) end. auto with lamb.
  - intros _. exists h. destruct (unfinished x !! i) as [p|] eqn:E; [|by auto with lamb].
    destruct (system_finish i p E) as [-> ?]. auto with lamb.
  - intros _. exists h. destruct (live x !! i) as [s|] eqn:E; [|by auto with lamb].
    destruct (system_drop i s E). auto with lamb.
  - intros _. exists h. split_and!; [|apply grows_refl|done].
    apply system_with_ring; [done|]. apply (live_clear Hinv).
  - intros _. destruct (live_reset Hinv) as (h' & Hi & Hg).
    assert (cfg (reset (ring x)).1 = cfg (ring x)) as Hc.
    { pose proof (reset_refines _ _ Hr) as H.
      destruct (reset (ring x)) as [r' [?|?|]]; cbn; [by apply H | by subst | done]. }
    exists h'. split_and!; [by apply system_with_ring | done | done].
Qed.
End systems.

Lemma new_live `{Platform} c r :
  is_u32 (cfg_channels c) -> is_u32 (cfg_chunk_frames c) -> is_u32 (cfg_chunk_count c) ->
  is_u32 (cfg_max_active_snapshots c) -> new c = Ok r -> live_inv r [] [].
Proof.
  intros ? ? ? Hmax Hn. apply new_refines in Hn as (Hr & Hc & _ & _ & Ha & Hp & _); [|done..].
  constructor; try done.
  - by rewrite Hc.
  - intros i _. unfold pins. destruct (zlookup (chunks r) i) eqn:E; [|done]. apply Hp.
    unfold zlookup in E. destruct (0 <=? i); [|done]. by eapply list_elem_of_lookup_2.
  - rewrite Ha, Hc. unfold is_u32 in Hmax. lia.
Qed.

(** Steps of valid operations, in the order the threads happen to run them. *)
Inductive runs : ring_system -> list ring_op -> ring_system -> Prop :=
  | runs_nil x : runs x [] x
  | runs_cons x op ops y :
      valid_op (ring x) op -> runs (run_op x op) ops y -> runs x (op :: ops) y.

Lemma runs_inv x ops y h :
  runs x ops y -> system_inv x h ->
  exists h', system_inv y h' /\ cfg (ring y) = cfg (ring x).
Proof.
  intros Hr. revert h. induction Hr as [x|x op ops y Hop _ IH]; intros h Hi; [by exists h|].
  destruct (system_step Hi op Hop) as (h1 & H1 & _ & Hc). destruct (IH h1 H1) as (h2 & H2 & Hc2).
  exists h2. split; [done|]. congruence.
Qed.
