(* ===== verification/RingTheorems.v ===== *)
(** * Theorems on the sample ring

    The properties of src/sample_ring.rs, each with an instance on a small ring:
    two channels, three chunks of two frames, one snapshot at a time. *)
From S2P Require Import Prelude.
From S2P Require Import Errors.
From S2P Require Import MemoryPlan.
From S2P Require Import SampleRing.
From S2P Require Import RingSpec.
From S2P Require Import RingSnapshots.

(** ** A concrete ring *)

#[local] Instance test_platform : Platform :=
  { sysconf_page_size := 4096; can_allocate := fun _ => true;
    size_of_current_artifact_slot := 88 }.

Definition test_config : RingConfig := mkRingConfig 2 48000 F32Le 2 3 1.
Definition test_sample (n : positive) : f32 := S754_finite false n 0.
(** Frame [n] holds the samples [2 n + 1] and [2 n + 2]. *)
Fixpoint test_frames (from : positive) (n : nat) : list f32 :=
  match n with
  | O => []
  | S n' => test_sample from :: test_sample (from + 1) :: test_frames (from + 2) n'
  end.

Definition empty_ring : SampleRing :=
  Eval vm_compute in match new test_config with
                     | Ok r => r
                     | _ => mkRing test_config [] 0 0 0 0 0 0 None 0 0 false false
                     end.
Definition test_ring : SampleRing :=
  Eval vm_compute in (write_interleaved 7 (test_frames 1 7) 2 empty_ring).1.

Lemma empty_ring_new : new test_config = Ok empty_ring.
Proof. vm_compute. reflexivity. Qed.

Lemma empty_ring_inv : ring_inv empty_ring [].
Proof. eapply new_refines, empty_ring_new; unfold is_u32, u32_max; cbn; lia. Qed.

Lemma test_ring_inv : ring_inv test_ring (test_frames 1 7).
Proof.
  destruct (write_refines empty_ring [] 7 (test_frames 1 7) 7 empty_ring_inv) as
    (r' & o & k & Hw & Hk & _ & Hi & Ho); [done | unfold zlen; cbn; lia |].
  assert (write_interleaved 7 (test_frames 1 7) 2 empty_ring = (test_ring, Ok tt)) as Hrun
    by (vm_compute; reflexivity).
  change (CH empty_ring) with 2 in Hw. rewrite Hrun in Hw.
  apply pair_equal_spec in Hw as [<- <-].
  destruct Ho as [Hd _]. change (dropped_frames test_ring) with 0 in Hd.
  change (dropped_frames empty_ring) with 0 in Hd. assert (k = 7) as -> by lia. exact Hi.
Qed.

Lemma test_live_inv : live_inv test_ring (test_frames 1 7) [].
Proof.
  constructor; try done; [apply test_ring_inv |].
  intros i Hi. assert (i = 0 \/ i = 1 \/ i = 2) as [-> | [-> | ->]]
    by (change (NC test_ring) with 3 in Hi; lia); done.
Qed.

(** ** The theorems *)






Definition initial (r : SampleRing) : ring_system := mkSystem r [] [].

(** Pinning and finishing in one go. *)
Lemma pin_finish {r h live} (Hi : live_inv r h live) a b r' p :
  pinned (r := r) (h := h) a b (r', Ok p) ->
  finish_snapshot p r' = (r', Ok (promised (r := r) p)) /\
  live_inv r' h (promised (r := r) p :: live) /\ CH r' = CH r.
Proof.
  intros Ht. pose proof (live_pinned Hi a b r' p Ht) as Hi'.
  destruct Ht as (Hr & Hb & Hs & He & Hst & Hok & _).
  assert (cfg r' = cfg r) as Hc by (symmetry; by apply strip_fields).
  pose proof (inv_head _ _ (live_ring _ _ _ Hi)) as [_ Hh].
  pose proof (oldest_le_head (live_ring _ _ _ Hi)).
  split_and!; [| done | unfold CH; congruence].
  rewrite <- (promised_cfg r r' p Hc) in *. apply (finish_run p Hok). rewrite Hs, He. lia.
Qed.

Section ring_theorems.
Context `{Platform}.

Definition u32_config (c : RingConfig) : Prop :=
  is_u32 (cfg_channels c) /\ is_u32 (cfg_chunk_frames c) /\ is_u32 (cfg_chunk_count c) /\
  is_u32 (cfg_max_active_snapshots c).

Lemma initial_inv c r : u32_config c -> new c = Ok r -> system_inv (initial r) [].
Proof. intros (? & ? & ? & ?) Hn. by apply (new_live c). Qed.


(** A snapshot taken while threads interleave holds the history: whenever a
    pinned range is finished it succeeds, without a lock, and each channel read
    from it is the channel of the accepted samples of exactly that range. *)
Theorem ring_finish_succeeds c r ops x i p :
  u32_config c -> new c = Ok r -> runs (initial r) ops x -> unfinished x !! i = Some p ->
  exists s h, finish_snapshot p (ring x) = (ring x, Ok s) /\ ring_inv (ring x) h /\
    start_frame s = range_start p /\ end_frame s = range_end p /\
    total_frames s = range_end p - range_start p /\
    forall k, 0 <= k < CH (ring x) ->
      read_channel_samples (ring x) s k =
        Ok (channel_samples h (CH (ring x)) k (range_start p)
              (Z.to_nat (range_end p - range_start p))).
Proof.
  intros Hc Hn Hr Hp. destruct (runs_inv _ _ _ _ Hr (initial_inv c r Hc Hn)) as (h & Hi & _).
  destruct (system_finish Hi i p Hp) as [Hf Hi'].
  exists (promised (r := ring x) p), h. split_and!; try done; [apply Hi|].
  intros k Hk. apply (live_reads Hi' (promised p) k); [|done]. by left.
Qed.

(** An uninterrupted range snapshot is refused, with the ring unchanged,
    exactly when the range is not retained or every slot is taken; otherwise
    it reads the history of its range: a retained range never has a hole. *)
Theorem ring_snapshot_exact r h live a b :
  live_inv r h live ->
  match snapshot_range a b r with
  | (r', Ok s) =>
      start_frame s = a /\ end_frame s = b /\ total_frames s = b - a /\
      OLDEST r <= a <= b /\ b <= HEAD r /\
      forall k, 0 <= k < CH r ->
        read_channel_samples r' s k =
          Ok (channel_samples h (CH r) k a (Z.to_nat (b - a)))
  | (r', Err _) =>
      r' = r /\ ~ (OLDEST r <= a <= b /\ b <= HEAD r /\
                   (a = b \/ active_snapshots r < cfg_max_active_snapshots (cfg r)))
  | (_, Panic) => False
  end.
Proof.
  intros Hi. pose proof (live_pin_spec Hi a b) as Ht.
  unfold snapshot_range, bind. rewrite (pin_range_run Hi).
  destruct (pin_snapshot_range a b (HEAD r) (OLDEST r) r) as [r' [p|e|]]; [|exact Ht|exact Ht].
  destruct (pin_finish Hi a b r' p Ht) as (-> & Hi' & Hch).
  destruct Ht as (Hr & Hb & Hs & He & _). cbn [promised start_frame end_frame total_frames].
  rewrite Hs, He. split_and!; try done; try lia.
  intros k Hk. rewrite (live_reads Hi' (promised p) k); [|by left|by rewrite Hch].
  cbn [promised start_frame end_frame]. by rewrite Hch, Hs, He.
Qed.

(** The last-frames snapshot covers the frames asked for, or all the
    retained ones when fewer are; it fails only for want of a slot. *)
Theorem ring_last_frames r h live n :
  live_inv r h live -> 0 <= n ->
  match snapshot_last_frames n r with
  | (r', Ok s) =>
      end_frame s = HEAD r /\ total_frames s = Z.min n (HEAD r - OLDEST r) /\
      forall k, 0 <= k < CH r ->
        read_channel_samples r' s k =
          Ok (channel_samples h (CH r) k (HEAD r - total_frames s)
                (Z.to_nat (total_frames s)))
  | (r', Err _) => r' = r /\ active_snapshots r = cfg_max_active_snapshots (cfg r) /\
      0 < Z.min n (HEAD r - OLDEST r)
  | (_, Panic) => False
  end.
Proof.
  intros Hi Hn. pose proof (live_ring _ _ _ Hi) as Hr.
  pose proof (oldest_le_head Hr). pose proof (live_bound _ _ _ Hi).
  unfold snapshot_last_frames, bind. rewrite (pin_last_frames_run Hi).
  set (a := Z.max _ _). assert (HEAD r - a = Z.min n (HEAD r - OLDEST r)) as Ha
    by (unfold a, saturating_sub; lia).
  pose proof (live_pin_spec Hi a (HEAD r)) as Ht.
  destruct (pin_snapshot_range a (HEAD r) (HEAD r) (OLDEST r) r) as [r' [p|e|]]; [| | exact Ht].
  - destruct (pin_finish Hi a (HEAD r) r' p Ht) as (-> & Hi' & Hch).
    destruct Ht as (_ & _ & Hs & He & _). cbn [promised end_frame total_frames].
    rewrite Hs, He, Ha. split_and!; try done.
    intros k Hk. rewrite (live_reads Hi' (promised p) k); [|by left|by rewrite Hch].
    cbn [promised start_frame end_frame]. rewrite Hch, Hs, He, Ha. do 2 f_equal. lia.
  - destruct Ht as [-> Hno]. split; [done|]. unfold a, saturating_sub in *. lia.
Qed.

(** C28. A write appends a whole-frame prefix of its input to the history and
    counts the rest as dropped. The prefix is the whole input unless a snapshot
    pins the chunk to be written next or a counter is exhausted. *)
Theorem ring_write_appends r h now samples total :
  ring_inv r h -> zlen samples = total * CH r -> zlen samples <= 2 ^ 61 ->
  exists r' o k, write_interleaved now samples (CH r) r = (r', o) /\ 0 <= k <= total /\
    ring_inv r' (h ++ segment samples 0 (k * CH r)) /\ HEAD r' = HEAD r + k /\
    map pin_count (chunks r') = map pin_count (chunks r) /\
    match o with
    | Ok _ => dropped_frames r' = dropped_frames r + (total - k) /\ (k < total -> write_pinned r')
    | Err _ => dropped_frames r' = dropped_frames r /\ k < total /\ exhausted r' (total - k)
    | Panic => False
    end.
Proof.
  intros Hi Ht Hl. destruct (write_refines r h now samples total Hi Ht ltac:(lia))
    as (r' & o & k & Hw & Hk & Hsp & Hi' & Ho).
  exists r', o, k. split_and!; try done; try lia; [|apply Hsp].
  pose proof (inv_hist _ _ Hi') as Hh. pose proof (inv_hist _ _ Hi). pose proof (inv_ch _ _ Hi).
  assert (CH r' = CH r) as Hch by (unfold CH; by rewrite (pins_cfg _ _ Hsp)).
  assert (k * CH r <= total * CH r) by (apply Z.mul_le_mono_nonneg_r; lia).
  rewrite zlen_app, zlen_segment, Hch in Hh by (try lia; apply Z.mul_nonneg_nonneg; lia).
  apply (Z.mul_cancel_r _ _ (CH r)); lia.
Qed.

(** Pins are exact: after any steps from a new ring, the pin count of a chunk
    is the number of segments of live and unfinished snapshots that name it,
    the active counter is the number of those that hold a slot, and it never
    exceeds the configured maximum. *)
Theorem ring_pins_exact c r ops x :
  u32_config c -> new c = Ok r -> runs (initial r) ops x ->
  (forall i, 0 <= i < NC (ring x) -> pins (ring x) i = live_refs i (held x)) /\
  active_snapshots (ring x) = live_active (held x) /\
  live_active (held x) <= cfg_max_active_snapshots c.
Proof.
  intros Hc Hn Hr. destruct (runs_inv _ _ _ _ Hr (initial_inv c r Hc Hn)) as (h & Hi & Hcfg).
  destruct Hc as (? & ? & ? & ?). apply new_refines in Hn as (_ & Hcr & _); [|done..].
  split_and!; [apply Hi | apply Hi |]. rewrite <- (live_count _ _ _ Hi).
  pose proof (live_bound _ _ _ Hi) as Hb. rewrite Hcfg in Hb. cbn [ring initial] in Hb.
  by rewrite Hcr in Hb.
Qed.

(** A copy of a retained range fills the destination with the history from
    the start of the range on, as many whole frames as both hold, and leaves
    the rest of the destination alone. *)
Theorem ring_copy_exact r h a b dst :
  ring_inv r h -> OLDEST r <= a <= b -> b <= HEAD r -> zlen dst mod CH r = 0 ->
  a + zlen dst / CH r <= u64_max -> zlen dst <= 2 ^ 61 ->
  let n := Z.min (b - a) (zlen dst / CH r) in
  copy_interleaved_range_into r a b dst =
    (segment h (a * CH r) (n * CH r) ++ drop (Z.to_nat (n * CH r)) dst, Ok n).
Proof.
  intros Hi Hr Hb Hd Hcap Hl n.
  rewrite (copy_range_refines r h a b dst Hi Hr Hb Hd) by (unfold u64_max in *; lia). done.
Qed.

(** What is retained: everything since the last clear while the ring has
    room, and always all but less than one chunk of the capacity. *)
Theorem ring_retention r h :
  ring_inv r h ->
  exists st, status r = Ok st /\
    status_retained_frames st = HEAD r - OLDEST r /\
    0 <= status_retained_frames st <= status_capacity_frames st /\
    (clear_after_frame r = 0 ->
     Z.min (HEAD r) (status_capacity_frames st - CF r + 1) <= status_retained_frames st) /\
    (clear_after_frame r = HEAD r -> status_retained_frames st = 0).
Proof.
  intros Hi. pose proof (oldest_le_head Hi). pose proof (inv_cf _ _ Hi).
  pose proof (inv_nc _ _ Hi).
  assert (NC r * CF r <= u64_max) as Hcap by (unfold u32_max, u64_max in *; nia). pose proof (blocks_bound Hi). pose proof (inv_head _ _ Hi) as [? _].
  pose proof (blocks_nonneg Hi).
  assert (wrap64 (cfg_chunk_frames (cfg r) * cfg_chunk_count (cfg r)) = NC r * CF r) as Hw.
  { rewrite <- (inv_count _ _ Hi). fold (CF r). rewrite wrap64_small by (unfold is_u64; nia). lia. }
  unfold status, write_head_frame. fold (HEAD r). rewrite (oldest_frame_at_spec Hi). cbn [obind].
  eexists. split; [done|]. cbn [status_retained_frames status_capacity_frames]. rewrite Hw.
  assert (saturating_sub (HEAD r) (OLDEST r) = HEAD r - OLDEST r) as -> by (unfold saturating_sub; lia).
  unfold OLDEST, FIRST_BLOCK in *. split_and!; [done | lia | | intros -> | intros ->]; nia.
Qed.

(** A reset empties the ring exactly when no snapshot is alive; otherwise,
    and when a lock is poisoned, it fails and changes nothing. *)
Theorem ring_reset_gate r h live :
  live_inv r h live ->
  match reset r with
  | (r', Ok _) => ring_inv r' [] /\ HEAD r' = 0 /\ dropped_frames r' = 0 /\ live_active live = 0
  | (r', Err _) => r' = r /\ (live_active live <> 0 \/ overrun_lock_poisoned r = true)
  | (_, Panic) => False
  end.
Proof.
  intros Hi. pose proof (reset_refines r h (live_ring _ _ _ Hi)) as Hr.
  destruct (reset r) as [r' [?|e|]] eqn:E; [| |done].
  - destruct Hr as (? & ? & ? & _ & Ha & _). rewrite (live_count _ _ _ Hi) in Ha. done.
  - split; [done|]. subst r'. unfold reset in E. rewrite bind_get in E. cbv beta in E.
    rewrite (inv_locks _ _ (live_ring _ _ _ Hi)), bind_fail_if_false in E. cbv beta in E.
    destruct (overrun_lock_poisoned r); [by right|]. left.
    rewrite bind_fail_if_false in E. cbv beta in E. rewrite <- (live_count _ _ _ Hi).
    intros H0. rewrite H0 in E. cbn [Z.eqb negb orb] in E.
    destruct (existsb (fun c => negb (pin_count c =? 0)) (chunks r)) eqn:E1.
    { apply existsb_exists in E1 as (c & Hc & Hp). apply list_elem_of_In in Hc.
      apply list_elem_of_lookup in Hc as [i Hci].
      pose proof (live_pins_bound Hi (Z.of_nat i)) as Hb. rewrite H0 in Hb.
      unfold pins, zlookup in Hb. rewrite Nat2Z.id, Hci in Hb.
      assert ((0 <=? Z.of_nat i) = true) as Hz by (apply Z.leb_le; lia). rewrite Hz in Hb.
      to_prop. lia. }
    rewrite bind_fail_if_false in E. cbv beta in E.
    destruct (existsb (is_state Writing) (chunks r)) eqn:E2; [|done].
    apply existsb_exists in E2 as (c & Hc & Hp). apply list_elem_of_In in Hc.
    apply list_elem_of_lookup in Hc as [i Hci]. apply is_state_spec in Hp.
    destruct (inv_chunks _ _ (live_ring _ _ _ Hi) (Z.of_nat i) c) as (_ & _ & _ & Hw & _); [|done].
    unfold zlookup. rewrite Nat2Z.id. by rewrite (proj2 (Z.leb_le 0 _)) by lia.
Qed.
End ring_theorems.

(** ** Instances *)

Lemma test_config_u32 : u32_config test_config.
Proof. unfold u32_config, is_u32, u32_max; cbn. lia. Qed.

(** Two turns of one write, a pinned range, and its snapshot. *)
Definition test_before : list ring_op :=
  [WriteTurn 7 (test_frames 1 5) 0; WriteTurn 7 (test_frames 1 5) 2;
   WriteTurn 7 (test_frames 1 5) 4; PinLastFrames 3; FinishSnapshot 0].
Definition test_after : list ring_op :=
  [WriteTurn 8 (test_frames 30 6) 0; Clear; Reset; PinRange 5 6; RecordDropped 3].
Definition test_snapshot : Snapshot :=
  mkSnapshot [mkSegment 1 2 0 2; mkSegment 2 3 0 1] 2 5 2 48000 F32Le 3 true.
Definition test_system : ring_system :=
  Eval vm_compute in fold_left run_op test_before (initial empty_ring).
Definition test_unfinished : ring_system :=
  Eval vm_compute in fold_left run_op (take 4 test_before) (initial empty_ring).
Definition test_later : ring_system :=
  Eval vm_compute in fold_left run_op test_after test_system.

Ltac run_steps :=
  repeat (eapply runs_cons;
    [split_and?; vm_compute; first [done | by split] |
     match goal with |- runs ?x _ _ =>
       let y := eval vm_compute in x in change_no_check x with y end]);
  apply runs_nil.

Lemma test_unfinished_runs : runs (initial empty_ring) (take 4 test_before) test_unfinished.
Proof. run_steps. Qed.


Lemma ring_finish_succeeds_witness :
  exists s h, finish_snapshot (mkPinned 2 5 (segments test_snapshot) true) (ring test_unfinished) =
      (ring test_unfinished, Ok s) /\ ring_inv (ring test_unfinished) h /\
    start_frame s = 2 /\ end_frame s = 5 /\ total_frames s = 5 - 2 /\
    forall k, 0 <= k < CH (ring test_unfinished) ->
      read_channel_samples (ring test_unfinished) s k =
        Ok (channel_samples h (CH (ring test_unfinished)) k 2 (Z.to_nat (5 - 2))).
Proof.
  apply (ring_finish_succeeds test_config empty_ring (take 4 test_before) test_unfinished 0).
  - exact test_config_u32.
  - exact empty_ring_new.
  - exact test_unfinished_runs.
  - reflexivity.
Defined.

Lemma ring_snapshot_exact_witness :
  match snapshot_range 3 6 test_ring with
  | (r', Ok s) =>
      start_frame s = 3 /\ end_frame s = 6 /\ total_frames s = 6 - 3 /\
      OLDEST test_ring <= 3 <= 6 /\ 6 <= HEAD test_ring /\
      forall k, 0 <= k < CH test_ring ->
        read_channel_samples r' s k =
          Ok (channel_samples (test_frames 1 7) (CH test_ring) k 3 (Z.to_nat (6 - 3)))
  | (r', Err _) =>
      r' = test_ring /\ ~ (OLDEST test_ring <= 3 <= 6 /\ 6 <= HEAD test_ring /\
        (3 = 6 \/ active_snapshots test_ring < cfg_max_active_snapshots (cfg test_ring)))
  | (_, Panic) => False
  end.
Proof. exact (ring_snapshot_exact test_ring _ [] 3 6 test_live_inv). Defined.

Lemma ring_last_frames_witness :
  match snapshot_last_frames 4 test_ring with
  | (r', Ok s) =>
      end_frame s = HEAD test_ring /\
      total_frames s = Z.min 4 (HEAD test_ring - OLDEST test_ring) /\
      forall k, 0 <= k < CH test_ring ->
        read_channel_samples r' s k =
          Ok (channel_samples (test_frames 1 7) (CH test_ring) k
                (HEAD test_ring - total_frames s) (Z.to_nat (total_frames s)))
  | (r', Err _) => r' = test_ring /\
      active_snapshots test_ring = cfg_max_active_snapshots (cfg test_ring) /\
      0 < Z.min 4 (HEAD test_ring - OLDEST test_ring)
  | (_, Panic) => False
  end.
Proof. apply (ring_last_frames test_ring _ [] 4 test_live_inv). lia. Defined.

Lemma ring_write_appends_witness :
  exists r' o k, write_interleaved 9 (test_frames 40 3) (CH test_ring) test_ring = (r', o) /\
    0 <= k <= 3 /\
    ring_inv r' (test_frames 1 7 ++ segment (test_frames 40 3) 0 (k * CH test_ring)) /\
    HEAD r' = HEAD test_ring + k /\
    map pin_count (chunks r') = map pin_count (chunks test_ring) /\
    match o with
    | Ok _ => dropped_frames r' = dropped_frames test_ring + (3 - k) /\ (k < 3 -> write_pinned r')
    | Err _ => dropped_frames r' = dropped_frames test_ring /\ k < 3 /\ exhausted r' (3 - k)
    | Panic => False
    end.
Proof.
  apply (ring_write_appends test_ring (test_frames 1 7) 9 (test_frames 40 3) 3).
  - exact test_ring_inv.
  - reflexivity.
  - vm_compute. discriminate.
Defined.

Lemma ring_pins_exact_witness :
  (forall i, 0 <= i < NC (ring test_later) -> pins (ring test_later) i = live_refs i (held test_later)) /\
  active_snapshots (ring test_later) = live_active (held test_later) /\
  live_active (held test_later) <= cfg_max_active_snapshots test_config.
Proof.
  apply (ring_pins_exact test_config empty_ring (test_before ++ test_after)).
  - exact test_config_u32.
  - exact empty_ring_new.
  - run_steps.
Defined.

Lemma ring_copy_exact_witness :
  let dst := replicate 8 f32_zero in
  let n := Z.min (6 - 3) (zlen dst / CH test_ring) in
  copy_interleaved_range_into test_ring 3 6 dst =
    (segment (test_frames 1 7) (3 * CH test_ring) (n * CH test_ring) ++
       drop (Z.to_nat (n * CH test_ring)) dst, Ok n).
Proof.
  apply (ring_copy_exact test_ring (test_frames 1 7) 3 6 (replicate 8 f32_zero)).
  - exact test_ring_inv.
  - split; vm_compute; discriminate.
  - vm_compute. discriminate.
  - reflexivity.
  - vm_compute. discriminate.
  - vm_compute. discriminate.
Defined.

Lemma ring_retention_witness :
  exists st, status test_ring = Ok st /\
    status_retained_frames st = HEAD test_ring - OLDEST test_ring /\
    0 <= status_retained_frames st <= status_capacity_frames st /\
    (clear_after_frame test_ring = 0 ->
     Z.min (HEAD test_ring) (status_capacity_frames st - CF test_ring + 1) <=
       status_retained_frames st) /\
    (clear_after_frame test_ring = HEAD test_ring -> status_retained_frames st = 0).
Proof. exact (ring_retention test_ring _ test_ring_inv). Defined.

Lemma ring_reset_gate_witness :
  match reset test_ring with
  | (r', Ok _) => ring_inv r' [] /\ HEAD r' = 0 /\ dropped_frames r' = 0 /\ live_active [] = 0
  | (r', Err _) => r' = test_ring /\
      (live_active [] <> 0 \/ overrun_lock_poisoned test_ring = true)
  | (_, Panic) => False
  end.
Proof. exact (ring_reset_gate test_ring _ [] test_live_inv). Defined.
