(* ===== verification/CaptureRuntime.v ===== *)
(** * Building the capture runtime (src/capture_runtime.rs)

    From the parameters of a session to the memory plan and the geometry of the
    capture rings. The arena and the workspace that [build] allocates from the
    plan have files of their own. *)
From S2P Require Import Prelude.
From S2P Require Import Errors.
From S2P Require Import WavMath.
From S2P Require Import MemoryPlan.
From S2P Require Import SampleRing.
From S2P Require Import RingSpec.

Record CaptureRuntimeParams := mkParams {
  seconds : Z;
  chunk_frames_override : option Z;
  memory_max : option Z;
  headroom : f64;
  p_split_when_over_bytes : Z;
  p_io_buffer_bytes_per_channel : Z;
  p_maximum_path_bytes : Z;
  maximum_calibration_seconds : Z;
  p_capture_queue_slots : Z;
  p_capture_worker_stack_bytes : Z;
  control_queue_capacity : Z;
  worker_stack_bytes : Z;
}.

Definition DEFAULT_CAPTURE_QUEUE_SLOTS : Z := 64.
Definition DEFAULT_CONTROL_QUEUE_CAPACITY : Z := 16.
Definition DEFAULT_WORKER_STACK_BYTES : Z := 512 * 1024.
Definition DEFAULT_CAPTURE_WORKER_STACK_BYTES : Z := 512 * 1024.
Definition DEFAULT_IO_BUFFER_BYTES_PER_CHANNEL : Z := 64 * 1024.
Definition DEFAULT_MAXIMUM_PATH_BYTES : Z := 4096.

Record PlannedCaptureRuntime := mkPlanned {
  plan : SessionMemoryPlan;
  planned_retention_frames : Z;
  planned_chunk_frames : Z;
  planned_chunk_count : Z;
}.

Section runtime.
Context `{Platform}.

Definition plan_inputs (params : CaptureRuntimeParams) (sample_rate channels retention frames : Z)
    : SessionMemoryInputs :=
  {| in_retention_frames := retention;
     in_channels := channels;
     in_sample_rate := sample_rate;
     in_sample_format := F32Le;
     in_chunk_frames := frames;
     in_max_active_snapshots := 1;
     in_sample_bytes := 4;
     in_split_when_over_bytes := p_split_when_over_bytes params;
     in_control_queue_capacity := control_queue_capacity params;
     in_worker_stack_bytes := worker_stack_bytes params;
     in_capture_queue_slots := p_capture_queue_slots params;
     in_capture_slot_frames := frames;
     in_capture_worker_stack_bytes := p_capture_worker_stack_bytes params;
     in_io_buffer_bytes_per_channel := p_io_buffer_bytes_per_channel params;
     in_maximum_path_bytes := p_maximum_path_bytes params;
     in_maximum_calibration_seconds := maximum_calibration_seconds params;
     in_headroom := headroom params |}.

Definition plan_runtime (params : CaptureRuntimeParams) (sample_rate channels : Z)
    : Result PlannedCaptureRuntime :=
  let? retention := ok_or (mul_checked (seconds params) sample_rate)
                      (Validation "retention frame count overflow") in
  let? frames := derive_chunk_frames sample_rate (chunk_frames_override params) in
  let count := Z.max (div_ceil retention frames) 1 in
  let? chunk_count := ok_or (checked u32_max count) (Validation "chunk count exceeds u32") in
  let? plan := calculate (plan_inputs params sample_rate channels retention frames) in
  let? _ := validate_max plan (memory_max params) in
  Ok (mkPlanned plan retention frames chunk_count).

Definition validate_plan (params : CaptureRuntimeParams) (sample_rate channels : Z)
    : Result unit :=
  omap (fun _ => tt) (plan_runtime params sample_rate channels).

(** The configuration of each of the arena's two rings in [CaptureRuntime::build]. *)
Definition runtime_ring_config (planned : PlannedCaptureRuntime) (sample_rate channels : Z)
    : RingConfig :=
  {| cfg_channels := channels;
     cfg_sample_rate := sample_rate;
     cfg_format := F32Le;
     cfg_chunk_frames := planned_chunk_frames planned;
     cfg_chunk_count := planned_chunk_count planned;
     cfg_max_active_snapshots := 1 |}.
End runtime.

Section runtime_theorems.
Context `{Platform}.

Lemma derive_chunk_frames_pos rate requested f :
  is_u32 rate -> (forall x, requested = Some x -> is_u32 x) ->
  derive_chunk_frames rate requested = Ok f -> 0 < f <= u32_max.
Proof.
  unfold derive_chunk_frames, is_u32. intros Hr Hx. destruct (rate =? 0); [done|].
  destruct requested as [x|].
  - specialize (Hx x eq_refl). destruct (x =? 0) eqn:E; [done|]. to_prop. intros [= <-]. lia.
  - intros [= <-]. unfold wrap32, wrap64, u32_max in *.
    rewrite (Z.mod_small (rate * 250)) by lia.
    assert (0 <= rate * 250 / 1000 <= 2 ^ 32 - 1).
    { split; [apply Z.div_pos; lia | apply Z.div_le_upper_bound; lia]. }
    rewrite Z.mod_small; lia.
Qed.

Lemma plan_runtime_Ok params rate ch p :
  plan_runtime params rate ch = Ok p ->
  planned_retention_frames p = seconds params * rate /\
  is_u64 (planned_retention_frames p) /\
  derive_chunk_frames rate (chunk_frames_override params) = Ok (planned_chunk_frames p) /\
  planned_chunk_count p =
    Z.max (div_ceil (planned_retention_frames p) (planned_chunk_frames p)) 1 /\
  is_u32 (planned_chunk_count p) /\
  calculate (plan_inputs params rate ch (planned_retention_frames p) (planned_chunk_frames p)) =
    Ok (plan p) /\
  validate_max (plan p) (memory_max params) = Ok tt.
Proof.
  unfold plan_runtime. intros Hp. ok_steps. subst p. cbn.
  apply mul_checked_inv in Hx as [-> ?]. apply checked_Some in Hx1 as [-> ?].
  destruct x3. done.
Qed.

(** The rings of a built runtime hold the whole recording asked for with
    less than a chunk to spare, their geometry is that of the plan, the plan
    accounts for the bytes both rings allocate, and the plan's requirement is
    within the configured maximum. *)
Theorem runtime_ring_as_planned params rate ch p r :
  is_u32 rate -> is_u32 ch -> (forall x, chunk_frames_override params = Some x -> is_u32 x) ->
  plan_runtime params rate ch = Ok p ->
  new (runtime_ring_config p rate ch) = Ok r ->
  seconds params * rate <= NC r * CF r < seconds params * rate + CF r /\
  NC r = chunk_count (plan p) /\ CF r = chunk_frames (plan p) /\ CH r = channels (plan p) /\
  component (plan p) "ring_samples" =
    Some (mkComponent "ring_samples" (2 * allocated_sample_bytes r)) /\
  (forall limit, memory_max params = Some limit -> required_with_headroom (plan p) <= limit).
Proof.
  intros Hrate Hch Hov Hp Hn.
  apply plan_runtime_Ok in Hp as (Hret & Hru & Hcf & Hcount & Hcu & Hplan & Hmax).
  apply derive_chunk_frames_pos in Hcf; [|done..].
  pose proof Hn as Hn'.
  apply new_refines in Hn' as (Hinv & Hcfg & _ & _ & _ & _ & Hbytes);
    [|done | unfold is_u32; cbn; lia | done].
  pose proof Hplan as Hv. apply calculate_Ok in Hplan as
    (rb & q & c & w & o & m & u & Hval & Hrb & Hcomp & Hcc & Ha & Hrf & Hpc & Hpch & _).
  pose proof (validate_inputs_Ok _ Hval) as (_ & _ & _ & Hsb & _).
  pose proof (validate_inputs_retention _ Hval) as Hpos. cbn in Hpos.
  apply ring_budget_Ok in Hrb as (Hrc & _ & Haf & Hrs); [|cbn; lia].
  cbn [in_retention_frames in_chunk_frames in_channels in_sample_bytes plan_inputs] in *.
  assert (CF r = planned_chunk_frames p) as E1 by (unfold CF; by rewrite Hcfg).
  assert (CH r = ch) as E2 by (unfold CH; by rewrite Hcfg).
  assert (NC r = planned_chunk_count p) as E3 by (rewrite (inv_count _ _ Hinv); by rewrite Hcfg).
  pose proof (div_ceil_spec (planned_retention_frames p) (planned_chunk_frames p) ltac:(lia)) as Hd.
  assert (0 < planned_retention_frames p) as Hrpos.
  { unfold is_u64 in Hru. lia. }
  assert (NC r = rb_chunk_count rb) as E4 by (rewrite E3, Hcount, Hrc; nia).
  split_and!; try congruence.
  - rewrite E1, E4, Hrc, <- Hret. nia.
  - rewrite E1, E4, Hrc, <- Hret. nia.
  - unfold component. rewrite Hcomp. cbn. do 2 f_equal.
    rewrite Hrs, Hsb, Haf, <- E4, <- E1, <- E2, Hbytes. unfold RING_COUNT, size_of_f32. lia.
  - intros limit Hl. unfold validate_max in Hmax. rewrite Hl in Hmax.
    destruct (limit <? _) eqn:E; [done|]. to_prop. lia.
Qed.
End runtime_theorems.

#[local] Instance sample_platform : Platform :=
  { sysconf_page_size := 4096; can_allocate := fun _ => true;
    size_of_current_artifact_slot := 88 }.

(** One second at 10 Hz in chunks of three frames: four chunks a ring. *)
Definition sample_params : CaptureRuntimeParams := {|
  seconds := 1; chunk_frames_override := Some 3; memory_max := Some 100000000;
  headroom := S754_finite false 6755399441055744 (-52);
  p_split_when_over_bytes := 1000000; p_io_buffer_bytes_per_channel := 4096;
  p_maximum_path_bytes := 512; maximum_calibration_seconds := 0; p_capture_queue_slots := 8;
  p_capture_worker_stack_bytes := 262144; control_queue_capacity := 2;
  worker_stack_bytes := 65536 |}.

Definition sample_planned : PlannedCaptureRuntime :=
  Eval vm_compute in match plan_runtime sample_params 10 2 with
                     | Ok p => p
                     | _ => mkPlanned (mkPlan [] 0 0 0 0 0 0 F32Le 0 0 0 0 0 0 0 0 0 0 0 0 0 0 0 0 0 0 0 0) 0 0 0
                     end.

Definition sample_ring : SampleRing :=
  Eval vm_compute in match new (runtime_ring_config sample_planned 10 2) with
                     | Ok r => r
                     | _ => mkRing (runtime_ring_config sample_planned 10 2) [] 0 0 0 0 0 0 None 0 0 false false
                     end.

Lemma runtime_ring_as_planned_witness :
  seconds sample_params * 10 <= NC sample_ring * CF sample_ring <
    seconds sample_params * 10 + CF sample_ring /\
  NC sample_ring = chunk_count (plan sample_planned) /\
  CF sample_ring = chunk_frames (plan sample_planned) /\
  CH sample_ring = channels (plan sample_planned) /\
  component (plan sample_planned) "ring_samples" =
    Some (mkComponent "ring_samples" (2 * allocated_sample_bytes sample_ring)) /\
  (forall limit, memory_max sample_params = Some limit ->
    required_with_headroom (plan sample_planned) <= limit).
Proof.
  apply (runtime_ring_as_planned sample_params 10 2).
  - split; vm_compute; discriminate.
  - split; vm_compute; discriminate.
  - intros x [= <-]. split; vm_compute; discriminate.
  - vm_compute. reflexivity.
  - vm_compute. reflexivity.
Defined.
