(* ===== verification/IngressQueue.v ===== *)
(** * The capture ingress queue (IngressQueue in src/capture_arena.rs)

    A bounded queue of preallocated slots between the realtime producer and the
    worker. One turn of the producer's loop is three atomic steps, [reserve],
    [fill] and [publish]; taking a slot is [peek_next], the reading of its
    buffer, and [advance]. The sequential operations are their compositions; the
    concurrent system interleaves them. *)
From S2P Require Import Prelude.
From S2P Require Import Errors.
From S2P Require Import MemoryPlan.

Definition PRODUCER_OPEN : Z := 2 ^ 63.
Definition PRODUCER_COUNT_MASK : Z := PRODUCER_OPEN - 1.

Record CapturePushOutcome := mkPushOutcome {
  out_enqueued_frames : Z;
  out_dropped_frames : Z;
  out_published_sequence : Z;
}.

Record IngressSlot := mkIngressSlot { frames : Z; samples : list f32 }.
#[export] Instance eta_IngressSlot : Eta IngressSlot := fun s => mkIngressSlot (frames s) (samples s).

Record IngressQueue := mkQueue {
  slots : list IngressSlot;
  channels : Z;
  slot_frames : Z;
  published_sequence : Z;
  consumed_sequence : Z;
  enqueued_frames : Z;
  dropped_frames : Z;
  cumulative_dropped_frames : Z;
  drop_counter_exhausted : bool;
  producer_admission : Z;
  producer_generation : Z;
  producer_generation_exhausted : bool;
}.
#[export] Instance eta_IngressQueue : Eta IngressQueue := fun q =>
  mkQueue (slots q) (channels q) (slot_frames q) (published_sequence q) (consumed_sequence q)
    (enqueued_frames q) (dropped_frames q) (cumulative_dropped_frames q)
    (drop_counter_exhausted q) (producer_admission q) (producer_generation q)
    (producer_generation_exhausted q).

Abbreviation QM := (M IngressQueue LambError).

Section construction.
Context `{Platform}.

Definition build_slot (samples_per_slot : Z) (_ : Z) : M unit LambError IngressSlot :=
  let! buffer := lift (new_zeroed samples_per_slot) in
  ret (mkIngressSlot 0 buffer).

(** [IngressSlot] is a [u32] and a buffer of three words: 32 bytes. *)
Definition size_of_ingress_slot : Z := 32.

Definition new (slot_count slot_frames channels : Z) : Result IngressQueue :=
  let? samples_per_slot := ok_or (mul_checked slot_frames channels)
                             (Validation "capture queue slot sample count overflow") in
  let? slots := (try_from_fn size_of_ingress_slot slot_count (build_slot samples_per_slot) tt).2 in
  Ok {| slots := slots; channels := channels; slot_frames := slot_frames;
        published_sequence := 0; consumed_sequence := 0; enqueued_frames := 0;
        dropped_frames := 0; cumulative_dropped_frames := 0; drop_counter_exhausted := false;
        producer_admission := PRODUCER_OPEN; producer_generation := 0;
        producer_generation_exhausted := false |}.
End construction.

Definition published_head (q : IngressQueue) : Z := published_sequence q.
Definition consumed_head (q : IngressQueue) : Z := consumed_sequence q.

(** ** Counters *)

Definition checked_atomic_add (counter value : Z) (message : string) : Result Z :=
  ok_or (add_checked counter value) (CaptureInvariant message).

Definition exhausted_message : string := "cumulative capture dropped frame counter exhausted".

Definition add_enqueued_frames (n : Z) : QM unit :=
  let! q := get in
  let! total := lift (checked_atomic_add (enqueued_frames q) n
                        "capture ingress enqueued frame counter exhausted") in
  modify (fun q => q <| enqueued_frames := total |>).

Definition add_cumulative_dropped_frames (n : Z) : QM unit :=
  let! q := get in
  fail_if (drop_counter_exhausted q) (CaptureInvariant exhausted_message) ;;
  match checked_atomic_add (cumulative_dropped_frames q) n exhausted_message with
  | Ok total => modify (fun q => q <| cumulative_dropped_frames := total |>)
  | _ =>
      modify (fun q => q <| drop_counter_exhausted := true |>) ;;
      fail (CaptureInvariant exhausted_message)
  end.

Definition add_dropped_frames (n : Z) : QM unit :=
  add_cumulative_dropped_frames n ;;
  let! q := get in
  match checked_atomic_add (dropped_frames q) n
          "capture ingress dropped frame counter exhausted" with
  | Ok total => modify (fun q => q <| dropped_frames := total |>)
  | Err e =>
      modify (fun q => q <| drop_counter_exhausted := true |>) ;; fail e
  | Panic => panic
  end.

(** ** Pushing *)

(** The loads at the head of a turn: [inl (published, frames)] reserves the slot
    of sequence [published] for [frames] frames, [inr] is the outcome of a full
    queue. *)
Definition reserve (total source_frame enqueued : Z) : QM ((Z * Z) + CapturePushOutcome) :=
  let! q := get in
  let published := published_sequence q in
  let! queued := lift (ok_or (sub_checked published (consumed_sequence q))
                         (CaptureInvariant "capture queue sequence invariant failed")) in
  if zlen (slots q) <=? queued then
    add_dropped_frames (total - source_frame) ;;
    ret (inr (mkPushOutcome enqueued (total - source_frame) published))
  else
    let n := Z.min (total - source_frame) (slot_frames q) in
    let! _ := lift (ok_or (add_checked published 1)
                      (CaptureInvariant "capture queue sequence exhausted")) in
    add_enqueued_frames n ;;
    ret (inl (published, n)).

(** The write to the reserved slot. *)
Definition fill (input : list f32) (ch source_frame published n : Z) : QM unit :=
  let! q := get in
  let index := published mod zlen (slots q) in
  let! slot := lift (unwrap (zlookup (slots q) index)) in
  let! source_start := lift (ok_or (mul_checked source_frame ch)
                               (CaptureInvariant "capture queue source offset overflow")) in
  let! sample_count := lift (ok_or (mul_checked n ch)
                               (CaptureInvariant "capture queue sample count overflow")) in
  let! source := lift (unwrap (slice input source_start (wrap64 (source_start + sample_count)))) in
  let! written := lift (unwrap (copy_into (samples slot) 0 source)) in
  modify (fun q => q <| slots ::= (fun s => zupdate s index
    (fun slot => slot <| samples := written |> <| frames := wrap32 n |>)) |>).

(** The release store that hands the slot over. *)
Definition publish (published : Z) : QM unit :=
  modify (fun q => q <| published_sequence := wrap64 (published + 1) |>).

Definition push_turn (input : list f32) (ch total source_frame enqueued : Z)
    : QM ((Z * Z) + CapturePushOutcome) :=
  let! reserved := reserve total source_frame enqueued in
  match reserved with
  | inr outcome => ret (inr outcome)
  | inl (published, n) =>
      fill input ch source_frame published n ;;
      publish published ;;
      ret (inl (source_frame + n, enqueued + n))
  end.

Definition push_loop_body (input : list f32) (ch total : Z) (l : Z * Z)
    : QM ((Z * Z) + CapturePushOutcome) :=
  if l.1 <? total then push_turn input ch total l.1 l.2
  else
    let! q := get in
    ret (inr (mkPushOutcome l.2 0 (published_head q))).

Definition try_push (input : list f32) (ch : Z) : QM CapturePushOutcome :=
  let! q := get in
  fail_if (drop_counter_exhausted q) (CaptureInvariant exhausted_message) ;;
  fail_if (negb (ch =? channels q))
    (CaptureInvariant "incoming channels do not match capture ingress channels") ;;
  fail_if ((ch =? 0) || negb (is_multiple_of (zlen input) ch))
    (CaptureInvariant "input sample length is not whole frames") ;;
  mloop (push_loop_body input ch (zlen input / ch)) (0, 0).

(** ** Producer admission *)

Definition close_producer_admission : QM unit :=
  modify (fun q => q <| producer_admission ::= (fun a => Z.land a PRODUCER_COUNT_MASK) |>).

Definition admitted_producers (q : IngressQueue) : Z :=
  Z.land (producer_admission q) PRODUCER_COUNT_MASK.

(** The loop retries a lost exchange; the turn that wins is this one. *)
Definition acquire_producer : QM unit :=
  let! q := get in
  let observed := producer_admission q in
  fail_if (Z.land observed PRODUCER_OPEN =? 0) (CaptureInvariant "capture ingress is closed") ;;
  fail_if (Z.land observed PRODUCER_COUNT_MASK =? PRODUCER_COUNT_MASK)
    (CaptureInvariant "capture producer count exhausted") ;;
  modify (fun q => q <| producer_admission := observed + 1 |>).

(** [Drop for ProducerAdmission]: the generation first, then the count. *)
Definition bump_generation : QM unit :=
  modify (fun q => match add_checked (producer_generation q) 1 with
                   | Some g => q <| producer_generation := g |>
                   | None => q <| producer_generation_exhausted := true |>
                   end).
Definition leave_producer : QM unit :=
  modify (fun q => q <| producer_admission ::= (fun a => wrap64 (a - 1)) |>).
Definition release_producer : QM unit := bump_generation ;; leave_producer.

(** The guard is dropped on every path. *)
Definition try_push_interleaved (input : list f32) (ch : Z) : QM CapturePushOutcome :=
  acquire_producer ;;
  let! outcome := catch (try_push input ch) in
  release_producer ;;
  lift outcome.

(** The loads of [calibration_boundary], in order; producers may run in between:
    the generation and the count, the two values asked for, and the generation
    and the count again. *)
Definition boundary_open (q : IngressQueue) : Result (option Z) :=
  if producer_generation_exhausted q
  then Err (CaptureInvariant "capture producer generation exhausted")
  else if negb (admitted_producers q =? 0) then Ok None
  else Ok (Some (producer_generation q)).

Definition boundary_confirm (generation : Z) (boundary : Z * Z) (q : IngressQueue)
    : option (Z * Z) :=
  if negb (admitted_producers q =? 0) || negb (producer_generation q =? generation)
  then None else Some boundary.

Definition calibration_boundary (q : IngressQueue) : Result (option (Z * Z)) :=
  let? seen := boundary_open q in
  Ok (match seen with
      | Some generation =>
          boundary_confirm generation (published_head q, cumulative_dropped_frames q) q
      | None => None
      end).

(** ** Consuming *)

(** The samples, frame count and sequence of the next published slot. *)
Definition peek_next (q : IngressQueue) : Result (option (list f32 * Z * Z)) :=
  if published_sequence q <=? consumed_sequence q then Ok None
  else
    let? slot := unwrap (zlookup (slots q) (consumed_sequence q mod zlen (slots q))) in
    let sample_count := wrap64 (frames slot * channels q) in
    let? input := unwrap (slice (samples slot) 0 sample_count) in
    Ok (Some (input, frames slot, consumed_sequence q)).

Definition advance (consumed : Z) : QM unit :=
  modify (fun q => q <| consumed_sequence := wrap64 (consumed + 1) |>).

(** The worker's callback runs between the read and the store. *)
Definition consume_next : QM (option (list f32 * Z * Z)) :=
  let! q := get in
  let! next := lift (peek_next q) in
  match next with
  | None => ret None
  | Some (input, n, sequence) => advance sequence ;; ret (Some (input, n, sequence))
  end.

(** ** The queue's contents

    [log] is every slot ever published, in order of its sequence number. *)

Definition SLOTS (q : IngressQueue) : Z := zlen (slots q).

(** The slot of sequence [s] holds the samples [xs]. *)
Definition slot_holds (q : IngressQueue) (s : Z) (xs : list f32) : Prop :=
  exists slot, zlookup (slots q) (s mod SLOTS q) = Some slot /\
    0 < frames slot /\ zlen xs = frames slot * channels q /\
    zlen xs <= zlen (samples slot) /\ segment (samples slot) 0 (zlen xs) = xs.

Record queue_ok (q : IngressQueue) (log : list (list f32)) : Prop := {
  q_channels : 0 < channels q <= u32_max;
  q_slot_frames : 0 < slot_frames q <= u32_max;
  q_slots : 0 < SLOTS q <= u32_max;
  q_buffers : forall i slot, zlookup (slots q) i = Some slot ->
    zlen (samples slot) = slot_frames q * channels q;
  q_buffer_size : slot_frames q * channels q <= 2 ^ 61;
  q_published : published_sequence q = zlen log /\ published_sequence q <= u64_max;
  q_consumed : 0 <= consumed_sequence q <= published_sequence q;
  q_bounded : published_sequence q - consumed_sequence q <= SLOTS q;
  q_counters : is_u64 (enqueued_frames q) /\ is_u64 (dropped_frames q) /\
    is_u64 (cumulative_dropped_frames q);
  q_holds : forall s, consumed_sequence q <= s < published_sequence q ->
    exists xs, zlookup log s = Some xs /\ slot_holds q s xs;
}.

(** Two sequence numbers less than a queue apart have different slots. *)
Lemma mod_apart n s t : 0 < n -> 0 < t - s < n -> s mod n <> t mod n.
Proof.
  intros Hn Hd Heq. pose proof (Z.div_mod s n ltac:(lia)). pose proof (Z.div_mod t n ltac:(lia)).
  assert (t / n = s / n) by nia. nia.
Qed.

Lemma zlookup_app_l {A} (l1 l2 : list A) i x :
  zlookup l1 i = Some x -> zlookup (l1 ++ l2) i = Some x.
Proof.
  unfold zlookup. destruct (0 <=? i); [|done]. intros H.
  rewrite lookup_app_l; [done|]. by eapply lookup_lt_Some.
Qed.

Lemma zlookup_app_last {A} (l : list A) x : zlookup (l ++ [x]) (zlen l) = Some x.
Proof.
  unfold zlookup, zlen. rewrite (proj2 (Z.leb_le 0 _)) by lia. rewrite Nat2Z.id.
  by rewrite list_lookup_middle.
Qed.

(** What a counter update may change. *)
Definition same_slots (q q' : IngressQueue) : Prop :=
  slots q' = slots q /\ channels q' = channels q /\ slot_frames q' = slot_frames q /\
  published_sequence q' = published_sequence q /\ consumed_sequence q' = consumed_sequence q.

Lemma same_slots_holds q q' s xs : same_slots q q' -> slot_holds q s xs -> slot_holds q' s xs.
Proof. intros (H1 & H2 & _) Hs. unfold slot_holds, SLOTS in *. by rewrite H1, H2. Qed.

Lemma same_slots_ok q q' log :
  same_slots q q' -> is_u64 (enqueued_frames q') -> is_u64 (dropped_frames q') ->
  is_u64 (cumulative_dropped_frames q') -> queue_ok q log -> queue_ok q' log.
Proof.
  intros Hs He Hd Hc Hq. pose proof Hs as (H1 & H2 & H3 & H4 & H5).
  assert (SLOTS q' = SLOTS q) as H6 by (unfold SLOTS; by rewrite H1).
  constructor; rewrite ?H1, ?H2, ?H3, ?H4, ?H5, ?H6; try apply Hq; [done|].
  intros s Hr. destruct (q_holds _ _ Hq s Hr) as (xs & ? & ?).
  exists xs. split; [done|]. by apply (same_slots_holds q).
Qed.

Section queue_steps.
Context {q : IngressQueue} {log : list (list f32)} (Hq : queue_ok q log).

Lemma add_cumulative_spec n :
  0 <= n ->
  match add_cumulative_dropped_frames n q with
  | (q', Ok _) => queue_ok q' log /\ same_slots q q' /\ enqueued_frames q' = enqueued_frames q /\
      dropped_frames q' = dropped_frames q /\
      cumulative_dropped_frames q' = cumulative_dropped_frames q + n /\
      drop_counter_exhausted q' = false
  | (q', Err _) => queue_ok q' log /\ same_slots q q' /\ enqueued_frames q' = enqueued_frames q /\
      dropped_frames q' = dropped_frames q /\
      cumulative_dropped_frames q' = cumulative_dropped_frames q /\
      drop_counter_exhausted q' = true
  | (_, Panic) => False
  end.
Proof using Hq.
  intros Hn. destruct (q_counters _ _ Hq) as (? & ? & ?).
  unfold add_cumulative_dropped_frames. msteps.
  destruct (drop_counter_exhausted q) eqn:Ex; msteps; [by split_and!|].
  unfold checked_atomic_add. destruct (add_checked _ n) as [t|] eqn:E; cbn [ok_or].
  - apply add_checked_inv in E as [-> ?]. rewrite modify_run.
    split_and!; try done. by apply (same_slots_ok q).
  - msteps. rewrite fail_run. split_and!; try done. by apply (same_slots_ok q).
Qed.

Lemma add_dropped_spec n :
  0 <= n ->
  match add_dropped_frames n q with
  | (q', Ok _) => queue_ok q' log /\ same_slots q q' /\ enqueued_frames q' = enqueued_frames q /\
      dropped_frames q' = dropped_frames q + n /\
      cumulative_dropped_frames q' = cumulative_dropped_frames q + n
  | (q', Err _) => queue_ok q' log /\ same_slots q q' /\ enqueued_frames q' = enqueued_frames q /\
      drop_counter_exhausted q' = true /\
      cumulative_dropped_frames q <= cumulative_dropped_frames q'
  | (_, Panic) => False
  end.
Proof using Hq.
  intros Hn. pose proof (add_cumulative_spec n Hn) as Hc. unfold add_dropped_frames, bind at 1.
  destruct (add_cumulative_dropped_frames n q) as [q1 [u|e|]];
    [|destruct Hc as (? & ? & ? & ? & ? & ?); split_and!; (done || lia)|done].
  destruct Hc as (Hq1 & Hs & He & Hd & Hcu & _). destruct (q_counters _ _ Hq1) as (? & ? & ?).
  msteps. unfold checked_atomic_add. destruct (add_checked _ n) as [t|] eqn:E; cbn [ok_or].
  - apply add_checked_inv in E as [-> ?]. rewrite modify_run.
    split_and!; try done; [by apply (same_slots_ok q1) | cbn; lia].
  - msteps. rewrite fail_run. split_and!; try done; [by apply (same_slots_ok q1) | cbn; lia].
Qed.

(** A reservation names the next sequence number, whose slot is free. *)
Lemma reserve_spec total source enq :
  0 <= source < total ->
  match reserve total source enq q with
  | (q', Ok (inl (published, n))) =>
      queue_ok q' log /\ same_slots q q' /\ published = published_sequence q /\
      published - consumed_sequence q < SLOTS q /\ published < u64_max /\
      n = Z.min (total - source) (slot_frames q) /\
      enqueued_frames q' = enqueued_frames q + n /\
      dropped_frames q' = dropped_frames q /\
      cumulative_dropped_frames q' = cumulative_dropped_frames q
  | (q', Ok (inr o)) =>
      queue_ok q' log /\ same_slots q q' /\ enqueued_frames q' = enqueued_frames q /\
      published_sequence q - consumed_sequence q = SLOTS q /\
      o = mkPushOutcome enq (total - source) (published_sequence q) /\
      dropped_frames q' = dropped_frames q + (total - source) /\
      cumulative_dropped_frames q' = cumulative_dropped_frames q + (total - source)
  | (q', Err _) => queue_ok q' log /\ same_slots q q' /\
      cumulative_dropped_frames q <= cumulative_dropped_frames q' /\
      (drop_counter_exhausted q' = true \/ published_sequence q = u64_max \/
       u64_max < enqueued_frames q + (total - source))
  | (_, Panic) => False
  end.
Proof using Hq.
  intros Hs. pose proof (q_consumed _ _ Hq). pose proof (q_bounded _ _ Hq).
  pose proof (q_published _ _ Hq) as [Hp Hmax]. pose proof (q_slot_frames _ _ Hq).
  destruct (q_counters _ _ Hq) as (He & Hd & Hc).
  unfold reserve. msteps.
  assert (sub_checked (published_sequence q) (consumed_sequence q) =
    Some (published_sequence q - consumed_sequence q)) as -> by (apply checked_Some; lia).
  cbn [ok_or]. msteps. fold (SLOTS q).
  destruct (SLOTS q <=? _) eqn:E1; to_prop.
  - pose proof (add_dropped_spec (total - source) ltac:(lia)) as Ha. unfold bind.
    destruct (add_dropped_frames _ q) as [q' [u|e|]]; [| |done].
    + destruct Ha as (? & ? & ? & ? & ?). cbn. split_and!; try done. lia.
    + destruct Ha as (? & ? & ? & ? & ?). auto.
  - destruct (add_checked (published_sequence q) 1) as [np|] eqn:E2; cbn [ok_or]; msteps.
    + apply add_checked_inv in E2 as [-> ?].
      unfold add_enqueued_frames, checked_atomic_add. msteps.
      destruct (add_checked (enqueued_frames q) _) as [t|] eqn:E3; cbn [ok_or]; msteps.
      * apply add_checked_inv in E3 as [-> ?]. rewrite ret_run.
        split_and!; try done; [by apply (same_slots_ok q) | lia].
      * apply checked_None in E3. unfold is_u64 in *. split_and!; try done. lia.
    + apply checked_None in E2. split_and!; try done. lia.
Qed.

Lemma fill_spec input source n :
  0 <= source -> 0 < n <= slot_frames q -> zlen input <= 2 ^ 61 ->
  (source + n) * channels q <= zlen input ->
  published_sequence q - consumed_sequence q < SLOTS q ->
  exists q', fill input (channels q) source (published_sequence q) n q = (q', Ok tt) /\
    queue_ok q' log /\ SLOTS q' = SLOTS q /\ channels q' = channels q /\
    slot_frames q' = slot_frames q /\ published_sequence q' = published_sequence q /\
    consumed_sequence q' = consumed_sequence q /\ enqueued_frames q' = enqueued_frames q /\
    dropped_frames q' = dropped_frames q /\
    cumulative_dropped_frames q' = cumulative_dropped_frames q /\
    drop_counter_exhausted q' = drop_counter_exhausted q /\
    slot_holds q' (published_sequence q)
      (segment input (source * channels q) (n * channels q)).
Proof using Hq.
  intros Hsrc Hn Hin Hfit Hfree. pose proof (q_slots _ _ Hq). pose proof (q_channels _ _ Hq).
  pose proof (q_slot_frames _ _ Hq). pose proof (q_buffer_size _ _ Hq).
  pose proof (q_consumed _ _ Hq). pose proof (q_published _ _ Hq).
  set (i := published_sequence q mod SLOTS q).
  destruct (zlookup_lt (slots q) i) as [slot Hslot]; [apply Z.mod_pos_bound; unfold SLOTS in *; lia|].
  pose proof (q_buffers _ _ Hq _ _ Hslot) as Hbuf.
  assert (0 <= source * channels q) by (apply Z.mul_nonneg_nonneg; lia).
  assert (0 < n * channels q) by (apply Z.mul_pos_pos; lia).
  assert (n * channels q <= slot_frames q * channels q) by (apply Z.mul_le_mono_nonneg_r; lia).
  rewrite Z.mul_add_distr_r in Hfit.
  set (xs := segment input (source * channels q) (n * channels q)).
  assert (zlen xs = n * channels q) as Hxs by (apply zlen_segment; lia).
  eexists. split.
  { unfold fill. msteps. fold (SLOTS q). fold i. rewrite Hslot. cbn [unwrap]. msteps.
    rewrite !mul_checked_ok by (unfold u64_max; lia). cbn [ok_or]. msteps.
    rewrite wrap64_small by (unfold is_u64, u64_max; lia).
    rewrite slice_Some by lia. rewrite Z.add_simpl_l. fold xs. cbn [unwrap]. msteps.
    rewrite copy_into_Some by lia. cbn [unwrap]. msteps. rewrite modify_run. done. }
  set (written := _ ++ _).
  set (f := fun slot => slot <| samples := written |> <| frames := wrap32 n |>).
  set (slot' := f slot).
  assert (copy_into (samples slot) 0 xs = Some written) as Hcopy by (apply copy_into_Some; lia).
  pose proof (copy_into_length _ _ _ _ Hcopy) as Hwl.
  pose proof (copy_into_prefix _ _ _ _ Hcopy) as Hwp.
  assert (wrap32 n = n) as Hw by (apply Z.mod_small; unfold u32_max in *; lia).
  set (q' := q <| slots ::= _ |>).
  assert (SLOTS q' = SLOTS q) as HS by apply zlen_zupdate.
  assert (zlookup (slots q') i = Some slot') as Hs'
    by exact (zlookup_zupdate_eq (slots q) i f slot Hslot).
  split_and!; try done.
  - constructor; rewrite ?HS; try apply Hq.
    + intros j sl Hj. destruct (Z.eq_dec j i) as [->|Hne].
      * rewrite Hs' in Hj. injection Hj as <-. change (zlen written = slot_frames q * channels q). lia.
      * change (slots q') with (zupdate (slots q) i f) in Hj.
        rewrite zlookup_zupdate_ne in Hj by done. by apply (q_buffers _ _ Hq) in Hj.
    + change (consumed_sequence q') with (consumed_sequence q).
      change (published_sequence q') with (published_sequence q).
      intros s Hs. destruct (q_holds _ _ Hq s Hs) as (ys & Hlog & sl & Hsl & Hrest).
      exists ys. split; [done|]. exists sl. split; [|done]. rewrite HS.
      change (slots q') with (zupdate (slots q) i f).
      rewrite zlookup_zupdate_ne; [done|]. unfold i. apply not_eq_sym, mod_apart; lia.
  - exists slot'. rewrite HS. fold i. split; [done|].
    change (channels q') with (channels q). change (frames slot') with (wrap32 n).
    change (samples slot') with written. rewrite Hw, Hxs. split_and!; try lia.
    rewrite Z.add_0_l, segment_nil, Hxs in Hwp. exact Hwp.
Qed.

Lemma publish_spec xs :
  slot_holds q (published_sequence q) xs ->
  published_sequence q - consumed_sequence q < SLOTS q -> published_sequence q < u64_max ->
  exists q', publish (published_sequence q) q = (q', Ok tt) /\ queue_ok q' (log ++ [xs]) /\
    published_sequence q' = published_sequence q + 1 /\
    consumed_sequence q' = consumed_sequence q /\ channels q' = channels q /\
    slot_frames q' = slot_frames q /\ slots q' = slots q /\
    enqueued_frames q' = enqueued_frames q /\ dropped_frames q' = dropped_frames q /\
    cumulative_dropped_frames q' = cumulative_dropped_frames q /\
    drop_counter_exhausted q' = drop_counter_exhausted q.
Proof using Hq.
  intros Hx Hfree Hmax. pose proof (q_published _ _ Hq) as [Hp _]. pose proof (q_consumed _ _ Hq).
  eexists. split; [done|].
  assert (wrap64 (published_sequence q + 1) = published_sequence q + 1) as Hw
    by (apply wrap64_small; unfold is_u64; lia).
  split_and!; try done.
  constructor; try apply Hq; cbn [published_sequence consumed_sequence update]; rewrite ?Hw.
  - rewrite zlen_app. change (zlen [xs]) with 1. lia.
  - lia.
  - change (SLOTS _) with (SLOTS q). lia.
  - intros s Hs. destruct (Z.eq_dec s (published_sequence q)) as [->|Hne].
    + exists xs. split; [|done]. rewrite Hp. apply zlookup_app_last.
    + destruct (q_holds _ _ Hq s ltac:(lia)) as (ys & ? & ?).
      exists ys. split; [by apply zlookup_app_l | done].
Qed.

Lemma peek_spec :
  peek_next q =
    Ok (if published_sequence q <=? consumed_sequence q then None
        else match zlookup log (consumed_sequence q) with
             | Some xs => Some (xs, zlen xs / channels q, consumed_sequence q)
             | None => None
             end).
Proof using Hq.
  unfold peek_next. destruct (_ <=? _) eqn:E; [done|]. to_prop.
  pose proof (q_consumed _ _ Hq). pose proof (q_channels _ _ Hq). pose proof (q_buffer_size _ _ Hq).
  destruct (q_holds _ _ Hq (consumed_sequence q)) as (xs & -> & slot & Hs & Hf & Hl & Hle & Hseg); [lia|].
  fold (SLOTS q). rewrite Hs. cbn [unwrap obind].
  pose proof (q_buffers _ _ Hq _ _ Hs).
  rewrite <- Hl, wrap64_small by (pose proof (zlen_nonneg xs); unfold is_u64, u64_max; lia).
  rewrite slice_Some by (pose proof (zlen_nonneg xs); lia). rewrite Z.sub_0_r, Hseg. cbn [unwrap obind].
  do 3 f_equal. f_equal. rewrite Hl, Z.div_mul; lia.
Qed.

Lemma advance_spec :
  consumed_sequence q < published_sequence q ->
  exists q', advance (consumed_sequence q) q = (q', Ok tt) /\ queue_ok q' log /\
    q' = q <| consumed_sequence := consumed_sequence q + 1 |>.
Proof using Hq.
  intros Hlt. pose proof (q_published _ _ Hq) as [Hp ?]. pose proof (q_consumed _ _ Hq).
  pose proof (q_bounded _ _ Hq).
  eexists. split; [done|]. rewrite wrap64_small by (unfold is_u64; lia). split; [|done].
  constructor; try apply Hq; cbn [published_sequence consumed_sequence update]; [lia | change (SLOTS _) with (SLOTS q); lia |].
  intros s Hs. apply (q_holds _ _ Hq). lia.
Qed.
End queue_steps.
