(* ===== verification/IngressSpec.v ===== *)
(** * The ingress queue under concurrency

    The producer and the worker interleave the atomic steps of [IngressQueue] on
    one queue. The file proves that the worker receives exactly the accepted
    slots in order, that a slot is never written while the worker reads it, that
    every offered frame is counted once, and that the boundary a calibration
    starts from is a consistent one. *)
From S2P Require Import Prelude.
From S2P Require Import Errors.
From S2P Require Import MemoryPlan.
From S2P Require Import IngressQueue.

(** ** The system *)

(** Where the producer is in [try_push]: [AtLoop] at the loop's head, [Filling]
    and [Publishing] with the slot of sequence [published] reserved. *)
Inductive producer_pc :=
  | Outside
  | AtLoop (input : list f32) (source enqueued : Z)
  | Filling (input : list f32) (source enqueued published n : Z)
  | Publishing (input : list f32) (source enqueued published n : Z).

(** Where the worker is in [consume_next]: [Reading] has seen that [sequence] is
    published; [Consuming] is the callback, which borrows the slot's samples. *)
Inductive consumer_pc :=
  | Idle
  | Reading (sequence : Z)
  | Consuming (sequence : Z) (xs : list f32).

(** [log] and [delivered] record the slots published and handed to the worker. *)
Record qsystem := mkQSystem {
  queue : IngressQueue;
  producer : producer_pc;
  consumer : consumer_pc;
  log : list (list f32);
  delivered : list (list f32);
}.

Definition slot_samples (q : IngressQueue) (s : Z) : option (list f32) :=
  match zlookup (slots q) (s mod SLOTS q) with
  | Some slot => slice (samples slot) 0 (frames slot * channels q)
  | None => None
  end.

Inductive qstep : qsystem -> qsystem -> Prop :=
  | step_enter q input c l d :
      drop_counter_exhausted q = false -> zlen input mod channels q = 0 -> zlen input <= 2 ^ 61 ->
      qstep (mkQSystem q Outside c l d) (mkQSystem q (AtLoop input 0 0) c l d)
  | step_leave q input source enq c l d :
      zlen input / channels q <= source ->
      qstep (mkQSystem q (AtLoop input source enq) c l d) (mkQSystem q Outside c l d)
  | step_reserve q input source enq c l d q' p n :
      source < zlen input / channels q ->
      reserve (zlen input / channels q) source enq q = (q', Ok (inl (p, n))) ->
      qstep (mkQSystem q (AtLoop input source enq) c l d)
            (mkQSystem q' (Filling input source enq p n) c l d)
  | step_full q input source enq c l d q' o :
      source < zlen input / channels q ->
      reserve (zlen input / channels q) source enq q = (q', Ok (inr o)) ->
      qstep (mkQSystem q (AtLoop input source enq) c l d) (mkQSystem q' Outside c l d)
  | step_reserve_error q input source enq c l d q' e :
      source < zlen input / channels q ->
      reserve (zlen input / channels q) source enq q = (q', Err e) ->
      qstep (mkQSystem q (AtLoop input source enq) c l d) (mkQSystem q' Outside c l d)
  | step_fill q input source enq p n c l d q' :
      fill input (channels q) source p n q = (q', Ok tt) ->
      qstep (mkQSystem q (Filling input source enq p n) c l d)
            (mkQSystem q' (Publishing input source enq p n) c l d)
  | step_publish q input source enq p n c l d q' :
      publish p q = (q', Ok tt) ->
      qstep (mkQSystem q (Publishing input source enq p n) c l d)
            (mkQSystem q' (AtLoop input (source + n) (enq + n)) c
               (l ++ [segment input (source * channels q) (n * channels q)]) d)
  | step_peek q pr l d :
      consumed_sequence q < published_sequence q ->
      qstep (mkQSystem q pr Idle l d) (mkQSystem q pr (Reading (consumed_sequence q)) l d)
  | step_read q pr s xs l d :
      slot_samples q s = Some xs ->
      qstep (mkQSystem q pr (Reading s) l d) (mkQSystem q pr (Consuming s xs) l (d ++ [xs]))
  | step_worker_drop q pr s xs l d n q' o :
      is_u64 n -> add_cumulative_dropped_frames n q = (q', o) ->
      qstep (mkQSystem q pr (Consuming s xs) l d) (mkQSystem q' pr (Consuming s xs) l d)
  | step_advance q pr s xs l d q' :
      advance s q = (q', Ok tt) ->
      qstep (mkQSystem q pr (Consuming s xs) l d) (mkQSystem q' pr Idle l d).

Inductive qsteps : qsystem -> qsystem -> Prop :=
  | qsteps_refl x : qsteps x x
  | qsteps_trans x y z : qstep x y -> qsteps y z -> qsteps x z.

Definition fresh (q : IngressQueue) : qsystem := mkQSystem q Outside Idle [] [].

(** ** The invariant *)

Definition frames_of (ch : Z) (l : list (list f32)) : Z := zlen (concat l) / ch.

Definition in_call (q : IngressQueue) (input : list f32) (source : Z) : Prop :=
  zlen input mod channels q = 0 /\ zlen input <= 2 ^ 61 /\ 0 <= source.

Definition reserved (q : IngressQueue) (input : list f32) (source p n : Z) : Prop :=
  in_call q input source /\ p = published_sequence q /\ p - consumed_sequence q < SLOTS q /\
  p < u64_max /\ 0 < n <= slot_frames q /\ source + n <= zlen input / channels q.

Definition producer_ok (q : IngressQueue) (p : producer_pc) : Prop :=
  match p with
  | Outside => True
  | AtLoop input source _ => in_call q input source
  | Filling input source _ p n => reserved q input source p n
  | Publishing input source _ p n =>
      reserved q input source p n /\
      slot_holds q p (segment input (source * channels q) (n * channels q))
  end.

Definition consumer_ok (q : IngressQueue) (c : consumer_pc) (l : list (list f32)) : Prop :=
  match c with
  | Idle => True
  | Reading s => s = consumed_sequence q /\ s < published_sequence q
  | Consuming s xs =>
      s = consumed_sequence q /\ s < published_sequence q /\ zlookup l s = Some xs
  end.

(** The slots delivered so far: all before the one being read. *)
Definition delivered_count (q : IngressQueue) (c : consumer_pc) : Z :=
  match c with Consuming s _ => s + 1 | _ => consumed_sequence q end.

Definition pending_frames (p : producer_pc) : Z :=
  match p with Filling _ _ _ _ n | Publishing _ _ _ _ n => n | _ => 0 end.

Record qsystem_inv (x : qsystem) : Prop := {
  qs_ok : queue_ok (queue x) (log x);
  qs_producer : producer_ok (queue x) (producer x);
  qs_consumer : consumer_ok (queue x) (consumer x) (log x);
  qs_delivered : delivered x = take (Z.to_nat (delivered_count (queue x) (consumer x))) (log x);
  qs_enqueued : enqueued_frames (queue x) * channels (queue x) =
    zlen (concat (log x)) + pending_frames (producer x) * channels (queue x);
}.

Lemma slot_samples_holds q s xs :
  0 < channels q -> slot_holds q s xs -> slot_samples q s = Some xs.
Proof.
  intros Hch (slot & Hs & Hf & Hl & Hle & Hseg). unfold slot_samples. rewrite Hs, <- Hl.
  pose proof (zlen_nonneg xs). rewrite slice_Some by lia. by rewrite Z.sub_0_r, Hseg.
Qed.

Lemma take_snoc {A} (l : list A) n x :
  0 <= n -> zlookup l n = Some x -> take (Z.to_nat (n + 1)) l = take (Z.to_nat n) l ++ [x].
Proof.
  intros Hn Hl. unfold zlookup in Hl. rewrite (proj2 (Z.leb_le 0 n)) in Hl by lia.
  replace (Z.to_nat (n + 1)) with (S (Z.to_nat n)) by lia. by apply take_S_r.
Qed.

Lemma take_app_prefix {A} (l l2 : list A) n :
  0 <= n <= zlen l -> take (Z.to_nat n) (l ++ l2) = take (Z.to_nat n) l.
Proof. intros. unfold zlen in *. rewrite take_app_le; [done | lia]. Qed.

Lemma zlen_concat_snoc {A} (l : list (list A)) x : zlen (concat (l ++ [x])) = zlen (concat l) + zlen x.
Proof. rewrite concat_app, zlen_app. cbn. by rewrite app_nil_r. Qed.

Lemma add_dropped_error_enqueued q n q' e :
  add_dropped_frames n q = (q', Err e) -> enqueued_frames q' = enqueued_frames q.
Proof.
  unfold add_dropped_frames, add_cumulative_dropped_frames, checked_atomic_add. msteps.
  destruct (drop_counter_exhausted q); msteps; [by intros [= <- _]|].
  destruct (add_checked (cumulative_dropped_frames q) n); cbn [ok_or]; msteps; [|by intros [= <- _]].
  cbn [update dropped_frames]. destruct (add_checked _ n); cbn [ok_or]; msteps; [done|].
  by intros [= <- _].
Qed.

Lemma reserve_error_enqueued q total source enq q' e :
  reserve total source enq q = (q', Err e) -> enqueued_frames q' = enqueued_frames q.
Proof.
  unfold reserve. msteps. destruct (sub_checked _ _); cbn [ok_or]; msteps; [| by intros [= <- _]].
  destruct (_ <=? _).
  - unfold bind. destruct (add_dropped_frames _ q) as [q1 [u|e1|]] eqn:E; [done | | done].
    intros [= <- _]. by eapply add_dropped_error_enqueued.
  - destruct (add_checked _ 1); cbn [ok_or]; msteps; [|by intros [= <- _]].
    unfold add_enqueued_frames, checked_atomic_add. msteps.
    destruct (add_checked _ _); cbn [ok_or]; msteps; [done | by intros [= <- _]].
Qed.

Section invariant.
(** A step that changes counters only. *)
Lemma inv_same_slots q q' pr c l d :
  qsystem_inv (mkQSystem q pr c l d) -> queue_ok q' l -> same_slots q q' ->
  enqueued_frames q' = enqueued_frames q -> qsystem_inv (mkQSystem q' pr c l d).
Proof.
  intros [H1 H2 H3 H4 H5] Hq Hs He. cbn in *. pose proof Hs as (Hsl & Hch & Hsf & Hp & Hc).
  assert (SLOTS q' = SLOTS q) as HS by (unfold SLOTS; congruence).
  constructor; cbn; [done | | | |].
  - destruct pr; cbn in *; unfold reserved, in_call in *; rewrite ?HS, ?Hch, ?Hsf, ?Hp, ?Hc; try done.
    destruct H2. split; [done|]. by apply (same_slots_holds q).
  - destruct c; cbn in *; rewrite ?Hp, ?Hc; done.
  - rewrite H4. unfold delivered_count. by rewrite Hc.
  - by rewrite He, Hch.
Qed.

Lemma qstep_inv x y : qstep x y -> qsystem_inv x -> qsystem_inv y.
Proof.
  intros Hstep Hx. pose proof Hx as [H1 H2 H3 H4 H5].
  pose proof (q_channels _ _ H1) as Hch. pose proof (q_consumed _ _ H1) as Hcons.
  pose proof (q_published _ _ H1) as [Hpub Hmax].
  destruct Hstep; cbn [queue producer consumer log delivered pending_frames] in *.
  - constructor; cbn; try done; lia.
  - by constructor.
  - destruct H2 as (Hm & Hl & Hs0).
    pose proof (reserve_spec H1 (zlen input / channels q) source enq ltac:(lia)) as Hr.
    rewrite H0 in Hr. destruct Hr as (Hq & Hs & Hp & Hfree & Hlt & Hn & He & _).
    pose proof Hs as (Hsl & Hchs & Hsf & Hps & Hcs). pose proof (q_slot_frames _ _ H1).
    assert (SLOTS q' = SLOTS q) as HS by (unfold SLOTS; congruence).
    constructor; cbn; [done | | | |].
    + unfold reserved, in_call. rewrite HS, Hchs, Hsf, Hps, Hcs. split_and!; try done; lia.
    + destruct c; cbn in *; rewrite ?Hps, ?Hcs; done.
    + rewrite H4. unfold delivered_count. by rewrite Hcs.
    + rewrite He, Hchs. lia.
  - destruct H2 as (Hm & Hl & Hs0).
    pose proof (reserve_spec H1 (zlen input / channels q) source enq ltac:(lia)) as Hr.
    rewrite H0 in Hr. destruct Hr as (Hq & Hs & He & _).
    apply (inv_same_slots q); first [done | by constructor].
  - destruct H2 as (Hm & Hl & Hs0).
    pose proof (reserve_spec H1 (zlen input / channels q) source enq ltac:(lia)) as Hr.
    pose proof (reserve_error_enqueued q (zlen input / channels q) source enq q' e H0) as He.
    rewrite H0 in Hr. destruct Hr as (Hq & Hs & _).
    apply (inv_same_slots q); first [done | by constructor].
  - destruct H2 as ((Hm & Hl & Hs0) & Hp & Hfree & Hlt & Hn & Hfit). subst p.
    assert ((source + n) * channels q <= zlen input).
    { pose proof (Z.mul_div_le (zlen input) (channels q) ltac:(lia)).
      assert ((source + n) * channels q <= zlen input / channels q * channels q)
        by (apply Z.mul_le_mono_nonneg_r; lia). lia. }
    destruct (fill_spec H1 input source n) as (q1 & Hf & Hq & HS & Hc1 & Hsf & Hp1 & Hco & He & _ & _ & _ & Hh);
      try done.
    rewrite H in Hf. apply pair_equal_spec in Hf as [<- _].
    constructor; cbn; [done | | | |].
    + rewrite Hc1. split; [|done]. unfold reserved, in_call. rewrite HS, Hc1, Hsf, Hp1, Hco. done.
    + destruct c; cbn in *; rewrite ?Hp1, ?Hco; done.
    + rewrite H4. unfold delivered_count. by rewrite Hco.
    + by rewrite He, Hc1.
  - destruct H2 as (((Hm & Hl & Hs0) & Hp & Hfree & Hlt & Hn & Hfit) & Hh). subst p.
    destruct (publish_spec H1 _ Hh Hfree Hlt) as (q1 & Hf & Hq & Hp1 & Hco & Hc1 & Hsf & Hsl & He & _).
    rewrite H in Hf. apply pair_equal_spec in Hf as [<- _].
    constructor; cbn; [done | | | |].
    + unfold in_call. rewrite Hc1. split_and!; try done. lia.
    + destruct c as [|s|s xs]; cbn in *; rewrite ?Hp1, ?Hco; [done | lia |].
      destruct H3 as (? & ? & ?). split_and!; [done | lia | by apply zlookup_app_l].
    + rewrite H4. unfold delivered_count. rewrite Hco. symmetry.
      destruct c as [|s|s xs]; apply take_app_prefix; cbn in *; lia.
    + destruct Hh as (slot & _ & _ & Hlen & _). rewrite zlen_concat_snoc, He, Hc1, H5.
      rewrite zlen_segment; [lia | apply Z.mul_nonneg_nonneg; lia | apply Z.mul_nonneg_nonneg; lia |].
      pose proof (Z.mul_div_le (zlen input) (channels q) ltac:(lia)).
      assert ((source + n) * channels q <= zlen input / channels q * channels q)
        by (apply Z.mul_le_mono_nonneg_r; lia). lia.
  - constructor; cbn; try done. 
  - destruct H3 as [-> Hlt]. destruct (q_holds _ _ H1 (consumed_sequence q)) as (ys & Hy & Hh); [lia|].
    rewrite (slot_samples_holds q _ ys) in H by (done || lia). injection H as <-.
    constructor; cbn; try done. rewrite H4. symmetry. apply take_snoc; cbn; [lia|done].
  - pose proof (add_cumulative_spec H1 n ltac:(unfold is_u64 in *; lia)) as Ha.
    rewrite H0 in Ha. destruct o as [u|e|]; [| |done];
      destruct Ha as (Hq & Hs & He & _); by apply (inv_same_slots q).
  - destruct H3 as (-> & Hlt & Hxs).
    destruct (advance_spec H1 Hlt) as (q1 & Hf & Hq & ->).
    rewrite H in Hf. apply pair_equal_spec in Hf as [-> _].
    constructor; cbn; try done.
    destruct pr; cbn in *; unfold reserved, in_call, slot_holds, SLOTS in *; cbn; try done.
    + intuition lia.
    + intuition lia.
Qed.

Lemma qsteps_inv x y : qsteps x y -> qsystem_inv x -> qsystem_inv y.
Proof. induction 1; [done|]. intros. by eapply IHqsteps, qstep_inv. Qed.
End invariant.

(** ** A new queue *)

Section construction.
Context `{Platform}.

Lemma build_slots n spc i u u' sl :
  0 <= spc -> init_elements (build_slot spc) i n u = (u', Ok sl) ->
  sl = replicate n (mkIngressSlot 0 (replicate (Z.to_nat spc) f32_zero)) /\
  (n <> 0%nat -> spc * 4 <= 2 ^ 63 - 1).
Proof.
  intros Hs. revert i u sl. induction n as [|n IH]; intros i u sl; cbn [init_elements].
  - by intros [= _ <-].
  - unfold build_slot. intros (s1 & c & Hc & Hr)%bind_inv.
    apply bind_inv in Hc as (s2 & l & [= <- Hl] & [= <- <-]).
    unfold new_zeroed, layout_array, size_of_f32 in Hl.
    destruct (2 ^ 63 - 1 <? 4 * spc) eqn:E; cbn in Hl; [done|]. to_prop.
    destruct (_ || _) in Hl; [|done]. injection Hl as <-.
    apply bind_inv in Hr as (s5 & rest & Hr & [= <- <-]).
    apply IH in Hr as (-> & _). split; [done|]. lia.
Qed.

Lemma new_queue_ok count sf ch q :
  0 < count <= u32_max -> 0 < sf <= u32_max -> 0 < ch <= u32_max -> new count sf ch = Ok q ->
  queue_ok q [] /\ channels q = ch /\ SLOTS q = count /\ published_sequence q = 0 /\
  consumed_sequence q = 0 /\ enqueued_frames q = 0.
Proof.
  intros Hc Hs Hch Hn. unfold new in Hn.
  apply obind_Ok in Hn as (spc & Hspc & Hn). apply ok_or_Ok, mul_checked_inv in Hspc as [-> ?].
  unfold try_from_fn in Hn. destruct (bind _ _ tt) as [u built] eqn:Eb. cbn [snd] in Hn.
  ok_steps. subst q built. rename x into sl.
  apply bind_inv in Eb as (s1 & sz & [= <- Hsz] & Eb). destruct (_ || _) in Eb; [|done].
  apply build_slots in Eb as (-> & Hsmall); [|lia]. specialize (Hsmall ltac:(lia)).
  set (slot := mkIngressSlot 0 _).
  assert (zlen (replicate (Z.to_nat count) slot) = count) as Hlen
    by (unfold zlen; rewrite length_replicate; lia).
  split_and!; try done. constructor; cbn; try done; try (unfold SLOTS; cbn; rewrite ?Hlen; lia).
  - intros i x. unfold zlookup. destruct (0 <=? i); [|done].
    intros [-> _]%lookup_replicate. cbn. unfold zlen. rewrite length_replicate. lia.
Qed.

Lemma fresh_inv count sf ch q :
  0 < count <= u32_max -> 0 < sf <= u32_max -> 0 < ch <= u32_max -> new count sf ch = Ok q ->
  qsystem_inv (fresh q).
Proof.
  intros Hc Hs Hch Hn. destruct (new_queue_ok count sf ch q Hc Hs Hch Hn) as (Hq & _ & _ & _ & Hco & He).
  constructor; cbn; try done; rewrite ?Hco, ?He; done.
Qed.
End construction.

(** ** The theorems *)

Section ingress_theorems.
Context `{Platform}.

(** C29. The worker receives exactly the published slots, in order, each once
    and unchanged: what it has received is a prefix of what was published, at
    most a queue behind, and the enqueued counter is what the published and
    reserved slots hold. *)
Theorem ingress_fifo count sf ch q x :
  0 < count <= u32_max -> 0 < sf <= u32_max -> 0 < ch <= u32_max -> new count sf ch = Ok q ->
  qsteps (fresh q) x ->
  exists rest, log x = delivered x ++ rest /\ zlen rest <= SLOTS (queue x) /\
    enqueued_frames (queue x) * channels (queue x) =
      zlen (concat (log x)) + pending_frames (producer x) * channels (queue x).
Proof.
  intros Hc Hs Hch Hn Hx. pose proof (fresh_inv count sf ch q Hc Hs Hch Hn) as H0.
  destruct (qsteps_inv _ _ Hx H0) as [H1 H2 H3 H4 H5].
  exists (drop (Z.to_nat (delivered_count (queue x) (consumer x))) (log x)).
  split_and!; [by rewrite H4, take_drop | | done].
  pose proof (q_published _ _ H1) as [Hp _]. pose proof (q_bounded _ _ H1).
  pose proof (q_consumed _ _ H1). unfold zlen in *. rewrite length_drop.
  unfold delivered_count. destruct (consumer x); cbn in *; lia.
Qed.

(** C30. No data race on the slots: while the worker reads a slot, from the load
    that found it until the store that gives it back, the producer's reserved
    slot is another one. *)
Theorem ingress_slot_exclusive count sf ch q x input source enq p n :
  0 < count <= u32_max -> 0 < sf <= u32_max -> 0 < ch <= u32_max -> new count sf ch = Ok q ->
  qsteps (fresh q) x ->
  producer x = Filling input source enq p n \/ producer x = Publishing input source enq p n ->
  match consumer x with
  | Idle => True
  | Reading s | Consuming s _ => s mod SLOTS (queue x) <> p mod SLOTS (queue x)
  end.
Proof.
  intros Hc Hs Hch Hn Hx Hpr. pose proof (fresh_inv count sf ch q Hc Hs Hch Hn) as H0.
  destruct (qsteps_inv _ _ Hx H0) as [H1 H2 H3 H4 H5].
  assert (reserved (queue x) input source p n) as (_ & Hp & Hfree & _)
    by (destruct Hpr as [E|E]; rewrite E in H2; apply H2).
  pose proof (q_slots _ _ H1).
  destruct (consumer x); cbn in H3; [done | |]; apply mod_apart; lia.
Qed.

(** Neither side panics or reads a slot that is not there: a reservation
    succeeds or fails with an error, the reserved write always succeeds, and
    the published slot that the worker has found holds whole frames. *)
Theorem ingress_no_panic count sf ch q x :
  0 < count <= u32_max -> 0 < sf <= u32_max -> 0 < ch <= u32_max -> new count sf ch = Ok q ->
  qsteps (fresh q) x ->
  match producer x with
  | AtLoop input source enq => source < zlen input / channels (queue x) ->
      (reserve (zlen input / channels (queue x)) source enq (queue x)).2 <> Panic
  | Filling input source _ p n =>
      exists q', fill input (channels (queue x)) source p n (queue x) = (q', Ok tt)
  | _ => True
  end /\
  match consumer x with
  | Reading s => exists xs, slot_samples (queue x) s = Some xs /\ zlookup (log x) s = Some xs
  | _ => True
  end.
Proof.
  intros Hc Hs Hch Hn Hx. pose proof (fresh_inv count sf ch q Hc Hs Hch Hn) as H0.
  destruct (qsteps_inv _ _ Hx H0) as [H1 H2 H3 _ _]. pose proof (q_channels _ _ H1). split.
  - destruct (producer x) as [|input source enq|input source enq p n|]; cbn [producer_ok] in *; try done.
    + intros Hlt. destruct H2 as (_ & _ & Hs0).
      pose proof (reserve_spec H1 (zlen input / channels (queue x)) source enq ltac:(lia)) as Hr.
      destruct (reserve _ _ _ _) as [q' [?|?|]]; done.
    + destruct H2 as ((Hm & Hl & Hs0) & -> & Hfree & Hlt & Hnn & Hfit).
      assert ((source + n) * channels (queue x) <= zlen input).
      { pose proof (Z.mul_div_le (zlen input) (channels (queue x)) ltac:(lia)).
        assert ((source + n) * channels (queue x) <=
                zlen input / channels (queue x) * channels (queue x))
          by (apply Z.mul_le_mono_nonneg_r; lia). lia. }
      destruct (fill_spec H1 input source n) as (q1 & Hf & _); try done. by exists q1.
  - destruct (consumer x) as [|s|]; try done. destruct H3 as [-> Hlt].
    pose proof (q_consumed _ _ H1).
    destruct (q_holds _ _ H1 (consumed_sequence (queue x))) as (xs & Hl & Hh); [lia|].
    exists xs. split; [apply slot_samples_holds; [lia|done] | done].
Qed.
End ingress_theorems.

Lemma push_segment_split (input : list f32) ch enq n :
  0 <= enq -> 0 <= n -> 0 <= ch ->
  segment input 0 (enq * ch) ++ segment input (enq * ch) (n * ch) = segment input 0 ((enq + n) * ch).
Proof.
  intros. rewrite Z.mul_add_distr_r, segment_split by (try apply Z.mul_nonneg_nonneg; lia). done.
Qed.

(** What a push of [total] frames leaves behind. *)
Definition push_outcome (q q' : IngressQueue) (input : list f32) (total : Z)
    (o : Result CapturePushOutcome) (new : list (list f32)) : Prop :=
  match o with
  | Ok out =>
      concat new = segment input 0 (out_enqueued_frames out * channels q) /\
      out_enqueued_frames out + out_dropped_frames out = total /\
      enqueued_frames q' = enqueued_frames q + out_enqueued_frames out /\
      dropped_frames q' = dropped_frames q + out_dropped_frames out /\
      cumulative_dropped_frames q' = cumulative_dropped_frames q + out_dropped_frames out /\
      published_sequence q' = out_published_sequence out /\
      (out_dropped_frames out <> 0 -> published_sequence q' - consumed_sequence q' = SLOTS q')
  | Err _ => exists k, 0 <= k < total /\ concat new = segment input 0 (k * channels q) /\
      enqueued_frames q' = enqueued_frames q + k
  | Panic => False
  end.

(** The queue keeps its shape and its drop counter only grows. *)
Definition same_shape_queue (q q' : IngressQueue) : Prop :=
  channels q' = channels q /\ slot_frames q' = slot_frames q /\
  cumulative_dropped_frames q <= cumulative_dropped_frames q'.

Lemma push_total q l input total :
  queue_ok q l -> zlen input = total * channels q -> zlen input <= 2 ^ 61 ->
  drop_counter_exhausted q = false ->
  exists q' o new, try_push input (channels q) q = (q', o) /\ queue_ok q' (l ++ new) /\
    same_shape_queue q q' /\ push_outcome q q' input total o new.
Proof.
  intros Hq Ht Hl He. pose proof (q_channels _ _ Hq) as Hch. pose proof (zlen_nonneg input).
  assert (0 <= total <= 2 ^ 61) as Htot by nia.
  unfold try_push. msteps. rewrite He. msteps. rewrite Z.eqb_refl. cbn [negb]. msteps.
  unfold is_multiple_of. repeat decide_cmp. rewrite Ht, Z.mod_mul, Z.div_mul by lia. cbn [Z.eqb negb orb]. msteps.
  set (Inv := fun (s : IngressQueue) (n : Z * Z) => exists new,
    queue_ok s (l ++ new) /\ channels s = channels q /\ 0 <= n.1 <= total /\ n.2 = n.1 /\
    concat new = segment input 0 (n.1 * channels q) /\
    enqueued_frames s = enqueued_frames q + n.1 /\ dropped_frames s = dropped_frames q /\
    cumulative_dropped_frames s = cumulative_dropped_frames q /\ slot_frames s = slot_frames q).
  destruct (mloop_rule (push_loop_body input (channels q) total) Inv (fun _ n => total - n.1)
    (fun q' o => exists new, queue_ok q' (l ++ new) /\ same_shape_queue q q' /\
       push_outcome q q' input total o new))
    with (s := q) (l := (0, 0)) as (q' & o & -> & new & Hr); [| | unfold u64_max; cbn; lia | by exists q', o, new].
  2:{ unfold Inv. exists []. cbn [fst snd]. rewrite app_nil_r. split_and!; try done; lia. }
  unfold Inv. intros s [source enq]; cbn [fst snd]. intros (new & Hs & Hcs & Hn & -> & Hcat & Hen & Hd & Hcu & Hsfq).
  cbn [fst snd] in *. unfold push_loop_body; cbn [fst snd].
  destruct (source <? total) eqn:E; to_prop.
  2:{ msteps. rewrite ret_run. exists new. assert (source = total) as -> by lia.
      unfold same_shape_queue, push_outcome.
      cbn [out_enqueued_frames out_dropped_frames out_published_sequence].
      split_and!; try done; lia. }
  unfold push_turn, bind at 1.
  pose proof (reserve_spec Hs total source source ltac:(lia)) as Hr.
  pose proof (reserve_error_enqueued s total source source) as Hre.
  destruct (reserve total source source s) as [s1 [[[p n]|out]|e|]]; [| | | done].
  - destruct Hr as (Hs1 & Hss & -> & Hfree & Hlt & Hnn & He1 & Hd1 & Hc1).
    pose proof Hss as (Hsl & Hchs & Hsf & Hps & Hcos). pose proof (q_slot_frames _ _ Hs).
    assert (0 < n <= slot_frames s1) as Hn1 by (rewrite Hsf; lia).
    assert (SLOTS s1 = SLOTS s) as HSs by (unfold SLOTS; congruence).
    assert ((source + n) * channels q <= total * channels q)
      by (apply Z.mul_le_mono_nonneg_r; lia).
    destruct (fill_spec Hs1 input source n) as (s2 & Hf & Hs2 & HS2 & Hc2 & Hsf2 & Hp2 & Hco2 & He2 & Hd2 & Hcu2 & _ & Hh);
      [lia | done | done | rewrite Hchs, Hcs; lia | rewrite Hps, Hcos, HSs; done |].
    rewrite Hps, Hchs, Hcs in Hf. rewrite (bind_run _ _ _ _ _ Hf).
    rewrite <- Hp2 in Hh.
    destruct (publish_spec Hs2 _ Hh) as (s3 & Hpu & Hs3 & Hp3 & Hco3 & Hc3 & Hsf3 & Hsl3 & He3 & Hd3 & Hcu3 & _);
      [rewrite Hp2, Hco2, HS2, Hps, Hcos, HSs; done | rewrite Hp2, Hps; done |].
    rewrite Hp2, Hps in Hpu. rewrite (bind_run _ _ _ _ _ Hpu), ret_run. cbn [fst snd].
    split; [|lia]. eexists. rewrite <- app_assoc in Hs3. rewrite Hchs, Hcs in Hs3.
    split_and!; [exact Hs3 | congruence | lia | lia | lia | | lia | congruence | congruence | congruence].
    rewrite concat_app, Hcat. cbn [concat]. rewrite app_nil_r. apply push_segment_split; lia.
  - destruct Hr as (Hs1 & Hss & He1 & Hfull & -> & Hd1 & Hc1). rewrite ret_run.
    pose proof Hss as (Hsl & Hchs & Hsf & Hps & Hcos). exists new.
    unfold same_shape_queue, push_outcome.
    cbn [out_enqueued_frames out_dropped_frames out_published_sequence].
    assert (SLOTS s1 = SLOTS s) as HSs by (unfold SLOTS; congruence).
    split_and!; try done; try lia.
  - destruct Hr as (Hs1 & Hss & Hle & _). pose proof Hss as (Hsl & Hchs & Hsf & Hps & Hcos). exists new.
    split; [done|]. split; [unfold same_shape_queue; split_and!; [congruence|congruence|lia]|].
    exists source. rewrite (Hre s1 e eq_refl). split_and!; try done; lia.
Qed.

(** One push accounts for every frame: what it enqueues is a prefix of the
    input, the rest is counted as dropped, and frames are dropped only when the
    queue is full. An error leaves a prefix enqueued and counted. *)
Theorem try_push_accounting q l input total :
  queue_ok q l -> zlen input = total * channels q -> zlen input <= 2 ^ 61 ->
  drop_counter_exhausted q = false ->
  exists q' o new, try_push input (channels q) q = (q', o) /\ queue_ok q' (l ++ new) /\
    match o with
    | Ok out =>
        concat new = segment input 0 (out_enqueued_frames out * channels q) /\
        out_enqueued_frames out + out_dropped_frames out = total /\
        enqueued_frames q' = enqueued_frames q + out_enqueued_frames out /\
        dropped_frames q' = dropped_frames q + out_dropped_frames out /\
        cumulative_dropped_frames q' = cumulative_dropped_frames q + out_dropped_frames out /\
        published_sequence q' = out_published_sequence out /\
        (out_dropped_frames out <> 0 -> published_sequence q' - consumed_sequence q' = SLOTS q')
    | Err _ => exists k, 0 <= k < total /\ concat new = segment input 0 (k * channels q) /\
        enqueued_frames q' = enqueued_frames q + k
    | Panic => False
    end.
Proof.
  intros Hq Ht Hl He. destruct (push_total q l input total Hq Ht Hl He) as (q' & o & new & E & Hq' & _ & Ho).
  by exists q', o, new.
Qed.

(** ** The calibration boundary *)

(** What producers do to the queue between two loads of the worker: [inside] of
    them are admitted, [leaving] of those have already bumped the generation. A
    push touches neither the admission word nor the generation. *)
Inductive producer_moves : IngressQueue -> Z -> Z -> IngressQueue -> Z -> Z -> Prop :=
  | moves_none q i l : producer_moves q i l q i l
  | moves_acquire q i l q1 q' i' l' :
      acquire_producer q = (q1, Ok tt) -> producer_moves q1 (i + 1) l q' i' l' ->
      producer_moves q i l q' i' l'
  | moves_push q i l input ch q1 o q' i' l' :
      l < i -> try_push input ch q = (q1, o) -> producer_moves q1 i l q' i' l' ->
      producer_moves q i l q' i' l'
  | moves_bump q i l q1 q' i' l' :
      l < i -> bump_generation q = (q1, Ok tt) -> producer_moves q1 i (l + 1) q' i' l' ->
      producer_moves q i l q' i' l'
  | moves_leave q i l q1 q' i' l' :
      0 < l -> leave_producer q = (q1, Ok tt) -> producer_moves q1 (i - 1) (l - 1) q' i' l' ->
      producer_moves q i l q' i' l'.

Definition same_producer_words (q q' : IngressQueue) : Prop :=
  producer_admission q' = producer_admission q /\
  producer_generation q' = producer_generation q /\
  producer_generation_exhausted q' = producer_generation_exhausted q.

#[export] Instance same_producer_words_preorder : PreOrder same_producer_words.
Proof.
  split.
  - intros q. by unfold same_producer_words.
  - intros q1 q2 q3 (? & ? & ?) (? & ? & ?). unfold same_producer_words. split_and!; congruence.
Qed.

Lemma try_push_words input ch : keeps same_producer_words (try_push input ch).
Proof.
  unfold try_push. keep_steps. apply keeps_mloop; [tc_solve|]. intros [source enq].
  unfold push_loop_body, push_turn, reserve, add_dropped_frames, add_cumulative_dropped_frames,
    add_enqueued_frames, fill, publish. keep_steps; done.
Qed.

(** The admission word while it is open or closed with [k] producers inside. *)
Definition admits (q : IngressQueue) (k : Z) : Prop :=
  0 <= k <= PRODUCER_COUNT_MASK /\
  (producer_admission q = k \/ producer_admission q = PRODUCER_OPEN + k).

Lemma admits_count q k : admits q k -> admitted_producers q = k.
Proof.
  unfold admits, admitted_producers, PRODUCER_OPEN, PRODUCER_COUNT_MASK, PRODUCER_OPEN.
  intros [Hk Ha]. change (2 ^ 63 - 1) with (Z.ones 63). rewrite Z.land_ones by lia.
  destruct Ha as [->| ->].
  - apply Z.mod_small. lia.
  - rewrite <- (Z.mul_1_l (2 ^ 63)) at 1. rewrite Z.add_comm, Z.mod_add by lia.
    apply Z.mod_small. lia.
Qed.

Lemma acquire_admits q q' k :
  admits q k -> acquire_producer q = (q', Ok tt) ->
  admits q' (k + 1) /\ producer_generation q' = producer_generation q /\
  producer_generation_exhausted q' = producer_generation_exhausted q.
Proof.
  intros Ha. pose proof (admits_count _ _ Ha) as Hc. unfold admitted_producers in Hc.
  unfold acquire_producer. msteps. destruct (_ =? 0) eqn:E1; msteps; [done|].
  rewrite Hc. destruct (k =? PRODUCER_COUNT_MASK) eqn:E2; msteps; [done|]. to_prop.
  rewrite modify_run. intros Heq. apply pair_equal_spec in Heq as [<- _].
  destruct Ha as [Hk Ha]. split_and!; try done. split; [lia|]. cbn. lia.
Qed.

Lemma leave_admits q q' k :
  0 < k -> admits q k -> leave_producer q = (q', Ok tt) ->
  admits q' (k - 1) /\ producer_generation q' = producer_generation q /\
  producer_generation_exhausted q' = producer_generation_exhausted q.
Proof.
  intros Hk0 [Hk Ha]. unfold leave_producer. rewrite modify_run. intros Heq.
  apply pair_equal_spec in Heq as [<- _]. split; [|done].
  unfold admits, PRODUCER_COUNT_MASK, PRODUCER_OPEN in *. cbn [update producer_admission].
  rewrite wrap64_small by (unfold is_u64, u64_max; lia). lia.
Qed.

Lemma moves_trans q i l q1 i1 l1 q2 i2 l2 :
  producer_moves q i l q1 i1 l1 -> producer_moves q1 i1 l1 q2 i2 l2 ->
  producer_moves q i l q2 i2 l2.
Proof.
  intros H. induction H; intros; eauto using producer_moves.
Qed.

Lemma moves_shape q i l q' i' l' :
  producer_moves q i l q' i' l' -> admits q i -> 0 <= l <= i -> admits q' i' /\ 0 <= l' <= i'.
Proof.
  induction 1 as [q i l | q i l q1 q' i' l' Ha _ IH | q i l input ch q1 o q' i' l' Hl Hp _ IH
    | q i l q1 q' i' l' Hl Hb _ IH | q i l q1 q' i' l' Hl Hlv _ IH]; intros Hi Hli.
  - done.
  - apply IH; [by eapply acquire_admits | lia].
  - pose proof (try_push_words input ch q) as (Hw1 & _). rewrite Hp in Hw1. cbn [fst] in Hw1.
    apply IH; [|done]. unfold admits in *. by rewrite Hw1.
  - unfold bump_generation in Hb. rewrite modify_run in Hb. apply pair_equal_spec in Hb as [<- _].
    apply IH; [|lia]. by destruct (add_checked _ 1).
  - apply IH; [|lia]. apply (leave_admits q q1 i); [lia | done | done].
Qed.

(** The generation counts the producers that have come: it never goes back, and
    it is short of that count by those still to bump it. *)
Lemma moves_generation q i l q' i' l' :
  producer_moves q i l q' i' l' -> admits q i -> 0 <= l <= i ->
  producer_generation_exhausted q' = false ->
  admits q' i' /\ 0 <= l' <= i' /\
  producer_generation_exhausted q = false /\
  producer_generation q + (i - l) <= producer_generation q' + (i' - l') /\
  (producer_generation q + (i - l) = producer_generation q' + (i' - l') -> i = 0 -> q' = q).
Proof.
  induction 1 as [q i l | q i l q1 q' i' l' Ha _ IH | q i l input ch q1 o q' i' l' Hl Hp _ IH
    | q i l q1 q' i' l' Hl Hb _ IH | q i l q1 q' i' l' Hl Hlv _ IH]; intros Hi Hli Hex.
  - split_and!; try done; lia.
  - destruct (acquire_admits _ _ _ Hi Ha) as (Hi1 & Hg & He).
    destruct (IH Hi1 ltac:(lia) Hex) as (? & ? & ? & ? & ?). rewrite He, Hg in *.
    split_and!; try done; lia.
  - pose proof (try_push_words input ch q) as (Hw1 & Hw2 & Hw3). rewrite Hp in *. cbn [fst] in *.
    assert (admits q1 i) as Hi1 by (unfold admits in *; by rewrite Hw1).
    destruct (IH Hi1 Hli Hex) as (? & ? & ? & ? & ?). rewrite Hw2, Hw3 in *.
    split_and!; try done; lia.
  - unfold bump_generation in Hb. rewrite modify_run in Hb. apply pair_equal_spec in Hb as [<- _].
    destruct (add_checked (producer_generation q) 1) as [g|] eqn:E.
    + apply add_checked_inv in E as [-> ?].
      destruct (IH Hi ltac:(lia) Hex) as (? & ? & ? & Hle & ?). cbn in Hle.
      split_and!; try done; lia.
    + destruct (IH Hi ltac:(lia) Hex) as (_ & _ & Hf & _). done.
  - destruct (leave_admits _ _ i ltac:(lia) Hi Hlv) as (Hi1 & Hg & He).
    destruct (IH Hi1 ltac:(lia) Hex) as (? & ? & ? & ? & ?). rewrite He, Hg in *.
    split_and!; try done; lia.
Qed.

(** The calibration boundary is a consistent cut: when the worker's three
    loads succeed, whatever producers did in between, no push ran from the first
    to the last of them, so the sequence and the drop count belong together. *)
Theorem calibration_boundary_consistent q0 q1 q2 q3 i1 l1 i2 l2 i3 l3 g boundary :
  admits q0 0 -> boundary_open q0 = Ok (Some g) ->
  producer_moves q0 0 0 q1 i1 l1 -> producer_moves q1 i1 l1 q2 i2 l2 ->
  producer_moves q2 i2 l2 q3 i3 l3 -> producer_generation_exhausted q3 = false ->
  boundary_confirm g (published_head q1, cumulative_dropped_frames q2) q3 = Some boundary ->
  q3 = q0 /\ boundary = (published_head q0, cumulative_dropped_frames q0).
Proof.
  intros H0 Hopen M1 M2 M3 Hex Hc.
  unfold boundary_open in Hopen. destruct (producer_generation_exhausted q0); [done|].
  destruct (negb _); [done|]. injection Hopen as Hg.
  pose proof (moves_trans _ _ _ _ _ _ _ _ _ M1 M2) as M12.
  pose proof (moves_trans _ _ _ _ _ _ _ _ _ M12 M3) as M.
  destruct (moves_generation _ _ _ _ _ _ M H0 ltac:(lia) Hex) as (Ha3 & Hl3 & _ & Hle & Heq).
  unfold boundary_confirm in Hc. rewrite (admits_count _ _ Ha3) in Hc.
  destruct (i3 =? 0) eqn:E1; [|done]. destruct (producer_generation q3 =? g) eqn:E2; [|done].
  cbn [negb orb] in Hc. injection Hc as <-. to_prop. subst i3.
  destruct (moves_shape _ _ _ _ _ _ M1 H0 ltac:(lia)) as [Ha1 Hl1].
  destruct (moves_shape _ _ _ _ _ _ M12 H0 ltac:(lia)) as [Ha2 Hl2].
  destruct (moves_generation _ _ _ _ _ _ M3 Ha2 Hl2 Hex) as (_ & _ & Hex2 & Hle3 & _).
  destruct (moves_generation _ _ _ _ _ _ M2 Ha1 Hl1 Hex2) as (_ & _ & Hex1 & Hle2 & _).
  destruct (moves_generation _ _ _ _ _ _ M1 H0 ltac:(lia) Hex1) as (_ & _ & _ & Hle1 & Heq1).
  destruct (moves_generation _ _ _ _ _ _ M12 H0 ltac:(lia) Hex2) as (_ & _ & _ & _ & Heq2).
  rewrite (Heq1 ltac:(lia) eq_refl), (Heq2 ltac:(lia) eq_refl), (Heq ltac:(lia) eq_refl).
  done.
Qed.

(** ** Instances

    A mono queue of two slots of two frames. *)

#[local] Instance test_platform : Platform :=
  { sysconf_page_size := 4096; can_allocate := fun _ => true;
    size_of_current_artifact_slot := 88 }.

Definition test_input : list f32 :=
  [S754_finite false 1 0; S754_finite false 2 0; S754_finite false 3 0].

Definition test_queue : IngressQueue :=
  Eval vm_compute in match new 2 2 1 with
                     | Ok q => q
                     | _ => mkQueue [] 0 0 0 0 0 0 0 false 0 0 false
                     end.

Lemma test_queue_new : new 2 2 1 = Ok test_queue.
Proof. vm_compute. reflexivity. Qed.

(** The system after the named methods of the producer and the consumer. *)
Definition test_after_push : IngressQueue :=
  Eval vm_compute in (push_turn test_input 1 3 0 0 test_queue).1.
Definition test_reserved : IngressQueue :=
  Eval vm_compute in (reserve 3 2 2 test_after_push).1.

(** The worker holds the first slot while the producer fills the second. *)
Definition test_system : qsystem :=
  mkQSystem test_reserved (Filling test_input 2 2 1 1) (Consuming 0 (take 2 test_input))
    [take 2 test_input] [take 2 test_input].

Lemma test_steps : qsteps (fresh test_queue) test_system.
Proof.
  eapply qsteps_trans; [apply (step_enter _ test_input); vm_compute; done|].
  eapply qsteps_trans; [eapply step_reserve; vm_compute; reflexivity|].
  eapply qsteps_trans; [eapply step_fill; vm_compute; reflexivity|].
  eapply qsteps_trans; [eapply step_publish; vm_compute; reflexivity|].
  eapply qsteps_trans; [eapply step_peek; vm_compute; reflexivity|].
  eapply qsteps_trans; [eapply step_reserve; vm_compute; reflexivity|].
  eapply qsteps_trans; [eapply step_read; vm_compute; reflexivity|].
  apply qsteps_refl.
Qed.

Ltac small := unfold u32_max; lia.

Lemma ingress_fifo_witness :
  exists rest, log test_system = delivered test_system ++ rest /\
    zlen rest <= SLOTS (queue test_system) /\
    enqueued_frames (queue test_system) * channels (queue test_system) =
      zlen (concat (log test_system)) +
      pending_frames (producer test_system) * channels (queue test_system).
Proof.
  apply (ingress_fifo 2 2 1 test_queue test_system); [small..| exact test_queue_new | exact test_steps].
Defined.

Lemma ingress_slot_exclusive_witness :
  match consumer test_system with
  | Idle => True
  | Reading s | Consuming s _ => s mod SLOTS (queue test_system) <> 1 mod SLOTS (queue test_system)
  end.
Proof.
  apply (ingress_slot_exclusive 2 2 1 test_queue test_system test_input 2 2 1 1);
    [small..| exact test_queue_new | exact test_steps | left; reflexivity].
Defined.

Lemma ingress_no_panic_witness :
  match producer test_system with
  | AtLoop input source enq => source < zlen input / channels (queue test_system) ->
      (reserve (zlen input / channels (queue test_system)) source enq (queue test_system)).2 <> Panic
  | Filling input source _ p n =>
      exists q', fill input (channels (queue test_system)) source p n (queue test_system) = (q', Ok tt)
  | _ => True
  end /\
  match consumer test_system with
  | Reading s =>
      exists xs, slot_samples (queue test_system) s = Some xs /\ zlookup (log test_system) s = Some xs
  | _ => True
  end.
Proof.
  apply (ingress_no_panic 2 2 1 test_queue test_system);
    [small..| exact test_queue_new | exact test_steps].
Defined.

Lemma try_push_accounting_witness :
  exists q' o new, try_push (test_input ++ test_input) (channels test_queue) test_queue = (q', o) /\
    queue_ok q' ([] ++ new) /\
    match o with
    | Ok out =>
        concat new = segment (test_input ++ test_input) 0 (out_enqueued_frames out * channels test_queue) /\
        out_enqueued_frames out + out_dropped_frames out = 6 /\
        enqueued_frames q' = enqueued_frames test_queue + out_enqueued_frames out /\
        dropped_frames q' = dropped_frames test_queue + out_dropped_frames out /\
        cumulative_dropped_frames q' = cumulative_dropped_frames test_queue + out_dropped_frames out /\
        published_sequence q' = out_published_sequence out /\
        (out_dropped_frames out <> 0 -> published_sequence q' - consumed_sequence q' = SLOTS q')
    | Err _ => exists k, 0 <= k < 6 /\
        concat new = segment (test_input ++ test_input) 0 (k * channels test_queue) /\
        enqueued_frames q' = enqueued_frames test_queue + k
    | Panic => False
    end.
Proof.
  apply (try_push_accounting test_queue [] (test_input ++ test_input) 6).
  - apply (new_queue_ok 2 2 1); [small..| exact test_queue_new].
  - reflexivity.
  - vm_compute. discriminate.
  - reflexivity.
Defined.

Lemma calibration_boundary_consistent_witness :
  test_queue = test_queue /\
  (0, 0) = (published_head test_queue, cumulative_dropped_frames test_queue).
Proof.
  apply (calibration_boundary_consistent test_queue test_queue test_queue test_queue 0 0 0 0 0 0 0 (0, 0)).
  - split; [unfold PRODUCER_COUNT_MASK, PRODUCER_OPEN; lia | by right].
  - reflexivity.
  - apply moves_none.
  - apply moves_none.
  - apply moves_none.
  - reflexivity.
  - reflexivity.
Defined.

(** With a push between the first and the last load the boundary is refused. *)
Example boundary_refused :
  let pushed := (try_push_interleaved test_input 1 test_queue).1 in
  boundary_open test_queue = Ok (Some 0) /\ admitted_producers pushed = 0 /\
  boundary_confirm 0 (published_head pushed, 0) pushed = None.
Proof. vm_compute. done. Qed.
