(* ===== verification/CalibrationCapture.v ===== *)
(** * Capturing a calibration (src/capture_arena.rs)

    The state machine of [CalibrationSlot], and the worker's streaming analysis
    of one channel: overlapping windows of squares and peaks, computed by two
    accumulators that take turns. *)
From S2P Require Import Prelude.
From S2P Require Import Errors.
From S2P Require Import MemoryPlan.

Definition CALIBRATION_IDLE : Z := 0.
Definition CALIBRATION_READY : Z := 1.
Definition CALIBRATION_CAPTURING : Z := 2.
Definition CALIBRATION_COMPLETE : Z := 3.
Definition CALIBRATION_LEASED : Z := 4.
Definition CALIBRATION_PREPARING : Z := 5.
Definition CALIBRATION_CANCELLED : Z := 6.
Definition CALIBRATION_FAILED : Z := 7.

(** ** Sample arithmetic *)

(** [f64::from] of an [f32], [as f32], [f32::abs] and [f32::max]. *)
Definition f64_of_f32 (x : f32) : f64 :=
  match x with
  | S754_finite s m e => binary_normalize 53 1024 (cond_Zopp s (Z.pos m)) e s
  | _ => x
  end.
Definition f32_of_f64 (x : f64) : f32 :=
  match x with
  | S754_finite s m e => binary_normalize 24 128 (cond_Zopp s (Z.pos m)) e s
  | _ => x
  end.
Definition f32_abs (x : f32) : f32 := SFabs x.
Definition f32_max (x y : f32) : f32 := f64_max x y.
Definition f64_zero : f64 := S754_zero false.

(** An array of two. *)
Definition get2 {A} (p : A * A) (i : Z) : A := if i =? 0 then p.1 else p.2.
Definition set2 {A} (p : A * A) (i : Z) (x : A) : A * A :=
  if i =? 0 then (x, p.2) else (p.1, x).

(** [buffer[i] = x], which panics out of range. *)
Definition store {A} (buffer : list A) (i : Z) (x : A) : Result (list A) :=
  if (0 <=? i) && (i <? zlen buffer) then Ok (zupdate buffer i (fun _ => x)) else Panic.

Record CalibrationRequest := mkRequest { req_channel : Z; req_frames : Z }.

Record CalibrationCaptureMetadata := mkMetadata {
  meta_frames : Z;
  meta_sample_rate : Z;
  meta_complete_windows : Z;
  meta_partial_final_frames : Z;
  meta_dropped_frames : Z;
  meta_usable : bool;
}.

Record CalibrationSlot := mkSlot {
  cal_state : Z;
  cal_request : option CalibrationRequest;
  cal_metadata : CalibrationCaptureMetadata;
  cal_samples : list f32;
  cal_rms : list f32;
  cal_peak : list f32;
  window_frames : Z;
  hop_frames : Z;
}.
#[export] Instance eta_CalibrationSlot : Eta CalibrationSlot := fun s =>
  mkSlot (cal_state s) (cal_request s) (cal_metadata s) (cal_samples s) (cal_rms s) (cal_peak s)
    (window_frames s) (hop_frames s).

Record CalibrationCapture := mkCapture {
  request : CalibrationRequest;
  first_sequence : Z;
  dropped_at_acceptance : Z;
  copied : Z;
  complete_windows : Z;
  sums : f64 * f64;
  peaks : f32 * f32;
  counts : Z * Z;
  starts : Z * Z;
  started : bool * bool;
  invalid : bool;
}.
#[export] Instance eta_CalibrationCapture : Eta CalibrationCapture := fun c =>
  mkCapture (request c) (first_sequence c) (dropped_at_acceptance c) (copied c)
    (complete_windows c) (sums c) (peaks c) (counts c) (starts c) (started c) (invalid c).

Definition new_capture (r : CalibrationRequest) (boundary : Z * Z) : CalibrationCapture :=
  mkCapture r boundary.1 boundary.2 0 0 (f64_zero, f64_zero) (f32_zero, f32_zero) (0, 0) (0, 0)
    (false, false) false.

(** [CalibrationSlot::new], with the buffers of the session's memory plan. *)
Section construction.
Context `{Platform}.

Definition new_slot (sample_frames windows window hop : Z) : Result CalibrationSlot :=
  let? samples := new_zeroed sample_frames in
  let? rms := new_zeroed windows in
  let? peak := new_zeroed windows in
  Ok (mkSlot CALIBRATION_IDLE None (mkMetadata 0 0 0 0 0 false) samples rms peak window hop).

Definition slot_of_plan (plan : SessionMemoryPlan) : Result CalibrationSlot :=
  new_slot (calibration_sample_frames plan) (calibration_complete_windows plan)
    (calibration_window_frames plan) (calibration_hop_frames plan).
End construction.

(** The validation of a request in [calibrate_channel_until]. *)
Definition check_request (channels : Z) (r : CalibrationRequest) (s : CalibrationSlot)
    : Result unit :=
  if channels <=? req_channel r
  then Err (Validation "calibration channel is out of range")
  else if (req_frames r =? 0) || (zlen (cal_samples s) <? req_frames r)
  then Err (Validation "calibration frame count is outside startup capacity")
  else Ok tt.

(** ** The slot's state machine

    Each compare-exchange is one transition; [None] says that it lost. *)
Definition exchange (from to : Z) (s : CalibrationSlot) : option CalibrationSlot :=
  if cal_state s =? from then Some (s <| cal_state := to |>) else None.

(** [CalibrationSlot::begin], in the two halves around the write of the request. *)
Definition begin_prepare (s : CalibrationSlot) : Result CalibrationSlot :=
  ok_or (exchange CALIBRATION_IDLE CALIBRATION_PREPARING s)
    (ControlInvariant "calibration already pending").

Definition begin_publish (r : CalibrationRequest) (s : CalibrationSlot)
    : CalibrationSlot * Result unit :=
  let s := s <| cal_request := Some r |> in
  match exchange CALIBRATION_PREPARING CALIBRATION_READY s with
  | Some s' => (s', Ok tt)
  | None =>
      if (cal_state s =? CALIBRATION_CANCELLED) || (cal_state s =? CALIBRATION_IDLE)
      then (s <| cal_state := CALIBRATION_IDLE |>,
            Err (CaptureInvariant "calibration capture was cancelled"))
      else (s, Err (ControlInvariant "calibration state changed while preparing"))
  end.

Definition cancel (s : CalibrationSlot) : CalibrationSlot * bool :=
  if (cal_state s =? CALIBRATION_PREPARING) || (cal_state s =? CALIBRATION_CAPTURING)
  then (s <| cal_state := CALIBRATION_CANCELLED |>, true)
  else if cal_state s =? CALIBRATION_READY
  then (s <| cal_state := CALIBRATION_IDLE |>, true)
  else (s, false).

(** The request is read from the cell after the exchange. *)
Definition take_ready (s : CalibrationSlot) : option (CalibrationSlot * CalibrationRequest) :=
  match exchange CALIBRATION_READY CALIBRATION_CAPTURING s, cal_request s with
  | Some s', Some r => Some (s', r)
  | _, _ => None
  end.

(** The worker's acknowledgement of a cancellation. *)
Definition acknowledge_cancel (s : CalibrationSlot) : CalibrationSlot :=
  match exchange CALIBRATION_CANCELLED CALIBRATION_IDLE s with Some s' => s' | None => s end.

Definition fail_slot (s : CalibrationSlot) : CalibrationSlot :=
  if (cal_state s =? CALIBRATION_READY) || (cal_state s =? CALIBRATION_CAPTURING)
  then s <| cal_state := CALIBRATION_FAILED |>
  else if cal_state s =? CALIBRATION_CANCELLED
  then s <| cal_state := CALIBRATION_IDLE |>
  else s.

(** ** The analysis *)

(** The reset of the accumulator whose window starts at [index]. *)
Definition start_window (hop : Z) (c : CalibrationCapture) : CalibrationCapture :=
  let index := copied c in
  if index mod hop =? 0 then
    let a := (index / hop) mod 2 in
    c <| sums ::= (fun p => set2 p a f64_zero) |> <| peaks ::= (fun p => set2 p a f32_zero) |>
      <| counts ::= (fun p => set2 p a 0) |> <| starts ::= (fun p => set2 p a index) |>
      <| started ::= (fun p => set2 p a true) |>
  else c.

(** One accumulator's turn for a sample; the state carries the result buffers. *)
Definition accumulate (sample : f32) (a : Z) (x : CalibrationSlot * CalibrationCapture)
    : Result (CalibrationSlot * CalibrationCapture) :=
  let '(s, c) := x in
  if get2 (started c) a && (get2 (counts c) a <? window_frames s) then
    let sum := f64_add (get2 (sums c) a) (f64_mul (f64_of_f32 sample) (f64_of_f32 sample)) in
    let peak := f32_max (get2 (peaks c) a) (f32_abs sample) in
    let count := wrap64 (get2 (counts c) a + 1) in
    let c := c <| sums ::= (fun p => set2 p a sum) |> <| peaks ::= (fun p => set2 p a peak) |>
               <| counts ::= (fun p => set2 p a count) |> in
    if count =? window_frames s then
      let output := complete_windows c in
      let? rms := store (cal_rms s) output
                    (f32_of_f64 (f64_sqrt (f64_div sum (f64_of_Z count)))) in
      let? peak_buffer := store (cal_peak s) output peak in
      Ok (s <| cal_rms := rms |> <| cal_peak := peak_buffer |>,
          c <| complete_windows ::= (fun n => wrap64 (n + 1)) |>
            <| started ::= (fun p => set2 p a false) |>)
    else Ok (s, c)
  else Ok (s, c).

(** The loop body for one captured sample. *)
Definition capture_sample (sample : f32) (x : CalibrationSlot * CalibrationCapture)
    : Result (CalibrationSlot * CalibrationCapture) :=
  let '(s, c) := x in
  let? buffer := store (cal_samples s) (copied c) sample in
  let s := s <| cal_samples := buffer |> in
  let c := if is_finite sample then c else c <| invalid := true |> in
  let c := start_window (hop_frames s) c in
  let? x := accumulate sample 0 (s, c) in
  let? (s, c) := accumulate sample 1 x in
  Ok (s, c <| copied ::= (fun n => wrap64 (n + 1)) |>).

(** [for frame in 0..frames] over one queue slot of [ch] interleaved channels. *)
Fixpoint capture_frames (input : list f32) (ch frame : Z) (n : nat)
    (x : CalibrationSlot * CalibrationCapture) : Result (CalibrationSlot * CalibrationCapture) :=
  match n with
  | O => Ok x
  | S n' =>
      if copied x.2 =? req_frames (request x.2) then Ok x
      else
        let? sample := unwrap (zlookup input (frame * ch + req_channel (request x.2))) in
        let? x := capture_sample sample x in
        capture_frames input ch (frame + 1) n' x
  end.

(** [finish_calibration]: the frames of the latest started incomplete window, the
    metadata, and the publication unless a cancellation came first. *)
Definition partial_final (window : Z) (c : CalibrationCapture) : Z :=
  let open a := get2 (started c) a && (0 <? get2 (counts c) a) && (get2 (counts c) a <? window) in
  match open 0, open 1 with
  | true, true => if get2 (starts c) 0 <=? get2 (starts c) 1 then get2 (counts c) 1
                  else get2 (counts c) 0
  | true, false => get2 (counts c) 0
  | false, true => get2 (counts c) 1
  | false, false => 0
  end.

Definition finish_calibration (sample_rate cumulative_dropped : Z) (s : CalibrationSlot)
    (c : CalibrationCapture) : CalibrationSlot :=
  let dropped := saturating_sub cumulative_dropped (dropped_at_acceptance c) in
  let s := s <| cal_metadata :=
    mkMetadata (copied c) sample_rate (complete_windows c) (partial_final (window_frames s) c)
      dropped (negb (invalid c) && (dropped =? 0) && (0 <? complete_windows c)) |> in
  match exchange CALIBRATION_CAPTURING CALIBRATION_COMPLETE s with
  | Some s' => s'
  | None => acknowledge_cancel s
  end.

(** [copy_calibration_samples]; [None] for no active capture. *)
Definition copy_calibration_samples (sample_rate cumulative_dropped : Z) (input : list f32)
    (ch frames sequence : Z) (s : CalibrationSlot) (calibration : option CalibrationCapture)
    : Result (CalibrationSlot * option CalibrationCapture) :=
  match calibration with
  | None => Ok (s, None)
  | Some c =>
      if cal_state s =? CALIBRATION_CANCELLED then Ok (acknowledge_cancel s, None)
      else if sequence <? first_sequence c then Ok (s, Some c)
      else
        let? (s, c) := capture_frames input ch 0 (Z.to_nat frames) (s, c) in
        if copied c =? req_frames (request c)
        then Ok (finish_calibration sample_rate cumulative_dropped s c, None)
        else Ok (s, Some c)
  end.

(** ** Specification

    The analysis of a whole recording [xs]: window [w] covers the [W] samples
    from [w * hop] on. *)

Definition sum_ref (l : list f32) : f64 :=
  fold_left (fun acc x => f64_add acc (f64_mul (f64_of_f32 x) (f64_of_f32 x))) l f64_zero.
Definition peak_ref (l : list f32) : f32 :=
  fold_left (fun acc x => f32_max acc (f32_abs x)) l f32_zero.
Definition rms_ref (l : list f32) : f32 :=
  f32_of_f64 (f64_sqrt (f64_div (sum_ref l) (f64_of_Z (zlen l)))).

(** The complete windows of [n] frames. *)
Definition complete_ref (W hop n : Z) : Z := if n <? W then 0 else (n - W) / hop + 1.

Lemma sum_ref_snoc l x :
  sum_ref (l ++ [x]) = f64_add (sum_ref l) (f64_mul (f64_of_f32 x) (f64_of_f32 x)).
Proof. unfold sum_ref. by rewrite fold_left_app. Qed.

Lemma peak_ref_snoc l x : peak_ref (l ++ [x]) = f32_max (peak_ref l) (f32_abs x).
Proof. unfold peak_ref. by rewrite fold_left_app. Qed.

Lemma get2_set2 {A} (p : A * A) a x : get2 (set2 p a x) a = x.
Proof. unfold get2, set2. destruct (a =? 0) eqn:E; by rewrite ?E. Qed.

Lemma get2_set2_ne {A} (p : A * A) a b x :
  (a = 0 /\ b = 1 \/ a = 1 /\ b = 0) -> get2 (set2 p a x) b = get2 p b.
Proof. intros [[-> ->] | [-> ->]]; done. Qed.

Lemma store_Ok {A} (l : list A) i x :
  0 <= i < zlen l -> store l i x = Ok (zupdate l i (fun _ => x)).
Proof. intros. unfold store. repeat decide_cmp. done. Qed.

Section analysis.
Context (W hop : Z) (HW : 0 < W <= 2 * hop) (Hhop : 0 < hop) (HW64 : W <= 2 ^ 62).

(** A window that ends with the frame [n]. *)
Definition ends (n : Z) : bool := (W <=? n + 1) && ((n + 1 - W) mod hop =? 0).
Definition end_window (n : Z) : Z := (n + 1 - W) / hop.

Lemma complete_step n :
  0 <= n ->
  complete_ref W hop (n + 1) = complete_ref W hop n + (if ends n then 1 else 0) /\
  (ends n = true -> complete_ref W hop n = end_window n).
Proof using HW Hhop HW64.
  intros Hn. unfold complete_ref, ends, end_window.
  destruct (W <=? n + 1) eqn:E1; to_prop; cbn [andb].
  2:{ repeat decide_cmp. split; [lia|done]. }
  rewrite (proj2 (Z.ltb_ge (n + 1) W)) by lia.
  pose proof (Z.div_mod (n + 1 - W) hop ltac:(lia)) as Hd.
  pose proof (Z.mod_pos_bound (n + 1 - W) hop ltac:(lia)).
  set (d := (n + 1 - W) / hop) in *. set (m := (n + 1 - W) mod hop) in *.
  assert (0 <= d) by nia.
  destruct (m =? 0) eqn:E2; to_prop.
  - destruct (n <? W) eqn:E3; to_prop.
    + assert (d = 0) by nia. split; lia.
    + assert ((n - W) / hop = d - 1) as ->; [|split; lia].
      symmetry. apply (Z.div_unique_pos _ _ _ (hop - 1)); lia.
  - destruct (n <? W) eqn:E3; to_prop; [lia|].
    assert ((n - W) / hop = d) as ->; [|split; [lia|done]].
    symmetry. apply (Z.div_unique_pos _ _ _ (m - 1)); lia.
Qed.

(** Accumulator [a] holds the first [k] samples of window [w]. *)
Definition holds (xs : list f32) (c : CalibrationCapture) (a w k : Z) : Prop :=
  get2 (sums c) a = sum_ref (segment xs (w * hop) k) /\
  get2 (peaks c) a = peak_ref (segment xs (w * hop) k) /\
  get2 (counts c) a = k /\ get2 (starts c) a = w * hop /\ get2 (started c) a = (k <? W).

(** Accumulator [a] before the sample [n] is taken, and after. *)
Definition ready (xs : list f32) (c : CalibrationCapture) (a : Z) : Prop :=
  let n := zlen xs in
  (exists w, 0 <= w /\ w mod 2 = a /\ w * hop <= n < (w + 2) * hop /\
     holds xs c a w (Z.min W (n - w * hop))) \/
  n < a * hop /\ get2 (started c) a = false.

Definition taken (xs : list f32) (c : CalibrationCapture) (a : Z) : Prop :=
  let n := zlen xs in
  (exists w, 0 <= w /\ w mod 2 = a /\ w * hop < n <= (w + 2) * hop /\
     holds xs c a w (Z.min W (n - w * hop))) \/
  n <= a * hop /\ get2 (started c) a = false.

Lemma start_window_ready xs c a :
  a = 0 \/ a = 1 -> copied c = zlen xs -> taken xs c a -> ready xs (start_window hop c) a.
Proof using HW Hhop HW64.
  intros Ha Hn Ht. unfold start_window, ready. rewrite Hn. set (n := zlen xs) in *.
  pose proof (zlen_nonneg xs) as Hn0. fold n in Hn0.
  pose proof (Z.div_mod n hop ltac:(lia)) as Hd. pose proof (Z.mod_pos_bound n hop ltac:(lia)).
  pose proof (Z.div_pos n hop Hn0 ltac:(lia)). set (j := n / hop) in *.
  pose proof (Z.mod_pos_bound j 2 ltac:(lia)).
  destruct (n mod hop =? 0) eqn:E; to_prop.
  - assert (n = j * hop) as Hj by lia. destruct (Z.eq_dec (j mod 2) a) as [<-|Hne].
    + left. exists j. split_and!; [lia | done | lia | lia |].
      assert (Z.min W (n - j * hop) = 0) as -> by lia.
      unfold holds; cbn [sums peaks counts starts started update]. rewrite !get2_set2.
      rewrite segment_nil, (proj2 (Z.ltb_lt 0 W)) by lia. done.
    + assert (j mod 2 = 0 /\ a = 1 \/ j mod 2 = 1 /\ a = 0) as Hja by lia.
      destruct Ht as [(w & Hw & Hwa & Hr & Hh)|[Hr Hs]].
      * left. exists w. split_and!; [done | done | lia | |].
        -- assert (n <> (w + 2) * hop); [|lia]. intros Hc. assert (j = w + 2) by nia.
           apply Hne. pose proof (Z.div_mod j 2 ltac:(lia)). pose proof (Z.div_mod w 2 ltac:(lia)).
           pose proof (Z.mod_pos_bound w 2 ltac:(lia)). lia.
        -- unfold holds in *; cbn [sums peaks counts starts started update].
           by rewrite !(get2_set2_ne _ _ _ _ Hja).
      * right. cbn [started update]. rewrite (get2_set2_ne _ _ _ _ Hja).
        split; [|done]. assert (n <> a * hop); [|lia]. intros Hc.
        assert (j = a) as -> by nia. apply Hne. by destruct Ha as [-> | ->].
  - destruct Ht as [(w & Hw & Hwa & Hr & Hh)|[Hr Hs]].
    + left. exists w. split_and!; [done | done | lia | | done].
      assert (n <> (w + 2) * hop); [|lia]. intros Hc. apply E. rewrite Hc. apply Z.mod_mul. lia.
    + right. split; [|done]. assert (n <> a * hop); [|lia]. intros Hc. apply E. rewrite Hc.
      apply Z.mod_mul. lia.
Qed.

(** The accumulator that the sample completes. *)
Definition fires (n a : Z) : bool := ends n && (end_window n mod 2 =? a).

Lemma ready_fires (xs : list f32) a w k :
  0 <= w -> w mod 2 = a -> w * hop <= zlen xs < (w + 2) * hop -> k = Z.min W (zlen xs - w * hop) ->
  k < W -> fires (zlen xs) a = (k + 1 =? W).
Proof using HW Hhop HW64.
  intros Hw Hwa Hr -> Hk. set (n := zlen xs) in *. unfold fires, ends, end_window.
  destruct (_ + 1 =? W) eqn:E; to_prop.
  - assert (0 <= w * hop) by (apply Z.mul_nonneg_nonneg; lia).
    assert (n + 1 - W = w * hop) as -> by lia.
    rewrite Z.mod_mul, Z.div_mul by lia. rewrite Hwa, Z.eqb_refl. repeat decide_cmp. done.
  - destruct (W <=? n + 1) eqn:E1; [|done]. to_prop. cbn [andb].
    destruct ((n + 1 - W) mod hop =? 0) eqn:E2; [|done]. to_prop. cbn [andb].
    apply Z.eqb_neq. intros Hp. pose proof (Z.div_mod (n + 1 - W) hop ltac:(lia)) as Hd.
    set (v := (n + 1 - W) / hop) in *.
    assert (n + 1 - W = v * hop) as Hv by lia.
    (* [v] and [w] have the same parity and their distance is less than two *)
    assert (v <> w) by nia. pose proof (Z.div_mod v 2 ltac:(lia)). pose proof (Z.div_mod w 2 ltac:(lia)).
    assert (v < w + 2) by nia. assert (w < v + 2) by nia. lia.
Qed.

Lemma ready_not_fires xs c a :
  a = 0 \/ a = 1 -> ready xs c a ->
  (get2 (started c) a && (get2 (counts c) a <? W)) = false -> fires (zlen xs) a = false.
Proof using HW Hhop HW64.
  intros Ha Hr Hs. set (n := zlen xs) in *. unfold fires, ends, end_window.
  destruct (W <=? n + 1) eqn:E1; [|done]. to_prop. cbn [andb].
  destruct ((n + 1 - W) mod hop =? 0) eqn:E2; [|done]. to_prop. cbn [andb].
  apply Z.eqb_neq. intros Hp. pose proof (Z.div_mod (n + 1 - W) hop ltac:(lia)) as Hd.
  set (v := (n + 1 - W) / hop) in *. assert (n + 1 - W = v * hop) as Hv by lia.
  assert (0 <= v) by nia. pose proof (Z.div_mod v 2 ltac:(lia)).
  destruct Hr as [(w & Hw & Hwa & Hr & _ & _ & Hcnt & _ & Hst)|[Hr _]]; fold n in Hr.
  - pose proof (Z.div_mod w 2 ltac:(lia)). rewrite Hst, Hcnt in Hs. fold n in Hs.
    assert (W <= n - w * hop) by (destruct Hs; to_prop; lia).
    assert (v < w + 2) by nia. assert (w < v) by nia. lia.
  - assert (v < a) by nia. lia.
Qed.

Definition result_window (xs : list f32) : list f32 :=
  segment xs (end_window (zlen xs - 1) * hop) W.

Lemma accumulate_ready xs s c a x :
  a = 0 \/ a = 1 -> window_frames s = W -> ready xs c a -> zlen xs <= 2 ^ 62 ->
  (fires (zlen xs) a = true -> 0 <= complete_windows c < zlen (cal_rms s) /\
     complete_windows c < zlen (cal_peak s)) ->
  exists s' c', accumulate x a (s, c) = Ok (s', c') /\ taken (xs ++ [x]) c' a /\
    (forall b, b = 0 \/ b = 1 -> b <> a -> ready xs c b -> ready xs c' b) /\
    (forall b, b = 0 \/ b = 1 -> b <> a -> taken (xs ++ [x]) c b -> taken (xs ++ [x]) c' b) /\
    request c' = request c /\ first_sequence c' = first_sequence c /\
    dropped_at_acceptance c' = dropped_at_acceptance c /\ copied c' = copied c /\
    invalid c' = invalid c /\
    s' = s <| cal_rms := cal_rms s' |> <| cal_peak := cal_peak s' |> /\
    if fires (zlen xs) a then
      complete_windows c' = wrap64 (complete_windows c + 1) /\
      cal_rms s' = zupdate (cal_rms s) (complete_windows c)
                     (fun _ => rms_ref (result_window (xs ++ [x]))) /\
      cal_peak s' = zupdate (cal_peak s) (complete_windows c)
                     (fun _ => peak_ref (result_window (xs ++ [x])))
    else complete_windows c' = complete_windows c /\ cal_rms s' = cal_rms s /\
         cal_peak s' = cal_peak s.
Proof using HW Hhop HW64.
  intros Ha Hws Hr Hlen Hfit. pose proof (zlen_nonneg xs). unfold accumulate. rewrite Hws.
  assert (zlen (xs ++ [x]) = zlen xs + 1) as Hl1 by (rewrite zlen_app; done).
  destruct (get2 (started c) a && (get2 (counts c) a <? W)) eqn:E.
  2:{ rewrite (ready_not_fires xs c a Ha Hr E). exists s, c. split_and!; try done; [|by destruct s].
      unfold taken. rewrite Hl1. destruct Hr as [(w & Hw & Hwa & Hrr & Hh)|[Hrr Hs]]; [left|right; split; [lia|done]].
      exists w. split_and!; [done | done | lia | lia |].
      destruct Hh as (H1 & H2 & H3 & H4 & H5). rewrite H3, H5 in E.
      assert (Z.min W (zlen xs - w * hop) = W /\ Z.min W (zlen xs + 1 - w * hop) = W) as [E1 E2]
        by (rewrite andb_diag in E; to_prop; lia).
      rewrite E2. rewrite E1 in *. unfold holds. rewrite H1, H2, H3, H4, H5.
      rewrite segment_app_l by lia. done. }
  apply andb_prop in E as [Es Ec]. to_prop.
  destruct Hr as [(w & Hw & Hwa & Hrr & E1 & E2 & E3 & E4 & E5)|[_ Hs]]; [|congruence].
  set (k := Z.min W (zlen xs - w * hop)) in *. rewrite E3 in *.
  assert (k = zlen xs - w * hop) as Hk by (unfold k in *; lia).
  rewrite (ready_fires xs a w k Hw Hwa Hrr eq_refl) in * by done.
  rewrite wrap64_small by (unfold is_u64, u64_max; lia).
  assert (segment (xs ++ [x]) (w * hop) (k + 1) = segment xs (w * hop) k ++ [x]) as Hseg.
  { rewrite segment_split by lia. f_equal; [apply segment_app_l; lia|].
    replace (w * hop + k) with (zlen xs) by lia. by apply segment_app_exact. }
  rewrite E1, E2, <- sum_ref_snoc, <- peak_ref_snoc, <- Hseg.
  set (l := segment (xs ++ [x]) (w * hop) (k + 1)).
  assert (zlen l = k + 1) as Hll by (apply zlen_segment; lia).
  destruct (k + 1 =? W) eqn:EW; to_prop.
  - assert (result_window (xs ++ [x]) = l) as Hres.
    { unfold result_window, end_window, l. rewrite Hl1, EW. f_equal.
      replace (zlen xs + 1 - 1 + 1 - W) with (w * hop) by lia. by rewrite Z.div_mul by lia. }
    rewrite Hres. destruct (Hfit eq_refl) as [Hf1 Hf2].
    cbn [complete_windows update]. rewrite !store_Ok by lia. cbn [obind].
    eexists _, _. split; [done|]. split_and!; try done.
    + left. exists w. rewrite Hl1. split_and!; [done | done | lia | lia |].
      replace (Z.min W (zlen xs + 1 - w * hop)) with (k + 1) by lia. fold l.
      unfold holds; cbn [sums peaks counts starts started update]. rewrite !get2_set2. fold l.
      rewrite E4, EW, Z.ltb_irrefl. done.
    + intros b Hb Hne [(v & ? & ? & ? & Hh)|[? ?]]; [left; exists v | right];
        unfold holds in *; cbn [sums peaks counts starts started update];
        rewrite ?get2_set2_ne by lia; done.
    + intros b Hb Hne [(v & ? & ? & ? & Hh)|[? ?]]; [left; exists v | right];
        unfold holds in *; cbn [sums peaks counts starts started update];
        rewrite ?get2_set2_ne by lia; done.
    + cbn [cal_rms update]. do 2 f_equal. unfold rms_ref. by rewrite Hll.
  - exists s. eexists. split; [done|]. split_and!; try done.
    + left. exists w. rewrite Hl1. split_and!; [done | done | lia | lia |].
      replace (Z.min W (zlen xs + 1 - w * hop)) with (k + 1) by (unfold k in *; lia). fold l.
      unfold holds; cbn [sums peaks counts starts started update]. rewrite !get2_set2. fold l.
      rewrite E4, E5. repeat decide_cmp. done.
    + intros b Hb Hne [(v & ? & ? & ? & Hh)|[? ?]]; [left; exists v | right];
        unfold holds in *; cbn [sums peaks counts starts started update];
        rewrite ?get2_set2_ne by lia; done.
    + intros b Hb Hne [(v & ? & ? & ? & Hh)|[? ?]]; [left; exists v | right];
        unfold holds in *; cbn [sums peaks counts starts started update];
        rewrite ?get2_set2_ne by lia; done.
    + by destruct s.
Qed.
End analysis.
