(* ===== verification/CalibrationTheorems.v ===== *)
(** * The calibration analysis computes the reference (src/capture_arena.rs)

    The streaming analysis of [copy_calibration_samples], frame by frame and slot
    by slot, against the windows of the whole recording; and the transitions of
    the calibration slot. *)
From S2P Require Import Prelude.
From S2P Require Import Errors.
From S2P Require Import MemoryPlan.
From S2P Require Import CalibrationCapture.


(** ** A whole capture *)

(** Some sample is not finite. *)
Definition invalid_ref (l : list f32) : bool := existsb (fun y : f32 => negb (is_finite y)) l.

Lemma invalid_ref_snoc l x : invalid_ref (l ++ [x]) = invalid_ref l || negb (is_finite x).
Proof. unfold invalid_ref. rewrite existsb_app. cbn [existsb]. by rewrite orb_false_r. Qed.

Section captures.
Context (W hop F : Z) (HW : 0 < W <= 2 * hop) (Hhop : 0 < hop) (HW64 : W <= 2 ^ 62)
  (HF : 0 < F <= 2 ^ 61).

(** The samples [xs] captured so far have been analysed. *)
Record analysis_ok (xs : list f32) (s : CalibrationSlot) (c : CalibrationCapture) : Prop := {
  an_window : window_frames s = W;
  an_hop : hop_frames s = hop;
  an_request : req_frames (request c) = F;
  an_copied : copied c = zlen xs;
  an_length : zlen xs <= F <= zlen (cal_samples s);
  an_samples : segment (cal_samples s) 0 (zlen xs) = xs;
  an_complete : complete_windows c = complete_ref W hop (zlen xs);
  an_capacity : complete_ref W hop F <= zlen (cal_rms s) /\
    complete_ref W hop F <= zlen (cal_peak s);
  an_results : forall w, 0 <= w < complete_ref W hop (zlen xs) ->
    zlookup (cal_rms s) w = Some (rms_ref (segment xs (w * hop) W)) /\
    zlookup (cal_peak s) w = Some (peak_ref (segment xs (w * hop) W));
  an_taken : forall a, a = 0 \/ a = 1 -> taken W hop xs c a;
  an_invalid : invalid c = invalid_ref xs;
}.

Lemma complete_mono n m : 0 <= n <= m -> complete_ref W hop n <= complete_ref W hop m.
Proof using HW Hhop HW64 HF.
  intros Hn. unfold complete_ref. destruct (n <? W) eqn:E1, (m <? W) eqn:E2; to_prop; try lia.
  - pose proof (Z.div_pos (m - W) hop). lia.
  - pose proof (Z.div_le_mono (n - W) (m - W) hop). lia.
Qed.

Lemma complete_nonneg n : 0 <= n -> 0 <= complete_ref W hop n <= n.
Proof using HW Hhop HW64 HF.
  intros Hn. unfold complete_ref. destruct (n <? W) eqn:E1; to_prop; [lia|].
  pose proof (Z.div_pos (n - W) hop ltac:(lia) ltac:(lia)).
  pose proof (Z.mul_div_le (n - W) hop ltac:(lia)). nia.
Qed.

(** A window that was complete before stays as it is. *)
Lemma window_prefix (xs : list f32) (x : f32) w :
  0 <= w < complete_ref W hop (zlen xs) ->
  segment (xs ++ [x]) (w * hop) W = segment xs (w * hop) W.
Proof using HW Hhop HW64 HF.
  unfold complete_ref. destruct (zlen xs <? W) eqn:E; [lia|]. to_prop. intros Hw.
  pose proof (Z.mul_div_le (zlen xs - W) hop ltac:(lia)).
  assert (w * hop <= (zlen xs - W) / hop * hop) by (apply Z.mul_le_mono_nonneg_r; lia).
  assert (0 <= w * hop) by (apply Z.mul_nonneg_nonneg; lia).
  apply segment_app_l; lia.
Qed.

Lemma store_prefix (l : list f32) n x xs :
  n = zlen xs -> n < zlen l -> segment l 0 n = xs ->
  segment (zupdate l n (fun _ => x)) 0 (n + 1) = xs ++ [x].
Proof using Type.
  intros -> Hlt Hseg. pose proof (zlen_nonneg xs). unfold segment, zupdate in *. change (Z.to_nat 0) with 0%nat in *.
  rewrite drop_0 in *.
  rewrite (proj2 (Z.leb_le 0 _)) by lia.
  replace (Z.to_nat (zlen xs + 1)) with (S (Z.to_nat (zlen xs))) by lia.
  destruct (zlookup_lt l (zlen xs) ltac:(lia)) as [y Hy]. unfold zlookup in Hy.
  rewrite (proj2 (Z.leb_le 0 _)) in Hy by lia.
  rewrite (take_S_r _ _ x); [|by rewrite list_lookup_alter_eq, Hy].
  f_equal. refine (eq_trans _ Hseg). apply list_eq. intros i.
  destruct (decide (i < Z.to_nat (zlen xs))%nat).
  - rewrite !lookup_take_lt by done. rewrite list_lookup_alter_ne by lia. done.
  - rewrite !lookup_take_ge by lia. done.
Qed.

Lemma capture_sample_ok xs s c x :
  analysis_ok xs s c -> zlen xs < F ->
  exists s' c', capture_sample x (s, c) = Ok (s', c') /\ analysis_ok (xs ++ [x]) s' c' /\
    request c' = request c /\ first_sequence c' = first_sequence c /\
    dropped_at_acceptance c' = dropped_at_acceptance c /\
    cal_state s' = cal_state s /\ cal_metadata s' = cal_metadata s.
Proof using HW Hhop HW64 HF.
  intros [A1 A2 A3 A4 A5 A6 A7 A8 A9 A10 A11] Hlt. set (n := zlen xs) in *.
  pose proof (zlen_nonneg xs) as Hn0. fold n in Hn0.
  assert (zlen (xs ++ [x]) = n + 1) as Hl1 by (rewrite zlen_app; done).
  pose proof (complete_step W hop HW Hhop HW64 n Hn0) as [Hcs Hce].
  pose proof (complete_mono (n + 1) F ltac:(lia)) as Hcm. pose proof (complete_nonneg n Hn0).
  unfold capture_sample. rewrite A4, store_Ok by lia. cbn [obind].
  set (s1 := s <| cal_samples := _ |>).
  set (c1 := if is_finite x then c else c <| invalid := true |>).
  assert (copied c1 = n /\ complete_windows c1 = complete_windows c /\ request c1 = request c /\
    first_sequence c1 = first_sequence c /\ dropped_at_acceptance c1 = dropped_at_acceptance c /\
    (forall a, taken W hop xs c a -> taken W hop xs c1 a) /\
    invalid c1 = invalid_ref (xs ++ [x])) as
    (B1 & B2 & B3 & B4 & B5 & B6 & B7).
  { unfold c1. rewrite invalid_ref_snoc, <- A11.
    destruct (is_finite x); cbn [negb]; split_and!; try done; [by rewrite orb_false_r | by rewrite orb_true_r]. }
  change (hop_frames s1) with (hop_frames s). rewrite A2.
  set (c2 := start_window hop c1).
  assert (copied c2 = n /\ complete_windows c2 = complete_windows c /\ request c2 = request c /\
    first_sequence c2 = first_sequence c /\ dropped_at_acceptance c2 = dropped_at_acceptance c /\
    invalid c2 = invalid c1) as (C1 & C2 & C3 & C4 & C5 & C6)
    by (unfold c2, start_window; destruct (_ =? 0); done).
  assert (forall a, a = 0 \/ a = 1 -> ready W hop xs c2 a) as Hready.
  { intros a Ha. apply start_window_ready; [done.. | by rewrite B1 |]. by apply B6, A10. }
  destruct (accumulate_ready W hop HW Hhop HW64 xs s1 c2 0 x (or_introl eq_refl) A1 (Hready 0 (or_introl eq_refl)))
    as (s3 & c3 & E3 & T3 & R3 & _ & D1 & D2 & D3 & D4 & D5 & D6 & D7).
  { fold n. lia. }
  { fold n. unfold fires. intros Hf. apply andb_prop in Hf as [Hf _]. rewrite Hf in Hcs.
    rewrite C2, A7. change (cal_rms s1) with (cal_rms s). change (cal_peak s1) with (cal_peak s). lia. }
  rewrite E3. cbn [obind]. fold n in D7.
  assert (window_frames s3 = W) as A1' by (rewrite D6; exact A1).
  assert (zlen (cal_rms s3) = zlen (cal_rms s) /\ zlen (cal_peak s3) = zlen (cal_peak s)) as [L1 L2].
  { destruct (fires W hop n 0); destruct D7 as (_ & -> & ->); rewrite ?zlen_zupdate; done. }
  destruct (accumulate_ready W hop HW Hhop HW64 xs s3 c3 1 x (or_intror eq_refl) A1'
              (R3 1 (or_intror eq_refl) ltac:(lia) (Hready 1 (or_intror eq_refl))))
    as (s4 & c4 & E4 & T4 & _ & K4 & G1 & G2 & G3 & G4 & G5 & G6 & G7).
  { fold n. lia. }
  { fold n. intros Hf. assert (fires W hop n 0 = false) as Hf0.
    { unfold fires in *. apply andb_prop in Hf as [-> Hf]. to_prop. rewrite Hf. done. }
    rewrite Hf0 in D7. destruct D7 as (D7 & _). unfold fires in Hf. apply andb_prop in Hf as [Hf _].
    rewrite Hf in Hcs. rewrite D7, C2, A7, L1, L2. lia. }
  rewrite E4. cbn [obind]. fold n in G7. eexists _, _. split; [done|].
  cbn [request first_sequence dropped_at_acceptance update cal_state cal_metadata].
  split; [|split_and!; first [congruence | by rewrite G6, D6]].
  assert (forall p, fires W hop n p = ends W hop n && (end_window W hop n mod 2 =? p)) as Hfires by done.
  pose proof (Z.mod_pos_bound (complete_windows c) 2 ltac:(lia)).
  assert (complete_windows c4 = complete_windows c + (if ends W hop n then 1 else 0) /\
    (if ends W hop n then
       cal_rms s4 = zupdate (cal_rms s) (end_window W hop n) (fun _ => rms_ref (segment (xs ++ [x]) (end_window W hop n * hop) W)) /\
       cal_peak s4 = zupdate (cal_peak s) (end_window W hop n) (fun _ => peak_ref (segment (xs ++ [x]) (end_window W hop n * hop) W))
     else cal_rms s4 = cal_rms s /\ cal_peak s4 = cal_peak s)) as [Hcw Hres].
  { assert (result_window W hop (xs ++ [x]) = segment (xs ++ [x]) (end_window W hop n * hop) W) as Hrw
      by (unfold result_window; rewrite Hl1; do 3 f_equal; lia).
    rewrite Hrw in D7, G7. rewrite !Hfires in D7, G7. rewrite C2 in D7.
    change (cal_rms s1) with (cal_rms s) in D7. change (cal_peak s1) with (cal_peak s) in D7.
    destruct (ends W hop n) eqn:Een; cbn [andb] in D7, G7.
    2:{ destruct D7 as (D7 & D8 & D9), G7 as (-> & -> & ->). rewrite D7, D8, D9. split; [lia|done]. }
    pose proof (Hce eq_refl) as Hew. rewrite <- A7 in Hew. rewrite <- Hew in D7, G7 |- *.
    assert (wrap64 (complete_windows c + 1) = complete_windows c + 1) as Hw
      by (apply wrap64_small; unfold is_u64, u64_max; lia).
    destruct (complete_windows c mod 2 =? 0) eqn:Ep; to_prop.
    - rewrite (proj2 (Z.eqb_neq _ 1)) in G7 by lia.
      destruct D7 as (D7 & D8 & D9), G7 as (-> & -> & ->). rewrite D7, D8, D9. done.
    - rewrite (proj2 (Z.eqb_eq _ 1)) in G7 by lia.
      destruct D7 as (D7 & D8 & D9), G7 as (-> & -> & ->). rewrite D7, D8, D9. done. }
  assert (window_frames s4 = W /\ hop_frames s4 = hop /\ cal_samples s4 = cal_samples s1) as (F1 & F2 & F3)
    by (rewrite G6, D6; done).
  assert (zlen (cal_rms s4) = zlen (cal_rms s) /\ zlen (cal_peak s4) = zlen (cal_peak s)) as [L3 L4].
  { destruct (ends W hop n); destruct Hres as [-> ->]; rewrite ?zlen_zupdate; done. }
  constructor; cbn [copied complete_windows request invalid update]; rewrite ?Hl1.
  - done.
  - done.
  - congruence.
  - rewrite G4, D4, C1, wrap64_small; [done | unfold is_u64, u64_max; lia].
  - rewrite F3. unfold s1; cbn [cal_samples update]. rewrite zlen_zupdate. lia.
  - rewrite F3. unfold s1; cbn [cal_samples update]. apply store_prefix; [done | lia | done].
  - rewrite Hcw, A7, Hcs. done.
  - rewrite L3, L4. done.
  - intros w Hw. destruct (ends W hop n) eqn:Een.
    + destruct Hres as [-> ->]. pose proof (Hce eq_refl) as He.
      destruct (Z.eq_dec w (end_window W hop n)) as [->|Hne].
      * destruct (zlookup_lt (cal_rms s) (end_window W hop n)) as [y1 Hy1]; [lia|].
        destruct (zlookup_lt (cal_peak s) (end_window W hop n)) as [y2 Hy2]; [lia|].
        by rewrite (zlookup_zupdate_eq _ _ _ _ Hy1), (zlookup_zupdate_eq _ _ _ _ Hy2).
      * rewrite !zlookup_zupdate_ne by done. rewrite window_prefix by (fold n; lia).
        apply A9. lia.
    + destruct Hres as [-> ->]. rewrite window_prefix by (fold n; lia). apply A9. lia.
  - intros a [->| ->].
    + apply (K4 0 (or_introl eq_refl) ltac:(lia)) in T3. exact T3.
    + exact T4.
  - congruence.
Qed.
End captures.

(** ** Slots of frames *)

Section captured_slots.
Context (W hop F : Z) (HW : 0 < W <= 2 * hop) (Hhop : 0 < hop) (HW64 : W <= 2 ^ 62)
  (HF : 0 < F <= 2 ^ 61).

(** What no sample changes. *)
Definition same_capture (x y : CalibrationSlot * CalibrationCapture) : Prop :=
  request y.2 = request x.2 /\ first_sequence y.2 = first_sequence x.2 /\
  dropped_at_acceptance y.2 = dropped_at_acceptance x.2 /\
  cal_state y.1 = cal_state x.1 /\ cal_metadata y.1 = cal_metadata x.1.

Lemma capture_frames_ok input ch n : forall frame xs s c,
  analysis_ok W hop F xs s c -> 0 <= req_channel (request c) < ch -> 0 <= frame ->
  (frame + Z.of_nat n) * ch <= zlen input ->
  exists s' c', capture_frames input ch frame n (s, c) = Ok (s', c') /\
    analysis_ok W hop F
      (xs ++ channel_samples input ch (req_channel (request c)) frame
               (Nat.min n (Z.to_nat (F - zlen xs)))) s' c' /\
    same_capture (s, c) (s', c').
Proof using HW Hhop HW64 HF.
  induction n as [|n IH]; intros frame xs s c Ha Hk Hf Hin.
  - exists s, c. cbn. rewrite app_nil_r. done.
  - pose proof (an_request _ _ _ _ _ _ Ha) as Hr. pose proof (an_copied _ _ _ _ _ _ Ha) as Hc.
    pose proof (an_length _ _ _ _ _ _ Ha) as Hl. pose proof (zlen_nonneg xs).
    cbn [capture_frames snd]. rewrite Hc, Hr.
    destruct (zlen xs =? F) eqn:E; to_prop.
    + rewrite E, Z.sub_diag. cbn [Z.to_nat]. rewrite Nat.min_0_r. cbn [channel_samples].
      rewrite app_nil_r. by exists s, c.
    + set (k := req_channel (request c)) in *.
      assert ((frame + 1) * ch <= (frame + Z.of_nat (S n)) * ch)
        by (apply Z.mul_le_mono_nonneg_r; lia).
      assert (0 <= frame * ch) by (apply Z.mul_nonneg_nonneg; lia).
      destruct (zlookup_lt input (frame * ch + k)) as [x Hx]; [lia|].
      rewrite Hx. cbn [unwrap obind].
      destruct (capture_sample_ok W hop F HW Hhop HW64 HF xs s c x Ha ltac:(lia))
        as (s1 & c1 & E1 & Ha1 & B1 & B2 & B3 & B4 & B5).
      rewrite E1. cbn [obind].
      assert (zlen (xs ++ [x]) = zlen xs + 1) as Hl1 by (rewrite zlen_app; done).
      destruct (IH (frame + 1) (xs ++ [x]) s1 c1 Ha1) as (s2 & c2 & E2 & Ha2 & D1 & D2 & D3 & D4 & D5);
        [by rewrite B1 | lia | replace (frame + 1 + Z.of_nat n) with (frame + Z.of_nat (S n)) by lia; done |].
      exists s2, c2. split; [done|]. cbn [fst snd] in *. split.
      2:{ unfold same_capture; cbn [fst snd]. split_and!; congruence. }
      rewrite B1, Hl1, <- app_assoc in Ha2. cbn [app] in Ha2. fold k in Ha2.
      replace (Nat.min (S n) (Z.to_nat (F - zlen xs))) with (S (Nat.min n (Z.to_nat (F - (zlen xs + 1))))) by lia.
      cbn [channel_samples]. rewrite Hx. exact Ha2.
Qed.

(** The frames of the window that the capture ends in, if it is incomplete. *)
Definition partial_ref (n : Z) : Z :=
  let k := n - (n - 1) / hop * hop in if k <? W then k else 0.

Lemma partial_final_ok xs c :
  0 < zlen xs -> (forall a, a = 0 \/ a = 1 -> taken W hop xs c a) ->
  partial_final W c = partial_ref (zlen xs).
Proof using HW Hhop.
  intros Hn Ht. set (n := zlen xs) in *.
  pose proof (Z.div_mod (n - 1) hop ltac:(lia)) as Hd.
  pose proof (Z.mod_pos_bound (n - 1) hop ltac:(lia)).
  pose proof (Z.div_pos (n - 1) hop ltac:(lia) ltac:(lia)).
  unfold partial_ref. set (j := (n - 1) / hop) in *.
  assert (j * hop < n <= (j + 1) * hop) as Hj by lia.
  (* an accumulator whose window is open holds the last window or the one before *)
  assert (forall a, a = 0 \/ a = 1 ->
    (a = j mod 2 -> get2 (starts c) a = j * hop /\ get2 (started c) a = (n - j * hop <? W) /\
       get2 (counts c) a = Z.min W (n - j * hop)) /\
    (a <> j mod 2 -> get2 (started c) a = false \/
       get2 (starts c) a = (j - 1) * hop /\
       get2 (started c) a = (n - (j - 1) * hop <? W) /\
       get2 (counts c) a = Z.min W (n - (j - 1) * hop))) as Hacc.
  { intros a Ha. destruct (Ht a Ha) as [(w & Hw & Hwa & Hr & _ & _ & H3 & H4 & H5)|[Hr Hs]]; fold n in Hr.
    - assert (w < j + 1) by nia. assert (j < w + 2) by nia.
      pose proof (Z.div_mod j 2 ltac:(lia)). pose proof (Z.div_mod w 2 ltac:(lia)).
      pose proof (Z.mod_pos_bound j 2 ltac:(lia)). fold n in H3, H5.
      split; intros Hp.
      + assert (w = j) as -> by lia. split_and!; try done. rewrite H5.
        destruct (n - j * hop <? W) eqn:E; to_prop; [apply Z.ltb_lt | apply Z.ltb_ge]; lia.
      + assert (w = j - 1) as -> by lia. right. split_and!; try done. rewrite H5.
        destruct (n - (j - 1) * hop <? W) eqn:E; to_prop; [apply Z.ltb_lt | apply Z.ltb_ge]; lia.
    - split; [|by left]. intros Hp. assert (0 < j -> hop <= j * hop) by nia.
      destruct Ha as [-> | ->]; [lia|]. destruct (Z.eq_dec j 0) as [Hj0|]; [|lia].
      rewrite Hj0 in Hp. done. }
  pose proof (Z.mod_pos_bound j 2 ltac:(lia)) as Hm.
  assert (j mod 2 = 0 \/ j mod 2 = 1) as Hm2 by lia.
  destruct (Hacc _ Hm2) as [Hj1 _]. destruct (Hj1 eq_refl) as (S1 & S2 & S3).
  assert (1 - j mod 2 = 0 \/ 1 - j mod 2 = 1) as Hm3 by lia.
  destruct (Hacc _ Hm3) as [_ Hj2]. specialize (Hj2 ltac:(lia)).
  assert (forall (o1 o2 : bool), o1 = (n - j * hop <? W) -> (o2 = true -> o1 = true /\ get2 (starts c) (1 - j mod 2) < get2 (starts c) (j mod 2)) ->
    get2 (started c) (j mod 2) && (0 <? get2 (counts c) (j mod 2)) && (get2 (counts c) (j mod 2) <? W) = o1 ->
    get2 (started c) (1 - j mod 2) && (0 <? get2 (counts c) (1 - j mod 2)) && (get2 (counts c) (1 - j mod 2) <? W) = o2 ->
    partial_final W c = if o1 then get2 (counts c) (j mod 2) else 0) as Hpf.
  { intros o1 o2 Ho1 Ho2 Q1 Q2. unfold partial_final.
    destruct Hm2 as [Hp|Hp]; rewrite Hp in *; change (1 - 0) with 1 in *; change (1 - 1) with 0 in *;
      rewrite Q1, Q2; destruct o1, o2; try done; destruct (Ho2 eq_refl) as [Hc Hlt]; try done;
      by decide_cmp. }
  rewrite (Hpf (n - j * hop <? W) (get2 (started c) (1 - j mod 2) && (0 <? get2 (counts c) (1 - j mod 2)) && (get2 (counts c) (1 - j mod 2) <? W))); try done.
  - rewrite S3. destruct (n - j * hop <? W) eqn:E; to_prop; [lia|done].
  - intros Ho. destruct Hj2 as [Hj2|(R1 & R2 & R3)]; [by rewrite Hj2 in Ho|].
    rewrite R2 in Ho. rewrite R1, S1. to_prop. split; [apply Z.ltb_lt|]; lia.
  - rewrite S2, S3. destruct (n - j * hop <? W) eqn:E; to_prop; [|done]. cbn [andb].
    repeat decide_cmp. done.
Qed.
End captured_slots.

(** ** A capture over the worker's slots *)

(** What the worker consumes with one queue slot, and the drop counter then. *)
Record slot_input := mkInput {
  in_samples : list f32;
  in_frames : Z;
  in_sequence : Z;
  in_dropped : Z;
}.

Definition slot_fits (ch : Z) (q : slot_input) : Prop :=
  0 <= in_frames q /\ in_frames q * ch <= zlen (in_samples q).

Fixpoint run_slots (rate ch : Z) (qs : list slot_input)
    (x : CalibrationSlot * option CalibrationCapture)
    : Result (CalibrationSlot * option CalibrationCapture) :=
  match qs with
  | [] => Ok x
  | q :: qs' =>
      let? x := copy_calibration_samples rate (in_dropped q) (in_samples q) ch (in_frames q)
                  (in_sequence q) x.1 x.2 in
      run_slots rate ch qs' x
  end.

(** The samples of channel [k] in the slots from the boundary [first] on. *)
Definition recorded_slot (ch k first : Z) (q : slot_input) : list f32 :=
  if in_sequence q <? first then []
  else channel_samples (in_samples q) ch k 0 (Z.to_nat (in_frames q)).
Definition recorded (ch k first : Z) (qs : list slot_input) : list f32 :=
  concat (map (recorded_slot ch k first) qs).

Lemma recorded_cons ch k first q qs :
  recorded ch k first (q :: qs) = recorded_slot ch k first q ++ recorded ch k first qs.
Proof. done. Qed.

Definition published (W hop rate dropped : Z) (xs : list f32) (s : CalibrationSlot) : Prop :=
  cal_state s = CALIBRATION_COMPLETE /\
  segment (cal_samples s) 0 (zlen xs) = xs /\
  (forall w, 0 <= w < complete_ref W hop (zlen xs) ->
     zlookup (cal_rms s) w = Some (rms_ref (segment xs (w * hop) W)) /\
     zlookup (cal_peak s) w = Some (peak_ref (segment xs (w * hop) W))) /\
  cal_metadata s =
    mkMetadata (zlen xs) rate (complete_ref W hop (zlen xs)) (partial_ref W hop (zlen xs)) dropped
      (negb (invalid_ref xs) && (dropped =? 0) && (0 <? complete_ref W hop (zlen xs))).

Lemma take_channel_samples h ch k n : forall m a,
  take m (channel_samples h ch k a n) = channel_samples h ch k a (Nat.min m n).
Proof.
  induction n as [|n IH]; intros [|m] a; try done.
  cbn [channel_samples take Nat.min]. by rewrite IH.
Qed.

Lemma run_slots_idle rate ch qs s : run_slots rate ch qs (s, None) = Ok (s, None).
Proof. induction qs; [done|]. cbn. done. Qed.

Section captured_runs.
Context (W hop F : Z) (HW : 0 < W <= 2 * hop) (Hhop : 0 < hop) (HW64 : W <= 2 ^ 62)
  (HF : 0 < F <= 2 ^ 61).

Lemma analysis_new s r b :
  window_frames s = W -> hop_frames s = hop -> req_frames r = F -> F <= zlen (cal_samples s) ->
  complete_ref W hop F <= zlen (cal_rms s) -> complete_ref W hop F <= zlen (cal_peak s) ->
  analysis_ok W hop F [] s (new_capture r b).
Proof using HW Hhop HF.
  intros. assert (complete_ref W hop 0 = 0) as Hz0
    by (unfold complete_ref; by rewrite (proj2 (Z.ltb_lt 0 W)) by lia).
  constructor; change (zlen (@nil f32)) with 0; rewrite ?Hz0; try done.
  - lia.
  - lia.
  - intros a Ha. right. split; [destruct Ha as [-> | ->]; unfold zlen; cbn; lia|].
    by destruct Ha as [-> | ->].
Qed.

Lemma finish_published rate dropped xs s c :
  analysis_ok W hop F xs s c -> zlen xs = F -> cal_state s = CALIBRATION_CAPTURING ->
  published W hop rate (saturating_sub dropped (dropped_at_acceptance c)) xs
    (finish_calibration rate dropped s c).
Proof using HW Hhop HF.
  intros Ha Hl Hs. destruct Ha as [A1 A2 A3 A4 A5 A6 A7 A8 A9 A10 A11].
  unfold finish_calibration, exchange. cbn [cal_state update]. rewrite Hs. cbn [Z.eqb].
  rewrite (proj2 (Z.eqb_eq _ _) eq_refl). unfold published. cbn [cal_state cal_samples cal_rms cal_peak cal_metadata update].
  split_and!; [done | done | done |]. change (window_frames _) with (window_frames s).
  rewrite A1, A4, A7, A11, (partial_final_ok W hop HW Hhop xs) by (done || lia). done.
Qed.

Lemma run_slots_ok rate ch qs : forall xs s c,
  analysis_ok W hop F xs s c -> 0 <= req_channel (request c) < ch -> zlen xs < F ->
  cal_state s = CALIBRATION_CAPTURING -> Forall (slot_fits ch) qs ->
  let ys := take (Z.to_nat F) (xs ++ recorded ch (req_channel (request c)) (first_sequence c) qs) in
  exists s' o, run_slots rate ch qs (s, Some c) = Ok (s', o) /\
    if zlen ys <? F then
      cal_state s' = CALIBRATION_CAPTURING /\
      exists c', o = Some c' /\ analysis_ok W hop F ys s' c'
    else o = None /\ exists q, In q qs /\
      published W hop rate (saturating_sub (in_dropped q) (dropped_at_acceptance c)) ys s'.
Proof using HW Hhop HW64 HF.
  induction qs as [|q qs IH]; intros xs s c Ha Hk Hl Hs Hq; cbn zeta.
  - unfold recorded. cbn [map concat run_slots]. rewrite app_nil_r.
    rewrite take_ge by (unfold zlen in *; lia). rewrite (proj2 (Z.ltb_lt _ _)) by done.
    exists s, (Some c). split; [done|]. split; [done|]. by exists c.
  - apply list.Forall_cons in Hq as [[Hq1 Hq2] Hq]. cbn [run_slots]. cbn [fst snd].
    unfold copy_calibration_samples. rewrite Hs.
    change (CALIBRATION_CAPTURING =? CALIBRATION_CANCELLED) with false. cbv iota.
    rewrite recorded_cons. unfold recorded_slot.
    destruct (in_sequence q <? first_sequence c) eqn:Eseq.
    + cbn [obind app].
      destruct (IH xs s c Ha Hk Hl Hs Hq) as (s' & o & E & H).
      exists s', o. split; [exact E|]. destruct (_ <? F); [done|].
      destruct H as (? & q' & ? & ?). split; [done|]. exists q'. split; [by right|done].
    + set (k := req_channel (request c)) in *. set (n := Z.to_nat (in_frames q)).
      destruct (capture_frames_ok W hop F HW Hhop HW64 HF (in_samples q) ch n 0 xs s c Ha Hk ltac:(lia))
        as (s1 & c1 & E1 & Ha1 & B1 & B2 & B3 & B4 & B5).
      { rewrite Z.add_0_l. unfold n. by rewrite Z2Nat.id by lia. }
      rewrite E1. cbn [obind]. fold k in Ha1. cbn [fst snd] in *.
      set (m := Nat.min n (Z.to_nat (F - zlen xs))) in *.
      set (xs1 := xs ++ channel_samples (in_samples q) ch k 0 m) in *.
      pose proof (an_copied _ _ _ _ _ _ Ha1) as Hc1. pose proof (an_request _ _ _ _ _ _ Ha1) as Hr1.
      assert (zlen xs1 = zlen xs + Z.of_nat m) as Hl1 by (unfold xs1; by rewrite zlen_app, zlen_channel_samples).
      rewrite Hc1, Hr1. rewrite app_assoc.
      destruct (zlen xs1 =? F) eqn:EF; to_prop.
      * cbn [obind fst snd]. rewrite run_slots_idle. eexists _, _. split; [done|].
        assert (take (Z.to_nat F) ((xs ++ channel_samples (in_samples q) ch k 0 n) ++
                  recorded ch k (first_sequence c) qs) = xs1) as ->.
        { rewrite take_app_le by (pose proof (zlen_channel_samples (in_samples q) ch k 0 n);
            rewrite length_app; unfold zlen in *; lia).
          rewrite take_app_ge by (unfold zlen in *; lia). unfold xs1. f_equal.
          rewrite take_channel_samples. f_equal. unfold m, zlen. lia. }
        rewrite (proj2 (Z.ltb_ge _ _)) by lia. split; [done|]. exists q. split; [by left|].
        rewrite <- B3. apply finish_published; [done | done | congruence].
      * cbn [obind fst snd].
        destruct (IH xs1 s1 c1 Ha1) as (s' & o & E & H);
          [by rewrite B1 | pose proof (an_length _ _ _ _ _ _ Ha1); lia | congruence | done |].
        rewrite B1, B2, B3 in H. fold k in H.
        assert (m = n) as Hmn.
        { pose proof (an_length _ _ _ _ _ _ Ha1). unfold m in *. lia. }
        exists s', o. split; [exact E|]. unfold xs1 in H. rewrite Hmn in H.
        destruct (_ <? F); [done|]. destruct H as (? & q' & ? & ?). split; [done|].
        exists q'. split; [by right|done].
Qed.
End captured_runs.

(** ** From the plan to the published capture *)

Section planned_captures.
Context `{Platform}.

Lemma new_zeroed_length n (l : list f32) : new_zeroed n = Ok l -> 0 <= n -> zlen l = n.
Proof.
  unfold new_zeroed. intros Hn Hpos. ok_steps.
  destruct (_ || _); [|done]. ok_steps. subst l. unfold zlen. rewrite length_replicate. lia.
Qed.

Lemma calibration_budget_Ok inputs plan :
  calculate inputs = Ok plan -> is_u32 (in_sample_rate inputs) ->
  is_u32 (in_maximum_calibration_seconds inputs) ->
  let W := calibration_window_frames plan in let hop := calibration_hop_frames plan in
  0 < W <= 2 * hop /\ 0 < hop /\ W <= 2 ^ 62 /\
  0 <= calibration_sample_frames plan <= 2 ^ 61 /\
  calibration_complete_windows plan = complete_ref W hop (calibration_sample_frames plan).
Proof.
  unfold calculate. intros Hp Hr Hs. ok_steps. subst plan. cbn zeta.
  cbn [calibration_window_frames calibration_hop_frames calibration_sample_frames
    calibration_complete_windows].
  match goal with Hc : calibration_budget _ = Ok _ |- _ => rename Hc into Hb end.
  match goal with Hv : validate_inputs _ = Ok _ |- _ => destruct x; apply validate_inputs_Ok in Hv as (Hsec & _) end.
  unfold calibration_budget in Hb. ok_steps.
  repeat match goal with Hm : checked_mul _ _ _ = Ok _ |- _ => apply checked_mul_Ok in Hm as [-> ?] end.
  subst. cbn. unfold is_u32, u32_max in *.
  set (rate := in_sample_rate inputs) in *. set (sec := in_maximum_calibration_seconds inputs) in *.
  assert (sec * rate <= 30 * rate) by (apply Z.mul_le_mono_nonneg_r; lia).
  pose proof (div_ceil_spec (rate * 20) 1000 ltac:(lia)).
  pose proof (div_ceil_spec (rate * 10) 1000 ltac:(lia)).
  split_and!; try lia. unfold complete_ref.
  match goal with Hc : context [ok_or (match sub_checked _ _ with _ => _ end) _] |- _ => rename Hc into Hw end.
  set (W := Z.max (div_ceil (rate * 20) 1000) 1) in *.
  set (hop := Z.max (div_ceil (rate * 10) 1000) 1) in *.
  destruct (sec * rate <? W) eqn:E; to_prop.
  - rewrite orb_true_r in Hw. by ok_steps.
  - rewrite (proj2 (Z.eqb_neq _ _)) in Hw by lia. cbn [orb] in Hw. ok_steps.
    destruct (sub_checked _ _) eqn:E2; [|done]. apply sub_checked_inv in E2 as [-> _].
    by apply add_checked_inv in Hw as [-> _].
Qed.

Lemma planned_slot_geometry inputs plan s ch r :
  calculate inputs = Ok plan -> is_u32 (in_sample_rate inputs) ->
  is_u32 (in_maximum_calibration_seconds inputs) -> slot_of_plan plan = Ok s ->
  0 <= req_frames r -> check_request ch r s = Ok tt ->
  let W := window_frames s in let hop := hop_frames s in let F := req_frames r in
  cal_state s = CALIBRATION_IDLE /\ 0 < W <= 2 * hop /\ 0 < hop /\ W <= 2 ^ 62 /\
  0 < F <= 2 ^ 61 /\ F <= zlen (cal_samples s) /\ complete_ref W hop F <= zlen (cal_rms s) /\
  complete_ref W hop F <= zlen (cal_peak s) /\ req_channel r < ch.
Proof.
  intros Hp Hr Hs Hn HF Hc. cbn zeta.
  destruct (calibration_budget_Ok inputs plan Hp Hr Hs) as (HW & Hhop & HW64 & HS & Hcw).
  unfold slot_of_plan, new_slot in Hn. ok_steps. subst s. unfold check_request in Hc.
  cbn [cal_samples cal_rms cal_peak cal_state window_frames hop_frames] in *.
  set (W := calibration_window_frames plan) in *. set (hop := calibration_hop_frames plan) in *.
  destruct (ch <=? _) eqn:E1; [done|]. destruct (_ || _) eqn:E2; [done|]. to_prop.
  pose proof (new_zeroed_length _ _ Hx ltac:(lia)) as L1.
  assert (0 <= complete_ref W hop (calibration_sample_frames plan)) as Hnn.
  { unfold complete_ref. destruct (_ <? W) eqn:E; to_prop; [lia|].
    pose proof (Z.div_pos (calibration_sample_frames plan - W) hop). lia. }
  pose proof (new_zeroed_length _ _ Hx0 ltac:(lia)) as L2.
  pose proof (new_zeroed_length _ _ Hx1 ltac:(lia)) as L3.
  pose proof (complete_mono W hop 1 HW Hhop HW64 ltac:(lia) (req_frames r)
    (calibration_sample_frames plan) ltac:(lia)).
  split_and!; done || lia.
Qed.

(** C31. A calibration request that passes validation against the planned slot is
    captured exactly: begun, published and taken by the worker, it stays
    CAPTURING while the queue slots from the boundary on have brought less than
    the requested frames, and then becomes COMPLETE with the first requested
    frames of the channel in order, the RMS and peak of every overlapping window
    equal to those computed from the recording, the length of the incomplete
    final window, and the usable flag set exactly when no sample was NaN or
    infinite, nothing was dropped since the boundary and there is a complete
    window. *)
Theorem calibration_exact inputs plan rate ch qs s0 r first d0 :
  calculate inputs = Ok plan -> is_u32 (in_sample_rate inputs) ->
  is_u32 (in_maximum_calibration_seconds inputs) -> slot_of_plan plan = Ok s0 ->
  0 <= req_frames r -> 0 <= req_channel r -> check_request ch r s0 = Ok tt ->
  Forall (slot_fits ch) qs ->
  let xs := take (Z.to_nat (req_frames r)) (recorded ch (req_channel r) first qs) in
  exists s1 s2 s3 s4 o,
    begin_prepare s0 = Ok s1 /\ begin_publish r s1 = (s2, Ok tt) /\
    take_ready s2 = Some (s3, r) /\
    run_slots rate ch qs (s3, Some (new_capture r (first, d0))) = Ok (s4, o) /\
    if zlen xs <? req_frames r then
      cal_state s4 = CALIBRATION_CAPTURING /\
    exists c, o = Some c /\ copied c = zlen xs /\ segment (cal_samples s4) 0 (zlen xs) = xs
    else o = None /\ exists q, In q qs /\
    published (window_frames s0) (hop_frames s0) rate (saturating_sub (in_dropped q) d0) xs s4.
Proof.
  intros Hp Hr Hs Hn HF Hk Hc Hq. cbn zeta.
  destruct (planned_slot_geometry inputs plan s0 ch r Hp Hr Hs Hn HF Hc)
    as (Hst & HW & Hhop & HW64 & HF' & G1 & G2 & G3 & G4).
  set (s1 := s0 <| cal_state := CALIBRATION_PREPARING |>).
  set (s2 := s1 <| cal_request := Some r |> <| cal_state := CALIBRATION_READY |>).
  set (s3 := s2 <| cal_state := CALIBRATION_CAPTURING |>).
  assert (analysis_ok (window_frames s0) (hop_frames s0) (req_frames r) [] s3
            (new_capture r (first, d0))) as Ha.
  { apply analysis_new; done. }
  destruct (run_slots_ok _ _ _ HW Hhop HW64 HF' rate ch qs [] s3 _ Ha) as (s4 & o & E & H4);
    [cbn; lia | unfold zlen; cbn; lia | done | done |].
  exists s1, s2, s3, s4, o. cbn [app] in H4. change (req_channel (request _)) with (req_channel r) in H4.
  change (first_sequence _) with first in H4. change (dropped_at_acceptance _) with d0 in H4.
  split_and!; [| done | done | done |].
  - unfold begin_prepare, exchange. rewrite Hst. done.
  - destruct (_ <? req_frames r); [|done]. destruct H4 as (? & c & -> & Hc'). split; [done|].
    exists c. split_and!; [done | apply (an_copied _ _ _ _ _ _ Hc') | apply (an_samples _ _ _ _ _ _ Hc')].
Qed.
End planned_captures.

(** One second at 100 Hz: windows of two frames, one frame apart. *)
#[local] Instance sample_platform : Platform :=
  { sysconf_page_size := 4096; can_allocate := fun _ => true;
    size_of_current_artifact_slot := 88 }.

Definition calibration_inputs : SessionMemoryInputs := {|
  in_retention_frames := 15; in_channels := 2; in_sample_rate := 100;
  in_sample_format := F32Le; in_chunk_frames := 4; in_max_active_snapshots := 1;
  in_sample_bytes := 4; in_split_when_over_bytes := 1000000; in_control_queue_capacity := 2;
  in_worker_stack_bytes := 65536; in_capture_queue_slots := 8; in_capture_slot_frames := 4;
  in_capture_worker_stack_bytes := 262144; in_io_buffer_bytes_per_channel := 4096;
  in_maximum_path_bytes := 512; in_maximum_calibration_seconds := 1;
  in_headroom := S754_finite false 6755399441055744 (-52) |}.

Definition calibration_plan : SessionMemoryPlan :=
  Eval vm_compute in match calculate calibration_inputs with
                     | Ok p => p
                     | _ => sample_plan
                     end.
Definition calibration_slot : CalibrationSlot :=
  Eval vm_compute in match slot_of_plan calibration_plan with
                     | Ok s => s
                     | _ => mkSlot 0 None (mkMetadata 0 0 0 0 0 false) [] [] [] 0 0
                     end.

(** [n as f32] *)
Definition sample_of_Z (n : Z) : f32 := binary_normalize 24 128 n 0 false.

(** Two slots of two frames; the first lies before the boundary. *)
Definition calibration_slots : list slot_input :=
  [mkInput (map sample_of_Z [9; 9; 9; 9]) 2 5 0;
   mkInput (map sample_of_Z [0; 3; 0; -4]) 2 6 0;
   mkInput (map sample_of_Z [0; 0; 0; 7]) 2 7 0].

Lemma calibration_exact_witness :
  exists s1 s2 s3 s4,
    begin_prepare calibration_slot = Ok s1 /\
    begin_publish (mkRequest 1 3) s1 = (s2, Ok tt) /\
    take_ready s2 = Some (s3, mkRequest 1 3) /\
    run_slots 100 2 calibration_slots (s3, Some (new_capture (mkRequest 1 3) (6, 0))) =
      Ok (s4, None) /\
    published 2 1 100 0 (map sample_of_Z [3; -4; 0]) s4.
Proof.
  destruct (calibration_exact calibration_inputs calibration_plan 100 2 calibration_slots
              calibration_slot (mkRequest 1 3) 6 0) as (s1 & s2 & s3 & s4 & o & E1 & E2 & E3 & E4 & H4).
  - vm_compute. reflexivity.
  - split; vm_compute; discriminate.
  - split; vm_compute; discriminate.
  - vm_compute. reflexivity.
  - cbn. lia.
  - cbn. lia.
  - vm_compute. reflexivity.
  - repeat constructor; vm_compute; discriminate.
  - exists s1, s2, s3, s4.
    change (zlen _ <? req_frames _) with false in H4.
    destruct H4 as (-> & q & Hq & Hpub). split_and!; try assumption.
    assert (saturating_sub (in_dropped q) 0 = 0) as Hd
      by (destruct Hq as [<-|[<-|[<-|[]]]]; reflexivity).
    rewrite Hd in Hpub. exact Hpub.
Defined.
