(* ===== verification/CaptureWorker.v ===== *)
(** * The capture worker (src/capture_arena.rs)

    [WorkerState]: two ring epochs that take turns, the commands of the control
    plane, and the loop that interleaves them with the ingress queue. The
    worker's record holds what it shares with other threads (the queue, the
    command slot, the calibration slot); a frozen epoch refers to its ring by
    the index of the shared array, as its [Arc] does. The absolute position of a
    frame is its index in the whole stream that the worker accepted; an epoch's
    base is the absolute position of its first frame. *)
From S2P Require Import Prelude.
From S2P Require Import Errors.
From S2P Require Import MemoryPlan.
From S2P Require Import SampleRing.
From S2P Require Import IngressQueue.
From S2P Require Import CalibrationCapture.

Definition EPOCH_COUNT : Z := 2.
Definition COMMAND_IDLE : Z := 0.
Definition COMMAND_PREPARING : Z := 1.
Definition COMMAND_READY : Z := 2.
Definition COMMAND_TAKING : Z := 3.
Definition COMMAND_PROCESSING : Z := 4.
Definition COMMAND_RESULT_READY : Z := 5.
Definition COMMAND_RESULT_TAKING : Z := 6.
Definition COMMAND_KIND_FREEZE : Z := 1.
Definition COMMAND_KIND_RELEASE : Z := 2.
Definition COMMAND_KIND_CLEAR : Z := 3.
Definition COMMAND_KIND_STATUS : Z := 4.
Definition COMMAND_KIND_SHUTDOWN : Z := 5.

(** ** Data *)

(** [Range<u64>]: start and end. *)
Definition range : Type := (Z * Z).

Record CaptureClearAccounting := mkAccounting {
  acc_arena_runtime_id : Z;
  acc_coordinator_id : Z;
  acc_clear_id : Z;
  expected_active_start : Z;
  pending_retention_lost_frames : Z;
  pending_cleared_frames : Z;
}.

Record CaptureClearReport := mkClearReport {
  report_arena_runtime_id : Z;
  report_coordinator_id : Z;
  report_clear_id : Z;
  report_expected_active_start : Z;
  report_active_absolute_range : range;
  report_pending_retention_lost_frames : Z;
  report_pending_cleared_frames : Z;
  report_cumulative_dropped_frames : Z;
}.

Record CaptureArenaStatus := mkArenaStatus {
  arena_dropped_frames : Z;
  arena_retained_frames : Z;
  arena_capacity_frames : Z;
  arena_last_overrun : option Z;
  arena_active_absolute_range : range;
  arena_ingress_enqueued_frames : Z;
  arena_capture_dropped_frames : Z;
  arena_worker_written_frames : Z;
  arena_worker_dropped_frames : Z;
  arena_frozen_pending : bool;
}.

Record FrozenDescriptor := mkDescriptor {
  desc_ring : Z;
  desc_index : Z;
  desc_generation : Z;
  desc_base : Z;
  desc_absolute_range : range;
  desc_local_range : range;
  desc_channels : Z;
  desc_sample_rate : Z;
  desc_format : SampleFormat;
}.

Record FrozenRecord := mkFrozen { frozen_index : Z; frozen_generation : Z }.

Inductive WorkerCommand :=
  | Freeze (target_sequence : Z) (committed_start : option Z)
  | Release (target_sequence index generation : Z)
  | Clear (target_sequence ingress_dropped_frames : Z) (accounting : CaptureClearAccounting)
  | Status (target_sequence : Z)
  | Shutdown (target_sequence : Z).

Definition target_sequence (c : WorkerCommand) : Z :=
  match c with
  | Freeze t _ | Release t _ _ | Clear t _ _ | Status t | Shutdown t => t
  end.

Inductive WorkerReply :=
  | Frozen (descriptor : option FrozenDescriptor)
  | Released
  | Cleared (report : CaptureClearReport)
  | StatusReply (status : CaptureArenaStatus)
  | ShutdownReply.

(** ** The command slot

    One command and one result at a time; the cells are read only in the states
    in which they were written. *)
Record CommandSlot := mkCommandSlot {
  cmd_state : Z;
  cmd_kind : Z;
  abandoned : bool;
  cmd_command : option WorkerCommand;
  cmd_result : option (Result WorkerReply);
}.
#[export] Instance eta_CommandSlot : Eta CommandSlot := fun s =>
  mkCommandSlot (cmd_state s) (cmd_kind s) (abandoned s) (cmd_command s) (cmd_result s).

Definition new_command_slot : CommandSlot := mkCommandSlot COMMAND_IDLE 0 false None None.

Abbreviation SM := (M CommandSlot LambError).

Definition begin_command (kind : Z) : SM unit :=
  let! s := get in
  fail_if (negb (cmd_state s =? COMMAND_IDLE)) (ControlInvariant "capture command already pending") ;;
  modify (fun s => s <| cmd_state := COMMAND_PREPARING |> <| cmd_kind := kind |>
                     <| abandoned := false |>).

Definition publish_command (c : WorkerCommand) : SM unit :=
  modify (fun s => s <| cmd_command := Some c |> <| cmd_state := COMMAND_READY |>).

Definition ready_target (s : CommandSlot) : option Z :=
  if cmd_state s =? COMMAND_READY then option_map target_sequence (cmd_command s) else None.

(** [expect]s the READY state; the moved-out cell is not read again. *)
Definition take_command : SM WorkerCommand :=
  let! s := get in
  if cmd_state s =? COMMAND_READY then
    let! c := lift (unwrap (cmd_command s)) in
    modify (fun s => s <| cmd_command := None |> <| cmd_state := COMMAND_PROCESSING |>) ;;
    ret c
  else panic.

Definition publish_result (result : Result WorkerReply) : SM unit :=
  modify (fun s => s <| cmd_result := Some result |> <| cmd_state := COMMAND_RESULT_READY |>).

Definition take_result : SM (option (Result WorkerReply)) :=
  let! s := get in
  if cmd_state s =? COMMAND_RESULT_READY then
    let! result := lift (unwrap (cmd_result s)) in
    modify (fun s => s <| cmd_result := None |> <| cmd_kind := 0 |> <| abandoned := false |>
                       <| cmd_state := COMMAND_IDLE |>) ;;
    ret (Some result)
  else ret None.

Definition cancel_preparing : SM bool :=
  let! s := get in
  if cmd_state s =? COMMAND_PREPARING
  then modify (fun s => s <| cmd_state := COMMAND_IDLE |>) ;; ret true
  else ret false.

(** ** The worker's state *)

Record WorkerState := mkWorker {
  queue : IngressQueue;
  command : CommandSlot;
  calibration_shared : CalibrationSlot;
  worker_done : bool;
  final_worker_dropped_frames : Z;
  epochs : list SampleRing;
  active : Z;
  bases : list Z;
  absolute_head : Z;
  next_generation : Z;
  frozen : option FrozenRecord;
  retired_dropped_frames : Z;
  retired_last_overrun : option Z;
  worker_written_frames : Z;
  worker_dropped_frames : Z;
  worker_fault : option string;
  worker_channels : Z;
  worker_sample_rate : Z;
  worker_format : SampleFormat;
  calibration : option CalibrationCapture;
}.
#[export] Instance eta_WorkerState : Eta WorkerState := fun w =>
  mkWorker (queue w) (command w) (calibration_shared w) (worker_done w)
    (final_worker_dropped_frames w) (epochs w) (active w) (bases w) (absolute_head w)
    (next_generation w) (frozen w) (retired_dropped_frames w) (retired_last_overrun w)
    (worker_written_frames w) (worker_dropped_frames w) (worker_fault w) (worker_channels w)
    (worker_sample_rate w) (worker_format w) (calibration w).

Abbreviation WM := (M WorkerState LambError).

(** The state that [allocate_runtime] moves into the worker thread. *)
Definition new_worker (q : IngressQueue) (s : CalibrationSlot) (epoch0 epoch1 : SampleRing)
    (config : RingConfig) : WorkerState :=
  mkWorker q new_command_slot s false 0 [epoch0; epoch1] 0 [0; 0] 0 1 None 0 None 0 0 None
    (cfg_channels config) (cfg_sample_rate config) (cfg_format config) None.

(** A method of the queue, the command slot or an epoch, run by the worker. *)
Definition on_queue {A} (m : M IngressQueue LambError A) : WM A :=
  fun w => let '(q, o) := m (queue w) in (w <| queue := q |>, o).
Definition on_command {A} (m : SM A) : WM A :=
  fun w => let '(s, o) := m (command w) in (w <| command := s |>, o).
Definition on_epoch {A} (i : Z) (m : M SampleRing LambError A) : WM A :=
  fun w => match zlookup (epochs w) i with
           | Some r => let '(r', o) := m r in (w <| epochs ::= (fun l => zupdate l i (fun _ => r')) |>, o)
           | None => (w, Panic)
           end.
Definition epoch_at (i : Z) : WM SampleRing :=
  let! w := get in lift (unwrap (zlookup (epochs w) i)).
Definition base_at (i : Z) : WM Z :=
  let! w := get in lift (unwrap (zlookup (bases w) i)).

(** [Option::is_some] *)
Definition is_some {A} (o : option A) : bool := match o with Some _ => true | None => false end.

(** [let _ = ...] *)
Definition ignore {A} (m : WM A) : WM unit := let! _ := catch m in ret tt.

(** ** Calibration, seen by the worker *)

Definition cancel_calibration_if_requested : WM unit :=
  let! w := get in
  if cal_state (calibration_shared w) =? CALIBRATION_CANCELLED
  then modify (fun w => w <| calibration := None |> <| calibration_shared ::= acknowledge_cancel |>)
  else ret tt.

Definition fail_calibration : WM unit :=
  modify (fun w => w <| calibration := None |> <| calibration_shared ::= fail_slot |>).

Definition set_worker_fault (fault : string) : WM unit :=
  modify (fun w => w <| worker_fault := Some fault |>) ;; fail_calibration.

Definition copy_calibration (input : list f32) (n sequence : Z) : WM unit :=
  let! w := get in
  let! result := lift (copy_calibration_samples (worker_sample_rate w)
                         (cumulative_dropped_frames (queue w)) input (worker_channels w) n sequence
                         (calibration_shared w) (calibration w)) in
  modify (fun w => w <| calibration_shared := result.1 |> <| calibration := result.2 |>).

Definition start_calibration_if_ready : WM unit :=
  let! w := get in
  match calibration_boundary (queue w) with
  | Ok (Some boundary) =>
      match take_ready (calibration_shared w) with
      | Some (s, r) =>
          modify (fun w => w <| calibration_shared := s |>) ;;
          let! w := get in
          if negb (cal_state (calibration_shared w) =? CALIBRATION_CAPTURING)
          then cancel_calibration_if_requested
          else modify (fun w => w <| calibration := Some (new_capture r boundary) |>)
      | None => ret tt
      end
  | Ok None => ret tt
  | _ => set_worker_fault "capture producer generation exhausted"
  end.

(** ** Consuming *)

Definition drop_worker_frames (n : Z) : WM unit :=
  let! added := catch (on_queue (add_cumulative_dropped_frames n)) in
  match added with
  | Ok _ =>
      let! w := get in
      match add_checked (worker_dropped_frames w) n with
      | Some total =>
          modify (fun w => w <| worker_dropped_frames := total |>
                             <| final_worker_dropped_frames := total |>)
      | None => set_worker_fault "capture worker drop counter exhausted"
      end
  | _ => set_worker_fault "capture worker drop counter exhausted"
  end.

Definition consume_samples (now : Z) (input : list f32) (n sequence : Z) : WM unit :=
  let! w := get in
  match worker_fault w with
  | Some _ => fail_calibration ;; ignore (on_queue (add_dropped_frames n))
  | None =>
      match add_checked (absolute_head w) n with
      | None => drop_worker_frames n
      | Some next_absolute =>
          match add_checked (worker_written_frames w) n with
          | None => drop_worker_frames n
          | Some next_written =>
              let! written := catch (on_epoch (active w)
                                       (write_interleaved now input (worker_channels w))) in
              match written with
              | Ok _ =>
                  modify (fun w => w <| absolute_head := next_absolute |>
                                     <| worker_written_frames := next_written |>) ;;
                  copy_calibration input n sequence
              | _ => drop_worker_frames n
              end
          end
      end
  end.

(** The closure of [consume_next] runs between its read and its store. *)
Definition consume_one (now : Z) : WM bool :=
  start_calibration_if_ready ;;
  let! w := get in
  let! next := lift (peek_next (queue w)) in
  match next with
  | None => ret false
  | Some (input, n, sequence) =>
      consume_samples now input n sequence ;;
      on_queue (advance sequence) ;;
      ret true
  end.

(** ** Commands *)

Definition latest_overrun (first second : option Z) : option Z :=
  match first, second with
  | Some a, Some b => Some (Z.max a b)
  | Some a, None => Some a
  | None, b => b
  end.

Definition retire_and_reset (index : Z) : WM unit :=
  let! r := epoch_at index in
  let! st := lift (status r) in
  let! w := get in
  let! retired := lift (ok_or (add_checked (retired_dropped_frames w) (status_dropped_frames st))
                          (ControlInvariant "cumulative dropped frame counter exhausted")) in
  on_epoch index reset ;;
  modify (fun w => w <| retired_dropped_frames := retired |>
    <| retired_last_overrun ::= (fun first => latest_overrun first (status_last_overrun st)) |>).

Definition absolute_counter_exhausted : LambError :=
  ControlInvariant "absolute capture frame counter exhausted".

Definition freeze (committed_start : option Z) : WM (option FrozenDescriptor) :=
  let! w := get in
  fail_if (is_some (frozen w))
    (ControlInvariant "a frozen capture epoch is already pending") ;;
  let old := active w in
  let standby := 1 - old in
  let! old_base := base_at old in
  let! ring := epoch_at old in
  let local_end := write_head_frame ring in
  let! local_oldest := lift (oldest_frame ring) in
  let! absolute_end := lift (ok_or (add_checked old_base local_end) absolute_counter_exhausted) in
  let! absolute_oldest :=
    lift (ok_or (add_checked old_base local_oldest) absolute_counter_exhausted) in
  let absolute_start := Z.max (default absolute_oldest committed_start) absolute_oldest in
  let! generation :=
    if absolute_start <? absolute_end then
      let! g := lift (ok_or (add_checked (next_generation w) 1)
                        (ControlInvariant "frozen epoch generation exhausted")) in
      ret (Some g)
    else ret None in
  retire_and_reset standby ;;
  modify (fun w => w <| bases ::= (fun l => zupdate l standby (fun _ => absolute_head w)) |>
                     <| active := standby |>) ;;
  match generation with
  | None => ret None
  | Some generation =>
      modify (fun w => w <| next_generation := generation |>
                         <| frozen := Some (mkFrozen old generation) |>) ;;
      ret (Some (mkDescriptor old old generation old_base (absolute_start, absolute_end)
                   (wrap64 (absolute_start - old_base), local_end) (worker_channels w)
                   (worker_sample_rate w) (worker_format w)))
  end.

Definition release (index generation : Z) : WM unit :=
  let! w := get in
  let! record := lift (ok_or (frozen w) (ControlInvariant "no frozen capture epoch pending")) in
  fail_if (negb (frozen_index record =? index) || negb (frozen_generation record =? generation))
    (ControlInvariant "frozen capture capability does not match worker state") ;;
  retire_and_reset index ;;
  modify (fun w => w <| frozen := None |>).

Definition active_absolute_range : WM range :=
  let! w := get in
  let! base := base_at (active w) in
  let! ring := epoch_at (active w) in
  let! oldest := lift (oldest_frame ring) in
  let! start := lift (ok_or (add_checked base oldest) absolute_counter_exhausted) in
  let! end_ := lift (ok_or (add_checked base (write_head_frame ring)) absolute_counter_exhausted) in
  ret (start, end_).

Definition clear_command (ingress_dropped_frames : Z) (accounting : CaptureClearAccounting)
    : WM CaptureClearReport :=
  let! range := active_absolute_range in
  let retention_lost := saturating_sub range.1 (expected_active_start accounting) in
  let recoverable_start := Z.max (expected_active_start accounting) range.1 in
  let cleared := saturating_sub range.2 recoverable_start in
  let! pending_lost :=
    lift (ok_or (add_checked (pending_retention_lost_frames accounting) retention_lost)
            (ControlInvariant "pending retention loss counter exhausted")) in
  let! pending_cleared :=
    lift (ok_or (add_checked (pending_cleared_frames accounting) cleared)
            (ControlInvariant "pending cleared frame counter exhausted")) in
  let! w := get in
  let! dropped := lift (ok_or (add_checked ingress_dropped_frames (worker_dropped_frames w))
                          (ControlInvariant exhausted_message)) in
  on_epoch (active w) clear ;;
  ret (mkClearReport (acc_arena_runtime_id accounting) (acc_coordinator_id accounting)
         (acc_clear_id accounting) (expected_active_start accounting) range pending_lost
         pending_cleared dropped).

Definition worker_status : WM CaptureArenaStatus :=
  let! w := get in
  match worker_fault w with
  | Some fault => fail (CaptureInvariant fault)
  | None =>
      let! ring := epoch_at (active w) in
      let! st := lift (status ring) in
      let q := queue w in
      let! dropped :=
        lift (ok_or
          (match add_checked (retired_dropped_frames w) (status_dropped_frames st) with
           | Some total =>
               match add_checked total (dropped_frames q) with
               | Some total => add_checked total (worker_dropped_frames w)
               | None => None
               end
           | None => None
           end) (ControlInvariant "cumulative dropped frame counter exhausted")) in
      let! range := active_absolute_range in
      ret (mkArenaStatus dropped (status_retained_frames st) (status_capacity_frames st)
             (latest_overrun (retired_last_overrun w) (status_last_overrun st)) range
             (enqueued_frames q) (dropped_frames q) (worker_written_frames w)
             (worker_dropped_frames w) (is_some (frozen w)))
  end.

(** The commands that an exhausted drop counter does not refuse. *)
Definition always_processed (c : WorkerCommand) : bool :=
  match c with Release _ _ _ | Shutdown _ => true | _ => false end.

Definition process_command (c : WorkerCommand) : WM WorkerReply :=
  let! w := get in
  fail_if (drop_counter_exhausted (queue w) && negb (always_processed c))
    (CaptureInvariant exhausted_message) ;;
  match c with
  | Freeze _ committed_start => let! d := freeze committed_start in ret (Frozen d)
  | Release _ index generation => release index generation ;; ret Released
  | Clear _ ingress accounting =>
      let! report := clear_command ingress accounting in ret (Cleared report)
  | Status _ => let! st := worker_status in ret (StatusReply st)
  | Shutdown _ => ret ShutdownReply
  end.

(** ** The loop

    One turn of [run]; [true] leaves it. Waiting changes no state. *)
Definition run_turn (now : Z) : WM bool :=
  cancel_calibration_if_requested ;;
  let! w := get in
  if cmd_state (command w) =? COMMAND_PREPARING then ret false
  else
    match ready_target (command w) with
    | Some target =>
        if consumed_head (queue w) <? target then
          let! _ := consume_one now in ret false
        else
          let! c := on_command take_command in
          let shutdown := match c with Shutdown _ => true | _ => false end in
          let! result := catch (process_command c) in
          on_command (publish_result result) ;;
          ret shutdown
    | None => let! _ := consume_one now in ret false
    end.

Definition run_exit : WM unit :=
  fail_calibration ;;
  modify (fun w => w <| worker_done := true |>).

(** ** A frozen epoch

    [FrozenCaptureEpoch]; its ring is read in the shared array. *)
Record FrozenCaptureEpoch := mkEpoch {
  epoch_descriptor : FrozenDescriptor;
  epoch_runtime_id : Z;
  epoch_released : bool;
  epoch_release_pending : bool;
}.
#[export] Instance eta_FrozenCaptureEpoch : Eta FrozenCaptureEpoch := fun e =>
  mkEpoch (epoch_descriptor e) (epoch_runtime_id e) (epoch_released e) (epoch_release_pending e).

Definition frozen_epoch_from_descriptor (runtime_id : Z) (d : FrozenDescriptor)
    : FrozenCaptureEpoch := mkEpoch d runtime_id false false.

Definition epoch_total_frames (e : FrozenCaptureEpoch) : Z :=
  let r := desc_absolute_range (epoch_descriptor e) in wrap64 (r.2 - r.1).

Definition copy_epoch_range_into (rings : list SampleRing) (e : FrozenCaptureEpoch)
    (range : range) : CM Z :=
  let d := epoch_descriptor e in
  fail_if (epoch_released e) (ExportInvariant "frozen capture epoch was released") ;;
  fail_if (epoch_release_pending e) (ExportInvariant "frozen capture release is pending") ;;
  fail_if ((range.1 <? (desc_absolute_range d).1) || ((desc_absolute_range d).2 <? range.2) ||
           (range.2 <? range.1))
    (ExportInvariant "requested absolute range is outside frozen range") ;;
  let! ring := lift (unwrap (zlookup rings (desc_ring d))) in
  copy_interleaved_range_into ring (wrap64 (range.1 - desc_base d)) (wrap64 (range.2 - desc_base d)).
