(* ===== verification/WorkerSpec.v ===== *)
(** * Correctness of the capture worker

    The abstract state of the worker is the stream of the samples it accepted,
    from the first frame on. The active epoch holds the stream from its base on;
    a frozen epoch holds the part that ends where the active one begins. *)
From S2P Require Import Prelude.
From S2P Require Import Errors.
From S2P Require Import MemoryPlan.
From S2P Require Import SampleRing.
From S2P Require Import RingSpec.
From S2P Require Import IngressQueue.
From S2P Require Import CalibrationCapture.
From S2P Require Import CalibrationTheorems.
From S2P Require Import CaptureWorker.

(** ** A ring that nobody pins *)

Record quiet (ch : Z) (r : SampleRing) (h : list f32) : Prop := {
  quiet_inv : ring_inv r h;
  quiet_ch : CH r = ch;
  quiet_active : active_snapshots r = 0;
  quiet_pins : forall c, c ∈ chunks r -> pin_count c = 0;
  quiet_dropped : SampleRing.dropped_frames r = 0;
  quiet_overrun : overrun_lock_poisoned r = false;
}.

Lemma div_ceil_le x y : 0 <= x -> 0 < y -> div_ceil x y <= x.
Proof.
  intros. unfold div_ceil. destruct (Z.eq_dec x 0) as [->|].
  - rewrite Z.div_small; lia.
  - apply Z.lt_succ_r, Z.div_lt_upper_bound; nia.
Qed.

Lemma map_pins_zero (l l' : list Chunk) :
  map pin_count l' = map pin_count l -> (forall c, c ∈ l -> pin_count c = 0) ->
  forall c, c ∈ l' -> pin_count c = 0.
Proof.
  intros Hm Hl c Hc. apply list_elem_of_lookup in Hc as [i Hi].
  assert (map pin_count l' !! i = Some (pin_count c)) as Hp by (by rewrite list_lookup_fmap, Hi).
  rewrite Hm, list_lookup_fmap in Hp. destruct (l !! i) as [c'|] eqn:E; [|done].
  cbn in Hp. apply list_elem_of_lookup_2 in E. specialize (Hl _ E). congruence.
Qed.

Lemma zlookup_elem {A} (l : list A) i x : zlookup l i = Some x -> x ∈ l.
Proof. unfold zlookup. destruct (0 <=? i); [|done]. apply list_elem_of_lookup_2. Qed.

Definition same_overrun_lock (r r' : SampleRing) : Prop :=
  overrun_lock_poisoned r' = overrun_lock_poisoned r.

#[export] Instance same_overrun_lock_preorder : PreOrder same_overrun_lock.
Proof. split; unfold same_overrun_lock; [done | congruence]. Qed.

Lemma write_overrun_lock now input ch : keeps same_overrun_lock (write_interleaved now input ch).
Proof.
  unfold write_interleaved. keep_steps. apply keeps_mloop; [tc_solve|]. intros frame.
  unfold write_loop_body, write_turn, record_overrun, SampleRing.add_dropped_frames, begin_chunk,
    copy_to_chunk, chunk_at. keep_steps; try done.
Qed.

Lemma quiet_write ch r h now input n :
  quiet ch r h -> zlen input = n * ch -> zlen input <= 2 ^ 61 -> HEAD r + n < u64_max ->
  exists r', write_interleaved now input ch r = (r', Ok tt) /\ quiet ch r' (h ++ input) /\
    HEAD r' = HEAD r + n /\ clear_after_frame r' = clear_after_frame r /\ cfg r' = cfg r.
Proof.
  intros [Hi Hch Ha Hp Hd Ho] Hn Hl Hh. pose proof (write_overrun_lock now input ch r) as Hov.
  unfold same_overrun_lock in Hov. rewrite <- Hch in Hn.
  destruct (write_refines r h now input n Hi Hn ltac:(lia)) as (r' & o & k & Hw & Hk & Hs & Hi' & Hres).
  rewrite <- Hch in *. rewrite Hw in Hov. cbn [fst] in Hov.
  pose proof (map_pins_zero _ _ (pins_count _ _ Hs) Hp) as Hp'.
  assert (CH r' = CH r) as Hc' by (unfold CH; by rewrite (pins_cfg _ _ Hs)).
  pose proof (inv_ch _ _ Hi) as Hcp. pose proof (inv_head _ _ Hi) as [Hh0 _].
  pose proof (inv_cf _ _ Hi') as Hcf.
  assert (HEAD r' = HEAD r + k) as HH.
  { pose proof (inv_hist _ _ Hi') as E. rewrite zlen_app, (inv_hist _ _ Hi), Hc' in E.
    rewrite zlen_segment in E by (try apply Z.mul_nonneg_nonneg; nia). nia. }
  destruct o as [[]|e|]; [| | done].
  - destruct Hres as [Hd' Hk']. assert (k = n) as ->.
    { destruct (Z.eq_dec k n); [done|]. destruct Hk' as (c & Hc & Hpc); [lia|].
      specialize (Hp' c (zlookup_elem _ _ _ Hc)). lia. }
    exists r'. split; [done|]. split; [|split_and!; [done | apply Hs | apply Hs]].
    rewrite <- Hn, segment_0_all in Hi' by done.
    constructor; [done | done | | done | lia | congruence]. rewrite (pins_active _ _ Hs). done.
  - destruct Hres as (Hd' & Hk' & Hex). exfalso.
    pose proof (div_ceil_le (HEAD r') (CF r') ltac:(lia) ltac:(lia)).
    pose proof (inv_seq _ _ Hi') as Hseq. unfold BLOCKS in Hseq.
    destruct Hex as [Hex|[Hex|Hex]]; lia.
Qed.

Lemma quiet_reset ch r h :
  quiet ch r h -> exists r', reset r = (r', Ok tt) /\ quiet ch r' [] /\ HEAD r' = 0.
Proof.
  intros [Hi Hch Ha Hp Hd Ho]. pose proof (reset_refines r h Hi) as Hr.
  assert (exists r', reset r = (r', Ok tt)) as [r' E].
  { unfold reset. msteps. rewrite (inv_locks _ _ Hi), Ho, Ha. msteps. rewrite Z.eqb_refl. cbn [negb orb].
    destruct (existsb (fun c => negb _) _) eqn:E1.
    { apply existsb_exists in E1 as (c & Hc & E1). rewrite Hp in E1 by (by apply list_elem_of_In). done. }
    msteps. destruct (existsb (is_state Writing) _) eqn:E2; [|msteps; rewrite modify_run; eauto].
    apply existsb_exists in E2 as (c & Hc & E2). exfalso.
    apply list_elem_of_In, list_elem_of_lookup in Hc as [i Hi'].
    destruct (inv_chunks _ _ Hi (Z.of_nat i) c) as (_ & _ & _ & Hw & _).
    { unfold zlookup. by rewrite (proj2 (Z.leb_le 0 _)), Nat2Z.id by lia. }
    by apply is_state_spec in E2. }
  exists r'. split; [done|]. pose proof E as E'. rewrite E in Hr. destruct Hr as (Hi' & HH & Hd' & Hc & _ & _).
  split; [|done]. unfold reset in E'. revert E'. msteps. rewrite (inv_locks _ _ Hi), Ho. msteps.
  destruct (negb _ || _); msteps; [done|]. destruct (existsb (is_state Writing) _); msteps; [done|].
  rewrite modify_run. intros [= <-].
  constructor; try done. intros c Hc'. cbn in Hc'. apply list_elem_of_fmap in Hc' as (c0 & -> & Hc0).
  cbn. by apply Hp.
Qed.

Lemma quiet_clear ch r h :
  quiet ch r h ->
  exists r', clear r = (r', Ok tt) /\ quiet ch r' h /\ OLDEST r' = HEAD r' /\ HEAD r' = HEAD r.
Proof.
  intros [Hi Hch Ha Hp Hd Ho]. destruct (clear_refines r h Hi) as (r' & E & Hi' & Hol & HH).
  exists r'. split_and!; try done. unfold clear in E. rewrite modify_run in E. injection E as <-.
  constructor; done.
Qed.

Lemma quiet_oldest ch r h : quiet ch r h -> oldest_frame r = Ok (OLDEST r).
Proof. intros Hq. apply (oldest_frame_at_spec (quiet_inv _ _ _ Hq)). Qed.

Lemma quiet_status ch r h :
  quiet ch r h ->
  exists st, status r = Ok st /\ status_dropped_frames st = 0 /\
    status_retained_frames st = HEAD r - OLDEST r /\ status_last_overrun st = last_overrun r.
Proof.
  intros Hq. pose proof (oldest_le_head (quiet_inv _ _ _ Hq)).
  unfold status, write_head_frame. change (global_write_frame r) with (HEAD r).
  rewrite (oldest_frame_at_spec (quiet_inv _ _ _ Hq)). cbn [obind]. eexists. split; [done|]. cbn.
  split_and!; [apply Hq | unfold saturating_sub; lia | done].
Qed.

(** ** The calibration slot inside the worker *)

(** What the control plane may put into the slot: any state, a valid request. *)
Record slot_ok (ch : Z) (s : CalibrationSlot) : Prop := {
  so_window : 0 < window_frames s <= 2 * hop_frames s;
  so_hop : 0 < hop_frames s;
  so_window64 : window_frames s <= 2 ^ 62;
  so_samples : zlen (cal_samples s) <= 2 ^ 61;
  so_results : complete_ref (window_frames s) (hop_frames s) (zlen (cal_samples s)) <= zlen (cal_rms s) /\
    complete_ref (window_frames s) (hop_frames s) (zlen (cal_samples s)) <= zlen (cal_peak s);
  so_request : forall r, cal_request s = Some r ->
    0 <= req_channel r < ch /\ 0 < req_frames r <= zlen (cal_samples s);
}.

(** The slots that differ only in their state, request and metadata. *)
Definition same_buffers (s s' : CalibrationSlot) : Prop :=
  window_frames s' = window_frames s /\ hop_frames s' = hop_frames s /\
  cal_samples s' = cal_samples s /\ cal_rms s' = cal_rms s /\ cal_peak s' = cal_peak s.

Definition capture_ok (ch : Z) (s : CalibrationSlot) (o : option CalibrationCapture) : Prop :=
  forall c, o = Some c ->
    0 <= req_channel (request c) < ch /\ 0 < req_frames (request c) <= 2 ^ 61 /\
    exists xs, analysis_ok (window_frames s) (hop_frames s) (req_frames (request c)) xs s c.

Lemma analysis_same_buffers W hop F xs s s' c :
  same_buffers s s' -> analysis_ok W hop F xs s c -> analysis_ok W hop F xs s' c.
Proof.
  intros (E1 & E2 & E3 & E4 & E5) []. constructor; rewrite ?E1, ?E2, ?E3, ?E4, ?E5; done.
Qed.

Lemma capture_same_buffers ch s s' o : same_buffers s s' -> capture_ok ch s o -> capture_ok ch s' o.
Proof.
  intros Hs Hc c ->. destruct (Hc c eq_refl) as (H1 & H2 & xs & H3). split; [done|]. split; [done|].
  exists xs. pose proof Hs as (E1 & E2 & _). rewrite E1, E2. by eapply analysis_same_buffers.
Qed.

Lemma slot_same_buffers ch s s' :
  same_buffers s s' -> cal_request s' = cal_request s -> slot_ok ch s -> slot_ok ch s'.
Proof.
  intros (E1 & E2 & E3 & E4 & E5) Hr []. constructor; rewrite ?E1, ?E2, ?E3, ?E4, ?E5, ?Hr; done.
Qed.

Lemma acknowledge_buffers s :
  same_buffers s (acknowledge_cancel s) /\ cal_request (acknowledge_cancel s) = cal_request s.
Proof. unfold acknowledge_cancel, exchange, same_buffers. by destruct (_ =? _). Qed.

Lemma fail_slot_buffers s :
  same_buffers s (fail_slot s) /\ cal_request (fail_slot s) = cal_request s.
Proof. unfold fail_slot, same_buffers. destruct (_ || _); [done|]. by destruct (_ =? _). Qed.

Lemma finish_buffers rate dropped s c :
  same_buffers s (finish_calibration rate dropped s c) /\
  cal_request (finish_calibration rate dropped s c) = cal_request s.
Proof.
  unfold finish_calibration. set (s1 := s <| cal_metadata := _ |>).
  destruct (exchange _ _ s1) as [s2|] eqn:E.
  - unfold exchange in E. destruct (cal_state s1 =? CALIBRATION_CAPTURING); [|done]. injection E as <-. by unfold same_buffers.
  - destruct (acknowledge_buffers s1) as [(E1 & E2 & E3 & E4 & E5) E6].
    unfold same_buffers. rewrite E1, E2, E3, E4, E5, E6. done.
Qed.

(** The slots whose buffers have the same lengths. *)
Definition same_shape (s s' : CalibrationSlot) : Prop :=
  window_frames s' = window_frames s /\ hop_frames s' = hop_frames s /\
  cal_request s' = cal_request s /\ zlen (cal_samples s') = zlen (cal_samples s) /\
  zlen (cal_rms s') = zlen (cal_rms s) /\ zlen (cal_peak s') = zlen (cal_peak s).

#[export] Instance same_shape_preorder : PreOrder same_shape.
Proof.
  split.
  - intros s. done.
  - intros s1 s2 s3 (? & ? & ? & ? & ? & ?) (? & ? & ? & ? & ? & ?). split_and!; congruence.
Qed.

Lemma slot_same_shape ch s s' : same_shape s s' -> slot_ok ch s -> slot_ok ch s'.
Proof.
  intros (E1 & E2 & E3 & E4 & E5 & E6) []. constructor; rewrite ?E1, ?E2, ?E3, ?E4, ?E5, ?E6; done.
Qed.

Lemma store_shape {A} (l l' : list A) i x : store l i x = Ok l' -> zlen l' = zlen l.
Proof. unfold store. destruct (_ && _); [|done]. intros [= <-]. apply zlen_zupdate. Qed.

Lemma accumulate_shape x a s c s' c' : accumulate x a (s, c) = Ok (s', c') -> same_shape s s'.
Proof.
  unfold accumulate. destruct (_ && _); [|by intros [= <- <-]].
  destruct (_ =? _); [|by intros [= <- <-]]. intros Hs. ok_steps.
  injection Hs as <- <-. apply store_shape in Hx, Hx0. by unfold same_shape; cbn.
Qed.

Lemma capture_sample_shape x s c s' c' : capture_sample x (s, c) = Ok (s', c') -> same_shape s s'.
Proof.
  unfold capture_sample. intros Hs. ok_steps. destruct x1 as [s1 c1], x2 as [s2 c2].
  apply accumulate_shape in Hx0, Hx1. apply store_shape in Hx. injection Hs as <- <-.
  etrans; [|done]. etrans; [|done]. by unfold same_shape; cbn.
Qed.

Lemma capture_frames_shape input ch n : forall frame s c s' c',
  capture_frames input ch frame n (s, c) = Ok (s', c') -> same_shape s s'.
Proof.
  induction n as [|n IH]; intros frame s c s' c'; cbn [capture_frames snd]; [by intros [= <- <-]|].
  destruct (_ =? _); [by intros [= <- <-]|]. intros Hs. ok_steps. destruct x0 as [s1 c1].
  etrans; [by eapply capture_sample_shape | by eapply IH].
Qed.

(** The worker's own steps on the slot. *)
Lemma copy_calibration_ok ch s o rate dropped input n sequence :
  slot_ok ch s -> capture_ok ch s o -> 0 <= n -> n * ch <= zlen input ->
  exists s' o', copy_calibration_samples rate dropped input ch n sequence s o = Ok (s', o') /\
    slot_ok ch s' /\ capture_ok ch s' o'.
Proof.
  intros Hs Hc Hn Hin. unfold copy_calibration_samples. destruct o as [c|]; [|by eauto].
  destruct (Hc c eq_refl) as (Hk & HF & xs & Ha).
  destruct (_ =? CALIBRATION_CANCELLED).
  { destruct (acknowledge_buffers s). eexists _, _. split; [done|].
    split; [by eapply slot_same_buffers | done]. }
  destruct (sequence <? _); [by eauto|].
  destruct (capture_frames_ok (window_frames s) (hop_frames s) (req_frames (request c))
              (so_window _ _ Hs) (so_hop _ _ Hs) (so_window64 _ _ Hs) HF input ch (Z.to_nat n) 0 xs s c
              Ha Hk ltac:(lia)) as (s1 & c1 & E1 & Ha1 & B1 & _).
  { rewrite Z.add_0_l, Z2Nat.id by lia. done. }
  rewrite E1. cbn [obind]. cbn [fst snd] in B1.
  pose proof (capture_frames_shape _ _ _ _ _ _ _ _ E1) as Hsh.
  pose proof (slot_same_shape _ _ _ Hsh Hs) as Hs1.
  destruct (_ =? _).
  - destruct (finish_buffers rate dropped s1 c1). eexists _, _. split; [done|].
    split; [by eapply slot_same_buffers | done].
  - eexists _, _. split; [done|]. split; [done|]. intros c2 [= <-]. rewrite B1.
    split; [done|]. split; [done|]. eexists. pose proof Hsh as (-> & -> & _). exact Ha1.
Qed.

(** ** The invariant *)

Record worker_view (w : WorkerState) (H : list f32) (ra rs : SampleRing) (ba bs : Z) (hs : list f32)
    : Prop := {
  wv_ch : 0 < worker_channels w <= u32_max;
  wv_active : active w = 0 \/ active w = 1;
  wv_epochs : zlookup (epochs w) (active w) = Some ra /\ zlookup (epochs w) (1 - active w) = Some rs;
  wv_bases : zlookup (bases w) (active w) = Some ba /\ zlookup (bases w) (1 - active w) = Some bs;
  wv_base : 0 <= ba;
  wv_head : absolute_head w = ba + HEAD ra /\ absolute_head w < u64_max;
  wv_written : worker_written_frames w = absolute_head w;
  wv_stream : zlen H = absolute_head w * worker_channels w;
  wv_quiet : quiet (worker_channels w) ra
    (segment H (ba * worker_channels w) (HEAD ra * worker_channels w));
  wv_standby : quiet (worker_channels w) rs hs;
  wv_frozen : forall f, frozen w = Some f ->
    frozen_index f = 1 - active w /\ frozen_generation f = next_generation w /\
    0 <= bs /\ bs + HEAD rs = ba /\
    hs = segment H (bs * worker_channels w) (HEAD rs * worker_channels w);
  wv_generation : 1 <= next_generation w <= u64_max;
  wv_retired : retired_dropped_frames w = 0;
  wv_slot : slot_ok (worker_channels w) (calibration_shared w);
  wv_capture : capture_ok (worker_channels w) (calibration_shared w) (calibration w);
}.

Definition worker_inv (w : WorkerState) (H : list f32) : Prop :=
  exists ra rs ba bs hs, worker_view w H ra rs ba bs hs.

(** The frozen epoch, its ring and its base are left alone. *)
Definition keeps_frozen (w w' : WorkerState) : Prop :=
  forall f, frozen w = Some f ->
    frozen w' = Some f /\ next_generation w' = next_generation w /\
    zlookup (epochs w') (frozen_index f) = zlookup (epochs w) (frozen_index f) /\
    zlookup (bases w') (frozen_index f) = zlookup (bases w) (frozen_index f).

#[export] Instance keeps_frozen_preorder : PreOrder keeps_frozen.
Proof.
  split.
  - intros w f Hf. done.
  - intros w1 w2 w3 H1 H2 f Hf. destruct (H1 f Hf) as (Hf2 & G2 & E2 & B2).
    destruct (H2 f Hf2) as (Hf3 & G3 & E3 & B3). split_and!; congruence.
Qed.

(** The part of the state that the calibration and the counters do not touch. *)
Definition same_core (w w' : WorkerState) : Prop :=
  epochs w' = epochs w /\ active w' = active w /\ bases w' = bases w /\
  absolute_head w' = absolute_head w /\ next_generation w' = next_generation w /\
  frozen w' = frozen w /\ retired_dropped_frames w' = retired_dropped_frames w /\
  worker_written_frames w' = worker_written_frames w /\
  worker_channels w' = worker_channels w /\ worker_sample_rate w' = worker_sample_rate w.

#[export] Instance same_core_preorder : PreOrder same_core.
Proof.
  split.
  - intros w. unfold same_core. done.
  - intros w1 w2 w3. unfold same_core. intros. destruct_and!. split_and!; congruence.
Qed.

Lemma same_core_view w w' H ra rs ba bs hs :
  same_core w w' -> slot_ok (worker_channels w') (calibration_shared w') ->
  capture_ok (worker_channels w') (calibration_shared w') (calibration w') ->
  worker_view w H ra rs ba bs hs -> worker_view w' H ra rs ba bs hs.
Proof.
  intros (E1 & E2 & E3 & E4 & E5 & E6 & E7 & E8 & E9 & _) Hs Hc [].
  constructor; rewrite ?E1, ?E2, ?E3, ?E4, ?E5, ?E6, ?E7, ?E8, ?E9; try done; by rewrite <- E9.
Qed.

Lemma same_core_keeps w w' : same_core w w' -> keeps_frozen w w'.
Proof. intros (E1 & E2 & E3 & E4 & E5 & E6 & _) f Hf. rewrite E1, E3, E5, E6. done. Qed.

(** The standby epoch and its base, under an update of the active ones. *)
Lemma two_indices i : i = 0 \/ i = 1 -> i <> 1 - i /\ (1 - i = 0 \/ 1 - i = 1).
Proof. lia. Qed.

Lemma on_epoch_run {A} i (m : M SampleRing LambError A) w r r' o :
  zlookup (epochs w) i = Some r -> m r = (r', o) ->
  on_epoch i m w = (w <| epochs ::= (fun l => zupdate l i (fun _ => r')) |>, o).
Proof. intros Hr Hm. unfold on_epoch. by rewrite Hr, Hm. Qed.

Lemma fail_calibration_run w :
  fail_calibration w = (w <| calibration := None |> <| calibration_shared ::= fail_slot |>, Ok tt).
Proof. done. Qed.

Lemma no_capture_ok ch s : capture_ok ch s None.
Proof. by intros c. Qed.

Lemma fail_slot_ok ch s : slot_ok ch s -> slot_ok ch (fail_slot s).
Proof. destruct (fail_slot_buffers s). by apply slot_same_buffers. Qed.

Lemma acknowledge_ok ch s : slot_ok ch s -> slot_ok ch (acknowledge_cancel s).
Proof. destruct (acknowledge_buffers s). by apply slot_same_buffers. Qed.

Lemma catch_run {S E A} (m : M S E A) s s' o :
  m s = (s', o) -> o <> Panic -> catch m s = (s', Ok o).
Proof. intros Hm Ho. unfold catch. rewrite Hm. by destruct o. Qed.

(** The queue's counters never panic. *)
Lemma add_cumulative_total n q :
  exists q' o, add_cumulative_dropped_frames n q = (q', o) /\ o <> Panic.
Proof.
  unfold add_cumulative_dropped_frames, checked_atomic_add. msteps.
  destruct (drop_counter_exhausted q); msteps; [by eexists _, _|].
  destruct (add_checked _ _); cbn [ok_or]; [by eexists _, _|]. msteps. by eexists _, _.
Qed.

Lemma add_dropped_total n q : exists q' o, add_dropped_frames n q = (q', o) /\ o <> Panic.
Proof.
  unfold add_dropped_frames. destruct (add_cumulative_total n q) as (q1 & o1 & E1 & H1).
  rewrite (bind_run _ _ _ _ _ E1). destruct o1; [| by eexists _, _ | done]. msteps.
  unfold checked_atomic_add. destruct (add_checked _ _); cbn [ok_or]; [by eexists _, _|]. msteps.
  by eexists _, _.
Qed.

(** ** Consuming *)

Lemma segment_extend {A} (l x : list A) a n :
  0 <= a -> 0 <= n -> a + n = zlen l -> segment (l ++ x) a (n + zlen x) = segment l a n ++ x.
Proof.
  intros Ha Hn Hl. pose proof (zlen_nonneg x). rewrite segment_split by lia.
  rewrite segment_app_l by lia. f_equal. rewrite Hl. by apply segment_app_exact.
Qed.

Lemma view_positions w H ra rs ba bs hs :
  worker_view w H ra rs ba bs hs ->
  0 <= OLDEST ra <= HEAD ra /\ 0 <= ba * worker_channels w /\ 0 <= HEAD ra * worker_channels w /\
  ba * worker_channels w + HEAD ra * worker_channels w = zlen H.
Proof.
  intros V. pose proof (oldest_le_head (quiet_inv _ _ _ (wv_quiet _ _ _ _ _ _ _ V))).
  pose proof (wv_ch _ _ _ _ _ _ _ V). pose proof (wv_base _ _ _ _ _ _ _ V).
  pose proof (wv_head _ _ _ _ _ _ _ V) as [Hh _]. rewrite (wv_stream _ _ _ _ _ _ _ V), Hh.
  split_and!; first [lia | apply Z.mul_nonneg_nonneg; lia].
Qed.

Lemma view_consume w H ra rs ba bs hs now input n sequence :
  worker_view w H ra rs ba bs hs -> worker_fault w = None -> 0 <= n ->
  zlen input = n * worker_channels w -> zlen input <= 2 ^ 61 -> absolute_head w + n < u64_max ->
  exists w' ra', consume_samples now input n sequence w = (w', Ok tt) /\
    worker_view w' (H ++ input) ra' rs ba bs hs /\
    HEAD ra' = HEAD ra + n /\ clear_after_frame ra' = clear_after_frame ra /\ cfg ra' = cfg ra /\
    keeps_frozen w w' /\ worker_fault w' = None /\ absolute_head w' = absolute_head w + n /\
    queue w' = queue w /\ command w' = command w /\ active w' = active w /\
    worker_dropped_frames w' = worker_dropped_frames w /\ worker_channels w' = worker_channels w /\
    next_generation w' = next_generation w /\ frozen w' = frozen w.
Proof.
  intros V Hf Hn Hin Hl Hmax.
  pose proof V as [V1 V2 [V3 V3'] V4 V5 [V6 V6'] V7 V8 V9 V10 V11 V12 V13 V14 V15].
  destruct (view_positions _ _ _ _ _ _ _ V) as (P1 & P2 & P3 & P4).
  destruct (two_indices _ V2) as [Hne _].
  unfold consume_samples. msteps. rewrite Hf, V7.
  rewrite add_checked_ok by (unfold is_u64 in *; lia).
  destruct (quiet_write _ ra _ now input n V9 Hin Hl ltac:(lia)) as (r' & Hw & Hq & HH & Hcl & Hcfg).
  rewrite (bind_run _ _ _ _ _ (catch_run _ _ _ _ (on_epoch_run _ _ _ _ _ _ V3 Hw) ltac:(done))).
  msteps. set (w1 := w <| epochs ::= _ |> <| absolute_head := _ |> <| worker_written_frames := _ |>).
  unfold copy_calibration. msteps.
  destruct (copy_calibration_ok (worker_channels w) (calibration_shared w) (calibration w)
              (worker_sample_rate w1) (cumulative_dropped_frames (queue w1)) input n sequence V14 V15 Hn
              ltac:(lia)) as (s' & o' & E & Hs' & Ho').
  change (worker_channels w1) with (worker_channels w). change (calibration_shared w1) with (calibration_shared w).
  change (calibration w1) with (calibration w). rewrite E. msteps. rewrite modify_run.
  eexists _, r'. split; [done|]. cbn [fst snd].
  set (w2 := w1 <| calibration_shared := s' |> <| calibration := o' |>).
  assert (zlookup (epochs w2) (active w2) = Some r') as E1.
  { change (zlookup (zupdate (epochs w) (active w) (fun _ => r')) (active w) = Some r').
    by rewrite (zlookup_zupdate_eq _ _ _ _ V3). }
  assert (forall i, i = 1 - active w -> zlookup (epochs w2) i = zlookup (epochs w) i) as E2.
  { intros i ->. change (zlookup (zupdate (epochs w) (active w) (fun _ => r')) (1 - active w) =
      zlookup (epochs w) (1 - active w)). by apply zlookup_zupdate_ne. }
  split.
  - constructor; try done.
    + split; [done|]. change (active w2) with (active w). by rewrite E2.
    + split; [|cbn; lia]. cbn [absolute_head update w2 w1]. lia.
    + change (zlen (H ++ input) = (absolute_head w + n) * worker_channels w). rewrite zlen_app. lia.
    + change (worker_channels w2) with (worker_channels w).
      rewrite HH, Z.mul_add_distr_r, <- Hin, segment_extend; [done | lia..].
    + intros f Hfr. change (frozen w2) with (frozen w) in Hfr.
      destruct (V11 f Hfr) as (F1 & F2 & F3 & F4 & F5). split_and!; try done.
      change (worker_channels w2) with (worker_channels w).
      pose proof (oldest_le_head (quiet_inv _ _ _ V10)).
      rewrite segment_app_l; [done | | | rewrite V8; nia]; apply Z.mul_nonneg_nonneg; lia.
  - split_and!; try done. intros f Hfr. destruct (V11 f Hfr) as (F1 & _).
    split_and!; [done | done | | done]. by apply E2.
Qed.

(** A faulted worker counts the frames as dropped. *)
Lemma view_consume_faulted w H ra rs ba bs hs now input n sequence :
  worker_view w H ra rs ba bs hs -> worker_fault w <> None ->
  exists w', consume_samples now input n sequence w = (w', Ok tt) /\
    worker_view w' H ra rs ba bs hs /\ same_core w w' /\ worker_fault w' = worker_fault w /\
    command w' = command w /\ worker_dropped_frames w' = worker_dropped_frames w /\
    queue w' = (add_dropped_frames n (queue w)).1.
Proof.
  intros V Hf. unfold consume_samples. msteps. destruct (worker_fault w) as [fault|] eqn:Ef; [|done].
  rewrite (bind_run _ _ _ _ _ (fail_calibration_run w)).
  set (w1 := w <| calibration := None |> <| calibration_shared ::= fail_slot |>).
  destruct (add_dropped_total n (queue w)) as (q' & o & E & Ho).
  unfold ignore.
  assert (on_queue (add_dropped_frames n) w1 = (w1 <| queue := q' |>, o)) as Eq.
  { unfold on_queue. change (queue w1) with (queue w). by rewrite E. }
  rewrite (bind_run _ _ _ _ _ (catch_run _ _ _ _ Eq Ho)). rewrite ret_run.
  eexists. split; [done|]. rewrite E.
  assert (same_core w (w1 <| queue := q' |>)) as Hc by (unfold same_core; done).
  split_and!; try done. eapply same_core_view; [done | | | done].
  - apply fail_slot_ok, V.
  - apply no_capture_ok.
Qed.

(** ** Commands *)

Lemma epoch_at_run i w r : zlookup (epochs w) i = Some r -> epoch_at i w = (w, Ok r).
Proof. intros E. unfold epoch_at. msteps. by rewrite E. Qed.

Lemma base_at_run i w b : zlookup (bases w) i = Some b -> base_at i w = (w, Ok b).
Proof. intros E. unfold base_at. msteps. by rewrite E. Qed.

Lemma retire_run ch i w r h :
  zlookup (epochs w) i = Some r -> quiet ch r h -> retired_dropped_frames w = 0 ->
  exists r' overrun, quiet ch r' [] /\ HEAD r' = 0 /\
    retire_and_reset i w =
      (w <| epochs ::= (fun l => zupdate l i (fun _ => r')) |>
         <| retired_dropped_frames := 0 |> <| retired_last_overrun := overrun |>, Ok tt).
Proof.
  intros Hr Hq H0. destruct (quiet_reset _ _ _ Hq) as (r' & E & Hq' & HH).
  destruct (quiet_status _ _ _ Hq) as (st & Est & Hd & _).
  exists r'. eexists. split; [done|]. split; [done|]. unfold retire_and_reset.
  rewrite (bind_run _ _ _ _ _ (epoch_at_run _ _ _ Hr)), Est. msteps.
  rewrite H0, Hd, add_checked_ok by (unfold u64_max; lia). cbn [ok_or]. msteps.
  rewrite (bind_run _ _ _ _ _ (on_epoch_run _ _ _ _ _ _ Hr E)). rewrite modify_run. done.
Qed.

(** What the epoch commands leave alone. *)
Definition same_outside (w w' : WorkerState) : Prop :=
  queue w' = queue w /\ command w' = command w /\ worker_fault w' = worker_fault w /\
  worker_channels w' = worker_channels w /\ absolute_head w' = absolute_head w /\
  worker_dropped_frames w' = worker_dropped_frames w /\
  calibration_shared w' = calibration_shared w /\ calibration w' = calibration w.

(** The frames that a freeze hands out begin here. *)
Definition freeze_start (ba : Z) (ra : SampleRing) (committed_start : option Z) : Z :=
  Z.max (default (ba + OLDEST ra) committed_start) (ba + OLDEST ra).

Definition freeze_result (w : WorkerState) (ba : Z) (ra : SampleRing) (committed_start : option Z)
    : option FrozenDescriptor :=
  let start := freeze_start ba ra committed_start in
  if start <? absolute_head w
  then Some (mkDescriptor (active w) (active w) (next_generation w + 1) ba
               (start, absolute_head w) (start - ba, HEAD ra) (worker_channels w)
               (worker_sample_rate w) (worker_format w))
  else None.

(** The worker after a switch to an emptied standby epoch. *)
Lemma switched_view w H ra rs ba bs hs w' r' :
  worker_view w H ra rs ba bs hs ->
  quiet (worker_channels w) r' [] -> HEAD r' = 0 ->
  epochs w' = zupdate (epochs w) (1 - active w) (fun _ => r') -> active w' = 1 - active w ->
  bases w' = zupdate (bases w) (1 - active w) (fun _ => absolute_head w) ->
  absolute_head w' = absolute_head w -> worker_written_frames w' = worker_written_frames w ->
  retired_dropped_frames w' = 0 -> worker_channels w' = worker_channels w ->
  calibration_shared w' = calibration_shared w -> calibration w' = calibration w ->
  1 <= next_generation w' <= u64_max ->
  (forall f, frozen w' = Some f -> f = mkFrozen (active w) (next_generation w')) ->
  worker_view w' H r' ra (absolute_head w) ba
    (segment H (ba * worker_channels w) (HEAD ra * worker_channels w)).
Proof.
  intros V Hq HH E1 E2 E3 E4 E5 E6 E7 E8 E9 Hg Hf.
  pose proof V as [V1 V2 [V3 V3'] [V4 V4'] V5 [V6 V6'] V7 V8 V9 V10 V11 V12 V13 V14 V15].
  destruct (view_positions _ _ _ _ _ _ _ V) as (P1 & P2 & P3 & P4).
  destruct (two_indices _ V2) as [Hne Hsb].
  assert (1 - (1 - active w) = active w) as Hback by lia.
  constructor; rewrite ?E1, ?E2, ?E3, ?E4, ?E5, ?E6, ?E7, ?E8, ?E9, ?Hback, ?HH; try done.
  - split; [by rewrite (zlookup_zupdate_eq _ _ _ _ V3') | by rewrite zlookup_zupdate_ne by lia].
  - split; [by rewrite (zlookup_zupdate_eq _ _ _ _ V4') | by rewrite zlookup_zupdate_ne by lia].
  - lia.
  - split; lia.
  - intros f Hfr. rewrite (Hf f Hfr). cbn. split_and!; first [done | lia].
Qed.

Lemma view_freeze w H ra rs ba bs hs cs :
  worker_view w H ra rs ba bs hs -> frozen w = None ->
  (freeze_start ba ra cs < absolute_head w -> next_generation w < u64_max) ->
  exists w' r', freeze cs w = (w', Ok (freeze_result w ba ra cs)) /\
    worker_view w' H r' ra (absolute_head w) ba
      (segment H (ba * worker_channels w) (HEAD ra * worker_channels w)) /\
    HEAD r' = 0 /\ active w' = 1 - active w /\ same_outside w w' /\
    match freeze_result w ba ra cs with
    | Some d => frozen w' = Some (mkFrozen (active w) (desc_generation d)) /\
        next_generation w' = next_generation w + 1
    | None => frozen w' = None /\ next_generation w' = next_generation w
    end.
Proof.
  intros V Hf Hg. pose proof V as [V1 V2 [V3 V3'] [V4 V4'] V5 [V6 V6'] V7 V8 V9 V10 V11 V12 V13 V14 V15].
  destruct (view_positions _ _ _ _ _ _ _ V) as (P1 & P2 & P3 & P4).
  destruct (two_indices _ V2) as [Hne Hsb].
  destruct (retire_run _ _ w rs hs V3' V10 V13) as (r' & ov & Hq' & HH' & Hret).
  unfold freeze. msteps. rewrite Hf. cbn [is_some]. msteps.
  rewrite (bind_run _ _ _ _ _ (base_at_run _ _ _ V4)), (bind_run _ _ _ _ _ (epoch_at_run _ _ _ V3)).
  rewrite (quiet_oldest _ _ _ V9). msteps. unfold write_head_frame. change (global_write_frame ra) with (HEAD ra).
  rewrite !add_checked_ok by lia. cbn [ok_or]. msteps. rewrite <- V6.
  fold (freeze_start ba ra cs). unfold freeze_result. cbn zeta.
  destruct (freeze_start ba ra cs <? absolute_head w) eqn:E; to_prop; [specialize (Hg E)|clear Hg].
  all: rewrite ?add_checked_ok by lia; cbn [ok_or]; msteps;
    rewrite (bind_run _ _ _ _ _ Hret); msteps; rewrite ret_run.
  - assert (wrap64 (freeze_start ba ra cs - ba) = freeze_start ba ra cs - ba) as Hw.
    { apply wrap64_small. unfold is_u64, freeze_start in *. lia. }
    rewrite Hw. eexists _, r'. split; [done|]. split; [|done].
    eapply (switched_view w); cbn; first [done | lia | by intros f [= <-]].
  - eexists _, r'. split; [done|]. split; [|done].
    eapply (switched_view w); cbn; first [done | lia | by rewrite Hf].
Qed.

(** Frozen state after the worker's other commands. *)
Lemma freeze_refused w H ra rs ba bs hs cs :
  worker_view w H ra rs ba bs hs ->
  (frozen w <> None ->
     freeze cs w = (w, Err (ControlInvariant "a frozen capture epoch is already pending"))) /\
  (frozen w = None -> next_generation w = u64_max -> freeze_start ba ra cs < absolute_head w ->
     freeze cs w = (w, Err (ControlInvariant "frozen epoch generation exhausted"))).
Proof.
  intros V. pose proof V as [V1 V2 [V3 V3'] [V4 V4'] V5 [V6 V6'] V7 V8 V9 V10 V11 V12 V13 V14 V15].
  destruct (view_positions _ _ _ _ _ _ _ V) as (P1 & P2 & P3 & P4).
  unfold freeze. msteps. split.
  - destruct (frozen w); [|done]. intros _. by msteps.
  - intros -> Hg Hs. cbn [is_some]. msteps.
    rewrite (bind_run _ _ _ _ _ (base_at_run _ _ _ V4)), (bind_run _ _ _ _ _ (epoch_at_run _ _ _ V3)).
    rewrite (quiet_oldest _ _ _ V9). msteps. unfold write_head_frame. change (global_write_frame ra) with (HEAD ra).
    rewrite !add_checked_ok by lia. cbn [ok_or]. msteps. rewrite <- V6. fold (freeze_start ba ra cs).
    rewrite (proj2 (Z.ltb_lt _ _)) by done.
    assert (add_checked (next_generation w) 1 = None) as -> by (apply checked_None; lia).
    cbn [ok_or]. by msteps.
Qed.

Lemma view_release w H ra rs ba bs hs f :
  worker_view w H ra rs ba bs hs -> frozen w = Some f ->
  exists w' r', release (frozen_index f) (frozen_generation f) w = (w', Ok tt) /\
    worker_view w' H ra r' ba bs [] /\ frozen w' = None /\ next_generation w' = next_generation w /\
    active w' = active w /\ same_outside w w'.
Proof.
  intros V Hf. pose proof V as [V1 V2 [V3 V3'] [V4 V4'] V5 [V6 V6'] V7 V8 V9 V10 V11 V12 V13 V14 V15].
  destruct (two_indices _ V2) as [Hne Hsb]. destruct (V11 f Hf) as (F1 & _).
  destruct (retire_run _ _ w rs hs V3' V10 V13) as (r' & ov & Hq' & HH' & Hret).
  unfold release. msteps. rewrite Hf. cbn [ok_or]. msteps. rewrite !Z.eqb_refl. cbn [negb orb]. msteps.
  rewrite F1, (bind_run _ _ _ _ _ Hret). rewrite modify_run.
  eexists _, r'. split; [done|]. split; [|done].
  constructor; cbn; try done.
  split; [by rewrite zlookup_zupdate_ne by lia | by rewrite (zlookup_zupdate_eq _ _ _ _ V3')].
Qed.

Lemma release_refused w index generation :
  (frozen w = None ->
     release index generation w = (w, Err (ControlInvariant "no frozen capture epoch pending"))) /\
  (forall f, frozen w = Some f -> f <> mkFrozen index generation ->
     release index generation w =
       (w, Err (ControlInvariant "frozen capture capability does not match worker state"))).
Proof.
  unfold release. msteps. split.
  - intros ->. by msteps.
  - intros [i g] -> Hne. cbn [ok_or]. msteps. cbn [frozen_index frozen_generation].
    destruct (i =? index) eqn:E1, (g =? generation) eqn:E2; cbn [negb orb]; msteps; try done.
    to_prop. by subst.
Qed.

Lemma active_range_run w H ra rs ba bs hs :
  worker_view w H ra rs ba bs hs ->
  active_absolute_range w = (w, Ok (ba + OLDEST ra, absolute_head w)).
Proof.
  intros V. pose proof V as [V1 V2 [V3 V3'] [V4 V4'] V5 [V6 V6'] V7 V8 V9 V10 V11 V12 V13 V14 V15].
  destruct (view_positions _ _ _ _ _ _ _ V) as (P1 & P2 & P3 & P4).
  unfold active_absolute_range. msteps.
  rewrite (bind_run _ _ _ _ _ (base_at_run _ _ _ V4)), (bind_run _ _ _ _ _ (epoch_at_run _ _ _ V3)).
  rewrite (quiet_oldest _ _ _ V9). msteps. unfold write_head_frame. change (global_write_frame ra) with (HEAD ra).
  rewrite !add_checked_ok by lia. cbn [ok_or]. msteps. by rewrite ret_run, V6.
Qed.

(** The accounting of a clear: what was overwritten before it and what it drops. *)
Definition clear_lost (start expected : Z) : Z := saturating_sub start expected.
Definition clear_dropped (start end_ expected : Z) : Z := saturating_sub end_ (Z.max expected start).

Lemma view_clear w H ra rs ba bs hs ingress acc :
  worker_view w H ra rs ba bs hs ->
  let start := ba + OLDEST ra in
  let lost := pending_retention_lost_frames acc + clear_lost start (expected_active_start acc) in
  let cleared := pending_cleared_frames acc +
    clear_dropped start (absolute_head w) (expected_active_start acc) in
  0 <= ingress -> 0 <= pending_retention_lost_frames acc -> 0 <= pending_cleared_frames acc ->
  0 <= worker_dropped_frames w ->
  (lost <= u64_max /\ cleared <= u64_max /\ ingress + worker_dropped_frames w <= u64_max /\
   exists w' r', clear_command ingress acc w =
      (w', Ok (mkClearReport (acc_arena_runtime_id acc) (acc_coordinator_id acc) (acc_clear_id acc)
                 (expected_active_start acc) (start, absolute_head w) lost cleared
                 (ingress + worker_dropped_frames w))) /\
     worker_view w' H r' rs ba bs hs /\ OLDEST r' = HEAD r' /\ keeps_frozen w w' /\
     w' = w <| epochs := epochs w' |>) \/
  ((u64_max < lost \/ u64_max < cleared \/ u64_max < ingress + worker_dropped_frames w) /\
   exists e, clear_command ingress acc w = (w, Err (ControlInvariant e))).
Proof.
  intros V start lost cleared Hi Hl Hc Hd.
  pose proof V as [V1 V2 [V3 V3'] [V4 V4'] V5 [V6 V6'] V7 V8 V9 V10 V11 V12 V13 V14 V15].
  destruct (two_indices _ V2) as [Hne Hsb].
  unfold clear_command. rewrite (bind_run _ _ _ _ _ (active_range_run _ _ _ _ _ _ _ V)).
  cbn [fst snd]. fold start.
  change (saturating_sub start (expected_active_start acc)) with (clear_lost start (expected_active_start acc)).
  change (saturating_sub (absolute_head w) (Z.max (expected_active_start acc) start)) with
    (clear_dropped start (absolute_head w) (expected_active_start acc)).
  assert (0 <= clear_lost start (expected_active_start acc)) by (unfold clear_lost, saturating_sub; lia).
  assert (0 <= clear_dropped start (absolute_head w) (expected_active_start acc))
    by (unfold clear_dropped, saturating_sub; lia).
  destruct (Z.le_gt_cases lost u64_max) as [L1|L1].
  2:{ right. split; [by left|]. eexists.
      assert (add_checked (pending_retention_lost_frames acc) (clear_lost start (expected_active_start acc)) = None) as ->
        by (apply checked_None; unfold lost in L1; lia). cbn [ok_or]. by msteps. }
  rewrite add_checked_ok by (unfold lost in L1; lia). cbn [ok_or]. msteps. fold lost.
  destruct (Z.le_gt_cases cleared u64_max) as [L2|L2].
  2:{ right. split; [by right; left|]. eexists.
      assert (add_checked (pending_cleared_frames acc)
        (clear_dropped start (absolute_head w) (expected_active_start acc)) = None) as ->
        by (apply checked_None; unfold cleared in L2; lia). cbn [ok_or]. by msteps. }
  rewrite add_checked_ok by (unfold cleared in L2; lia). cbn [ok_or]. msteps. fold cleared.
  destruct (Z.le_gt_cases (ingress + worker_dropped_frames w) u64_max) as [L3|L3].
  2:{ right. split; [by right; right|]. eexists.
      assert (add_checked ingress (worker_dropped_frames w) = None) as ->
        by (apply checked_None; lia). cbn [ok_or]. by msteps. }
  rewrite add_checked_ok by lia. cbn [ok_or]. msteps.
  destruct (quiet_clear _ _ _ V9) as (r' & Ec & Hq' & Ho & HH).
  rewrite (bind_run _ _ _ _ _ (on_epoch_run _ _ _ _ _ _ V3 Ec)). rewrite ret_run.
  left. split_and!; [done.. |]. eexists _, r'. split; [done|]. split_and!; [| done | | done].
  - constructor; cbn; try done; rewrite ?HH; try done.
    split; [by rewrite (zlookup_zupdate_eq _ _ _ _ V3) | by rewrite zlookup_zupdate_ne by lia].
  - intros f Hf. destruct (V11 f Hf) as (-> & _). cbn. split_and!; [done | done | | done].
    by rewrite zlookup_zupdate_ne by lia.
Qed.

Lemma view_status w H ra rs ba bs hs :
  worker_view w H ra rs ba bs hs ->
  exists o, worker_status w = (w, o) /\ o <> Panic /\
    forall st, o = Ok st -> worker_fault w = None /\
      arena_active_absolute_range st = (ba + OLDEST ra, absolute_head w) /\
      arena_retained_frames st = HEAD ra - OLDEST ra /\
      arena_dropped_frames st = dropped_frames (queue w) + worker_dropped_frames w /\
      arena_worker_written_frames st = absolute_head w /\
      arena_frozen_pending st = is_some (frozen w).
Proof.
  intros V. pose proof V as [V1 V2 [V3 V3'] [V4 V4'] V5 [V6 V6'] V7 V8 V9 V10 V11 V12 V13 V14 V15].
  unfold worker_status. msteps. destruct (worker_fault w); [by eexists|].
  destruct (quiet_status _ _ _ V9) as (st & Est & Hd & Hr & _).
  rewrite (bind_run _ _ _ _ _ (epoch_at_run _ _ _ V3)), Est. msteps. rewrite V13, Hd.
  change (add_checked 0 0) with (Some 0). cbv beta iota.
  destruct (add_checked 0 _) as [t|] eqn:E1; [|cbn [ok_or]; msteps; by eexists].
  apply add_checked_inv in E1 as [-> _].
  destruct (add_checked _ _) as [t|] eqn:E2; cbn [ok_or]; msteps; [|by eexists].
  apply add_checked_inv in E2 as [-> _].
  rewrite (bind_run _ _ _ _ _ (active_range_run _ _ _ _ _ _ _ V)). rewrite ret_run.
  eexists. split; [done|]. split; [done|]. intros s [= <-]. cbn. split_and!; first [done | lia].
Qed.

(** ** Operations of the worker's thread *)

(** One operation: the consumption of a slot, the calibration handshakes, a
    command, or what the other threads did to the shared state in between. *)
Inductive worker_op :=
  | Consume (now : Z) (input : list f32) (n sequence : Z)
  | AcceptCalibration
  | CancelCalibration
  | Process (c : WorkerCommand)
  | Share (q : IngressQueue) (s : CalibrationSlot).

Definition run_worker_op (op : worker_op) : WM unit :=
  match op with
  | Consume now input n sequence => consume_samples now input n sequence
  | AcceptCalibration => start_calibration_if_ready
  | CancelCalibration => cancel_calibration_if_requested
  | Process c => ignore (process_command c)
  | Share q s => modify (fun w => w <| queue := q |> <| calibration_shared := s |>)
  end.

Definition valid_worker_op (w : WorkerState) (op : worker_op) : Prop :=
  match op with
  | Consume _ input n _ =>
      0 <= n /\ zlen input = n * worker_channels w /\ zlen input <= 2 ^ 61 /\
      absolute_head w + n < u64_max
  | Share _ s =>
      slot_ok (worker_channels w) s /\
      (calibration w <> None -> same_buffers (calibration_shared w) s)
  | Process (Clear _ ingress acc) =>
      0 <= ingress /\ 0 <= pending_retention_lost_frames acc /\ 0 <= pending_cleared_frames acc
  | _ => True
  end.

(** The samples that an operation adds to the stream. *)
Definition accepted (w : WorkerState) (op : worker_op) : list f32 :=
  match op, worker_fault w with Consume _ input _ _, None => input | _, _ => [] end.

(** The operation is not the release of the epoch [(index, generation)]. *)
Definition spares (index generation : Z) (op : worker_op) : bool :=
  match op with
  | Process (Release _ i g) => negb ((i =? index) && (g =? generation))
  | _ => true
  end.

Lemma view_inv w H ra rs ba bs hs : worker_view w H ra rs ba bs hs -> worker_inv w H.
Proof. intros V. by exists ra, rs, ba, bs, hs. Qed.

Lemma view_process w H ra rs ba bs hs c :
  worker_view w H ra rs ba bs hs -> 0 <= worker_dropped_frames w ->
  valid_worker_op w (Process c) ->
  exists w' o, process_command c w = (w', o) /\ o <> Panic /\ worker_inv w' H /\
    worker_channels w' = worker_channels w /\ worker_dropped_frames w' = worker_dropped_frames w /\
    next_generation w <= next_generation w' /\
    (forall f, frozen w' = Some f ->
       frozen w = Some f \/ next_generation w < frozen_generation f) /\
    (forall f, frozen w = Some f ->
       spares (frozen_index f) (frozen_generation f) (Process c) = true -> keeps_frozen w w').
Proof.
  intros V Hd Hv.
  pose proof (view_inv _ _ _ _ _ _ _ V) as Hw.
  assert (forall o : Result WorkerReply, o <> Panic ->
    exists w' o', (w, o) = (w', o') /\ o' <> Panic /\ worker_inv w' H /\
    worker_channels w' = worker_channels w /\ worker_dropped_frames w' = worker_dropped_frames w /\
    next_generation w <= next_generation w' /\
    (forall f, frozen w' = Some f ->
       frozen w = Some f \/ next_generation w < frozen_generation f) /\
    (forall f, frozen w = Some f ->
       spares (frozen_index f) (frozen_generation f) (Process c) = true -> keeps_frozen w w')) as Hsame.
  { intros o Ho. exists w, o. split_and!; try done. by left. }
  assert (frozen w = None \/ exists f, frozen w = Some f) as Hcase by (destruct (frozen w); eauto).
  unfold process_command. msteps.
  destruct (drop_counter_exhausted (queue w) && _); msteps; [by apply Hsame|].
  destruct c as [t cs|t i g|t ingress acc|t|t].
  - destruct Hcase as [Ef|[f Ef]].
    2:{ rewrite (bind_run _ _ _ _ _ (proj1 (freeze_refused w H ra rs ba bs hs cs V) ltac:(congruence))).
      by apply Hsame. }
    assert ((freeze_start ba ra cs < absolute_head w -> next_generation w < u64_max) \/
      freeze_start ba ra cs < absolute_head w /\ next_generation w = u64_max) as [Hg|[Hs Hg]].
    { pose proof (wv_generation _ _ _ _ _ _ _ V). lia. }
    + destruct (view_freeze _ _ _ _ _ _ _ cs V Ef Hg) as (w' & r' & E & V' & _ & _ & Ho & Hfr).
      rewrite (bind_run _ _ _ _ _ E). rewrite ret_run. eexists _, _. split; [done|].
      split; [done|]. split; [by eapply view_inv|]. destruct Ho as (_ & _ & _ & Hch & _ & Hdr & _).
      split_and!; [done | done | | |].
      * destruct (freeze_result _ _ _ _); destruct Hfr as [_ ->]; lia.
      * intros f Hf. right. destruct (freeze_result w ba ra cs) as [d|] eqn:Er; destruct Hfr as [Hfr _]; [|congruence].
        rewrite Hfr in Hf. injection Hf as <-. cbn. unfold freeze_result in Er.
        destruct (_ <? _); [|done]. injection Er as <-. cbn. lia.
      * intros f Hf. congruence.
    + rewrite (bind_run _ _ _ _ _ (proj2 (freeze_refused w H ra rs ba bs hs cs V) Ef Hg Hs)).
      by apply Hsame.
  - destruct Hcase as [Ef|[f Ef]].
    { rewrite (bind_run _ _ _ _ _ (proj1 (release_refused w i g) Ef)). by apply Hsame. }
    destruct (decide (frozen_index f = i /\ frozen_generation f = g)) as [[<- <-]|Hne].
    + destruct (view_release _ _ _ _ _ _ _ f V Ef) as (w' & r' & E & V' & Hfr & Hgen & _ & Ho).
      rewrite (bind_run _ _ _ _ _ E). rewrite ret_run. eexists _, _. split; [done|].
      split; [done|]. split; [by eapply view_inv|]. destruct Ho as (_ & _ & _ & Hch & _ & Hdr & _).
      split_and!; [done | done | lia | congruence |].
      intros f' Hf'. rewrite Ef in Hf'. injection Hf' as <-. cbn. rewrite !Z.eqb_refl. done.
    + assert (f <> mkFrozen i g) as Hfi by (intros ->; by apply Hne).
      rewrite (bind_run _ _ _ _ _ (proj2 (release_refused w i g) f Ef Hfi)). by apply Hsame.
  - destruct Hv as (H1 & H2 & H3).
    destruct (view_clear w H ra rs ba bs hs ingress acc V H1 H2 H3 Hd) as
      [(_ & _ & _ & w' & r' & E & V' & _ & Hk & Hw')|(_ & e & E)].
    + rewrite (bind_run _ _ _ _ _ E). rewrite ret_run. eexists _, _. split; [done|].
      split; [done|]. split; [by eapply view_inv|].
      assert (worker_channels w' = worker_channels w /\ worker_dropped_frames w' = worker_dropped_frames w /\
        next_generation w' = next_generation w /\ frozen w' = frozen w) as (-> & -> & -> & ->)
        by (rewrite Hw'; done).
      split_and!; try done. by left.
    + rewrite (bind_run _ _ _ _ _ E). by apply Hsame.
  - destruct (view_status _ _ _ _ _ _ _ V) as (o & E & Ho & _).
    rewrite (bind_run _ _ _ _ _ E). destruct o; [|by apply Hsame | done]. rewrite ret_run. by apply Hsame.
  - rewrite ret_run. by apply Hsame.
Qed.

(** The handshakes touch the calibration and the fault only. *)
Definition calibration_step (w w' : WorkerState) : Prop :=
  same_core w w' /\ worker_dropped_frames w' = worker_dropped_frames w /\
  queue w' = queue w /\ command w' = command w /\
  (slot_ok (worker_channels w) (calibration_shared w) ->
   capture_ok (worker_channels w) (calibration_shared w) (calibration w) ->
   slot_ok (worker_channels w') (calibration_shared w') /\
   capture_ok (worker_channels w') (calibration_shared w') (calibration w')).

Lemma fault_step fault w :
  exists w', set_worker_fault fault w = (w', Ok tt) /\ calibration_step w w' /\
    worker_fault w' = Some fault.
Proof.
  eexists. split; [done|]. split; [|done]. split; [by unfold same_core|]. split_and!; try done.
  intros Hs _. split; [by apply fail_slot_ok | apply no_capture_ok].
Qed.

Lemma cancel_step w :
  exists w', cancel_calibration_if_requested w = (w', Ok tt) /\ calibration_step w w' /\
    worker_fault w' = worker_fault w.
Proof.
  unfold cancel_calibration_if_requested. msteps. destruct (_ =? _).
  - rewrite modify_run. eexists. split; [done|]. split; [|done].
    split; [by unfold same_core|]. split_and!; try done.
    intros Hs _. split; [by apply acknowledge_ok | apply no_capture_ok].
  - rewrite ret_run. eexists. split; [done|]. split; [|done]. split; [by unfold same_core|]. done.
Qed.

Lemma complete_bound W hop n m :
  0 < W <= 2 * hop -> 0 < hop -> W <= 2 ^ 62 -> 0 <= n <= m -> complete_ref W hop n <= complete_ref W hop m.
Proof. intros. apply (complete_mono W hop 1); lia. Qed.

Lemma accept_step w :
  exists w', start_calibration_if_ready w = (w', Ok tt) /\ calibration_step w w' /\
    (producer_generation_exhausted (queue w) = false -> worker_fault w' = worker_fault w).
Proof.
  unfold start_calibration_if_ready. msteps.
  assert (calibration_step w w) as Hrefl by (split; [by unfold same_core | done]).
  destruct (calibration_boundary (queue w)) as [[boundary|]|e|] eqn:Eb.
  3,4: destruct (fault_step "capture producer generation exhausted" w) as (w' & E & Hs & Hf);
    exists w'; split_and!; [done | done |]; intros Hex;
    unfold calibration_boundary, boundary_open in Eb; rewrite Hex in Eb; by destruct (negb _).
  2:{ rewrite ret_run. eexists. by split_and!. }
  destruct (take_ready (calibration_shared w)) as [[s r]|] eqn:E.
  2:{ rewrite ret_run. eexists. by split_and!. }
  unfold take_ready, exchange in E.
  destruct (cal_state (calibration_shared w) =? CALIBRATION_READY); [|done].
  destruct (cal_request (calibration_shared w)) as [r0|] eqn:Er; [|done]. injection E as <- <-.
  msteps. change (negb (_ =? CALIBRATION_CAPTURING)) with false. cbv iota. rewrite modify_run.
  eexists. split; [done|]. split; [|done].
  split; [by unfold same_core|]. split_and!; try done. intros Hs _.
  assert (slot_ok (worker_channels w) ((calibration_shared w) <| cal_state := CALIBRATION_CAPTURING |>)) as Hs'.
  { by apply (slot_same_buffers _ (calibration_shared w)). }
  split; [done|]. intros c [= <-].
  destruct (so_request _ _ Hs r0 Er) as [Hk HF]. pose proof (so_samples _ _ Hs). cbn [request new_capture].
  split; [done|]. split; [lia|]. exists [].
  pose proof (so_results _ _ Hs) as [R1 R2].
  pose proof (complete_bound (window_frames (calibration_shared w)) (hop_frames (calibration_shared w))
    (req_frames r0) (zlen (cal_samples (calibration_shared w))) (so_window _ _ Hs) (so_hop _ _ Hs)
    (so_window64 _ _ Hs) ltac:(lia)) as Hb.
  set (s1 := (calibration_shared w) <| cal_state := CALIBRATION_CAPTURING |>).
  assert (analysis_ok (window_frames s1) (hop_frames s1) (req_frames r0) [] s1 (new_capture r0 boundary));
    [|done].
  apply analysis_new; try done.
  - apply Hs.
  - apply Hs.
  - lia.
  - change (req_frames r0 <= zlen (cal_samples (calibration_shared w))). lia.
  - etrans; [exact Hb | exact R1].
  - etrans; [exact Hb | exact R2].
Qed.

Lemma calibration_step_view w w' H ra rs ba bs hs :
  calibration_step w w' -> worker_view w H ra rs ba bs hs -> worker_view w' H ra rs ba bs hs.
Proof.
  intros (Hc & _ & _ & _ & Hk) V. destruct (Hk (wv_slot _ _ _ _ _ _ _ V) (wv_capture _ _ _ _ _ _ _ V)).
  by eapply same_core_view.
Qed.

(** ** Runs *)

Lemma run_op_ok w H op :
  worker_inv w H -> 0 <= worker_dropped_frames w -> valid_worker_op w op ->
  exists w', run_worker_op op w = (w', Ok tt) /\ worker_inv w' (H ++ accepted w op) /\
    worker_channels w' = worker_channels w /\ worker_dropped_frames w' = worker_dropped_frames w /\
    next_generation w <= next_generation w' /\
    (forall f, frozen w' = Some f ->
       frozen w = Some f \/ next_generation w < frozen_generation f) /\
    (forall f, frozen w = Some f ->
       spares (frozen_index f) (frozen_generation f) op = true -> keeps_frozen w w').
Proof.
  intros (ra & rs & ba & bs & hs & V) Hd Hv.
  assert (forall w', calibration_step w w' -> worker_inv w' (H ++ []) /\
    worker_channels w' = worker_channels w /\ worker_dropped_frames w' = worker_dropped_frames w /\
    next_generation w <= next_generation w' /\
    (forall f, frozen w' = Some f ->
       frozen w = Some f \/ next_generation w < frozen_generation f) /\
    (forall f, frozen w = Some f ->
       spares (frozen_index f) (frozen_generation f) op = true -> keeps_frozen w w')) as Hcal.
  { intros w' Hs. rewrite app_nil_r. split; [by eapply view_inv, calibration_step_view|].
    destruct Hs as (Hc & Hdr & _). pose proof (same_core_keeps _ _ Hc).
    destruct Hc as (_ & _ & _ & _ & -> & -> & _ & _ & -> & _). rewrite Hdr.
    split_and!; try done. by left. }
  destruct op as [now input n sequence | | | c | q s]; cbn [run_worker_op valid_worker_op] in *.
  - destruct Hv as (Hn & Hin & Hl & Hmax). unfold accepted. destruct (worker_fault w) as [fault|] eqn:Ef.
    + destruct (view_consume_faulted w H ra rs ba bs hs now input n sequence V) as
        (w' & E & V' & Hc & _ & _ & Hdr & _); [congruence|].
      exists w'. split; [done|]. rewrite app_nil_r. split; [by eapply view_inv|].
      pose proof (same_core_keeps _ _ Hc).
      destruct Hc as (_ & _ & _ & _ & -> & -> & _ & _ & -> & _). rewrite Hdr. split_and!; try done.
      by left.
    + destruct (view_consume w H ra rs ba bs hs now input n sequence V Ef Hn Hin Hl Hmax) as
        (w' & ra' & E & V' & _ & _ & _ & Hk & _ & _ & _ & _ & _ & Hdr & Hch & Hg & Hfr).
      exists w'. split; [done|]. split; [by eapply view_inv|]. rewrite Hg. split_and!; try done.
      intros f Hf. left. congruence.
  - destruct (accept_step w) as (w' & E & Hs & _). exists w'. split; [done|]. by apply Hcal.
  - destruct (cancel_step w) as (w' & E & Hs & _). exists w'. split; [done|]. by apply Hcal.
  - destruct (view_process w H ra rs ba bs hs c V Hd Hv) as (w' & o & E & Ho & Hi & Hrest).
    exists w'. split; [|unfold accepted; by rewrite app_nil_r].
    unfold ignore. rewrite (bind_run _ _ _ _ _ (catch_run _ _ _ _ E Ho)). done.
  - destruct Hv as [Hs Hb]. eexists. split; [done|].
    assert (forall c, same_core w (w <| queue := q |> <| calibration_shared := c |>)) as Hc
      by (intros; by unfold same_core).
    pose proof (same_core_keeps _ _ (Hc s)). unfold accepted. rewrite app_nil_r.
    split; [|split_and!; try done; by left].
    eapply view_inv, same_core_view; [apply Hc | done | | done].
    cbn [worker_channels calibration_shared calibration update].
    intros c Hcap. apply (capture_same_buffers (worker_channels w) (calibration_shared w) s (calibration w));
      [apply Hb; congruence | apply V | done].
Qed.

(** ** A new worker *)

Section new_workers.
Context `{Platform}.

Lemma quiet_new c r :
  is_u32 (cfg_channels c) -> is_u32 (cfg_chunk_frames c) -> is_u32 (cfg_chunk_count c) ->
  SampleRing.new c = Ok r ->
  quiet (cfg_channels c) r [] /\ HEAD r = 0 /\ clear_after_frame r = 0 /\ cfg r = c.
Proof.
  intros H1 H2 H3 Hn. pose proof Hn as Hn'.
  apply new_refines in Hn' as (Hi & Hc & _ & HH & Ha & Hp & _); [|done..].
  assert (SampleRing.dropped_frames r = 0 /\ overrun_lock_poisoned r = false /\ clear_after_frame r = 0)
    as (Hd & Ho & Hcl).
  { unfold SampleRing.new in Hn. repeat (case_match; [done|]). ok_steps.
    destruct (try_from_fn _ _ _ _) as [allocated built]. ok_steps. by subst r. }
  split_and!; try done. constructor; try done. unfold CH. by rewrite Hc.
Qed.

Lemma new_worker_view q s r0 r1 c :
  is_u32 (cfg_channels c) -> is_u32 (cfg_chunk_frames c) -> is_u32 (cfg_chunk_count c) ->
  SampleRing.new c = Ok r0 -> SampleRing.new c = Ok r1 -> slot_ok (cfg_channels c) s ->
  worker_view (new_worker q s r0 r1 c) [] r0 r1 0 0 [].
Proof.
  intros H1 H2 H3 Hn0 Hn1 Hs.
  destruct (quiet_new c r0 H1 H2 H3 Hn0) as (Q0 & HH0 & _ & _).
  destruct (quiet_new c r1 H1 H2 H3 Hn1) as (Q1 & HH1 & _ & _).
  pose proof (inv_ch _ _ (quiet_inv _ _ _ Q0)) as Hch. rewrite (quiet_ch _ _ _ Q0) in Hch.
  constructor; cbn; try done; try (unfold u64_max; lia).
  by rewrite HH0, segment_nil.
Qed.
End new_workers.

(** ** Sequences of operations *)

Fixpoint run_worker_ops (ops : list worker_op) : WM unit :=
  match ops with
  | [] => ret tt
  | op :: ops' => run_worker_op op ;; run_worker_ops ops'
  end.

Fixpoint valid_worker_ops (w : WorkerState) (ops : list worker_op) : Prop :=
  match ops with
  | [] => True
  | op :: ops' => valid_worker_op w op /\ valid_worker_ops (run_worker_op op w).1 ops'
  end.

(** The stream that the operations add: what the worker accepted, in order. *)
Fixpoint stream (w : WorkerState) (ops : list worker_op) : list f32 :=
  match ops with
  | [] => []
  | op :: ops' => accepted w op ++ stream (run_worker_op op w).1 ops'
  end.

Lemma run_ops_ok w H ops :
  worker_inv w H -> 0 <= worker_dropped_frames w -> valid_worker_ops w ops ->
  exists w', run_worker_ops ops w = (w', Ok tt) /\ worker_inv w' (H ++ stream w ops) /\
    worker_channels w' = worker_channels w /\ 0 <= worker_dropped_frames w' /\
    next_generation w <= next_generation w' /\
    (forall f, frozen w' = Some f ->
       frozen w = Some f \/ next_generation w < frozen_generation f) /\
    (forall f, frozen w = Some f ->
       Forall (fun op => spares (frozen_index f) (frozen_generation f) op = true) ops ->
       keeps_frozen w w').
Proof.
  revert w H. induction ops as [|op ops IH]; intros w H Hi Hd Hv; cbn [run_worker_ops stream].
  - exists w. rewrite app_nil_r. split_and!; try done. by left.
  - destruct Hv as [Hv1 Hv2].
    destruct (run_op_ok w H op Hi Hd Hv1) as (w1 & E1 & Hi1 & Hc1 & Hd1 & Hg1 & Hn1 & Hk1).
    rewrite E1 in *. cbn [fst] in *.
    destruct (IH w1 _ Hi1 ltac:(lia) Hv2) as (w2 & E2 & Hi2 & Hc2 & Hd2 & Hg2 & Hn2 & Hk2).
    exists w2. rewrite (bind_run _ _ _ _ _ E1). rewrite <- app_assoc in Hi2.
    split_and!; [done | done | congruence | lia | lia | |].
    + intros f Hf. destruct (Hn2 f Hf) as [Hf1|?]; [|right; lia].
      destruct (Hn1 f Hf1); [by left | right; lia].
    + intros f Hf Hs. apply list.Forall_cons in Hs as [Hs1 Hs2].
      pose proof (Hk1 f Hf Hs1) as Hk. destruct (Hk f Hf) as [Hf1 _].
      etrans; [done|]. by apply (Hk2 f).
Qed.

(** ** Reading a frozen epoch *)

Lemma frozen_reads w H ra rs ba bs hs f d a b dst :
  worker_view w H ra rs ba bs hs -> frozen w = Some f ->
  desc_ring d = frozen_index f -> desc_base d = bs ->
  bs + OLDEST rs <= (desc_absolute_range d).1 -> (desc_absolute_range d).1 <= a ->
  a <= b -> b <= (desc_absolute_range d).2 -> (desc_absolute_range d).2 <= bs + HEAD rs ->
  zlen dst mod worker_channels w = 0 -> zlen dst <= u64_max ->
  a + zlen dst / worker_channels w <= u64_max ->
  let n := Z.min (b - a) (zlen dst / worker_channels w) in
  copy_epoch_range_into (epochs w) (frozen_epoch_from_descriptor 0 d) (a, b) dst =
    (segment H (a * worker_channels w) (n * worker_channels w) ++
       drop (Z.to_nat (n * worker_channels w)) dst, Ok n).
Proof.
  intros V Hf Hd1 Hd2 Ho Ha Hab Hb He Hm Hl Hcap n.
  pose proof V as [V1 V2 [V3 V3'] [V4 V4'] V5 [V6 V6'] V7 V8 V9 V10 V11 V12 V13 V14 V15].
  destruct (V11 f Hf) as (F1 & F2 & F3 & F4 & F5). set (ch := worker_channels w) in *.
  pose proof (quiet_ch _ _ _ V10) as Hch. pose proof (oldest_le_head (quiet_inv _ _ _ V10)).
  pose proof (inv_head _ _ (quiet_inv _ _ _ V9)) as [HHa _].
  unfold copy_epoch_range_into. cbn [frozen_epoch_from_descriptor epoch_descriptor epoch_released
    epoch_release_pending fst snd]. msteps.
  rewrite (proj2 (Z.ltb_ge a _)), (proj2 (Z.ltb_ge _ b)), (proj2 (Z.ltb_ge b a)) by lia. cbn [orb]. msteps.
  rewrite Hd1, F1, V3'. cbn [unwrap]. msteps. rewrite Hd2.
  rewrite !wrap64_small by (unfold is_u64; lia).
  assert (0 <= zlen dst / ch) by (apply Z.div_pos; [apply zlen_nonneg | lia]).
  rewrite (copy_range_refines rs hs (a - bs) (b - bs) dst (quiet_inv _ _ _ V10));
    [| lia | lia | by rewrite Hch | done | rewrite Hch; lia].
  unfold copy_state, RingSpec.copied. rewrite Hch. replace (b - bs - (a - bs)) with (b - a) by lia. fold n.
  do 2 f_equal. rewrite F5. assert (0 <= n) by (unfold n; lia).
  assert (n * ch <= (HEAD rs - (a - bs)) * ch) by (apply Z.mul_le_mono_nonneg_r; unfold n; lia).
  rewrite segment_segment; [f_equal; ring | | | | lia]; apply Z.mul_nonneg_nonneg; lia.
Qed.
