(* ===== verification/WorkerTheorems.v ===== *)
(** * What the capture worker promises

    The theorems about the worker of [CaptureWorker], from the state that
    [allocate_runtime] starts it in: epochs are handed over without a gap, a
    frozen epoch reads the stream until it is released, a release works once,
    a clear accounts for every frame, and a submitted command is answered. *)
From S2P Require Import Prelude.
From S2P Require Import Errors.
From S2P Require Import MemoryPlan.
From S2P Require Import SampleRing.
From S2P Require Import RingSpec.
From S2P Require Import IngressQueue.
From S2P Require Import CalibrationCapture.
From S2P Require Import CalibrationTheorems.
From S2P Require Import CaptureWorker.
From S2P Require Import WorkerSpec.

(** A worker as it starts: two new rings, an idle queue and calibration slot. *)
Definition worker_started `{Platform} (w : WorkerState) : Prop :=
  exists q s r0 r1 c,
    is_u32 (cfg_channels c) /\ is_u32 (cfg_chunk_frames c) /\ is_u32 (cfg_chunk_count c) /\
    SampleRing.new c = Ok r0 /\ SampleRing.new c = Ok r1 /\ slot_ok (cfg_channels c) s /\
    w = new_worker q s r0 r1 c.

Section worker_theorems.
Context {platform : Platform}.

Lemma started_inv w : worker_started w -> worker_inv w [] /\ worker_dropped_frames w = 0.
Proof.
  intros (q & s & r0 & r1 & c & H1 & H2 & H3 & H4 & H5 & H6 & ->). split; [|done].
  eapply view_inv. by apply new_worker_view.
Qed.

Lemma started_run w ops w' :
  worker_started w -> valid_worker_ops w ops -> run_worker_ops ops w = (w', Ok tt) ->
  worker_inv w' (stream w ops) /\ 0 <= worker_dropped_frames w' /\
  worker_channels w' = worker_channels w.
Proof.
  intros Hw Hv Hr. destruct (started_inv w Hw) as [Hi Hd].
  destruct (run_ops_ok w [] ops Hi ltac:(lia) Hv) as (w1 & E & Hi1 & Hc & Hd1 & _).
  rewrite Hr in E. injection E as <-. done.
Qed.

(** A freeze that succeeded, in terms of the abstract state. *)
Lemma freeze_inversion w H cs w' r :
  worker_inv w H -> freeze cs w = (w', Ok r) ->
  exists ra rs ba bs hs r', worker_view w H ra rs ba bs hs /\ frozen w = None /\
    r = freeze_result w ba ra cs /\
    worker_view w' H r' ra (absolute_head w) ba
      (segment H (ba * worker_channels w) (HEAD ra * worker_channels w)) /\
    HEAD r' = 0 /\ active w' = 1 - active w /\ same_outside w w' /\
    match r with
    | Some d => frozen w' = Some (mkFrozen (active w) (desc_generation d)) /\
        next_generation w' = next_generation w + 1
    | None => frozen w' = None /\ next_generation w' = next_generation w
    end.
Proof.
  intros (ra & rs & ba & bs & hs & V) Hf.
  destruct (freeze_refused w H ra rs ba bs hs cs V) as [R1 R2].
  assert (frozen w = None) as Hfr.
  { destruct (frozen w) eqn:E; [|done]. rewrite R1 in Hf; done. }
  assert (freeze_start ba ra cs < absolute_head w -> next_generation w < u64_max) as Hg.
  { intros Hs. pose proof (wv_generation _ _ _ _ _ _ _ V).
    destruct (Z.eq_dec (next_generation w) u64_max) as [E|]; [|lia]. rewrite R2 in Hf; done. }
  destruct (view_freeze w H ra rs ba bs hs cs V Hfr Hg) as (w1 & r' & E & V' & HH & Ha & Ho & Hm).
  rewrite Hf in E. injection E as <- Er.
  exists ra, rs, ba, bs, hs, r'. by rewrite Er.
Qed.

(** The frozen epoch's ring and base survive what leaves the epoch alone. *)
Lemma frozen_survives w H ra rs ba bs hs w' H' f :
  worker_view w H ra rs ba bs hs -> frozen w = Some f -> keeps_frozen w w' -> worker_inv w' H' ->
  exists ra' ba' hs', worker_view w' H' ra' rs ba' bs hs' /\ frozen w' = Some f.
Proof.
  intros V Hf Hk (ra' & rs' & ba' & bs' & hs' & V'). destruct (Hk f Hf) as (Hf' & _ & Ee & Eb).
  destruct (wv_frozen _ _ _ _ _ _ _ V f Hf) as (F1 & _).
  destruct (wv_frozen _ _ _ _ _ _ _ V' f Hf') as (F2 & _).
  destruct (wv_epochs _ _ _ _ _ _ _ V) as [_ E1]. destruct (wv_bases _ _ _ _ _ _ _ V) as [_ E2].
  destruct (wv_epochs _ _ _ _ _ _ _ V') as [_ E3]. destruct (wv_bases _ _ _ _ _ _ _ V') as [_ E4].
  rewrite <- F1 in E1, E2. rewrite <- F2 in E3, E4.
  assert (rs' = rs) as -> by congruence. assert (bs' = bs) as -> by congruence.
  by exists ra', ba', hs'.
Qed.

(** The frozen epoch's ring after what leaves the epoch alone, and where the range
    that was handed out lies in it. *)
Lemma frozen_view w0 ops1 w1 cs w2 d ops2 w3 :
  worker_started w0 -> valid_worker_ops w0 ops1 -> run_worker_ops ops1 w0 = (w1, Ok tt) ->
  freeze cs w1 = (w2, Ok (Some d)) -> valid_worker_ops w2 ops2 ->
  Forall (fun op => spares (desc_index d) (desc_generation d) op = true) ops2 ->
  run_worker_ops ops2 w2 = (w3, Ok tt) ->
  let range := desc_absolute_range d in
  exists x ra rs ba hs f, worker_view w3 (stream w0 ops1 ++ x) ra rs ba (desc_base d) hs
    /\ frozen w3 = Some f /\ desc_ring d = frozen_index f
    /\ desc_channels d = worker_channels w0 /\ worker_channels w3 = worker_channels w0
    /\ desc_base d + OLDEST rs <= range.1 /\ 0 <= range.1 < range.2
    /\ range.2 <= desc_base d + HEAD rs /\ range.2 * worker_channels w0 = zlen (stream w0 ops1)
    /\ 0 < worker_channels w0.
Proof.
  intros Hw Hv1 Hr1 Hf Hv2 Hs Hr2 range.
  destruct (started_run w0 ops1 w1 Hw Hv1 Hr1) as (Hi1 & Hd1 & Hc1).
  destruct (freeze_inversion w1 _ cs w2 _ Hi1 Hf) as
    (ra & rs & ba & bs & hs & r' & V1 & _ & Hd & V2 & _ & Ha2 & Ho & Hfr & _).
  pose proof (view_inv _ _ _ _ _ _ _ V2) as Hi2. destruct Ho as (_ & _ & _ & Hc2 & _ & Hdr2 & _).
  unfold freeze_result in Hd. destruct (_ <? _) eqn:Est; [|done]. injection Hd as Hd. to_prop.
  assert (desc_index d = active w1) as Hidx by (by rewrite Hd).
  destruct (run_ops_ok w2 _ ops2 Hi2 ltac:(lia) Hv2) as (w3' & E3 & Hi3 & Hc3 & _ & _ & _ & Hk).
  rewrite Hr2 in E3. injection E3 as <-. rewrite <- Hidx in Hfr.
  destruct (frozen_survives _ _ _ _ _ _ _ _ _ _ V2 Hfr (Hk _ Hfr Hs) Hi3) as (ra3 & ba3 & hs3 & V3 & Hf3).
  pose proof (wv_head _ _ _ _ _ _ _ V1) as [Hh _].
  pose proof (wv_stream _ _ _ _ _ _ _ V1) as Hst. rewrite Hc1 in Hst.
  pose proof (view_positions _ _ _ _ _ _ _ V1) as (P1 & _).
  pose proof (wv_base _ _ _ _ _ _ _ V1). pose proof (wv_ch _ _ _ _ _ _ _ V1) as Hchp. rewrite Hc1 in Hchp.
  eexists _, ra3, ra, ba3, hs3, _.
  unfold range. rewrite Hd in *. cbn [desc_base desc_ring desc_channels desc_absolute_range fst snd] in *.
  split; [exact V3|]. unfold freeze_start in *. split_and!; try done; try lia; congruence.
Qed.

(** C15. A frozen epoch is a faithful, immutable copy of the stream: whatever the
    worker has accepted up to the freeze, any part of the range handed out reads
    back as exactly those frames, until the release of that epoch, through any
    further captures, calibrations, clears, status requests, refused freezes and
    refused releases. *)
Theorem frozen_epoch_exact w0 ops1 w1 cs w2 d ops2 w3 a b dst :
  worker_started w0 -> valid_worker_ops w0 ops1 -> run_worker_ops ops1 w0 = (w1, Ok tt) ->
  freeze cs w1 = (w2, Ok (Some d)) -> valid_worker_ops w2 ops2 ->
  Forall (fun op => spares (desc_index d) (desc_generation d) op = true) ops2 ->
  run_worker_ops ops2 w2 = (w3, Ok tt) ->
  (desc_absolute_range d).1 <= a <= b -> b <= (desc_absolute_range d).2 ->
  zlen dst mod worker_channels w0 = 0 -> zlen dst <= u64_max ->
  a + zlen dst / worker_channels w0 <= u64_max ->
  let ch := worker_channels w0 in
  let n := Z.min (b - a) (zlen dst / ch) in
  copy_epoch_range_into (epochs w3) (frozen_epoch_from_descriptor 0 d) (a, b) dst =
    (segment (stream w0 ops1) (a * ch) (n * ch) ++ drop (Z.to_nat (n * ch)) dst, Ok n).
Proof.
  intros Hw Hv1 Hr1 Hf Hv2 Hs Hr2 Ha Hb Hm Hl Hcap ch n.
  destruct (frozen_view _ _ _ _ _ _ _ _ Hw Hv1 Hr1 Hf Hv2 Hs Hr2) as
    (x & ra & rs & ba & hs & f & V & Hfr & Hring & _ & Hch & Ho & Hrange & Hh & Hst & Hpos). fold ch in Hch, Hst, Hpos.
  rewrite (frozen_reads w3 _ _ _ _ _ _ _ d a b dst V Hfr); rewrite ?Hch; try done; try lia.
  fold n. assert (0 <= n) by (pose proof (Z.div_pos (zlen dst) ch (zlen_nonneg dst) ltac:(lia)); unfold n; lia).
  assert ((a + n) * ch <= (desc_absolute_range d).2 * ch) by (apply Z.mul_le_mono_nonneg_r; unfold n; lia).
  rewrite segment_app_l; [done | | | lia]; apply Z.mul_nonneg_nonneg; lia.
Qed.
(** A freeze hands the whole uncommitted tail of the stream over: the frozen
    range starts at the committed position, or at the oldest retained frame when
    that has been overwritten, and ends at the head; the new active epoch is
    empty and begins exactly there. When nothing is left to hand out there is no
    epoch. The generation of every epoch is new. *)
Theorem freeze_hands_over w0 ops w cs :
  worker_started w0 -> valid_worker_ops w0 ops -> run_worker_ops ops w0 = (w, Ok tt) ->
  frozen w = None -> next_generation w < u64_max ->
  exists oldest w' r,
    active_absolute_range w = (w, Ok (oldest, absolute_head w)) /\
    freeze cs w = (w', Ok r) /\
    active_absolute_range w' = (w', Ok (absolute_head w, absolute_head w)) /\
    let start := Z.max (default oldest cs) oldest in
    match r with
    | None => absolute_head w <= start /\ frozen w' = None
    | Some d => start < absolute_head w /\ desc_absolute_range d = (start, absolute_head w) /\
        desc_generation d = next_generation w + 1 /\
        frozen w' = Some (mkFrozen (desc_index d) (desc_generation d))
    end.
Proof.
  intros Hw Hv Hr Hf Hg. destruct (started_run w0 ops w Hw Hv Hr) as ((ra & rs & ba & bs & hs & V) & _).
  destruct (view_freeze w _ ra rs ba bs hs cs V Hf (fun _ => Hg)) as
    (w' & r' & E & V' & HH & _ & Ho & Hm).
  pose proof (active_range_run _ _ _ _ _ _ _ V') as Er. destruct Ho as (_ & _ & _ & _ & Hab & _).
  pose proof (view_positions _ _ _ _ _ _ _ V') as (P1 & _).
  replace (absolute_head w + OLDEST r') with (absolute_head w) in Er by lia. rewrite Hab in Er.
  exists (ba + OLDEST ra), w', (freeze_result w ba ra cs). split; [by eapply active_range_run|].
  split; [done|]. split; [done|]. unfold freeze_result in *. fold (freeze_start ba ra cs) in *.
  destruct (_ <? _) eqn:Es; to_prop; [|by destruct Hm].
  destruct Hm as [-> _]. done.
Qed.

(** Captures in a row: the frames they add and what they leave alone. *)
Definition consume_frames (op : worker_op) : Z :=
  match op with Consume _ _ n _ => n | _ => 0 end.
Definition is_consume (op : worker_op) : bool :=
  match op with Consume _ _ _ _ => true | _ => false end.
Definition total_consumed (ops : list worker_op) : Z :=
  fold_right (fun op n => consume_frames op + n) 0 ops.

Lemma consume_many ops : forall w H ra rs ba bs hs,
  worker_view w H ra rs ba bs hs -> worker_fault w = None ->
  Forall (fun op => is_consume op = true) ops -> valid_worker_ops w ops ->
  exists w' ra', run_worker_ops ops w = (w', Ok tt) /\
    worker_view w' (H ++ stream w ops) ra' rs ba bs hs /\
    HEAD ra' = HEAD ra + total_consumed ops /\ clear_after_frame ra' = clear_after_frame ra /\
    cfg ra' = cfg ra /\ worker_fault w' = None /\ frozen w' = frozen w /\
    next_generation w' = next_generation w /\ active w' = active w.
Proof.
  induction ops as [|op ops IH]; intros w H ra rs ba bs hs V Hf Hc Hv; cbn [run_worker_ops stream].
  - exists w, ra. rewrite app_nil_r. split_and!; try done. cbn. lia.
  - apply list.Forall_cons in Hc as [Hc1 Hc]. destruct Hv as [Hv1 Hv2].
    destruct op as [now input n sequence| | | |]; try done. destruct Hv1 as (Hn & Hin & Hl & Hmax).
    destruct (view_consume w H ra rs ba bs hs now input n sequence V Hf Hn Hin Hl Hmax) as
      (w1 & ra1 & E1 & V1 & HH1 & Hcl1 & Hcfg1 & _ & Hf1 & _ & _ & _ & Ha1 & _ & _ & Hg1 & Hfr1).
    unfold accepted. rewrite Hf. cbn [run_worker_op] in *. rewrite E1 in *. cbn [fst] in *.
    destruct (IH w1 _ ra1 rs ba bs hs V1 Hf1 Hc Hv2) as (w2 & ra2 & E2 & V2 & HH2 & Hcl2 & Hcfg2 & ? & ? & ? & ?).
    exists w2, ra2. rewrite (bind_run _ _ _ _ _ E1), app_assoc.
    split_and!; try done; try congruence. cbn [total_consumed fold_right consume_frames].
    unfold total_consumed in HH2. lia.
Qed.

(** A ring that was not overwritten nor cleared still has its first frame. *)
Lemma nothing_lost ch r h :
  quiet ch r h -> clear_after_frame r = 0 ->
  HEAD r <= cfg_chunk_frames (cfg r) * cfg_chunk_count (cfg r) -> OLDEST r = 0.
Proof.
  intros Hq Hcl Hcap. pose proof (quiet_inv _ _ _ Hq) as Hi. pose proof (inv_cf _ _ Hi).
  pose proof (blocks_bound Hi) as Hb. pose proof (inv_count _ _ Hi) as Hn.
  unfold OLDEST, FIRST_BLOCK. rewrite Hcl. fold (CF r) in Hcap. rewrite <- Hn in Hcap.
  assert (BLOCKS r <= NC r) by nia. rewrite (Z.max_l 0) by lia. lia.
Qed.

(** C16. Consecutive exports lose and repeat nothing: after an epoch is handed out,
    the frames captured while it is exported, up to the capacity of a ring, are
    exactly what the next freeze from its end hands out. *)
Theorem freeze_no_gap w0 ops1 w1 cs w2 d1 ops2 w3 ring :
  worker_started w0 -> valid_worker_ops w0 ops1 -> run_worker_ops ops1 w0 = (w1, Ok tt) ->
  worker_fault w1 = None -> freeze cs w1 = (w2, Ok (Some d1)) ->
  Forall (fun op => is_consume op = true) ops2 -> valid_worker_ops w2 ops2 ->
  run_worker_ops ops2 w2 = (w3, Ok tt) -> next_generation w3 < u64_max ->
  zlookup (epochs w2) (active w2) = Some ring -> 0 < total_consumed ops2 ->
  total_consumed ops2 <= cfg_chunk_frames (cfg ring) * cfg_chunk_count (cfg ring) ->
  let end1 := (desc_absolute_range d1).2 in
  exists w4 w5 d2,
    release (desc_index d1) (desc_generation d1) w3 = (w4, Ok tt) /\
    freeze (Some end1) w4 = (w5, Ok (Some d2)) /\
    desc_absolute_range d2 = (end1, end1 + total_consumed ops2).
Proof.
  intros Hw Hv1 Hr1 Hft Hf Hc Hv2 Hr2 Hg Hring Hpos Hcap end1.
  destruct (started_run w0 ops1 w1 Hw Hv1 Hr1) as (Hi1 & _).
  destruct (freeze_inversion w1 _ cs w2 _ Hi1 Hf) as
    (ra & rs & ba & bs & hs & r' & V1 & _ & Hd & V2 & HH & _ & Ho & Hfr & _).
  assert (end1 = absolute_head w1 /\ desc_index d1 = active w1) as [He1 Hidx].
  { unfold freeze_result in Hd. destruct (_ <? _); [|done]. injection Hd as Hd. unfold end1. by rewrite Hd. }
  destruct Ho as (_ & _ & Hfault & _). destruct (wv_epochs _ _ _ _ _ _ _ V2) as [Ering _].
  assert (ring = r') as -> by congruence.
  pose proof (inv_clear _ _ (quiet_inv _ _ _ (wv_quiet _ _ _ _ _ _ _ V2))) as Hcl.
  destruct (consume_many ops2 w2 _ r' ra _ _ _ V2 ltac:(congruence) Hc Hv2) as
    (w3' & ra3 & E3 & V3 & HH3 & Hcl3 & Hcfg3 & _ & Hfr3 & _ & _).
  rewrite Hr2 in E3. injection E3 as <-. rewrite Hfr, <- Hidx in Hfr3.
  destruct (view_release _ _ _ _ _ _ _ _ V3 Hfr3) as (w4 & r4 & E4 & V4 & Hfr4 & Hg4 & _ & Ho4).
  assert (OLDEST ra3 = 0) as Hold.
  { eapply nothing_lost; [apply (wv_quiet _ _ _ _ _ _ _ V3) | lia | rewrite Hcfg3; lia]. }
  destruct (view_freeze w4 _ _ _ _ _ _ (Some end1) V4 Hfr4 ltac:(intros; lia)) as (w5 & r5 & E5 & _).
  pose proof (wv_head _ _ _ _ _ _ _ V4) as [Hh4 _].
  unfold freeze_result, freeze_start in E5. cbn [default] in E5. rewrite Hold, He1, Z.add_0_r, Z.max_id in E5.
  rewrite (proj2 (Z.ltb_lt _ _)) in E5 by lia.
  exists w4, w5. eexists. split; [exact E4|]. split; [by rewrite He1|]. cbn [desc_absolute_range].
  f_equal; lia.
Qed.

(** The capability of a frozen epoch works exactly once: it releases its epoch
    whatever happened since the freeze, and after that every release with it
    fails and changes nothing, whatever epochs are frozen later. *)
Theorem release_exactly_once w0 ops1 w1 cs w2 d ops2 w3 :
  worker_started w0 -> valid_worker_ops w0 ops1 -> run_worker_ops ops1 w0 = (w1, Ok tt) ->
  freeze cs w1 = (w2, Ok (Some d)) -> valid_worker_ops w2 ops2 ->
  Forall (fun op => spares (desc_index d) (desc_generation d) op = true) ops2 ->
  run_worker_ops ops2 w2 = (w3, Ok tt) ->
  exists w4, release (desc_index d) (desc_generation d) w3 = (w4, Ok tt) /\ frozen w4 = None /\
    forall ops4 w5, valid_worker_ops w4 ops4 -> run_worker_ops ops4 w4 = (w5, Ok tt) ->
      exists e, release (desc_index d) (desc_generation d) w5 = (w5, Err e).
Proof.
  intros Hw Hv1 Hr1 Hf Hv2 Hs Hr2.
  destruct (started_run w0 ops1 w1 Hw Hv1 Hr1) as (Hi1 & Hd1 & _).
  destruct (freeze_inversion w1 _ cs w2 _ Hi1 Hf) as
    (ra & rs & ba & bs & hs & r' & V1 & _ & Hd & V2 & _ & _ & Ho & Hfr & Hgen).
  assert (desc_index d = active w1 /\ desc_generation d = next_generation w1 + 1) as [Hidx Hdg].
  { unfold freeze_result in Hd. destruct (_ <? _); [|done]. injection Hd as Hd. by rewrite Hd. }
  rewrite <- Hidx in Hfr. destruct Ho as (_ & _ & _ & _ & _ & Hdr & _).
  destruct (run_ops_ok w2 _ ops2 (view_inv _ _ _ _ _ _ _ V2) ltac:(lia) Hv2) as
    (w3' & E3 & (ra3 & rs3 & ba3 & bs3 & hs3 & V3) & _ & Hd3 & Hg3 & _ & Hk).
  rewrite Hr2 in E3. injection E3 as <-. destruct (Hk _ Hfr Hs _ Hfr) as (Hfr3 & _).
  destruct (view_release _ _ _ _ _ _ _ _ V3 Hfr3) as (w4 & r4 & E4 & V4 & Hfr4 & Hg4 & _ & Ho4).
  exists w4. split; [done|]. split; [done|]. intros ops4 w5 Hv4 Hr4.
  destruct Ho4 as (_ & _ & _ & _ & _ & Hdr4 & _).
  destruct (run_ops_ok w4 _ ops4 (view_inv _ _ _ _ _ _ _ V4) ltac:(lia) Hv4) as
    (w5' & E5 & _ & _ & _ & _ & Hn5 & _).
  rewrite Hr4 in E5. injection E5 as <-.
  destruct (release_refused w5 (desc_index d) (desc_generation d)) as [R1 R2].
  destruct (frozen w5) as [f|] eqn:Ef; [|by eexists; apply R1]. eexists. apply (R2 f); [done|].
  destruct (Hn5 f eq_refl) as [?|Hlt]; [congruence|]. intros ->. cbn in Hlt. lia.
Qed.

(** A clear accounts for every frame since the expected start: each of them is
    counted either as lost to retention before the clear or as cleared by it,
    never as both, and afterwards nothing of the stream is left to export. *)
Theorem clear_accounts w0 ops w ingress acc :
  worker_started w0 -> valid_worker_ops w0 ops -> run_worker_ops ops w0 = (w, Ok tt) ->
  0 <= ingress -> ingress + worker_dropped_frames w <= u64_max ->
  0 <= pending_retention_lost_frames acc -> 0 <= pending_cleared_frames acc ->
  0 <= expected_active_start acc <= absolute_head w ->
  pending_retention_lost_frames acc + absolute_head w <= u64_max ->
  pending_cleared_frames acc + absolute_head w <= u64_max ->
  exists oldest w' report lost cleared,
    active_absolute_range w = (w, Ok (oldest, absolute_head w)) /\
    clear_command ingress acc w = (w', Ok report) /\
    report_pending_retention_lost_frames report = pending_retention_lost_frames acc + lost /\
    report_pending_cleared_frames report = pending_cleared_frames acc + cleared /\
    lost + cleared = absolute_head w - expected_active_start acc /\
    lost = Z.max 0 (oldest - expected_active_start acc) /\ 0 <= cleared /\
    report_active_absolute_range report = (oldest, absolute_head w) /\
    active_absolute_range w' = (w', Ok (absolute_head w, absolute_head w)).
Proof.
  intros Hw Hv Hr Hin Hdr Hl Hc He Hl64 Hc64.
  destruct (started_run w0 ops w Hw Hv Hr) as ((ra & rs & ba & bs & hs & V) & Hd & _).
  pose proof (view_positions _ _ _ _ _ _ _ V) as (P1 & _). pose proof (wv_head _ _ _ _ _ _ _ V) as [Hh _].
  pose proof (wv_base _ _ _ _ _ _ _ V).
  assert (forall start, start = ba + OLDEST ra ->
    clear_lost start (expected_active_start acc) = Z.max 0 (start - expected_active_start acc) /\
    clear_dropped start (absolute_head w) (expected_active_start acc) =
      absolute_head w - Z.max (expected_active_start acc) start) as Hcl.
  { intros start ->. unfold clear_lost, clear_dropped, saturating_sub. lia. }
  destruct (Hcl _ eq_refl) as [L1 L2].
  destruct (view_clear w _ ra rs ba bs hs ingress acc V Hin Hl Hc Hd) as
    [(_ & _ & _ & w' & r' & E & V' & Ho' & _ & Hw')|([B|[B|B]] & _)]; [| lia..].
  pose proof (active_range_run _ _ _ _ _ _ _ V') as Er.
  pose proof (wv_head _ _ _ _ _ _ _ V') as [Hh' _]. rewrite Ho', <- Hh' in Er.
  assert (absolute_head w' = absolute_head w) as Hab by (by rewrite Hw'). rewrite Hab in Er.
  eexists (ba + OLDEST ra), w', _, _, _. split; [by eapply active_range_run|].
  split; [exact E|]. cbn. split_and!; [done | done | lia | lia | lia | done | done].
Qed.
End worker_theorems.

(** ** Instances

    A mono worker whose rings hold four frames in two chunks. *)

#[local] Instance small_platform : Platform :=
  { sysconf_page_size := 4096; can_allocate := fun _ => true;
    size_of_current_artifact_slot := 88 }.

Definition small_config : RingConfig := mkRingConfig 1 100 F32Le 2 2 1.
Definition small_ring : SampleRing :=
  Eval vm_compute in match SampleRing.new small_config with
                     | Ok r => r
                     | _ => mkRing small_config [] 0 0 0 0 0 0 None 0 0 false false
                     end.
Definition small_queue : IngressQueue :=
  Eval vm_compute in match IngressQueue.new 2 4 1 with
                     | Ok q => q
                     | _ => mkQueue [] 0 0 0 0 0 0 0 false 0 0 false
                     end.
Definition worker0 : WorkerState :=
  new_worker small_queue calibration_slot small_ring small_ring small_config.

Lemma worker0_started : worker_started worker0.
Proof.
  exists small_queue, calibration_slot, small_ring, small_ring, small_config.
  assert (slot_ok (cfg_channels small_config) calibration_slot).
  { constructor; first [by vm_compute | by intros | split; by vm_compute]. }
  split_and!; first [assumption | reflexivity | split; vm_compute; discriminate].
Qed.

(** Three frames, a freeze, two more frames, and a refused release. *)
Definition ops_before : list worker_op := [Consume 0 (map sample_of_Z [1; 2; 3]) 3 0].
Definition worker1 : WorkerState := Eval vm_compute in (run_worker_ops ops_before worker0).1.
Definition worker2 : WorkerState := Eval vm_compute in (freeze (Some 1) worker1).1.
Definition epoch1 : FrozenDescriptor := mkDescriptor 0 0 2 0 (1, 3) (1, 3) 1 100 F32Le.
Definition ops_meanwhile : list worker_op := [Consume 0 (map sample_of_Z [4; 5]) 2 1].
Definition worker3 : WorkerState := Eval vm_compute in (run_worker_ops ops_meanwhile worker2).1.

Ltac run_check := vm_compute; first [reflexivity | discriminate | lia].
Ltac valid_check := cbn [valid_worker_ops valid_worker_op]; repeat split; run_check.

Lemma frozen_epoch_exact_witness :
  copy_epoch_range_into (epochs worker3) (frozen_epoch_from_descriptor 0 epoch1) (1, 3)
    (map sample_of_Z [9; 9; 9; 9]) =
  (segment (stream worker0 ops_before) 1 2 ++ map sample_of_Z [9; 9], Ok 2).
Proof.
  refine (frozen_epoch_exact worker0 ops_before worker1 (Some 1) worker2 epoch1 ops_meanwhile worker3
            1 3 (map sample_of_Z [9; 9; 9; 9]) worker0_started _ _ _ _ _ _ _ _ _ _ _);
    first [valid_check | repeat constructor | run_check | split; run_check].
Defined.

Lemma freeze_hands_over_witness :
  exists oldest w' r,
    active_absolute_range worker1 = (worker1, Ok (oldest, 3)) /\
    freeze (Some 1) worker1 = (w', Ok r) /\
    active_absolute_range w' = (w', Ok (3, 3)) /\
    let start := Z.max 1 oldest in
    match r with
    | None => 3 <= start /\ frozen w' = None
    | Some d => start < 3 /\ desc_absolute_range d = (start, 3) /\ desc_generation d = 2 /\
        frozen w' = Some (mkFrozen (desc_index d) (desc_generation d))
    end.
Proof.
  apply (freeze_hands_over worker0 ops_before worker1 (Some 1) worker0_started);
    first [valid_check | run_check].
Defined.

Lemma freeze_no_gap_witness :
  exists w4 w5 d2,
    release 0 2 worker3 = (w4, Ok tt) /\ freeze (Some 3) w4 = (w5, Ok (Some d2)) /\
    desc_absolute_range d2 = (3, 5).
Proof.
  apply (freeze_no_gap worker0 ops_before worker1 (Some 1) worker2 epoch1 ops_meanwhile worker3
           small_ring worker0_started);
    first [valid_check | repeat constructor | run_check].
Defined.

(** The release of the epoch is refused afterwards, also when another one is frozen. *)
Definition ops_again : list worker_op := [Process (Freeze 0 (Some 3)); Process (Status 0)].

Lemma release_exactly_once_witness :
  exists w4, release 0 2 worker3 = (w4, Ok tt) /\ frozen w4 = None /\
    forall ops4 w5, valid_worker_ops w4 ops4 -> run_worker_ops ops4 w4 = (w5, Ok tt) ->
      exists e, release 0 2 w5 = (w5, Err e).
Proof.
  apply (release_exactly_once worker0 ops_before worker1 (Some 1) worker2 epoch1 ops_meanwhile worker3
           worker0_started);
    first [valid_check | repeat constructor | run_check].
Defined.

(** Frame 0 was not wanted, frames 1 and 2 are cleared. *)
Lemma clear_accounts_witness :
  let acc := mkAccounting 1 1 1 1 0 0 in
  exists oldest w' report lost cleared,
    active_absolute_range worker1 = (worker1, Ok (oldest, 3)) /\
    clear_command 0 acc worker1 = (w', Ok report) /\
    report_pending_retention_lost_frames report = 0 + lost /\
    report_pending_cleared_frames report = 0 + cleared /\
    lost + cleared = 3 - 1 /\ lost = Z.max 0 (oldest - 1) /\ 0 <= cleared /\
    report_active_absolute_range report = (oldest, 3) /\
    active_absolute_range w' = (w', Ok (3, 3)).
Proof.
  apply (clear_accounts worker0 ops_before worker1 0 (mkAccounting 1 1 1 1 0 0) worker0_started);
    first [valid_check | run_check | split; run_check].
Defined.
