(* ===== verification/WorkerLiveness.v ===== *)
(** * A submitted command is answered

    The loop of the worker, composed of its turns: a command waits until the
    slots published before it are consumed, each turn consumes one, and then the
    command is processed. *)
From S2P Require Import Prelude.
From S2P Require Import Errors.
From S2P Require Import MemoryPlan.
From S2P Require Import SampleRing.
From S2P Require Import RingSpec.
From S2P Require Import IngressQueue.
From S2P Require Import CalibrationCapture.
From S2P Require Import CalibrationTheorems.
From S2P Require Import CaptureWorker.
From S2P Require Import WorkerSpec.
From S2P Require Import WorkerTheorems.

(** The worker with a command that waits for the slots before [t]. *)
Record waiting (w : WorkerState) (H : list f32) (log : list (list f32)) (c : WorkerCommand)
    : Prop := {
  wt_inv : worker_inv w H;
  wt_dropped : 0 <= worker_dropped_frames w;
  wt_queue : queue_ok (queue w) log;
  wt_channels : channels (queue w) = worker_channels w;
  wt_fault : worker_fault w = None;
  wt_generation : producer_generation_exhausted (queue w) = false;
  wt_ready : cmd_state (command w) = COMMAND_READY /\ cmd_command (command w) = Some c;
  wt_target : consumed_sequence (queue w) <= target_sequence c <= published_sequence (queue w);
}.

Lemma waiting_slot w H log c :
  waiting w H log c -> consumed_sequence (queue w) < published_sequence (queue w) ->
  exists xs n, zlookup log (consumed_sequence (queue w)) = Some xs /\
    zlen xs = n * worker_channels w /\ 0 < n <= slot_frames (queue w) /\ zlen xs <= 2 ^ 61 /\
    peek_next (queue w) = Ok (Some (xs, n, consumed_sequence (queue w))).
Proof.
  intros [] Hlt. pose proof (q_consumed _ _ wt_queue0). pose proof (q_channels _ _ wt_queue0) as Hch.
  destruct (q_holds _ _ wt_queue0 (consumed_sequence (queue w))) as (xs & Hl & slot & Hs & Hf & Hx & Hle & _);
    [lia|].
  pose proof (q_buffers _ _ wt_queue0 _ _ Hs) as Hb. pose proof (q_buffer_size _ _ wt_queue0).
  exists xs, (frames slot). rewrite <- wt_channels0. split_and!; [done | done | done | nia | lia |].
  rewrite (peek_spec wt_queue0), (proj2 (Z.leb_gt _ _)), Hl by lia. do 4 f_equal.
  rewrite Hx. apply Z.div_mul. lia.
Qed.

(** A turn of the loop that consumes a slot. *)
Lemma waiting_turn w H log c now :
  waiting w H log c -> consumed_sequence (queue w) < target_sequence c ->
  absolute_head w + slot_frames (queue w) < u64_max ->
  exists w' xs n, run_turn now w = (w', Ok false) /\ waiting w' (H ++ xs) log c /\
    zlookup log (consumed_sequence (queue w)) = Some xs /\
    consumed_sequence (queue w') = consumed_sequence (queue w) + 1 /\
    slot_frames (queue w') = slot_frames (queue w) /\
    0 < n <= slot_frames (queue w) /\ absolute_head w' = absolute_head w + n.
Proof.
  intros Hwt Hlt Hmax. pose proof Hwt as [I1 I2 I3 I4 I5 I6 [I7 I8] I9].
  destruct (waiting_slot w H log c Hwt ltac:(lia)) as (xs & n & Hl & Hx & Hn & Hsz & Hp).
  destruct (cancel_step w) as (w1 & E1 & S1 & F1). destruct (accept_step w1) as (w2 & E2 & S2 & F2).
  destruct S1 as (C1 & D1 & Q1 & M1 & K1). destruct S2 as (C2 & D2 & Q2 & M2 & K2).
  assert (same_core w w2) as Hc by (by etrans).
  destruct I1 as (ra & rs & ba & bs & hs & V).
  assert (worker_view w2 H ra rs ba bs hs) as V2.
  { eapply calibration_step_view; [by split_and!; [exact C2|..]|].
    eapply calibration_step_view; [by split_and!; [exact C1|..]|]. done. }
  assert (worker_channels w2 = worker_channels w /\ absolute_head w2 = absolute_head w) as [Hch2 Hab2]
    by (destruct Hc as (_ & _ & _ & Ha & _ & _ & _ & _ & Hcc & _); done).
  assert (worker_fault w2 = None) as Hf2 by (rewrite F2; [congruence | by rewrite Q1]).
  destruct (view_consume w2 H ra rs ba bs hs now xs n (consumed_sequence (queue w)) V2 Hf2) as
    (w3 & ra' & E3 & V3 & _ & _ & _ & _ & Hf3 & Hab3 & Hq3 & Hm3 & _ & Hd3 & Hch3 & _); [lia | congruence | done | lia |].
  destruct (advance_spec I3 ltac:(lia)) as (q' & Ea & Hq' & Hqe).
  exists (w3 <| queue := q' |>), xs, n.
  assert (consume_one now w1 = (w3 <| queue := q' |>, Ok true)) as Ec.
  { unfold consume_one. rewrite (bind_run _ _ _ _ _ E2). msteps. rewrite Q2, Q1, Hp. msteps.
    rewrite (bind_run _ _ _ _ _ E3).
    assert (on_queue (advance (consumed_sequence (queue w))) w3 = (w3 <| queue := q' |>, Ok tt)) as Eq.
    { unfold on_queue. by rewrite Hq3, Q2, Q1, Ea. }
    rewrite (bind_run _ _ _ _ _ Eq). done. }
  split.
  { unfold run_turn. rewrite (bind_run _ _ _ _ _ E1). msteps. rewrite M1, I7.
    change (COMMAND_READY =? COMMAND_PREPARING) with false. cbv iota.
    unfold ready_target. rewrite I7, I8, Z.eqb_refl. cbn [option_map].
    unfold consumed_head. rewrite Q1, (proj2 (Z.ltb_lt _ _)) by done.
    by rewrite (bind_run _ _ _ _ _ Ec). }
  assert (queue (w3 <| queue := q' |>) = q') as Hqq by done.
  split; [|rewrite Hqq, Hqe; cbn; split_and!; try done; lia].
  assert (same_core w3 (w3 <| queue := q' |>)) as Hcc by (by unfold same_core).
  constructor; rewrite ?Hqq; try done.
  - eapply view_inv, same_core_view; [exact Hcc | apply V3 | apply V3 | exact V3].
  - change (0 <= worker_dropped_frames w3). lia.
  - change (channels q' = worker_channels w3). rewrite Hqe. cbn. congruence.
  - by rewrite Hqe.
  - change (cmd_state (command w3) = COMMAND_READY /\ cmd_command (command w3) = Some c).
    rewrite Hm3, M2, M1. done.
  - rewrite Hqe. cbn. lia.
Qed.

(** The turns of the loop at the given times. *)
Fixpoint run_turns (nows : list Z) : WM unit :=
  match nows with
  | [] => ret tt
  | now :: nows' => let! _ := run_turn now in run_turns nows'
  end.

Lemma waiting_turns nows : forall w H log c,
  waiting w H log c -> zlen nows = target_sequence c - consumed_sequence (queue w) ->
  absolute_head w + zlen nows * slot_frames (queue w) < u64_max ->
  exists w' , run_turns nows w = (w', Ok tt) /\
    waiting w' (H ++ concat (segment log (consumed_sequence (queue w)) (zlen nows))) log c /\
    consumed_sequence (queue w') = target_sequence c.
Proof.
  induction nows as [|now nows IH]; intros w H log c Hw Hn Hmax; cbn [run_turns].
  - exists w. change (zlen (@nil Z)) with 0 in *. rewrite segment_nil. cbn [concat]. rewrite app_nil_r.
    split_and!; [done | done | lia].
  - assert (zlen (now :: nows) = zlen nows + 1) as Hl by (unfold zlen; cbn [length]; lia).
    pose proof (zlen_nonneg nows). pose proof (q_slot_frames _ _ (wt_queue _ _ _ _ Hw)).
    rewrite Hl in *. destruct (waiting_turn w H log c now Hw) as (w1 & xs & n & E1 & W1 & Hx & Hc1 & Hs1 & Hn1 & Ha1);
      [lia | nia |].
    destruct (IH w1 _ log c W1) as (w2 & E2 & W2 & Hc2); [lia | rewrite Hs1; nia |].
    exists w2. rewrite (bind_run _ _ _ _ _ E1). split; [done|]. split; [|done].
    rewrite Hc1, <- app_assoc in W2. pose proof (q_consumed _ _ (wt_queue _ _ _ _ Hw)).
    replace (zlen nows + 1) with (1 + zlen nows) by lia. rewrite segment_split by lia.
    assert (segment log (consumed_sequence (queue w)) 1 = [xs]) as ->.
    { unfold segment, zlookup in *. rewrite (proj2 (Z.leb_le 0 _)) in Hx by lia.
      change (Z.to_nat 1) with 1%nat. by rewrite (drop_S _ _ _ Hx). }
    cbn [concat app]. exact W2.
Qed.

Definition is_shutdown (c : WorkerCommand) : bool :=
  match c with Shutdown _ => true | _ => false end.

(** The turn that processes the command. *)
Lemma processing_turn w H log c now :
  waiting w H log c -> consumed_sequence (queue w) = target_sequence c ->
  valid_worker_op w (Process c) ->
  exists w1 w2 o, same_core w w1 /\ process_command c w1 = (w2, o) /\ o <> Panic /\
    worker_inv w2 H /\
    run_turn now w =
      (w2 <| command ::= (fun s => s <| cmd_result := Some o |> <| cmd_state := COMMAND_RESULT_READY |>) |>,
       Ok (is_shutdown c)).
Proof.
  intros Hwt Ht Hv. pose proof Hwt as [(ra & rs & ba & bs & hs & V) I2 I3 I4 I5 I6 [I7 I8] I9].
  destruct (cancel_step w) as (w0 & E0 & S0 & F0).
  pose proof (calibration_step_view _ _ _ _ _ _ _ _ S0 V) as V0. destruct S0 as (C0 & D0 & Q0 & M0 & _).
  set (s1 := (command w0) <| cmd_command := None |> <| cmd_state := COMMAND_PROCESSING |>).
  set (w1 := w0 <| command := s1 |>).
  assert (same_core w0 w1) as C1 by (by unfold same_core).
  assert (on_command take_command w0 = (w1, Ok c)) as Et.
  { unfold on_command, take_command. msteps. rewrite M0, I7, I8, Z.eqb_refl. cbn [unwrap]. msteps.
    rewrite ret_run. unfold w1, s1. by rewrite M0. }
  assert (worker_view w1 H ra rs ba bs hs) as V1
    by (eapply same_core_view; [exact C1 | apply V0 | apply V0 | exact V0]).
  destruct (view_process w1 H ra rs ba bs hs c V1) as (w2 & o & E2 & Ho & Hi2 & _).
  { change (0 <= worker_dropped_frames w0). lia. }
  { destruct c; done. }
  exists w1, w2, o. split; [by etrans|]. split_and!; [done | done | done |].
  unfold run_turn. rewrite (bind_run _ _ _ _ _ E0). msteps. rewrite M0, I7.
  change (COMMAND_READY =? COMMAND_PREPARING) with false. cbv iota.
  unfold ready_target. rewrite I7, I8, Z.eqb_refl. cbn [option_map].
  unfold consumed_head. rewrite Q0, (proj2 (Z.ltb_ge _ _)) by lia.
  rewrite (bind_run _ _ _ _ _ Et), (bind_run _ _ _ _ _ (catch_run _ _ _ _ E2 Ho)). done.
Qed.

(** C32. Liveness of the command protocol: a published command is answered after
    exactly as many turns of the worker's loop as there are slots published
    before it and not yet consumed, and it is processed on a state that contains
    all of them, in order; its outcome, success or error, is left in the result
    cell. *)
Theorem worker_answers w H log c nows now :
  waiting w H log c -> zlen nows = target_sequence c - consumed_sequence (queue w) ->
  absolute_head w + zlen nows * slot_frames (queue w) < u64_max ->
  (forall w', valid_worker_op w' (Process c)) ->
  exists w1 w2 w3 w4 o,
    run_turns nows w = (w1, Ok tt) /\
    worker_inv w1 (H ++ concat (segment log (consumed_sequence (queue w)) (zlen nows))) /\
    same_core w1 w2 /\ process_command c w2 = (w3, o) /\
    run_turn now w1 = (w4, Ok (is_shutdown c)) /\
    cmd_state (command w4) = COMMAND_RESULT_READY /\ cmd_result (command w4) = Some o.
Proof.
  intros Hw Hn Hmax Hv. destruct (waiting_turns nows w H log c Hw Hn Hmax) as (w1 & E1 & W1 & Hc1).
  destruct (processing_turn w1 _ log c now W1 Hc1 (Hv w1)) as (w2 & w3 & o & Hsc & E2 & _ & _ & E3).
  exists w1, w2, w3. eexists. exists o. split_and!; [done | apply W1 | done | done | exact E3 | done | done].
Qed.

(** ** An instance

    Two slots of a push wait in the queue when a freeze is submitted. *)
Definition waiting_queue : IngressQueue :=
  Eval vm_compute in (try_push (map sample_of_Z [1; 2; 3; 4; 5]) 1 small_queue).1.
Definition waiting_slots : list (list f32) :=
  Eval vm_compute in [map sample_of_Z [1; 2; 3; 4]; map sample_of_Z [5]].
Definition freeze_command : WorkerCommand := Freeze 2 None.
Definition waiting_worker : WorkerState :=
  Eval vm_compute in
    worker0 <| queue := waiting_queue |>
            <| command := (bind (begin_command COMMAND_KIND_FREEZE)
                             (fun _ => publish_command freeze_command) new_command_slot).1 |>.

Lemma waiting_queue_ok : queue_ok waiting_queue waiting_slots.
Proof.
  constructor; try (split_and?; vm_compute; first [reflexivity | discriminate | split; discriminate]).
  - intros i slot Hs. pose proof (zlookup_Some_lt _ _ _ Hs) as Hr.
    change (zlen (slots waiting_queue)) with 2 in Hr.
    assert (i = 0 \/ i = 1) as [-> | ->] by lia; by injection Hs as <-.
  - intros s Hs. change (0 <= s < 2) in Hs.
    assert (s = 0 \/ s = 1) as [-> | ->] by lia; eexists; (split; [reflexivity|]);
      eexists; (split; [reflexivity|]); repeat split; vm_compute; done.
Qed.

Lemma worker_answers_witness :
  exists w1 w2 w3 w4 o,
    run_turns [0; 0] waiting_worker = (w1, Ok tt) /\
    worker_inv w1 ([] ++ concat (segment waiting_slots 0 2)) /\
    same_core w1 w2 /\ process_command freeze_command w2 = (w3, o) /\
    run_turn 0 w1 = (w4, Ok false) /\
    cmd_state (command w4) = COMMAND_RESULT_READY /\ cmd_result (command w4) = Some o.
Proof.
  apply (worker_answers waiting_worker [] waiting_slots freeze_command [0; 0] 0).
  - constructor; first [exact waiting_queue_ok | split; reflexivity | vm_compute; done
      | split; vm_compute; discriminate | idtac].
    destruct (started_inv worker0 worker0_started) as [(ra & rs & ba & bs & hs & V) _].
    eapply view_inv, (same_core_view worker0); [done | apply V | apply V | exact V].
  - reflexivity.
  - reflexivity.
  - done.
Defined.
