(* ===== verification/OperationLane.v ===== *)
(** * The operation lane (src/control_server.rs)

    A bounded queue that hands mutating requests to one worker thread. Clients
    enqueue under the queue's mutex; [close] stores a flag and notifies without
    taking it; the worker pops under the mutex and waits on a condition
    variable when the queue is empty.

    The definitions give each operation and the worker's loop in the steps other
    threads can see; the theorems are over all interleavings of those steps.
    Every accepted job is served once and in order, a closed lane cancels what
    is queued and its worker exits, and, as the flag is stored outside the
    mutex, a close can also be missed by a worker that is about to wait. *)
From S2P Require Import Prelude.
From S2P Require Import Errors.

Inductive EnqueueError := Full | Closed.

#[export] Instance EnqueueError_eq_dec : EqDecision EnqueueError.
Proof. solve_decision. Defined.

(** What the worker does with a popped job: [handler(job)] or [cancel(job)]. *)
Inductive Fate := Handled | Cancelled.

Section operation_lane.
Context {T : Type}.

Record LaneState := mkLaneState {
  queue : list T;
  capacity : Z;
  closed : bool;
}.

#[export] Instance LaneState_eta : Eta LaneState :=
  fun s => mkLaneState (queue s) (capacity s) (closed s).

Definition new (capacity : Z) : Result LaneState :=
  if capacity =? 0 then Err (Control "operation lane capacity must be greater than zero")
  else Ok (mkLaneState [] capacity false).

Definition is_closed (s : LaneState) : bool := closed s.

(** A rejected job is returned with the reason. *)
Definition try_enqueue (job : T) : M LaneState (EnqueueError * T) unit :=
  let! s := get in
  fail_if (closed s) (Closed, job);;
  fail_if (capacity s <=? zlen (queue s)) (Full, job);;
  modify (fun s => s <| queue ::= fun q => q ++ [job] |>).

(** Where the worker is. [Locking] is about to take the mutex in [pop];
    [AtQueue], [AtClosed] and [AtWait] hold it, before [pop_front], before
    [closed.load] and before [not_empty.wait]; [Waiting] is inside [wait], with
    the mutex released; [Taken] has its job and reads [is_closed]. *)
Inductive WorkerPc :=
  | Locking
  | AtQueue
  | AtClosed
  | AtWait
  | Waiting
  | Taken (job : T)
  | Serving (job : T) (fate : Fate)
  | Exited.

Definition holds_lock (pc : WorkerPc) : bool :=
  match pc with AtQueue | AtClosed | AtWait => true | _ => false end.

(** [closers] counts the calls of [close] between their store and their
    [notify_all]; [served] lists the jobs given to [handler] or [cancel]. *)
Record LaneSystem := mkLaneSystem {
  lane : LaneState;
  worker : WorkerPc;
  closers : nat;
  served : list (T * Fate);
}.

#[export] Instance LaneSystem_eta : Eta LaneSystem :=
  fun x => mkLaneSystem (lane x) (worker x) (closers x) (served x).

Definition start (s : LaneState) : LaneSystem := mkLaneSystem s Locking 0 [].

(** A notification of [not_empty]. *)
Definition wake (x : LaneSystem) : LaneSystem :=
  match worker x with
  | Waiting => x <| worker := Locking |>
  | _ => x
  end.

(** One step of [pop]. *)
Definition pop_step (x : LaneSystem) : LaneSystem :=
  match worker x with
  | Locking => x <| worker := AtQueue |>
  | AtQueue =>
      match queue (lane x) with
      | job :: rest => x <| lane ::= fun s => s <| queue := rest |> |> <| worker := Taken job |>
      | [] => x <| worker := AtClosed |>
      end
  | AtClosed => if closed (lane x) then x <| worker := Exited |> else x <| worker := AtWait |>
  | AtWait => x <| worker := Waiting |>
  | _ => x
  end.

(** One step of the loop of [spawn_operation_worker]. *)
Definition worker_step (x : LaneSystem) : LaneSystem :=
  match worker x with
  | Taken job => x <| worker := Serving job (if is_closed (lane x) then Cancelled else Handled) |>
  | Serving job fate => x <| served ::= fun l => l ++ [(job, fate)] |> <| worker := Locking |>
  | _ => pop_step x
  end.

Inductive Event :=
  | Enqueue (job : T)
  | StoreClosed
  | NotifyClosed
  | Turn
  | SpuriousWake.

(** [None] when the event cannot happen in the state. *)
Definition lane_step (e : Event) (x : LaneSystem) : option LaneSystem :=
  match e with
  | Enqueue job =>
      if holds_lock (worker x) then None
      else match try_enqueue job (lane x) with
           | (s, Ok _) => Some (wake (x <| lane := s |>))
           | (s, _) => Some (x <| lane := s |>)
           end
  | StoreClosed => Some (x <| lane ::= fun s => s <| closed := true |> |> <| closers ::= S |>)
  | NotifyClosed =>
      match closers x with
      | O => None
      | S n => Some (wake (x <| closers := n |>))
      end
  | Turn => Some (worker_step x)
  | SpuriousWake => Some (wake x)
  end.

Fixpoint lane_run (es : list Event) (x : LaneSystem) : option LaneSystem :=
  match es with
  | [] => Some x
  | e :: es' => match lane_step e x with Some y => lane_run es' y | None => None end
  end.

(** The jobs that [try_enqueue] accepts in a run. *)
Definition accepted_by (e : Event) (x : LaneSystem) : list T :=
  match e with
  | Enqueue job => if is_ok (try_enqueue job (lane x)).2 then [job] else []
  | _ => []
  end.

Fixpoint accepted (es : list Event) (x : LaneSystem) : list T :=
  match es with
  | [] => []
  | e :: es' =>
      accepted_by e x ++ match lane_step e x with Some y => accepted es' y | None => [] end
  end.

(** The job the worker has taken and not finished. *)
Definition in_hand (pc : WorkerPc) : list T :=
  match pc with Taken job | Serving job _ => [job] | _ => [] end.

(** ** Every accepted job is served once, in order *)

(** What is served, in hand or queued. *)
Definition admitted_jobs (x : LaneSystem) : list T :=
  map fst (served x) ++ in_hand (worker x) ++ queue (lane x).

Lemma step_admitted e x y :
  lane_step e x = Some y -> admitted_jobs y = admitted_jobs x ++ accepted_by e x.
Proof.
  destruct x as [[q c cl] pc n l], e; unfold admitted_jobs; cbn.
  - unfold try_enqueue, fail_if, accepted_by; cbn.
    destruct (holds_lock pc); [done|]. unfold try_enqueue, fail_if; cbn.
    destruct cl; cbn; [by intros [= <-]; rewrite app_nil_r|].
    unfold bind; cbn. destruct (c <=? zlen q); cbn; [by intros [= <-]; rewrite app_nil_r|].
    unfold wake; cbn. by destruct pc; intros [= <-]; cbn; rewrite <-?app_assoc.
  - intros [= <-]; cbn. by rewrite app_nil_r.
  - destruct n; [done|]. unfold wake; cbn. by destruct pc; intros [= <-]; cbn; rewrite app_nil_r.
  - intros [= <-]. rewrite app_nil_r. unfold worker_step, pop_step; cbn.
    destruct pc as [| | | | |job|job fate|]; cbn; try done; [by destruct q|by destruct cl|].
    by rewrite map_app, <-!app_assoc.
  - unfold wake; cbn. by destruct pc; intros [= <-]; cbn; rewrite app_nil_r.
Qed.

Lemma run_admitted es x y :
  lane_run es x = Some y -> admitted_jobs y = admitted_jobs x ++ accepted es x.
Proof.
  revert x. induction es as [|e es IH]; intros x; cbn; [by intros [= ->]; rewrite app_nil_r|].
  destruct (lane_step e x) as [z|] eqn:E; [|done]. intros Hr.
  by rewrite (IH _ Hr), (step_admitted _ _ _ E), app_assoc.
Qed.

Record lane_inv (x : LaneSystem) : Prop := {
  inv_bound : zlen (queue (lane x)) <= capacity (lane x);
  inv_sleep : worker x = Waiting \/ worker x = AtWait \/ worker x = AtClosed \/ worker x = Exited ->
              queue (lane x) = [];
  inv_exit : worker x = Exited -> closed (lane x) = true;
  inv_cancel : forall job, worker x = Serving job Cancelled -> closed (lane x) = true;
  inv_served : exists h c, served x = map (fun j => (j, Handled)) h ++ map (fun j => (j, Cancelled)) c
                 /\ (c <> [] -> closed (lane x) = true
                      /\ forall job, worker x <> Serving job Handled);
}.

(** A change of the worker alone that keeps it awake. *)
Lemma lane_same_inv s pc n l pc' n' :
  lane_inv (mkLaneSystem s pc n l) -> pc' = pc \/ pc' = Locking ->
  lane_inv (mkLaneSystem s pc' n' l).
Proof.
  intros [Hb Hs Hx Hc (h & cc & Hl & Hk)] Hpc; cbn in *.
  split; cbn; [done| | | |]; destruct Hpc as [->| ->]; try done.
  - intros [?|[?|[?|?]]]; done.
  - exists h, cc. done.
  - exists h, cc. split; [done|]. intros H. by destruct (Hk H).
Qed.

Lemma wake_inv s pc n l n' :
  lane_inv (mkLaneSystem s pc n l) -> lane_inv (wake (mkLaneSystem s pc n' l)).
Proof. intros. unfold wake. destruct pc; cbn; eapply lane_same_inv; eauto. Qed.

Lemma enqueue_inv job x y :
  lane_step (Enqueue job) x = Some y -> lane_inv x -> lane_inv y.
Proof.
  destruct x as [[q c cl] pc n l]. cbn. intros E H. destruct (holds_lock pc) eqn:Hh; [done|].
  unfold try_enqueue, fail_if in E; cbn in E. destruct cl; cbn in E; [by injection E as <-|].
  unfold bind in E; cbn in E. destruct (c <=? zlen q) eqn:Hle; cbn in E; [by injection E as <-|].
  injection E as <-. to_prop. apply (lane_same_inv _ _ _ _ (match pc with Waiting => Locking | p => p end) n) in H;
    [|destruct pc; eauto].
  destruct H as [Hb Hs Hx Hc (h & cc & Hl & Hk)]; cbn in *. unfold wake; cbn.
  assert (forall pc', pc' = match pc with Waiting => Locking | p => p end ->
    lane_inv (mkLaneSystem (mkLaneState (q ++ [job]) c false) pc' n l)) as Hnew.
  { intros pc' ->. split; cbn; [| |done|done|by exists h, cc].
    - rewrite zlen_app. unfold zlen at 2; cbn. lia.
    - intros [?|[?|[?|He]]]; [by destruct pc..|]. by specialize (Hx He). }
  destruct pc; cbn; by apply Hnew.
Qed.

Lemma turn_inv x : lane_inv x -> lane_inv (worker_step x).
Proof.
  destruct x as [[q c cl] pc n l]. intros H. pose proof H as [Hb Hs Hx Hc (h & cc & Hl & Hk)]; cbn in *.
  unfold worker_step, pop_step; cbn. destruct pc as [| | | | |job|job fate|]; cbn; try done.
  - split; cbn; [done|by intros [?|[?|[?|?]]]|done|done|]. exists h, cc. naive_solver.
  - destruct q as [|j q]; split; cbn; try done.
    + exists h, cc. naive_solver.
    + unfold zlen in *; cbn in *; lia.
    + by intros [?|[?|[?|?]]].
    + exists h, cc. naive_solver.
  - destruct cl; split; cbn; try done; try (intros _; apply Hs; tauto); exists h, cc; naive_solver.
  - split; cbn; [done|intros _; apply Hs; tauto|done|done|]. exists h, cc. naive_solver.
  - unfold is_closed; cbn. split; cbn; [done|by intros [?|[?|[?|?]]]|done| |].
    + intros j. by destruct cl; intros [= <-].
    + exists h, cc. split; [done|]. intros H'. destruct (Hk H') as [H1 _]. by subst cl.
  - split; cbn; [done|by intros [?|[?|[?|?]]]|done|done|]. destruct fate.
    + assert (cc = []) as ->.
      { destruct cc; [done|]. destruct (Hk ltac:(done)) as [_ H']. by destruct (H' job). }
      exists (h ++ [job]), []. split; [|done]. by rewrite Hl, map_app, !app_nil_r.
    + exists h, (cc ++ [job]). split; [by rewrite Hl, map_app, <-app_assoc|].
      split; [by apply (Hc job)|done].
Qed.

Lemma lane_step_inv e x y : lane_step e x = Some y -> lane_inv x -> lane_inv y.
Proof.
  destruct e; [apply enqueue_inv| | | |]; destruct x as [s pc n l]; cbn.
  - intros [= <-] [Hb Hs Hx Hc (h & cc & Hl & Hk)]. split; cbn in *; try done.
    exists h, cc. split; [done|]. intros H. by destruct (Hk H).
  - destruct n; [done|]. intros [= <-]. apply wake_inv.
  - intros [= <-]. apply turn_inv.
  - intros [= <-]. apply wake_inv.
Qed.

Lemma lane_run_inv es x y : lane_run es x = Some y -> lane_inv x -> lane_inv y.
Proof.
  revert x. induction es as [|e es IH]; intros x; cbn; [by intros [= ->]|].
  destruct (lane_step e x) as [z|] eqn:E; [|done]. eauto using lane_step_inv.
Qed.

Lemma start_inv n s : new n = Ok s -> 0 <= n -> lane_inv (start s).
Proof.
  unfold new. destruct (n =? 0); [done|]. intros [= <-] Hn. split; cbn; [done|naive_solver|done|done|].
  exists [], []. done.
Qed.

(** C38. Over every interleaving of clients, closers and the worker of a new
    lane, the jobs that [try_enqueue] accepted are exactly the ones served, in
    hand or still queued, in the order of acceptance; the queue stays within
    its capacity, the worker waits only when the queue is empty, and the jobs
    served are a run of handled ones followed by a run of cancelled ones, the
    latter only once the lane is closed. *)
Theorem lane_exactly_once n s es y :
  new n = Ok s -> 0 <= n -> lane_run es (start s) = Some y ->
  map fst (served y) ++ in_hand (worker y) ++ queue (lane y) = accepted es (start s)
  /\ zlen (queue (lane y)) <= capacity (lane y)
  /\ (worker y = Waiting -> queue (lane y) = [])
  /\ exists h c, served y = map (fun j => (j, Handled)) h ++ map (fun j => (j, Cancelled)) c
       /\ (c <> [] -> closed (lane y) = true).
Proof.
  intros Hn H0 Hr. pose proof (lane_run_inv _ _ _ Hr (start_inv _ _ Hn H0)) as [Hb Hs _ _ (h & c & Hl & Hc)].
  pose proof (run_admitted _ _ _ Hr) as Ha. unfold admitted_jobs, start in Ha; cbn in Ha.
  split_and!; [|done|naive_solver|].
  - rewrite Ha. unfold new in Hn. destruct (n =? 0); [done|]. by injection Hn as <-.
  - exists h, c. naive_solver.
Qed.

(** ** Closing *)

(** A closed lane: the worker's own steps from the top of [pop] on. *)
Lemma drain_queue q c n l : exists k,
  (k <= 4 * length q + 3)%nat /\
  Nat.iter k worker_step (mkLaneSystem (mkLaneState q c true) Locking n l) =
    mkLaneSystem (mkLaneState [] c true) Exited n (l ++ map (fun j => (j, Cancelled)) q).
Proof.
  revert l. induction q as [|j q IH]; intros l.
  - exists 3%nat. split; [cbn; lia|]. cbn. by rewrite app_nil_r.
  - destruct (IH (l ++ [(j, Cancelled)])) as (k & Hk & IHk). exists (k + 4)%nat. split; [cbn; lia|].
    rewrite Nat.iter_add. change (Nat.iter 4 _ _) with
      (mkLaneSystem (mkLaneState q c true) Locking n (l ++ [(j, Cancelled)])).
    rewrite IHk. by rewrite <-app_assoc.
Qed.

(** What the worker of a closed lane still hands out: the job it had decided on
    and, cancelled, the job it had taken and the queued ones. *)
Definition decided (pc : WorkerPc) : list (T * Fate) :=
  match pc with Serving job fate => [(job, fate)] | _ => [] end.
Definition undecided (pc : WorkerPc) : list T :=
  match pc with Taken job => [job] | _ => [] end.

(** Past the load of [closed] that let it wait. *)
Definition about_to_wait (pc : WorkerPc) : bool :=
  match pc with AtWait | Waiting => true | _ => false end.

(** Once a lane is closed, a worker that is not about to wait exits within
    [4 * jobs + 7] of its own steps. The job it was already handling finishes,
    and every job queued or just taken is cancelled, in order. *)
Theorem close_drains x :
  closed (lane x) = true -> about_to_wait (worker x) = false ->
  (worker x = AtClosed \/ worker x = Exited -> queue (lane x) = []) ->
  exists k, (k <= 4 * length (queue (lane x)) + 7)%nat
    /\ worker (Nat.iter k worker_step x) = Exited
    /\ queue (lane (Nat.iter k worker_step x)) = []
    /\ served (Nat.iter k worker_step x) = served x ++ decided (worker x)
         ++ map (fun j => (j, Cancelled)) (undecided (worker x) ++ queue (lane x)).
Proof.
  destruct x as [[q c cl] pc n l]; cbn. intros -> Hw Hq.
  assert (forall m l' q', (m <= 4)%nat ->
    Nat.iter m worker_step (mkLaneSystem (mkLaneState q c true) pc n l) =
      mkLaneSystem (mkLaneState q' c true) Locking n l' -> (length q' <= length q)%nat ->
    l' ++ map (fun j => (j, Cancelled)) q' =
      l ++ decided pc ++ map (fun j => (j, Cancelled)) (undecided pc ++ q) ->
    exists k, (k <= 4 * length q + 7)%nat /\
      worker (Nat.iter k worker_step (mkLaneSystem (mkLaneState q c true) pc n l)) = Exited /\
      queue (lane (Nat.iter k worker_step (mkLaneSystem (mkLaneState q c true) pc n l))) = [] /\
      served (Nat.iter k worker_step (mkLaneSystem (mkLaneState q c true) pc n l)) =
        l ++ decided pc ++ map (fun j => (j, Cancelled)) (undecided pc ++ q)) as Hk.
  { intros m l' q' Hm Hi Hlen <-. destruct (drain_queue q' c n l') as (k & Hle & Hd).
    exists (k + m)%nat. rewrite Nat.iter_add, Hi, Hd. split_and!; [lia|done..]. }
  destruct pc as [| | | | |job|job fate|]; try done.
  - by apply (Hk 0%nat l q); [lia| | |].
  - destruct q as [|j q]; [exists 2%nat; cbn; rewrite app_nil_r; split_and!; [lia|done..]|].
    apply (Hk 3%nat (l ++ [(j, Cancelled)]) q); cbn; [lia|done|lia|by rewrite <-app_assoc].
  - rewrite Hq by tauto. exists 1%nat. cbn. rewrite app_nil_r. split_and!; [lia|done..].
  - apply (Hk 2%nat (l ++ [(job, Cancelled)]) q); cbn; [lia|done|lia|by rewrite <-app_assoc].
  - apply (Hk 1%nat (l ++ [(job, fate)]) q); cbn; [lia|done|lia|by rewrite <-app_assoc].
  - rewrite Hq by tauto. exists 0%nat. cbn. rewrite app_nil_r. split_and!; [lia|done..].
Qed.

(** Nothing but a notification of [not_empty] reaches a waiting worker. *)
Definition notifies (e : Event) : bool :=
  match e with StoreClosed | SpuriousWake => true | _ => false end.

Lemma asleep_stays es x y :
  worker x = Waiting -> closed (lane x) = true -> closers x = O ->
  forallb (fun e => negb (notifies e)) es = true -> lane_run es x = Some y ->
  worker y = Waiting /\ served y = served x.
Proof.
  revert x. induction es as [|e es IH]; intros [[q c cl] pc n l]; cbn; [by intros -> _ _ _ [= <-]|].
  intros -> -> -> He Hr. apply andb_prop in He as [H1 He]. destruct e; cbn in *; try done.
  all: by eapply IH in Hr.
Qed.

(** [close] stores the flag and notifies outside the queue's mutex, so both
    can fall between the worker's load of the flag and its wait. In every lane
    there is a run that ends with the lane closed, all closing calls returned
    and the worker waiting on an empty queue; whatever clients and the worker
    do after it, short of a spurious wake-up or another close, the worker
    stays asleep and never exits, so the join of the shutdown never returns. *)
Theorem close_can_be_missed s n :
  new n = Ok s -> 0 < n ->
  exists es y, lane_run es (start s) = Some y
    /\ closed (lane y) = true /\ closers y = O /\ queue (lane y) = [] /\ worker y = Waiting
    /\ forall es' z, forallb (fun e => negb (notifies e)) es' = true ->
         lane_run es' y = Some z -> worker z = Waiting /\ served z = served y.
Proof.
  intros Hn H0. unfold new in Hn. destruct (n =? 0); [done|]. injection Hn as <-.
  exists [Turn; Turn; Turn; StoreClosed; NotifyClosed; Turn]. eexists.
  split; [cbn; reflexivity|]. cbn. split_and!; try done. intros es' z He Hr.
  by apply (asleep_stays es' _ z) in Hr.
Qed.
End operation_lane.
Arguments LaneState : clear implicits.
Arguments LaneSystem : clear implicits.

(** ** Concrete lanes *)

(** Two jobs fill the lane, a third is refused; the first is handled, the lane
    is closed, and the second is cancelled. *)
Definition demo_events : list (@Event Z) :=
  [Enqueue 1; Enqueue 2; Enqueue 3; Turn; Turn; Turn; Turn; StoreClosed; NotifyClosed; Enqueue 4;
   Turn; Turn; Turn; Turn; Turn; Turn; Turn].

Lemma lane_exactly_once_witness : exists y,
  lane_run demo_events (start (mkLaneState [] 2 false)) = Some y
  /\ served y = [(1, Handled); (2, Cancelled)] /\ worker y = Exited
  /\ map fst (served y) ++ in_hand (worker y) ++ queue (lane y) = [1; 2].
Proof.
  eexists. split; [reflexivity|]. split; [reflexivity|]. split; [reflexivity|].
  exact (proj1 (lane_exactly_once 2 (mkLaneState [] 2 false) demo_events _
                  eq_refl ltac:(lia) eq_refl)).
Defined.

Definition closed_lane : LaneSystem Z :=
  mkLaneSystem (mkLaneState [5; 6] 2 true) (Serving 4 Handled) 1 [].

Lemma close_drains_witness : exists k, (k <= 15)%nat
  /\ served (Nat.iter k worker_step closed_lane) = [(4, Handled); (5, Cancelled); (6, Cancelled)].
Proof.
  destruct (close_drains closed_lane eq_refl eq_refl) as (k & Hk & _ & _ & Hs).
  - intros [H|H]; discriminate H.
  - exists k. split; [exact Hk|exact Hs].
Defined.

Lemma close_can_be_missed_witness : exists es y,
  lane_run es (start (mkLaneState (T:=Z) [] 16 false)) = Some y
  /\ closed (lane y) = true /\ worker y = Waiting.
Proof.
  destruct (close_can_be_missed (mkLaneState (T:=Z) [] 16 false) 16 eq_refl ltac:(lia))
    as (es & y & H1 & H2 & _ & _ & H3 & _).
  exists es, y. split; [exact H1|]. split; [exact H2|exact H3].
Defined.
