(* ===== verification/Lifecycle.v ===== *)
(** * The daemon's lifecycle state (src/daemon_lifecycle.rs, src/control.rs)

    The state the daemon publishes: what it is doing, why it failed and when it
    retries. Each [mark_*] transition is a function on the state;
    [begin_operation] issues the generation number that tells an operation's
    results from those of older ones. *)
From S2P Require Import Prelude.
From S2P Require Import Errors.

(** ** Time *)

(** A [Duration] is its nanoseconds, a [RetryInstant] the milliseconds since the
    clock's origin. *)
Abbreviation Duration := Z.
Definition from_secs (s : Z) : Duration := s * 10 ^ 9.
Definition as_millis (d : Duration) : Z := d / 10 ^ 6.

Definition RETRY_DELAYS : list Duration :=
  [from_secs 1; from_secs 2; from_secs 5; from_secs 10; from_secs 30; from_secs 60].

(** The index is at most the last one. *)
Definition retry_delay (attempt : Z) : Duration :=
  let index := saturating_sub attempt 1 in
  default 0 (zlookup RETRY_DELAYS (Z.min index (zlen RETRY_DELAYS - 1))).

Abbreviation RetryInstant := Z.

(** [RetryInstant::checked_add] *)
Definition instant_add (at_ : RetryInstant) (delay : Duration) : option RetryInstant :=
  match checked u64_max (as_millis delay) with
  | Some millis => add_checked at_ millis
  | None => None
  end.

(** [SystemRetryClock]: the clocks at its creation, in nanoseconds; a
    [SystemTime] holds its seconds in an [i64]. *)
Record SystemRetryClock := mkClock { monotonic_origin : Z; unix_origin : Z }.

Definition now (c : SystemRetryClock) (monotonic : Z) : RetryInstant :=
  default u64_max (checked u64_max (as_millis (monotonic - monotonic_origin c))).

Definition unix_seconds (c : SystemRetryClock) (instant : RetryInstant) : Z :=
  let time := unix_origin c + instant * 10 ^ 6 in
  if time / 10 ^ 9 <=? 2 ^ 63 - 1
  then if 0 <=? time then time / 10 ^ 9 else u64_max
  else u64_max.

(** ** The published states *)

Inductive DaemonState := Ready | Degraded | Stopping.
Inductive CaptureState := Stopped | Starting | Running | WaitingForDevice | Faulted.
Inductive ErrorClass := Permanent | Transient | Fatal.
(** [NoRetry] is [RetryPolicy::None]. *)
Inductive RetryPolicy := NoRetry | Manual | BoundedBackoff.

#[export] Instance DaemonState_eq_dec : EqDecision DaemonState.
Proof. solve_decision. Defined.
#[export] Instance CaptureState_eq_dec : EqDecision CaptureState.
Proof. solve_decision. Defined.

Record LifecycleState := mkLifecycle {
  daemon_state : DaemonState;
  capture_state : CaptureState;
  error_class : option ErrorClass;
  last_error : option string;
  retry_policy : RetryPolicy;
  retry_attempt : Z;
  next_retry_at : option RetryInstant;
  active_profile : option string;
  resolved_target : option string;
  generation : Z;
}.

#[export] Instance LifecycleState_eta : Eta LifecycleState := fun s =>
  mkLifecycle (daemon_state s) (capture_state s) (error_class s) (last_error s) (retry_policy s)
    (retry_attempt s) (next_retry_at s) (active_profile s) (resolved_target s) (generation s).

Definition ready_stopped (profile : option string) : LifecycleState :=
  mkLifecycle Ready Stopped None None NoRetry 0 None profile None 0.

Definition clear_error_and_retry (s : LifecycleState) : LifecycleState :=
  s <| error_class := None |> <| last_error := None |> <| retry_policy := NoRetry |>
    <| retry_attempt := 0 |> <| next_retry_at := None |>.

Definition mark_starting (profile : option string) (s : LifecycleState) : LifecycleState :=
  (clear_error_and_retry (s <| daemon_state := Ready |> <| capture_state := Starting |>))
    <| active_profile := profile |> <| resolved_target := None |>.

Definition mark_permanent (error : string) (s : LifecycleState) : LifecycleState :=
  s <| daemon_state := Degraded |> <| capture_state := Faulted |>
    <| error_class := Some Permanent |> <| last_error := Some error |>
    <| retry_policy := Manual |> <| retry_attempt := 0 |> <| next_retry_at := None |>.

(** [u32::saturating_add(1)] *)
Definition next_attempt (attempt : Z) : Z := Z.min (attempt + 1) u32_max.

Definition mark_transient (state : CaptureState) (error : string) (at_ : RetryInstant)
    (s : LifecycleState) : LifecycleState :=
  let s := s <| daemon_state := Degraded |> <| capture_state := state |>
             <| error_class := Some Transient |> <| last_error := Some error |>
             <| retry_policy := BoundedBackoff |> <| retry_attempt ::= next_attempt |> in
  s <| next_retry_at := Some (default u64_max (instant_add at_ (retry_delay (retry_attempt s)))) |>.

Definition mark_running (profile target : option string) (s : LifecycleState) : LifecycleState :=
  (clear_error_and_retry (s <| daemon_state := Ready |> <| capture_state := Running |>))
    <| active_profile := profile |> <| resolved_target := target |>.

Definition mark_stopped (profile : option string) (s : LifecycleState) : LifecycleState :=
  (clear_error_and_retry (s <| daemon_state := Ready |> <| capture_state := Stopped |>))
    <| active_profile := profile |> <| resolved_target := None |>.

Definition mark_stopping (s : LifecycleState) : LifecycleState :=
  clear_error_and_retry (s <| daemon_state := Stopping |>).

Record DaemonLifecycleStatus := mkStatus {
  s_daemon_state : DaemonState;
  s_capture_state : CaptureState;
  s_error_class : option ErrorClass;
  s_last_error : option string;
  s_retry_policy : RetryPolicy;
  s_retry_attempt : Z;
  s_next_retry_at : option Z;
  s_active_profile : option string;
  s_resolved_target : option string;
}.

Definition status (clock : SystemRetryClock) (s : LifecycleState) : DaemonLifecycleStatus :=
  mkStatus (daemon_state s) (capture_state s) (error_class s) (last_error s) (retry_policy s)
    (retry_attempt s) (option_map (unix_seconds clock) (next_retry_at s))
    (active_profile s) (resolved_target s).

Definition begin_operation : M LifecycleState LambError Z :=
  let! s := get in
  fail_if (bool_decide (daemon_state s = Stopping)) (Control "daemon is stopping");;
  let! next := lift (ok_or (add_checked (generation s) 1)
                       (ControlInvariant "operation generation overflow")) in
  modify (fun s => s <| generation := next |>);;
  ret next.

(** ** Transitions *)

Inductive LifecycleOp :=
  | MarkStarting (profile : option string)
  | MarkPermanent (error : string)
  | MarkTransient (state : CaptureState) (error : string) (at_ : RetryInstant)
  | MarkRunning (profile target : option string)
  | MarkStopped (profile : option string)
  | MarkStopping
  | BeginOperation.

(** An operation and the generation it issues, if it issues one. *)
Definition run_op (op : LifecycleOp) (s : LifecycleState) : LifecycleState * option Z :=
  match op with
  | MarkStarting profile => (mark_starting profile s, None)
  | MarkPermanent error => (mark_permanent error s, None)
  | MarkTransient state error at_ => (mark_transient state error at_ s, None)
  | MarkRunning profile target => (mark_running profile target s, None)
  | MarkStopped profile => (mark_stopped profile s, None)
  | MarkStopping => (mark_stopping s, None)
  | BeginOperation =>
      match begin_operation s with
      | (s', Ok g) => (s', Some g)
      | (s', _) => (s', None)
      end
  end.

Fixpoint run_ops (ops : list LifecycleOp) (s : LifecycleState) : LifecycleState * list Z :=
  match ops with
  | [] => (s, [])
  | op :: ops' =>
      let (s1, g) := run_op op s in
      let (s2, gs) := run_ops ops' s1 in
      (s2, option_list g ++ gs)
  end.

Lemma run_ops_cons op ops s : (run_ops (op :: ops) s).1 = (run_ops ops (run_op op s).1).1.
Proof. cbn. destruct (run_op op s) as [s1 g]. cbn. by destruct (run_ops ops s1). Qed.

Lemma run_ops_app ops1 ops2 s :
  (run_ops (ops1 ++ ops2) s).1 = (run_ops ops2 (run_ops ops1 s).1).1.
Proof.
  revert s. induction ops1 as [|op ops1 IH]; intros s; [done|].
  by rewrite <-app_comm_cons, !run_ops_cons.
Qed.

(** Clock readings are [u64] values. *)
Definition op_in_range (op : LifecycleOp) : Prop :=
  match op with MarkTransient _ _ at_ => is_u64 at_ | _ => True end.

(** The error fields agree with the error class and every number is in the range
    of its type. *)
Definition well_formed (s : LifecycleState) : Prop :=
  is_u64 (generation s)
  /\ match error_class s with
     | None => last_error s = None /\ retry_policy s = NoRetry /\ retry_attempt s = 0
               /\ next_retry_at s = None /\ daemon_state s <> Degraded
     | Some Permanent => is_Some (last_error s) /\ retry_policy s = Manual /\ retry_attempt s = 0
               /\ next_retry_at s = None /\ daemon_state s = Degraded /\ capture_state s = Faulted
     | Some Transient => is_Some (last_error s) /\ retry_policy s = BoundedBackoff
               /\ 1 <= retry_attempt s <= u32_max /\ daemon_state s = Degraded
               /\ exists due, next_retry_at s = Some due /\ is_u64 due
     | Some Fatal => False
     end.

(** ** Backoff *)

Definition delay_millis (attempt : Z) : Z := as_millis (retry_delay attempt).

Lemma delay_millis_cases n : delay_millis n =
  if n <=? 1 then 1000 else if n =? 2 then 2000 else if n =? 3 then 5000
  else if n =? 4 then 10000 else if n =? 5 then 30000 else 60000.
Proof.
  unfold delay_millis, retry_delay, saturating_sub. change (zlen RETRY_DELAYS - 1) with 5.
  destruct (n <=? 1) eqn:E1; to_prop.
  { by replace (Z.min (Z.max (n - 1) 0) 5) with 0 by lia. }
  destruct (decide (6 <= n)).
  { repeat decide_cmp.
    by replace (Z.min (Z.max (n - 1) 0) 5) with 5 by lia. }
  assert (n = 2 \/ n = 3 \/ n = 4 \/ n = 5) as [->|[->|[->| ->]]] by lia; reflexivity.
Qed.

Lemma delay_millis_bounds n : 1000 <= delay_millis n <= 60000.
Proof. rewrite delay_millis_cases. repeat case_match; lia. Qed.

(** The due time of attempt [n] announced at [at_]. *)
Lemma due_time at_ n :
  is_u64 at_ -> default u64_max (instant_add at_ (retry_delay n)) = Z.min (at_ + delay_millis n) u64_max.
Proof.
  intros [? ?]. pose proof (delay_millis_bounds n) as Hd. unfold instant_add. fold (delay_millis n).
  unfold checked at 1. rewrite (proj2 (Z.leb_le 0 _)), (proj2 (Z.leb_le _ _)) by (unfold u64_max; lia).
  cbn [andb]. destruct (add_checked at_ (delay_millis n)) eqn:E.
  - apply add_checked_inv in E as [-> ?]. cbn. lia.
  - apply checked_None in E. cbn. lia.
Qed.

Lemma mark_transient_ok state error at_ s :
  is_u64 at_ -> well_formed s -> well_formed (mark_transient state error at_ s).
Proof.
  intros Ha [Hg Hs]. split; [done|]. cbn. split_and!; try done; try eauto.
  - unfold next_attempt. unfold u32_max in *.
    destruct (error_class s) as [[]|]; [| |done|]; lia.
  - unfold next_attempt. lia.
  - rewrite due_time by done. eexists. split; [done|].
    pose proof (delay_millis_bounds (next_attempt (retry_attempt s))).
    unfold is_u64 in *. lia.
Qed.

Lemma begin_operation_run s : begin_operation s =
  if bool_decide (daemon_state s = Stopping) then (s, Err (Control "daemon is stopping"))
  else match add_checked (generation s) 1 with
       | Some next => (s <| generation := next |>, Ok next)
       | None => (s, Err (ControlInvariant "operation generation overflow"))
       end.
Proof.
  unfold begin_operation. msteps. case_bool_decide; msteps; [done|].
  destruct (add_checked (generation s) 1); cbn [ok_or]; by msteps.
Qed.

Lemma begin_operation_state s : exists g, (begin_operation s).1 = s <| generation := g |>
  /\ (is_u64 (generation s) -> is_u64 g).
Proof.
  rewrite begin_operation_run. assert (s = s <| generation := generation s |>) by (by destruct s).
  case_bool_decide; [by exists (generation s)|].
  destruct (add_checked _ _) as [g|] eqn:E; [|by exists (generation s)].
  exists g. split; [done|]. intros _. by apply add_checked_inv in E as [-> ?].
Qed.

Lemma lifecycle_op_ok op s : op_in_range op -> well_formed s -> well_formed (run_op op s).1.
Proof.
  intros Ho Hs. pose proof Hs as [Hg _].
  destruct op; cbn [run_op fst]; try (split; cbn; [done|by split_and!; eauto]).
  - by apply mark_transient_ok.
  - destruct (begin_operation_state s) as (g & E & Hw). destruct (begin_operation s) as [s1 o].
    cbn in E. subst s1. assert (well_formed (s <| generation := g |>)); [|by destruct o].
    split; [by apply Hw|apply Hs].
Qed.

(** C39. In every state the daemon can bring its lifecycle to, the published error
    fields agree: no error means no retry is announced; a permanent error is
    degraded, faulted and retried by hand only; a transient error is degraded
    and announces a retry time, with an attempt number of at least 1. Every
    counter and time stays in the range of its machine type. *)
Theorem lifecycle_well_formed profile ops :
  Forall op_in_range ops -> well_formed (run_ops ops (ready_stopped profile)).1.
Proof.
  intros Ho. assert (well_formed (ready_stopped profile)) as Hs.
  { split; [unfold is_u64, u64_max; cbn; lia|by split_and!]. }
  revert Hs. generalize (ready_stopped profile). induction Ho as [|op ops H1 _ IH]; intros s Hs; [done|].
  rewrite run_ops_cons. by apply IH, lifecycle_op_ok.
Qed.

Definition transient_failures (es : list (CaptureState * string * RetryInstant)) : list LifecycleOp :=
  map (fun '(state, error, at_) => MarkTransient state error at_) es.

Lemma transient_failures_snoc es state error at_ :
  transient_failures (es ++ [(state, error, at_)]) =
    transient_failures es ++ [MarkTransient state error at_].
Proof. apply map_app. Qed.

Lemma transient_attempts es s :
  0 <= retry_attempt s <= u32_max ->
  retry_attempt (run_ops (transient_failures es) s).1 = Z.min (retry_attempt s + zlen es) u32_max.
Proof.
  revert s. induction es as [|[[state error] at_] es IH]; intros s Hs; [unfold zlen; cbn; lia|].
  cbn [transient_failures map]. fold (transient_failures es). rewrite run_ops_cons. cbn [run_op fst].
  rewrite IH by (cbn; unfold next_attempt; lia).
  change (retry_attempt (mark_transient state error at_ s)) with (next_attempt (retry_attempt s)).
  unfold next_attempt, zlen; cbn [length]. lia.
Qed.

(** The backoff: after [n] transient failures in a row, the next retry is
    due 1, 2, 5, 10, 30 and from the sixth failure on 60 seconds after the
    last one was reported, and at the end of the clock's range if that is
    earlier. A success or a change of profile starts it over. *)
Theorem backoff_schedule reset s es state error at_ :
  (exists p t, reset = MarkRunning p t) \/ (exists p, reset = MarkStarting p) \/
    (exists p, reset = MarkStopped p) ->
  is_u64 at_ -> zlen es + 1 <= u32_max ->
  let s' := (run_ops (reset :: transient_failures (es ++ [(state, error, at_)])) s).1 in
  retry_attempt s' = zlen es + 1
  /\ next_retry_at s' = Some (Z.min (at_ + delay_millis (zlen es + 1)) u64_max).
Proof.
  intros Hr Ha Hn s'. subst s'.
  assert (retry_attempt (run_op reset s).1 = 0) as H0
    by (destruct Hr as [(? & ? & ->)|[(? & ->)|(? & ->)]]; done).
  rewrite run_ops_cons. revert H0. generalize (run_op reset s).1. intros s1 H0.
  rewrite transient_failures_snoc, run_ops_app, run_ops_cons.
  pose proof (transient_attempts es s1 ltac:(rewrite H0; unfold u32_max; lia)) as Et.
  rewrite H0 in Et. revert Et. generalize (run_ops (transient_failures es) s1).1. intros s2 Et.
  cbn -[next_attempt]. rewrite Et. pose proof (zlen_nonneg es).
  assert (next_attempt (Z.min (0 + zlen es) u32_max) = zlen es + 1) as -> by (unfold next_attempt; lia).
  split; [done|]. by rewrite due_time.
Qed.

(** ** Generations *)

Lemma run_op_generation op s s' g :
  run_op op s = (s', g) ->
  match g with
  | Some g => g = generation s + 1 /\ generation s' = g /\ daemon_state s <> Stopping
  | None => generation s' = generation s
  end.
Proof.
  destruct op; cbn [run_op]; try by intros [= <- <-]. rewrite begin_operation_run.
  case_bool_decide; [by intros [= <- <-]|].
  destruct (add_checked _ _) eqn:E; intros [= <- <-]; [|done]. by apply add_checked_inv in E as [-> ?].
Qed.

(** The generations issued in any run are the consecutive numbers after the
    one the run starts with, so no two operations share one, and the state
    holds the last. *)
Theorem generations_consecutive ops s :
  let (s', gs) := run_ops ops s in
  gs = seqZ (generation s + 1) (zlen gs) /\ generation s' = generation s + zlen gs.
Proof.
  revert s. induction ops as [|op ops IH]; intros s; cbn; [split; [done|unfold zlen; cbn; lia]|].
  destruct (run_op op s) as [s1 g] eqn:E. apply run_op_generation in E. specialize (IH s1).
  destruct (run_ops ops s1) as [s2 gs]. destruct IH as [Hgs Hg].
  destruct g as [g|]; cbn [option_list app]; [|by rewrite <-E].
  destruct E as (-> & E & _). rewrite E in Hgs, Hg. pose proof (zlen_nonneg gs).
  change (option_list (Some (generation s + 1)) ++ gs) with (generation s + 1 :: gs).
  replace (zlen (generation s + 1 :: gs)) with (Z.succ (zlen gs)) by (unfold zlen; cbn [length]; lia).
  rewrite seqZ_cons, Z.pred_succ by lia. split; [|lia].
  unfold Z.succ. by f_equal.
Qed.

(** [begin_operation] refuses a stopping daemon and an exhausted counter,
    each with its own error and without a change; otherwise it issues the next
    generation and changes nothing else. *)
Theorem begin_operation_branches s :
  is_u64 (generation s) ->
  (daemon_state s = Stopping /\ begin_operation s = (s, Err (Control "daemon is stopping")))
  \/ (daemon_state s <> Stopping /\ generation s = u64_max
      /\ begin_operation s = (s, Err (ControlInvariant "operation generation overflow")))
  \/ (daemon_state s <> Stopping /\ generation s < u64_max
      /\ begin_operation s = (s <| generation ::= Z.succ |>, Ok (generation s + 1))).
Proof.
  intros [? ?]. rewrite begin_operation_run. case_bool_decide; [by left|]. right.
  destruct (add_checked (generation s) 1) as [g|] eqn:E.
  - apply add_checked_inv in E as [-> ?]. right. split_and!; [done|lia|done].
  - apply checked_None in E. left. split_and!; [done|lia|done].
Qed.

(** ** Concrete runs *)

Definition demo_ops : list LifecycleOp :=
  [MarkStarting (Some "studio"); BeginOperation; MarkTransient WaitingForDevice "unplugged" 500;
   MarkTransient WaitingForDevice "unplugged" 1700; MarkStopping; BeginOperation].

Lemma lifecycle_well_formed_witness :
  well_formed (run_ops demo_ops (ready_stopped None)).1
  /\ (run_ops demo_ops (ready_stopped None)).2 = [1].
Proof.
  split; [|reflexivity]. apply (lifecycle_well_formed None demo_ops).
  repeat constructor; cbn; discriminate.
Defined.

Lemma backoff_schedule_witness :
  next_retry_at (run_ops (MarkRunning None None ::
      transient_failures [(Faulted, "a", 10); (Faulted, "b", 2000); (Faulted, "c", 9000)])
      (ready_stopped None)).1 = Some 14000.
Proof.
  destruct (backoff_schedule (MarkRunning None None) (ready_stopped None)
              [(Faulted, "a", 10); (Faulted, "b", 2000)] Faulted "c" 9000) as [_ H].
  - left. eauto.
  - split; discriminate.
  - discriminate.
  - exact H.
Defined.

Lemma begin_operation_branches_witness :
  begin_operation (ready_stopped None) = ((ready_stopped None) <| generation := 1 |>, Ok 1).
Proof.
  destruct (begin_operation_branches (ready_stopped None)) as [[H _]|[(_ & H & _)|(_ & _ & H)]].
  - split; discriminate.
  - discriminate H.
  - discriminate H.
  - exact H.
Defined.
