(* ===== verification/RetryScheduler.v ===== *)
(** * The retry scheduler (src/daemon_lifecycle.rs)

    One thread turns a due retry or a reported capture fault into a job of the
    operation lane. Other threads set, replace or withdraw the pending
    operation under the scheduler's mutex; the thread waits on a condition
    variable, with a timeout when a retry is not due yet. The theorems are over
    all interleavings of calls, the clock, the lane and the thread's own
    steps. *)
From S2P Require Import Prelude.
From S2P Require Import Errors.
From S2P Require Import OperationLane.
From S2P Require Import Lifecycle.

(** ** Operations *)

Abbreviation CaptureAttemptId := Z.

(** [CaptureAttemptId::checked_after] *)
Definition checked_after (current : Z) : option CaptureAttemptId := add_checked current 1.

Inductive RuntimeCaptureFault :=
  | DeviceDisconnected (message : string)
  | BackendFault (message : string).

Inductive ScheduledOperation :=
  | Retry (generation : Z)
  | RuntimeFault (generation : Z) (attempt_id : CaptureAttemptId) (fault : RuntimeCaptureFault).

Definition op_generation (op : ScheduledOperation) : Z :=
  match op with Retry g | RuntimeFault g _ _ => g end.

Inductive PendingOperation :=
  | PendingRetry (generation : Z) (due : RetryInstant)
  | Immediate (op : ScheduledOperation).

Definition pending_generation (p : PendingOperation) : Z :=
  match p with PendingRetry g _ => g | Immediate op => op_generation op end.

Definition operation (p : PendingOperation) : ScheduledOperation :=
  match p with PendingRetry g _ => Retry g | Immediate op => op end.

Record SchedulerState := mkScheduler {
  generation : Z;
  pending : option PendingOperation;
  stopped : bool;
  wake_epoch : Z;
  thread_spawned : bool;
}.

#[export] Instance SchedulerState_eta : Eta SchedulerState :=
  fun s => mkScheduler (generation s) (pending s) (stopped s) (wake_epoch s) (thread_spawned s).

Definition scheduler_new : SchedulerState := mkScheduler 0 None false 0 false.

(** ** The handle *)

(** [state.wake_epoch.wrapping_add(1)]; every call that reaches it also notifies
    the thread. *)
Definition bump (s : SchedulerState) : SchedulerState :=
  s <| wake_epoch ::= fun e => wrap64 (e + 1) |>.

Definition schedule_retry (g : Z) (due : RetryInstant) (s : SchedulerState) : SchedulerState :=
  if stopped s || (g <? generation s) then s
  else bump (s <| generation := g |> <| pending := Some (PendingRetry g due) |>).

Definition notify_fault (g : Z) (attempt : CaptureAttemptId) (fault : RuntimeCaptureFault)
    (s : SchedulerState) : SchedulerState :=
  if stopped s || (g <? generation s) then s
  else bump (s <| generation := g |>
               <| pending := Some (Immediate (RuntimeFault g attempt fault)) |>).

Definition invalidate (g : Z) (s : SchedulerState) : SchedulerState :=
  if g <? generation s then s
  else bump (s <| generation := g |> <| pending := None |>).

Definition notify_lane_available (s : SchedulerState) : SchedulerState := bump s.

Definition stop (s : SchedulerState) : SchedulerState :=
  bump (s <| stopped := true |> <| pending := None |>).

Definition is_stopped (s : SchedulerState) : bool := stopped s.

(** A sink bound to a generation and an attempt; [sink_notify] stands for the
    identity of its closure, which [Arc::ptr_eq] compares. *)
Record RuntimeFaultSink := mkSink {
  sink_generation : Z;
  sink_attempt_id : CaptureAttemptId;
  sink_notify : Z;
}.

Definition fault_sink (g : Z) (attempt : CaptureAttemptId) (closure : Z) : RuntimeFaultSink :=
  mkSink g attempt closure.

(** [RuntimeFaultSink::notify] of a sink made by [fault_sink]. *)
Definition sink_report (k : RuntimeFaultSink) (fault : RuntimeCaptureFault) :
    SchedulerState -> SchedulerState :=
  notify_fault (sink_generation k) (sink_attempt_id k) fault.

Definition same_binding (k other : RuntimeFaultSink) : bool :=
  if negb (sink_generation k =? 0) || negb (sink_attempt_id k =? 0)
  then (sink_generation k =? sink_generation other) && (sink_attempt_id k =? sink_attempt_id other)
  else sink_notify k =? sink_notify other.

(** ** The thread *)

Inductive HandleCall :=
  | ScheduleRetry (g : Z) (due : RetryInstant)
  | NotifyFault (g : Z) (attempt : CaptureAttemptId) (fault : RuntimeCaptureFault)
  | Invalidate (g : Z)
  | LaneAvailable
  | Stop.

Definition call (c : HandleCall) : SchedulerState -> SchedulerState :=
  match c with
  | ScheduleRetry g due => schedule_retry g due
  | NotifyFault g attempt fault => notify_fault g attempt fault
  | Invalidate g => invalidate g
  | LaneAvailable => notify_lane_available
  | Stop => stop
  end.

(** The operation a call asks for, when the state admits it. *)
Definition requested (c : HandleCall) (s : SchedulerState) : list ScheduledOperation :=
  match c with
  | ScheduleRetry g _ => if stopped s || (g <? generation s) then [] else [Retry g]
  | NotifyFault g attempt fault =>
      if stopped s || (g <? generation s) then [] else [RuntimeFault g attempt fault]
  | _ => []
  end.

(** Whether a call reaches [notify_all]. *)
Definition notifies (c : HandleCall) (s : SchedulerState) : bool :=
  match c with
  | ScheduleRetry g _ | NotifyFault g _ _ => negb (stopped s || (g <? generation s))
  | Invalidate g => negb (g <? generation s)
  | _ => true
  end.

(** [Locking] is about to take the mutex; [AtLoop] holds it at the loop's head;
    the two waits release it. *)
Inductive SchedulerThread :=
  | NotSpawned
  | Locking
  | AtLoop
  | Waiting
  | WaitingUntil (deadline : RetryInstant)
  | Returned.

(** A call of [submit]: the operation, the clock, and the lane's answer. *)
Record Submission := mkSubmission {
  submitted : PendingOperation;
  submitted_at : RetryInstant;
  answer : option EnqueueError;
}.

Section scheduler_thread.
(** [submit] of the operation lane; [None] is [Ok(())]. *)
Context {L : Type} (submit : ScheduledOperation -> L -> L * option EnqueueError).

Record System := mkSystem {
  state : SchedulerState;
  thread : SchedulerThread;
  clock : RetryInstant;
  lane : L;
  submissions : list Submission;
}.

#[export] Instance System_eta : Eta System :=
  fun x => mkSystem (state x) (thread x) (clock x) (lane x) (submissions x).

(** [submit(operation)], with the mutex held, and what the thread does with the
    answer. *)
Definition submit_turn (p : PendingOperation) (x : System) : System :=
  let epoch := wake_epoch (state x) in
  let (lane', result) := submit (operation p) (lane x) in
  let x := x <| lane := lane' |>
             <| submissions ::= fun l => l ++ [mkSubmission p (clock x) result] |> in
  match result with
  | None | Some Closed => x <| state ::= fun s => s <| pending := None |> |>
  | Some Full => if wake_epoch (state x) =? epoch then x <| thread := Waiting |> else x
  end.

(** One iteration of the thread's loop. *)
Definition loop_turn (x : System) : System :=
  if stopped (state x) then x <| thread := Returned |>
  else match pending (state x) with
       | None => x <| thread := Waiting |>
       | Some p =>
           if negb (pending_generation p =? generation (state x))
           then x <| state ::= fun s => s <| pending := None |> |>
           else match p with
                | PendingRetry _ due =>
                    if clock x <? due
                    then x <| thread := WaitingUntil (clock x + (due - clock x)) |>
                    else submit_turn p x
                | Immediate _ => submit_turn p x
                end
       end.

(** The guard of [spawn_retry_scheduler]; [started] says whether the operating
    system starts the thread. *)
Definition spawn_retry_scheduler (started : bool) : M System string unit :=
  let! x := get in
  fail_if (thread_spawned (state x)) "retry scheduler already spawned";;
  modify (fun x => x <| state ::= fun s => s <| thread_spawned := true |> |>);;
  if started then modify (fun x => x <| thread := Locking |>)
  else modify (fun x => x <| state ::= fun s => s <| thread_spawned := false |> |>);;
       fail "spawn failed".

Definition notify_all (t : SchedulerThread) : SchedulerThread :=
  match t with Waiting | WaitingUntil _ => Locking | _ => t end.

Inductive Event :=
  | Call (c : HandleCall)
  | Spawn (started : bool)
  | Acquire
  | Turn
  | Timeout
  | SpuriousWake
  | Tick (millis : Z)
  | LaneMoves (l : L).

(** [None] when the event cannot happen: calls need the mutex, which the thread
    holds at the loop's head. *)
Definition step (e : Event) (x : System) : option System :=
  match e with
  | Call c =>
      match thread x with
      | AtLoop => None
      | t => Some (x <| state ::= call c |>
                     <| thread := if notifies c (state x) then notify_all t else t |>)
      end
  | Spawn started =>
      match thread x with AtLoop => None | _ => Some (spawn_retry_scheduler started x).1 end
  | Acquire => match thread x with Locking => Some (x <| thread := AtLoop |>) | _ => None end
  | Turn => match thread x with AtLoop => Some (loop_turn x) | _ => None end
  | Timeout =>
      match thread x with
      | WaitingUntil deadline =>
          if deadline <=? clock x then Some (x <| thread := Locking |>) else None
      | _ => None
      end
  | SpuriousWake => Some (x <| thread ::= notify_all |>)
  | Tick millis => if 0 <=? millis then Some (x <| clock ::= fun t => t + millis |>) else None
  | LaneMoves l => Some (x <| lane := l |>)
  end.

Fixpoint run (es : list Event) (x : System) : option System :=
  match es with
  | [] => Some x
  | e :: es' => match step e x with Some y => run es' y | None => None end
  end.

Definition initial (at_ : RetryInstant) (l : L) : System :=
  mkSystem scheduler_new NotSpawned at_ l [].

(** The operations that calls of a run ask for, and those the lane accepted. *)
Fixpoint requests (es : list Event) (x : System) : list ScheduledOperation :=
  match es with
  | [] => []
  | e :: es' =>
      match e with Call c => requested c (state x) | _ => [] end
      ++ match step e x with Some y => requests es' y | None => [] end
  end.

Definition accepted (x : System) : list ScheduledOperation :=
  map (fun s => operation (submitted s))
    (filter (fun s => answer s = None) (submissions x)).

(** ** The invariant *)

(** Whether an operation may be submitted at a time. *)
Definition due_by (p : PendingOperation) (t : RetryInstant) : Prop :=
  match p with PendingRetry _ due => due <= t | Immediate _ => True end.

Record system_inv (x : System) : Prop := {
  inv_pending : forall p, pending (state x) = Some p ->
    pending_generation p = generation (state x) /\ stopped (state x) = false;
  inv_waiting : thread x = Waiting -> pending (state x) = None \/
    exists p t, pending (state x) = Some p
      /\ last (submissions x) = Some (mkSubmission p t (Some Full));
  inv_until : forall d, thread x = WaitingUntil d ->
    exists g, pending (state x) = Some (PendingRetry g d);
  inv_returned : thread x = Returned -> stopped (state x) = true;
  inv_spawned : thread x <> NotSpawned -> thread_spawned (state x) = true;
  inv_due : Forall (fun s => due_by (submitted s) (submitted_at s)) (submissions x);
}.

(** The branches of the loop in a state of the invariant: the test for a stale
    generation never holds. *)
Lemma loop_turn_cases x :
  system_inv x ->
  (stopped (state x) = true /\ loop_turn x = x <| thread := Returned |>)
  \/ (pending (state x) = None /\ loop_turn x = x <| thread := Waiting |>)
  \/ (exists g due, pending (state x) = Some (PendingRetry g due) /\ clock x < due
        /\ loop_turn x = x <| thread := WaitingUntil due |>)
  \/ (exists p, pending (state x) = Some p /\ due_by p (clock x) /\ loop_turn x = submit_turn p x).
Proof.
  intros H. unfold loop_turn. destruct (stopped (state x)) eqn:Hs; [by left|].
  destruct (pending (state x)) as [p|] eqn:Hp; [|by right; left].
  destruct (inv_pending _ H p Hp) as [Hg _]. rewrite Hg, Z.eqb_refl. cbn [negb]. do 2 right.
  destruct p as [g due|op]; [|by right; eexists]. destruct (clock x <? due) eqn:E; to_prop.
  - left. exists g, due. by replace (clock x + (due - clock x)) with due by lia.
  - right. eexists. split; [done|]. split; [cbn; lia|done].
Qed.

(** The thread holds the mutex, so the epoch is unchanged after [submit]. *)
Lemma submit_turn_eq p x : exists l r,
  submit (operation p) (lane x) = (l, r) /\
  let x' := x <| lane := l |>
              <| submissions ::= fun subs => subs ++ [mkSubmission p (clock x) r] |> in
  submit_turn p x =
    if decide (r = Some Full) then x' <| thread := Waiting |>
    else x' <| state ::= fun s => s <| pending := None |> |>.
Proof.
  unfold submit_turn. destruct (submit (operation p) (lane x)) as [l r]. exists l, r.
  split; [done|]. cbn. rewrite Z.eqb_refl. by destruct r as [[]|].
Qed.

Lemma submit_turn_inv p x :
  system_inv x -> thread x = AtLoop -> pending (state x) = Some p -> due_by p (clock x) ->
  system_inv (submit_turn p x).
Proof.
  intros [Hp Hw Hu Hr Hsp Hd] Ht Hpend Hdue. destruct (submit_turn_eq p x) as (l & r & _ & ->).
  assert (Forall (fun s => due_by (submitted s) (submitted_at s))
            (submissions x ++ [mkSubmission p (clock x) r])) as Hd'
    by (apply Forall_app; split; [done|by constructor]).
  assert (thread_spawned (state x) = true) by (apply Hsp; by rewrite Ht).
  destruct (decide (r = Some Full)) as [->|]; split; cbn; rewrite ?Ht; try done.
  intros _. right. exists p, (clock x). by rewrite last_snoc.
Qed.

Lemma loop_turn_inv x : system_inv x -> thread x = AtLoop -> system_inv (loop_turn x).
Proof.
  intros H Ht. pose proof H as [Hp Hw Hu Hr Hsp Hd].
  assert (thread_spawned (state x) = true) by (apply Hsp; by rewrite Ht).
  destruct (loop_turn_cases x H) as [(Hs & ->)|[(Hn & ->)|[(g & due & Hg & Hc & ->)|(p & Hpp & Hdue & ->)]]].
  - by split.
  - split; cbn; try done. by left.
  - split; cbn; try done. intros d [= <-]. by exists g.
  - by apply submit_turn_inv.
Qed.

(** A call either leaves the state alone or, having notified the thread, leaves
    a pending operation of the current generation, and none once stopped. *)
Lemma call_effect c s :
  (forall p, pending s = Some p -> pending_generation p = generation s /\ stopped s = false) ->
  (notifies c s = false -> call c s = s)
  /\ (forall p, pending (call c s) = Some p ->
        pending_generation p = generation (call c s) /\ stopped (call c s) = false)
  /\ thread_spawned (call c s) = thread_spawned s
  /\ generation s <= generation (call c s)
  /\ (stopped s = true -> stopped (call c s) = true).
Proof.
  intros Hp. destruct c; cbn; unfold schedule_retry, notify_fault, invalidate, bump.
  1, 2: destruct (stopped s) eqn:Hs, (g <? generation s) eqn:Hg; cbn; to_prop;
    split_and!; intros; try done; try lia; eauto; naive_solver.
  - destruct (g <? generation s) eqn:Hg; cbn; to_prop; split_and!; intros; try done; try lia; eauto.
  - split_and!; intros; try done; naive_solver.
  - split_and!; intros; done || lia.
Qed.

Lemma spawn_effect b x : exists t sp,
  (spawn_retry_scheduler b x).1 = x <| state ::= fun s => s <| thread_spawned := sp |> |>
                                    <| thread := t |>
  /\ (thread_spawned (state x) = true -> t = thread x /\ sp = true)
  /\ (thread_spawned (state x) = false -> t = thread x \/ t = Locking /\ sp = true).
Proof.
  unfold spawn_retry_scheduler. msteps. destruct (thread_spawned (state x)) eqn:E; cbn; msteps.
  - exists (thread x), true. destruct x as [[] ? ? ? ?]; cbn in *. by subst.
  - destruct b; cbn.
    + exists Locking, true. split_and!; [done|done|by right].
    + exists (thread x), false. split_and!; [by destruct x|done|by left].
Qed.

Lemma sched_step_inv e x y : step e x = Some y -> system_inv x -> system_inv y.
Proof.
  intros E H. pose proof H as [Hp Hw Hu Hr Hsp Hd]. destruct e; cbn in E.
  - destruct (call_effect c (state x) Hp) as (Hn & Hp' & Hs & _ & Hst).
    assert (y = x <| state ::= call c |>
      <| thread := if notifies c (state x) then notify_all (thread x) else thread x |>) as ->
      by (destruct (thread x); by inversion E).
    clear E. destruct (notifies c (state x)) eqn:En; split; cbn; rewrite ?Hn by done; try done.
    + by destruct (thread x).
    + by destruct (thread x).
    + destruct (thread x); try done. intros _. by apply Hst, Hr.
    + rewrite Hs. destruct (thread x); try done; intros _; by apply Hsp.
  - destruct (spawn_effect started x) as (t & sp & Ey & H1 & H2).
    assert (y = (spawn_retry_scheduler started x).1) as -> by (destruct (thread x); by inversion E).
    rewrite Ey. clear E Ey. destruct (thread_spawned (state x)) eqn:Es.
    + destruct (H1 eq_refl) as [-> ->]. by split.
    + assert (thread x = NotSpawned) as Ht
        by (destruct (thread x) eqn:Et; try done; exfalso; by specialize (Hsp ltac:(done))).
      destruct (H2 eq_refl) as [->|[-> ->]]; split; cbn; rewrite ?Ht; done.
  - destruct (thread x) eqn:Et; try done. injection E as <-. split; cbn; try done.
    intros _. by apply Hsp.
  - destruct (thread x) eqn:Et; try done. injection E as <-. by apply loop_turn_inv.
  - destruct (thread x) eqn:Et; try done. destruct (_ <=? _); [|done]. injection E as <-.
    split; cbn; try done. intros _. by apply Hsp.
  - injection E as <-. split; cbn; try done; destruct (thread x); try done; intros _; by first [apply Hr|apply Hsp].
  - destruct (0 <=? millis); [|done]. injection E as <-. by split.
  - injection E as <-. by split.
Qed.

Lemma sched_run_inv es x y : run es x = Some y -> system_inv x -> system_inv y.
Proof.
  revert x. induction es as [|e es IH]; intros x; cbn; [by intros [= ->]|].
  destruct (step e x) as [z|] eqn:E; [|done]. eauto using sched_step_inv.
Qed.

Lemma sched_initial_inv t l : system_inv (initial t l).
Proof. split; cbn; try done. Qed.

(** ** What the scheduler promises *)

(** The scheduler never sleeps past its work. Over every interleaving of
    calls, the clock, the lane and the thread: a pending operation is of the
    current generation and the scheduler is not stopped; the thread waits
    without a timeout only when nothing is pending or the lane has just refused
    the pending operation as full, waits with one only for the due time of the
    pending retry, and returns only after a stop. *)
Theorem scheduler_sleeps_justified es t l y :
  run es (initial t l) = Some y ->
  (forall p, pending (state y) = Some p ->
     pending_generation p = generation (state y) /\ stopped (state y) = false)
  /\ (thread y = Waiting -> pending (state y) = None \/
        exists p at_, pending (state y) = Some p
          /\ last (submissions y) = Some (mkSubmission p at_ (Some Full)))
  /\ (forall d, thread y = WaitingUntil d -> exists g, pending (state y) = Some (PendingRetry g d))
  /\ (thread y = Returned -> stopped (state y) = true).
Proof.
  intros Hr. pose proof (sched_run_inv _ _ _ Hr (sched_initial_inv t l)) as [].
  by split_and!.
Qed.

(** What the lane accepted, then what is pending. *)
Definition accounted (x : System) : list ScheduledOperation :=
  accepted x ++ option_list (option_map operation (pending (state x))).

Definition asked (e : Event) (x : System) : list ScheduledOperation :=
  match e with Call c => requested c (state x) | _ => [] end.

Lemma call_pending c s :
  option_list (option_map operation (pending (call c s))) `sublist_of`
    option_list (option_map operation (pending s)) ++ requested c s.
Proof.
  destruct c; cbn; unfold schedule_retry, notify_fault, invalidate, bump.
  1, 2: destruct (stopped s || (g <? generation s)); cbn; [by rewrite app_nil_r|];
    apply sublist_inserts_l; reflexivity.
  - destruct (g <? generation s); cbn; [by rewrite app_nil_r|apply sublist_nil_l].
  - by rewrite app_nil_r.
  - apply sublist_nil_l.
Qed.

Lemma loop_turn_accounted x : system_inv x -> accounted (loop_turn x) `sublist_of` accounted x.
Proof.
  intros H. unfold accounted, accepted.
  destruct (loop_turn_cases x H) as [(Hs & ->)|[(Hn & ->)|[(g & due & Hg & Hc & ->)|(p & Hp & _ & ->)]]];
    [done..|].
  destruct (submit_turn_eq p x) as (l & r & _ & ->).
  destruct (decide (r = Some Full)) as [->|Hr]; cbn; rewrite filter_app, map_app, Hp.
  - rewrite filter_cons_False by done. cbn. by rewrite app_nil_r.
  - destruct r as [e|].
    + rewrite filter_cons_False by done. cbn. rewrite !app_nil_r. by apply sublist_inserts_r.
    + rewrite filter_cons_True by done. cbn. by rewrite app_nil_r.
Qed.

Lemma step_accounted e x y :
  step e x = Some y -> system_inv x -> accounted y `sublist_of` accounted x ++ asked e x.
Proof.
  intros E H. destruct e; cbn in E |- *; rewrite ?app_nil_r.
  - assert (exists t, y = x <| state ::= call c |> <| thread := t |>) as [t ->]
      by (destruct (thread x); inversion E; eauto).
    unfold accounted. cbn. rewrite <-app_assoc. apply sublist_app; [done|apply call_pending].
  - assert (y = (spawn_retry_scheduler started x).1) as -> by (destruct (thread x); by inversion E).
    by destruct (spawn_effect started x) as (t & sp & -> & _).
  - destruct (thread x); try done. by injection E as <-.
  - destruct (thread x); try done. injection E as <-. by apply loop_turn_accounted.
  - destruct (thread x); try done. destruct (_ <=? _); [|done]. by injection E as <-.
  - by injection E as <-.
  - destruct (0 <=? millis); [|done]. by injection E as <-.
  - by injection E as <-.
Qed.

Lemma run_accounted es x y :
  run es x = Some y -> system_inv x -> accounted y `sublist_of` accounted x ++ requests es x.
Proof.
  revert x. induction es as [|e es IH]; intros x; cbn; [intros [= ->]; by rewrite app_nil_r|].
  destruct (step e x) as [z|] eqn:E; [|done]. intros Hr H.
  etrans; [apply (IH z Hr); by eapply sched_step_inv|]. fold (asked e x).
  rewrite app_assoc. apply sublist_app; [by apply step_accounted|done].
Qed.

(** C35. Each request is submitted with success at most once, in the order of the
    requests: the operations the lane accepted, followed by the pending one,
    are a subsequence of the ones the admitted calls asked for. No retry is
    submitted before its due time. *)
Theorem scheduler_at_most_once es t l y :
  run es (initial t l) = Some y ->
  accepted y ++ option_list (option_map operation (pending (state y)))
    `sublist_of` requests es (initial t l)
  /\ Forall (fun s => due_by (submitted s) (submitted_at s)) (submissions y).
Proof.
  intros Hr. split.
  - apply (run_accounted _ _ _ Hr), sched_initial_inv.
  - apply (inv_due y), (sched_run_inv _ _ _ Hr), sched_initial_inv.
Qed.

(** What a run adds to the submissions, for a lower bound on generations. *)
Lemma step_no_stale e x y :
  step e x = Some y -> system_inv x ->
  exists l, submissions y = submissions x ++ l
    /\ Forall (fun s => generation (state x) <= pending_generation (submitted s)) l
    /\ generation (state x) <= generation (state y)
    /\ (stopped (state x) = true -> l = [] /\ stopped (state y) = true).
Proof.
  intros E H. assert (forall y, submissions y = submissions x -> generation (state x) <= generation (state y) ->
    (stopped (state x) = true -> stopped (state y) = true) ->
    exists l, submissions y = submissions x ++ l
      /\ Forall (fun s => generation (state x) <= pending_generation (submitted s)) l
      /\ generation (state x) <= generation (state y)
      /\ (stopped (state x) = true -> l = [] /\ stopped (state y) = true)) as Hsame.
  { intros y' Hs Hg Hst. exists []. rewrite app_nil_r. split_and!; auto. }
  destruct e; cbn in E.
  - assert (exists t, y = x <| state ::= call c |> <| thread := t |>) as [t ->]
      by (destruct (thread x); inversion E; eauto).
    destruct (call_effect c (state x) (inv_pending _ H)) as (_ & _ & _ & Hg & Hst). by apply Hsame.
  - assert (y = (spawn_retry_scheduler started x).1) as -> by (destruct (thread x); by inversion E).
    destruct (spawn_effect started x) as (t & sp & -> & _). by apply Hsame.
  - destruct (thread x); try done. injection E as <-. by apply Hsame.
  - destruct (thread x); try done. injection E as <-.
    destruct (loop_turn_cases x H) as [(Hs & ->)|[(Hn & ->)|[(g & due & Hg & Hc & ->)|(p & Hp & _ & ->)]]];
      [by apply Hsame..|].
    destruct (inv_pending _ H p Hp) as [Hg Hns].
    destruct (submit_turn_eq p x) as (l & r & _ & ->). exists [mkSubmission p (clock x) r].
    destruct (decide _); cbn; rewrite Hns; split_and!; try done; repeat constructor; cbn; lia.
  - destruct (thread x); try done. destruct (_ <=? _); [|done]. injection E as <-. by apply Hsame.
  - injection E as <-. by apply Hsame.
  - destruct (0 <=? millis); [|done]. injection E as <-. by apply Hsame.
  - injection E as <-. by apply Hsame.
Qed.

(** Nothing stale is submitted: after any reachable state, every submission
    is of that state's generation or a later one, so an operation that was
    invalidated or replaced by a newer generation never reaches the lane; after
    a stop there are no submissions at all. *)
Theorem scheduler_no_stale es0 t l0 x es y :
  run es0 (initial t l0) = Some x -> run es x = Some y ->
  exists l, submissions y = submissions x ++ l
    /\ Forall (fun s => generation (state x) <= pending_generation (submitted s)) l
    /\ (stopped (state x) = true -> l = []).
Proof.
  intros Hx. pose proof (sched_run_inv _ _ _ Hx (sched_initial_inv t l0)) as H. clear Hx.
  revert x H. induction es as [|e es IH]; intros x H; cbn.
  - intros [= <-]. exists []. by rewrite app_nil_r.
  - destruct (step e x) as [z|] eqn:E; [|done]. intros Hr.
    destruct (step_no_stale _ _ _ E H) as (l1 & H1 & F1 & Hg & S1).
    destruct (IH z (sched_step_inv _ _ _ E H) Hr) as (l2 & H2 & F2 & S2).
    exists (l1 ++ l2). rewrite H2, H1, app_assoc. split_and!; [done| |].
    + apply Forall_app. split; [done|]. eapply Forall_impl; [done|]. cbn. intros. lia.
    + intros Hs. destruct (S1 Hs) as [-> Hz]. by rewrite S2.
Qed.

(** ** Progress *)

(** C40. The thread gives the mutex back: from the loop's head it waits or
    returns within two iterations, whatever the lane answers. *)
Theorem scheduler_loop_settles x :
  system_inv x -> thread x = AtLoop ->
  exists k, (k <= 2)%nat /\ thread (Nat.iter k loop_turn x) <> AtLoop.
Proof.
  intros H Ht. assert (system_inv (loop_turn x)) as H1 by by apply loop_turn_inv.
  destruct (loop_turn_cases x H) as [(Hs & E)|[(Hn & E)|[(g & due & Hg & Hc & E)|(p & Hp & _ & E)]]].
  1-3: exists 1%nat; cbn; rewrite E; split; [lia|done].
  destruct (submit_turn_eq p x) as (l & r & _ & Es). rewrite Es in E.
  destruct (decide (r = Some Full)); [exists 1%nat; cbn; rewrite E; split; [lia|done]|].
  exists 2%nat. split; [lia|]. cbn. rewrite E. unfold loop_turn. cbn.
  by destruct (stopped (state x)).
Qed.

(** The thread's own steps. *)
Definition internal (e : Event) : bool :=
  match e with Acquire | Turn | Timeout => true | _ => false end.

(** Whether the thread will look at the state again without a call. *)
Definition wakeful (x : System) : Prop :=
  match thread x with
  | Locking | AtLoop => True
  | WaitingUntil d => d <= clock x
  | _ => False
  end.

Lemma submit_from_loop p l x :
  system_inv x -> thread x = AtLoop -> pending (state x) = Some p -> due_by p (clock x) ->
  submit (operation p) (lane x) = (l, None) ->
  exists y, run [Turn; Turn] x = Some y
    /\ accepted y = accepted x ++ [operation p] /\ lane y = l
    /\ pending (state y) = None /\ thread y = Waiting.
Proof.
  intros H Ht Hp Hd Hsub. destruct (inv_pending _ H p Hp) as [_ Hns].
  assert (loop_turn x = submit_turn p x) as E.
  { destruct (loop_turn_cases x H) as [(Hs & _)|[(Hn & _)|[(g & due & Hg & Hc & _)|(q & Hq & _ & ->)]]];
      [congruence..| |congruence].
    rewrite Hp in Hg. injection Hg as ->. cbn in Hd. lia. }
  destruct (submit_turn_eq p x) as (l' & r & Hsub' & Es). rewrite Hsub in Hsub'. injection Hsub' as <- <-.
  cbn [decide] in Es. rewrite decide_False in Es by done. rewrite Es in E.
  eexists. split.
  { cbn [run step]. rewrite Ht, E. cbn [run step thread update]. cbn. rewrite Ht. reflexivity. }
  unfold loop_turn, accepted. cbn. rewrite Hns. cbn.
  rewrite filter_app, map_app. by rewrite filter_cons_True.
Qed.

(** C36. A pending operation is delivered: once a retry is due, a thread that is
    running, or whose timeout has passed, submits it in its own next steps; if
    the lane accepts it, the operation is accepted once, nothing is left
    pending, and the thread waits. A thread waiting for a full lane gets there
    by the next notification that the lane has room. *)
Theorem scheduler_delivers x p l :
  system_inv x -> pending (state x) = Some p -> due_by p (clock x) ->
  submit (operation p) (lane x) = (l, None) ->
  (wakeful x -> exists es y, forallb internal es = true /\ run es x = Some y
     /\ accepted y = accepted x ++ [operation p] /\ lane y = l
     /\ pending (state y) = None /\ thread y = Waiting)
  /\ (thread x = Waiting -> exists z, step (Call LaneAvailable) x = Some z
        /\ wakeful z /\ pending (state z) = Some p /\ lane z = lane x /\ clock z = clock x).
Proof.
  intros H Hp Hd Hsub. split.
  - intros Hw. assert (exists es y, forallb internal es = true /\ run es x = Some y
      /\ system_inv y /\ thread y = AtLoop /\ state y = state x /\ clock y = clock x
      /\ lane y = lane x /\ accepted y = accepted x) as (es & y & He & Hr & Hy & Ht & Es & Ec & El & Ea).
    { unfold wakeful in Hw. destruct (thread x) eqn:Et; try done.
      - exists [Acquire], (x <| thread := AtLoop |>). cbn. rewrite Et. split_and!; try done.
        eapply (sched_step_inv Acquire); [|done]. cbn. by rewrite Et.
      - exists [], x. by split_and!.
      - exists [Timeout; Acquire], (x <| thread := AtLoop |>). cbn. rewrite Et. decide_cmp. cbn.
        split_and!; try done. apply (sched_run_inv [Timeout; Acquire] x); [|done].
        cbn. rewrite Et. by decide_cmp. }
    destruct (submit_from_loop p l y) as (z & Hz & Ha & Hl & Hn & Hw'); try done;
      rewrite ?Es, ?Ec, ?El; try done.
    exists (es ++ [Turn; Turn]), z. split; [by rewrite forallb_app, He|]. split; [|by rewrite Ha, Ea].
    clear -Hr Hz. revert x Hr. induction es as [|e es IH]; intros x; cbn; [by intros [= ->]|].
    destruct (step e x); [auto|done].
  - intros Ht. cbn. rewrite Ht. eexists. split; [done|]. by split_and!.
Qed.
End scheduler_thread.
Arguments System : clear implicits.
Arguments Event : clear implicits.

(** ** The scheduler on the daemon's lane *)

(** The closure the daemon gives to [spawn_retry_scheduler]; jobs of clients do
    not matter here, so the lane's jobs are the scheduled operations. *)
Definition submit_to_lane (op : ScheduledOperation) (s : LaneState ScheduledOperation) :
    LaneState ScheduledOperation * option EnqueueError :=
  match try_enqueue op s with
  | (s', Err (error, _)) => (s', Some error)
  | (s', _) => (s', None)
  end.

Definition demo_lane : LaneState ScheduledOperation := mkLaneState [] 1 false.

(** A retry that waits for its due time, then a fault that finds the lane full
    and is submitted again when the lane has room. *)
Definition demo_prefix : list (Event (LaneState ScheduledOperation)) :=
  [Spawn true; Acquire; Turn; Call (ScheduleRetry 1 1500); Acquire; Turn; Tick 500; Timeout;
   Acquire; Turn; Turn; Call (NotifyFault 1 7 (BackendFault "lost")); Acquire; Turn].

Definition demo_waiting : System (LaneState ScheduledOperation) :=
  match run submit_to_lane demo_prefix (initial 1000 demo_lane) with
  | Some x => x
  | None => initial 1000 demo_lane
  end.

Definition demo_with_room : System (LaneState ScheduledOperation) :=
  demo_waiting <| lane := demo_lane |> <| thread := Locking |>.

Lemma demo_waiting_inv : system_inv demo_waiting.
Proof. apply (sched_run_inv submit_to_lane demo_prefix (initial 1000 demo_lane)); [done|apply sched_initial_inv]. Qed.

Lemma scheduler_sleeps_justified_witness :
  thread demo_waiting = Waiting
  /\ exists p t, pending (state demo_waiting) = Some p
       /\ last (submissions demo_waiting) = Some (mkSubmission p t (Some Full)).
Proof.
  destruct (scheduler_sleeps_justified submit_to_lane demo_prefix 1000 demo_lane demo_waiting eq_refl)
    as (_ & H & _). split; [reflexivity|]. destruct (H eq_refl) as [E|E]; [discriminate E|exact E].
Defined.

Lemma scheduler_at_most_once_witness :
  accepted demo_waiting = [Retry 1]
  /\ [Retry 1; RuntimeFault 1 7 (BackendFault "lost")]
       `sublist_of` requests submit_to_lane demo_prefix (initial 1000 demo_lane).
Proof.
  split; [reflexivity|].
  exact (proj1 (scheduler_at_most_once submit_to_lane demo_prefix 1000 demo_lane demo_waiting eq_refl)).
Defined.

Lemma scheduler_no_stale_witness :
  exists l, submissions demo_waiting = l /\ Forall (fun s => 0 <= pending_generation (submitted s)) l.
Proof.
  destruct (scheduler_no_stale submit_to_lane [] 1000 demo_lane (initial 1000 demo_lane)
              demo_prefix demo_waiting eq_refl eq_refl) as (l & H & F & _).
  exists l. split; [exact H|exact F].
Defined.

Lemma scheduler_loop_settles_witness : exists k, (k <= 2)%nat
  /\ thread (Nat.iter k (loop_turn submit_to_lane) (demo_with_room <| thread := AtLoop |>)) <> AtLoop.
Proof.
  apply (scheduler_loop_settles submit_to_lane); [|reflexivity].
  destruct demo_waiting_inv as [H1 _ _ _ H2 H3]. split; [exact H1|discriminate..| |exact H3].
  intros _. apply H2. discriminate.
Defined.

Lemma scheduler_delivers_witness : exists es y,
  run submit_to_lane es demo_with_room = Some y
  /\ accepted y = [Retry 1; RuntimeFault 1 7 (BackendFault "lost")].
Proof.
  destruct (scheduler_delivers submit_to_lane demo_with_room
    (Immediate (RuntimeFault 1 7 (BackendFault "lost")))
    (mkLaneState [RuntimeFault 1 7 (BackendFault "lost")] 1 false)) as [H _].
  - destruct demo_waiting_inv as [H1 _ _ _ H2 H3]. split; [exact H1|discriminate..| |exact H3].
    intros _. apply H2. discriminate.
  - reflexivity.
  - exact I.
  - reflexivity.
  - destruct (H I) as (es & y & _ & Hr & Ha & _). exists es, y. split; [exact Hr|exact Ha].
Defined.
