(* ===== verification/Activity.v ===== *)
(** * Activity detection and export decisions (src/activity.rs)

    Decides which channels of a frozen epoch are exported and where the export
    starts. The detector reads the epoch's samples once, in the chunks the ring
    hands out; the decision is finalized exactly once per frozen epoch. The
    policy types are those of src/export_policy.rs and src/app_config.rs. *)
From S2P Require Import Prelude.
From S2P Require Import Errors.
From S2P Require Import MemoryPlan.
From S2P Require Import SampleRing.
From S2P Require Import CalibrationCapture.
From S2P Require Import CaptureWorker.

(** [f64::log10], whose precision the platform's mathematical library sets. *)
Class Log10 := log10 : f64 -> f64.

(** ** Decisions *)

Inductive ChannelExportMode := Always | Auto | Never.
Inductive ActivityDetectorKind :=
  | ExactZero | WindowedRmsPeak | FixedLevel | CalibratedNoiseFloor.
Inductive ActivityResult := Active | Inactive | Ambiguous.
Inductive ChannelDisposition := Retain | Omit.

#[export] Instance ChannelExportMode_eq_dec : EqDecision ChannelExportMode.
Proof. solve_decision. Defined.
#[export] Instance ActivityDetectorKind_eq_dec : EqDecision ActivityDetectorKind.
Proof. solve_decision. Defined.
#[export] Instance ActivityResult_eq_dec : EqDecision ActivityResult.
Proof. solve_decision. Defined.
#[export] Instance ChannelDisposition_eq_dec : EqDecision ChannelDisposition.
Proof. solve_decision. Defined.

Definition canonical_disposition (mode : ChannelExportMode) (result : ActivityResult)
    : ChannelDisposition :=
  match mode with
  | Never => Omit
  | Always => Retain
  | Auto => if decide (result = Inactive) then Omit else Retain
  end.

Record FrozenChannelDecision := mkDecision {
  mode : ChannelExportMode;
  result : ActivityResult;
  disposition : ChannelDisposition;
  first_evidence_frame : option Z;
}.
#[export] Instance eta_FrozenChannelDecision : Eta FrozenChannelDecision := fun d =>
  mkDecision (mode d) (result d) (disposition d) (first_evidence_frame d).
#[export] Instance FrozenChannelDecision_eq_dec : EqDecision FrozenChannelDecision.
Proof. solve_decision. Defined.

Definition retained (m : ChannelExportMode) (r : ActivityResult) (evidence : option Z)
    : FrozenChannelDecision := mkDecision m r Retain evidence.

Definition empty_decision : FrozenChannelDecision := mkDecision Never Inactive Omit None.

Record FrozenEpochIdentity := mkIdentity {
  id_runtime : Z;
  id_index : Z;
  id_generation : Z;
}.
#[export] Instance FrozenEpochIdentity_eq_dec : EqDecision FrozenEpochIdentity.
Proof. solve_decision. Defined.

Definition identity (e : FrozenCaptureEpoch) : FrozenEpochIdentity :=
  mkIdentity (epoch_runtime_id e) (desc_index (epoch_descriptor e))
    (desc_generation (epoch_descriptor e)).

Record FrozenExportDecision := mkExportDecision {
  decisions : list FrozenChannelDecision;
  export_range : Z * Z;
  decision_rate : Z;
  valid : bool;
  frozen_epoch : option FrozenEpochIdentity;
  storage_id : Z;
}.
#[export] Instance eta_FrozenExportDecision : Eta FrozenExportDecision := fun d =>
  mkExportDecision (decisions d) (export_range d) (decision_rate d) (valid d) (frozen_epoch d)
    (storage_id d).

Abbreviation DM := (M FrozenExportDecision LambError).

Section decision_construction.
Context `{Platform}.

(** [FrozenExportDecision::new]; [storage_id] is the next number of the global
    counter. *)
Definition new_decision (plan : SessionMemoryPlan) (storage_id : Z) : Result FrozenExportDecision :=
  let? channels := (try_from_fn FROZEN_EXPORT_DECISION_SLOT_BYTES (channels plan)
                      (fun _ => ret empty_decision) tt).2 in
  Ok (mkExportDecision channels (0, 0) (sample_rate plan) false None storage_id).
End decision_construction.

Definition matches_frozen_epoch (d : FrozenExportDecision) (e : FrozenCaptureEpoch) : bool :=
  bool_decide (frozen_epoch d = Some (identity e)).

Definition reset_decision (d : FrozenExportDecision) : FrozenExportDecision :=
  d <| decisions ::= map (fun _ => empty_decision) |> <| export_range := (0, 0) |>
    <| valid := false |> <| frozen_epoch := None |>.

Definition is_reset (d : FrozenExportDecision) : bool :=
  negb (valid d) && bool_decide (export_range d = (0, 0)) && bool_decide (frozen_epoch d = None)
  && forallb (fun c => bool_decide (c = empty_decision)) (decisions d).

Definition compatible_reset_with (d other : FrozenExportDecision) : bool :=
  is_reset d && is_reset other && (decision_rate d =? decision_rate other)
  && (zlen (decisions d) =? zlen (decisions other)).

(** [Iterator::min] of [u64] values. *)
Definition minimum (l : list Z) : option Z :=
  match l with [] => None | x :: l' => Some (fold_left Z.min l' x) end.

Definition outside (range : Z * Z) (c : FrozenChannelDecision) : bool :=
  match first_evidence_frame c with
  | Some frame => (frame <? range.1) || (range.2 <=? frame)
  | None => false
  end.

Definition finalize (range : Z * Z) (channels : list FrozenChannelDecision)
    (trim_leading_silence whole_export_exact_zero_gate : bool) : DM unit :=
  let! d := get in
  fail_if (valid d) (ExportInvariant "frozen export decision is already final");;
  fail_if ((range.2 <? range.1) || negb (zlen channels =? zlen (decisions d)))
    (ExportInvariant "invalid frozen export decision geometry");;
  fail_if (existsb (fun c => negb (bool_decide (disposition c = canonical_disposition (mode c) (result c))))
             channels)
    (ExportInvariant "activity disposition contradicts mode and result");;
  fail_if (existsb (outside range) channels)
    (ExportInvariant "activity evidence is outside the frozen range");;
  let all_never := forallb (fun c => bool_decide (mode c = Never)) channels in
  let forced_omit := all_never || whole_export_exact_zero_gate in
  let first := minimum (base.omap first_evidence_frame
    (List.filter (fun c => negb forced_omit && bool_decide (disposition c = Retain)) channels)) in
  let start :=
    if trim_leading_silence
    then Z.max (match first with
                | Some frame => saturating_sub frame (2 * decision_rate d)
                | None => range.1
                end) range.1
    else range.1 in
  fail_if (range.2 <? start) (ExportInvariant "activity crop is outside the frozen range");;
  modify (fun d => d
    <| decisions := map (fun c => if forced_omit then c <| disposition := Omit |> else c) channels |>
    <| export_range := (start, range.2) |> <| valid := true |>).

(** ** The detector's state *)

Record WindowAccumulator := mkAccumulator {
  acc_start : Z;
  sum_squares : f64;
  peak : f64;
  count : Z;
}.
#[export] Instance eta_WindowAccumulator : Eta WindowAccumulator := fun a =>
  mkAccumulator (acc_start a) (sum_squares a) (peak a) (count a).

Definition new_accumulator (start : Z) : WindowAccumulator :=
  mkAccumulator start f64_zero f64_zero 0.

Record DetectorState := mkDetector {
  accumulators : WindowAccumulator * WindowAccumulator;
  gate_open_since : option Z;
  detected : ActivityResult;
  non_finite : bool;
  exact_nonzero : bool;
  evidence : option Z;
}.
#[export] Instance eta_DetectorState : Eta DetectorState := fun s =>
  mkDetector (accumulators s) (gate_open_since s) (detected s) (non_finite s) (exact_nonzero s)
    (evidence s).

Definition empty_state : DetectorState :=
  mkDetector (new_accumulator 0, new_accumulator 0) None Inactive false false None.

Definition prepare_windowed (hop : Z) (s : DetectorState) : DetectorState :=
  s <| accumulators := (new_accumulator 0, new_accumulator hop) |>.

Record WindowGeometry := mkGeometry { window : Z; hop : Z; sustained : Z }.

(** [WindowGeometry::new] *)
Definition new_geometry (rate : Z) : Result WindowGeometry :=
  if rate =? 0 then Err (Validation "windowed detector sample rate is zero")
  else
    let? window := ok_or (checked u32_max (div_ceil (wrap64 (rate * 20)) 1000))
                     (Validation "window size overflow") in
    let? hop := ok_or (checked u32_max (div_ceil (wrap64 (rate * 10)) 1000))
                  (Validation "window hop overflow") in
    let sustained := div_ceil (wrap64 (rate * 100)) 1000 in
    Ok (mkGeometry (Z.max window 1) (Z.max hop 1) (Z.max sustained 1)).

Definition prepare_state (detector : ActivityDetectorKind) (g : WindowGeometry)
    (threshold : option f64) (transaction_start : Z) (s : DetectorState) : DetectorState :=
  match detector with
  | WindowedRmsPeak =>
      let s := prepare_windowed (hop g) s in
      match threshold with
      | None => s <| detected := Ambiguous |> <| evidence := Some transaction_start |>
      | Some _ => s
      end
  | _ => s
  end.

Section detector.
Context `{Log10}.
Abbreviation TM := (M DetectorState LambError).

Definition dbfs (value : f64) : f64 :=
  if SFeqb value f64_zero then f64_of_Z (-120) else f64_mul (f64_of_Z 20) (log10 value).

Definition evaluate_window (a : WindowAccumulator) (transaction_start sustained_frames : Z)
    (open_threshold_dbfs : f64) : TM unit :=
  if count a =? 0 then ret tt
  else
    let! window_start := lift (ok_or (add_checked transaction_start (acc_start a))
                                 (ExportInvariant "activity evidence overflow")) in
    let! window_end := lift (ok_or (add_checked window_start (count a))
                               (ExportInvariant "activity window end overflow")) in
    let rms_dbfs := dbfs (f64_sqrt (f64_div (sum_squares a) (f64_of_Z (count a)))) in
    let peak_dbfs := dbfs (peak a) in
    let close_threshold_dbfs := f64_sub open_threshold_dbfs (f64_of_Z 6) in
    let transient := SFleb (f64_add open_threshold_dbfs (f64_of_Z 12)) peak_dbfs in
    (if SFleb close_threshold_dbfs rms_dbfs || transient
     then modify (fun s => s
            <| evidence ::= fun e => Some (match e with
                                           | Some current => Z.min current window_start
                                           | None => window_start
                                           end) |>
            <| detected ::= fun r => if decide (r = Inactive) then Ambiguous else r |>)
     else ret tt);;
    if transient then modify (fun s => s <| detected := Active |>)
    else
      let! s := get in
      match gate_open_since s with
      | Some open_since =>
          if SFltb rms_dbfs close_threshold_dbfs then modify (fun s => s <| gate_open_since := None |>)
          else if sustained_frames <=? saturating_sub window_end open_since
          then modify (fun s => s <| detected := Active |>)
          else ret tt
      | None =>
          if SFleb open_threshold_dbfs rms_dbfs then
            modify (fun s => s <| gate_open_since := Some window_start |>);;
            if sustained_frames <=? saturating_sub window_end window_start
            then modify (fun s => s <| detected := Active |>)
            else ret tt
          else ret tt
      end.

(** A window takes a sample: non-finite ones are only counted. *)
Definition take_sample (a : WindowAccumulator) (sample : f32) : WindowAccumulator :=
  let a := a <| count ::= fun n => wrap32 (n + 1) |> in
  if is_finite sample then
    let value := f64_of_f32 sample in
    a <| sum_squares ::= fun sum => f64_add sum (f64_mul value value) |>
      <| peak ::= fun p => f64_max p (SFabs value) |>
  else a.

(** One of the two overlapping windows in turn. *)
Definition accumulate (index : Z) (sample : f32) (relative_frame transaction_start : Z)
    (g : WindowGeometry) (threshold : f64) : TM unit :=
  let! s := get in
  let a := get2 (accumulators s) index in
  if (relative_frame <? acc_start a) || (wrap64 (acc_start a + window g) <=? relative_frame)
  then ret tt
  else
    let a := take_sample a sample in
    modify (fun s => s <| accumulators ::= fun p => set2 p index a |>);;
    if count a =? window g then
      let! next := lift (ok_or (add_checked (acc_start a) (2 * hop g))
                           (ExportInvariant "activity window overflow")) in
      modify (fun s => s <| accumulators ::= fun p => set2 p index (new_accumulator next) |>);;
      evaluate_window a transaction_start (sustained g) threshold
    else ret tt.

Definition note_sample (detector : ActivityDetectorKind) (sample : f32) (absolute_frame : Z)
    (s : DetectorState) : DetectorState :=
  if negb (is_finite sample) then s <| non_finite := true |>
  else if negb (SFeqb sample f32_zero) then
    let s := s <| exact_nonzero := true |> in
    if decide (detector = ExactZero)
    then s <| detected := Active |>
           <| evidence ::= fun e => Some (match e with Some frame => frame | None => absolute_frame end) |>
    else s
  else s.

Definition feed_sample (detector : ActivityDetectorKind) (sample : f32)
    (relative_frame transaction_start : Z) (g : WindowGeometry) (threshold : option f64) : TM unit :=
  let! absolute_frame := lift (ok_or (add_checked transaction_start relative_frame)
                                 (ExportInvariant "activity frame overflow")) in
  modify (note_sample detector sample absolute_frame);;
  match detector, threshold with
  | WindowedRmsPeak, Some threshold =>
      accumulate 0 sample relative_frame transaction_start g threshold;;
      accumulate 1 sample relative_frame transaction_start g threshold
  | _, _ => ret tt
  end.

(** [sort_by_key] of the two accumulators, which is stable. *)
Definition by_start (p : WindowAccumulator * WindowAccumulator) : list WindowAccumulator :=
  if acc_start p.2 <? acc_start p.1 then [p.2; p.1] else [p.1; p.2].

Fixpoint evaluate_partial (l : list WindowAccumulator) (transaction_start sustained : Z)
    (threshold : f64) : TM unit :=
  match l with
  | [] => ret tt
  | a :: l' =>
      (if 0 <? count a then evaluate_window a transaction_start sustained threshold else ret tt);;
      evaluate_partial l' transaction_start sustained threshold
  end.

Definition finish_state (detector : ActivityDetectorKind) (transaction_start : Z)
    (g : WindowGeometry) (threshold : option f64) : TM unit :=
  let! s := get in
  match detector, threshold with
  | WindowedRmsPeak, Some threshold =>
      evaluate_partial (by_start (accumulators s)) transaction_start (sustained g) threshold
  | _, _ => ret tt
  end;;
  modify (fun s => if non_finite s then s <| detected := Ambiguous |> else s).

Definition channel_decision (m : ChannelExportMode) (s : DetectorState) : FrozenChannelDecision :=
  mkDecision m (detected s) (canonical_disposition m (detected s)) (evidence s).

(** ** Classification *)

Record ChannelActivityPolicy := mkChannelPolicy {
  policy_name : string;
  policy_mode : ChannelExportMode;
  policy_threshold : option f64;
}.

Record ResolvedActivityPolicy := mkPolicy {
  detector : ActivityDetectorKind;
  policy_channels : list ChannelActivityPolicy;
  whole_export_exact_zero_gate : bool;
  trim_leading_silence : bool;
}.

(** A threshold counts when it is finite. *)
Definition finite_threshold (c : ChannelActivityPolicy) : option f64 :=
  match policy_threshold c with
  | Some t => if is_finite t then Some t else None
  | None => None
  end.

Record DetectorWorkspace := mkWorkspace {
  states : list DetectorState;
  scratch : list f32;
  ws_decisions : list FrozenChannelDecision;
}.
#[export] Instance eta_DetectorWorkspace : Eta DetectorWorkspace := fun w =>
  mkWorkspace (states w) (scratch w) (ws_decisions w).

Definition reset_workspace (w : DetectorWorkspace) : DetectorWorkspace :=
  w <| states ::= map (fun _ => empty_state) |> <| ws_decisions ::= map (fun _ => empty_decision) |>.

Abbreviation KM := (M DetectorWorkspace LambError).

(** A method of [states[channel]]. *)
Definition on_state {A} (channel : Z) (m : TM A) : KM A :=
  fun w => match zlookup (states w) channel with
           | Some s => let '(s', o) := m s in
                       (w <| states ::= (fun l => zupdate l channel (fun _ => s')) |>, o)
           | None => (w, Panic)
           end.

(** [for index in from..from + n], and over the elements of a slice. *)
Fixpoint for_range (n : nat) (from : Z) (body : Z -> KM unit) : KM unit :=
  match n with
  | O => ret tt
  | S n' => body from;; for_range n' (from + 1) body
  end.

Fixpoint for_each {A} (l : list A) (index : Z) (body : Z -> A -> KM unit) : KM unit :=
  match l with
  | [] => ret tt
  | x :: l' => body index x;; for_each l' (index + 1) body
  end.

Definition prepare_states (policy : ResolvedActivityPolicy) (g : WindowGeometry) (start : Z) : KM unit :=
  for_each (policy_channels policy) 0 (fun channel config =>
    on_state channel
      (modify (prepare_state (detector policy) g (finite_threshold config) start))).

(** One interleaved frame of [samples]: the sample of every channel. *)
Definition feed_frame (policy : ResolvedActivityPolicy) (g : WindowGeometry) (start : Z)
    (samples : list f32) (offset frame : Z) : KM unit :=
  let channels := zlen (policy_channels policy) in
  for_range (Z.to_nat channels) 0 (fun channel =>
    let! value := lift (unwrap (zlookup samples (frame * channels + channel))) in
    let! config := lift (unwrap (zlookup (policy_channels policy) channel)) in
    on_state channel
      (feed_sample (detector policy) value (wrap64 (offset + frame)) start g
         (finite_threshold config))).

(** [frames] frames of [samples], the first of which is frame [offset] of the
    transaction. *)
Definition feed_frames (policy : ResolvedActivityPolicy) (g : WindowGeometry) (start : Z)
    (samples : list f32) (offset frames : Z) : KM unit :=
  for_range (Z.to_nat frames) 0 (feed_frame policy g start samples offset).

Definition finish_states (policy : ResolvedActivityPolicy) (g : WindowGeometry) (start : Z) : KM unit :=
  for_each (policy_channels policy) 0 (fun channel config =>
    on_state channel (finish_state (detector policy) start g (finite_threshold config));;
    let! w := get in
    let! s := lift (unwrap (zlookup (states w) channel)) in
    let! _ := lift (unwrap (zlookup (ws_decisions w) channel)) in
    modify (fun w => w <| ws_decisions ::= fun l =>
      zupdate l channel (fun _ => channel_decision (policy_mode config) s) |>)).

Definition classify_samples (samples : list f32) (channels start_frame rate : Z)
    (policy : ResolvedActivityPolicy) : KM (list FrozenChannelDecision) :=
  let! w := get in
  fail_if ((channels =? 0) || negb (is_multiple_of (zlen samples) channels)
           || negb (zlen (policy_channels policy) =? channels)
           || negb (zlen (ws_decisions w) =? channels))
    (Validation "invalid activity classification geometry");;
  modify reset_workspace;;
  let! g := lift (new_geometry rate) in
  prepare_states policy g start_frame;;
  feed_frames policy g start_frame samples 0 (zlen samples / channels);;
  finish_states policy g start_frame;;
  gets ws_decisions.

(** [WindowedRmsPeakDetector::classify] *)
Definition classify (samples : list f32) (channels start_frame rate : Z) (threshold_dbfs : f64)
    : KM FrozenChannelDecision :=
  fail_if (negb (channels =? 1) || (rate =? 0) || negb (is_multiple_of (zlen samples) channels))
    (Validation "invalid windowed detector geometry");;
  let! w := get in
  fail_if (negb (zlen (states w) =? 1))
    (Validation "windowed detector workspace must be mono");;
  modify reset_workspace;;
  let! g := lift (new_geometry rate) in
  let threshold := if is_finite threshold_dbfs then Some threshold_dbfs else None in
  on_state 0 (modify (prepare_state WindowedRmsPeak g threshold start_frame));;
  for_each samples 0 (fun frame sample =>
    on_state 0 (feed_sample WindowedRmsPeak sample frame start_frame g threshold));;
  on_state 0 (finish_state WindowedRmsPeak start_frame g threshold);;
  let! w := get in
  let! s := lift (unwrap (zlookup (states w) 0)) in
  ret (channel_decision Auto s).

Section workspace_construction.
Context `{Platform}.

(** [DetectorWorkspace::new] *)
Definition new_workspace (plan : SessionMemoryPlan) : Result DetectorWorkspace :=
  let? scratch_len := ok_or (mul_checked (channels plan) (chunk_frames plan))
                        (Validation "activity scratch size overflow") in
  let? states := (try_from_fn ACTIVITY_DETECTOR_STATE_SLOT_BYTES (channels plan)
                    (fun _ => ret empty_state) tt).2 in
  let? scratch := new_zeroed scratch_len in
  let? decisions := (try_from_fn FROZEN_EXPORT_DECISION_SLOT_BYTES (channels plan)
                       (fun _ => ret empty_decision) tt).2 in
  Ok (mkWorkspace states scratch decisions).
End workspace_construction.

(** The buffers [classify_frozen_epoch] borrows. *)
Record Classifier := mkClassifier {
  workspace : DetectorWorkspace;
  decision : FrozenExportDecision;
}.
#[export] Instance eta_Classifier : Eta Classifier := fun c => mkClassifier (workspace c) (decision c).

Abbreviation FM := (M Classifier LambError).

Definition on_workspace {A} (m : KM A) : FM A :=
  fun c => let '(w, o) := m (workspace c) in (c <| workspace := w |>, o).
Definition on_decision {A} (m : DM A) : FM A :=
  fun c => let '(d, o) := m (decision c) in (c <| decision := d |>, o).
(** A method that writes the scratch buffer. *)
Definition on_scratch {A} (m : CM A) : FM A :=
  fun c => let '(b, o) := m (scratch (workspace c)) in
           (c <| workspace ::= fun w => w <| scratch := b |> |>, o).

(** One turn of the copying loop; [rings] holds the epoch's ring. *)
Definition classify_turn (rings : list SampleRing) (frozen : FrozenCaptureEpoch)
    (policy : ResolvedActivityPolicy) (g : WindowGeometry) (cursor : Z) : FM (Z + unit) :=
  let range := desc_absolute_range (epoch_descriptor frozen) in
  if cursor <? range.2 then
    let! copied := on_scratch (copy_epoch_range_into rings frozen (cursor, range.2)) in
    fail_if (copied =? 0) (ExportInvariant "frozen epoch copy made no progress");;
    let! c := get in
    on_workspace (feed_frames policy g range.1 (scratch (workspace c))
                    (wrap64 (cursor - range.1)) copied);;
    let! next := lift (ok_or (add_checked cursor copied) (ExportInvariant "frozen cursor overflow")) in
    ret (inl next)
  else ret (inr tt).

Record DecisionOutcome := mkOutcome { outcome_valid : bool; outcome_range : Z * Z }.

Definition classify_frozen_epoch (rings : list SampleRing) (frozen : FrozenCaptureEpoch)
    (policy : ResolvedActivityPolicy) : FM DecisionOutcome :=
  let d := epoch_descriptor frozen in
  let range := desc_absolute_range d in
  let! c := get in
  fail_if (valid (decision c)) (ExportInvariant "frozen export decision is already final");;
  fail_if (zlen (scratch (workspace c)) <? desc_channels d)
    (ExportInvariant "activity workspace has invalid scratch geometry");;
  fail_if (negb (zlen (policy_channels policy) =? desc_channels d)
           || negb (zlen (decisions (decision c)) =? desc_channels d))
    (ExportInvariant "activity policy does not match frozen geometry");;
  fail_if (negb (desc_sample_rate d =? decision_rate (decision c)) || (desc_sample_rate d =? 0))
    (ExportInvariant "activity sample rate does not match frozen decision");;
  on_workspace (modify reset_workspace);;
  let! g := lift (new_geometry (desc_sample_rate d)) in
  on_workspace (prepare_states policy g range.1);;
  mloop (classify_turn rings frozen policy g) range.1;;
  on_workspace (finish_states policy g range.1);;
  let! c := get in
  let entire_range_is_finite_zero :=
    forallb (fun s => negb (non_finite s) && negb (exact_nonzero s)) (states (workspace c)) in
  on_decision (finalize range (ws_decisions (workspace c)) (trim_leading_silence policy)
                 (whole_export_exact_zero_gate policy && entire_range_is_finite_zero));;
  on_decision (modify (fun dec => dec <| frozen_epoch := Some (identity frozen) |>));;
  let! c := get in
  ret (mkOutcome (valid (decision c)) (export_range (decision c))).
End detector.

Inductive ThresholdSource := ManualThreshold | Calibrated.
Inductive SilencePolicyPreset := AllChannelsExactZero | PerChannelExactZero.
