(* ===== verification/ActivitySpec.v ===== *)
(** * The activity detector against its reference

    The detector keeps two overlapping windows and sees each sample once; the
    reference is a verdict on the whole list of samples: the judgement of each
    window of the signal in order, the first sample that is not zero, and the
    presence of samples that are not finite. The file proves that the streaming
    states reach the reference's verdict. *)
From S2P Require Import Prelude.
From S2P Require Import Errors.
From S2P Require Import CalibrationCapture.
From S2P Require Import Activity.

(** ** Geometry *)

(** The facts about the windows of any sample rate. *)
Record geometry_ok (g : WindowGeometry) : Prop := {
  geo_hop : 1 <= hop g;
  geo_window : hop g <= window g <= 2 * hop g;
  geo_u32 : window g <= u32_max;
}.

Lemma new_geometry_ok rate :
  0 < rate <= u32_max -> exists g, new_geometry rate = Ok g /\ geometry_ok g.
Proof.
  intros Hr. unfold new_geometry. decide_cmp. unfold u32_max in Hr.
  rewrite !wrap64_small by (unfold is_u64, u64_max; lia).
  pose proof (div_ceil_spec (rate * 20) 1000 ltac:(lia)).
  pose proof (div_ceil_spec (rate * 10) 1000 ltac:(lia)).
  unfold checked. rewrite !(proj2 (Z.leb_le _ _)) by (unfold u32_max; lia). cbn [andb ok_or obind].
  eexists. split; [done|]. split; cbn [window hop sustained]; unfold u32_max; lia.
Qed.

(** ** Reference *)

Section reference.
Context `{Log10}.

(** What the judgement of a window reads and writes. *)
Record Gate := mkGate { gate_open : option Z; gate_result : ActivityResult; gate_evidence : option Z }.

Definition gate_of (s : DetectorState) : Gate := mkGate (gate_open_since s) (detected s) (evidence s).
Definition set_gate (k : Gate) (s : DetectorState) : DetectorState :=
  s <| gate_open_since := gate_open k |> <| detected := gate_result k |>
    <| evidence := gate_evidence k |>.

Definition rms_level (a : WindowAccumulator) : f64 :=
  dbfs (f64_sqrt (f64_div (sum_squares a) (f64_of_Z (count a)))).

(** A window over the closing threshold, and one with a peak 12 dB over the
    opening one. *)
Definition reaches_close (t : f64) (a : WindowAccumulator) : bool :=
  SFleb (f64_sub t (f64_of_Z 6)) (rms_level a).
Definition is_transient (t : f64) (a : WindowAccumulator) : bool :=
  SFleb (f64_add t (f64_of_Z 12)) (dbfs (peak a)).
Definition is_hot (t : f64) (a : WindowAccumulator) : bool := reaches_close t a || is_transient t a.

(** The judgement of one window of a transaction that starts at [start]. *)
Definition judge (start sustained : Z) (t : f64) (k : Gate) (a : WindowAccumulator) : Gate :=
  let window_start := start + acc_start a in
  let window_end := window_start + count a in
  let k := if is_hot t a
           then mkGate (gate_open k) (if decide (gate_result k = Inactive) then Ambiguous else gate_result k)
                  (Some (match gate_evidence k with
                         | Some e => Z.min e window_start
                         | None => window_start
                         end))
           else k in
  if is_transient t a then mkGate (gate_open k) Active (gate_evidence k)
  else
    match gate_open k with
    | Some since =>
        if SFltb (rms_level a) (f64_sub t (f64_of_Z 6)) then mkGate None (gate_result k) (gate_evidence k)
        else if sustained <=? saturating_sub window_end since
        then mkGate (gate_open k) Active (gate_evidence k)
        else k
    | None =>
        if SFleb t (rms_level a)
        then mkGate (Some window_start)
               (if sustained <=? saturating_sub window_end window_start then Active else gate_result k)
               (gate_evidence k)
        else k
    end.

(** The window of [n] samples from sample [s] on, cut at the end of the signal. *)
Definition window_of (xs : list f32) (s n : Z) : WindowAccumulator :=
  fold_left take_sample (segment xs s n) (new_accumulator s).

(** The windows of a signal: one per hop, while there are samples. *)
Definition signal_windows (g : WindowGeometry) (xs : list f32) : list WindowAccumulator :=
  map (fun k => window_of xs (k * hop g) (window g)) (seqZ 0 (div_ceil (zlen xs) (hop g))).

Definition closed_gate : Gate := mkGate None Inactive None.

Definition is_nonzero (x : f32) : bool := is_finite x && negb (SFeqb x f32_zero).

(** The index of the first finite sample that is not zero. *)
Fixpoint first_nonzero (xs : list f32) (from : Z) : option Z :=
  match xs with
  | [] => None
  | x :: xs' => if is_nonzero x then Some from else first_nonzero xs' (from + 1)
  end.

Definition reference_gate (d : ActivityDetectorKind) (g : WindowGeometry) (start : Z)
    (threshold : option f64) (xs : list f32) : Gate :=
  match d, threshold with
  | WindowedRmsPeak, Some t => fold_left (judge start (sustained g) t) (signal_windows g xs) closed_gate
  | WindowedRmsPeak, None => mkGate None Ambiguous (Some start)
  | ExactZero, _ =>
      match first_nonzero xs start with
      | Some i => mkGate None Active (Some i)
      | None => closed_gate
      end
  | _, _ => closed_gate
  end.

(** The verdict on a signal: its result and its first evidence. *)
Definition reference_verdict (d : ActivityDetectorKind) (g : WindowGeometry) (start : Z)
    (threshold : option f64) (xs : list f32) : ActivityResult * option Z :=
  let k := reference_gate d g start threshold xs in
  (if forallb is_finite xs then gate_result k else Ambiguous, gate_evidence k).

(** ** One window *)

Lemma gate_set k s : gate_of (set_gate k s) = k.
Proof. by destruct k. Qed.
Lemma set_gate_of s : set_gate (gate_of s) s = s.
Proof. by destruct s. Qed.
Lemma set_set_gate k k' s : set_gate k (set_gate k' s) = set_gate k s.
Proof. done. Qed.

(** [evaluate_window] judges, and changes nothing but the gate. *)
Lemma evaluate_window_run a start sustained t s :
  0 < count a -> 0 <= start -> 0 <= acc_start a -> start + acc_start a + count a <= u64_max ->
  evaluate_window a start sustained t s =
    (set_gate (judge start sustained t (gate_of s) a) s, Ok tt).
Proof.
  intros Hc Hs Ha Hu. unfold evaluate_window. decide_cmp.
  rewrite !add_checked_ok by lia. cbn [ok_or]. msteps. rewrite add_checked_ok by lia. cbn [ok_or]. msteps.
  fold (rms_level a). fold (reaches_close t a). fold (is_transient t a). fold (is_hot t a).
  unfold judge. destruct s as [acc o r nf ez e]; unfold set_gate, gate_of; cbn.
  destruct (is_hot t a); cbn; msteps; unfold bind, modify, ret, get; cbn;
    destruct (is_transient t a); cbn; try done;
    destruct o as [since|]; cbn; repeat (case_match; cbn); done.
Qed.

(** ** The windows while the signal grows *)

Lemma fold_take_count l a :
  0 <= count a -> count a + zlen l <= u32_max ->
  count (fold_left take_sample l a) = count a + zlen l
  /\ acc_start (fold_left take_sample l a) = acc_start a.
Proof.
  revert a. induction l as [|x l IH]; intros a Ha Hl; cbn; [unfold zlen; cbn; lia|].
  unfold zlen in *. cbn [length] in *. unfold u32_max in *.
  assert (count (take_sample a x) = count a + 1 /\ acc_start (take_sample a x) = acc_start a) as [E1 E2].
  { unfold take_sample, wrap32. cbn. destruct (is_finite x); cbn; split; try done; apply Z.mod_small; lia. }
  destruct (IH (take_sample a x)) as [E3 E4]; rewrite ?E1; lia.
Qed.

Lemma zlen_segment_cut {A} (l : list A) s n :
  0 <= s -> 0 <= n -> zlen (segment l s n) = Z.max 0 (Z.min n (zlen l - s)).
Proof. unfold zlen, segment. intros. rewrite length_take, length_drop. lia. Qed.

Lemma window_of_count xs s n :
  0 <= s -> 0 <= n <= u32_max ->
  count (window_of xs s n) = Z.max 0 (Z.min n (zlen xs - s)) /\ acc_start (window_of xs s n) = s.
Proof.
  intros. unfold window_of. rewrite <-(zlen_segment_cut xs s n) by lia.
  pose proof (zlen_segment_cut xs s n ltac:(lia) ltac:(lia)) as E.
  destruct (fold_take_count (segment xs s n) (new_accumulator s)) as [E1 E2]; cbn; try lia.
  split; [|by rewrite E2]. rewrite E1. cbn. lia.
Qed.

Lemma window_of_empty xs s n : zlen xs <= s -> window_of xs s n = new_accumulator s.
Proof.
  unfold window_of, segment, zlen. intros. rewrite drop_ge by lia. by rewrite firstn_nil.
Qed.

Lemma segment_snoc {A} (l : list A) x s n :
  0 <= s -> 0 <= n -> s <= zlen l ->
  segment (l ++ [x]) s n = if zlen l <? s + n then segment l s n ++ [x] else segment l s n.
Proof.
  unfold segment, zlen. intros. rewrite drop_app_le by lia.
  destruct (_ <? _) eqn:E; to_prop.
  - rewrite !firstn_all2; [done| |]; rewrite ?length_app, length_drop; cbn; lia.
  - apply take_app_le. rewrite length_drop. lia.
Qed.

Lemma window_of_snoc xs x s n :
  0 <= s -> 0 <= n ->
  window_of (xs ++ [x]) s n =
    if (s <=? zlen xs) && (zlen xs <? s + n) then take_sample (window_of xs s n) x
    else window_of xs s n.
Proof.
  intros. destruct (s <=? zlen xs) eqn:E; to_prop; cbn [andb].
  - unfold window_of. rewrite segment_snoc by lia. destruct (_ <? _); [|done].
    by rewrite fold_left_app.
  - rewrite !window_of_empty; [done|lia|]. rewrite zlen_app. unfold zlen in *; cbn; lia.
Qed.

(** The number of hops after which the oldest window is still open. *)
Definition open_window (g : WindowGeometry) (n c : Z) : Prop :=
  0 <= c /\ n < c * hop g + window g /\ (c = 0 \/ (c - 1) * hop g + window g <= n).

Lemma signal_windows_split g xs c :
  geometry_ok g -> open_window g (zlen xs) c ->
  signal_windows g xs =
    map (fun k => window_of xs (k * hop g) (window g)) (seqZ 0 c)
    ++ base.filter (fun a => 0 < count a)
         [window_of xs (c * hop g) (window g); window_of xs ((c + 1) * hop g) (window g)].
Proof.
  intros [G1 [G2 G3] G4] (Hc & Ho & Hl). unfold signal_windows. pose proof (zlen_nonneg xs) as Hn.
  set (m := div_ceil (zlen xs) (hop g)).
  assert ((m - 1) * hop g < zlen xs <= m * hop g) as Hm by (apply div_ceil_spec; lia).
  assert (0 <= m) by (apply div_ceil_nonneg; lia).
  assert (c <= m <= c + 2) as Hcm by (split; [destruct Hl as [->|Hl]|]; nia).
  assert (forall k, 0 <= k -> count (window_of xs (k * hop g) (window g)) =
            Z.max 0 (Z.min (window g) (zlen xs - k * hop g))) as Hk
    by (intros k ?; apply window_of_count; nia).
  replace m with (c + (m - c)) by lia. rewrite seqZ_app, map_app by lia. f_equal.
  rewrite Z.add_0_l. rewrite !filter_cons, filter_nil, !Hk by lia.
  assert (m = c \/ m = c + 1 \/ m = c + 2) as [E|[E|E]] by lia; rewrite E in *.
  - replace (c - c) with 0 by lia. rewrite !decide_False by nia. done.
  - replace (c + 1 - c) with 1 by lia. rewrite decide_True, decide_False by nia. done.
  - replace (c + 2 - c) with 2 by lia. rewrite !decide_True by nia.
    change (seqZ c 2) with [c; 1 + c]. by rewrite (Z.add_comm 1 c).
Qed.

(** ** The streaming detector *)

Section streaming.
Context (d : ActivityDetectorKind) (g : WindowGeometry) (start : Z) (threshold : option f64).
Hypothesis Hgeo : geometry_ok g.
Hypothesis Hstart : 0 <= start.

(** What a state knows after the signal [xs]. *)
Definition flags_ok (xs : list f32) (s : DetectorState) : Prop :=
  non_finite s = negb (forallb is_finite xs) /\ exact_nonzero s = existsb is_nonzero xs.

Definition windows_ok (t : f64) (xs : list f32) (s : DetectorState) : Prop :=
  exists c, open_window g (zlen xs) c
    /\ get2 (accumulators s) (c mod 2) = window_of xs (c * hop g) (window g)
    /\ get2 (accumulators s) ((c + 1) mod 2) = window_of xs ((c + 1) * hop g) (window g)
    /\ gate_of s = fold_left (judge start (sustained g) t)
                     (map (fun k => window_of xs (k * hop g) (window g)) (seqZ 0 c)) closed_gate.

Definition stream_inv (xs : list f32) (s : DetectorState) : Prop :=
  flags_ok xs s
  /\ match d, threshold with
     | WindowedRmsPeak, Some t => windows_ok t xs s
     | _, _ => gate_of s = reference_gate d g start threshold xs
     end.

Lemma get_set2 {A} (p : A * A) i j x :
  (i = 0 \/ i = 1) -> (j = 0 \/ j = 1) -> get2 (set2 p i x) j = if decide (i = j) then x else get2 p j.
Proof. intros [->| ->] [->| ->]; done. Qed.

(** One window takes a sample that ends it or not. *)
Lemma accumulate_run t xs x s j p :
  get2 (accumulators s) j = window_of xs p (window g) ->
  0 <= p -> zlen xs < p + window g -> p <= 2 ^ 63 -> start + zlen xs + 1 <= u64_max ->
  accumulate j x (zlen xs) start g t s =
    if zlen xs + 1 =? p + window g
    then (set_gate (judge start (sustained g) t (gate_of s) (window_of (xs ++ [x]) p (window g)))
            (s <| accumulators ::= fun q => set2 q j (new_accumulator (p + 2 * hop g)) |>), Ok tt)
    else (s <| accumulators ::= fun q => set2 q j (window_of (xs ++ [x]) p (window g)) |>, Ok tt).
Proof using Hgeo Hstart.
  intros Hj Hp Hn Hb Hu. destruct Hgeo as [G1 [G2 G3] G4]. unfold u32_max in G4. unfold u64_max in Hu.
  destruct (window_of_count xs p (window g)) as [Ec Es]; [lia|unfold u32_max; lia|].
  pose proof (zlen_nonneg xs) as H0. unfold accumulate. msteps. rewrite Hj, Es.
  rewrite wrap64_small by (unfold is_u64, u64_max; lia).
  rewrite window_of_snoc by lia. destruct (p <=? zlen xs) eqn:Epn; to_prop.
  - repeat decide_cmp. cbn [orb andb]. msteps.
    destruct (window_of_count (xs ++ [x]) p (window g)) as [Ec' Es']; [lia|unfold u32_max; lia|].
    rewrite window_of_snoc in Ec', Es' by lia. revert Ec' Es'. repeat decide_cmp. cbn [andb]. intros Ec' Es'.
    set (a := take_sample (window_of xs p (window g)) x) in *.
    rewrite zlen_app in Ec'. change (zlen [x]) with 1 in Ec'. rewrite Ec'.
    destruct (zlen xs + 1 =? p + window g) eqn:E; to_prop; repeat decide_cmp; [|by rewrite ret_run].
    rewrite Es', add_checked_ok by (unfold u64_max; lia). cbn [ok_or]. msteps.
    rewrite evaluate_window_run by (rewrite ?Ec', ?Es'; unfold u64_max; lia).
    destruct s as [[a0 a1] o r nf ez e]. unfold set2, set_gate, gate_of; cbn. by destruct (j =? 0).
  - rewrite (proj2 (Z.ltb_lt _ _)) by lia. cbn [orb andb]. rewrite ret_run.
    rewrite (proj2 (Z.eqb_neq _ _)) by lia. do 2 f_equal. destruct s as [[a0 a1] o r nf ez e]. cbn in *.
    unfold get2, set2 in *. destruct (j =? 0); cbn in *; by rewrite <-Hj.
Qed.

(** The windows before [c] are complete: a further sample is not theirs. *)
Lemma complete_windows_snoc xs x c :
  open_window g (zlen xs) c ->
  map (fun k => window_of (xs ++ [x]) (k * hop g) (window g)) (seqZ 0 c) =
  map (fun k => window_of xs (k * hop g) (window g)) (seqZ 0 c).
Proof using Hgeo.
  intros (Hc & _ & Hl). destruct Hgeo as [G1 [G2 G3] _]. apply map_ext_in. intros k Hk.
  apply list_elem_of_In, elem_of_seqZ in Hk. rewrite window_of_snoc by nia.
  rewrite (proj2 (Z.ltb_ge _ _)) by (destruct Hl as [->|Hl]; nia). by rewrite andb_false_r.
Qed.

Lemma parity c : 0 <= c ->
  (c mod 2 = 0 /\ (c + 1) mod 2 = 1 /\ (c + 2) mod 2 = 0)
  \/ (c mod 2 = 1 /\ (c + 1) mod 2 = 0 /\ (c + 2) mod 2 = 1).
Proof using Type.
  intros. destruct (Z.mod_pos_bound c 2 ltac:(lia)).
  rewrite (Z.add_mod c 1), (Z.add_mod c 2) by lia.
  assert (c mod 2 = 0 \/ c mod 2 = 1) as [-> | ->] by lia; [left|right]; done.
Qed.

(** The effect of the sample on the window at [i], of start [p], that becomes [w]. *)
Definition slide (t : f64) (ends : bool) (i p : Z) (w : WindowAccumulator) (s : DetectorState) :=
  if ends
  then set_gate (judge start (sustained g) t (gate_of s) w)
         (s <| accumulators ::= fun q => set2 q i (new_accumulator (p + 2 * hop g)) |>)
  else s <| accumulators ::= fun q => set2 q i w |>.

Lemma slide_facts t ends i i' p w w' s :
  (i = 0 /\ i' = 1) \/ (i = 1 /\ i' = 0) ->
  let s' := slide t ends i p w (s <| accumulators ::= fun q => set2 q i' w' |>) in
  get2 (accumulators s') i = (if ends then new_accumulator (p + 2 * hop g) else w)
  /\ get2 (accumulators s') i' = w'
  /\ gate_of s' = (if ends then judge start (sustained g) t (gate_of s) w else gate_of s)
  /\ non_finite s' = non_finite s /\ exact_nonzero s' = exact_nonzero s
  /\ (slide t ends i p w s) <| accumulators ::= fun q => set2 q i' w' |> = s'
  /\ get2 (accumulators (slide t ends i p w s)) i' = get2 (accumulators s) i'
  /\ get2 (accumulators (s <| accumulators ::= fun q => set2 q i' w' |>)) i = get2 (accumulators s) i.
Proof using Type.
  intros Hi s'. subst s'. unfold slide. destruct s as [[a0 a1] o r nf ez e].
  destruct Hi as [[-> ->]|[-> ->]], ends; split_and!; try done; cbn; by destruct (judge _ _ _ _ _).
Qed.

Lemma accumulate_both t xs x s :
  windows_ok t xs s -> zlen xs <= 2 ^ 62 -> start + zlen xs + 1 <= u64_max ->
  exists s', bind (accumulate 0 x (zlen xs) start g t)
               (fun _ => accumulate 1 x (zlen xs) start g t) s = (s', Ok tt)
    /\ windows_ok t (xs ++ [x]) s'
    /\ non_finite s' = non_finite s /\ exact_nonzero s' = exact_nonzero s.
Proof using Hgeo Hstart.
  intros (c & Hc & Hc0 & Hc1 & Hg) Hn Hu. pose proof Hc as (H0 & Ho & Hl).
  pose proof Hgeo as [G1 [G2 G3] G4]. unfold u32_max in G4. pose proof (zlen_nonneg xs).
  assert ((c + 1) * hop g <= 2 ^ 63) by (destruct Hl as [->|Hl]; nia).
  assert (0 <= c * hop g) by nia.
  set (i := c mod 2) in *. set (i' := (c + 1) mod 2) in *.
  assert ((c + 2) mod 2 = i /\ ((i = 0 /\ i' = 1) \/ (i = 1 /\ i' = 0))) as [Ei Hi]
    by (destruct (parity c H0) as [(P1 & P2 & P3)|(P1 & P2 & P3)]; unfold i, i'; lia).
  set (w' := window_of (xs ++ [x]) ((c + 1) * hop g) (window g)).
  set (w := window_of (xs ++ [x]) (c * hop g) (window g)).
  set (ends := zlen xs + 1 =? c * hop g + window g).
  assert (forall s, get2 (accumulators s) i' = window_of xs ((c + 1) * hop g) (window g) ->
    accumulate i' x (zlen xs) start g t s =
      (s <| accumulators ::= fun q => set2 q i' w' |>, Ok tt)) as A1.
  { intros s1 Hs1. rewrite (accumulate_run t xs x s1 i' _ Hs1) by nia. by decide_cmp. }
  assert (forall s, get2 (accumulators s) i = window_of xs (c * hop g) (window g) ->
    accumulate i x (zlen xs) start g t s = (slide t ends i (c * hop g) w s, Ok tt)) as A0.
  { intros s1 Hs1. rewrite (accumulate_run t xs x s1 i _ Hs1) by nia. unfold slide, ends.
    by destruct (_ =? _). }
  destruct (slide_facts t ends i i' (c * hop g) w w' s Hi) as (F1 & F2 & F3 & F4 & F5 & F6 & F7 & F8).
  eexists. split; [|split; [|by split]].
  - destruct Hi as [[Ei0 Ei1]|[Ei0 Ei1]]; rewrite Ei0, Ei1 in *.
    + rewrite (bind_run _ _ _ _ _ (A0 s Hc0)), A1 by (by rewrite F7). by rewrite F6.
    + rewrite (bind_run _ _ _ _ _ (A1 s Hc1)). by rewrite A0 by (by rewrite F8).
  - pose proof (complete_windows_snoc xs x c Hc) as Ec. unfold windows_ok.
    rewrite zlen_app. change (zlen [x]) with 1. destruct ends eqn:E; unfold ends in E; to_prop.
    + exists (c + 1). split; [split_and!; [lia|lia|right; lia]|]. split; [done|].
      replace (c + 1 + 1) with (c + 2) by lia. rewrite Ei. split.
      * rewrite F1, window_of_empty; [f_equal; lia|]. rewrite zlen_app. change (zlen [x]) with 1. nia.
      * rewrite F3, seqZ_app, map_app, Ec, fold_left_app, <-Hg by lia. done.
    + exists c. split; [split_and!; lia|]. split; [done|]. split; [done|]. by rewrite Ec, <-Hg.
Qed.

Lemma first_nonzero_snoc xs x from :
  first_nonzero (xs ++ [x]) from =
    match first_nonzero xs from with
    | Some i => Some i
    | None => if is_nonzero x then Some (from + zlen xs) else None
    end.
Proof using Type.
  revert from. induction xs as [|y xs IH]; intros from; cbn.
  - change (zlen []) with 0. by rewrite Z.add_0_r.
  - destruct (is_nonzero y); [done|]. rewrite IH.
    replace (zlen (y :: xs)) with (1 + zlen xs) by (unfold zlen; cbn [length]; lia).
    by rewrite Z.add_assoc.
Qed.

(** What a sample changes before the windows see it. *)
Lemma note_sample_facts xs x s :
  flags_ok xs s ->
  let s' := note_sample d x (start + zlen xs) s in
  flags_ok (xs ++ [x]) s'
  /\ accumulators s' = accumulators s
  /\ (d <> ExactZero -> gate_of s' = gate_of s)
  /\ (d = ExactZero -> gate_of s = reference_gate d g start threshold xs ->
      gate_of s' = reference_gate d g start threshold (xs ++ [x])).
Proof using Type.
  intros [F1 F2] s'. unfold s', note_sample, flags_ok. rewrite forallb_app, existsb_app. cbn.
  fold (is_nonzero x). assert (is_nonzero x = is_finite x && negb (SFeqb x f32_zero)) as En by done.
  destruct (is_finite x) eqn:Ef; cbn [negb andb] in *.
  - rewrite <-En. destruct (is_nonzero x) eqn:Ez.
    + destruct (decide (d = ExactZero)) as [->|]; cbn; rewrite F1, ?F2, !andb_true_r, ?orb_true_r.
      * split_and!; try done. intros _. rewrite first_nonzero_snoc, Ez. unfold gate_of; cbn.
        by destruct (first_nonzero xs start); cbn; intros [= -> _ ->].
      * by split_and!.
    + rewrite F1, F2, !andb_true_r, !orb_false_r. split_and!; try done.
      intros -> Hg. rewrite Hg. cbn. rewrite first_nonzero_snoc, Ez. by destruct (first_nonzero xs start).
  - cbn. rewrite En, F2, andb_false_r, !orb_false_r. split_and!; try done.
    intros -> Hg. unfold gate_of in *; cbn in *. rewrite Hg, first_nonzero_snoc, En.
    by destruct (first_nonzero xs start).
Qed.

(** One sample: the state follows the signal, and no error. *)
Lemma feed_sample_ok xs x s :
  stream_inv xs s -> zlen xs <= 2 ^ 62 -> start + zlen xs + 1 <= u64_max ->
  exists s', feed_sample d x (zlen xs) start g threshold s = (s', Ok tt) /\ stream_inv (xs ++ [x]) s'.
Proof using Hgeo Hstart.
  intros [Hf Hs] Hn Hu. pose proof (zlen_nonneg xs).
  unfold feed_sample, stream_inv.
  rewrite add_checked_ok by lia. cbn [ok_or]. msteps.
  destruct (note_sample_facts xs x s Hf) as (Hf' & Ha & Hg1 & Hg2).
  set (s1 := note_sample d x (start + zlen xs) s) in *.
  assert (d <> WindowedRmsPeak \/ threshold = None ->
    gate_of s1 = reference_gate d g start threshold (xs ++ [x])) as Hother.
  { intros Hd. destruct d eqn:Ed; cbn in *; try (rewrite Hg1 by done; done).
    - by apply Hg2.
    - destruct threshold; [by destruct Hd|]. by rewrite Hg1. }
  destruct d eqn:Ed; [|destruct threshold as [t|] eqn:Et| |];
    try (exists s1; split; [done|]; split; [done|]; cbn in *; apply Hother; auto; fail).
  destruct (accumulate_both t xs x s1) as (s' & E & Hw & F1 & F2); [|done|done|].
  - destruct Hs as (c & Hs). exists c. rewrite Ha, Hg1 by done. done.
  - exists s'. split; [done|]. split; [|done]. destruct Hf' as [Hf1 Hf2]. split; congruence.
Qed.

Lemma prepare_state_ok : stream_inv [] (prepare_state d g threshold start empty_state).
Proof using Hgeo.
  destruct Hgeo as [G1 [G2 G3] _].
  unfold stream_inv. destruct d; [|destruct threshold| |]; try by split.
  split; [done|]. exists 0. split; [unfold open_window, zlen; cbn; lia|].
  rewrite !window_of_empty by (unfold zlen; cbn; lia). cbn. by destruct (hop g).
Qed.

Fixpoint feed_list (xs : list f32) (from : Z) : M DetectorState LambError unit :=
  match xs with
  | [] => ret tt
  | x :: xs' => feed_sample d x from start g threshold;; feed_list xs' (from + 1)
  end.

Lemma feed_list_ok xs ys s :
  stream_inv xs s -> zlen (xs ++ ys) <= 2 ^ 62 -> start + zlen (xs ++ ys) <= u64_max ->
  exists s', feed_list ys (zlen xs) s = (s', Ok tt) /\ stream_inv (xs ++ ys) s'.
Proof using Hgeo Hstart.
  revert xs s. induction ys as [|y ys IH]; intros xs s Hs Hn Hu; cbn [feed_list].
  - exists s. by rewrite app_nil_r.
  - assert (zlen (xs ++ y :: ys) = zlen xs + 1 + zlen ys) as El
      by (rewrite zlen_app; unfold zlen; cbn [length]; lia).
    pose proof (zlen_nonneg ys).
    destruct (feed_sample_ok xs y s Hs ltac:(lia) ltac:(lia)) as (s1 & E & Hs1).
    rewrite (bind_run _ _ _ _ _ E). replace (zlen xs + 1) with (zlen (xs ++ [y]))
      by (rewrite zlen_app; unfold zlen; cbn; lia).
    replace (xs ++ y :: ys) with ((xs ++ [y]) ++ ys) in * by (by rewrite <-app_assoc).
    by apply IH.
Qed.

(** The windows still open at the end are judged in order. *)
Lemma evaluate_partial_ok t l s :
  (forall a, a ∈ l -> 0 < count a -> 0 <= acc_start a /\ start + acc_start a + count a <= u64_max) ->
  evaluate_partial l start (sustained g) t s =
    (set_gate (fold_left (judge start (sustained g) t) (base.filter (fun a => 0 < count a) l) (gate_of s)) s,
     Ok tt).
Proof using Hstart.
  revert s. induction l as [|a l IH]; intros s Hl; cbn [evaluate_partial].
  - by rewrite filter_nil; cbn [fold_left]; rewrite set_gate_of.
  - rewrite filter_cons. destruct (0 <? count a) eqn:E; to_prop.
    + destruct (Hl a ltac:(by left) E) as [H1 H2]. rewrite (bind_run _ _ _ _ _ (evaluate_window_run a start (sustained g) t s E Hstart H1 H2)).
      rewrite decide_True by done. rewrite IH by (intros; apply Hl; [by right|done]). cbn [fold_left].
      rewrite gate_set. by rewrite set_set_gate.
    + msteps. rewrite decide_False by lia. apply IH. intros. apply Hl; [by right|done].
Qed.

(** The open windows are sorted by their starts. *)
Lemma by_start_open xs s c :
  open_window g (zlen xs) c ->
  get2 (accumulators s) (c mod 2) = window_of xs (c * hop g) (window g) ->
  get2 (accumulators s) ((c + 1) mod 2) = window_of xs ((c + 1) * hop g) (window g) ->
  by_start (accumulators s) =
    [window_of xs (c * hop g) (window g); window_of xs ((c + 1) * hop g) (window g)].
Proof using Hgeo.
  intros (H0 & _) Hc0 Hc1. destruct Hgeo as [G1 [G2 G3] G4].
  destruct (window_of_count xs (c * hop g) (window g)) as [_ E1]; [nia|lia|].
  destruct (window_of_count xs ((c + 1) * hop g) (window g)) as [_ E2]; [nia|lia|].
  unfold by_start. destruct (accumulators s) as [a0 a1]. unfold get2 in *.
  destruct (parity c H0) as [(P1 & P2 & _)|(P1 & P2 & _)]; rewrite P1, P2 in *; cbn in *;
    subst a0 a1; rewrite E1, E2; by decide_cmp.
Qed.

Lemma finish_state_ok xs s :
  stream_inv xs s -> zlen xs <= 2 ^ 62 -> start + zlen xs <= u64_max ->
  exists s', finish_state d start g threshold s = (s', Ok tt)
    /\ (detected s', evidence s') = reference_verdict d g start threshold xs
    /\ flags_ok xs s'.
Proof using Hgeo Hstart.
  intros [[Hf1 Hf2] Hs] Hn Hu. unfold finish_state. msteps.
  assert (forall s1, gate_of s1 = reference_gate d g start threshold xs ->
    non_finite s1 = non_finite s -> exact_nonzero s1 = exact_nonzero s ->
    exists s', (if non_finite s1 then s1 <| detected := Ambiguous |> else s1) = s'
    /\ (detected s', evidence s') = reference_verdict d g start threshold xs /\ flags_ok xs s') as Hend.
  { intros s1 Hg Hnf Hez. eexists. split; [done|]. unfold reference_verdict. rewrite <-Hg.
    rewrite Hnf, Hf1. unfold flags_ok. destruct (forallb is_finite xs) eqn:E; cbn; split_and!; rewrite ?Hnf, ?Hez, ?Hf1, ?Hf2, ?E; done. }
  destruct d eqn:Ed; [|destruct threshold as [t|] eqn:Et| |];
    try (destruct (Hend s Hs eq_refl eq_refl) as (s' & <- & Hv); eexists; split; [reflexivity|exact Hv]).
  destruct Hs as (c & Hc & Hc0 & Hc1 & Hg). pose proof Hc as (H0 & Ho & Hl).
  pose proof Hgeo as [G1 [G2 G3] G4].
  pose proof (by_start_open xs s c Hc Hc0 Hc1) as Eb.
  assert (forall a, a ∈ by_start (accumulators s) -> 0 < count a ->
    0 <= acc_start a /\ start + acc_start a + count a <= u64_max) as Hb.
  { rewrite Eb. intros a Ha Hpos. assert (exists p, 0 <= p /\ a = window_of xs p (window g)) as (p & Hp & ->).
    { apply elem_of_cons in Ha as [->|Ha]; [eexists; split; [|done]; nia|].
      apply list_elem_of_singleton in Ha as ->. eexists; split; [|done]; nia. }
    destruct (window_of_count xs p (window g)) as [E1 E2]; [lia|lia|]. rewrite E1 in *. rewrite E2. lia. }
  rewrite (bind_run _ _ _ _ _ (evaluate_partial_ok t _ s Hb)), Eb.
  rewrite Hg, <-fold_left_app, <-signal_windows_split by done. msteps.
  destruct (Hend (set_gate (reference_gate WindowedRmsPeak g start (Some t) xs) s)) as (s' & <- & Hv);
    [by rewrite gate_set|done|done|]. by eexists.
Qed.
End streaming.
End reference.
