(* ===== verification/ActivityTheorems.v ===== *)
(** * Classifying a frozen epoch

    The states of all channels follow their channels of the interleaved stream,
    so the classification of a frozen epoch, read in whatever chunks its ring
    hands out, is the reference verdict on each channel. What the epoch's reads
    return is an interface, [ReadsStream], that the capture worker's frozen
    epochs implement. *)
From S2P Require Import Prelude.
From S2P Require Import Errors.
From S2P Require Import MemoryPlan.
From S2P Require Import SampleRing.
From S2P Require Import RingSpec.
From S2P Require Import CalibrationCapture.
From S2P Require Import CalibrationTheorems.
From S2P Require Import CaptureWorker.
From S2P Require Import WorkerSpec.
From S2P Require Import WorkerTheorems.
From S2P Require Import Activity.
From S2P Require Import ActivitySpec.

(** ** The interface of a frozen epoch *)

(** Reads of a frozen epoch return the frames of the interleaved stream [h], as
    many as fit in the buffer. *)
Class ReadsStream (rings : list SampleRing) (frozen : FrozenCaptureEpoch) (h : list f32) : Prop := {
  reads_range : let range := desc_absolute_range (epoch_descriptor frozen) in
    0 <= range.1 < range.2 /\ range.2 * desc_channels (epoch_descriptor frozen) <= zlen h;
  reads_frames : forall a dst,
    let d := epoch_descriptor frozen in
    let range := desc_absolute_range d in
    let ch := desc_channels d in
    range.1 <= a <= range.2 -> zlen dst mod ch = 0 -> zlen dst <= u64_max ->
    a + zlen dst / ch <= u64_max ->
    let n := Z.min (range.2 - a) (zlen dst / ch) in
    copy_epoch_range_into rings frozen (a, range.2) dst =
      (segment h (a * ch) (n * ch) ++ drop (Z.to_nat (n * ch)) dst, Ok n);
}.

(** The capture worker's frozen epochs, whatever the identity of the runtime. *)
#[export] Instance worker_reads_stream w H ra rs ba bs hs f d runtime_id :
  worker_view w H ra rs ba bs hs -> frozen w = Some f ->
  desc_ring d = frozen_index f -> desc_base d = bs -> desc_channels d = worker_channels w ->
  bs + OLDEST rs <= (desc_absolute_range d).1 -> (desc_absolute_range d).1 < (desc_absolute_range d).2 ->
  (desc_absolute_range d).2 <= bs + HEAD rs ->
  ReadsStream (epochs w) (frozen_epoch_from_descriptor runtime_id d) H.
Proof.
  intros V Hf Hd1 Hd2 Hch Ho Hlt Hh. split; cbn [frozen_epoch_from_descriptor epoch_descriptor].
  - destruct (wv_frozen _ _ _ _ _ _ _ V f Hf) as (_ & _ & Hb & Hba & _). rewrite Hch.
    pose proof (oldest_le_head (quiet_inv _ _ _ (wv_standby _ _ _ _ _ _ _ V))).
    destruct (view_positions _ _ _ _ _ _ _ V) as (Hp & _). pose proof (wv_ch _ _ _ _ _ _ _ V).
    destruct (wv_head _ _ _ _ _ _ _ V) as [Hh' _]. rewrite (wv_stream _ _ _ _ _ _ _ V), Hh'.
    split; [lia|]. apply Z.mul_le_mono_nonneg_r; lia.
  - intros a dst Ha Hm Hl Hcap. rewrite Hch in *.
    exact (frozen_reads w H ra rs ba bs hs f d a _ dst V Hf Hd1 Hd2 Ho (proj1 Ha) (proj2 Ha)
             (Z.le_refl _) Hh Hm Hl Hcap).
Qed.

(** ** Loops over frames and channels *)

Section channels.
Context `{Log10}.

Lemma on_state_run {A} k (m : M DetectorState LambError A) w s s' o :
  zlookup (states w) k = Some s -> m s = (s', o) ->
  on_state k m w = (w <| states ::= fun l => zupdate l k (fun _ => s') |>, o).
Proof. intros Hk Hm. unfold on_state. by rewrite Hk, Hm. Qed.

Lemma for_range_rule (P : Z -> DetectorWorkspace -> Prop) body n from w :
  (forall i w, from <= i < from + Z.of_nat n -> P i w ->
     exists w', body i w = (w', Ok tt) /\ P (i + 1) w') ->
  P from w -> exists w', for_range n from body w = (w', Ok tt) /\ P (from + Z.of_nat n) w'.
Proof.
  revert from w. induction n as [|n IH]; intros from w Hb Hw; cbn [for_range].
  - exists w. split; [done|]. by replace (from + Z.of_nat 0) with from by lia.
  - destruct (Hb from w ltac:(lia) Hw) as (w1 & E & Hw1). rewrite (bind_run _ _ _ _ _ E).
    replace (from + Z.of_nat (S n)) with (from + 1 + Z.of_nat n) by lia.
    apply IH; [|done]. intros i w2 Hi. apply Hb. lia.
Qed.

Lemma for_each_rule {A} (P : Z -> DetectorWorkspace -> Prop) body (l : list A) from w :
  (forall i x w, from <= i -> zlookup l (i - from) = Some x -> P i w ->
     exists w', body i x w = (w', Ok tt) /\ P (i + 1) w') ->
  P from w -> exists w', for_each l from body w = (w', Ok tt) /\ P (from + zlen l) w'.
Proof.
  revert from w. induction l as [|x l IH]; intros from w Hb Hw; cbn [for_each].
  - exists w. split; [done|]. change (zlen (@nil A)) with 0. by rewrite Z.add_0_r.
  - destruct (Hb from x w ltac:(lia) ltac:(by rewrite Z.sub_diag) Hw) as (w1 & E & Hw1).
    rewrite (bind_run _ _ _ _ _ E).
    replace (from + zlen (x :: l)) with (from + 1 + zlen l) by (unfold zlen; cbn [length]; lia).
    apply IH; [|done]. intros i y w2 Hi Hy. apply Hb; [lia|].
    revert Hy. unfold zlookup. repeat decide_cmp.
    by replace (Z.to_nat (i - from)) with (S (Z.to_nat (i - (from + 1)))) by lia.
Qed.

Context (policy : ResolvedActivityPolicy) (g : WindowGeometry) (start : Z).
Hypothesis Hgeo : geometry_ok g.
Hypothesis Hstart : 0 <= start.
Abbreviation nc := (zlen (policy_channels policy)).

(** The state of every channel [k] follows the signal [xs k]. *)
Definition tracks (xs : Z -> list f32) (w : DetectorWorkspace) : Prop :=
  zlen (states w) = nc /\
  forall k config, zlookup (policy_channels policy) k = Some config ->
    exists s, zlookup (states w) k = Some s
      /\ stream_inv (Activity.detector policy) g start (finite_threshold config) (xs k) s.

(** The parts of the workspace that the samples leave alone. *)
Definition same_buffers (w w' : DetectorWorkspace) : Prop :=
  scratch w' = scratch w /\ ws_decisions w' = ws_decisions w.

Lemma tracks_ext xs ys w : (forall k, 0 <= k < nc -> xs k = ys k) -> tracks xs w -> tracks ys w.
Proof using Type.
  intros Heq [Hl Hs]. split; [done|]. intros k config Hk. rewrite <-Heq by (by eapply zlookup_Some_lt).
  by apply Hs.
Qed.

(** One channel's state moves on. *)
Lemma tracks_update xs ys w k config s' :
  tracks xs w -> zlookup (policy_channels policy) k = Some config ->
  stream_inv (Activity.detector policy) g start (finite_threshold config) (ys k) s' ->
  (forall i, i <> k -> xs i = ys i) ->
  tracks ys (w <| states ::= fun l => zupdate l k (fun _ => s') |>).
Proof using Type.
  intros [Hl Hs] Hk Hi Hne. split; [cbn; by rewrite zlen_zupdate|]. intros j config' Hj. cbn.
  destruct (decide (j = k)) as [->|Hjk].
  - assert (config' = config) as -> by congruence. destruct (Hs k config Hk) as (s & E & _).
    exists s'. by rewrite (zlookup_zupdate_eq _ _ _ _ E).
  - rewrite zlookup_zupdate_ne, <-Hne by done. by apply Hs.
Qed.

Lemma prepare_states_ok w :
  states w = map (fun _ => empty_state) (states w) -> zlen (states w) = nc ->
  exists w', prepare_states policy g start w = (w', Ok tt) /\ tracks (fun _ => []) w' /\ same_buffers w w'.
Proof using Hgeo.
  intros He Hl. unfold prepare_states.
  destruct (for_each_rule (fun i w' => zlen (states w') = nc /\ same_buffers w w'
      /\ (forall k, i <= k < nc -> zlookup (states w') k = Some empty_state)
      /\ (forall k config, k < i -> zlookup (policy_channels policy) k = Some config ->
            exists s, zlookup (states w') k = Some s
              /\ stream_inv (Activity.detector policy) g start (finite_threshold config) [] s))
    (fun channel config => on_state channel
       (modify (prepare_state (Activity.detector policy) g (finite_threshold config) start)))
    (policy_channels policy) 0 w) as (w' & E & Hw).
  - intros i config w1 Hi Hc (H1 & H2 & H3 & H4). rewrite Z.sub_0_r in Hc.
    pose proof (zlookup_Some_lt _ _ _ Hc). specialize (H3 i ltac:(lia)) as Hs.
    rewrite (on_state_run _ _ _ _ _ _ Hs (modify_run _ _)). eexists. split; [done|]. cbn.
    rewrite zlen_zupdate. split_and!; try done; try apply H2.
    + intros k ?. rewrite zlookup_zupdate_ne by lia. apply H3. lia.
    + intros k config' Hk Hc'. destruct (decide (k = i)) as [->|].
      * rewrite (zlookup_zupdate_eq _ _ _ _ Hs). eexists. split; [done|].
        assert (config' = config) as -> by congruence. by apply prepare_state_ok.
      * rewrite zlookup_zupdate_ne by done. apply H4; [lia|done].
  - split_and!; try done; [|intros k config Hk Hc; apply zlookup_Some_lt in Hc; lia].
    intros k Hk. destruct (zlookup_lt (states w) k ltac:(lia)) as [s Hs]. rewrite Hs.
    rewrite He in Hs. unfold zlookup in Hs. rewrite (proj2 (Z.leb_le 0 k)) in Hs by lia.
    rewrite list_lookup_fmap in Hs. by destruct (states w !! Z.to_nat k); inversion Hs.
  - exists w'. split; [done|]. destruct Hw as (H1 & H2 & _ & H4). split; [|done]. split; [done|].
    intros k config Hk. apply H4; [|done]. apply zlookup_Some_lt in Hk. lia.
Qed.

(** One frame appends a sample to every channel. *)
Lemma feed_frame_ok samples xs offset f w :
  tracks xs w -> 0 <= f -> 0 <= offset ->
  (forall k, 0 <= k < nc -> zlen (xs k) = offset + f) ->
  (f + 1) * nc <= zlen samples -> offset + f <= 2 ^ 62 -> start + offset + f + 1 <= u64_max ->
  exists w', feed_frame policy g start samples offset f w = (w', Ok tt)
    /\ tracks (fun k => xs k ++ channel_samples samples nc k f 1) w' /\ same_buffers w w'.
Proof using Hgeo Hstart.
  intros Hw Hf Ho Hx Hs Hn Hu. unfold feed_frame. pose proof (zlen_nonneg (policy_channels policy)).
  assert (0 <= f * nc) by (apply Z.mul_nonneg_nonneg; lia).
  set (ys := fun k => xs k ++ channel_samples samples nc k f 1).
  destruct (for_range_rule (fun j w' => tracks (fun k => if k <? j then ys k else xs k) w' /\ same_buffers w w')
    (fun channel =>
      let! value := lift (unwrap (zlookup samples (f * nc + channel))) in
      let! config := lift (unwrap (zlookup (policy_channels policy) channel)) in
      on_state channel (feed_sample (Activity.detector policy) value (wrap64 (offset + f)) start g
        (finite_threshold config))) (Z.to_nat nc) 0 w) as (w2 & E2 & Hw2 & Hb2).
  - intros j w2 Hj [Hw2 Hb2].
    destruct (zlookup_lt samples (f * nc + j) ltac:(lia)) as [x Hx1]. rewrite Hx1. cbn [unwrap]. msteps.
    destruct (zlookup_lt (policy_channels policy) j ltac:(lia)) as [config Hc]. rewrite Hc. cbn [unwrap]. msteps.
    destruct (proj2 Hw2 j config Hc) as (s & Es & Hi). rewrite Z.ltb_irrefl in Hi.
    pose proof (Hx j ltac:(lia)) as El. rewrite wrap64_small by (unfold is_u64, u64_max in *; lia). rewrite <-El.
    destruct (feed_sample_ok _ g start _ Hgeo Hstart (xs j) x s Hi) as (s' & Ef & Hi'); [lia|lia|].
    rewrite (on_state_run _ _ _ _ _ _ Es Ef). eexists. split; [done|]. split; [|done].
    apply (tracks_update _ _ _ j config s' Hw2 Hc).
    + rewrite (proj2 (Z.ltb_lt _ _)) by lia. unfold ys. cbn [channel_samples]. by rewrite Hx1.
    + intros i Hne. destruct (i <? j) eqn:E1, (i <? j + 1) eqn:E3; to_prop; try done; lia.
  - split; [|done]. eapply tracks_ext; [|exact Hw]. intros k Hk. cbn. by decide_cmp.
  - exists w2. split; [done|]. split; [|done]. eapply tracks_ext; [|exact Hw2].
    intros k Hk. cbn. by decide_cmp.
Qed.

(** Feeding a stretch of interleaved frames appends each channel's samples. *)
Lemma feed_frames_ok samples xs offset frames w :
  tracks xs w -> 0 <= offset -> 0 <= frames ->
  (forall k, 0 <= k < nc -> zlen (xs k) = offset) ->
  frames * nc <= zlen samples -> offset + frames <= 2 ^ 62 -> start + offset + frames <= u64_max ->
  exists w', feed_frames policy g start samples offset frames w = (w', Ok tt)
    /\ tracks (fun k => xs k ++ channel_samples samples nc k 0 (Z.to_nat frames)) w'
    /\ same_buffers w w'.
Proof using Hgeo Hstart.
  intros Hw Ho Hf Hx Hs Hn Hu. unfold feed_frames. pose proof (zlen_nonneg (policy_channels policy)).
  set (fed := fun m k => xs k ++ channel_samples samples nc k 0 m).
  destruct (for_range_rule (fun f w' => tracks (fed (Z.to_nat f)) w' /\ same_buffers w w')
    (feed_frame policy g start samples offset) (Z.to_nat frames) 0 w) as (w' & E & Hw' & Hb).
  - intros f w1 Hf1 [Hw1 Hb1].
    destruct (feed_frame_ok samples (fed (Z.to_nat f)) offset f w1) as (w2 & E & Hw2 & Hb2);
      try done; try lia.
    + intros k Hk. unfold fed. rewrite zlen_app, zlen_channel_samples, Hx by done. lia.
    + etrans; [|exact Hs]. apply Z.mul_le_mono_nonneg_r; lia.
    + exists w2. split; [done|]. split; [|destruct Hb1, Hb2; split; congruence].
      eapply tracks_ext; [|exact Hw2]. intros k Hk. unfold fed.
      rewrite Z2Nat.inj_add, channel_samples_app, app_assoc by lia. by rewrite Z2Nat.id, Z.add_0_l by lia.
  - split; [|done]. eapply tracks_ext; [|exact Hw]. intros k Hk. unfold fed. cbn. by rewrite app_nil_r.
  - exists w'. split; [done|]. split; [|done]. rewrite Z.add_0_l, Z2Nat.id in Hw' by done. exact Hw'.
Qed.

(** ** The decisions *)

Definition reference_decision (config : ChannelActivityPolicy) (xs : list f32) : FrozenChannelDecision :=
  let v := reference_verdict (Activity.detector policy) g start (finite_threshold config) xs in
  mkDecision (policy_mode config) v.1 (canonical_disposition (policy_mode config) v.1) v.2.

Definition reference_decisions (xs : Z -> list f32) : list FrozenChannelDecision :=
  imap (fun k config => reference_decision config (xs (Z.of_nat k))) (policy_channels policy).

Lemma zlookup_reference xs k :
  zlookup (reference_decisions xs) k =
    option_map (fun config => reference_decision config (xs k)) (zlookup (policy_channels policy) k).
Proof using Type.
  unfold zlookup, reference_decisions. destruct (0 <=? k) eqn:E; [|done]. to_prop.
  rewrite list_lookup_imap, Z2Nat.id by done. by destruct (_ !! _).
Qed.

Lemma zlen_reference xs : zlen (reference_decisions xs) = nc.
Proof using Type. unfold zlen, reference_decisions. by rewrite length_imap. Qed.

Lemma zlist_eq {A} (l l' : list A) :
  zlen l = zlen l' -> (forall k, 0 <= k < zlen l -> zlookup l k = zlookup l' k) -> l = l'.
Proof using Type.
  intros Hl Hk. apply list_eq. intros i. unfold zlen in *.
  destruct (decide (i < length l)%nat) as [Hi|Hi].
  - specialize (Hk (Z.of_nat i) ltac:(lia)). unfold zlookup in Hk.
    rewrite (proj2 (Z.leb_le 0 _)), Nat2Z.id in Hk by lia. done.
  - rewrite !lookup_ge_None_2 by lia. done.
Qed.

Lemma finish_states_ok xs w n :
  tracks xs w -> zlen (ws_decisions w) = nc ->
  (forall k, 0 <= k < nc -> zlen (xs k) = n) -> n <= 2 ^ 62 -> start + n <= u64_max ->
  exists w', finish_states policy g start w = (w', Ok tt)
    /\ ws_decisions w' = reference_decisions xs /\ scratch w' = scratch w
    /\ zlen (states w') = nc
    /\ forall k, 0 <= k < nc -> exists s, zlookup (states w') k = Some s /\ flags_ok (xs k) s.
Proof using Hgeo Hstart.
  intros [Hl Hw] Hd Hx Hn Hu. unfold finish_states.
  destruct (for_each_rule (fun i w' => zlen (states w') = nc /\ zlen (ws_decisions w') = nc
      /\ scratch w' = scratch w
      /\ (forall k, i <= k < nc -> zlookup (states w') k = zlookup (states w) k)
      /\ (forall k, 0 <= k < i -> zlookup (ws_decisions w') k = zlookup (reference_decisions xs) k
            /\ exists s, zlookup (states w') k = Some s /\ flags_ok (xs k) s))
    (fun channel config =>
      on_state channel (finish_state (Activity.detector policy) start g (finite_threshold config));;
      let! w := get in
      let! s := lift (unwrap (zlookup (states w) channel)) in
      let! _ := lift (unwrap (zlookup (ws_decisions w) channel)) in
      modify (fun w => w <| ws_decisions ::= fun l =>
        zupdate l channel (fun _ => channel_decision (policy_mode config) s) |>))
    (policy_channels policy) 0 w) as (w' & E & H1 & H2 & H3 & _ & H5).
  - intros i config w1 Hi Hc (H1 & H2 & H3 & H4 & H5). rewrite Z.sub_0_r in Hc.
    pose proof (zlookup_Some_lt _ _ _ Hc) as Hin. destruct (Hw i config Hc) as (s & Es & Hs).
    pose proof (H4 i ltac:(lia)) as Es1. rewrite Es in Es1.
    destruct (finish_state_ok _ g start _ Hgeo Hstart (xs i) s Hs) as (s' & Ef & Hv & Hfl);
      rewrite ?Hx by lia; [lia|lia|].
    rewrite (bind_run _ _ _ _ _ (on_state_run _ _ _ _ _ _ Es1 Ef)). msteps. cbn [states update].
    rewrite (zlookup_zupdate_eq _ _ _ _ Es1). cbn [unwrap]. msteps.
    destruct (zlookup_lt (ws_decisions w1) i ltac:(lia)) as [d Ed]. cbn [ws_decisions update].
    rewrite Ed. cbn [unwrap]. msteps. rewrite modify_run. eexists. split; [done|].
    cbn. rewrite !zlen_zupdate. split_and!; try done.
    + intros k ?. rewrite zlookup_zupdate_ne by lia. apply H4. lia.
    + intros k Hk. destruct (decide (k = i)) as [->|].
      * rewrite (zlookup_zupdate_eq _ _ _ _ Ed), (zlookup_zupdate_eq _ _ _ _ Es1). split; [|eauto].
        rewrite zlookup_reference, Hc. cbn. unfold reference_decision, channel_decision. by rewrite <-Hv.
      * rewrite !zlookup_zupdate_ne by done. apply H5. lia.
  - split_and!; try done. intros k ?. lia.
  - exists w'. split; [done|]. rewrite Z.add_0_l in H5. split_and!; [|done|done|].
    + apply zlist_eq; [by rewrite zlen_reference|]. intros k Hk. apply H5. lia.
    + intros k Hk. by destruct (H5 k Hk).
Qed.

(** ** Evidence lies in the signal *)

Lemma first_nonzero_bounds xs from i :
  first_nonzero xs from = Some i -> from <= i < from + zlen xs.
Proof using Type.
  revert from. induction xs as [|x xs IH]; intros from; cbn [first_nonzero]; [done|].
  unfold zlen in *. cbn [length]. destruct (is_nonzero x); [intros [= <-]; lia|].
  intros Hi%IH. lia.
Qed.

Definition evidence_in (lo hi : Z) (e : option Z) : Prop :=
  match e with Some i => lo <= i < hi | None => True end.

Lemma judge_evidence su t lo hi k a :
  evidence_in lo hi (gate_evidence k) -> lo <= start + acc_start a < hi ->
  evidence_in lo hi (gate_evidence (judge start su t k a)).
Proof using Type.
  intros Hk Ha. unfold judge.
  assert (evidence_in lo hi (Some (match gate_evidence k with
     | Some e => Z.min e (start + acc_start a) | None => start + acc_start a end))) as Hnew
    by (destruct (gate_evidence k); cbn in *; lia).
  set (e := Some _) in Hnew. fold e. clearbody e.
  destruct (is_hot t a), (is_transient t a); cbn; try done;
    destruct (gate_open k); cbn; repeat (destruct (_ : bool); cbn); done.
Qed.

Lemma fold_judge_evidence su t lo hi l k :
  evidence_in lo hi (gate_evidence k) ->
  Forall (fun a => lo <= start + acc_start a < hi) l ->
  evidence_in lo hi (gate_evidence (fold_left (judge start su t) l k)).
Proof using Type.
  intros Hk Hl. revert k Hk. induction Hl as [|a l Ha _ IH]; intros k Hk; [done|].
  cbn [fold_left]. apply IH. by apply judge_evidence.
Qed.

Lemma reference_evidence dt threshold xs :
  0 < zlen xs -> evidence_in start (start + zlen xs) (reference_verdict dt g start threshold xs).2.
Proof using Hgeo.
  intros Hn. cbn. destruct Hgeo as [G1 [G2 G3] G4]. unfold reference_gate. destruct dt; try done.
  - destruct (first_nonzero xs start) eqn:E; [|done]. cbn. by apply first_nonzero_bounds.
  - destruct threshold as [t|]; [|cbn; lia]. apply fold_judge_evidence; [done|].
    apply Forall_forall. intros a Ha. unfold signal_windows in Ha.
    apply list_elem_of_In, in_map_iff in Ha as (k & <- & Hk). apply list_elem_of_In, elem_of_seqZ in Hk.
    destruct (window_of_count xs (k * hop g) (window g)) as [_ ->]; [nia|lia|].
    destruct (div_ceil_spec (zlen xs) (hop g) ltac:(lia)). nia.
Qed.

(** ** Finalizing *)

Definition any_omitted (channels : list FrozenChannelDecision) (gate : bool) : bool :=
  forallb (fun c => bool_decide (mode c = Never)) channels || gate.

(** The start of the export: the first evidence of a retained channel less two
    seconds, when leading silence is trimmed. *)
Definition crop_start (rate : Z) (range : Z * Z) (channels : list FrozenChannelDecision)
    (trim gate : bool) : Z :=
  if trim then
    match minimum (base.omap first_evidence_frame (List.filter (fun c =>
             negb (any_omitted channels gate) && bool_decide (disposition c = Retain)) channels)) with
    | Some frame => Z.max (saturating_sub frame (2 * rate)) range.1
    | None => range.1
    end
  else range.1.

Definition force_omit (forced : bool) (c : FrozenChannelDecision) : FrozenChannelDecision :=
  if forced then c <| disposition := Omit |> else c.

Lemma minimum_in l m : minimum l = Some m -> m ∈ l.
Proof using Type.
  destruct l as [|x l]; [done|]. cbn. intros [= <-]. revert x.
  induction l as [|y l IH]; intros x; cbn; [by left|].
  destruct (proj1 (elem_of_cons _ _ _) (IH (Z.min x y))) as [->|Hl]; [|right; by right].
  destruct (Z.min_spec x y) as [[_ ->]|[_ ->]]; [left|right; left].
Qed.

Lemma crop_bounds rate range channels trim gate :
  0 <= range.1 <= range.2 -> 0 <= rate ->
  Forall (fun c => evidence_in range.1 range.2 (first_evidence_frame c)) channels ->
  range.1 <= crop_start rate range channels trim gate <= range.2.
Proof using Type.
  intros Hr Hrate Hc. unfold crop_start. destruct trim; [|lia].
  destruct (minimum _) as [frame|] eqn:E; [|lia]. apply minimum_in in E.
  apply list_elem_of_omap in E as (c & Hin & He). apply list_elem_of_In, filter_In in Hin as [Hin _].
  rewrite Forall_forall in Hc. apply list_elem_of_In in Hin. specialize (Hc c Hin).
  rewrite He in Hc. cbn in Hc. unfold saturating_sub. lia.
Qed.

Lemma existsb_false {A} (f : A -> bool) l : (forall x, x ∈ l -> f x = false) -> existsb f l = false.
Proof using Type.
  intros Hf. induction l as [|x l IH]; [done|]. cbn. rewrite Hf by left. apply IH.
  intros y Hy. apply Hf. by right.
Qed.

Lemma finalize_ok d range channels trim gate :
  valid d = false -> 0 <= range.1 <= range.2 -> zlen channels = zlen (decisions d) -> 0 <= decision_rate d ->
  Forall (fun c => disposition c = canonical_disposition (mode c) (result c)) channels ->
  Forall (fun c => evidence_in range.1 range.2 (first_evidence_frame c)) channels ->
  finalize range channels trim gate d =
    (d <| decisions := map (force_omit (any_omitted channels gate)) channels |>
       <| export_range := (crop_start (decision_rate d) range channels trim gate, range.2) |>
       <| valid := true |>, Ok tt).
Proof using Type.
  intros Hv Hr Hl Hrate Hd He. pose proof (crop_bounds (decision_rate d) range channels trim gate Hr Hrate He) as Hc.
  unfold finalize. msteps. rewrite Hv. msteps. rewrite (proj2 (Z.ltb_ge _ _)) by lia.
  rewrite Hl, Z.eqb_refl. cbn [negb orb]. msteps.
  rewrite Forall_forall in Hd, He.
  rewrite existsb_false.
  2:{ intros c Hin. by rewrite bool_decide_eq_true_2 by by apply Hd. }
  msteps. rewrite existsb_false.
  2:{ intros c Hin. specialize (He c Hin). unfold outside. destruct (first_evidence_frame c); [|done].
      cbn in He. apply orb_false_intro; [apply Z.ltb_ge|apply Z.leb_gt]; lia. }
  msteps. fold (any_omitted channels gate).
  assert ((if trim
           then Z.max (match minimum (base.omap first_evidence_frame (List.filter (fun c =>
                  negb (any_omitted channels gate) && bool_decide (disposition c = Retain)) channels)) with
                | Some frame => saturating_sub frame (2 * decision_rate d)
                | None => range.1
                end) range.1
           else range.1) = crop_start (decision_rate d) range channels trim gate) as ->
    by (unfold crop_start; destruct trim; [|done]; destruct (minimum _); [done|lia]).
  rewrite (proj2 (Z.ltb_ge _ _)) by lia. msteps. done.
Qed.

(** ** The copying loop *)

Lemma on_workspace_run {A} (m : M DetectorWorkspace LambError A) c w o :
  m (workspace c) = (w, o) -> on_workspace m c = (c <| workspace := w |>, o).
Proof using Type. intros E. unfold on_workspace. by rewrite E. Qed.
Lemma on_decision_run {A} (m : M FrozenExportDecision LambError A) c d o :
  m (decision c) = (d, o) -> on_decision m c = (c <| decision := d |>, o).
Proof using Type. intros E. unfold on_decision. by rewrite E. Qed.

Context (rings : list SampleRing) (frozen : FrozenCaptureEpoch) (h : list f32).
Context `{Hreads : !ReadsStream rings frozen h}.
Abbreviation range := (desc_absolute_range (epoch_descriptor frozen)).
Hypothesis Hch : desc_channels (epoch_descriptor frozen) = nc.
Hypothesis Hnc : 0 < nc.
Hypothesis Hfirst : range.1 = start.
Hypothesis Hlong : range.2 - start <= 2 ^ 62.

(** The scratch buffer holds whole frames, and at least one. *)
Definition scratch_ok (b : list f32) : Prop :=
  nc <= zlen b /\ zlen b mod nc = 0 /\ zlen b <= u64_max /\ range.2 + zlen b / nc <= u64_max.

(** The channels of the stream up to a frame. *)
Definition heard (cursor k : Z) : list f32 := channel_samples h nc k start (Z.to_nat (cursor - start)).

Definition loop_inv (c0 c : Classifier) (cursor : Z) : Prop :=
  start <= cursor <= range.2 /\ tracks (heard cursor) (workspace c)
  /\ decision c = decision c0 /\ zlen (scratch (workspace c)) = zlen (scratch (workspace c0))
  /\ ws_decisions (workspace c) = ws_decisions (workspace c0).

(** One read of the epoch: at least one frame, and the stream's samples. *)
Lemma read_chunk cursor b :
  scratch_ok b -> start <= cursor < range.2 ->
  exists n copied, copy_epoch_range_into rings frozen (cursor, range.2) b = (copied, Ok n)
    /\ 0 < n <= range.2 - cursor /\ n * nc <= zlen copied /\ zlen copied = zlen b
    /\ forall k, 0 <= k < nc ->
         channel_samples copied nc k 0 (Z.to_nat n) = channel_samples h nc k cursor (Z.to_nat n).
Proof using Hstart Hreads Hch Hnc Hfirst.
  intros (S1 & S2 & S3 & S4) Hlt.
  pose proof (reads_frames cursor b) as Hr. cbv zeta in Hr. rewrite Hch in Hr.
  specialize (Hr ltac:(lia) S2 S3 ltac:(lia)).
  destruct reads_range as [Hrange Hlen]. rewrite Hch in Hlen.
  set (n := Z.min (range.2 - cursor) (zlen b / nc)) in *.
  assert (1 <= zlen b / nc) by (apply Z.div_le_lower_bound; lia).
  assert (0 < n <= range.2 - cursor) as Hn by lia.
  assert (n * nc <= zlen b).
  { etrans; [apply (Z.mul_le_mono_nonneg_r n (zlen b / nc)); lia|].
    rewrite Z.mul_comm. apply Z.mul_div_le. lia. }
  assert ((cursor + n) * nc <= zlen h) as Hh by (etrans; [|exact Hlen]; apply Z.mul_le_mono_nonneg_r; lia).
  assert (0 <= cursor * nc) by (apply Z.mul_nonneg_nonneg; lia).
  assert (0 <= n * nc) by (apply Z.mul_nonneg_nonneg; lia).
  assert (zlen (segment h (cursor * nc) (n * nc) ++ drop (Z.to_nat (n * nc)) b) = zlen b) as Hcopied.
  { rewrite zlen_app, zlen_segment by lia. unfold zlen in *. rewrite length_drop. lia. }
  eexists n, _. split; [exact Hr|]. split_and!; [lia|lia|lia|done|].
  intros k Hk. apply channel_samples_segment; lia.
Qed.

Lemma classify_turn_ok c0 c cursor :
  scratch_ok (scratch (workspace c0)) -> loop_inv c0 c cursor -> cursor < range.2 ->
  exists c' next, classify_turn rings frozen policy g cursor c = (c', Ok (inl next))
    /\ loop_inv c0 c' next /\ cursor < next.
Proof using Hgeo Hstart Hreads Hch Hnc Hfirst Hlong.
  intros Hsc (Hc & Ht & Hd & Hs & Hw) Hlt. unfold classify_turn.
  rewrite (proj2 (Z.ltb_lt _ _)) by done.
  assert (scratch_ok (scratch (workspace c))) as Hsc' by (unfold scratch_ok in *; by rewrite Hs).
  destruct (read_chunk cursor _ Hsc' ltac:(lia)) as (n & copied & Hr & Hn & Hl & Hcopied & Hsame).
  set (c1 := c <| workspace ::= fun w => w <| scratch := copied |> |>).
  assert (on_scratch (copy_epoch_range_into rings frozen (cursor, range.2)) c = (c1, Ok n)) as Eon
    by (unfold on_scratch; by rewrite Hr).
  rewrite (bind_run _ _ _ _ _ Eon). rewrite (proj2 (Z.eqb_neq n 0)) by lia. msteps.
  change (scratch (workspace c1)) with copied.
  destruct Hsc as (_ & _ & _ & Hcap). pose proof (Z.div_pos (zlen (scratch (workspace c0))) nc (zlen_nonneg _) Hnc).
  rewrite Hfirst, wrap64_small by (unfold is_u64, u64_max in *; lia).
  destruct (feed_frames_ok copied (heard cursor) (cursor - start) n (workspace c1))
    as (w' & Ef & Htr & Hb1 & Hb2).
  1: exact Ht.
  1-2: lia.
  1: intros k Hk; unfold heard; rewrite zlen_channel_samples; lia.
  1-3: lia.
  rewrite (bind_run _ _ _ _ _ (on_workspace_run _ _ _ _ Ef)).
  rewrite add_checked_ok by lia. cbn [ok_or]. msteps. rewrite ret_run. eexists _, _. split; [done|].
  split; [|lia]. split; [lia|]. cbn. split_and!; [|done|rewrite Hb1; cbn; lia|by rewrite Hb2].
  eapply tracks_ext; [|exact Htr]. intros k Hk. unfold heard. cbn. rewrite Hsame by done.
  replace (Z.to_nat (cursor + n - start)) with (Z.to_nat (cursor - start) + Z.to_nat n)%nat by lia.
  rewrite channel_samples_app. do 2 f_equal. lia.
Qed.

Lemma classify_loop_ok c :
  scratch_ok (scratch (workspace c)) -> tracks (fun _ => []) (workspace c) ->
  exists c', mloop (classify_turn rings frozen policy g) start c = (c', Ok tt)
    /\ loop_inv c c' range.2.
Proof using Hgeo Hstart Hreads Hch Hnc Hfirst Hlong.
  intros Hs Ht. destruct reads_range as [Hrange _].
  destruct (mloop_rule (classify_turn rings frozen policy g) (loop_inv c)
    (fun _ cursor => range.2 - cursor) (fun c' o => o = Ok tt /\ loop_inv c c' range.2)) with (s := c) (l := start)
    as (c' & o & E & -> & Hi).
  - intros c1 cursor Hi. destruct (decide (cursor < range.2)) as [Hlt|Hge].
    + destruct (classify_turn_ok c c1 cursor Hs Hi Hlt) as (c2 & next & -> & Hi2 & Hlt2).
      destruct Hi2 as [? ?]. split; [done|]. lia.
    + pose proof Hi as [? _]. assert (cursor = range.2) as -> by lia.
      unfold classify_turn. by rewrite Z.ltb_irrefl.
  - split; [lia|]. split_and!; try done. unfold heard. by rewrite Z.sub_diag.
  - unfold u64_max. lia.
  - by exists c'.
Qed.

(** ** The whole classification *)

Definition is_silent (xs : list f32) : bool := forallb is_finite xs && negb (existsb is_nonzero xs).

Definition all_silent (xs : Z -> list f32) : bool := forallb (fun k => is_silent (xs k)) (seqZ 0 nc).

Lemma states_silent xs w :
  zlen (states w) = nc ->
  (forall k, 0 <= k < nc -> exists s, zlookup (states w) k = Some s /\ flags_ok (xs k) s) ->
  forallb (fun s => negb (non_finite s) && negb (exact_nonzero s)) (states w) = all_silent xs.
Proof using Type.
  intros Hl Hs. assert (forall k s, 0 <= k < nc -> zlookup (states w) k = Some s ->
    negb (non_finite s) && negb (exact_nonzero s) = is_silent (xs k)) as Hk.
  { intros k s Hk E. destruct (Hs k Hk) as (s' & E' & F1 & F2). assert (s' = s) as -> by congruence.
    unfold is_silent. by rewrite F1, F2, negb_involutive. }
  apply eq_true_iff_eq. unfold all_silent. rewrite !forallb_forall. split.
  - intros Hf k Hin. apply list_elem_of_In, elem_of_seqZ in Hin.
    destruct (zlookup_lt (states w) k ltac:(lia)) as [s E]. rewrite <-(Hk k s ltac:(lia) E). apply Hf.
    unfold zlookup in E. rewrite (proj2 (Z.leb_le 0 k)) in E by lia.
    apply list_elem_of_In. by eapply list_elem_of_lookup_2.
  - intros Hf s Hin. apply list_elem_of_In, list_elem_of_lookup in Hin as (i & Hi).
    pose proof (lookup_lt_Some _ _ _ Hi). assert (Z.of_nat i < nc) by (rewrite <-Hl; unfold zlen; lia).
    assert (zlookup (states w) (Z.of_nat i) = Some s) as E
      by (unfold zlookup; by rewrite (proj2 (Z.leb_le 0 _)), Nat2Z.id by lia).
    rewrite (Hk (Z.of_nat i) s ltac:(lia) E). apply Hf. apply list_elem_of_In, elem_of_seqZ. lia.
Qed.

Lemma reference_final xs :
  (forall k, 0 <= k < nc -> zlen (xs k) = range.2 - start) -> start < range.2 ->
  Forall (fun c => disposition c = canonical_disposition (mode c) (result c)) (reference_decisions xs)
  /\ Forall (fun c => evidence_in start range.2 (first_evidence_frame c)) (reference_decisions xs).
Proof using Hgeo.
  intros Hx Hlt. split; apply Forall_forall; intros c Hc; unfold reference_decisions in Hc;
    apply elem_of_lookup_imap in Hc as (i & config & -> & Hi); [done|].
  apply lookup_lt_Some in Hi.
  pose proof (reference_evidence (Activity.detector policy) (finite_threshold config) (xs (Z.of_nat i))) as He.
  rewrite Hx in He by (unfold zlen; lia). replace (start + (range.2 - start)) with range.2 in He by lia.
  apply He. lia.
Qed.

(** The decision that the reference makes for the stream [xs]. *)
Definition reference_final_decision (xs : Z -> list f32) (d : FrozenExportDecision) : FrozenExportDecision :=
  let channels := reference_decisions xs in
  let gate := whole_export_exact_zero_gate policy && all_silent xs in
  d <| decisions := map (force_omit (any_omitted channels gate)) channels |>
    <| export_range := (crop_start (decision_rate d) range channels (trim_leading_silence policy) gate, range.2) |>
    <| valid := true |> <| frozen_epoch := Some (identity frozen) |>.

Lemma classify_frozen_ok c rate :
  desc_sample_rate (epoch_descriptor frozen) = rate -> 0 < rate <= u32_max -> new_geometry rate = Ok g ->
  valid (decision c) = false -> zlen (decisions (decision c)) = nc -> decision_rate (decision c) = rate ->
  zlen (states (workspace c)) = nc -> zlen (ws_decisions (workspace c)) = nc ->
  scratch_ok (scratch (workspace c)) ->
  exists c', classify_frozen_epoch rings frozen policy c =
    (c', Ok (mkOutcome true (export_range (decision c'))))
    /\ decision c' = reference_final_decision (heard range.2) (decision c).
Proof using Hgeo Hstart Hreads Hch Hnc Hfirst Hlong.
  intros Hrate Hr0 Hg Hv Hdl Hdr Hsl Hwl Hsc. unfold classify_frozen_epoch. msteps.
  destruct reads_range as [Hrange _]. rewrite Hv. msteps. rewrite Hch, Hrate, Hdl, Hdr, !Z.eqb_refl.
  destruct Hsc as (S1 & Hsc). rewrite (proj2 (Z.ltb_ge _ _)) by lia. msteps.
  cbn [negb orb]. rewrite (proj2 (Z.eqb_neq rate 0)) by lia. msteps.
  set (c1 := c <| workspace ::= reset_workspace |>).
  assert (on_workspace (modify reset_workspace) c = (c1, Ok tt)) as E1 by done.
  rewrite (bind_run _ _ _ _ _ E1), Hg. msteps.
  assert (zlen (states (workspace c1)) = nc) as Hsl1 by (unfold c1, zlen; cbn; by rewrite length_map).
  destruct (prepare_states_ok (workspace c1)) as (w2 & E2 & Ht2 & Hb1 & Hb2); [|done|].
  { unfold c1; cbn. rewrite map_map. done. }
  rewrite Hfirst. rewrite (bind_run _ _ _ _ _ (on_workspace_run _ _ _ _ E2)).
  set (c2 := c1 <| workspace := w2 |>).
  destruct (classify_loop_ok c2) as (c3 & E3 & Hi3 & Ht3 & Hd3 & Hs3 & Hw3).
  { unfold c2; cbn. rewrite Hb1. by split. }
  { done. }
  rewrite (bind_run _ _ _ _ _ E3).
  assert (forall k, 0 <= k < nc -> zlen (heard range.2 k) = range.2 - start) as Hheard
    by (intros; unfold heard; rewrite zlen_channel_samples; lia).
  destruct (finish_states_ok (heard range.2) (workspace c3) (range.2 - start) Ht3)
    as (w4 & E4 & Hdec & _ & Hsl4 & Hfl); [|done|lia| |].
  { rewrite Hw3. unfold c2; cbn. rewrite Hb2. unfold c1, zlen; cbn. by rewrite length_map. }
  { destruct Hsc as (_ & _ & Hcap). pose proof (Z.div_pos (zlen (scratch (workspace c))) nc (zlen_nonneg _) Hnc). lia. }
  rewrite (bind_run _ _ _ _ _ (on_workspace_run _ _ _ _ E4)). msteps.
  set (c4 := c3 <| workspace := w4 |>). change (workspace c4) with w4.
  rewrite (states_silent (heard range.2) w4 Hsl4 Hfl), Hdec.
  assert (decision c4 = decision c) as Hd4 by (unfold c4; cbn; by rewrite Hd3).
  destruct (reference_final (heard range.2) Hheard ltac:(lia)) as [Hcanon Hev].
  rewrite <-Hfirst in Hev.
  rewrite (bind_run _ _ _ _ _ (on_decision_run _ c4 _ _
    (finalize_ok (decision c4) range (reference_decisions (heard range.2)) (trim_leading_silence policy) _
       ltac:(by rewrite Hd4) ltac:(lia) ltac:(by rewrite Hd4, zlen_reference, Hdl)
       ltac:(rewrite Hd4, Hdr; lia) Hcanon Hev))).
  eexists. split; [done|]. unfold reference_final_decision. by rewrite <-Hd4.
Qed.
End channels.

(** ** Properties *)

(** A classifier whose buffers fit the policy and the frozen epoch. *)
Record classifier_fits (frozen : FrozenCaptureEpoch) (policy : ResolvedActivityPolicy) (c : Classifier)
    : Prop := {
  fits_channels : desc_channels (epoch_descriptor frozen) = zlen (policy_channels policy)
    /\ 0 < zlen (policy_channels policy);
  fits_rate : desc_sample_rate (epoch_descriptor frozen) = decision_rate (decision c)
    /\ 0 < decision_rate (decision c) <= u32_max;
  fits_long : (desc_absolute_range (epoch_descriptor frozen)).2
              - (desc_absolute_range (epoch_descriptor frozen)).1 <= 2 ^ 62;
  fits_decision : valid (decision c) = false
    /\ zlen (decisions (decision c)) = zlen (policy_channels policy);
  fits_workspace : zlen (states (workspace c)) = zlen (policy_channels policy)
    /\ zlen (ws_decisions (workspace c)) = zlen (policy_channels policy);
  fits_scratch : scratch_ok policy frozen (scratch (workspace c));
}.

(** The samples of a channel in a frozen epoch of the stream [h]. *)
Definition epoch_channel (frozen : FrozenCaptureEpoch) (h : list f32) (ch k : Z) : list f32 :=
  let range := desc_absolute_range (epoch_descriptor frozen) in
  channel_samples h ch k range.1 (Z.to_nat (range.2 - range.1)).

Section properties.
Context `{Log10}.

Lemma classify_ready rings frozen h policy c g :
  ReadsStream rings frozen h -> classifier_fits frozen policy c -> new_geometry (decision_rate (decision c)) = Ok g ->
  exists c', classify_frozen_epoch rings frozen policy c =
      (c', Ok (mkOutcome true (export_range (decision c'))))
    /\ decision c' = reference_final_decision policy g
         (desc_absolute_range (epoch_descriptor frozen)).1 frozen
         (epoch_channel frozen h (zlen (policy_channels policy))) (decision c).
Proof.
  intros Hr [[Hc Hnc] [Hrate Hr0] Hlong [Hv Hd] [Hs Hw] Hsc] Hg.
  destruct (new_geometry_ok _ Hr0) as (g' & Hg' & Hgeo). assert (g' = g) as -> by congruence.
  destruct (@reads_range _ _ _ Hr) as [Hrange _].
  apply (classify_frozen_ok policy g _ Hgeo (proj1 Hrange) rings frozen h Hc Hnc eq_refl
           Hlong c _ Hrate Hr0 Hg Hv Hd eq_refl Hs Hw Hsc).
Qed.

(** A frozen epoch is classified as if it were read in one piece: whatever
    chunks its ring hands out, the classification ends without an error, and
    its decision is the reference decision on each channel's samples of the
    frozen range, with the export range cropped to the first evidence. *)
Theorem classify_frozen_exact rings frozen h policy c :
  ReadsStream rings frozen h -> classifier_fits frozen policy c ->
  let ch := zlen (policy_channels policy) in
  let range := desc_absolute_range (epoch_descriptor frozen) in
  exists g c', new_geometry (decision_rate (decision c)) = Ok g
    /\ classify_frozen_epoch rings frozen policy c =
         (c', Ok (mkOutcome true (export_range (decision c'))))
    /\ decision c' = reference_final_decision policy g range.1 frozen (epoch_channel frozen h ch) (decision c).
Proof.
  intros Hreads Hready ch range. pose proof (fits_rate _ _ _ Hready) as [_ Hr0].
  destruct (new_geometry_ok _ Hr0) as (g & Hg & _).
  destruct (classify_ready _ _ _ _ _ _ Hreads Hready Hg) as (c' & E & Ed). by exists g, c'.
Qed.

(** The decision of a channel in the final list. *)
Lemma final_lookup policy g start frozen xs d k config dec :
  zlookup (policy_channels policy) k = Some config -> policy_mode config <> Never ->
  zlookup (decisions (reference_final_decision policy g start frozen xs d)) k = Some dec ->
  dec = force_omit (whole_export_exact_zero_gate policy && all_silent policy xs)
          (reference_decision policy g start config (xs k)).
Proof.
  intros Hk Hm Hdec. cbn in Hdec.
  assert (forall A B (f : A -> B) l i, zlookup (map f l) i = option_map f (zlookup l i)) as Hmap
    by (intros A B f l i; unfold zlookup; destruct (0 <=? i); [apply list_lookup_fmap|done]).
  rewrite Hmap, zlookup_reference, Hk in Hdec. cbn in Hdec. injection Hdec as <-.
  unfold any_omitted. replace (forallb _ _) with false; [done|]. symmetry.
  apply not_true_iff_false. rewrite forallb_forall. intros Hall.
  specialize (Hall (reference_decision policy g start config (xs k))).
  rewrite bool_decide_eq_true in Hall. apply Hm, Hall.
  apply list_elem_of_In. pose proof (zlookup_reference policy g start xs k) as Hl. rewrite Hk in Hl.
  unfold zlookup in Hl. destruct (0 <=? k); [|done]. by eapply list_elem_of_lookup_2.
Qed.

Lemma judge_active su t start k a :
  gate_result k <> Inactive -> gate_result (judge start su t k a) <> Inactive.
Proof.
  intros Hk. unfold judge.
  destruct (is_hot t a); cbn; [rewrite decide_False by done|]; destruct (is_transient t a); cbn; try done;
    destruct (gate_open k); repeat (case_match; cbn); done.
Qed.

Lemma judge_hot su t start k a :
  is_hot t a = true -> gate_result (judge start su t k a) <> Inactive.
Proof.
  intros Ha. unfold judge. rewrite Ha. cbn.
  assert ((if decide (gate_result k = Inactive) then Ambiguous else gate_result k) <> Inactive) as Hr
    by by destruct (decide _).
  destruct (is_transient t a); cbn; try done; destruct (gate_open k); repeat (case_match; cbn); done.
Qed.

Lemma fold_judge_active su t start l k :
  gate_result k <> Inactive -> gate_result (fold_left (judge start su t) l k) <> Inactive.
Proof. revert k. induction l as [|a l IH]; intros k Hk; [done|]. by apply IH, judge_active. Qed.

(** An inactive verdict rules out every loud window. *)
Lemma fold_judge_inactive su t start l k :
  gate_result (fold_left (judge start su t) l k) = Inactive -> Forall (fun a => is_hot t a = false) l.
Proof.
  revert k. induction l as [|a l IH]; intros k Hf; constructor; cbn in Hf; [|by eapply IH].
  destruct (is_hot t a) eqn:E; [|done]. exfalso. revert Hf. by apply fold_judge_active, judge_hot.
Qed.

Lemma first_nonzero_none xs from : first_nonzero xs from = None -> existsb is_nonzero xs = false.
Proof.
  revert from. induction xs as [|x xs IH]; intros from; cbn; [done|].
  destruct (is_nonzero x); [done|]. apply IH.
Qed.

(** What an inactive verdict says about the signal. *)
Definition inaudible (d : ActivityDetectorKind) (g : WindowGeometry) (threshold : option f64)
    (xs : list f32) : Prop :=
  forallb is_finite xs = true
  /\ match d with
     | ExactZero => existsb is_nonzero xs = false
     | WindowedRmsPeak =>
         exists t, threshold = Some t /\ Forall (fun a => is_hot t a = false) (signal_windows g xs)
     | _ => True
     end.

Lemma reference_inactive d g start threshold xs :
  (reference_verdict d g start threshold xs).1 = Inactive -> inaudible d g threshold xs.
Proof.
  unfold reference_verdict. cbn. destruct (forallb is_finite xs) eqn:Ef; [|done].
  intros Hr. split; [done|]. destruct d; cbn in Hr; [| |done|done].
  - destruct (first_nonzero xs start) eqn:E; [done|]. by apply first_nonzero_none in E.
  - destruct threshold as [t|]; [|done]. exists t. split; [done|]. by eapply fold_judge_inactive.
Qed.

(** C34. A channel in mode [Auto] is left out of the export only when it is
    inaudible: every sample is finite, and every sample is zero for the
    exact-zero detector, or, for the windowed one, no window of the signal has
    an RMS level that reaches the closing threshold or a peak 12 dB over the
    opening one; or the whole export is silent and the policy gates it. *)
Theorem omitted_is_inaudible rings frozen h policy c c' o k config dec g :
  ReadsStream rings frozen h -> classifier_fits frozen policy c -> new_geometry (decision_rate (decision c)) = Ok g ->
  classify_frozen_epoch rings frozen policy c = (c', Ok o) ->
  zlookup (policy_channels policy) k = Some config -> policy_mode config = Auto ->
  zlookup (decisions (decision c')) k = Some dec -> disposition dec = Omit ->
  let ch := zlen (policy_channels policy) in
  inaudible (Activity.detector policy) g (finite_threshold config) (epoch_channel frozen h ch k)
  \/ whole_export_exact_zero_gate policy = true
     /\ forall j, 0 <= j < ch -> is_silent (epoch_channel frozen h ch j) = true.
Proof.
  intros Hreads Hready Hg Hrun Hk Hm Hdec Homit ch.
  destruct (classify_ready _ _ _ _ _ _ Hreads Hready Hg) as (c2 & E & Ed).
  rewrite Hrun in E. injection E as <- _. rewrite Ed in Hdec.
  apply (final_lookup _ _ _ _ _ _ _ _ _ Hk) in Hdec; [|congruence]. fold ch in Hdec.
  destruct (whole_export_exact_zero_gate policy && all_silent policy _) eqn:Egate.
  - right. apply andb_prop in Egate as [Hgate Hsil]. split; [done|]. intros j Hj.
    unfold all_silent in Hsil. rewrite forallb_forall in Hsil. apply Hsil.
    apply list_elem_of_In, elem_of_seqZ. unfold ch in *. lia.
  - left. subst dec. cbn in Homit. rewrite Hm in Homit. cbn [canonical_disposition] in Homit.
    destruct (decide _) as [Hi|]; [|done]. by apply reference_inactive in Hi.
Qed.

Lemma reads_stream_prefix rings frozen h x :
  0 < desc_channels (epoch_descriptor frozen) -> ReadsStream rings frozen (h ++ x) ->
  (desc_absolute_range (epoch_descriptor frozen)).2 * desc_channels (epoch_descriptor frozen) <= zlen h ->
  ReadsStream rings frozen h.
Proof.
  intros Hch [[Hr _] Hf] Hl. split; [done|]. intros a dst d range ch Ha Hm Hd Hcap n.
  specialize (Hf a dst Ha Hm Hd Hcap). cbv zeta in Hf. fold d range ch in Hf, Hr, Hl, Hch. fold n in Hf.
  rewrite Hf. 
  assert (0 <= zlen dst / ch) by (apply Z.div_pos; [apply zlen_nonneg|exact Hch]).
  assert (0 <= n <= range.2 - a) as Hn by (unfold n; lia).
  assert ((a + n) * ch <= range.2 * ch) by (apply Z.mul_le_mono_nonneg_r; lia).
  rewrite segment_app_l; [done| | |lia]; apply Z.mul_nonneg_nonneg; lia.
Qed.

(** C33. From the audio input to the export decision: whatever the capture worker
    accepted before a freeze and did afterwards short of releasing the epoch,
    the classification of the frozen epoch is the reference decision on the
    samples of the input stream in the frozen range. *)
Theorem frozen_epoch_classified `{Platform} w0 ops1 w1 cs w2 d ops2 w3 runtime_id policy c :
  worker_started w0 -> valid_worker_ops w0 ops1 -> run_worker_ops ops1 w0 = (w1, Ok tt) ->
  freeze cs w1 = (w2, Ok (Some d)) -> valid_worker_ops w2 ops2 ->
  Forall (fun op => spares (desc_index d) (desc_generation d) op = true) ops2 ->
  run_worker_ops ops2 w2 = (w3, Ok tt) ->
  let frozen := frozen_epoch_from_descriptor runtime_id d in
  let h := stream w0 ops1 in
  let ch := worker_channels w0 in
  classifier_fits frozen policy c ->
  exists g c', new_geometry (decision_rate (decision c)) = Ok g
    /\ classify_frozen_epoch (epochs w3) frozen policy c =
         (c', Ok (mkOutcome true (export_range (decision c'))))
    /\ decision c' = reference_final_decision policy g (desc_absolute_range d).1 frozen
         (epoch_channel frozen h ch) (decision c).
Proof.
  intros Hw Hv1 Hr1 Hf Hv2 Hs Hr2 frozen h ch Hready.
  destruct (frozen_view _ _ _ _ _ _ _ _ Hw Hv1 Hr1 Hf Hv2 Hs Hr2) as
    (x & ra & rs & ba & hs & f & V & Hfr & Hring & Hdch & Hch & Ho & Hrange & Hh & Hst & Hpos).
  fold h ch in Hst, Hdch, Hch, Hpos, V.
  assert (ReadsStream (epochs w3) frozen h) as Hreads.
  { apply (reads_stream_prefix _ _ h x); cbn; rewrite ?Hdch; [done| |lia].
    apply (worker_reads_stream w3 _ ra rs ba _ hs f d runtime_id V Hfr Hring eq_refl); lia. }
  pose proof (fits_rate _ _ _ Hready) as [_ Hr0].
  pose proof (fits_channels _ _ _ Hready) as [Hpc _]. cbn in Hpc.
  destruct (new_geometry_ok _ Hr0) as (g & Hg & _).
  destruct (classify_ready _ _ _ _ _ _ Hreads Hready Hg) as (c' & E & Ed). rewrite <-Hpc, Hdch in Ed. by exists g, c'.
Qed.

(** The classification of an interleaved buffer in memory succeeds and gives
    each channel the reference decision on its samples, so it agrees with that
    of a frozen epoch that holds the same frames. *)
Theorem classify_samples_exact samples start rate policy w :
  let ch := zlen (policy_channels policy) in
  0 < ch -> zlen samples mod ch = 0 -> zlen (states w) = ch -> zlen (ws_decisions w) = ch ->
  0 < rate <= u32_max -> 0 <= start -> start + zlen samples / ch <= u64_max -> zlen samples <= 2 ^ 62 ->
  exists g w', new_geometry rate = Ok g
    /\ classify_samples samples ch start rate policy w =
         (w', Ok (reference_decisions policy g start
                    (fun k => channel_samples samples ch k 0 (Z.to_nat (zlen samples / ch))))).
Proof.
  intros ch Hch Hm Hs Hd Hr Hstart Hcap Hlong. destruct (new_geometry_ok _ Hr) as (g & Hg & Hgeo).
  exists g. unfold classify_samples. msteps. unfold is_multiple_of. fold ch.
  rewrite (proj2 (Z.eqb_neq ch 0)), Hm, Hd, !Z.eqb_refl by lia. cbn [negb orb]. msteps. rewrite Hg. msteps.
  set (w1 := reset_workspace w).
  assert (zlen (states w1) = ch) as Hs1 by (unfold w1, zlen; cbn; by rewrite length_map).
  destruct (prepare_states_ok policy g start Hgeo w1) as (w2 & E2 & Ht2 & _ & Hb2); [|done|].
  { unfold w1; cbn. by rewrite map_map. }
  rewrite (bind_run _ _ _ _ _ E2). set (n := zlen samples / ch) in *.
  assert (0 <= n) by (apply Z.div_pos; [apply zlen_nonneg|done]).
  assert (zlen samples = n * ch) as Hn.
  { pose proof (Z.div_mod (zlen samples) ch ltac:(lia)). unfold n. lia. }
  assert (n <= zlen samples) by nia.
  destruct (feed_frames_ok policy g start Hgeo Hstart samples (fun _ => []) 0 n w2 Ht2)
    as (w3 & E3 & Ht3 & _ & Hb3); try done; try (fold ch; lia).
  rewrite (bind_run _ _ _ _ _ E3).
  destruct (finish_states_ok policy g start Hgeo Hstart _ w3 n Ht3) as (w4 & E4 & Hdec & _); try (fold ch; lia).
  { rewrite Hb3, Hb2. unfold w1, zlen; cbn. rewrite length_map. exact Hd. }
  { intros k Hk. cbn. rewrite zlen_channel_samples. lia. }
  exists w4. split; [done|]. rewrite (bind_run _ _ _ _ _ E4). unfold gets. by rewrite Hdec.
Qed.

(** ** Cropping *)

Lemma minimum_le l m x : minimum l = Some m -> x ∈ l -> m <= x.
Proof.
  destruct l as [|y l]; [done|]. cbn. intros [= <-]. revert y x. induction l as [|z l IH]; intros y x Hx; cbn.
  - apply list_elem_of_singleton in Hx as ->. done.
  - assert (fold_left Z.min l (Z.min y z) <= Z.min y z) as Hmin by (apply IH; by left).
    apply elem_of_cons in Hx as [->|Hx]; [lia|]. apply elem_of_cons in Hx as [->|Hx]; [lia|].
    apply IH. by right.
Qed.

(** Trimming never cuts into the signal: when a decision is finalized, the
    export range lies inside the frozen range, keeps its end, and starts no
    later than the first evidence of any channel that is retained, with two
    seconds of lead-in where the frozen range has them. *)
Theorem trim_keeps_evidence range channels trim gate d d' :
  0 <= range.1 -> 0 <= decision_rate d ->
  finalize range channels trim gate d = (d', Ok tt) ->
  valid d' = true /\ (export_range d').2 = range.2
  /\ range.1 <= (export_range d').1 <= range.2
  /\ forall c frame, c ∈ decisions d' -> disposition c = Retain -> first_evidence_frame c = Some frame ->
       (export_range d').1 <= Z.max range.1 (frame - 2 * decision_rate d).
Proof.
  intros H0 Hrate. unfold finalize. msteps. destruct (valid d); msteps; [done|].
  destruct ((range.2 <? range.1) || _) eqn:Eg; msteps; [done|]. apply orb_false_iff in Eg as [Eg _]. to_prop.
  destruct (existsb _ channels); msteps; [done|].
  destruct (existsb (outside range) channels); msteps; [done|].
  fold (any_omitted channels gate). set (forced := any_omitted channels gate).
  destruct (range.2 <? _) eqn:Est; msteps; [done|]. rewrite modify_run. intros [= <-]. to_prop. cbn.
  split; [done|]. split; [done|]. split; [destruct trim; lia|].
  intros c frame Hc Hret He. apply list_elem_of_fmap in Hc as (c0 & -> & Hin).
  destruct trim; [|lia]. destruct forced eqn:Ef; [by cbn in Hret|].
  destruct (minimum _) as [m|] eqn:Em.
  - apply (minimum_le _ _ frame) in Em; [unfold saturating_sub; lia|].
    apply list_elem_of_omap. exists c0. split; [|done]. apply list_elem_of_In, filter_In.
    split; [by apply list_elem_of_In|]. cbn. by apply bool_decide_eq_true.
  - lia.
Qed.
End properties.

(** ** Recycling *)

Lemma init_elements_const {S T} (x : T) i n (s : S) :
  init_elements (fun _ => ret x) i n s = (s, Ok (replicate n x)).
Proof.
  revert i. induction n as [|n IH]; intros i; [done|]. cbn [init_elements]. msteps.
  by rewrite (bind_run _ _ _ _ _ (IH (i + 1))).
Qed.

(** Resetting a finalized decision gives back the decision as it was
    allocated, and that one is accepted as compatible with it: the reset and
    [finalize] with its epoch are inverse. *)
Theorem reset_restores `{Platform} plan id d range channels trim gate d' o epoch :
  new_decision plan id = Ok d -> finalize range channels trim gate d = (d', o) ->
  reset_decision (d' <| frozen_epoch := epoch |>) = d
  /\ compatible_reset_with (reset_decision (d' <| frozen_epoch := epoch |>)) d = true.
Proof.
  unfold new_decision. intros Hn Hf. ok_steps.
  assert (exists n, x = replicate n empty_decision) as [n ->].
  { revert Hx. unfold try_from_fn. destruct (layout_array _ _ _) as [size|e|]; msteps; [|done|done].
    destruct (_ || _); [|done]. rewrite init_elements_const. cbn. intros [= <-]. by eexists. }
  assert (reset_decision (d' <| frozen_epoch := epoch |>) = d) as Hd.
  { assert (forall l : list FrozenChannelDecision, zlen l = zlen (replicate n empty_decision) ->
      map (fun _ => empty_decision) l = replicate n empty_decision) as Hmap.
    { intros l Hl. unfold zlen in Hl. rewrite length_replicate in Hl. assert (length l = n) as <- by lia.
      clear. induction l; cbn; [done|]. by f_equal. }
    revert Hf. unfold finalize. msteps. subst d. cbn [valid decisions decision_rate]. msteps.
    destruct (_ || negb _) eqn:Eg; msteps; [intros [= <- _]; unfold reset_decision; cbn; by rewrite Hmap|].
    apply orb_false_iff in Eg as [_ Eg]. to_prop.
    repeat (destruct (existsb _ _); msteps; [intros [= <- _]; unfold reset_decision; cbn; by rewrite Hmap|]).
    destruct (range.2 <? _); msteps; [intros [= <- _]; unfold reset_decision; cbn; by rewrite Hmap|].
    rewrite modify_run. intros [= <- _]. unfold reset_decision; cbn. rewrite map_map.
    by rewrite (Hmap channels Eg). }
  split; [done|]. rewrite Hd. subst d. unfold compatible_reset_with, is_reset. cbn.
  assert (forallb (fun c => bool_decide (c = empty_decision)) (replicate n empty_decision) = true) as ->.
  { apply forallb_forall. intros c Hc%list_elem_of_In. apply elem_of_replicate_inv in Hc as ->.
    by apply bool_decide_eq_true. }
  by rewrite !Z.eqb_refl.
Qed.

(** ** Concrete classifications *)

(** A coarse logarithm: one decade down below one half. *)
Definition coarse_log10 : Log10 := fun x => if SFltb x (f64_div (f64_of_Z 1) (f64_of_Z 2)) then f64_of_Z (-1) else f64_zero.

Definition demo_epoch : FrozenCaptureEpoch := frozen_epoch_from_descriptor 7 epoch1.
Definition demo_policy (threshold : Z) : ResolvedActivityPolicy :=
  mkPolicy WindowedRmsPeak [mkChannelPolicy "mic" Auto (Some (f64_of_Z threshold))] false true.
Definition demo_classifier : Classifier :=
  mkClassifier (mkWorkspace [empty_state] (map sample_of_Z [0; 0]) [empty_decision])
    (mkExportDecision [empty_decision] (0, 0) 100 false None 1).

Lemma demo_fits threshold : classifier_fits demo_epoch (demo_policy threshold) demo_classifier.
Proof. split; unfold scratch_ok; repeat split; first [reflexivity | vm_compute; discriminate]. Qed.

Lemma demo_valid : valid_worker_ops worker0 ops_before /\ valid_worker_ops worker2 ops_meanwhile.
Proof. split; valid_check. Qed.

#[export] Instance demo_reads : ReadsStream (epochs worker3) demo_epoch (stream worker0 ops_before).
Proof.
  destruct demo_valid as [Hv1 Hv2].
  destruct (frozen_view worker0 ops_before worker1 (Some 1) worker2 epoch1 ops_meanwhile worker3
      worker0_started Hv1 ltac:(run_check) ltac:(run_check) Hv2 ltac:(repeat constructor) ltac:(run_check)) as
    (x & ra & rs & ba & hs & f & V & Hfr & Hring & Hdch & Hch & Ho & Hrange & Hh & Hst & Hpos).
  apply (reads_stream_prefix _ _ _ x).
  - reflexivity.
  - apply (worker_reads_stream worker3 _ ra rs ba _ hs f epoch1 7 V Hfr Hring eq_refl); first [lia|congruence].
  - vm_compute. discriminate.
Qed.

Lemma classify_frozen_exact_witness : exists g c',
  new_geometry 100 = Ok g
  /\ @classify_frozen_epoch coarse_log10 (epochs worker3) demo_epoch (demo_policy (-40)) demo_classifier
     = (c', Ok (mkOutcome true (export_range (decision c')))).
Proof.
  destruct (@classify_frozen_exact coarse_log10 _ _ _ (demo_policy (-40)) demo_classifier demo_reads (demo_fits _))
    as (g & c' & Hg & Hc & _). exists g, c'. split; [exact Hg|exact Hc].
Defined.

Definition quiet_run := Eval vm_compute in
  (@classify_frozen_epoch coarse_log10 (epochs worker3) demo_epoch (demo_policy 100) demo_classifier).

Lemma omitted_is_inaudible_witness :
  @inaudible coarse_log10 WindowedRmsPeak (mkGeometry 2 1 10) (Some (f64_of_Z 100))
    (epoch_channel demo_epoch (stream worker0 ops_before) 1 0).
Proof.
  destruct (@omitted_is_inaudible coarse_log10 _ _ _ (demo_policy 100) demo_classifier quiet_run.1
    (mkOutcome true (1, 3)) 0 (mkChannelPolicy "mic" Auto (Some (f64_of_Z 100)))
    (mkDecision Auto Inactive Omit None) (mkGeometry 2 1 10) demo_reads (demo_fits _)) as [H|[H _]].
  - reflexivity.
  - vm_compute. reflexivity.
  - reflexivity.
  - reflexivity.
  - reflexivity.
  - reflexivity.
  - exact H.
  - discriminate H.
Defined.

Lemma frozen_epoch_classified_witness : exists g c',
  new_geometry 100 = Ok g
  /\ @classify_frozen_epoch coarse_log10 (epochs worker3) demo_epoch (demo_policy (-40)) demo_classifier
     = (c', Ok (mkOutcome true (export_range (decision c')))).
Proof.
  destruct (@frozen_epoch_classified coarse_log10 _ worker0 ops_before worker1 (Some 1) worker2 epoch1
              ops_meanwhile worker3 7 (demo_policy (-40)) demo_classifier worker0_started (proj1 demo_valid)
              ltac:(run_check) ltac:(run_check) (proj2 demo_valid) ltac:(repeat constructor) ltac:(run_check)
              (demo_fits _)) as (g & c' & Hg & Hc & _).
  exists g, c'. split; [exact Hg|exact Hc].
Defined.

Lemma classify_samples_exact_witness : exists g w',
  new_geometry 100 = Ok g
  /\ @classify_samples coarse_log10 (map sample_of_Z [0; 2; 3]) 1 5 100 (demo_policy (-40))
       (workspace demo_classifier) =
     (w', Ok (@reference_decisions coarse_log10 (demo_policy (-40)) g 5
                (fun k => channel_samples (map sample_of_Z [0; 2; 3]) 1 k 0 3))).
Proof.
  refine (@classify_samples_exact coarse_log10 (map sample_of_Z [0; 2; 3]) 5 100 (demo_policy (-40))
           (workspace demo_classifier) _ _ _ _ _ _ _ _);
    first [reflexivity | split; vm_compute; first [reflexivity | discriminate] | vm_compute; discriminate].
Defined.

Lemma trim_keeps_evidence_witness : 500 <= Z.max 0 (700 - 200).
Proof.
  destruct (trim_keeps_evidence (0, 1000) [mkDecision Auto Active Retain (Some 700)]
    true false (decision demo_classifier)
    (mkExportDecision [mkDecision Auto Active Retain (Some 700)] (500, 1000) 100 true None 1)) as (_ & _ & _ & H);
    [vm_compute; discriminate | vm_compute; discriminate | vm_compute; reflexivity |].
  exact (H (mkDecision Auto Active Retain (Some 700)) 700 (list_elem_of_here _ _) eq_refl eq_refl).
Defined.

#[local] Instance decision_platform : Platform := CalibrationTheorems.sample_platform.

(** A decision with the channels and rate of the calibration's plan. *)
Definition fresh_decision : FrozenExportDecision :=
  Eval vm_compute in match new_decision calibration_plan 9 with
                     | Ok d => d
                     | _ => decision demo_classifier
                     end.
Definition some_channels : list FrozenChannelDecision :=
  map (fun _ => mkDecision Always Active Retain (Some 3)) (decisions fresh_decision).
Definition finalized_decision : FrozenExportDecision :=
  Eval vm_compute in (finalize (0, 8) some_channels true false fresh_decision).1.

Lemma reset_restores_witness :
  valid finalized_decision = true
  /\ reset_decision (finalized_decision <| frozen_epoch := Some (mkIdentity 1 0 2) |>) = fresh_decision.
Proof.
  split; [reflexivity|].
  refine (proj1 (reset_restores calibration_plan 9 fresh_decision (0, 8) some_channels true false
                   finalized_decision (Ok tt) (Some (mkIdentity 1 0 2)) _ _)); vm_compute; reflexivity.
Defined.
