(* ===== verification/ExportPattern.v ===== *)
(** * Export patterns (src/export_policy.rs)

    A pattern is text with tokens in braces. Parsing turns it into segments,
    rendering fills the tokens in. A string is its UTF-8 bytes, so lengths are
    byte lengths; the braces are single bytes. The theorems: parsing and
    printing are inverse, and no rendering is longer than the capacity that is
    computed before anything is rendered. *)
From Stdlib Require Import Ascii.
From S2P Require Import Prelude.
From S2P Require Import Errors.
From S2P Require Import Paths.

Inductive ExportCommand := Recall | Dump.

(** ** Patterns *)

Inductive PatternToken :=
  | Timestamp | Channel | SampleRate | StartFrame | EndFrame | Part | PartSuffix | Profile.

#[export] Instance PatternToken_eq_dec : EqDecision PatternToken.
Proof. solve_decision. Defined.

(** [PatternToken::parse] *)
Definition token_parse (value : string) : option PatternToken :=
  if String.eqb value "timestamp" then Some Timestamp
  else if String.eqb value "channel" then Some Channel
  else if String.eqb value "sampleRate" then Some SampleRate
  else if String.eqb value "startFrame" then Some StartFrame
  else if String.eqb value "endFrame" then Some EndFrame
  else if String.eqb value "part" then Some Part
  else if String.eqb value "partSuffix" then Some PartSuffix
  else if String.eqb value "profile" then Some Profile
  else None.

Inductive PatternSegment :=
  | Literal (value : string)
  | Token (t : PatternToken)
  | ZeroPaddedToken (t : PatternToken) (width : Z).

Record ValidatedPattern := mkPattern { segments : list PatternSegment }.

Definition validation (message : string) : LambError := Validation message.

Definition open_brace : Ascii.ascii := "{"%char.
Definition close_brace : Ascii.ascii := "}"%char.
Definition is_brace (c : Ascii.ascii) : bool := Ascii.eqb c open_brace || Ascii.eqb c close_brace.

(** One turn of the parsing loop; its state is the remainder of the pattern from
    [cursor] on and the segments so far. *)
Definition parse_turn (x : string * list PatternSegment)
    : (string * list PatternSegment) + Result ValidatedPattern :=
  let '(remainder, segments) := x in
  if String.eqb remainder "" then inr (Ok (mkPattern segments))
  else
    match find is_brace remainder with
    | None => inr (Ok (mkPattern (segments ++ [Literal remainder])))
    | Some (before, EmptyString) => inr Panic
    | Some (before, String brace token_remainder) =>
        let segments := if String.eqb before "" then segments else segments ++ [Literal before] in
        if Ascii.eqb brace close_brace
        then inr (Err (validation "unmatched closing brace in export pattern"))
        else
          match find (Ascii.eqb close_brace) token_remainder with
          | Some (token_name, String _ rest) =>
              if contains open_brace token_name
              then inr (Err (validation "nested braces are not allowed in export patterns"))
              else
                match token_parse token_name with
                | Some token => inl (rest, segments ++ [Token token])
                | None => inr (Err (validation
                    ("unknown or empty export pattern token {" +:+ token_name +:+ "}")))
                end
          | _ => inr (Err (validation "unmatched opening brace in export pattern"))
          end
    end.

(** [ValidatedPattern::parse] *)
Definition parse (pattern : string) : Result ValidatedPattern :=
  match loop parse_turn (pattern, []) with
  | Some r => r
  | None => Panic
  end.

Definition segment_contains (wanted : PatternToken) (s : PatternSegment) : bool :=
  match s with
  | Literal _ => false
  | Token t | ZeroPaddedToken t _ => bool_decide (t = wanted)
  end.

Definition pattern_contains (p : ValidatedPattern) (wanted : PatternToken) : bool :=
  existsb (segment_contains wanted) (segments p).

Definition zero_padded (widths : list (PatternToken * Z)) (s : PatternSegment) : PatternSegment :=
  match s with
  | Token t =>
      match List.find (fun w => bool_decide (w.1 = t)) widths with
      | Some (_, width) => ZeroPaddedToken t width
      | None => s
      end
  | _ => s
  end.

Definition with_zero_padding (widths : list (PatternToken * Z)) (p : ValidatedPattern) : ValidatedPattern :=
  mkPattern (map (zero_padded widths) (segments p)).

(** ** Rendering *)

Record RenderContext := mkContext {
  command : ExportCommand;
  profile : string;
  timestamp : string;
  rc_sample_rate : Z;
  export_start_frame : Z;
  export_end_frame : Z;
  rc_split_when_over_bytes : Z;
  rc_maximum_path_bytes : Z;
}.

Fixpoint zeros (n : nat) : string := match n with O => EmptyString | S n' => String "0"%char (zeros n') end.

(** [{value}] and [{value:0width$}] of an unsigned integer. *)
Definition decimal (value : Z) : string := pretty value.
Definition padded (value width : Z) : string :=
  zeros (Z.to_nat (width - slen (decimal value))) +:+ decimal value.

(** The widest text of a token, as far as the context fixes it. *)
Definition token_bytes (t : PatternToken) (context : RenderContext) (channel : string) : Z :=
  match t with
  | Timestamp => slen (timestamp context)
  | Channel => slen channel
  | SampleRate => 10
  | StartFrame | EndFrame | Part => 20
  | PartSuffix => 25
  | Profile => slen (profile context)
  end.

Definition segment_bytes (context : RenderContext) (channel : string) (s : PatternSegment) : Z :=
  match s with
  | Literal value => slen value
  | Token t => token_bytes t context channel
  | ZeroPaddedToken t width => Z.max (token_bytes t context channel) width
  end.

Fixpoint add_segment_bytes (context : RenderContext) (channel : string) (l : list PatternSegment)
    (length : Z) : Result Z :=
  match l with
  | [] => Ok length
  | s :: l' =>
      let? length := ok_or (add_checked length (segment_bytes context channel s))
                       (validation "export pattern capacity overflow") in
      add_segment_bytes context channel l' length
  end.

Definition maximum_rendered_bytes (p : ValidatedPattern) (context : RenderContext) (channel : string)
    : Result Z := add_segment_bytes context channel (segments p) 0.

(** The text written so far is the state; writing to a [String] cannot fail. *)
Abbreviation SW := (M string LambError).
Definition write_str (s : string) : SW unit := modify (fun output => output +:+ s).

Section rendering.
Context (context : RenderContext) (channel : string) (part : Z) (part_suffix : string)
  (start_frame end_frame : Z).

Definition render_segment (s : PatternSegment) : SW unit :=
  match s with
  | Literal value => write_str value
  | Token Timestamp => write_str (timestamp context)
  | Token Channel => write_str channel
  | Token SampleRate => write_str (decimal (rc_sample_rate context))
  | Token StartFrame => write_str (decimal start_frame)
  | Token EndFrame => write_str (decimal end_frame)
  | Token Part => write_str (decimal part)
  | Token PartSuffix => write_str part_suffix
  | Token Profile => write_str (profile context)
  | ZeroPaddedToken StartFrame width => write_str (padded start_frame width)
  | ZeroPaddedToken EndFrame width => write_str (padded end_frame width)
  | ZeroPaddedToken Part width => write_str (padded part width)
  | ZeroPaddedToken _ _ => fail (validation "unsupported zero-padded export token")
  end.

Fixpoint render_segments (l : list PatternSegment) : SW unit :=
  match l with
  | [] => ret tt
  | s :: l' => render_segment s;; render_segments l'
  end.

Definition render_output_to (p : ValidatedPattern) : SW unit := render_segments (segments p).

Definition render_output_into (p : ValidatedPattern) : SW unit :=
  modify (fun _ => EmptyString);;
  render_output_to p.
End rendering.

(** ** Printing *)

Definition token_name (t : PatternToken) : string :=
  match t with
  | Timestamp => "timestamp" | Channel => "channel" | SampleRate => "sampleRate"
  | StartFrame => "startFrame" | EndFrame => "endFrame" | Part => "part"
  | PartSuffix => "partSuffix" | Profile => "profile"
  end.

(** The text of a pattern; padding has no text. *)
Definition print_segment (s : PatternSegment) : string :=
  match s with
  | Literal value => value
  | Token t | ZeroPaddedToken t _ => String open_brace (token_name t +:+ String close_brace "")
  end.

Fixpoint print (l : list PatternSegment) : string :=
  match l with
  | [] => ""
  | s :: l' => print_segment s +:+ print l'
  end.

(** The patterns that have a text: literals are not empty, hold no brace, and do
    not follow each other. *)
Fixpoint canonical (after_literal : bool) (l : list PatternSegment) : bool :=
  match l with
  | [] => true
  | Literal v :: l' =>
      negb after_literal && negb (String.eqb v "") && free_of is_brace v && canonical true l'
  | Token _ :: l' => canonical false l'
  | ZeroPaddedToken _ _ :: _ => false
  end.

Lemma print_app l l' : print (l ++ l') = print l +:+ print l'.
Proof. induction l as [|s l IH]; cbn; [done|]. by rewrite IH, string_app_assoc. Qed.

Lemma token_parse_name t : token_parse (token_name t) = Some t.
Proof. by destruct t. Qed.

Lemma token_parse_inv s t : token_parse s = Some t -> s = token_name t.
Proof.
  unfold token_parse.
  repeat (destruct (String.eqb s _) eqn:E; [apply String.eqb_eq in E as ->; by intros [= <-]|clear E]).
  done.
Qed.

Lemma token_name_free t : free_of is_brace (token_name t) = true.
Proof. by destruct t. Qed.

Definition ends_open (l : list PatternSegment) : bool :=
  match last l with Some (Literal _) => true | _ => false end.

Lemma canonical_snoc b l s :
  canonical b (l ++ [s]) =
    canonical b l && canonical (match l with [] => b | _ => ends_open l end) [s].
Proof.
  revert b. induction l as [|x l IH]; intros b; [done|].
  assert (match l with [] => ends_open [x] | _ :: _ => ends_open l end = ends_open (x :: l)) as He
    by (unfold ends_open; by destruct l).
  cbn [app canonical]. destruct x as [v|t|t w]; [| |done]; rewrite IH.
  - rewrite !andb_assoc. destruct l; [|done]. cbn. by rewrite !andb_true_r.
  - destruct l; [done|]. done.
Qed.

(** ** Parsing *)

Section parsing.
Context (pattern : string).

(** What the loop has read: whole tokens, with the literals before them. *)
Definition read_ok (x : string * list PatternSegment) : Prop :=
  canonical false x.2 = true /\ ends_open x.2 = false /\ print x.2 +:+ x.1 = pattern.

Lemma read_literal segs v rest :
  read_ok (v +:+ rest, segs) -> String.eqb v "" = false -> free_of is_brace v = true ->
  canonical false (segs ++ [Literal v]) = true
  /\ print (segs ++ [Literal v]) +:+ rest = pattern.
Proof using Type.
  intros (Hc & Ho & Hp) Hv Hf. cbn in Hc, Ho, Hp. split.
  - rewrite canonical_snoc, Hc. cbn. rewrite Hv, Hf.
    destruct segs; [done|]. by rewrite Ho.
  - rewrite print_app, string_app_assoc. cbn. by rewrite string_app_nil.
Qed.

Lemma canonical_token b l t : canonical b (l ++ [Token t]) = canonical b l.
Proof using Type. rewrite canonical_snoc. cbn. by rewrite andb_true_r. Qed.

Lemma parse_turn_ok x :
  read_ok x ->
  match parse_turn x with
  | inl y => read_ok y /\ 0 <= slen y.1 < slen x.1
  | inr (Ok p) => canonical false (segments p) = true /\ print (segments p) = pattern
  | inr (Err _) => True
  | inr Panic => False
  end.
Proof using Type.
  destruct x as [rem segs]. intros Hx. unfold parse_turn.
  destruct (String.eqb rem "") eqn:Er.
  { apply String.eqb_eq in Er as ->. destruct Hx as (Hc & _ & Hp). cbn in *.
    by rewrite string_app_nil in Hp. }
  destruct (find is_brace rem) as [[before after]|] eqn:Ef.
  2:{ apply find_None in Ef. destruct (read_literal segs rem "") as [H1 H2]; try done.
      { by rewrite string_app_nil. }
      by rewrite string_app_nil in H2. }
  apply find_Some in Ef as (-> & Hfree & brace & tr & -> & Hbrace).
  destruct (Ascii.eqb brace close_brace) eqn:Eb; [done|].
  unfold is_brace in Hbrace. rewrite Eb, orb_false_r in Hbrace. apply Ascii.eqb_eq in Hbrace as ->.
  destruct (find (Ascii.eqb close_brace) tr) as [[name after]|] eqn:Ec; [|done].
  apply find_Some in Ec as (-> & Hname & c & rest & -> & Hc). apply Ascii.eqb_eq in Hc as <-.
  destruct (contains open_brace name); [done|].
  destruct (token_parse name) as [t|] eqn:Et; [|done]. apply token_parse_inv in Et as ->.
  split; [|cbn [fst]; rewrite slen_app, slen_cons, slen_app, slen_cons; unfold slen; lia].
  assert (forall segs', canonical false segs' = true ->
    print segs' +:+ String open_brace (token_name t +:+ String close_brace rest) = pattern ->
    read_ok (rest, segs' ++ [Token t])) as Hdone.
  { intros segs' Hc' Hp. split; [cbn; by rewrite canonical_token|]. split.
    - unfold ends_open. cbn [snd]. by rewrite last_snoc.
    - cbn. rewrite print_app, string_app_assoc, <-Hp. f_equal. cbn. rewrite string_app_nil.
      rewrite string_cons_app, string_app_assoc. done. }
  destruct (String.eqb before "") eqn:Ebe.
  - apply String.eqb_eq in Ebe as ->. destruct Hx as (Hcs & _ & Hp). by apply Hdone.
  - destruct (read_literal segs before _ Hx Ebe Hfree) as [H1 H2]. by apply Hdone.
Qed.

(** What is left to read: the text of the segments to come. *)
Definition to_read (l : list PatternSegment) (x : string * list PatternSegment) : Prop :=
  exists rest, x.2 ++ rest = l /\ canonical (ends_open x.2) rest = true /\ ends_open x.2 = false
    /\ print rest = x.1.

Lemma print_token t l : print (Token t :: l) = String open_brace (token_name t +:+ String close_brace (print l)).
Proof using Type. cbn. by rewrite string_cons_app, string_app_assoc. Qed.

Lemma parse_turn_token segs t rest :
  ends_open segs = false ->
  parse_turn (print (Token t :: rest), segs) = inl (print rest, segs ++ [Token t]).
Proof using Type.
  intros _. rewrite print_token. unfold parse_turn.
  change (find is_brace (String open_brace _)) with (Some ("", String open_brace (token_name t +:+ String close_brace (print rest)))).
  cbn [String.eqb]. rewrite find_app; [| |by apply Ascii.eqb_refl].
  - change (Ascii.eqb open_brace close_brace) with false. cbn.
    assert (contains open_brace (token_name t) = false) as -> by by destruct t.
    by rewrite token_parse_name.
  - by destruct t.
Qed.

Lemma parse_turn_literal segs v t rest :
  String.eqb v "" = false -> free_of is_brace v = true ->
  parse_turn (v +:+ print (Token t :: rest), segs) =
    inl (print rest, (segs ++ [Literal v]) ++ [Token t]).
Proof using Type.
  intros Hv Hf. rewrite print_token. unfold parse_turn.
  rewrite find_app by done.
  assert (String.eqb (v +:+ String open_brace (token_name t +:+ String close_brace (print rest))) "" = false) as ->
    by by destruct v.
  rewrite Hv. change (Ascii.eqb open_brace close_brace) with false. cbn match.
  rewrite find_app; [| |by apply Ascii.eqb_refl].
  - assert (contains open_brace (token_name t) = false) as -> by by destruct t.
    by rewrite token_parse_name.
  - by destruct t.
Qed.

Lemma parse_turn_reads l x :
  to_read l x ->
  match parse_turn x with
  | inl y => to_read l y /\ 0 <= slen y.1 < slen x.1
  | inr r => r = Ok (mkPattern l)
  end.
Proof using Type.
  destruct x as [rem segs]. intros (rest & El & Hc & Ho & Er). cbn [fst snd] in *. subst l rem. rewrite Ho in Hc.
  assert (forall segs' t r, canonical false r = true ->
    to_read (segs' ++ Token t :: r) (print r, segs' ++ [Token t])) as Hnext.
  { intros segs' t r Hr. exists r. cbn. unfold ends_open. rewrite last_snoc, <-app_assoc. done. }
  destruct rest as [|[v|t|t w] rest]; cbn in Hc; [|  | |done].
  { rewrite app_nil_r. exact eq_refl. }
  - rewrite !andb_true_iff in Hc. destruct Hc as [[Hv Hf] Hc]. apply negb_true_iff in Hv.
    destruct rest as [|[v'|t|t w] rest]; cbn in Hc; [|done| |done].
    + cbn [print print_segment]. rewrite string_app_nil. unfold parse_turn.
      by rewrite Hv, (find_free _ _ Hf).
    + change (print (Literal v :: Token t :: rest)) with (v +:+ print (Token t :: rest)).
      rewrite parse_turn_literal by done. split.
      * specialize (Hnext (segs ++ [Literal v]) t rest Hc). by rewrite <-app_assoc in Hnext.
      * cbn [fst]. rewrite print_token, slen_app, slen_cons, slen_app, slen_cons. unfold slen. lia.
  - rewrite parse_turn_token by done. split; [by apply Hnext|].
    cbn [fst]. rewrite print_token, slen_cons, slen_app, slen_cons. unfold slen. lia.
Qed.
End parsing.

(** C26. Parsing and printing are inverse on the patterns that have a text: a
    pattern that is accepted is canonical and prints as the text it was parsed
    from, every canonical pattern is what its text parses to, and parsing any
    text ends with a pattern or an error. *)
Theorem pattern_roundtrip :
  (forall text p, slen text <= u64_max -> parse text = Ok p ->
     canonical false (segments p) = true /\ print (segments p) = text)
  /\ (forall p, canonical false (segments p) = true -> slen (print (segments p)) <= u64_max ->
        parse (print (segments p)) = Ok p)
  /\ (forall text, slen text <= u64_max -> parse text <> Panic).
Proof.
  assert (forall text, slen text <= u64_max ->
    match parse text with
    | Ok p => canonical false (segments p) = true /\ print (segments p) = text
    | Err _ => True
    | Panic => False
    end) as Hparse.
  { intros text Hl. unfold parse.
    destruct (loop_rule parse_turn (read_ok text) (fun x => slen x.1) (fun r => match r with
      | Ok p => canonical false (segments p) = true /\ print (segments p) = text
      | Err _ => True | Panic => False end)) with (s := (text, @nil PatternSegment))
      as (r & -> & Hr); [|by split|done|done].
    intros x Hx. pose proof (parse_turn_ok text x Hx). by destruct (parse_turn x) as [|[]]. }
  split_and!.
  - intros text p Hl Hp. specialize (Hparse text Hl). by rewrite Hp in Hparse.
  - intros [l] Hc Hl. unfold parse. cbn [segments] in *.
    destruct (loop_rule parse_turn (to_read l) (fun x => slen x.1) (fun r => r = Ok (mkPattern l)))
      with (s := (print l, @nil PatternSegment)) as (r & -> & ->); [|by exists l|done|done].
    intros x Hx. by apply parse_turn_reads.
  - intros text Hl E. specialize (Hparse text Hl). by rewrite E in Hparse.
Qed.

(** ** Rendered lengths *)

Lemma pretty_N_go_length n x s :
  (x < 10 ^ N.of_nat n)%N -> (String.length (pretty_N_go x s) <= n + String.length s)%nat.
Proof.
  revert x s. induction n as [|n IH]; intros x s Hx.
  { assert (x = 0)%N as -> by (cbn in Hx; lia). by rewrite pretty_N_go_0. }
  destruct (decide (x = 0)%N) as [->|Hne]; [rewrite pretty_N_go_0; lia|].
  rewrite pretty_N_go_step by lia. etrans; [apply IH|cbn; lia].
  rewrite Nat2N.inj_succ, N.pow_succ_r' in Hx. apply N.Div0.div_lt_upper_bound. lia.
Qed.

(** [{value}] has no more digits than the width of the type allows. *)
Lemma decimal_length n value :
  (0 < n)%nat -> 0 <= value < 10 ^ Z.of_nat n -> slen (decimal value) <= Z.of_nat n.
Proof.
  intros Hn Hv. unfold decimal. destruct value as [|p|p]; [change (1 <= Z.of_nat n); lia| |lia].
  change (slen (pretty_N_go (N.pos p) "") <= Z.of_nat n). unfold slen.
  pose proof (pretty_N_go_length n (N.pos p) "") as H. cbn [String.length] in H.
  assert (N.pos p < 10 ^ N.of_nat n)%N as Hp; [|specialize (H Hp); lia].
  apply N2Z.inj_lt. rewrite N2Z.inj_pow, nat_N_Z. cbn. lia.
Qed.

Lemma slen_zeros n : slen (zeros n) = Z.of_nat n.
Proof. induction n as [|n IH]; [done|]. cbn [zeros]. rewrite slen_cons, IH. lia. Qed.

(** [{value:0width$}] is as wide as the wider of the two. *)
Lemma slen_padded value width : slen (padded value width) = Z.max (slen (decimal value)) width.
Proof. unfold padded. pose proof (slen_nonneg (decimal value)). rewrite slen_app, slen_zeros. lia. Qed.

Section rendered.
Context (context : RenderContext) (channel : string) (part : Z) (part_suffix : string)
  (start_frame end_frame : Z).

(** The text of a segment; [None] where a padded token has none. *)
Definition segment_text (s : PatternSegment) : option string :=
  match s with
  | Literal value => Some value
  | Token Timestamp => Some (timestamp context)
  | Token Channel => Some channel
  | Token SampleRate => Some (decimal (rc_sample_rate context))
  | Token StartFrame => Some (decimal start_frame)
  | Token EndFrame => Some (decimal end_frame)
  | Token Part => Some (decimal part)
  | Token PartSuffix => Some part_suffix
  | Token Profile => Some (profile context)
  | ZeroPaddedToken StartFrame width => Some (padded start_frame width)
  | ZeroPaddedToken EndFrame width => Some (padded end_frame width)
  | ZeroPaddedToken Part width => Some (padded part width)
  | ZeroPaddedToken _ _ => None
  end.

Fixpoint segments_text (l : list PatternSegment) : option string :=
  match l with
  | [] => Some ""
  | s :: l' =>
      match segment_text s, segments_text l' with
      | Some a, Some b => Some (a +:+ b)
      | _, _ => None
      end
  end.

Let render := render_segments context channel part part_suffix start_frame end_frame.

(** Rendering appends the text, or stops at the first segment without one. *)
Lemma render_segments_spec l output :
  match segments_text l with
  | Some text => render l output = (output +:+ text, Ok tt)
  | None => exists output', render l output = (output', Err (validation "unsupported zero-padded export token"))
  end.
Proof using Type.
  revert output. induction l as [|s l IH]; intros output; cbn [segments_text].
  { by rewrite string_app_nil. }
  assert (render_segment context channel part part_suffix start_frame end_frame s output =
    match segment_text s with
    | Some a => (output +:+ a, Ok tt)
    | None => (output, Err (validation "unsupported zero-padded export token"))
    end) as Hs by (destruct s as [v|[]|[] w]; done).
  unfold render. cbn [render_segments].
  destruct (segment_text s) as [a|]; rewrite (bind_run _ _ _ _ _ Hs); [|by eauto].
  specialize (IH (output +:+ a)). destruct (segments_text l) as [b|]; [|done]. unfold render in IH.
  by rewrite IH, string_app_assoc.
Qed.

Context (part_ok : is_u64 part) (start_ok : is_u64 start_frame) (end_ok : is_u64 end_frame)
  (rate_ok : is_u32 (rc_sample_rate context)) (suffix_ok : slen part_suffix <= 25).

Lemma segment_text_bound s text :
  segment_text s = Some text -> slen text <= segment_bytes context channel s.
Proof using part_ok start_ok end_ok rate_ok suffix_ok.
  unfold is_u64, is_u32, u64_max, u32_max in *.
  assert (forall v, 0 <= v <= 2 ^ 64 - 1 -> slen (decimal v) <= 20) as H20
    by (intros v Hv; apply (decimal_length 20); lia).
  assert (slen (decimal (rc_sample_rate context)) <= 10) as H10 by (apply (decimal_length 10); lia).
  destruct s as [v|[]|[] w]; cbn; intros [= <-]; rewrite ?slen_padded; auto; try lia;
    (apply Z.max_le_compat; [by apply H20|done]).
Qed.

(** The loop of [maximum_rendered_bytes] adds the widest texts up. *)
Lemma add_segment_bytes_bound l length m text :
  add_segment_bytes context channel l length = Ok m -> segments_text l = Some text ->
  length + slen text <= m.
Proof using part_ok start_ok end_ok rate_ok suffix_ok.
  revert length text. induction l as [|s l IH]; cbn; intros length text.
  { intros [= ->] [= <-]. change (slen "") with 0. lia. }
  destruct (add_checked length _) as [length'|] eqn:Ea; [|done]. apply add_checked_inv in Ea as [-> _].
  cbn. intros Hm. destruct (segment_text s) as [a|] eqn:Es; [|done].
  destruct (segments_text l) as [b|] eqn:El; [|done]. intros [= <-].
  apply segment_text_bound in Es. specialize (IH _ _ Hm eq_refl). rewrite slen_app. lia.
Qed.
End rendered.

(** Rendering either appends to the cleared output exactly the texts of the
    segments, and then the output is no longer than the capacity that
    [maximum_rendered_bytes] computes without rendering, or reports the one
    kind of padded token that has no text. It never panics. *)
Theorem render_within_capacity p context channel part part_suffix start_frame end_frame output m :
  is_u64 part -> is_u64 start_frame -> is_u64 end_frame -> is_u32 (rc_sample_rate context) ->
  slen part_suffix <= 25 ->
  maximum_rendered_bytes p context channel = Ok m ->
  match segments_text context channel part part_suffix start_frame end_frame (segments p) with
  | Some text =>
      render_output_into context channel part part_suffix start_frame end_frame p output = (text, Ok tt)
      /\ slen text <= m
  | None => exists output',
      render_output_into context channel part part_suffix start_frame end_frame p output =
        (output', Err (validation "unsupported zero-padded export token"))
  end.
Proof.
  intros Hp Hs He Hr Hx Hm. unfold render_output_into, render_output_to. rewrite bind_modify.
  pose proof (render_segments_spec context channel part part_suffix start_frame end_frame (segments p) "") as H.
  destruct (segments_text _ _ _ _ _ _ _) as [text|] eqn:Et; [|done]. split; [by rewrite H|].
  by apply (add_segment_bytes_bound context channel part part_suffix start_frame end_frame Hp Hs He Hr Hx _ 0 _ _ Hm) in Et.
Qed.

Lemma render_within_capacity_witness :
  let p := mkPattern [Literal "lamb-"; Token Timestamp; ZeroPaddedToken StartFrame 9; Token PartSuffix] in
  let c := mkContext Recall "studio" "20260101" 48000 0 480 1000 255 in
  maximum_rendered_bytes p c "left" = Ok 58 /\
  match segments_text c "left" 1 "-part001" 7 480 (segments p) with
  | Some text =>
      render_output_into c "left" 1 "-part001" 7 480 p "old" = (text, Ok tt) /\ slen text <= 58
  | None => exists output',
      render_output_into c "left" 1 "-part001" 7 480 p "old" =
        (output', Err (validation "unsupported zero-padded export token"))
  end.
Proof.
  intros p c. split; [reflexivity|].
  apply (render_within_capacity p c "left" 1 "-part001" 7 480 "old" 58);
    try (unfold is_u64, is_u32, u64_max, u32_max, c, slen; cbn; lia). reflexivity.
Defined.
