(* ===== verification/ExportPaths.v ===== *)
(** * Export paths (src/export_policy.rs)

    Layouts, the resolved export policy and [preview_export_paths], which names
    every file of an export before anything is written. A path is the string of
    its bytes; its components are those of [std::path] on Unix. The theorems:
    the previewed files lie under the output directory, no two of them can
    collide, they cover the frames of the export, and the checks made before
    rendering keep every rendered path within the maximum path length, so that
    the final check is left to refuse the unsafe names of custom patterns. *)
From Stdlib Require Import Ascii.
From S2P Require Import Prelude.
From S2P Require Import Errors.
From S2P Require Import Paths.
From S2P Require Import WavMath.
From S2P Require Import Activity.
From S2P Require Import ExportPattern.

(** ** Layouts and policies *)

Inductive ResolvedLayout :=
  | CommandDefault
  | FlatDetailed
  | TimestampDirectory
  | Custom (directory_pattern filename_pattern : ValidatedPattern).

Inductive PublicationStrategy := FileSet | AtomicDirectory.

Inductive EffectiveLayout := EffectiveFlatDetailed | EffectiveTimestampDirectory | EffectiveCustom.

Definition effective_layout (l : ResolvedLayout) (command : ExportCommand) : EffectiveLayout :=
  match l with
  | CommandDefault =>
      match command with
      | Recall => EffectiveFlatDetailed
      | Dump => EffectiveTimestampDirectory
      end
  | FlatDetailed => EffectiveFlatDetailed
  | TimestampDirectory => EffectiveTimestampDirectory
  | Custom _ _ => EffectiveCustom
  end.

Definition publication_strategy (l : ResolvedLayout) (command : ExportCommand) : PublicationStrategy :=
  match effective_layout l command with
  | EffectiveTimestampDirectory => AtomicDirectory
  | EffectiveFlatDetailed | EffectiveCustom => FileSet
  end.

Definition patterns_for_layout (l : ResolvedLayout) (command : ExportCommand)
    : Result (ValidatedPattern * ValidatedPattern) :=
  match effective_layout l command with
  | EffectiveFlatDetailed =>
      let? directory := parse "" in
      let? filename :=
        parse "lamb-{timestamp}-{channel}-{sampleRate}Hz-{startFrame}-{endFrame}-part{part}.wav" in
      Ok (directory, with_zero_padding [(StartFrame, 9); (EndFrame, 9); (Part, 3)] filename)
  | EffectiveTimestampDirectory =>
      let? directory := parse "{timestamp}" in
      let? filename := parse "{channel}{partSuffix}.wav" in
      Ok (directory, filename)
  | EffectiveCustom =>
      match l with
      | Custom directory_pattern filename_pattern => Ok (directory_pattern, filename_pattern)
      | _ => Err (validation "custom layout resolution is inconsistent")
      end
  end.

Record ResolvedPatternSet := mkPatternSet {
  recall_directory : ValidatedPattern;
  recall_filename : ValidatedPattern;
  dump_directory : ValidatedPattern;
  dump_filename : ValidatedPattern;
}.

Record ResolvedExportPolicy := mkExportPolicy {
  output_dir : string;
  use_system_temp : bool;
  layout : ResolvedLayout;
  activity : ResolvedActivityPolicy;
  pattern_set : ResolvedPatternSet;
}.

Definition patterns (p : ResolvedExportPolicy) (command : ExportCommand)
    : ValidatedPattern * ValidatedPattern :=
  match command with
  | Recall => (recall_directory (pattern_set p), recall_filename (pattern_set p))
  | Dump => (dump_directory (pattern_set p), dump_filename (pattern_set p))
  end.

(** ** Validation *)

(** [if b { return Err(e) }] *)
Definition err_if (b : bool) (e : LambError) : Result unit := if b then Err e else Ok tt.

Definition dot_part (part : string) : bool := String.eqb part "." || String.eqb part "..".

Definition validate_output_dir (path : string) : Result unit :=
  let? _ := err_if (negb (is_absolute path)) (validation "export outputDir must be absolute") in
  let? text := ok_or (to_str path) (validation "export outputDir must be valid UTF-8") in
  let? _ := err_if (contains nul text || double_slash text || ((1 <? slen text) && ends_slash text)
                    || existsb dot_part (split_slash text))
              (validation "export outputDir must be lexically canonical") in
  err_if (existsb (fun c => match c with CurDir | ParentDir => true | _ => false end) (components path))
    (validation "export outputDir must be lexically canonical").

Definition validate_rendered_directory (directory : string) : Result unit :=
  if String.eqb directory "" then Ok tt
  else
    let? _ := err_if (contains nul directory || contains backslash directory || starts_slash directory
                      || ends_slash directory || double_slash directory)
                (validation "rendered export directory is not a safe relative path") in
    err_if (existsb (fun part => String.eqb part "" || dot_part part) (split_slash directory))
      (validation "rendered export directory contains an unsafe component").

(** Not one normal component. *)
Definition unsafe_component (value : string) : bool :=
  String.eqb value "" || dot_part value || contains slash value || contains backslash value
  || contains nul value.

Definition validate_filename (filename : string) : Result unit :=
  err_if (unsafe_component filename)
    (validation "rendered export filename must be one nonempty normal component").

Definition validate_component_value (value label : string) : Result unit :=
  err_if (unsafe_component value) (validation ("unsafe export " +:+ label +:+ " value")).

Definition path_bytes (path : string) : Result Z :=
  let? text := ok_or (to_str path) (validation "rendered export path must be valid UTF-8") in
  ok_or (checked u64_max (slen text)) (validation "rendered export path length overflow").

Definition validate_final_path (output_dir final_path : string) (maximum_bytes : Z) : Result unit :=
  let? _ := err_if (negb (path_starts_with final_path output_dir))
              (validation "rendered export path escapes outputDir") in
  let? length := path_bytes final_path in
  err_if (maximum_bytes <? length)
    (validation ("rendered export path requires " +:+ decimal length
                 +:+ " bytes, exceeding maximumPathBytes " +:+ decimal maximum_bytes)).

Definition validate_rendered_output_path (output_dir directory filename final_path : string)
    (maximum_bytes : Z) : Result unit :=
  let? _ := validate_rendered_directory directory in
  let? _ := validate_filename filename in
  validate_final_path output_dir final_path maximum_bytes.

Definition validate_context_values (directory_pattern filename_pattern : ValidatedPattern)
    (context : RenderContext) : Result unit :=
  let check token value label :=
    if pattern_contains directory_pattern token || pattern_contains filename_pattern token
    then validate_component_value value label else Ok tt in
  let? _ := check Timestamp (timestamp context) "timestamp" in
  check Profile (profile context) "profile".

(** [u64::from(b)] *)
Definition of_bool (b : bool) : Z := if b then 1 else 0.

Definition validate_pattern_capacity (directory_pattern filename_pattern : ValidatedPattern)
    (output_dir : string) (context : RenderContext) (channel : string) : Result unit :=
  let? directory_bytes := maximum_rendered_bytes directory_pattern context channel in
  let? filename_bytes := maximum_rendered_bytes filename_pattern context channel in
  let root_separator := of_bool (negb (path_eq output_dir "/")) in
  let directory_separator := of_bool (negb (directory_bytes =? 0)) in
  let? output_bytes := path_bytes output_dir in
  let overflow := validation "maximum rendered path capacity overflow" in
  let? v := ok_or (add_checked output_bytes root_separator) overflow in
  let? v := ok_or (add_checked v directory_bytes) overflow in
  let? v := ok_or (add_checked v directory_separator) overflow in
  let? maximum_bytes := ok_or (add_checked v filename_bytes) overflow in
  err_if (rc_maximum_path_bytes context <? maximum_bytes)
    (validation ("worst-case rendered relative path requires " +:+ decimal maximum_bytes
                 +:+ " bytes, exceeding maximumPathBytes " +:+ decimal (rc_maximum_path_bytes context))).

(** [ResolvedExportPolicy::new] *)
Definition policy_new (output_dir : string) (layout : ResolvedLayout)
    (activity : ResolvedActivityPolicy) : Result ResolvedExportPolicy :=
  let? _ := validate_output_dir output_dir in
  let? (recall_directory, recall_filename) := patterns_for_layout layout Recall in
  let? (dump_directory, dump_filename) := patterns_for_layout layout Dump in
  Ok (mkExportPolicy output_dir false layout activity
        (mkPatternSet recall_directory recall_filename dump_directory dump_filename)).

#[export] Instance eta_ResolvedExportPolicy : Eta ResolvedExportPolicy :=
  fun p => mkExportPolicy (output_dir p) (use_system_temp p) (layout p) (activity p) (pattern_set p).

Definition with_system_temp (b : bool) (p : ResolvedExportPolicy) : ResolvedExportPolicy :=
  p <| use_system_temp := b |>.

(** ** Rendering a policy *)

(** Runs a rendering with a fresh string. *)
Definition rendered (m : SW unit) : Result string :=
  match m "" with
  | (text, Ok _) => Ok text
  | (_, Err e) => Err e
  | (_, Panic) => Panic
  end.

(** The two outputs of [render_policy_output_into], kept with what was written
    when a rendering fails. *)
Definition on_directory (m : SW unit) : M (string * string) LambError unit :=
  fun x => let '(d, o) := m x.1 in ((d, x.2), o).
Definition on_filename (m : SW unit) : M (string * string) LambError unit :=
  fun x => let '(f, o) := m x.2 in ((x.1, f), o).

Definition render_policy_output_into (policy : ResolvedExportPolicy) (context : RenderContext)
    (channel : string) (part : Z) (part_suffix : string) (start_frame end_frame : Z)
    : M (string * string) LambError unit :=
  let '(directory_pattern, filename_pattern) := patterns policy (command context) in
  lift (validate_context_values directory_pattern filename_pattern context) ;;
  lift (validate_component_value channel "channel") ;;
  lift (validate_pattern_capacity directory_pattern filename_pattern (output_dir policy) context channel) ;;
  on_directory (render_output_to context channel part part_suffix start_frame end_frame directory_pattern) ;;
  on_filename (render_output_to context channel part part_suffix start_frame end_frame filename_pattern).

(** ** The preview *)

Record RenderedOutput := mkOutput {
  o_channel_index : Z;
  o_channel : string;
  o_part : Z;
  o_part_count : Z;
  o_part_suffix : string;
  o_start_frame : Z;
  o_end_frame : Z;
  o_relative_directory : string;
  o_filename : string;
  o_final_path : string;
}.

Section preview.
Context (policy : ResolvedExportPolicy) (context : RenderContext)
  (directory_pattern filename_pattern : ValidatedPattern) (part_count : Z).

(** The outputs so far and the set of their paths. *)
Abbreviation Preview := (list RenderedOutput * list string)%type.

(** The body of the loop over the parts of a channel. *)
Definition preview_part (channel_index : Z) (channel : string) (zero_based_part : Z)
    (wav_part : WavPart) (x : Preview) : Result Preview :=
  let '(outputs, final_paths) := x in
  let? part := ok_or (add_checked zero_based_part 1) (validation "one-based split part overflow") in
  let? start_frame := ok_or (add_checked (export_start_frame context) (WavMath.start_frame wav_part))
                        (validation "absolute part start frame overflow") in
  let? end_frame := ok_or (add_checked start_frame (WavMath.frame_count wav_part))
                      (validation "absolute part end frame overflow") in
  let part_suffix := if part_count =? 1 then "" else "-part" +:+ padded part 3 in
  let? rendered_directory :=
    rendered (render_output_into context channel part part_suffix start_frame end_frame directory_pattern) in
  let? filename :=
    rendered (render_output_into context channel part part_suffix start_frame end_frame filename_pattern) in
  let? _ := validate_rendered_directory rendered_directory in
  let? _ := validate_filename filename in
  let final_path := path_join (path_join (output_dir policy) rendered_directory) filename in
  let? _ := validate_final_path (output_dir policy) final_path (rc_maximum_path_bytes context) in
  let? _ := err_if (existsb (path_eq final_path) final_paths)
              (validation ("duplicate rendered export path: " +:+ final_path)) in
  Ok (outputs ++ [mkOutput channel_index channel part part_count part_suffix start_frame end_frame
                    rendered_directory filename final_path],
      final_path :: final_paths).

Fixpoint preview_parts (channel_index : Z) (channel : string) (zero_based_part : Z)
    (parts : list WavPart) (x : Preview) : Result Preview :=
  match parts with
  | [] => Ok x
  | wav_part :: parts' =>
      let? x := preview_part channel_index channel zero_based_part wav_part x in
      preview_parts channel_index channel (zero_based_part + 1) parts' x
  end.

(** The body of the loop over the retained channels. *)
Definition preview_channel (parts : list WavPart) (channel_index : Z) (x : Preview) : Result Preview :=
  let? channel := ok_or (zlookup (policy_channels (activity policy)) channel_index)
                    (validation ("retained channel index " +:+ decimal channel_index +:+ " is invalid")) in
  let channel := policy_name channel in
  let? _ := validate_component_value channel "channel" in
  let? _ := validate_pattern_capacity directory_pattern filename_pattern (output_dir policy) context channel in
  preview_parts channel_index channel 0 parts x.

Fixpoint preview_channels (parts : list WavPart) (retained_channels : list Z) (x : Preview)
    : Result Preview :=
  match retained_channels with
  | [] => Ok x
  | channel_index :: rest =>
      let? x := preview_channel parts channel_index x in
      preview_channels parts rest x
  end.
End preview.

(** Two files conflict when one of their paths lies under the other. *)
Definition paths_conflict (output other : RenderedOutput) : bool :=
  path_starts_with (o_final_path output) (o_final_path other)
  || path_starts_with (o_final_path other) (o_final_path output).

Fixpoint validate_no_file_parent_conflicts (outputs : list RenderedOutput) : Result unit :=
  match outputs with
  | [] => Ok tt
  | output :: rest =>
      match List.find (paths_conflict output) rest with
      | Some other => Err (validation ("rendered export file/parent path conflict between "
                             +:+ o_final_path output +:+ " and " +:+ o_final_path other))
      | None => validate_no_file_parent_conflicts rest
      end
  end.

Definition preview_export_paths (policy : ResolvedExportPolicy) (context : RenderContext)
    (retained_channels : list Z) : Result (list RenderedOutput) :=
  let? _ := validate_output_dir (output_dir policy) in
  let? _ := err_if (export_end_frame context <? export_start_frame context)
              (validation "export end frame precedes export start frame") in
  let? _ := err_if (rc_maximum_path_bytes context =? 0)
              (validation "maximum path bytes must be nonzero") in
  let '(directory_pattern, filename_pattern) := patterns policy (command context) in
  let? _ := validate_context_values directory_pattern filename_pattern context in
  let total_frames := export_end_frame context - export_start_frame context in
  let? parts := wav_parts_for_channel total_frames 3 (rc_split_when_over_bytes context) in
  let? part_count := ok_or (checked u64_max (zlen parts))
                       (validation "split part count does not fit in u64") in
  let? _ := ok_or (mul_checked (zlen retained_channels) (zlen parts))
              (validation "rendered output count overflow") in
  let? (outputs, _) := preview_channels policy context directory_pattern filename_pattern part_count
                         parts retained_channels ([], []) in
  let? _ := validate_no_file_parent_conflicts outputs in
  Ok outputs.

(** Two channels of three frames, in parts of at most two. *)
Example preview_example :
  let activity := mkPolicy ExactZero [mkChannelPolicy "left" Auto None; mkChannelPolicy "right" Auto None] false false in
  let context := mkContext Dump "studio" "20260101" 48000 100 103 50 255 in
  obind (policy_new "/tmp/out" CommandDefault activity)
    (fun policy => omap (map (fun o => (o_final_path o, o_start_frame o, o_end_frame o)))
                     (preview_export_paths policy context [0; 1])) =
  Ok [("/tmp/out/20260101/left-part001.wav", 100, 102); ("/tmp/out/20260101/left-part002.wav", 102, 103);
      ("/tmp/out/20260101/right-part001.wav", 100, 102); ("/tmp/out/20260101/right-part002.wav", 102, 103)].
Proof. vm_compute. reflexivity. Qed.

(** ** What validation ensures *)

Lemma existsb_none {A} (f : A -> bool) l : existsb f l = false <-> Forall (fun x => f x = false) l.
Proof.
  induction l as [|x l IH]; cbn; [by split|]. by rewrite orb_false_iff, Forall_cons, IH.
Qed.

Lemma dot_part_false p : dot_part p = false -> p <> "." /\ p <> "..".
Proof. unfold dot_part. rewrite orb_false_iff, !String.eqb_neq. done. Qed.

(** Parts other than dots have names as components. *)
Lemma inner_components_names l :
  Forall (fun p => dot_part p = false) l -> Forall (fun p => contains slash p = false) l ->
  exists names, inner_components l = map Normal names /\ Forall normal_name names.
Proof.
  intros Hd Hs. induction l as [|p l IH]; [by exists []|].
  apply Forall_cons in Hd as [Hp Hd], Hs as [Hps Hs]. destruct (IH Hd Hs) as (names & E & Hn).
  change (inner_components (p :: l)) with (part_component false p ++ inner_components l).
  rewrite E. unfold part_component. apply dot_part_false in Hp as [H1 H2].
  destruct (String.eqb p "") eqn:Ep; [by exists names|]. apply String.eqb_neq in Ep.
  exists (p :: names). split; [|by constructor].
  by apply String.eqb_neq in H1 as ->, H2 as ->.
Qed.

Lemma err_if_Ok b e : err_if b e = Ok tt <-> b = false.
Proof. by destruct b. Qed.

Lemma directory_names directory :
  validate_rendered_directory directory = Ok tt ->
  is_absolute directory = false
  /\ exists names, inner_components (split_slash directory) = map Normal names /\ Forall normal_name names.
Proof.
  unfold validate_rendered_directory. destruct (String.eqb directory "") eqn:E.
  { apply String.eqb_eq in E as ->. intros _. split; [done|]. by exists []. }
  destruct (err_if _ _) as [[]| |] eqn:E1; try done. apply err_if_Ok in E1. cbn. intros E2.
  apply err_if_Ok in E2. rewrite !orb_false_iff in E1. split; [unfold is_absolute; tauto|].
  apply inner_components_names; [|apply split_slash_parts]. apply existsb_none in E2.
  eapply Forall_impl; [exact E2|]. cbn. intros p Hp. by apply orb_false_iff in Hp as [_ Hd].
Qed.

Lemma filename_names filename :
  validate_filename filename = Ok tt ->
  is_absolute filename = false /\ normal_name filename
  /\ inner_components (split_slash filename) = [Normal filename].
Proof.
  unfold validate_filename. rewrite err_if_Ok. unfold unsafe_component. rewrite !orb_false_iff.
  intros [[[[He Hd] Hs] _] _]. apply String.eqb_neq in He. apply dot_part_false in Hd as [H1 H2].
  split_and!; [|done|].
  - destruct filename as [|c s]; [done|]. rewrite contains_cons, orb_false_iff, Ascii.eqb_sym in Hs. by apply Hs.
  - rewrite split_slash_whole by done. unfold inner_components. cbn. unfold part_component.
    by apply String.eqb_neq in He as ->, H1 as ->, H2 as ->.
Qed.

Lemma output_dir_names path :
  validate_output_dir path = Ok tt ->
  is_absolute path = true /\ utf8 path = true /\ double_slash path = false
  /\ (1 < slen path -> ends_slash path = false)
  /\ exists names, components path = RootDir :: map Normal names /\ Forall normal_name names.
Proof.
  unfold validate_output_dir, to_str. destruct (is_absolute path) eqn:Ea; [|done]. cbn [negb err_if obind].
  destruct (utf8 path); [|done]. cbn [ok_or obind].
  destruct (err_if _ _) as [[]| |] eqn:E; try done. apply err_if_Ok in E. intros _.
  rewrite !orb_false_iff in E. destruct E as [[[_ Hd] He] Hp]. split_and!; try done.
  - intros Hl. apply andb_false_iff in He as [He|He]; [|done]. apply Z.ltb_ge in He. lia.
  - rewrite components_absolute by done.
    destruct (inner_components_names (split_slash path)) as (names & -> & Hn); [|apply split_slash_parts|by exists names].
    by apply existsb_none.
Qed.

(** ** What the preview lists *)

(** Neither path lies at or under the other. *)
Definition apart (o o' : RenderedOutput) : Prop :=
  ~ components (o_final_path o) `prefix_of` components (o_final_path o')
  /\ ~ components (o_final_path o') `prefix_of` components (o_final_path o).

Lemma no_conflicts outputs :
  validate_no_file_parent_conflicts outputs = Ok tt -> ForallOrdPairs apart outputs.
Proof.
  induction outputs as [|o rest IH]; [by constructor|]. cbn.
  destruct (List.find _ rest) as [o'|] eqn:E; [done|]. intros H. constructor; [|by apply IH].
  apply List.Forall_forall. intros o' Ho'. pose proof (find_none _ _ E o' Ho') as Hc.
  unfold paths_conflict, path_starts_with in Hc. apply orb_false_iff in Hc as [H1 H2].
  split; rewrite <-is_prefix_spec; congruence.
Qed.

(** Where an output is: under the output directory, with names that cannot
    leave it, and within the limit. *)
Definition lies_under (root : list string) (maximum_bytes : Z) (o : RenderedOutput) : Prop :=
  exists names, Forall normal_name (names ++ [o_filename o])
    /\ components (o_final_path o) = RootDir :: map Normal (root ++ names ++ [o_filename o])
    /\ slen (o_final_path o) <= maximum_bytes.

(** The channel, part number and frames of an output. *)
Definition frames_of (o : RenderedOutput) : Z * Z * Z * Z :=
  (o_channel_index o, o_part o, o_start_frame o, o_end_frame o).

Definition part_frames (start channel_index : Z) (i : nat) (p : WavPart) : Z * Z * Z * Z :=
  let from := start + WavMath.start_frame p in
  (channel_index, Z.of_nat i + 1, from, from + WavMath.frame_count p).

Lemma final_path_ok output_dir final_path maximum :
  validate_final_path output_dir final_path maximum = Ok tt -> slen final_path <= maximum.
Proof.
  unfold validate_final_path, path_bytes, to_str. destruct (err_if _ _) as [[]| |]; try done. cbn.
  destruct (utf8 final_path); [|done]. cbn. destruct (checked _ _) as [n|] eqn:E; [|done].
  apply checked_Some in E as [-> _]. cbn. rewrite err_if_Ok. intros H. apply Z.ltb_ge in H. lia.
Qed.

Section preview_spec.
Context (policy : ResolvedExportPolicy) (context : RenderContext)
  (directory_pattern filename_pattern : ValidatedPattern) (part_count : Z) (root : list string)
  (out_ok : is_absolute (output_dir policy) = true)
  (root_ok : components (output_dir policy) = RootDir :: map Normal root).

Let start := export_start_frame context.
Let listed := lies_under root (rc_maximum_path_bytes context).

Lemma preview_part_spec channel_index channel i p x x' :
  preview_part policy context directory_pattern filename_pattern part_count channel_index channel
    (Z.of_nat i) p x = Ok x' ->
  exists o, x'.1 = x.1 ++ [o] /\ frames_of o = part_frames start channel_index i p /\ listed o.
Proof using All.
  destruct x as [outputs paths]. unfold preview_part. intros H.
  apply obind_Ok in H as (part & Hp & H). apply ok_or_Ok, add_checked_inv in Hp as [-> _].
  apply obind_Ok in H as (from & Hf & H). apply ok_or_Ok, add_checked_inv in Hf as [-> _].
  apply obind_Ok in H as (to & Ht & H). apply ok_or_Ok, add_checked_inv in Ht as [-> _].
  apply obind_Ok in H as (directory & _ & H). apply obind_Ok in H as (filename & _ & H).
  apply obind_Ok in H as ([] & Hd & H). apply obind_Ok in H as ([] & Hn & H).
  apply obind_Ok in H as ([] & Hfin & H). apply obind_Ok in H as ([] & _ & H).
  apply Ok_inj in H as <-. eexists. split; [done|]. split; [done|].
  apply directory_names in Hd as (Hda & names & Hdn & Hnames).
  apply filename_names in Hn as (Hna & Hnn & Hnc).
  exists names. cbn. split; [apply Forall_app; split; [done|by constructor]|]. split.
  - rewrite !components_join by (done || by apply path_join_absolute).
    rewrite root_ok, Hdn, Hnc, !map_app. cbn. by rewrite <-app_assoc.
  - by eapply final_path_ok.
Qed.

Lemma preview_parts_spec channel_index channel i parts x x' :
  preview_parts policy context directory_pattern filename_pattern part_count channel_index channel
    (Z.of_nat i) parts x = Ok x' ->
  exists new, x'.1 = x.1 ++ new
    /\ map frames_of new = imap (fun j => part_frames start channel_index (i + j)) parts
    /\ Forall listed new.
Proof using All.
  revert i x. induction parts as [|p parts IH]; intros i x; cbn [preview_parts].
  { intros [= ->]. exists []. by rewrite app_nil_r. }
  intros H. apply obind_Ok in H as (x1 & H1 & H). apply preview_part_spec in H1 as (o & E1 & Ef & Ho).
  replace (Z.of_nat i + 1) with (Z.of_nat (S i)) in H by lia.
  destruct (IH _ _ H) as (new & E2 & Em & Hnew). exists (o :: new).
  rewrite E2, E1, <-app_assoc. split_and!; [done| |by constructor].
  cbn. rewrite Ef, Em, Nat.add_0_r. f_equal. apply imap_ext. intros j q _. cbn. f_equal. lia.
Qed.

Lemma preview_channels_spec parts retained x x' :
  preview_channels policy context directory_pattern filename_pattern part_count parts retained x = Ok x' ->
  exists new, x'.1 = x.1 ++ new
    /\ map frames_of new = concat (map (fun c => imap (part_frames start c) parts) retained)
    /\ Forall listed new.
Proof using All.
  revert x. induction retained as [|c retained IH]; intros x; cbn [preview_channels].
  { intros [= ->]. exists []. by rewrite app_nil_r. }
  intros H. apply obind_Ok in H as (x1 & H1 & H). unfold preview_channel in H1.
  apply obind_Ok in H1 as (ch & _ & H1). apply obind_Ok in H1 as ([] & _ & H1).
  apply obind_Ok in H1 as ([] & _ & H1). apply (preview_parts_spec _ _ 0%nat) in H1 as (new1 & E1 & M1 & N1).
  destruct (IH _ H) as (new2 & E2 & M2 & N2). exists (new1 ++ new2).
  rewrite E2, E1, app_assoc, map_app, M1, M2. split_and!; [done|done|by apply Forall_app].
Qed.
End preview_spec.

Lemma wav_parts_inv total split parts :
  is_u64 total -> is_u64 split -> wav_parts_for_channel total 3 split = Ok parts ->
  exists most, tiles most 0 total parts
    /\ Forall (fun p => WavMath.frame_count p * 3 + WAV_HEADER_BYTES <= split) parts.
Proof.
  intros Ht Hs. unfold wav_parts_for_channel. intros H. apply obind_Ok in H as (most & Hm & H).
  apply wav_frames_per_part_inv in Hm as (? & ? & ? & ? & ?); [|lia|done].
  destruct (wav_parts_loop total most Ht) as (ps & E & Htile & _); [lia|].
  rewrite E in H. apply Ok_inj in H as <-. exists most. split; [done|].
  eapply tiles_bytes; [| |done]; lia.
Qed.

(** C18. When the preview of an export succeeds, every file it lists lies under the
    output directory and is named by ordinary components, so no channel name,
    profile or timestamp can lead a path elsewhere, and its path is within the
    limit; no listed path is equal to or lies under another, so the files can
    all be created; and the files of every retained channel, in the order given,
    cover the frames of the export without gap or overlap in numbered parts that
    fit the split limit. *)
Theorem preview_paths_safe policy context retained outputs :
  is_u64 (export_start_frame context) -> is_u64 (export_end_frame context) ->
  is_u64 (rc_split_when_over_bytes context) ->
  preview_export_paths policy context retained = Ok outputs ->
  (exists root, components (output_dir policy) = RootDir :: map Normal root /\ Forall normal_name root
     /\ Forall (lies_under root (rc_maximum_path_bytes context)) outputs)
  /\ ForallOrdPairs apart outputs
  /\ exists most parts,
       tiles most 0 (export_end_frame context - export_start_frame context) parts
       /\ Forall (fun p => WavMath.frame_count p * 3 + WAV_HEADER_BYTES
                           <= rc_split_when_over_bytes context) parts
       /\ map frames_of outputs =
            concat (map (fun c => imap (part_frames (export_start_frame context) c) parts) retained).
Proof.
  unfold is_u64. intros Hs He Hsp H. unfold preview_export_paths in H.
  apply obind_Ok in H as ([] & Hdir & H). apply output_dir_names in Hdir as (Ha & _ & _ & _ & root & Er & Hr).
  apply obind_Ok in H as ([] & Ho & H). apply err_if_Ok, Z.ltb_ge in Ho.
  apply obind_Ok in H as ([] & _ & H). destruct (patterns _ _) as [dp fp].
  apply obind_Ok in H as ([] & _ & H). apply obind_Ok in H as (parts & Hp & H).
  apply obind_Ok in H as (pc & _ & H). apply obind_Ok in H as (cap & _ & H).
  apply obind_Ok in H as ([outs paths] & Hc & H). apply obind_Ok in H as ([] & Hn & H).
  apply Ok_inj in H as ->.
  eapply preview_channels_spec in Hc as (new & E & Em & Hl); [|done|exact Er].
  cbn in E. subst new. split; [by exists root|]. split; [by apply no_conflicts|].
  apply wav_parts_inv in Hp as (most & Ht & Hf); [|unfold is_u64; lia|done]. by exists most, parts.
Qed.

Definition preview_activity : ResolvedActivityPolicy :=
  mkPolicy ExactZero [mkChannelPolicy "left" Auto None; mkChannelPolicy "right" Auto None] false false.
Definition preview_policy : ResolvedExportPolicy :=
  match policy_new "/tmp/out" CommandDefault preview_activity with
  | Ok p => p
  | _ => mkExportPolicy "" false CommandDefault preview_activity
           (mkPatternSet (mkPattern []) (mkPattern []) (mkPattern []) (mkPattern []))
  end.
Definition preview_context : RenderContext := mkContext Dump "studio" "20260101" 48000 100 103 50 255.
Definition previewed : list RenderedOutput :=
  match preview_export_paths preview_policy preview_context [1; 0] with Ok l => l | _ => [] end.

Lemma preview_paths_safe_witness :
  zlen previewed = 4 /\
  (exists root, components "/tmp/out" = RootDir :: map Normal root /\ Forall normal_name root
     /\ Forall (lies_under root 255) previewed)
  /\ ForallOrdPairs apart previewed
  /\ exists most parts,
       tiles most 0 (103 - 100) parts
       /\ Forall (fun p => WavMath.frame_count p * 3 + WAV_HEADER_BYTES <= 50) parts
       /\ map frames_of previewed = concat (map (fun c => imap (part_frames 100 c) parts) [1; 0]).
Proof.
  split; [vm_compute; reflexivity|].
  apply (preview_paths_safe preview_policy preview_context [1; 0] previewed);
    [unfold is_u64, u64_max; cbn; lia..|vm_compute; reflexivity].
Defined.

(** ** The capacity check *)

Lemma utf8_from_app e a b : utf8_from e a = true -> utf8 b = true -> utf8_from e (a +:+ b) = true.
Proof.
  intros Ha Hb. revert e Ha. induction a as [|c a IH]; intros e; rewrite ?string_nil_app, ?string_cons_app.
  { destruct e; [done|]. done. }
  cbn [utf8_from]. destruct e as [|[lo hi] e].
  - destruct (utf8_follow _); [apply IH|done].
  - rewrite !andb_true_iff. intros [H Ha]. by split; [|apply IH].
Qed.

Lemma utf8_join a b : utf8 a = true -> utf8 b = true -> utf8 (path_join a b) = true.
Proof.
  intros Ha Hb. unfold path_join. destruct (is_absolute b); [done|].
  destruct (_ || _); apply utf8_from_app; try done.
Qed.

(** Only a path of separators has no other component than the root. *)
Lemma all_parts_empty s :
  Forall (fun p => p = "") (split_slash s) -> s = "" \/ ends_slash s = true.
Proof.
  induction s as [|c s IH]; [by left|]. cbn [split_slash]. intros H. right.
  destruct (Ascii.eqb c slash) eqn:E.
  - apply Forall_cons in H as [_ H]. destruct (IH H) as [->|Hs]; [done|]. by destruct s.
  - destruct (split_slash s); apply Forall_cons in H as [H _]; done.
Qed.

Lemma inner_components_nil l :
  Forall (fun p => dot_part p = false) l -> inner_components l = [] -> Forall (fun p => p = "") l.
Proof.
  induction 1 as [|p l Hp _ IH]; [done|].
  change (inner_components (p :: l)) with (part_component false p ++ inner_components l).
  intros [H1 H2]%app_nil. constructor; [|by apply IH]. unfold part_component in H1.
  apply dot_part_false in Hp as [Hd Hdd]. apply String.eqb_neq in Hd, Hdd. rewrite Hd, Hdd in H1.
  by destruct (String.eqb p "") eqn:E; [apply String.eqb_eq|].
Qed.

Lemma output_dir_root path :
  validate_output_dir path = Ok tt -> path_eq path "/" = true -> ends_slash path = true.
Proof.
  intros Hv Heq. pose proof (output_dir_names path Hv) as (Ha & _).
  unfold validate_output_dir, to_str in Hv. rewrite Ha in Hv. cbn [negb err_if obind] in Hv.
  destruct (utf8 path); [|done]. cbn [ok_or obind] in Hv.
  destruct (err_if _ _) as [[]| |] eqn:E; try done. apply err_if_Ok in E. rewrite !orb_false_iff in E.
  destruct E as [_ Hd]. apply existsb_none in Hd.
  unfold path_eq in Heq. apply bool_decide_eq_true in Heq. rewrite components_absolute in Heq by done.
  injection Heq as Heq. apply inner_components_nil in Heq; [|done].
  apply all_parts_empty in Heq as [->|?]; done.
Qed.

(** The length of a joined path. *)
Lemma slen_join a b :
  slen (path_join a b) <= slen a + of_bool (negb (String.eqb a "" || ends_slash a)) + slen b.
Proof.
  pose proof (slen_nonneg a). unfold path_join. destruct (is_absolute b).
  - destruct (negb _); cbn [of_bool]; lia.
  - destruct (_ || _); cbn [negb of_bool]; rewrite slen_app, ?slen_cons; lia.
Qed.

Lemma ends_slash_join_empty a : a <> "" -> ends_slash (path_join a "") = true.
Proof.
  intros Ha. unfold path_join. cbn [is_absolute starts_slash]. apply String.eqb_neq in Ha. rewrite Ha. cbn [orb].
  destruct (ends_slash a) eqn:E; [by rewrite string_app_nil|].
  clear. induction a as [|c a IH]; [done|]. rewrite string_cons_app. cbn [ends_slash].
  by destruct (a +:+ String slash "") eqn:E; [destruct a|].
Qed.

(** The worst case that the capacity check adds up. *)
Lemma final_path_length out directory filename m :
  validate_output_dir out = Ok tt -> slen directory <= m ->
  slen (path_join (path_join out directory) filename)
    <= slen out + of_bool (negb (path_eq out "/")) + m + of_bool (negb (m =? 0)) + slen filename.
Proof.
  intros Hv Hd. pose proof (output_dir_names out Hv) as (Ha & _).
  assert (of_bool (negb (String.eqb out "" || ends_slash out)) <= of_bool (negb (path_eq out "/"))) as Hsep.
  { destruct (path_eq out "/") eqn:E.
    - rewrite (output_dir_root out Hv E), orb_true_r. done.
    - by destruct (_ || _). }
  pose proof (slen_join out directory) as H1. pose proof (slen_join (path_join out directory) filename) as H2.
  destruct (String.eqb directory "") eqn:E.
  - apply String.eqb_eq in E as ->. rewrite ends_slash_join_empty, orb_true_r in H2 by by destruct out.
    change (slen "") with 0 in *. cbn [negb of_bool] in H2. destruct (m =? 0); cbn [negb of_bool]; lia.
  - assert (1 <= slen directory) as Hpos.
    { destruct directory; [done|]. rewrite slen_cons. pose proof (slen_nonneg directory). lia. }
    replace (m =? 0) with false by (symmetry; apply Z.eqb_neq; lia). cbn [negb of_bool].
    assert (forall b, of_bool b <= 1) as Hone by (intros []; cbn; lia).
    pose proof (Hone (negb (String.eqb (path_join out directory) "" || ends_slash (path_join out directory)))). lia.
Qed.

Lemma pattern_capacity_inv directory_pattern filename_pattern out context channel :
  utf8 out = true ->
  validate_pattern_capacity directory_pattern filename_pattern out context channel = Ok tt ->
  exists d f, maximum_rendered_bytes directory_pattern context channel = Ok d
    /\ maximum_rendered_bytes filename_pattern context channel = Ok f
    /\ let total := slen out + of_bool (negb (path_eq out "/")) + d + of_bool (negb (d =? 0)) + f in
       total <= rc_maximum_path_bytes context /\ total <= u64_max.
Proof.
  intros Hu Hcap. unfold validate_pattern_capacity, path_bytes, to_str in Hcap. rewrite Hu in Hcap. ok_steps.
  simplify_eq.
  repeat match goal with H : checked _ _ = Some _ |- _ => apply checked_Some in H as [-> ?]
    | H : add_checked _ _ = Some _ |- _ => apply add_checked_inv in H as [-> ?] end.
  apply err_if_Ok, Z.ltb_ge in Hcap. eexists _, _. split; [done|]. split; [done|]. cbn zeta. lia.
Qed.

(** *** Texts without separators *)

(** Neither a separator nor a zero byte is in the text. *)
Definition plain (s : string) : Prop :=
  utf8 s = true /\ contains slash s = false /\ contains backslash s = false /\ contains nul s = false.

Lemma plain_app a b : plain a -> plain b -> plain (a +:+ b).
Proof.
  intros (A1 & A2 & A3 & A4) (B1 & B2 & B3 & B4). unfold plain. rewrite !contains_app, A2, A3, A4, B2, B3, B4.
  split; [by apply utf8_from_app|done].
Qed.

Lemma plain_digit d s : plain s -> plain (String (pretty_N_char d) s).
Proof.
  intros (A1 & A2 & A3 & A4). unfold plain. rewrite !contains_cons, A2, A3, A4.
  unfold pretty_N_char. repeat case_match; done.
Qed.

Lemma plain_pretty_go x s : plain s -> plain (pretty_N_go x s).
Proof.
  revert s. induction (N.lt_wf_0 x) as [x _ IH]. intros s Hs. destruct (decide (x = 0)%N) as [->|Hx]; [by rewrite pretty_N_go_0|].
  rewrite pretty_N_go_step by lia. apply IH; [by apply N.div_lt; lia|]. by apply plain_digit.
Qed.

Lemma plain_decimal v : 0 <= v -> plain (decimal v).
Proof. intros Hv. destruct v as [|p|p]; [done|exact (plain_pretty_go (N.pos p) "" ltac:(done))|lia]. Qed.

Lemma plain_padded v width : 0 <= v -> plain (padded v width).
Proof.
  intros Hv. unfold padded. apply plain_app; [|by apply plain_decimal].
  induction (Z.to_nat _) as [|n IH]; [done|]. exact (plain_digit 0 _ IH).
Qed.

Lemma plain_component s : unsafe_component s = false -> utf8 s = true -> plain s.
Proof. unfold unsafe_component, plain. rewrite !orb_false_iff. tauto. Qed.

(** A plain text of some length is a file name. *)
Lemma plain_filename s : plain s -> 2 < slen s -> validate_filename s = Ok tt.
Proof.
  intros (_ & A2 & A3 & A4) Hl. unfold validate_filename, unsafe_component. apply err_if_Ok.
  rewrite A2, A3, A4. assert (forall t, slen t <= 2 -> String.eqb s t = false) as Ht by (intros t Hs; apply String.eqb_neq; intros ->; lia).
  unfold dot_part. by rewrite !Ht by done.
Qed.

Lemma plain_directory s : unsafe_component s = false -> validate_rendered_directory s = Ok tt.
Proof.
  unfold unsafe_component. rewrite !orb_false_iff. intros [[[[E Hd] Hs] Hb] Hn]. unfold validate_rendered_directory.
  rewrite E, Hn, Hb, split_slash_whole by done. cbn [existsb]. rewrite E, Hd.
  assert (forall t, contains slash t = false -> starts_slash t = false /\ ends_slash t = false /\ double_slash t = false) as H.
  { intros t. induction t as [|c t IH]; [done|]. rewrite contains_cons, orb_false_iff. intros [Hc Ht].
    destruct (IH Ht) as (I1 & I2 & I3). cbn [starts_slash ends_slash double_slash].
    assert (Ascii.eqb c slash = false) as -> by (by rewrite Ascii.eqb_sym). rewrite I3. by destruct t. }
  destruct (H s Hs) as (-> & -> & ->). done.
Qed.

(** *** Rendering an output of a policy *)

Definition literals_utf8 (p : ValidatedPattern) : Prop :=
  Forall (fun s => match s with Literal v => utf8 v = true | _ => True end) (segments p).

Section output.
Context (context : RenderContext) (channel : string) (part_count part start_frame end_frame : Z).
Context (timestamp_utf8 : utf8 (timestamp context) = true) (profile_utf8 : utf8 (profile context) = true)
  (channel_utf8 : utf8 channel = true).
Context (part_ok : is_u64 part) (start_ok : is_u64 start_frame) (end_ok : is_u64 end_frame)
  (rate_ok : is_u32 (rc_sample_rate context)).
#[local] Abbreviation suffix := (if part_count =? 1 then "" else "-part" +:+ padded part 3).
#[local] Abbreviation text_of := (segments_text context channel part suffix start_frame end_frame).

Lemma suffix_plain : plain suffix.
Proof using part_ok. destruct (_ =? _); [done|]. apply plain_app; [done|]. apply plain_padded, part_ok. Qed.

Lemma suffix_length : slen suffix <= 25.
Proof using part_ok.
  destruct (_ =? _); [done|]. rewrite slen_app, slen_padded. change (slen "-part") with 5.
  pose proof (decimal_length 20 part) as H. unfold is_u64, u64_max in part_ok. lia.
Qed.

Lemma text_utf8 l text : Forall (fun s => match s with Literal v => utf8 v = true | _ => True end) l ->
  text_of l = Some text -> utf8 text = true.
Proof using All.
  intros Hl. revert text. induction Hl as [|s l Hs _ IH]; intros text; cbn [segments_text]; [by intros [= <-]|].
  destruct (segment_text _ _ _ _ _ _ s) as [a|] eqn:Ea; [|done]. destruct (segments_text _ _ _ _ _ _ l) as [b|]; [|done].
  intros [= <-]. apply utf8_from_app; [|by apply IH]. clear IH. unfold is_u64, is_u32 in *.
  assert (forall t, plain t -> utf8_from [] t = true) as Hplain by by intros t [].
  destruct s as [v|[]|[] w]; cbn in Ea; try done; injection Ea as <-; try done;
    apply Hplain; first [apply suffix_plain|apply plain_decimal; lia|apply plain_padded; lia].
Qed.

(** The text of a pattern stays within the pattern's capacity. *)
Lemma text_bound p text m :
  text_of (segments p) = Some text -> maximum_rendered_bytes p context channel = Ok m -> slen text <= m.
Proof using part_ok start_ok end_ok rate_ok.
  intros Ht Hm. by apply (add_segment_bytes_bound context channel part suffix start_frame end_frame part_ok
    start_ok end_ok rate_ok suffix_length _ 0 _ _ Hm) in Ht.
Qed.

(** What a successful rendering has checked and written. *)
Lemma rendered_output policy directory filename :
  render_policy_output_into policy context channel part suffix start_frame end_frame ("", "") = ((directory, filename), Ok tt) ->
  let '(dp, fp) := patterns policy (command context) in
  validate_context_values dp fp context = Ok tt /\ unsafe_component channel = false
  /\ validate_pattern_capacity dp fp (output_dir policy) context channel = Ok tt
  /\ text_of (segments dp) = Some directory /\ text_of (segments fp) = Some filename.
Proof using Type.
  unfold render_policy_output_into. destruct (patterns policy (command context)) as [dp fp]. intros H.
  apply bind_inv in H as (x1 & [] & [= <- H1] & H). apply bind_inv in H as (x2 & [] & [= <- H2] & H).
  apply bind_inv in H as (x3 & [] & [= <- H3] & H). apply bind_inv in H as (x4 & [] & H4 & H5).
  apply err_if_Ok in H2. split_and!; try done.
  - unfold on_directory, render_output_to in H4. cbn [fst snd] in H4.
    pose proof (render_segments_spec context channel part suffix start_frame end_frame (segments dp) "") as Hs.
    destruct (text_of (segments dp)) as [t|]; [|destruct Hs as [o Hs]; by rewrite Hs in H4]. rewrite Hs in H4. injection H4 as <-.
    unfold on_filename in H5. destruct (render_output_to _ _ _ _ _ _ _ _). by injection H5 as <- _ _.
  - unfold on_directory in H4. destruct (render_output_to _ _ _ _ _ _ _ _) as [d o]. injection H4 as <- _.
    unfold on_filename, render_output_to in H5. cbn [fst snd] in H5.
    pose proof (render_segments_spec context channel part suffix start_frame end_frame (segments fp) "") as Hs.
    destruct (text_of (segments fp)) as [t|]; [|destruct Hs as [o' Hs]; by rewrite Hs in H5]. rewrite Hs in H5. by injection H5 as _ <-.
Qed.
End output.

(** *** The patterns of a policy *)

Lemma policy_new_inv out layout activity policy command :
  policy_new out layout activity = Ok policy ->
  output_dir policy = out /\ validate_output_dir out = Ok tt
  /\ patterns_for_layout layout command = Ok (patterns policy command).
Proof.
  unfold policy_new. intros H.
  destruct (validate_output_dir out) as [[]| |]; try done. cbn [obind] in H.
  destruct (patterns_for_layout layout Recall) as [[rd rf]| |] eqn:Hr; try done. cbn [obind] in H.
  destruct (patterns_for_layout layout Dump) as [[dd df]| |] eqn:Hd; try done. cbn [obind] in H.
  apply Ok_inj in H as <-. by destruct command.
Qed.

(** The two built-in layouts: one file name with every number in it, or a
    directory named by the timestamp with a file per channel and part. *)
Definition flat_detailed_filename : ValidatedPattern :=
  mkPattern [Literal "lamb-"; Token Timestamp; Literal "-"; Token Channel; Literal "-"; Token SampleRate;
    Literal "Hz-"; ZeroPaddedToken StartFrame 9; Literal "-"; ZeroPaddedToken EndFrame 9; Literal "-part";
    ZeroPaddedToken Part 3; Literal ".wav"].
Definition timestamp_directory : ValidatedPattern := mkPattern [Token Timestamp].
Definition timestamp_filename : ValidatedPattern := mkPattern [Token Channel; Token PartSuffix; Literal ".wav"].

Lemma builtin_patterns layout command dp fp :
  (forall d f, layout <> Custom d f) -> patterns_for_layout layout command = Ok (dp, fp) ->
  dp = mkPattern [] /\ fp = flat_detailed_filename
  \/ dp = timestamp_directory /\ fp = timestamp_filename.
Proof.
  intros Hc. assert (patterns_for_layout FlatDetailed Dump = Ok (mkPattern [], flat_detailed_filename)) as Hf
    by (vm_compute; reflexivity).
  assert (patterns_for_layout TimestampDirectory Dump = Ok (timestamp_directory, timestamp_filename)) as Ht
    by (vm_compute; reflexivity).
  unfold patterns_for_layout in *.
  destruct layout as [| | |d f]; [destruct command| | |by destruct (Hc d f)]; cbn [effective_layout] in *;
    rewrite ?Hf, ?Ht; intros [= <- <-]; auto.
Qed.

Lemma policy_literals layout command dp fp :
  (forall d f, layout = Custom d f -> literals_utf8 d /\ literals_utf8 f) ->
  patterns_for_layout layout command = Ok (dp, fp) -> literals_utf8 dp /\ literals_utf8 fp.
Proof.
  intros Hl Hp. destruct layout as [| | |d f];
    try (apply builtin_patterns in Hp as [[-> ->]|[-> ->]]; [..|done]; split; repeat constructor).
  injection Hp as <- <-. by apply Hl.
Qed.

(** *** The final check of a rendered path *)

(** A safe directory and a file name joined to the output directory stay below
    it; within the maximum length, the final check accepts the path. *)
Lemma final_check out directory filename maximum :
  let path := path_join (path_join out directory) filename in
  validate_output_dir out = Ok tt -> validate_rendered_directory directory = Ok tt ->
  validate_filename filename = Ok tt -> utf8 directory = true -> utf8 filename = true ->
  slen path <= maximum -> slen path <= u64_max -> validate_final_path out path maximum = Ok tt.
Proof.
  intros path Hout Hd Hf Hud Huf Hmax Hmax'.
  pose proof (output_dir_names out Hout) as (Ha & Hu & _).
  pose proof (directory_names directory Hd) as (Hda & _).
  pose proof (filename_names filename Hf) as (Hfa & _).
  assert (utf8 path = true) as Hutf by (by repeat apply utf8_join).
  unfold validate_final_path, path_bytes, to_str, path_starts_with. rewrite Hutf. unfold path.
  rewrite !components_join by (done || by apply path_join_absolute). fold path.
  rewrite (proj2 (is_prefix_spec _ _)) by (by rewrite <-app_assoc; apply prefix_app_r).
  cbn [negb err_if obind ok_or]. unfold checked. pose proof (slen_nonneg path).
  replace (_ && _) with true by (symmetry; apply andb_true_iff; split; apply Z.leb_le; lia).
  cbn [ok_or obind]. apply err_if_Ok, Z.ltb_ge. lia.
Qed.

Lemma final_check_iff out directory filename maximum :
  let path := path_join (path_join out directory) filename in
  validate_output_dir out = Ok tt -> utf8 directory = true -> utf8 filename = true ->
  slen path <= maximum -> slen path <= u64_max ->
  validate_rendered_output_path out directory filename path maximum = Ok tt
  <-> validate_rendered_directory directory = Ok tt /\ validate_filename filename = Ok tt.
Proof.
  intros path Hout Hud Huf Hmax Hmax'. unfold validate_rendered_output_path. split.
  - destruct (validate_rendered_directory directory) as [[]| |]; try done.
    by destruct (validate_filename filename) as [[]| |].
  - intros [Hd Hf]. rewrite Hd, Hf. by apply final_check.
Qed.

(** What the built-in layouts render is a safe directory and a file name. *)
Lemma builtin_names context channel part_count part start_frame end_frame dp fp directory filename :
  let text_of := segments_text context channel part
    (if part_count =? 1 then "" else "-part" +:+ padded part 3) start_frame end_frame in
  utf8 (timestamp context) = true -> utf8 channel = true ->
  is_u64 part -> is_u64 start_frame -> is_u64 end_frame -> is_u32 (rc_sample_rate context) ->
  dp = mkPattern [] /\ fp = flat_detailed_filename \/ dp = timestamp_directory /\ fp = timestamp_filename ->
  validate_context_values dp fp context = Ok tt -> unsafe_component channel = false ->
  text_of (segments dp) = Some directory -> text_of (segments fp) = Some filename ->
  validate_rendered_directory directory = Ok tt /\ validate_filename filename = Ok tt.
Proof.
  intros text_of Hut Huc Hp Hs He Hr Hb Hv Hc Hd Hf.
  assert (unsafe_component (timestamp context) = false) as Ht.
  { destruct Hb as [[-> ->]|[-> ->]]; unfold validate_context_values in Hv; cbn in Hv;
      by destruct (validate_component_value _ _) as [[]| |] eqn:E; [apply err_if_Ok in E| |]. }
  pose proof (plain_component _ Ht Hut) as Hpt. pose proof (plain_component _ Hc Huc) as Hpc.
  pose proof (suffix_plain part_count part Hp) as Hps. unfold is_u64, is_u32 in *.
  destruct Hb as [[-> ->]|[-> ->]]; apply Some_inj in Hd as <-; apply Some_inj in Hf as <-; (split; [|apply plain_filename]).
  - done.
  - repeat first [done|apply plain_padded; lia|apply plain_decimal; lia|apply plain_app].
  - rewrite slen_app. change (slen "lamb-") with 5. match goal with |- _ < _ + slen ?t => pose proof (slen_nonneg t) end. lia.
  - rewrite string_app_nil. by apply plain_directory.
  - by repeat apply plain_app.
  - rewrite !slen_app. change (slen ".wav") with 4. change (slen "") with 0. pose proof (slen_nonneg channel).
    match goal with |- _ < _ + (slen ?t + _) => pose proof (slen_nonneg t) end. lia.
Qed.

(** C25. Rendering an output of a policy checks the context's values and the
    capacity first, and these checks are enough for the length: when rendering
    succeeds, the path joined from the output directory and what was rendered
    never exceeds the maximum path bytes, whatever the part's number and frames.
    The final check then accepts exactly when the rendered directory is a safe
    relative path and the rendered file name is one component, which custom
    patterns need not give; with the built-in layouts it always accepts. The
    texts are UTF-8, as Rust strings are, and the suffix is the one
    of the part. *)
Theorem capacity_check_suffices out layout activity policy context channel part_count part
    start_frame end_frame directory filename :
  policy_new out layout activity = Ok policy ->
  utf8 (timestamp context) = true -> utf8 (profile context) = true -> utf8 channel = true ->
  (forall d f, layout = Custom d f -> literals_utf8 d /\ literals_utf8 f) ->
  is_u64 part -> is_u64 start_frame -> is_u64 end_frame -> is_u32 (rc_sample_rate context) ->
  let suffix := if part_count =? 1 then "" else "-part" +:+ padded part 3 in
  render_policy_output_into policy context channel part suffix start_frame end_frame ("", "")
    = ((directory, filename), Ok tt) ->
  let path := path_join (path_join out directory) filename in
  let final_check := validate_rendered_output_path out directory filename path (rc_maximum_path_bytes context) in
  slen path <= rc_maximum_path_bytes context
  /\ (final_check = Ok tt <->
      validate_rendered_directory directory = Ok tt /\ validate_filename filename = Ok tt)
  /\ ((forall d f, layout <> Custom d f) -> final_check = Ok tt).
Proof.
  intros Hnew Hut Hup Huc Hl Hp Hs He Hr suffix Hrender path check.
  destruct (policy_new_inv _ _ _ _ (command context) Hnew) as (<- & Hout & Hpat).
  pose proof (rendered_output _ _ _ _ _ _ _ _ _ Hrender) as H.
  destruct (patterns policy (command context)) as [dp fp]. destruct H as (Hv & Hc & Hcap & Hd & Hf).
  destruct (policy_literals _ _ _ _ Hl Hpat) as [Hld Hlf].
  assert (utf8 directory = true) as Hud by by eapply text_utf8; [..|exact Hd].
  assert (utf8 filename = true) as Huf by by eapply text_utf8; [..|exact Hf].
  pose proof (output_dir_names _ Hout) as (_ & Huo & _).
  destruct (pattern_capacity_inv _ _ _ _ _ Huo Hcap) as (d & f & Hmd & Hmf & Hmax & Hmax').
  assert (slen directory <= d) as Hdb by by eapply text_bound; [..|exact Hd|].
  assert (slen filename <= f) as Hfb by by eapply text_bound; [..|exact Hf|].
  pose proof (final_path_length _ directory filename d Hout Hdb) as Hlen. fold path in Hlen.
  assert (check = Ok tt <-> validate_rendered_directory directory = Ok tt /\ validate_filename filename = Ok tt)
    as Hiff by (apply final_check_iff; [done..|fold path; lia|fold path; lia]).
  split_and!; [lia|done|]. intros Hb. apply Hiff.
  by eapply builtin_names; [..|exact (builtin_patterns _ _ _ _ Hb Hpat)|exact Hv|exact Hc|exact Hd|exact Hf].
Qed.

(** A custom directory pattern may render an absolute directory, and a custom
    file name pattern an empty name. *)
Definition custom_policy (directory filename : string) : Result ResolvedExportPolicy :=
  let? d := parse directory in
  let? f := parse filename in
  policy_new "/tmp/out" (Custom d f) preview_activity.
Definition rendered_by (policy : Result ResolvedExportPolicy) (part_count part : Z) : Result (string * string) :=
  let? policy := policy in
  match render_policy_output_into policy preview_context "left" part
          (if part_count =? 1 then "" else "-part" +:+ padded part 3) 102 103 ("", "") with
  | (x, Ok _) => Ok x
  | (_, Err e) => Err e
  | (_, Panic) => Panic
  end.
Definition final_check_of (directory filename : string) : Result unit :=
  validate_rendered_output_path "/tmp/out" directory filename
    (path_join (path_join "/tmp/out" directory) filename) 255.

Example absolute_directory_refused :
  rendered_by (custom_policy "/etc" "{channel}.wav") 1 1 = Ok ("/etc", "left.wav")
  /\ final_check_of "/etc" "left.wav" = Err (validation "rendered export directory is not a safe relative path").
Proof. vm_compute. auto. Qed.

Example empty_filename_refused :
  rendered_by (custom_policy "wav" "{partSuffix}") 1 1 = Ok ("wav", "")
  /\ final_check_of "wav" "" = Err (validation "rendered export filename must be one nonempty normal component").
Proof. vm_compute. auto. Qed.

Lemma capacity_check_suffices_witness :
  (rendered_by (Ok preview_policy) 3 2 = Ok ("20260101", "left-part002.wav")
   /\ final_check_of "20260101" "left-part002.wav" = Ok tt)
  /\ exists d f,
       parse "/etc" = Ok d /\ parse "{channel}.wav" = Ok f
       /\ (final_check_of "/etc" "left.wav" = Ok tt
           <-> validate_rendered_directory "/etc" = Ok tt /\ validate_filename "left.wav" = Ok tt).
Proof.
  split.
  - split; [vm_compute; reflexivity|].
    apply (capacity_check_suffices "/tmp/out" CommandDefault preview_activity preview_policy preview_context "left"
             3 2 102 103 "20260101" "left-part002.wav");
      first [vm_compute; reflexivity|unfold is_u64, is_u32, u64_max, u32_max; cbn; lia|discriminate].
  - exists (mkPattern [Literal "/etc"]), (mkPattern [Token Channel; Literal ".wav"]).
    split; [vm_compute; reflexivity|]. split; [vm_compute; reflexivity|].
    apply (capacity_check_suffices "/tmp/out" (Custom (mkPattern [Literal "/etc"]) (mkPattern [Token Channel; Literal ".wav"]))
             preview_activity
             (match custom_policy "/etc" "{channel}.wav" with Ok p => p | _ => preview_policy end)
             preview_context "left" 1 1 102 103);
      first [vm_compute; reflexivity|unfold is_u64, is_u32, u64_max, u32_max; cbn; lia|idtac].
    intros d f [= <- <-]. split; repeat constructor.
Defined.
