(* ===== verification/Text.v ===== *)
(** * Texts and ordered maps of the standard library

    [str::trim], [u32::from_str] and [BTreeMap<String, _>], as the configuration
    uses them. A text is valid UTF-8, so that a character is recognized at
    either end of it. *)
From Stdlib Require Import Ascii Sorted.
From S2P Require Import Prelude.
From S2P Require Import Paths.

(** ** Trimming *)

Definition encoded (bytes : list nat) : string := fold_right (fun b => String (ascii_of_nat b)) "" bytes.

(** The characters with the property White_Space, in UTF-8. *)
Definition white_spaces : list string :=
  map encoded ([[9]; [10]; [11]; [12]; [13]; [32]; [194; 133]; [194; 160]; [225; 154; 128]]
               ++ map (fun b => [226; 128; b]) (seq 128 11)
               ++ [[226; 128; 168]; [226; 128; 169]; [226; 128; 175]; [226; 129; 159]; [227; 128; 128]])%nat.

Definition cut_front (s : string) : option string :=
  match List.find (fun w => str_starts_with s w) white_spaces with
  | Some w => Some (String.substring (String.length w) (String.length s - String.length w) s)
  | None => None
  end.

Definition cut_back (s : string) : option string :=
  match List.find (fun w => str_ends_with s w) white_spaces with
  | Some w => Some (String.substring 0 (String.length s - String.length w) s)
  | None => None
  end.

Fixpoint cut_all (cut : string -> option string) (n : nat) (s : string) : string :=
  match n with
  | O => s
  | S n' => match cut s with Some s' => cut_all cut n' s' | None => s end
  end.

(** Each character that is cut has a byte, so the length of the text is enough
    fuel. *)
Definition trim_start (s : string) : string := cut_all cut_front (String.length s) s.
Definition trim_end (s : string) : string := cut_all cut_back (String.length s) s.
Definition trim (s : string) : string := trim_end (trim_start s).

(** [.map(str::trim).filter(|value| !value.is_empty())] *)
Definition not_blank (value : option string) : option string :=
  v ← value; let v := trim v in if String.eqb v "" then None else Some v.

(** ** Numbers *)

Definition digit (c : ascii) : option Z :=
  let n := Z.of_N (N_of_ascii c) in if (48 <=? n) && (n <=? 57) then Some (n - 48) else None.

Fixpoint parse_digits (acc : Z) (s : string) : option Z :=
  match s with
  | EmptyString => Some acc
  | String c s' => d ← digit c; acc ← checked u32_max (acc * 10); acc ← checked u32_max (acc + d); parse_digits acc s'
  end.

(** [str::parse::<u32>] *)
Definition parse_u32 (s : string) : option Z :=
  match s with
  | EmptyString => None
  | String "+"%char s' => if String.eqb s' "" then None else parse_digits 0 s'
  | _ => parse_digits 0 s
  end.

(** ** [BTreeMap<String, V>]: its entries in the order of the keys *)

Section btree.
Context {V : Type}.

Definition BTreeMap := list (string * V).

Fixpoint bt_get (key : string) (m : BTreeMap) : option V :=
  match m with
  | [] => None
  | (k, v) :: m' => if String.eqb k key then Some v else bt_get key m'
  end.

Fixpoint bt_insert (key : string) (value : V) (m : BTreeMap) : BTreeMap :=
  match m with
  | [] => [(key, value)]
  | (k, v) :: m' =>
      match String.compare key k with
      | Lt => (key, value) :: m
      | Eq => (key, value) :: m'
      | Gt => (k, v) :: bt_insert key value m'
      end
  end.

Definition sorted_keys (m : BTreeMap) : Prop := StronglySorted (fun x y => String.compare x.1 y.1 = Lt) m.
End btree.
Arguments BTreeMap : clear implicits.

(** ** Lemmas *)

Lemma omap_Ok {E A B} (f : A -> B) (m : outcome E A) b : Prelude.omap f m = Ok b -> exists a, m = Ok a /\ b = f a.
Proof. destruct m; cbn; [|done..]. intros [= <-]. eauto. Qed.

Lemma ascii_compare_refl c : Ascii.compare c c = Eq.
Proof. unfold Ascii.compare. apply N.compare_refl. Qed.

Lemma ascii_compare_Eq c d : Ascii.compare c d = Eq -> c = d.
Proof. unfold Ascii.compare. intros H%N.compare_eq. rewrite <-(ascii_N_embedding c), <-(ascii_N_embedding d). by rewrite H. Qed.

Lemma compare_refl s : String.compare s s = Eq.
Proof. induction s as [|c s IH]; [done|]. cbn. by rewrite ascii_compare_refl. Qed.

Lemma compare_trans a b c : String.compare a b = Lt -> String.compare b c = Lt -> String.compare a c = Lt.
Proof.
  revert b c. induction a as [|x a IH]; intros [|y b] [|z c]; cbn; try done.
  destruct (Ascii.compare x y) eqn:E1; [|destruct (Ascii.compare y z) eqn:E2|done].
  - apply ascii_compare_Eq in E1 as ->. destruct (Ascii.compare y z); [by apply IH|done|done].
  - apply ascii_compare_Eq in E2 as ->. by rewrite E1.
  - intros _ _. unfold Ascii.compare in *. apply N.compare_lt_iff in E1, E2.
    assert (N.compare (N_of_ascii x) (N_of_ascii z) = Lt) as ->; [|done]. apply N.compare_lt_iff. by etrans.
  - done.
Qed.

Lemma bt_get_insert {V} key key' (v : V) m :
  bt_get key' (bt_insert key v m) = if String.eqb key key' then Some v else bt_get key' m.
Proof.
  induction m as [|[k x] m IH]; cbn [bt_insert bt_get]; [done|].
  destruct (String.compare key k) eqn:E; cbn [bt_get].
  - apply String.compare_eq_iff in E as ->. by destruct (String.eqb k key').
  - done.
  - rewrite IH. destruct (String.eqb_spec k key') as [->|]; [|done].
    destruct (String.eqb_spec key key') as [->|]; [|done]. by rewrite compare_refl in E.
Qed.

Lemma bt_insert_sorted {V} key (v : V) m : sorted_keys m -> sorted_keys (bt_insert key v m).
Proof.
  induction 1 as [|[k x] m Hs IH HF]; cbn [bt_insert]; [by repeat constructor|].
  destruct (String.compare key k) eqn:E.
  - apply String.compare_eq_iff in E as ->. by constructor.
  - constructor; [by constructor|]. constructor; [done|]. eapply Forall_impl; [exact HF|].
    intros [k' x'] H. cbn in *. by eapply compare_trans.
  - constructor; [exact IH|]. rewrite String.compare_antisym in E.
    assert (String.compare k key = Lt) as Hk by by destruct (String.compare k key).
    clear -Hk HF. induction m as [|[k' x'] m IH]; cbn [bt_insert]; [by repeat constructor|].
    apply Forall_cons in HF as [H1 H2]. destruct (String.compare key k'); repeat (constructor; [done|]); auto.
Qed.

(** ** What trimming leaves *)

(** A text that trimming does not change. *)
Definition trimmed (s : string) : Prop := cut_front s = None /\ cut_back s = None.

Lemma text_whole s : String.substring 0 (String.length s) s = s.
Proof. induction s as [|c s IH]; [done|]. cbn. by rewrite IH. Qed.

Lemma ends_with_app s p : str_ends_with s p = true <-> exists q, s = q +:+ p.
Proof.
  unfold str_ends_with. rewrite andb_true_iff, Z.leb_le, String.eqb_eq. unfold slen. split.
  - intros [Hl Hs]. exists (String.substring 0 (String.length s - String.length p) s).
    assert (forall n (t : string), (n <= String.length t)%nat ->
      t = String.substring 0 n t +:+ String.substring n (String.length t - n) t) as Hsplit.
    { clear. induction n as [|n IH]; intros t H.
      - rewrite Nat.sub_0_r. replace (String.substring 0 0 t) with "" by by destruct t. cbn.
        by rewrite string_nil_app, text_whole.
      - destruct t as [|c t]; [cbn in H; lia|]. cbn in *. rewrite string_cons_app. by rewrite <-IH by lia. }
    rewrite (Hsplit (String.length s - String.length p)%nat s) at 1 by lia. f_equal.
    replace (String.length s - (String.length s - String.length p))%nat with (String.length p) by lia. exact Hs.
  - intros [q ->].
    assert (String.length (q +:+ p) = String.length q + String.length p)%nat as Hl.
    { induction q as [|c q IH]; [done|]. rewrite string_cons_app. cbn. by rewrite IH. }
    rewrite Hl. split; [rewrite Nat2Z.inj_add; lia|]. replace (String.length q + String.length p - String.length p)%nat with (String.length q) by lia.
    induction q as [|c q IH]; [apply text_whole|]. apply IH. cbn in Hl. injection Hl as Hl. exact Hl.
Qed.

Lemma string_app_length a b : String.length (a +:+ b) = (String.length a + String.length b)%nat.
Proof. induction a as [|c a IH]; [done|]. rewrite string_cons_app. cbn. by rewrite IH. Qed.

Lemma starts_with_app s p : str_starts_with s p = true <-> exists q, s = p +:+ q.
Proof.
  unfold str_starts_with. revert s. induction p as [|c p IH]; intros s.
  - split; [by exists s|]. by destruct s.
  - destruct s as [|d s]; cbn [String.prefix].
    + split; [done|]. by intros [q Hq].
    + destruct (ascii_dec c d) as [->|Hn].
      * rewrite IH. split; intros [q Hq]; exists q; [by rewrite Hq|]. rewrite string_cons_app in Hq. by injection Hq.
      * split; [done|]. intros [q Hq]. rewrite string_cons_app in Hq. by injection Hq.
Qed.

Lemma white_space_nonempty w : In w white_spaces -> w <> "".
Proof.
  assert (forallb (fun w => negb (String.eqb w "")) white_spaces = true) as H by by vm_compute.
  rewrite forallb_forall in H. intros Hw ->. by apply H in Hw.
Qed.

Lemma substring_behind a b : String.substring (String.length a) (String.length b) (a +:+ b) = b.
Proof. induction a as [|c a IH]; [apply text_whole|exact IH]. Qed.

Lemma substring_before a b : String.substring 0 (String.length a) (a +:+ b) = a.
Proof. induction a as [|c a IH]; [by destruct b|]. rewrite string_cons_app. cbn. by rewrite IH. Qed.

(** What a cut leaves is the rest of the text behind or before a character. *)
Lemma cut_front_Some s r : cut_front s = Some r -> exists w, In w white_spaces /\ s = w +:+ r.
Proof.
  unfold cut_front. destruct (List.find _ _) as [w|] eqn:E; [|done]. intros [= <-].
  apply find_some in E as [Hw Hs]. apply starts_with_app in Hs as [q ->]. exists w. split; [done|].
  rewrite string_app_length, Nat.add_comm, Nat.add_sub, substring_behind. done.
Qed.

Lemma cut_back_Some s r : cut_back s = Some r -> exists w, In w white_spaces /\ s = r +:+ w.
Proof.
  unfold cut_back. destruct (List.find _ _) as [w|] eqn:E; [|done]. intros [= <-].
  apply find_some in E as [Hw Hs]. apply ends_with_app in Hs as [q ->]. exists w. split; [done|].
  by rewrite string_app_length, Nat.add_sub, substring_before.
Qed.

Lemma cut_front_None s : cut_front s = None <-> forall w q, In w white_spaces -> s <> w +:+ q.
Proof.
  unfold cut_front. destruct (List.find _ _) as [w|] eqn:E.
  - apply find_some in E as [Hw Hs]. apply starts_with_app in Hs as [q Hq]. split; [done|]. intros H. by destruct (H w q).
  - split; [|done]. intros _ w q Hw Hs. apply (find_none _ _ E) in Hw.
    assert (str_starts_with s w = true) as Ht; [|congruence]. apply starts_with_app. by exists q.
Qed.

(** Cutting ends: each step shortens the text. *)
Lemma cut_all_None cut n s : (forall s r, cut s = Some r -> (String.length r < String.length s)%nat) ->
  (String.length s <= n)%nat -> cut (cut_all cut n s) = None.
Proof.
  intros Hc. revert s. induction n as [|n IH]; intros s Hn; cbn [cut_all].
  - destruct (cut s) as [r|] eqn:E; [|done]. apply Hc in E. lia.
  - destruct (cut s) as [r|] eqn:E; [|done]. apply IH. apply Hc in E. lia.
Qed.

Lemma cut_all_fixed cut n s : cut s = None -> cut_all cut n s = s.
Proof. intros H. destruct n; cbn [cut_all]; [done|]. by rewrite H. Qed.

Lemma cut_front_shorter s r : cut_front s = Some r -> (String.length r < String.length s)%nat.
Proof.
  intros (w & Hw & ->)%cut_front_Some. apply white_space_nonempty in Hw. rewrite string_app_length.
  destruct w; [done|]. cbn. lia.
Qed.

Lemma cut_back_shorter s r : cut_back s = Some r -> (String.length r < String.length s)%nat.
Proof.
  intros (w & Hw & ->)%cut_back_Some. apply white_space_nonempty in Hw. rewrite string_app_length.
  destruct w; [done|]. cbn. lia.
Qed.

(** A text without a white space in front keeps none when its end is cut. *)
Lemma cut_back_keeps_front n s : cut_front s = None -> cut_front (cut_all cut_back n s) = None.
Proof.
  revert s. induction n as [|n IH]; intros s H; cbn [cut_all]; [done|]. destruct (cut_back s) as [r|] eqn:E; [|done].
  apply IH. apply cut_back_Some in E as (w & _ & ->). rewrite cut_front_None in *. intros v q Hv ->.
  apply (H v (q +:+ w) Hv). by rewrite string_app_assoc.
Qed.

Lemma trim_trimmed s : trimmed (trim s).
Proof.
  split; unfold trim, trim_end, trim_start.
  - apply cut_back_keeps_front, cut_all_None; [apply cut_front_shorter|done].
  - apply cut_all_None; [apply cut_back_shorter|done].
Qed.

Lemma trim_fixed s : trimmed s -> trim s = s.
Proof. intros [H1 H2]. unfold trim, trim_start, trim_end. rewrite !(cut_all_fixed cut_front) by done. by apply cut_all_fixed. Qed.

Lemma trim_idempotent s : trim (trim s) = trim s.
Proof. apply trim_fixed, trim_trimmed. Qed.

Lemma not_blank_Some v t : not_blank v = Some t <-> exists s, v = Some s /\ t = trim s /\ t <> "".
Proof.
  unfold not_blank. destruct v as [s|]; cbn; [|split; [done|by intros (? & ? & _)]].
  destruct (String.eqb_spec (trim s) "") as [E|E].
  - split; [done|]. intros (? & [= <-] & -> & H). done.
  - split; [intros [= <-]; by exists s|]. by intros (? & [= <-] & -> & _).
Qed.

Example trim_example : trim (String "009" (" in" +:+ encoded [194; 160]%nat)) = "in".
Proof. vm_compute. reflexivity. Qed.

(** A text that does not begin with a white space is not blank. *)
Lemma trim_not_blank s : s <> "" -> cut_front s = None -> trim s <> "".
Proof.
  intros Hn Hf. unfold trim, trim_start. rewrite (cut_all_fixed cut_front) by done. unfold trim_end.
  generalize (String.length s) as n. intros n. revert s Hn Hf. induction n as [|n IH]; intros s Hn Hf; cbn [cut_all]; [done|].
  destruct (cut_back s) as [r|] eqn:E; [|done]. apply cut_back_Some in E as (w & Hw & ->). rewrite cut_front_None in Hf. apply IH.
  - intros ->. by apply (Hf w "" Hw), (eq_sym (string_app_nil w)).
  - apply cut_front_None. intros v q Hv ->. apply (Hf v (q +:+ w) Hv). by rewrite string_app_assoc.
Qed.
