(* ===== verification/LegacyConfig.v ===== *)
(** * The configuration of one session (src/config.rs)

    The capture ports of a configuration, the static checks of a [LambConfig]
    and its export policy. *)
From Stdlib Require Import Ascii.
From S2P Require Import Prelude.
From S2P Require Import Errors.
From S2P Require Import Paths.
From S2P Require Import Text.
From S2P Require Import Activity.
From S2P Require Import ExportPattern.
From S2P Require Import ExportPaths.

Record CapturePortConfig := mkPortConfig { port_source : option string; port_name : option string }.

Record ConfiguredCapturePort := mkConfiguredPort { configured_source : string; configured_name : string }.

Record MemoryConfig := mkMemory { memory_max_bytes : option Z; memory_headroom : f64 }.

Record ExportConfig := mkExport {
  export_mode : string;
  export_format : string;
  export_system_temp : bool;
  export_split_bytes : Z;
}.

Record LambConfig := mkLambConfig {
  config_version : Z;
  user : string;
  target : option string;
  backend : string;
  channels : option Z;
  channel_map : option (list string);
  capture_ports : list CapturePortConfig;
  config_seconds : Z;
  config_sample_rate : Z;
  sample_format : string;
  latency : option string;
  dont_remix : bool;
  config_output_dir : string;
  memory : MemoryConfig;
  config_max_active_snapshots : Z;
  allow_queued_recall : bool;
  config_chunk_frames : option Z;
  control_socket_path : string;
  control_permissions : string;
  export : ExportConfig;
}.

Definition default_backend : string := "pipewire".

(** ** Capture ports *)

(** [{field}[{index}].{part}] *)
Definition port_field (field : string) (index : Z) (part : string) : string :=
  field +:+ "[" +:+ decimal index +:+ "]." +:+ part.

(** The result of [BTreeMap::insert] of an index is the index it replaces. *)
Definition duplicates (field : string) (index : Z) (part key : string) (indexes : BTreeMap Z) : Result (BTreeMap Z) :=
  match bt_get key indexes with
  | Some first =>
      Err (validation (port_field field index part +:+ " duplicates " +:+ port_field field first part))
  | None => Ok (bt_insert key index indexes)
  end.

(** The loop of [normalize_capture_ports]. *)
Fixpoint normalize_entries (field : string) (index : Z) (entries : list (option string * option string))
    (source_indexes name_indexes : BTreeMap Z) : Result (list ConfiguredCapturePort) :=
  match entries with
  | [] => Ok []
  | (source, name) :: rest =>
      let? source := ok_or (not_blank source) (validation (port_field field index "source is required")) in
      let? name := ok_or (not_blank name) (validation (port_field field index "name is required")) in
      let? source_indexes := duplicates field index "source" source source_indexes in
      let? name_indexes := duplicates field index "name" name name_indexes in
      let? resolved := normalize_entries field (index + 1) rest source_indexes name_indexes in
      Ok (mkConfiguredPort source name :: resolved)
  end.

Definition normalize_capture_ports (entries : list (option string * option string)) (field required_error : string)
    : Result (list ConfiguredCapturePort) :=
  let? resolved := normalize_entries field 0 entries [] [] in
  match resolved with
  | [] => Err (validation required_error)
  | _ => Ok resolved
  end.

Definition resolved_capture_ports (c : LambConfig) : Result (list ConfiguredCapturePort) :=
  normalize_capture_ports (map (fun p => (port_source p, port_name p)) (capture_ports c))
    "capturePorts" "capturePorts is required for pipewire backend".

(** ** Static checks *)

Definition check_backend_channels (c : LambConfig) : Result unit :=
  if String.eqb (backend c) "pipewire" then
    let? _ := err_if (match channels c with Some _ => true | None => false end) (validation "channels conflicts with capturePorts for pipewire backend") in
    let? _ := err_if (match channel_map c with Some _ => true | None => false end) (validation "channelMap conflicts with capturePorts for pipewire backend") in
    let? _ := resolved_capture_ports c in
    Ok tt
  else
    match channels c with
    | None => Ok tt
    | Some count =>
        let? _ := err_if (count =? 0) (validation "channels must be > 0") in
        match channel_map c with
        | Some m =>
            err_if (negb (zlen m =? 0) && negb (zlen m =? count))
              (validation ("channelMap length " +:+ decimal (zlen m) +:+ " must match channels " +:+ decimal count))
        | None => Ok tt
        end
    end.

Definition validate_static (c : LambConfig) : Result unit :=
  let? _ := err_if (negb (config_version c =? 1))
              (validation ("configVersion " +:+ decimal (config_version c) +:+ " is not supported; expected 1")) in
  let? _ := err_if (String.eqb (trim (user c)) "") (validation "user must be non-empty") in
  let? _ := err_if (negb (String.eqb (backend c) "pipewire") && negb (String.eqb (backend c) "fake"))
              (validation "backend must be pipewire or fake") in
  let? _ := err_if (config_seconds c =? 0) (validation "seconds must be > 0") in
  let? _ := err_if (config_sample_rate c =? 0) (validation "sampleRate must be > 0") in
  let? _ := check_backend_channels c in
  let? _ := err_if (negb (String.eqb (sample_format c) "F32LE"))
              (validation ("sampleFormat " +:+ sample_format c +:+ " is unsupported in v0.2; expected F32LE")) in
  let? _ := err_if (negb (is_absolute (config_output_dir c))) (validation "outputDir must be absolute in daemon config") in
  let? _ := err_if (SFltb (memory_headroom (memory c)) (f64_of_Z 1) || negb (is_finite (memory_headroom (memory c))))
              (validation "memory.headroom must be finite and >= 1.0") in
  let? _ := err_if (config_max_active_snapshots c =? 0) (validation "maxActiveSnapshots must be > 0") in
  let? _ := err_if (match config_chunk_frames c with Some f => f =? 0 | None => false end)
              (validation "chunkFrames must be > 0") in
  let? _ := err_if (negb (String.eqb (control_permissions c) "0600"))
              (validation "controlPermissions must be 0600 in v0.2") in
  let? _ := err_if (negb (String.eqb (export_mode (export c)) "per-channel"))
              (validation "export.mode must be per-channel") in
  let? _ := err_if (negb (String.eqb (export_format (export c)) "wav")) (validation "export.format must be wav") in
  err_if ((export_split_bytes (export c) =? 0) || (4000000000 <=? export_split_bytes (export c)))
    (validation "export.splitWhenOverBytes must be between 1 and 3999999999").

(** ** The export policy *)

Definition default_channel_name (index : Z) : string := "ch" +:+ padded (index + 1) 2.

Definition channel_names (c : LambConfig) : Result (list string) :=
  if String.eqb (backend c) "pipewire" then
    let? ports := resolved_capture_ports c in Ok (map configured_name ports)
  else
    match channel_map c with
    | Some (name :: names) => Ok (name :: names)
    | _ => Ok (map (fun i => default_channel_name (Z.of_nat i)) (seq 0 (Z.to_nat (default 0 (channels c)))))
    end.

Definition resolved_export_policy_with_layout (c : LambConfig) (layout : ResolvedLayout) : Result ResolvedExportPolicy :=
  let? _ := validate_static c in
  let? names := channel_names c in
  let channels := map (fun name => mkChannelPolicy name Always None) names in
  omap (with_system_temp (export_system_temp (export c)))
    (policy_new (config_output_dir c) layout (mkPolicy ExactZero channels true false)).

Definition resolved_export_policy (c : LambConfig) (command : ExportCommand) : Result ResolvedExportPolicy :=
  resolved_export_policy_with_layout c match command with Recall => FlatDetailed | Dump => TimestampDirectory end.

Definition resolved_session_export_policy (c : LambConfig) : Result ResolvedExportPolicy :=
  resolved_export_policy_with_layout c CommandDefault.

(** ** What the ports of a configuration are *)

Definition port_of (entry : option string * option string) (p : ConfiguredCapturePort) : Prop :=
  not_blank entry.1 = Some (configured_source p) /\ not_blank entry.2 = Some (configured_name p).

Lemma duplicates_Ok field index part key m m' : duplicates field index part key m = Ok m' <->
  bt_get key m = None /\ m' = bt_insert key index m.
Proof.
  unfold duplicates. destruct (bt_get key m); split; try done; [by intros [? _]|by intros [= <-]|by intros [_ ->]].
Qed.

Lemma normalize_entries_Ok field index entries ms mn ports :
  normalize_entries field index entries ms mn = Ok ports <->
  Forall2 port_of entries ports /\ NoDup (map configured_source ports) /\ NoDup (map configured_name ports)
  /\ Forall (fun p => bt_get (configured_source p) ms = None /\ bt_get (configured_name p) mn = None) ports.
Proof.
  revert index ms mn ports. induction entries as [|[s n] entries IH]; intros index ms mn ports; cbn [normalize_entries].
  { split; [intros [= <-]; repeat constructor; apply NoDup_nil_2|]. intros (H & _). inversion H. done. }
  split.
  - intros H. apply obind_Ok in H as (s' & H1 & H). apply ok_or_Ok in H1.
    apply obind_Ok in H as (n' & H2 & H). apply ok_or_Ok in H2.
    apply obind_Ok in H as (ms' & H3 & H). apply duplicates_Ok in H3 as [H3 ->].
    apply obind_Ok in H as (mn' & H4 & H). apply duplicates_Ok in H4 as [H4 ->].
    apply obind_Ok in H as (rest & H & [= <-]). apply IH in H as (HF & Hs & Hn & Hf).
    split; [by constructor|]. cbn [map]. rewrite !NoDup_cons. cbn [configured_source configured_name].
    assert (Forall (fun p => configured_source p <> s' /\ bt_get (configured_source p) ms = None
                             /\ configured_name p <> n' /\ bt_get (configured_name p) mn = None) rest) as Hr.
    { eapply Forall_impl; [exact Hf|]. intros p. cbn beta. rewrite !bt_get_insert.
      destruct (String.eqb_spec s' (configured_source p)), (String.eqb_spec n' (configured_name p)); intros [? ?]; split_and!; congruence. }
    split_and!; try done.
    + intros Hin%list_elem_of_In%in_map_iff. destruct Hin as (p & Hp & Hin).
      rewrite Forall_forall in Hr. apply list_elem_of_In, Hr in Hin. by destruct Hin.
    + intros Hin%list_elem_of_In%in_map_iff. destruct Hin as (p & Hp & Hin).
      rewrite Forall_forall in Hr. apply list_elem_of_In, Hr in Hin. by destruct Hin as (_ & _ & ? & _).
    + constructor; [done|]. eapply Forall_impl; [exact Hr|]. by intros p (_ & ? & _ & ?).
  - intros (HF & Hs & Hn & Hf). inversion HF as [|? [s' n'] ? rest [H1 H2] HF' ]; subst. cbn [fst snd configured_source configured_name] in H1, H2.
    cbn [map] in Hs, Hn. cbn [configured_source configured_name] in Hs, Hn. apply NoDup_cons in Hs as [Hs1 Hs2], Hn as [Hn1 Hn2].
    apply Forall_cons in Hf as [[Hf1 Hf2] Hf]. cbn [configured_source configured_name] in Hf1, Hf2.
    rewrite H1, H2. cbn [ok_or obind]. unfold duplicates. rewrite Hf1, Hf2. cbn [obind].
    match goal with |- context [normalize_entries ?f ?i ?e ?a ?b] => assert (normalize_entries f i e a b = Ok rest) as ->; [|done] end.
    apply IH. split_and!; try done. apply Forall_forall. intros p Hp. rewrite Forall_forall in Hf. specialize (Hf p Hp) as [? ?].
    rewrite !bt_get_insert. destruct (String.eqb_spec s' (configured_source p)) as [->|], (String.eqb_spec n' (configured_name p)) as [->|]; try done.
    + exfalso. apply Hs1, list_elem_of_In, in_map_iff. exists p. split; [done|]. by apply list_elem_of_In.
    + exfalso. apply Hs1, list_elem_of_In, in_map_iff. exists p. split; [done|]. by apply list_elem_of_In.
    + exfalso. apply Hn1, list_elem_of_In, in_map_iff. exists p. split; [done|]. by apply list_elem_of_In.
Qed.

Lemma normalize_Ok entries field required ports : normalize_capture_ports entries field required = Ok ports <->
  ports <> [] /\ Forall2 port_of entries ports /\ NoDup (map configured_source ports) /\ NoDup (map configured_name ports).
Proof.
  unfold normalize_capture_ports. split.
  - intros H. apply obind_Ok in H as (l & H1 & H2). apply normalize_entries_Ok in H1 as (? & ? & ? & _).
    destruct l; [done|]. injection H2 as <-. done.
  - intros (H1 & H2 & H3 & H4). assert (normalize_entries field 0 entries [] [] = Ok ports) as ->.
    { apply normalize_entries_Ok. split_and!; try done. by apply Forall_forall. }
    cbn [obind]. by destruct ports.
Qed.

(** The ports as the entries of a configuration. *)
Definition as_entry (p : ConfiguredCapturePort) : option string * option string :=
  (Some (configured_source p), Some (configured_name p)).

Lemma port_of_again entry p : port_of entry p -> port_of (as_entry p) p.
Proof.
  intros [H1 H2]. apply not_blank_Some in H1 as (s & _ & Hs & Hs'), H2 as (n & _ & Hn & Hn').
  split; apply not_blank_Some; cbn; [exists (configured_source p)|exists (configured_name p)];
    (split; [done|]; split; [|done]).
  - by rewrite Hs, trim_idempotent.
  - by rewrite Hn, trim_idempotent.
Qed.

(** The capture ports of a configuration are accepted exactly if there is one,
    every port has a source and a name that are not blank, and neither the
    trimmed sources nor the trimmed names repeat. What is accepted are the
    trimmed sources and names in their order; it is accepted again without a
    change, and no configuration makes the check panic. *)
Theorem ports_normalized entries field required ports :
  (normalize_capture_ports entries field required = Ok ports <->
   ports <> [] /\ Forall2 port_of entries ports /\ NoDup (map configured_source ports) /\ NoDup (map configured_name ports))
  /\ (normalize_capture_ports entries field required = Ok ports ->
      forall field' required', normalize_capture_ports (map as_entry ports) field' required' = Ok ports)
  /\ normalize_capture_ports entries field required <> Panic.
Proof.
  split; [apply normalize_Ok|]. split.
  - intros (H1 & H2 & H3 & H4)%normalize_Ok f r. apply normalize_Ok. split_and!; try done.
    clear H1 H3 H4. induction H2 as [|e p es ps H _ IH]; cbn [map]; constructor; [|done]. by eapply port_of_again.
  - unfold normalize_capture_ports. assert (forall index a b, normalize_entries field index entries a b <> Panic) as H.
    { induction entries as [|[s n] es IH]; intros index a b; cbn [normalize_entries]; [done|].
      destruct (not_blank s); [|done]. destruct (not_blank n); [|done]. cbn [ok_or obind].
      unfold duplicates. destruct (bt_get _ a); [done|]. destruct (bt_get _ b); [done|]. cbn [obind].
      specialize (IH (index + 1) (bt_insert s0 index a) (bt_insert s1 index b)). by destruct (normalize_entries _ _ _ _ _). }
    specialize (H 0 [] []). destruct (normalize_entries _ _ _ _ _) as [[]| |]; done.
Qed.

Example ports_trimmed :
  normalize_capture_ports [(Some " in:1 ", Some "voice"); (Some "in:2", Some "guitar ")] "ports" "none"
  = Ok [mkConfiguredPort "in:1" "voice"; mkConfiguredPort "in:2" "guitar"].
Proof. vm_compute. reflexivity. Qed.

Example ports_repeated :
  normalize_capture_ports [(Some "in:1", Some "voice"); (Some "in:2", Some "voice ")] "ports" "none"
  = Err (Validation "ports[1].name duplicates ports[0].name").
Proof. vm_compute. reflexivity. Qed.
