(* ===== verification/AppConfig.v ===== *)
(** * The configuration file (src/app_config.rs)

    The records of a configuration, its defaults and the checks that a saved
    configuration has passed. Reading and printing TOML is not modelled. *)
From Stdlib Require Import Ascii.
From S2P Require Import Prelude.
From S2P Require Import Errors.
From S2P Require Import Paths.
From S2P Require Import Text.
From S2P Require Import Activity.
From S2P Require Import ExportPattern.
From S2P Require Import ExportPaths.

Inductive ExportLayoutKind := LayoutFlatDetailed | LayoutTimestampDirectory | LayoutCustom.

Record CapturePort := mkCapturePort {
  capture_source : option string;
  capture_name : option string;
  capture_export_mode : option ChannelExportMode;
}.

Record CaptureConfig := mkCapture { ports : list CapturePort; sources : list string }.

Record PipewireProfileConfig := mkPipewire {
  pw_target : option string;
  pw_sample_rate : option Z;
  pw_dont_remix : bool;
  pw_capture_ports : list CapturePort;
  pw_channel_map : option (list string);
  pw_latency : option string;
}.

Record ProfileExportConfig := mkProfileExport {
  pe_output_dir : option string;
  pe_use_system_temp : bool;
  pe_mode : option string;
  pe_format : option string;
  pe_layout : option ExportLayoutKind;
  pe_directory_pattern : option string;
  pe_filename_pattern : option string;
  pe_default_channel_mode : option ChannelExportMode;
  pe_activity_detector : option ActivityDetectorKind;
  pe_silence_policy : option SilencePolicyPreset;
}.

Record ActivityThresholdConfig := mkThreshold {
  threshold_dbfs : f64;
  threshold_source : ThresholdSource;
  updated_at_unix_seconds : Z;
  input_id : string;
  calibration_id : option string;
}.

(** A [ProfileChannelConfig] is its [activity]. *)
Abbreviation ProfileChannelConfig := (option ActivityThresholdConfig).

(** [buffer_seconds] is the only field of [BufferConfig]. *)
Record ProfileConfig := mkProfile {
  profile_backend : option string;
  client_name : option string;
  capture : CaptureConfig;
  buffer_seconds : option Z;
  profile_export : ProfileExportConfig;
  pipewire : PipewireProfileConfig;
  profile_channels : BTreeMap ProfileChannelConfig;
}.

#[export] Instance CaptureConfig_eta : Eta CaptureConfig := fun c => mkCapture (ports c) (sources c).
#[export] Instance ProfileExportConfig_eta : Eta ProfileExportConfig := fun e =>
  mkProfileExport (pe_output_dir e) (pe_use_system_temp e) (pe_mode e) (pe_format e) (pe_layout e) (pe_directory_pattern e)
    (pe_filename_pattern e) (pe_default_channel_mode e) (pe_activity_detector e) (pe_silence_policy e).
#[export] Instance ProfileConfig_eta : Eta ProfileConfig := fun p =>
  mkProfile (profile_backend p) (client_name p) (capture p) (buffer_seconds p) (profile_export p) (pipewire p)
    (profile_channels p).

Record DaemonConfig := mkDaemon {
  start_mode : string;
  active_profile : option string;
  daemon_control_socket_path : string;
}.

Record AppConfig := mkAppConfig { daemon : DaemonConfig; profiles : BTreeMap ProfileConfig }.

#[export] Instance AppConfig_eta : Eta AppConfig := fun c => mkAppConfig (daemon c) (profiles c).

(** ** Defaults *)

Definition default_start_mode : string := "manual".
Definition default_control_socket_path : string := "%t/lamb/control.sock".
Definition default_daemon_config : DaemonConfig := mkDaemon default_start_mode None default_control_socket_path.
Definition default_app_config : AppConfig := mkAppConfig default_daemon_config [].

Definition default_profile : ProfileConfig :=
  mkProfile None None (mkCapture [] []) None (mkProfileExport None false None None None None None None None None)
    (mkPipewire None None false [] None None) [].

Definition default_config_path_from_env (xdg_config_home home : option string) : Result string :=
  match xdg_config_home, home with
  | Some base, _ => Ok (path_join base "lamb/lamb.toml")
  | None, Some home => Ok (path_join home ".config/lamb/lamb.toml")
  | None, None => Err (Config "cannot determine LAMB config path: set XDG_CONFIG_HOME or HOME")
  end.

(** ** Checks *)

Definition validate_app_config (c : AppConfig) : Result unit :=
  err_if (negb (String.eqb (start_mode (daemon c)) "manual" || String.eqb (start_mode (daemon c)) "auto"))
    (validation ("daemon.startMode must be manual or auto, got " +:+ start_mode (daemon c))).

Definition code (c : ascii) : Z := Z.of_N (N_of_ascii c).
Definition between (low high : Z) (c : ascii) : bool := (low <=? code c) && (code c <=? high).
Definition is_ascii_digit : ascii -> bool := between 48 57.
Definition is_ascii_alphanumeric (c : ascii) : bool := is_ascii_digit c || between 65 90 c || between 97 122 c.

Definition is_valid_input_id (value : string) : bool :=
  (slen value =? 64) && forallb (fun c => is_ascii_digit c || between 97 102 c) (String.list_ascii_of_string value).

Definition is_valid_calibration_id (value : string) : bool :=
  ((1 <=? slen value) && (slen value <=? 128))
  && forallb (fun c => is_ascii_alphanumeric c || Ascii.eqb c "-"%char || Ascii.eqb c "_"%char) (String.list_ascii_of_string value).

(** [!value.is_finite() || !(-120.0..=0.0).contains(&value)] *)
Definition threshold_out_of_range (value : f64) : bool :=
  negb (is_finite value) || negb (SFleb (f64_of_Z (-120)) value && SFleb value (f64_of_Z 0)).

(** The checks of one threshold, for the error messages of [field]. *)
Definition check_threshold (field : string) (a : ActivityThresholdConfig) : Result unit :=
  let? _ := err_if (threshold_out_of_range (threshold_dbfs a))
              (validation (field +:+ ".thresholdDbFS must be finite and within [-120.0, 0.0]")) in
  let? _ := err_if (negb (is_valid_input_id (input_id a)))
              (validation (field +:+ ".inputId must be exactly 64 lowercase hexadecimal characters")) in
  let? _ := err_if (match calibration_id a with Some id => negb (is_valid_calibration_id id) | None => false end)
              (validation (field +:+ ".calibrationId must be 1 to 128 ASCII alphanumeric, '-' or '_' characters when present")) in
  err_if (match threshold_source a, calibration_id a with Calibrated, None => true | _, _ => false end)
    (validation (field +:+ ".calibrationId is required for calibrated thresholds")).

(** The field of a channel's threshold. *)
Definition activity_field (profile channel : string) : string :=
  "profile " +:+ profile +:+ ": channels." +:+ channel +:+ ".activity".

Fixpoint check_channels (profile : string) (channels : BTreeMap ProfileChannelConfig) : Result unit :=
  match channels with
  | [] => Ok tt
  | (channel, None) :: rest => check_channels profile rest
  | (channel, Some activity) :: rest =>
      let? _ := check_threshold (activity_field profile channel) activity in check_channels profile rest
  end.

Fixpoint check_profiles (l : BTreeMap ProfileConfig) : Result unit :=
  match l with
  | [] => Ok tt
  | (name, profile) :: rest =>
      let? _ := check_channels name (profile_channels profile) in check_profiles rest
  end.

Definition validate_persisted_config (c : AppConfig) : Result unit :=
  let? _ := validate_app_config c in
  check_profiles (profiles c).
