(* ===== verification/Profile.v ===== *)
(** * Profiles (src/profile.rs)

    A profile of the configuration is resolved to the ports and the export
    policy of a session, and edited by the commands of the program. *)
From Stdlib Require Import Ascii.
From S2P Require Import Prelude.
From S2P Require Import Errors.
From S2P Require Import Paths.
From S2P Require Import Text.
From S2P Require Import Activity.
From S2P Require Import ExportPattern.
From S2P Require Import ExportPaths.
From S2P Require Import LegacyConfig.
From S2P Require Import AppConfig.

Record ResolvedCapturePort := mkResolvedPort { resolved_source : string; resolved_name : string }.

(** [PipeWireCaptureConfig] (src/capture_pipewire.rs) *)
Record PipeWireCaptureConfig := mkPipeWireCapture {
  capture_target : option string;
  capture_configured_ports : list ConfiguredCapturePort;
  capture_sample_rate : Z;
  capture_dont_remix : bool;
  capture_latency : option string;
}.

Record ResolvedProfile := mkResolvedProfile {
  r_name : string;
  r_backend : string;
  r_client_name : string;
  r_ports : list ResolvedCapturePort;
  r_buffer_seconds : Z;
  r_export_policy : ResolvedExportPolicy;
  r_pipewire_config : option PipeWireCaptureConfig;
}.

(** [profile {name}: {message}] *)
Definition of_profile (name message : string) : LambError := validation ("profile " +:+ name +:+ ": " +:+ message).

Definition required_string (field : string) (value : option string) : Result string :=
  ok_or (not_blank value) (validation (field +:+ " is required")).

Definition non_empty_value (field value : string) : Result string :=
  let value := trim value in
  if String.eqb value "" then Err (validation (field +:+ " must be non-empty")) else Ok value.

Definition require_non_empty (field value : string) : Result unit := omap (fun _ => tt) (non_empty_value field value).

(** ** Ports *)

(** [.iter().enumerate().map(f).collect()] of a fallible [f] *)
Fixpoint collect_indexed {A B} (f : Z -> A -> Result B) (index : Z) (l : list A) : Result (list B) :=
  match l with
  | [] => Ok []
  | a :: rest => let? b := f index a in let? bs := collect_indexed f (index + 1) rest in Ok (b :: bs)
  end.

Definition jack_port (index : Z) (p : CapturePort) : Result ResolvedCapturePort :=
  let? source := required_string (port_field "capture.ports" index "source") (capture_source p) in
  let? name := required_string (port_field "capture.ports" index "name") (capture_name p) in
  Ok (mkResolvedPort source name).

Definition jack_source (index : Z) (source : string) : Result ResolvedCapturePort :=
  let? source := non_empty_value ("capture.sources[" +:+ decimal index +:+ "]") source in
  Ok (mkResolvedPort source (default_channel_name index)).

Definition empty {A} (l : list A) : bool := match l with [] => true | _ => false end.

Definition resolve_capture_ports (name : string) (p : ProfileConfig) : Result (list ResolvedCapturePort) :=
  let has_ports := negb (empty (ports (capture p))) in
  let has_sources := negb (empty (sources (capture p))) in
  if has_ports && has_sources then Err (of_profile name "must not specify both capture.ports and capture.sources")
  else if has_ports then collect_indexed jack_port 0 (ports (capture p))
  else if has_sources then collect_indexed jack_source 0 (sources (capture p))
  else Err (of_profile name "capture.ports or capture.sources is required").

Definition resolve_pipewire_capture_ports (name : string) (p : ProfileConfig) : Result (list ResolvedCapturePort) :=
  omap (map (fun port => mkResolvedPort (configured_source port) (configured_name port)))
    (normalize_capture_ports (map (fun port => (capture_source port, capture_name port)) (pw_capture_ports (pipewire p)))
       "pipewire.capturePorts" ("profile " +:+ name +:+ ": pipewire.capturePorts is required")).

(** ** Single fields *)

Definition validate_buffer_seconds (name : string) (p : ProfileConfig) : Result Z :=
  let? seconds := ok_or (buffer_seconds p) (of_profile name "buffer.seconds is required") in
  if seconds =? 0 then Err (of_profile name "buffer.seconds must be > 0") else Ok seconds.

Definition validate_export_output_dir (name : string) (p : ProfileConfig) : Result string :=
  let? dir := ok_or (pe_output_dir (profile_export p)) (of_profile name "export.outputDir is required") in
  if negb (is_absolute dir) then Err (of_profile name "export.outputDir must be absolute") else Ok dir.

Definition validate_export (name : string) (p : ProfileConfig) : Result (string * string) :=
  let? mode := required_string "export.mode" (pe_mode (profile_export p)) in
  let? _ := err_if (negb (String.eqb mode "per-channel"))
              (of_profile name ("export.mode must be per-channel, got " +:+ mode)) in
  let? format := required_string "export.format" (pe_format (profile_export p)) in
  let? _ := err_if (negb (String.eqb format "wav")) (of_profile name ("export.format must be wav, got " +:+ format)) in
  Ok (mode, format).

(** ** The export policy *)

Definition is_set {A} (o : option A) : bool := match o with Some _ => true | None => false end.

(** The mode of channels, the detector, the gate and the trimming. *)
Definition silence_settings (e : ProfileExportConfig) : ChannelExportMode * ActivityDetectorKind * bool * bool :=
  match pe_silence_policy e with
  | Some AllChannelsExactZero => (Always, ExactZero, true, false)
  | Some PerChannelExactZero => (Auto, ExactZero, false, true)
  | None => (default Auto (pe_default_channel_mode e), default WindowedRmsPeak (pe_activity_detector e), false, true)
  end.

Definition reserved_name (d : ActivityDetectorKind) : option string :=
  match d with
  | FixedLevel => Some "fixed-level"
  | CalibratedNoiseFloor => Some "calibrated-noise-floor"
  | ExactZero | WindowedRmsPeak => None
  end.

(** The loop over the configured channels. *)
Fixpoint check_profile_channels (name : string) (l : list ResolvedCapturePort) (channels : BTreeMap ProfileChannelConfig)
    : Result unit :=
  match channels with
  | [] => Ok tt
  | (channel, activity) :: rest =>
      let? _ := err_if (negb (zlen (List.filter (fun p => String.eqb (resolved_name p) channel) l) =? 1))
                  (of_profile name ("channels." +:+ channel +:+ " does not match exactly one configured port name")) in
      let? _ := match activity with
                | Some a => check_threshold (activity_field name channel) a
                | None => Ok tt
                end in
      check_profile_channels name l rest
  end.

Definition capture_port_export_mode (p : ProfileConfig) (channel_name : string) : option ChannelExportMode :=
  port ← List.find (fun port => match capture_name port with
                                | Some n => String.eqb (trim n) channel_name
                                | None => false
                                end) (ports (capture p) ++ pw_capture_ports (pipewire p));
  capture_export_mode port.

(** The policy of one port; of its threshold the policy model keeps the level. *)
Definition channel_policy (p : ProfileConfig) (default_mode : ChannelExportMode) (port : ResolvedCapturePort)
    : ChannelActivityPolicy :=
  mkChannelPolicy (resolved_name port) (default default_mode (capture_port_export_mode p (resolved_name port)))
    (activity ← bt_get (resolved_name port) (profile_channels p); activity ← activity; Some (threshold_dbfs activity)).

Definition resolve_layout (name : string) (e : ProfileExportConfig) : Result ResolvedLayout :=
  match pe_layout e with
  | None => Ok CommandDefault
  | Some LayoutFlatDetailed => Ok FlatDetailed
  | Some LayoutTimestampDirectory => Ok TimestampDirectory
  | Some LayoutCustom =>
      let? directory := ok_or (pe_directory_pattern e) (of_profile name "export.directoryPattern is required for custom layout") in
      let? directory := parse directory in
      let? filename := ok_or (pe_filename_pattern e) (of_profile name "export.filenamePattern is required for custom layout") in
      let? filename := parse filename in
      Ok (Custom directory filename)
  end.

Definition resolve_export_policy (name : string) (p : ProfileConfig) (l : list ResolvedCapturePort)
    : Result ResolvedExportPolicy :=
  let e := profile_export p in
  let? output_dir := validate_export_output_dir name p in
  let? _ := validate_export name p in
  let? _ := err_if (is_set (pe_silence_policy e) && is_set (pe_default_channel_mode e))
              (of_profile name "export.silencePolicy conflicts with export.defaultChannelMode") in
  let? _ := err_if (is_set (pe_silence_policy e) && is_set (pe_activity_detector e))
              (of_profile name "export.silencePolicy conflicts with export.activityDetector") in
  let '(default_mode, detector, whole_export_exact_zero_gate, trim_leading_silence) := silence_settings e in
  let? _ := match reserved_name detector with
            | Some detector_name =>
                Err (of_profile name ("export.activityDetector " +:+ detector_name +:+ " is reserved and not supported"))
            | None => Ok tt
            end in
  let? _ := check_profile_channels name l (profile_channels p) in
  let? layout := resolve_layout name e in
  omap (with_system_temp (pe_use_system_temp e))
    (policy_new output_dir layout
       (mkPolicy detector (map (channel_policy p default_mode) l) whole_export_exact_zero_gate trim_leading_silence)).

(** ** Profiles *)

Definition validate_jack_profile (name : string) (p : ProfileConfig) : Result ResolvedProfile :=
  let? client_name := required_string "clientName" (client_name p) in
  let? l := resolve_capture_ports name p in
  let? seconds := validate_buffer_seconds name p in
  let? policy := resolve_export_policy name p l in
  Ok (mkResolvedProfile name "jack" client_name l seconds policy None).

Definition validate_pipewire_profile (name : string) (p : ProfileConfig) : Result ResolvedProfile :=
  let pw := pipewire p in
  let? _ := err_if (is_set (pw_channel_map pw))
              (of_profile name "pipewire.channelMap conflicts with pipewire.capturePorts") in
  let? _ := err_if (negb (empty (ports (capture p))) || negb (empty (sources (capture p))))
              (of_profile name "capture.ports and capture.sources are only valid for jack profiles") in
  let? l := resolve_pipewire_capture_ports name p in
  let? seconds := validate_buffer_seconds name p in
  let? policy := resolve_export_policy name p l in
  Ok (mkResolvedProfile name "pipewire" "lamb" l seconds policy
        (Some (mkPipeWireCapture (pw_target pw)
                 (map (fun port => mkConfiguredPort (resolved_source port) (resolved_name port)) l)
                 (default 44100 (pw_sample_rate pw)) (pw_dont_remix pw) (pw_latency pw)))).

Definition validate_profile (name : string) (p : ProfileConfig) : Result ResolvedProfile :=
  let? backend := required_string "backend" (profile_backend p) in
  if String.eqb backend "jack" then validate_jack_profile name p
  else if String.eqb backend "pipewire" then validate_pipewire_profile name p
  else Err (of_profile name ("backend must be jack or pipewire, got " +:+ backend)).

Definition resolve_active_profile (c : AppConfig) : Result (option ResolvedProfile) :=
  match not_blank (active_profile (daemon c)) with
  | None => Ok None
  | Some name =>
      let? profile := ok_or (bt_get name (profiles c)) (validation ("active profile " +:+ name +:+ " is not defined")) in
      omap Some (validate_profile name profile)
  end.

(** ** Edits *)

Abbreviation AM := (M AppConfig LambError).

(** [profile_mut], and the change of the profile that it returns *)
Definition profile_mut (name : string) : AM ProfileConfig :=
  let! c := get in lift (ok_or (bt_get name (profiles c)) (Config ("profile " +:+ name +:+ " does not exist"))).

Definition store_profile (name : string) (p : ProfileConfig) : AM unit :=
  modify (fun c => c <| profiles ::= bt_insert name p |>).

Definition check_backend (name backend : string) : Result unit :=
  err_if (negb (String.eqb backend "jack") && negb (String.eqb backend "pipewire"))
    (of_profile name ("backend must be jack or pipewire, got " +:+ backend)).

Definition create_profile (name backend : string) : AM unit :=
  lift (require_non_empty "profile name" name) ;;
  lift (check_backend name backend) ;;
  let! c := get in
  fail_if (is_set (bt_get name (profiles c))) (Config ("profile " +:+ name +:+ " already exists")) ;;
  store_profile name (default_profile <| profile_backend := Some backend |>).

Definition changed_field (name field value : string) (p : ProfileConfig) : Result ProfileConfig :=
  if String.eqb field "backend" then
    let? _ := check_backend name value in Ok (p <| profile_backend := Some value |>)
  else if String.eqb field "clientName" then
    let? v := non_empty_value field value in Ok (p <| client_name := Some v |>)
  else if String.eqb field "buffer.seconds" then
    let? seconds := ok_or (parse_u32 value) (of_profile name "buffer.seconds must be an integer") in
    Ok (p <| buffer_seconds := Some seconds |>)
  else if String.eqb field "export.outputDir" then
    Ok (p <| profile_export ::= (fun e => e <| pe_output_dir := Some value |>) |>)
  else if String.eqb field "export.mode" then
    let? v := non_empty_value field value in Ok (p <| profile_export ::= (fun e => e <| pe_mode := Some v |>) |>)
  else if String.eqb field "export.format" then
    let? v := non_empty_value field value in Ok (p <| profile_export ::= (fun e => e <| pe_format := Some v |>) |>)
  else Err (validation ("unknown profile field " +:+ field)).

Definition set_profile_field (name field value : string) : AM unit :=
  let! p := profile_mut name in
  let! p' := lift (changed_field name field value p) in
  store_profile name p'.

Definition add_capture_port (name source label : string) : AM unit :=
  let! p := profile_mut name in
  fail_if (negb (empty (sources (capture p)))) (of_profile name "cannot add capture.ports while capture.sources is set") ;;
  let! source := lift (non_empty_value "source" source) in
  let! label := lift (non_empty_value "name" label) in
  store_profile name
    (p <| capture ::= (fun c => c <| ports ::= (fun l => l ++ [mkCapturePort (Some source) (Some label) None]) |>) |>).
