(* ===== verification/ProfileTheorems.v ===== *)
(** * What a resolved profile and an edit promise

    Properties of [Profile]. *)
From Stdlib Require Import Ascii.
From S2P Require Import Prelude.
From S2P Require Import Errors.
From S2P Require Import Paths.
From S2P Require Import Text.
From S2P Require Import Activity.
From S2P Require Import ExportPattern.
From S2P Require Import ExportPaths.
From S2P Require Import LegacyConfig.
From S2P Require Import AppConfig.
From S2P Require Import Profile.

(** ** Single steps *)

Lemma err_if_inv b e u : err_if b e = Ok u -> b = false.
Proof. destruct u. by intros ?%err_if_Ok. Qed.

(** A step of a check that succeeded. *)
Ltac check_step H :=
  let u := fresh "u" in let E := fresh "E" in
  apply obind_Ok in H as (u & E & H); first [apply err_if_inv in E|idtac].

Lemma required_string_Ok field v s : required_string field v = Ok s -> trimmed s /\ s <> "".
Proof.
  unfold required_string. intros (t & _ & -> & H)%ok_or_Ok%not_blank_Some. split; [apply trim_trimmed|done].
Qed.

Lemma non_empty_value_Ok field v s : non_empty_value field v = Ok s -> s = trim v /\ s <> "".
Proof. unfold non_empty_value. destruct (String.eqb_spec (trim v) ""); [done|]. by intros [= <-]. Qed.

Definition sound_port (p : ResolvedCapturePort) : Prop :=
  trimmed (resolved_source p) /\ resolved_source p <> "" /\ trim (resolved_name p) <> "".

Lemma jack_port_sound index p q : jack_port index p = Ok q -> sound_port q.
Proof.
  unfold jack_port. intros H. apply obind_Ok in H as (s & Hs & H). apply obind_Ok in H as (n & Hn & [= <-]).
  apply required_string_Ok in Hs as [? ?], Hn as [? ?]. split_and!; [done..|]. unfold resolved_name. by rewrite trim_fixed.
Qed.

Lemma jack_source_sound index s q : jack_source index s = Ok q -> sound_port q.
Proof.
  unfold jack_source. intros H. apply obind_Ok in H as (s' & [-> Hs]%non_empty_value_Ok & [= <-]).
  split_and!; [apply trim_trimmed|done|]. unfold resolved_name. by apply trim_not_blank.
Qed.

Lemma collect_indexed_Ok {A B} (f : Z -> A -> Result B) (P : B -> Prop) index l l' :
  (forall i a b, f i a = Ok b -> P b) -> collect_indexed f index l = Ok l' -> length l' = length l /\ Forall P l'.
Proof.
  intros Hf. revert index l'. induction l as [|a l IH]; intros index l' H; cbn [collect_indexed] in H.
  - injection H as <-. by split.
  - apply obind_Ok in H as (b & Hb & H). apply obind_Ok in H as (bs & Hbs & [= <-]).
    apply IH in Hbs as [Hl HF]. split; [cbn; congruence|]. constructor; [by eapply Hf|done].
Qed.

Lemma jack_ports_sound name p l : resolve_capture_ports name p = Ok l -> l <> [] /\ Forall sound_port l.
Proof.
  unfold resolve_capture_ports. destruct (ports (capture p)) as [|q qs], (sources (capture p)) as [|s ss]; cbn [empty negb andb]; try done.
  - intros [Hl HF]%(collect_indexed_Ok _ sound_port); [split; [by destruct l|done]|]. apply jack_source_sound.
  - intros [Hl HF]%(collect_indexed_Ok _ sound_port); [split; [by destruct l|done]|]. apply jack_port_sound.
Qed.

Lemma pipewire_ports_sound name p l : resolve_pipewire_capture_ports name p = Ok l ->
  l <> [] /\ Forall sound_port l /\ NoDup (map resolved_source l) /\ NoDup (map resolved_name l).
Proof.
  unfold resolve_pipewire_capture_ports. intros (ps & H & ->)%omap_Ok. apply normalize_Ok in H as (H1 & H2 & H3 & H4).
  split; [by destruct ps|]. rewrite !map_map. cbn [resolved_source resolved_name]. split; [|done].
  apply Forall_forall. intros q (c & <- & Hc)%list_elem_of_In%in_map_iff. apply list_elem_of_In, list_elem_of_lookup in Hc as [i Hc].
  destruct (Forall2_lookup_r _ _ _ _ _ H2 Hc) as (e & _ & He1 & He2).
  apply not_blank_Some in He1 as (? & _ & Hs & ?), He2 as (? & _ & Hn & ?).
  split_and!; [cbn; rewrite Hs; apply trim_trimmed|done|]. change (trim (configured_name c) <> ""). rewrite Hn, trim_idempotent. congruence.
Qed.

(** ** The export policy of a profile *)

Lemma check_profile_channels_Ok name l channels u : check_profile_channels name l channels = Ok u ->
  forall channel activity, In (channel, activity) channels ->
  zlen (List.filter (fun p => String.eqb (resolved_name p) channel) l) = 1
  /\ forall a, activity = Some a -> exists u, check_threshold (activity_field name channel) a = Ok u.
Proof.
  induction channels as [|[c act] rest IH]; intros H channel activity Hin; [done|]. cbn [check_profile_channels] in H.
  check_step H. apply obind_Ok in H as (u1 & E1 & H). apply negb_false_iff, Z.eqb_eq in E.
  destruct Hin as [[= <- <-]|Hin]; [|by apply IH]. split; [done|]. intros a ->. by exists u1.
Qed.

Lemma bt_get_In {V} key (v : V) m : bt_get key m = Some v -> In (key, v) m.
Proof.
  induction m as [|[k x] m IH]; cbn [bt_get]; [done|]. destruct (String.eqb_spec k key) as [->|]; [intros [= ->]; by left|].
  intros H. right. by apply IH.
Qed.

(** A threshold that a policy may have. *)
Definition usable_threshold (c : ChannelActivityPolicy) : Prop :=
  forall t, policy_threshold c = Some t -> threshold_out_of_range t = false.

Lemma check_threshold_range field a u : check_threshold field a = Ok u -> threshold_out_of_range (threshold_dbfs a) = false.
Proof. unfold check_threshold. intros H. by check_step H. Qed.

(** The policy of a profile with these ports. *)
Record policy_of (p : ProfileConfig) (l : list ResolvedCapturePort) (policy : ResolvedExportPolicy) : Prop := mkPolicyOf {
  po_names : map policy_name (policy_channels (activity policy)) = map resolved_name l;
  po_thresholds : Forall usable_threshold (policy_channels (activity policy));
  po_detector : detector (activity policy) = ExactZero \/ detector (activity policy) = WindowedRmsPeak;
  po_output_dir : pe_output_dir (profile_export p) = Some (output_dir policy) /\ validate_output_dir (output_dir policy) = Ok tt;
  po_configured : forall channel activity, In (channel, activity) (profile_channels p) ->
                  zlen (List.filter (fun q => String.eqb (resolved_name q) channel) l) = 1;
  po_patterns : forall command, patterns_for_layout (layout policy) command = Ok (patterns policy command);
}.

Lemma policy_new_Ok out layout activity policy : policy_new out layout activity = Ok policy ->
  output_dir policy = out /\ ExportPaths.layout policy = layout /\ ExportPaths.activity policy = activity
  /\ validate_output_dir out = Ok tt /\ forall command, patterns_for_layout layout command = Ok (patterns policy command).
Proof.
  unfold policy_new. intros H. apply obind_Ok in H as ([] & E & H). apply obind_Ok in H as ([rd rf] & E1 & H).
  apply obind_Ok in H as ([dd df] & E2 & [= <-]). split_and!; try done. by intros [].
Qed.

Lemma resolve_export_policy_Ok name p l policy : resolve_export_policy name p l = Ok policy -> policy_of p l policy.
Proof.
  unfold resolve_export_policy. intros H. apply obind_Ok in H as (out & Ho & H).
  check_step H. check_step H. check_step H.
  destruct (silence_settings (profile_export p)) as [[[mode d] gate] trim] eqn:Es.
  apply obind_Ok in H as (ur & Er & H). apply obind_Ok in H as ([] & Ec & H). apply obind_Ok in H as (lay & El & H).
  apply omap_Ok in H as (pol & H & ->). apply policy_new_Ok in H as (H1 & H2 & H3 & H4 & H5).
  pose proof (check_profile_channels_Ok _ _ _ _ Ec) as Hc.
  assert (activity (with_system_temp (pe_use_system_temp (profile_export p)) pol) = activity pol) as Ha by done.
  constructor; rewrite ?Ha, ?H3; cbn [policy_channels detector].
  - rewrite map_map. by apply map_ext.
  - apply Forall_forall. intros c (q & <- & Hq)%list_elem_of_In%in_map_iff t. cbn [channel_policy policy_threshold].
    destruct (bt_get (resolved_name q) (profile_channels p)) as [[a|]|] eqn:Eb; cbn; try done. intros [= <-].
    apply bt_get_In in Eb. apply Hc in Eb as [_ Eb]. destruct (Eb a eq_refl) as [u' Hu]. by eapply check_threshold_range.
  - destruct d; [by left|by right|done..].
  - unfold validate_export_output_dir in Ho. apply obind_Ok in Ho as (o & Ho & Ho'). apply ok_or_Ok in Ho.
    destruct (negb (is_absolute o)); [done|]. injection Ho' as ->. cbn. by rewrite H1, Ho.
  - intros channel act Hin. by apply Hc in Hin as [? _].
  - intros command. cbn. rewrite H2. rewrite (H5 command). by destruct command.
Qed.

(** ** Resolved profiles *)

(** What a session relies on. *)
Record coherent (name : string) (p : ProfileConfig) (r : ResolvedProfile) : Prop := mkCoherent {
  co_name : r_name r = name;
  co_ports : r_ports r <> [] /\ Forall sound_port (r_ports r);
  co_seconds : buffer_seconds p = Some (r_buffer_seconds r) /\ r_buffer_seconds r <> 0;
  co_policy : policy_of p (r_ports r) (r_export_policy r);
  co_backend :
    (r_backend r = "jack" /\ r_pipewire_config r = None)
    \/ (r_backend r = "pipewire" /\ NoDup (map resolved_source (r_ports r)) /\ NoDup (map resolved_name (r_ports r))
        /\ exists c, r_pipewire_config r = Some c
             /\ map configured_source (capture_configured_ports c) = map resolved_source (r_ports r)
             /\ map configured_name (capture_configured_ports c) = map resolved_name (r_ports r));
}.

Lemma buffer_seconds_Ok name p s : validate_buffer_seconds name p = Ok s -> buffer_seconds p = Some s /\ s <> 0.
Proof.
  unfold validate_buffer_seconds. intros H. apply obind_Ok in H as (s' & Hs%ok_or_Ok & H).
  destruct (Z.eqb_spec s' 0); [done|]. by injection H as <-.
Qed.

Lemma validate_profile_coherent name p r : validate_profile name p = Ok r -> coherent name p r.
Proof.
  unfold validate_profile. intros H. apply obind_Ok in H as (b & _ & H).
  destruct (String.eqb b "jack"); [|destruct (String.eqb b "pipewire"); [|done]].
  - unfold validate_jack_profile in H. apply obind_Ok in H as (c & _ & H). apply obind_Ok in H as (l & Hl & H).
    apply obind_Ok in H as (s & Hs & H). apply obind_Ok in H as (pol & Hp & [= <-]).
    constructor; cbn; [done|by eapply jack_ports_sound|by eapply buffer_seconds_Ok|by eapply resolve_export_policy_Ok|by left].
  - unfold validate_pipewire_profile in H. check_step H. check_step H. apply obind_Ok in H as (l & Hl & H).
    apply obind_Ok in H as (s & Hs & H). apply obind_Ok in H as (pol & Hp & [= <-]).
    apply pipewire_ports_sound in Hl as (L1 & L2 & L3 & L4).
    constructor; cbn; [done|done|by eapply buffer_seconds_Ok|by eapply resolve_export_policy_Ok|].
    right. split_and!; try done. eexists. split; [done|]. cbn. by rewrite !map_map.
Qed.

Lemma active_profile_coherent c r : resolve_active_profile c = Ok (Some r) ->
  exists name p, not_blank (active_profile (daemon c)) = Some name /\ bt_get name (profiles c) = Some p /\ coherent name p r.
Proof.
  unfold resolve_active_profile. destruct (not_blank (active_profile (daemon c))) as [name|]; [|done].
  intros H. apply obind_Ok in H as (p & Hp%ok_or_Ok & H). apply omap_Ok in H as (r' & H & [= <-]).
  exists name, p. split_and!; try done. by apply validate_profile_coherent.
Qed.

(** C20. A profile that resolves is fit for a session: it has ports, their sources
    are trimmed and no source or name is blank, the buffer is longer than zero,
    the output directory is canonical, the patterns are those of its layout, the
    channels of the policy are the ports in their order, every threshold is in
    range, every configured channel is exactly one port, and the detector is one
    that is implemented. The sources and names of a PipeWire profile do not
    repeat, and the capture has the same ports as the policy. *)
Theorem resolved_profile_coherent c r : resolve_active_profile c = Ok (Some r) ->
  exists name p, not_blank (active_profile (daemon c)) = Some name /\ bt_get name (profiles c) = Some p /\ coherent name p r.
Proof. apply active_profile_coherent. Qed.

(** Whatever resolves can be saved: if the start mode is valid and each profile
    resolves, the checks of a configuration before it is saved succeed. *)
Theorem resolved_profiles_persist c : validate_app_config c = Ok tt ->
  Forall (fun x => exists r, validate_profile x.1 x.2 = Ok r) (profiles c) ->
  validate_persisted_config c = Ok tt.
Proof.
  intros Hc H. unfold validate_persisted_config. rewrite Hc. cbn [obind]. clear Hc.
  induction H as [|[name p] l [r Hr] _ IH]; [done|]. cbn [check_profiles fst snd] in *.
  assert (check_channels name (profile_channels p) = Ok tt) as ->; [|done].
  assert (exists ports u, check_profile_channels name ports (profile_channels p) = Ok u) as (ports & u & Hch).
  { unfold validate_profile in Hr. apply obind_Ok in Hr as (b & _ & Hr).
    assert (forall q pol, resolve_export_policy name p q = Ok pol -> exists u, check_profile_channels name q (profile_channels p) = Ok u) as Hq.
    { unfold resolve_export_policy. intros q pol H. apply obind_Ok in H as (out & Ho & H).
      check_step H. check_step H. check_step H. destruct (silence_settings _) as [[[? ?] ?] ?].
      apply obind_Ok in H as (ur & Er & H). apply obind_Ok in H as (uc & Ec & H). by exists uc. }
    destruct (String.eqb b "jack"); [|destruct (String.eqb b "pipewire"); [|done]].
    - unfold validate_jack_profile in Hr. apply obind_Ok in Hr as (c' & _ & Hr). apply obind_Ok in Hr as (q & _ & Hr).
      apply obind_Ok in Hr as (s & _ & Hr). apply obind_Ok in Hr as (pol & Hp & _). exists q. by eapply Hq.
    - unfold validate_pipewire_profile in Hr. check_step Hr. check_step Hr. apply obind_Ok in Hr as (q & _ & Hr).
      apply obind_Ok in Hr as (s & _ & Hr). apply obind_Ok in Hr as (pol & Hp & _). exists q. by eapply Hq. }
  revert Hch. generalize (profile_channels p). intros m. revert u. induction m as [|[channel [a|]] m IHm]; intros u H'; [done| |];
    cbn [check_profile_channels check_channels] in *; check_step H'; apply obind_Ok in H' as ([] & E1 & H').
  - rewrite E1. by eapply IHm.
  - by eapply IHm.
Qed.

(** ** Edits *)

(** An edit of the profile [name]: a failure leaves the configuration, a success
    changes this profile only and keeps the order of the names. *)
Definition edits_only (name : string) (m : AM unit) : Prop := forall c c' o, m c = (c', o) ->
  (c' = c /\ o <> Ok tt /\ o <> Panic)
  \/ (o = Ok tt /\ daemon c' = daemon c /\ (exists p, bt_get name (profiles c') = Some p)
      /\ (forall other, other <> name -> bt_get other (profiles c') = bt_get other (profiles c))
      /\ (sorted_keys (profiles c) -> sorted_keys (profiles c'))).

Lemma store_profile_edits name p c : exists c', store_profile name p c = (c', Ok tt) /\ daemon c' = daemon c
  /\ bt_get name (profiles c') = Some p
  /\ (forall other, other <> name -> bt_get other (profiles c') = bt_get other (profiles c))
  /\ (sorted_keys (profiles c) -> sorted_keys (profiles c')).
Proof.
  eexists. split; [done|]. cbn. split; [done|]. rewrite bt_get_insert, String.eqb_refl. split; [done|]. split.
  - intros other Ho. rewrite bt_get_insert. by destruct (String.eqb_spec name other).
  - apply bt_insert_sorted.
Qed.

Lemma edits_lift {A} name (r : Result A) (k : A -> AM unit) : r <> Panic -> (forall a, r = Ok a -> edits_only name (k a)) ->
  edits_only name (bind (lift r) k).
Proof.
  intros Hp H c c' o. destruct r as [a|e|]; [|by intros [= <- <-]; left|done]. apply (H a eq_refl).
Qed.

Lemma edits_profile_mut name (k : ProfileConfig -> AM unit) : (forall p, edits_only name (k p)) ->
  edits_only name (bind (profile_mut name) k).
Proof.
  intros H c c' o. unfold profile_mut, bind at 1, bind at 1. cbn. destruct (bt_get name (profiles c)) as [p|]; cbn.
  - apply H.
  - intros [= <- <-]. by left.
Qed.

Lemma edits_fail_if name b e (k : AM unit) : edits_only name k -> edits_only name (fail_if b e ;; k).
Proof. intros H c c' o. destruct b; cbn; [intros [= <- <-]; by left|apply H]. Qed.

Lemma edits_store name p : edits_only name (store_profile name p).
Proof.
  intros c c' o H. destruct (store_profile_edits name p c) as (c1 & E & H1 & H2 & H3 & H4). rewrite E in H.
  injection H as <- <-. right. split_and!; try done. by exists p.
Qed.

Lemma non_empty_value_total field v : non_empty_value field v <> Panic.
Proof. unfold non_empty_value. by destruct (String.eqb _ _). Qed.

Lemma changed_field_total name field value p : changed_field name field value p <> Panic.
Proof.
  unfold changed_field. pose proof (non_empty_value_total field value) as H.
  repeat match goal with |- context [if ?b then _ else _] => destruct b end; try done.
  - unfold check_backend, err_if. by destruct (_ && _).
  - by destruct (non_empty_value field value).
  - by destruct (parse_u32 value).
  - by destruct (non_empty_value field value).
  - by destruct (non_empty_value field value).
Qed.

(** The commands that edit a configuration are atomic and local: if one fails,
    the configuration is as before, and it never panics; if it succeeds, only
    the named profile has changed, and the profiles are still in the order of
    their names. *)
Theorem profile_edits_local name :
  (forall backend, edits_only name (create_profile name backend))
  /\ (forall field value, edits_only name (set_profile_field name field value))
  /\ (forall source label, edits_only name (add_capture_port name source label)).
Proof.
  split_and!; intros.
  - apply edits_lift; [|intros _ _].
    { unfold require_non_empty. pose proof (non_empty_value_total "profile name" name). by destruct (non_empty_value _ _). }
    apply edits_lift; [unfold check_backend, err_if; by destruct (_ && _)|intros _ _].
    intros c c' o. rewrite bind_get. apply edits_fail_if, edits_store.
  - apply edits_profile_mut. intros p. apply edits_lift; [apply changed_field_total|]. intros. apply edits_store.
  - apply edits_profile_mut. intros p. apply edits_fail_if. apply edits_lift; [apply non_empty_value_total|]. intros.
    apply edits_lift; [apply non_empty_value_total|]. intros. apply edits_store.
Qed.
