(* ===== verification/InputIdentity.v ===== *)
(** * The identity of a capture input (src/calibration.rs)

    A threshold that was measured at an input belongs to this input only. Its
    identity is a digest of the backend, the device, the channel and the source;
    the digest is SHA-256 in hexadecimal, a parameter ([Digest]). Theorems: an
    identity that is built is canonical, and two identities with one digest are
    the same, as far as SHA-256 tells the two texts apart. *)
From Stdlib Require Import Ascii.
From S2P Require Import Prelude.
From S2P Require Import Errors.
From S2P Require Import Paths.
From S2P Require Import Text.
From S2P Require Import ExportPattern.
From S2P Require Import ExportPaths.
From S2P Require Import AppConfig.

Inductive InputBackend := PipeWire | Jack.
Inductive ConfiguredDeviceSelector :=
  | PipeWireTarget (value : string) | PipeWireAuto | JackSourceClient (value : string).
Inductive LiveDeviceKeyKind := HardwareSerial | ObjectPath | NodeName | JackSourceClientKey.

#[export] Instance InputBackend_eq_dec : EqDecision InputBackend.
Proof. solve_decision. Defined.
#[export] Instance ConfiguredDeviceSelector_eq_dec : EqDecision ConfiguredDeviceSelector.
Proof. solve_decision. Defined.
#[export] Instance LiveDeviceKeyKind_eq_dec : EqDecision LiveDeviceKeyKind.
Proof. solve_decision. Defined.

Record ResolvedLiveInputIdentity := mkLive {
  live_backend : InputBackend;
  key_kind : LiveDeviceKeyKind;
  key_value : string;
  resolved_source : string;
}.

Record ConfiguredInputIdentity := mkConfigured {
  id_backend : InputBackend;
  selector : ConfiguredDeviceSelector;
  id_name : string;
  id_source : string;
  configured_input_id : string;
}.

Record LegacyInputIdentity := mkLegacy {
  legacy_backend : string;
  legacy_device : string;
  legacy_name : string;
  legacy_source : string;
  legacy_input_id : string;
}.

#[export] Instance ResolvedLiveInputIdentity_eq_dec : EqDecision ResolvedLiveInputIdentity.
Proof. solve_decision. Defined.
#[export] Instance ConfiguredInputIdentity_eq_dec : EqDecision ConfiguredInputIdentity.
Proof. solve_decision. Defined.
#[export] Instance LegacyInputIdentity_eq_dec : EqDecision LegacyInputIdentity.
Proof. solve_decision. Defined.

(** [format!("{:x}", Sha256)] of the bytes that were hashed. *)
Class Digest := sha256_hex : string -> string.

(** A digest is 64 lowercase hexadecimal digits. *)
Class DigestLaws `{Digest} : Prop := sha256_hex_valid text : is_valid_input_id (sha256_hex text) = true.

(** ** Checks *)

Definition canonical_identity_field (value label : string) : Result string :=
  let value := trim value in
  if String.eqb value "" then Err (validation (label +:+ " must be non-empty")) else Ok value.

(** [str::split] at a character *)
Fixpoint split_on (sep : ascii) (s : string) : list string :=
  match s with
  | EmptyString => [""]
  | String c s' =>
      if Ascii.eqb c sep then "" :: split_on sep s'
      else match split_on sep s' with p :: ps => String c p :: ps | [] => [String c ""] end
  end.

Definition validate_jack_source (client source : string) : Result unit :=
  match split_on ":" source with
  | source_client :: port :: more =>
      err_if (String.eqb source_client "" || String.eqb port "" || match more with [] => false | _ => true end
              || negb (String.eqb source_client client))
        (validation "JACK source must match its non-empty source client")
  | _ => Err (validation "JACK source must be a complete client:port")
  end.

(** ** Live inputs *)

Definition live_new (backend : InputBackend) (kind : LiveDeviceKeyKind) (value source : string)
    : Result ResolvedLiveInputIdentity :=
  let? value := canonical_identity_field value "live device key" in
  let? source := canonical_identity_field source "resolved source" in
  let? _ := err_if (match backend, kind with
                    | PipeWire, JackSourceClientKey | Jack, HardwareSerial | Jack, ObjectPath | Jack, NodeName => true
                    | _, _ => false
                    end) (validation "live device key kind does not match backend") in
  let? _ := if decide (backend = Jack) then validate_jack_source value source else Ok tt in
  Ok (mkLive backend kind value source).

Definition live_validate_canonical (i : ResolvedLiveInputIdentity) : Result unit :=
  let? canonical := live_new (live_backend i) (key_kind i) (key_value i) (resolved_source i) in
  err_if (negb (bool_decide (i = canonical))) (validation "resolved live input identity is not canonical").

(** ** The text that is hashed *)

(** [u64::to_be_bytes]: the last byte is the lowest. *)
Fixpoint be_bytes (n : nat) (x : Z) : string :=
  match n with
  | O => ""
  | S n' => be_bytes n' (x / 256) +:+ String (ascii_of_N (Z.to_N (x mod 256))) ""
  end.

Definition to_be_bytes (x : Z) : string := be_bytes 8 x.

Definition hash_identity_field (value : string) : Result string :=
  let? len := ok_or (checked u64_max (slen value)) (validation "identity field too long") in
  Ok (to_be_bytes len +:+ value).

Fixpoint hash_fields (fields : list string) : Result string :=
  match fields with
  | [] => Ok ""
  | value :: rest => let? h := hash_identity_field value in let? more := hash_fields rest in Ok (h +:+ more)
  end.

Definition hash_domain (label : string) : string := label +:+ String nul "".

Definition backend_bytes (b : InputBackend) : string := match b with PipeWire => "pipewire" | Jack => "jack" end.

Definition selector_fields (s : ConfiguredDeviceSelector) : list string :=
  match s with
  | PipeWireTarget value => ["pipewire-target"; value]
  | PipeWireAuto => ["pipewire-auto"]
  | JackSourceClient value => ["jack-source-client"; value]
  end.

Definition identity_text (backend : InputBackend) (s : ConfiguredDeviceSelector) (name source : string) : Result string :=
  omap (String.append (hash_domain "lamb/configured-input-identity/v2"))
    (hash_fields (backend_bytes backend :: selector_fields s ++ [name; source])).

Definition legacy_text (backend device name source : string) : Result string :=
  omap (String.append (hash_domain "lamb/stable-input-identity/v1")) (hash_fields [backend; device; name; source]).

(** ** Configured inputs *)

Definition canonical_selector (s : ConfiguredDeviceSelector) : Result ConfiguredDeviceSelector :=
  match s with
  | PipeWireTarget value => omap PipeWireTarget (canonical_identity_field value "PipeWire target")
  | PipeWireAuto => Ok PipeWireAuto
  | JackSourceClient value => omap JackSourceClient (canonical_identity_field value "JACK source client")
  end.

Section digest.
Context `{Digest}.

Definition configured_new (backend : InputBackend) (s : ConfiguredDeviceSelector) (name source : string)
    : Result ConfiguredInputIdentity :=
  let? name := canonical_identity_field name "configured channel name" in
  let? source := canonical_identity_field source "configured source" in
  let? s := canonical_selector s in
  let? _ := err_if (match backend, s with
                    | PipeWire, PipeWireTarget _ | PipeWire, PipeWireAuto | Jack, JackSourceClient _ => false
                    | _, _ => true
                    end) (validation "configured device selector does not match backend") in
  let? _ := match s with JackSourceClient client => validate_jack_source client source | _ => Ok tt end in
  let? text := identity_text backend s name source in
  Ok (mkConfigured backend s name source (sha256_hex text)).

Definition configured_validate_canonical (i : ConfiguredInputIdentity) : Result unit :=
  let? canonical := configured_new (id_backend i) (selector i) (id_name i) (id_source i) in
  err_if (negb (is_valid_input_id (configured_input_id i)) || negb (bool_decide (i = canonical)))
    (validation "configured input identity is not canonical").

Definition legacy_field (field : string) : Result string :=
  let value := trim field in
  if String.eqb value "" then Err (validation "stable input identity fields must be non-empty") else Ok value.

Definition legacy_new (backend device name source : string) : Result LegacyInputIdentity :=
  let? backend := legacy_field backend in
  let? device := legacy_field device in
  let? name := legacy_field name in
  let? source := legacy_field source in
  let? text := legacy_text backend device name source in
  Ok (mkLegacy backend device name source (sha256_hex text)).

Definition legacy_validate_canonical (i : LegacyInputIdentity) : Result unit :=
  let? canonical := legacy_new (legacy_backend i) (legacy_device i) (legacy_name i) (legacy_source i) in
  err_if (negb (is_valid_input_id (legacy_input_id i)) || negb (bool_decide (i = canonical)))
    (validation "stable input identity is not canonical").
End digest.

(** ** The text determines the fields *)

Lemma app_inj_length (a b x y : string) : String.length a = String.length b -> a +:+ x = b +:+ y -> a = b /\ x = y.
Proof.
  revert b. induction a as [|c a IH]; intros [|d b] Hl H; try done. rewrite !string_cons_app in H. injection H as -> H.
  injection Hl as Hl. by destruct (IH b Hl H) as [-> ->].
Qed.

Lemma be_bytes_length n x : String.length (be_bytes n x) = n.
Proof. revert x. induction n as [|n IH]; intros x; [done|]. cbn [be_bytes]. rewrite string_app_length, IH. cbn. lia. Qed.

Lemma byte_of_Z x y : 0 <= x < 256 -> 0 <= y < 256 -> ascii_of_N (Z.to_N x) = ascii_of_N (Z.to_N y) -> x = y.
Proof.
  intros Hx Hy H. apply (f_equal N_of_ascii) in H. rewrite !N_ascii_embedding in H by lia. lia.
Qed.

Lemma be_bytes_inj n x y : 0 <= x < 256 ^ Z.of_nat n -> 0 <= y < 256 ^ Z.of_nat n -> be_bytes n x = be_bytes n y -> x = y.
Proof.
  revert x y. induction n as [|n IH]; intros x y Hx Hy H; [cbn in *; lia|].
  rewrite Nat2Z.inj_succ, Z.pow_succ_r in Hx, Hy by lia. cbn [be_bytes] in H.
  apply app_inj_length in H as [H Hc]; [|by rewrite !be_bytes_length]. apply (f_equal (String.get 0)) in Hc. cbn [String.get] in Hc.
  assert (x mod 256 = y mod 256) as Hm.
  { apply byte_of_Z; [apply Z.mod_pos_bound; lia..|]. by injection Hc. }
  assert (x / 256 = y / 256) as Hd.
  { apply IH; [split; [apply Z.div_pos; lia|apply Z.div_lt_upper_bound; lia]..|done]. }
  rewrite (Z.div_mod x 256), (Z.div_mod y 256), Hm, Hd by lia. done.
Qed.

Lemma hash_identity_field_Ok v h : hash_identity_field v = Ok h -> is_u64 (slen v) /\ h = be_bytes 8 (slen v) +:+ v.
Proof.
  unfold hash_identity_field. intros H. apply obind_Ok in H as (l & Hl%ok_or_Ok & [= <-]).
  apply checked_Some in Hl as [-> Hl]. split; [exact Hl|reflexivity].
Qed.

(** The framed fields are read in one way only. *)
Lemma hash_fields_inj l l' h : hash_fields l = Ok h -> hash_fields l' = Ok h -> l = l'.
Proof.
  revert l' h. induction l as [|v l IH]; intros [|v' l'] h H H'; cbn [hash_fields] in H, H'; [done|..].
  - apply obind_Ok in H' as (a & [_ ->]%hash_identity_field_Ok & H'). apply obind_Ok in H' as (r & _ & H').
    apply Ok_inj in H, H'. rewrite <-H in H'. apply (f_equal String.length) in H'. rewrite !string_app_length, be_bytes_length in H'. cbn in H'. lia.
  - apply obind_Ok in H as (a & [_ ->]%hash_identity_field_Ok & H). apply obind_Ok in H as (r & _ & H).
    apply Ok_inj in H, H'. rewrite <-H' in H. apply (f_equal String.length) in H. rewrite !string_app_length, be_bytes_length in H. cbn in H. lia.
  - apply obind_Ok in H as (a & [Hv ->]%hash_identity_field_Ok & H). apply obind_Ok in H as (r & Hr & H%Ok_inj).
    apply obind_Ok in H' as (a' & [Hv' ->]%hash_identity_field_Ok & H'). apply obind_Ok in H' as (r' & Hr' & H'%Ok_inj).
    rewrite <-H' in H. rewrite !string_app_assoc in H. apply app_inj_length in H as [Hl H]; [|by rewrite !be_bytes_length].
    assert (slen v = slen v') as Hs.
    { unfold is_u64, u64_max in *. apply (be_bytes_inj 8); [..|exact Hl]; change (256 ^ Z.of_nat 8) with (2 ^ 64); lia. }
    apply app_inj_length in H as [-> ->]; [|unfold slen in Hs; lia]. f_equal. by eapply IH.
Qed.

Lemma identity_text_inj b s n src b' s' n' src' t : identity_text b s n src = Ok t -> identity_text b' s' n' src' = Ok t ->
  b = b' /\ s = s' /\ n = n' /\ src = src'.
Proof.
  unfold identity_text. intros (h & Hh & ->)%omap_Ok (h' & Hh' & E)%omap_Ok.
  apply app_inj_length in E as [_ E]; [|done]. subst h'. pose proof (hash_fields_inj _ _ _ Hh Hh') as H.
  destruct b, b', s, s'; cbn in H; injection H; intros; subst; done.
Qed.

Lemma legacy_text_inj b d n s b' d' n' s' t : legacy_text b d n s = Ok t -> legacy_text b' d' n' s' = Ok t ->
  b = b' /\ d = d' /\ n = n' /\ s = s'.
Proof.
  unfold legacy_text. intros (h & Hh & ->)%omap_Ok (h' & Hh' & E)%omap_Ok.
  apply app_inj_length in E as [_ E]; [|done]. subst h'. pose proof (hash_fields_inj _ _ _ Hh Hh') as H.
  injection H; intros; subst; done.
Qed.

(** The two kinds of texts differ. *)
Lemma text_domains b s n src b' d' n' s' t : identity_text b s n src = Ok t -> legacy_text b' d' n' s' <> Ok t.
Proof. unfold identity_text, legacy_text. intros (h & _ & ->)%omap_Ok (h' & _ & E)%omap_Ok. done. Qed.

Lemma canonical_field_Ok v label w : canonical_identity_field v label = Ok w ->
  w = trim v /\ forall label', canonical_identity_field w label' = Ok w.
Proof.
  unfold canonical_identity_field. destruct (String.eqb (trim v) "") eqn:E; [done|]. intros [= <-]. split; [done|].
  intros label'. by rewrite trim_idempotent, E.
Qed.

Section digest_theorems.
Context `{Digest}.

Lemma configured_new_Ok b s n src i : configured_new b s n src = Ok i ->
  exists t, identity_text (id_backend i) (selector i) (id_name i) (id_source i) = Ok t /\ configured_input_id i = sha256_hex t
    /\ configured_new (id_backend i) (selector i) (id_name i) (id_source i) = Ok i
    /\ id_backend i = b /\ id_name i = trim n /\ id_source i = trim src /\ canonical_selector s = Ok (selector i).
Proof.
  unfold configured_new. intros H'. apply obind_Ok in H' as (n' & [-> Hn]%canonical_field_Ok & H').
  apply obind_Ok in H' as (s' & [-> Hs]%canonical_field_Ok & H'). apply obind_Ok in H' as (c & Hc & H').
  apply obind_Ok in H' as ([] & E1 & H'). apply obind_Ok in H' as ([] & E2 & H'). apply obind_Ok in H' as (t & Ht & [= <-]).
  exists t. cbn [id_backend selector id_name id_source configured_input_id]. split; [done|]. split; [done|].
  split; [|done]. rewrite Hn, Hs. cbn [obind].
  assert (canonical_selector c = Ok c) as ->.
  { destruct s as [v| |v]; cbn [canonical_selector] in Hc; [apply omap_Ok in Hc as (w & [-> Hw]%canonical_field_Ok & ->)|by injection Hc as <-|
      apply omap_Ok in Hc as (w & [-> Hw]%canonical_field_Ok & ->)]; cbn [canonical_selector]; by rewrite Hw. }
  cbn [obind]. rewrite E1. cbn [obind]. rewrite E2. cbn [obind]. by rewrite Ht.
Qed.

Lemma legacy_new_Ok b d n s i : legacy_new b d n s = Ok i ->
  exists t, legacy_text (legacy_backend i) (legacy_device i) (legacy_name i) (legacy_source i) = Ok t
    /\ legacy_input_id i = sha256_hex t.
Proof.
  unfold legacy_new. intros H'. apply obind_Ok in H' as (b' & _ & H'). apply obind_Ok in H' as (d' & _ & H').
  apply obind_Ok in H' as (n' & _ & H'). apply obind_Ok in H' as (s' & _ & H'). apply obind_Ok in H' as (t & Ht & [= <-]).
  by exists t.
Qed.

(** SHA-256 tells two texts apart. *)
Definition distinguishes (t t' : Result string) : Prop :=
  forall x y, t = Ok x -> t' = Ok y -> sha256_hex x = sha256_hex y -> x = y.

Definition text_of (i : ConfiguredInputIdentity) : Result string :=
  identity_text (id_backend i) (selector i) (id_name i) (id_source i).
Definition legacy_text_of (i : LegacyInputIdentity) : Result string :=
  legacy_text (legacy_backend i) (legacy_device i) (legacy_name i) (legacy_source i).

(** C23. An input id names one input. Two identities that were built and have the same
    id are the same, as far as SHA-256 tells their two texts apart: the text
    frames every field with its length, so that no other fields have it. *)
Theorem input_id_determines b s n src i b' s' n' src' i' :
  configured_new b s n src = Ok i -> configured_new b' s' n' src' = Ok i' ->
  distinguishes (text_of i) (text_of i') -> configured_input_id i = configured_input_id i' -> i = i'.
Proof.
  intros H1 H2 Hd E. apply configured_new_Ok in H1 as (t & Ht & Hi & _), H2 as (t' & Ht' & Hi' & _).
  assert (t = t') as <- by (apply (Hd _ _ Ht Ht'); congruence).
  destruct (identity_text_inj _ _ _ _ _ _ _ _ _ Ht Ht') as (? & ? & ? & ?). destruct i, i'; cbn in *. congruence.
Qed.

(** Identities that are built are canonical: they pass the check that a stored
    identity has to pass, and building them again gives the same identity. *)
Theorem built_identity_canonical {laws : DigestLaws} b s n src i : configured_new b s n src = Ok i ->
  configured_validate_canonical i = Ok tt /\ configured_new (id_backend i) (selector i) (id_name i) (id_source i) = Ok i.
Proof.
  intros H1. apply configured_new_Ok in H1 as (t & Ht & Hi & Hn & _). split; [|done].
  unfold configured_validate_canonical. rewrite Hn. cbn [obind]. rewrite Hi, sha256_hex_valid. by rewrite bool_decide_eq_true_2.
Qed.

Lemma legacy_id_differs b s n src i b' d n' s' j : configured_new b s n src = Ok i -> legacy_new b' d n' s' = Ok j ->
  distinguishes (text_of i) (legacy_text_of j) -> configured_input_id i <> legacy_input_id j.
Proof.
  intros H1 H2 Hd E. apply configured_new_Ok in H1 as (t & Ht & Hi & _). apply legacy_new_Ok in H2 as (t' & Ht' & Hi').
  assert (t = t') as <- by (apply (Hd _ _ Ht Ht'); congruence). by apply text_domains with (b' := legacy_backend j)
    (d' := legacy_device j) (n' := legacy_name j) (s' := legacy_source j) in Ht.
Qed.
End digest_theorems.
