(* ===== verification/PipeWireTarget.v ===== *)
(** * PipeWire targets and links (src/capture_pipewire.rs)

    The graph of PipeWire is a list of nodes and ports. A configuration selects
    a node and one output port for each channel; the input ports of the stream
    are then linked to them in the order of their local ids. *)
From Stdlib Require Import Ascii.
From stdpp Require Import sorting.
From S2P Require Import Prelude.
From S2P Require Import Errors.
From S2P Require Import Paths.
From S2P Require Import Text.
From S2P Require Import ExportPattern.
From S2P Require Import LegacyConfig.
From S2P Require Import AppConfig.
From S2P Require Import Profile.
From S2P Require Import InputIdentity.

Record AvailableNode := mkNode {
  node_id : Z;
  node_object_type : string;
  media_class : option string;
  node_name : option string;
  hardware_serial : option string;
  object_path : option string;
  node_description : option string;
  node_channels : option Z;
  node_sample_rate : option Z;
  node_format : option string;
}.

Record AvailablePort := mkPort {
  port_global : Z;
  port_object_type : string;
  port_node : option Z;
  direction : option string;
  port_local : option Z;
  available_name : option string;
  format_dsp : option string;
  audio_format : option string;
}.

Record ResolvedSourcePort := mkSourcePort { global_id : Z; source_node_id : Z; source_port_id : Z; source_name : string }.

Record PlannedLink := mkLink { output_node_id : Z; output_port_id : Z; input_node_id : Z; input_port_id : Z }.

Record LinkFactory := mkFactory { factory_id : Z; factory_name : string }.

Record AvailableGraph := mkGraph { nodes : list AvailableNode; graph_ports : list AvailablePort; link_factory : option LinkFactory }.

#[export] Instance AvailableGraph_eta : Eta AvailableGraph := fun g => mkGraph (nodes g) (graph_ports g) (link_factory g).

Record ResolvedTarget := mkTarget {
  target_id : option Z;
  target_name : string;
  target_description : option string;
  target_channels : Z;
  target_sample_rate : Z;
  target_format : string;
  source_ports : list ResolvedSourcePort;
  live_key : option (LiveDeviceKeyKind * string);
}.

Inductive TargetResolutionError :=
  | TargetMissing (target : string)
  | PortMissing (message : string)
  | TargetChanged (message : string)
  | InvalidSelector (message : string)
  | BackendUnavailable (message : string).

Definition resolution_message (e : TargetResolutionError) : string :=
  match e with
  | TargetMissing t => "PipeWire target not found: " +:+ t
  | PortMissing m => "PipeWire capture port not found: " +:+ m
  | TargetChanged m => "PipeWire target changed during startup: " +:+ m
  | InvalidSelector m => m
  | BackendUnavailable m => m
  end.

(** ** Texts *)

Definition ascii_lower (c : ascii) : ascii :=
  if between 65 90 c then ascii_of_N (N_of_ascii c + 32) else c.

Fixpoint to_ascii_lowercase (s : string) : string :=
  match s with EmptyString => "" | String c s' => String (ascii_lower c) (to_ascii_lowercase s') end.

(** [str::contains] of a text *)
Fixpoint str_contains (s p : string) : bool :=
  str_starts_with s p || match s with EmptyString => false | String _ s' => str_contains s' p end.

(** [str::split_whitespace]; each turn takes a byte at least. *)
Fixpoint split_white (n : nat) (word s : string) : list string :=
  let finish := if String.eqb word "" then [] else [word] in
  match n, s with
  | S n', String c s' =>
      match cut_front s with
      | Some rest => finish ++ split_white n' "" rest
      | None => split_white n' (word +:+ String c "") s'
      end
  | _, _ => finish
  end.

Definition split_whitespace (s : string) : list string := split_white (S (String.length s)) "" s.

Definition opt_is (o : option string) (s : string) : bool := match o with Some v => String.eqb v s | None => false end.
Definition is_node (o : option Z) (i : Z) : bool := match o with Some v => v =? i | None => false end.

(** ** Selecting the node *)

Definition node_matches_target (n : AvailableNode) (target : string) : bool :=
  is_node (parse_u32 target) (node_id n) || opt_is (node_name n) target || opt_is (node_description n) target.

Definition is_input_source_node (n : AvailableNode) : bool :=
  let class := default "" (media_class n) in
  if negb (String.eqb (node_object_type n) "PipeWire:Interface:Node") && negb (String.eqb (node_object_type n) "Node") then false
  else if negb (String.eqb class "Audio/Source") && negb (String.eqb class "Audio/Input") then false
  else negb (str_ends_with (to_ascii_lowercase (default "" (node_name n))) ".monitor")
       && negb (str_contains (to_ascii_lowercase class) "monitor")
       && negb (str_contains (to_ascii_lowercase (default "" (node_description n))) "monitor").

Definition select_node (target : option string) (l : list AvailableNode) : outcome TargetResolutionError AvailableNode :=
  match target with
  | Some target =>
      let? n := ok_or (List.find (fun n => node_matches_target n target) l) (TargetMissing target) in
      if negb (is_input_source_node n) then Err (InvalidSelector "target is not an input/source node") else Ok n
  | None => ok_or (List.find is_input_source_node l) (TargetMissing "no PipeWire input/source node found")
  end.

(** ** The ports of the channels *)

Definition PORT_TYPE : string := "PipeWire:Interface:Port".

Definition is_audio_port (p : AvailablePort) : bool :=
  match format_dsp p with
  | Some f => match last (split_whitespace (trim f)) with
              | Some word => String.eqb (to_ascii_lowercase word) "audio"
              | None => false
              end
  | None => false
  end
  || match audio_format p with Some f => negb (String.eqb (trim f) "") | None => false end.

Definition or_else {A} (a b : option A) : option A := match a with Some _ => a | None => b end.

Definition node_display_name (l : list AvailableNode) (i : Z) : string :=
  match List.find (fun n => node_id n =? i) l with
  | Some n => default ("node-" +:+ decimal i) (or_else (node_name n) (node_description n))
  | None => "node-" +:+ decimal i
  end.

Fixpoint check_sources_once (seen : list string) (l : list ConfiguredCapturePort) : outcome TargetResolutionError unit :=
  match l with
  | [] => Ok tt
  | c :: rest =>
      if bool_decide (configured_source c ∈ seen)
      then Err (InvalidSelector ("capture source '" +:+ configured_source c +:+ "' is configured more than once"))
      else check_sources_once (configured_source c :: seen) rest
  end.

(** The name of the node with the smallest name, then id. *)
Definition name_before (l : list AvailableNode) (a b : Z) : bool :=
  match String.compare (node_display_name l a) (node_display_name l b) with Lt => true | Eq => a <=? b | Gt => false end.

Fixpoint min_by_name (l : list AvailableNode) (ids : list Z) : option Z :=
  match ids with
  | [] => None
  | i :: rest => match min_by_name l rest with
                 | Some j => if name_before l i j then Some i else Some j
                 | None => Some i
                 end
  end.

Definition string_le (a b : string) : Prop := String.compare a b <> Gt.
#[export] Instance string_le_dec a b : Decision (string_le a b).
Proof. unfold string_le. apply not_dec, _. Defined.

Fixpoint dedup (l : list string) : list string :=
  match l with
  | a :: rest => match rest with
                 | b :: _ => if String.eqb a b then dedup rest else a :: dedup rest
                 | [] => [a]
                 end
  | [] => []
  end.

Fixpoint join_comma (l : list string) : string :=
  match l with [] => "" | [a] => a | a :: rest => a +:+ ", " +:+ join_comma rest end.

Definition valid_output (node : Z) (p : AvailablePort) : bool :=
  String.eqb (port_object_type p) PORT_TYPE && is_node (port_node p) node && opt_is (direction p) "out"
  && is_set (port_local p) && is_audio_port p.

Definition available_outputs (node : Z) (l : list AvailablePort) : string :=
  match dedup (merge_sort string_le (base.omap available_name (List.filter (valid_output node) l))) with
  | [] => "none"
  | names => join_comma names
  end.

(** The port of one configured source. *)
Definition find_source (selected : Z) (target_name : string) (nodes : list AvailableNode) (l : list AvailablePort)
    (source : string) : outcome TargetResolutionError AvailablePort :=
  let named := List.filter (fun p => opt_is (available_name p) source) l in
  match List.filter (fun p => is_node (port_node p) selected) named with
  | [p] => Ok p
  | _ :: _ :: _ => Err (InvalidSelector ("source port '" +:+ source +:+ "' is ambiguous on target '" +:+ target_name +:+ "'"))
  | [] =>
      if existsb (fun p => negb (is_set (port_node p))) named
      then Err (InvalidSelector ("source port '" +:+ source +:+ "' is missing node.id"))
      else match min_by_name nodes (base.omap port_node named) with
           | Some other => Err (PortMissing ("source port '" +:+ source +:+ "' belongs to node '"
                                             +:+ node_display_name nodes other +:+ "', expected '" +:+ target_name +:+ "'"))
           | None => Err (PortMissing ("source port '" +:+ source +:+ "' was not found on target '" +:+ target_name
                                       +:+ "'; available target audio outputs: " +:+ available_outputs selected l))
           end
  end.

Definition check_source (source : string) (p : AvailablePort) : outcome TargetResolutionError ResolvedSourcePort :=
  if negb (String.eqb (port_object_type p) PORT_TYPE)
  then Err (InvalidSelector ("source port '" +:+ source +:+ "' has object type '" +:+ port_object_type p
                             +:+ "'; expected 'PipeWire:Interface:Port'"))
  else
    let? node := ok_or (port_node p) (InvalidSelector ("source port '" +:+ source +:+ "' is missing node.id")) in
    if negb (opt_is (direction p) "out")
    then Err (InvalidSelector ("source port '" +:+ source +:+ "' has direction '" +:+ default "<missing>" (direction p)
                               +:+ "'; expected 'out'"))
    else if negb (is_audio_port p)
    then Err (InvalidSelector ("source port '" +:+ source +:+ "' is not audio (format.dsp='"
                               +:+ default "<missing>" (format_dsp p) +:+ "')"))
    else
      let? local := ok_or (port_local p) (InvalidSelector ("source port '" +:+ source +:+ "' is missing port.id")) in
      Ok (mkSourcePort (port_global p) node local source).

Fixpoint resolve_sources (selected : Z) (target_name : string) (nodes : list AvailableNode) (l : list AvailablePort)
    (configured : list ConfiguredCapturePort) : outcome TargetResolutionError (list ResolvedSourcePort) :=
  match configured with
  | [] => Ok []
  | c :: rest =>
      let? p := find_source selected target_name nodes l (configured_source c) in
      let? s := check_source (configured_source c) p in
      let? more := resolve_sources selected target_name nodes l rest in
      Ok (s :: more)
  end.

Definition resolve_source_ports_typed (cfg : PipeWireCaptureConfig) (selected : AvailableNode) (nodes : list AvailableNode)
    (l : list AvailablePort) : outcome TargetResolutionError (list ResolvedSourcePort) :=
  let? _ := check_sources_once [] (capture_configured_ports cfg) in
  resolve_sources (node_id selected) (node_display_name nodes (node_id selected)) nodes l (capture_configured_ports cfg).

(** ** The target *)

Definition live_key_value (kind : LiveDeviceKeyKind) (value : option string) : option (LiveDeviceKeyKind * string) :=
  v ← not_blank value; Some (kind, v).

Definition durable_live_key (n : AvailableNode) : option (LiveDeviceKeyKind * string) :=
  or_else (live_key_value HardwareSerial (hardware_serial n))
    (or_else (live_key_value ObjectPath (object_path n)) (live_key_value NodeName (node_name n))).

Definition resolved_from_node (cfg : PipeWireCaptureConfig) (n : AvailableNode) (sources : list ResolvedSourcePort)
    : Result ResolvedTarget :=
  let? channels := ok_or (checked u32_max (zlen sources)) (Validation "capturePorts exceeds supported channel count") in
  let? _ := ExportPaths.err_if (channels =? 0) (Capture "resolved PipeWire source has zero channels") in
  let sample_rate := default (capture_sample_rate cfg) (node_sample_rate n) in
  let? _ := ExportPaths.err_if (sample_rate =? 0) (Capture "resolved PipeWire source has zero sample rate") in
  let format := default "F32LE" (node_format n) in
  let? _ := ExportPaths.err_if (negb (String.eqb format "F32LE"))
              (Capture ("unsupported PipeWire format " +:+ format +:+ "; expected F32LE")) in
  Ok (mkTarget (Some (node_id n)) (default ("node-" +:+ decimal (node_id n)) (node_name n)) (node_description n) channels
        sample_rate format sources (durable_live_key n)).

Definition capture_error_message (e : LambError) : string := match e with Capture m => m | e => display e end.

Definition map_err {E F A} (f : E -> F) (o : outcome E A) : outcome F A :=
  match o with Ok a => Ok a | Err e => Err (f e) | Panic => Panic end.

Definition resolve_target_from_graph_typed (cfg : PipeWireCaptureConfig) (nodes : list AvailableNode) (l : list AvailablePort)
    : outcome TargetResolutionError ResolvedTarget :=
  let? selected := select_node (capture_target cfg) nodes in
  let? sources := resolve_source_ports_typed cfg selected nodes l in
  map_err (fun e => InvalidSelector (capture_error_message e)) (resolved_from_node cfg selected sources).

Definition resolve_target_from_graph (cfg : PipeWireCaptureConfig) (nodes : list AvailableNode) (l : list AvailablePort)
    : Result ResolvedTarget :=
  map_err (fun e => Capture (resolution_message e)) (resolve_target_from_graph_typed cfg nodes l).

(** [PipeWireCaptureConfig::from_lamb_config], [channel_count] and [channel_names] *)
Definition from_lamb_config (c : LambConfig) : Result PipeWireCaptureConfig :=
  let? l := resolved_capture_ports c in
  Ok (mkPipeWireCapture (target c) l (config_sample_rate c) (dont_remix c) (latency c)).

Definition capture_channel_count (c : PipeWireCaptureConfig) : Result Z :=
  ok_or (checked u32_max (zlen (capture_configured_ports c))) (Validation "capturePorts exceeds supported channel count").

Definition capture_channel_names (c : PipeWireCaptureConfig) : list string := map configured_name (capture_configured_ports c).

(** ** Links *)

(** The ports of the stream that take samples. *)
Definition stream_inputs (stream : Z) (l : list AvailablePort) : list AvailablePort :=
  List.filter (fun p => is_node (port_node p) stream && opt_is (direction p) "in") l.

Definition capture_error (message : string) : LambError := Capture message.

Definition check_destination (p : AvailablePort) : Result unit :=
  let name := "destination port " +:+ decimal (port_global p) in
  let? _ := ExportPaths.err_if (negb (String.eqb (port_object_type p) PORT_TYPE))
              (capture_error (name +:+ " has object type '" +:+ port_object_type p +:+ "'; expected 'PipeWire:Interface:Port'")) in
  let? _ := ExportPaths.err_if (negb (opt_is (direction p) "in"))
              (capture_error (name +:+ " has direction '" +:+ default "<missing>" (direction p) +:+ "'; expected 'in'")) in
  let? _ := ExportPaths.err_if (negb (is_audio_port p)) (capture_error (name +:+ " is not audio")) in
  ExportPaths.err_if (negb (is_set (port_local p))) (capture_error (name +:+ " is missing port.id")).

Fixpoint check_destinations (l : list AvailablePort) : Result unit :=
  match l with
  | [] => Ok tt
  | p :: rest => let? _ := check_destination p in check_destinations rest
  end.

(** The key of [sort_by_key]; it is present in a checked port. *)
Definition local_key (p : AvailablePort) : Z := default 0 (port_local p).
Definition local_le (p q : AvailablePort) : Prop := local_key p <= local_key q.
#[export] Instance local_le_dec p q : Decision (local_le p q).
Proof. unfold local_le. apply _. Defined.

Fixpoint check_pairs (l : list AvailablePort) : Result unit :=
  match l with
  | p :: rest => match rest with
                 | q :: _ => if local_key p =? local_key q
                             then Err (capture_error ("duplicate destination port.id " +:+ decimal (local_key p)))
                             else check_pairs rest
                 | [] => Ok tt
                 end
  | [] => Ok tt
  end.

Definition link_of (stream : Z) (source : ResolvedSourcePort) (destination : AvailablePort) : PlannedLink :=
  mkLink (source_node_id source) (global_id source) stream (port_global destination).

Definition plan_explicit_links (sources : list ResolvedSourcePort) (stream : Z) (l : list AvailablePort)
    : Result (list PlannedLink) :=
  let destinations := stream_inputs stream l in
  let? _ := check_destinations destinations in
  let destinations := merge_sort local_le destinations in
  let? _ := check_pairs destinations in
  let? _ := ExportPaths.err_if (negb (zlen destinations =? zlen sources))
              (capture_error ("destination port count " +:+ decimal (zlen destinations) +:+ " does not match source count "
                              +:+ decimal (zlen sources))) in
  Ok (zip_with (link_of stream) sources destinations).

(** ** Readiness at startup *)

Inductive DestinationReadiness := DestinationPending | DestinationReady | DestinationFailed (message : string).

(** The loop over the input ports; [ids] is the set of the local ids so far. *)
Fixpoint collect_ids (ids : list Z) (l : list AvailablePort) : DestinationReadiness + list Z :=
  match l with
  | [] => inr ids
  | p :: rest =>
      match port_local p with
      | None => inl (DestinationFailed "PipeWire stream input port is missing port.id")
      | Some i =>
          if negb (String.eqb (port_object_type p) PORT_TYPE) || negb (is_audio_port p)
          then inl (DestinationFailed "PipeWire stream has malformed or duplicate input ports")
          else if bool_decide (i ∈ ids)
          then inl (DestinationFailed "PipeWire stream has malformed or duplicate input ports")
          else collect_ids (i :: ids) rest
      end
  end.

Definition destination_readiness (g : AvailableGraph) (stream expected : Z) : DestinationReadiness :=
  match collect_ids [] (stream_inputs stream (graph_ports g)) with
  | inl r => r
  | inr ids =>
      if zlen ids <? expected then DestinationPending
      else if expected <? zlen ids
      then DestinationFailed ("destination input port count " +:+ decimal (zlen ids) +:+ " exceeds source count " +:+ decimal expected)
      else DestinationReady
  end.

Inductive StreamBindingReadiness := BindingPending | BindingReady (node : Z) | BindingFailed (message : string).
Inductive StreamBindingEvent := StreamPaused | StreamErrorEvent (message : string) | StreamUnconnectedEvent.

#[export] Instance StreamBindingReadiness_eq_dec : EqDecision StreamBindingReadiness.
Proof. solve_decision. Defined.

(** [pipewire::constants::ID_ANY] *)
Definition ID_ANY : Z := u32_max.

(** [StreamBindingReadiness::observe]: the new state, and whether it changed. *)
Definition observe (event : StreamBindingEvent) (node : Z) (r : StreamBindingReadiness) : StreamBindingReadiness * bool :=
  let r' := match event, r with
            | _, BindingFailed _ => r
            | StreamErrorEvent message, _ => BindingFailed ("PipeWire stream error during startup: " +:+ message)
            | StreamUnconnectedEvent, _ => BindingFailed "PipeWire stream became unconnected during startup"
            | StreamPaused, BindingPending => if node =? ID_ANY then r else BindingReady node
            | StreamPaused, BindingReady _ => r
            end in
  (r', negb (bool_decide (r' = r))).

Definition binding_timeout (r : StreamBindingReadiness) : StreamBindingReadiness :=
  match r with BindingPending => BindingFailed "PipeWire stream binding timed out after 5 seconds" | _ => r end.

Definition binding_result (r : StreamBindingReadiness) : outcome string Z :=
  match r with
  | BindingReady node => Ok node
  | BindingFailed message => Err message
  | BindingPending => Err "PipeWire stream binding is still pending"
  end.

Definition ensure_stream_startup_ready (r : StreamBindingReadiness) : Result Z := map_err Capture (binding_result r).

Definition evaluate_destination_startup (g : AvailableGraph) (stream expected : Z) (r : StreamBindingReadiness)
    (startup_error : option string) (timed_out : bool) : Result DestinationReadiness :=
  match startup_error with
  | Some message => Err (Capture message)
  | None =>
      let? _ := ensure_stream_startup_ready r in
      if timed_out then Err (Capture "PipeWire destination ports timed out after 5 seconds")
      else Ok (destination_readiness g stream expected)
  end.

(** ** Changes of the graph *)

Definition record_link_factory (i : Z) (name : string) (g : AvailableGraph) : AvailableGraph :=
  g <| link_factory := Some (mkFactory i name) |>.

Definition remove_graph_global (i : Z) (g : AvailableGraph) : AvailableGraph :=
  let g := g <| nodes ::= List.filter (fun n => negb (node_id n =? i)) |>
             <| graph_ports ::= List.filter (fun p => negb (port_global p =? i)) |> in
  match link_factory g with
  | Some f => if factory_id f =? i then g <| link_factory := None |> else g
  | None => g
  end.

#[export] Instance ResolvedSourcePort_eq_dec : EqDecision ResolvedSourcePort.
Proof. solve_decision. Defined.
#[export] Instance ResolvedTarget_eq_dec : EqDecision ResolvedTarget.
Proof. solve_decision. Defined.

(** [debug] is the derived Debug text of a target. *)
Definition validate_startup_reresolution (debug : ResolvedTarget -> string) (expected fresh : ResolvedTarget)
    : outcome TargetResolutionError ResolvedTarget :=
  if decide (fresh = expected) then Ok fresh
  else Err (TargetChanged ("expected " +:+ debug expected +:+ ", found " +:+ debug fresh)).
