(* ===== verification/PipeWireTheorems.v ===== *)
(** * How channels reach the ports of a PipeWire graph

    Properties of [PipeWireTarget]. *)
From Stdlib Require Import Ascii.
From stdpp Require Import sorting.
From S2P Require Import Prelude.
From S2P Require Import Errors.
From S2P Require Import Paths.
From S2P Require Import Text.
From S2P Require Import ExportPattern.
From S2P Require Import LegacyConfig.
From S2P Require Import AppConfig.
From S2P Require Import Profile.
From S2P Require Import InputIdentity.
From S2P Require Import PipeWireTarget.

(** ** Sources *)

Lemma opt_is_spec o s : opt_is o s = true <-> o = Some s.
Proof. destruct o as [v|]; cbn; [|done]. rewrite String.eqb_eq. split; [by intros ->|by intros [= ->]]. Qed.

Lemma is_node_spec o i : is_node o i = true <-> o = Some i.
Proof. destruct o as [v|]; cbn; [|done]. rewrite Z.eqb_eq. split; [by intros ->|by intros [= ->]]. Qed.

Lemma is_set_spec {A} (o : option A) : is_set o = true <-> exists a, o = Some a.
Proof. destruct o; cbn; split; try done; [by eexists|by intros [? ?]]. Qed.

(** The one port that a source names on the selected node. *)
Definition source_port (selected : Z) (l : list AvailablePort) (c : ConfiguredCapturePort) (s : ResolvedSourcePort) : Prop :=
  exists p local, List.filter (fun p => is_node (port_node p) selected)
                    (List.filter (fun p => opt_is (available_name p) (configured_source c)) l) = [p]
    /\ valid_output selected p = true /\ port_local p = Some local
    /\ s = mkSourcePort (port_global p) selected local (configured_source c).

Lemma find_source_Ok selected name nodes l source p : find_source selected name nodes l source = Ok p <->
  List.filter (fun p => is_node (port_node p) selected) (List.filter (fun p => opt_is (available_name p) source) l) = [p].
Proof.
  unfold find_source. destruct (List.filter _ (List.filter _ l)) as [|q [|q' r]]; [|by split; intros [= ->]|done].
  destruct (existsb _ _); [done|]. by destruct (min_by_name _ _).
Qed.

Lemma check_source_Ok selected source p s : port_node p = Some selected ->
  check_source source p = Ok s <->
  valid_output selected p = true /\ exists local, port_local p = Some local /\ s = mkSourcePort (port_global p) selected local source.
Proof.
  intros Hn. unfold check_source, valid_output. rewrite Hn. cbn [ok_or obind is_node]. rewrite Z.eqb_refl, andb_true_r.
  destruct (String.eqb (port_object_type p) PORT_TYPE); cbn [negb andb]; [|by split; [|intros [? _]]].
  destruct (opt_is (direction p) "out"); cbn [negb andb]; [|by split; [|intros [? _]]].
  destruct (is_audio_port p); cbn [negb]; rewrite ?andb_false_r, ?andb_true_r; [|by split; [|intros [? _]]].
  destruct (port_local p) as [local|]; cbn; [|by split; [|intros [? _]]].
  split; [intros [= <-]; split; [done|]; by exists local|]. by intros (_ & ? & [= <-] & ->).
Qed.

Lemma resolve_sources_Ok selected name nodes l configured sources :
  resolve_sources selected name nodes l configured = Ok sources <-> Forall2 (source_port selected l) configured sources.
Proof.
  revert sources. induction configured as [|c rest IH]; intros sources; cbn [resolve_sources].
  { split; [intros [= <-]; constructor|]. intros H. by inversion H. }
  split.
  - intros H. apply obind_Ok in H as (p & Hp%find_source_Ok & H). apply obind_Ok in H as (s & Hs & H).
    apply obind_Ok in H as (more & Hm%IH & [= <-]). constructor; [|done].
    assert (port_node p = Some selected) as Hn.
    { apply is_node_spec. assert (In p (List.filter (fun p => is_node (port_node p) selected)
        (List.filter (fun p => opt_is (available_name p) (configured_source c)) l))) as Hin by (rewrite Hp; by left).
      by apply filter_In in Hin as [_ ?]. }
    apply (check_source_Ok _ _ _ _ Hn) in Hs as (Hv & local & Hl & ->). by exists p, local.
  - intros H. inversion H as [|? s ? more (p & local & Hp & Hv & Hl & ->) Hm]; subst.
    rewrite (proj2 (find_source_Ok _ _ _ _ _ _) Hp). cbn [obind].
    assert (port_node p = Some selected) as Hn.
    { unfold valid_output in Hv. rewrite !andb_true_iff in Hv. apply is_node_spec, Hv. }
    assert (check_source (configured_source c) p = Ok (mkSourcePort (port_global p) selected local (configured_source c))) as ->.
    { apply (check_source_Ok selected); [done|]. split; [done|]. by exists local. }
    cbn [obind]. apply IH in Hm. by rewrite Hm.
Qed.

Lemma check_sources_once_Ok seen l : check_sources_once seen l = Ok tt <->
  NoDup (map configured_source l) /\ Forall (fun c => configured_source c ∉ seen) l.
Proof.
  revert seen. induction l as [|c l IH]; intros seen; cbn [check_sources_once map].
  { split; [|done]. intros _. split; [apply NoDup_nil_2|constructor]. }
  rewrite NoDup_cons, Forall_cons. case_bool_decide as Hc; [split; [done|by intros [_ [? _]]]|].
  rewrite IH. setoid_rewrite not_elem_of_cons. rewrite Forall_forall. split.
  - intros [Hn H]. split_and!; try done.
    + intros (d & Hd & Hin)%list_elem_of_In%in_map_iff. apply list_elem_of_In in Hin. by destruct (H d Hin) as [? _].
    + apply Forall_forall. intros d Hd. by destruct (H d Hd) as [_ ?].
  - intros [[Hn1 Hn2] [_ H]]. split; [done|]. intros d Hd. rewrite Forall_forall in H. split; [|by apply H].
    intros E. apply Hn1, list_elem_of_In, in_map_iff. exists d. split; [done|]. by apply list_elem_of_In.
Qed.

Lemma resolve_source_ports_Ok cfg selected nodes l sources :
  resolve_source_ports_typed cfg selected nodes l = Ok sources <->
  NoDup (map configured_source (capture_configured_ports cfg))
  /\ Forall2 (source_port (node_id selected) l) (capture_configured_ports cfg) sources.
Proof.
  unfold resolve_source_ports_typed. split.
  - intros H. apply obind_Ok in H as ([] & [H1 _]%check_sources_once_Ok & H2%resolve_sources_Ok). done.
  - intros [H1 H2]. assert (check_sources_once [] (capture_configured_ports cfg) = Ok tt) as ->.
    { apply check_sources_once_Ok. split; [done|]. apply Forall_forall. intros c _. apply not_elem_of_nil. }
    by apply resolve_sources_Ok.
Qed.

(** The ports of a configuration resolve on a node exactly if no source is
    configured twice and each source names one port of the node, which is an
    audio output with a local id. The result has these ports in the order of the
    configuration. *)
Theorem sources_resolve cfg selected nodes l sources :
  resolve_source_ports_typed cfg selected nodes l = Ok sources <->
  NoDup (map configured_source (capture_configured_ports cfg))
  /\ Forall2 (source_port (node_id selected) l) (capture_configured_ports cfg) sources.
Proof. apply resolve_source_ports_Ok. Qed.

(** ** Destinations *)

Lemma check_destinations_Ok l : check_destinations l = Ok tt <-> Forall (fun p => check_destination p = Ok tt) l.
Proof.
  induction l as [|p l IH]; cbn [check_destinations]; [by split|]. rewrite Forall_cons, <-IH. split.
  - intros H. by apply obind_Ok in H as ([] & ? & ?).
  - intros [-> H]. exact H.
Qed.

(** An input of the stream that can be linked. *)
Definition good_input (p : AvailablePort) : bool :=
  String.eqb (port_object_type p) PORT_TYPE && is_audio_port p && is_set (port_local p).

Lemma check_destination_Ok p : opt_is (direction p) "in" = true -> check_destination p = Ok tt <-> good_input p = true.
Proof.
  intros Hd. unfold check_destination, good_input, ExportPaths.err_if. rewrite Hd. cbn [negb obind].
  destruct (String.eqb _ _); cbn; [|done]. destruct (is_audio_port p); cbn; [|done]. by destruct (is_set (port_local p)).
Qed.

Lemma stream_inputs_in stream l p : In p (stream_inputs stream l) <->
  In p l /\ port_node p = Some stream /\ direction p = Some "in".
Proof. unfold stream_inputs. rewrite filter_In, andb_true_iff, is_node_spec, opt_is_spec. done. Qed.

Lemma check_destinations_inputs stream l : check_destinations (stream_inputs stream l) = Ok tt <->
  Forall (fun p => good_input p = true) (stream_inputs stream l).
Proof.
  rewrite check_destinations_Ok, !Forall_forall. split; intros H p Hp; specialize (H p Hp);
    apply list_elem_of_In, stream_inputs_in in Hp as (_ & _ & Hd%opt_is_spec); by apply (check_destination_Ok p Hd).
Qed.

Lemma check_pairs_Ok l : Sorted local_le l -> check_pairs l = Ok tt <-> NoDup (map local_key l).
Proof.
  intros Hs. apply Sorted_StronglySorted in Hs; [|intros a b c; unfold local_le; lia].
  induction Hs as [|p l Hs IH HF]; [split; [intros _; apply NoDup_nil_2|done]|]. cbn [check_pairs map]. rewrite NoDup_cons.
  destruct l as [|q l].
  { cbn. split; [|done]. intros _. split; [apply not_elem_of_nil|apply NoDup_nil_2]. }
  destruct (Z.eqb_spec (local_key p) (local_key q)) as [E|E].
  - split; [done|]. intros [Hn _]. exfalso. apply Hn. rewrite E. cbn. by left.
  - rewrite IH. split; [intros H|tauto]. split; [|done]. intros (r & Hr & Hin)%list_elem_of_In%in_map_iff.
    assert (local_key p < local_key r) as Hlt; [|lia].
    apply Forall_cons in HF as [Hpq HF]. apply StronglySorted_inv in Hs as [_ Hq]. unfold local_le in *.
    destruct Hin as [->|Hin]; [lia|]. rewrite Forall_forall in Hq. apply list_elem_of_In, Hq in Hin. lia.
Qed.

Lemma collect_ids_spec ids l : match collect_ids ids l with
  | inl r => r <> DestinationReady /\ r <> DestinationPending
  | inr ids' => Forall (fun p => good_input p = true) l /\ NoDup (map local_key l)
                /\ Forall (fun p => local_key p ∉ ids) l /\ zlen ids' = zlen ids + zlen l
  end.
Proof.
  revert ids. induction l as [|p l IH]; intros ids; cbn [collect_ids].
  { split_and!; [constructor|apply NoDup_nil_2|constructor|]. change (zlen (@nil AvailablePort)) with 0. lia. }
  destruct (port_local p) as [i|] eqn:El; [|done].
  destruct (negb _ || negb _) eqn:Eb; [done|]. apply orb_false_iff in Eb as [E1 E2]. apply negb_false_iff in E1, E2.
  case_bool_decide as Hi; [done|]. specialize (IH (i :: ids)). destruct (collect_ids (i :: ids) l) as [r|ids']; [done|].
  destruct IH as (H1 & H2 & H3 & H4). assert (local_key p = i) as Hk by (unfold local_key; by rewrite El).
  cbn [map]. rewrite NoDup_cons, Forall_cons, Hk. split_and!; try done.
  - unfold good_input. by rewrite E1, E2, El.
  - intros (q & Hq & Hin)%list_elem_of_In%in_map_iff. rewrite Forall_forall in H3.
    apply list_elem_of_In, H3, not_elem_of_cons in Hin as [? _]. done.
  - constructor; [by rewrite Hk|]. eapply Forall_impl; [exact H3|]. intros q Hq. apply not_elem_of_cons in Hq. tauto.
  - unfold zlen in *. cbn [length] in *. lia.
Qed.

Lemma collect_ids_good ids l : Forall (fun p => good_input p = true) l -> NoDup (map local_key l) ->
  Forall (fun p => local_key p ∉ ids) l -> exists ids', collect_ids ids l = inr ids'.
Proof.
  revert ids. induction l as [|p l IH]; intros ids H1 H2 H3; cbn [collect_ids]; [by eexists|].
  apply Forall_cons in H1 as [Hg H1], H3 as [Hn H3]. cbn [map] in H2. apply NoDup_cons in H2 as [Hd H2].
  unfold good_input in Hg. rewrite !andb_true_iff in Hg. destruct Hg as [[E1 E2] [i El]%is_set_spec].
  unfold local_key in Hn, Hd. rewrite El in *. cbn [default] in *. rewrite E1, E2. cbn [negb orb].
  rewrite bool_decide_eq_false_2 by done. apply IH; [done..|]. apply Forall_forall. intros q Hq. apply not_elem_of_cons.
  split; [|rewrite Forall_forall in H3; by apply H3]. intros E. apply Hd, list_elem_of_In, in_map_iff. exists q.
  split; [done|]. by apply list_elem_of_In.
Qed.

(** The inputs of a stream that [n] channels can be linked to. *)
Definition linkable (stream n : Z) (l : list AvailablePort) : Prop :=
  Forall (fun p => good_input p = true) (stream_inputs stream l) /\ NoDup (map local_key (stream_inputs stream l))
  /\ zlen (stream_inputs stream l) = n.

Lemma readiness_linkable g stream n : destination_readiness g stream n = DestinationReady <-> linkable stream n (graph_ports g).
Proof.
  unfold destination_readiness, linkable. set (l := stream_inputs stream (graph_ports g)).
  pose proof (collect_ids_spec [] l) as H. split.
  - intros E. destruct (collect_ids [] l) as [r|ids]; [by destruct H|]. destruct H as (H1 & H2 & _ & H3).
    change (zlen (@nil Z)) with 0 in H3. destruct (Z.ltb_spec (zlen ids) n); [done|]. destruct (Z.ltb_spec n (zlen ids)); [done|].
    split_and!; [done..|lia].
  - intros (H1 & H2 & H3). destruct (collect_ids_good [] l H1 H2) as [ids E].
    { apply Forall_forall. intros p _. apply not_elem_of_nil. }
    rewrite E in *. destruct H as (_ & _ & _ & H). change (zlen (@nil Z)) with 0 in H.
    rewrite (proj2 (Z.ltb_ge _ _)), (proj2 (Z.ltb_ge _ _)) by lia. done.
Qed.

Lemma sorted_inputs l : merge_sort local_le l ≡ₚ l /\ Sorted local_le (merge_sort local_le l).
Proof.
  split; [apply merge_sort_Permutation|]. apply Sorted_merge_sort. intros p q. unfold local_le. lia.
Qed.

Lemma plan_Ok sources stream l links : plan_explicit_links sources stream l = Ok links <->
  linkable stream (zlen sources) l
  /\ links = zip_with (link_of stream) sources (merge_sort local_le (stream_inputs stream l)).
Proof.
  unfold plan_explicit_links, linkable. set (ds := stream_inputs stream l). destruct (sorted_inputs ds) as [Hp Hs].
  assert (NoDup (map local_key (merge_sort local_le ds)) <-> NoDup (map local_key ds)) as Hnd.
  { by rewrite Hp. }
  assert (zlen (merge_sort local_le ds) = zlen ds) as Hl by (unfold zlen; by rewrite Hp).
  split.
  - intros H. apply obind_Ok in H as ([] & H1%check_destinations_inputs & H). apply obind_Ok in H as ([] & H2 & H).
    apply (check_pairs_Ok _ Hs), Hnd in H2. apply obind_Ok in H as ([] & H3%ExportPaths.err_if_Ok & [= <-]).
    apply negb_false_iff, Z.eqb_eq in H3. split_and!; try done. congruence.
  - intros [(H1 & H2 & H3) ->]. assert (check_destinations ds = Ok tt) as -> by by apply check_destinations_inputs. cbn [obind].
    rewrite (proj2 (check_pairs_Ok _ Hs) (proj2 Hnd H2)). cbn [obind]. by rewrite Hl, H3, Z.eqb_refl.
Qed.

(** The capture starts to link its channels exactly when it can: the destination
    ports are ready if and only if the links can be planned. *)
Theorem ready_when_linkable g stream sources :
  destination_readiness g stream (zlen sources) = DestinationReady
  <-> exists links, plan_explicit_links sources stream (graph_ports g) = Ok links.
Proof.
  rewrite readiness_linkable. split.
  - intros H. eexists. by apply plan_Ok.
  - intros [links [H _]%plan_Ok]. exact H.
Qed.

(** ** From the configuration to the links *)

(** Link [i] joins the port of channel [i] with the [i]-th input of the stream. *)
Record wired (cfg : PipeWireCaptureConfig) (selected stream : Z) (sources inputs : list AvailablePort)
    (links : list PlannedLink) : Prop := mkWired {
  wi_sources : Forall2 (fun c p => available_name p = Some (configured_source c) /\ port_node p = Some selected
                          /\ direction p = Some "out" /\ is_audio_port p = true) (capture_configured_ports cfg) sources;
  wi_inputs : StronglySorted (fun p q => local_key p < local_key q) inputs
              /\ Forall (fun q => port_node q = Some stream /\ direction q = Some "in" /\ is_audio_port q = true) inputs;
  wi_links : links = zip_with (fun p q => mkLink selected (port_global p) stream (port_global q)) sources inputs;
  wi_length : length sources = length inputs;
}.

Lemma strictly_sorted l : Sorted local_le l -> NoDup (map local_key l) ->
  StronglySorted (fun p q => local_key p < local_key q) l.
Proof.
  intros Hs. apply Sorted_StronglySorted in Hs; [|intros a b c; unfold local_le; lia].
  induction Hs as [|p l Hs IH HF]; [constructor|]. cbn [map]. intros [Hn Hd]%NoDup_cons. constructor; [by apply IH|].
  rewrite Forall_forall in *. intros q Hq. specialize (HF q Hq). unfold local_le in HF.
  assert (local_key p <> local_key q); [|lia]. intros E. apply Hn, list_elem_of_In, in_map_iff. exists q. split; [done|].
  by apply list_elem_of_In.
Qed.

(** C19. Each channel gets the port that it was configured with. If a configuration
    resolves to a target and the links to the stream are planned, then link i
    joins the output that the source of channel i names, on the selected node,
    with the i-th input of the stream in the order of the local ids; every input
    of the stream is in one link, and the target has one channel per
    configured port. *)
Theorem channels_wired_in_order cfg nodes ports target stream now links :
  resolve_target_from_graph_typed cfg nodes ports = Ok target ->
  plan_explicit_links (source_ports target) stream now = Ok links ->
  exists selected sources inputs,
    select_node (capture_target cfg) nodes = Ok selected /\ target_id target = Some (node_id selected)
    /\ wired cfg (node_id selected) stream sources inputs links
    /\ (forall p, In p sources -> In p ports) /\ inputs ≡ₚ stream_inputs stream now
    /\ target_channels target = zlen (capture_configured_ports cfg) /\ 0 < target_channels target.
Proof.
  unfold resolve_target_from_graph_typed. intros H Hp. apply obind_Ok in H as (n & Hn & H).
  apply obind_Ok in H as (ss & Hss%resolve_source_ports_Ok & H). destruct Hss as [_ HF].
  assert (exists t, resolved_from_node cfg n ss = Ok t /\ t = target) as (t & Ht & ->).
  { destruct (resolved_from_node cfg n ss) as [t| |]; [|done..]. injection H as ->. by eexists. }
  unfold resolved_from_node in Ht. apply obind_Ok in Ht as (ch & Hch%ok_or_Ok & Ht). apply checked_Some in Hch as [-> _].
  apply obind_Ok in Ht as ([] & Hz%ExportPaths.err_if_Ok & Ht). apply obind_Ok in Ht as ([] & _ & Ht).
  apply obind_Ok in Ht as ([] & _ & [= <-]). cbn [source_ports target_id target_channels] in *.
  apply plan_Ok in Hp as [(Hg & Hd & Hl) ->]. destruct (sorted_inputs (stream_inputs stream now)) as [Hperm Hsorted].
  assert (exists sources, Forall2 (fun c p => available_name p = Some (configured_source c) /\ port_node p = Some (node_id n)
            /\ direction p = Some "out" /\ is_audio_port p = true) (capture_configured_ports cfg) sources
          /\ (forall p, In p sources -> In p ports)
          /\ Forall2 (fun s p => source_node_id s = node_id n /\ global_id s = port_global p) ss sources) as (sources & S1 & S2 & S3).
  { clear -HF. induction HF as [|c s cs ss (p & local & Hf & Hv & Hl & ->) _ (sources & S1 & S2 & S3)]; [by exists []|].
    exists (p :: sources). assert (In p [p]) as Hin by by left. rewrite <-Hf in Hin.
    apply filter_In in Hin as [Hin Hnode%is_node_spec]. apply filter_In in Hin as [Hin Hname%opt_is_spec].
    unfold valid_output in Hv. rewrite !andb_true_iff in Hv. destruct Hv as [[[_ Hdir%opt_is_spec] _] Ha].
    split_and!; [by constructor|by intros q [<-|Hq]; auto|by constructor]. }
  exists n, sources, (merge_sort local_le (stream_inputs stream now)). split_and!; try done.
  - assert (length ss = length sources) as Hlen by (by eapply Forall2_length).
    constructor; [done|split| |].
    + apply strictly_sorted; [done|]. by rewrite Hperm.
    + apply Forall_forall. intros q Hq. rewrite Hperm in Hq. rewrite Forall_forall in Hg. specialize (Hg q Hq).
      apply list_elem_of_In, stream_inputs_in in Hq as (_ & ? & ?). unfold good_input in Hg. rewrite !andb_true_iff in Hg.
      split_and!; tauto.
    + clear -S3. generalize (merge_sort local_le (stream_inputs stream now)). intros l.
      revert l. induction S3 as [|s p ss sources [E1 E2] _ IH]; intros [|q l]; try done. cbn [zip_with]. rewrite IH.
      unfold link_of. by rewrite E1, E2.
    + rewrite <-Hlen, Hperm. unfold zlen in Hl. lia.
  - apply Forall2_length in HF. unfold zlen. by rewrite HF.
  - apply Z.eqb_neq in Hz. pose proof (zlen_nonneg ss). lia.
Qed.
