(* ===== verification/PipeWireHealth.v ===== *)
(** * The first fault of a capture (src/capture_pipewire.rs)

    Listener callbacks record the first fatal error of a capture; it is reported
    to the sink of the attempt that owns the capture, once the capture is armed.
    Each call changes the state under its mutex and reports afterwards, so that
    the report is a result of the call. Theorem: whatever calls come in whatever
    order, the reports carry the first fault, no binding is told twice in a row,
    nothing is reported before the capture is armed or after a normal stop, and
    the current sink has been told as soon as there is a fault and the capture is
    armed. *)
From S2P Require Import Prelude.
From S2P Require Import Errors.
From S2P Require Import ExportPattern.
From S2P Require Import RetryScheduler.

Record PipeWireHealthState := mkHealth {
  fault : option RuntimeCaptureFault;
  health_sink : option RuntimeFaultSink;
  notified_sink : option RuntimeFaultSink;
  armed : bool;
  normal_stop : bool;
}.

#[export] Instance PipeWireHealthState_eta : Eta PipeWireHealthState := fun h =>
  mkHealth (fault h) (health_sink h) (notified_sink h) (armed h) (normal_stop h).

Definition unarmed_with_fault_sink (k : RuntimeFaultSink) : PipeWireHealthState := mkHealth None (Some k) None false false.

Abbreviation Notification := (RuntimeFaultSink * RuntimeCaptureFault)%type.

Definition pending_notification (h : PipeWireHealthState) : PipeWireHealthState * option Notification :=
  if normal_stop h || negb (armed h) then (h, None)
  else match health_sink h with
       | None => (h, None)
       | Some sink =>
           if match notified_sink h with Some n => same_binding n sink | None => false end then (h, None)
           else match fault h with
                | None => (h, None)
                | Some f => (h <| notified_sink := Some sink |>, Some (sink, f))
                end
       end.

(** The result says whether the fault was the first. *)
Definition record_fatal (f : RuntimeCaptureFault) (h : PipeWireHealthState) : PipeWireHealthState * (bool * option Notification) :=
  if normal_stop h || match fault h with Some _ => true | None => false end then (h, (false, None))
  else let (h', n) := pending_notification (h <| fault := Some f |>) in (h', (true, n)).

Definition arm (h : PipeWireHealthState) : PipeWireHealthState * option Notification :=
  if normal_stop h then (h, None) else pending_notification (h <| armed := true |>).

Definition rebind_and_arm (k : RuntimeFaultSink) (h : PipeWireHealthState) : PipeWireHealthState * option Notification :=
  if normal_stop h then (h, None)
  else pending_notification (h <| health_sink := Some k |> <| armed := true |>).

Definition mark_normal_stop (h : PipeWireHealthState) : PipeWireHealthState :=
  h <| normal_stop := true |> <| armed := false |> <| health_sink := None |>.

Definition health_attempt_id (h : PipeWireHealthState) : option CaptureAttemptId := k ← health_sink h; Some (sink_attempt_id k).

Definition fault_message (h : PipeWireHealthState) : option string :=
  f ← fault h; Some match f with DeviceDisconnected m | BackendFault m => m end.

Inductive RuntimeFaultEvent :=
  | CoreError (id seq result : Z) (message : string)
  | LinkError (message : string)
  | StreamErrorEvent (message : string)
  | StreamUnconnected.

Definition fault_of_event (e : RuntimeFaultEvent) : RuntimeCaptureFault :=
  match e with
  | CoreError id seq result message =>
      BackendFault ("PipeWire core/proxy error (id=" +:+ decimal id +:+ ", seq=" +:+ decimal seq +:+ ", result="
                    +:+ decimal result +:+ "): " +:+ message)
  | LinkError message => BackendFault ("PipeWire link error: " +:+ message)
  | StreamErrorEvent message => BackendFault ("PipeWire stream error: " +:+ message)
  | StreamUnconnected => DeviceDisconnected "PipeWire stream became unconnected"
  end.

Definition observe_runtime_fault (e : RuntimeFaultEvent) (h : PipeWireHealthState) :
    PipeWireHealthState * (bool * option Notification) := record_fatal (fault_of_event e) h.

(** ** Calls in any order *)

Inductive HealthCall := Observe (e : RuntimeFaultEvent) | Arm | Rebind (k : RuntimeFaultSink) | NormalStop.

Definition health_call (c : HealthCall) (h : PipeWireHealthState) : PipeWireHealthState * option Notification :=
  match c with
  | Observe e => let (h', r) := observe_runtime_fault e h in (h', r.2)
  | Arm => arm h
  | Rebind k => rebind_and_arm k h
  | NormalStop => (mark_normal_stop h, None)
  end.

(** The state and the reports, the last one first. *)
Fixpoint health_run (calls : list HealthCall) (h : PipeWireHealthState) (log : list Notification) :
    PipeWireHealthState * list Notification :=
  match calls with
  | [] => (h, log)
  | c :: rest =>
      let (h', n) := health_call c h in
      health_run rest h' (match n with Some n => n :: log | None => log end)
  end.

(** The current sink has been told. *)
Definition told (h : PipeWireHealthState) : Prop :=
  normal_stop h = false -> armed h = true -> forall k f, health_sink h = Some k -> fault h = Some f ->
  exists n, notified_sink h = Some n /\ (n = k \/ same_binding n k = true).

(** Two reports in a row go to different bindings. *)
Fixpoint alternating (log : list Notification) : Prop :=
  match log with
  | new :: rest => match rest with
                   | old :: _ => same_binding old.1 new.1 = false /\ alternating rest
                   | [] => True
                   end
  | [] => True
  end.

Record health_inv (h : PipeWireHealthState) (log : list Notification) : Prop := mkHealthInv {
  hi_told : told h;
  hi_last : notified_sink h = option_map fst (head log);
  hi_first : Forall (fun n => fault h = Some n.2) log;
  hi_alternating : alternating log;
  hi_stop : normal_stop h = true -> armed h = false /\ health_sink h = None;
}.

Definition logged (n : option Notification) (log : list Notification) : list Notification :=
  match n with Some n => n :: log | None => log end.

(** Reporting restores [told]; it needs the rest of the invariant only. *)
Lemma pending_spec h log h' n :
  notified_sink h = option_map fst (head log) -> Forall (fun n => fault h = Some n.2) log -> alternating log ->
  normal_stop h = false -> pending_notification h = (h', n) ->
  health_inv h' (logged n log) /\ fault h' = fault h /\ health_sink h' = health_sink h /\ armed h' = armed h /\ normal_stop h' = false.
Proof.
  intros H1 H2 H3 Hs. unfold pending_notification. rewrite Hs. cbn [orb].
  assert (told h -> health_inv h log) as Hsame by (intros Ht; constructor; [done..|congruence]).
  destruct (armed h) eqn:Ea; cbn [negb].
  2: { intros [= <- <-]. split_and!; try done. apply Hsame. intros _ Hf. congruence. }
  destruct (health_sink h) as [k|] eqn:Ek.
  2: { intros [= <- <-]. split_and!; try done. apply Hsame. intros _ _ k f Hk. congruence. }
  destruct (match notified_sink h with Some n => same_binding n k | None => false end) eqn:En.
  { intros [= <- <-]. split_and!; try done. apply Hsame. intros _ _ k' f Hk' _.
    revert En. destruct (notified_sink h) as [m|]; [|done]. intros En. exists m. split; [done|]. right. congruence. }
  destruct (fault h) as [f|] eqn:Ef.
  2: { intros [= <- <-]. split_and!; try done. apply Hsame. intros _ _ k' f' _ Hf'. congruence. }
  intros [= <- <-]. cbn. split_and!; try done. constructor; cbn.
  - intros _ _ k' f' Hk' _. exists k. split; [done|]. left. cbn in Hk'. congruence.
  - done.
  - constructor; cbn; [exact Ef|by rewrite Ef].
  - destruct log as [|old log]; [done|]. cbn in H1. rewrite H1 in En. by split.
  - cbn. congruence.
Qed.

Lemma told_irrelevant h log : health_inv h log -> notified_sink h = option_map fst (head log)
  /\ Forall (fun n => fault h = Some n.2) log /\ alternating log.
Proof. intros []. done. Qed.

Lemma health_call_inv c h log h' n : health_inv h log -> health_call c h = (h', n) -> health_inv h' (logged n log).
Proof.
  intros Hi H. destruct (told_irrelevant _ _ Hi) as (H1 & H2 & H3). destruct c as [e| |k|]; cbn [health_call] in H.
  - unfold observe_runtime_fault, record_fatal in H. destruct (normal_stop h) eqn:Es; cbn [orb] in H; [by injection H as <- <-|].
    destruct (fault h) as [f|] eqn:Ef; [by injection H as <- <-|].
    assert (log = []) as -> by (destruct log as [|m log]; [done|]; apply Forall_cons in H2 as [Hm _]; done).
    destruct (pending_notification _) as [h1 m] eqn:Ep. injection H as <- <-.
    by apply (pending_spec _ []) in Ep as [Hi' _].
  - unfold arm in H. destruct (normal_stop h) eqn:Es; [by injection H as <- <-|]. by apply (pending_spec _ log) in H as [Hi' _].
  - unfold rebind_and_arm in H. destruct (normal_stop h) eqn:Es; [by injection H as <- <-|].
    by apply (pending_spec _ log) in H as [Hi' _].
  - injection H as <- <-. constructor; cbn; [|done..]. by intros ?.
Qed.

Lemma health_run_inv calls h log : health_inv h log -> health_inv (health_run calls h log).1 (health_run calls h log).2.
Proof.
  revert h log. induction calls as [|c calls IH]; intros h log Hi; cbn [health_run]; [done|].
  destruct (health_call c h) as [h' n] eqn:E. apply IH. by eapply health_call_inv.
Qed.

Lemma unarmed_inv k : health_inv (unarmed_with_fault_sink k) [].
Proof. by constructor; [|done..|]. Qed.

(** A normal stop is final. *)
Lemma stopped_run calls h log : normal_stop h = true -> normal_stop (health_run calls h log).1 = true /\ (health_run calls h log).2 = log.
Proof.
  revert h log. induction calls as [|c calls IH]; intros h log Hs; cbn [health_run]; [done|].
  destruct c as [e| |k|]; cbn [health_call]; unfold observe_runtime_fault, record_fatal, arm, rebind_and_arm; rewrite ?Hs; cbn [orb]; by apply IH.
Qed.

(** C22. A capture reports its first fault, and reports it once to each binding. For
    any calls in any order: every report carries the fault that was recorded
    first; two reports in a row go to different bindings; as soon as there is a
    fault and the capture is armed and not stopped, its current sink has been
    told; and after a normal stop nothing is reported. *)
Theorem first_fault_reported k before after :
  let (h, log) := health_run before (unarmed_with_fault_sink k) [] in
  Forall (fun n => fault h = Some n.2) log /\ alternating log /\ told h
  /\ (normal_stop h = true -> health_run after h log = ((health_run after h log).1, log)).
Proof.
  destruct (health_run before (unarmed_with_fault_sink k) []) as [h log] eqn:E.
  pose proof (health_run_inv before _ _ (unarmed_inv k)) as Hi. rewrite E in Hi. destruct Hi as [H1 H2 H3 H4 H5].
  split_and!; try done. intros Hs. destruct (stopped_run after h log Hs) as [_ Hl].
  rewrite (surjective_pairing (health_run after h log)) at 1. by rewrite Hl.
Qed.

Example faults_reported :
  (health_run [Observe StreamUnconnected; Observe (LinkError "late"); Arm; Arm; Rebind (fault_sink 2 7 0); NormalStop; Arm]
     (unarmed_with_fault_sink (fault_sink 1 6 0)) []).2
  = [(fault_sink 2 7 0, DeviceDisconnected "PipeWire stream became unconnected");
     (fault_sink 1 6 0, DeviceDisconnected "PipeWire stream became unconnected")].
Proof. reflexivity. Qed.
