(* ===== verification/PipeWireChunk.v ===== *)
(** * The chunks of the PipeWire callback (src/capture_pipewire.rs)

    [process_interleaved_f32_chunk] checks the geometry of a mapped buffer and
    pushes the samples of its payload into the ingress queue. A byte is a number
    below 256; [address] is the address of the buffer, which decides whether its
    payload is aligned. Theorem: a chunk with the right geometry is pushed as a
    whole, every other one is refused before the queue is touched. *)
From S2P Require Import Prelude.
From S2P Require Import Errors.
From S2P Require Import ExportPattern.
From S2P Require Import IngressQueue.
From S2P Require Import IngressSpec.

(** [f32::from_bits]; the payload of a NaN is dropped. *)
Definition f32_of_bits (b : Z) : f32 :=
  let s := Z.testbit b 31 in
  let e := Z.shiftr b 23 mod 256 in
  let m := b mod 2 ^ 23 in
  if e =? 255 then (if m =? 0 then S754_infinity s else S754_nan)
  else if e =? 0 then match m with Z.pos p => S754_finite s p (-149) | _ => S754_zero s end
  else match m + 2 ^ 23 with Z.pos p => S754_finite s p (e - 150) | _ => S754_zero s end.

(** [slice::from_raw_parts] of little-endian samples *)
Fixpoint samples_of (bytes : list Z) : list f32 :=
  match bytes with
  | b0 :: b1 :: b2 :: b3 :: rest => f32_of_bits (b0 + 2 ^ 8 * b1 + 2 ^ 16 * b2 + 2 ^ 24 * b3) :: samples_of rest
  | _ => []
  end.

(** [x as i32] *)
Definition as_i32 (x : Z) : Z := let w := wrap32 x in if w <? 2 ^ 31 then w else w - 2 ^ 32.

(** The payload, if the geometry is right. *)
Definition chunk_payload (address : Z) (bytes : list Z) (offset size stride channels : Z) : Result (list Z) :=
  let? _ := if channels =? 0 then Err (Capture "PipeWire buffer has zero channels") else Ok tt in
  let? frame_bytes := ok_or (checked u32_max (channels * 4)) (Capture "PipeWire frame size overflow") in
  let? _ := if stride =? as_i32 frame_bytes then Ok tt
            else Err (Capture ("unsupported PipeWire stride " +:+ decimal stride +:+ "; expected " +:+ decimal frame_bytes
                               +:+ " for interleaved f32")) in
  let? _ := if is_multiple_of size frame_bytes then Ok tt
            else Err (Capture "PipeWire chunk size is not whole interleaved f32 frames") in
  let? end_ := ok_or (add_checked offset size) (Capture "PipeWire chunk range overflow") in
  let? payload := ok_or (slice bytes offset end_) (Capture "PipeWire chunk range exceeds mapped buffer") in
  if (address + offset) mod 4 =? 0 then Ok payload else Err (Capture "PipeWire f32 payload is not aligned").

Definition process_interleaved_f32_chunk (address : Z) (bytes : list Z) (offset size stride channels : Z) : QM unit :=
  let! payload := lift (chunk_payload address bytes offset size stride channels) in
  let! _ := try_push_interleaved (samples_of payload) channels in
  ret tt.

Lemma samples_of_length bytes n : zlen bytes = 4 * n -> zlen (samples_of bytes) = n.
Proof.
  unfold zlen. intros H. assert (length bytes = 4 * Z.to_nat n)%nat as Hl by lia.
  assert (0 <= n) as Hn by lia. rewrite <-(Z2Nat.id n) by done. clear H Hn. f_equal. revert bytes Hl.
  induction (Z.to_nat n) as [|k IH]; intros bytes Hl.
  - by destruct bytes.
  - do 4 (destruct bytes as [|? bytes]; [cbn in Hl; lia|]). cbn [samples_of length]. f_equal. apply IH. cbn in Hl. lia.
Qed.

(** The geometry of a chunk in a buffer of [length] bytes. *)
Record chunk_fits (address length offset size stride channels : Z) : Prop := mkChunkFits {
  cf_channels : 0 < channels /\ channels * 4 <= u32_max;
  cf_stride : stride = as_i32 (channels * 4);
  cf_whole : size mod (channels * 4) = 0;
  cf_range : offset + size <= length;
  cf_aligned : (address + offset) mod 4 = 0;
}.

Lemma chunk_payload_Ok address bytes offset size stride channels p :
  is_u32 offset -> is_u32 size -> is_u32 channels ->
  chunk_payload address bytes offset size stride channels = Ok p <->
  chunk_fits address (zlen bytes) offset size stride channels /\ p = segment bytes offset size.
Proof.
  unfold is_u32. intros Ho Hs Hc. unfold chunk_payload. split.
  - intros H. apply obind_Ok in H as ([] & H1 & H). destruct (Z.eqb_spec channels 0) as [|Hz]; [done|]. clear H1.
    apply obind_Ok in H as (fb & Hfb%ok_or_Ok & H). apply checked_Some in Hfb as [-> Hfb].
    apply obind_Ok in H as ([] & H1 & H). destruct (Z.eqb_spec stride (as_i32 (channels * 4))) as [Est|]; [|done]. clear H1.
    apply obind_Ok in H as ([] & H1 & H). destruct (is_multiple_of size (channels * 4)) eqn:Em; [|done]. clear H1.
    apply obind_Ok in H as (e & He%ok_or_Ok & H). apply checked_Some in He as [-> He].
    apply obind_Ok in H as (q & Hq%ok_or_Ok & H). unfold slice in Hq.
    destruct (Z.eqb_spec ((address + offset) mod 4) 0); [|done]. injection H as ->.
    destruct ((0 <=? offset) && (offset <=? offset + size) && (offset + size <=? zlen bytes)) eqn:Er; [|done]. to_prop.
    injection Hq as <-. split; [|f_equal; lia]. constructor; [split; [lia|apply Hfb]|done| |lia|done].
    unfold is_multiple_of in Em. destruct (Z.eqb_spec (channels * 4) 0); [lia|]. by apply Z.eqb_eq.
  - intros [[[H1 H2] -> H3 H4 H5] ->]. decide_cmp. cbn [obind].
    assert (checked u32_max (channels * 4) = Some (channels * 4)) as -> by (apply checked_Some; split; [done|lia]). cbn [ok_or obind].
    rewrite Z.eqb_refl. cbn [obind]. unfold is_multiple_of. decide_cmp. rewrite H3. cbn [Z.eqb obind].
    unfold add_checked. rewrite (proj2 (checked_Some u64_max (offset + size) _)) by (unfold u32_max, u64_max in *; split; [done|lia]).
    cbn [ok_or obind]. rewrite slice_Some by lia. cbn [ok_or obind]. rewrite H5. cbn [Z.eqb]. do 2 f_equal. lia.
Qed.

(** The callback pushes exactly the frames of a chunk that lies in its buffer,
    aligned and in whole frames: the queue gets the samples of these bytes, four
    bytes each, and the result is that of the push. Any other chunk is refused
    with an error, and the queue is as before. *)
Theorem chunk_pushed_whole address bytes offset size stride channels q :
  is_u32 offset -> is_u32 size -> is_u32 channels ->
  (chunk_fits address (zlen bytes) offset size stride channels /\
   let samples := samples_of (segment bytes offset size) in
   zlen samples = size / (channels * 4) * channels
   /\ process_interleaved_f32_chunk address bytes offset size stride channels q
      = (let (q', o) := try_push_interleaved samples channels q in (q', omap (fun _ => tt) o)))
  \/ (~ chunk_fits address (zlen bytes) offset size stride channels
      /\ exists e, process_interleaved_f32_chunk address bytes offset size stride channels q = (q, Err e)).
Proof.
  intros Ho Hs Hc. unfold process_interleaved_f32_chunk.
  destruct (chunk_payload address bytes offset size stride channels) as [p|e|] eqn:E.
  - left. apply (proj1 (chunk_payload_Ok _ _ _ _ _ _ _ Ho Hs Hc)) in E as [Hf ->]. split; [done|]. cbv zeta. split.
    + destruct Hf as [[H1 H2] _ H3 H4 _]. unfold is_u32 in *. apply samples_of_length. rewrite zlen_segment by lia.
      pose proof (Z.div_mod size (channels * 4) ltac:(lia)). nia.
    + unfold bind at 1. cbn [lift]. unfold bind. by destruct (try_push_interleaved _ channels q) as [q' [a|e|]].
  - right. split; [|by exists e]. intros Hf.
    pose proof (proj2 (chunk_payload_Ok _ _ _ _ _ _ _ Ho Hs Hc) (conj Hf eq_refl)). congruence.
  - exfalso. revert E. unfold chunk_payload. destruct (channels =? 0); [done|]. cbn [obind].
    destruct (checked _ _); [|done]. cbn [ok_or obind]. destruct (stride =? _); [|done]. cbn [obind].
    destruct (is_multiple_of _ _); [|done]. cbn [obind]. destruct (add_checked _ _); [|done]. cbn [ok_or obind].
    destruct (slice _ _ _); [|done]. cbn [ok_or obind]. by destruct (_ =? 0).
Qed.
