(* ===== verification/SessionInputs.v ===== *)
(** * From a configuration to a session (src/daemon.rs)

    The daemon turns a profile and the target of its capture into the identities
    of the inputs of a session, and a session configuration into the plan and
    the policy of a capture. Here the other components meet: profiles, targets,
    identities, export policies and the memory plan. *)
From Stdlib Require Import Ascii.
From S2P Require Import Prelude.
From S2P Require Import Errors.
From S2P Require Import Paths.
From S2P Require Import WavMath.
From S2P Require Import MemoryPlan.
From S2P Require Import CaptureRuntime.
From S2P Require Import Lifecycle.
From S2P Require Import Activity.
From S2P Require Import ExportPattern.
From S2P Require Import ExportPaths.
From S2P Require Import Text.
From S2P Require Import LegacyConfig.
From S2P Require Import AppConfig.
From S2P Require Import Profile.
From S2P Require Import ProfileTheorems.
From S2P Require Import InputIdentity.
From S2P Require Import PipeWireTarget.
From S2P Require Import PipeWireTheorems.

(** [str::split_once] *)
Fixpoint split_once (sep : ascii) (s : string) : option (string * string) :=
  match s with
  | EmptyString => None
  | String c s' =>
      if Ascii.eqb c sep then Some ("", s')
      else match split_once sep s' with Some (a, b) => Some (String c a, b) | None => None end
  end.

(** [.iter().map(f).collect()] of a fallible [f] *)
Fixpoint collect {A B} (f : A -> Result B) (l : list A) : Result (list B) :=
  match l with
  | [] => Ok []
  | a :: rest => let? b := f a in let? bs := collect f rest in Ok (b :: bs)
  end.

(** ** The identities of the inputs *)

Definition jack_client (source : string) : Result string :=
  ok_or (fst <$> split_once ":" source) (validation "JACK source must be a complete client:port").

Section digest.
Context `{Digest}.

Definition configured_identity (p : ResolvedProfile) (channel : string) : Result ConfiguredInputIdentity :=
  let? port := ok_or (List.find (fun q => String.eqb (resolved_name q) channel) (r_ports p))
                 (Config ("profile " +:+ r_name p +:+ " has no channel " +:+ channel)) in
  if String.eqb (r_backend p) "pipewire" then
    let target := match not_blank (config ← r_pipewire_config p; capture_target config) with
                  | Some target => PipeWireTarget target
                  | None => PipeWireAuto
                  end in
    configured_new PipeWire target (resolved_name port) (Profile.resolved_source port)
  else if String.eqb (r_backend p) "jack" then
    let? client := jack_client (Profile.resolved_source port) in
    configured_new Jack (JackSourceClient client) (resolved_name port) (Profile.resolved_source port)
  else Err (validation ("unsupported backend " +:+ r_backend p)).

Definition configured_identities (p : ResolvedProfile) : Result (list ConfiguredInputIdentity) :=
  collect (fun port => configured_identity p (resolved_name port)) (r_ports p).

Definition pipewire_live_identities (p : ResolvedProfile) (target : ResolvedTarget)
    : Result (list (option ResolvedLiveInputIdentity)) :=
  let? _ := err_if (negb (String.eqb (r_backend p) "pipewire")
                    || negb (zlen (r_ports p) =? zlen (source_ports target))
                    || negb (bool_decide (checked u32_max (zlen (r_ports p)) = Some (target_channels target))))
              (Capture "configured PipeWire inputs do not match resolved capture sources") in
  match live_key target with
  | None => Ok (repeat None (length (r_ports p)))
  | Some (kind, value) => collect (fun port => omap Some (live_new PipeWire kind value (source_name port))) (source_ports target)
  end.

Definition jack_live_identities (p : ResolvedProfile) : Result (list (option ResolvedLiveInputIdentity)) :=
  if negb (String.eqb (r_backend p) "jack") then Err (Capture "JACK live identities require a JACK profile")
  else collect (fun port => let? client := jack_client (Profile.resolved_source port) in
                            omap Some (live_new Jack JackSourceClientKey client (Profile.resolved_source port)))
         (r_ports p).

Definition session_input_is_coherent (configured : ConfiguredInputIdentity) (live : option ResolvedLiveInputIdentity) : bool :=
  match id_backend configured, selector configured, live with
  | PipeWire, (PipeWireTarget _ | PipeWireAuto), None => true
  | PipeWire, (PipeWireTarget _ | PipeWireAuto), Some live =>
      bool_decide (live_backend live = PipeWire) && negb (bool_decide (key_kind live = JackSourceClientKey))
      && String.eqb (resolved_source live) (id_source configured)
  | Jack, JackSourceClient client, Some live =>
      bool_decide (live_backend live = Jack) && bool_decide (key_kind live = JackSourceClientKey)
      && String.eqb (key_value live) client && String.eqb (resolved_source live) (id_source configured)
      && match split_once ":" (id_source configured) with Some (c, _) => String.eqb c client | None => false end
  | _, _, _ => false
  end.

Definition validate_app_session_inputs (p : ResolvedProfile) (live : list (option ResolvedLiveInputIdentity))
    : Result (list ConfiguredInputIdentity * Z) :=
  let? configured := configured_identities p in
  let? count := ok_or (checked u32_max (zlen (r_ports p))) (Capture "profile channel count exceeds u32") in
  let? _ := err_if (negb (zlen configured =? zlen live) || negb (zlen configured =? zlen (r_ports p)) || (count =? 0)
                    || existsb (fun x => negb (session_input_is_coherent x.1 x.2)) (combine configured live))
              (Capture "configured and resolved session input ordering is incoherent") in
  Ok (configured, count).
End digest.

(** ** Errors of an attempt *)

Record CaptureAttemptError := mkAttemptError { class : ErrorClass; attempt_state : CaptureState; message : string }.

Definition classify_legacy_attempt_error (e : LambError) : CaptureAttemptError :=
  let class := match e with
               | Config _ | Validation _ => Permanent
               | DaemonFatal _ | CaptureInvariant _ | ControlInvariant _ | ExportInvariant _ => Fatal
               | _ => Transient
               end in
  mkAttemptError class Faulted (display e).

Definition classify_pipewire_resolution_error (e : TargetResolutionError) : CaptureAttemptError :=
  let (class, state) := match e with
                        | TargetMissing _ | PortMissing _ | TargetChanged _ => (Transient, WaitingForDevice)
                        | BackendUnavailable _ => (Transient, Faulted)
                        | InvalidSelector _ => (Permanent, Faulted)
                        end in
  mkAttemptError class state (resolution_message e).

(** ** The parameters of a capture *)

Definition legacy_runtime_params (c : LambConfig) : CaptureRuntimeParams :=
  {| seconds := config_seconds c;
     chunk_frames_override := config_chunk_frames c;
     memory_max := memory_max_bytes (memory c);
     headroom := memory_headroom (memory c);
     p_split_when_over_bytes := export_split_bytes (export c);
     p_io_buffer_bytes_per_channel := DEFAULT_IO_BUFFER_BYTES_PER_CHANNEL;
     p_maximum_path_bytes := DEFAULT_MAXIMUM_PATH_BYTES;
     maximum_calibration_seconds := 0;
     p_capture_queue_slots := DEFAULT_CAPTURE_QUEUE_SLOTS;
     p_capture_worker_stack_bytes := DEFAULT_CAPTURE_WORKER_STACK_BYTES;
     control_queue_capacity := DEFAULT_CONTROL_QUEUE_CAPACITY;
     worker_stack_bytes := DEFAULT_WORKER_STACK_BYTES |}.

(** [1.2] *)
Definition app_headroom : f64 := S754_finite false 5404319552844595 (-52).

Definition app_runtime_params (p : ResolvedProfile) : CaptureRuntimeParams :=
  {| seconds := r_buffer_seconds p;
     chunk_frames_override := None;
     memory_max := None;
     headroom := app_headroom;
     p_split_when_over_bytes := WAV_SPLIT_DEFAULT_BYTES;
     p_io_buffer_bytes_per_channel := DEFAULT_IO_BUFFER_BYTES_PER_CHANNEL;
     p_maximum_path_bytes := DEFAULT_MAXIMUM_PATH_BYTES;
     maximum_calibration_seconds := 30;
     p_capture_queue_slots := DEFAULT_CAPTURE_QUEUE_SLOTS;
     p_capture_worker_stack_bytes := DEFAULT_CAPTURE_WORKER_STACK_BYTES;
     control_queue_capacity := DEFAULT_CONTROL_QUEUE_CAPACITY;
     worker_stack_bytes := DEFAULT_WORKER_STACK_BYTES |}.

Record PreparedLegacyConfig := mkPreparedLegacy {
  static_config : LambConfig;
  session_export_policy : ResolvedExportPolicy;
  runtime_params : CaptureRuntimeParams;
}.

Record ResolvedCaptureState := mkCaptureState {
  capture_channels : Z;
  state_sample_rate : Z;
  state_target : option string;
}.

Inductive ResolvedLegacyBackend := FakeBackend | PipeWireBackend (config : PipeWireCaptureConfig) (target : ResolvedTarget).

Record ResolvedLegacyCapture := mkLegacyCapture {
  legacy_state : ResolvedCaptureState;
  legacy_channel_names : list string;
  legacy_capture_backend : ResolvedLegacyBackend;
}.

Definition legacy_channel_count (c : LambConfig) : Result Z :=
  if String.eqb (backend c) "pipewire" then
    let? l := resolved_capture_ports c in
    ok_or (checked u32_max (zlen l)) (validation "capturePorts exceeds supported channel count")
  else if String.eqb (backend c) "fake" then Ok (default 2 (channels c))
  else Err (validation ("unsupported legacy backend " +:+ backend c)).

Definition prepare_legacy_config `{Platform} (c : LambConfig) : Result PreparedLegacyConfig :=
  let? _ := validate_static c in
  let? count := legacy_channel_count c in
  let params := legacy_runtime_params c in
  let? _ := validate_plan params (config_sample_rate c) count in
  let? policy := resolved_session_export_policy c in
  Ok (mkPreparedLegacy c policy params).

(** [{name} ({id})] *)
Definition target_text (t : ResolvedTarget) : string :=
  match target_id t with Some i => target_name t +:+ " (" +:+ decimal i +:+ ")" | None => target_name t end.

Definition resolve_legacy_capture_with (resolve : PipeWireCaptureConfig -> Result ResolvedTarget)
    (prepared : PreparedLegacyConfig) : Result ResolvedLegacyCapture :=
  let c := static_config prepared in
  if String.eqb (backend c) "fake" then
    Ok (mkLegacyCapture (mkCaptureState (default 2 (channels c)) (config_sample_rate c) (Some (backend c)))
          (default [] (channel_map c)) FakeBackend)
  else if String.eqb (backend c) "pipewire" then
    let? config := from_lamb_config c in
    let names := capture_channel_names config in
    let? target := resolve config in
    Ok (mkLegacyCapture (mkCaptureState (target_channels target) (target_sample_rate target) (Some (target_text target)))
          names (PipeWireBackend config target))
  else Err (validation ("unsupported legacy backend " +:+ backend c)).
