(* ===== verification/SessionTheorems.v ===== *)
(** * What a session relies on

    Properties of [SessionInputs]: the inputs of a session match the ports of
    its profile, and the policy of a session configuration has the channels of
    its capture. *)
From Stdlib Require Import Ascii.
From S2P Require Import Prelude.
From S2P Require Import Errors.
From S2P Require Import Paths.
From S2P Require Import MemoryPlan.
From S2P Require Import CaptureRuntime.
From S2P Require Import Activity.
From S2P Require Import ExportPattern.
From S2P Require Import ExportPaths.
From S2P Require Import Text.
From S2P Require Import LegacyConfig.
From S2P Require Import AppConfig.
From S2P Require Import Profile.
From S2P Require Import ProfileTheorems.
From S2P Require Import InputIdentity.
From S2P Require Import PipeWireTarget.
From S2P Require Import PipeWireTheorems.
From S2P Require Import SessionInputs.

(** ** Identities that are built *)

(** The length of a text is a [usize]. *)
Definition fits (s : string) : Prop := slen s <= u64_max.

Lemma collect_Ok {A B} (f : A -> Result B) l l' : collect f l = Ok l' <-> Forall2 (fun a b => f a = Ok b) l l'.
Proof.
  revert l'. induction l as [|a l IH]; intros l'; cbn [collect].
  - split; [intros [= <-]; constructor|]. intros H. inversion H. done.
  - split.
    + intros H. apply obind_Ok in H as (b & Hb & H). apply obind_Ok in H as (bs & Hbs & [= <-]).
      constructor; [done|]. by apply IH.
    + intros H. inversion H as [|? b ? bs Hb Hbs]; subst. rewrite Hb. cbn [obind]. apply IH in Hbs as ->. done.
Qed.

Lemma collect_exists {A B} (f : A -> Result B) (P : A -> B -> Prop) l :
  (forall a, In a l -> exists b, f a = Ok b /\ P a b) -> exists l', collect f l = Ok l' /\ Forall2 P l l'.
Proof.
  intros H. induction l as [|a l IH]; [by exists []|]. destruct (H a) as (b & Hb & HP); [by left|].
  destruct IH as (l' & Hl' & HF); [intros x Hx; apply H; by right|]. exists (b :: l'). cbn [collect]. rewrite Hb, Hl'. by split; [|constructor].
Qed.

Lemma hash_fields_fit l : Forall fits l -> exists h, hash_fields l = Ok h.
Proof.
  induction 1 as [|s l Hs _ [h IH]]; cbn [hash_fields]; [by exists ""|]. unfold hash_identity_field.
  rewrite (proj2 (checked_Some u64_max (slen s) (slen s))) by (split; [done|split; [apply slen_nonneg|exact Hs]]).
  cbn [ok_or obind]. rewrite IH. cbn [obind]. by eexists.
Qed.

Lemma canonical_field_trim v label : trim v <> "" -> canonical_identity_field v label = Ok (trim v).
Proof. unfold canonical_identity_field. destruct (String.eqb_spec (trim v) ""); [done|]. done. Qed.

Definition selector_fits (s : ConfiguredDeviceSelector) : Prop :=
  match s with PipeWireTarget v | JackSourceClient v => fits v /\ trim v = v /\ v <> "" | PipeWireAuto => True end.

Definition selector_matches (b : InputBackend) (s : ConfiguredDeviceSelector) (source : string) : Prop :=
  match b, s with
  | PipeWire, (PipeWireTarget _ | PipeWireAuto) => True
  | Jack, JackSourceClient client => validate_jack_source client source = Ok tt
  | _, _ => False
  end.

Section digest.
Context `{Digest}.

Lemma configured_new_builds b s n src : trim n <> "" -> trim src <> "" -> fits (trim n) -> fits (trim src) ->
  selector_fits s -> selector_matches b s (trim src) ->
  exists i, configured_new b s n src = Ok i /\ id_backend i = b /\ selector i = s /\ id_name i = trim n /\ id_source i = trim src.
Proof.
  intros Hn Hs Fn Fs Fsel Hm. unfold configured_new. rewrite !canonical_field_trim by done. cbn [obind].
  assert (canonical_selector s = Ok s) as ->.
  { destruct s as [v| |v]; cbn [canonical_selector selector_fits] in *; [|done|]; destruct Fsel as (_ & Hv & Hv');
      rewrite canonical_field_trim by congruence; cbn; by rewrite Hv. }
  cbn [obind]. destruct (hash_fields_fit (backend_bytes b :: selector_fields s ++ [trim n; trim src])) as [h Hh].
  { assert (forall t, fits t <-> slen t <= u64_max) as Hfit by done.
    constructor; [by destruct b|]. apply Forall_app. split; [|by repeat constructor].
    destruct s as [v| |v]; cbn [selector_fields selector_fits] in *; repeat constructor; by destruct Fsel. }
  assert (identity_text b s (trim n) (trim src) = Ok (hash_domain "lamb/configured-input-identity/v2" +:+ h)) as Ht.
  { unfold identity_text. by rewrite Hh. }
  destruct b, s as [v| |v]; cbn [selector_matches] in Hm; try done; cbn [err_if obind]; rewrite ?Hm; cbn [obind]; rewrite Ht; cbn [obind]; by eexists.
Qed.

Lemma find_named l q : NoDup (map resolved_name l) -> In q l -> List.find (fun p => String.eqb (resolved_name p) (resolved_name q)) l = Some q.
Proof.
  induction l as [|p l IH]; [done|]. cbn [map List.find]. intros [Hn Hd]%NoDup_cons [->|Hin].
  - by rewrite String.eqb_refl.
  - destruct (String.eqb_spec (resolved_name p) (resolved_name q)) as [E|]; [|by apply IH].
    exfalso. apply Hn. rewrite E. by apply list_elem_of_In, in_map.
Qed.

(** The texts of a profile have lengths. *)
Record sized (r : ResolvedProfile) : Prop := mkSized {
  sz_ports : Forall (fun q => fits (trim (resolved_name q)) /\ fits (Profile.resolved_source q)) (r_ports r);
  sz_target : forall config t, r_pipewire_config r = Some config -> not_blank (capture_target config) = Some t -> fits t;
}.

(** The identity of a port. *)
Definition identity_of (b : InputBackend) (q : ResolvedCapturePort) (i : ConfiguredInputIdentity) : Prop :=
  id_backend i = b /\ id_name i = trim (resolved_name q) /\ id_source i = Profile.resolved_source q
  /\ selector_matches b (selector i) (Profile.resolved_source q).

Lemma pipewire_identity r config q : sized r -> r_backend r = "pipewire" -> r_pipewire_config r = Some config ->
  NoDup (map resolved_name (r_ports r)) -> In q (r_ports r) -> sound_port q ->
  exists i, configured_identity r (resolved_name q) = Ok i /\ identity_of PipeWire q i.
Proof.
  intros [Hsz Ht] Hb Hc Hn Hin (S1 & S2 & S3). unfold configured_identity. rewrite (find_named _ _ Hn Hin). cbn [ok_or obind].
  rewrite Hb, Hc. cbn [String.eqb Ascii.eqb Bool.eqb mbind option_bind].
  rewrite Forall_forall in Hsz. destruct (Hsz q) as [F1 F2]; [by apply list_elem_of_In|].
  assert (trim (Profile.resolved_source q) = Profile.resolved_source q) as Hs by by apply trim_fixed.
  set (sel := match not_blank (capture_target config) with Some target => PipeWireTarget target | None => PipeWireAuto end).
  destruct (configured_new_builds PipeWire sel (resolved_name q) (Profile.resolved_source q)) as (i & Hi & I1 & I2 & I3 & I4); rewrite ?Hs; try done.
  - subst sel. destruct (not_blank (capture_target config)) as [t|] eqn:E; [|done]. cbn [selector_fits]. split; [by eapply Ht|].
    apply not_blank_Some in E as (s & _ & -> & Hne). by rewrite trim_idempotent.
  - subst sel. by destruct (not_blank _).
  - exists i. split; [exact Hi|]. rewrite Hs in I4. split_and!; try done. rewrite I2. subst sel. by destruct (not_blank _).
Qed.


(** What a live identity of a port has. *)
Definition live_of (b : InputBackend) (q : ResolvedCapturePort) (l : option ResolvedLiveInputIdentity) : Prop :=
  forall i, l = Some i -> live_backend i = b /\ InputIdentity.resolved_source i = Profile.resolved_source q
    /\ (key_kind i = JackSourceClientKey <-> b = Jack).

Lemma pipewire_coherent q i l : identity_of PipeWire q i -> live_of PipeWire q l -> session_input_is_coherent i l = true.
Proof.
  intros (Hb & _ & Hs & Hm) Hl. unfold session_input_is_coherent. rewrite Hb. cbn [selector_matches] in Hm.
  destruct l as [j|]; [|by destruct (selector i)]. destruct (Hl j eq_refl) as (L1 & L2 & L3).
  assert (key_kind j <> JackSourceClientKey) as Hk by (intros ?%L3; done).
  destruct (selector i); try done; rewrite (bool_decide_eq_true_2 _ L1), (bool_decide_eq_false_2 _ Hk), L2, Hs, String.eqb_refl; done.
Qed.

Lemma pipewire_live kind value s q : trim value <> "" -> kind <> JackSourceClientKey -> sound_port q ->
  source_name s = Profile.resolved_source q ->
  exists l, Prelude.omap Some (live_new PipeWire kind value (source_name s)) = Ok l /\ live_of PipeWire q l.
Proof.
  intros Hv Hk (S1 & S2 & _) Hn. unfold live_new. rewrite Hn. rewrite !canonical_field_trim by (done || by rewrite trim_fixed).
  cbn [obind]. rewrite (trim_fixed (Profile.resolved_source q)) by done.
  destruct kind; try done; cbn; eexists; (split; [done|]); intros i [= <-]; by split_and!.
Qed.

Lemma combine_existsb {A B} (f : A * B -> bool) (P : A -> B -> Prop) l l' : (forall a b, P a b -> f (a, b) = false) ->
  Forall2 P l l' -> existsb f (combine l l') = false.
Proof. intros Hf. induction 1 as [|a b l l' Hp _ IH]; [done|]. cbn [combine existsb]. by rewrite (Hf a b Hp), IH. Qed.

(** A session is accepted if its two lists of identities match port by port. *)
Lemma validate_accepts r live inputs : r_ports r <> [] -> zlen (r_ports r) <= u32_max ->
  configured_identities r = Ok inputs ->
  length inputs = length (r_ports r) -> length live = length (r_ports r) ->
  Forall2 (fun i l => session_input_is_coherent i l = true) inputs live ->
  validate_app_session_inputs r live = Ok (inputs, zlen (r_ports r)).
Proof.
  intros Hne Hz Hc Hi Hl Hco. unfold validate_app_session_inputs. rewrite Hc. cbn [obind].
  pose proof (zlen_nonneg (r_ports r)). rewrite (proj2 (checked_Some u32_max _ (zlen (r_ports r)))) by (split; [done|lia]).
  cbn [ok_or obind]. assert (zlen inputs = zlen (r_ports r)) as -> by (unfold zlen; congruence).
  assert (zlen live = zlen (r_ports r)) as -> by (unfold zlen; congruence). rewrite Z.eqb_refl.
  destruct (Z.eqb_spec (zlen (r_ports r)) 0) as [E|_]; [by destruct (r_ports r); [|unfold zlen in E; cbn in E; lia]|].
  rewrite (combine_existsb _ (fun i l => session_input_is_coherent i l = true)); [done| |done]. intros i l Hil. cbn [fst snd]. by rewrite Hil.
Qed.


(** The channels of a resolved target are the ports of its configuration. *)
Lemma resolved_target_ports cfg nodes ports target : resolve_target_from_graph_typed cfg nodes ports = Ok target ->
  map source_name (source_ports target) = map configured_source (capture_configured_ports cfg)
  /\ checked u32_max (zlen (source_ports target)) = Some (target_channels target)
  /\ forall kind value, live_key target = Some (kind, value) -> trim value <> "" /\ kind <> JackSourceClientKey.
Proof.
  unfold resolve_target_from_graph_typed. intros H0. apply obind_Ok in H0 as (n & _ & H0).
  apply obind_Ok in H0 as (ss & [_ HF]%resolve_source_ports_Ok & H0).
  destruct (resolved_from_node cfg n ss) as [t| |] eqn:E; try done. injection H0 as <-. unfold resolved_from_node in E.
  apply obind_Ok in E as (ch & Hch%ok_or_Ok & E). apply obind_Ok in E as ([] & _ & E). apply obind_Ok in E as ([] & _ & E).
  apply obind_Ok in E as ([] & _ & [= <-]). cbn [source_ports target_channels live_key]. split; [|split; [exact Hch|]].
  - clear Hch. induction HF as [|c s cs ss (p & local & _ & _ & _ & ->) _ IH]; [done|]. cbn [map source_name]. by rewrite IH.
  - intros kind value Hk. unfold durable_live_key, or_else, live_key_value in Hk.
    assert (forall v k w, (v ← not_blank v; Some (k, v)) = Some (kind, w) -> trim w <> "" /\ kind = k) as Hv.
    { intros v k w Hw. destruct (not_blank v) as [t|] eqn:Et; [|done]. injection Hw as <- <-.
      apply not_blank_Some in Et as (s & _ & -> & Hne). by rewrite trim_idempotent. }
    repeat match type of Hk with match ?x with _ => _ end = _ => destruct x as [[? ?]|] eqn:?; [injection Hk as -> ->|] end;
      match goal with Hx : _ = Some (kind, value) |- _ => by apply Hv in Hx as [? ->] end.
Qed.

(** C21. A PipeWire profile that resolves can start a session. For every graph in
    which its capture finds its target, the live identities of the inputs can be
    built and the session accepts them, with one channel per port of the
    profile: the identities are those of the ports, in their order, and every
    live input is the source of its port. *)
Theorem pipewire_session_inputs c r config nodes ports target :
  resolve_active_profile c = Ok (Some r) -> sized r -> r_pipewire_config r = Some config ->
  resolve_target_from_graph_typed config nodes ports = Ok target ->
  exists live inputs, pipewire_live_identities r target = Ok live
    /\ validate_app_session_inputs r live = Ok (inputs, target_channels target)
    /\ target_channels target = zlen (r_ports r)
    /\ Forall2 (identity_of PipeWire) (r_ports r) inputs /\ Forall2 (live_of PipeWire) (r_ports r) live.
Proof.
  intros Hr Hsz Hc Ht. apply active_profile_coherent in Hr as (name & p & _ & _ & Hco). destruct Hco as [_ [Hne Hsound] _ _ Hbackend].
  destruct Hbackend as [[_ ?]|(Hb & _ & Hnames & config' & Hc' & Hsources & _)]; [congruence|].
  assert (config' = config) as -> by congruence. apply resolved_target_ports in Ht as (Hs & Hch & Hkey).
  rewrite Hsources in Hs. pose proof (f_equal length Hs) as Hlen. rewrite !length_map in Hlen.
  assert (zlen (source_ports target) = zlen (r_ports r)) as Hz by (unfold zlen; congruence).
  rewrite Forall_forall in Hsound.
  destruct (collect_exists (fun q => configured_identity r (resolved_name q)) (identity_of PipeWire) (r_ports r)) as (inputs & Hi & HFi).
  { intros q Hq. apply (pipewire_identity r config); try done. by apply Hsound, list_elem_of_In. }
  assert (exists live, pipewire_live_identities r target = Ok live /\ Forall2 (live_of PipeWire) (r_ports r) live) as (live & Hl & HFl).
  { unfold pipewire_live_identities. rewrite Hb, <-Hz, Z.eqb_refl, Hch, bool_decide_eq_true_2 by done. cbn [String.eqb Ascii.eqb Bool.eqb negb orb err_if obind].
    destruct (live_key target) as [[kind value]|].
    - destruct (Hkey _ _ eq_refl) as [Hv Hk]. clear -Hs Hsound Hv Hk. revert Hs. generalize (source_ports target). intros ss Hs.
      revert ss Hs. induction (r_ports r) as [|q l IH]; intros [|s ss] Hs; try done; [by exists []|]. injection Hs as Hs1 Hs2.
      destruct (pipewire_live kind value s q) as (x & Hx & HPx); [done|done|apply Hsound; by left|done|].
      destruct (IH) with (ss := ss) as (xs & Hxs & HF); [intros y Hy; apply Hsound; by right|done|].
      exists (x :: xs). cbn [collect]. rewrite Hx, Hxs. by split; [|constructor].
    - eexists. split; [done|]. clear. induction (r_ports r) as [|q l IH]; [constructor|]. cbn. constructor; [by intros i|done]. }
  exists live, inputs. apply checked_Some in Hch as [Hch Hmax]. rewrite Hch, Hz. split_and!; try done.
  apply validate_accepts; [done|lia|done|by apply Forall2_length in HFi|by apply Forall2_length in HFl|].
  clear -HFi HFl. revert live HFl. induction HFi as [|q i l is_ Hi _ IH]; intros live HFl; inversion HFl; subst; constructor; [|by apply IH].
  by eapply pipewire_coherent.
Qed.

End digest.

(** ** Session configurations *)

Lemma normalize_length entries field required l : normalize_capture_ports entries field required = Ok l -> length l = length entries.
Proof. intros (_ & H & _)%normalize_Ok. symmetry. by eapply Forall2_length. Qed.

(** The channels of the capture and of the policy of a session configuration. *)
Lemma prepared_policy `{Platform} c p : prepare_legacy_config c = Ok p ->
  static_config p = c /\ validate_static c = Ok tt
  /\ exists names, channel_names c = Ok names /\ map policy_name (policy_channels (activity (session_export_policy p))) = names.
Proof.
  unfold prepare_legacy_config. intros H0. apply obind_Ok in H0 as ([] & Hv & H0). apply obind_Ok in H0 as (n & _ & H0).
  apply obind_Ok in H0 as (u & _ & H0). apply obind_Ok in H0 as (policy & Hp & [= <-]). cbn [static_config session_export_policy].
  split; [done|]. split; [done|]. unfold resolved_session_export_policy, resolved_export_policy_with_layout in Hp. rewrite Hv in Hp.
  cbn [obind] in Hp. apply obind_Ok in Hp as (names & Hn & Hp). exists names. split; [done|]. apply omap_Ok in Hp as (pol & Hp & ->).
  apply policy_new_Ok in Hp as (_ & _ & Ha & _). cbn. rewrite Ha. cbn [policy_channels]. rewrite map_map. cbn. apply map_id.
Qed.

(** C24. The channels of a session configuration. With PipeWire the policy and
    the capture both have one channel per configured port, whatever target is
    resolved; a fake session with a number of channels has that number in
    both. A fake session without one captures two channels, and its policy has
    as many as there are names, so zero if there are none. *)
Theorem legacy_channels_agree `{Platform} c p nodes ports rc :
  (forall n, channels c = Some n -> is_u32 n) ->
  prepare_legacy_config c = Ok p ->
  resolve_legacy_capture_with (fun config => resolve_target_from_graph config nodes ports) p = Ok rc ->
  let policy := zlen (policy_channels (activity (session_export_policy p))) in
  let capture := capture_channels (legacy_state rc) in
  backend c = "pipewire" /\ (exists l, resolved_capture_ports c = Ok l /\ policy = zlen l /\ capture = zlen l)
  \/ backend c = "fake" /\ match channels c with
                           | Some n => policy = n /\ capture = n
                           | None => policy = zlen (default [] (channel_map c)) /\ capture = 2
                           end.
Proof.
  intros Hu (<- & Hv & names & Hn & Hp)%prepared_policy Hr. apply (f_equal length) in Hp. rewrite length_map in Hp.
  assert (zlen (policy_channels (activity (session_export_policy p))) = zlen names) as -> by (unfold zlen; congruence). clear Hp.
  set (c := static_config p) in *. unfold resolve_legacy_capture_with in Hr. fold c in Hr. unfold channel_names in Hn.
  destruct (String.eqb_spec (backend c) "fake") as [Hf|Hf].
  - right. split; [done|]. injection Hr as <-. cbn [legacy_state capture_channels]. rewrite Hf in Hn. cbn [String.eqb Ascii.eqb Bool.eqb] in Hn.
    destruct (channels c) as [n|] eqn:En; cbn [default]; (split; [|done]).
    + destruct (Hu n eq_refl) as [Hu0 _]. unfold validate_static in Hv. do 5 check_step Hv.
      apply obind_Ok in Hv as ([] & Hb & _). unfold check_backend_channels in Hb. rewrite Hf, En in Hb. cbn [String.eqb Ascii.eqb Bool.eqb] in Hb.
      apply obind_Ok in Hb as ([] & _ & Hb). destruct (channel_map c) as [[|nm nms]|].
      * injection Hn as <-. unfold zlen. rewrite length_map, length_seq. cbn. lia.
      * injection Hn as <-. apply err_if_Ok in Hb. apply andb_false_iff in Hb as [Hb|Hb]; apply negb_false_iff, Z.eqb_eq in Hb; [by unfold zlen in Hb; cbn in Hb; lia|done].
      * injection Hn as <-. unfold zlen. rewrite length_map, length_seq. cbn. lia.
    + destruct (channel_map c) as [[|nm nms]|]; cbn in Hn; by injection Hn as <-.
  - left. destruct (String.eqb_spec (backend c) "pipewire") as [Hb|]; [|done]. split; [done|].
    apply obind_Ok in Hn as (l & Hl & [= <-]). exists l. split; [done|]. unfold zlen at 1. rewrite length_map. split; [done|].
    apply obind_Ok in Hr as (config & Hc & Hr). apply obind_Ok in Hr as (t & Ht & [= <-]).
    cbn [legacy_state capture_channels]. unfold from_lamb_config in Hc. rewrite Hl in Hc. injection Hc as <-.
    unfold resolve_target_from_graph in Ht. destruct (resolve_target_from_graph_typed _ nodes ports) as [t'| |] eqn:E; try done.
    injection Ht as ->. apply resolved_target_ports in E as (Hs & Hch & _). cbn [capture_configured_ports] in Hs.
    apply checked_Some in Hch as [-> _]. apply (f_equal length) in Hs. rewrite !length_map in Hs. unfold zlen. congruence.
Qed.
