(* ===== verification/ConfigExamples.v ===== *)
(** * A configuration and its capture

    The theorems of [ProfileTheorems], [InputIdentity], [PipeWireTheorems],
    [PipeWireChunk] and [SessionTheorems] at a profile with two channels and a
    graph that has its source, and two configurations that are accepted although
    their sessions fail. *)
From Stdlib Require Import Ascii.
From S2P Require Import Prelude.
From S2P Require Import Errors.
From S2P Require Import Paths.
From S2P Require Import Text.
From S2P Require Import MemoryPlan.
From S2P Require Import CaptureRuntime.
From S2P Require Import Lifecycle.
From S2P Require Import IngressQueue.
From S2P Require Import IngressSpec.
From S2P Require Import Activity.
From S2P Require Import ExportPattern.
From S2P Require Import ExportPaths.
From S2P Require Import LegacyConfig.
From S2P Require Import AppConfig.
From S2P Require Import Profile.
From S2P Require Import ProfileTheorems.
From S2P Require Import InputIdentity.
From S2P Require Import PipeWireTarget.
From S2P Require Import PipeWireTheorems.
From S2P Require Import PipeWireChunk.
From S2P Require Import SessionInputs.
From S2P Require Import SessionTheorems.

(** ** A profile *)

Definition some_hex : string := "00112233445566778899aabbccddeeff00112233445566778899aabbccddeeff".

Definition studio : ProfileConfig :=
  mkProfile (Some "pipewire") None (mkCapture [] []) (Some 30)
    (mkProfileExport (Some "/srv/out") false (Some "per-channel") (Some "wav") None None None None None None)
    (mkPipewire (Some "microphone") None true
       [mkCapturePort (Some " mic:L") (Some "left") (Some Always); mkCapturePort (Some "mic:R") (Some "right ") None] None None)
    [("left", Some (mkThreshold (f64_of_Z (-40)) ManualThreshold 0 some_hex None))].

Definition studio_config : AppConfig :=
  mkAppConfig (mkDaemon "auto" (Some " studio ") default_control_socket_path) [("studio", studio)].

Lemma resolved_profile_coherent_witness :
  match resolve_active_profile studio_config with
  | Ok (Some r) =>
      exists name p, not_blank (active_profile (daemon studio_config)) = Some name
        /\ bt_get name (profiles studio_config) = Some p /\ coherent name p r
  | _ => False
  end.
Proof.
  destruct (resolve_active_profile studio_config) as [[r|]|e|] eqn:E.
  - exact (resolved_profile_coherent _ _ E).
  - vm_compute in E. discriminate.
  - vm_compute in E. discriminate.
  - vm_compute in E. discriminate.
Defined.

Lemma resolved_profiles_persist_witness : validate_persisted_config studio_config = Ok tt.
Proof.
  apply resolved_profiles_persist; [vm_compute; reflexivity|].
  constructor; [|constructor]. cbn [fst snd]. destruct (validate_profile "studio" studio) as [r|e|] eqn:E.
  - exists r. reflexivity.
  - vm_compute in E. discriminate.
  - vm_compute in E. discriminate.
Defined.

(** ** Identities *)

Section text_digest.
(** A digest that tells every text apart. *)
#[local] Instance text_digest : Digest := fun text => text.

Lemma input_id_determines_witness :
  match configured_new PipeWire PipeWireAuto " left" "mic:L", configured_new PipeWire PipeWireAuto "left" "mic:L " with
  | Ok i, Ok i' => i = i'
  | _, _ => False
  end.
Proof.
  destruct (configured_new PipeWire PipeWireAuto " left" "mic:L") as [i|e|] eqn:E; [|vm_compute in E; discriminate..].
  destruct (configured_new PipeWire PipeWireAuto "left" "mic:L ") as [i'|e|] eqn:E'; [|vm_compute in E'; discriminate..].
  apply (input_id_determines _ _ _ _ _ _ _ _ _ _ E E').
  - intros x y _ _ H. exact H.
  - vm_compute in E, E'. injection E as <-. injection E' as <-. reflexivity.
Defined.
End text_digest.

Section hex_digest.
(** A digest with the form of SHA-256. *)
#[local] Instance hex_digest : Digest := fun _ => some_hex.
#[local] Instance hex_laws : DigestLaws.
Proof. intros text. vm_compute. reflexivity. Qed.

Lemma built_identity_canonical_witness :
  match configured_new Jack (JackSourceClient "system ") "left" " system:capture_1" with
  | Ok i => configured_validate_canonical i = Ok tt
            /\ configured_new (id_backend i) (selector i) (id_name i) (id_source i) = Ok i
  | _ => False
  end.
Proof.
  destruct (configured_new Jack (JackSourceClient "system ") "left" " system:capture_1") as [i|e|] eqn:E.
  - exact (built_identity_canonical _ _ _ _ _ E).
  - vm_compute in E. discriminate.
  - vm_compute in E. discriminate.
Defined.
End hex_digest.

(** ** A graph *)

Definition studio_capture : PipeWireCaptureConfig :=
  mkPipeWireCapture (Some "microphone")
    [mkConfiguredPort "mic:L" "left"; mkConfiguredPort "mic:R" "right"] 48000 true None.

Definition microphone : AvailableNode :=
  mkNode 40 "PipeWire:Interface:Node" (Some "Audio/Source") (Some "microphone") None None None (Some 2) (Some 48000) None.

Definition output (i local : Z) (name : string) : AvailablePort :=
  mkPort i "PipeWire:Interface:Port" (Some 40) (Some "out") (Some local) (Some name) (Some "32 bit float mono audio") None.

Definition input (i local : Z) : AvailablePort :=
  mkPort i "PipeWire:Interface:Port" (Some 50) (Some "in") (Some local) None (Some "32 bit float mono audio") None.

Definition studio_ports : list AvailablePort :=
  [output 42 1 "mic:R"; output 41 0 "mic:L"; input 52 1; input 51 0].

Lemma channels_wired_in_order_witness :
  match resolve_target_from_graph_typed studio_capture [microphone] studio_ports with
  | Ok target =>
      plan_explicit_links (source_ports target) 50 studio_ports = Ok [mkLink 40 41 50 51; mkLink 40 42 50 52]
      /\ exists selected sources inputs,
           select_node (capture_target studio_capture) [microphone] = Ok selected
           /\ target_id target = Some (node_id selected)
           /\ wired studio_capture (node_id selected) 50 sources inputs [mkLink 40 41 50 51; mkLink 40 42 50 52]
           /\ (forall p, In p sources -> In p studio_ports) /\ inputs ≡ₚ stream_inputs 50 studio_ports
           /\ target_channels target = zlen (capture_configured_ports studio_capture) /\ 0 < target_channels target
  | _ => False
  end.
Proof.
  destruct (resolve_target_from_graph_typed studio_capture [microphone] studio_ports) as [t|e|] eqn:E;
    [|vm_compute in E; discriminate..].
  assert (plan_explicit_links (source_ports t) 50 studio_ports = Ok [mkLink 40 41 50 51; mkLink 40 42 50 52]) as Hp.
  { vm_compute in E. injection E as <-. vm_compute. reflexivity. }
  split; [exact Hp|]. exact (channels_wired_in_order _ _ _ _ _ _ _ E Hp).
Defined.

(** ** A chunk: one frame of two samples after four other bytes *)

Definition mapped_bytes : list Z := [9; 9; 9; 9; 0; 0; 128; 63; 0; 0; 0; 192].

Example samples_read : samples_of (segment mapped_bytes 4 8) = [S754_finite false 8388608 (-23); S754_finite true 8388608 (-22)].
Proof. vm_compute. reflexivity. Qed.

Lemma chunk_pushed_whole_witness :
  zlen (samples_of (segment mapped_bytes 4 8)) = 8 / (2 * 4) * 2
  /\ process_interleaved_f32_chunk 4096 mapped_bytes 4 8 8 2 test_queue
     = (let (q', o) := try_push_interleaved (samples_of (segment mapped_bytes 4 8)) 2 test_queue in (q', omap (fun _ => tt) o)).
Proof.
  destruct (chunk_pushed_whole 4096 mapped_bytes 4 8 8 2 test_queue) as [[_ H]|[H _]].
  - unfold is_u32. vm_compute. intuition discriminate.
  - unfold is_u32. vm_compute. intuition discriminate.
  - unfold is_u32. vm_compute. intuition discriminate.
  - exact H.
  - exfalso. apply H. constructor; vm_compute; intuition discriminate.
Defined.

(** ** Sessions *)

Section session.
#[local] Instance session_digest : Digest := fun _ => some_hex.

Definition studio_resolved : option ResolvedProfile :=
  match resolve_active_profile studio_config with Ok r => r | _ => None end.

Lemma studio_sized r : resolve_active_profile studio_config = Ok (Some r) -> sized r.
Proof.
  intros E. vm_compute in E. injection E as <-. split.
  - repeat constructor; vm_compute; discriminate.
  - intros config t [= <-] E. vm_compute in E. injection E as <-. vm_compute. discriminate.
Qed.

Lemma pipewire_session_inputs_witness :
  match resolve_active_profile studio_config with
  | Ok (Some r) =>
      match r_pipewire_config r with
      | Some config =>
          match resolve_target_from_graph_typed config [microphone] studio_ports with
          | Ok target =>
              exists live inputs, pipewire_live_identities r target = Ok live
                /\ validate_app_session_inputs r live = Ok (inputs, target_channels target)
                /\ target_channels target = zlen (r_ports r)
                /\ Forall2 (identity_of PipeWire) (r_ports r) inputs /\ Forall2 (live_of PipeWire) (r_ports r) live
          | _ => False
          end
      | None => False
      end
  | _ => False
  end.
Proof.
  destruct (resolve_active_profile studio_config) as [[r|]|e|] eqn:E; [|vm_compute in E; discriminate..].
  destruct (r_pipewire_config r) as [config|] eqn:Ec; [|vm_compute in E; injection E as <-; discriminate].
  destruct (resolve_target_from_graph_typed config [microphone] studio_ports) as [t|e|] eqn:Et.
  - exact (pipewire_session_inputs _ _ _ _ _ _ E (studio_sized _ E) Ec Et).
  - vm_compute in E. injection E as <-. injection Ec as <-. vm_compute in Et. discriminate.
  - vm_compute in E. injection E as <-. injection Ec as <-. vm_compute in Et. discriminate.
Defined.

(** A JACK profile may give one name to two ports. It resolves, but its session
    is refused, with an error that is retried. *)
Definition twin_profile : ProfileConfig :=
  mkProfile (Some "jack") (Some "lamb")
    (mkCapture [mkCapturePort (Some "system:capture_1") (Some "voice") None;
                mkCapturePort (Some "system:capture_2") (Some "voice") None] [])
    (Some 30) (mkProfileExport (Some "/srv/out") false (Some "per-channel") (Some "wav") None None None None None None)
    (mkPipewire None None false [] None None) [].

Example twin_names_refused :
  match validate_profile "twin" twin_profile with
  | Ok r =>
      match jack_live_identities r with
      | Ok live =>
          match validate_app_session_inputs r live with
          | Err e => class (classify_legacy_attempt_error e) = Transient
          | _ => False
          end
      | _ => False
      end
  | _ => False
  end.
Proof. vm_compute. reflexivity. Qed.
End session.

Definition fake_config (channels : option Z) : LambConfig :=
  mkLambConfig 1 "alice" None "fake" channels None [] 30 48000 "F32LE" None true "/srv/out" (mkMemory None (f64_of_Z 2)) 1 false None
    "/run/lamb.sock" "0600" (mkExport "per-channel" "wav" false 1000000).

Section platform.
#[local] Instance studio_platform : Platform :=
  { sysconf_page_size := 4096; can_allocate := fun _ => true; size_of_current_artifact_slot := 88 }.

(** The fake backend without a number of channels captures two channels, and its
    policy has none. *)
Example fake_channels_disagree :
  match prepare_legacy_config (fake_config None) with
  | Ok p =>
      policy_channels (activity (session_export_policy p)) = []
      /\ match resolve_legacy_capture_with (fun config => resolve_target_from_graph config [] []) p with
         | Ok rc => capture_channels (legacy_state rc) = 2
         | _ => False
         end
  | _ => False
  end.
Proof. vm_compute. done. Qed.

Lemma legacy_channels_agree_witness :
  match prepare_legacy_config (fake_config None) with
  | Ok p =>
      match resolve_legacy_capture_with (fun config => resolve_target_from_graph config [] []) p with
      | Ok rc => zlen (policy_channels (activity (session_export_policy p))) = 0 /\ capture_channels (legacy_state rc) = 2
      | _ => False
      end
  | _ => False
  end.
Proof.
  destruct (prepare_legacy_config (fake_config None)) as [p|e|] eqn:E; [|vm_compute in E; discriminate..].
  destruct (resolve_legacy_capture_with (fun config => resolve_target_from_graph config [] []) p) as [rc|e|] eqn:Er.
  - destruct (legacy_channels_agree (fake_config None) p [] [] rc) as [[Hb _]|[_ H]]; [|exact E|exact Er|discriminate Hb|exact H].
    intros n Hn. discriminate Hn.
  - vm_compute in E. injection E as <-. vm_compute in Er. discriminate.
  - vm_compute in E. injection E as <-. vm_compute in Er. discriminate.
Defined.
End platform.
