(* ===== verification/Bootstrap.v ===== *)
(** * Reading the configuration (src/daemon.rs, src/app_config.rs, src/config.rs)

    The daemon reads one file, decides which family of configuration it holds
    and prepares it. TOML and its conversion to the records are the interface
    [ConfigLanguage]; the environment is its field [xdg_runtime_dir]. *)
From Stdlib Require Import Ascii.
From S2P Require Import Prelude.
From S2P Require Import Errors.
From S2P Require Import Paths.
From S2P Require Import MemoryPlan.
From S2P Require Import Lifecycle.
From S2P Require Import ExportPattern.
From S2P Require Import ExportPaths.
From S2P Require Import Text.
From S2P Require Import LegacyConfig.
From S2P Require Import AppConfig.
From S2P Require Import Profile.
From S2P Require Import PipeWireTarget.
From S2P Require Import SessionInputs.

(** What the toml library makes of a text, and the environment. An error is the
    text of the parser. *)
Class ConfigLanguage := {
  app_of_toml : string -> outcome string AppConfig;
  legacy_of_toml : string -> outcome string LambConfig;
  has_config_version : string -> bool;
  toml_socket_path : string -> option string;
  xdg_runtime_dir : option string;
}.

(** [fs::read_to_string]; the other errors carry the text of the error. *)
Inductive ReadError := ReadNotFound | ReadFailed (e : string).

Inductive ConfigFamily := AppFamily | LegacyFamily.
#[export] Instance ConfigFamily_eq_dec : EqDecision ConfigFamily.
Proof. solve_decision. Defined.

Inductive ConfigLoadState := Missing | Loaded | Invalid.

Record LoadedAppConfig := mkLoaded { loaded_config : AppConfig; load_state : ConfigLoadState; load_error : option string }.

Record BootstrapConfig := mkBootstrap {
  bootstrap_path : string;
  bootstrap_text : option string;
  bootstrap_family : ConfigFamily;
  bootstrap_socket : string;
}.

Inductive PreparedBootstrap :=
  | PreparedApp (loaded : LoadedAppConfig)
  | PreparedLegacy (prepared : PreparedLegacyConfig)
  | FaultedBootstrap (family : ConfigFamily) (fallback : AppConfig) (message : string).

(** [str::replace] of ["%t"] *)
Fixpoint replace_runtime_dir (s dir : string) : string :=
  match s with
  | String "%" (String "t" s') => dir +:+ replace_runtime_dir s' dir
  | String c s' => String c (replace_runtime_dir s' dir)
  | EmptyString => ""
  end.

Section bootstrap.
Context `{Platform} `{ConfigLanguage}.

Definition failed_to_parse (path e : string) : LambError := Config ("failed to parse " +:+ path +:+ ": " +:+ e).

(** [app_config::parse_config_text] and [config::parse_config_text] *)
Definition parse_app_config (path text : string) : Result AppConfig :=
  let? c := map_err (failed_to_parse path) (app_of_toml text) in
  let? _ := validate_app_config c in
  Ok c.

Definition parse_legacy_config (path text : string) : Result LambConfig :=
  map_err (failed_to_parse path) (legacy_of_toml text).

Definition expand_control_socket_path (socket : string) : Result string :=
  if str_contains socket "%t" then
    let? dir := ok_or xdg_runtime_dir (Validation "XDG_RUNTIME_DIR does not exist") in
    Ok (replace_runtime_dir socket dir)
  else Ok socket.

Definition with_socket (c : LambConfig) (socket : string) : LambConfig :=
  mkLambConfig (config_version c) (user c) (target c) (backend c) (channels c) (channel_map c) (capture_ports c)
    (config_seconds c) (config_sample_rate c) (sample_format c) (latency c) (dont_remix c) (config_output_dir c) (memory c)
    (config_max_active_snapshots c) (allow_queued_recall c) (config_chunk_frames c) socket (control_permissions c) (export c).

Definition expand_runtime_paths (c : LambConfig) : Result LambConfig :=
  let? socket := expand_control_socket_path (control_socket_path c) in Ok (with_socket c socket).

Definition bootstrap_config (path : string) (read : outcome ReadError string) : Result BootstrapConfig :=
  let? text := match read with
               | Ok text => Ok (Some text)
               | Err ReadNotFound => Ok None
               | Err (ReadFailed e) => Err (non_restartable_bootstrap (io_error path e))
               | Panic => Panic
               end in
  let family := match text with Some text => if has_config_version text then LegacyFamily else AppFamily | None => AppFamily end in
  let socket := match family, text with
                | LegacyFamily, Some text => default default_control_socket_path (toml_socket_path text)
                | AppFamily, Some text =>
                    match parse_app_config path text with
                    | Ok c => daemon_control_socket_path (daemon c)
                    | _ => default_control_socket_path
                    end
                | _, None => default_control_socket_path
                end in
  let? socket := map_err non_restartable_bootstrap (expand_control_socket_path socket) in
  Ok (mkBootstrap path text family socket).

(** The faults of a configuration are kept in the result, so it is never [Err]. *)
Definition prepare_bootstrap_config (b : BootstrapConfig) : Result PreparedBootstrap :=
  match bootstrap_family b, bootstrap_text b with
  | LegacyFamily, Some text =>
      match (let? c := parse_legacy_config (bootstrap_path b) text in
             let? c := expand_runtime_paths c in
             prepare_legacy_config c) with
      | Ok prepared => Ok (PreparedLegacy prepared)
      | Err e => Ok (FaultedBootstrap LegacyFamily default_app_config (display e))
      | Panic => Panic
      end
  | AppFamily, Some text =>
      match parse_app_config (bootstrap_path b) text with
      | Ok c => Ok (PreparedApp (mkLoaded c Loaded None))
      | Err e => Ok (PreparedApp (mkLoaded default_app_config Invalid (Some (display e))))
      | Panic => Panic
      end
  | AppFamily, None => Ok (PreparedApp (mkLoaded default_app_config Missing None))
  | LegacyFamily, None =>
      Ok (FaultedBootstrap LegacyFamily default_app_config ("config file not found: " +:+ bootstrap_path b))
  end.

(** ** A command reads the file again *)

Record PreparedCommandConfig := mkCommandConfig { candidate : PreparedBootstrap; candidate_socket : string }.

Definition permanent (message : string) : CaptureAttemptError := mkAttemptError Permanent Faulted message.

Definition with_active_profile (profile : string) (l : LoadedAppConfig) : LoadedAppConfig :=
  let c := loaded_config l in
  let d := daemon c in
  mkLoaded (mkAppConfig (mkDaemon (start_mode d) (Some profile) (daemon_control_socket_path d)) (profiles c)) (load_state l) (load_error l).

Definition select_profile (path : string) (requested : option string) (l : LoadedAppConfig)
    : outcome CaptureAttemptError LoadedAppConfig :=
  let? _ := match load_state l with
            | Loaded => Ok tt
            | _ => Err (permanent (default ("config file not found: " +:+ path) (load_error l)))
            end in
  let? l := match not_blank requested with
            | Some profile =>
                match bt_get profile (profiles (loaded_config l)) with
                | Some _ => Ok (with_active_profile profile l)
                | None => Err (permanent ("profile " +:+ profile +:+ " does not exist"))
                end
            | None => Ok l
            end in
  let? _ := map_err classify_legacy_attempt_error (resolve_active_profile (loaded_config l)) in
  Ok l.

Definition prepare_config_from_disk (path : string) (requested : option string) (read : outcome ReadError string)
    : outcome CaptureAttemptError PreparedCommandConfig :=
  let? b := map_err classify_legacy_attempt_error (bootstrap_config path read) in
  let? prepared := map_err classify_legacy_attempt_error (prepare_bootstrap_config b) in
  match prepared with
  | PreparedApp l =>
      let? l := select_profile path requested l in Ok (mkCommandConfig (PreparedApp l) (bootstrap_socket b))
  | FaultedBootstrap _ _ message => Err (permanent message)
  | PreparedLegacy prepared => Ok (mkCommandConfig (PreparedLegacy prepared) (bootstrap_socket b))
  end.

Definition validate_candidate_socket (bound : string) (c : PreparedCommandConfig) : outcome CaptureAttemptError unit :=
  if String.eqb (candidate_socket c) bound then Ok tt
  else Err (permanent ("candidate control socket " +:+ candidate_socket c +:+ " differs from bound socket " +:+ bound)).
End bootstrap.
