(* ===== verification/Supervisor.v ===== *)
(** * The supervisor: its state and critical sections (src/daemon.rs)

    The daemon has one runtime state behind a mutex, a scheduler for retries and
    faults, and a lock, the operation authority, under which an operation checks
    that it is still the current one and publishes its result. Each definition
    here is the code between the acquisition and the release of that lock, or of
    the mutex where the code takes only that: a section, which runs as one step.
    [Transactions] puts the sections together.

    A capture (its backend, its session and its health) is a key; the keys that
    exist are in [backends] and [sessions], and dropping a value in the code is
    removing its key here. *)
From stdpp Require Import gmap.
From S2P Require Import Prelude.
From S2P Require Import Errors.
From S2P Require Import MemoryPlan.
From S2P Require Import Lifecycle.
From S2P Require Import RetryScheduler.
From S2P Require Import Text.
From S2P Require Import AppConfig.
From S2P Require Import Profile.
From S2P Require Import PipeWireHealth.
From S2P Require Import SessionInputs.
From S2P Require Import Bootstrap.

Abbreviation CaptureKey := Z.

#[export] Instance ErrorClass_eq_dec : EqDecision ErrorClass.
Proof. solve_decision. Defined.

(** [AppRuntimeState] *)
Record AppRuntimeState := mkRuntime {
  rt_config : AppConfig;
  config_family : ConfigFamily;
  prepared_legacy : option PreparedLegacyConfig;
  resolved_capture : option ResolvedCaptureState;
  lifecycle : LifecycleState;
  rt_state : string;
  rt_last_error : option string;
  config_load_error : option string;
  rt_profile : option ResolvedProfile;
  rt_capture : option CaptureKey;
  capture_health : option CaptureKey;
  session : option CaptureKey;
}.

#[export] Instance AppRuntimeState_eta : Eta AppRuntimeState := fun r =>
  mkRuntime (rt_config r) (config_family r) (prepared_legacy r) (resolved_capture r) (lifecycle r) (rt_state r)
    (rt_last_error r) (config_load_error r) (rt_profile r) (rt_capture r) (capture_health r) (session r).

(** [IdleDaemonContext], the static counter of attempts and what exists of the
    captures. [poisoned] is the flag of the mutex of [runtime]. *)
Record World := mkWorld {
  runtime : AppRuntimeState;
  poisoned : bool;
  scheduler : SchedulerState;
  operation_epoch : Z;
  stop_flag : bool;
  first_fatal : option string;
  next_attempt : Z;
  healths : gmap CaptureKey PipeWireHealthState;
  backends : list CaptureKey;
  sessions : list CaptureKey;
  next_key : CaptureKey;
}.

#[export] Instance World_eta : Eta World := fun w =>
  mkWorld (runtime w) (poisoned w) (scheduler w) (operation_epoch w) (stop_flag w) (first_fatal w) (next_attempt w)
    (healths w) (backends w) (sessions w) (next_key w).

Definition set_lifecycle (f : LifecycleState -> LifecycleState) (r : AppRuntimeState) : AppRuntimeState :=
  r <| lifecycle ::= f |>.

(** ** Faults *)

(** A report of a health state to the scheduler. *)
Definition report (n : option Notification) (s : SchedulerState) : SchedulerState :=
  match n with Some (sink, fault) => sink_report sink fault s | None => s end.

(** A call on the health of a capture. *)
Definition on_health (k : CaptureKey) (call : PipeWireHealthState -> PipeWireHealthState * option Notification) (w : World) : World :=
  match healths w !! k with
  | Some h => let (h', n) := call h in w <| healths ::= <[k := h']> |> <| scheduler ::= report n |>
  | None => w
  end.

Definition arm_published (k : option CaptureKey) (w : World) : World :=
  match k with Some k => on_health k arm w | None => w end.

(** ** Captures *)

Abbreviation ActiveKeys := (option CaptureKey * option CaptureKey)%type.

Definition take_active_capture (r : AppRuntimeState) : AppRuntimeState * ActiveKeys :=
  (r <| rt_capture := None |> <| session := None |> <| capture_health := None |> <| resolved_capture := None |>,
   (rt_capture r, session r)).

Definition remove_key (k : CaptureKey) : list CaptureKey -> list CaptureKey := List.filter (fun x => negb (x =? k)).

(** Dropping a backend stops it; the capture of PipeWire marks its health first. *)
Definition drop_backend (k : CaptureKey) (w : World) : World :=
  on_health k (fun h => (mark_normal_stop h, None)) w <| backends ::= remove_key k |>.

Definition drop_capture_then_session (active : ActiveKeys) (w : World) : World :=
  let w := match active.1 with Some k => drop_backend k w | None => w end in
  match active.2 with Some k => w <| sessions ::= remove_key k |> | None => w end.

(** A backend has started; the one of PipeWire has an unarmed health. *)
Definition add_backend (sink : option RuntimeFaultSink) (w : World) : World * CaptureKey :=
  let k := next_key w in
  (w <| backends ::= cons k |> <| next_key := k + 1 |>
     <| healths ::= match sink with Some s => <[k := unarmed_with_fault_sink s]> | None => fun m => m end |>, k).

Definition add_session (k : CaptureKey) (w : World) : World := w <| sessions ::= cons k |>.

(** ** Operations *)

Definition operation_is_current (w : World) (token : Z) : bool := negb (stop_flag w) && (operation_epoch w =? token).

Definition shutdown_attempt_error : CaptureAttemptError := mkAttemptError Transient Stopped "daemon is shutting down".
Definition fatal_attempt (message : string) : CaptureAttemptError := mkAttemptError Fatal Faulted message.

Definition begin_command_operation (w : World) : World * outcome CaptureAttemptError Z :=
  if stop_flag w then (w, Err shutdown_attempt_error)
  else match add_checked (operation_epoch w) 1 with
       | Some token => (w <| operation_epoch := token |>, Ok token)
       | None => (w, Err (fatal_attempt "operation epoch overflow"))
       end.

Record BegunOperation := mkBegun { token : Z; op_generation : Z }.
Inductive OperationEntry := Command | DirectStop.

Definition begin_new_operation_generation (entry : OperationEntry) (w : World)
    : World * outcome CaptureAttemptError BegunOperation :=
  if stop_flag w then (w, Err shutdown_attempt_error)
  else match add_checked (operation_epoch w) 1 with
       | None => (w, Err (fatal_attempt "operation epoch overflow"))
       | Some token =>
           match begin_operation (lifecycle (runtime w)) with
           | (l, Ok generation) =>
               let rebind := match entry with Command => capture_health (runtime w) | DirectStop => None end in
               let w := w <| runtime ::= set_lifecycle (fun _ => l) |> <| operation_epoch := token |>
                          <| scheduler ::= invalidate generation |> in
               let w := match entry with
                        | DirectStop => w <| stop_flag := true |> <| runtime ::= set_lifecycle mark_stopping |>
                                          <| scheduler ::= stop |>
                        | Command => w
                        end <| poisoned := false |> in
               let w := match rebind with
                        | Some k => match healths w !! k ≫= health_attempt_id with
                                    | Some attempt => on_health k (rebind_and_arm (fault_sink generation attempt 0)) w
                                    | None => w
                                    end
                        | None => w
                        end in
               (w, Ok (mkBegun token generation))
           | (_, Err e) => (w, Err (fatal_attempt (display e)))
           | (_, Panic) => (w, Panic)
           end
       end.

Definition allocate_capture_attempt_id (w : World) : World * outcome CaptureAttemptError CaptureAttemptId :=
  match add_checked (next_attempt w) 1 with
  | Some next => (w <| next_attempt := next |>, ok_or (checked_after (next_attempt w)) (fatal_attempt "capture attempt identity overflow"))
  | None => (w, Err (fatal_attempt "capture attempt identity overflow"))
  end.

Definition runtime_fault_sink_for_attempt (operation_generation : option Z) (w : World)
    : World * outcome CaptureAttemptError RuntimeFaultSink :=
  match match operation_generation with
        | Some generation => Ok generation
        | None => ok_or (add_checked (Lifecycle.generation (lifecycle (runtime w))) 1) (fatal_attempt "capture generation overflow")
        end with
  | Ok generation =>
      let (w, attempt) := allocate_capture_attempt_id w in
      (w, omap (fun attempt => fault_sink generation attempt 0) attempt)
  | Err e => (w, Err e)
  | Panic => (w, Panic)
  end.

Definition signal_fatal (message : string) (w : World) : World :=
  w <| first_fatal ::= fun f => match f with Some m => Some m | None => Some message end |>
    <| stop_flag := true |> <| scheduler ::= stop |>.

(** The part of [begin_shutdown] for an operation that could not begin. *)
Definition force_shutdown (w : World) : World :=
  w <| stop_flag := true |> <| scheduler ::= stop |> <| runtime ::= set_lifecycle mark_stopping |> <| poisoned := false |>.

Definition release_capture_for_shutdown (w : World) : World :=
  let (r, active) := take_active_capture (runtime w) in
  drop_capture_then_session active
    (w <| runtime := (r <| rt_state := "stopping" |> <| rt_last_error := None |> <| config_load_error := None |>
                        <| lifecycle ::= mark_stopping |>) |>
       <| poisoned := false |>).

(** A runtime state without a capture. *)
Definition empty_runtime (family : ConfigFamily) : AppRuntimeState :=
  mkRuntime default_app_config family None None (ready_stopped None) "unconfigured" None None None None None None.

(** ** Publishing the failure of an attempt *)

Definition set_error (message : string) (r : AppRuntimeState) : AppRuntimeState :=
  r <| rt_state := "faulted" |> <| rt_last_error := Some message |> <| config_load_error := Some message |>.

(** The arm of [match error.class] that marks the lifecycle. *)
Definition mark_failure (e : CaptureAttemptError) (now : RetryInstant) (l : LifecycleState) : LifecycleState :=
  match class e with
  | Transient => mark_transient (attempt_state e) (message e) now l
  | _ => mark_permanent (message e) l
  end.

Definition apply_capture_attempt_error_to_state (e : CaptureAttemptError) (now : RetryInstant) (r : AppRuntimeState)
    : AppRuntimeState * outcome CaptureAttemptError unit :=
  match class e with
  | Fatal => (r, Err e)
  | _ => (set_lifecycle (mark_failure e now) (set_error (message e) r), Ok tt)
  end.

(** The retry of a transient error is scheduled, anything else is cancelled. *)
Definition schedule_or_invalidate (e : CaptureAttemptError) (w : World) : World :=
  let l := lifecycle (runtime w) in
  w <| scheduler ::= match class e, next_retry_at l with
                     | Transient, Some due => schedule_retry (Lifecycle.generation l) due
                     | _, _ => invalidate (Lifecycle.generation l)
                     end |>.

Definition current_capture_is_running (w : World) : bool :=
  negb (poisoned w)
  && match rt_capture (runtime w), session (runtime w) with
     | Some _, Some _ => bool_decide (capture_state (lifecycle (runtime w)) = Running)
     | _, _ => false
     end.

(** [lock_runtime_recovering_poison], and the capture that is taken if the
    mutex was poisoned *)
Definition recover_poison (w : World) : World * ActiveKeys :=
  if poisoned w then let (r, active) := take_active_capture (runtime w) in (w <| runtime := r |>, active)
  else (w, (None, None)).

Definition clear_poison (w : World) : World := w <| poisoned := false |>.

Inductive Failing :=
  | Superseded
  | FailedFatally (message : string)
  | FailedUnchanged
  | FailurePublished (dropped : ActiveKeys) (fatal : option string).

(** The section of [command_attempt_failure_with_generation]. *)
Definition publish_failure (now : RetryInstant) (token : Z) (operation_generation : option Z) (e : CaptureAttemptError)
    (preserve_running : bool) (w : World) : World * Failing :=
  if negb (operation_is_current w token) then (w, Superseded)
  else if bool_decide (class e = Fatal) then (w, FailedFatally (message e))
  else if preserve_running && current_capture_is_running w then (w, FailedUnchanged)
  else
    let publish (w : World) : World * Failing :=
      let (w, active) := recover_poison w in
      let w := w <| runtime ::= fun r => set_lifecycle (mark_failure e now) (set_error (message e) r) |> in
      (schedule_or_invalidate e (clear_poison w), FailurePublished active None) in
    match operation_generation with
    | Some generation =>
        if generation =? Lifecycle.generation (lifecycle (runtime w)) then publish w else (clear_poison w, Superseded)
    | None =>
        match begin_operation (lifecycle (runtime w)) with
        | (l, Ok _) => publish (w <| runtime ::= set_lifecycle (fun _ => l) |>)
        | (_, _) =>
            if poisoned w then
              let (w, active) := recover_poison w in
              (clear_poison w, FailurePublished active (Some "operation generation overflow while recovering poisoned runtime"))
            else (w, Superseded)
        end
    end.

(** The section of [publish_capture_attempt_error], which reports the failure of
    the start that the configuration asks for. *)
Definition publish_attempt_error (now : RetryInstant) (e : CaptureAttemptError) (w : World) : World * (ActiveKeys * option string) :=
  let (w', active) := recover_poison w in
  match begin_operation (lifecycle (runtime w')) with
  | (l, Ok _) =>
      let w' := w' <| runtime ::= fun r => set_lifecycle (mark_failure e now) (set_error (message e) (set_lifecycle (fun _ => l) r)) |> in
      (schedule_or_invalidate e (clear_poison w'), (active, None))
  | (_, Err error) => (clear_poison w', (active, Some (display error)))
  | (_, Panic) => (clear_poison w', (active, None))
  end.

(** ** Jobs of the scheduler *)

Inductive ScheduledGenerationDecision := Current | Stale | Terminalized.
#[export] Instance ScheduledGenerationDecision_eq_dec : EqDecision ScheduledGenerationDecision.
Proof. solve_decision. Defined.

Definition no_active_ownership (r : AppRuntimeState) : bool :=
  match rt_capture r, session r, capture_health r, resolved_capture r with None, None, None, None => true | _, _, _, _ => false end.

Definition retry_is_coherent (l : LifecycleState) : bool :=
  match error_class l, retry_policy l, next_retry_at l with
  | Some Transient, BoundedBackoff, Some _ => true
  | _, _, _ => false
  end.

(** The section of [scheduled_generation_decision]; in the last case the capture
    is dropped and the daemon stopped when the locks are released. *)
Definition decide_generation (generation : Z) (w : World) : World * (ScheduledGenerationDecision * option ActiveKeys) :=
  let current := Lifecycle.generation (lifecycle (runtime w)) =? generation in
  if negb (poisoned w) then
    (w, (if is_stopped (scheduler w) then Terminalized else if current then Current else Stale, None))
  else if negb current then (clear_poison w, (Stale, None))
  else if negb (is_stopped (scheduler w)) && no_active_ownership (runtime w) && retry_is_coherent (lifecycle (runtime w))
  then (clear_poison w, (Current, None))
  else
    let (r, active) := take_active_capture (runtime w) in
    (clear_poison (w <| runtime := r |>), (Terminalized, Some active)).

Definition fault_text (f : RuntimeCaptureFault) : CaptureState * string :=
  match f with DeviceDisconnected message => (WaitingForDevice, message) | BackendFault message => (Faulted, message) end.

Definition active_attempt (w : World) : option CaptureAttemptId :=
  k ← capture_health (runtime w); h ← healths w !! k; health_attempt_id h.

(** The section of [publish_runtime_fault]. The capture is dropped under the
    authority, before the retry is scheduled. *)
Definition publish_fault (now : RetryInstant) (generation : Z) (attempt : CaptureAttemptId) (f : RuntimeCaptureFault) (w : World)
    : World :=
  if stop_flag w then w
  else if negb (Lifecycle.generation (lifecycle (runtime w)) =? generation)
          || negb (bool_decide (active_attempt w = Some attempt)) then clear_poison w
  else if no_active_ownership (runtime w) then clear_poison w
  else
    let (state, message) := fault_text f in
    let (r, active) := take_active_capture (runtime w) in
    let r := set_lifecycle (mark_transient state message now) (set_error message r) in
    let w := drop_capture_then_session active (clear_poison (w <| runtime := r |>)) in
    match next_retry_at (lifecycle r) with
    | Some due => w <| scheduler ::= schedule_retry generation due |>
    | None => w
    end.
