(* ===== verification/Transactions.v ===== *)
(** * The operations of the supervisor (src/daemon.rs)

    An operation is a program: a sequence of sections of [Supervisor], between
    which other threads run. What the outside world answers to one operation
    (the file, the graph of PipeWire, the backends, recovery, the disk) is its
    [Answers]. *)
From stdpp Require Import gmap.
From S2P Require Import Prelude.
From S2P Require Import Errors.
From S2P Require Import MemoryPlan.
From S2P Require Import Lifecycle.
From S2P Require Import RetryScheduler.
From S2P Require Import ExportPattern.
From S2P Require Import Text.
From S2P Require Import LegacyConfig.
From S2P Require Import AppConfig.
From S2P Require Import Profile.
From S2P Require Import InputIdentity.
From S2P Require Import PipeWireTarget.
From S2P Require Import PipeWireHealth.
From S2P Require Import SessionInputs.
From S2P Require Import Bootstrap.
From S2P Require Import Supervisor.

(** ** Programs *)

(** [Abort] is a panic: the thread ends. *)
Inductive Prog (A : Type) : Type :=
  | Ret (a : A)
  | Step {B : Type} (section : World -> World * B) (next : B -> Prog A)
  | Abort.
Arguments Ret {A}.
Arguments Step {A B}.
Arguments Abort {A}.

Fixpoint then_do {A C} (p : Prog A) (q : A -> Prog C) : Prog C :=
  match p with
  | Ret a => q a
  | Step section next => Step section (fun b => then_do (next b) q)
  | Abort => Abort
  end.

Definition section {B} (f : World -> World * B) : Prog B := Step f Ret.
Definition act (f : World -> World) : Prog unit := section (fun w => (f w, tt)).
Definition ask {B} (f : World -> B) : Prog B := section (fun w => (w, f w)).

Notation "'do!' x := p 'in' q" := (then_do p (fun x => q)) (at level 10, x name, p at level 100, q at level 200).
Notation "'do!' ' x := p 'in' q" := (then_do p (fun x => q)) (at level 10, x pattern, p at level 100, q at level 200).

(** The status that the code puts into a response is left out. *)
Record ControlResponse := mkResponse { response_ok : bool; response_message : string; response_class : option ErrorClass }.

Definition success (message : string) : ControlResponse := mkResponse true message None.
Definition failure (message : string) (class : option ErrorClass) : ControlResponse := mkResponse false message class.

Definition with_message (message : string) (r : ControlResponse) : ControlResponse :=
  mkResponse (response_ok r) message (response_class r).

(** ** The outside world *)

Inductive PipeWireStartupError := Resolution (e : TargetResolutionError) | CaptureFailed (e : LambError).

Record Answers := mkAnswers {
  clock_now : RetryInstant;
  file : ReadError + string;
  environment_check : LambError + unit;
  discovered : LambError + list AvailableNode * list AvailablePort;
  pipewire_started : PipeWireStartupError + unit;
  (** JACK (its sample rate) or the test source *)
  backend_started : LambError + Z;
  policy_installed : LambError + unit;
  failed_recoveries : LambError + Z;
  config_saved : LambError + unit;
}.

Definition answer {E A} (s : E + A) : outcome E A := match s with inl e => Err e | inr a => Ok a end.

Section transactions.
Context `{Platform} `{ConfigLanguage} `{Digest} (config_path control_socket : string) (a : Answers).

Definition resolve_target_typed (c : PipeWireCaptureConfig) : outcome TargetResolutionError ResolvedTarget :=
  let? g := map_err (fun e => BackendUnavailable (capture_error_message e)) (answer (discovered a)) in
  resolve_target_from_graph_typed c g.1 g.2.

Definition classify_startup_error (e : PipeWireStartupError) : CaptureAttemptError :=
  match e with
  | Resolution e => classify_pipewire_resolution_error e
  | CaptureFailed e => classify_legacy_attempt_error e
  end.

(** ** Responses and failures *)

Definition superseded_response : Prog ControlResponse :=
  ask (fun w => failure (if stop_flag w then "daemon is shutting down" else "capture operation was superseded") (Some Transient)).

Definition fatal_failure (message : string) : Prog ControlResponse :=
  do! _ := act (signal_fatal message) in Ret (failure message (Some Fatal)).

Definition current_failure_response : Prog ControlResponse :=
  ask (fun w =>
    if poisoned w then failure "runtime state lock poisoned" (Some Permanent)
    else let l := lifecycle (runtime w) in failure (default "capture command failed" (last_error l)) (error_class l)).

Definition command_attempt_failure_with_generation (token : Z) (operation_generation : option Z) (e : CaptureAttemptError)
    (preserve_running : bool) : Prog ControlResponse :=
  do! r := section (publish_failure (clock_now a) token operation_generation e preserve_running) in
  match r with
  | Superseded => superseded_response
  | FailedFatally message => fatal_failure message
  | FailedUnchanged => Ret (failure (message e) (Some (class e)))
  | FailurePublished active fatal =>
      do! _ := act (drop_capture_then_session active) in
      match fatal with Some message => fatal_failure message | None => current_failure_response end
  end.

Definition command_attempt_failure (token : Z) (e : CaptureAttemptError) (preserve_running : bool) : Prog ControlResponse :=
  command_attempt_failure_with_generation token None e preserve_running.

(** A step of an operation that is refused when the operation is not current. *)
Definition if_current (token : Z) (superseded p : Prog ControlResponse) : Prog ControlResponse :=
  do! current := ask (fun w => operation_is_current w token) in
  if current then p else superseded.

Definition dropping (active : ActiveKeys) (p : Prog ControlResponse) : Prog ControlResponse :=
  do! _ := act (drop_capture_then_session active) in p.

Definition publication_generation (l : LifecycleState) (operation_generation : option Z) : Result (LifecycleState * Z) :=
  match operation_generation with
  | Some generation =>
      if Lifecycle.generation l =? generation then Ok (l, generation) else Err (Control "capture operation superseded")
  | None => match begin_operation l with (l', Ok generation) => Ok (l', generation) | (_, Err e) => Err e | (_, Panic) => Panic end
  end.

(** ** Captures of a session configuration *)

(** What starts, without its threads: whether it has a health, and its state. *)
Definition start_legacy_capture (p : PreparedLegacyConfig) : outcome CaptureAttemptError (bool * ResolvedCaptureState) :=
  let? _ := map_err classify_legacy_attempt_error (answer (environment_check a)) in
  if String.eqb (backend (static_config p)) "pipewire" then
    let? config := map_err classify_legacy_attempt_error (from_lamb_config (static_config p)) in
    let? target := map_err classify_pipewire_resolution_error (resolve_target_typed config) in
    let? _ := map_err classify_startup_error (answer (pipewire_started a)) in
    Ok (true, mkCaptureState (target_channels target) (target_sample_rate target) (Some (target_text target)))
  else
    let? resolved := map_err classify_legacy_attempt_error
                       (resolve_legacy_capture_with
                          (fun c => map_err (fun e => Capture (resolution_message e)) (resolve_target_typed c)) p) in
    let? _ := map_err classify_legacy_attempt_error (answer (backend_started a)) in
    Ok (false, legacy_state resolved).

Record ActiveCapture := mkActive { active_key : CaptureKey; active_health : option CaptureKey; active_resolved : ResolvedCaptureState }.

Definition keys_of (c : ActiveCapture) : ActiveKeys := (Some (active_key c), Some (active_key c)).

(** The two values are made together. *)
Definition add_capture (sink : option RuntimeFaultSink) (w : World) : World * CaptureKey :=
  let (w, k) := add_backend sink w in (add_session k w, k).

Definition start (p : PreparedLegacyConfig) (sink : RuntimeFaultSink) : Prog (outcome CaptureAttemptError ActiveCapture) :=
  match start_legacy_capture p with
  | Ok (true, state) =>
      do! k := section (add_capture (Some sink)) in Ret (Ok (mkActive k (Some k) state))
  | Ok (false, state) =>
      do! k := section (add_capture None) in Ret (Ok (mkActive k None state))
  | Err e => Ret (Err e)
  | Panic => Abort
  end.

(** The check of the startup recovery, for the error message of [family]. *)
Definition recovery_error (family : string) : outcome LambError unit :=
  let? failed := answer (failed_recoveries a) in
  if failed =? 0 then Ok tt
  else Err (Control (family +:+ " startup recovery failed for " +:+ decimal failed +:+ " transaction(s)")).

(** The fields that a published capture of a session configuration sets. *)
Definition legacy_running (p : PreparedLegacyConfig) (c : ActiveCapture) (r : AppRuntimeState) : AppRuntimeState :=
  r <| capture_health := active_health c |> <| config_family := LegacyFamily |> <| prepared_legacy := Some p |>
    <| rt_profile := None |> <| rt_capture := Some (active_key c) |> <| session := Some (active_key c) |>
    <| resolved_capture := Some (active_resolved c) |> <| rt_state := "capturing" |> <| rt_last_error := None |>
    <| config_load_error := None |> <| lifecycle ::= mark_running None (state_target (active_resolved c)) |>.

(** The last section of an installation: [installed] is the new runtime state.
    The result is what was published before, or nothing if another operation
    has taken over. *)
Definition publish_installed (token : Z) (operation_generation : option Z) (old_already_detached : bool)
    (health : option CaptureKey) (installed : AppRuntimeState -> Z -> AppRuntimeState) (w : World) : World * option ActiveKeys :=
  if negb (operation_is_current w token) then (w, None)
  else match publication_generation (lifecycle (runtime w)) operation_generation with
       | Ok (l, generation) =>
           let r := set_lifecycle (fun _ => l) (runtime w) in
           let (r, old) := if old_already_detached && negb (poisoned w) then (r, (None, None)) else take_active_capture r in
           let w := clear_poison (w <| runtime := installed r generation |>) <| scheduler ::= invalidate generation |> in
           (arm_published health w, Some old)
       | _ => (clear_poison w, None)
       end.

Definition install_legacy (token : Z) (operation_generation : option Z) (p : PreparedLegacyConfig) (old_already_detached : bool)
    : Prog ControlResponse :=
  let fail e := command_attempt_failure_with_generation token operation_generation e (negb old_already_detached) in
  if_current token superseded_response (
  do! sink := section (runtime_fault_sink_for_attempt operation_generation) in
  match sink with
  | Err e => fail e
  | Panic => Abort
  | Ok sink =>
      do! started := start p sink in
      match started with
      | Err e => fail e
      | Panic => Abort
      | Ok active =>
          let superseded := dropping (keys_of active) superseded_response in
          if_current token superseded
          match recovery_error "legacy" with
          | Err e => dropping (keys_of active) (fail (classify_legacy_attempt_error e))
          | Panic => Abort
          | Ok _ =>
              if_current token superseded (
              do! old := section (publish_installed token operation_generation old_already_detached (active_health active)
                                    (fun r _ => legacy_running p active r)) in
              match old with
              | None => superseded
              | Some old => dropping old (Ret (success "config reloaded"))
              end)
          end
      end
  end).

(** ** Captures of a profile *)

(** What starts: whether it has a health, its sample rate and its target. *)
Definition build_app_capture (p : ResolvedProfile) : outcome CaptureAttemptError (bool * Z * option ResolvedTarget) :=
  if String.eqb (r_backend p) "jack" then
    let? rate := map_err classify_legacy_attempt_error (answer (backend_started a)) in Ok (false, rate, None)
  else if String.eqb (r_backend p) "pipewire" then
    match r_pipewire_config p with
    | Some config =>
        let? target := map_err classify_pipewire_resolution_error (resolve_target_typed config) in
        let? _ := map_err classify_startup_error (answer (pipewire_started a)) in
        Ok (true, target_sample_rate target, Some target)
    | None => Err (classify_legacy_attempt_error (Validation "pipewire profile has no pipewire config"))
    end
  else Err (classify_legacy_attempt_error (Validation ("unknown backend: " +:+ r_backend p))).

Definition live_identities (p : ResolvedProfile) (target : option ResolvedTarget) : Result (list (option ResolvedLiveInputIdentity)) :=
  match target with Some target => pipewire_live_identities p target | None => jack_live_identities p end.

(** The session of a backend that has started: everything that can still fail
    before it is published. *)
Definition session_inputs (p : ResolvedProfile) (target : option ResolvedTarget) : Result (list ConfiguredInputIdentity * Z) :=
  let? live := live_identities p target in validate_app_session_inputs p live.

Abbreviation Applied := (AppRuntimeState * Result unit)%type.

Definition failing_with (active : ActiveKeys) (r : AppRuntimeState) (e : LambError) : Prog Applied :=
  do! _ := act (drop_capture_then_session active) in Ret (r, Err e).

Definition checked_by (checkpoint : Prog (Result unit)) (active : ActiveKeys) (r : AppRuntimeState) (p : Prog Applied) : Prog Applied :=
  do! c := checkpoint in
  match c with Ok _ => p | Err e => failing_with active r e | Panic => Abort end.

(** A fallible step that has no effect on the supervisor. *)
Definition or_fail {A} (o : Result A) (active : ActiveKeys) (r : AppRuntimeState) (p : A -> Prog Applied) : Prog Applied :=
  match o with
  | Ok x => p x
  | Err e => failing_with active r e
  | Panic => do! _ := act (drop_capture_then_session active) in Abort
  end.

Definition no_capture (r : AppRuntimeState) : AppRuntimeState :=
  r <| rt_capture := None |> <| capture_health := None |> <| session := None |>.

Definition applied_attempt_error (e : CaptureAttemptError) (r : AppRuntimeState) : Applied :=
  match apply_capture_attempt_error_to_state e (clock_now a) (r <| capture_health := None |>) with
  | (r, Ok _) => (r <| config_load_error := None |>, Ok tt)
  | (r, Err e) => (r, Err (DaemonFatal (message e)))
  | (r, Panic) => (r, Panic)
  end.

Definition app_running (p : ResolvedProfile) (k : CaptureKey) (health : option CaptureKey) (r : AppRuntimeState) : AppRuntimeState :=
  r <| rt_state := "capturing" |> <| rt_last_error := None |> <| capture_health := health |> <| session := Some k |>
    <| rt_capture := Some k |> <| lifecycle ::= mark_running (Some (r_name p)) (Some (r_name p)) |> <| config_load_error := None |>.

(** The arm of a profile that is started. *)
Definition start_app (p : ResolvedProfile) (begin_attempt_generation : bool) (sink : RuntimeFaultSink)
    (checkpoint : Prog (Result unit)) (r : AppRuntimeState) : Prog Applied :=
  let begun := if begin_attempt_generation
               then match begin_operation (lifecycle r) with
                    | (l, Ok _) => Ok (set_lifecycle (fun _ => l) r)
                    | (_, Err e) => Err e
                    | (_, Panic) => Panic
                    end
               else Ok r in
  or_fail begun (None, None) r (fun r =>
  checked_by checkpoint (None, None) r (
  do! _ := act (drop_capture_then_session (rt_capture r, session r)) in
  let r := no_capture r in
  match build_app_capture p with
  | Err e => checked_by checkpoint (None, None) r (Ret (applied_attempt_error e r))
  | Panic => Abort
  | Ok (has_health, rate, target) =>
      do! k := section (add_backend (if has_health : bool then Some sink else None)) in
      let backend := (Some k, None) in
      checked_by checkpoint backend r (
      checked_by checkpoint backend r (
      or_fail (session_inputs p target) backend r (fun _ =>
      do! _ := act (add_session k) in
      let both := (Some k, Some k) in
      checked_by checkpoint both r (
      or_fail (answer (policy_installed a)) both r (fun _ =>
      checked_by checkpoint both r (
      or_fail (recovery_error "app") both r (fun _ =>
      checked_by checkpoint both r (
      Ret (app_running p k (if has_health then Some k else None) r, Ok tt)))))))))
  end)).

Definition not_loaded (config : AppConfig) (error : string) (r : AppRuntimeState) : AppRuntimeState :=
  no_capture r <| rt_config := config |> <| rt_state := "unconfigured" |> <| rt_last_error := Some error |>
    <| config_load_error := Some error |> <| rt_profile := None |> <| lifecycle ::= mark_permanent error |>.

Definition apply_loaded_app_config (loaded : LoadedAppConfig) (begin_attempt_generation : bool) (sink : RuntimeFaultSink)
    (checkpoint : Prog (Result unit)) (r : AppRuntimeState) : Prog Applied :=
  let dropped := act (drop_capture_then_session (rt_capture r, session r)) in
  match load_state loaded with
  | Missing =>
      do! _ := dropped in Ret (not_loaded (loaded_config loaded) ("config file not found: " +:+ config_path) r, Ok tt)
  | Invalid =>
      do! _ := dropped in
      Ret (not_loaded (loaded_config loaded) (default ("invalid config file: " +:+ config_path) (load_error loaded)) r, Ok tt)
  | Loaded =>
      let r := r <| rt_config := loaded_config loaded |> in
      match resolve_active_profile (loaded_config loaded) with
      | Err e => Ret (r, Err e)
      | Panic => Abort
      | Ok (Some p) =>
          let r := r <| rt_profile := Some p |> in
          if String.eqb (start_mode (daemon (loaded_config loaded))) "auto" then start_app p begin_attempt_generation sink checkpoint r
          else do! _ := dropped in
               Ret (no_capture r <| rt_state := "idle" |> <| rt_last_error := None |> <| config_load_error := None |>
                      <| lifecycle ::= mark_stopped (Some (r_name p)) |>, Ok tt)
      | Ok None =>
          do! _ := dropped in
          Ret (no_capture r <| rt_state := "unconfigured" |> <| rt_last_error := Some "no active profile configured" |>
                 <| rt_profile := None |> <| config_load_error := None |> <| lifecycle ::= mark_stopped None |>, Ok tt)
      end
  end.

Definition with_mode (mode : string) (c : AppConfig) : AppConfig :=
  mkAppConfig (mkDaemon mode (active_profile (daemon c)) (daemon_control_socket_path (daemon c))) (profiles c).

Definition install_app (token : Z) (operation_generation : option Z) (loaded : LoadedAppConfig) (old_already_detached force_start activate : bool)
    : Prog ControlResponse :=
  let configured := start_mode (daemon (loaded_config loaded)) in
  let loaded := if force_start then mkLoaded (with_mode "auto" (loaded_config loaded)) (load_state loaded) (load_error loaded) else loaded in
  let fail e := command_attempt_failure_with_generation token operation_generation e (negb old_already_detached) in
  if_current token superseded_response (
  do! sink := section (runtime_fault_sink_for_attempt operation_generation) in
  match sink with
  | Err e => fail e
  | Panic => Abort
  | Ok sink =>
      let checkpoint := ask (fun w => if operation_is_current w token then Ok tt else Err (Control "capture operation superseded")) in
      do! ' (candidate, applied) := apply_loaded_app_config loaded false sink checkpoint (empty_runtime AppFamily) in
      match applied with
      | Panic => Abort
      | Err e =>
          if_current token superseded_response (command_attempt_failure token (classify_legacy_attempt_error e) (negb old_already_detached))
      | Ok _ =>
          let candidate := candidate <| rt_config ::= with_mode configured |> in
          let active := (rt_capture candidate, session candidate) in
          let superseded := dropping active superseded_response in
          if_current token superseded (
          let l := lifecycle candidate in
          if negb (bool_decide (capture_state l = Running)) && negb (bool_decide (capture_state l = Stopped)) then
            dropping active (fail (mkAttemptError (default Transient (error_class l)) (capture_state l)
                                     (default "capture start failed" (last_error l))))
          else
            let publish :=
              do! old := section (publish_installed token operation_generation old_already_detached (capture_health candidate)
                                    (fun _ generation => set_lifecycle (fun l => l <| Lifecycle.generation := generation |>) candidate)) in
              match old with
              | None => superseded
              | Some old => dropping old (Ret (success "config reloaded"))
              end in
            if activate then
              if_current token superseded
              match config_saved a with
              | inl e => dropping active (fail (classify_legacy_attempt_error e))
              | inr _ => publish
              end
            else publish)
      end
  end).

Definition install_prepared (token : Z) (operation_generation : option Z) (prepared : PreparedBootstrap)
    (old_already_detached force_start activate : bool) : Prog ControlResponse :=
  if_current token superseded_response
  match prepared with
  | PreparedLegacy p => install_legacy token operation_generation p old_already_detached
  | PreparedApp loaded => install_app token operation_generation loaded old_already_detached force_start activate
  | FaultedBootstrap _ _ message =>
      command_attempt_failure_with_generation token operation_generation (permanent message) (negb old_already_detached)
  end.

(** ** Commands *)

(** [command_failure_without_state_mutation] *)
Definition unchanged_failure (e : CaptureAttemptError) : Prog ControlResponse := Ret (failure (message e) (Some (class e))).

(** An operation of a client, from its entry on. *)
Definition begun (p : BegunOperation -> Prog ControlResponse) : Prog ControlResponse :=
  do! o := section (begin_new_operation_generation Command) in
  match o with Ok o => p o | Err e => unchanged_failure e | Panic => Abort end.

(** The candidate that the file holds. *)
Definition from_disk (requested : option string) (fail : CaptureAttemptError -> Prog ControlResponse)
    (guard : Prog ControlResponse -> Prog ControlResponse) (p : PreparedBootstrap -> Prog ControlResponse) : Prog ControlResponse :=
  match prepare_config_from_disk config_path requested (answer (file a)) with
  | Err e => fail e
  | Panic => Abort
  | Ok c =>
      guard match validate_candidate_socket control_socket c with
            | Err e => fail e
            | Panic => Abort
            | Ok _ => p (candidate c)
            end
  end.

Definition reload : Prog ControlResponse :=
  begun (fun o =>
  from_disk None (fun e => command_attempt_failure_with_generation (token o) (Some (op_generation o)) e true)
    (if_current (token o) superseded_response)
    (fun prepared => install_prepared (token o) (Some (op_generation o)) prepared false false false)).

(** The section that detaches what was published before a start. *)
Definition detach_old (o : BegunOperation) (requested : option string) (w : World) : World * option ActiveKeys :=
  if negb (operation_is_current w (token o)) then (w, None)
  else if negb (Lifecycle.generation (lifecycle (runtime w)) =? op_generation o) then (clear_poison w, None)
  else
    let (r, old) := take_active_capture (runtime w) in
    let profile := match requested with Some p => Some p | None => Lifecycle.active_profile (lifecycle r) end in
    (clear_poison (w <| runtime := set_lifecycle (mark_starting profile) r |>), Some old).

(** [None] if the operation is not current, otherwise whether a capture runs. *)
Definition running_now (token : Z) (w : World) : option bool :=
  if operation_is_current w token then Some (current_capture_is_running w) else None.

Definition start_capture (requested : option string) (activate : bool) : Prog ControlResponse :=
  begun (fun o =>
  do! running := ask (running_now (token o)) in
  match running with
  | None => superseded_response
  | Some true => Ret (success "capture already running")
  | Some false =>
      from_disk requested (fun e => command_attempt_failure_with_generation (token o) (Some (op_generation o)) e false)
        (if_current (token o) superseded_response) (fun prepared =>
      do! old := section (detach_old o requested) in
      match old with
      | None => superseded_response
      | Some old =>
          dropping old (
          if_current (token o) superseded_response (
          do! r := install_prepared (token o) (Some (op_generation o)) prepared true true activate in
          Ret (if response_ok r
               then with_message match requested with Some p => "capturing " +:+ p | None => "capture started" end r
               else r)))
      end)
  end).

Definition detach_stopped (o : BegunOperation) (w : World) : World * option ActiveKeys :=
  if negb (operation_is_current w (token o)) then (w, None)
  else if negb (Lifecycle.generation (lifecycle (runtime w)) =? op_generation o) then (w, None)
  else
    let (r, active) := take_active_capture (runtime w) in
    let state := if bool_decide (config_family r = LegacyFamily) then "stopped"
                 else match rt_profile r with Some _ => "idle" | None => "unconfigured" end in
    let r := r <| rt_state := state |> <| rt_last_error := None |> <| config_load_error := None |>
               <| lifecycle ::= mark_stopped (r_name <$> rt_profile r) |> in
    (clear_poison (w <| runtime := r |>), Some active).

Definition stop_capture : Prog ControlResponse :=
  begun (fun o =>
  do! active := section (detach_stopped o) in
  match active with
  | None => superseded_response
  | Some active => dropping active (Ret (success "capture stopped"))
  end).

Definition begin_shutdown : Prog unit :=
  do! o := section (begin_new_operation_generation DirectStop) in
  match o with Ok _ => Ret tt | Err _ => act force_shutdown | Panic => Abort end.

(** ** Jobs *)

Definition scheduled_generation_decision (generation : Z) : Prog ScheduledGenerationDecision :=
  do! ' (d, dropped) := section (decide_generation generation) in
  match dropped with
  | Some active =>
      do! _ := act (drop_capture_then_session active) in
      do! _ := act (signal_fatal "runtime state lock poison violated scheduled retry invariants") in
      Ret d
  | None => Ret d
  end.

Definition signal_fatal_response (r : ControlResponse) : Prog unit :=
  match response_class r with Some Fatal => act (signal_fatal (response_message r)) | _ => Ret tt end.

(** The generation is checked, and the token. *)
Definition if_scheduled (generation token : Z) (p : Prog unit) : Prog unit :=
  do! d := scheduled_generation_decision generation in
  match d with
  | Current => do! current := ask (fun w => operation_is_current w token) in if current then p else Ret tt
  | _ => Ret tt
  end.

Definition execute_retry_operation (generation : Z) : Prog unit :=
  do! d := scheduled_generation_decision generation in
  match d with
  | Current =>
      do! t := section begin_command_operation in
      match t with
      | Err e => if bool_decide (class e = Fatal) then act (signal_fatal (message e)) else Ret tt
      | Panic => Abort
      | Ok token =>
          let failing e := do! r := command_attempt_failure token e false in signal_fatal_response r in
          if_scheduled generation token
          match prepare_config_from_disk config_path None (answer (file a)) with
          | Err e => failing e
          | Panic => Abort
          | Ok c =>
              if_scheduled generation token
              match validate_candidate_socket control_socket c with
              | Err e => failing e
              | Panic => Abort
              | Ok _ =>
                  if_scheduled generation token (
                  do! r := install_prepared token None (candidate c) false true false in
                  signal_fatal_response r)
              end
          end
      end
  | _ => Ret tt
  end.

Definition publish_runtime_fault (generation : Z) (attempt : CaptureAttemptId) (f : RuntimeCaptureFault) : Prog unit :=
  do! d := scheduled_generation_decision generation in
  match d with
  | Current => act (publish_fault (clock_now a) generation attempt f)
  | _ => Ret tt
  end.

(** The requests that run as operations of the supervisor. The listener answers
    [Stop] itself ([Daemon]); the other requests do not change the supervisor and
    are left out. *)
Inductive ControlRequest := StartCapture (profile : option string) (activate : bool) | StopCapture | Reload.
Inductive OperationJob := Client (r : ControlRequest) | Internal (op : ScheduledOperation).

Definition handle_request (r : ControlRequest) : Prog ControlResponse :=
  match r with
  | StartCapture profile activate => start_capture profile activate
  | StopCapture => stop_capture
  | Reload => reload
  end.

(** The response to a client; [cancel_operation_job] answers if the daemon
    stops. *)
Definition execute_operation_job (job : OperationJob) : Prog (option ControlResponse) :=
  do! stopping := ask stop_flag in
  if stopping : bool then Ret match job with Client _ => Some (mkResponse false "shutting down" None) | Internal _ => None end
  else match job with
       | Client r =>
           do! response := handle_request r in
           do! _ := signal_fatal_response response in Ret (Some response)
       | Internal (Retry generation) => do! _ := execute_retry_operation generation in Ret None
       | Internal (RuntimeFault generation attempt f) => do! _ := publish_runtime_fault generation attempt f in Ret None
       end.

(** ** Startup *)

Definition initial_runtime : AppRuntimeState := empty_runtime AppFamily.

(** The runtime state that the context starts with. *)
Definition prepare_runtime (prepared : PreparedBootstrap) : Prog Applied :=
  match prepared with
  | PreparedApp loaded =>
      do! attempt := section allocate_capture_attempt_id in
      match attempt with
      | Err e => Ret (initial_runtime, Err (Capture (message e)))
      | Panic => Abort
      | Ok attempt =>
          do! ' (r, applied) := apply_loaded_app_config loaded true (fault_sink 1 attempt 0) (Ret (Ok tt)) initial_runtime in
          match applied with
          | Ok _ => Ret (r, Ok tt)
          | Panic => Abort
          | Err e =>
              let active := (rt_capture r, session r) in
              let r := (take_active_capture r).1 in
              let e := classify_legacy_attempt_error e in
              do! _ := act (drop_capture_then_session active) in
              match apply_capture_attempt_error_to_state e (clock_now a) r with
              | (r, Ok _) => Ret (r, Ok tt)
              | (r, Err e) => Ret (r, Err (Capture (message e)))
              | (r, Panic) => Abort
              end
          end
      end
  | PreparedLegacy p =>
      Ret (initial_runtime <| config_family := LegacyFamily |> <| prepared_legacy := Some p |> <| rt_state := "starting" |>
             <| lifecycle ::= mark_starting None |>, Ok tt)
  | FaultedBootstrap family fallback message =>
      Ret (set_error message initial_runtime <| rt_config := fallback |> <| config_family := family |>
             <| lifecycle ::= mark_permanent message |>, Ok tt)
  end.

(** The context is made, and the scheduler told. *)
Definition install_runtime (r : AppRuntimeState) (w : World) : World :=
  let w := arm_published (capture_health r) (w <| runtime := r |> <| scheduler ::= invalidate (Lifecycle.generation (lifecycle r)) |>) in
  match next_retry_at (lifecycle r) with
  | Some due => w <| scheduler ::= schedule_retry (Lifecycle.generation (lifecycle r)) due |>
  | None => w
  end.

(** [publish_capture_attempt_error] *)
Definition publish_capture_attempt_error (e : CaptureAttemptError) : Prog unit :=
  if bool_decide (class e = Fatal) then act (signal_fatal (message e))
  else
    do! ' (active, fatal) := section (publish_attempt_error (clock_now a) e) in
    do! _ := act (drop_capture_then_session active) in
    match fatal with Some message => act (signal_fatal message) | None => Ret tt end.

(** A failure that is fatal ends the daemon, any other one is published. *)
Definition failed_start (e : CaptureAttemptError) : Prog (Result unit) :=
  if bool_decide (class e = Fatal) then Ret (Err (Capture (message e)))
  else do! _ := publish_capture_attempt_error e in Ret (Ok tt).

(** The section that publishes the capture of the initial configuration; it
    unwraps the lock. *)
Definition publish_initial (c : ActiveCapture) (w : World) : World * outcome LambError unit :=
  if poisoned w then (w, Panic)
  else match begin_operation (lifecycle (runtime w)) with
  | (l, Ok generation) =>
      let r := set_lifecycle (fun _ => l) (runtime w) in
      let r := r <| rt_capture := Some (active_key c) |> <| capture_health := active_health c |> <| session := Some (active_key c) |>
                 <| resolved_capture := Some (active_resolved c) |> <| rt_state := "capturing" |> <| rt_last_error := None |>
                 <| config_load_error := None |> <| lifecycle ::= mark_running None (state_target (active_resolved c)) |> in
      (arm_published (active_health c) (w <| runtime := r |> <| scheduler ::= invalidate generation |>), Ok tt)
  | (_, _) => (w, Err (ControlInvariant "initial capture publication generation overflow"))
  end.

Definition attempt_configured_start : Prog (Result unit) :=
  do! prepared := ask (fun w => if poisoned w then None else prepared_legacy (runtime w)) in
  match prepared with
  | None => Ret (Ok tt)
  | Some p =>
      do! sink := section (runtime_fault_sink_for_attempt None) in
      match sink with
      | Err e => failed_start e
      | Panic => Abort
      | Ok sink =>
          do! started := start p sink in
          match started with
          | Err e => failed_start e
          | Panic => Abort
          | Ok active =>
              match recovery_error "legacy" with
              | Err e =>
                  do! _ := act (drop_capture_then_session (keys_of active)) in failed_start (classify_legacy_attempt_error e)
              | Panic => Abort
              | Ok _ =>
                  do! published := section (publish_initial active) in
                  match published with
                  | Ok _ => Ret (Ok tt)
                  | Err e => do! _ := act (drop_capture_then_session (keys_of active)) in Ret (Err e)
                  | Panic => do! _ := act (drop_capture_then_session (keys_of active)) in Abort
                  end
              end
          end
      end
  end.

(** [run_from_config_path] up to the listener *)
Definition startup (prepared : PreparedBootstrap) : Prog (Result unit) :=
  do! ' (r, applied) := prepare_runtime prepared in
  match applied with
  | Ok _ => do! _ := act (install_runtime r) in attempt_configured_start
  | Err e => Ret (Err e)
  | Panic => Abort
  end.
End transactions.
