(* ===== verification/Daemon.v ===== *)
(** * The daemon: threads that interleave (src/daemon.rs)

    The worker runs the startup and then the jobs of the operation lane, one at
    a time; the listener stops the daemon; the backends report faults; the
    scheduler submits what is pending; the mutex of the runtime state may be
    poisoned. An event is one section of one of them. *)
From stdpp Require Import gmap.
From S2P Require Import Prelude.
From S2P Require Import Errors.
From S2P Require Import MemoryPlan.
From S2P Require Import Lifecycle.
From S2P Require Import RetryScheduler.
From S2P Require Import InputIdentity.
From S2P Require Import PipeWireHealth.
From S2P Require Import SessionInputs.
From S2P Require Import Bootstrap.
From S2P Require Import Supervisor.
From S2P Require Import Transactions.

(** What a thread has come to: the startup, or a job with its response. *)
Inductive WorkerResult := StartedUp (r : Result unit) | Idle (response : option ControlResponse).

Record System := mkSystem {
  world : World;
  worker : Prog WorkerResult;
  listener : Prog unit;
  jobs : list (OperationJob * Answers);
  (** the startup has succeeded *)
  serving : bool;
  released : bool;
}.

#[export] Instance System_eta : Eta System := fun s =>
  mkSystem (world s) (worker s) (listener s) (jobs s) (serving s) (released s).

Inductive Event :=
  | ClientSends (r : ControlRequest) (a : Answers)
  | StopRequest
  | ListenerStep
  | WorkerStep
  | BackendFaults (k : CaptureKey) (e : RuntimeFaultEvent)
  | SchedulerSubmits (a : Answers)
  | RuntimePoisoned
  | CaptureReleased.

Definition fresh_world : World :=
  mkWorld initial_runtime false scheduler_new 0 false None 0 ∅ [] [] 0.

Section daemon.
Context `{Platform} `{ConfigLanguage} `{Digest} (config_path control_socket : string).

Definition boot (prepared : PreparedBootstrap) (a : Answers) : System :=
  mkSystem fresh_world (do! r := startup config_path a prepared in Ret (StartedUp r)) (Ret tt) [] false false.

(** The thread takes a job when it has finished the last one. *)
Definition run_job (job : OperationJob) (a : Answers) : Prog WorkerResult :=
  do! r := execute_operation_job config_path control_socket a job in Ret (Idle r).

Definition report_fault (k : CaptureKey) (e : RuntimeFaultEvent) : World -> World :=
  on_health k (fun h => let (h, r) := observe_runtime_fault e h in (h, r.2)).

Definition ended {A} (p : Prog A) : bool := match p with Step _ _ => false | _ => true end.

Definition step (e : Event) (s : System) : option System :=
  match e with
  | ClientSends r a =>
      if serving s && negb (released s) then Some (s <| jobs ::= fun l => l ++ [(Client r, a)] |>) else None
  | StopRequest =>
      match listener s with
      | Ret _ => if serving s then Some (s <| listener := begin_shutdown |>) else None
      | _ => None
      end
  | ListenerStep =>
      match listener s with
      | Step f next => let (w, b) := f (world s) in Some (s <| world := w |> <| listener := next b |>)
      | _ => None
      end
  | WorkerStep =>
      match worker s with
      | Step f next => let (w, b) := f (world s) in Some (s <| world := w |> <| worker := next b |>)
      | Ret (StartedUp (Ok _)) => Some (s <| serving := true |> <| worker := Ret (Idle None) |>)
      | Ret (Idle _) =>
          match jobs s with
          | (job, a) :: rest =>
              Some (s <| jobs := rest |> <| worker := run_job job a |>
                      <| world ::= fun w => w <| scheduler ::= notify_lane_available |> |>)
          | [] => None
          end
      | _ => None
      end
  | BackendFaults k e => Some (s <| world ::= report_fault k e |>)
  | SchedulerSubmits a =>
      if serving s && negb (released s) && negb (is_stopped (scheduler (world s))) then
        match pending (scheduler (world s)) with
        | Some p =>
            Some (s <| jobs ::= fun l => l ++ [(Internal (operation p), a)] |>
                    <| world ::= fun w => w <| scheduler ::= fun c => c <| pending := None |> |> |>)
        | None => None
        end
      else None
  | RuntimePoisoned => Some (s <| world ::= fun w => w <| poisoned := true |> |>)
  | CaptureReleased =>
      if serving s && stop_flag (world s) && ended (worker s) && ended (listener s)
      then Some (s <| world ::= release_capture_for_shutdown |> <| jobs := [] |> <| released := true |>)
      else None
  end.

Fixpoint run (es : list Event) (s : System) : option System :=
  match es with
  | [] => Some s
  | e :: es => s ← step e s; run es s
  end.
End daemon.
