(* ===== verification/SupervisorSpec.v ===== *)
(** * The invariant of the supervisor

    What holds between any two sections, whatever the other threads do, and a
    predicate [wp] on programs: every section keeps the invariant, given what
    the program knows. What it knows must be stable, that is true whatever the
    others do in between. *)
From stdpp Require Import gmap.
From S2P Require Import Prelude.
From S2P Require Import Errors.
From S2P Require Import Lifecycle.
From S2P Require Import RetryScheduler.
From S2P Require Import PipeWireHealth.
From S2P Require Import SessionInputs.
From S2P Require Import Bootstrap.
From S2P Require Import Supervisor.
From S2P Require Import Transactions.
From S2P Require Import Daemon.

Abbreviation gen w := (Lifecycle.generation (lifecycle (runtime w))).

Definition published (r : AppRuntimeState) : list CaptureKey := option_list (rt_capture r).

(** The operations that are pending or in the lane. *)
Definition operations (lane : list ScheduledOperation) (s : SchedulerState) : list ScheduledOperation :=
  lane ++ option_list (operation <$> pending s).

Section invariant.
(** Whether the runtime's mutex is never poisoned. *)
Variable clean : bool.

(** [hb] and [hs] are the backends and sessions that the worker holds. *)
Record inv (hb hs : list CaptureKey) (lane : list ScheduledOperation) (w : World) : Prop := mkInv {
  i_backends : backends w ≡ₚ published (runtime w) ++ hb;
  i_sessions : sessions w ≡ₚ published (runtime w) ++ hs;
  i_distinct : NoDup (backends w) /\ NoDup (sessions w);
  i_keys : forall k, k ∈ backends w \/ is_Some (healths w !! k) -> k < next_key w;
  i_held : forall k, k ∈ sessions w -> k ∈ backends w;
  i_session : session (runtime w) = rt_capture (runtime w);
  i_running : is_Some (rt_capture (runtime w)) ->
    capture_state (lifecycle (runtime w)) = Running /\ next_retry_at (lifecycle (runtime w)) = None;
  i_health : forall k, capture_health (runtime w) = Some k ->
    rt_capture (runtime w) = Some k
    /\ exists h s, healths w !! k = Some h /\ armed h = true /\ normal_stop h = false /\ health_sink h = Some s
       /\ (stop_flag w = false -> sink_generation s = gen w);
  i_dropped : forall k h, healths w !! k = Some h -> k ∉ backends w -> normal_stop h = true;
  i_sinks : forall k h s, healths w !! k = Some h -> armed h = true -> health_sink h = Some s -> stop_flag w = false ->
    sink_generation s <= gen w;
  i_stop : stop_flag w = stopped (scheduler w);
  i_stopping : daemon_state (lifecycle (runtime w)) = Stopping -> stop_flag w = true;
  i_generation : stop_flag w = false -> generation (scheduler w) = gen w;
  i_retries : stop_flag w = false -> forall g, Retry g ∈ operations lane (scheduler w) ->
    g <= gen w /\ (g = gen w -> rt_capture (runtime w) = None);
  i_clean : clean = true -> poisoned w = false;
  i_range : 0 <= gen w <= u64_max /\ 0 <= operation_epoch w;
}.

(** Every announced retry is pending, or in the lane. *)
Definition retry_kept (lane : list ScheduledOperation) (w : World) : Prop :=
  clean = true -> stop_flag w = false -> gen w < u64_max -> forall due, next_retry_at (lifecycle (runtime w)) = Some due ->
  pending (scheduler w) = Some (PendingRetry (gen w) due) \/ Retry (gen w) ∈ lane.

(** ** The other threads *)

Inductive other : list ScheduledOperation * World -> list ScheduledOperation * World -> Prop :=
  | other_fault lane w k e : other (lane, w) (lane, report_fault k e w)
  | other_submit lane w p : stopped (scheduler w) = false -> pending (scheduler w) = Some p ->
      other (lane, w) (lane ++ [operation p], w <| scheduler ::= fun c => c <| pending := None |> |>)
  | other_stop lane w : other (lane, w) (lane, (begin_new_operation_generation DirectStop w).1)
  | other_force lane w : other (lane, w) (lane, force_shutdown w)
  | other_poison lane w : clean <> true -> other (lane, w) (lane, w <| poisoned := true |>).

Definition Knows := list ScheduledOperation -> World -> Prop.

Definition stable (hb hs : list CaptureKey) (Q : Knows) : Prop := forall lane w lane' w',
  inv hb hs lane w -> other (lane, w) (lane', w') -> Q lane w -> Q lane' w'.

(** What a section leaves and the next one finds: the runtime state and the
    epoch, unless the daemon is stopped in between, and that all retries are of
    generations below [fresh]. A stop leaves the published capture and the
    prepared configuration. *)
Record knows (r : AppRuntimeState) (epoch fresh : Z) (lane : list ScheduledOperation) (w : World) : Prop := mkKnows {
  k_capture : rt_capture (runtime w) = rt_capture r /\ prepared_legacy (runtime w) = prepared_legacy r;
  k_rest : stop_flag w = false -> runtime w = r /\ operation_epoch w = epoch
    /\ forall g, Retry g ∈ operations lane (scheduler w) -> g < fresh;
}.

Definition stopping : Knows := fun _ w => stop_flag w = true.

(** No retry is announced, or none can be. *)
Definition settled : Knows := fun _ w =>
  stop_flag w = false -> next_retry_at (lifecycle (runtime w)) = None \/ gen w = u64_max.

(** The health of a capture that the worker holds and has not published. *)
Definition unarmed (k : CaptureKey) (sink : option RuntimeFaultSink) : Knows := fun _ w =>
  forall s, sink = Some s -> exists h, healths w !! k = Some h /\ armed h = false /\ normal_stop h = false /\ health_sink h = Some s.

Definition both (P Q : Knows) : Knows := fun lane w => P lane w /\ Q lane w.

(** ** Programs *)

Fixpoint wp {A} (p : Prog A) (hb hs : list CaptureKey) (Q : Knows) (Post : A -> list CaptureKey -> list CaptureKey -> Knows -> Prop)
    : Prop :=
  match p with
  | Ret a => Post a hb hs Q
  | Step f next => forall lane w, inv hb hs lane w -> Q lane w ->
      exists hb' hs' Q', inv hb' hs' lane (f w).1 /\ Q' lane (f w).1 /\ stable hb' hs' Q' /\ wp (next (f w).2) hb' hs' Q' Post
  | Abort => hb = [] /\ hs = []
  end.

Lemma wp_mono {A} (p : Prog A) hb hs Q (P1 P2 : A -> list CaptureKey -> list CaptureKey -> Knows -> Prop) :
  (forall a hb hs Q, P1 a hb hs Q -> P2 a hb hs Q) -> wp p hb hs Q P1 -> wp p hb hs Q P2.
Proof.
  intros HP. revert hb hs Q. induction p as [a|B f next IH|]; intros hb hs Q; cbn [wp]; [apply HP| |done].
  intros H lane w Hi HQ. destruct (H lane w Hi HQ) as (hb' & hs' & Q' & H1 & H2 & H3 & H4). exists hb', hs', Q'. split_and!; try done. by apply IH.
Qed.

Lemma wp_bind {A C} (p : Prog A) (q : A -> Prog C) hb hs Q Post :
  wp p hb hs Q (fun a hb hs Q => wp (q a) hb hs Q Post) -> wp (then_do p q) hb hs Q Post.
Proof.
  revert hb hs Q. induction p as [a|B f next IH|]; intros hb hs Q; cbn [wp then_do]; [done| |done].
  intros H lane w Hi HQ. destruct (H lane w Hi HQ) as (hb' & hs' & Q' & H1 & H2 & H3 & H4). exists hb', hs', Q'. split_and!; try done. by apply IH.
Qed.

Lemma wp_section {B} (f : World -> World * B) hb hs Q Post :
  (forall lane w, inv hb hs lane w -> Q lane w ->
     exists hb' hs' Q', inv hb' hs' lane (f w).1 /\ Q' lane (f w).1 /\ stable hb' hs' Q' /\ Post (f w).2 hb' hs' Q') ->
  wp (section f) hb hs Q Post.
Proof. exact id. Qed.

Lemma wp_ask {B} (f : World -> B) hb hs Q Post :
  (forall lane w, inv hb hs lane w -> Q lane w -> exists Q', Q' lane w /\ stable hb hs Q' /\ Post (f w) hb hs Q') ->
  wp (ask f) hb hs Q Post.
Proof. intros H lane w Hi HQ. destruct (H lane w Hi HQ) as (Q' & ? & ? & ?). exists hb, hs, Q'. by split_and!. Qed.
End invariant.
