(* ===== verification/SupervisorEnv.v ===== *)
(** * What the other threads keep

    The invariant of [SupervisorSpec] is kept by every step of another thread,
    and so is what a program may know: facts about the runtime state and the
    epoch while the daemon is not stopped, and about the health of a capture
    that is not published. *)
From stdpp Require Import gmap.
From S2P Require Import Prelude.
From S2P Require Import Errors.
From S2P Require Import Lifecycle.
From S2P Require Import RetryScheduler.
From S2P Require Import PipeWireHealth.
From S2P Require Import SessionInputs.
From S2P Require Import Bootstrap.
From S2P Require Import Supervisor.
From S2P Require Import Transactions.
From S2P Require Import Daemon.
From S2P Require Import SupervisorSpec.

(** ** Reports *)

(** A report is of the sink of a health that is armed and not stopped. *)
Definition reported_by (h : PipeWireHealthState) (n : option Notification) : Prop :=
  forall s f, n = Some (s, f) -> normal_stop h = false /\ armed h = true /\ health_sink h = Some s.

Lemma pending_spec' h h' n : pending_notification h = (h', n) ->
  armed h' = armed h /\ health_sink h' = health_sink h /\ normal_stop h' = normal_stop h /\ reported_by h n.
Proof.
  unfold pending_notification, reported_by. destruct (normal_stop h || negb (armed h)) eqn:E; [by intros [= <- <-]|].
  apply orb_false_iff in E as [En Ea%negb_false_iff]. destruct (health_sink h) as [k|] eqn:Ek; [|intros [= <- <-]; by rewrite Ek].
  destruct (match notified_sink h with Some n0 => _ | None => _ end); [intros [= <- <-]; by rewrite Ek|].
  destruct (fault h); intros [= <- <-]; cbn; rewrite ?Ek; split_and!; try done. by intros s f' [= <- _].
Qed.

Lemma observe_spec e h h' b n : observe_runtime_fault e h = (h', (b, n)) ->
  armed h' = armed h /\ health_sink h' = health_sink h /\ normal_stop h' = normal_stop h /\ reported_by h n.
Proof.
  unfold observe_runtime_fault, record_fatal. destruct (normal_stop h || _); [by intros [= <- <- <-]|].
  destruct (pending_notification _) as [h1 m] eqn:E. intros [= <- <- <-]. by apply pending_spec' in E.
Qed.

Lemma report_keeps n s : (forall k f, n = Some (k, f) -> stopped s = false -> sink_generation k <= generation s) ->
  generation (report n s) = generation s /\ stopped (report n s) = stopped s
  /\ forall lane g, Retry g ∈ operations lane (report n s) -> Retry g ∈ operations lane s.
Proof.
  destruct n as [[k f]|]; [|done]. intros H. unfold report, sink_report, notify_fault. destruct (stopped s) eqn:Es; [done|].
  cbn [orb]. destruct (Z.ltb_spec (sink_generation k) (generation s)); [by rewrite Es|]. cbn. specialize (H k f eq_refl eq_refl).
  split_and!; [lia|done|]. intros lane g. unfold operations. cbn. rewrite !elem_of_app. intros [?|Hg]; [by left|].
  by apply list_elem_of_singleton in Hg.
Qed.

(** ** Steps of the other threads *)

Section invariant.
Variable clean : bool.
Abbreviation inv := (inv clean).
Abbreviation stable := (stable clean).

Lemma report_fault_world k e w : report_fault k e w = w \/
  exists h h' n, healths w !! k = Some h /\ armed h' = armed h /\ health_sink h' = health_sink h /\ normal_stop h' = normal_stop h
    /\ reported_by h n /\ report_fault k e w = w <| healths ::= <[k := h']> |> <| scheduler ::= report n |>.
Proof.
  unfold report_fault, on_health. destruct (healths w !! k) as [h|] eqn:E; [|by left]. right.
  destruct (observe_runtime_fault e h) as [h' [b n]] eqn:Eo. exists h, h', n. cbn. apply observe_spec in Eo as (? & ? & ? & ?).
  split_and!; done.
Qed.

(** The facts about healths and the scheduler follow one change of a health. *)
Lemma inv_report hb hs lane w k h h' n : inv hb hs lane w -> healths w !! k = Some h ->
  armed h' = armed h -> health_sink h' = health_sink h -> normal_stop h' = normal_stop h -> reported_by h n ->
  inv hb hs lane (w <| healths ::= <[k := h']> |> <| scheduler ::= report n |>).
Proof.
  intros [] Hk Ha Hs Hn Hr.
  destruct (report_keeps n (scheduler w)) as (Hg & Hst & Hops).
  { intros s f Hsf Hstop. rewrite <-i_stop in Hstop. rewrite i_generation by done. destruct (Hr s f Hsf) as (_ & ? & ?). by eapply i_sinks. }
  assert (forall k0 h0, <[k := h']> (healths w) !! k0 = Some h0 ->
    exists h1, healths w !! k0 = Some h1 /\ armed h0 = armed h1 /\ health_sink h0 = health_sink h1 /\ normal_stop h0 = normal_stop h1) as Hl.
  { intros k0 h0. destruct (decide (k = k0)) as [<-|]; [rewrite lookup_insert_eq; intros [= <-]; by exists h|].
    rewrite lookup_insert_ne by done. intros ?. by exists h0. }
  constructor; cbn; try done; rewrite ?Hg, ?Hst; try done.
  - intros k0 [?|[h0 (h1 & ? & _)%Hl]]; apply i_keys; [by left|right; by exists h1].
  - intros k0 Hc. destruct (i_health k0 Hc) as (? & h1 & s & H1 & H2 & H3 & H4 & H5). split; [done|].
    destruct (decide (k = k0)) as [<-|]; [|exists h1, s; rewrite lookup_insert_ne by done; done].
    exists h', s. rewrite lookup_insert_eq. assert (h1 = h) as -> by congruence. split_and!; (done || congruence).
  - intros k0 h0 (h1 & ? & _ & _ & E)%Hl Hb. rewrite E. by eapply i_dropped.
  - intros k0 h0 s (h1 & ? & E1 & E2 & _)%Hl A S. eapply i_sinks; [done|congruence..].
  - intros Hstop g Hin. eapply i_retries; [done|]. by apply Hops.
Qed.

Lemma inv_scheduler hb hs lane lane' w c : inv hb hs lane w -> stopped c = stopped (scheduler w) ->
  (stop_flag w = false -> generation c = generation (scheduler w)) ->
  (forall g, Retry g ∈ operations lane' c -> Retry g ∈ operations lane (scheduler w)) ->
  inv hb hs lane' (w <| scheduler := c |>).
Proof.
  intros [] Hs Hg Ho. constructor; cbn; try done.
  - congruence.
  - intros Hstop. rewrite Hg by done. by apply i_generation.
  - intros Hstop g Hin. by apply i_retries, Ho.
Qed.

Lemma inv_poison hb hs lane w b : inv hb hs lane w -> (clean = true -> b = false) -> inv hb hs lane (w <| poisoned := b |>).
Proof. intros [] ?. by constructor. Qed.

(** After a stop the facts about generations are void. *)
Lemma inv_stopped hb hs lane w w' : inv hb hs lane w ->
  rt_capture (runtime w') = rt_capture (runtime w) -> session (runtime w') = session (runtime w) ->
  capture_health (runtime w') = capture_health (runtime w) ->
  capture_state (lifecycle (runtime w')) = capture_state (lifecycle (runtime w)) ->
  (next_retry_at (lifecycle (runtime w')) = None \/ next_retry_at (lifecycle (runtime w')) = next_retry_at (lifecycle (runtime w))) ->
  backends w' = backends w -> sessions w' = sessions w -> healths w' = healths w -> next_key w' = next_key w ->
  0 <= gen w' <= u64_max -> 0 <= operation_epoch w' -> stopped (scheduler w') = true -> stop_flag w' = true ->
  (clean = true -> poisoned w' = false) -> inv hb hs lane w'.
Proof.
  intros [] Hc Hs Hh Hcs Hn Eb Es Em Ek Hg He Hst Hstop Hp. constructor; unfold published in *;
    rewrite ?Hc, ?Hs, ?Hh, ?Hcs, ?Eb, ?Es, ?Em, ?Ek; try done; try congruence.
  - intros Hr. apply i_running in Hr as [? ?]. split; [done|]. destruct Hn; congruence.
  - intros k Hk. destruct (i_health k Hk) as (? & h & s & ? & ? & ? & ? & _). split; [done|]. exists h, s. split_and!; congruence.
Qed.

Lemma direct_stop_cases w : (begin_new_operation_generation DirectStop w).1 = w \/
  exists e g, (begin_new_operation_generation DirectStop w).1 =
    w <| runtime ::= set_lifecycle (fun l => mark_stopping (l <| Lifecycle.generation := g |>)) |> <| operation_epoch := e |>
      <| scheduler ::= fun c => stop (invalidate g c) |> <| stop_flag := true |> <| poisoned := false |>
    /\ 0 <= e /\ 0 <= g <= u64_max.
Proof.
  unfold begin_new_operation_generation. destruct (stop_flag w); [by left|]. destruct (add_checked _ 1) as [e|] eqn:Ee; [|by left].
  rewrite begin_operation_run. case_bool_decide; [by left|]. destruct (add_checked (Lifecycle.generation _) 1) as [g|] eqn:Eg; [|by left].
  right. exists e, g. apply add_checked_inv in Ee, Eg. split; [done|lia].
Qed.

Lemma inv_direct_stop hb hs lane w : inv hb hs lane w -> inv hb hs lane (begin_new_operation_generation DirectStop w).1.
Proof.
  intros Hi. destruct (direct_stop_cases w) as [->|(e & g & -> & ? & ?)]; [done|].
  eapply inv_stopped; [exact Hi|try done; cbn; try lia; try (by left)..].
Qed.

Lemma inv_force hb hs lane w : inv hb hs lane w -> inv hb hs lane (force_shutdown w).
Proof. intros Hi. eapply inv_stopped; [exact Hi|try done; try (by left)..]; apply Hi. Qed.

Lemma inv_other hb hs lane w lane' w' : inv hb hs lane w -> other clean (lane, w) (lane', w') -> inv hb hs lane' w'.
Proof.
  intros Hi Ho. inversion Ho; subst.
  - destruct (report_fault_world k e w) as [->|(h & h' & n & ? & ? & ? & ? & ? & ->)]; [done|]. by eapply inv_report.
  - apply (inv_scheduler hb hs lane); try done. intros g. unfold operations. cbn. rewrite H4. cbn. by rewrite app_nil_r.
  - by apply inv_direct_stop.
  - by apply inv_force.
  - apply inv_poison; tauto.
Qed.

(** ** What a program may know *)

Lemma stable_knows hb hs r e f : stable hb hs (knows r e f).
Proof.
  intros lane w lane' w' Hi Ho [Hc Hr]. inversion Ho; subst.
  - destruct (report_fault_world k e0 w) as [->|(h & h' & n & ? & ? & ? & ? & Hrep & ->)]; [done|]. constructor; cbn; [done|].
    intros Hs. destruct (Hr Hs) as (? & ? & Hf). split_and!; try done. intros g Hg. apply Hf. revert Hg.
    apply report_keeps. intros s fl Hsf Hst. destruct (Hrep s fl Hsf) as (_ & ? & ?).
    rewrite (i_generation _ _ _ _ _ Hi Hs). by eapply Hi.
  - constructor; cbn; [done|]. intros Hs. destruct (Hr Hs) as (? & ? & Hf). split_and!; try done. intros g Hg. apply Hf.
    revert Hg. unfold operations. cbn. rewrite H4. cbn. by rewrite app_nil_r.
  - by destruct (direct_stop_cases w) as [->|(e' & g & -> & _)]; constructor.
  - by constructor.
  - by constructor.
Qed.

Lemma stable_stopping hb hs : stable hb hs stopping.
Proof.
  intros lane w lane' w' _ Ho. unfold stopping. inversion Ho; subst; try done.
  - by destruct (report_fault_world k e w) as [->|(h & h' & n & _ & _ & _ & _ & _ & ->)].
  - by destruct (direct_stop_cases w) as [->|(e & g & -> & _)].
Qed.

Lemma stable_settled hb hs : stable hb hs settled.
Proof.
  intros lane w lane' w' _ Ho Hq. unfold settled. inversion Ho; subst; try done.
  - by destruct (report_fault_world k e w) as [->|(h & h' & n & _ & _ & _ & _ & _ & ->)].
  - by destruct (direct_stop_cases w) as [->|(e & g & -> & _)].
Qed.

Lemma settled_kept lane w : settled lane w -> inv [] [] lane w -> retry_kept clean lane w.
Proof. intros Hq _ _ Hs Hg due Hd. destruct (Hq Hs); [congruence|lia]. Qed.

Lemma stable_unarmed hb hs k sink : stable hb hs (unarmed k sink).
Proof.
  intros lane w lane' w' _ Ho Hu s Hs. destruct (Hu s Hs) as (h & H1 & H2 & H3 & H4). inversion Ho; subst; try by exists h.
  - destruct (report_fault_world k0 e w) as [->|(h0 & h' & n & ? & ? & ? & ? & _ & ->)]; [by exists h|]. cbn.
    destruct (decide (k0 = k)) as [->|]; [|exists h; by rewrite lookup_insert_ne]. exists h'. rewrite lookup_insert_eq.
    assert (h0 = h) as -> by congruence. split_and!; congruence.
  - destruct (direct_stop_cases w) as [->|(e & g & -> & _)]; by exists h.
Qed.

Lemma stable_both hb hs P Q : stable hb hs P -> stable hb hs Q -> stable hb hs (both P Q).
Proof. intros HP HQ lane w lane' w' Hi Ho [? ?]. split; [by eapply HP|by eapply HQ]. Qed.

(** With nothing published and nothing held no health reports. *)
Lemma silent lane w k e : inv [] [] lane w -> rt_capture (runtime w) = None ->
  report_fault k e w = w \/ exists h', report_fault k e w = w <| healths ::= <[k := h']> |>.
Proof.
  intros Hi Hc. destruct (report_fault_world k e w) as [->|(h & h' & n & Hk & _ & _ & _ & Hr & ->)]; [by left|]. right. exists h'.
  destruct n as [[s f]|]; [|done]. destruct (Hr s f eq_refl) as (Hn & _). exfalso.
  pose proof (i_backends _ _ _ _ _ Hi) as Hb. unfold published in Hb. rewrite Hc in Hb. apply Permutation_nil_r in Hb.
  enough (normal_stop h = true) by congruence. eapply Hi; [done|]. rewrite Hb. by apply not_elem_of_nil.
Qed.

Lemma stable_kept : stable [] [] (retry_kept clean).
Proof.
  intros lane w lane' w' Hi Ho Hk. inversion Ho; subst.
  - intros Hc Hs Hg due Hd.
    assert (runtime (report_fault k e w) = runtime w /\ stop_flag (report_fault k e w) = stop_flag w) as [E1 E2].
    { by destruct (report_fault_world k e w) as [->|(h & h' & n & _ & _ & _ & _ & _ & ->)]. }
    rewrite E1, E2 in *. assert (rt_capture (runtime w) = None) as Hnone.
    { destruct (rt_capture (runtime w)) eqn:E; [|done]. destruct (i_running _ _ _ _ _ Hi) as [_ ?]; [by rewrite E|congruence]. }
    destruct (silent lane' w k e Hi Hnone) as [->|[h' ->]]; cbn; by apply Hk.
  - intros Hc Hs Hg due Hd. cbn in *. right. destruct (Hk Hc Hs Hg due Hd) as [Hp|]; [|set_solver].
    assert (p = PendingRetry (gen w) due) as -> by congruence. set_solver.
  - destruct (direct_stop_cases w) as [->|(e & g & -> & _)]; [done|]. by intros _ ?.
  - by intros _ ?.
  - done.
Qed.
End invariant.
