(* ===== verification/SupervisorSections.v ===== *)
(** * What the sections keep

    One lemma for every section of [Supervisor] and [Transactions]: it keeps the
    invariant, and what the operation knows afterwards. *)
From stdpp Require Import gmap.
From S2P Require Import Prelude.
From S2P Require Import Errors.
From S2P Require Import Lifecycle.
From S2P Require Import RetryScheduler.
From S2P Require Import PipeWireHealth.
From S2P Require Import SessionInputs.
From S2P Require Import Bootstrap.
From S2P Require Import Supervisor.
From S2P Require Import Transactions.
From S2P Require Import Daemon.
From S2P Require Import SupervisorSpec.
From S2P Require Import SupervisorEnv.

Section invariant.
Variable clean : bool.
Abbreviation inv := (inv clean).

(** ** Changes of the runtime state and the scheduler *)

(** The healths may change, but none is stopped or added. *)
Definition healths_after (m m' : gmap CaptureKey PipeWireHealthState) : Prop :=
  forall k h', m' !! k = Some h' -> exists h, m !! k = Some h /\ normal_stop h' = normal_stop h.

Lemma healths_same m : healths_after m m.
Proof. intros k h ?. by exists h. Qed.

Lemma inv_update hb hs lane w hb' hs' w' : inv hb hs lane w ->
  backends w' = backends w -> sessions w' = sessions w -> next_key w' = next_key w -> stop_flag w' = stop_flag w ->
  stopped (scheduler w') = stopped (scheduler w) -> healths_after (healths w) (healths w') ->
  published (runtime w') ++ hb' ≡ₚ published (runtime w) ++ hb -> published (runtime w') ++ hs' ≡ₚ published (runtime w) ++ hs ->
  session (runtime w') = rt_capture (runtime w') ->
  (is_Some (rt_capture (runtime w')) -> capture_state (lifecycle (runtime w')) = Running /\ next_retry_at (lifecycle (runtime w')) = None) ->
  (forall k, capture_health (runtime w') = Some k -> rt_capture (runtime w') = Some k
     /\ exists h s, healths w' !! k = Some h /\ armed h = true /\ normal_stop h = false /\ health_sink h = Some s
        /\ (stop_flag w = false -> sink_generation s = gen w')) ->
  (forall k h s, healths w' !! k = Some h -> armed h = true -> health_sink h = Some s -> stop_flag w = false -> sink_generation s <= gen w') ->
  (daemon_state (lifecycle (runtime w')) = Stopping -> stop_flag w = true) ->
  (stop_flag w = false -> generation (scheduler w') = gen w') ->
  (stop_flag w = false -> forall g, Retry g ∈ operations lane (scheduler w') -> g <= gen w' /\ (g = gen w' -> rt_capture (runtime w') = None)) ->
  (clean = true -> poisoned w' = false) -> 0 <= gen w' <= u64_max -> 0 <= operation_epoch w' ->
  inv hb' hs' lane w'.
Proof.
  intros [] Eb Es Ek Est Esc Em Pb Ps Hse Hr Hh Hs Hstop Hg Hre Hp Hra He. constructor; rewrite ?Eb, ?Es, ?Ek, ?Est, ?Esc; try done.
  - by rewrite Pb.
  - by rewrite Ps.
  - intros k [?|[h (h0 & ? & _)%Em]]; apply i_keys; [by left|right; by exists h0].
  - intros k h (h0 & Hk & ->)%Em. by apply i_dropped.
Qed.

(** Only the epoch, the counter of attempts and the poison change. *)
Lemma inv_counters hb hs lane w w' : inv hb hs lane w ->
  runtime w' = runtime w -> scheduler w' = scheduler w -> backends w' = backends w -> sessions w' = sessions w -> healths w' = healths w ->
  next_key w' = next_key w -> stop_flag w' = stop_flag w -> (clean = true -> poisoned w' = false) -> 0 <= operation_epoch w' ->
  inv hb hs lane w'.
Proof.
  intros Hi Er Ec Eb Es Em Ek Est Hp He. eapply inv_update; try exact Hi; rewrite ?Er, ?Ec, ?Em; try done; try apply Hi.
  apply healths_same.
Qed.

Lemma inv_clear_poison hb hs lane w : inv hb hs lane w -> inv hb hs lane (clear_poison w).
Proof. intros Hi. by apply inv_poison. Qed.

Lemma inv_fatal hb hs lane w m : inv hb hs lane w -> inv hb hs lane (signal_fatal m w).
Proof. intros Hi. eapply inv_stopped; [exact Hi|try done; try (by right); try apply Hi..]. Qed.

(** ** Captures *)

Lemma remove_key_perm k l l' : NoDup l -> l ≡ₚ k :: l' -> remove_key k l ≡ₚ l'.
Proof.
  intros Hn Hp. unfold remove_key. assert (NoDup (k :: l')) as [Hk Hn']%NoDup_cons by (by rewrite <-Hp).
  assert (forall x y : list Z, x ≡ₚ y -> List.filter (fun x => negb (x =? k)) x ≡ₚ List.filter (fun x => negb (x =? k)) y) as Hf.
  { intros x y. induction 1; cbn; repeat case_match; by econstructor. }
  rewrite (Hf _ _ Hp). cbn. rewrite Z.eqb_refl. cbn. clear -Hk. induction l' as [|x l IH]; [done|].
  apply not_elem_of_cons in Hk as [? ?]. cbn. destruct (Z.eqb_spec x k); [done|]. cbn. by rewrite IH.
Qed.

Lemma NoDup_remove_key k l : NoDup l -> NoDup (remove_key k l).
Proof. unfold remove_key. induction 1; cbn; [constructor|]. case_match; [|done]. constructor; [|done]. rewrite list_elem_of_In, filter_In, <-list_elem_of_In. tauto. Qed.

Lemma elem_of_remove_key k x l : x ∈ remove_key k l <-> x ∈ l /\ x <> k.
Proof. unfold remove_key. rewrite !list_elem_of_In, filter_In, negb_true_iff, Z.eqb_neq. done. Qed.

(** Dropping what is held. *)
Lemma inv_drop hb hs lane w k s : inv (k :: hb) (option_list s ++ hs) lane w -> (s = Some k \/ s = None /\ k ∉ hs) ->
  inv hb hs lane (drop_capture_then_session (Some k, s) w).
Proof.
  intros [] Hs.
  set (m := match healths w !! k with Some h => <[k := mark_normal_stop h]> (healths w) | None => healths w end).
  assert (drop_capture_then_session (Some k, s) w = w <| healths := m |> <| backends ::= remove_key k |>
            <| sessions ::= match s with Some k => remove_key k | None => id end |>) as ->.
  { unfold drop_capture_then_session, drop_backend, on_health, m. cbn. destruct (healths w !! k), s; by destruct w. }
  assert (k ∉ published (runtime w)) as Hk.
  { destruct i_distinct as [Hn _]. rewrite i_backends, NoDup_app in Hn. destruct Hn as (_ & Hn & _). intros Hp. apply (Hn k Hp). by left. }
  assert (forall k0 h, m !! k0 = Some h -> exists h0, healths w !! k0 = Some h0 /\ (k0 <> k -> h = h0) /\ (k0 = k -> h = mark_normal_stop h0)) as Hm.
  { intros k0 h. unfold m. destruct (healths w !! k) as [h1|] eqn:E.
    - destruct (decide (k0 = k)) as [->|]; [rewrite lookup_insert_eq; intros [= <-]; by exists h1|].
      rewrite lookup_insert_ne by done. by exists h.
    - intros Hh. exists h. split_and!; [done..|]. congruence. }
  constructor; cbn; try done.
  - apply remove_key_perm; [apply i_distinct|]. rewrite i_backends. solve_Permutation.
  - destruct Hs as [->|[-> Hs]]; [|by rewrite i_sessions]. apply remove_key_perm; [apply i_distinct|]. rewrite i_sessions. solve_Permutation.
  - destruct i_distinct. split; [by apply NoDup_remove_key|]. destruct s; [by apply NoDup_remove_key|done].
  - intros k0 [[? _]%elem_of_remove_key|[h (h0 & ? & _)%Hm]]; apply i_keys; [by left|right; by exists h0].
  - intros k0 Hk0. apply elem_of_remove_key. assert (k0 ∈ sessions w) as Hin.
    { destruct Hs as [->|[-> _]]; [by apply elem_of_remove_key in Hk0 as [? _]|exact Hk0]. }
    split; [by apply i_held|]. intros ->. destruct Hs as [->|[-> Hs]]; [by apply elem_of_remove_key in Hk0 as [_ ?]|].
    rewrite i_sessions in Hin. apply elem_of_app in Hin as [?|?]; done.
  - intros k0 Hc. destruct (i_health k0 Hc) as (Hr & h & s0 & Hh & H1). split; [done|].
    assert (k0 <> k) as Hne. { intros ->. apply Hk. unfold published. rewrite Hr. by left. }
    exists h, s0. split; [|done]. unfold m. destruct (healths w !! k); [by rewrite lookup_insert_ne|done].
  - intros k0 h (h0 & Hh & Hne & He)%Hm Hb. destruct (decide (k0 = k)) as [Hkk|Hkk]; [by rewrite (He Hkk)|]. rewrite (Hne Hkk).
    eapply i_dropped; [done|]. intros Hin. apply Hb. by apply elem_of_remove_key.
  - intros k0 h s0 (h0 & Hh & Hne & He)%Hm A S. destruct (decide (k0 = k)) as [Hkk|Hkk]; [by rewrite (He Hkk) in A|].
    rewrite (Hne Hkk) in *. by eapply i_sinks.
Qed.

Lemma inv_add_backend hs lane w sink : inv [] hs lane w ->
  inv [next_key w] hs lane (add_backend sink w).1 /\ unarmed (next_key w) sink lane (add_backend sink w).1.
Proof.
  intros []. split.
  2: { intros s ->. eexists. cbn. by rewrite lookup_insert_eq. }
  assert (next_key w ∉ backends w) as Hfresh. { intros Hin. specialize (i_keys (next_key w) (or_introl Hin)). lia. }
  assert (healths w !! next_key w = None) as Hnone.
  { destruct (healths w !! next_key w) eqn:E; [|done]. specialize (i_keys (next_key w) (or_intror (mk_is_Some _ _ E))). lia. }
  destruct sink as [s|]; constructor; cbn; try done.
  all: try (rewrite i_backends; solve_Permutation).
  all: try (destruct i_distinct; split; [by constructor|done]).
  all: try (intros k Hk; right; by apply i_held).
  - intros k [[->|?]%elem_of_cons|Hk]; [lia|specialize (i_keys k ltac:(by left)); lia|].
    destruct (decide (k = next_key w)) as [->|]; [lia|]. rewrite lookup_insert_ne in Hk by done. specialize (i_keys k ltac:(by right)). lia.
  - intros k Hc. destruct (i_health k Hc) as (? & h & s0 & Hh & Hrest). split; [done|]. exists h, s0. split; [|done].
    rewrite lookup_insert_ne; [done|]. intros <-. congruence.
  - intros k h Hh Hk. apply not_elem_of_cons in Hk as [? ?]. rewrite lookup_insert_ne in Hh by done. by eapply i_dropped.
  - intros k h s0 Hh A S. destruct (decide (k = next_key w)) as [->|]; [rewrite lookup_insert_eq in Hh; by injection Hh as <-|].
    rewrite lookup_insert_ne in Hh by done. by eapply i_sinks.
  - intros k [[->|?]%elem_of_cons|Hk]; [lia|specialize (i_keys k ltac:(by left)); lia|specialize (i_keys k ltac:(by right)); lia].
  - intros k h Hh Hk. apply not_elem_of_cons in Hk as [? ?]. by eapply i_dropped.
Qed.

Lemma inv_add_session k lane w : inv [k] [] lane w -> inv [k] [k] lane (add_session k w).
Proof.
  intros []. constructor; cbn; try done.
  - rewrite i_sessions. solve_Permutation.
  - destruct i_distinct as [Hb Hs]. split; [done|]. constructor; [|done]. rewrite i_sessions, app_nil_r. intros Hin.
    rewrite i_backends, NoDup_app in Hb. destruct Hb as (_ & Hb & _). apply (Hb k Hin). by left.
  - intros k0 [->|?]%elem_of_cons; [|by apply i_held]. rewrite i_backends. set_solver.
Qed.

(** ** Healths *)

(** Arming the health of a held or published capture, with its report. *)
Lemma pending_armed h h' n : pending_notification h = (h', n) -> armed h' = armed h /\ health_sink h' = health_sink h
  /\ normal_stop h' = normal_stop h /\ (forall s f, n = Some (s, f) -> health_sink h = Some s).
Proof. intros (? & ? & ? & Hr)%pending_spec'. split_and!; try done. intros s f Hn. by destruct (Hr s f Hn) as (_ & _ & ?). Qed.

Lemma arm_spec h s : normal_stop h = false -> health_sink h = Some s -> exists h' n, arm h = (h', n)
  /\ armed h' = true /\ health_sink h' = Some s /\ normal_stop h' = false /\ forall s' f, n = Some (s', f) -> s' = s.
Proof.
  intros Hn Hs. unfold arm. rewrite Hn. destruct (pending_notification _) as [h' n] eqn:E. exists h', n.
  apply pending_armed in E as (? & E1 & E2 & E3). cbn in *. split_and!; try congruence. intros s' f Hsf. specialize (E3 _ _ Hsf). congruence.
Qed.

Lemma rebind_spec h s : normal_stop h = false -> exists h' n, rebind_and_arm s h = (h', n)
  /\ armed h' = true /\ health_sink h' = Some s /\ normal_stop h' = false /\ forall s' f, n = Some (s', f) -> s' = s.
Proof.
  intros Hn. unfold rebind_and_arm. rewrite Hn. destruct (pending_notification _) as [h' n] eqn:E. exists h', n.
  apply pending_armed in E as (? & E1 & E2 & E3). cbn in *. split_and!; try congruence. intros s' f Hsf. specialize (E3 _ _ Hsf). congruence.
Qed.

(** A report of the current generation adds no retry. *)
Lemma report_current n s g : (forall s' f, n = Some (s', f) -> sink_generation s' = g) -> (stopped s = false -> generation s = g) ->
  stopped (report n s) = stopped s /\ (stopped s = false -> generation (report n s) = g)
  /\ forall lane g', Retry g' ∈ operations lane (report n s) -> Retry g' ∈ operations lane s.
Proof.
  intros Hn Hs. destruct (report_keeps n s) as (E1 & E2 & E3); [intros k f E Hst; rewrite (Hn _ _ E), (Hs Hst); lia|].
  split_and!; try done. by rewrite E1.
Qed.

(** ** Entering an operation *)

Lemma invalidate_spec g c : (stopped c = false -> generation c <= g) -> stopped (invalidate g c) = stopped c
  /\ (stopped c = false -> generation (invalidate g c) = g /\ pending (invalidate g c) = None).
Proof. intros Hg. unfold invalidate. destruct (Z.ltb_spec g (generation c)); cbn; [split; [done|]|done]. intros Hst. specialize (Hg Hst). lia. Qed.

Lemma in_lane lane c g : pending c = None -> Retry g ∈ operations lane c -> Retry g ∈ lane.
Proof. unfold operations. intros ->. cbn. by rewrite app_nil_r. Qed.

Lemma lane_in lane c g : Retry g ∈ lane -> Retry g ∈ operations lane c.
Proof. unfold operations. rewrite elem_of_app. by left. Qed.

(** What a client's operation knows when it begins; an operation that is
    refused has no effect. *)
Lemma begin_command_spec lane w : inv [] [] lane w ->
  match begin_new_operation_generation Command w with
  | (w', Ok o) => inv [] [] lane w' /\ knows (runtime w') (token o) (op_generation o) lane w' /\ gen w' = op_generation o
  | (w', Err _) => w' = w
  | (_, Panic) => False
  end.
Proof.
  intros Hi. unfold begin_new_operation_generation. destruct (stop_flag w) eqn:Est; [done|].
  destruct (add_checked _ 1) as [e|] eqn:Ee; [|done]. rewrite begin_operation_run. case_bool_decide as Hds; [done|].
  destruct (add_checked (Lifecycle.generation _) 1) as [g|] eqn:Eg; [|done].
  apply add_checked_inv in Ee as [-> ?], Eg as [-> ?]. set (g := gen w + 1) in *. cbn [op_generation token].
  set (w1 := w <| runtime ::= _ |> <| operation_epoch := _ |> <| scheduler ::= _ |> <| poisoned := false |>).
  pose proof Hi as [].
  assert (stopped (scheduler w) = false) as Hsch by congruence.
  assert (generation (scheduler w) <= g) as Hge by (rewrite i_generation by done; lia).
  destruct (invalidate_spec g (scheduler w)) as (Es & Einv); [done|]. destruct (Einv Hsch) as [Egen Epend].
  assert (forall lane g', Retry g' ∈ operations lane (scheduler w1) -> Retry g' ∈ lane) as Hlane by (intros ??; by apply in_lane).
  assert (forall g', Retry g' ∈ lane -> g' < g) as Hold. { intros g' Hin. destruct (i_retries Est g'); [by apply lane_in|lia]. }
  destruct (capture_health (runtime w)) as [k|] eqn:Ek.
  - destruct (i_health k eq_refl) as (Hc & h & s & Hh & Ha & Hn & Hs & Hg).
    assert (health_attempt_id h = Some (sink_attempt_id s)) as Hid by (unfold health_attempt_id; by rewrite Hs).
    assert (healths w1 !! k = Some h) as Hh1 by done. unfold on_health. rewrite Hh1. cbn [mbind option_bind]. rewrite Hid.
    destruct (rebind_spec h (fault_sink g (sink_attempt_id s) 0) Hn) as (h' & n & -> & Ha' & Hs' & Hn' & Hrep).
    destruct (report_current n (scheduler w1) g) as (Er1 & Er2 & Er3); [intros ?? E; by rewrite (Hrep _ _ E)|done|].
    assert (healths_after (healths w) (<[k := h']> (healths w))) as Hafter.
    { intros k0 h0. destruct (decide (k = k0)) as [<-|]; [rewrite lookup_insert_eq; intros [= <-]; exists h; split; congruence|].
      rewrite lookup_insert_ne by done. intros ?. by exists h0. }
    split; [|split; [|done]].
    + eapply inv_update; try exact Hi; try done; cbn; try done; try lia.
      * exact (eq_trans Er1 Es).
      * intros k0 Hk0. rewrite Ek in Hk0. injection Hk0 as <-. split; [done|]. exists h', (fault_sink g (sink_attempt_id s) 0).
        by rewrite lookup_insert_eq.
      * intros k0 h0 s0. destruct (decide (k = k0)) as [<-|]; [rewrite lookup_insert_eq; intros [= <-] _; rewrite Hs'; by intros [= <-]|].
        rewrite lookup_insert_ne by done. intros E1 E2 E3 _. pose proof (i_sinks _ _ _ E1 E2 E3 Est). lia.
      * intros _. exact (Er2 (eq_trans Es Hsch)).
      * intros _ g' Hin. apply Er3, Hlane, Hold in Hin. split; lia.
    + constructor; [done|]. intros _. split_and!; [done..|]. intros g' Hin. by apply Er3, Hlane, Hold in Hin.
  - split; [|split; [|done]].
    + eapply inv_update; try exact Hi; try done; cbn; try done; try lia.
      * apply healths_same.
      * rewrite Ek. done.
      * intros k0 h0 s0 E1 E2 E3 _. pose proof (i_sinks _ _ _ E1 E2 E3 Est). lia.
      * intros _ g' Hin. apply Hlane, Hold in Hin. split; lia.
    + constructor; [done|]. intros _. split_and!; [done..|]. intros g' Hin. by apply Hlane, Hold in Hin.
Qed.

(** What the retry of a generation knows when it begins. *)
Lemma begin_retry_spec lane w : inv [] [] lane w ->
  match begin_command_operation w with
  | (w', Ok token) => inv [] [] lane w' /\ knows (runtime w) token (gen w + 1) lane w' /\ stop_flag w = false
  | (w', Err e) => w' = w /\ (class e <> Fatal -> stop_flag w = true)
  | (_, Panic) => False
  end.
Proof.
  intros Hi. unfold begin_command_operation. destruct (stop_flag w) eqn:Est; [done|]. destruct (add_checked _ 1) as [e|] eqn:Ee; [|done].
  apply add_checked_inv in Ee as [-> ?]. split_and!; [eapply inv_counters; try exact Hi; try done; [apply Hi|cbn; lia]|..].
  2: done. constructor; [done|]. intros _. split_and!; [done..|]. intros g Hin. destruct (i_retries _ _ _ _ _ Hi Est g Hin). lia.
Qed.

(** The sink of an attempt, for the generation in which it will be published. *)
Lemma attempt_sink_spec operation_generation w : exists next, (runtime_fault_sink_for_attempt operation_generation w).1 = w <| next_attempt := next |>
  /\ match (runtime_fault_sink_for_attempt operation_generation w).2 with
     | Ok s => sink_generation s = default (gen w + 1) operation_generation
     | Err _ => True
     | Panic => False
     end.
Proof.
  assert (w = w <| next_attempt := Supervisor.next_attempt w |>) as Hw by (by destruct w).
  unfold runtime_fault_sink_for_attempt, allocate_capture_attempt_id.
  destruct (match operation_generation with Some _ => _ | None => _ end) as [g|e|] eqn:E; [| |by destruct operation_generation, (add_checked (gen w) 1)].
  - assert (g = default (gen w + 1) operation_generation) as ->.
    { destruct operation_generation as [g'|]; [by injection E as ->|]. destruct (add_checked (gen w) 1) eqn:Eg; [|done]. apply add_checked_inv in Eg as [-> _]. by injection E as <-. }
    destruct (add_checked (Supervisor.next_attempt w) 1) eqn:En; [|by exists (Supervisor.next_attempt w)].
    eexists. split; [done|]. cbn. destruct (checked_after _); done.
  - by exists (Supervisor.next_attempt w).
Qed.
End invariant.
