(* ===== verification/SupervisorPublish.v ===== *)
(** * What the publishing sections keep

    The sections that publish a capture, a failure or a fault, or detach what is
    published: each keeps the invariant and what it detaches becomes held. *)
From stdpp Require Import gmap.
From S2P Require Import Prelude.
From S2P Require Import Errors.
From S2P Require Import Lifecycle.
From S2P Require Import RetryScheduler.
From S2P Require Import PipeWireHealth.
From S2P Require Import SessionInputs.
From S2P Require Import Bootstrap.
From S2P Require Import Supervisor.
From S2P Require Import Transactions.
From S2P Require Import Daemon.
From S2P Require Import SupervisorSpec.
From S2P Require Import SupervisorEnv.
From S2P Require Import SupervisorSections.

Section invariant.
Variable clean : bool.
Abbreviation inv := (inv clean).
Abbreviation kept := (retry_kept clean).

(** The keys of what was detached. *)
Definition detached (active : ActiveKeys) (w : World) : Prop := active = (rt_capture (runtime w), session (runtime w)).

Lemma begin_operation_cases l : match begin_operation l with
  | (l', Ok g) => l' = l <| Lifecycle.generation := g |> /\ g = Lifecycle.generation l + 1 /\ g <= u64_max /\ daemon_state l <> Stopping
  | (l', Err _) => l' = l /\ (daemon_state l = Stopping \/ ~ (0 <= Lifecycle.generation l + 1 <= u64_max))
  | (_, Panic) => False
  end.
Proof.
  rewrite begin_operation_run. case_bool_decide; [by split; [|left]|]. destruct (add_checked _ 1) as [g|] eqn:E.
  - apply add_checked_inv in E as [-> ?]. split_and!; (done || lia).
  - apply checked_None in E. split; [done|]. by right.
Qed.

(** A runtime state without a capture is published, what was published is held
    from now on. *)
Lemma inv_detach lane w w' : inv [] [] lane w ->
  rt_capture (runtime w') = None -> session (runtime w') = None -> capture_health (runtime w') = None ->
  backends w' = backends w -> sessions w' = sessions w -> healths w' = healths w -> next_key w' = next_key w -> stop_flag w' = stop_flag w ->
  stopped (scheduler w') = stopped (scheduler w) -> (stop_flag w = false -> gen w <= gen w') ->
  (daemon_state (lifecycle (runtime w')) = Stopping -> stop_flag w = true) ->
  (stop_flag w = false -> generation (scheduler w') = gen w') ->
  (stop_flag w = false -> forall g, Retry g ∈ operations lane (scheduler w') -> g <= gen w') ->
  (clean = true -> poisoned w' = false) -> 0 <= gen w' <= u64_max -> operation_epoch w' = operation_epoch w ->
  inv (option_list (rt_capture (runtime w))) (option_list (rt_capture (runtime w))) lane w'.
Proof.
  intros Hi Hc Hs Hh Eb Es Em Ek Est Esc Hg Hstop Hgen Hre Hp Hra He. pose proof Hi as [].
  eapply inv_update; try exact Hi; rewrite ?Em; try done.
  - apply healths_same.
  - unfold published. rewrite Hc. cbn. by rewrite app_nil_r.
  - unfold published. rewrite Hc. cbn. by rewrite app_nil_r.
  - congruence.
  - rewrite Hc. by intros [? [=]].
  - congruence.
  - intros k h s E1 E2 E3 E4. pose proof (i_sinks _ _ _ E1 E2 E3 E4). specialize (Hg E4). lia.
  - intros E g Hin. split; [by apply Hre|done].
  - lia.
Qed.

(** A capture that runs is published. *)
Lemma not_running_none lane w : inv [] [] lane w -> poisoned w = false -> current_capture_is_running w = false -> rt_capture (runtime w) = None.
Proof.
  intros [] Hp. unfold current_capture_is_running. rewrite Hp, i_session. destruct (rt_capture (runtime w)) eqn:E; [|done].
  destruct i_running as [-> _]; [done|]. done.
Qed.

Definition held_by (f : Failing) : ActiveKeys := match f with FailurePublished active _ => active | _ => (None, None) end.

Lemma schedule_spec g due c : (stopped c = false -> generation c <= g) ->
  stopped (schedule_retry g due c) = stopped c
  /\ (stopped c = false -> generation (schedule_retry g due c) = g /\ pending (schedule_retry g due c) = Some (PendingRetry g due)).
Proof.
  intros Hg. unfold schedule_retry. destruct (stopped c) eqn:E; cbn [orb]; [done|]. specialize (Hg eq_refl).
  destruct (Z.ltb_spec g (generation c)); [lia|]. cbn. by rewrite E.
Qed.

Lemma scheduled_as e w : scheduler (schedule_or_invalidate e w) =
  match class e, next_retry_at (lifecycle (runtime w)) with
  | Transient, Some due => schedule_retry (gen w) due (scheduler w)
  | _, _ => invalidate (gen w) (scheduler w)
  end.
Proof. unfold schedule_or_invalidate. by destruct (class e), (next_retry_at (lifecycle (runtime w))) eqn:E; cbn; rewrite ?E. Qed.

(** The two ways to tell the scheduler about a failure. *)
Lemma told_scheduler e w : (stopped (scheduler w) = false -> generation (scheduler w) <= gen w) ->
  let c := scheduler (schedule_or_invalidate e w) in
  stopped c = stopped (scheduler w) /\ (stopped (scheduler w) = false -> generation c = gen w)
  /\ (stopped (scheduler w) = false -> forall lane g, Retry g ∈ operations lane c -> Retry g ∈ lane \/ g = gen w)
  /\ (stopped (scheduler w) = false -> class e = Transient -> forall due, next_retry_at (lifecycle (runtime w)) = Some due ->
        pending c = Some (PendingRetry (gen w) due)).
Proof.
  intros Hg c. pose proof (scheduled_as e w) as Hc. fold c in Hc. clearbody c.
  assert (c = invalidate (gen w) (scheduler w) \/ exists due, c = schedule_retry (gen w) due (scheduler w)
          /\ next_retry_at (lifecycle (runtime w)) = Some due) as Hcases.
  { revert Hc. destruct (class e); destruct (next_retry_at (lifecycle (runtime w))) as [due|]; intros ->; try (by left); right; by exists due. }
  assert (class e = Transient -> forall due, next_retry_at (lifecycle (runtime w)) = Some due -> c = schedule_retry (gen w) due (scheduler w)) as Htr.
  { intros He due Hd. by rewrite He, Hd in Hc. }
  clear Hc. split_and!.
  - destruct Hcases as [->|(due & -> & _)]; [by apply invalidate_spec|by apply schedule_spec].
  - intros Hs. destruct Hcases as [->|(due & -> & _)]; [by apply invalidate_spec|by apply schedule_spec].
  - intros Hs lane g. unfold operations. rewrite elem_of_app. intros [?|Hin]; [by left|].
    destruct Hcases as [->|(due & -> & _)].
    + destruct (invalidate_spec (gen w) (scheduler w)) as [_ H1]; [done|]. destruct (H1 Hs) as [_ Hp]. rewrite Hp in Hin. by apply elem_of_nil in Hin.
    + destruct (schedule_spec (gen w) due (scheduler w)) as [_ H1]; [done|]. destruct (H1 Hs) as [_ Hp]. rewrite Hp in Hin.
      apply list_elem_of_singleton in Hin as [= ->]. by right.
  - intros Hs He due Hd. rewrite (Htr He due Hd). by apply schedule_spec.
Qed.

(** Publishing a failure: what a poisoned mutex protected is taken, the retry
    that is announced is scheduled. *)
Definition failed (e : CaptureAttemptError) (now : RetryInstant) (g : Z) (w : World) : World * ActiveKeys :=
  let (w, active) := recover_poison w in
  (schedule_or_invalidate e (clear_poison (w <| runtime ::= fun r =>
     set_lifecycle (mark_failure e now) (set_error (message e) (set_lifecycle (fun l => l <| Lifecycle.generation := g |>) r)) |>)), active).

Lemma failed_spec e now g lane w : inv [] [] lane w -> class e <> Fatal -> (poisoned w = false -> rt_capture (runtime w) = None) ->
  gen w <= g <= u64_max ->
  let '(w', active) := failed e now g w in
  inv (option_list active.1) (option_list active.1) lane w' /\ active.2 = active.1 /\ kept lane w' /\ (clean = true -> active = (None, None)).
Proof.
  intros Hi He Hnone Hg. pose proof Hi as [].
  assert (exists r active, failed e now g w = (schedule_or_invalidate e (clear_poison (w <| runtime :=
            set_lifecycle (mark_failure e now) (set_error (message e) (set_lifecycle (fun l => l <| Lifecycle.generation := g |>) r)) |>)), active)
          /\ rt_capture r = None /\ session r = None /\ capture_health r = None /\ lifecycle r = lifecycle (runtime w)
          /\ active = (rt_capture (runtime w), session (runtime w)) /\ (clean = true -> active = (None, None))) as (r & active & -> & Hc & Hs & Hh & Hl & Ha & Hcl).
  { unfold failed, recover_poison. destruct (poisoned w) eqn:E.
    - exists (take_active_capture (runtime w)).1, (rt_capture (runtime w), session (runtime w)). split_and!; try done. intros Hc. specialize (i_clean Hc). congruence.
    - specialize (Hnone eq_refl). exists (runtime w), (None, None). rewrite i_session, Hnone. split_and!; try done.
      destruct (capture_health (runtime w)) as [k|] eqn:Ek; [|done]. destruct (i_health k eq_refl). congruence. }
  set (w1 := clear_poison _).
  assert (gen w1 = g) as Eg. { cbn. by destruct e as [[] ? ?]. }
  assert (stopped (scheduler w1) = false -> generation (scheduler w1) <= gen w1) as Hge.
  { rewrite Eg. intros Hst. change (scheduler w1) with (scheduler w) in *. rewrite i_generation by congruence. lia. }
  destruct (told_scheduler e w1 Hge) as (T1 & T2 & T3 & T4). rewrite Ha in *. cbn [fst snd] in *.
  split; [|split; [by rewrite i_session|split; [|exact Hcl]]].
  - assert (stop_flag w = false -> stopped (scheduler w1) = false) as Hsw by (intros E; rewrite E in i_stop; exact (eq_sym i_stop)).
    assert (gen (schedule_or_invalidate e w1) = g) as Eg' by done.
    apply (inv_detach lane w); rewrite ?Eg'; try done; try lia.
    + cbn. by destruct e as [[] ? ?].
    + intros Hst. rewrite (T2 (Hsw Hst)). done.
    + intros Hst g' Hin. destruct (T3 (Hsw Hst) lane g' Hin) as [Hl'|Hl']; [|lia].
      destruct (i_retries Hst g'); [by apply lane_in|lia].
  - intros _ Hst _ due Hd. left. assert (stopped (scheduler w1) = false) as Hsw by (rewrite <-Hst; exact (eq_sym i_stop)).
    apply T4; [done| |done]. destruct e as [[] ? ?]; done.
Qed.
(** The order in which the code writes the generation makes no difference. *)
Lemma failed_eq e now g w :
  (let (w', active) := recover_poison (w <| runtime ::= set_lifecycle (fun l => l <| Lifecycle.generation := g |>) |>) in
   (schedule_or_invalidate e (clear_poison (w' <| runtime ::= fun r => set_lifecycle (mark_failure e now) (set_error (message e) r) |>)), active))
  = failed e now g w.
Proof. unfold failed, recover_poison. cbn. by destruct (poisoned w). Qed.

Lemma same_generation w : w <| runtime ::= set_lifecycle (fun l => l <| Lifecycle.generation := gen w |>) |> = w.
Proof. by destruct w as [[? ? ? ? []]]. Qed.

Lemma publish_failure_spec now token og e preserve r f lane w :
  inv [] [] lane w -> knows r token f lane w -> (forall g, og = Some g -> g = Lifecycle.generation (lifecycle r)) ->
  (stop_flag w = false -> poisoned w = false -> preserve = true \/ rt_capture r = None) ->
  let '(w', res) := publish_failure now token og e preserve w in
  inv (option_list (held_by res).1) (option_list (held_by res).1) lane w' /\ (held_by res).2 = (held_by res).1
  /\ (clean = true -> held_by res = (None, None)) /\ match res with FailedFatally _ => True | _ => kept lane w' end.
Proof.
  intros Hi Hk Hog Hpre. pose proof Hi as []. destruct Hk as [[Hcap _] Hk]. unfold publish_failure, operation_is_current.
  destruct (stop_flag w) eqn:Est; cbn [negb andb].
  { split_and!; try done. intros _ Hs. congruence. }
  destruct (Hk eq_refl) as (Hr & He & _). rewrite He, Z.eqb_refl. cbn [negb]. case_bool_decide as Hfatal; [by split_and!|].
  destruct (preserve && current_capture_is_running w) eqn:Erun.
  { split_and!; try done. apply andb_true_iff in Erun as [_ Erun]. apply settled_kept; [|done]. intros _. left.
    unfold current_capture_is_running in Erun. apply andb_true_iff in Erun as [_ Erun].
    destruct (rt_capture (runtime w)) eqn:Ec; [|done]. by destruct i_running. }
  assert (poisoned w = false -> rt_capture (runtime w) = None) as Hnone.
  { intros Hp. destruct Hpre as [->|Hpre]; [done..| |congruence]. by apply (not_running_none lane). }
  assert (forall g, gen w <= g <= u64_max ->
    let '(w', active) := failed e now g w in
    inv (option_list active.1) (option_list active.1) lane w' /\ active.2 = active.1
    /\ (clean = true -> active = (None, None)) /\ kept lane w') as Hfailed.
  { intros g Hg. pose proof (failed_spec e now g lane w Hi Hfatal Hnone Hg) as H. destruct (failed e now g w) as [w' active].
    destruct H as (? & ? & ? & ?). by split_and!. }
  destruct og as [g|].
  - specialize (Hog g eq_refl). rewrite <-Hr in Hog. subst g. rewrite Z.eqb_refl. pose proof (failed_eq e now (gen w) w) as Eq.
    rewrite same_generation in Eq. destruct (recover_poison w) as [w1 active]. specialize (Hfailed (gen w)). rewrite <-Eq in Hfailed.
    apply Hfailed. lia.
  - pose proof (begin_operation_cases (lifecycle (runtime w))) as Hb. destruct (begin_operation _) as [l [g|e'|]] eqn:Eb; [| |done].
    + destruct Hb as (-> & -> & ? & _). set (g := gen w + 1) in *. pose proof (failed_eq e now g w) as Eq.
      change (w <| runtime ::= set_lifecycle (fun _ => (lifecycle (runtime w)) <| Lifecycle.generation := g |>) |>)
        with (w <| runtime ::= set_lifecycle (fun l => l <| Lifecycle.generation := g |>) |>).
      destruct (recover_poison _) as [w1 active]. specialize (Hfailed g). rewrite <-Eq in Hfailed. apply Hfailed. lia.
    + destruct Hb as (-> & Hov). unfold recover_poison. destruct (poisoned w) eqn:Ep.
      * cbn. rewrite i_session. split_and!; try done; try (intros Hcl; specialize (i_clean Hcl); congruence).
        apply (inv_detach lane w); try done; try apply Hi.
      * split_and!; try done. apply settled_kept; [|done]. intros _. right. destruct Hov as [Hov|]; [|lia]. specialize (i_stopping Hov). congruence.
Qed.
Lemma publish_attempt_spec now e lane w : inv [] [] lane w -> class e <> Fatal -> rt_capture (runtime w) = None ->
  let '(w', (active, fatal)) := publish_attempt_error now e w in
  inv (option_list active.1) (option_list active.1) lane w' /\ active.2 = active.1 /\ (clean = true -> active = (None, None))
  /\ (fatal = None -> kept lane w').
Proof.
  intros Hi He Hc. pose proof Hi as []. unfold publish_attempt_error.
  assert (lifecycle (runtime (recover_poison w).1) = lifecycle (runtime w)) as Hl by (unfold recover_poison; by destruct (poisoned w)).
  pose proof (begin_operation_cases (lifecycle (runtime w))) as Hb. pose proof (failed_spec e now (gen w + 1) lane w Hi He (fun _ => Hc)) as Hf.
  unfold failed in Hf. destruct (recover_poison w) as [w1 active] eqn:E1. cbn [fst] in Hl. rewrite Hl.
  destruct (begin_operation _) as [l [g|e'|]] eqn:Eb; [| |done].
  - destruct Hb as (-> & -> & ? & _). destruct Hf as (? & ? & ? & ?); [lia|]. rewrite <-Hl in *. by split_and!.
  - assert (active = (None, None) /\ (w1 = w \/ w1 = w <| runtime ::= fun r => (take_active_capture r).1 |>)) as [-> Hw].
    { revert E1. unfold recover_poison. destruct (poisoned w); [|intros [= <- <-]; split; [done|by left]].
      cbn. rewrite i_session, Hc. intros [= <- <-]. split; [done|by right]. }
    split_and!; try done. cbn. pose proof (inv_detach lane w) as Hd. rewrite Hc in Hd.
    assert (capture_health (runtime w) = None) as Hh. { destruct (capture_health (runtime w)) as [k|] eqn:Ek; [|done]. destruct (i_health k eq_refl). congruence. }
    destruct Hw as [->| ->]; apply Hd; try done; try apply Hi; cbn; congruence.
Qed.

(** What arming does when a capture is published. *)
Lemma arm_published_spec health so lane w : (forall k, health = Some k -> unarmed k so lane w /\ is_Some so) ->
  (health = None /\ arm_published health w = w) \/
  exists k s h h' n, health = Some k /\ so = Some s /\ healths w !! k = Some h /\ normal_stop h = false
    /\ armed h' = true /\ health_sink h' = Some s /\ normal_stop h' = false /\ (forall s' f, n = Some (s', f) -> s' = s)
    /\ arm_published health w = w <| healths ::= <[k := h']> |> <| scheduler ::= report n |>.
Proof.
  destruct health as [k|]; [|by left]. intros Hu. right. destruct (Hu k eq_refl) as (Hk & s & ->).
  destruct (Hk s eq_refl) as (h & Hh & _ & Hn & Hs). destruct (arm_spec h s Hn Hs) as (h' & n & E & ? & ? & ? & ?).
  exists k, s, h, h', n. split_and!; try done. unfold arm_published, on_health. by rewrite Hh, E.
Qed.

(** [w1] is [w] with a published runtime state, before its health is armed. *)
Lemma inv_publish lane w w1 b so health : inv (option_list b) (option_list b) lane w ->
  (forall k, health = Some k -> b = Some k /\ unarmed k so lane w /\ exists s, so = Some s /\ (stop_flag w = false -> sink_generation s = gen w1)) ->
  healths w1 = healths w -> backends w1 = backends w -> sessions w1 = sessions w -> next_key w1 = next_key w -> stop_flag w1 = stop_flag w ->
  stopped (scheduler w1) = stopped (scheduler w) -> rt_capture (runtime w1) = b -> session (runtime w1) = b -> capture_health (runtime w1) = health ->
  (is_Some b -> capture_state (lifecycle (runtime w1)) = Running /\ next_retry_at (lifecycle (runtime w1)) = None) ->
  (daemon_state (lifecycle (runtime w1)) = Stopping -> stop_flag w = true) ->
  (stop_flag w = false -> generation (scheduler w1) = gen w1 /\ gen w <= gen w1
     /\ forall g, Retry g ∈ operations lane (scheduler w1) -> g <= gen w1 /\ (g = gen w1 -> b = None)) ->
  (clean = true -> poisoned w1 = false) -> 0 <= gen w1 <= u64_max -> 0 <= operation_epoch w1 ->
  let w' := arm_published health w1 in
  inv (option_list (rt_capture (runtime w))) (option_list (rt_capture (runtime w))) lane w'
  /\ runtime w' = runtime w1 /\ stop_flag w' = stop_flag w1 /\ operation_epoch w' = operation_epoch w1
  /\ (stop_flag w = false -> generation (scheduler w') = gen w1
      /\ forall g, Retry g ∈ operations lane (scheduler w') -> Retry g ∈ operations lane (scheduler w1)).
Proof.
  intros Hi Hhealth Em Eb Es Ek Est Esc Hc Hs Hh Hr Hds Hgen Hp Hra He w'. pose proof Hi as [].
  assert (published (runtime w1) = option_list b) as Hpub by (unfold published; by rewrite Hc).
  destruct (arm_published_spec health so lane w1) as [[-> Hw]|(k & s & h & h' & n & -> & -> & Hk & Hn & Ha' & Hs' & Hn' & Hrep & Hw)].
  { intros k Hk. destruct (Hhealth k Hk) as (_ & Hu & s & -> & _). split; [|done]. unfold unarmed. by rewrite Em. }
  - unfold w'. rewrite Hw. split; [|split_and!; try done; intros E; split; [by apply Hgen|done]].
    eapply inv_update; try exact Hi; rewrite ?Em, ?Hpub, ?Hc, ?Hs, ?Hh; try done.
    + apply healths_same.
    + apply Permutation_app_comm.
    + apply Permutation_app_comm.
    + intros k h s E1 E2 E3 E4. pose proof (i_sinks _ _ _ E1 E2 E3 E4). destruct (Hgen E4) as (_ & ? & _). lia.
    + intros E. by apply Hgen.
    + intros E. by apply Hgen.
  - destruct (Hhealth k eq_refl) as (-> & _ & s' & [= <-] & Hsg). rewrite Em in Hk. unfold w'. rewrite Hw.
    destruct (report_current n (scheduler w1) (sink_generation s)) as (R1 & R2 & R3).
    { intros ?? E. by rewrite (Hrep _ _ E). }
    { intros E. assert (stop_flag w = false) as E' by congruence. rewrite Hsg by done. by apply Hgen. }
    assert (stop_flag w = false -> generation (report n (scheduler w1)) = gen w1) as R2'.
    { intros E. rewrite R2 by congruence. by apply Hsg. }
    split; [|split_and!; try done; cbn; intros E; split; [by apply R2'|intros g; apply R3]].
    eapply inv_update; try exact Hi; cbn; rewrite ?Em, ?Hpub, ?Hc, ?Hs, ?Hh; try done.
    + congruence.
    + intros k0 h0. destruct (decide (k = k0)) as [<-|]; [rewrite lookup_insert_eq; intros [= <-]; exists h; split; congruence|].
      rewrite lookup_insert_ne by done. intros ?. by exists h0.
    + apply Permutation_app_comm.
    + apply Permutation_app_comm.
    + intros k0 [= <-]. split; [done|]. exists h', s. by rewrite lookup_insert_eq.
    + intros k0 h0 s0. destruct (decide (k = k0)) as [<-|].
      * rewrite lookup_insert_eq. intros [= <-] _. rewrite Hs'. intros [= <-] E. rewrite Hsg by done. lia.
      * rewrite lookup_insert_ne by done. intros E1 E2 E3 E4. pose proof (i_sinks _ _ _ E1 E2 E3 E4). destruct (Hgen E4) as (_ & ? & _). lia.
    + intros E g Hin. apply Hgen; [done|]. by apply R3.
Qed.
(** ** Installations *)

Lemma publication_cases og l : (forall g, og = Some g -> g = Lifecycle.generation l) -> daemon_state l <> Stopping -> 0 <= Lifecycle.generation l <= u64_max ->
  (publication_generation l og = Ok (l <| Lifecycle.generation := default (Lifecycle.generation l + 1) og |>, default (Lifecycle.generation l + 1) og)
     /\ Lifecycle.generation l <= default (Lifecycle.generation l + 1) og <= u64_max)
  \/ exists e, publication_generation l og = Err e /\ Lifecycle.generation l = u64_max.
Proof.
  intros Hog Hds Hra. unfold publication_generation. destruct og as [g|].
  - rewrite (Hog g eq_refl), Z.eqb_refl. left. cbn. split; [by destruct l|lia].
  - pose proof (begin_operation_cases l) as Hb. destruct (begin_operation l) as [l' [g|e|]]; [| |done].
    + destruct Hb as (-> & -> & ? & _). left. cbn. split; [done|lia].
    + right. exists e. split; [done|]. destruct Hb as [_ [?|?]]; [done|lia].
Qed.

(** What an installation asks of the runtime state it publishes. *)
Record installable (b health : option CaptureKey) (g : Z) (r : AppRuntimeState) : Prop := mkInstallable {
  in_capture : rt_capture r = b;
  in_session : session r = b;
  in_health : capture_health r = health;
  in_generation : Lifecycle.generation (lifecycle r) = g;
  in_daemon : daemon_state (lifecycle r) <> Stopping;
  in_retry : next_retry_at (lifecycle r) = None;
  in_running : is_Some b -> capture_state (lifecycle r) = Running;
}.

Lemma publish_installed_spec token og old b so health installed r f lane w :
  inv (option_list b) (option_list b) lane w -> knows r token f lane w ->
  (forall g, og = Some g -> g = Lifecycle.generation (lifecycle r) /\ f <= g) -> (old = true -> rt_capture r = None) ->
  (forall k, health = Some k -> b = Some k /\ unarmed k so lane w
     /\ exists s, so = Some s /\ (stop_flag w = false -> sink_generation s = default (Lifecycle.generation (lifecycle r) + 1) og)) ->
  (forall r0, let g := default (Lifecycle.generation (lifecycle r) + 1) og in
     Lifecycle.generation (lifecycle r0) = g -> installable b health g (installed r0 g)) ->
  let '(w', res) := publish_installed token og old health installed w in
  settled lane w' /\
  match res with
  | None => inv (option_list b) (option_list b) lane w'
  | Some active => inv (option_list active.1) (option_list active.1) lane w' /\ active.2 = active.1
  end.
Proof.
  intros Hi [[Hcap _] Hk] Hog Hold Hhealth Hinst. pose proof Hi as []. unfold publish_installed, operation_is_current.
  destruct (stop_flag w) eqn:Est; cbn [negb andb]; [split; [intros E; congruence|done]|].
  destruct (Hk eq_refl) as (Hr & He & Hf). rewrite He, Z.eqb_refl. cbn [negb]. rewrite <-Hr in *. clear Hr.
  assert (daemon_state (lifecycle (runtime w)) <> Stopping) as Hds by (intros E; specialize (i_stopping E); congruence).
  destruct (publication_cases og (lifecycle (runtime w))) as [[-> Hra]|(e & -> & Hmax)]; [intros g E; by apply Hog|done|lia| |].
  2: { split; [|by apply inv_clear_poison]. intros _. by right. }
  set (g := default _ og) in *. set (l := _ <| Lifecycle.generation := g |>).
  assert (forall g', Retry g' ∈ operations lane (scheduler w) -> g' < g) as Hlt.
  { intros g' Hin. unfold g. destruct og as [g0|]; cbn; [destruct (Hog g0 eq_refl); specialize (Hf g' Hin); lia|].
    destruct (i_retries eq_refl g' Hin). lia. }
  assert (exists r0 active, (if old && negb (poisoned w) then (set_lifecycle (fun _ => l) (runtime w), (None, None)) else take_active_capture (set_lifecycle (fun _ => l) (runtime w)))
            = (r0, active) /\ active = (rt_capture (runtime w), rt_capture (runtime w)) /\ lifecycle r0 = l) as (r0 & active & -> & -> & Hl).
  { destruct old, (poisoned w); cbn [andb negb]; eexists _, _; (split; [reflexivity|split; [|done]]); cbn; rewrite ?i_session; try done. by rewrite Hold. }
  specialize (Hinst r0). cbn in Hinst. rewrite Hl in Hinst. specialize (Hinst eq_refl). fold g in Hinst. destruct Hinst as [C1 C2 C3 C4 C5 C6 C7].
  assert (stopped (scheduler w) = false) as Hsc by congruence.
  destruct (invalidate_spec g (scheduler w)) as (I1 & I2); [intros _; rewrite i_generation by done; lia|]. destruct (I2 Hsc) as [I3 I4].
  set (w1 := clear_poison (w <| runtime := installed r0 g |>) <| scheduler ::= invalidate g |>).
  destruct (inv_publish lane w w1 b so health) as (Hinv & Hrt & Hst & _ & _); try done; cbn; try done.
  - intros k Hk0. destruct (Hhealth k Hk0) as (? & ? & s & ? & ?). split_and!; try done. exists s. split; [done|]. intros _. rewrite C4. auto.
  - intros Hb. by split; [apply C7|].
  - intros _. rewrite C4. split_and!; [done|lia|]. intros g' Hin. apply in_lane, (lane_in _ (scheduler w)), Hlt in Hin; [|done]. split; lia.
  - rewrite C4. lia.
  - lia.
  - split; [|by split]. intros _. left. rewrite Hrt. done.
Qed.

(** ** Detaching *)

Lemma detach_old_spec o requested r f lane w : inv [] [] lane w -> knows r (token o) f lane w -> Lifecycle.generation (lifecycle r) = op_generation o ->
  let '(w', old) := detach_old o requested w in
  match old with
  | None => inv [] [] lane w' /\ settled lane w'
  | Some active => inv (option_list active.1) (option_list active.1) lane w' /\ active.2 = active.1
      /\ exists r', knows r' (token o) f lane w' /\ Lifecycle.generation (lifecycle r') = op_generation o /\ rt_capture r' = None
  end.
Proof.
  intros Hi [[Hcap Hprep] Hk] Hg. pose proof Hi as []. unfold detach_old, operation_is_current.
  destruct (stop_flag w) eqn:Est; cbn [negb andb]; [split; [done|intros E; congruence]|].
  destruct (Hk eq_refl) as (Hr & He & Hf). rewrite He, Hr, Hg, !Z.eqb_refl. cbn [negb]. rewrite <-Hr in *.
  destruct (take_active_capture _) as [r1 old] eqn:Et. unfold take_active_capture in Et. injection Et as <- <-. cbn [fst snd].
  split; [|split; [done|]].
  - apply (inv_detach lane w); try done; apply Hi.
  - eexists. split; [constructor; [done|]|by cbn]. intros _. split_and!; done.
Qed.

Lemma detach_stopped_spec o r f lane w : inv [] [] lane w -> knows r (token o) f lane w -> Lifecycle.generation (lifecycle r) = op_generation o ->
  let '(w', old) := detach_stopped o w in settled lane w' /\
  match old with
  | None => inv [] [] lane w'
  | Some active => inv (option_list active.1) (option_list active.1) lane w' /\ active.2 = active.1
  end.
Proof.
  intros Hi [[Hcap Hprep] Hk] Hg. pose proof Hi as []. unfold detach_stopped, operation_is_current.
  destruct (stop_flag w) eqn:Est; cbn [negb andb]; [split; [intros E; congruence|done]|].
  destruct (Hk eq_refl) as (Hr & He & Hf). rewrite He, Hr, Hg, !Z.eqb_refl. cbn [negb]. rewrite <-Hr in *.
  destruct (take_active_capture _) as [r1 old] eqn:Et. unfold take_active_capture in Et. injection Et as <- <-. cbn [fst snd].
  split; [intros _; by left|]. split; [|done]. apply (inv_detach lane w); try done; apply Hi.
Qed.

(** ** Jobs *)

Lemma decide_spec g lane w : inv [] [] lane w ->
  let '(w', (d, dropped)) := decide_generation g w in
  match dropped with
  | None => inv [] [] lane w' /\ (w' = w \/ w' = clear_poison w) /\ (d = Current -> stop_flag w = false /\ gen w = g)
            /\ (d <> Current -> stop_flag w = true \/ gen w <> g)
  | Some active => inv (option_list active.1) (option_list active.1) lane w' /\ active.2 = active.1 /\ d = Terminalized
  end.
Proof.
  intros Hi. pose proof Hi as []. unfold decide_generation, is_stopped. destruct (poisoned w) eqn:Ep; cbn [negb].
  2: { split_and!; [done|by left|..]; rewrite <-i_stop; destruct (stop_flag w); try done; destruct (Z.eqb_spec (gen w) g); auto; done. }
  destruct (Z.eqb_spec (gen w) g) as [<-|]; cbn [negb]; [|split_and!; [by apply inv_clear_poison|by right|done|by right]].
  destruct (stopped (scheduler w)) eqn:Es; cbn [negb andb].
  2: destruct (no_active_ownership (runtime w) && retry_is_coherent (lifecycle (runtime w))).
  2: { split_and!; [by apply inv_clear_poison|by right|by rewrite i_stop|done]. }
  all: cbn [take_active_capture fst snd]; (split; [|done]); apply (inv_detach lane w); try done; apply Hi.
Qed.

Lemma inv_schedule due lane w : inv [] [] lane w -> rt_capture (runtime w) = None ->
  inv [] [] lane (w <| scheduler ::= schedule_retry (gen w) due |>)
  /\ (stop_flag w = false -> pending (schedule_retry (gen w) due (scheduler w)) = Some (PendingRetry (gen w) due)).
Proof.
  intros Hi Hc. pose proof Hi as [].
  destruct (schedule_spec (gen w) due (scheduler w)) as [S1 S2]; [intros E; rewrite i_generation by congruence; lia|].
  split; [|intros E; apply S2; congruence].
  eapply inv_update; try exact Hi; try done; try (by apply healths_same); cbn; try lia.
  - intros E. apply S2. congruence.
  - intros E g Hin. apply elem_of_app in Hin as [Hin|Hin]; [apply i_retries; [done|by apply lane_in]|].
    destruct S2 as [_ S4]; [congruence|]. rewrite S4 in Hin. apply list_elem_of_singleton in Hin as [= ->]. split; [lia|done].
Qed.

Lemma publish_fault_spec now g attempt fl lane w : inv [] [] lane w -> kept lane w ->
  inv [] [] lane (publish_fault now g attempt fl w) /\ kept lane (publish_fault now g attempt fl w).
Proof.
  intros Hi Hkept. pose proof Hi as [].
  assert (inv [] [] lane (clear_poison w) /\ kept lane (clear_poison w)) as Hsame by (split; [by apply inv_clear_poison|done]).
  unfold publish_fault. destruct (stop_flag w) eqn:Est; [done|]. destruct (negb (gen w =? g) || _) eqn:Emm; [done|].
  apply orb_false_iff in Emm as [Eg%negb_false_iff%Z.eqb_eq Ea%negb_false_iff%bool_decide_eq_true]. subst g.
  destruct (no_active_ownership (runtime w)); [done|].
  unfold active_attempt in Ea. destruct (capture_health (runtime w)) as [k|] eqn:Ek; [|done]. destruct (i_health k eq_refl) as [Hc _].
  destruct (fault_text fl) as [state message]. cbn [take_active_capture]. rewrite i_session, Hc.
  set (r1 := set_lifecycle _ _). set (w1 := clear_poison (w <| runtime := r1 |>)).
  assert (inv [k] [k] lane w1) as Hi1.
  { pose proof (inv_detach lane w w1) as Hd. rewrite Hc in Hd. apply Hd; try done; try apply Hi. }
  pose proof (inv_drop clean [] [] lane w1 k (Some k) Hi1 (or_introl eq_refl)) as Hi2. set (w2 := drop_capture_then_session _ _) in *.
  assert (runtime w2 = r1 /\ scheduler w2 = scheduler w /\ stop_flag w2 = false /\ poisoned w2 = false) as (E1 & E2 & E3 & E4).
  { unfold w2, drop_capture_then_session, drop_backend, on_health. cbn. by destruct (healths w !! k). }
  assert (exists due, next_retry_at (lifecycle r1) = Some due) as [due Hdue] by (by eexists). rewrite Hdue.
  assert (gen w2 = gen w) as Eg by (by rewrite E1).
  assert (rt_capture (runtime w2) = None) as Hnone by (by rewrite E1). clearbody w2.
  destruct (inv_schedule due lane w2 Hi2 Hnone) as [Hi3 Hp]. rewrite Eg in *. split; [done|].
  intros _ _ _ d Hd. cbn in Hd. left. cbn. rewrite Hp by done. congruence.
Qed.
(** ** The startup *)

(** What a configuration is applied to: the capture is held and unarmed. *)
Record candidate (b : option CaptureKey) (so : option RuntimeFaultSink) (r : AppRuntimeState) : Prop := mkCandidate {
  ca_capture : rt_capture r = b;
  ca_session : session r = b;
  ca_health : forall k, capture_health r = Some k -> b = Some k /\ is_Some so;
  ca_running : is_Some b -> capture_state (lifecycle r) = Running /\ next_retry_at (lifecycle r) = None;
  ca_stopped : capture_state (lifecycle r) = Running \/ capture_state (lifecycle r) = Stopped -> next_retry_at (lifecycle r) = None;
  ca_daemon : daemon_state (lifecycle r) <> Stopping;
  ca_range : 0 <= Lifecycle.generation (lifecycle r) <= 1;
}.

Lemma install_runtime_spec r so lane w : inv (option_list (rt_capture r)) (option_list (rt_capture r)) lane w ->
  knows initial_runtime 0 0 lane w -> candidate (rt_capture r) so r ->
  (forall k, rt_capture r = Some k -> unarmed k so lane w) -> (forall s, so = Some s -> sink_generation s = Lifecycle.generation (lifecycle r)) ->
  inv [] [] lane (install_runtime r w) /\ kept lane (install_runtime r w)
  /\ knows r 0 (Lifecycle.generation (lifecycle r) + 1) lane (install_runtime r w).
Proof.
  intros Hi [[Hcap _] Hk] [_ Hse Hh Hr _ Hds Hra] Hu Hsg. pose proof Hi as []. cbn in Hcap.
  set (g := Lifecycle.generation (lifecycle r)) in *.
  set (w1 := w <| runtime := r |> <| scheduler ::= invalidate g |>).
  assert (stop_flag w = false -> gen w = 0 /\ operation_epoch w = 0 /\ stopped (scheduler w) = false /\ generation (scheduler w) = 0) as Hzero.
  { intros E. destruct (Hk E) as (Hw & ? & _). rewrite i_generation by done. rewrite Hw. by rewrite i_stop in E. }
  assert (stopped (scheduler w) = false -> generation (scheduler w) <= g) as Hle by (intros E; destruct Hzero as (_ & _ & _ & ->); [congruence|lia]).
  destruct (invalidate_spec g (scheduler w) Hle) as [I1 I2].
  assert (stop_flag w = false -> forall g', Retry g' ∈ operations lane (scheduler w1) -> g' < 0) as Hnone.
  { intros E g' Hin. destruct (Hk E) as (_ & _ & Hf). destruct I2 as [_ I4]; [congruence|]. by apply Hf, lane_in, (in_lane _ _ _ I4). }
  destruct (inv_publish lane w w1 (rt_capture r) so (capture_health r)) as (Hinv & Hrt & Hst & He & Hops); try done; cbn; try done; try lia.
  - intros k Hk0. destruct (Hh k Hk0) as [? [s ->]]. split_and!; [done|by apply Hu|]. exists s. split; [done|]. intros _. by apply Hsg.
  - intros E. split; [by apply I2; congruence|]. destruct (Hzero E) as (-> & _). split; [lia|]. intros g' Hin. specialize (Hnone E g' Hin). split; lia.
  - fold g. unfold u64_max. lia.
  - rewrite Hcap in Hinv. cbn [option_list] in Hinv. unfold install_runtime. fold g w1. set (w2 := arm_published _ w1) in *. clearbody w2.
    assert (knows r 0 (g + 1) lane w2) as Hkn.
    { constructor; [by rewrite Hrt|]. intros E. rewrite Hst in E. split_and!; [done|rewrite He; by apply Hzero|].
      intros g' Hin. destruct (Hops E) as [_ Ho]. specialize (Hnone E g' (Ho g' Hin)). lia. }
    destruct (next_retry_at (lifecycle r)) as [due|] eqn:Ed.
    2: { split_and!; [done| |done]. apply settled_kept; [|done]. intros _. left. by rewrite Hrt. }
    assert (rt_capture r = None) as Hc. { destruct (rt_capture r); [|done]. by destruct Hr. }
    assert (gen w2 = g) as Eg by (by rewrite Hrt). destruct (inv_schedule due lane w2 Hinv) as [Hi3 Hp]; [by rewrite Hrt|]. rewrite Eg in *.
    split_and!; [done| |].
    + intros _ E _ d Hd. cbn in *. left. rewrite Hp by done. rewrite Hrt, Ed in Hd. rewrite Hrt. congruence.
    + destruct Hkn as [K1 K2]. constructor; [done|]. cbn. intros E. destruct (K2 E) as (? & ? & Kf). split_and!; [done..|].
      intros g' Hin. apply elem_of_app in Hin as [Hin|Hin]; [by apply Kf, lane_in|]. cbn in Hin. rewrite Hp in Hin by done.
      apply list_elem_of_singleton in Hin as [= ->]. lia.
Qed.

Lemma publish_initial_spec c r f s lane w : inv [active_key c] [active_key c] lane w -> knows r 0 f lane w -> rt_capture r = None ->
  (active_health c = None \/ active_health c = Some (active_key c) /\ unarmed (active_key c) (Some s) lane w) ->
  (stop_flag w = false -> sink_generation s = Lifecycle.generation (lifecycle r) + 1) ->
  let '(w', res) := publish_initial c w in
  match res with
  | Ok _ => inv [] [] lane w' /\ settled lane w'
  | _ => w' = w
  end.
Proof.
  intros Hi [[Hcap _] Hk] Hc Hh Hsg. pose proof Hi as []. unfold publish_initial. destruct (poisoned w) eqn:Ep; [done|].
  pose proof (begin_operation_cases (lifecycle (runtime w))) as Hb. destruct (begin_operation _) as [l [g|e'|]]; [|done..].
  destruct Hb as (-> & -> & ? & ?). set (g := gen w + 1) in *. rewrite Hc in Hcap.
  set (r1 := _ <| lifecycle ::= mark_running _ _ |>). set (w1 := w <| runtime := r1 |> <| scheduler ::= invalidate g |>).
  assert (stopped (scheduler w) = false -> generation (scheduler w) <= g) as Hle by (intros E; rewrite i_generation by congruence; lia).
  destruct (invalidate_spec g (scheduler w) Hle) as [I1 I2].
  destruct (inv_publish lane w w1 (Some (active_key c)) (Some s) (active_health c)) as (Hinv & Hrt & Hst & _ & _); try done; cbn; try done; try lia.
  - intros k Hk0. destruct Hh as [|[Hh Hu]]; [congruence|]. assert (k = active_key c) as -> by congruence. split_and!; try done. exists s. split; [done|].
    intros E. destruct (Hk E) as [Hw _]. rewrite Hsg, <-Hw by done. done.
  - intros E. split; [by apply I2; congruence|]. split; [lia|]. intros g' Hin. destruct I2 as [_ I4]; [congruence|].
    destruct (i_retries E g'); [apply lane_in; by apply (in_lane _ _ _ I4)|lia].
  - rewrite Hcap in Hinv. split; [done|]. intros _. left. by rewrite Hrt.
Qed.
End invariant.
