(* ===== verification/SupervisorPrograms.v ===== *)
(** * What the operations keep

    Every program of [Transactions] runs its sections so that the invariant
    holds between them, and ends with nothing held and every announced retry
    kept. *)
From stdpp Require Import gmap.
From S2P Require Import Prelude.
From S2P Require Import Errors.
From S2P Require Import MemoryPlan.
From S2P Require Import Lifecycle.
From S2P Require Import RetryScheduler.
From S2P Require Import ExportPattern.
From S2P Require Import Text.
From S2P Require Import LegacyConfig.
From S2P Require Import AppConfig.
From S2P Require Import Profile.
From S2P Require Import InputIdentity.
From S2P Require Import PipeWireTarget.
From S2P Require Import PipeWireHealth.
From S2P Require Import SessionInputs.
From S2P Require Import Bootstrap.
From S2P Require Import Supervisor.
From S2P Require Import Transactions.
From S2P Require Import Daemon.
From S2P Require Import SupervisorSpec.
From S2P Require Import SupervisorEnv.
From S2P Require Import SupervisorSections.
From S2P Require Import SupervisorPublish.

Abbreviation Applied := (AppRuntimeState * Result unit)%type.

Section invariant.
Variable clean : bool.
Abbreviation inv := (inv clean).
Abbreviation kept := (retry_kept clean).
Abbreviation stable := (stable clean).
Abbreviation wp := (wp clean).

(** What an operation ends with. *)
Definition finished {A} (_ : A) (hb hs : list CaptureKey) (Q : Knows) : Prop :=
  hb = [] /\ hs = [] /\ forall lane w, inv [] [] lane w -> Q lane w -> kept lane w.

Lemma finished_settled {A} (a : A) (Q : Knows) : (forall lane w, Q lane w -> settled lane w) -> finished a [] [] Q.
Proof. intros HQ. split_and!; [done..|]. intros lane w Hi Hq. apply settled_kept; [by apply HQ|done]. Qed.

Lemma stopping_settled lane w : stopping lane w -> settled lane w.
Proof. unfold stopping. intros Hs E. congruence. Qed.

Lemma finished_stopping {A} (a : A) : finished a [] [] stopping.
Proof. apply finished_settled, stopping_settled. Qed.

Lemma finished_kept {A} (a : A) (Q : Knows) : (forall lane w, Q lane w -> kept lane w) -> finished a [] [] Q.
Proof. intros HQ. split_and!; [done..|]. intros lane w _. apply HQ. Qed.

Lemma stable_true hb hs : stable hb hs (fun _ _ => True).
Proof. done. Qed.

(** Held captures need a poisoned mutex. *)
Lemma stable_kept_held hb hs : (clean = true -> hb = [] /\ hs = []) -> stable hb hs kept.
Proof.
  intros Hc lane w lane' w' Hi Ho Hk Hcl. destruct (Hc Hcl) as [-> ->]. by apply (stable_kept clean lane w lane' w').
Qed.

(** ** Rules *)

Lemma wp_act {A} f (next : Prog A) hb hs (Q : Knows) hb' hs' (Q' : Knows) Post :
  (forall lane w, inv hb hs lane w -> Q lane w -> inv hb' hs' lane (f w) /\ Q' lane (f w)) -> stable hb' hs' Q' ->
  wp next hb' hs' Q' Post -> wp (then_do (act f) (fun _ => next)) hb hs Q Post.
Proof. intros H Hs Hn lane w Hi HQ. destruct (H lane w Hi HQ). exists hb', hs', Q'. by split_and!. Qed.

Lemma drop_fields active w : let w' := drop_capture_then_session active w in
  runtime w' = runtime w /\ scheduler w' = scheduler w /\ stop_flag w' = stop_flag w /\ operation_epoch w' = operation_epoch w.
Proof. destruct active as [[k|] [s|]]; cbn; unfold drop_capture_then_session, drop_backend, on_health; cbn; try done; by destruct (healths w !! k). Qed.

(** What does not depend on what is held. *)
Definition about_runtime (Q : Knows) : Prop := forall lane w w', runtime w' = runtime w -> scheduler w' = scheduler w ->
  stop_flag w' = stop_flag w -> operation_epoch w' = operation_epoch w -> Q lane w -> Q lane w'.

Lemma about_knows r e f : about_runtime (knows r e f).
Proof. intros lane w w' E1 E2 E3 E4 [K1 K2]. constructor; rewrite E1; [done|]. by rewrite E2, E3, E4. Qed.
Lemma about_stopping : about_runtime stopping.
Proof. intros lane w w' E1 E2 E3 E4. unfold stopping. by rewrite E3. Qed.
Lemma about_settled : about_runtime settled.
Proof. intros lane w w' E1 E2 E3 E4. unfold settled. by rewrite E1, E3. Qed.
Lemma about_kept : about_runtime kept.
Proof. intros lane w w' E1 E2 E3 E4 H. unfold retry_kept. by rewrite E1, E2, E3. Qed.

Lemma wp_drop {A} active (next : Prog A) hb hs (Q Q' : Knows) Post :
  hb = option_list active.1 -> hs = option_list active.2 -> (active.2 = active.1 \/ active.2 = None) ->
  about_runtime Q' -> (forall lane w, Q lane w -> Q' lane w) -> stable [] [] Q' ->
  wp next [] [] Q' Post -> wp (then_do (act (drop_capture_then_session active)) (fun _ => next)) hb hs Q Post.
Proof.
  intros -> -> Ha Hab HQ Hst Hn. apply (wp_act _ _ _ _ Q [] [] Q'); [|done..]. intros lane w Hi Hq.
  destruct (drop_fields active w) as (? & ? & ? & ?). split; [|by apply (Hab lane w); [..|apply HQ]].
  destruct active as [[k|] s]; cbn in *.
  - apply inv_drop; [destruct s; exact Hi|]. destruct Ha as [->| ->]; [by left|right]. split; [done|]. apply not_elem_of_nil.
  - destruct Ha as [->| ->]; exact Hi.
Qed.

Lemma wp_if_current token superseded p hb hs r f (Q : Knows) Post :
  stable hb hs Q -> (forall lane w, Q lane w -> knows r token f lane w) ->
  wp superseded hb hs stopping Post -> wp p hb hs Q Post -> wp (if_current token superseded p) hb hs Q Post.
Proof.
  intros Hs HQ H1 H2 lane w Hi Hq. cbn. destruct (HQ lane w Hq) as [_ Hk]. unfold operation_is_current.
  destruct (stop_flag w) eqn:E; cbn [negb andb].
  - exists hb, hs, stopping. split_and!; [done|done|by apply stable_stopping|done].
  - destruct (Hk eq_refl) as (_ & -> & _). rewrite Z.eqb_refl. exists hb, hs, Q. by split_and!.
Qed.

(** ** Responses *)

Lemma wp_superseded Q : stable [] [] Q -> (forall lane w, inv [] [] lane w -> Q lane w -> kept lane w) -> wp superseded_response [] [] Q finished.
Proof. intros Hs HQ. apply wp_ask. intros lane w Hi Hq. exists Q. by split_and!. Qed.

Lemma superseded_stopping : wp superseded_response [] [] stopping finished.
Proof. apply wp_superseded; [by apply stable_stopping|]. intros lane w Hi Hq. by apply settled_kept; [apply stopping_settled|]. Qed.

Lemma wp_signal_fatal {A} m (a : A) Q : wp (then_do (act (signal_fatal m)) (fun _ => Ret a)) [] [] Q finished.
Proof.
  apply (wp_act _ _ _ _ _ [] [] stopping); [|by apply stable_stopping|apply finished_stopping].
  intros lane w Hi _. split; [by apply inv_fatal|done].
Qed.

Lemma wp_signal_response r Q : (forall lane w, inv [] [] lane w -> Q lane w -> kept lane w) -> wp (signal_fatal_response r) [] [] Q finished.
Proof.
  intros HQ. unfold signal_fatal_response. destruct (response_class r) as [[]|]; try by split_and!.
  intros lane w Hi _. exists [], [], stopping. split_and!; [by apply inv_fatal|done|by apply stable_stopping|apply finished_stopping].
Qed.

Section answers.
Context `{Platform} `{ConfigLanguage} `{Digest} (config_path control_socket : string) (a : Answers).

(** A failure is published, or needs not to be. *)
Lemma wp_failure token og e preserve r f (Q : Knows) : (forall g, og = Some g -> g = Lifecycle.generation (lifecycle r)) ->
  (forall lane w, Q lane w -> knows r token f lane w /\
     (stop_flag w = false -> poisoned w = false -> preserve = true \/ rt_capture r = None)) ->
  wp (command_attempt_failure_with_generation a token og e preserve) [] [] Q finished.
Proof.
  intros Hog HQ lane w Hi Hq. destruct (HQ lane w Hq) as [Hk Hpre].
  pose proof (publish_failure_spec clean (clock_now a) token og e preserve r f lane w Hi Hk Hog Hpre) as Hs.
  destruct (publish_failure _ _ _ _ _ w) as [w' res]. cbn [fst snd then_do]. destruct Hs as (Hi' & Hact & Hcl & Hres).
  exists (option_list (held_by res).1), (option_list (held_by res).1), (match res with FailedFatally _ => fun _ _ => True | _ => kept end).
  split; [done|]. split; [by destruct res|]. split.
  { destruct res; try (by apply stable_true); apply stable_kept_held; intros Hc; by rewrite (Hcl Hc). }
  destruct res as [|m| |active fatal]; cbn [held_by option_list fst snd] in *.
  - apply wp_superseded; [apply stable_kept|done].
  - apply wp_signal_fatal.
  - by apply finished_kept.
  - apply (wp_drop _ _ _ _ _ kept); try done; [by rewrite Hact|by left|apply about_kept|apply stable_kept|].
    destruct fatal; [apply wp_signal_fatal|]. apply wp_ask. intros lane1 w1 Hi1 Hk1. exists kept. split_and!; [done|apply stable_kept|by apply finished_kept].
Qed.
(** ** Captures that are held *)

(** What is known while a capture may be held. *)
Definition holding (Q : Knows) (b : option CaptureKey) (so : option RuntimeFaultSink) : Knows :=
  match b with Some k => both Q (unarmed k so) | None => Q end.

Lemma stable_holding hb hs Q b so : stable hb hs Q -> stable hb hs (holding Q b so).
Proof. destruct b; [|done]. intros. apply stable_both; [done|apply stable_unarmed]. Qed.

Lemma holding_weaken Q b so lane w : holding Q b so lane w -> Q lane w.
Proof. destruct b; [by intros [? _]|done]. Qed.

Lemma holding_unarmed Q b so lane w k : holding Q b so lane w -> b = Some k -> unarmed k so lane w.
Proof. intros Hq ->. apply Hq. Qed.

(** The sink is of the generation that will be published. *)
Definition bound (og : option Z) (r : AppRuntimeState) (sink : RuntimeFaultSink) : Knows := fun _ w =>
  stop_flag w = false -> sink_generation sink = default (Lifecycle.generation (lifecycle r) + 1) og.

Lemma stable_bound hb hs og r sink : stable hb hs (bound og r sink).
Proof.
  intros lane w lane' w' Hi Ho Hb. destruct (stop_flag w) eqn:E.
  - assert (stopping lane' w') as Hs by (by eapply stable_stopping). unfold bound, stopping in *. congruence.
  - intros _. by apply Hb.
Qed.

Lemma about_bound og r sink : about_runtime (bound og r sink).
Proof. intros lane w w' _ _ E _. unfold bound. by rewrite E. Qed.

Definition starting (r : AppRuntimeState) (token f : Z) (og : option Z) (sink : RuntimeFaultSink) : Knows :=
  both (knows r token f) (bound og r sink).

Lemma stable_starting hb hs r token f og sink : stable hb hs (starting r token f og sink).
Proof. apply stable_both; [apply stable_knows|apply stable_bound]. Qed.

Lemma about_both P Q : about_runtime P -> about_runtime Q -> about_runtime (both P Q).
Proof. intros HP HQ lane w w' E1 E2 E3 E4 [? ?]. split; [by apply (HP lane w)|by apply (HQ lane w)]. Qed.

Lemma about_starting r token f og sink : about_runtime (starting r token f og sink).
Proof. apply about_both; [apply about_knows|apply about_bound]. Qed.

(** The first step of an attempt. *)
Lemma wp_attempt {A} og r token f (next : outcome CaptureAttemptError RuntimeFaultSink -> Prog A) Post :
  (forall e, wp (next (Err e)) [] [] (knows r token f) Post) ->
  (forall sink, wp (next (Ok sink)) [] [] (starting r token f og sink) Post) ->
  wp (then_do (section (runtime_fault_sink_for_attempt og)) next) [] [] (knows r token f) Post.
Proof.
  intros He Hs lane w Hi Hk. destruct (attempt_sink_spec og w) as (n & Hw & Hres).
  change (exists hb' hs' Q', inv hb' hs' lane (runtime_fault_sink_for_attempt og w).1 /\ Q' lane (runtime_fault_sink_for_attempt og w).1
            /\ stable hb' hs' Q' /\ wp (next (runtime_fault_sink_for_attempt og w).2) hb' hs' Q' Post).
  rewrite Hw. assert (inv [] [] lane (w <| next_attempt := n |>)) as Hi'.
  { eapply inv_counters; try exact Hi; try done; apply Hi. }
  assert (knows r token f lane (w <| next_attempt := n |>)) as Hk' by (by apply (about_knows r token f lane w)).
  destruct (runtime_fault_sink_for_attempt og w).2 as [sink|e|]; [| |done].
  - exists [], [], (starting r token f og sink). split_and!; [done| |apply stable_starting|done]. split; [done|].
    intros E. rewrite Hres. destruct Hk as [_ Hk]. by destruct (Hk E) as [-> _].
  - exists [], [], (knows r token f). split_and!; [done|done|apply stable_knows|done].
Qed.

(** A backend has started, alone or with its session. *)
Lemma wp_add_backend {A} sink (next : CaptureKey -> Prog A) Q Post : about_runtime Q -> (forall hb hs, stable hb hs Q) ->
  (forall k, wp (next k) [k] [] (holding Q (Some k) sink) Post) ->
  wp (then_do (section (add_backend sink)) next) [] [] Q Post.
Proof.
  intros Ha Hs Hn lane w Hi Hq. destruct (inv_add_backend clean [] lane w sink Hi) as [Hi1 Hu1].
  exists [next_key w], [], (holding Q (Some (next_key w)) sink). split_and!; [done| |apply stable_holding, Hs|apply Hn].
  split; [by apply (Ha lane w)|done].
Qed.

Lemma wp_add_capture {A} sink (next : CaptureKey -> Prog A) Q Post : about_runtime Q -> (forall hb hs, stable hb hs Q) ->
  (forall k, wp (next k) [k] [k] (holding Q (Some k) sink) Post) ->
  wp (then_do (section (add_capture sink)) next) [] [] Q Post.
Proof.
  intros Ha Hs Hn lane w Hi Hq. destruct (inv_add_backend clean [] lane w sink Hi) as [Hi1 Hu1].
  exists [next_key w], [next_key w], (holding Q (Some (next_key w)) sink). split_and!.
  - by apply inv_add_session.
  - split; [|exact Hu1]. by apply (Ha lane w).
  - apply stable_holding, Hs.
  - apply Hn.
Qed.

Lemma wp_start p sink (next : outcome CaptureAttemptError ActiveCapture -> Prog ControlResponse) Q :
  about_runtime Q -> (forall hb hs, stable hb hs Q) ->
  (forall e, wp (next (Err e)) [] [] Q finished) ->
  (forall c so, active_health c = None \/ active_health c = Some (active_key c) /\ so = Some sink ->
     wp (next (Ok c)) [active_key c] [active_key c] (holding Q (Some (active_key c)) so) finished) ->
  wp (then_do (start a p sink) next) [] [] Q finished.
Proof.
  intros Ha Hs He Hok. unfold start. destruct (start_legacy_capture a p) as [[[] state]|e|]; cbn [then_do]; [| |apply He|done].
  - apply wp_add_capture; [done..|]. intros k. apply Hok. by right.
  - apply wp_add_capture; [done..|]. intros k. apply Hok. by left.
Qed.

Lemma recovery_total family : recovery_error a family <> Panic.
Proof. unfold recovery_error. destruct (failed_recoveries a) as [e|n]; cbn; [done|]. by destruct (n =? 0). Qed.

(** ** Installations *)

(** What an installation needs: the generation it publishes is the one it knows,
    and what it replaces is published, unless it was detached. *)
Record installing (r : AppRuntimeState) (f : Z) (og : option Z) (old_already_detached : bool) : Prop := mkInstalling {
  is_generation : forall g, og = Some g -> g = Lifecycle.generation (lifecycle r) /\ f <= g;
  is_detached : old_already_detached = true -> rt_capture r = None;
}.

Lemma wp_install_failure token og og' e r f old (Q : Knows) : installing r f og old -> (og' = og \/ og' = None) ->
  (forall lane w, Q lane w -> knows r token f lane w) ->
  wp (command_attempt_failure_with_generation a token og' e (negb old)) [] [] Q finished.
Proof.
  intros [Hg Hd] Ho HQ. apply (wp_failure token og' e (negb old) r f).
  - intros g E. destruct Ho as [-> | ->]; [by apply Hg|done].
  - intros lane w Hq. split; [by apply HQ|]. intros _ _. destruct old; [right; by apply Hd|by left].
Qed.

(** The publication of a capture that is held, if there is one. *)
Lemma wp_publish_installed token og old b health installed sink so r f message superseded : installing r f og old ->
  (forall k, health = Some k -> b = Some k /\ so = Some sink) ->
  (forall r0, let g := default (Lifecycle.generation (lifecycle r) + 1) og in
     Lifecycle.generation (lifecycle r0) = g -> installable b health g (installed r0 g)) ->
  (forall Q, stable (option_list b) (option_list b) Q -> (forall lane w, Q lane w -> settled lane w) ->
     wp superseded (option_list b) (option_list b) Q finished) ->
  wp (do! o := section (publish_installed token og old health installed) in
      match o with None => superseded | Some o => dropping o (Ret (success message)) end)
     (option_list b) (option_list b) (holding (starting r token f og sink) b so) finished.
Proof.
  intros [Hg Hd] Hh Hin Hsup lane w Hi Hq. pose proof (holding_weaken _ _ _ _ _ Hq) as [Hk Hb].
  pose proof (publish_installed_spec clean token og old b so health installed r f lane w Hi Hk Hg Hd) as Hs.
  destruct (publish_installed _ _ _ _ _ w) as [w' res]. cbn [fst snd then_do]. destruct Hs as [Hset Hres]; [|done|].
  { intros k Hk0. destruct (Hh k Hk0) as [Hbk ->]. split_and!; [done|by eapply holding_unarmed|]. exists sink. split; [done|]. exact Hb. }
  destruct res as [active|].
  - destruct Hres as [Hi' Hact]. exists (option_list active.1), (option_list active.1), settled. split_and!; [done|done|apply stable_settled|].
    apply (wp_drop _ _ _ _ _ settled); try done; [by rewrite Hact|by left|apply about_settled|apply stable_settled|by apply finished_settled].
  - exists (option_list b), (option_list b), settled. split_and!; [done|done|apply stable_settled|]. apply Hsup; [apply stable_settled|done].
Qed.

(** What was built is dropped when another operation has taken over. *)
Lemma wp_dropping_superseded active hb hs Q : hb = option_list active.1 -> hs = option_list active.2 -> (active.2 = active.1 \/ active.2 = None) ->
  (forall lane w, Q lane w -> settled lane w) -> wp (dropping active superseded_response) hb hs Q finished.
Proof.
  intros Hb Hs Ha HQ. apply (wp_drop _ _ _ _ _ settled); try done; [apply about_settled|apply stable_settled|].
  apply wp_superseded; [apply stable_settled|]. intros lane w Hi Hq. by apply settled_kept.
Qed.

Lemma wp_install_legacy token og p old r f : installing r f og old ->
  wp (install_legacy a token og p old) [] [] (knows r token f) finished.
Proof.
  intros Hin. unfold install_legacy. apply (wp_if_current _ _ _ _ _ r f); [apply stable_knows|done|apply superseded_stopping|].
  apply (wp_attempt og).
  { intros e. by apply (wp_install_failure token og og e r f old); [|left|]. }
  intros sink. apply wp_start; [apply about_starting|intros; apply stable_starting|..].
  { intros e. apply (wp_install_failure token og og e r f old); [done|by left|]. by intros lane w [? _]. }
  intros c so Hc. set (Q := holding _ _ _). assert (forall lane w, Q lane w -> knows r token f lane w) as HQ by (intros lane w Hq; apply Hq).
  assert (stable [active_key c] [active_key c] Q) as Hst by (apply stable_holding, stable_starting).
  assert (wp (dropping (keys_of c) superseded_response) [active_key c] [active_key c] stopping finished) as Hsup.
  { apply wp_dropping_superseded; try done; [by left|]. intros lane w. apply stopping_settled. }
  apply (wp_if_current _ _ _ _ _ r f); [done..|]. pose proof (recovery_total "legacy") as Htot.
  destruct (recovery_error a "legacy") as [u|e|]; [| |done].
  - apply (wp_if_current _ _ _ _ _ r f); [done..|].
    apply (wp_publish_installed token og old (Some (active_key c)) (active_health c) _ sink so r f); [done|..].
    + intros k E. destruct Hc as [|[Hc ->]]; [congruence|]. split; [congruence|done].
    + intros r0 g E. by constructor.
    + intros Q' HQ' Hset. by apply wp_dropping_superseded; [done|done|left|].
  - apply (wp_drop _ _ _ _ _ (knows r token f)); try done; [by left|apply about_knows|apply stable_knows|].
    by apply (wp_install_failure token og og _ r f old); [|left|].
Qed.
(** ** Applying a configuration *)

(** A runtime state to which nothing has been applied. *)
Record blank (r : AppRuntimeState) : Prop := mkBlank {
  bl_capture : rt_capture r = None;
  bl_session : session r = None;
  bl_health : capture_health r = None;
  bl_state : capture_state (lifecycle r) = Stopped;
  bl_retry : next_retry_at (lifecycle r) = None;
  bl_daemon : daemon_state (lifecycle r) = Ready;
  bl_generation : Lifecycle.generation (lifecycle r) = 0;
}.

(** What applying a configuration to [r0] returns; [begun] says that a started
    profile takes a generation. *)
Definition applied (Q0 : Knows) (sink : RuntimeFaultSink) (begun : bool) (r0 : AppRuntimeState) (x : Applied) (hb hs : list CaptureKey) (Q : Knows)
    : Prop :=
  prepared_legacy x.1 = prepared_legacy r0 /\
  match x.2 with
  | Ok _ => exists b so, hb = option_list b /\ hs = option_list b /\ Q = holding Q0 b so /\ candidate b so x.1
      /\ (so = None \/ so = Some sink) /\ (is_Some b -> Lifecycle.generation (lifecycle x.1) = if begun then 1 else 0)
  | Err _ => hb = [] /\ hs = [] /\ Q = Q0 /\ rt_capture x.1 = None /\ session x.1 = None /\ 0 <= Lifecycle.generation (lifecycle x.1) <= 1
  | Panic => False
  end.

Definition checkpoint_ok (c : Prog (Result unit)) : Prop := forall hb hs Q, stable hb hs Q ->
  wp c hb hs Q (fun o hb' hs' Q' => hb' = hb /\ hs' = hs /\ Q' = Q /\ o <> Panic).

Section applying.
Variables (Q0 : Knows) (sink : RuntimeFaultSink) (begun : bool) (r0 : AppRuntimeState) (c : Prog (Result unit)).
Hypotheses (Hab : about_runtime Q0) (Hst : forall hb hs, stable hb hs Q0) (Hc : checkpoint_ok c).
Abbreviation Post := (applied Q0 sink begun r0).

(** [active] is held, and so nothing of it is in [r]. *)
Record failing_state (active : ActiveKeys) (r : AppRuntimeState) (hb hs : list CaptureKey) (Q : Knows) : Prop := mkFailing {
  fs_backend : hb = option_list active.1;
  fs_session : hs = option_list active.2;
  fs_keys : active.2 = active.1 \/ active.2 = None;
  fs_none : rt_capture r = None /\ session r = None;
  fs_range : 0 <= Lifecycle.generation (lifecycle r) <= 1;
  fs_legacy : prepared_legacy r = prepared_legacy r0;
  fs_knows : forall lane w, Q lane w -> Q0 lane w;
}.

Lemma wp_failing active r e hb hs Q : failing_state active r hb hs Q -> wp (failing_with active r e) hb hs Q Post.
Proof.
  intros [-> -> Hk [? ?] ? ? HQ]. by apply (wp_drop _ _ _ _ _ Q0).
Qed.

Lemma wp_checked active r p hb hs Q : failing_state active r hb hs Q -> stable hb hs Q -> wp p hb hs Q Post ->
  wp (checked_by c active r p) hb hs Q Post.
Proof.
  intros Hf Hs Hp. apply wp_bind. eapply wp_mono; [|by apply Hc]. intros o hb' hs' Q' (-> & -> & -> & Ho).
  destruct o; [done|by apply wp_failing|done].
Qed.

Lemma wp_or_fail {A} (o : Result A) active r (p : A -> Prog Applied) hb hs Q : failing_state active r hb hs Q ->
  (forall x, wp (p x) hb hs Q Post) -> wp (or_fail o active r p) hb hs Q Post.
Proof.
  intros Hf Hp. destruct o as [x|e|]; [apply Hp|by apply wp_failing|]. destruct Hf. by apply (wp_drop _ _ _ _ _ Q0).
Qed.

Lemma build_error p e : build_app_capture a p = Err e -> attempt_state e = Faulted \/ attempt_state e = WaitingForDevice.
Proof.
  assert (forall x, attempt_state (classify_legacy_attempt_error x) = Faulted) as Hl by done.
  assert (forall x, attempt_state (classify_pipewire_resolution_error x) = Faulted \/ attempt_state (classify_pipewire_resolution_error x) = WaitingForDevice) as Hp.
  { intros []; cbn; auto. }
  assert (forall A (o : outcome LambError A), map_err classify_legacy_attempt_error o = Err e -> attempt_state e = Faulted) as H1'.
  { intros A [x|x|]; cbn; intros [= <-]; apply Hl. }
  unfold build_app_capture. destruct (String.eqb _ "jack"); [|destruct (String.eqb _ "pipewire"); [|intros [= <-]; by left]].
  - destruct (map_err _ (answer (backend_started a))) eqn:E; cbn; intros [= <-]; left. by eapply H1'.
  - destruct (r_pipewire_config p); [|intros [= <-]; by left]. destruct (resolve_target_typed _ _) as [x|x|]; cbn; [|intros [= <-]; apply Hp|done].
    destruct (answer (pipewire_started a)) as [y|y|]; cbn; intros [= <-]. destruct y; [apply Hp|left; apply Hl].
Qed.

(** Nothing was started. *)
Lemma applied_none r res : candidate None None r -> prepared_legacy r = prepared_legacy r0 -> res = Ok tt -> Post (r, res) [] [] Q0.
Proof. intros Hr Hp ->. split; [done|]. exists None, None. split_and!; try done. by left. Qed.

Lemma applied_attempt r e : rt_capture r = None -> session r = None -> 0 <= Lifecycle.generation (lifecycle r) <= 1 ->
  prepared_legacy r = prepared_legacy r0 -> (attempt_state e = Faulted \/ attempt_state e = WaitingForDevice) ->
  Post (applied_attempt_error a e r) [] [] Q0.
Proof.
  intros Hr Hs Hg Hp He. unfold applied_attempt_error, apply_capture_attempt_error_to_state. destruct e as [cl st m]. cbn in He.
  assert (forall l : LifecycleState, Lifecycle.generation l = Lifecycle.generation (lifecycle r) -> daemon_state l = Degraded -> capture_state l <> Running -> capture_state l <> Stopped ->
    candidate None None (set_lifecycle (fun _ => l) (set_error m (r <| capture_health := None |>)) <| config_load_error := None |>)) as Hcand.
  { intros l E1 E2 E3 E4. constructor; cbn; try done; try (by intros [? [=]]); [by intros [?|?]|congruence|lia]. }
  destruct cl; cbn [class].
  - apply applied_none; [|done..]. by apply Hcand.
  - apply applied_none; [|done..]. apply Hcand; try done; cbn; destruct He; congruence.
  - cbn. split; [done|]. cbn. split_and!; (done || apply Hg).
Qed.

Lemma wp_start_app p r : blank r -> prepared_legacy r = prepared_legacy r0 -> wp (start_app a p begun sink c r) [] [] Q0 Post.
Proof.
  intros [] Hleg. unfold start_app.
  assert (forall r, rt_capture r = None -> session r = None -> 0 <= Lifecycle.generation (lifecycle r) <= 1 -> prepared_legacy r = prepared_legacy r0 ->
    failing_state (None, None) r [] [] Q0) as Hnone by (intros r' ? ? ? ?; constructor; try done; by left).
  assert (failing_state (None, None) r [] [] Q0) as Hfail by (apply Hnone; try done; lia).
  set (o := if begun then _ else _). assert (forall r1, o = Ok r1 -> rt_capture r1 = None /\ session r1 = None /\ prepared_legacy r1 = prepared_legacy r0
     /\ Lifecycle.generation (lifecycle r1) = (if begun then 1 else 0)) as Ho.
  { unfold o. destruct begun; [|by intros r1 [= <-]]. pose proof (begin_operation_cases (lifecycle r)) as Hb.
    destruct (begin_operation (lifecycle r)) as [l [g|e|]]; try done. destruct Hb as (-> & -> & _ & _). intros r1 [= <-]. cbn. split_and!; try done. lia. }
  clearbody o. destruct o as [r1|e|]; [|by apply wp_failing|destruct Hfail; by apply (wp_drop _ _ _ _ _ Q0)].
  destruct (Ho r1 eq_refl) as (Hr & Hs & Hl & Hg). assert (0 <= Lifecycle.generation (lifecycle r1) <= 1) as Hra by (rewrite Hg; destruct begun; lia).
  apply wp_checked; [by apply Hnone|done|]. rewrite Hr, Hs.
  apply (wp_drop _ _ _ _ _ Q0); try done; [by left|]. set (r2 := no_capture r1).
  assert (forall b s Q, (b = s \/ s = None) -> (forall lane w, Q lane w -> Q0 lane w) -> failing_state (b, s) r2 (option_list b) (option_list s) Q) as Hf2.
  { intros b s Q Hbs HQ. constructor; try done. cbn. destruct Hbs; auto. }
  destruct (build_app_capture a p) as [[[hh rate] target]|e|] eqn:Eb; [| |done].
  2: { apply wp_checked; [by apply (Hf2 None None); [left|]|done|]. apply applied_attempt; try done. by eapply build_error. }
  set (so := if hh then Some sink else None).
  apply wp_add_backend; [done..|]. intros k.
  assert (forall lane w, holding Q0 (Some k) so lane w -> Q0 lane w) as HQ by (intros lane w; apply holding_weaken).
  assert (forall hb hs, stable hb hs (holding Q0 (Some k) so)) as Hsk by (intros hb hs; apply stable_holding, Hst).
  apply wp_checked; [by apply (Hf2 (Some k) None); [right|]|done|]. apply wp_checked; [by apply (Hf2 (Some k) None); [right|]|done|].
  apply wp_or_fail; [by apply (Hf2 (Some k) None); [right|]|]. intros _.
  apply (wp_act _ _ _ _ _ [k] [k] (holding Q0 (Some k) so)); [|done|].
  { intros lane w Hi [Hq Hu]. split; [by apply inv_add_session|]. split; [by apply (Hab lane w)|done]. }
  pose proof (Hf2 (Some k) (Some k) (holding Q0 (Some k) so) (or_introl eq_refl) HQ) as Hf3.
  apply wp_checked; [done|done|]. apply wp_or_fail; [done|]. intros _. apply wp_checked; [done|done|]. apply wp_or_fail; [done|]. intros _.
  apply wp_checked; [done|done|]. split; [done|]. exists (Some k), so. split_and!; try done.
  - constructor; try done. intros k0. cbn. unfold so. destruct hh; [|done]. by intros [= <-].
  - unfold so. destruct hh; [by right|by left].
Qed.

Lemma candidate_none r : rt_capture r = None -> session r = None -> capture_health r = None -> next_retry_at (lifecycle r) = None ->
  daemon_state (lifecycle r) <> Stopping -> 0 <= Lifecycle.generation (lifecycle r) <= 1 -> candidate None None r.
Proof. intros Hr Hs Hh Hn Hd Hg. constructor; try done; congruence. Qed.

Lemma wp_apply loaded r : blank r -> prepared_legacy r = prepared_legacy r0 ->
  wp (apply_loaded_app_config config_path a loaded begun sink c r) [] [] Q0 Post.
Proof.
  intros Hbl Hleg. pose proof Hbl as []. unfold apply_loaded_app_config. rewrite bl_capture0, bl_session0.
  assert (forall r1, prepared_legacy r1 = prepared_legacy r0 -> candidate None None r1 ->
    wp (do! _ := act (drop_capture_then_session (None, None)) in Ret (r1, Ok tt)) [] [] Q0 Post) as Hret.
  { intros r1 E Hcand. apply (wp_drop _ _ _ _ _ Q0); try done; [by left|]. by apply applied_none. }
  assert (0 <= Lifecycle.generation (lifecycle r) <= 1) as Hra by lia.
  destruct (load_state loaded); [apply Hret; [done|by apply candidate_none]| |apply Hret; [done|by apply candidate_none]].
  destruct (resolve_active_profile _) as [[p|]|e|]; [| |split; [done|]; cbn; split_and!; (done || lia)|done].
  - destruct (String.eqb _ "auto"); [by apply wp_start_app; [constructor|]|]. apply Hret; [done|by apply candidate_none].
  - apply Hret; [done|by apply candidate_none].
Qed.
End applying.

Lemma checkpoint_done : checkpoint_ok (Ret (Ok tt)).
Proof. by intros hb hs Q _. Qed.

Lemma checkpoint_current token : checkpoint_ok (ask (fun w => if operation_is_current w token then Ok tt else Err (Control "capture operation superseded"))).
Proof. intros hb hs Q Hs. apply wp_ask. intros lane w Hi Hq. exists Q. split_and!; try done. by destruct (operation_is_current w token). Qed.

Lemma blank_empty family : blank (empty_runtime family).
Proof. done. Qed.

Lemma wp_install_app token og loaded old force_start activate r f : installing r f og old ->
  wp (install_app config_path a token og loaded old force_start activate) [] [] (knows r token f) finished.
Proof.
  intros Hin. unfold install_app. apply (wp_if_current _ _ _ _ _ r f); [apply stable_knows|done|apply superseded_stopping|].
  apply (wp_attempt og).
  { intros e. by apply (wp_install_failure token og og e r f old); [|left|]. }
  intros sink. set (Q0 := starting r token f og sink). apply wp_bind. eapply wp_mono.
  2: { apply (wp_apply Q0 sink false (empty_runtime AppFamily)); [apply about_starting|intros; apply stable_starting|apply checkpoint_current|apply blank_empty|done]. }
  assert (forall lane w, Q0 lane w -> knows r token f lane w) as HQ0 by (by intros lane w [? _]).
  intros [cand res] hb hs Q [_ Hres]. cbn [fst snd] in Hres. destruct res as [u|e|]; [| |done].
  2: { destruct Hres as (-> & -> & -> & _). apply (wp_if_current _ _ _ _ _ r f); [apply stable_starting|done|apply superseded_stopping|].
       by apply (wp_install_failure token og None _ r f old); [|right|]. }
  destruct Hres as (b & so & -> & -> & -> & [Cc Cs Ch Cr Cst Cd Cg] & Hso & _). cbn [rt_capture session]. 
  set (cand' := cand <| rt_config ::= _ |>). change (rt_capture cand') with (rt_capture cand). change (session cand') with (session cand).
  change (lifecycle cand') with (lifecycle cand). change (capture_health cand') with (capture_health cand). rewrite Cc, Cs.
  set (Q := holding Q0 b so). assert (forall lane w, Q lane w -> knows r token f lane w) as HQ by (intros lane w Hq; by eapply HQ0, holding_weaken).
  assert (stable (option_list b) (option_list b) Q) as Hst by (apply stable_holding, stable_starting).
  assert (forall Q, (forall lane w, Q lane w -> settled lane w) -> wp (dropping (b, b) superseded_response) (option_list b) (option_list b) Q finished) as Hsup.
  { intros Q' HQ'. by apply wp_dropping_superseded; [done|done|left|]. }
  assert (forall e, wp (dropping (b, b) (command_attempt_failure_with_generation a token og e (negb old))) (option_list b) (option_list b) Q finished) as Hfail.
  { intros e. apply (wp_drop _ _ _ _ _ (knows r token f)); try done; [by left|apply about_knows|apply stable_knows|].
    by apply (wp_install_failure token og og _ r f old); [|left|]. }
  apply (wp_if_current _ _ _ _ _ r f); [done|done|apply Hsup, stopping_settled|].
  destruct (negb (bool_decide (capture_state (lifecycle cand) = Running)) && negb (bool_decide (capture_state (lifecycle cand) = Stopped))) eqn:Est; [apply Hfail|].
  assert (next_retry_at (lifecycle cand) = None) as Hret.
  { apply Cst. apply andb_false_iff in Est as [E|E]; apply negb_false_iff, bool_decide_eq_true in E; auto. }
  match goal with |- wp (if activate then if_current _ _ (match _ with inl e => _ | inr _ => ?p end) else _) _ _ _ _ => assert (wp p (option_list b) (option_list b) Q finished) as Hpub end.
  { apply (wp_publish_installed token og old b (capture_health cand) _ sink so r f); [done|..].
    - intros k E. destruct (Ch k E) as [? [s Hs]]. split; [done|]. destruct Hso; congruence.
    - intros r1 g _. constructor; try done. intros Hb. by apply Cr.
    - intros Q' HQ' Hset. by apply Hsup. }
  destruct activate; [|exact Hpub]. apply (wp_if_current _ _ _ _ _ r f); [done|done|apply Hsup, stopping_settled|].
  destruct (config_saved a); [apply Hfail|exact Hpub].
Qed.

Lemma wp_install_prepared token og prepared old force_start activate r f : installing r f og old ->
  wp (install_prepared config_path a token og prepared old force_start activate) [] [] (knows r token f) finished.
Proof.
  intros Hin. apply (wp_if_current _ _ _ _ _ r f); [apply stable_knows|done|apply superseded_stopping|].
  destruct prepared; [by apply wp_install_app|by apply wp_install_legacy|]. by apply (wp_install_failure token og og _ r f old); [|left|].
Qed.

(** ** Commands *)

Definition operating (o : BegunOperation) (r : AppRuntimeState) : Prop := Lifecycle.generation (lifecycle r) = op_generation o.

Lemma wp_begun p : (forall o r, operating o r -> wp (p o) [] [] (knows r (token o) (op_generation o)) finished) -> wp (begun p) [] [] kept finished.
Proof.
  intros Hp lane w Hi Hk. pose proof (begin_command_spec clean lane w Hi) as Hs. 
  destruct (begin_new_operation_generation Command w) as [w' [o|e|]]; [| |done]; cbn [fst snd then_do].
  - destruct Hs as (Hi' & Hkn & Hg). exists [], [], (knows (runtime w') (token o) (op_generation o)). split_and!; [done|done|apply stable_knows|by apply Hp].
  - subst w'. exists [], [], kept. split_and!; [done|done|apply stable_kept|by apply finished_kept].
Qed.

Lemma wp_from_disk requested fail guard p Q : (forall e, wp (fail e) [] [] Q finished) ->
  (forall q, wp q [] [] Q finished -> wp (guard q) [] [] Q finished) -> (forall c, wp (p c) [] [] Q finished) ->
  wp (from_disk config_path control_socket a requested fail guard p) [] [] Q finished.
Proof.
  intros Hf Hg Hp. unfold from_disk. destruct (prepare_config_from_disk _ _ _) as [c|e|]; [|apply Hf|done].
  apply Hg. destruct (validate_candidate_socket _ _); [apply Hp|apply Hf|done].
Qed.

Lemma installing_begun o r f old : operating o r -> f = op_generation o -> (old = true -> rt_capture r = None) -> installing r f (Some (op_generation o)) old.
Proof. intros Ho -> Hold. split; [|done]. intros g [= <-]. split; [done|lia]. Qed.

Lemma wp_guard o r f Q p : stable [] [] Q -> (forall lane w, Q lane w -> knows r (token o) f lane w) -> wp p [] [] Q finished ->
  wp (if_current (token o) superseded_response p) [] [] Q finished.
Proof. intros Hs HQ Hp. by apply (wp_if_current _ _ _ _ _ r f); [|apply HQ|apply superseded_stopping|]. Qed.

Lemma wp_reload : wp (reload config_path control_socket a) [] [] kept finished.
Proof.
  apply wp_begun. intros o r Ho. pose proof (installing_begun o r (op_generation o) false Ho eq_refl ltac:(done)) as Hin. apply wp_from_disk.
  - intros e. by apply (wp_install_failure (token o) (Some (op_generation o)) (Some (op_generation o)) e r (op_generation o) false); [|left|].
  - intros q. apply (wp_guard o r (op_generation o)); [apply stable_knows|done].
  - intros c. by apply wp_install_prepared.
Qed.

Lemma wp_stop_capture : wp stop_capture [] [] kept finished.
Proof.
  apply wp_begun. intros o r Ho lane w Hi Hk. pose proof (detach_stopped_spec clean o r _ lane w Hi Hk Ho) as Hs.
  destruct (detach_stopped o w) as [w' old]. cbn [fst snd then_do]. destruct Hs as [Hset Hs]. destruct old as [active|].
  - destruct Hs as [Hi' Hact]. exists (option_list active.1), (option_list active.1), settled. split_and!; [done|done|apply stable_settled|].
    apply (wp_drop _ _ _ _ _ settled); try done; [by rewrite Hact|by left|apply about_settled|apply stable_settled|by apply finished_settled].
  - exists [], [], settled. split_and!; [done|done|apply stable_settled|]. apply wp_superseded; [apply stable_settled|]. intros. by apply settled_kept.
Qed.

(** Nothing runs, unless the mutex is poisoned. *)
Definition unowned (r : AppRuntimeState) : Knows := fun _ w => stop_flag w = false -> poisoned w = false -> rt_capture r = None.

Lemma stable_unowned hb hs r : stable hb hs (unowned r).
Proof.
  intros lane w lane' w' _ Ho Hu. unfold unowned. inversion Ho; subst; try done.
  - by destruct (report_fault_world k e w) as [->|(h & h' & n & _ & _ & _ & _ & _ & ->)].
  - by destruct (direct_stop_cases w) as [->|(e & g & -> & _)].
Qed.

Lemma wp_start_capture requested activate : wp (start_capture config_path control_socket a requested activate) [] [] kept finished.
Proof.
  apply wp_begun. intros o r Ho. unfold start_capture. set (f := op_generation o).
  intros lane w Hi Hk. unfold running_now, operation_is_current. cbn [fst snd then_do]. destruct Hk as [Kc Kr].
  destruct (stop_flag w) eqn:Est; cbn [negb andb].
  { exists [], [], stopping. split_and!; [done|done|apply stable_stopping|apply superseded_stopping]. }
  destruct (Kr eq_refl) as (Hr & He & Hf). rewrite He, Z.eqb_refl. destruct (current_capture_is_running w) eqn:Erun.
  - exists [], [], settled. split_and!; [done| |apply stable_settled|by apply finished_settled]. intros _. left.
    unfold current_capture_is_running in Erun. apply andb_true_iff in Erun as [_ Erun].
    destruct (rt_capture (runtime w)) eqn:Ec; [|done]. by destruct (i_running _ _ _ _ _ Hi).
  - set (Q := both (knows r (token o) f) (unowned r)).
    assert (stable [] [] Q) as Hst by (apply stable_both; [apply stable_knows|apply stable_unowned]).
    exists [], [], Q. split_and!; [done| |done|].
    { split; [constructor; [done|]; intros _; by split_and!|]. intros _ Hp. rewrite <-Hr. by apply (not_running_none clean lane). }
    clear lane w Hi Kc Kr Est Hr He Hf Erun. assert (forall lane w, Q lane w -> knows r (token o) f lane w) as HQ by (by intros lane w [? _]).
    apply wp_from_disk.
    + intros e. apply (wp_failure (token o) _ e false r f); [by intros g [= <-]|]. intros lane w [? Hu]. split; [done|]. right. by apply Hu.
    + intros q. by apply (wp_guard o r f).
    + intros cnd lane w Hi [Hk _]. pose proof (detach_old_spec clean o requested r f lane w Hi Hk Ho) as Hs.
      destruct (detach_old o requested w) as [w' old]. cbn [fst snd then_do]. destruct old as [active|].
      * destruct Hs as (Hi' & Hact & r' & Hk' & Hg' & Hnone). exists (option_list active.1), (option_list active.1), (knows r' (token o) f).
        split_and!; [done|done|apply stable_knows|]. apply (wp_drop _ _ _ _ _ (knows r' (token o) f)); try done; [by rewrite Hact|by left|apply about_knows|apply stable_knows|].
        apply (wp_guard o r' f); [apply stable_knows|done|]. apply wp_bind. eapply wp_mono; [|apply wp_install_prepared; by apply installing_begun].
        done.
      * destruct Hs as [Hi' Hset]. exists [], [], settled. split_and!; [done|done|apply stable_settled|]. apply wp_superseded; [apply stable_settled|]. intros. by apply settled_kept.
Qed.
(** ** Jobs *)

(** Whether the daemon is still at a generation. *)
Definition at_generation (g : Z) : Knows := fun _ w => stop_flag w = false -> gen w = g.
Definition past_generation (g : Z) : Knows := fun _ w => stop_flag w = true \/ gen w <> g.

Lemma runtime_kept lane w lane' w' : other clean (lane, w) (lane', w') -> stop_flag w' = true \/ (runtime w' = runtime w /\ stop_flag w' = stop_flag w).
Proof.
  intros Ho. inversion Ho; subst; try (by right); try (by left).
  - destruct (report_fault_world k e w) as [->|(h & h' & n & _ & _ & _ & _ & _ & ->)]; by right.
  - destruct (direct_stop_cases w) as [->|(e & g & -> & _)]; [by right|by left].
Qed.

Lemma stable_at hb hs g : stable hb hs (at_generation g).
Proof. intros lane w lane' w' _ Ho Hq. unfold at_generation. destruct (runtime_kept _ _ _ _ Ho) as [->|[-> ->]]; done. Qed.

Lemma stable_past hb hs g : stable hb hs (past_generation g).
Proof. intros lane w lane' w' _ Ho Hq. unfold past_generation. destruct (runtime_kept _ _ _ _ Ho) as [->|[-> ->]]; [by left|done]. Qed.

(** The decision of a job of generation [g] changes nothing but the poison,
    unless it ends the daemon. *)
Lemma wp_decision g (next : ScheduledGenerationDecision -> Prog unit) Q : stable [] [] Q ->
  (forall lane w, Q lane w -> Q lane (clear_poison w)) ->
  wp (next Current) [] [] (both Q (at_generation g)) finished ->
  (forall d, d <> Current -> wp (next d) [] [] (both Q (past_generation g)) finished) ->
  (forall d, d <> Current -> wp (next d) [] [] stopping finished) ->
  wp (then_do (scheduled_generation_decision g) next) [] [] Q finished.
Proof.
  intros Hs Hp H1' H2' H3'. apply wp_bind. intros lane w Hi Hq. pose proof (decide_spec clean g lane w Hi) as Hd.
  destruct (decide_generation g w) as [w' [d dropped]]. cbn [fst snd then_do]. destruct dropped as [active|].
  - destruct Hd as (Hi' & Hact & ->). exists (option_list active.1), (option_list active.1), (fun _ _ => True). split_and!; [done|done|apply stable_true|].
    apply (wp_drop _ _ _ _ _ (fun _ _ => True)); try done; [by rewrite Hact|by left|].
    apply (wp_act _ _ _ _ _ [] [] stopping); [|apply stable_stopping|by apply H3'].
    intros lane1 w1 Hi1 _. split; [by apply inv_fatal|done].
  - destruct Hd as (Hi' & Hw & Hcur & Hpast).
    assert (Q lane w') as Hq' by (destruct Hw as [->| ->]; [done|by apply Hp]).
    assert (stop_flag w' = stop_flag w /\ gen w' = gen w) as [Es Eg] by (by destruct Hw as [->| ->]).
    destruct (decide (d = Current)) as [->|Hn].
    + exists [], [], (both Q (at_generation g)). split_and!; [done| |by apply stable_both, stable_at|done]. split; [done|]. intros _. rewrite Eg. by apply Hcur.
    + exists [], [], (both Q (past_generation g)). split_and!; [done| |by apply stable_both, stable_past|by apply H2'].
      split; [done|]. unfold past_generation. rewrite Es, Eg. by apply Hpast.
Qed.

Lemma wp_ret_finished (Q : Knows) : (forall lane w, inv [] [] lane w -> Q lane w -> kept lane w) -> wp (Ret tt) [] [] Q finished.
Proof. by intros HQ. Qed.

Lemma stopping_kept lane w : inv [] [] lane w -> stopping lane w -> kept lane w.
Proof. intros Hi Hs. by apply settled_kept; [apply stopping_settled|]. Qed.

(** Before a retry is begun: the announced one is kept, or it is this one, and
    then nothing is published. *)
Definition retrying (g : Z) : Knows := fun lane w => stop_flag w = false ->
  (gen w = g -> rt_capture (runtime w) = None) /\ (gen w <> g -> kept lane w).

Lemma stable_retrying g : stable [] [] (retrying g).
Proof.
  intros lane w lane' w' Hi Ho Hq Hs. destruct (runtime_kept _ _ _ _ Ho) as [|[E1 E2]]; [congruence|]. rewrite E2 in Hs. rewrite E1.
  destruct (Hq Hs) as [Hc Hk]. split; [done|]. intros Hne. eapply (stable_kept clean); [exact Hi|exact Ho|]. by apply Hk.
Qed.

Lemma retrying_past g lane w : inv [] [] lane w -> retrying g lane w -> past_generation g lane w -> kept lane w.
Proof.
  intros Hi Hr Hp. destruct (stop_flag w) eqn:E; [by apply stopping_kept|]. destruct Hp as [|Hp]; [congruence|]. by apply Hr.
Qed.

Lemma wp_if_scheduled g token p r f : Lifecycle.generation (lifecycle r) = g ->
  wp p [] [] (knows r token f) finished -> wp (if_scheduled g token p) [] [] (knows r token f) finished.
Proof.
  intros Hg Hp. apply wp_decision.
  - apply stable_knows.
  - intros lane w Hk. by apply (about_knows r token f lane w).
  - intros lane w Hi [[Kc Kr] _]. cbn. unfold operation_is_current. destruct (stop_flag w) eqn:E; cbn [negb andb].
    + exists [], [], stopping. split_and!; [done|done|apply stable_stopping|]. apply wp_ret_finished. by apply stopping_kept.
    + destruct (Kr eq_refl) as (Hr & He & Hf). rewrite He, Z.eqb_refl. exists [], [], (knows r token f). split_and!; [done| |apply stable_knows|done].
      constructor; [done|]. intros _. by split_and!.
  - intros d Hn. destruct d; [done|..]; apply wp_ret_finished; intros lane w Hi [[_ Kr] Hpast]; apply stopping_kept; try done;
      destruct (stop_flag w) eqn:E; try done; destruct Hpast as [|Hpast]; try congruence; destruct (Kr eq_refl) as [Hr _]; congruence.
  - intros d Hn. destruct d; [done|..]; apply wp_ret_finished; by apply stopping_kept.
Qed.

Lemma wp_retry g : wp (execute_retry_operation config_path control_socket a g) [] [] (retrying g) finished.
Proof.
  apply wp_decision.
  - apply stable_retrying.
  - intros lane w Hq Hs. destruct (Hq Hs) as [Hc Hk]. split; [done|]. intros Hne. by apply (about_kept lane w), Hk.
  - intros lane w Hi [Hq Hat]. pose proof (begin_retry_spec clean lane w Hi) as Hb.
    destruct (begin_command_operation w) as [w' [token|e|]]; cbn [fst snd then_do]; [| |done].
    + destruct Hb as (Hi' & Hk & Hs). destruct (Hq Hs) as [Hnone _]. specialize (Hnone (Hat Hs)). pose proof (Hat Hs) as Hg.
      set (f := gen w + 1) in *. set (r := runtime w) in *. clearbody r f. exists [], [], (knows r token f). split_and!; [done|done|apply stable_knows|].
      assert (installing r f None false) as Hin by done.
      assert (forall e, wp (do! x := command_attempt_failure a token e false in signal_fatal_response x) [] [] (knows r token f) finished) as Hfail.
      { intros e. apply wp_bind. eapply wp_mono; [|apply (wp_failure token None e false r f); [done|by split; [|right]]].
        intros x hb hs Q (-> & -> & HQ). by apply wp_signal_response. }
      apply wp_if_scheduled; [done|]. destruct (prepare_config_from_disk _ _ _) as [cc|e|]; [|apply Hfail|done].
      apply wp_if_scheduled; [done|]. destruct (validate_candidate_socket _ _) as [u|e|]; [|apply Hfail|done].
      apply wp_if_scheduled; [done|]. apply wp_bind. eapply wp_mono; [|by apply wp_install_prepared].
      intros x hb hs Q (-> & -> & HQ). by apply wp_signal_response.
    + destruct Hb as [-> Hb]. destruct (decide (class e = Fatal)) as [Hf|Hf].
      * exists [], [], (fun _ _ => True). split_and!; [done|done|apply stable_true|]. rewrite bool_decide_eq_true_2 by done. apply (wp_signal_fatal _ tt).
      * exists [], [], stopping. split_and!; [done|by apply Hb|apply stable_stopping|]. rewrite bool_decide_eq_false_2 by done. apply wp_ret_finished. by apply stopping_kept.
  - intros d Hn. destruct d; [done|..]; apply wp_ret_finished; intros lane w Hi [Hq Hp]; by eapply retrying_past.
  - intros d Hn. destruct d; [done|..]; apply wp_ret_finished; by apply stopping_kept.
Qed.

Lemma wp_fault g attempt fl : wp (publish_runtime_fault a g attempt fl) [] [] kept finished.
Proof.
  apply wp_decision.
  - apply stable_kept.
  - intros lane w Hk. by apply (about_kept lane w).
  - intros lane w Hi [Hk _]. exists [], [], kept. pose proof (publish_fault_spec clean (clock_now a) g attempt fl lane w Hi Hk) as [? ?].
    split_and!; [done|done|apply stable_kept|by apply finished_kept].
  - intros d Hn. destruct d; [done|..]; apply wp_ret_finished; by intros lane w _ [? _].
  - intros d Hn. destruct d; [done|..]; apply wp_ret_finished; by apply stopping_kept.
Qed.

Lemma wp_request r : wp (handle_request config_path control_socket a r) [] [] kept finished.
Proof. destruct r; [apply wp_start_capture|apply wp_stop_capture|apply wp_reload]. Qed.

(** What the worker knows when it takes a job. *)
Definition job_start (job : OperationJob) : Knows :=
  match job with Internal (Retry g) => retrying g | _ => kept end.

Lemma stable_job job : stable [] [] (job_start job).
Proof. destruct job as [|[]]; try apply stable_kept. apply stable_retrying. Qed.

Lemma wp_job job : wp (run_job config_path control_socket job a) [] [] (job_start job) finished.
Proof.
  assert (forall p : Prog unit, wp p [] [] (job_start job) finished -> forall r : option ControlResponse, wp (do! _ := p in Ret r) [] [] (job_start job) finished) as Hret.
  { intros p Hp r. apply wp_bind. eapply wp_mono; [|exact Hp]. intros u hb hs Q Hf. exact Hf. }
  apply wp_bind. apply (wp_mono clean _ _ _ _ finished); [by intros x hb hs Q Hf|]. apply wp_bind, wp_ask. intros lane w Hi Hq. destruct (stop_flag w) eqn:E.
  - exists stopping. split_and!; [done|apply stable_stopping|]. apply finished_stopping.
  - exists (job_start job). split_and!; [done|apply stable_job|]. clear lane w Hi Hq E. destruct job as [r|[g|g attempt fl]]; cbn [job_start].
    + apply wp_bind. eapply wp_mono; [|apply wp_request]. intros x hb hs Q (-> & -> & HQ). apply wp_bind.
      eapply wp_mono; [|by apply wp_signal_response]. intros u hb hs Q' Hf. exact Hf.
    + apply Hret, wp_retry.
    + apply Hret, wp_fault.
Qed.
(** ** The startup *)

Definition fresh : Knows := knows initial_runtime 0 0.

Lemma fresh_settled lane w : fresh lane w -> settled lane w.
Proof. intros [_ Hk] E. left. by destruct (Hk E) as [-> _]. Qed.

(** What the startup has prepared. *)
Definition prepared_runtime (x : Applied) (hb hs : list CaptureKey) (Q : Knows) : Prop :=
  match x.2 with
  | Ok _ => exists b so, hb = option_list b /\ hs = option_list b /\ Q = holding fresh b so /\ candidate b so x.1
      /\ (forall s, so = Some s -> sink_generation s = Lifecycle.generation (lifecycle x.1))
      /\ (is_Some (prepared_legacy x.1) -> b = None /\ next_retry_at (lifecycle x.1) = None)
  | Err _ => hb = [] /\ hs = [] /\ Q = fresh
  | Panic => False
  end.

Lemma prepared_none r res : candidate None None r -> (is_Some (prepared_legacy r) -> next_retry_at (lifecycle r) = None) -> res = Ok tt ->
  prepared_runtime (r, res) [] [] fresh.
Proof. intros Hr Hp ->. exists None, None. split_and!; try done. intros E. split; [done|]. by apply Hp. Qed.

Lemma candidate_forget so r : candidate None so r -> candidate None None r.
Proof. intros [Cc Cs Ch Cr Cst Cd Cg]. constructor; try done. intros k Hk. by destruct (Ch k Hk). Qed.

Lemma wp_prepare prepared : wp (prepare_runtime config_path a prepared) [] [] fresh prepared_runtime.
Proof.
  destruct prepared as [loaded|p|family fallback message]; cbn [prepare_runtime].
  2, 3: apply prepared_none; [by apply candidate_none|done|done].
  intros lane w Hi Hq.
  assert (exists next o, allocate_capture_attempt_id w = (w <| next_attempt := next |>, o) /\ o <> Panic) as (next & o & E & Ho).
  { unfold allocate_capture_attempt_id. destruct (add_checked _ 1); [|exists (Supervisor.next_attempt w); eexists; split; [by destruct w|done]].
    eexists _, _. split; [done|]. by destruct (checked_after _). }
  rewrite E. cbn [fst snd then_do]. assert (inv [] [] lane (w <| next_attempt := next |>)) as Hi' by (eapply inv_counters; try exact Hi; try done; apply Hi).
  exists [], [], fresh. split_and!; [done|by apply (about_knows initial_runtime 0 0 lane w)|apply stable_knows|]. clear lane w Hi Hq Hi' E next.
  destruct o as [attempt|e|]; [|by split_and!|done]. set (sink := fault_sink 1 attempt 0). apply wp_bind. eapply wp_mono.
  2: { apply (wp_apply fresh sink true initial_runtime); [apply about_knows|intros; apply stable_knows|apply checkpoint_done|apply blank_empty|done]. }
  intros [r res] hb hs Q [Hleg Hres]. cbn [fst snd] in *. destruct res as [u|e|]; [| |done].
  - destruct Hres as (b & so & -> & -> & -> & Hc & Hso & Hg). destruct b as [k|].
    + exists (Some k), so. split_and!; try done; [|cbn; rewrite Hleg; by intros [? [=]]]. intros s Hs. destruct Hso as [Hso|Hso]; [congruence|].
      assert (s = sink) as -> by congruence. by cbn; rewrite Hg.
    + apply prepared_none; [by eapply candidate_forget|rewrite Hleg; by intros [? [=]]|by destruct u].
  - destruct Hres as (-> & -> & -> & Hr & Hs & Hra). cbn [rt_capture session]. rewrite Hr, Hs.
    apply (wp_drop _ _ _ _ _ fresh); try done; [by left|apply about_knows|apply stable_knows|].
    unfold apply_capture_attempt_error_to_state. set (e' := classify_legacy_attempt_error e). set (r' := (take_active_capture r).1).
    assert (attempt_state e' = Faulted) as He' by done. assert (prepared_legacy r' = None) as Hleg' by exact Hleg. clearbody e'. destruct e' as [cl st m]. cbn in He'. subst st.
    assert (forall l : LifecycleState, Lifecycle.generation l = Lifecycle.generation (lifecycle r) -> daemon_state l = Degraded -> capture_state l = Faulted ->
      candidate None None (set_lifecycle (fun _ => l) (set_error m r'))) as Hcand.
    { intros l E1 E2 E3. constructor; cbn; try done; try congruence; try lia. intros [?|?]; congruence. }
    destruct cl; cbn [class]; [apply prepared_none|apply prepared_none|by split_and!]; try done; try (by apply Hcand); cbn; rewrite Hleg; by intros [? [=]].
Qed.

(** The legacy start: it is known that nothing is published and no retry is
    announced. *)
Definition legacy_ready (r : AppRuntimeState) : Prop := rt_capture r = None /\ next_retry_at (lifecycle r) = None.

Lemma legacy_settled r f lane w : legacy_ready r -> knows r 0 f lane w -> settled lane w.
Proof. intros [_ Hn] [_ Hk] E. left. by destruct (Hk E) as [-> _]. Qed.

Lemma wp_failed_start e r f (Q : Knows) : legacy_ready r -> (forall lane w, Q lane w -> knows r 0 f lane w) ->
  wp (failed_start a e) [] [] Q finished.
Proof.
  intros Hr HQ. unfold failed_start, publish_capture_attempt_error. case_bool_decide as Hf.
  { apply finished_settled. intros lane w Hq. by eapply legacy_settled, HQ. }
  apply wp_bind, (wp_mono clean _ _ _ _ finished); [by intros x hb hs Q' Hx|]. intros lane w Hi Hq. destruct (HQ lane w Hq) as [[Hc _] _]. destruct Hr as [Hr _]. rewrite Hr in Hc.
  pose proof (publish_attempt_spec clean (clock_now a) e lane w Hi Hf Hc) as Hs.
  destruct (publish_attempt_error _ _ w) as [w' [active fatal]]. cbn [fst snd then_do]. destruct Hs as (Hi' & Hact & Hcl & Hk).
  exists (option_list active.1), (option_list active.1), (match fatal with None => kept | Some _ => fun _ _ => True end). split; [done|].
  split; [destruct fatal; [done|by apply Hk]|]. split.
  { destruct fatal; [apply stable_true|]. apply stable_kept_held. intros E. by rewrite (Hcl E). }
  destruct fatal as [m|].
  - apply (wp_drop _ _ _ _ _ (fun _ _ => True)); try done; [by rewrite Hact|by left|].
    intros lane1 w1 Hi1 _. exists [], [], stopping. split_and!; [by apply inv_fatal|done|apply stable_stopping|apply finished_stopping].
  - apply (wp_drop _ _ _ _ _ kept); try done; [by rewrite Hact|by left|apply about_kept|apply stable_kept].
Qed.

Lemma wp_configured_start r f : (is_Some (prepared_legacy r) -> legacy_ready r) ->
  wp (attempt_configured_start a) [] [] (both kept (knows r 0 f)) finished.
Proof.
  intros Hleg. unfold attempt_configured_start. apply wp_bind, wp_ask. intros lane w Hi [Hk Hkn].
  assert (is_Some (if poisoned w then None else prepared_legacy (runtime w)) -> legacy_ready r) as Hready.
  { intros E. apply Hleg. destruct Hkn as [[_ <-] _]. by destruct (poisoned w); [destruct E|]. }
  destruct (if poisoned w then None else prepared_legacy (runtime w)) as [p|].
  2: { exists kept. split_and!; [done|apply stable_kept|by apply finished_kept]. }
  specialize (Hready (mk_is_Some _ _ eq_refl)). exists (knows r 0 f). split_and!; [done|apply stable_knows|]. clear lane w Hi Hk Hkn Hleg.
  apply (wp_attempt None).
  { intros e. by apply (wp_failed_start e r f). }
  intros sink. unfold start. set (Q := starting r 0 f None sink). assert (forall lane w, Q lane w -> knows r 0 f lane w) as HQ by (by intros lane w [? _]).
  assert (forall c so, active_health c = None \/ active_health c = Some (active_key c) /\ so = Some sink ->
    wp match recovery_error a "legacy" with
       | Err e => do! _ := act (drop_capture_then_session (keys_of c)) in failed_start a (classify_legacy_attempt_error e)
       | Panic => Abort
       | Ok _ => do! published := section (publish_initial c) in
                 match published with
                 | Ok _ => Ret (Ok tt)
                 | Err e => do! _ := act (drop_capture_then_session (keys_of c)) in Ret (Err e)
                 | Panic => do! _ := act (drop_capture_then_session (keys_of c)) in Abort
                 end
       end [active_key c] [active_key c] (holding Q (Some (active_key c)) so) finished) as Hrest.
  { intros c so Hc. pose proof (recovery_total "legacy") as Htot. destruct (recovery_error a "legacy") as [u|e|]; [| |done].
    2: { apply (wp_drop _ _ _ _ _ (knows r 0 f)); try done; [by left|apply about_knows|by intros lane w [? _]; apply HQ|apply stable_knows|by apply (wp_failed_start _ r f)]. }
    intros lane w Hi [[Hk Hb] Hu].
    pose proof (publish_initial_spec clean c r f sink lane w Hi Hk (proj1 Hready)) as Hs.
    assert (let '(w', res) := publish_initial c w in match res with Ok _ => inv [] [] lane w' /\ settled lane w' | _ => w' = w end) as Hs'.
    { apply Hs; [|exact Hb]. destruct Hc as [|[? ->]]; [by left|by right]. }
    clear Hs. destruct (publish_initial c w) as [w' res]. cbn [fst snd then_do]. destruct res as [x|e|].
    - destruct Hs'. exists [], [], settled. split_and!; [done|done|apply stable_settled|by apply finished_settled].
    - subst w'. exists [active_key c], [active_key c], (knows r 0 f). split_and!; [done|done|apply stable_knows|].
      apply (wp_drop _ _ _ _ _ (knows r 0 f)); try done; [by left|apply about_knows|apply stable_knows|].
      apply finished_settled. intros lane1 w1. by apply legacy_settled.
    - subst w'. exists [active_key c], [active_key c], (knows r 0 f). split_and!; [done|done|apply stable_knows|].
      apply (wp_drop _ _ _ _ _ (knows r 0 f)); try done; [by left|apply about_knows|apply stable_knows]. }
  destruct (start_legacy_capture a p) as [[[] state]|e|]; cbn [then_do]; [| |by apply (wp_failed_start e r f)|done].
  - apply wp_add_capture; [apply about_starting|intros; apply stable_starting|]. intros k. by apply (Hrest (mkActive k (Some k) state)); right.
  - apply wp_add_capture; [apply about_starting|intros; apply stable_starting|]. intros k. by apply (Hrest (mkActive k None state)); left.
Qed.

Lemma wp_startup prepared : wp (startup config_path a prepared) [] [] fresh finished.
Proof.
  apply wp_bind. eapply wp_mono; [|apply wp_prepare]. intros [r res] hb hs Q Hr. cbn [prepared_runtime snd] in Hr. destruct res as [u|e|]; [| |done].
  2: { destruct Hr as (-> & -> & ->). apply finished_settled, fresh_settled. }
  destruct Hr as (b & so & -> & -> & -> & Hc & Hs & Hleg). cbn [fst] in *. assert (rt_capture r = b) as <- by apply Hc.
  apply (wp_act _ _ _ _ _ [] [] (both kept (knows r 0 (Lifecycle.generation (lifecycle r) + 1)))).
  - intros lane w Hi Hq. destruct (install_runtime_spec clean r so lane w) as (? & ? & ?); try done.
    + by eapply holding_weaken.
    + intros k Hk. by eapply holding_unarmed.
  - apply stable_both; [apply stable_kept|apply stable_knows].
  - by apply wp_configured_start.
Qed.
End answers.
End invariant.
