(* ===== verification/SupervisorTheorems.v ===== *)
(** * The supervisor keeps its promises

    Whatever clients, faults, stops and poisonings come in whatever order: the
    backends and sessions that exist are the published capture and what the
    running operation holds; a fault is reported with the authority of the
    current generation; an announced retry is not lost. *)
From stdpp Require Import gmap.
From S2P Require Import Prelude.
From S2P Require Import Errors.
From S2P Require Import MemoryPlan.
From S2P Require Import Lifecycle.
From S2P Require Import RetryScheduler.
From S2P Require Import InputIdentity.
From S2P Require Import ExportPattern.
From S2P Require Import PipeWireHealth.
From S2P Require Import SessionInputs.
From S2P Require Import Bootstrap.
From S2P Require Import Supervisor.
From S2P Require Import Transactions.
From S2P Require Import Daemon.
From S2P Require Import SupervisorSpec.
From S2P Require Import SupervisorEnv.
From S2P Require Import SupervisorSections.
From S2P Require Import SupervisorPublish.
From S2P Require Import SupervisorPrograms.

(** ** Reachable states *)

(** The operations of the scheduler that wait in the lane. *)
Definition scheduled_of : list (OperationJob * Answers) -> list ScheduledOperation :=
  base.omap (fun j => match j.1 with Internal op => Some op | Client _ => None end).

Definition lane_of (s : System) : list ScheduledOperation := scheduled_of (jobs s).

Lemma scheduled_app l l' : scheduled_of (l ++ l') = scheduled_of l ++ scheduled_of l'.
Proof. apply omap_app. Qed.

Section daemon.
Context `{Platform} `{ConfigLanguage} `{Digest} (config_path control_socket : string).
Variable clean : bool.

Record sys_inv (s : System) : Prop := mkSysInv {
  si_worker : exists hb hs Q, inv clean hb hs (lane_of s) (world s) /\ Q (lane_of s) (world s)
    /\ stable clean hb hs Q /\ wp clean (worker s) hb hs Q (finished clean);
  si_listener : listener s = Ret tt \/ listener s = begin_shutdown \/ listener s = act force_shutdown \/ listener s = Abort;
  si_released : released s = true -> rt_capture (runtime (world s)) = None /\ ended (worker s) = true /\ jobs s = [];
}.

Lemma boot_inv prepared a : sys_inv (boot config_path prepared a).
Proof.
  split; [|by left|done]. exists [], [], fresh. split_and!.
  - constructor; cbn; try done; try (split; constructor); try lia.
    + intros k [Hk|[h Hk]]; [by apply elem_of_nil in Hk|by rewrite lookup_empty in Hk].
    + intros _ g Hin. by apply elem_of_nil in Hin.
  - constructor; [done|]. intros _. split_and!; [done..|]. intros g Hin. set_solver.
  - apply stable_knows.
  - cbn. apply wp_bind. eapply wp_mono; [|apply wp_startup]. done.
Qed.

(** A step of another thread. *)
Lemma other_inv s s' : sys_inv s -> other clean (lane_of s, world s) (lane_of s', world s') -> worker s' = worker s ->
  released s' = released s -> (released s = true -> jobs s' = jobs s) ->
  (listener s' = Ret tt \/ listener s' = begin_shutdown \/ listener s' = act force_shutdown \/ listener s' = Abort) -> sys_inv s'.
Proof.
  intros [(hb & hs & Q & Hi & HQ & Hs & Hw) _ Hr] Ho Ew Er Ej Hl. split; [|done|].
  - exists hb, hs, Q. rewrite Ew. split_and!; [by eapply inv_other|by eapply Hs|done|done].
  - rewrite Er. intros E. destruct (Hr E) as (Hc & He & Hj). rewrite Ew, (Ej E). split_and!; try done.
    assert (rt_capture (runtime (world s')) = rt_capture (runtime (world s))) as ->; [|done].
    inversion Ho; subst; try done.
    + by destruct (report_fault_world k e (world s)) as [->|(h & h' & n & _ & _ & _ & _ & _ & ->)].
    + by destruct (direct_stop_cases (world s)) as [->|(e & g & -> & _)].
Qed.

Lemma release_inv hb hs lane w : inv clean hb hs lane w -> hb = [] -> hs = [] -> stop_flag w = true ->
  inv clean [] [] [] (release_capture_for_shutdown w) /\ rt_capture (runtime (release_capture_for_shutdown w)) = None
  /\ stopping [] (release_capture_for_shutdown w).
Proof.
  intros Hi -> -> Hs.
  assert (inv clean [] [] [] w) as Hi0.
  { replace w with (w <| scheduler := scheduler w |>) by (by destruct w). apply (inv_scheduler clean [] [] lane); try done.
    intros g. unfold operations. rewrite !elem_of_app. intros [Hg|]; [set_solver|by right]. }
  pose proof Hi0 as []. unfold release_capture_for_shutdown. cbn [take_active_capture]. rewrite i_session.
  set (w1 := _ <| poisoned := false |>).
  assert (inv clean (option_list (rt_capture (runtime w))) (option_list (rt_capture (runtime w))) [] w1) as Hi1.
  { apply (inv_detach clean [] w); try done; apply Hi0. }
  destruct (drop_fields (rt_capture (runtime w), rt_capture (runtime w)) w1) as (E1 & E2 & E3 & E4).
  split; [|split; [by rewrite E1|unfold stopping; by rewrite E3]].
  destruct (rt_capture (runtime w)) as [k|]; [|exact Hi1]. apply inv_drop; [exact Hi1|by left].
Qed.

Lemma step_inv e s s' : sys_inv s -> (clean = true -> e <> RuntimePoisoned) -> step config_path control_socket e s = Some s' -> sys_inv s'.
Proof.
  intros Hs Hcl. pose proof Hs as [(hb & hs & Q & Hi & HQ & Hst & Hw) Hl Hr]. destruct e as [r a| | | |k e|a| |]; cbn [step].
  - destruct (serving s && negb (released s)) eqn:E; [|done]. intros [= Es].
    assert (lane_of s' = lane_of s) as El by (rewrite <-Es; unfold lane_of; cbn; by rewrite scheduled_app, app_nil_r). subst s'.
    split; [|done|].
    + exists hb, hs, Q. by rewrite El.
    + cbn. intros Er. apply andb_true_iff in E as [_ E]. by rewrite Er in E.
  - destruct (listener s); [|done..]. destruct (serving s); [|done]. intros [= <-]. split; [by exists hb, hs, Q|by right; left|done].
  - destruct Hl as [El|[El|[El|El]]]; rewrite El; cbn [begin_shutdown act section then_do]; try done.
    + intros E. assert (exists l w, s' = s <| world := w |> <| listener := l |> /\ w = (begin_new_operation_generation DirectStop (world s)).1
        /\ (l = Ret tt \/ l = act force_shutdown \/ l = Abort)) as (l & w & -> & -> & Hl').
      { destruct (begin_new_operation_generation DirectStop (world s)) as [w [o|e|]]; injection E as <-; [exists (Ret tt), w|exists (act force_shutdown), w|exists Abort, w]; (split; [reflexivity|split; [reflexivity|auto]]). }
      apply (other_inv s); try done; [constructor|]. cbn. naive_solver.
    + intros [= <-]. apply (other_inv s); try done; [constructor|by left].
  - destruct (worker s) as [res|B f next|] eqn:Ew; [| |done].
    + destruct Hw as (-> & -> & Hk). destruct res as [[u|er|]|r]; try done.
      { intros [= <-]. split; [|done|]; [|intros E; destruct (Hr E) as (? & _ & ?); by split_and!].
        exists [], [], Q. split_and!; done. }
      destruct (jobs s) as [|[job a] rest] eqn:Ej; [done|]. intros [= <-].
      assert (released s = false) as Erel. { destruct (released s); [|done]. destruct (Hr eq_refl) as (_ & _ & ?). congruence. }
      set (w' := (world s) <| scheduler ::= notify_lane_available |>). split; [|done|cbn; congruence].
      assert (forall op, Retry op ∈ lane_of s -> Retry op ∈ scheduled_of rest
                \/ job = Internal (Retry op)) as Hlane.
      { intros op. unfold lane_of. rewrite Ej. cbn. destruct job as [c|op']; [by left|]. intros [->|?]%elem_of_cons; [by right|by left]. }
      assert (forall op, Retry op ∈ scheduled_of rest -> Retry op ∈ lane_of s) as Hsub.
      { intros op Hin. unfold lane_of. rewrite Ej. cbn. destruct job; [done|]. by apply elem_of_cons; right. }
      exists [], [], (job_start clean job). split_and!.
      * apply (inv_scheduler clean [] [] (lane_of s)); try done. intros g. unfold operations. rewrite !elem_of_app.
        intros [Hg|Hg]; [left; by apply Hsub|by right].
      * specialize (Hk _ _ Hi HQ).
        assert ((forall g, job = Internal (Retry g) -> gen (world s) <> g) -> retry_kept clean (scheduled_of rest) w') as Hkept.
        { intros Hne Hc E Hg due Hd. destruct (Hk Hc E Hg due Hd) as [|Hin]; [by left|]. right. destruct (Hlane _ Hin) as [|Hjob]; [done|].
          by destruct (Hne _ Hjob). }
        destruct job as [c|[g|g attempt fl]]; cbn [job_start]; [by apply Hkept| |by apply Hkept].
        intros E. split; [|intros Hne; apply Hkept; by intros g' [= <-]]. intros Hg. cbn in Hg, E.
        apply (i_retries _ _ _ _ _ Hi E g); [|done]. apply lane_in. unfold lane_of. rewrite Ej. cbn. by left.
      * apply stable_job.
      * apply wp_job.
    + intros E. destruct (Hw (lane_of s) (world s) Hi HQ) as (hb' & hs' & Q' & H1' & H2' & H3' & H4').
      destruct (f (world s)) as [w b]. injection E as <-. cbn [fst snd] in *. split; [by exists hb', hs', Q'|done|].
      intros Er. by destruct (Hr Er) as (_ & ? & _).
  - intros [= <-]. apply (other_inv s); try done. constructor.
  - destruct (serving s && negb (released s) && negb (is_stopped (scheduler (world s)))) eqn:E; [|done].
    apply andb_true_iff in E as [[_ Er%negb_true_iff]%andb_true_iff Es%negb_true_iff].
    destruct (pending (scheduler (world s))) as [p|] eqn:Ep; [|done]. intros [= Es']. apply (other_inv s); [done| |by rewrite <-Es'|by rewrite <-Es'|congruence|by rewrite <-Es'].
    assert (lane_of s' = lane_of s ++ [operation p]) as -> by (rewrite <-Es'; unfold lane_of; cbn; by rewrite scheduled_app). subst s'. by constructor.
  - intros [= <-]. apply (other_inv s); try done. constructor. intros E. by apply Hcl.
  - destruct (serving s && stop_flag (world s) && ended (worker s) && ended (listener s)) eqn:E; [|done]. intros [= <-].
    apply andb_true_iff in E as [[[_ Estop]%andb_true_iff Ew]%andb_true_iff _].
    assert (hb = [] /\ hs = []) as [-> ->] by (destruct (worker s); [by destruct Hw as (-> & -> & _)|done|exact Hw]).
    destruct (release_inv [] [] _ _ Hi eq_refl eq_refl Estop) as (Hi' & Hc & Hstop). split; [|done|done].
    exists [], [], stopping. split_and!; [done|done|apply stable_stopping|]. cbn. destruct (worker s); [apply finished_stopping|done|done].
Qed.

Lemma run_inv es s s' : sys_inv s -> (clean = true -> RuntimePoisoned ∉ es) -> run config_path control_socket es s = Some s' -> sys_inv s'.
Proof.
  revert s. induction es as [|e es IH]; intros s Hs Hcl; cbn [run]; [by intros [= <-]|].
  destruct (step config_path control_socket e s) as [s1|] eqn:E; [|done]. cbn. apply IH.
  - eapply step_inv; [done| |done]. intros Hc ->. apply (Hcl Hc). by left.
  - intros Hc Hin. apply (Hcl Hc). by right.
Qed.
End daemon.

(** ** What reachable states promise *)

Section promises.
Context `{Platform} `{ConfigLanguage} `{Digest} (config_path control_socket : string).
Abbreviation run := (run config_path control_socket).

Lemma reachable_inv clean es prepared a s : (clean = true -> RuntimePoisoned ∉ es) -> run es (boot config_path prepared a) = Some s ->
  sys_inv clean s.
Proof. intros Hc. by apply run_inv; [apply boot_inv|]. Qed.

(** An operation that has ended holds nothing. *)
Lemma idle_inv clean s : sys_inv clean s -> ended (worker s) = true -> inv clean [] [] (lane_of s) (world s).
Proof.
  intros [(hb & hs & Q & Hi & HQ & _ & Hw) _ _] He. destruct (worker s); [by destruct Hw as (-> & -> & _)|done|by destruct Hw as [-> ->]].
Qed.

Lemma idle_owner clean s : sys_inv clean s -> ended (worker s) = true ->
  let r := runtime (world s) in
  backends (world s) = option_list (rt_capture r) /\ sessions (world s) = option_list (rt_capture r).
Proof.
  intros Hs He r. pose proof (idle_inv _ _ Hs He) as []. rewrite !app_nil_r in *. unfold published in *. fold r in i_backends, i_sessions.
  assert (forall l, l ≡ₚ option_list (rt_capture r) -> l = option_list (rt_capture r)) as Hperm.
  { intros l. destruct (rt_capture r); cbn; [apply Permutation_singleton_r|apply Permutation_nil_r]. }
  by split; apply Hperm.
Qed.

#[local] Arguments publish_fault : simpl never.
#[local] Arguments report_fault : simpl never.



(** C9. No backend and no session is ever orphaned or doubled. Whatever clients
    ask for, and whatever faults, stops, panics and poisoned locks come at
    whatever point of an operation: when the operation has ended, the backends
    and the sessions that exist are exactly those of the published capture,
    which then is running; and when the daemon has released its capture, there
    are none. *)
Theorem one_owner prepared a es s :
  run es (boot config_path prepared a) = Some s -> ended (worker s) = true ->
  let r := runtime (world s) in
  backends (world s) = option_list (rt_capture r) /\ sessions (world s) = option_list (rt_capture r) /\ session r = rt_capture r
  /\ (is_Some (rt_capture r) -> capture_state (lifecycle r) = Running /\ next_retry_at (lifecycle r) = None)
  /\ (released s = true -> backends (world s) = [] /\ sessions (world s) = []).
Proof.
  intros Hr He r. pose proof (reachable_inv false es prepared a s ltac:(done) Hr) as Hs.
  pose proof (idle_inv _ _ Hs He) as []. destruct (idle_owner _ _ Hs He) as [Hb Hse]. pose proof (si_released _ _ Hs) as Hrel.
  fold r in Hb, Hse, Hrel. split_and!; [done..|]. intros E. destruct (Hrel E) as [Hc _]. by rewrite Hc in *.
Qed.

(** C8. Faults have authority. At every point of every operation, the health of
    the published capture is armed and, until the daemon stops, its sink is of
    the generation that the runtime state and the scheduler are at, so that its
    fault is accepted; the health of a capture that was dropped reports nothing,
    and a retry of the current generation waits only while nothing is
    published. *)
Theorem fault_authority prepared a es s :
  run es (boot config_path prepared a) = Some s ->
  let w := world s in
  (forall k, capture_health (runtime w) = Some k -> rt_capture (runtime w) = Some k
     /\ exists h sink, healths w !! k = Some h /\ armed h = true /\ normal_stop h = false /\ health_sink h = Some sink
        /\ (stop_flag w = false -> sink_generation sink = gen w /\ generation (scheduler w) = gen w))
  /\ (forall k e, k ∉ backends w -> scheduler (report_fault k e w) = scheduler w)
  /\ (stop_flag w = false -> forall x, (Internal (Retry (gen w)), x) ∈ jobs s -> rt_capture (runtime w) = None).
Proof.
  intros Hr w. pose proof (reachable_inv false es prepared a s ltac:(done) Hr) as [(hb & hs & Q & [] & _) _ _].
  split_and!.
  - intros k Hk. destruct (i_health k Hk) as (? & h & sink & ? & ? & ? & ? & Hg). split; [done|]. exists h, sink. split_and!; try done.
    intros E. split; [by apply Hg|by apply i_generation].
  - intros k e Hk. destruct (report_fault_world k e w) as [->|(h & h' & n & Hh & _ & _ & _ & Hrep & ->)]; [done|]. cbn.
    destruct n as [[sk f]|]; [|done]. destruct (Hrep _ _ eq_refl) as [Hn _]. by rewrite (i_dropped k h Hh Hk) in Hn.
  - intros E x Hin. apply (i_retries E (gen w)); [|done]. apply lane_in. unfold lane_of, scheduled_of. apply list_elem_of_omap.
    by exists (Internal (Retry (gen w)), x).
Qed.

(** C11. An announced retry is not lost. Unless the lock of the runtime state was
    poisoned: whenever the worker is idle and the daemon is not stopping, and
    the status announces the time of a retry, the retry of the current
    generation is pending at the scheduler for that time, or waits in the lane.
    (The generation can no longer be replaced when its counter is at its
    maximum.) *)
Theorem announced_retry_kept prepared a es s due :
  run es (boot config_path prepared a) = Some s -> RuntimePoisoned ∉ es -> (exists r, worker s = Ret r) ->
  let w := world s in
  stop_flag w = false -> gen w < u64_max -> next_retry_at (lifecycle (runtime w)) = Some due ->
  pending (scheduler w) = Some (PendingRetry (gen w) due) \/ exists x, (Internal (Retry (gen w)), x) ∈ jobs s.
Proof.
  intros Hr Hp [r Hw] w E Hg Hd. pose proof (reachable_inv true es prepared a s ltac:(done) Hr) as [(hb & hs & Q & Hi & HQ & _ & Hwp) _ _].
  rewrite Hw in Hwp. destruct Hwp as (-> & -> & Hk). destruct (Hk _ _ Hi HQ eq_refl E Hg due Hd) as [|Hin]; [by left|]. right.
  unfold lane_of, scheduled_of in Hin. apply list_elem_of_omap in Hin as ([[c|op] x] & Hin & [= ->]). by exists x.
Qed.

End promises.
