(* ===== verification/SupervisorStop.v ===== *)
(** * A stop is final

    Once the daemon is told to stop, no operation publishes a capture any more:
    every section of every operation checks the flag under the authority. *)
From stdpp Require Import gmap.
From S2P Require Import Prelude.
From S2P Require Import Errors.
From S2P Require Import MemoryPlan.
From S2P Require Import Lifecycle.
From S2P Require Import RetryScheduler.
From S2P Require Import InputIdentity.
From S2P Require Import ExportPattern.
From S2P Require Import PipeWireHealth.
From S2P Require Import SessionInputs.
From S2P Require Import Bootstrap.
From S2P Require Import Supervisor.
From S2P Require Import Transactions.
From S2P Require Import Daemon.
From S2P Require Import SupervisorSpec.
From S2P Require Import SupervisorEnv.
From S2P Require Import SupervisorSections.
From S2P Require Import SupervisorPublish.
From S2P Require Import SupervisorPrograms.
From S2P Require Import SupervisorTheorems.

(** A step after the stop publishes nothing. *)
Definition only_ends (w w' : World) : Prop := stop_flag w = true ->
  stop_flag w' = true /\ (rt_capture (runtime w') = rt_capture (runtime w) \/ rt_capture (runtime w') = None).

Fixpoint quiet {A} (p : Prog A) : Prop :=
  match p with
  | Step f next => (forall w, only_ends w (f w).1) /\ forall b, quiet (next b)
  | _ => True
  end.

Lemma only_ends_same w w' : stop_flag w' = stop_flag w -> runtime w' = runtime w -> only_ends w w'.
Proof. intros E1 E2 Hs. rewrite E1, E2. by split; [|left]. Qed.

Lemma only_ends_trans w1 w2 w3 : only_ends w1 w2 -> only_ends w2 w3 -> only_ends w1 w3.
Proof. intros Ha Hb Hs. destruct (Ha Hs) as [H2 [E|E]], (Hb (proj1 (Ha Hs))) as [H3 [E'|E']]; split; try done; rewrite ?E', ?E; auto. Qed.

Lemma quiet_bind {A C} (p : Prog A) (q : A -> Prog C) : quiet p -> (forall a, quiet (q a)) -> quiet (then_do p q).
Proof. intros Hp Hq. induction p as [a|B f next IH|]; cbn in *; [apply Hq| |done]. destruct Hp as [? Hn]. split; [done|]. intros b. by apply IH. Qed.

Lemma quiet_section {B} (f : World -> World * B) : (forall w, only_ends w (f w).1) -> quiet (section f).
Proof. by split. Qed.
Lemma quiet_act f : (forall w, only_ends w (f w)) -> quiet (act f).
Proof. by split. Qed.
Lemma quiet_ask {B} (f : World -> B) : quiet (ask f).
Proof. split; [|done]. intros w. by apply only_ends_same. Qed.

(** ** Sections *)

Lemma ends_drop active w : only_ends w (drop_capture_then_session active w).
Proof. destruct (drop_fields active w) as (? & _ & ? & _). by apply only_ends_same. Qed.

Lemma ends_fatal m w : only_ends w (signal_fatal m w).
Proof. intros Hs. by split; [|left]. Qed.

Lemma ends_attempt og w : only_ends w (runtime_fault_sink_for_attempt og w).1.
Proof. destruct (attempt_sink_spec og w) as (n & -> & _). by apply only_ends_same. Qed.

Lemma not_current token w : stop_flag w = true -> operation_is_current w token = false.
Proof. unfold operation_is_current. by intros ->. Qed.

Lemma ends_current {B} token (f : World -> World * B) : (forall w, operation_is_current w token = false -> (f w).1 = w) -> forall w, only_ends w (f w).1.
Proof. intros Hf w Hs. rewrite (Hf w) by (by apply not_current). by split; [|left]. Qed.

Lemma ends_failure now token og e preserve w : only_ends w (publish_failure now token og e preserve w).1.
Proof. apply (ends_current token). intros w' E. unfold publish_failure. by rewrite E. Qed.

Lemma ends_installed token og old h f w : only_ends w (publish_installed token og old h f w).1.
Proof. apply (ends_current token). intros w' E. unfold publish_installed. by rewrite E. Qed.

Lemma ends_detach_old o requested w : only_ends w (detach_old o requested w).1.
Proof. apply (ends_current (token o)). intros w' E. unfold detach_old. by rewrite E. Qed.

Lemma ends_detach_stopped o w : only_ends w (detach_stopped o w).1.
Proof. apply (ends_current (token o)). intros w' E. unfold detach_stopped. by rewrite E. Qed.

Lemma ends_begin entry w : only_ends w (begin_new_operation_generation entry w).1.
Proof. intros Hs. unfold begin_new_operation_generation. rewrite Hs. by split; [|left]. Qed.

Lemma ends_begin_retry w : only_ends w (begin_command_operation w).1.
Proof. intros Hs. unfold begin_command_operation. rewrite Hs. by split; [|left]. Qed.

Lemma ends_decide g w : only_ends w (decide_generation g w).1.
Proof.
  intros Hs. unfold decide_generation. destruct (poisoned w); cbn [negb]; [|by split; [|left]].
  destruct (gen w =? g); cbn [negb]; [|by split; [|left]]. destruct (_ && _ && _); [by split; [|left]|]. by split; [|right].
Qed.

Lemma ends_publish_fault now g attempt f w : only_ends w (publish_fault now g attempt f w).
Proof. intros Hs. unfold publish_fault. rewrite Hs. by split; [|left]. Qed.

Lemma ends_force w : only_ends w (force_shutdown w).
Proof. by split; [|left]. Qed.

Lemma ends_report k e w : only_ends w (report_fault k e w).
Proof. by apply only_ends_same; destruct (report_fault_world k e w) as [->|(h & h' & n & _ & _ & _ & _ & _ & ->)]. Qed.

Lemma ends_release w : only_ends w (release_capture_for_shutdown w).
Proof.
  unfold release_capture_for_shutdown. cbn [take_active_capture]. eapply only_ends_trans; [|apply ends_drop]. intros Hs. by split; [|right].
Qed.

Lemma ends_add_backend so w : only_ends w (add_backend so w).1.
Proof. by apply only_ends_same. Qed.
Lemma ends_add_session k w : only_ends w (add_session k w).
Proof. by apply only_ends_same. Qed.
Lemma ends_add_capture so w : only_ends w (add_capture so w).1.
Proof. by apply only_ends_same. Qed.

Create HintDb stopping.
#[local] Hint Resolve quiet_bind quiet_section quiet_act quiet_ask : stopping.
#[local] Hint Resolve ends_drop ends_fatal ends_attempt ends_failure ends_installed ends_detach_old ends_detach_stopped ends_begin ends_begin_retry
  ends_decide ends_publish_fault ends_force ends_add_backend ends_add_session ends_add_capture : stopping.

(** ** Programs *)

(** Take a program apart. *)
Ltac quiet := repeat first
  [ progress intros
  | progress cbn beta iota zeta
  | exact I
  | solve [eauto 2 with stopping]
  | apply quiet_bind
  | match goal with |- quiet (match ?x with _ => _ end) => destruct x end ].

Section programs.
Context `{Platform} `{ConfigLanguage} `{Digest} (config_path control_socket : string) (a : Answers).

Lemma quiet_superseded : quiet superseded_response.
Proof. apply quiet_ask. Qed.
#[local] Hint Resolve quiet_superseded : stopping.

Lemma quiet_failure token og e preserve : quiet (command_attempt_failure_with_generation a token og e preserve).
Proof. unfold command_attempt_failure_with_generation, fatal_failure, current_failure_response. quiet. Qed.
#[local] Hint Resolve quiet_failure : stopping.

Lemma quiet_if_current token s p : quiet s -> quiet p -> quiet (if_current token s p).
Proof. unfold if_current. quiet. Qed.

Lemma quiet_dropping active p : quiet p -> quiet (dropping active p).
Proof. unfold dropping. quiet. Qed.
#[local] Hint Resolve quiet_if_current quiet_dropping : stopping.

Lemma quiet_start p sink : quiet (start a p sink).
Proof. unfold start. quiet. Qed.

Lemma quiet_install_legacy token og p old : quiet (install_legacy a token og p old).
Proof. pose proof quiet_start. unfold install_legacy. quiet. Qed.

Lemma quiet_failing active r e : quiet (failing_with active r e).
Proof. unfold failing_with. quiet. Qed.
#[local] Hint Resolve quiet_failing : stopping.

Lemma quiet_checked c active r p : quiet c -> quiet p -> quiet (checked_by c active r p).
Proof. unfold checked_by. quiet. Qed.

Lemma quiet_or_fail {A} (o : Result A) active r p : (forall x, quiet (p x)) -> quiet (or_fail o active r p).
Proof. unfold or_fail. quiet. Qed.

Lemma quiet_start_app p begun sink c r : quiet c -> quiet (start_app a p begun sink c r).
Proof.
  intros Hc. unfold start_app. apply quiet_or_fail. intros r1. apply quiet_checked; [done|].
  quiet; repeat (apply quiet_checked || apply quiet_or_fail || quiet).
Qed.

Lemma quiet_apply loaded begun sink c r : quiet c -> quiet (apply_loaded_app_config config_path a loaded begun sink c r).
Proof. intros Hc. pose proof quiet_start_app. unfold apply_loaded_app_config. quiet. Qed.
#[local] Hint Resolve quiet_apply : stopping.

Lemma quiet_install_app token og loaded old force_start activate : quiet (install_app config_path a token og loaded old force_start activate).
Proof. unfold install_app. quiet. Qed.

Lemma quiet_install_prepared token og prepared old force_start activate : quiet (install_prepared config_path a token og prepared old force_start activate).
Proof. pose proof quiet_install_app. pose proof quiet_install_legacy. unfold install_prepared. quiet. Qed.
#[local] Hint Resolve quiet_install_prepared : stopping.

Lemma quiet_begun p : (forall o, quiet (p o)) -> quiet (begun p).
Proof. unfold begun, unchanged_failure. quiet. Qed.

Lemma quiet_from_disk requested fail guard p : (forall e, quiet (fail e)) -> (forall q, quiet q -> quiet (guard q)) -> (forall c, quiet (p c)) ->
  quiet (from_disk config_path control_socket a requested fail guard p).
Proof. intros Hf Hg Hp. unfold from_disk. destruct (prepare_config_from_disk _ _ _); quiet. apply Hg. quiet. Qed.

Lemma quiet_request r : quiet (handle_request config_path control_socket a r).
Proof.
  destruct r as [requested activate| |]; apply quiet_begun; intros o; quiet; apply quiet_from_disk; quiet.
Qed.

Lemma quiet_signal r : quiet (signal_fatal_response r).
Proof. unfold signal_fatal_response. quiet. Qed.

Lemma quiet_decision g : quiet (scheduled_generation_decision g).
Proof. unfold scheduled_generation_decision. quiet. Qed.
#[local] Hint Resolve quiet_signal quiet_decision : stopping.

Lemma quiet_if_scheduled g token p : quiet p -> quiet (if_scheduled g token p).
Proof. unfold if_scheduled. quiet. Qed.
#[local] Hint Resolve quiet_if_scheduled : stopping.

Lemma quiet_job job : quiet (run_job config_path control_socket job a).
Proof.
  pose proof quiet_request. unfold run_job, execute_operation_job, execute_retry_operation, publish_runtime_fault, command_attempt_failure. quiet.
Qed.
End programs.

Lemma quiet_shutdown : quiet begin_shutdown.
Proof. unfold begin_shutdown. quiet. Qed.

(** ** Runs *)

Section promises.
Context `{Platform} `{ConfigLanguage} `{Digest} (config_path control_socket : string).

(** The daemon serves, and has been told to stop. *)
Definition winding_down (s : System) : Prop := serving s = true /\ stop_flag (world s) = true /\ quiet (worker s) /\ quiet (listener s).

Lemma winding_step e s s' : winding_down s -> step config_path control_socket e s = Some s' ->
  winding_down s' /\ (rt_capture (runtime (world s')) = rt_capture (runtime (world s)) \/ rt_capture (runtime (world s')) = None).
Proof.
  intros (Hs & Hst & Hw & Hl) E.
  assert (forall w', only_ends (world s) w' -> serving s' = true -> world s' = w' -> quiet (worker s') -> quiet (listener s') ->
    winding_down s' /\ (rt_capture (runtime (world s')) = rt_capture (runtime (world s)) \/ rt_capture (runtime (world s')) = None)) as Hgo.
  { intros w' Ho Hs' <- Hw' Hl'. destruct (Ho Hst) as [? ?]. by repeat split. }
  destruct e as [r a| | | |k e|a| |]; cbn [step] in E.
  - destruct (_ && _); [|done]. injection E as <-. by apply (Hgo (world s)); [apply only_ends_same|..].
  - destruct (listener s) eqn:El; try done. rewrite Hs in E. injection E as <-. apply (Hgo (world s)); try done; [by apply only_ends_same|apply quiet_shutdown].
  - destruct (listener s) as [u|B f next|] eqn:El; try done. destruct Hl as [Hf Hn]. pose proof (Hf (world s)) as Hf'.
    destruct (f (world s)) as [w b]. injection E as <-. apply (Hgo w); try done. apply Hn.
  - destruct (worker s) as [[[u|er|]|r]|B f next|] eqn:Ew; try done.
    + injection E as <-. by apply (Hgo (world s)); [apply only_ends_same|..].
    + destruct (jobs s) as [|[job a] rest]; [done|]. injection E as <-. eapply Hgo; try done; [by apply only_ends_same|apply quiet_job].
    + destruct Hw as [Hf Hn]. pose proof (Hf (world s)) as Hf'. destruct (f (world s)) as [w b]. injection E as <-. apply (Hgo w); try done. apply Hn.
  - injection E as <-. eapply Hgo; try done. apply ends_report.
  - destruct (_ && _); [|done]. destruct (pending _); [|done]. injection E as <-. eapply Hgo; try done. by apply only_ends_same.
  - injection E as <-. eapply Hgo; try done. by apply only_ends_same.
  - destruct (_ && _); [|done]. injection E as <-. eapply Hgo; try done. apply ends_release.
Qed.

Lemma winding_run es s s' : winding_down s -> run config_path control_socket es s = Some s' ->
  winding_down s' /\ (rt_capture (runtime (world s')) = rt_capture (runtime (world s)) \/ rt_capture (runtime (world s')) = None).
Proof.
  revert s. induction es as [|e es IH]; intros s Hs; cbn [run]; [intros [= <-]; by split; [|left]|].
  destruct (step config_path control_socket e s) as [s1|] eqn:E; [|done]. cbn. intros Hr. destruct (winding_step _ _ _ Hs E) as [H1' E1].
  destruct (IH s1 H1' Hr) as [H2' E2]. split; [done|]. destruct E2 as [E2|E2], E1 as [E1|E1]; rewrite ?E2, ?E1; auto.
Qed.

(** A daemon that serves runs jobs only. *)
Lemma serving_quiet es s s' : (serving s = true -> quiet (worker s)) -> quiet (listener s) -> run config_path control_socket es s = Some s' ->
  (serving s' = true -> quiet (worker s')) /\ quiet (listener s').
Proof.
  revert s. induction es as [|e es IH]; intros s Hw Hl; cbn [run]; [by intros [= <-]|].
  destruct (step config_path control_socket e s) as [s1|] eqn:E; [|done]. cbn. apply IH.
  - clear IH. intros Hs1. destruct e as [r a| | | |k e|a| |]; cbn [step] in E.
    + destruct (_ && _); [|done]. injection E as <-. by apply Hw.
    + destruct (listener s); try done. destruct (serving s) eqn:Es; [|done]. injection E as <-. by apply Hw.
    + destruct (listener s) as [u|B f next|]; try done. destruct (f (world s)). injection E as <-. by apply Hw.
    + destruct (worker s) as [[[u|er|]|r]|B f next|] eqn:Ew; try done; [by injection E as <-| |].
      * destruct (jobs s) as [|[job a] rest]; [done|]. injection E as <-. apply quiet_job.
      * destruct (f (world s)) as [w b]. injection E as <-. destruct (Hw Hs1) as [_ Hn]. apply Hn.
    + injection E as <-. by apply Hw.
    + destruct (_ && _); [|done]. destruct (pending _); [|done]. injection E as <-. by apply Hw.
    + injection E as <-. by apply Hw.
    + destruct (_ && _); [|done]. injection E as <-. by apply Hw.
  - clear IH. destruct e as [r a| | | |k e|a| |]; cbn [step] in E; try (repeat (case_match; try done); injection E as <-; exact Hl).
    + destruct (listener s); try done. destruct (serving s); [|done]. injection E as <-. apply quiet_shutdown.
    + destruct (listener s) as [u|B f next|] eqn:El; try done. destruct (f (world s)) as [w b]. injection E as <-. destruct Hl as [_ Hn]. apply Hn.
Qed.

(** C10. A stop is final. Once a serving daemon has been told to stop, by a
    client or by a fatal error, the flag stays set and no capture is published
    any more: whatever operation is under way or comes, whatever its
    backend answers, the published capture stays the one it was or is gone. *)
Theorem stop_is_final prepared a es s es' s' :
  run config_path control_socket es (boot config_path prepared a) = Some s -> serving s = true -> stop_flag (world s) = true ->
  run config_path control_socket es' s = Some s' ->
  stop_flag (world s') = true
  /\ (rt_capture (runtime (world s')) = rt_capture (runtime (world s)) \/ rt_capture (runtime (world s')) = None).
Proof.
  intros Hr Hs Hst Hr'. destruct (serving_quiet es (boot config_path prepared a) s) as [Hw Hl]; [done|done|done|].
  destruct (winding_run es' s s') as [(_ & ? & _) ?]; [by repeat split; [..|apply Hw|]|done|by split].
Qed.
End promises.
