(* ===== verification/SupervisorExamples.v ===== *)
(** * Runs of the supervisor

    A daemon with the profile of [ConfigExamples] and its graph, run event by
    event: witnesses of the theorems, and the races that they leave open. *)
From stdpp Require Import gmap.
From S2P Require Import Prelude.
From S2P Require Import Errors.
From S2P Require Import MemoryPlan.
From S2P Require Import CaptureRuntime.
From S2P Require Import Lifecycle.
From S2P Require Import RetryScheduler.
From S2P Require Import Activity.
From S2P Require Import ExportPattern.
From S2P Require Import Text.
From S2P Require Import LegacyConfig.
From S2P Require Import AppConfig.
From S2P Require Import Profile.
From S2P Require Import InputIdentity.
From S2P Require Import PipeWireTarget.
From S2P Require Import PipeWireHealth.
From S2P Require Import SessionInputs.
From S2P Require Import ConfigExamples.
From S2P Require Import Bootstrap.
From S2P Require Import Supervisor.
From S2P Require Import Transactions.
From S2P Require Import Daemon.
From S2P Require Import SupervisorSpec.
From S2P Require Import SupervisorTheorems.
From S2P Require Import SupervisorStop.

#[local] Instance run_digest : Digest := fun _ => some_hex.
#[local] Instance run_platform : Platform := {| sysconf_page_size := 4096; can_allocate := fun _ => true; size_of_current_artifact_slot := 88 |}.

Definition silent_config : AppConfig := mkAppConfig (mkDaemon "auto" None default_control_socket_path) [("studio", studio)].

#[local] Instance run_language : ConfigLanguage := {|
  app_of_toml := fun text => if String.eqb text "studio" then Ok studio_config
                             else if String.eqb text "no profile" then Ok silent_config else Err "not TOML";
  legacy_of_toml := fun _ => Err "not TOML";
  has_config_version := fun _ => false;
  toml_socket_path := fun _ => None;
  xdg_runtime_dir := Some "/run/user/1000";
|}.

Definition path : string := "/etc/lamb/config.toml".
Definition socket : string := "/run/user/1000/lamb/control.sock".

(** The world answers well; the file holds [text]. *)
Definition good (text : string) : Answers :=
  mkAnswers 5000 (inr text) (inr tt) (inr ([microphone], studio_ports)) (inr tt) (inr 48000) (inr tt) (inr 0) (inr tt).

(** The graph has lost the microphone. *)
Definition unplugged (text : string) : Answers :=
  mkAnswers 5000 (inr text) (inr tt) (inr ([], [])) (inr tt) (inr 48000) (inr tt) (inr 0) (inr tt).

Definition loaded (c : AppConfig) : PreparedBootstrap := PreparedApp (mkLoaded c Loaded None).
Abbreviation run_daemon := (run path socket).
Abbreviation start_of c := (boot path (loaded c) (good "studio")).

Definition work (n : nat) : list Event := repeat WorkerStep n.

Abbreviation after es := (run_daemon es (start_of studio_config)).

(** The startup has published capture 0, and the daemon serves. *)
Definition served : list Event := work 7.

Definition unplug (k : CaptureKey) : Event := BackendFaults k StreamUnconnected.

Example capture_published :
  match after served with
  | Some s => serving s = true /\ worker s = Ret (Idle None) /\ backends (world s) = [0] /\ sessions (world s) = [0]
              /\ rt_capture (runtime (world s)) = Some 0 /\ capture_state (lifecycle (runtime (world s))) = Running
  | None => False
  end.
Proof. vm_compute. repeat split. Qed.

(** ** Witnesses *)

Lemma one_owner_witness :
  match after served with
  | Some s => backends (world s) = option_list (rt_capture (runtime (world s)))
              /\ sessions (world s) = option_list (rt_capture (runtime (world s)))
              /\ session (runtime (world s)) = rt_capture (runtime (world s))
              /\ (is_Some (rt_capture (runtime (world s))) -> capture_state (lifecycle (runtime (world s))) = Running
                    /\ next_retry_at (lifecycle (runtime (world s))) = None)
              /\ (released s = true -> backends (world s) = [] /\ sessions (world s) = [])
  | None => False
  end.
Proof.
  destruct (after served) as [s|] eqn:E; [|vm_compute in E; discriminate].
  apply (one_owner path socket (loaded studio_config) (good "studio") served s E). vm_compute in E. injection E as <-. reflexivity.
Defined.

(** In the middle of a reload that has published capture 1. *)
Definition reloading : list Event := served ++ [ClientSends Reload (good "studio")] ++ work 18.

Lemma fault_authority_witness :
  match after reloading with
  | Some s =>
      let w := world s in
      (forall k, capture_health (runtime w) = Some k -> rt_capture (runtime w) = Some k
         /\ exists h sink, healths w !! k = Some h /\ armed h = true /\ normal_stop h = false /\ health_sink h = Some sink
            /\ (stop_flag w = false -> sink_generation sink = gen w /\ generation (scheduler w) = gen w))
      /\ (forall k e, k ∉ backends w -> scheduler (report_fault k e w) = scheduler w)
      /\ (stop_flag w = false -> forall x, (Internal (Retry (gen w)), x) ∈ jobs s -> rt_capture (runtime w) = None)
  | None => False
  end.
Proof.
  destruct (after reloading) as [s|] eqn:E; [|vm_compute in E; discriminate].
  apply (fault_authority path socket (loaded studio_config) (good "studio") reloading s E).
Defined.

(** The microphone of the published capture has been unplugged. *)
Definition unplugged_run : list Event := served ++ [unplug 0; SchedulerSubmits (good "studio")] ++ work 4.

Lemma announced_retry_kept_witness :
  match after unplugged_run with
  | Some s => next_retry_at (lifecycle (runtime (world s))) = Some 6000
              /\ (pending (scheduler (world s)) = Some (PendingRetry (gen (world s)) 6000)
                  \/ exists x, (Internal (Retry (gen (world s))), x) ∈ jobs s)
  | None => False
  end.
Proof.
  destruct (after unplugged_run) as [s|] eqn:E; [|vm_compute in E; discriminate].
  assert (next_retry_at (lifecycle (runtime (world s))) = Some 6000) as Hd by (vm_compute in E; injection E as <-; reflexivity).
  split; [exact Hd|]. apply (announced_retry_kept path socket (loaded studio_config) (good "studio") unplugged_run s 6000 E).
  - intros Hin. cbn in Hin. repeat (apply elem_of_cons in Hin as [[=]|Hin]). by apply elem_of_nil in Hin.
  - vm_compute in E. injection E as <-. by exists (Idle None).
  - vm_compute in E. injection E as <-. reflexivity.
  - vm_compute in E. injection E as <-. reflexivity.
  - exact Hd.
Defined.


(** The daemon is told to stop; then a client asks for a reload, and the daemon
    releases its capture. *)
Definition stopped_run : list Event := served ++ [StopRequest; ListenerStep].

Lemma stop_is_final_witness :
  match after stopped_run with
  | Some s =>
      match run_daemon ([ClientSends Reload (good "studio")] ++ work 2 ++ [CaptureReleased]) s with
      | Some s' => rt_capture (runtime (world s)) = Some 0 /\ backends (world s') = []
                   /\ stop_flag (world s') = true
                   /\ (rt_capture (runtime (world s')) = rt_capture (runtime (world s)) \/ rt_capture (runtime (world s')) = None)
      | None => False
      end
  | None => False
  end.
Proof.
  destruct (after stopped_run) as [s|] eqn:E; [|vm_compute in E; discriminate].
  destruct (run_daemon ([ClientSends Reload (good "studio")] ++ work 2 ++ [CaptureReleased]) s) as [s'|] eqn:E';
    [|vm_compute in E; injection E as <-; vm_compute in E'; discriminate].
  assert (rt_capture (runtime (world s)) = Some 0 /\ serving s = true /\ stop_flag (world s) = true) as (Hc & Hs & Hst).
  { vm_compute in E. injection E as <-. by repeat split. }
  split; [exact Hc|]. split; [vm_compute in E; injection E as <-; vm_compute in E'; injection E' as <-; reflexivity|].
  exact (stop_is_final path socket (loaded studio_config) (good "studio") stopped_run s _ s' E Hs Hst E').
Defined.

(** ** Races *)

(** Two captures exist between the publication of the new one and the drop of the
    old one, and both report to the current generation. The scheduler holds one
    operation, so the fault of the old capture replaces the fault of the new one
    and is then refused: the new capture has failed, is published as running, and
    nothing is left to retry it. *)
Example fault_lost_in_reload :
  match after (reloading ++ [unplug 1; unplug 0] ++ work 1 ++ [SchedulerSubmits (good "studio")] ++ work 4) with
  | Some s =>
      worker s = Ret (Idle None) /\ jobs s = [] /\ pending (scheduler (world s)) = None
      /\ rt_capture (runtime (world s)) = Some 1 /\ capture_state (lifecycle (runtime (world s))) = Running
      /\ match healths (world s) !! 1 with Some h => fault h = Some (DeviceDisconnected "PipeWire stream became unconnected") | None => False end
  | None => False
  end.
Proof. vm_compute. repeat split. Qed.

(** Without the hypothesis on the lock a retry can be lost: a failing reload finds
    the lock poisoned and detaches the published capture, whose fault then
    replaces the retry before it is dropped. *)
Example poison_loses_retry :
  match after (served ++ [ClientSends Reload (unplugged "studio")] ++ work 12 ++ [RuntimePoisoned] ++ work 1 ++ [unplug 0] ++ work 2
               ++ [SchedulerSubmits (good "studio")] ++ work 4) with
  | Some s => worker s = Ret (Idle None) /\ jobs s = [] /\ pending (scheduler (world s)) = None
              /\ next_retry_at (lifecycle (runtime (world s))) = Some 6000
  | None => False
  end.
Proof. vm_compute. repeat split. Qed.

(** Starting without an active profile succeeds, and captures nothing. *)
Example started_without_profile :
  match after (served ++ [ClientSends StopCapture (good "studio")] ++ work 4 ++ [ClientSends (StartCapture None false) (good "no profile")] ++ work 16) with
  | Some s => worker s = Ret (Idle (Some (mkResponse true "capture started" None)))
              /\ rt_capture (runtime (world s)) = None /\ rt_state (runtime (world s)) = "unconfigured"
  | None => False
  end.
Proof. vm_compute. repeat split. Qed.
