(* ===== verification/CaptureClient.v ===== *)
(** * The clients of the capture worker (src/capture_arena.rs)

    [CaptureArena]: the calls of the control plane. A call takes the lock of the
    client state, recovers the result of a command that an earlier call gave up
    on, submits its own command and waits for the answer until its deadline. What
    the worker and the other threads do meanwhile is the schedule of the call:
    the events before its deadline, one between two polls of the result. *)
From S2P Require Import Prelude.
From S2P Require Import Errors.
From S2P Require Import MemoryPlan.
From S2P Require Import SampleRing.
From S2P Require Import IngressQueue.
From S2P Require Import CalibrationCapture.
From S2P Require Import CaptureWorker.

(** ** What runs beside a call *)

(** A turn of the worker's loop, a producer's push, or a step of a calibration
    client: its request, its cancellation, the lease of the result and its return,
    and the receipt of a failure. *)
Inductive WorkerEvent :=
  | Turn (now : Z)
  | Push (input : list f32) (ch : Z)
  | RequestCalibration (r : CalibrationRequest)
  | WithdrawCalibration
  | LeaseCalibration
  | ReturnCalibration
  | TakeCalibrationFailure.

(** The worker's thread: a turn, and the exit after the last one. *)
Definition worker_thread (now : Z) (w : WorkerState) : WorkerState :=
  if worker_done w then w
  else match run_turn now w with
       | (w', Ok true) => (run_exit w').1
       | (w', _) => w'
       end.

(** The request checked and published. *)
Definition request_calibration (ch : Z) (r : CalibrationRequest) (s : CalibrationSlot) : CalibrationSlot :=
  match check_request ch r s, begin_prepare s with
  | Ok _, Ok s' => (begin_publish r s').1
  | _, _ => s
  end.

Definition exchange_or_keep (from to : Z) (s : CalibrationSlot) : CalibrationSlot :=
  default s (exchange from to s).

Definition apply_event (e : WorkerEvent) (w : WorkerState) : WorkerState :=
  match e with
  | Turn now => worker_thread now w
  | Push input ch => w <| queue ::= (fun q => (try_push_interleaved input ch q).1) |>
  | RequestCalibration r =>
      w <| calibration_shared ::= request_calibration (channels (queue w)) r |>
  | WithdrawCalibration => w <| calibration_shared ::= (fun s => (cancel s).1) |>
  | LeaseCalibration =>
      w <| calibration_shared ::= exchange_or_keep CALIBRATION_COMPLETE CALIBRATION_LEASED |>
  | ReturnCalibration =>
      w <| calibration_shared ::= exchange_or_keep CALIBRATION_LEASED CALIBRATION_IDLE |>
  | TakeCalibrationFailure =>
      w <| calibration_shared ::= exchange_or_keep CALIBRATION_FAILED CALIBRATION_IDLE |>
  end.

(** The schedule of a call: the status requests of other threads that come first,
    each with the events before its deadline, whether the call gets the lock in
    time, and the events before its own deadline. *)
Record CallSchedule := mkSchedule {
  status_requests : list (list WorkerEvent);
  lock_acquired : bool;
  events : list WorkerEvent;
}.

(** ** The arena as a client sees it *)

Record CaptureClearRecovery := mkRecovery {
  rec_arena_runtime_id : Z;
  rec_coordinator_id : Z;
  rec_clear_id : Z;
}.

Definition matches (r : CaptureClearRecovery) (report : CaptureClearReport) : bool :=
  (rec_arena_runtime_id r =? report_arena_runtime_id report)
  && (rec_coordinator_id r =? report_coordinator_id report)
  && (rec_clear_id r =? report_clear_id report).

(** [shared], the locked client state, the events left before the deadline of
    the current call, and the schedules of the calls to come. *)
Record CaptureArena := mkArena {
  shared : WorkerState;
  recovered_frozen : option FrozenDescriptor;
  recovered_clear : option CaptureClearReport;
  runtime_id : Z;
  future : list WorkerEvent;
  schedules : list CallSchedule;
}.
#[export] Instance eta_CaptureArena : Eta CaptureArena := fun a =>
  mkArena (shared a) (recovered_frozen a) (recovered_clear a) (runtime_id a) (future a) (schedules a).

Abbreviation AM := (M CaptureArena LambError).

Definition on_slot {A} (m : SM A) : AM A :=
  fun a => let '(w, o) := on_command m (shared a) in (a <| shared := w |>, o).

Definition slot_state (a : CaptureArena) : Z := cmd_state (command (shared a)).

(** ** One command *)

Definition timed_out : LambError := ControlInvariant "capture command timed out".
Definition client_timed_out : LambError := ControlInvariant "capture command client timed out".

Fixpoint wait_polls (l : list WorkerEvent) : AM (Result WorkerReply) :=
  let! r := on_slot take_result in
  match r with
  | Some result => modify (fun a => a <| future := l |>) ;; ret result
  | None =>
      match l with
      | [] =>
          on_slot (modify (fun s => s <| abandoned := true |>)) ;;
          modify (fun a => a <| future := [] |>) ;;
          fail timed_out
      | e :: l' => modify (fun a => a <| shared ::= apply_event e |>) ;; wait_polls l'
      end
  end.

Definition wait_slot_result : AM (Result WorkerReply) :=
  let! a := get in wait_polls (future a).

Definition submit_locked (kind : Z) (build : IngressQueue -> Z -> WorkerCommand) : AM WorkerReply :=
  on_slot (begin_command kind) ;;
  let! a := get in
  let q := queue (shared a) in
  on_slot (publish_command (build q (published_head q))) ;;
  let! result := wait_slot_result in
  lift result.

(** What becomes of the result of a command that was given up. *)
Definition dispatch_stale (requested_kind stale_kind : Z) (stale_result : Result WorkerReply)
    : AM (option (Result WorkerReply)) :=
  if stale_kind =? COMMAND_KIND_CLEAR then
    match stale_result with
    | Ok (Cleared report) =>
        modify (fun a => a <| recovered_clear := Some report |>) ;;
        if requested_kind =? COMMAND_KIND_STATUS then ret None
        else fail (ControlInvariant "clear result pending explicit recovery")
    | _ => ret (if requested_kind =? COMMAND_KIND_CLEAR then Some stale_result else None)
    end
  else if stale_kind =? COMMAND_KIND_FREEZE then
    match stale_result with
    | Ok (Frozen (Some d)) =>
        if requested_kind =? COMMAND_KIND_FREEZE then ret (Some (Ok (Frozen (Some d))))
        else
          modify (fun a => a <| recovered_frozen := Some d |>) ;;
          fail (ControlInvariant "frozen result pending recovery")
    | _ => ret (if requested_kind =? COMMAND_KIND_FREEZE then Some stale_result else None)
    end
  else if stale_kind =? COMMAND_KIND_RELEASE then ret (Some stale_result)
  else if stale_kind =? requested_kind then ret (Some stale_result)
  else if stale_kind =? COMMAND_KIND_SHUTDOWN
  then fail (ControlInvariant "shutdown result pending recovery")
  else ret None.

(** The result of a command that was given up, for a call of [requested_kind]. *)
Definition recover_before (requested_kind : Z) : AM (option (Result WorkerReply)) :=
  let! a := get in
  fail_if (is_some (recovered_clear a) && negb (requested_kind =? COMMAND_KIND_STATUS))
    (ControlInvariant "clear result pending explicit recovery") ;;
  match recovered_frozen a with
  | Some d =>
      if requested_kind =? COMMAND_KIND_FREEZE
      then modify (fun a => a <| recovered_frozen := None |>) ;; ret (Some (Ok (Frozen (Some d))))
      else fail (ControlInvariant "frozen result pending recovery")
  | None =>
      if slot_state a =? COMMAND_IDLE then ret None
      else
        fail_if (negb (abandoned (command (shared a)))) (ControlInvariant "capture command already pending") ;;
        let stale_kind := cmd_kind (command (shared a)) in
        fail_if ((stale_kind =? COMMAND_KIND_RELEASE) && negb (requested_kind =? COMMAND_KIND_RELEASE))
          (ControlInvariant "release result pending recovery") ;;
        let! stale_result := wait_slot_result in
        dispatch_stale requested_kind stale_kind stale_result
  end.

Definition execute_locked (kind : Z) (build : IngressQueue -> Z -> WorkerCommand) : AM WorkerReply :=
  let! recovered := recover_before kind in
  match recovered with
  | Some result => lift result
  | None => submit_locked kind build
  end.

(** ** The calls *)

(** Another thread's status request, which gets the lock and has [l] before its
    deadline. *)
Definition status_request (l : list WorkerEvent) (a : CaptureArena) : CaptureArena :=
  (execute_locked COMMAND_KIND_STATUS (fun _ => Status) (a <| future := l |>)).1.

(** What comes before a call. *)
Definition next_schedule : AM CallSchedule :=
  let! a := get in
  let '(s, rest) := match schedules a with s :: rest => (s, rest) | [] => (mkSchedule [] true [], []) end in
  modify (fun a => fold_left (fun a l => status_request l a) (status_requests s) (a <| schedules := rest |>)) ;;
  ret s.

Definition lock_command_client : AM unit :=
  let! s := next_schedule in
  fail_if (negb (lock_acquired s)) client_timed_out ;;
  modify (fun a => a <| future := events s |>).

Definition execute_command (kind : Z) (build : IngressQueue -> Z -> WorkerCommand) : AM WorkerReply :=
  lock_command_client ;; execute_locked kind build.

Definition freeze_since (committed_start : option Z) : AM (option FrozenCaptureEpoch) :=
  let! reply := execute_command COMMAND_KIND_FREEZE (fun _ target => Freeze target committed_start) in
  match reply with
  | Frozen descriptor =>
      let! a := get in
      ret (option_map (frozen_epoch_from_descriptor (runtime_id a)) descriptor)
  | _ => fail (ControlInvariant "capture worker returned the wrong freeze result")
  end.

(** The epoch is changed in place, so it is handed back with the result. *)
Definition release_frozen (e : FrozenCaptureEpoch) : AM (FrozenCaptureEpoch * Result unit) :=
  let! a := get in
  if negb (runtime_id a =? epoch_runtime_id e)
  then ret (e, Err (ControlInvariant "frozen epoch belongs to a different capture runtime"))
  else if epoch_released e
  then ret (e, Err (ControlInvariant "frozen epoch was already released"))
  else
    let! result := catch
      (lock_command_client ;;
       let! recovered := recover_before COMMAND_KIND_RELEASE in
       match recovered with
       | Some result => ret result
       | None => catch (submit_locked COMMAND_KIND_RELEASE (fun _ target =>
           Release target (desc_index (epoch_descriptor e)) (desc_generation (epoch_descriptor e))))
       end) in
    match result with
    | Ok (Ok reply) =>
        let e := e <| epoch_release_pending := false |> in
        ret (match reply with
             | Released => (e <| epoch_released := true |>, Ok tt)
             | _ => (e, Err (ControlInvariant "capture worker returned the wrong release result"))
             end)
    | Ok (Err error) =>
        let! a := get in
        ret (e <| epoch_release_pending := negb (slot_state a =? COMMAND_IDLE) |>, Err error)
    | Err error => ret (e, Err error)
    | Panic | Ok Panic => panic
    end.

Definition clear_active_accounted (accounting : CaptureClearAccounting) : AM CaptureClearReport :=
  let! a := get in
  fail_if (negb (acc_arena_runtime_id accounting =? runtime_id a))
    (ControlInvariant "clear accounting belongs to a different capture runtime") ;;
  let! reply := execute_command COMMAND_KIND_CLEAR (fun q target =>
    Clear target (dropped_frames q) accounting) in
  match reply with
  | Cleared report => ret report
  | _ => fail (ControlInvariant "capture worker returned the wrong clear result")
  end.

Definition recover_clear_result (recovery : CaptureClearRecovery) : AM (option CaptureClearReport) :=
  let! a := get in
  fail_if (negb (rec_arena_runtime_id recovery =? runtime_id a))
    (ControlInvariant "clear recovery belongs to a different capture runtime") ;;
  lock_command_client ;;
  let! a := get in
  match recovered_clear a with
  | Some report =>
      fail_if (negb (matches recovery report))
        (ControlInvariant "clear recovery identity does not match retained report") ;;
      modify (fun a => a <| recovered_clear := None |>) ;;
      ret (Some report)
  | None =>
      if slot_state a =? COMMAND_IDLE then ret None
      else
        fail_if (negb (abandoned (command (shared a)))
                 || negb (cmd_kind (command (shared a)) =? COMMAND_KIND_CLEAR))
          (ControlInvariant "capture clear result is not recoverable") ;;
        let! result := wait_slot_result in
        let! reply := lift result in
        match reply with
        | Cleared report =>
            if matches recovery report then ret (Some report)
            else
              modify (fun a => a <| recovered_clear := Some report |>) ;;
              fail (ControlInvariant "clear recovery identity does not match completed report")
        | _ => fail (ControlInvariant "capture worker returned the wrong clear recovery result")
        end
  end.

(** [CaptureArena::status]; [active_absolute_range] is a field of it. *)
Definition arena_status : AM CaptureArenaStatus :=
  let! reply := execute_command COMMAND_KIND_STATUS (fun _ => Status) in
  match reply with
  | StatusReply st => ret st
  | _ => fail (ControlInvariant "capture worker returned the wrong status result")
  end.

(** A read of the counter, after what comes before it. *)
Definition cumulative_capture_dropped_frames : AM Z :=
  let! _ := next_schedule in
  gets (fun a => cumulative_dropped_frames (queue (shared a))).
