(* ===== verification/CaptureClientSpec.v ===== *)
(** * What the clients of the capture worker can rely on

    A turn of the worker and the steps of the other threads keep the worker's
    invariant, whatever is in the command slot, and the answers that the worker
    leaves there are right for the commands they answer. *)
From S2P Require Import Prelude.
From S2P Require Import Errors.
From S2P Require Import MemoryPlan.
From S2P Require Import SampleRing.
From S2P Require Import RingSpec.
From S2P Require Import IngressQueue.
From S2P Require Import IngressSpec.
From S2P Require Import CalibrationCapture.
From S2P Require Import CalibrationTheorems.
From S2P Require Import CaptureWorker.
From S2P Require Import WorkerSpec.
From S2P Require Import CaptureClient.

(** ** The producers *)

#[export] Instance same_shape_queue_preorder : PreOrder same_shape_queue.
Proof.
  split.
  - intros q. unfold same_shape_queue. split_and!; done || lia.
  - intros q1 q2 q3 (? & ? & ?) (? & ? & ?). unfold same_shape_queue. split_and!; congruence || lia.
Qed.

Lemma words_ok q q' l :
  same_slots q q' -> enqueued_frames q' = enqueued_frames q -> dropped_frames q' = dropped_frames q ->
  cumulative_dropped_frames q' = cumulative_dropped_frames q -> queue_ok q l ->
  queue_ok q' l /\ same_shape_queue q q'.
Proof.
  intros Hs H1 H2 H3 Hq. destruct (q_counters _ _ Hq) as (? & ? & ?). split.
  - apply (same_slots_ok q); [done|congruence|congruence|congruence|done].
  - destruct Hs as (_ & ? & ? & _). unfold same_shape_queue. split_and!; [done|done|lia].
Qed.

(** A push by anybody, whatever comes of it. *)
Lemma push_keeps_queue q l input ch :
  queue_ok q l -> zlen input <= 2 ^ 61 ->
  exists new, queue_ok (try_push_interleaved input ch q).1 (l ++ new)
    /\ same_shape_queue q (try_push_interleaved input ch q).1.
Proof.
  intros Hq Hl.
  assert (exists new, queue_ok q (l ++ new) /\ same_shape_queue q q) as Hrefl
    by (exists []; by rewrite app_nil_r).
  unfold try_push_interleaved, acquire_producer. msteps.
  destruct (_ =? 0) eqn:E1; msteps; [done|]. destruct (_ =? PRODUCER_COUNT_MASK) eqn:E2; msteps; [done|].
  set (q1 := q <| producer_admission := _ |>).
  assert (queue_ok q1 l /\ same_shape_queue q q1) as [Hq1 Hs1] by (by apply words_ok).
  assert (exists q2 o new, try_push input ch q1 = (q2, o) /\ o <> Panic /\ queue_ok q2 (l ++ new)
    /\ same_shape_queue q1 q2) as (q2 & o & new & E & Ho & Hq2 & Hs2).
  { assert (forall e, exists q2 o new, (q1, Err e : Result CapturePushOutcome) = (q2, o) /\ o <> Panic
      /\ queue_ok q2 (l ++ new) /\ same_shape_queue q1 q2) as Hfail
      by (intros e; exists q1, (Err e), []; by rewrite app_nil_r).
    destruct (drop_counter_exhausted q1) eqn:Ed; [unfold try_push; msteps; rewrite Ed; msteps; apply Hfail|].
    destruct (decide (ch = channels q1)) as [->|Hne].
    2:{ unfold try_push. msteps. rewrite Ed. msteps. rewrite (proj2 (Z.eqb_neq _ _) Hne). msteps. apply Hfail. }
    pose proof (q_channels _ _ Hq1).
    destruct (decide (zlen input mod channels q1 = 0)) as [Hm|Hm].
    - destruct (push_total q1 l input (zlen input / channels q1) Hq1) as (q2 & o & new & E & Hq2 & Hs2 & Ho);
        [pose proof (Z.div_mod (zlen input) (channels q1)); lia|done|done|].
      exists q2, o, new. split; [done|]. split; [by intros ->|done].
    - unfold try_push. msteps. rewrite Ed. msteps. rewrite Z.eqb_refl. cbn [negb]. msteps.
      assert ((channels q1 =? 0) || negb (is_multiple_of (zlen input) (channels q1)) = true) as ->;
        [|msteps; apply Hfail].
      unfold is_multiple_of. destruct (channels q1 =? 0) eqn:Ez; [done|]. cbn [orb]. by rewrite (proj2 (Z.eqb_neq (zlen input mod channels q1) 0) Hm). }
  rewrite (bind_run _ _ _ _ _ (catch_run _ _ _ _ E Ho)).
  exists new. unfold release_producer, bump_generation, leave_producer. msteps.
  assert (forall q3, same_slots q2 q3 -> enqueued_frames q3 = enqueued_frames q2 ->
    dropped_frames q3 = dropped_frames q2 -> cumulative_dropped_frames q3 = cumulative_dropped_frames q2 ->
    queue_ok q3 (l ++ new) /\ same_shape_queue q q3) as Hdone.
  { intros q3 H1 H2 H3 H4. destruct (words_ok q2 q3 _ H1 H2 H3 H4 Hq2) as [H5 H6]. split; [done|].
    etrans; [exact Hs1|]. by etrans. }
  destruct o; [| |done]; apply Hdone; by destruct (add_checked (producer_generation q2) 1).
Qed.

(** ** The calibration clients *)

(** What a calibration client does to the slot. *)
Definition client_step (ch : Z) (s s' : CalibrationSlot) : Prop :=
  same_buffers s s' /\ (slot_ok ch s -> slot_ok ch s').

Lemma state_step ch s n : client_step ch s (s <| cal_state := n |>).
Proof. split; [done|]. by apply slot_same_buffers. Qed.

Lemma keep_step ch s : client_step ch s s.
Proof. by split. Qed.

Lemma exchange_step ch from to s : client_step ch s (exchange_or_keep from to s).
Proof.
  unfold exchange_or_keep, exchange. destruct (_ =? _); [apply state_step|apply keep_step].
Qed.

Lemma cancel_client_step ch s : client_step ch s (cancel s).1.
Proof.
  unfold cancel. destruct (_ || _); [apply state_step|].
  destruct (_ =? _); [apply state_step|apply keep_step].
Qed.

Lemma request_step ch r s :
  0 <= req_channel r -> 0 <= req_frames r -> client_step ch s (request_calibration ch r s).
Proof.
  intros Hc Hf. unfold request_calibration, check_request, begin_prepare, exchange.
  destruct (ch <=? _) eqn:E1; [apply keep_step|]. to_prop.
  destruct (_ || _) eqn:E2; [apply keep_step|]. to_prop.
  destruct (_ =? CALIBRATION_IDLE) eqn:E3; cbn [ok_or]; [|apply keep_step].
  unfold begin_publish. change (exchange _ _ _) with
    (Some (s <| cal_state := CALIBRATION_PREPARING |> <| cal_request := Some r |> <| cal_state := CALIBRATION_READY |>)).
  cbn [fst]. split; [done|]. intros []. constructor; try done. intros r' [= <-].
  change (cal_samples _) with (cal_samples s). lia.
Qed.

(** ** The answers *)

(** What a command leaves alone. *)
Definition same_surroundings (w w' : WorkerState) : Prop :=
  queue w' = queue w /\ command w' = command w /\ absolute_head w' = absolute_head w /\
  worker_done w' = worker_done w.

#[export] Instance same_surroundings_preorder : PreOrder same_surroundings.
Proof.
  split; [by intros w|]. intros w1 w2 w3 (? & ? & ? & ?) (? & ? & ? & ?).
  unfold same_surroundings. split_and!; congruence.
Qed.

Lemma keeps_on_epoch {A} i (m : M SampleRing LambError A) : keeps same_surroundings (on_epoch i m).
Proof. intros w. unfold on_epoch. destruct (zlookup _ _) as [r|]; [|done]. by destruct (m r). Qed.

Lemma process_surroundings c : keeps same_surroundings (process_command c).
Proof.
  destruct c; unfold process_command, freeze, release, clear_command, worker_status,
    retire_and_reset, active_absolute_range, epoch_at, base_at;
    repeat first [apply keeps_on_epoch | progress keep_steps]; done.
Qed.

(** The command can be processed with [head] frames accepted. *)
Definition command_fits (c : WorkerCommand) (head : Z) : Prop :=
  match c with
  | Freeze _ cs => 0 <= default 0 cs <= head
  | Clear _ ingress acc =>
      0 <= ingress /\ 0 <= pending_retention_lost_frames acc /\ 0 <= pending_cleared_frames acc
      /\ 0 <= expected_active_start acc <= head
  | Release _ _ _ | Status _ => True
  | Shutdown _ => False
  end.

(** The frozen range begins at or after the asked start and is not empty. *)
Definition freeze_for (cs : option Z) (d : FrozenDescriptor) (head : Z) : Prop :=
  default 0 cs <= (desc_absolute_range d).1 /\
  (desc_absolute_range d).1 < (desc_absolute_range d).2 <= head.

(** The report of a clear: the frames before the active range's start that the
    accounting did not expect are lost, the rest of the range is cleared. *)
Definition report_for (acc : CaptureClearAccounting) (report : CaptureClearReport) (head : Z) : Prop :=
  let '(start, end_) := report_active_absolute_range report in
  start <= end_ <= head
  /\ report_pending_retention_lost_frames report =
       pending_retention_lost_frames acc + Z.max (start - expected_active_start acc) 0
  /\ report_pending_cleared_frames report =
       pending_cleared_frames acc + Z.max (end_ - Z.max (expected_active_start acc) start) 0
  /\ expected_active_start acc <= end_.

(** The answers to a command; a refusal is an answer. *)
Definition answers (c : WorkerCommand) (o : Result WorkerReply) (head : Z) : Prop :=
  match o with
  | Err _ => True
  | Panic => False
  | Ok reply =>
      match c, reply with
      | Freeze _ cs, Frozen (Some d) => freeze_for cs d head
      | Freeze _ _, Frozen None | Release _ _ _, Released | Status _, StatusReply _ => True
      | Clear _ _ acc, Cleared report => report_for acc report head
      | _, _ => False
      end
  end.

Lemma freeze_answers w H ra rs ba bs hs cs :
  worker_view w H ra rs ba bs hs -> 0 <= default 0 cs <= absolute_head w ->
  match (freeze cs w).2 with
  | Ok (Some d) => freeze_for cs d (absolute_head w)
  | Ok None | Err _ => True
  | Panic => False
  end.
Proof.
  intros V Hcs. destruct (frozen w) as [f|] eqn:Ef.
  { by rewrite (proj1 (freeze_refused w H ra rs ba bs hs cs V) ltac:(congruence)). }
  destruct (decide (freeze_start ba ra cs < absolute_head w /\ next_generation w = u64_max)) as [[Hs Hg]|Hn].
  { by rewrite (proj2 (freeze_refused w H ra rs ba bs hs cs V) Ef Hg Hs). }
  pose proof (wv_generation _ _ _ _ _ _ _ V).
  destruct (view_freeze w H ra rs ba bs hs cs V Ef ltac:(lia)) as (w' & r' & -> & _).
  cbn [snd]. unfold freeze_result. destruct (_ <? _) eqn:E; [|done]. to_prop.
  unfold freeze_for. cbn [desc_absolute_range fst snd].
  pose proof (view_positions _ _ _ _ _ _ _ V). pose proof (wv_base _ _ _ _ _ _ _ V).
  unfold freeze_start in *. destruct cs; cbn in *; lia.
Qed.

Lemma clear_answers w H ra rs ba bs hs t ingress acc :
  worker_view w H ra rs ba bs hs -> 0 <= worker_dropped_frames w ->
  command_fits (Clear t ingress acc) (absolute_head w) ->
  match (clear_command ingress acc w).2 with
  | Ok report => report_for acc report (absolute_head w)
  | Err _ => True
  | Panic => False
  end.
Proof.
  intros V Hd (H1 & H2 & H3 & H4).
  destruct (view_clear w H ra rs ba bs hs ingress acc V H1 H2 H3 Hd) as
    [(_ & _ & _ & w' & r' & -> & _)|(_ & e & ->)]; [|done].
  cbn [snd]. unfold report_for.
  cbn [report_active_absolute_range report_pending_retention_lost_frames report_pending_cleared_frames].
  pose proof (view_positions _ _ _ _ _ _ _ V). pose proof (wv_head _ _ _ _ _ _ _ V).
  unfold clear_lost, clear_dropped, saturating_sub. lia.
Qed.

(** A command is answered, and the worker's invariant survives it. *)
Lemma process_answers w H c :
  worker_inv w H -> 0 <= worker_dropped_frames w -> command_fits c (absolute_head w) ->
  exists w' o, process_command c w = (w', o) /\ o <> Panic /\ worker_inv w' H /\
    worker_channels w' = worker_channels w /\ worker_dropped_frames w' = worker_dropped_frames w /\
    same_surroundings w w' /\ answers c o (absolute_head w).
Proof.
  intros (ra & rs & ba & bs & hs & V) Hd Hc.
  destruct (view_process w H ra rs ba bs hs c V Hd) as (w' & o & E & Ho & Hi & Hch & Hdr & _).
  { destruct c; try done. split_and!; apply Hc. }
  exists w', o. pose proof (process_surroundings c w) as Hs. rewrite E in Hs. split_and!; try done.
  revert E. unfold process_command. msteps. destruct (_ && _); msteps; [by intros [= _ <-]|].
  destruct c as [t cs|t i g|t ingress acc|t|t]; unfold bind.
  - pose proof (freeze_answers w H ra rs ba bs hs cs V Hc) as Hf.
    destruct (freeze cs w) as [w1 [[d|]|e|]]; [| | |done]; by intros [= _ <-].
  - destruct (release i g w) as [w1 [[]|e|]]; [| |]; intros [= _ <-]; done.
  - pose proof (clear_answers w H ra rs ba bs hs t ingress acc V Hd Hc) as Hf.
    destruct (clear_command ingress acc w) as [w1 [r|e|]]; [| |done]; by intros [= _ <-].
  - destruct (worker_status w) as [w1 [st|e|]]; intros [= _ <-]; done.
  - done.
Qed.

(** ** The worker between two turns *)

Record running (w : WorkerState) : Prop := {
  rn_inv : exists H, worker_inv w H;
  rn_dropped : 0 <= worker_dropped_frames w;
  rn_queue : exists log, queue_ok (queue w) log;
  rn_channels : channels (queue w) = worker_channels w;
}.

(** From [w] to [w'] at most [k] slots are consumed. *)
Definition advances (k : Z) (w w' : WorkerState) : Prop :=
  slot_frames (queue w') = slot_frames (queue w) /\
  absolute_head w <= absolute_head w' <= absolute_head w + k * slot_frames (queue w) /\
  cumulative_dropped_frames (queue w) <= cumulative_dropped_frames (queue w').

Lemma running_step w w' : calibration_step w w' -> running w -> running w'.
Proof.
  intros Hs [(H & ra & rs & ba & bs & hs & V) Hd Hq Hch].
  pose proof (calibration_step_view _ _ _ _ _ _ _ _ Hs V) as V'.
  destruct Hs as ((_ & _ & _ & _ & _ & _ & _ & _ & Hc & _) & Hdr & Hqu & _).
  constructor; [exists H; by eapply view_inv|lia|by rewrite Hqu|congruence].
Qed.

Lemma step_advances w w' : calibration_step w w' -> running w -> advances 0 w w' /\ command w' = command w.
Proof.
  intros ((_ & _ & _ & Ha & _) & _ & Hq & Hm & _) _. unfold advances. rewrite Hq, Ha. split_and!; try done; lia.
Qed.

Lemma advances_trans k1 k2 w1 w2 w3 : advances k1 w1 w2 -> advances k2 w2 w3 -> advances (k1 + k2) w1 w3.
Proof.
  intros (S1 & H1 & D1) (S2 & H2 & D2). unfold advances. rewrite S1 in *. split_and!; [congruence|lia|nia|lia].
Qed.

Lemma advances_more k1 k2 w w' : running w -> k1 <= k2 -> advances k1 w w' -> advances k2 w w'.
Proof.
  intros [_ _ [log Hq] _] Hk (S1 & H1 & D1). pose proof (q_slot_frames _ _ Hq).
  unfold advances. split_and!; [done|lia|nia|lia].
Qed.

(** The next slot of the queue. *)
Lemma next_slot q log :
  queue_ok q log -> consumed_sequence q < published_sequence q ->
  exists xs n, zlookup log (consumed_sequence q) = Some xs /\ zlen xs = n * channels q /\
    0 < n <= slot_frames q /\ zlen xs <= 2 ^ 61 /\
    peek_next q = Ok (Some (xs, n, consumed_sequence q)).
Proof.
  intros Hq Hlt. pose proof (q_consumed _ _ Hq). pose proof (q_channels _ _ Hq) as Hch.
  destruct (q_holds _ _ Hq (consumed_sequence q)) as (xs & Hl & slot & Hs & Hf & Hx & Hle & _); [lia|].
  pose proof (q_buffers _ _ Hq _ _ Hs). pose proof (q_buffer_size _ _ Hq).
  exists xs, (frames slot). split_and!; [done | done | done | nia | lia |].
  rewrite (peek_spec Hq), (proj2 (Z.leb_gt _ _)), Hl by lia. do 4 f_equal.
  rewrite Hx. apply Z.div_mul. lia.
Qed.

(** The samples of a slot go to the active epoch, or are counted as dropped once
    the worker has a fault. *)
Lemma consume_slot w log now xs n :
  running w -> queue_ok (queue w) log -> absolute_head w + slot_frames (queue w) < u64_max ->
  zlen xs = n * worker_channels w -> 0 < n <= slot_frames (queue w) -> zlen xs <= 2 ^ 61 ->
  exists w', consume_samples now xs n (consumed_sequence (queue w)) w = (w', Ok tt) /\ running w' /\
    advances 1 w w' /\ command w' = command w /\ queue_ok (queue w') log /\ same_slots (queue w) (queue w').
Proof.
  intros [(H & ra & rs & ba & bs & hs & V) Hd _ Hch] Hq Hmax Hx Hn Hsz.
  destruct (worker_fault w) as [fault|] eqn:Ef.
  - destruct (view_consume_faulted w H ra rs ba bs hs now xs n (consumed_sequence (queue w)) V ltac:(congruence))
      as (w' & E & V' & Hc & _ & Hm & Hdr & Hqu).
    pose proof (add_dropped_spec Hq n ltac:(lia)) as Ha.
    assert (queue_ok (queue w') log /\ same_slots (queue w) (queue w') /\
      cumulative_dropped_frames (queue w) <= cumulative_dropped_frames (queue w')) as (Hq' & Hs & Hcu).
    { rewrite Hqu. destruct (add_dropped_frames n (queue w)) as [q' [u|e|]]; cbn [fst];
        [destruct Ha as (? & ? & _ & _ & ?)|destruct Ha as (? & ? & _ & _ & ?)|done];
        (split_and!; [done|done|lia]). }
    pose proof Hs as (_ & Hc2 & Hsf & _).
    destruct Hc as (_ & _ & _ & Hab & _ & _ & _ & _ & Hcc & _).
    exists w'. split_and!; try done.
    + constructor; [exists H; by eapply view_inv|lia|by exists log|congruence].
    + unfold advances. split_and!; [done|lia|lia|done].
  - destruct (view_consume w H ra rs ba bs hs now xs n (consumed_sequence (queue w)) V Ef) as
      (w' & ra' & E & V' & _ & _ & _ & _ & _ & Hab & Hqu & Hm & _ & Hdr & Hcc & _); [lia|done|done|lia|].
    exists w'. rewrite Hqu. split_and!; try done.
    + constructor; [exists (H ++ xs); by eapply view_inv|lia|rewrite Hqu; by exists log|congruence].
    + unfold advances. rewrite Hqu. split_and!; [done|lia|lia|lia].
Qed.

Lemma consume_turn now w :
  running w -> absolute_head w + slot_frames (queue w) < u64_max ->
  exists w' b, consume_one now w = (w', Ok b) /\ running w' /\ advances 1 w w' /\ command w' = command w.
Proof.
  intros Hr Hmax. destruct (accept_step w) as (w1 & E1 & S1 & _).
  pose proof (running_step _ _ S1 Hr) as Hr1. destruct (step_advances _ _ S1 Hr) as [A1 M1].
  pose proof (rn_queue _ Hr1) as [log Hq]. pose proof A1 as (Hsf & Hh & _).
  unfold consume_one. rewrite (bind_run _ _ _ _ _ E1). msteps.
  pose proof (q_consumed _ _ Hq).
  destruct (decide (consumed_sequence (queue w1) < published_sequence (queue w1))) as [Hlt|Hge].
  - destruct (next_slot _ _ Hq Hlt) as (xs & n & _ & Hx & Hn & Hsz & ->). msteps.
    destruct (consume_slot w1 log now xs n Hr1 Hq) as (w2 & E2 & Hr2 & A2 & M2 & Hq2 & Hs2);
      [lia|rewrite <-(rn_channels _ Hr1); done|done|done|].
    rewrite (bind_run _ _ _ _ _ E2). pose proof Hs2 as (_ & _ & _ & Hp2 & Hc2).
    rewrite <-Hc2. destruct (advance_spec Hq2 ltac:(lia)) as (q' & Ea & Hq' & Hqe).
    assert (on_queue (advance (consumed_sequence (queue w2))) w2 = (w2 <| queue := q' |>, Ok tt)) as Eq
      by (unfold on_queue; by rewrite Ea).
    rewrite (bind_run _ _ _ _ _ Eq). eexists _, true. split; [done|].
    assert (same_core w2 (w2 <| queue := q' |>)) as Hcc by (by unfold same_core).
    split_and!; [| |cbn; congruence].
    + destruct Hr2 as [(H2 & ra & rs & ba & bs & hs & V2) Hd2 _ Hch2]. constructor.
      * exists H2. eapply view_inv, same_core_view; [exact Hcc|apply V2|apply V2|exact V2].
      * done.
      * by exists log.
      * change (channels q' = worker_channels w2). by rewrite Hqe.
    + pose proof (advances_trans _ _ _ _ _ A1 A2) as A. unfold advances in *.
      change (queue (w2 <| queue := q' |>)) with q'. change (absolute_head (w2 <| queue := q' |>)) with (absolute_head w2).
      rewrite Hqe. exact A.
  - rewrite (peek_spec Hq), (proj2 (Z.leb_le _ _)) by lia. msteps. exists w1, false. split_and!; try done.
    by apply (advances_more 0).
Qed.

(** ** The command slot *)

Definition kind_of (c : WorkerCommand) : Z :=
  match c with
  | Freeze _ _ => COMMAND_KIND_FREEZE
  | Release _ _ _ => COMMAND_KIND_RELEASE
  | Clear _ _ _ => COMMAND_KIND_CLEAR
  | Status _ => COMMAND_KIND_STATUS
  | Shutdown _ => COMMAND_KIND_SHUTDOWN
  end.

(** The command that the slot holds, before or after its processing. *)
Inductive pending (s : CommandSlot) (head : Z) : option WorkerCommand -> Prop :=
  | pending_idle : cmd_state s = COMMAND_IDLE -> pending s head None
  | pending_ready c :
      cmd_state s = COMMAND_READY -> cmd_command s = Some c -> cmd_kind s = kind_of c ->
      command_fits c head -> pending s head (Some c)
  | pending_answered c o :
      cmd_state s = COMMAND_RESULT_READY -> cmd_result s = Some o -> cmd_kind s = kind_of c ->
      answers c o head -> pending s head (Some c).

Definition is_shutdown (c : WorkerCommand) : bool :=
  match c with Shutdown _ => true | _ => false end.

Lemma fits_later c h h' : h <= h' -> command_fits c h -> command_fits c h'.
Proof. destruct c; cbn; lia || done. Qed.

Lemma freeze_for_later cs d h h' : h <= h' -> freeze_for cs d h -> freeze_for cs d h'.
Proof. unfold freeze_for. lia. Qed.

Lemma report_later acc r h h' : h <= h' -> report_for acc r h -> report_for acc r h'.
Proof. unfold report_for. destruct (report_active_absolute_range r). lia. Qed.

Lemma answers_later c o h h' : h <= h' -> answers c o h -> answers c o h'.
Proof.
  intros Hh. destruct o as [reply|e|]; cbn; [|done|done].
  destruct c, reply as [[d|]| | | |]; cbn; try done; [by apply freeze_for_later|by apply report_later].
Qed.

Lemma pending_later s h h' oc : h <= h' -> pending s h oc -> pending s h' oc.
Proof.
  intros Hh []; [by apply pending_idle|apply pending_ready|eapply pending_answered]; try done;
    [by eapply fits_later|by eapply answers_later].
Qed.

(** ** Events *)

Lemma same_world w w' :
  same_core w w' -> queue w' = queue w -> worker_dropped_frames w' = worker_dropped_frames w ->
  calibration_shared w' = calibration_shared w -> calibration w' = calibration w ->
  running w -> running w'.
Proof.
  intros Hc Hq Hd Hs Hcal [(H & ra & rs & ba & bs & hs & V) Hdr Hl Hch].
  assert (worker_channels w' = worker_channels w) as Hcc by (destruct Hc as (_ & _ & _ & _ & _ & _ & _ & _ & Hcc & _); done).
  constructor; [exists H|lia|by rewrite Hq|congruence].
  eapply view_inv, same_core_view; [exact Hc| | |exact V]; rewrite Hcc, Hs; [apply V|rewrite Hcal; apply V].
Qed.

(** A turn of the worker's loop. *)
Lemma turn_ok now w oc :
  running w -> pending (command w) (absolute_head w) oc ->
  absolute_head w + slot_frames (queue w) < u64_max ->
  exists w', run_turn now w = (w', Ok false) /\ running w' /\ advances 1 w w' /\
    pending (command w') (absolute_head w') oc /\ abandoned (command w') = abandoned (command w).
Proof.
  intros Hr Hp Hmax. destruct (cancel_step w) as (w1 & E1 & S1 & _).
  pose proof (running_step _ _ S1 Hr) as Hr1. destruct (step_advances _ _ S1 Hr) as [A1 M1].
  pose proof A1 as (Hsf & Hh & _).
  assert (exists w' b, consume_one now w1 = (w', Ok b) /\ running w' /\ advances 1 w w' /\
    pending (command w') (absolute_head w') oc /\ abandoned (command w') = abandoned (command w)) as Hconsume.
  { destruct (consume_turn now w1 Hr1 ltac:(lia)) as (w2 & b & E2 & Hr2 & A2 & M2).
    pose proof (advances_trans _ _ _ _ _ A1 A2) as A.
    exists w2, b. rewrite M2, M1. split_and!; try done. eapply pending_later; [|exact Hp]. apply A. }
  unfold run_turn. rewrite (bind_run _ _ _ _ _ E1). msteps. rewrite M1.
  destruct Hconsume as (w2 & b & E2 & Hr2 & A2 & P2 & F2).
  destruct Hp as [Hs|c Hs Hc Hk Hfit|c o Hs Ho Hk Ha]; unfold ready_target; rewrite Hs; cbn [Z.eqb].
  - change (COMMAND_IDLE =? COMMAND_PREPARING) with false. change (COMMAND_IDLE =? COMMAND_READY) with false.
    cbv iota. rewrite (bind_run _ _ _ _ _ E2). exists w2. by split_and!.
  - change (COMMAND_READY =? COMMAND_PREPARING) with false. change (COMMAND_READY =? COMMAND_READY) with true.
    cbv iota. rewrite Hc. cbn [option_map]. destruct (_ <? _).
    { rewrite (bind_run _ _ _ _ _ E2). exists w2. by split_and!. }
    set (s3 := (command w1) <| cmd_command := None |> <| cmd_state := COMMAND_PROCESSING |>).
    assert (on_command take_command w1 = (w1 <| command := s3 |>, Ok c)) as Et.
    { unfold on_command, take_command. msteps. rewrite M1, Hs, Hc, Z.eqb_refl. cbn [unwrap]. msteps.
      rewrite ret_run. unfold s3. by rewrite M1. }
    rewrite (bind_run _ _ _ _ _ Et). set (w3 := w1 <| command := s3 |>).
    assert (running w3) as Hr3 by (by apply (same_world w1)).
    pose proof (rn_inv _ Hr3) as [H3 I3].
    destruct (process_answers w3 H3 c I3 (rn_dropped _ Hr3)) as (w4 & o & E4 & Ho & I4 & Hch & Hdr & Hsur & Ha);
      [eapply fits_later; [|exact Hfit]; apply A1|].
    rewrite (bind_run _ _ _ _ _ (catch_run _ _ _ _ E4 Ho)).
    destruct Hsur as (Hq4 & Hm4 & Hh4 & _).
    assert (is_shutdown c = false) as Hsd by (by destruct c).
    fold (is_shutdown c). rewrite Hsd.
    eexists. split; [reflexivity|]. set (w5 := w4 <| command := _ |>).
    assert (queue w5 = queue w1) as Hq5 by done. assert (absolute_head w5 = absolute_head w1) as Hh5 by done.
    split_and!.
    + apply (same_world w4); try done. constructor; [by exists H3|rewrite Hdr; apply Hr3|rewrite Hq4; apply Hr3|].
      rewrite Hq4, Hch. apply Hr3.
    + eapply advances_more; [exact Hr| |]; [|unfold advances; rewrite Hq5, Hh5; exact A1]. lia.
    + rewrite Hh5. eapply pending_answered; [done|done| |].
      * unfold w5. cbn. rewrite Hm4. cbn. by rewrite M1.
      * exact Ha.
    + unfold w5. cbn. rewrite Hm4. cbn. by rewrite M1.
  - change (COMMAND_RESULT_READY =? COMMAND_PREPARING) with false.
    change (COMMAND_RESULT_READY =? COMMAND_READY) with false.
    cbv iota. rewrite (bind_run _ _ _ _ _ E2). exists w2. by split_and!.
Qed.

(** The number of slots that an event may consume. *)
Definition event_turns (e : WorkerEvent) : Z := match e with Turn _ => 1 | _ => 0 end.

(** The arguments of a producer or of a calibration client. *)
Definition event_fits (e : WorkerEvent) : Prop :=
  match e with
  | Push input _ => zlen input <= 2 ^ 61
  | RequestCalibration r => 0 <= req_channel r /\ 0 <= req_frames r
  | _ => True
  end.

(** A step of another thread on the queue or on the calibration slot. *)
Lemma shared_step w q' s' log' :
  running w -> queue_ok q' log' -> same_shape_queue (queue w) q' ->
  client_step (worker_channels w) (calibration_shared w) s' ->
  running (w <| queue := q' |> <| calibration_shared := s' |>) /\
  advances 0 w (w <| queue := q' |> <| calibration_shared := s' |>).
Proof.
  intros [(H & ra & rs & ba & bs & hs & V) Hdr Hl Hch] Hq' (Hc & Hsf & Hcu) [Hb Hs]. split.
  - constructor; [|done|by exists log'|cbn; congruence]. exists H.
    eapply view_inv, (same_core_view w); [by unfold same_core|apply Hs, V| |exact V].
    eapply capture_same_buffers; [exact Hb|apply V].
  - unfold advances. cbn. split_and!; [done|lia|lia|done].
Qed.

Lemma queue_step w q' log' :
  running w -> queue_ok q' log' -> same_shape_queue (queue w) q' ->
  running (w <| queue := q' |>) /\ advances 0 w (w <| queue := q' |>).
Proof. intros Hr Hq Hs. exact (shared_step w q' (calibration_shared w) log' Hr Hq Hs (keep_step _ _)). Qed.

Lemma slot_step w s' :
  running w -> client_step (worker_channels w) (calibration_shared w) s' ->
  running (w <| calibration_shared := s' |>) /\ advances 0 w (w <| calibration_shared := s' |>).
Proof.
  intros Hr Hs. destruct (rn_queue _ Hr) as [log Hq].
  exact (shared_step w (queue w) s' log Hr Hq (reflexivity _) Hs).
Qed.

Lemma event_ok e w oc :
  running w -> pending (command w) (absolute_head w) oc -> event_fits e ->
  absolute_head w + event_turns e * slot_frames (queue w) < u64_max ->
  running (apply_event e w) /\ advances (event_turns e) w (apply_event e w) /\
  pending (command (apply_event e w)) (absolute_head (apply_event e w)) oc /\
  abandoned (command (apply_event e w)) = abandoned (command w).
Proof.
  intros Hr Hp He Hmax.
  assert (forall w', running w' /\ advances 0 w w' -> command w' = command w -> absolute_head w' = absolute_head w ->
    event_turns e = 0 ->
    running w' /\ advances (event_turns e) w w' /\ pending (command w') (absolute_head w') oc /\
    abandoned (command w') = abandoned (command w)) as Hother.
  { intros w' [H1 H2] H3 H4 H5. rewrite H3, H4, H5. by split_and!. }
  destruct e as [now|input ch|r| | | |]; cbn [event_turns event_fits] in *.
  - cbn [apply_event]. unfold worker_thread. destruct (worker_done w).
    + split_and!; try done. apply (advances_more 0); [done|lia|]. unfold advances. split_and!; [done|lia|lia|done].
    + destruct (turn_ok now w oc Hr Hp ltac:(lia)) as (w' & -> & H). exact H.
  - destruct (rn_queue _ Hr) as [log Hq].
    destruct (push_keeps_queue (queue w) log input ch Hq He) as (new & Hq' & Hs').
    by apply Hother; [apply (queue_step w _ _ Hr Hq' Hs')|..].
  - apply Hother; [|done..]. apply slot_step; [done|]. rewrite <-(rn_channels _ Hr). by apply request_step; apply He.
  - apply Hother; [|done..]. apply slot_step; [done|apply cancel_client_step].
  - apply Hother; [|done..]. apply slot_step; [done|apply exchange_step].
  - apply Hother; [|done..]. apply slot_step; [done|apply exchange_step].
  - apply Hother; [|done..]. apply slot_step; [done|apply exchange_step].
Qed.

(** ** The arena *)

Fixpoint turns (l : list WorkerEvent) : Z :=
  match l with [] => 0 | e :: l' => event_turns e + turns l' end.

Lemma turns_nonneg l : 0 <= turns l.
Proof. induction l as [|[] l IH]; cbn in *; lia. Qed.

(** The worker can go on with the events [l] and [k] more slots without reaching
    the end of its frame counter. *)
Definition can_run (w : WorkerState) (l : list WorkerEvent) (k : Z) : Prop :=
  running w /\ Forall event_fits l /\ 0 <= k /\
  absolute_head w + (turns l + k) * slot_frames (queue w) < u64_max.

Definition arena_at (a : CaptureArena) (k : Z) : Prop := can_run (shared a) (future a) k.

(** What no call of the arena undoes. *)
Definition later (a a' : CaptureArena) : Prop :=
  absolute_head (shared a) <= absolute_head (shared a') /\
  cumulative_dropped_frames (queue (shared a)) <= cumulative_dropped_frames (queue (shared a')) /\
  runtime_id a' = runtime_id a /\ schedules a' = schedules a.

#[export] Instance later_preorder : PreOrder later.
Proof.
  split.
  - intros a. unfold later. split_and!; done || lia.
  - intros a1 a2 a3 (? & ? & ? & ?) (? & ? & ? & ?). unfold later. split_and!; congruence || lia.
Qed.

(** The client state that [recover_before] looks at is left alone. *)
Definition same_client (a a' : CaptureArena) : Prop :=
  recovered_frozen a' = recovered_frozen a /\ recovered_clear a' = recovered_clear a.

#[export] Instance same_client_preorder : PreOrder same_client.
Proof. split; [by intros a|]. intros a1 a2 a3 (? & ?) (? & ?). split; congruence. Qed.

Lemma on_slot_run {A} (m : SM A) (a : CaptureArena) s' o :
  m (command (shared a)) = (s', o) ->
  on_slot m a = (a <| shared := (shared a) <| command := s' |> |>, o).
Proof. intros E. unfold on_slot, on_command. by rewrite E. Qed.

Lemma can_run_command w s l k : can_run w l k -> can_run (w <| command := s |>) l k.
Proof.
  intros (Hr & H). split; [|exact H]. by apply (same_world w).
Qed.

(** The slot was left alone or only its command slot was changed. *)
Lemma command_later (a : CaptureArena) s l k :
  can_run (shared a) l k ->
  let a' := a <| shared := (shared a) <| command := s |> |> in
  can_run (shared a') l k /\ later a a' /\ same_client a a'.
Proof.
  intros H a'. split; [by apply can_run_command|]. split; [|done].
  unfold later. split_and!; try done; cbn; lia.
Qed.

(** A poll takes the answer or finds none. *)
Lemma poll_ok (a : CaptureArena) c l k :
  can_run (shared a) l k -> pending (command (shared a)) (absolute_head (shared a)) (Some c) ->
  exists a' o, on_slot take_result a = (a', Ok o) /\ can_run (shared a') l k /\ later a a' /\ same_client a a' /\
    match o with
    | Some result => answers c result (absolute_head (shared a')) /\
        pending (command (shared a')) (absolute_head (shared a')) None
    | None => pending (command (shared a')) (absolute_head (shared a')) (Some c) /\
        command (shared a') = command (shared a)
    end.
Proof.
  intros Hrun Hp. inversion Hp as [|c0 Hs Hc Hk Hf|c0 o Hs Ho Hk Ha]; subst.
  - assert (take_result (command (shared a)) = (command (shared a), Ok None)) as E
      by (unfold take_result; msteps; by rewrite Hs).
    eexists _, _. split; [exact (on_slot_run _ _ _ _ E)|].
    destruct (command_later a (command (shared a)) l k Hrun) as (H1 & H2 & H3). by split_and!.
  - set (s' := (command (shared a)) <| cmd_result := None |> <| cmd_kind := 0 |> <| abandoned := false |>
                   <| cmd_state := COMMAND_IDLE |>).
    assert (take_result (command (shared a)) = (s', Ok (Some o))) as E
      by (unfold take_result; msteps; rewrite Hs; cbn; by rewrite Ho).
    eexists _, _. split; [exact (on_slot_run _ _ _ _ E)|].
    destruct (command_later a s' l k Hrun) as (H1 & H2 & H3). split; [done|]. split; [done|].
    split; [done|]. split; [done|]. by apply pending_idle.
Qed.

Lemma apply_ok (a : CaptureArena) e l k oc :
  can_run (shared a) (e :: l) k -> pending (command (shared a)) (absolute_head (shared a)) oc ->
  let a' := a <| shared ::= apply_event e |> in
  can_run (shared a') l k /\ later a a' /\ same_client a a' /\
  pending (command (shared a')) (absolute_head (shared a')) oc.
Proof.
  intros (Hr & Hf & Hk & Hmax) Hp a'. apply Forall_cons in Hf as [He Hf]. cbn [turns] in Hmax.
  pose proof (turns_nonneg l). destruct (rn_queue _ Hr) as [log Hq]. pose proof (q_slot_frames _ _ Hq).
  destruct (event_ok e (shared a) oc Hr Hp He ltac:(nia)) as (Hr' & (A1 & A2 & A3) & Hp' & _).
  change (apply_event e (shared a)) with (shared a') in *. split.
  - split; [done|]. split; [done|]. split; [done|]. rewrite A1. nia.
  - split; [|done]. unfold later. split_and!; try done; lia.
Qed.

(** Polling for the result until the deadline: the answer, or a timeout that leaves
    the command in the slot. *)
Lemma wait_polls_ok l : forall a c k,
  can_run (shared a) l k -> pending (command (shared a)) (absolute_head (shared a)) (Some c) ->
  exists a' o, wait_polls l a = (a', o) /\ arena_at a' k /\ later a a' /\ same_client a a' /\
    match o with
    | Ok result => answers c result (absolute_head (shared a')) /\
        pending (command (shared a')) (absolute_head (shared a')) None
    | Err e => e = timed_out /\ abandoned (command (shared a')) = true /\
        pending (command (shared a')) (absolute_head (shared a')) (Some c)
    | Panic => False
    end.
Proof.
  induction l as [|e l IH]; intros a c k Hrun Hp; cbn [wait_polls];
    destruct (poll_ok a c _ k Hrun Hp) as (a1 & [result|] & E1 & R1 & L1 & C1 & H1);
    rewrite (bind_run _ _ _ _ _ E1).
  1,3: msteps; eexists _, _; by split_and!.
  - destruct H1 as [P1 _].
    set (s' := (command (shared a1)) <| abandoned := true |>).
    assert (modify (fun s => s <| abandoned := true |>) (command (shared a1)) = (s', Ok tt : Result unit)) as E by done.
    rewrite (bind_run _ _ _ _ _ (on_slot_run _ _ _ _ E)). msteps.
    destruct (command_later a1 s' [] k R1) as (R2 & L2 & C2).
    set (a2 := a1 <| shared := _ |>) in *.
    exists (a2 <| future := [] |>). eexists. split; [done|]. split; [exact R2|].
    split; [by trans a1|]. split; [by trans a1|]. split; [done|]. split; [done|].
    inversion P1; subst; [by apply pending_ready|by eapply pending_answered].
  - destruct H1 as [P1 _]. msteps.
    destruct (apply_ok a1 e l k _ R1 P1) as (R2 & L2 & C2 & P2). set (a2 := a1 <| shared ::= _ |>) in *.
    destruct (IH a2 c k R2 P2) as (a3 & o & E3 & R3 & L3 & C3 & H3). exists a3, o.
    split; [exact E3|]. split; [done|]. split; [by trans a1; [|trans a2]|]. split; [by trans a1; [|trans a2]|done].
Qed.

(** ** The promises of the arena *)

(** What the retained results and the command in the slot promise: [asked] is the
    start of a freeze, and [cl] the accounting of a clear, whose answer nobody has
    taken yet. *)
Definition kept (a : CaptureArena) (oc : option WorkerCommand) (asked : option (option Z))
    (cl : option CaptureClearAccounting) : Prop :=
  let head := absolute_head (shared a) in
  match recovered_frozen a, recovered_clear a, oc with
  | None, None, (None | Some (Release _ _ _ | Status _)) => asked = None /\ cl = None
  | None, None, Some (Freeze _ cs) => asked = Some cs /\ cl = None
  | Some d, None, None => cl = None /\ exists cs, asked = Some cs /\ freeze_for cs d head
  | None, None, Some (Clear _ _ acc) => asked = None /\ cl = Some acc
  | None, Some report, (None | Some (Status _)) =>
      asked = None /\ exists acc, cl = Some acc /\ report_for acc report head
  | _, _, _ => False
  end.

(** The arena between two calls: a command in the slot was given up. *)
Definition promised (a : CaptureArena) (k : Z) (asked : option (option Z))
    (cl : option CaptureClearAccounting) : Prop :=
  arena_at a k /\ exists oc,
    pending (command (shared a)) (absolute_head (shared a)) oc /\
    (oc <> None -> abandoned (command (shared a)) = true) /\ kept a oc asked cl.

(** The slot is free. *)
Definition slot_free (a : CaptureArena) (k : Z) (asked : option (option Z))
    (cl : option CaptureClearAccounting) : Prop :=
  arena_at a k /\ pending (command (shared a)) (absolute_head (shared a)) None /\ kept a None asked cl.

(** A promise stays open or is closed. *)
Definition closes {X} (x x' : option X) : Prop := x' = x \/ x' = None.

Lemma kept_later a a' oc asked cl :
  later a a' -> same_client a a' -> kept a oc asked cl -> kept a' oc asked cl.
Proof.
  intros (Hh & _) [Hf Hc]. unfold kept. rewrite Hf, Hc.
  destruct (recovered_frozen a) as [d|], (recovered_clear a) as [r|], oc as [[]|]; try done.
  - intros (-> & cs & -> & H). split; [done|]. exists cs. split; [done|]. by eapply freeze_for_later.
  - intros (-> & acc & -> & H). split; [done|]. exists acc. split; [done|]. by eapply report_later.
  - intros (-> & acc & -> & H). split; [done|]. exists acc. split; [done|]. by eapply report_later.
Qed.

Lemma free_promised a k asked cl : slot_free a k asked cl -> promised a k asked cl.
Proof. intros (Ha & Hp & Hk). split; [done|]. by exists None. Qed.

(** [wait_slot_result] for the command [c]. *)
Lemma wait_ok a c k :
  arena_at a k -> pending (command (shared a)) (absolute_head (shared a)) (Some c) ->
  exists a' o, wait_slot_result a = (a', o) /\ arena_at a' k /\ later a a' /\ same_client a a' /\
    match o with
    | Ok result => answers c result (absolute_head (shared a')) /\
        pending (command (shared a')) (absolute_head (shared a')) None
    | Err e => e = timed_out /\ abandoned (command (shared a')) = true /\
        pending (command (shared a')) (absolute_head (shared a')) (Some c)
    | Panic => False
    end.
Proof. intros Ha Hp. unfold wait_slot_result. rewrite bind_get. by apply wait_polls_ok. Qed.

(** A call of kind [kind] for the command [c]. *)
Lemma submit_ok a k kind build :
  arena_at a k -> pending (command (shared a)) (absolute_head (shared a)) None ->
  let c := build (queue (shared a)) (published_head (queue (shared a))) in
  kind_of c = kind -> command_fits c (absolute_head (shared a)) ->
  exists a' o, submit_locked kind build a = (a', o) /\ arena_at a' k /\ later a a' /\ same_client a a' /\
    ((answers c o (absolute_head (shared a')) /\
      pending (command (shared a')) (absolute_head (shared a')) None) \/
     (o = Err timed_out /\ abandoned (command (shared a')) = true /\
      pending (command (shared a')) (absolute_head (shared a')) (Some c))).
Proof.
  intros Ha Hp c Hk Hf. inversion Hp as [Hs| |].
  set (s1 := (command (shared a)) <| cmd_state := COMMAND_PREPARING |> <| cmd_kind := kind |>
               <| abandoned := false |>).
  assert (begin_command kind (command (shared a)) = (s1, Ok tt)) as E1
    by (unfold begin_command; msteps; by rewrite Hs).
  unfold submit_locked. rewrite (bind_run _ _ _ _ _ (on_slot_run _ _ _ _ E1)).
  destruct (command_later a s1 _ k Ha) as (R1 & L1 & C1). set (a1 := a <| shared := _ |>) in *.
  rewrite bind_get. change (queue (shared a1)) with (queue (shared a)). fold c.
  set (s2 := s1 <| cmd_command := Some c |> <| cmd_state := COMMAND_READY |>).
  assert (publish_command c (command (shared a1)) = (s2, Ok tt)) as E2 by done.
  rewrite (bind_run _ _ _ _ _ (on_slot_run _ _ _ _ E2)).
  destruct (command_later a1 s2 _ k R1) as (R2 & L2 & C2). set (a2 := a1 <| shared := _ |>) in *.
  assert (pending (command (shared a2)) (absolute_head (shared a2)) (Some c)) as P2 by (by apply pending_ready).
  destruct (wait_ok a2 c k R2 P2) as (a3 & o & E3 & R3 & L3 & C3 & H3).
  rewrite (bind_run _ _ _ _ _ E3).
  assert (later a a3) as L by (by trans a1; [|trans a2]).
  assert (same_client a a3) as C by (by trans a1; [|trans a2]).
  destruct o as [result|e|]; [|destruct H3 as (-> & H3)|done].
  - exists a3, result. split; [done|]. split; [done|]. split; [done|]. split; [done|]. by left.
  - exists a3, (Err timed_out). split; [done|]. split; [done|]. split; [done|]. split; [done|]. by right.
Qed.

(** The result of a given up command, for a call of kind [kind]. *)
Definition recovered_for (kind : Z) (asked : option (option Z)) (cl : option CaptureClearAccounting)
    (result : Result WorkerReply) (head : Z) : Prop :=
  exists c, kind_of c = kind /\ answers c result head /\
    (forall t cs, c = Freeze t cs -> asked = Some cs) /\
    (forall t i acc, c = Clear t i acc -> cl = Some acc).

Definition recover_post (kind k : Z) (asked : option (option Z)) (cl : option CaptureClearAccounting)
    (a' : CaptureArena) (o : Result (option (Result WorkerReply))) : Prop :=
  exists asked' cl', closes asked asked' /\ closes cl cl' /\
    match o with
    | Ok None => slot_free a' k asked' cl' /\ recovered_frozen a' = None /\
        (kind <> COMMAND_KIND_STATUS -> recovered_clear a' = None)
    | Ok (Some result) => slot_free a' k asked' cl' /\ recovered_frozen a' = None /\
        (kind <> COMMAND_KIND_STATUS -> recovered_clear a' = None) /\
        recovered_for kind asked cl result (absolute_head (shared a'))
    | Err _ => promised a' k asked' cl'
    | Panic => False
    end.

Lemma closes_refl {X} (x : option X) : closes x x.
Proof. by left. Qed.
Lemma closes_none {X} (x : option X) : closes x None.
Proof. by right. Qed.
#[local] Hint Resolve closes_refl closes_none : core.

Lemma recover_fails kind k asked cl a e : promised a k asked cl -> recover_post kind k asked cl a (Err e).
Proof. intros H. exists asked, cl. by split_and!. Qed.

Lemma free_of (a : CaptureArena) k :
  arena_at a k -> pending (command (shared a)) (absolute_head (shared a)) None ->
  recovered_frozen a = None -> recovered_clear a = None -> slot_free a k None None.
Proof. intros Ha Hp Hf Hc. split; [done|]. split; [done|]. unfold kept. by rewrite Hf, Hc. Qed.

Lemma dispatch_ok a c kind k asked cl result :
  arena_at a k -> pending (command (shared a)) (absolute_head (shared a)) None ->
  answers c result (absolute_head (shared a)) -> kept a (Some c) asked cl -> recovered_frozen a = None ->
  (kind <> COMMAND_KIND_STATUS -> recovered_clear a = None) ->
  (kind_of c = COMMAND_KIND_RELEASE -> kind = COMMAND_KIND_RELEASE) ->
  exists a' o, dispatch_stale kind (kind_of c) result a = (a', o) /\ later a a' /\
    recover_post kind k asked cl a' o.
Proof.
  intros Ha Hp Hans Hk Hrf Hrc Hrel. unfold kept in Hk. rewrite Hrf in Hk. unfold dispatch_stale.
  destruct c as [t cs|t i g|t ingress acc|t|t]; cbn [kind_of] in *;
    repeat match goal with |- context [?x =? ?y] => lazymatch x with COMMAND_KIND_FREEZE => idtac
      | COMMAND_KIND_RELEASE => idtac | COMMAND_KIND_CLEAR => idtac | COMMAND_KIND_STATUS => idtac end;
      lazymatch y with kind => fail | _ => let b := eval vm_compute in (x =? y) in change (x =? y) with b end end;
    cbv iota.
  - destruct (recovered_clear a) eqn:Erc; [done|]. destruct Hk as [-> ->].
    assert (slot_free a k None None) as Hfree by (by apply free_of).
    assert (exists a' o, (ret (if kind =? COMMAND_KIND_FREEZE then Some result else None) : AM _) a = (a', o) /\
      later a a' /\ recover_post kind k (Some cs) None a' o) as Hret.
    { rewrite ret_run. eexists _, _. split; [done|]. split; [done|]. exists None, None. split; [auto|]. split; [auto|].
      destruct (kind =? COMMAND_KIND_FREEZE) eqn:E; to_prop; [|by split_and!].
      split; [done|]. split; [done|]. split; [done|]. exists (Freeze t cs). by split_and!; [..|intros ? ? [= _ <-]|]. }
    destruct result as [reply|e|]; [|exact Hret|done]. destruct reply as [[d|]| | | |]; try done.
    destruct (kind =? COMMAND_KIND_FREEZE) eqn:E; [exact Hret|]. msteps. rewrite fail_run.
    eexists _, _. split; [done|]. split; [by unfold later|]. apply recover_fails. split; [exact Ha|].
    exists None. split; [exact Hp|]. split; [done|]. unfold kept. cbn. rewrite Erc. split; [done|]. by exists cs.
  - destruct (recovered_clear a) eqn:Erc; [done|]. destruct Hk as [-> ->]. rewrite ret_run.
    eexists _, _. split; [done|]. split; [done|]. exists None, None. split; [auto|]. split; [auto|].
    split; [by apply free_of|]. split; [done|]. split; [done|]. exists (Release t i g). rewrite Hrel by done. by split_and!.
  - destruct (recovered_clear a) eqn:Erc; [done|]. destruct Hk as [-> ->].
    assert (slot_free a k None None) as Hfree by (by apply free_of).
    destruct result as [reply|e|]; [|rewrite ret_run|done].
    + destruct reply as [|  |report| |]; try done. msteps. set (a1 := a <| recovered_clear := _ |>).
      assert (slot_free a1 k None (Some acc)) as H1.
      { split; [done|]. split; [done|]. unfold kept. cbn. rewrite Hrf. split; [done|]. by exists acc. }
      destruct (kind =? COMMAND_KIND_STATUS) eqn:E; to_prop.
      * rewrite ret_run. eexists _, _. split; [done|]. split; [by unfold later|]. exists None, (Some acc).
        by split_and!; [auto..| |].
      * rewrite fail_run. eexists _, _. split; [done|]. split; [by unfold later|]. by apply recover_fails, free_promised.
    + eexists _, _. split; [done|]. split; [done|]. exists None, None. split; [auto|]. split; [auto|].
      destruct (kind =? COMMAND_KIND_CLEAR) eqn:E; to_prop; [|by split_and!].
      split; [done|]. split; [done|]. split; [done|]. exists (Clear t ingress acc). by split_and!; [..|intros ? ? ? [= _ _ <-]].
  - assert (slot_free a k asked cl) as Hfree.
    { split; [done|]. split; [done|]. unfold kept. rewrite Hrf. by destruct (recovered_clear a). }
    destruct (_ =? kind) eqn:E; to_prop; rewrite ret_run; eexists _, _; (split; [done|]); (split; [done|]);
      exists asked, cl; (split; [auto|]); (split; [auto|]).
    + split; [done|]. split; [done|]. split; [done|]. exists (Status t). by split_and!.
    + by split_and!.
  - by destruct (recovered_clear a).
Qed.

Lemma recover_post_closes kind k asked cl asked0 cl0 a o :
  closes asked asked0 -> closes cl cl0 -> recover_post kind k asked0 cl0 a o -> recover_post kind k asked cl a o.
Proof.
  intros H1 H2 (asked' & cl' & H3 & H4 & Ho). exists asked', cl'.
  assert (closes asked asked') as H5 by (destruct H1 as [->| ->]; [done|]; destruct H3 as [->| ->]; auto).
  assert (closes cl cl') as H6 by (destruct H2 as [->| ->]; [done|]; destruct H4 as [->| ->]; auto).
  split; [done|]. split; [done|]. destruct o as [[result|]|e|]; try done.
  destruct Ho as (Hf & Hr & Hrc & c & Hk & Ha & Hcs & Hacc). split; [done|]. split; [done|]. split; [done|]. exists c.
  split_and!; [done|done| |].
  - intros t cs ->. destruct H1 as [->| ->]; [eauto|]. by specialize (Hcs t cs eq_refl).
  - intros t i acc ->. destruct H2 as [->| ->]; [eauto|]. by specialize (Hacc t i acc eq_refl).
Qed.

Lemma recover_before_ok a kind k asked cl :
  promised a k asked cl ->
  exists a' o, recover_before kind a = (a', o) /\ later a a' /\ recover_post kind k asked cl a' o.
Proof.
  intros Hpr. pose proof Hpr as (Ha & oc & Hp & Hab & Hk). unfold recover_before. msteps.
  destruct (is_some (recovered_clear a) && negb (kind =? COMMAND_KIND_STATUS)) eqn:E1; msteps.
  { eexists _, _. split; [done|]. split; [done|]. by apply recover_fails. }
  assert (kind <> COMMAND_KIND_STATUS -> recovered_clear a = None) as Hrc.
  { intros Hne. rewrite (proj2 (Z.eqb_neq _ _) Hne), andb_true_r in E1. by destruct (recovered_clear a). }
  destruct (recovered_frozen a) as [d|] eqn:Erf.
  { assert (recovered_clear a = None /\ oc = None /\ cl = None /\ exists cs, asked = Some cs /\
      freeze_for cs d (absolute_head (shared a))) as (Erc & -> & -> & cs & -> & Hd).
    { unfold kept in Hk. rewrite Erf in Hk.
      destruct (recovered_clear a), oc; try done; destruct Hk as (-> & Hk); by split_and!. }
    destruct (kind =? COMMAND_KIND_FREEZE) eqn:E2; to_prop.
    - msteps. rewrite ret_run. eexists _, _. split; [done|]. split; [by unfold later|].
      exists None, None. split; [auto|]. split; [auto|]. split; [by apply free_of|]. split; [done|].
      split; [done|]. exists (Freeze 0 cs). by split_and!; [..|intros ? ? [= _ <-]|].
    - rewrite fail_run. eexists _, _. split; [done|]. split; [done|]. by apply recover_fails. }
  unfold slot_state.
  destruct oc as [c|].
  2:{ inversion Hp as [Hs| |]. rewrite Hs. change (COMMAND_IDLE =? COMMAND_IDLE) with true. cbv iota.
      rewrite ret_run. eexists _, _. split; [done|]. split; [done|]. exists asked, cl.
      split; [auto|]. split; [auto|]. by split_and!. }
  assert ((cmd_state (command (shared a)) =? COMMAND_IDLE) = false /\
    cmd_kind (command (shared a)) = kind_of c) as [-> Hkind]
    by (inversion Hp as [|? Hs|? ? Hs]; subst; by rewrite Hs).
  rewrite (Hab ltac:(done)), Hkind. cbn [negb]. msteps.
  destruct ((kind_of c =? COMMAND_KIND_RELEASE) && negb (kind =? COMMAND_KIND_RELEASE)) eqn:E2; msteps.
  { eexists _, _. split; [done|]. split; [done|]. by apply recover_fails. }
  destruct (wait_ok a c k Ha Hp) as (a1 & o & Ew & R1 & L1 & C1 & H1).
  pose proof (kept_later _ _ _ _ _ L1 C1 Hk) as Hk1. destruct C1 as [Cf Cc].
  rewrite (bind_run _ _ _ _ _ Ew). destruct o as [result|e|]; [|destruct H1 as (-> & Hab1 & P1)|done].
  - destruct H1 as [Hans P1].
    destruct (dispatch_ok a1 c kind k asked cl result R1 P1 Hans Hk1) as (a2 & o & E & L2 & H2);
      [congruence|by rewrite Cc| |].
    + intros Hr. rewrite Hr in E2. change (COMMAND_KIND_RELEASE =? COMMAND_KIND_RELEASE) with true in E2.
      cbn [andb] in E2. by to_prop.
    + exists a2, o. split; [done|]. split; [by trans a1|done].
  - eexists _, _. split; [done|]. split; [done|]. apply recover_fails. split; [done|]. by exists (Some c).
Qed.

(** A status call by any thread, whatever comes of it. *)
Lemma execute_status_ok a k asked cl :
  promised a k asked cl ->
  exists a' o asked' cl', execute_locked COMMAND_KIND_STATUS (fun _ => Status) a = (a', o) /\ later a a' /\
    promised a' k asked' cl' /\ closes asked asked' /\ closes cl cl' /\ o <> Panic.
Proof.
  intros Hp. unfold execute_locked.
  destruct (recover_before_ok a COMMAND_KIND_STATUS k asked cl Hp) as (a1 & o & E & L1 & asked' & cl' & Hc1 & Hc2 & H1).
  rewrite (bind_run _ _ _ _ _ E). destruct o as [[result|]|e|]; [| | |done].
  - destruct H1 as (Hf & _ & _ & c & _ & Ha & _). eexists _, _, asked', cl'. split; [done|]. split; [done|].
    split; [by apply free_promised|]. split_and!; [done|done|]. by intros ->.
  - destruct H1 as ((Ha & Hpe & Hk) & Hrf & _).
    destruct (submit_ok a1 k COMMAND_KIND_STATUS (fun _ => Status) Ha Hpe eq_refl I)
      as (a2 & o & E2 & R2 & L2 & C2 & H2). pose proof (kept_later _ _ _ _ _ L2 C2 Hk) as Hk2.
    destruct C2 as [Cf _]. rewrite Hrf in Cf.
    exists a2, o, asked', cl'. split; [done|]. split; [by trans a1|].
    destruct H2 as [[Ha2 P2]|(-> & Hab & P2)].
    + split; [by apply free_promised|]. split; [done|]. split; [done|]. by intros ->.
    + split; [|done]. split; [done|]. eexists. split; [exact P2|]. split; [done|].
      unfold kept in *. rewrite Cf in *. by destruct (recovered_clear a2).
  - exists a1, (Err e), asked', cl'. by split_and!.
Qed.

(** ** What comes before a call *)

Definition schedule_turns (s : CallSchedule) : Z :=
  foldr (fun l n => turns l + n) 0 (status_requests s) + turns (events s).

Definition all_turns (l : list CallSchedule) : Z := foldr (fun s n => schedule_turns s + n) 0 l.

Definition schedule_fits (s : CallSchedule) : Prop :=
  Forall (Forall event_fits) (status_requests s) /\ Forall event_fits (events s).

(** Between two calls the worker can go on with all the schedules to come. *)
Definition open_arena (a : CaptureArena) (asked : option (option Z)) (cl : option CaptureClearAccounting) : Prop :=
  promised a (all_turns (schedules a)) asked cl /\ Forall schedule_fits (schedules a).

Lemma turns_of_nonneg (l : list (list WorkerEvent)) : 0 <= foldr (fun l n => turns l + n) 0 l.
Proof. induction l as [|e l IH]; cbn; [lia|]. pose proof (turns_nonneg e). lia. Qed.

Lemma all_turns_nonneg l : 0 <= all_turns l.
Proof.
  induction l as [|s l IH]; [done|]. change (all_turns (s :: l)) with (schedule_turns s + all_turns l).
  pose proof (turns_of_nonneg (status_requests s)).
  pose proof (turns_nonneg (events s)). unfold schedule_turns. lia.
Qed.

(** Other events in place of those left and of some of the reserve. *)
Lemma can_run_other w l k l' k' :
  can_run w l k -> Forall event_fits l' -> 0 <= k' -> turns l' + k' <= turns l + k -> can_run w l' k'.
Proof.
  intros (Hr & _ & Hk & Hmax) Hf Hk' Hle. split; [done|]. split; [done|]. split; [done|].
  destruct (rn_queue _ Hr) as [log Hq]. pose proof (q_slot_frames _ _ Hq). nia.
Qed.

Lemma promised_other a k asked cl l s k' :
  promised a k asked cl -> Forall event_fits l -> 0 <= k' -> turns l + k' <= turns (future a) + k ->
  promised (a <| future := l |> <| schedules := s |>) k' asked cl.
Proof. intros [Ha H] Hf Hk Hle. split; [|exact H]. by eapply can_run_other. Qed.

Lemma promised_less a k asked cl k' :
  promised a k asked cl -> 0 <= k' <= k -> promised a k' asked cl.
Proof. intros [Ha H] Hle. split; [|done]. eapply can_run_other; [exact Ha|apply Ha|lia|lia]. Qed.

Definition since (a a' : CaptureArena) : Prop :=
  absolute_head (shared a) <= absolute_head (shared a') /\
  cumulative_dropped_frames (queue (shared a)) <= cumulative_dropped_frames (queue (shared a')) /\
  runtime_id a' = runtime_id a.

#[export] Instance since_preorder : PreOrder since.
Proof.
  split.
  - intros a. unfold since. split_and!; done || lia.
  - intros a1 a2 a3 (? & ? & ?) (? & ? & ?). unfold since. split_and!; congruence || lia.
Qed.

Lemma later_since a a' : later a a' -> since a a'.
Proof. intros (? & ? & ? & _). by split_and!. Qed.

Lemma closes_trans {X} (x y z : option X) : closes x y -> closes y z -> closes x z.
Proof. intros [->| ->] [->| ->]; auto. Qed.

Lemma status_requests_ok ls : forall a k asked cl,
  promised a (foldr (fun l n => turns l + n) 0 ls + k) asked cl -> 0 <= k -> Forall (Forall event_fits) ls ->
  exists asked' cl', let a' := fold_left (fun a l => status_request l a) ls a in
    promised a' k asked' cl' /\ later a a' /\ closes asked asked' /\ closes cl cl'.
Proof.
  induction ls as [|l ls IH]; intros a k asked cl Hp Hk Hf; cbn [foldr fold_left] in *.
  - exists asked, cl. by split_and!.
  - apply Forall_cons in Hf as [Hl Hf]. pose proof (turns_of_nonneg ls).
    pose proof Hp as [(_ & _ & _ & _) _]. pose proof (turns_nonneg (future a)).
    pose proof (promised_other a _ asked cl l (schedules a) (foldr (fun l n => turns l + n) 0 ls + k) Hp Hl
      ltac:(lia) ltac:(lia)) as Hp1.
    destruct (execute_status_ok _ _ _ _ Hp1) as (a2 & o & asked2 & cl2 & E & L2 & Hp2 & Hc1 & Hc2 & _).
    assert (status_request l a = a2) as -> by exact (f_equal fst E).
    destruct (IH a2 k asked2 cl2 Hp2 Hk Hf) as (asked3 & cl3 & Hp3 & L3 & Hc3 & Hc4).
    exists asked3, cl3. split; [done|]. split; [trans a2; [exact L2|exact L3]|]. split; [exact (closes_trans _ _ _ Hc1 Hc3)|exact (closes_trans _ _ _ Hc2 Hc4)].
Qed.

Lemma next_schedule_ok a asked cl :
  open_arena a asked cl ->
  exists a' s asked' cl', next_schedule a = (a', Ok s) /\ since a a' /\
    promised a' (turns (events s) + all_turns (schedules a')) asked' cl' /\
    Forall event_fits (events s) /\ Forall schedule_fits (schedules a') /\
    closes asked asked' /\ closes cl cl'.
Proof.
  intros [Hp Hf]. unfold next_schedule. msteps. destruct (schedules a) as [|s rest] eqn:Es; msteps; rewrite ret_run.
  - cbn [status_requests fold_left]. eexists _, _, asked, cl. split; [done|]. split; [done|].
    cbn [events schedules update]. split; [|done]. change (turns [] + all_turns []) with 0.
    eapply (promised_other a _ asked cl (future a) []); [exact Hp|apply Hp|lia|cbn; lia].
  - apply Forall_cons in Hf as [[Hs1 Hs2] Hf]. cbn [all_turns foldr] in Hp. fold (all_turns rest) in Hp.
    unfold schedule_turns in Hp. pose proof (all_turns_nonneg rest). pose proof (turns_nonneg (events s)).
    pose proof (turns_of_nonneg (status_requests s)).
    assert (promised (a <| schedules := rest |>)
      (foldr (fun l n => turns l + n) 0 (status_requests s) + (turns (events s) + all_turns rest)) asked cl) as Hp1.
    { eapply (promised_other a _ asked cl (future a) rest); [exact Hp|apply Hp|lia|lia]. }
    destruct (status_requests_ok _ _ _ _ _ Hp1 ltac:(lia) Hs1) as (asked' & cl' & Hp2 & L2 & Hc1 & Hc2).
    eexists _, s, asked', cl'. split; [done|]. set (a2 := fold_left _ _ _) in *.
    assert (schedules a2 = rest) as -> by (by destruct L2 as (_ & _ & _ & ->)).
    split; [|done]. apply (later_since _ _ L2).
Qed.

(** The lock is taken, or the call times out. *)
Lemma lock_ok a asked cl :
  open_arena a asked cl ->
  exists a' o asked' cl', lock_command_client a = (a', o) /\ since a a' /\
    open_arena a' asked' cl' /\ closes asked asked' /\ closes cl cl' /\
    (o = Ok tt \/ o = Err client_timed_out).
Proof.
  intros Ho. destruct (next_schedule_ok a asked cl Ho) as (a1 & s & asked' & cl' & E & L1 & Hp & Hs & Hf & Hc1 & Hc2).
  unfold lock_command_client. rewrite (bind_run _ _ _ _ _ E).
  pose proof (all_turns_nonneg (schedules a1)). pose proof (turns_nonneg (events s)).
  pose proof (turns_nonneg (future a1)).
  destruct (lock_acquired s); cbn [negb]; msteps.
  - rewrite modify_run. eexists _, _, asked', cl'. split; [done|]. split; [exact L1|].
    split; [|split_and!; [done|done|by left]]. split; [|done].
    exact (promised_other a1 _ asked' cl' (events s) (schedules a1) (all_turns (schedules a1)) Hp Hs ltac:(lia) ltac:(lia)).
  - eexists _, _, asked', cl'. split; [done|]. split; [exact L1|].
    split; [|split_and!; [done|done|by right]]. split; [|done]. eapply promised_less; [exact Hp|lia].
Qed.

(** ** The calls *)

(** What a command that was given up in the slot promises. *)
Definition command_promise (c : WorkerCommand) : option (option Z) * option CaptureClearAccounting :=
  match c with
  | Freeze _ cs => (Some cs, None)
  | Clear _ _ acc => (None, Some acc)
  | _ => (None, None)
  end.

(** The outcome of a call of kind [kind] that submits [submits]: an error that
    leaves the promises, an answer to the command that was given up before or to
    the submitted one, or a timeout that leaves the submitted one. *)
Definition call_post (kind : Z) (submits : WorkerCommand -> Prop) (asked asked' : option (option Z))
    (cl cl' : option CaptureClearAccounting) (o : Result WorkerReply) (head : Z) : Prop :=
  (exists e, o = Err e /\ closes asked asked' /\ closes cl cl') \/
  (asked' = None /\ cl' = None /\
     (recovered_for kind asked cl o head \/ exists c, submits c /\ answers c o head)) \/
  (o = Err timed_out /\ exists c, submits c /\ (asked', cl') = command_promise c).

Lemma open_promised a a' asked cl :
  promised a' (all_turns (schedules a)) asked cl -> Forall schedule_fits (schedules a) ->
  schedules a' = schedules a -> open_arena a' asked cl.
Proof. intros Hp Hf Hs. split; by rewrite Hs. Qed.

Lemma free_kept a k asked cl :
  slot_free a k asked cl -> recovered_frozen a = None -> recovered_clear a = None ->
  asked = None /\ cl = None.
Proof. intros (_ & _ & Hk) Hf Hc. unfold kept in Hk. by rewrite Hf, Hc in Hk. Qed.

(** Submitting to a free slot. *)
Lemma submit_call_ok a asked cl kind build submits :
  slot_free a (all_turns (schedules a)) None None -> Forall schedule_fits (schedules a) ->
  recovered_frozen a = None -> recovered_clear a = None ->
  let c := build (queue (shared a)) (published_head (queue (shared a))) in
  kind_of c = kind -> command_fits c (absolute_head (shared a)) -> submits c ->
  exists a' o asked' cl', submit_locked kind build a = (a', o) /\ since a a' /\ open_arena a' asked' cl' /\
    o <> Panic /\ call_post kind submits asked asked' cl cl' o (absolute_head (shared a')).
Proof.
  intros (Ha & Hp & Hk) Hs Hf Hc c Hkind Hfit Hsub.
  destruct (submit_ok a _ kind build Ha Hp Hkind Hfit) as (a' & o & E & R' & L' & [Cf Cc] & H').
  fold c in H'. exists a', o. rewrite Hf in Cf. rewrite Hc in Cc.
  assert (schedules a' = schedules a) as Hsch by apply L'.
  destruct H' as [[Hans P']|(-> & Hab & P')].
  - exists None, None. split; [done|]. split; [by apply later_since|].
    split; [|split; [by intros ->|right; left; split; [done|]; split; [done|]; right; by exists c]].
    apply (open_promised a); [|done|done]. split; [done|]. exists None. split; [done|]. split; [done|].
    unfold kept. by rewrite Cf, Cc.
  - exists (command_promise c).1, (command_promise c).2. split; [done|]. split; [by apply later_since|].
    split; [|split; [done|right; right; split; [done|]; exists c; split; [done|]; by destruct (command_promise c)]].
    apply (open_promised a); [|done|done]. split; [done|]. exists (Some c). split; [done|]. split; [done|].
    unfold kept. rewrite Cf, Cc. by destruct c.
Qed.

(** The locked part of a call that is not for the status. *)
Lemma execute_locked_ok a asked cl kind build submits :
  open_arena a asked cl -> kind <> COMMAND_KIND_STATUS ->
  (forall q l t h, queue_ok q l -> absolute_head (shared a) <= h ->
     let c := build q t in kind_of c = kind /\ command_fits c h /\ submits c) ->
  exists a' o asked' cl', execute_locked kind build a = (a', o) /\ since a a' /\ open_arena a' asked' cl' /\
    o <> Panic /\ call_post kind submits asked asked' cl cl' o (absolute_head (shared a')).
Proof.
  intros [Hp Hs] Hkind Hbuild. unfold execute_locked.
  destruct (recover_before_ok a kind _ asked cl Hp) as (a1 & o & E & L1 & asked1 & cl1 & Hc1 & Hc2 & H1).
  rewrite (bind_run _ _ _ _ _ E). pose proof L1 as (Hh1 & _ & _ & Hsch).
  destruct o as [[result|]|e|]; [| | |done].
  - destruct H1 as (Hfree & Hf & Hc & Hrec). destruct (free_kept _ _ _ _ Hfree Hf (Hc Hkind)) as [-> ->].
    eexists _, _, None, None. split; [done|]. split; [by apply later_since|].
    split; [apply (open_promised a); [by apply free_promised|done|done]|].
    split; [destruct Hrec as (c & _ & Ha & _); by intros ->|]. right. left. split; [done|]. split; [done|]. by left.
  - destruct H1 as (Hfree & Hf & Hc). destruct (free_kept _ _ _ _ Hfree Hf (Hc Hkind)) as [-> ->].
    destruct (rn_queue _ (proj1 (proj1 Hfree))) as [log Hq].
    destruct (Hbuild _ _ (published_head (queue (shared a1))) _ Hq Hh1) as (B1 & B2 & B3).
    rewrite <-Hsch in Hfree, Hs.
    destruct (submit_call_ok a1 asked cl kind build submits Hfree Hs Hf (Hc Hkind) B1 B2 B3)
      as (a2 & o & asked2 & cl2 & E2 & S2 & H2).
    exists a2, o, asked2, cl2. split; [exact E2|]. split; [trans a1; [by apply later_since|done]|done].
  - exists a1, (Err e), asked1, cl1. split; [done|]. split; [by apply later_since|].
    split; [by apply (open_promised a)|]. split; [done|]. left. by exists e.
Qed.

Lemma execute_command_ok a asked cl kind build submits :
  open_arena a asked cl -> kind <> COMMAND_KIND_STATUS ->
  (forall q l t h, queue_ok q l -> absolute_head (shared a) <= h ->
     let c := build q t in kind_of c = kind /\ command_fits c h /\ submits c) ->
  exists a' o asked' cl', execute_command kind build a = (a', o) /\ since a a' /\ open_arena a' asked' cl' /\
    o <> Panic /\ ((exists e, o = Err e /\ closes asked asked' /\ closes cl cl') \/
      exists asked1 cl1, closes asked asked1 /\ closes cl cl1 /\
        call_post kind submits asked1 asked' cl1 cl' o (absolute_head (shared a'))).
Proof.
  intros Ho Hkind Hbuild. unfold execute_command.
  destruct (lock_ok a asked cl Ho) as (a1 & o & asked1 & cl1 & E & S1 & O1 & Hc1 & Hc2 & Hr).
  rewrite (bind_run _ _ _ _ _ E). destruct Hr as [-> | ->].
  - destruct (execute_locked_ok a1 asked1 cl1 kind build submits O1 Hkind) as (a2 & o & asked2 & cl2 & E2 & S2 & O2 & Hn & H2).
    { intros q l t h Hq Hh. eapply Hbuild; [exact Hq|]. destruct S1. lia. }
    exists a2, o, asked2, cl2. split; [done|]. split; [by trans a1|]. split; [done|]. split; [done|].
    right. by exists asked1, cl1.
  - eexists _, _, asked1, cl1. split; [done|]. split; [done|]. split; [done|]. split; [done|]. left. by eexists.
Qed.
