(* ===== verification/DumpCoordinator.v ===== *)
(** * The dump coordinator (src/dump.rs)

    [recall] and [dump] share one cursor over the captured stream. The
    coordinator freezes what is new, prepares and publishes it, and only then
    moves the cursor and delivers the outcome; a clear moves the cursor as well
    and its frames are reported as losses by the next command. The coordinator
    calls the capture arena and the persistence workspace through the interfaces
    below; a panic of the caller's delivery still gives the epoch back, as the
    guard's [Drop] does. The mutex of the state is held by every call except
    during the delivery. *)
From S2P Require Import Prelude.
From S2P Require Import Errors.
From S2P Require Import MemoryPlan.
From S2P Require Import SampleRing.
From S2P Require Import CaptureWorker.
From S2P Require Import CaptureClient.
From S2P Require Import Activity.
From S2P Require Import ExportPattern.
From S2P Require Import ExportPaths.

(** ** Data *)

Record LossBreakdown := mkLosses {
  retention_lost_frames : Z;
  cleared_frames : Z;
  capture_dropped_frames : Z;
}.

Definition lost_frames (l : LossBreakdown) : Z :=
  saturating_add (saturating_add (retention_lost_frames l) (cleared_frames l)) (capture_dropped_frames l).

Record PolicyPersistenceRequest := mkRequest {
  req_command : ExportCommand;
  req_policy : ResolvedExportPolicy;
  req_profile : string;
  req_staging_root : string;
  req_timestamp : string;
}.

Record FrozenTransaction := mkTransaction {
  t_frozen : FrozenCaptureEpoch;
  t_retention_lost_frames : Z;
  t_decision : FrozenExportDecision;
}.

Record PrevalidatedLossCommit := mkCommit {
  commit_acknowledged_dropped_frames : Z;
  commit_retention_lost_frames : Z;
  commit_cleared_frames : Z;
}.

Record PendingClear := mkPendingClear {
  pc_arena_runtime_id : Z;
  pc_coordinator_id : Z;
  pc_clear_id : Z;
  pc_requested_start : Z;
  pc_accounting : CaptureClearAccounting;
  pc_frozen_end : option Z;
  pc_acknowledged_dropped_frames : Z;
}.

Inductive PendingCompletionAuthority :=
  | Delivering
  | Finalized (reset_decision : FrozenExportDecision) (failed_release : option FrozenCaptureEpoch).

(** What the workspace prepared; [Staging] stands for its owned artifacts. *)
Inductive PreparedPersistence (Staging : Type) :=
  | Silent
  | SkippedSilentPrepared
  | SkippedByPolicyPrepared
  | FileSetPrepared (staging : Staging)
  | AtomicDirectoryPrepared (staging : Staging)
  | RecallPrepared (staging : Staging)
  | DumpPrepared (staging : Staging).
Arguments Silent {Staging}.
Arguments SkippedSilentPrepared {Staging}.
Arguments SkippedByPolicyPrepared {Staging}.

Inductive PreparedPublication (Indeterminate : Type) :=
  | Published
  | RetryableFailure (error : LambError)
  | IndeterminateResult (operation : LambError) (cleanup : Indeterminate).
Arguments Published {Indeterminate}.
Arguments RetryableFailure {Indeterminate} error.
Arguments IndeterminateResult {Indeterminate} operation cleanup.

Inductive PublicationRecovery := Complete | RolledBack | Pending.

(** ** Interfaces *)

(** The calls of the capture arena that the coordinator makes. *)
Class ArenaOps (A : Type) := {
  arena_runtime_id : A -> Z;
  arena_freeze_since : option Z -> M A LambError (option FrozenCaptureEpoch);
  arena_release_frozen : FrozenCaptureEpoch -> M A LambError (FrozenCaptureEpoch * Result unit);
  arena_clear_active_accounted : CaptureClearAccounting -> M A LambError CaptureClearReport;
  arena_recover_clear_result : CaptureClearRecovery -> M A LambError (option CaptureClearReport);
  arena_cumulative_dropped : M A LambError Z;
}.

#[export] Instance capture_arena_ops : ArenaOps CaptureArena := {
  arena_runtime_id := runtime_id;
  arena_freeze_since := freeze_since;
  arena_release_frozen := release_frozen;
  arena_clear_active_accounted := clear_active_accounted;
  arena_recover_clear_result := recover_clear_result;
  arena_cumulative_dropped := cumulative_capture_dropped_frames;
}.

(** The calls of the persistence workspace. Preparing reads the frozen epoch in
    the arena and finalizes the decision in place; a recovery may change the
    record of the publication it is about. *)
Class WorkspaceOps (A W Output Indeterminate Staging : Type) := {
  finish_completed_publication : M W LambError unit;
  recover_publication : Indeterminate -> M W LambError (Indeterminate * Result PublicationRecovery);
  prepare : A -> FrozenCaptureEpoch -> PolicyPersistenceRequest -> FrozenExportDecision ->
            M W LambError (FrozenExportDecision * Result (PreparedPersistence Staging));
  publish_prepared : PreparedPersistence Staging -> M W LambError (PreparedPublication Indeterminate);
  completed_output : W -> Output;
}.

(** [CommittedPersistenceRef] *)
Inductive CommittedPersistenceRef (Output : Type) :=
  | Written (range export_range : range) (frames : Z) (losses : LossBreakdown) (output : Output)
  | SkippedSilent (range : range) (frames : Z) (losses : LossBreakdown)
  | SkippedByPolicy (range : range) (frames : Z) (losses : LossBreakdown)
  | NoNewAudio (losses : LossBreakdown).
Arguments Written {Output}.
Arguments SkippedSilent {Output}.
Arguments SkippedByPolicy {Output}.
Arguments NoNewAudio {Output}.

Inductive CommittedPersistenceKind :=
  | KindWritten (range export_range : range) (frames : Z) (losses : LossBreakdown)
  | KindSkippedSilent (range : range) (frames : Z) (losses : LossBreakdown)
  | KindSkippedByPolicy (range : range) (frames : Z) (losses : LossBreakdown).

(** ** The state *)

Record DumpState (Indeterminate : Type) := mkDumpState {
  bound_runtime_id : option Z;
  committed_until : option Z;
  frozen_transaction : option FrozenTransaction;
  reusable_decision : option FrozenExportDecision;
  pending_clear : option PendingClear;
  pending_release : option FrozenCaptureEpoch;
  completion_in_progress : bool;
  pending_completion : option PendingCompletionAuthority;
  indeterminate_publication : option Indeterminate;
  acknowledged_dropped_frames : Z;
  pending_retention_lost : Z;
  pending_cleared : Z;
  next_clear_id : Z;
}.
Arguments mkDumpState {Indeterminate}.
Arguments bound_runtime_id {Indeterminate}.
Arguments committed_until {Indeterminate}.
Arguments frozen_transaction {Indeterminate}.
Arguments reusable_decision {Indeterminate}.
Arguments pending_clear {Indeterminate}.
Arguments pending_release {Indeterminate}.
Arguments completion_in_progress {Indeterminate}.
Arguments pending_completion {Indeterminate}.
Arguments indeterminate_publication {Indeterminate}.
Arguments acknowledged_dropped_frames {Indeterminate}.
Arguments pending_retention_lost {Indeterminate}.
Arguments pending_cleared {Indeterminate}.
Arguments next_clear_id {Indeterminate}.
#[export] Instance eta_DumpState I : Eta (DumpState I) := fun s =>
  mkDumpState (bound_runtime_id s) (committed_until s) (frozen_transaction s) (reusable_decision s)
    (pending_clear s) (pending_release s) (completion_in_progress s) (pending_completion s)
    (indeterminate_publication s) (acknowledged_dropped_frames s) (pending_retention_lost s)
    (pending_cleared s) (next_clear_id s).

(** [DumpCoordinator::with_frozen_decision] *)
Definition with_frozen_decision {I} (d : FrozenExportDecision) : DumpState I :=
  mkDumpState None None None (Some d) None None false None None 0 0 0 0.

(** The coordinator with what it works on, and the state [C] of its caller. *)
Record Session (A W I C : Type) := mkSession {
  coordinator_id : Z;
  state : DumpState I;
  arena : A;
  workspace : W;
  client : C;
}.
Arguments mkSession {A W I C}.
Arguments coordinator_id {A W I C}.
Arguments state {A W I C}.
Arguments arena {A W I C}.
Arguments workspace {A W I C}.
Arguments client {A W I C}.
#[export] Instance eta_Session A W I C : Eta (Session A W I C) := fun s =>
  mkSession (coordinator_id s) (state s) (arena s) (workspace s) (client s).

Definition control_invariant {A} (message : string) : Result A := Err (ControlInvariant message).

Definition checked_loss_add (left right : Z) (message : string) : Result Z :=
  ok_or (add_checked left right) (ControlInvariant message).

(** ** The coordinator *)

Section coordinator.
Context {A W O I S C : Type} {arena_ops : ArenaOps A} {workspace_ops : WorkspaceOps A W O I S}.

Abbreviation CoM := (M (Session A W I C) LambError).

Definition on_arena {X} (m : M A LambError X) : CoM X :=
  fun c => let '(a, o) := m (arena c) in (c <| arena := a |>, o).
Definition on_workspace {X} (m : M W LambError X) : CoM X :=
  fun c => let '(w, o) := m (workspace c) in (c <| workspace := w |>, o).
Definition get_state : CoM (DumpState I) := gets state.
Definition set_state (f : DumpState I -> DumpState I) : CoM unit := modify (fun c => c <| state ::= f |>).

(** Runs [m] and hands out its outcome, a panic included, as a guard's [Drop]
    sees it. *)
Definition attempt {X} (m : CoM X) : CoM (Result X) := fun c => let '(c', o) := m c in (c', Ok o).

Definition invariant_error {X} (message : string) : CoM X := fail (ControlInvariant message).

(** *** Losses *)

Definition prevalidate_loss_commit (s : DumpState I) (cumulative retention : Z)
    : Result PrevalidatedLossCommit :=
  if cumulative <? acknowledged_dropped_frames s
  then control_invariant "cumulative capture dropped frame counter regressed"
  else
    let? retention := checked_loss_add (pending_retention_lost s) retention
                        "retention loss counter exhausted" in
    Ok (mkCommit (acknowledged_dropped_frames s) retention (pending_cleared s)).

Definition commit_losses (cumulative : Z) (commit : PrevalidatedLossCommit) : CoM LossBreakdown :=
  set_state (fun s => s <| acknowledged_dropped_frames := cumulative |>
                        <| pending_retention_lost := 0 |> <| pending_cleared := 0 |>) ;;
  ret (mkLosses (commit_retention_lost_frames commit) (commit_cleared_frames commit)
         (wrap64 (cumulative - commit_acknowledged_dropped_frames commit))).

(** *** Recovery of what an earlier call left *)

Definition bind_arena : CoM unit :=
  let! c := get in
  match bound_runtime_id (state c) with
  | Some r =>
      if r =? arena_runtime_id (arena c) then ret tt
      else invariant_error "dump coordinator belongs to a different capture runtime"
  | None => set_state (fun s => s <| bound_runtime_id := Some (arena_runtime_id (arena c)) |>)
  end.

Definition recover_indeterminate_publication : CoM bool :=
  let! s := get_state in
  match indeterminate_publication s with
  | None => ret false
  | Some publication =>
      set_state (fun s => s <| indeterminate_publication := None |>) ;;
      let! (publication, result) := on_workspace (recover_publication publication) in
      match result with
      | Ok Complete => ret true
      | Ok RolledBack => ret false
      | Ok Pending =>
          set_state (fun s => s <| indeterminate_publication := Some publication |>) ;;
          fail (IndeterminatePublicationError (ControlInvariant "publication recovery remains pending"))
      | Err error =>
          set_state (fun s => s <| indeterminate_publication := Some publication |>) ;;
          fail (IndeterminatePublicationError error)
      | Panic => panic
      end
  end.

(** Gives an epoch back; [keep] stores it again when that fails. *)
Definition release_or_keep (frozen : FrozenCaptureEpoch) (keep : FrozenCaptureEpoch -> DumpState I -> DumpState I)
    : CoM unit :=
  let! (frozen, result) := on_arena (arena_release_frozen frozen) in
  match result with
  | Ok _ => ret tt
  | Err error => set_state (keep frozen) ;; fail error
  | Panic => panic
  end.

Definition recover_pending_release : CoM unit :=
  let! s := get_state in
  fail_if (is_some (pending_clear s))
    (ControlInvariant "pending clear must be recovered before frozen release") ;;
  (match pending_release s with
   | Some frozen =>
       set_state (fun s => s <| pending_release := None |>) ;;
       release_or_keep frozen (fun frozen s => s <| pending_release := Some frozen |>)
   | None => ret tt
   end) ;;
  let! s := get_state in
  match pending_completion s with
  | Some (Finalized d (Some frozen)) =>
      set_state (fun s => s <| pending_completion := Some (Finalized d None) |>) ;;
      release_or_keep frozen (fun frozen s => s <| pending_completion := Some (Finalized d (Some frozen)) |>)
  | _ => ret tt
  end.

Definition reconcile_completion_authority_without_release : CoM unit :=
  let! s := get_state in
  match pending_completion s with
  | None =>
      if completion_in_progress s
      then invariant_error "completion marker has no authority slot" else ret tt
  | Some Delivering => invariant_error "completion delivery is active"
  | Some (Finalized reset_decision failed_release) =>
      fail_if (negb (completion_in_progress s))
        (ControlInvariant "completion authority has no active marker") ;;
      fail_if (is_some failed_release)
        (ControlInvariant "completion frozen release remains pending") ;;
      (match reusable_decision s with
       | Some primary =>
           fail_if (negb (compatible_reset_with primary reset_decision))
             (ControlInvariant "completion reset decisions are incompatible") ;;
           set_state (fun s => s <| pending_completion := None |>)
       | None =>
           set_state (fun s => s <| pending_completion := None |>
                                 <| reusable_decision := Some reset_decision |>)
       end) ;;
      set_state (fun s => s <| completion_in_progress := false |>)
  end.

Definition reconcile_completion_authority : CoM unit :=
  let! s := get_state in
  (match pending_completion s with
   | Some Delivering => invariant_error "completion delivery is active"
   | Some (Finalized _ _) =>
       fail_if (negb (completion_in_progress s))
         (ControlInvariant "completion authority has no active marker")
   | None =>
       fail_if (completion_in_progress s)
         (ControlInvariant "completion marker has no authority slot")
   end) ;;
  recover_pending_release ;;
  reconcile_completion_authority_without_release.

(** *** Clears *)

Definition validate_clear_report (report : CaptureClearReport) : CoM unit :=
  let! c := get in
  let s := state c in
  let! pending := lift (ok_or (pending_clear s)
    (ControlInvariant "clear report has no pending coordinator transaction")) in
  fail_if
    (negb (pc_arena_runtime_id pending =? arena_runtime_id (arena c))
     || negb (pc_coordinator_id pending =? coordinator_id c)
     || negb (report_arena_runtime_id report =? pc_arena_runtime_id pending)
     || negb (report_coordinator_id report =? pc_coordinator_id pending)
     || negb (report_clear_id report =? pc_clear_id pending)
     || negb (report_expected_active_start report =? expected_active_start (pc_accounting pending))
     || (report_cumulative_dropped_frames report <? pc_acknowledged_dropped_frames pending))
    (ControlInvariant "clear report does not match pending coordinator transaction") ;;
  (match pc_frozen_end pending with
   | Some frozen_end =>
       fail_if (negb (bool_decide
         (option_map (fun t => (desc_absolute_range (epoch_descriptor (t_frozen t))).2) (frozen_transaction s)
          = Some frozen_end)))
         (ControlInvariant "pending clear frozen capability changed before commit")
   | None =>
       fail_if (is_some (frozen_transaction s))
         (ControlInvariant "pending clear unexpectedly acquired a frozen capability")
   end) ;;
  fail_if
    ((expected_active_start (pc_accounting pending) <? pc_requested_start pending)
     || ((report_active_absolute_range report).2 <? (report_active_absolute_range report).1))
    (ControlInvariant "clear report boundary invariant failed").

Definition commit_clear_report (report : CaptureClearReport) : CoM unit :=
  let! s := get_state in
  match pending_clear s with
  | None => ret tt
  | Some pending =>
      set_state (fun s => s
        <| pending_retention_lost := report_pending_retention_lost_frames report |>
        <| pending_cleared := report_pending_cleared_frames report |>
        <| committed_until := Some (report_active_absolute_range report).2 |>) ;;
      (if is_some (pc_frozen_end pending) then
         let! t := lift (unwrap (frozen_transaction s)) in
         set_state (fun s => s <| frozen_transaction := None |>
                               <| reusable_decision := Some (reset_decision (t_decision t)) |>
                               <| pending_release := Some (t_frozen t) |>)
       else ret tt) ;;
      set_state (fun s => s <| pending_clear := None |>)
  end.

Definition recover_pending_clear : CoM bool :=
  let! c := get in
  match pending_clear (state c) with
  | None => ret false
  | Some pending =>
      fail_if (negb (pc_arena_runtime_id pending =? arena_runtime_id (arena c))
               || negb (pc_coordinator_id pending =? coordinator_id c))
        (ControlInvariant "pending clear belongs to a different arena or coordinator") ;;
      let! report := on_arena (arena_recover_clear_result
        (mkRecovery (pc_arena_runtime_id pending) (pc_coordinator_id pending) (pc_clear_id pending))) in
      match report with
      | None =>
          set_state (fun s => s <| pending_clear := None |>) ;;
          invariant_error "pending clear completed without a recoverable report"
      | Some report =>
          validate_clear_report report ;;
          commit_clear_report report ;;
          ret true
      end
  end.

(** *** Completion *)

Definition begin_completion : CoM unit :=
  let! s := get_state in
  fail_if (completion_in_progress s || is_some (pending_completion s) || is_some (pending_release s))
    (ControlInvariant "completion authorities must reconcile before delivery") ;;
  set_state (fun s => s <| completion_in_progress := true |> <| pending_completion := Some Delivering |>).

Definition is_delivering (s : DumpState I) : bool :=
  match pending_completion s with Some Delivering => true | _ => false end.

Definition cancel_completion : CoM unit :=
  let! s := get_state in
  if is_delivering s
  then set_state (fun s => s <| pending_completion := None |> <| completion_in_progress := false |>)
  else ret tt.

Definition finalize_completed_transaction (transaction : option FrozenTransaction) : CoM unit :=
  let! s := get_state in
  if negb (completion_in_progress s) || negb (is_delivering s) then
    (match frozen_transaction s with
     | None => set_state (fun s => s <| frozen_transaction := transaction |>)
     | Some _ => ret tt
     end) ;;
    invariant_error "completion authority slot is not reserved for delivery"
  else
    match transaction with
    | None => cancel_completion ;; invariant_error "completion guard has no frozen transaction"
    | Some t =>
        let! (frozen, result) := on_arena (arena_release_frozen (t_frozen t)) in
        let failed_release := if is_ok result then None else Some frozen in
        set_state (fun s => s
          <| pending_completion := Some (Finalized (reset_decision (t_decision t)) failed_release) |>) ;;
        if is_some failed_release then ret tt
        else reconcile_completion_authority_without_release
    end.

(** [CompletionGuard::deliver]: the output is read from the workspace. *)
Definition committed_ref (kind : CommittedPersistenceKind) (w : W) : CommittedPersistenceRef O :=
  match kind with
  | KindWritten range export_range frames losses =>
      Written range export_range frames losses (completed_output w)
  | KindSkippedSilent range frames losses => SkippedSilent range frames losses
  | KindSkippedByPolicy range frames losses => SkippedByPolicy range frames losses
  end.

(** [CompletionGuard::finalize], which runs once, after the delivery or in [Drop];
    the outcome is that of the workspace's cleanup. *)
Definition guard_finalize (t : FrozenTransaction) : CoM (Result unit) :=
  let! cleanup := catch (on_workspace finish_completed_publication) in
  let! _ := catch (finalize_completed_transaction (Some t)) in
  ret cleanup.

Definition deliver_and_finalize (kind : CommittedPersistenceKind) (t : FrozenTransaction)
    (deliver : CommittedPersistenceRef O -> CoM unit) : CoM unit :=
  let! c := get in
  let! delivery := attempt (deliver (committed_ref kind (workspace c))) in
  let! cleanup := guard_finalize t in
  match delivery, cleanup with
  | Panic, _ | _, Panic => panic
  | Ok _, cleanup => lift cleanup
  | Err operation, Ok _ => fail operation
  | Err operation, Err cleanup => fail (PersistenceCleanup operation cleanup)
  end.

(** *** Persisting *)

Definition absolute_range (e : FrozenCaptureEpoch) : range := desc_absolute_range (epoch_descriptor e).

Definition transaction_export_range (t : FrozenTransaction) : range :=
  if valid (t_decision t) then export_range (t_decision t) else absolute_range (t_frozen t).

(** The losses are committed and the cursor is moved, then the caller gets the
    outcome; only the delivery runs without the lock. *)
Definition commit_and_deliver (range : range) (cumulative : Z) (commit : PrevalidatedLossCommit)
    (kind : FrozenTransaction -> LossBreakdown -> CommittedPersistenceKind) (lost_message : string)
    (deliver : CommittedPersistenceRef O -> CoM unit) : CoM unit :=
  let! losses := commit_losses cumulative commit in
  set_state (fun s => s <| committed_until := Some range.2 |>) ;;
  begin_completion ;;
  let! s := get_state in
  match frozen_transaction s with
  | None =>
      set_state (fun s => s <| completion_in_progress := false |>) ;;
      invariant_error lost_message
  | Some t =>
      set_state (fun s => s <| frozen_transaction := None |>) ;;
      deliver_and_finalize (kind t losses) t deliver
  end.

Definition recovery_accounting : CoM (option (Z * PrevalidatedLossCommit)) :=
  let! s := get_state in
  match indeterminate_publication s with
  | None => ret None
  | Some _ =>
      let! t := lift (ok_or (frozen_transaction s)
        (ControlInvariant "indeterminate publication has no frozen transaction")) in
      let! cumulative := on_arena arena_cumulative_dropped in
      let! commit := lift (prevalidate_loss_commit s cumulative (t_retention_lost_frames t)) in
      ret (Some (cumulative, commit))
  end.

Definition kind_written (range : range) (t : FrozenTransaction) (losses : LossBreakdown)
    : CommittedPersistenceKind :=
  KindWritten range (transaction_export_range t) (wrap64 (range.2 - range.1)) losses.

(** The frozen transaction of this command: the one a failed command left, or a
    new freeze; [None] when there is no new audio. *)
Definition ensure_frozen : CoM (option FrozenTransaction) :=
  let! s := get_state in
  match frozen_transaction s with
  | Some t => ret (Some t)
  | None =>
      let! _ := lift (ok_or (reusable_decision s)
        (ControlInvariant "persistence coordinator has no reusable frozen decision")) in
      let! frozen := on_arena (arena_freeze_since (committed_until s)) in
      match frozen with
      | None => ret None
      | Some frozen =>
          let requested := default 0 (committed_until s) in
          let! decision := lift (ok_or (reusable_decision s)
            (ControlInvariant "persistence coordinator has no reusable frozen decision")) in
          let t := mkTransaction frozen (saturating_sub (absolute_range frozen).1 requested) decision in
          set_state (fun s => s <| reusable_decision := None |> <| frozen_transaction := Some t |>) ;;
          ret (Some t)
      end
  end.

(** What came of preparing and publishing. *)
Inductive PublicationStep :=
  | PublishedStep
  | SkippedSilentStep
  | SkippedByPolicyStep
  | RetryStep (error : LambError)
  | IndeterminateStep (operation : LambError) (cleanup : I).

Definition publish_step (prepared : PreparedPersistence S) : CoM PublicationStep :=
  match prepared with
  | Silent | SkippedSilentPrepared => ret SkippedSilentStep
  | SkippedByPolicyPrepared => ret SkippedByPolicyStep
  | _ =>
      let! published := on_workspace (publish_prepared prepared) in
      match published with
      | Published => ret PublishedStep
      | RetryableFailure error => ret (RetryStep error)
      | IndeterminateResult operation cleanup => ret (IndeterminateStep operation cleanup)
      end
  end.

(** Prepares and publishes the transaction; the decision is finalized in place. *)
Definition prepare_and_publish (request : PolicyPersistenceRequest) (t : FrozenTransaction)
    : CoM (FrozenTransaction * PublicationStep) :=
  let! c := get in
  let! (decision, prepared) :=
    on_workspace (prepare (arena c) (t_frozen t) request (t_decision t)) in
  let t := mkTransaction (t_frozen t) (t_retention_lost_frames t) decision in
  set_state (fun s => s <| frozen_transaction := Some t |>) ;;
  let! prepared := lift prepared in
  let! step := publish_step prepared in
  ret (t, step).

Definition step_kind (step : PublicationStep) (range : range) (t : FrozenTransaction)
    (losses : LossBreakdown) : CommittedPersistenceKind :=
  match step with
  | SkippedByPolicyStep => KindSkippedByPolicy range (wrap64 (range.2 - range.1)) losses
  | SkippedSilentStep => KindSkippedSilent range (wrap64 (range.2 - range.1)) losses
  | _ => kind_written range t losses
  end.

Definition persist_policy_with_delivery (request : PolicyPersistenceRequest)
    (deliver : CommittedPersistenceRef O -> CoM unit) : CoM unit :=
  on_workspace finish_completed_publication ;;
  bind_arena ;;
  let! _ := recover_pending_clear in
  reconcile_completion_authority ;;
  let! accounting := recovery_accounting in
  let! recovered := recover_indeterminate_publication in
  if (recovered : bool) then
    let! s := get_state in
    let! t := lift (ok_or (frozen_transaction s)
      (ControlInvariant "complete recovered publication has no frozen transaction")) in
    let! (cumulative, commit) := lift (unwrap accounting) in
    let range := absolute_range (t_frozen t) in
    commit_and_deliver range cumulative commit (kind_written range)
      "recovered completion lost its frozen transaction" deliver
  else
    let! t := ensure_frozen in
    match t with
    | None =>
        let! cumulative := on_arena arena_cumulative_dropped in
        let! s := get_state in
        let! commit := lift (prevalidate_loss_commit s cumulative 0) in
        let! losses := commit_losses cumulative commit in
        deliver (NoNewAudio losses)
    | Some t =>
        let range := absolute_range (t_frozen t) in
        let! (t, step) := prepare_and_publish request t in
        let export_range := transaction_export_range t in
        fail_if ((export_range.1 <? range.1) || negb (export_range.2 =? range.2)
                 || (export_range.2 <? export_range.1))
          (ExportInvariant "frozen export range is outside the consumed range") ;;
        match step with
        | RetryStep error => fail error
        | IndeterminateStep operation cleanup =>
            set_state (fun s => s <| indeterminate_publication := Some cleanup |>) ;;
            fail (IndeterminatePublicationError operation)
        | _ =>
            let! cumulative := on_arena arena_cumulative_dropped in
            let! s := get_state in
            let! commit := lift (prevalidate_loss_commit s cumulative (t_retention_lost_frames t)) in
            commit_and_deliver range cumulative commit (step_kind step range)
              "committed completion lost its frozen transaction" deliver
        end
    end.

(** *** Clearing *)

Definition clear_accounting (c : Session A W I C) : Result CaptureClearAccounting :=
  let s := state c in
  let requested_start := default 0 (committed_until s) in
  let? clear_id := ok_or (add_checked (next_clear_id s) 1)
                     (ControlInvariant "clear transaction identity exhausted") in
  match frozen_transaction s with
  | None =>
      Ok (mkAccounting (arena_runtime_id (arena c)) (coordinator_id c) clear_id requested_start
            (pending_retention_lost s) (pending_cleared s))
  | Some t =>
      let range := absolute_range (t_frozen t) in
      let? retention := checked_loss_add (pending_retention_lost s) (t_retention_lost_frames t)
                          "pending retention loss counter exhausted" in
      let? cleared := checked_loss_add (pending_cleared s) (wrap64 (range.2 - range.1))
                        "pending cleared frame counter exhausted" in
      Ok (mkAccounting (arena_runtime_id (arena c)) (coordinator_id c) clear_id range.2 retention cleared)
  end.

Definition new_pending_clear (c : Session A W I C) (accounting : CaptureClearAccounting) : PendingClear :=
  let s := state c in
  mkPendingClear (arena_runtime_id (arena c)) (coordinator_id c) (acc_clear_id accounting)
    (default 0 (committed_until s)) accounting
    (option_map (fun t => (absolute_range (t_frozen t)).2) (frozen_transaction s))
    (acknowledged_dropped_frames s).

(** A clear that timed out may still happen, so its record is kept. *)
Definition clear_may_happen (error : LambError) : bool :=
  bool_decide (error = timed_out) || bool_decide (error = client_timed_out).

Definition clear_in_order : CoM unit :=
  bind_arena ;;
  let! recovered_clear := recover_pending_clear in
  reconcile_completion_authority ;;
  if (recovered_clear : bool) then ret tt
  else
    let! s := get_state in
    fail_if (is_some (indeterminate_publication s))
      (IndeterminatePublicationError
         (ExportInvariant "publication cleanup recovery is required before clear")) ;;
    recover_pending_release ;;
    let! c := get in
    let! accounting := lift (clear_accounting c) in
    set_state (fun s => s <| next_clear_id := acc_clear_id accounting |>
                          <| pending_clear := Some (new_pending_clear c accounting) |>) ;;
    let! report := catch (on_arena (arena_clear_active_accounted accounting)) in
    match report with
    | Ok report =>
        validate_clear_report report ;;
        commit_clear_report report ;;
        let! _ := catch recover_pending_release in
        ret tt
    | Err error =>
        (if clear_may_happen error then ret tt else set_state (fun s => s <| pending_clear := None |>)) ;;
        fail error
    | Panic => panic
    end.
End coordinator.
