(* ===== verification/DumpSpec.v ===== *)
(** * What the dump coordinator relies on and keeps

    The laws of the capture arena, as the coordinator needs them, and the
    coordinator's invariant: the outcomes delivered so far and the losses not yet
    reported make up the stream up to the cursor. *)
From S2P Require Import Prelude.
From S2P Require Import Errors.
From S2P Require Import MemoryPlan.
From S2P Require Import SampleRing.
From S2P Require Import CaptureWorker.
From S2P Require Import CaptureClient.
From S2P Require Import CaptureClientSpec.
From S2P Require Import Activity.
From S2P Require Import ExportPattern.
From S2P Require Import ExportPaths.
From S2P Require Import DumpCoordinator.

(** ** The arena's promises

    What an arena has promised: the frames it has accepted, the start of a freeze
    whose answer nobody has taken, the accounting of a clear whose report nobody
    has taken, and the frames it has counted as dropped. *)
Record Promise := mkPromise {
  p_head : Z;
  p_asked : option (option Z);
  p_clear : option CaptureClearAccounting;
  p_dropped : Z;
}.

(** Time passes: the counters grow, an open promise is kept or broken. *)
Definition passes (g g' : Promise) : Prop :=
  p_head g <= p_head g' /\ p_dropped g <= p_dropped g'
  /\ (p_asked g' = p_asked g \/ p_asked g' = None)
  /\ (p_clear g' = p_clear g \/ p_clear g' = None).

#[export] Instance passes_preorder : PreOrder passes.
Proof.
  split.
  - intros g. unfold passes. split_and!; [lia|lia|by left|by left].
  - intros g1 g2 g3 (? & ? & H3 & H4) (? & ? & H7 & H8). unfold passes. split_and!; [lia|lia| |].
    + destruct H7 as [->| ->]; [done|by right].
    + destruct H8 as [->| ->]; [done|by right].
Qed.

Definition recovery_of (acc : CaptureClearAccounting) (r : CaptureClearRecovery) : Prop :=
  r = mkRecovery (acc_arena_runtime_id acc) (acc_coordinator_id acc) (acc_clear_id acc).

Class ArenaLaws (A : Type) {ops : ArenaOps A} := {
  promises : A -> Promise -> Prop;
  law_bounds : forall a g, promises a g -> 0 <= p_head g <= u64_max /\ 0 <= p_dropped g <= u64_max;
  law_one : forall a g, promises a g -> p_clear g <> None -> p_asked g = None;
  law_freeze : forall a g cs,
    promises a g -> (p_asked g = None \/ p_asked g = Some cs) -> p_clear g = None ->
    0 <= default 0 cs <= p_head g ->
    exists a' o g', arena_freeze_since cs a = (a', o) /\ promises a' g'
      /\ p_head g <= p_head g' /\ p_dropped g <= p_dropped g' /\ p_clear g' = None
      /\ match o with
         | Ok (Some f) => p_asked g' = None /\
             default 0 cs <= (absolute_range f).1 /\
             (absolute_range f).1 < (absolute_range f).2 <= p_head g'
         | Ok None => p_asked g' = None
         | Err _ => p_asked g' = None \/ p_asked g' = Some cs
         | Panic => False
         end;
  law_release : forall a g f,
    promises a g -> p_clear g = None ->
    exists a' f' r g', arena_release_frozen f a = (a', Ok (f', r)) /\ promises a' g' /\ passes g g'
      /\ r <> Panic;
  law_clear : forall a g acc,
    promises a g -> p_clear g = None ->
    0 <= expected_active_start acc <= p_head g ->
    0 <= pending_retention_lost_frames acc -> 0 <= pending_cleared_frames acc ->
    exists a' o g', arena_clear_active_accounted acc a = (a', o) /\ promises a' g'
      /\ p_head g <= p_head g' /\ p_dropped g <= p_dropped g'
      /\ (p_asked g' = p_asked g \/ p_asked g' = None)
      /\ match o with
         | Ok report => p_asked g' = None /\ p_clear g' = None /\ report_for acc report (p_head g')
         | Err e => p_clear g' = None \/ p_clear g' = Some acc /\ clear_may_happen e = true
         | Panic => False
         end;
  law_recover : forall a g r,
    promises a g -> (forall acc, p_clear g = Some acc -> recovery_of acc r) ->
    exists a' o g', arena_recover_clear_result r a = (a', o) /\ promises a' g' /\ passes g g'
      /\ match o with
         | Ok (Some report) => p_clear g' = None /\
             exists acc, p_clear g = Some acc /\ report_for acc report (p_head g')
         | Ok None => p_clear g' = None
         | Err _ => True
         | Panic => False
         end;
  law_dropped : forall a g,
    promises a g ->
    exists a' g', arena_cumulative_dropped a = (a', Ok (p_dropped g')) /\ promises a' g' /\ passes g g';
}.

(** The workspace's calls return. *)
Class WorkspaceLaws (A W O I S : Type) {ops : WorkspaceOps A W O I S} := {
  law_finish : forall w, (finish_completed_publication w).2 <> Panic;
  law_recover_publication : forall p w, exists w' p' r,
    recover_publication p w = (w', Ok (p', r)) /\ r <> Panic;
  law_prepare : forall a f request d w, exists w' d' r,
    prepare a f request d w = (w', Ok (d', r)) /\ r <> Panic;
  law_publish : forall p w, exists w' r, publish_prepared p w = (w', Ok r);
}.

(** ** What the outcomes account for *)

Definition losses_of {O} (r : CommittedPersistenceRef O) : LossBreakdown :=
  match r with
  | Written _ _ _ l _ | SkippedSilent _ _ l | SkippedByPolicy _ _ l | NoNewAudio l => l
  end.

(** The outcome continues a stream accounted for up to [from] until [to]: first
    the frames it reports as lost or cleared, then the range it consumed. *)
Definition continues {O} (from : Z) (r : CommittedPersistenceRef O) (to : Z) : Prop :=
  let start := from + retention_lost_frames (losses_of r) + cleared_frames (losses_of r) in
  0 <= retention_lost_frames (losses_of r) /\ 0 <= cleared_frames (losses_of r) /\
  match r with
  | Written range _ frames _ _ | SkippedSilent range frames _ | SkippedByPolicy range frames _ =>
      range.1 = start /\ range.1 < range.2 /\ frames = range.2 - range.1 /\ range.2 = to
  | NoNewAudio _ => start = to
  end.

(** The outcomes, one after the other, account for the stream from [from] to [to]. *)
Fixpoint accounts {O} (from : Z) (log : list (CommittedPersistenceRef O)) (to : Z) : Prop :=
  match log with
  | [] => from = to
  | r :: log' => exists mid, continues from r mid /\ accounts mid log' to
  end.

Fixpoint dropped_total {O} (log : list (CommittedPersistenceRef O)) : Z :=
  match log with
  | [] => 0
  | r :: log' => capture_dropped_frames (losses_of r) + dropped_total log'
  end.

Lemma accounts_snoc {O} (log : list (CommittedPersistenceRef O)) r from mid to :
  accounts from log mid -> continues mid r to -> accounts from (log ++ [r]) to.
Proof.
  revert from. induction log as [|x log IH]; cbn; intros from.
  - intros ->. by exists to.
  - intros (m & Hx & Hl) Hr. exists m. split; [done|]. by apply IH.
Qed.

Lemma dropped_total_snoc {O} (log : list (CommittedPersistenceRef O)) r :
  dropped_total (log ++ [r]) = dropped_total log + capture_dropped_frames (losses_of r).
Proof. induction log as [|x log IH]; cbn; [lia|]. rewrite IH. lia. Qed.

(** ** Triples

    Every call keeps the arena's promises, so an assertion is about the session and
    the promises. A triple says that the method returns, with a value that
    satisfies [Q] or an error in a state that satisfies [R]. *)
Section triples.
Context {A W O I S : Type} {ops : ArenaOps A} {wops : WorkspaceOps A W O I S}.

Abbreviation Log := (list (CommittedPersistenceRef O)).
Abbreviation Coordinator := (Session A W I Log).
Abbreviation CoM := (M Coordinator LambError).

Definition assertion : Type := Coordinator -> Promise -> Prop.

Definition triple {X} (P : assertion) (m : CoM X) (Q : X -> assertion) (R : assertion) : Prop :=
  forall c g, P c g -> exists g',
    match m c with
    | (c', Ok x) => Q x c' g'
    | (c', Err _) => R c' g'
    | (_, Panic) => False
    end.

Lemma triple_bind {X Y} P (m : CoM X) (k : X -> CoM Y) Q Q' R :
  triple P m Q R -> (forall x, triple (Q x) (k x) Q' R) -> triple P (bind m k) Q' R.
Proof.
  intros Hm Hk c g HP. destruct (Hm c g HP) as [g' H]. unfold bind.
  destruct (m c) as [c' [x|e|]]; [exact (Hk x c' g' H)|by exists g'|done].
Qed.

Lemma triple_pre {X} (P P' : assertion) (m : CoM X) Q R :
  (forall c g, P c g -> P' c g) -> triple P' m Q R -> triple P m Q R.
Proof. intros H Hm c g HP. exact (Hm c g (H c g HP)). Qed.

Lemma triple_post {X} P (m : CoM X) (Q Q' : X -> assertion) (R R' : assertion) :
  triple P m Q R -> (forall x c g, Q x c g -> Q' x c g) -> (forall c g, R c g -> R' c g) ->
  triple P m Q' R'.
Proof.
  intros Hm HQ HR c g HP. destruct (Hm c g HP) as [g' H]. exists g'.
  destruct (m c) as [c' [x|e|]]; auto.
Qed.

Lemma triple_ret {X} (x : X) (P : X -> assertion) R : triple (P x) (ret x) P R.
Proof. intros c g HP. by exists g. Qed.

Lemma triple_fail {X} e (Q : X -> assertion) R : triple R (fail e) Q R.
Proof. intros c g HP. by exists g. Qed.

Lemma triple_fail_if b e (P : assertion) (Q R : assertion) :
  (forall c g, P c g -> b = false -> Q c g) -> (forall c g, P c g -> b = true -> R c g) ->
  triple P (fail_if b e) (fun _ => Q) R.
Proof. intros HQ HR c g HP. exists g. destruct b; cbn; auto. Qed.

(** A read of the session or of the state. *)
Lemma triple_get {Y} (P : assertion) (k : Coordinator -> CoM Y) Q R :
  (forall c0, triple (fun c g => P c g /\ c = c0) (k c0) Q R) -> triple P (bind get k) Q R.
Proof. intros Hk c g HP. exact (Hk c c g (conj HP eq_refl)). Qed.

Lemma triple_get_state {Y} (P : assertion) (k : DumpState I -> CoM Y) Q R :
  (forall s, triple (fun c g => P c g /\ state c = s) (k s) Q R) -> triple P (bind get_state k) Q R.
Proof. intros Hk c g HP. exact (Hk (state c) c g (conj HP eq_refl)). Qed.

Lemma triple_set_state f (P : assertion) (Q : unit -> assertion) R :
  (forall c g, P c g -> Q tt (c <| state := f (state c) |>) g) -> triple P (set_state f) Q R.
Proof. intros H c g HP. exists g. by apply H. Qed.

Lemma triple_lift {X} (o : Result X) P (Q : X -> assertion) R :
  (forall c g x, P c g -> o = Ok x -> Q x c g) -> (forall c g e, P c g -> o = Err e -> R c g) ->
  (forall c g, P c g -> o <> Panic) -> triple P (lift o) Q R.
Proof. intros HQ HR HP c g H. exists g. unfold lift. destruct o; [by apply HQ|by eapply HR|by eapply HP]. Qed.

(** An assumption that the assertion carries. *)
Lemma triple_exfalso {X} (P : assertion) (m : CoM X) Q R :
  (forall c g, ~ P c g) -> triple P m Q R.
Proof. intros H c g HP. by destruct (H c g). Qed.

(** A case of a value that the assertion is about. *)
Lemma triple_pure {X} (P : assertion) (p : Prop) (m : CoM X) Q R :
  (p -> triple P m Q R) -> triple (fun c g => P c g /\ p) m Q R.
Proof. intros H c g [HP Hp]. exact (H Hp c g HP). Qed.
End triples.
