(* ===== verification/DumpTheorems.v ===== *)
(** * Correctness of the dump coordinator

    The coordinator's invariant, for any arena and workspace that keep their laws,
    and what follows from it: the outcomes account for every frame of the stream
    once, and the decision and the frozen epoch always have one owner. *)
From S2P Require Import Prelude.
From S2P Require Import Errors.
From S2P Require Import MemoryPlan.
From S2P Require Import SampleRing.
From S2P Require Import CaptureWorker.
From S2P Require Import CaptureClient.
From S2P Require Import CaptureClientSpec.
From S2P Require Import Activity.
From S2P Require Import ExportPattern.
From S2P Require Import ExportPaths.
From S2P Require Import DumpCoordinator.
From S2P Require Import DumpSpec.

(** ** The invariant *)

(** The frames up to which the last committed command or clear went. *)
Definition cursor {I} (s : DumpState I) : Z := default 0 (committed_until s).

(** The frames that the delivered outcomes account for. *)
Definition accounted_to {I} (s : DumpState I) : Z :=
  cursor s - pending_retention_lost s - pending_cleared s.

(** A frozen transaction continues at the cursor. *)
Definition transaction_ok {I} (s : DumpState I) (head : Z) (t : FrozenTransaction) : Prop :=
  let range := absolute_range (t_frozen t) in
  cursor s <= range.1 /\ range.1 < range.2 <= head /\ t_retention_lost_frames t = range.1 - cursor s.

(** The accounting of a pending clear is that of the state. *)
Definition pending_ok {I} (s : DumpState I) (p : PendingClear) : Prop :=
  let acc := pc_accounting p in
  mkRecovery (pc_arena_runtime_id p) (pc_coordinator_id p) (pc_clear_id p) =
    mkRecovery (acc_arena_runtime_id acc) (acc_coordinator_id acc) (acc_clear_id acc)
  /\ match frozen_transaction s with
     | None => expected_active_start acc = cursor s
         /\ pending_retention_lost_frames acc = pending_retention_lost s
         /\ pending_cleared_frames acc = pending_cleared s /\ pc_frozen_end p = None
     | Some t =>
         let range := absolute_range (t_frozen t) in
         expected_active_start acc = range.2
         /\ pending_retention_lost_frames acc = pending_retention_lost s + t_retention_lost_frames t
         /\ pending_cleared_frames acc = pending_cleared s + (range.2 - range.1)
         /\ pc_frozen_end p = Some range.2
     end.

Definition clear_open {I} (s : DumpState I) (g : Promise) : Prop :=
  match pending_clear s with
  | None => p_clear g = None
  | Some p => (p_clear g = None \/ p_clear g = Some (pc_accounting p)) /\ pending_ok s p
      /\ indeterminate_publication s = None /\ pending_completion s = None
  end.

(** The decision and the frozen epoch are with the coordinator, or an epoch waits to
    be given back after a delivery. *)
Definition settled {I} (s : DumpState I) : Prop :=
  completion_in_progress s = false /\ pending_completion s = None /\
  match frozen_transaction s with
  | None => is_some (reusable_decision s) = true
  | Some _ => reusable_decision s = None /\ pending_release s = None
  end.

Definition handing_back {I} (s : DumpState I) : Prop :=
  completion_in_progress s = true
  /\ (exists d f, pending_completion s = Some (Finalized d (Some f)))
  /\ frozen_transaction s = None /\ reusable_decision s = None /\ pending_release s = None.

Section coordinator_theorems.
Context {A W O I S : Type} {ops : ArenaOps A} {laws : ArenaLaws A}
  {wops : WorkspaceOps A W O I S} {wlaws : WorkspaceLaws A W O I S}.

Abbreviation Log := (list (CommittedPersistenceRef O)).
Abbreviation Coordinator := (Session A W I Log).
Abbreviation CoM := (M Coordinator LambError).

Record books (L : Log) (c : Coordinator) (g : Promise) : Prop := {
  b_log : client c = L;
  b_arena : promises (arena c) g;
  b_accounts : accounts 0 L (accounted_to (state c));
  b_pending : 0 <= pending_retention_lost (state c) /\ 0 <= pending_cleared (state c);
  b_cursor : 0 <= cursor (state c) <= p_head g;
  b_dropped : dropped_total L = acknowledged_dropped_frames (state c);
  b_ack : 0 <= acknowledged_dropped_frames (state c) <= p_dropped g;
  b_frozen : forall t, frozen_transaction (state c) = Some t ->
    transaction_ok (state c) (p_head g) t /\ p_asked g = None;
  b_asked : p_asked g = None \/ p_asked g = Some (committed_until (state c));
}.

Record coord_inv (L : Log) (c : Coordinator) (g : Promise) : Prop := {
  ci_books : books L c g;
  ci_clear : clear_open (state c) g;
  ci_shape : settled (state c) \/ handing_back (state c);
  ci_indeterminate : is_some (indeterminate_publication (state c)) = true ->
    is_some (frozen_transaction (state c)) = true;
}.

(** Nothing of an earlier call is left but a frozen transaction. *)
Definition ready (L : Log) (c : Coordinator) (g : Promise) : Prop :=
  coord_inv L c g /\ pending_clear (state c) = None /\ pending_release (state c) = None
  /\ pending_completion (state c) = None.

(** *** Passing time *)

Lemma books_passes L c g a g' :
  books L c g -> promises a g' -> passes g g' -> books L (c <| arena := a |>) g'.
Proof.
  intros [] Ha (Hh & Hd & Hk & _). constructor; cbn [client arena state update]; try done; try lia.
  - intros t Ht. destruct (b_frozen0 t Ht) as [(? & ? & ?) Hn]. rewrite Hn in Hk.
    split; [unfold transaction_ok; lia|by destruct Hk].
  - destruct Hk as [->| ->]; [done|by left].
Qed.

Lemma coord_passes L c g a g' :
  coord_inv L c g -> promises a g' -> passes g g' -> coord_inv L (c <| arena := a |>) g'.
Proof.
  intros [Hb Hc Hs Hi] Ha Hp. constructor; [by eapply books_passes| |done|done].
  destruct Hp as (_ & _ & _ & Hk). unfold clear_open in *. cbn [state arena update].
  destruct (pending_clear (state c)) as [p|].
  - destruct Hc as (Hc & H1 & H2). split; [|done]. destruct Hk as [->| ->]; [done|by left].
  - rewrite Hc in Hk. by destruct Hk.
Qed.

Lemma ready_passes L c g a g' :
  ready L c g -> promises a g' -> passes g g' -> ready L (c <| arena := a |>) g'.
Proof. intros (Hi & H) Ha Hp. split; [by eapply coord_passes|done]. Qed.

Lemma on_arena_run {X} (m : M A LambError X) (c : Coordinator) a o :
  m (arena c) = (a, o) -> @on_arena A W I Log X m c = (c <| arena := a |>, o).
Proof. intros E. unfold on_arena. by rewrite E. Qed.

Lemma set_state_run f (c : Coordinator) : set_state f c = (c <| state := f (state c) |>, Ok tt).
Proof. done. Qed.

(** *** Binding *)

Lemma bind_arena_ok L : triple (coord_inv L) bind_arena (fun _ => coord_inv L) (coord_inv L).
Proof.
  intros c g Hi. exists g. unfold bind_arena. msteps. destruct (bound_runtime_id (state c)).
  - by destruct (_ =? _).
  - cbn. destruct Hi as [[] ? ? ?]. by constructor; [constructor|..].
Qed.

(** *** Clears *)

Lemma validate_clear_ok L c g report :
  coord_inv L c g ->
  exists o, validate_clear_report report c = (c, o) /\ o <> Panic.
Proof.
  intros _. unfold validate_clear_report. msteps.
  destruct (pending_clear (state c)) as [p|]; cbn [ok_or]; msteps; [|by eexists].
  destruct (_ || _); msteps; [by eexists|]. destruct (pc_frozen_end p).
  - destruct (negb _); msteps; [by eexists|]. destruct (_ || _); by eexists.
  - destruct (is_some _); msteps; [by eexists|]. destruct (_ || _); by eexists.
Qed.

(** The frames that a report adds to the losses are those between the expected
    start and the end of the active range. *)
Lemma report_total acc report head :
  report_for acc report head ->
  report_pending_retention_lost_frames report + report_pending_cleared_frames report =
    pending_retention_lost_frames acc + pending_cleared_frames acc
    + ((report_active_absolute_range report).2 - expected_active_start acc)
  /\ pending_retention_lost_frames acc <= report_pending_retention_lost_frames report
  /\ pending_cleared_frames acc <= report_pending_cleared_frames report
  /\ expected_active_start acc <= (report_active_absolute_range report).2 <= head.
Proof.
  unfold report_for. destruct (report_active_absolute_range report) as [s e]. cbn. lia.
Qed.

Lemma pending_totals L c g p :
  books L c g -> pending_ok (state c) p ->
  let acc := pc_accounting p in
  0 <= pending_retention_lost_frames acc /\ 0 <= pending_cleared_frames acc
  /\ cursor (state c) <= expected_active_start acc <= p_head g
  /\ pending_retention_lost_frames acc + pending_cleared_frames acc =
       pending_retention_lost (state c) + pending_cleared (state c)
       + (expected_active_start acc - cursor (state c)).
Proof.
  intros Hb [_ Hp] acc. pose proof (b_pending _ _ _ Hb). pose proof (b_cursor _ _ _ Hb).
  fold acc in Hp. destruct (frozen_transaction (state c)) as [t|] eqn:Et.
  - destruct (b_frozen _ _ _ Hb t Et) as [(H1 & H2 & H3) _]. cbn zeta in *. destruct Hp as (P1 & P2 & P3 & _).
    rewrite P1, P2, P3. lia.
  - lia.
Qed.

Lemma commit_clear_ok L c g p report :
  coord_inv L c g -> pending_clear (state c) = Some p -> p_clear g = None -> p_asked g = None ->
  report_for (pc_accounting p) report (p_head g) ->
  exists c', commit_clear_report report c = (c', Ok tt) /\ coord_inv L c' g
    /\ pending_clear (state c') = None /\ settled (state c').
Proof.
  intros [Hb Hc Hs Hi] Ep Hg Hk Hr. unfold clear_open in Hc. rewrite Ep in Hc.
  destruct Hc as (_ & Hp & Hin & Hcomp).
  destruct (pending_totals _ _ _ _ Hb Hp) as (T1 & T2 & T3 & T4). cbn zeta in *.
  destruct (report_total _ _ _ Hr) as (R1 & R2 & R3 & R4).
  destruct Hp as [_ Hp]. destruct Hs as [(S1 & S2 & S3)|(_ & (d & f & S2) & _)]; [|congruence].
  unfold commit_clear_report. unfold get_state. rewrite bind_gets, Ep.
  rewrite (bind_run _ _ _ _ _ (set_state_run _ _)).
  set (s1 := (state c) <| pending_retention_lost := _ |> <| pending_cleared := _ |> <| committed_until := _ |>).
  assert (accounted_to s1 = accounted_to (state c)) as Hacc.
  { unfold accounted_to, cursor, s1. cbn. unfold cursor in *. lia. }
  destruct Hb as [B1 B2 B3 B4 B5 B6 B7 B8 B9].
  destruct (frozen_transaction (state c)) as [t|] eqn:Et; destruct Hp as (Q1 & Q2 & Q3 & ->); cbn [is_some].
  - cbn [unwrap]. unfold set_state. msteps. rewrite modify_run. eexists. split; [done|].
    split; [|by split]. constructor.
    + constructor; cbn [state client arena update]; try done; try lia.
      * fold s1. change (accounts 0 L (accounted_to s1)). by rewrite Hacc.
      * cbn. lia.
      * unfold cursor. cbn. lia.
      * by left.
    + done.
    + by left.
    + cbn. by rewrite Hin.
  - unfold set_state. msteps. rewrite modify_run. eexists. split; [done|].
    assert (settled (s1 <| pending_clear := None |>)) as Hset.
    { split; [done|]. split; [done|]. cbn. by rewrite Et. }
    split; [|by split]. constructor.
    + constructor; cbn [state client arena update]; try done; try lia.
      * change (accounts 0 L (accounted_to s1)). by rewrite Hacc.
      * cbn. lia.
      * unfold cursor. cbn. lia.
      * intros t Ht. cbn in Ht. congruence.
      * by left.
    + done.
    + by left.
    + cbn. by rewrite Hin.
Qed.

Definition no_clear (L : Log) (c : Coordinator) (g : Promise) : Prop :=
  coord_inv L c g /\ pending_clear (state c) = None.

(** A report is committed or refused. *)
Lemma take_report_ok L c g p report :
  coord_inv L c g -> pending_clear (state c) = Some p -> p_clear g = None -> p_asked g = None ->
  report_for (pc_accounting p) report (p_head g) ->
  exists c' o, (validate_clear_report report ;; commit_clear_report report) c = (c', o)
    /\ o <> Panic /\ coord_inv L c' g
    /\ match o with Ok _ => pending_clear (state c') = None /\ settled (state c') | _ => True end.
Proof.
  intros Hi Ep Hg Hk Hr. destruct (validate_clear_ok L c g report Hi) as (o & E & Ho).
  rewrite (bind_run _ _ _ _ _ E). destruct o as [[]|e|]; [|by exists c, (Err e)|done].
  destruct (commit_clear_ok L c g p report Hi Ep Hg Hk Hr) as (c' & E' & Hi' & Hp').
  rewrite E'. by exists c', (Ok tt).
Qed.

Lemma recover_pending_clear_ok L :
  triple (coord_inv L) recover_pending_clear (fun _ => no_clear L) (coord_inv L).
Proof.
  intros c g Hi. unfold recover_pending_clear. msteps.
  destruct (pending_clear (state c)) as [p|] eqn:Ep; [|by exists g].
  destruct (_ || _); msteps; [by exists g|].
  pose proof (ci_clear _ _ _ Hi) as Hc. unfold clear_open in Hc. rewrite Ep in Hc.
  destruct Hc as (Hc & Hp & Hin & Hcomp).
  destruct (law_recover (arena c) g (mkRecovery (pc_arena_runtime_id p) (pc_coordinator_id p) (pc_clear_id p))
    (b_arena _ _ _ (ci_books _ _ _ Hi))) as (a' & o & g' & E & Ha & Hpass & Ho).
  { intros acc Hacc. rewrite Hacc in Hc. destruct Hc as [|[= ->]]; [done|]. apply Hp. }
  exists g'. rewrite (bind_run _ _ _ _ _ (on_arena_run _ _ _ _ E)).
  pose proof (coord_passes _ _ _ _ _ Hi Ha Hpass) as Hi'. set (c1 := c <| arena := a' |>) in *.
  destruct o as [[report|]|e|]; [| |done|done].
  - destruct Ho as (Hg' & acc & Hacc & Hr). rewrite Hacc in Hc. destruct Hc as [|[= ->]]; [done|].
    assert (p_asked g' = None) as Hk.
    { destruct Hpass as (_ & _ & [->|Hk] & _); [|done].
      apply (law_one _ _ (b_arena _ _ _ (ci_books _ _ _ Hi))). congruence. }
    destruct (take_report_ok L c1 g' p report Hi' Ep Hg' Hk Hr) as (c2 & o & E2 & Ho & Hi2 & Hp2).
    rewrite <-bind_bind, (bind_run _ _ _ _ _ E2). destruct o; [by destruct Hp2|done|done].
  - rewrite (bind_run _ _ _ _ _ (set_state_run _ _)). cbn.
    destruct Hi' as [Hb' _ Hs' Hin']. constructor; [|done|done|done]. destruct Hb'. by constructor.
Qed.

(** *** Giving an epoch back *)

Lemma release_run c g f :
  promises (arena c) g -> p_clear g = None ->
  exists a' f' r g', @on_arena A W I Log _ (arena_release_frozen f) c = (c <| arena := a' |>, Ok (f', r))
    /\ promises a' g' /\ passes g g' /\ r <> Panic.
Proof.
  intros Ha Hc. destruct (law_release (arena c) g f Ha Hc) as (a' & f' & r & g' & E & H).
  exists a', f', r, g'. by rewrite (on_arena_run _ _ _ _ E).
Qed.

(** Between the two steps of a hand back nothing holds the epoch. *)
Definition handed_back (L : Log) (c : Coordinator) (g : Promise) : Prop :=
  books L c g /\ clear_open (state c) g /\ pending_clear (state c) = None
  /\ pending_release (state c) = None /\ indeterminate_publication (state c) = None
  /\ frozen_transaction (state c) = None /\ reusable_decision (state c) = None
  /\ completion_in_progress (state c) = true
  /\ exists d, pending_completion (state c) = Some (Finalized d None).

Definition released (L : Log) (c : Coordinator) (g : Promise) : Prop :=
  ready L c g \/ handed_back L c g.

Lemma no_clear_promise L c g : no_clear L c g -> p_clear g = None.
Proof. intros [Hi Hp]. pose proof (ci_clear _ _ _ Hi) as Hc. unfold clear_open in Hc. by rewrite Hp in Hc. Qed.

Lemma clear_none (s : DumpState I) g : pending_clear s = None -> p_clear g = None -> clear_open s g.
Proof. intros Hp Hg. unfold clear_open. by rewrite Hp. Qed.

(** With nothing delivered, or after a delivery. *)
Lemma release_settled L :
  triple (fun c g => no_clear L c g /\ settled (state c)) recover_pending_release
    (fun _ => ready L) (no_clear L).
Proof.
  intros c g [[Hi Hp] (S1 & S2 & S3)]. pose proof (no_clear_promise _ _ _ (conj Hi Hp)) as Hg.
  pose proof (b_arena _ _ _ (ci_books _ _ _ Hi)) as Ha.
  unfold recover_pending_release, get_state. msteps. rewrite Hp. cbn [is_some]. msteps.
  destruct (pending_release (state c)) as [f|] eqn:Er.
  - destruct (frozen_transaction (state c)) as [t|] eqn:Et; [by destruct S3 as [_ S3]|].
    rewrite bind_bind, (bind_run _ _ _ _ _ (set_state_run _ _)).
    set (c1 := c <| state := _ |>).
    destruct (release_run c1 g f Ha Hg) as (a' & f' & r & g' & E & Ha' & Hpass & Hr).
    exists g'. unfold release_or_keep. rewrite bind_bind, (bind_run _ _ _ _ _ E).
    set (c2 := c1 <| arena := a' |>).
    destruct r as [[]|e|]; [| |done].
    + msteps. change (pending_completion (state c2)) with (pending_completion (state c)).
      rewrite S2, ret_run. split; [|done].
      assert (coord_inv L c1 g) as Hi1.
      { destruct Hi as [[] ? ? ?]. constructor; [by constructor|done| |done].
        left. split; [done|]. split; [done|]. cbn. by rewrite Et. }
      by apply (coord_passes _ _ _ _ _ Hi1 Ha' Hpass).
    + rewrite bind_bind, (bind_run _ _ _ _ _ (set_state_run _ _)). msteps. split; [|done].
      pose proof (coord_passes _ _ _ _ _ Hi Ha' Hpass) as [[] Hc' Hs' Hi']. constructor; [by constructor|done| |done].
      left. split; [done|]. split; [done|]. cbn. by rewrite Et.
  - msteps. rewrite S2. exists g. done.
Qed.

Lemma release_handing_back L :
  triple (fun c g => no_clear L c g /\ handing_back (state c)) recover_pending_release
    (fun _ => handed_back L) (no_clear L).
Proof.
  intros c g [[Hi Hp] (S1 & (d & f & S2) & S3 & S4 & S5)].
  pose proof (no_clear_promise _ _ _ (conj Hi Hp)) as Hg.
  pose proof (b_arena _ _ _ (ci_books _ _ _ Hi)) as Ha.
  unfold recover_pending_release, get_state. msteps. rewrite Hp. cbn [is_some]. msteps.
  rewrite S5. msteps. rewrite S2.
  rewrite (bind_run _ _ _ _ _ (set_state_run _ _)). set (c1 := c <| state := _ |>).
  destruct (release_run c1 g f Ha Hg) as (a' & f' & r & g' & E & Ha' & Hpass & Hr).
  exists g'. unfold release_or_keep. rewrite (bind_run _ _ _ _ _ E).
  pose proof (coord_passes _ _ _ _ _ Hi Ha' Hpass) as [Hb' Hc' Hs' Hi'].
  assert (indeterminate_publication (state c) = None) as Hin.
  { destruct (indeterminate_publication (state c)) eqn:Ei; [|done].
    pose proof (ci_indeterminate _ _ _ Hi) as Hx. rewrite Ei, S3 in Hx. by specialize (Hx eq_refl). }
  assert (p_clear g' = None) as Hg' by (destruct Hpass as (_ & _ & _ & [->|?]); done).
  destruct r as [[]|e|]; [| |done].
  - split; [by destruct Hb'; constructor|]. split; [by apply clear_none|]. split_and!; try done. by exists d.
  - rewrite (bind_run _ _ _ _ _ (set_state_run _ _)). split; [|done].
    constructor; [by destruct Hb'; constructor|by apply clear_none| |done].
    right. split; [done|]. split; [by exists d, f'|done].
Qed.

Lemma recover_pending_release_ok L :
  triple (no_clear L) recover_pending_release (fun _ => released L) (no_clear L).
Proof.
  intros c g Hn. destruct (ci_shape _ _ _ (proj1 Hn)) as [Hs|Hs].
  - apply (triple_post _ _ _ (fun _ => released L) _ _ (release_settled L)) with (c := c) (g := g); [by left|done|by split].
  - apply (triple_post _ _ _ (fun _ => released L) _ _ (release_handing_back L)) with (c := c) (g := g); [by right|done|by split].
Qed.

Lemma reconcile_without_release_ok L :
  triple (released L) reconcile_completion_authority_without_release (fun _ => ready L) (coord_inv L).
Proof.
  intros c g [Hr|Hb]; exists g; unfold reconcile_completion_authority_without_release, get_state; msteps.
  - pose proof Hr as (Hi & _ & _ & Hc). rewrite Hc.
    destruct (ci_shape _ _ _ Hi) as [(S1 & _)|(_ & (d & f & S2) & _)]; [by rewrite S1|congruence].
  - destruct Hb as (Hb & Hcl & Hp & Hr & Hin & Hf & Hd & Hm & d & Hc). rewrite Hc, Hm. cbn [negb is_some]. msteps.
    rewrite Hd, (bind_run _ _ _ _ _ (set_state_run _ _)), set_state_run.
    split; [|done]. constructor; [by destruct Hb; constructor| | |].
    + apply clear_none; [done|]. unfold clear_open in Hcl. by rewrite Hp in Hcl.
    + left. split; [done|]. split; [done|]. cbn. by rewrite Hf.
    + cbn. by rewrite Hin.
Qed.

Lemma reconcile_ok L :
  triple (no_clear L) reconcile_completion_authority (fun _ => ready L) (coord_inv L).
Proof.
  intros c g Hn. pose proof Hn as [Hi Hp].
  destruct (triple_post _ _ _ _ _ _ (recover_pending_release_ok L) (fun _ c g H => H)
    (fun c g H => proj1 H) c g Hn) as [g' H].
  assert (reconcile_completion_authority c =
    bind recover_pending_release (fun _ => reconcile_completion_authority_without_release) c) as ->.
  { unfold reconcile_completion_authority, get_state. rewrite bind_gets.
    destruct (ci_shape _ _ _ Hi) as [(S1 & S2 & _)|(S1 & (d & f & S2) & _)]; rewrite S1, S2; by msteps. }
  unfold bind. destruct (recover_pending_release c) as [c' [[]|e|]]; [|by exists g'|done].
  by apply (reconcile_without_release_ok L c' g').
Qed.

(** *** The recovery of a publication *)

(** A prevalidated commit of the losses of a transaction. *)
Definition commit_for (s : DumpState I) (g : Promise) (retention cumulative : Z)
    (commit : PrevalidatedLossCommit) : Prop :=
  acknowledged_dropped_frames s <= cumulative <= p_dropped g
  /\ commit = mkCommit (acknowledged_dropped_frames s) (pending_retention_lost s + retention) (pending_cleared s).

Lemma prevalidate_ok (s : DumpState I) g retention :
  acknowledged_dropped_frames s <= p_dropped g ->
  match prevalidate_loss_commit s (p_dropped g) retention with
  | Ok commit => commit_for s g retention (p_dropped g) commit
  | Err _ => True
  | Panic => False
  end.
Proof.
  intros Ha. unfold prevalidate_loss_commit. destruct (p_dropped g <? _) eqn:E; [done|].
  unfold checked_loss_add. destruct (add_checked _ _) as [n|] eqn:En; [|done].
  apply add_checked_inv in En as [-> _]. cbn. unfold commit_for. split; [lia|done].
Qed.

Definition recovering (L : Log) (o : option (Z * PrevalidatedLossCommit)) (c : Coordinator) (g : Promise) : Prop :=
  ready L c g /\
  match o with
  | None => indeterminate_publication (state c) = None
  | Some (cumulative, commit) => exists t, frozen_transaction (state c) = Some t
      /\ commit_for (state c) g (t_retention_lost_frames t) cumulative commit
  end.

Lemma dropped_run c g :
  promises (arena c) g ->
  exists a' g', @on_arena A W I Log _ arena_cumulative_dropped c = (c <| arena := a' |>, Ok (p_dropped g'))
    /\ promises a' g' /\ passes g g'.
Proof.
  intros Ha. destruct (law_dropped (arena c) g Ha) as (a' & g' & E & H).
  exists a', g'. by rewrite (on_arena_run _ _ _ _ E).
Qed.

Lemma recovery_accounting_ok L : triple (ready L) recovery_accounting (recovering L) (coord_inv L).
Proof.
  intros c g Hr. unfold recovery_accounting, get_state. rewrite bind_gets.
  destruct (indeterminate_publication (state c)) as [p|] eqn:Ei; [|exists g; by rewrite ret_run].
  pose proof Hr as [Hi _]. pose proof (ci_indeterminate _ _ _ Hi) as Hf. rewrite Ei in Hf.
  destruct (frozen_transaction (state c)) as [t|] eqn:Et; [|by specialize (Hf eq_refl)].
  cbn [ok_or]. msteps. destruct (dropped_run c g (b_arena _ _ _ (ci_books _ _ _ Hi))) as (a' & g' & E & Ha' & Hp).
  rewrite (bind_run _ _ _ _ _ E). pose proof (ready_passes _ _ _ _ _ Hr Ha' Hp) as Hr'.
  pose proof (b_ack _ _ _ (ci_books _ _ _ (proj1 Hr'))) as Hack. cbn in Hack.
  pose proof (prevalidate_ok (state c) g' (t_retention_lost_frames t) ltac:(lia)) as Hv.
  exists g'. destruct (prevalidate_loss_commit _ _ _) as [commit|e|]; msteps; [|apply Hr'|done].
  split; [done|]. by exists t.
Qed.

Lemma recover_indeterminate_ok L o :
  triple (recovering L o) recover_indeterminate_publication
    (fun recovered c g => recovering L o c g /\ indeterminate_publication (state c) = None
                          /\ (recovered = true -> is_some o = true))
    (coord_inv L).
Proof.
  intros c g H. exists g. unfold recover_indeterminate_publication, get_state. rewrite bind_gets.
  destruct (indeterminate_publication (state c)) as [p|] eqn:Ei; [|by rewrite ret_run].
  destruct H as [Hr Ho]. rewrite Ei in Ho.
  destruct o as [[cumulative commit]|]; [|done]. destruct Ho as (t & Et & Hc).
  rewrite (bind_run _ _ _ _ _ (set_state_run _ _)). set (c1 := c <| state := _ |>).
  destruct (law_recover_publication p (workspace c1)) as (w' & p' & r & E & Hnp).
  assert (@on_workspace A W I Log _ (recover_publication p) c1 = (c1 <| workspace := w' |>, Ok (p', r))) as E1
    by (unfold on_workspace; by rewrite E).
  rewrite (bind_run _ _ _ _ _ E1). destruct Hr as [Hi Hrest].
  assert (forall x, (x = None \/ is_some (frozen_transaction (state c)) = true) ->
    coord_inv L (c <| state ::= (fun s => s <| indeterminate_publication := x |>) |> <| workspace := w' |>) g) as Hset.
  { intros x Hx. destruct Hi as [[] Hc1 Hs Hi]. constructor; [by constructor| |done|].
    - apply clear_none; [apply Hrest|]. by apply (no_clear_promise L c g (conj (Build_coord_inv L c g ltac:(by constructor) Hc1 Hs Hi) (proj1 Hrest))).
    - cbn. destruct Hx as [->|Hx]; [done|]. intros _. exact Hx. }
  assert (coord_inv L (c1 <| workspace := w' |>) g) as Hnone by (apply (Hset None); by left).
  destruct r as [[| |]|e|]; [| | | |done].
  - rewrite ret_run. split; [|done]. split; [by split|]. by exists t.
  - rewrite ret_run. split; [|done]. split; [by split|]. by exists t.
  - rewrite (bind_run _ _ _ _ _ (set_state_run _ _)). apply (Hset (Some p')). right. by rewrite Et.
  - rewrite (bind_run _ _ _ _ _ (set_state_run _ _)). apply (Hset (Some p')). right. by rewrite Et.
Qed.

(** *** Delivery *)

(** The caller's delivery records the outcome and ends in any way. *)
Definition records (deliver : CommittedPersistenceRef O -> CoM unit) : Prop :=
  forall r c, exists o, deliver r c = (c <| client ::= (fun l => l ++ [r]) |>, o).

(** The transaction is with the guard. *)
Definition delivering (L : Log) (c : Coordinator) (g : Promise) : Prop :=
  books L c g /\ pending_clear (state c) = None /\ p_clear g = None /\ pending_release (state c) = None
  /\ indeterminate_publication (state c) = None /\ frozen_transaction (state c) = None
  /\ reusable_decision (state c) = None /\ completion_in_progress (state c) = true
  /\ pending_completion (state c) = Some Delivering.

Lemma complete_ok L c g t :
  delivering L c g ->
  exists c' o g', finalize_completed_transaction (Some t) c = (c', o) /\ o <> Panic /\ coord_inv L c' g'.
Proof.
  intros (Hb & Hp & Hg & Hr & Hin & Hf & Hd & Hm & Hc).
  unfold finalize_completed_transaction, get_state. rewrite bind_gets. unfold is_delivering. rewrite Hm, Hc. cbn [negb orb].
  destruct (release_run c g (t_frozen t) (b_arena _ _ _ Hb) Hg) as (a' & f' & r & g' & E & Ha' & Hpass & Hnp).
  rewrite (bind_run _ _ _ _ _ E). pose proof (books_passes _ _ _ _ _ Hb Ha' Hpass) as Hb'.
  assert (p_clear g' = None) as Hg' by (destruct Hpass as (_ & _ & _ & [->|?]); done).
  rewrite (bind_run _ _ _ _ _ (set_state_run _ _)). set (c1 := c <| arena := a' |> <| state := _ |>).
  assert (books L c1 g') as Hb1 by (by destruct Hb'; constructor).
  destruct (is_ok r) eqn:Er; cbn [is_some].
  - destruct (reconcile_without_release_ok L c1 g') as [g2 H].
    { right. split; [done|]. split; [by apply clear_none|]. split_and!; try done. by eexists. }
    destruct (reconcile_completion_authority_without_release c1) as [c2 [[]|e|]]; [| |done].
    + exists c2, (Ok tt), g2. split_and!; [done|done|]. apply H.
    + by exists c2, (Err e), g2.
  - exists c1, (Ok tt), g'. split_and!; [done|done|]. constructor; [done|by apply clear_none| |cbn; by rewrite Hin].
    right. split; [done|]. split; [by eexists _, _|done].
Qed.

Lemma guard_finalize_ok L c g t :
  delivering L c g ->
  exists c' cleanup g', guard_finalize t c = (c', Ok cleanup) /\ cleanup <> Panic /\ coord_inv L c' g'.
Proof.
  intros Hd. unfold guard_finalize.
  pose proof (law_finish (workspace c)) as Hw.
  destruct (finish_completed_publication (workspace c)) as [w o] eqn:E. cbn in Hw.
  assert (@on_workspace A W I Log _ finish_completed_publication c = (c <| workspace := w |>, o)) as E1
    by (unfold on_workspace; by rewrite E).
  assert (catch (@on_workspace A W I Log _ finish_completed_publication) c = (c <| workspace := w |>, Ok o)) as E2
    by (unfold catch; rewrite E1; by destruct o).
  rewrite (bind_run _ _ _ _ _ E2).
  assert (delivering L (c <| workspace := w |>) g) as Hd1.
  { destruct Hd as ([] & Hd). split; [by constructor|exact Hd]. }
  destruct (complete_ok L _ g t Hd1) as (c' & o' & g' & E3 & Ho' & Hi).
  assert (catch (finalize_completed_transaction (Some t)) (c <| workspace := w |>) = (c', Ok o')) as E4
    by (unfold catch; rewrite E3; by destruct o').
  rewrite (bind_run _ _ _ _ _ E4), ret_run. by exists c', o, g'.
Qed.

(** The outcome hands over [range] and [losses]. *)
Definition consumes (range : range) (losses : LossBreakdown) (r : CommittedPersistenceRef O) : Prop :=
  losses_of r = losses /\
  match r with
  | Written rg _ frames _ _ | SkippedSilent rg frames _ | SkippedByPolicy rg frames _ =>
      rg = range /\ frames = wrap64 (range.2 - range.1)
  | NoNewAudio _ => False
  end.

Lemma commit_and_deliver_ok L c g t cumulative commit kind message deliver :
  ready L c g -> frozen_transaction (state c) = Some t -> indeterminate_publication (state c) = None ->
  commit_for (state c) g (t_retention_lost_frames t) cumulative commit ->
  (forall losses w, consumes (absolute_range (t_frozen t)) losses (committed_ref (kind t losses) w)) ->
  records deliver ->
  exists c' o g' r, commit_and_deliver (absolute_range (t_frozen t)) cumulative commit kind message deliver c = (c', o)
    /\ coord_inv (L ++ [r]) c' g'.
Proof.
  intros ([Hb Hcl Hs Hin] & Hp & Hr & Hc) Ht Hi [Hcum ->] Hkind Hdel.
  pose proof (b_frozen _ _ _ Hb t Ht) as [(T1 & T2 & T3) Hk]. pose proof (b_pending _ _ _ Hb).
  pose proof (b_ack _ _ _ Hb). pose proof (b_cursor _ _ _ Hb).
  pose proof (law_bounds _ _ (b_arena _ _ _ Hb)) as [Bh Bd].
  destruct Hs as [(S1 & S2 & S3)|(_ & (? & ? & S2) & _)]; [|congruence]. rewrite Ht in S3. destruct S3 as [S3 S4].
  unfold commit_and_deliver, commit_losses. rewrite bind_bind, (bind_run _ _ _ _ _ (set_state_run _ _)), bind_ret.
  cbn [commit_acknowledged_dropped_frames commit_retention_lost_frames commit_cleared_frames].
  set (losses := mkLosses _ _ _).
  rewrite (bind_run _ _ _ _ _ (set_state_run _ _)). set (c1 := c <| state := _ |> <| state := _ |>).
  unfold begin_completion, get_state. rewrite bind_bind, bind_gets.
  change (completion_in_progress (state c1)) with (completion_in_progress (state c)).
  change (pending_completion (state c1)) with (pending_completion (state c)).
  change (pending_release (state c1)) with (pending_release (state c)). rewrite S1, S2, S4. cbn [is_some orb]. msteps.
  rewrite (bind_run _ _ _ _ _ (set_state_run _ _)), bind_gets.
  set (c2 := c1 <| state := _ |>). change (frozen_transaction (state c2)) with (frozen_transaction (state c)).
  rewrite Ht, (bind_run _ _ _ _ _ (set_state_run _ _)). set (c3 := c2 <| state := _ |>).
  unfold deliver_and_finalize. msteps. set (r := committed_ref _ _). destruct (Hdel r c3) as [o E].
  assert (attempt (deliver r) c3 = (c3 <| client ::= (fun l => l ++ [r]) |>, Ok o)) as E1
    by (unfold attempt; by rewrite E).
  rewrite (bind_run _ _ _ _ _ E1). set (c4 := c3 <| client ::= _ |>).
  destruct (Hkind losses (workspace c3)) as [Hl Hm]. fold r in Hl, Hm.
  assert (continues (accounted_to (state c)) r (absolute_range (t_frozen t)).2) as Hcont.
  { unfold continues, accounted_to. rewrite Hl. cbn. split; [lia|]. split; [lia|].
    assert (wrap64 ((absolute_range (t_frozen t)).2 - (absolute_range (t_frozen t)).1) =
      (absolute_range (t_frozen t)).2 - (absolute_range (t_frozen t)).1) as Hw.
    { apply wrap64_small. unfold is_u64. lia. }
    destruct r; try done; destruct Hm as [-> ->]; rewrite Hw; lia. }
  assert (delivering (L ++ [r]) c4 g) as Hd.
  { split.
    - constructor; try done.
      + change (client c ++ [r] = L ++ [r]). by rewrite (b_log _ _ _ Hb).
      + apply Hb.
      + eapply accounts_snoc; [apply Hb|]. unfold accounted_to, cursor. cbn. by rewrite !Z.sub_0_r.
      + unfold cursor. cbn. lia.
      + rewrite dropped_total_snoc, (b_dropped _ _ _ Hb), Hl. cbn. rewrite wrap64_small; unfold is_u64; lia.
      + cbn. lia.
      + by left.
    - split_and!; try done. unfold clear_open in Hcl. by rewrite Hp in Hcl. }
  destruct (guard_finalize_ok (L ++ [r]) c4 g t Hd) as (c5 & cleanup & g' & E5 & _ & Hi5).
  rewrite (bind_run _ _ _ _ _ E5).
  exists c5. destruct o, cleanup; eexists _, g', r; (split; [reflexivity|done]).
Qed.

(** *** Persisting *)

Definition persisting (L : Log) (c : Coordinator) (g : Promise) : Prop :=
  ready L c g /\ indeterminate_publication (state c) = None.

Lemma ensure_frozen_ok L :
  triple (persisting L) ensure_frozen
    (fun o c g => persisting L c g /\ frozen_transaction (state c) = o) (coord_inv L).
Proof.
  intros c g Hp. unfold ensure_frozen, get_state. rewrite bind_gets.
  destruct (frozen_transaction (state c)) as [t|] eqn:Et; [by exists g; rewrite ret_run|].
  pose proof Hp as [([Hb Hcl Hs Hin] & Hpc & Hpr & Hcp) Hi].
  destruct (reusable_decision (state c)) as [d|] eqn:Ed; cbn [ok_or]; msteps; [|exists g; by constructor].
  assert (p_clear g = None) as Hg by (unfold clear_open in Hcl; by rewrite Hpc in Hcl).
  destruct (law_freeze (arena c) g (committed_until (state c)) (b_arena _ _ _ Hb) (b_asked _ _ _ Hb) Hg
    (b_cursor _ _ _ Hb)) as (a' & o & g' & E & Ha' & Hh & Hd & Hg' & Ho).
  rewrite (bind_run _ _ _ _ _ (on_arena_run _ _ _ _ E)). exists g'. set (c1 := c <| arena := a' |>).
  assert ((p_asked g' = None \/ p_asked g' = Some (committed_until (state c))) -> persisting L c1 g') as Hp1.
  { intros Hk. split; [|done]. split; [|done]. destruct Hb. constructor; [|by apply clear_none|done|done].
    constructor; try done; try (cbn; lia). intros t Ht. cbn in Ht. congruence. }
  destruct o as [[f|]|e|]; [| |by apply Hp1|done].
  - destruct Ho as (Hk & H1 & H2). msteps. rewrite (bind_run _ _ _ _ _ (set_state_run _ _)), ret_run.
    split; [|done]. destruct (Hp1 (or_introl Hk)) as [([Hb1 Hcl1 Hs1 Hin1] & Hr1) Hi1].
    destruct Hs1 as [(S1 & S2 & _)|(_ & (? & ? & S2) & _)]; [|destruct Hr1 as (_ & _ & Hr1); congruence].
    split; [|done]. split; [|done]. constructor.
    + destruct Hb1. constructor; try done. intros t [= <-]. split; [|done].
      unfold transaction_ok, cursor. cbn. unfold saturating_sub. lia.
    + by apply clear_none.
    + left. split; [done|]. split; [done|]. split; [done|]. apply Hr1.
    + cbn. by rewrite Hi.
  - msteps. rewrite ret_run. split; [by apply Hp1; left|]. cbn. by rewrite Et.
Qed.

(** The transaction keeps its epoch, its losses and its place; only its decision
    changes. *)
Definition same_epoch (t t' : FrozenTransaction) : Prop :=
  t_frozen t' = t_frozen t /\ t_retention_lost_frames t' = t_retention_lost_frames t.

Lemma publish_step_run p (c : Coordinator) :
  exists w' step, publish_step p c = (c <| workspace := w' |>, Ok step).
Proof.
  unfold publish_step.
  assert (forall q, exists w' r, @on_workspace A W I Log _ (publish_prepared q) c = (c <| workspace := w' |>, Ok r)) as Hq.
  { intros q. destruct (law_publish q (workspace c)) as (w' & r & E). exists w', r. unfold on_workspace. by rewrite E. }
  destruct p; try (exists (workspace c); eexists; rewrite ret_run; by destruct c);
    match goal with |- context [publish_prepared ?q] => destruct (Hq q) as (w1 & r & E) end;
    rewrite (bind_run _ _ _ _ _ E); exists w1; destruct r; by eexists.
Qed.

Lemma prepare_and_publish_ok L t request :
  triple (fun c g => persisting L c g /\ frozen_transaction (state c) = Some t)
    (prepare_and_publish request t)
    (fun x c g => persisting L c g /\ frozen_transaction (state c) = Some x.1 /\ same_epoch t x.1)
    (coord_inv L).
Proof.
  intros c g [Hp Ht]. exists g. unfold prepare_and_publish. msteps.
  destruct (law_prepare (arena c) (t_frozen t) request (t_decision t) (workspace c)) as (w' & d' & r & E & Hr).
  assert (@on_workspace A W I Log _ (prepare (arena c) (t_frozen t) request (t_decision t)) c =
    (c <| workspace := w' |>, Ok (d', r))) as E1 by (unfold on_workspace; by rewrite E).
  rewrite (bind_run _ _ _ _ _ E1), (bind_run _ _ _ _ _ (set_state_run _ _)).
  set (t' := mkTransaction _ _ _).
  assert (forall w, persisting L (c <| workspace := w |> <| state ::= (fun s => s <| frozen_transaction := Some t' |>) |>) g) as Hp1.
  { intros w. destruct Hp as [([Hb Hcl Hs Hin] & Hpc & Hpr & Hcp) Hi]. split; [|done]. split; [|done].
    constructor.
    - destruct Hb. constructor; try done. intros x [= <-]. destruct (b_frozen0 t Ht) as [H1 H2]. by split.
    - apply clear_none; [done|]. unfold clear_open in Hcl. by rewrite Hpc in Hcl.
    - destruct Hs as [(S1 & S2 & S3)|(_ & (? & ? & S2) & _)]; [|congruence].
      left. split; [done|]. split; [done|]. by rewrite Ht in S3.
    - cbn. by rewrite Hi. }
  destruct r as [p|e|]; [| |done].
  - msteps. set (c1 := c <| workspace := w' |> <| state := _ |>). destruct (publish_step_run p c1) as (w2 & step & E2).
    rewrite (bind_run _ _ _ _ _ E2), ret_run. split; [apply (Hp1 w2)|done].
  - apply (Hp1 w').
Qed.

(** An outcome that has nothing to hand over but losses. *)
Lemma no_new_audio_ok L c g cumulative commit deliver :
  ready L c g -> frozen_transaction (state c) = None -> commit_for (state c) g 0 cumulative commit ->
  records deliver ->
  exists c' o r, bind (commit_losses cumulative commit) (fun losses => deliver (NoNewAudio losses)) c = (c', o)
    /\ coord_inv (L ++ [r]) c' g.
Proof.
  intros ([Hb Hcl Hs Hin] & Hp & Hr & Hc) Ht [Hcum ->] Hdel.
  pose proof (b_pending _ _ _ Hb). pose proof (b_cursor _ _ _ Hb). pose proof (b_ack _ _ _ Hb).
  pose proof (law_bounds _ _ (b_arena _ _ _ Hb)) as [Bh Bd].
  unfold commit_losses. rewrite bind_bind, (bind_run _ _ _ _ _ (set_state_run _ _)), bind_ret.
  cbn [commit_acknowledged_dropped_frames commit_retention_lost_frames commit_cleared_frames].
  set (c1 := c <| state := _ |>). set (r := NoNewAudio _). destruct (Hdel r c1) as [o E].
  rewrite E. exists (c1 <| client ::= (fun l => l ++ [r]) |>), o, r. split; [done|].
  constructor; [| |done|].
  - constructor; try done.
    + change (client c ++ [r] = L ++ [r]). by rewrite (b_log _ _ _ Hb).
    + apply Hb.
    + eapply accounts_snoc; [apply Hb|]. unfold continues, accounted_to, cursor. cbn.
      rewrite Z.add_0_r, !Z.sub_0_r. unfold cursor in *. lia.
    + rewrite dropped_total_snoc, (b_dropped _ _ _ Hb). cbn. rewrite wrap64_small; unfold is_u64; lia.
    + cbn. lia.
    + cbn. intros t Ht'. congruence.
    + apply Hb.
  - apply clear_none; [done|]. unfold clear_open in Hcl. by rewrite Hp in Hcl.
  - cbn. intros Hi. by specialize (Hin Hi).
Qed.

(** A triple as the first part of a method. *)
Lemma triple_chain {X Y} P (m : CoM X) Q R (k : X -> CoM Y) (G : Coordinator * Result Y -> Prop) c g :
  triple P m Q R -> P c g -> (forall x c' g', Q x c' g' -> G (k x c')) ->
  (forall c' g' e, R c' g' -> G (c', Err e)) -> G (bind m k c).
Proof.
  intros Hm HP HQ HR. destruct (Hm c g HP) as [g' H]. unfold bind.
  destruct (m c) as [c' [x|e|]]; [by eapply HQ|by eapply HR|done].
Qed.

Lemma finish_ok L : triple (coord_inv L) (on_workspace finish_completed_publication) (fun _ => coord_inv L) (coord_inv L).
Proof.
  intros c g Hi. exists g. unfold on_workspace. pose proof (law_finish (workspace c)) as Hw.
  destruct (finish_completed_publication (workspace c)) as [w o].
  assert (coord_inv L (c <| workspace := w |>) g) as Hi' by (destruct Hi as [[] ? ? ?]; by constructor; [constructor|..]).
  by destruct o.
Qed.

Lemma dropped_ok (P : Coordinator -> Promise -> Prop) R :
  (forall c g, P c g -> promises (arena c) g) ->
  (forall c g a g', P c g -> promises a g' -> passes g g' -> P (c <| arena := a |>) g') ->
  triple P (on_arena arena_cumulative_dropped) (fun n c g => P c g /\ n = p_dropped g) R.
Proof.
  intros Ha Hpass c g HP. destruct (dropped_run c g (Ha c g HP)) as (a' & g' & E & Ha' & Hp).
  exists g'. rewrite E. split; [by apply (Hpass c g)|done].
Qed.

(** A command either fails before anything is handed over, or hands over one
    outcome. *)
Definition one_outcome (L : Log) (x : Coordinator * Result unit) : Prop :=
  exists g L', coord_inv L' x.1 g /\ ((L' = L /\ exists e, x.2 = Err e) \/ exists r, L' = L ++ [r]).

Lemma one_outcome_err L c g e : coord_inv L c g -> one_outcome L (c, Err e).
Proof. intros Hi. exists g, L. split; [done|]. left. split; [done|by exists e]. Qed.

Lemma one_outcome_run L (x : Coordinator * Result unit) c o g r :
  x = (c, o) -> coord_inv (L ++ [r]) c g -> one_outcome L x.
Proof. intros -> Hi. exists g, (L ++ [r]). split; [done|]. right. by exists r. Qed.

Lemma persisting_passes L c g a g' t :
  persisting L c g /\ frozen_transaction (state c) = t -> promises a g' -> passes g g' ->
  persisting L (c <| arena := a |>) g' /\ frozen_transaction (state (c <| arena := a |>)) = t.
Proof. intros [[Hr Hi] Ht] Ha Hp. split; [|done]. split; [by eapply ready_passes|done]. Qed.

Lemma persisting_arena L c g t :
  persisting L c g /\ frozen_transaction (state c) = t -> promises (arena c) g.
Proof. intros [[[Hi _] _] _]. apply Hi. Qed.

Lemma persisting_inv L c g : persisting L c g -> coord_inv L c g.
Proof. intros [[Hi _] _]. exact Hi. Qed.

(** From the counter's value to the losses to commit. *)
Lemma prevalidate_run L c g t (k : PrevalidatedLossCommit -> CoM unit) retention n :
  (persisting L c g /\ frozen_transaction (state c) = t) /\ n = p_dropped g ->
  (forall commit, commit_for (state c) g retention n commit -> one_outcome L (k commit c)) ->
  one_outcome L (bind get_state (fun s => bind (lift (prevalidate_loss_commit s n retention)) k) c).
Proof.
  intros [[Hp Ht] ->] Hk. unfold get_state. rewrite bind_gets.
  pose proof (b_ack _ _ _ (ci_books _ _ _ (persisting_inv _ _ _ Hp))) as Hack.
  pose proof (prevalidate_ok (state c) g retention ltac:(lia)) as Hv.
  destruct (prevalidate_loss_commit _ _ _) as [commit|e|]; msteps; [by apply Hk| |done].
  by apply (one_outcome_err L c g), persisting_inv.
Qed.

Lemma step_kind_consumes (step : @PublicationStep I) range t losses w :
  consumes range losses (committed_ref (step_kind step range t losses) w).
Proof. by destruct step. Qed.

(** Reads the counter, and commits and delivers a published transaction. *)
Lemma commit_published L c g t kind message deliver :
  persisting L c g /\ frozen_transaction (state c) = Some t -> records deliver ->
  (forall losses w, consumes (absolute_range (t_frozen t)) losses (committed_ref (kind t losses) w)) ->
  one_outcome L
    (bind (on_arena arena_cumulative_dropped) (fun cumulative => bind get_state (fun s =>
      bind (lift (prevalidate_loss_commit s cumulative (t_retention_lost_frames t))) (fun commit =>
        commit_and_deliver (absolute_range (t_frozen t)) cumulative commit kind message deliver))) c).
Proof.
  intros H Hdel Hkind.
  eapply (triple_chain _ _ _ _ _ (one_outcome L));
    [apply (dropped_ok (fun c g => persisting L c g /\ frozen_transaction (state c) = Some t) (coord_inv L));
       [intros ? ? Hx; by eapply persisting_arena|intros; by eapply persisting_passes]|exact H| |].
  2:{ intros. by eapply one_outcome_err. }
  intros n c1 g1 H1. eapply prevalidate_run; [exact H1|]. intros commit Hc.
  destruct H1 as [[[Hr Hi] Ht] _].
  destruct (commit_and_deliver_ok L c1 g1 t n commit kind message deliver Hr Ht Hi Hc Hkind Hdel)
    as (c2 & o & g2 & r & E & H2). by eapply one_outcome_run.
Qed.

(** Commits and delivers the losses when there is no new audio. *)
Lemma commit_losses_only L c g deliver :
  persisting L c g /\ frozen_transaction (state c) = None -> records deliver ->
  one_outcome L
    (bind (on_arena arena_cumulative_dropped) (fun cumulative => bind get_state (fun s =>
      bind (lift (prevalidate_loss_commit s cumulative 0)) (fun commit =>
        bind (commit_losses cumulative commit) (fun losses => deliver (NoNewAudio losses))))) c).
Proof.
  intros H Hdel.
  eapply (triple_chain _ _ _ _ _ (one_outcome L));
    [apply (dropped_ok (fun c g => persisting L c g /\ frozen_transaction (state c) = None) (coord_inv L));
       [intros ? ? Hx; by eapply persisting_arena|intros; by eapply persisting_passes]|exact H| |].
  2:{ intros. by eapply one_outcome_err. }
  intros n c1 g1 H1. eapply prevalidate_run; [exact H1|]. intros commit Hc.
  destruct H1 as [[[Hr _] Ht] _].
  destruct (no_new_audio_ok L c1 g1 n commit deliver Hr Ht Hc Hdel) as (c2 & o & r & E & H2).
  by eapply one_outcome_run.
Qed.

(** An indeterminate publication is kept for the next command. *)
Lemma keep_indeterminate L c g t cleanup :
  persisting L c g -> frozen_transaction (state c) = Some t ->
  coord_inv L (c <| state ::= (fun s => s <| indeterminate_publication := Some cleanup |>) |>) g.
Proof.
  intros [([Hb Hcl Hs Hin] & Hpc & Hpr & Hcp) Hi] Ht.
  constructor; [by destruct Hb; constructor| |done|].
  - apply clear_none; [done|]. unfold clear_open in Hcl. by rewrite Hpc in Hcl.
  - intros _. cbn. by rewrite Ht.
Qed.

Ltac chain H HP := eapply (triple_chain _ _ _ _ _ (one_outcome _)); [apply H|exact HP| |eassumption].

Lemma persist_ok L c g request deliver :
  coord_inv L c g -> records deliver -> one_outcome L (persist_policy_with_delivery request deliver c).
Proof.
  intros Hi Hdel. unfold persist_policy_with_delivery.
  assert (forall c' g' (e : LambError), coord_inv L c' g' -> one_outcome L (c', Err e)) as Herr
    by (intros; by eapply one_outcome_err).
  chain finish_ok Hi. intros [] c1 g1 H1. chain bind_arena_ok H1. intros [] c2 g2 H2.
  chain recover_pending_clear_ok H2. intros b c3 g3 H3. chain reconcile_ok H3. intros [] c4 g4 H4.
  chain recovery_accounting_ok H4. intros acc c5 g5 H5. chain recover_indeterminate_ok H5.
  intros recovered c6 g6 ([Hr Ho] & Hin & Hrec). destruct recovered.
  - destruct acc as [[n commit]|]; [|by specialize (Hrec eq_refl)]. destruct Ho as (t & Ht & Hcommit).
    unfold get_state. rewrite bind_gets, Ht. cbn [ok_or unwrap]. msteps.
    destruct (commit_and_deliver_ok L c6 g6 t n commit (kind_written (absolute_range (t_frozen t)))
      "recovered completion lost its frozen transaction" deliver Hr Ht Hin Hcommit) as (c7 & o & g7 & r & E & H7);
      [done|done|]. by eapply one_outcome_run.
  - pose proof (conj Hr Hin : persisting L c6 g6) as Hp6. chain ensure_frozen_ok Hp6.
    intros [t|] c7 g7 H7; [|exact (commit_losses_only L c7 g7 deliver H7 Hdel)]. chain prepare_and_publish_ok H7.
    intros [t' step] c8 g8 (H8 & Ht' & [He _]). cbn [fst] in *. rewrite <-He.
    destruct (_ || _); msteps; [by apply (Herr c8 g8), persisting_inv|].
    destruct step as [| | |e|operation cleanup];
      [by eapply commit_published; [split|..|intros; apply step_kind_consumes]..| |].
    + by apply (Herr c8 g8), persisting_inv.
    + rewrite (bind_run _ _ _ _ _ (set_state_run _ _)). apply (Herr _ g8). by eapply keep_indeterminate.
Qed.

(** *** Clearing *)

(** The coordinator while its clear is with the arena. *)
Lemma clear_submitted L c g acc :
  ready L c g -> indeterminate_publication (state c) = None -> clear_accounting c = Ok acc ->
  (forall a' g', promises a' g' -> p_head g <= p_head g' -> p_dropped g <= p_dropped g' ->
     (p_asked g' = p_asked g \/ p_asked g' = None) -> (p_clear g' = None \/ p_clear g' = Some acc) ->
     coord_inv L (c <| state ::= (fun s => s <| next_clear_id := acc_clear_id acc |>
                                             <| pending_clear := Some (new_pending_clear c acc) |>) |>
                  <| arena := a' |>) g')
  /\ 0 <= expected_active_start acc <= p_head g
  /\ 0 <= pending_retention_lost_frames acc /\ 0 <= pending_cleared_frames acc.
Proof.
  intros ([Hb Hcl Hs Hin] & Hpc & Hpr & Hcp) Hi Hacc.
  set (s1 := (state c) <| next_clear_id := acc_clear_id acc |> <| pending_clear := Some (new_pending_clear c acc) |>).
  assert (pending_ok s1 (new_pending_clear c acc)) as Hok.
  { unfold clear_accounting in Hacc. unfold pending_ok, new_pending_clear. cbn [pc_accounting pc_frozen_end].
    change (frozen_transaction s1) with (frozen_transaction (state c)).
    destruct (frozen_transaction (state c)) as [t|] eqn:Et; ok_steps; subst acc; cbn.
    - destruct (b_frozen _ _ _ Hb t Et) as [(T1 & T2 & T3) _].
      pose proof (law_bounds _ _ (b_arena _ _ _ Hb)). pose proof (b_cursor _ _ _ Hb).
      unfold checked_loss_add in *. ok_steps.
      repeat match goal with H : add_checked _ _ = Some _ |- _ => apply add_checked_inv in H as [-> ?] end.
      rewrite wrap64_small by (unfold is_u64; lia). done.
    - done. }
  assert (books L (c <| state := s1 |>) g) as Hb1 by (destruct Hb; by constructor).
  pose proof (pending_totals L (c <| state := s1 |>) g (new_pending_clear c acc) Hb1 Hok) as (T1 & T2 & T3 & _).
  change (pc_accounting (new_pending_clear c acc)) with acc in *.
  pose proof (b_cursor _ _ _ Hb). change (cursor (state (c <| state := s1 |>))) with (cursor (state c)) in T3.
  split; [|lia]. intros a' g' Ha Hh Hd Hk Hg. change (coord_inv L (c <| state := s1 |> <| arena := a' |>) g'). constructor.
  - pose proof (b_ack _ _ _ Hb). destruct Hb1 as [B1 B2 B3 B4 B5 B6 B7 B8 B9].
    constructor; cbn [client arena state update] in *; try done; try lia.
    + intros t Ht. destruct (B8 t Ht) as [(? & ? & ?) Hn]. rewrite Hn in Hk.
      split; [unfold transaction_ok in *; cbn zeta in *; cbn in *; lia|by destruct Hk].
    + destruct Hk as [->| ->]; [done|by left].
  - cbn. split; [exact Hg|done].
  - left. destruct Hs as [Hs|(_ & (? & ? & S2) & _)]; [done|congruence].
  - cbn. by rewrite Hi.
Qed.

(** A clear that did not happen leaves no record. *)
Lemma forget_clear L c g :
  coord_inv L c g -> p_clear g = None ->
  coord_inv L (c <| state ::= (fun s => s <| pending_clear := None |>) |>) g.
Proof. intros [[] ? ? ?] Hg. by constructor; [constructor|..]. Qed.

Lemma ready_settled L c g : ready L c g -> settled (state c).
Proof.
  intros ([_ _ Hs _] & _ & _ & Hc). destruct Hs as [Hs|(_ & (? & ? & S2) & _)]; [done|congruence].
Qed.

(** Submits the clear and commits its report. *)
Lemma submit_clear_ok L c g acc :
  ready L c g -> indeterminate_publication (state c) = None -> clear_accounting c = Ok acc ->
  exists g',
    match (set_state (fun s => s <| next_clear_id := acc_clear_id acc |>
                                 <| pending_clear := Some (new_pending_clear c acc) |>) ;;
           let! report := catch (on_arena (arena_clear_active_accounted acc)) in
           match report with
           | Ok report =>
               validate_clear_report report ;;
               commit_clear_report report ;;
               let! _ := catch recover_pending_release in
               ret tt
           | Err error =>
               (if clear_may_happen error then ret tt
                else set_state (fun s => s <| pending_clear := None |>)) ;;
               fail error
           | Panic => panic
           end) c with
    | (c', Panic) => False
    | (c', _) => coord_inv L c' g'
    end.
Proof.
  intros Hr Hi Hacc. destruct (clear_submitted L c g acc Hr Hi Hacc) as (Hsub & He & H1 & H2).
  pose proof Hr as (Hinv & Hpc & _ & Hcp). pose proof (ready_settled _ _ _ Hr) as Hs.
  pose proof (no_clear_promise _ _ _ (conj Hinv Hpc)) as Hg.
  rewrite (bind_run _ _ _ _ _ (set_state_run _ _)). set (c1 := c <| state := _ |>).
  destruct (law_clear (arena c) g acc (b_arena _ _ _ (ci_books _ _ _ Hinv)) Hg He H1 H2)
    as (a' & o & g' & E & Ha' & Hh & Hd & Hk & Ho).
  assert (catch (@on_arena A W I Log _ (arena_clear_active_accounted acc)) c1 = (c1 <| arena := a' |>, Ok o)) as E1.
  { unfold catch. rewrite (on_arena_run _ c1 _ _ E). by destruct o. }
  rewrite (bind_run _ _ _ _ _ E1). set (c2 := c1 <| arena := a' |>).
  assert ((p_clear g' = None \/ p_clear g' = Some acc) -> coord_inv L c2 g') as Hi2.
  { intros Hg2. by apply Hsub. }
  destruct o as [report|e|]; [| |done].
  - destruct Ho as (Hk' & Hg' & Hrep). specialize (Hi2 (or_introl Hg')).
    rewrite <-bind_bind.
    destruct (take_report_ok L c2 g' (new_pending_clear c acc) report Hi2 eq_refl Hg' Hk' Hrep)
      as (c3 & o & E3 & Ho3 & Hi3 & Hp3).
    rewrite (bind_run _ _ _ _ _ E3). destruct o as [[]|e|]; [|by exists g'|done]. destruct Hp3 as [Hp3 Hs3].
    destruct (release_settled L c3 g' (conj (conj Hi3 Hp3) Hs3)) as [g4 H4].
    unfold catch, bind. destruct (recover_pending_release c3) as [c4 [x|e|]]; [| |done]; rewrite ret_run.
    + exists g4. apply H4.
    + exists g4. apply H4.
  - exists g'. destruct (clear_may_happen e) eqn:Em; msteps.
    + apply Hi2. tauto.
    + rewrite (bind_run _ _ _ _ _ (set_state_run _ _)). destruct Ho as [Ho|[_ Ho]]; [|congruence].
      apply (forget_clear L c2 g'); [apply Hi2; by left|done].
Qed.

Lemma release_nothing L c g : ready L c g -> recover_pending_release c = (c, Ok tt).
Proof.
  intros (_ & Hp & Hr & Hc). unfold recover_pending_release, get_state. msteps.
  rewrite Hp. cbn [is_some]. msteps. rewrite Hr. msteps. by rewrite Hc.
Qed.

Lemma clear_accounting_total (c : Coordinator) : clear_accounting c <> Panic.
Proof.
  unfold clear_accounting. destruct (add_checked _ _); cbn; [|done].
  destruct (frozen_transaction _) as [t|]; [|done].
  unfold checked_loss_add. destruct (add_checked _ (t_retention_lost_frames t)); cbn; [|done].
  by destruct (add_checked _ _).
Qed.

Lemma clear_in_order_ok L : triple (coord_inv L) clear_in_order (fun _ => coord_inv L) (coord_inv L).
Proof.
  eapply triple_bind; [apply bind_arena_ok|]. intros [].
  eapply triple_bind; [apply recover_pending_clear_ok|]. intros recovered.
  eapply triple_bind; [apply reconcile_ok|]. intros []. destruct recovered.
  { intros c g (Hi & _). by exists g. }
  intros c g Hr. pose proof Hr as (Hi & _). unfold get_state. rewrite bind_gets.
  destruct (indeterminate_publication (state c)) eqn:Ei; cbn [is_some]; msteps; [by exists g|].
  rewrite (bind_run _ _ _ _ _ (release_nothing _ _ _ Hr)). msteps.
  pose proof (clear_accounting_total c).
  destruct (clear_accounting c) as [acc|e|] eqn:Ea; [|exists g; by msteps|done]. rewrite bind_lift_Ok.
  destruct (submit_clear_ok L c g acc Hr Ei Ea) as [g' H']. exists g'. revert H'.
  destruct (bind _ _ c) as [c' [[]|e|]]; done.
Qed.

(** *** Commands *)

(** A command of the control plane; the caller's delivery records the outcome and
    then answers as the verdict says, or panics. *)
Inductive Command :=
  | Persist (request : PolicyPersistenceRequest) (verdict : CommittedPersistenceRef O -> Result unit)
  | ClearCommand.

Definition recording (verdict : CommittedPersistenceRef O -> Result unit) (r : CommittedPersistenceRef O) : CoM unit :=
  modify (fun c => c <| client ::= (fun l => l ++ [r]) |>) ;;
  lift (verdict r).

Definition run_command (cmd : Command) : CoM unit :=
  match cmd with
  | Persist request verdict => persist_policy_with_delivery request (recording verdict)
  | ClearCommand => clear_in_order
  end.

(** The session after the commands, whatever came of each. *)
Fixpoint run_commands (cmds : list Command) (c : Coordinator) : Coordinator :=
  match cmds with
  | [] => c
  | cmd :: cmds' => run_commands cmds' (run_command cmd c).1
  end.

Lemma recording_records verdict : records (recording verdict).
Proof. intros r c. eexists. reflexivity. Qed.

Definition new_session (id : Z) (d : FrozenExportDecision) (a : A) (w : W) : Coordinator :=
  mkSession id (with_frozen_decision d) a w [].

Lemma new_session_inv id d a w g :
  promises a g -> p_asked g = None -> p_clear g = None -> coord_inv [] (new_session id d a w) g.
Proof.
  intros Ha Hk Hg. pose proof (law_bounds _ _ Ha). constructor; [|done|by left|done].
  constructor; try done; try (cbn; lia). by left.
Qed.

Lemma run_command_inv L c g cmd :
  coord_inv L c g ->
  exists g' L', coord_inv L' (run_command cmd c).1 g' /\ (L' = L \/ exists r, L' = L ++ [r]).
Proof.
  intros Hi. destruct cmd as [request verdict|]; cbn [run_command].
  - destruct (persist_ok L c g request (recording verdict) Hi (recording_records verdict))
      as (g' & L' & Hi' & H). exists g', L'. split; [done|]. destruct H as [[-> _]|H]; [by left|by right].
  - destruct (clear_in_order_ok L c g Hi) as [g' H]. exists g', L.
    destruct (clear_in_order c) as [c' [[]|e|]]; [| |done]; (split; [done|by left]).
Qed.

Lemma run_commands_inv cmds L c g :
  coord_inv L c g -> exists g' L', coord_inv L' (run_commands cmds c) g'.
Proof.
  revert L c g. induction cmds as [|cmd cmds IH]; intros L c g Hi; [by exists g, L|].
  destruct (run_command_inv L c g cmd Hi) as (g' & L' & Hi' & _). by eapply IH.
Qed.

(** C7. Every frame of the stream is accounted for exactly once. After any
    sequence of recalls, dumps and clears, with any failures, timeouts and panics
    of the deliveries between them, the delivered outcomes tile the stream from
    its first frame on: each reports the frames lost and cleared since the
    previous one and then hands over the range that follows them. They reach the
    cursor, apart from the losses that the state still holds for the next
    outcome, and the drops that they report add up to the drops acknowledged. *)
Theorem dump_accounts_every_frame cmds id d a w g :
  promises a g -> p_asked g = None -> p_clear g = None ->
  let c := run_commands cmds (new_session id d a w) in
  accounts 0 (client c)
    (cursor (state c) - pending_retention_lost (state c) - pending_cleared (state c))
  /\ 0 <= pending_retention_lost (state c) /\ 0 <= pending_cleared (state c)
  /\ dropped_total (client c) = acknowledged_dropped_frames (state c).
Proof.
  intros Ha Hk Hg c.
  destruct (run_commands_inv cmds _ _ _ (new_session_inv id d a w g Ha Hk Hg)) as (g' & L' & [Hb _ _ _]).
  fold c in Hb. pose proof (b_log _ _ _ Hb) as <-. pose proof (b_pending _ _ _ Hb).
  split; [apply Hb|]. split; [lia|]. split; [lia|apply Hb].
Qed.

End coordinator_theorems.
