(* ===== verification/DumpArena.v ===== *)
(** * The capture arena keeps the laws that the dump coordinator relies on

    The calls of [CaptureClient] discharge the interface of [DumpSpec]: whatever
    the worker, the producers and the other clients do during the calls, and
    whichever calls time out. *)
From S2P Require Import Prelude.
From S2P Require Import Errors.
From S2P Require Import MemoryPlan.
From S2P Require Import SampleRing.
From S2P Require Import RingSpec.
From S2P Require Import IngressQueue.
From S2P Require Import IngressSpec.
From S2P Require Import CalibrationCapture.
From S2P Require Import CaptureWorker.
From S2P Require Import WorkerSpec.
From S2P Require Import CaptureClient.
From S2P Require Import CaptureClientSpec.
From S2P Require Import Activity.
From S2P Require Import ExportPattern.
From S2P Require Import ExportPaths.
From S2P Require Import DumpCoordinator.
From S2P Require Import DumpSpec.

(** ** The calls of the capture arena *)

Definition arena_promises (a : CaptureArena) (g : Promise) : Prop :=
  open_arena a (p_asked g) (p_clear g) /\ p_head g = absolute_head (shared a) /\
  p_dropped g = cumulative_dropped_frames (queue (shared a)).

(** The promises of an arena in which [asked] and [cl] are open. *)
Definition promise_of (a : CaptureArena) (asked : option (option Z)) (cl : option CaptureClearAccounting)
    : Promise :=
  mkPromise (absolute_head (shared a)) asked cl (cumulative_dropped_frames (queue (shared a))).

Lemma promise_holds a asked cl : open_arena a asked cl -> arena_promises a (promise_of a asked cl).
Proof. by split. Qed.

Lemma since_passes a a' g asked cl :
  arena_promises a g -> since a a' -> closes (p_asked g) asked -> closes (p_clear g) cl ->
  passes g (promise_of a' asked cl).
Proof. intros (_ & H1 & H2) (S1 & S2 & _) Hc1 Hc2. unfold passes. cbn. by split_and!; [lia|lia|..]. Qed.

Lemma arena_bounds a g :
  arena_promises a g -> 0 <= p_head g <= u64_max /\ 0 <= p_dropped g <= u64_max.
Proof.
  intros ([[[Hr _] _] _] & -> & ->).
  destruct (rn_inv _ Hr) as (H & ra & rs & ba & bs & hs & V).
  pose proof (wv_head _ _ _ _ _ _ _ V). pose proof (wv_base _ _ _ _ _ _ _ V).
  pose proof (view_positions _ _ _ _ _ _ _ V).
  destruct (rn_queue _ Hr) as [log Hq]. destruct (q_counters _ _ Hq) as (_ & _ & Hc). unfold is_u64 in Hc. lia.
Qed.

Lemma kept_one a oc asked cl : kept a oc asked cl -> cl <> None -> asked = None.
Proof.
  unfold kept. destruct (recovered_frozen a), (recovered_clear a), oc as [[]|]; try done; intuition congruence.
Qed.

(** The outcomes of a freeze and of a clear. *)
Lemma freeze_outcome cs asked asked' cl' o head :
  asked = None \/ asked = Some cs ->
  (exists e, o = Err e /\ closes asked asked' /\ closes None cl') \/
  (exists asked1 cl1, closes asked asked1 /\ closes None cl1 /\
     call_post COMMAND_KIND_FREEZE (fun c => exists t, c = Freeze t cs) asked1 asked' cl1 cl' o head) ->
  o <> Panic ->
  cl' = None /\
  match o with
  | Ok reply => asked' = None /\ exists d, reply = Frozen d /\ forall d', d = Some d' -> freeze_for cs d' head
  | _ => asked' = None \/ asked' = Some cs
  end.
Proof.
  intros Hask H Hn.
  assert (forall asked, asked = None \/ asked = Some cs -> closes asked asked' -> asked' = None \/ asked' = Some cs)
    as Hclose by (intros x [->| ->] [->| ->]; auto).
  destruct H as [(e & -> & Hc1 & [->| ->])|(asked1 & cl1 & Hc1 & Hc2 & H)]; [by eauto..|].
  assert (asked1 = None \/ asked1 = Some cs) as Ha1 by (destruct Hc1 as [->| ->]; auto).
  assert (cl1 = None) as -> by (by destruct Hc2).
  destruct H as [(e & -> & Hc3 & [->| ->])|[(-> & -> & H)|(-> & c & [t ->] & [= -> ->])]]; [by eauto..| |by auto].
  split; [done|]. destruct o as [reply|e|]; [|by left|done]. split; [done|].
  assert (exists t, answers (Freeze t cs) (Ok reply) head) as [t Hans].
  { destruct H as [(c & Hk & Hans & Hcs & _)|(c & [t ->] & Hans)]; [|by exists t].
    destruct c as [t cs'|t i g0|t i acc|t|t]; try done. specialize (Hcs t cs' eq_refl).
    assert (cs' = cs) as -> by (destruct Ha1; congruence). by exists t. }
  destruct reply as [[d|]| | | |]; try done; eexists; (split; [done|]); [by intros ? [= <-]|done].
Qed.

Lemma arena_freeze_law a g cs :
  arena_promises a g -> (p_asked g = None \/ p_asked g = Some cs) -> p_clear g = None ->
  0 <= default 0 cs <= p_head g ->
  exists a' o g', freeze_since cs a = (a', o) /\ arena_promises a' g'
    /\ p_head g <= p_head g' /\ p_dropped g <= p_dropped g' /\ p_clear g' = None
    /\ match o with
       | Ok (Some f) => p_asked g' = None /\
           default 0 cs <= (absolute_range f).1 /\
           (absolute_range f).1 < (absolute_range f).2 <= p_head g'
       | Ok None => p_asked g' = None
       | Err _ => p_asked g' = None \/ p_asked g' = Some cs
       | Panic => False
       end.
Proof.
  intros (Ho & Hh & Hd) Hask Hcl Hcs. rewrite Hcl in Ho.
  destruct (execute_command_ok a (p_asked g) None COMMAND_KIND_FREEZE (fun _ t => Freeze t cs)
    (fun c => exists t, c = Freeze t cs) Ho) as (a' & o & asked' & cl' & E & (S1 & S2 & S3) & O' & Hn & H').
  { done. }
  { intros q l t h _ Hle. split; [done|]. split; [cbn; lia|]. by exists t. }
  destruct (freeze_outcome cs _ _ _ _ _ Hask H' Hn) as [-> Hout].
  unfold freeze_since. rewrite (bind_run _ _ _ _ _ E).
  pose proof (promise_holds a' asked' None O') as Hg.
  assert (p_head g <= absolute_head (shared a') /\
    p_dropped g <= cumulative_dropped_frames (queue (shared a'))) as [Hle1 Hle2] by lia.
  destruct o as [reply|e|]; [destruct Hout as (-> & d & -> & Hd')| |done].
  - rewrite bind_get, ret_run. eexists _, _, _. split; [done|]. split; [exact Hg|].
    split; [done|]. split; [done|]. split; [done|]. destruct d as [d|]; cbn [option_map]; [|done].
    split; [done|]. exact (Hd' d eq_refl).
  - eexists _, _, _. split; [done|]. split; [exact Hg|]. by split_and!.
Qed.

Lemma clear_outcome acc asked asked' cl' o head :
  (exists e, o = Err e /\ closes asked asked' /\ closes None cl') \/
  (exists asked1 cl1, closes asked asked1 /\ closes None cl1 /\
     call_post COMMAND_KIND_CLEAR (fun c => exists t i, c = Clear t i acc) asked1 asked' cl1 cl' o head) ->
  o <> Panic ->
  closes asked asked' /\
  match o with
  | Ok reply => asked' = None /\ cl' = None /\ exists r, reply = Cleared r /\ report_for acc r head
  | Err e => cl' = None \/ (cl' = Some acc /\ e = timed_out)
  | Panic => False
  end.
Proof.
  intros H Hn. destruct H as [(e & -> & Hc1 & [->| ->])|(asked1 & cl1 & Hc1 & Hc2 & H)]; [by auto..|].
  assert (cl1 = None) as -> by (by destruct Hc2).
  destruct H as [(e & -> & Hc3 & [->| ->])|[(-> & -> & H)|(-> & c & (t & i & ->) & [= -> ->])]];
    [split; [exact (closes_trans _ _ _ Hc1 Hc3)|by left].. | |split; [by right|by right]].
  split; [by right|]. destruct o as [reply|e|]; [|by left|done]. split; [done|]. split; [done|].
  assert (exists t i, answers (Clear t i acc) (Ok reply) head) as (t & i & Hans).
  { destruct H as [(c & Hk & Hans & _ & Hacc)|(c & (t & i & ->) & Hans)]; [|by exists t, i].
    destruct c as [t cs'|t i g0|t i acc'|t|t]; try done. by specialize (Hacc t i acc' eq_refl). }
  destruct reply; try done. by eexists.
Qed.

Lemma arena_clear_law a g acc :
  arena_promises a g -> p_clear g = None ->
  0 <= expected_active_start acc <= p_head g ->
  0 <= pending_retention_lost_frames acc -> 0 <= pending_cleared_frames acc ->
  exists a' o g', clear_active_accounted acc a = (a', o) /\ arena_promises a' g'
    /\ p_head g <= p_head g' /\ p_dropped g <= p_dropped g'
    /\ (p_asked g' = p_asked g \/ p_asked g' = None)
    /\ match o with
       | Ok report => p_asked g' = None /\ p_clear g' = None /\ report_for acc report (p_head g')
       | Err e => p_clear g' = None \/ p_clear g' = Some acc /\ clear_may_happen e = true
       | Panic => False
       end.
Proof.
  intros Hg Hcl He H1 H2. pose proof Hg as (Ho & Hh & Hd). rewrite Hcl in Ho.
  unfold clear_active_accounted. msteps.
  destruct (negb _); msteps.
  { eexists _, _, g. split; [done|]. split; [exact Hg|]. by split_and!; [lia|lia|left|left]. }
  destruct (execute_command_ok a (p_asked g) None COMMAND_KIND_CLEAR (fun q t => Clear t (dropped_frames q) acc)
    (fun c => exists t i, c = Clear t i acc) Ho) as (a' & o & asked' & cl' & E & (S1 & S2 & S3) & O' & Hn & H').
  { done. }
  { intros q l t h Hq Hle. split; [done|]. destruct (q_counters _ _ Hq) as (_ & Hu & _). unfold is_u64 in Hu.
    split; [cbn; lia|]. by eexists _, _. }
  destruct (clear_outcome _ _ _ _ _ _ H' Hn) as [Hc Hout]. rewrite (bind_run _ _ _ _ _ E).
  pose proof (promise_holds a' asked' cl' O') as Hg'.
  assert (p_head g <= absolute_head (shared a') /\
    p_dropped g <= cumulative_dropped_frames (queue (shared a'))) as [Hle1 Hle2] by lia.
  destruct o as [reply|e|]; [destruct Hout as (-> & -> & r & -> & Hr)| |done].
  - rewrite ret_run. eexists _, _, _. split; [done|]. split; [exact Hg'|]. by split_and!.
  - eexists _, _, _. split; [done|]. split; [exact Hg'|]. split_and!; try done. cbn.
    destruct Hout as [->|[-> ->]]; [by left|by right].
Qed.

(** *** Giving an epoch back *)

Lemma release_result a asked :
  open_arena a asked None ->
  forall index generation, exists a' o asked' cl',
    catch (lock_command_client ;;
           let! recovered := recover_before COMMAND_KIND_RELEASE in
           match recovered with
           | Some result => ret result
           | None => catch (submit_locked COMMAND_KIND_RELEASE (fun _ target => Release target index generation))
           end) a = (a', Ok o) /\ since a a' /\ open_arena a' asked' cl' /\ closes asked asked' /\
    closes None cl' /\ o <> Panic /\ o <> Ok Panic.
Proof.
  intros Ho index generation. destruct (lock_ok a asked None Ho) as (a1 & o & asked1 & cl1 & E & S1 & O1 & Hc1 & Hc2 & Hr).
  assert (cl1 = None) as -> by (by destruct Hc2).
  unfold catch at 1. unfold bind at 1. rewrite E. destruct Hr as [-> | ->].
  2:{ eexists _, _, asked1, None. do 4 (split; [done|]). split; [by left|done]. }
  destruct O1 as [Hp Hs].
  destruct (recover_before_ok a1 COMMAND_KIND_RELEASE _ asked1 None Hp)
    as (a2 & o & E2 & L2 & asked2 & cl2 & Hc3 & Hc4 & H2).
  assert (cl2 = None) as -> by (by destruct Hc4).
  assert (closes asked asked2) as Hc by exact (closes_trans _ _ _ Hc1 Hc3).
  assert (since a a2) as S2 by (trans a1; [done|by apply later_since]).
  unfold bind at 1. rewrite E2. pose proof L2 as (_ & _ & _ & Hsch).
  destruct o as [[result|]|e|]; [| | |done].
  - destruct H2 as (Hfree & _ & _ & c & _ & Ha & _). eexists _, _, asked2, None. split; [done|]. split; [done|].
    split; [apply (open_promised a1); [by apply free_promised|done|done]|].
    split; [done|]. split; [by left|]. split; [done|]. intros [= ->]. done.
  - destruct H2 as (Hfree & Hf & Hcl). destruct (free_kept _ _ _ _ Hfree Hf (Hcl ltac:(done))) as [-> _].
    rewrite <-Hsch in Hfree, Hs.
    destruct (submit_call_ok a2 None None COMMAND_KIND_RELEASE (fun _ target => Release target index generation)
      (fun c => exists t, c = Release t index generation) Hfree Hs Hf (Hcl ltac:(done)) eq_refl I ltac:(by eexists))
      as (a3 & o & asked3 & cl3 & E3 & S3 & O3 & Hn & H3).
    unfold catch. rewrite E3.
    assert (asked3 = None /\ cl3 = None) as [-> ->].
    { destruct H3 as [(_ & _ & [->| ->] & [->| ->])|[(-> & -> & _)|(_ & c & (t & ->) & [= -> ->])]]; done. }
    destruct o as [reply|e|]; [| |done]; eexists _, _, None, None; (split; [done|]);
      (split; [by trans a2|]);
      (split; [done|]); (split; [by right|]); (split; [by left|]); done.
  - eexists _, _, asked2, None. split; [done|]. split; [done|].
    split; [by apply (open_promised a1)|]. split; [done|]. split; [by left|done].
Qed.

Lemma arena_release_law a g f :
  arena_promises a g -> p_clear g = None ->
  exists a' f' r g', release_frozen f a = (a', Ok (f', r)) /\ arena_promises a' g' /\ passes g g' /\ r <> Panic.
Proof.
  intros Hg Hcl. pose proof Hg as (Ho & _). rewrite Hcl in Ho. unfold release_frozen. msteps.
  destruct (negb (runtime_id a =? epoch_runtime_id f)).
  { rewrite ret_run. eexists _, _, _, g. by split_and!. }
  destruct (epoch_released f).
  { rewrite ret_run. eexists _, _, _, g. by split_and!. }
  destruct (release_result a _ Ho (desc_index (epoch_descriptor f)) (desc_generation (epoch_descriptor f)))
    as (a' & o & asked' & cl' & E & S & O' & Hc1 & Hc2 & Hn1 & Hn2).
  rewrite (bind_run _ _ _ _ _ E). exists a'.
  assert (arena_promises a' (promise_of a' asked' cl') /\ passes g (promise_of a' asked' cl')) as [Hg' Hp].
  { split; [by apply promise_holds|]. eapply since_passes; [done|done|done|by rewrite Hcl]. }
  assert (forall (f' : FrozenCaptureEpoch) (r : Result unit), r <> Panic -> exists f'' r' g', ((a', Ok (f', r)) : CaptureArena * Result _) =
    (a', Ok (f'', r')) /\ arena_promises a' g' /\ passes g g' /\ r' <> Panic) as Hdone
    by (intros f' r Hr; by eexists _, _, _).
  destruct o as [[reply|e|]|e|]; [| |done| |done].
  - rewrite ret_run. by destruct reply; apply Hdone.
  - rewrite bind_get, ret_run. by apply Hdone.
  - rewrite ret_run. by apply Hdone.
Qed.

Lemma arena_dropped_law a g :
  arena_promises a g ->
  exists a' g', cumulative_capture_dropped_frames a = (a', Ok (p_dropped g')) /\ arena_promises a' g' /\ passes g g'.
Proof.
  intros Hg. pose proof Hg as (Ho & _).
  destruct (next_schedule_ok _ _ _ Ho) as (a' & s & asked' & cl' & E & S & Hp & _ & Hf & Hc1 & Hc2).
  unfold cumulative_capture_dropped_frames. rewrite (bind_run _ _ _ _ _ E). 
  exists a', (promise_of a' asked' cl'). split; [done|]. split.
  - apply promise_holds. split; [|done]. eapply promised_less; [exact Hp|].
    pose proof (turns_nonneg (events s)). pose proof (all_turns_nonneg (schedules a')). lia.
  - by eapply since_passes.
Qed.

(** *** Asking for the report of a clear again *)

(** Taking the retained report. *)
Lemma take_report a asked cl report :
  open_arena a asked cl -> recovered_clear a = Some report ->
  open_arena (a <| recovered_clear := None |>) None None /\
  exists acc, cl = Some acc /\ report_for acc report (absolute_head (shared a)).
Proof.
  intros [[Ha (oc & Hp & Hab & Hk)] Hs] Hr.
  unfold kept in Hk. rewrite Hr in Hk. destruct (recovered_frozen a) eqn:Hf; [done|].
  assert (asked = None /\ (exists acc, cl = Some acc /\ report_for acc report (absolute_head (shared a))) /\
    kept (a <| recovered_clear := None |>) oc None None) as (-> & Hacc & Hk').
  { unfold kept. cbn. rewrite Hf. destruct oc as [[]|]; try done; destruct Hk as (-> & Hk); by split_and!. }
  split; [|done]. split; [|exact Hs]. split; [exact Ha|]. by exists oc.
Qed.

Lemma arena_recover_law a g r :
  arena_promises a g -> (forall acc, p_clear g = Some acc -> recovery_of acc r) ->
  exists a' o g', recover_clear_result r a = (a', o) /\ arena_promises a' g' /\ passes g g'
    /\ match o with
       | Ok (Some report) => p_clear g' = None /\
           exists acc, p_clear g = Some acc /\ report_for acc report (p_head g')
       | Ok None => p_clear g' = None
       | Err _ => True
       | Panic => False
       end.
Proof.
  intros Hg _. pose proof Hg as (Ho & _). unfold recover_clear_result. msteps.
  destruct (negb (rec_arena_runtime_id r =? runtime_id a)); msteps; [by eexists _, _, g|].
  destruct (lock_ok _ _ _ Ho) as (a1 & o & asked1 & cl1 & E & S1 & O1 & Hc1 & Hc2 & Hr).
  rewrite (bind_run _ _ _ _ _ E).
  assert (forall a2 (asked2 : option (option Z)) cl2, since a1 a2 -> open_arena a2 asked2 cl2 -> closes asked1 asked2 ->
    closes cl1 cl2 -> arena_promises a2 (promise_of a2 asked2 cl2) /\ passes g (promise_of a2 asked2 cl2)) as Hdone.
  { intros a2 asked2 cl2 S2 O2 Hc3 Hc4. split; [by apply promise_holds|].
    eapply since_passes; [done|by trans a1|by eapply closes_trans|by eapply closes_trans]. }
  destruct (Hdone a1 asked1 cl1 (reflexivity _) O1 ltac:(by left) ltac:(by left)) as [Hg1 Hp1].
  destruct Hr as [-> | ->]; [|by eexists _, _, _].
  msteps. destruct (recovered_clear a1) as [report|] eqn:Erc.
  - destruct (matches r report); cbn [negb]; msteps; [|by eexists _, _, _]. rewrite ret_run.
    destruct (take_report _ _ _ _ O1 Erc) as [O2 (acc & -> & Hrep)].
    destruct (Hdone (a1 <| recovered_clear := None |>) None None) as [Hg2 Hp2];
      [by unfold since|done|by right|by right|].
    eexists _, _, _. split; [done|]. split; [exact Hg2|]. split; [done|]. split; [done|].
    exists acc. split; [|exact Hrep]. by destruct Hc2.
  - pose proof O1 as [[Ha (oc & Hp & Hab & Hk)] Hs]. unfold slot_state.
    destruct oc as [c|].
    2:{ inversion Hp as [Hst| |]. rewrite Hst. change (COMMAND_IDLE =? COMMAND_IDLE) with true. cbv iota.
        rewrite ret_run. eexists _, _, _. split; [done|]. split; [exact Hg1|]. split; [done|]. cbn.
        unfold kept in Hk. rewrite Erc in Hk. destruct (recovered_frozen a1); intuition. }
    assert ((cmd_state (CaptureWorker.command (shared a1)) =? COMMAND_IDLE) = false /\
      cmd_kind (CaptureWorker.command (shared a1)) = kind_of c) as [-> Hkind]
      by (inversion Hp as [|? Hst|? ? Hst]; subst; by rewrite Hst).
    rewrite (Hab ltac:(done)), Hkind. cbn [negb orb].
    destruct (kind_of c =? COMMAND_KIND_CLEAR) eqn:Ek; cbn [negb]; msteps; [|by eexists _, _, _].
    assert (recovered_frozen a1 = None) as Hrf.
    { unfold kept in Hk. rewrite Erc in Hk. by destruct (recovered_frozen a1). }
    destruct c as [ | |t i acc| |]; try done.
    pose proof Hk as Hk0. unfold kept in Hk0. rewrite Erc, Hrf in Hk0. destruct Hk0 as [-> ->].
    assert (p_clear g = Some acc) as Hcl by (by destruct Hc2).
    destruct (wait_ok a1 (Clear t i acc) _ Ha Hp) as (a2 & o & Ew & R2 & L2 & [Cf Cc] & H2).
    pose proof (later_since _ _ L2) as S2. rewrite Hrf in Cf. rewrite Erc in Cc.
    assert (schedules a2 = schedules a1) as Hsch by apply L2.
    rewrite (bind_run _ _ _ _ _ Ew). destruct o as [result|e|]; [|destruct H2 as (-> & Hab2 & P2)|done].
    + destruct H2 as [Hans P2].
      assert (open_arena a2 None None) as O2.
      { apply (open_promised a1); [|done|done]. by apply free_promised, CaptureClientSpec.free_of. }
      destruct (Hdone a2 None None S2 O2) as [Hg2 Hp2]; [by left|by right|].
      destruct result as [reply|e|]; msteps; [|by eexists _, _, _|done].
      destruct reply as [| |report| |]; try done. destruct (matches r report).
      * rewrite ret_run. eexists _, _, _. split; [done|]. split; [exact Hg2|]. split; [done|]. split; [done|].
        exists acc. split; [done|exact Hans].
      * msteps. rewrite fail_run. set (a3 := a2 <| recovered_clear := Some report |>).
        assert (open_arena a3 None (Some acc)) as O3.
        { apply (open_promised a1); [|done|done]. apply free_promised. split; [exact R2|]. split; [exact P2|].
          unfold kept. cbn. rewrite Cf. split; [done|]. by exists acc. }
        destruct (Hdone a3 None (Some acc) S2 O3) as [Hg3 Hp3]; [by left|by left|]. by eexists _, _, _.
    + assert (open_arena a2 None (Some acc)) as O2.
      { apply (open_promised a1); [|done|done]. split; [done|]. exists (Some (Clear t i acc)). split; [done|].
        split; [done|]. unfold kept. by rewrite Cf, Cc. }
      destruct (Hdone a2 None (Some acc) S2 O2) as [Hg2 Hp2]; [by left|by left|]. by eexists _, _, _.
Qed.

Lemma arena_one a g : arena_promises a g -> p_clear g <> None -> p_asked g = None.
Proof. intros (([_ (oc & _ & _ & Hk)] & _) & _) Hcl. by eapply kept_one. Qed.

#[export] Instance capture_arena_laws : ArenaLaws CaptureArena := {
  promises := arena_promises;
  law_bounds := arena_bounds;
  law_one := arena_one;
  law_freeze := arena_freeze_law;
  law_release := arena_release_law;
  law_clear := arena_clear_law;
  law_recover := arena_recover_law;
  law_dropped := arena_dropped_law;
}.
