(* ===== verification/DumpExamples.v ===== *)
(** * A session of the dump coordinator at the capture arena

    The theorems of [DumpTheorems] at [CaptureArena]: a mono worker, a push that
    overruns its ring, a recall, a clear that times out and is recovered by the
    next recall, and a dump whose delivery panics. *)
From S2P Require Import Prelude.
From S2P Require Import Errors.
From S2P Require Import MemoryPlan.
From S2P Require Import SampleRing.
From S2P Require Import CalibrationTheorems.
From S2P Require Import IngressQueue.
From S2P Require Import IngressSpec.
From S2P Require Import CalibrationCapture.
From S2P Require Import CaptureWorker.
From S2P Require Import WorkerSpec.
From S2P Require Import WorkerTheorems.
From S2P Require Import CaptureClient.
From S2P Require Import CaptureClientSpec.
From S2P Require Import Activity.
From S2P Require Import ExportPattern.
From S2P Require Import ExportPaths.
From S2P Require Import DumpCoordinator.
From S2P Require Import DumpSpec.
From S2P Require Import DumpTheorems.
From S2P Require Import DumpArena.

(** ** A workspace that publishes at once *)

Definition prompt_prepare (_ : CaptureArena) (_ : FrozenCaptureEpoch) (_ : PolicyPersistenceRequest)
    (d : FrozenExportDecision) : M unit LambError (FrozenExportDecision * Result (PreparedPersistence unit)) :=
  ret (d, Ok (FileSetPrepared unit tt)).

#[export] Instance prompt_ops : WorkspaceOps CaptureArena unit unit unit unit := {
  finish_completed_publication := ret tt;
  recover_publication := fun p => ret (p, Ok Complete);
  prepare := prompt_prepare;
  publish_prepared := fun _ => ret Published;
  completed_output := fun _ => tt;
}.

#[export] Instance prompt_laws : WorkspaceLaws CaptureArena unit unit unit unit.
Proof.
  split; [done|..]; cbn; intros; unfold prompt_prepare; rewrite ret_run; by repeat eexists.
Defined.

(** ** The schedule *)

Definition samples_of (l : list Z) : list f32 := map sample_of_Z l.
Definition turn : WorkerEvent := Turn 0.

Definition session_schedules : list CallSchedule := [
  (* a recall: the freeze, the drop counter, the release *)
  mkSchedule [[Push (samples_of [1; 2; 3; 4; 5; 6; 7]) 1; turn]] true [turn; turn; turn];
  mkSchedule [] true [];
  mkSchedule [] true [turn];
  (* a clear whose answer comes too late *)
  mkSchedule [[Push (samples_of [8; 9; 10]) 1; turn]] true [];
  (* a recall: the clear is recovered and nothing is new *)
  mkSchedule [] true [turn; turn];
  mkSchedule [] true [turn];
  mkSchedule [] true [];
  (* a dump whose freeze comes too late, and another one *)
  mkSchedule [[Push (samples_of [11; 12]) 1; turn]] true [turn];
  mkSchedule [] true [turn];
  mkSchedule [] true [];
  mkSchedule [] true [turn]
].

Definition session_arena : CaptureArena := mkArena worker0 None None 7 [] session_schedules.

Definition plain_decision : FrozenExportDecision := mkExportDecision [] (0, 0) 100 false None 1.

Definition plain_request (command : ExportCommand) : PolicyPersistenceRequest :=
  DumpCoordinator.mkRequest command preview_policy "" "" "".

Definition session_commands : list (@Command unit) := [
  Persist (plain_request Recall) (fun _ => Ok tt);
  ClearCommand;
  Persist (plain_request Recall) (fun _ => Ok tt);
  Persist (plain_request Dump) (fun _ => Ok tt);
  Persist (plain_request Dump) (fun _ => Panic)
].

Definition session_start : Session CaptureArena unit unit (list (CommittedPersistenceRef unit)) :=
  new_session 3 plain_decision session_arena tt.

Definition session_log : list (CommittedPersistenceRef unit) :=
  Eval vm_compute in client (run_commands session_commands session_start).

(** Each outcome continues where the one before it ended: four frames lost to the
    ring, three cleared. *)
Example session_outcomes :
  map (fun r => match r with
                | Written range _ _ l _ => (retention_lost_frames l, cleared_frames l, Some range)
                | _ => (retention_lost_frames (losses_of r), cleared_frames (losses_of r), None)
                end) session_log =
  [(4, 0, Some (4, 7)); (0, 3, None); (0, 0, Some (10, 12))].
Proof. reflexivity. Qed.

(** ** The theorems at this session *)

Definition session_promise : Promise := mkPromise 0 None None 0.

Lemma small_queue_ok : queue_ok small_queue [].
Proof.
  destruct (new_queue_ok (H := small_platform) 2 4 1 small_queue) as [H _]; try (unfold u32_max; lia); [by vm_compute|done].
Qed.

Lemma session_promised : promises session_arena session_promise.
Proof.
  split; [|done]. destruct (started_inv worker0 worker0_started) as [Hi _]. split.
  - split.
    + split; [constructor; [by exists []|done|exists []; exact small_queue_ok|done]|].
      split; [constructor|]. split; [vm_compute; discriminate|by vm_compute].
    + exists None. split; [by apply pending_idle|]. by split.
  - repeat constructor; vm_compute; discriminate.
Qed.

Lemma dump_accounts_every_frame_witness :
  accounts 0 session_log 12 /\ 0 <= 0 /\ 0 <= 0 /\ dropped_total session_log = 0.
Proof.
  exact (dump_accounts_every_frame session_commands 3 plain_decision session_arena tt session_promise
    session_promised eq_refl eq_refl).
Defined.

