(* ===== verification/FileSystem.v ===== *)
(** * The file system (std::fs on Linux)

    Recovery works on a tree of files, directories and symbolic links. A node is
    found by the names on the way to it from the root. Calls take the text of a
    path, as the operating system does, so symbolic links on the way are
    followed. Any call may fail without an effect: [faults] says which ones do,
    and a crash is a run whose later calls all fail. *)
From stdpp Require Export gmap.
From S2P Require Import Prelude.
From S2P Require Import Errors.
From S2P Require Import Paths.

#[global] Open Scope string_scope.
#[global] Open Scope list_scope.
#[global] Open Scope Z_scope.
#[global] Open Scope lamb_scope.

(** ** Nodes *)

(** [FileIdentity]: the device and inode of a node. *)
Record FileIdentity := mkIdentity { device : Z; inode : Z }.

#[export] Instance FileIdentity_eq_dec : EqDecision FileIdentity.
Proof. solve_decision. Defined.

Inductive NodeKind :=
  | RegularFile (content : string)
  | Directory
  | Symlink (target : string)
  | Special.

#[export] Instance NodeKind_eq_dec : EqDecision NodeKind.
Proof. solve_decision. Defined.

(** What [fs::Metadata] shows of a node, with its content. *)
Record Node := mkNode { identity_from_metadata : FileIdentity; node_kind : NodeKind }.

#[export] Instance Node_eq_dec : EqDecision Node.
Proof. solve_decision. Defined.

Definition is_symlink (n : Node) : bool := match node_kind n with Symlink _ => true | _ => false end.
Definition is_file (n : Node) : bool := match node_kind n with RegularFile _ => true | _ => false end.
Definition is_dir (n : Node) : bool := match node_kind n with Directory => true | _ => false end.

(** The names from the root to a node. *)
Abbreviation Key := (list string).

(** What a call did; the newest effect comes first. *)
Inductive Effect :=
  | Synced (identity : FileIdentity)
  | Removed (key : Key) (node : Node)
  | Created (key : Key) (identity : FileIdentity)
  | Written (identity : FileIdentity)
  | Renamed (from to : Key).

Record FileSystem := mkFileSystem {
  tree : gmap Key Node;
  working_directory : Key;
  faults : list bool;
  effects : list Effect;
}.

#[export] Instance FileSystem_eta : Eta FileSystem := fun r =>
  mkFileSystem (tree r) (working_directory r) (faults r) (effects r).

(** ** Errors and calls *)

(** [io::Error] by its kind; [Fault] stands for every kind that has no meaning
    for the caller (permissions, a failing device). *)
Inductive IoError :=
  | NotFound | NotADirectory | IsADirectory | DirectoryNotEmpty | ResourceBusy | FilesystemLoop
  | AlreadyExists | WriteZero | InvalidInput (message : string) | InvalidData (message : string) | Fault.

#[export] Instance IoError_eq_dec : EqDecision IoError.
Proof. solve_decision. Defined.

Definition describe (e : IoError) : string :=
  match e with
  | NotFound => "No such file or directory"
  | NotADirectory => "Not a directory"
  | IsADirectory => "Is a directory"
  | DirectoryNotEmpty => "Directory not empty"
  | ResourceBusy => "Device or resource busy"
  | FilesystemLoop => "Too many levels of symbolic links"
  | AlreadyExists => "File exists"
  | WriteZero => "failed to write whole buffer"
  | InvalidInput message => message
  | InvalidData message => message
  | Fault => "Input/output error"
  end.

Abbreviation FS := (M FileSystem IoError).

(** A call takes the next fault; a call that fails has no effect. *)
Definition syscall {A} (m : FS A) : FS A :=
  let! fs := get in
  match faults fs with
  | [] => m
  | fault :: rest => modify (fun fs => fs <| faults := rest |>) ;; if fault then fail Fault else m
  end.

(** ** Paths of the operating system *)

(** Empty and [.] parts stay in the directory that the walk has reached. *)
Definition os_part (part : string) : Component :=
  if String.eqb part "" then CurDir
  else if String.eqb part "." then CurDir
  else if String.eqb part ".." then ParentDir
  else Normal part.

Definition os_components (path : string) : list Component :=
  (if is_absolute path then [RootDir] else []) ++ map os_part (split_slash path).

Section walk.
Context (nodes : gmap Key Node).

(** The node that a path names, from a directory that exists. At most [links]
    symbolic links are followed, the last component only if [follow] is set. *)
Fixpoint walk (links : nat) (follow : bool) : Key -> list Component -> outcome IoError Key :=
  fix go (dir : Key) (rest : list Component) : outcome IoError Key :=
  match rest with
  | [] => Ok dir
  | RootDir :: r => go [] r
  | CurDir :: r => go dir r
  | ParentDir :: r => go (removelast dir) r
  | Normal name :: r =>
      let key := dir ++ [name] in
      let last := match r with [] => true | _ => false end in
      if last && negb follow then Ok key
      else
        match nodes !! key with
        | None => if last then Ok key else Err NotFound
        | Some n =>
            match node_kind n with
            | Directory => go key r
            | Symlink target =>
                match links with
                | O => Err FilesystemLoop
                | S links' => walk links' follow dir (os_components target ++ r)
                end
            | _ => if last then Ok key else Err NotADirectory
            end
        end
  end.
End walk.

Definition MAXSYMLINKS : nat := 40.

Definition resolve (follow : bool) (path : string) (fs : FileSystem) : outcome IoError Key :=
  if contains nul path then Err (InvalidInput "file name contained an unexpected NUL byte")
  else if String.eqb path "" then Err NotFound
  else walk (tree fs) MAXSYMLINKS follow (working_directory fs) (os_components path).

Definition find_node (follow : bool) (path : string) : FS (Key * Node) :=
  let! fs := get in
  let! key := lift (resolve follow path fs) in
  match tree fs !! key with
  | Some n => ret (key, n)
  | None => fail NotFound
  end.

(** ** Calls *)

(** [fs::symlink_metadata] and [fs::metadata] *)
Definition symlink_metadata (path : string) : FS Node :=
  syscall (let! x := find_node false path in ret x.2).

Definition metadata (path : string) : FS Node :=
  syscall (let! x := find_node true path in ret x.2).

(** An [OpenOptions] read with [O_NOFOLLOW]; the descriptor is the node. *)
Definition open_nofollow (path : string) : FS Node :=
  syscall (let! x := find_node false path in
           if is_symlink x.2 then fail FilesystemLoop else ret x.2).

(** The same with [O_DIRECTORY]. *)
Definition open_directory_nofollow (path : string) : FS Node :=
  syscall (let! x := find_node false path in
           if is_dir x.2 then ret x.2 else fail NotADirectory).

(** [File::metadata] and [File::sync_all] of an open node. *)
Definition file_metadata (file : Node) : FS Node := syscall (ret file).

Definition sync_all (file : Node) : FS unit :=
  syscall (modify (fun fs => fs <| effects ::= cons (Synced (identity_from_metadata file)) |>)).

Definition file_content (file : Node) : string :=
  match node_kind file with RegularFile content => content | _ => "" end.

(** [File::read] at an offset into a buffer with room for [count] bytes. *)
Definition file_read (file : Node) (offset count : Z) : FS string :=
  syscall (if is_dir file then fail IsADirectory
           else ret (String.substring (Z.to_nat offset) (Z.to_nat count) (file_content file))).

Definition remove_key (key : Key) (n : Node) (fs : FileSystem) : FileSystem :=
  fs <| tree ::= delete key |> <| effects ::= cons (Removed key n) |>.

(** [fs::remove_file] *)
Definition remove_file (path : string) : FS unit :=
  syscall (let! x := find_node false path in
           if is_dir x.2 then fail IsADirectory else modify (remove_key x.1 x.2)).

(** The name of [key] in the directory [dir]. *)
Definition name_in (dir key : Key) : option string :=
  match reverse key with
  | name :: up => if decide (reverse up = dir) then Some name else None
  | [] => None
  end.

Definition children (nodes : gmap Key Node) (dir : Key) : list string :=
  base.omap (fun x => name_in dir x.1) (map_to_list nodes).

(** [fs::remove_dir] *)
Definition remove_dir (path : string) : FS unit :=
  syscall (let! x := find_node false path in
           let! fs := get in
           if negb (is_dir x.2) then fail NotADirectory
           else if bool_decide (x.1 = []) then fail ResourceBusy
           else if bool_decide (children (tree fs) x.1 = []) then modify (remove_key x.1 x.2)
           else fail DirectoryNotEmpty).

(** [fs::read_dir]: the paths of the entries. Each step of the iteration is a
    call of its own, [next_entry]. *)
Definition read_dir (path : string) : FS (list string) :=
  syscall (let! x := find_node true path in
           let! fs := get in
           if is_dir x.2 then ret (map (path_join path) (children (tree fs) x.1))
           else fail NotADirectory).

Definition next_entry (entry : string) : FS string := syscall (ret entry).

(** ** Calls as equations

    [next] is the state after a call that had no effect. *)
Definition next (fs : FileSystem) : FileSystem := fs <| faults ::= tail |>.
Definition fault_now (fs : FileSystem) : bool := match faults fs with b :: _ => b | [] => false end.

Definition lookup_at (fs : FileSystem) (path : string) : outcome IoError (Key * Node) :=
  let? key := resolve false path fs in
  match tree fs !! key with Some n => Ok (key, n) | None => Err NotFound end.

Lemma next_tree fs : tree (next fs) = tree fs.
Proof. done. Qed.
Lemma next_effects fs : effects (next fs) = effects fs.
Proof. done. Qed.
Lemma lookup_next fs path : lookup_at (next fs) path = lookup_at fs path.
Proof. done. Qed.
Lemma next_no_faults fs : faults fs = [] -> faults (next fs) = [].
Proof. cbn. by intros ->. Qed.
Lemma no_fault_now fs : faults fs = [] -> fault_now fs = false.
Proof. unfold fault_now. by intros ->. Qed.

Lemma syscall_run {A} (m : FS A) fs :
  syscall m fs = if fault_now fs then (next fs, Err Fault) else m (next fs).
Proof.
  unfold syscall, fault_now, next. rewrite bind_get. destruct (faults fs) as [|b l] eqn:E.
  - f_equal. destruct fs; cbn in *. by subst.
  - rewrite bind_modify. unfold update; cbn. rewrite E. by destruct b.
Qed.

Lemma find_node_run path fs : find_node false path fs = (fs, lookup_at fs path).
Proof.
  unfold find_node, lookup_at. rewrite bind_get. unfold bind, lift.
  destruct (resolve false path fs) as [k|e|]; cbn; [|done|done]. by destruct (tree fs !! k).
Qed.

Lemma symlink_metadata_run path fs :
  symlink_metadata path fs = (next fs, if fault_now fs then Err Fault else omap snd (lookup_at fs path)).
Proof.
  unfold symlink_metadata. rewrite syscall_run. destruct (fault_now fs); [done|].
  rewrite (bind_run _ _ _ _ _ (find_node_run path (next fs))), lookup_next.
  by destruct (lookup_at fs path) as [[k n]|e|].
Qed.

Lemma remove_file_run path fs :
  remove_file path fs =
    if fault_now fs then (next fs, Err Fault)
    else match lookup_at fs path with
         | Ok (k, n) => if is_dir n then (next fs, Err IsADirectory) else (remove_key k n (next fs), Ok tt)
         | Err e => (next fs, Err e)
         | Panic => (next fs, Panic)
         end.
Proof.
  unfold remove_file. rewrite syscall_run. destruct (fault_now fs); [done|].
  rewrite (bind_run _ _ _ _ _ (find_node_run path (next fs))), lookup_next.
  destruct (lookup_at fs path) as [[k n]|e|]; [|done|done]. cbn. by destruct (is_dir n).
Qed.

Lemma remove_dir_run path fs :
  remove_dir path fs =
    if fault_now fs then (next fs, Err Fault)
    else match lookup_at fs path with
         | Ok (k, n) =>
             if negb (is_dir n) then (next fs, Err NotADirectory)
             else if bool_decide (k = []) then (next fs, Err ResourceBusy)
             else if bool_decide (children (tree fs) k = []) then (remove_key k n (next fs), Ok tt)
             else (next fs, Err DirectoryNotEmpty)
         | Err e => (next fs, Err e)
         | Panic => (next fs, Panic)
         end.
Proof.
  unfold remove_dir. rewrite syscall_run. destruct (fault_now fs); [done|].
  rewrite (bind_run _ _ _ _ _ (find_node_run path (next fs))), lookup_next.
  destruct (lookup_at fs path) as [[k n]|e|]; [|done|done]. rewrite bind_get. cbn.
  repeat case_match; done.
Qed.

Lemma open_nofollow_run path fs :
  open_nofollow path fs =
    (next fs, if fault_now fs then Err Fault
              else let? x := lookup_at fs path in
                   if is_symlink x.2 then Err FilesystemLoop else Ok x.2).
Proof.
  unfold open_nofollow. rewrite syscall_run. destruct (fault_now fs); [done|].
  rewrite (bind_run _ _ _ _ _ (find_node_run path (next fs))), lookup_next.
  destruct (lookup_at fs path) as [[k n]|e|]; [|done|done]. cbn. by destruct (is_symlink n).
Qed.

Lemma open_directory_nofollow_run path fs :
  open_directory_nofollow path fs =
    (next fs, if fault_now fs then Err Fault
              else let? x := lookup_at fs path in if is_dir x.2 then Ok x.2 else Err NotADirectory).
Proof.
  unfold open_directory_nofollow. rewrite syscall_run. destruct (fault_now fs); [done|].
  rewrite (bind_run _ _ _ _ _ (find_node_run path (next fs))), lookup_next.
  destruct (lookup_at fs path) as [[k n]|e|]; [|done|done]. cbn. by destruct (is_dir n).
Qed.

Lemma file_metadata_run file fs :
  file_metadata file fs = (next fs, if fault_now fs then Err Fault else Ok file).
Proof. unfold file_metadata. rewrite syscall_run. by destruct (fault_now fs). Qed.

Definition synced (i : FileIdentity) (fs : FileSystem) : FileSystem := fs <| effects ::= cons (Synced i) |>.

Lemma sync_all_run file fs :
  sync_all file fs =
    if fault_now fs then (next fs, Err Fault) else (synced (identity_from_metadata file) (next fs), Ok tt).
Proof. unfold sync_all. rewrite syscall_run. by destruct (fault_now fs). Qed.

(** ** Trees *)

(** Every node but the root lies in a directory. *)
Definition wf_tree (nodes : gmap Key Node) : Prop :=
  forall k name, nodes !! (k ++ [name]) <> None -> exists d, nodes !! k = Some d /\ is_dir d = true.

(** No symbolic link lies at [key] or above it. *)
Definition clear (nodes : gmap Key Node) (key : Key) : Prop :=
  forall p n, p `prefix_of` key -> nodes !! p = Some n -> is_symlink n = false.

Lemma wf_prefix nodes k l :
  wf_tree nodes -> nodes !! (k ++ l) <> None -> l <> [] ->
  exists d, nodes !! k = Some d /\ is_dir d = true.
Proof.
  intros Hw. revert k. induction l as [|x l IH] using rev_ind; intros k Hl Hn; [done|].
  rewrite app_assoc in Hl. destruct (Hw _ _ Hl) as (d & Hd & Hdir).
  destruct l as [|y l]; [rewrite app_nil_r in Hd; eauto|]. apply IH; [by rewrite Hd|done].
Qed.

(** The names of an absolute path without dots. *)
Definition canonical (path : string) (names : Key) : Prop :=
  components path = RootDir :: map Normal names.

(** The components of the operating system are those of [std::path], with the
    empty and [.] parts in between. *)
Inductive spells : list Component -> Key -> Prop :=
  | spells_nil : spells [] []
  | spells_cur l names : spells l names -> spells (CurDir :: l) names
  | spells_name l names name : spells l names -> spells (Normal name :: l) (name :: names).

Lemma os_part_component p :
  part_component false p = match os_part p with CurDir => [] | c => [c] end.
Proof.
  unfold part_component, os_part. destruct (String.eqb p ""); [done|].
  destruct (String.eqb p "."); [done|]. by destruct (String.eqb p "..").
Qed.

Lemma spells_parts parts names :
  inner_components parts = map Normal names -> spells (map os_part parts) names.
Proof.
  revert names. induction parts as [|p parts IH]; intros names.
  { destruct names; [constructor|done]. }
  change (inner_components (p :: parts)) with (part_component false p ++ inner_components parts).
  rewrite os_part_component. cbn [map]. unfold os_part.
  destruct (String.eqb p ""); [cbn; intros H; constructor; by apply IH|].
  destruct (String.eqb p "."); [cbn; intros H; constructor; by apply IH|].
  destruct (String.eqb p ".."); cbn; destruct names as [|n names]; cbn; intros H; try done.
  injection H as <- H. constructor. by apply IH.
Qed.

Lemma canonical_os path names :
  canonical path names -> exists l, os_components path = RootDir :: l /\ spells l names.
Proof.
  unfold canonical, os_components. intros H. destruct (is_absolute path) eqn:E.
  - rewrite components_absolute in H by done. injection H as H. eexists. split; [done|]. by apply spells_parts.
  - unfold components in H. rewrite E in H. cbn in H. destruct (split_slash path) as [|p ps]; [done|].
    cbn in H. unfold part_component in H.
    assert (inner_components ps <> RootDir :: map Normal names) as Hi.
    { clear. revert names. induction ps as [|q ps IH]; intros names; [done|].
      change (inner_components (q :: ps)) with (part_component false q ++ inner_components ps).
      unfold part_component. destruct (String.eqb q ""); [apply IH|]. destruct (String.eqb q "."); [apply IH|].
      by destruct (String.eqb q ".."). }
    exfalso. destruct (String.eqb p ""); [by eapply Hi|]. destruct (String.eqb p "."); [done|].
    by destruct (String.eqb p "..").
Qed.

(** No symbolic link lies above [key]. *)
Definition clear_above (nodes : gmap Key Node) (key : Key) : Prop :=
  forall p n, p `prefix_of` key -> p <> key -> nodes !! p = Some n -> is_symlink n = false.

Lemma spells_blank l : spells l [] -> l <> [] -> last l = Some CurDir.
Proof.
  intros H. remember [] as names eqn:E. induction H as [|l names H IH|]; [done| |done].
  intros _. subst. destruct l as [|c l]; [done|]. rewrite last_cons_cons. by apply IH.
Qed.

(** Where a walk along names ends. The last node may be a symbolic link if the
    path ends with its name. *)
Lemma walk_names nodes links l names dir :
  spells l names -> wf_tree nodes ->
  (forall p n, p `prefix_of` names -> p <> [] -> p <> names \/ last l = Some CurDir ->
               nodes !! (dir ++ p) = Some n -> is_symlink n = false) ->
  match walk nodes links false dir l with
  | Ok k => k = dir ++ names
  | Err NotFound => nodes !! (dir ++ names) = None
  | Err _ => True
  | Panic => False
  end.
Proof.
  intros Hs Hw. revert dir. induction Hs as [|l names Hs IH|l names name Hs IH]; intros dir Hc.
  - destruct links; cbn; by rewrite app_nil_r.
  - assert (match walk nodes links false dir l with
            | Ok k => k = dir ++ names | Err NotFound => nodes !! (dir ++ names) = None
            | Err _ => True | Panic => False end); [|by destruct links].
    apply IH. intros p n Hp Hne Hl. apply Hc; [done|done|]. destruct Hl as [|Hl]; [by left|right].
    destruct l as [|c l]; [done|]. by rewrite last_cons_cons.
  - assert (forall d, nodes !! (dir ++ [name]) = Some d -> node_kind d = Directory -> l <> [] ->
      match walk nodes links false (dir ++ [name]) l with
      | Ok k => k = dir ++ name :: names
      | Err NotFound => nodes !! (dir ++ name :: names) = None
      | Err _ => True
      | Panic => False
      end) as Hgo.
    { intros d _ _ Hl. specialize (IH (dir ++ [name])). rewrite <-app_assoc in IH. cbn in IH.
      apply IH. intros p n Hp Hne Hlast. rewrite <-app_assoc. apply (Hc (name :: p)); [by apply prefix_cons|done|].
      destruct l; [done|]. rewrite last_cons_cons. destruct Hlast as [Hne'|]; [left; congruence|by right]. }
    assert (nodes !! (dir ++ [name]) = None -> nodes !! (dir ++ name :: names) = None) as Hnone.
    { intros Hn. destruct (nodes !! (dir ++ name :: names)) eqn:E; [|done].
      destruct names as [|x names]; [congruence|].
      destruct (wf_prefix nodes (dir ++ [name]) (x :: names) Hw) as (d & Hd & _); [|done|congruence].
      rewrite <-app_assoc. cbn. by rewrite E. }
    assert (l <> [] -> [name] <> name :: names \/ last (Normal name :: l) = Some CurDir) as Hlast.
    { intros Hl. destruct names; [right|by left]. destruct l; [done|]. rewrite last_cons_cons. by apply spells_blank. }
    specialize (Hc [name]). destruct links; cbn [walk]; destruct l as [|c l]; cbn [andb negb].
    1,3: inversion Hs; subst; cbn; done.
    all: destruct (nodes !! (dir ++ [name])) as [d|] eqn:Ed; [|by apply Hnone].
    all: assert (is_symlink d = false) as Hd
           by (apply Hc; [by apply prefix_cons, prefix_nil|done|by apply Hlast|done]).
    all: unfold is_symlink in Hd; destruct (node_kind d) eqn:Ek; try done; by apply (Hgo d).
Qed.

Lemma lookup_names fs path names :
  canonical path names -> wf_tree (tree fs) -> clear_above (tree fs) names ->
  (last (os_components path) = Some CurDir -> clear (tree fs) names) ->
  match lookup_at fs path with
  | Ok (k, n) => k = names /\ tree fs !! names = Some n
  | Err NotFound => tree fs !! names = None
  | Err _ => True
  | Panic => False
  end.
Proof.
  intros Hc Hw Hcl Hlast. unfold lookup_at, resolve. destruct (contains nul path); [done|].
  destruct (String.eqb path "") eqn:Ee; [by apply String.eqb_eq in Ee as ->|].
  destruct (canonical_os _ _ Hc) as (l & Hl & Hs). rewrite Hl in *.
  pose proof (walk_names (tree fs) MAXSYMLINKS l names [] Hs Hw) as H.
  assert (walk (tree fs) MAXSYMLINKS false (working_directory fs) (RootDir :: l) =
          walk (tree fs) MAXSYMLINKS false [] l) as -> by done.
  cbn [app] in H. assert (forall p n, p `prefix_of` names -> p <> [] -> p <> names \/ last l = Some CurDir ->
               tree fs !! p = Some n -> is_symlink n = false) as Hp.
  { intros p n Hp Hne [Hd|Hd] Hn; [by eapply Hcl|]. eapply (Hlast _ p); done. }
  specialize (H Hp). destruct (walk (tree fs) MAXSYMLINKS false [] l) as [k|[]|]; cbn in *; try done.
  rewrite H. by destruct (tree fs !! names) eqn:E.
Unshelve.
  destruct l; [done|]. by rewrite last_cons_cons.
Qed.

Lemma lookup_clear fs path names :
  canonical path names -> wf_tree (tree fs) -> clear (tree fs) names ->
  match lookup_at fs path with
  | Ok (k, n) => k = names /\ tree fs !! names = Some n
  | Err NotFound => tree fs !! names = None
  | Err _ => True
  | Panic => False
  end.
Proof. intros Hc Hw Hcl. apply lookup_names; [done|done| |done]. intros p n Hp _. by apply Hcl. Qed.

Lemma clear_prefix nodes p k : p `prefix_of` k -> clear nodes k -> clear nodes p.
Proof. intros Hp Hc q n Hq. apply Hc. by etrans. Qed.

Lemma clear_subset nodes nodes' k : nodes' ⊆ nodes -> clear nodes k -> clear nodes' k.
Proof. intros Hs Hc p n Hp Hn. eapply Hc; [done|]. by eapply lookup_weaken. Qed.

Lemma name_in_app dir name : name_in dir (dir ++ [name]) = Some name.
Proof. unfold name_in. rewrite reverse_snoc, reverse_involutive. by destruct (decide _). Qed.

Lemma children_nil nodes dir name : children nodes dir = [] -> nodes !! (dir ++ [name]) = None.
Proof.
  intros H. destruct (nodes !! (dir ++ [name])) as [n|] eqn:E; [|done].
  assert (name ∈ children nodes dir) as Hin.
  { unfold children. apply list_elem_of_omap. exists (dir ++ [name], n). split; [by apply elem_of_map_to_list|].
    cbn. apply name_in_app. }
  rewrite H in Hin. by apply not_elem_of_nil in Hin.
Qed.

(** A node may go if nothing lies in it. *)
Definition leaf (nodes : gmap Key Node) (k : Key) : Prop := forall name, nodes !! (k ++ [name]) = None.

Lemma wf_delete nodes k : wf_tree nodes -> leaf nodes k -> wf_tree (delete k nodes).
Proof.
  intros Hw Hl q name Hn. destruct (decide (q ++ [name] = k)) as [<-|Hne].
  { by rewrite lookup_delete_eq in Hn. }
  rewrite lookup_delete_ne in Hn by done. destruct (Hw q name Hn) as (d & Hd & Hdir).
  destruct (decide (k = q)) as [->|]; [by rewrite Hl in Hn|]. exists d. by rewrite lookup_delete_ne.
Qed.

Lemma file_leaf nodes k n : wf_tree nodes -> nodes !! k = Some n -> is_dir n = false -> leaf nodes k.
Proof.
  intros Hw Hn Hd name. destruct (nodes !! (k ++ [name])) eqn:E; [|done].
  destruct (Hw k name) as (d & Hk & Hdir); [by rewrite E|]. congruence.
Qed.

(** ** What a run removes *)

(** The run removed nodes that satisfy [P] and changed nothing else. *)
Record removes_only (P : Key -> Node -> Prop) (fs fs' : FileSystem) : Prop := mkRemovesOnly {
  ro_tree : forall k, tree fs' !! k = tree fs !! k
                      \/ exists n, tree fs !! k = Some n /\ tree fs' !! k = None /\ P k n;
  ro_directory : working_directory fs' = working_directory fs;
  ro_effects : exists l, effects fs' = l ++ effects fs;
  ro_faults : exists l, faults fs = l ++ faults fs';
  ro_wf : wf_tree (tree fs) -> wf_tree (tree fs');
}.

#[export] Instance removes_only_preorder P : PreOrder (removes_only P).
Proof.
  split.
  - intros fs. constructor; [by left|done|by exists []|by exists []|done].
  - intros fs1 fs2 fs3 [T1 D1 [l1 E1] [f1 F1] W1] [T2 D2 [l2 E2] [f2 F2] W2]. constructor.
    + intros k. destruct (T2 k) as [H2|(n & H2 & H2' & HP)]; destruct (T1 k) as [H1|(n1 & H1 & H1' & HP1)].
      * left. congruence.
      * right. exists n1. split; [done|]. split; [congruence|done].
      * right. exists n. split; [congruence|done].
      * congruence.
    + congruence.
    + exists (l2 ++ l1). by rewrite E2, E1, app_assoc.
    + exists (f1 ++ f2). by rewrite F1, F2, app_assoc.
    + auto.
Qed.

Lemma removes_only_weaken (P Q : Key -> Node -> Prop) fs fs' :
  (forall k n, P k n -> Q k n) -> removes_only P fs fs' -> removes_only Q fs fs'.
Proof.
  intros H [T D E F W]. constructor; [|done|done|done|done]. intros k.
  destruct (T k) as [?|(n & ? & ? & ?)]; [by left|]. right. exists n. auto.
Qed.

(** A run that removes nothing. *)
Abbreviation reads_only := (removes_only (fun _ _ => False)).

Lemma reads_only_tree fs fs' : reads_only fs fs' -> tree fs' = tree fs.
Proof.
  intros [T _ _ _ _]. apply map_eq. intros k. by destruct (T k) as [?|(n & _ & _ & [])].
Qed.

Lemma removes_only_subset P fs fs' : removes_only P fs fs' -> tree fs' ⊆ tree fs.
Proof.
  intros [T _ _ _ _]. apply map_subseteq_spec. intros k n Hn.
  destruct (T k) as [<-|(m & _ & H & _)]; [done|congruence].
Qed.

Lemma removes_only_faults P fs fs' : removes_only P fs fs' -> faults fs = [] -> faults fs' = [].
Proof. intros [_ _ _ [l F] _] H. rewrite H in F. by destruct l, (faults fs'). Qed.

Lemma next_removes P fs : removes_only P fs (next fs).
Proof.
  constructor; [by left|done|by exists []| |done]. cbn. destruct (faults fs) as [|b l]; [by exists []|by exists [b]].
Qed.

Lemma remove_key_removes (P : Key -> Node -> Prop) k n fs :
  tree fs !! k = Some n -> P k n -> (wf_tree (tree fs) -> leaf (tree fs) k) ->
  removes_only P fs (remove_key k n fs).
Proof.
  intros Hn HP Hl. constructor; [|done|by exists [Removed k n]|by exists []|intros Hw; by apply wf_delete; [|apply Hl]].
  intros q. cbn. destruct (decide (k = q)) as [<-|].
  - right. exists n. by rewrite lookup_delete_eq.
  - left. by rewrite lookup_delete_ne.
Qed.

Lemma synced_removes P i fs : removes_only P fs (synced i fs).
Proof. constructor; [by left|done|by exists [Synced i]|by exists []|done]. Qed.

Lemma lookup_at_found fs path k n : lookup_at fs path = Ok (k, n) -> tree fs !! k = Some n.
Proof.
  unfold lookup_at. destruct (resolve _ _ _) as [k'|e|]; cbn; [|done|done].
  destruct (tree fs !! k') eqn:E; [|done]. by intros [= <- <-].
Qed.

Lemma keeps_syscall {A} P (m : FS A) : keeps (removes_only P) m -> keeps (removes_only P) (syscall m).
Proof.
  intros Hm fs. rewrite syscall_run. destruct (fault_now fs); [apply next_removes|].
  etrans; [apply next_removes|apply Hm].
Qed.


Lemma keeps_symlink_metadata P path : keeps (removes_only P) (symlink_metadata path).
Proof. apply keeps_syscall. keep_steps. Qed.
Lemma keeps_metadata P path : keeps (removes_only P) (metadata path).
Proof. apply keeps_syscall. keep_steps. Qed.
Lemma keeps_open_nofollow P path : keeps (removes_only P) (open_nofollow path).
Proof. apply keeps_syscall. keep_steps. Qed.
Lemma keeps_open_directory P path : keeps (removes_only P) (open_directory_nofollow path).
Proof. apply keeps_syscall. keep_steps. Qed.
Lemma keeps_file_metadata P file : keeps (removes_only P) (file_metadata file).
Proof. apply keeps_syscall. keep_steps. Qed.
Lemma keeps_sync_all P file : keeps (removes_only P) (sync_all file).
Proof. apply keeps_syscall. keep_steps. apply synced_removes. Qed.
Lemma keeps_file_read P file offset count : keeps (removes_only P) (file_read file offset count).
Proof. apply keeps_syscall. keep_steps. Qed.
Lemma keeps_read_dir P path : keeps (removes_only P) (read_dir path).
Proof. apply keeps_syscall. keep_steps. Qed.
Lemma keeps_next_entry P entry : keeps (removes_only P) (next_entry entry).
Proof. apply keeps_syscall. keep_steps. Qed.

Create HintDb files discriminated.
#[export] Hint Constants Opaque : files.
#[export] Hint Resolve keeps_symlink_metadata keeps_metadata keeps_open_nofollow keeps_open_directory
  keeps_file_metadata keeps_sync_all keeps_file_read keeps_read_dir keeps_next_entry : files.

Lemma walk_no_panic nodes links follow dir l : walk nodes links follow dir l <> Panic.
Proof.
  revert dir l. induction links as [|links IHl]; intros dir l; revert dir.
  all: induction l as [|[| | |name] l IH]; intros dir; [done|apply (IH [])|apply (IH dir)|apply (IH (removelast dir))|].
  all: cbn [walk]; destruct (_ && _); [done|]; destruct (nodes !! (dir ++ [name])) as [n|]; [|by destruct l].
  all: destruct (node_kind n) as [?| |target|]; [by destruct l|apply (IH (dir ++ [name]))| |by destruct l].
  - done.
  - apply IHl.
Qed.

Lemma lookup_no_panic fs path : lookup_at fs path <> Panic.
Proof.
  unfold lookup_at, resolve. destruct (contains nul path); [done|]. destruct (String.eqb path ""); [done|].
  pose proof (walk_no_panic (tree fs) MAXSYMLINKS false (working_directory fs) (os_components path)) as H.
  destruct (walk _ _ _ _ _); cbn; [|done|done]. by case_match.
Qed.

(** What [symlink_metadata] returns. *)
Definition meta (fs : FileSystem) (path : string) : outcome IoError Node :=
  if fault_now fs then Err Fault else omap snd (lookup_at fs path).

Lemma meta_no_panic fs path : meta fs path <> Panic.
Proof.
  unfold meta. destruct (fault_now fs); [done|]. pose proof (lookup_no_panic fs path).
  by destruct (lookup_at fs path) as [[]| |].
Qed.

(** Every node above [key] is a directory. *)
Definition dirs_above (nodes : gmap Key Node) (key : Key) : Prop :=
  forall p n, p `prefix_of` key -> p <> key -> nodes !! p = Some n -> is_dir n = true.

Lemma dirs_above_subset nodes nodes' k : nodes' ⊆ nodes -> dirs_above nodes k -> dirs_above nodes' k.
Proof. intros Hs Hc p n Hp Hne Hn. eapply Hc; [done|done|]. by eapply lookup_weaken. Qed.

(** A path that the operating system resolves to its names. *)
Definition plain (path : string) (names : Key) : Prop :=
  canonical path names /\ contains nul path = false /\ exists x, last (os_components path) = Some (Normal x).

Lemma walk_plain nodes links l names dir :
  spells l names -> (exists x, last l = Some (Normal x)) -> wf_tree nodes ->
  (forall p n, p `prefix_of` names -> p <> [] -> p <> names -> nodes !! (dir ++ p) = Some n -> is_dir n = true) ->
  match walk nodes links false dir l with
  | Ok k => k = dir ++ names
  | Err NotFound => nodes !! (dir ++ names) = None
  | _ => False
  end.
Proof.
  intros Hs Hl Hw. revert dir. induction Hs as [|l names Hs IH|l names name Hs IH]; intros dir Hd.
  - by destruct Hl.
  - assert (exists x, last l = Some (Normal x)) as Hl'.
    { destruct l; [by destruct Hl|]. by rewrite last_cons_cons in Hl. }
    specialize (IH Hl' dir Hd). by destruct links.
  - destruct l as [|c l].
    { inversion Hs; subst. destruct links; cbn; done. }
    assert (exists x, last (c :: l) = Some (Normal x)) as Hl' by by rewrite last_cons_cons in Hl.
    assert (names <> []) as Hne.
    { intros ->. apply spells_blank in Hs; [|done]. destruct Hl'. congruence. }
    specialize (IH Hl' (dir ++ [name])). rewrite <-app_assoc in IH. cbn [app] in IH.
    assert (forall p n, p `prefix_of` names -> p <> [] -> p <> names ->
              nodes !! ((dir ++ [name]) ++ p) = Some n -> is_dir n = true) as Hd'.
    { intros p n Hp H1 H2. rewrite <-app_assoc. apply (Hd (name :: p)); [by apply prefix_cons|done|congruence]. }
    specialize (IH Hd').
    assert (forall n, nodes !! (dir ++ [name]) = Some n -> is_dir n = true) as Hn.
    { intros n. apply (Hd [name]); [by apply prefix_cons, prefix_nil|done|]. intros [= H]. by subst. }
    destruct links; cbn [walk]; cbn [andb negb]; destruct (nodes !! (dir ++ [name])) as [d|] eqn:Ed.
    1,3: specialize (Hn d eq_refl); unfold is_dir in Hn; destruct (node_kind d) eqn:Ek; try done; apply IH.
    all: destruct (nodes !! (dir ++ name :: names)) eqn:E; [|done];
      destruct (wf_prefix nodes (dir ++ [name]) names Hw) as (d & Hdd & _); [|done|congruence];
      rewrite <-app_assoc; cbn; by rewrite E.
Qed.

Lemma lookup_plain fs path names :
  plain path names -> wf_tree (tree fs) -> dirs_above (tree fs) names ->
  lookup_at fs path = match tree fs !! names with Some n => Ok (names, n) | None => Err NotFound end.
Proof.
  intros (Hc & Hnul & x & Hx) Hw Hd. unfold lookup_at, resolve. rewrite Hnul.
  destruct (String.eqb path "") eqn:Ee; [by apply String.eqb_eq in Ee as ->|].
  destruct (canonical_os _ _ Hc) as (l & Hl & Hs). rewrite Hl in *.
  assert (walk (tree fs) MAXSYMLINKS false (working_directory fs) (RootDir :: l) =
          walk (tree fs) MAXSYMLINKS false [] l) as -> by done.
  assert (exists x, last l = Some (Normal x)) as Hl'.
  { destruct l; [done|]. rewrite last_cons_cons in Hx. by exists x. }
  pose proof (walk_plain (tree fs) MAXSYMLINKS l names [] Hs Hl' Hw) as H. cbn [app] in H.
  specialize (H ltac:(intros p n Hp _ Hne; by apply Hd)).
  destruct (walk (tree fs) MAXSYMLINKS false [] l) as [k|[]|]; cbn; try done; by rewrite H.
Qed.

(** Removals make the tree smaller and keep it well formed. *)
Abbreviation shrinks := (removes_only (fun _ _ => True)).

Lemma keeps_remove_file path : keeps shrinks (remove_file path).
Proof.
  intros fs. rewrite remove_file_run. destruct (fault_now fs); [apply next_removes|].
  destruct (lookup_at fs path) as [[k n]|e|] eqn:E; [|apply next_removes|apply next_removes].
  destruct (is_dir n) eqn:Ed; [apply next_removes|]. apply lookup_at_found in E. cbn.
  etrans; [apply next_removes|]. apply remove_key_removes; [done|done|]. intros Hw. by eapply file_leaf.
Qed.

Lemma keeps_remove_dir path : keeps shrinks (remove_dir path).
Proof.
  intros fs. rewrite remove_dir_run. destruct (fault_now fs); [apply next_removes|].
  destruct (lookup_at fs path) as [[k n]|e|] eqn:E; [|apply next_removes|apply next_removes].
  apply lookup_at_found in E. destruct (negb _); [apply next_removes|].
  destruct (bool_decide (k = [])); [apply next_removes|].
  destruct (bool_decide_reflect (children (tree fs) k = [])) as [Hc|]; [|apply next_removes].
  cbn. etrans; [apply next_removes|]. apply remove_key_removes; [done|done|].
  intros _ name. by apply (children_nil _ _ name) in Hc.
Qed.
#[export] Hint Resolve keeps_remove_file keeps_remove_dir : files.
