(* ===== verification/ManifestJson.v ===== *)
(** * The text of a manifest (src/recovery.rs)

    How a manifest is written as JSON and read back into fixed slots and a fixed
    path arena. serde and serde_json are the classes [JsonText] (text and JSON
    values) and [JsonCodec] (the derived and built-in conversions of single
    values); the streaming serializers and visitors of the source are functions
    on JSON values. The theorems: reading a written manifest gives its paths,
    identities, entries and directories back, and what is read fits the slots
    and the arena. *)
From Stdlib Require Import Ascii.
From S2P Require Import Prelude.
From S2P Require Import Errors.
From S2P Require Import Paths.
From S2P Require Import FileSystem.
From S2P Require Import Manifest.

(** ** JSON values *)

(** A string that is read without an escape can be borrowed from the input. *)
Record JsonString := mkJsonString { text : string; borrowed : bool }.

Inductive Json :=
  | JNull
  | JBool (b : bool)
  | JNumber (n : Z)
  | JReal (digits : string)
  | JString (s : JsonString)
  | JArray (l : list Json)
  | JObject (fields : list (JsonString * Json)).

(** serde_json escapes quotes, backslashes and control characters. *)
Definition escaped (c : ascii) : bool :=
  Ascii.eqb c (ascii_of_nat 34) || Ascii.eqb c backslash || (Z.of_N (N_of_ascii c) <? 32).

Fixpoint needs_escape (s : string) : bool :=
  match s with EmptyString => false | String c s' => escaped c || needs_escape s' end.

Definition json_string (s : string) : JsonString := mkJsonString s (negb (needs_escape s)).

(** [serde_json::from_slice] reads a whole text; a [Deserializer] reads the
    first value of it. *)
Class JsonText := {
  from_slice : string -> option Json;
  first_value : string -> option Json;
  to_writer : Json -> string;
}.

Class JsonCodec (A : Type) := {
  to_json : A -> Json;
  of_json : Json -> option A;
}.

Definition opt_to_json `{JsonCodec A} (o : option A) : Json :=
  match o with Some a => to_json a | None => JNull end.

Definition opt_of_json `{JsonCodec A} (j : Json) : option (option A) :=
  match j with JNull => Some None | _ => option_map Some (of_json j) end.

Section json.
Context `{JsonText}.
Context `{JsonCodec Z, JsonCodec TransactionKind, JsonCodec ManifestPhase, JsonCodec FileIdentity,
          JsonCodec ManifestDirectoryState}.

(** ** Writing *)

Definition field (name : string) (j : Json) : JsonString * Json := (json_string name, j).
Definition str_json (s : string) : Json := JString (json_string s).

(** [ManifestPathSer] *)
Definition path_json (p : string) (identity : option FileIdentity) : Json :=
  JObject [field "path" (str_json p); field "identity" (opt_to_json identity)].

(** [ManifestEntrySer] *)
Definition entry_json (m : TransactionManifest) (slot : ManifestEntrySlot) : Result Json :=
  let? partial :=
    if ref_len (partial_path slot) =? 0 then Ok JNull
    else let? p := path m (partial_path slot) in Ok (path_json p (partial_identity slot)) in
  let? staged := path m (staged_path slot) in
  let? final := path m (final_path slot) in
  Ok (JObject [field "staged" (path_json staged (staged_identity slot)); field "partial" partial;
               field "final_path" (path_json final (final_identity slot))]).

(** [ManifestCreatedDirectorySer] *)
Definition directory_json (slot : ManifestDirectorySlot) : Json :=
  JObject [field "entry_index" (to_json (entry_index slot)); field "prefix_len" (to_json (prefix_len slot));
           field "state" (opt_to_json (state slot)); field "identity" (opt_to_json (identity slot))].

Fixpoint collect {A B} (f : A -> Result B) (l : list A) : Result (list B) :=
  match l with
  | [] => Ok []
  | a :: l' => let? b := f a in let? bs := collect f l' in Ok (b :: bs)
  end.

(** [Serialize for TransactionManifest] *)
Definition manifest_json (m : TransactionManifest) : Result Json :=
  let? id := transaction_id_str m in
  let? staging := path m (staging_root_path m) in
  let? output := path m (output_root m) in
  let? final := final_directory m in
  let? es := entries m in
  let? entries := collect (entry_json m) es in
  let? created :=
    if version m =? MANIFEST_VERSION
    then let? ds := directories m in Ok [field "created_directories" (JArray (map directory_json ds))]
    else Ok [] in
  Ok (JObject ([field "version" (to_json (version m)); field "uid" (to_json (uid m));
                field "transaction_id" (str_json id); field "kind" (to_json (kind m));
                field "phase" (to_json (phase m));
                field "staging_root" (path_json staging (staging_root_identity m));
                field "output_root" (str_json output);
                field "final_directory"
                  (match final with Some (p, identity) => path_json p identity | None => JNull end);
                field "entries" (JArray entries)] ++ created)).

(** [serialize_bounded], into a buffer of [buffer_len] bytes. *)
Definition serialize_bounded (buffer_len : Z) (m : TransactionManifest) : Result string :=
  let? j := manifest_json m in
  let out := to_writer j in
  if slen out <=? buffer_len then Ok out
  else Err (Validation "manifest exceeds planned serialization capacity").

(** ** Reading *)

(** The errors of a visitor are texts. *)
Abbreviation PT := (M TransactionManifest string).

Definition invalid_type (expected : string) : string := "invalid type, expected " +:+ expected.

(** An error that [Error::custom] turns into its text. *)
Definition map_custom {A} (m : MT A) : PT A := fun s =>
  match m s with (s', Ok a) => (s', Ok a) | (s', Err e) => (s', Err (display e)) | (s', Panic) => (s', Panic) end.

(** [map.next_key::<&str>()] *)
Definition next_key (k : JsonString) : PT string :=
  if borrowed k then ret (text k) else fail (invalid_type "a borrowed string").

(** [map.next_value()] *)
Definition next_value {A} `{JsonCodec A} (j : Json) : PT A := lift (ok_or (of_json j) (invalid_type "a value")).
Definition next_option {A} `{JsonCodec A} (j : Json) : PT (option A) :=
  lift (ok_or (opt_of_json j) (invalid_type "a value")).

(** [StrSeed] *)
Definition str_seed (j : Json) : PT PathRef :=
  match j with
  | JString s => map_custom (push_path (text s))
  | _ => fail (invalid_type "a UTF-8 path string")
  end.

(** A [while let Some(key) = map.next_key()] loop over the fields. *)
Fixpoint visit_fields {A} (visit : A -> string -> Json -> PT A) (fields : list (JsonString * Json)) (a : A)
    : PT A :=
  match fields with
  | [] => ret a
  | (k, j) :: rest => let! key := next_key k in let! a := visit a key j in visit_fields visit rest a
  end.

Definition unknown_field {A} (key : string) : PT A := fail ("unknown field " +:+ key).

(** [ManifestPathSeed] and [OptionManifestPathSeed] *)
Definition visit_path (a : PathRef * option FileIdentity) (key : string) (j : Json)
    : PT (PathRef * option FileIdentity) :=
  if String.eqb key "path" then let! p := str_seed j in ret (p, a.2)
  else if String.eqb key "identity" then let! identity := next_option j in ret (a.1, identity)
  else unknown_field key.

Definition path_seed (j : Json) : PT (PathRef * option FileIdentity) :=
  match j with
  | JObject fields => visit_fields visit_path fields (no_path, None)
  | _ => fail (invalid_type "a manifest path with identity")
  end.

Definition option_path_seed (j : Json) : PT (option (PathRef * option FileIdentity)) :=
  match j with
  | JNull => ret None
  | _ => let! p := path_seed j in ret (Some p)
  end.

(** [EntrySlotSeed] *)
Definition visit_entry (e : ManifestEntrySlot) (key : string) (j : Json) : PT ManifestEntrySlot :=
  if String.eqb key "staged" then
    let! (p, identity) := path_seed j in ret (e <| staged_path := p |> <| staged_identity := identity |>)
  else if String.eqb key "partial" then
    let! o := option_path_seed j in
    match o with
    | Some (p, identity) => ret (e <| partial_path := p |> <| partial_identity := identity |>)
    | None => ret (e <| partial_path := no_path |> <| partial_identity := None |>)
    end
  else if String.eqb key "final_path" then
    let! (p, identity) := path_seed j in ret (e <| final_path := p |> <| final_identity := identity |>)
  else unknown_field key.

Definition entry_slot_seed (index : Z) (j : Json) : PT unit :=
  match j with
  | JObject fields =>
      let! e := visit_fields visit_entry fields default_entry in
      let! m := get in
      let! _ := lift (ok_or (zlookup (slots m) index) "manifest exceeds entry capacity") in
      modify (fun m => m <| slots ::= fun l => zupdate l index (fun _ => e) |>)
  | _ => fail (invalid_type "a manifest entry")
  end.

(** [DirectorySlotSeed] *)
Record DirectoryFields := mkDirectoryFields {
  seen_entry_index : option Z;
  seen_prefix_len : option Z;
  seen_state : option ManifestDirectoryState;
  seen_identity : option (option FileIdentity);
}.

Definition visit_directory (d : DirectoryFields) (key : string) (j : Json) : PT DirectoryFields :=
  let 'mkDirectoryFields i n s o := d in
  let duplicate := fail "duplicate created directory field" in
  if String.eqb key "entry_index" then
    match i with
    | None => let! x := next_value j in ret (mkDirectoryFields (Some x) n s o) | Some _ => duplicate end
  else if String.eqb key "prefix_len" then
    match n with
    | None => let! x := next_value j in ret (mkDirectoryFields i (Some x) s o) | Some _ => duplicate end
  else if String.eqb key "state" then
    match s with
    | None => let! x := next_value j in ret (mkDirectoryFields i n (Some x) o) | Some _ => duplicate end
  else if String.eqb key "identity" then
    match o with
    | None => let! x := next_option j in ret (mkDirectoryFields i n s (Some x)) | Some _ => duplicate end
  else unknown_field key.

Definition directory_slot_seed (index : Z) (j : Json) : PT unit :=
  match j with
  | JObject fields =>
      let! d := visit_fields visit_directory fields (mkDirectoryFields None None None None) in
      let! m := get in
      let! _ := lift (ok_or (zlookup (directory_slots m) index) "manifest exceeds directory capacity") in
      let! i := lift (ok_or (seen_entry_index d) "created directory entry index missing") in
      let! n := lift (ok_or (seen_prefix_len d) "created directory prefix length missing") in
      let! s := lift (ok_or (seen_state d) "created directory state missing") in
      let! o := lift (ok_or (seen_identity d) "created directory identity missing") in
      modify (fun m => m <| directory_slots ::= fun l =>
                         zupdate l index (fun _ => mkDirectorySlot i n (Some s) o) |>)
  | _ => fail (invalid_type "a created directory record")
  end.

(** [EntriesSeed] and [DirectoriesSeed]: the elements go to the slots in order. *)
Fixpoint visit_seq (element : Z -> Json -> PT unit) (l : list Json) (count : Z) : PT Z :=
  match l with
  | [] => ret count
  | j :: rest => element count j ;; visit_seq element rest (count + 1)
  end.

Definition seq_seed (element : Z -> Json -> PT unit) (expected : string) (j : Json) : PT Z :=
  match j with
  | JArray l => visit_seq element l 0
  | _ => fail (invalid_type expected)
  end.

Definition entries_seed : Json -> PT Z := seq_seed entry_slot_seed "an array of manifest entries".
Definition directories_seed : Json -> PT Z :=
  seq_seed directory_slot_seed "an array of created directory records".

Definition visit_manifest (_ : unit) (key : string) (j : Json) : PT unit :=
  if String.eqb key "version" then let! x := next_value j in modify (fun m => m <| version := x |>)
  else if String.eqb key "uid" then let! x := next_value j in modify (fun m => m <| uid := x |>)
  else if String.eqb key "transaction_id" then
    let! p := str_seed j in modify (fun m => m <| transaction_id := p |>)
  else if String.eqb key "kind" then let! x := next_value j in modify (fun m => m <| kind := x |>)
  else if String.eqb key "phase" then let! x := next_value j in modify (fun m => m <| phase := x |>)
  else if String.eqb key "staging_root" then
    let! (p, identity) := path_seed j in
    modify (fun m => m <| staging_root_path := p |> <| staging_root_identity := identity |>)
  else if String.eqb key "output_root" then
    let! p := str_seed j in modify (fun m => m <| output_root := p |>)
  else if String.eqb key "final_directory" then
    let! o := option_path_seed j in
    match o with
    | Some (p, identity) =>
        modify (fun m => m <| final_directory_path := p |> <| final_directory_identity := identity |>)
    | None => modify (fun m => m <| final_directory_path := no_path |> <| final_directory_identity := None |>)
    end
  else if String.eqb key "entries" then
    let! n := entries_seed j in modify (fun m => m <| entry_count := n |>)
  else if String.eqb key "created_directories" then
    let! m := get in
    fail_if (directory_journal_present m) "duplicate created_directories field" ;;
    modify (fun m => m <| directory_journal_present := true |>) ;;
    let! n := directories_seed j in modify (fun m => m <| directory_count := n |>)
  else fail ("unknown manifest field " +:+ key).

(** [ManifestParseSeed]: the manifest before the first field. *)
Definition empty_manifest (slots : list ManifestEntrySlot) (directory_slots : list ManifestDirectorySlot)
    (path_bytes : list ascii) : TransactionManifest :=
  mkManifest 0 0 Recall Prepared no_path no_path None no_path no_path None 0
    (map (fun _ => default_entry) slots) (map (fun _ => default_directory) directory_slots) 0 false
    (new_arena path_bytes).

Definition deserialize (slots : list ManifestEntrySlot) (directory_slots : list ManifestDirectorySlot)
    (path_bytes : list ascii) (j : Json) : outcome string TransactionManifest :=
  match j with
  | JObject fields =>
      match visit_fields visit_manifest fields tt (empty_manifest slots directory_slots path_bytes) with
      | (m, Ok _) => Ok m
      | (_, Err e) => Err e
      | (_, Panic) => Panic
      end
  | _ => Err (invalid_type "a transaction manifest")
  end.

Definition malformed (message : string) : LambError :=
  Validation ("malformed transaction manifest: " +:+ message).

(** The parse of [read_with_identity_directories]. *)
Definition parse_manifest (slots : list ManifestEntrySlot) (directory_slots : list ManifestDirectorySlot)
    (path_bytes : list ascii) (content : string) : Result TransactionManifest :=
  match first_value content with
  | None => Err (malformed "syntax")
  | Some j =>
      match deserialize slots directory_slots path_bytes j with
      | Ok m => Ok m
      | Err e => Err (malformed e)
      | Panic => Panic
      end
  end.

(** [ExistingManifestCheck]: the identity fields of a manifest, read by a derived
    deserializer whose strings are borrowed from the text. *)
Record ExistingManifestCheck := mkExistingCheck {
  ex_version : Z;
  ex_uid : Z;
  ex_transaction_id : string;
  ex_kind : TransactionKind;
  ex_staging_root : string;
  ex_output_root : string;
}.

(** The value of a field that has to occur exactly once. *)
Definition required_field (name : string) (fields : list (JsonString * Json)) : option Json :=
  match List.filter (fun f => String.eqb (text f.1) name) fields with
  | [f] => Some f.2
  | _ => None
  end.

Definition borrowed_str (j : Json) : option string :=
  match j with
  | JString s => if borrowed s then Some (text s) else None
  | _ => None
  end.

Definition existing_check (j : Json) : option ExistingManifestCheck :=
  match j with
  | JObject fields =>
      version ← required_field "version" fields ≫= of_json;
      uid ← required_field "uid" fields ≫= of_json;
      id ← required_field "transaction_id" fields ≫= borrowed_str;
      kind ← required_field "kind" fields ≫= of_json;
      root ← match required_field "staging_root" fields with
             | Some (JObject fs) =>
                 _ ← match required_field "identity" fs with
                     | Some i => opt_of_json (A := FileIdentity) i
                     | None => if existsb (fun f => String.eqb (text f.1) "identity") fs then None else Some None
                     end;
                 required_field "path" fs ≫= borrowed_str
             | _ => None
             end;
      output ← required_field "output_root" fields ≫= borrowed_str;
      Some (mkExistingCheck version uid id kind root output)
  | _ => None
  end.
End json.
