(* ===== verification/ManifestTheorems.v ===== *)
(** * Properties of the path arena and of the manifest's text

    A path that is pushed into the arena reads back, whatever is pushed later;
    the arena never grows. A manifest that is written and read again, into any
    slots and arena that are large enough, has the same fields and its
    references the same texts. *)
From Stdlib Require Import Ascii.
From S2P Require Import Prelude.
From S2P Require Import Errors.
From S2P Require Import Paths.
From S2P Require Import FileSystem.
From S2P Require Import Manifest.
From S2P Require Import ManifestJson.

(** ** The arena *)

Definition arena_ok (a : PathArena) : Prop := 0 <= used a <= zlen (bytes a).

(** The text at a reference below the used part. *)
Record named (a : PathArena) (r : PathRef) (v : string) : Prop := mkNamed {
  nm_offset : 0 <= ref_offset r;
  nm_len : ref_len r = slen v;
  nm_used : ref_offset r + ref_len r <= used a;
  nm_text : arena_slice a r = Ok v;
}.

(** The buffer stays the same size, and what was named stays named. *)
Record grows (a a' : PathArena) : Prop := mkGrows {
  gr_size : zlen (bytes a') = zlen (bytes a);
  gr_used : used a <= used a';
  gr_named : forall r v, named a r v -> named a' r v;
}.

#[export] Instance grows_preorder : PreOrder grows.
Proof.
  split.
  - intros a. by constructor.
  - intros a b c [H1 H2 H3] [H4 H5 H6]. constructor; [congruence|lia|auto].
Qed.

Lemma zlen_text v : zlen (String.list_ascii_of_string v) = slen v.
Proof. unfold zlen, slen. induction v as [|c v IH]; [done|]. cbn in *. lia. Qed.

(** The bytes before the end of a reference decide its text. *)
Lemma arena_slice_kept a b r v n : segment (bytes b) 0 n = segment (bytes a) 0 n ->
  zlen (bytes b) = zlen (bytes a) -> ref_len r = slen v -> 0 <= ref_offset r -> ref_offset r + ref_len r <= n ->
  arena_slice a r = Ok v -> arena_slice b r = Ok v.
Proof.
  intros Hs Hl Hr Ho Hn. pose proof (slen_nonneg v). unfold arena_slice. intros Ha.
  apply obind_Ok in Ha as (s & Es & Ha). unfold slice in *. rewrite Hl. destruct (_ && _) eqn:E; [|done].
  injection Es as <-. replace (ref_offset r + ref_len r - ref_offset r) with (ref_len r) in * by lia.
  to_prop. replace (ref_offset r + ref_len r - ref_offset r) with (ref_len r) in * by lia.
  rewrite <-(segment_segment (bytes a) 0 n (ref_offset r)) in Ha by lia.
  rewrite <-Hs, segment_segment in Ha by lia. exact Ha.
Qed.

(** A copy behind the used part keeps what is named. *)
Lemma named_kept a r v bs value n : named a r v -> 0 <= used a -> used a <= n ->
  used a + slen value <= zlen (bytes a) ->
  copy_into (bytes a) (used a) (String.list_ascii_of_string value) = Some bs -> named (mkPathArena bs n) r v.
Proof.
  intros [Ho Hr Hn Ht] H0 Hle Hfit E. pose proof (slen_nonneg v). pose proof (slen_nonneg value).
  constructor; cbn; [done|done|lia|].
  eapply (arena_slice_kept a _ r v (used a)); try done; cbn; [|by eapply copy_into_length].
  pose proof (copy_into_prefix _ _ _ _ E) as Hp. rewrite zlen_text in Hp.
  apply (f_equal (fun l => segment l 0 (used a))) in Hp. rewrite segment_segment in Hp by lia.
  rewrite segment_app_l, segment_segment in Hp by (rewrite ?zlen_segment; lia). done.
Qed.

(** A push stores the text after the used part, if the arena has room for it. *)
Lemma push_fits value a : arena_ok a -> utf8 value = true -> slen value <= u32_max ->
  used a + slen value <= u64_max -> used a + slen value <= zlen (bytes a) -> used a <= u32_max ->
  exists a', push value a = (a', Ok (mkPathRef (used a) (slen value)))
             /\ named a' (mkPathRef (used a) (slen value)) value /\ grows a a' /\ used a' = used a + slen value.
Proof.
  intros [Hu0 Hu] Hv H1 H2 H3 H4. pose proof (slen_nonneg value). unfold push. rewrite !zlen_text.
  rewrite (proj2 (checked_Some u32_max (slen value) (slen value))) by (split; [done|lia]). cbn [ok_or]. msteps. rewrite add_checked_ok by lia. cbn [ok_or]. msteps.
  decide_cmp. msteps. destruct (copy_into (bytes a) (used a) (String.list_ascii_of_string value)) as [bs|] eqn:E.
  2: { rewrite copy_into_Some in E by (rewrite ?zlen_text; lia). done. }
  cbn [unwrap]. msteps. cbn [used]. rewrite (proj2 (checked_Some u32_max (used a) (used a))) by (split; [done|lia]).
  cbn [ok_or]. msteps.
  pose proof (copy_into_length _ _ _ _ E) as Hl. pose proof (copy_into_prefix _ _ _ _ E) as Hp. rewrite zlen_text in Hp.
  eexists. split; [reflexivity|].
  split; [constructor; cbn; [lia|done|lia|]|split; [constructor; cbn; [done|lia|]|done]].
  - unfold arena_slice. cbn. unfold slice. rewrite Hl. repeat decide_cmp. cbn [andb unwrap obind].
    replace (used a + slen value - used a) with (slen value) by lia.
    assert (segment bs (used a) (slen value) = String.list_ascii_of_string value) as ->.
    { rewrite <-(Z.add_0_l (used a)) at 1. rewrite <-(segment_segment bs 0 (used a + slen value)), Hp by lia.
      assert (zlen (segment (bytes a) 0 (used a)) = used a) as Hz by (apply zlen_segment; lia).
      rewrite <-Hz at 2. by rewrite segment_app_exact by by rewrite zlen_text. }
    by rewrite String.string_of_list_ascii_of_string, Hv.
  - intros r v Hn. apply (named_kept a r v bs value); [exact Hn|lia|lia|lia|exact E].
Qed.

(** A path pushed into the arena is read back from the reference it gets, and
    so is every path pushed before; the buffer keeps its size. A push that fails
    reserves nothing and reads no earlier path differently; it fails only when
    the path, its offset or the arena is too long, and never panics. *)
Theorem push_reads_back value a : arena_ok a -> utf8 value = true ->
  match push value a with
  | (a', Ok r) => arena_ok a' /\ named a' r value /\ grows a a' /\ used a' = used a + slen value
  | (a', Err _) => arena_ok a' /\ grows a a' /\ used a' = used a
                   /\ (u32_max < slen value \/ zlen (bytes a) < used a + slen value \/ u32_max < used a
                       \/ u64_max < used a + slen value)
  | (_, Panic) => False
  end.
Proof.
  intros Ha Hv. pose proof Ha as [Hu0 Hu]. pose proof (slen_nonneg value).
  destruct (decide (slen value <= u32_max /\ used a + slen value <= u64_max
                    /\ used a + slen value <= zlen (bytes a) /\ used a <= u32_max)) as [(H1 & H2 & H3 & H4)|Hbad].
  { destruct (push_fits value a Ha Hv H1 H2 H3 H4) as (a' & -> & Hn & Hg & Hus).
    split; [|done]. split; [lia|]. rewrite (gr_size _ _ Hg). lia. }
  unfold push. rewrite !zlen_text. unfold checked at 1. destruct (decide (slen value <= u32_max)) as [H1|H1]; repeat decide_cmp.
  2: { split; [done|]. split; [done|]. split; [done|lia]. }
  cbn [andb ok_or]. msteps. destruct (decide (used a + slen value <= u64_max)) as [H2|H2].
  2: { unfold add_checked, checked. repeat decide_cmp. split; [done|]. split; [done|]. split; [done|lia]. }
  rewrite add_checked_ok by lia. cbn [ok_or]. msteps.
  destruct (decide (used a + slen value <= zlen (bytes a))) as [H3|H3]; decide_cmp.
  2: { split; [done|]. split; [done|]. split; [done|lia]. }
  msteps. destruct (copy_into (bytes a) (used a) (String.list_ascii_of_string value)) as [bs|] eqn:E.
  2: { rewrite copy_into_Some in E by (rewrite ?zlen_text; lia). done. }
  cbn [unwrap]. msteps. unfold checked. assert (u32_max < used a) as H4 by lia. cbn [used]. repeat decide_cmp. cbn [andb ok_or].
  pose proof (copy_into_length _ _ _ _ E) as Hl. pose proof (copy_into_prefix _ _ _ _ E) as Hp. rewrite zlen_text in Hp.
  split; [by split; cbn; [|rewrite Hl]|]. split; [|split; [done|lia]]. constructor; cbn; [done|lia|].
  intros r v Hn. apply (named_kept a r v bs value); [exact Hn|lia|lia|lia|exact E].
Qed.

(** ** The meaning of a manifest *)

(** The texts of an entry with their identities. *)
Record EntryText := mkEntryText {
  t_staged : string * option FileIdentity;
  t_partial : option (string * option FileIdentity);
  t_final : string * option FileIdentity;
}.

Definition entry_reads (m : TransactionManifest) (e : ManifestEntrySlot) (t : EntryText) : Prop :=
  staged m e = Ok (t_staged t) /\ Manifest.partial m e = Ok (t_partial t) /\ final_of m e = Ok (t_final t).

(** What a manifest says, wherever its arena and slots put it. *)
Record ManifestText := mkText {
  t_version : Z;
  t_uid : Z;
  t_id : string;
  t_kind : TransactionKind;
  t_phase : ManifestPhase;
  t_staging : string * option FileIdentity;
  t_output : string;
  t_directory : option (string * option FileIdentity);
  t_entries : list EntryText;
  t_created : list ManifestDirectorySlot;
}.

Record means (m : TransactionManifest) (t : ManifestText) : Prop := mkMeans {
  mn_version : version m = t_version t;
  mn_uid : uid m = t_uid t;
  mn_id : transaction_id_str m = Ok (t_id t);
  mn_kind : kind m = t_kind t;
  mn_phase : phase m = t_phase t;
  mn_staging : path m (staging_root_path m) = Ok (t_staging t).1 /\ staging_root_identity m = (t_staging t).2;
  mn_output : path m (output_root m) = Ok (t_output t);
  mn_directory : final_directory m = Ok (t_directory t);
  mn_entries : exists es, entries m = Ok es /\ Forall2 (entry_reads m) es (t_entries t);
  mn_created : directories m = Ok (t_created t);
}.

(** The bytes that the paths of a manifest need. *)
Definition option_size (o : option (string * option FileIdentity)) : Z :=
  match o with Some (p, _) => slen p | None => 0 end.
Definition entry_size (t : EntryText) : Z := slen (t_staged t).1 + option_size (t_partial t) + slen (t_final t).1.
Fixpoint entries_size (l : list EntryText) : Z :=
  match l with [] => 0 | t :: l' => entry_size t + entries_size l' end.
Definition text_size (t : ManifestText) : Z :=
  slen (t_id t) + slen (t_staging t).1 + slen (t_output t) + option_size (t_directory t) + entries_size (t_entries t).

Lemma option_size_nonneg o : 0 <= option_size o.
Proof. destruct o as [[p ?]|]; [apply slen_nonneg|done]. Qed.
Lemma entry_size_nonneg t : 0 <= entry_size t.
Proof.
  unfold entry_size. pose proof (slen_nonneg (t_staged t).1). pose proof (slen_nonneg (t_final t).1).
  pose proof (option_size_nonneg (t_partial t)). lia.
Qed.
Lemma entries_size_nonneg l : 0 <= entries_size l.
Proof. induction l as [|t l IH]; [done|]. cbn. pose proof (entry_size_nonneg t). lia. Qed.

(** A text that is read from the arena is valid and has the length of its reference. *)
Lemma slice_text a r v : arena_slice a r = Ok v -> utf8 v = true /\ slen v = ref_len r.
Proof.
  unfold arena_slice. intros H. apply obind_Ok in H as (s & Es & H). cbv zeta in H.
  destruct (utf8 _) eqn:E; [|done]. injection H as <-. split; [done|].
  unfold slice in Es. destruct (_ && _) eqn:E2; [|done]. injection Es as <-. to_prop.
  assert (forall l, slen (String.string_of_list_ascii l) = zlen l) as Hl.
  { intros l. unfold slen, zlen. induction l as [|c l IH]; [done|]. cbn in *. lia. }
  rewrite Hl, zlen_segment by lia. lia.
Qed.

(** *** The JSON of a meaning *)

(** serde's conversions read back what they write, and only [None] is null. *)
Class JsonLaws (A : Type) {codec : JsonCodec A} := {
  of_to_json (a : A) : of_json (to_json a) = Some a;
  to_json_null (a : A) : to_json a <> JNull;
}.

Section round_trip.
Context {json_z : JsonCodec Z} {json_kind : JsonCodec TransactionKind} {json_phase : JsonCodec ManifestPhase}
  {json_identity : JsonCodec FileIdentity} {json_state : JsonCodec ManifestDirectoryState}.
Context {laws_z : JsonLaws Z} {laws_kind : JsonLaws TransactionKind} {laws_phase : JsonLaws ManifestPhase}
  {laws_identity : JsonLaws FileIdentity} {laws_state : JsonLaws ManifestDirectoryState}.

Definition option_path_json (o : option (string * option FileIdentity)) : Json :=
  match o with Some (p, identity) => path_json p identity | None => JNull end.

Definition entry_text_json (t : EntryText) : Json :=
  JObject [field "staged" (path_json (t_staged t).1 (t_staged t).2);
           field "partial" (option_path_json (t_partial t));
           field "final_path" (path_json (t_final t).1 (t_final t).2)].

Definition text_json (t : ManifestText) : Json :=
  JObject ([field "version" (to_json (t_version t)); field "uid" (to_json (t_uid t));
            field "transaction_id" (str_json (t_id t)); field "kind" (to_json (t_kind t));
            field "phase" (to_json (t_phase t));
            field "staging_root" (path_json (t_staging t).1 (t_staging t).2);
            field "output_root" (str_json (t_output t));
            field "final_directory" (option_path_json (t_directory t));
            field "entries" (JArray (map entry_text_json (t_entries t)))]
           ++ (if t_version t =? MANIFEST_VERSION
               then [field "created_directories" (JArray (map directory_json (t_created t)))] else [])).

Lemma entry_json_text m e t : entry_reads m e t -> entry_json m e = Ok (entry_text_json t).
Proof using Type.
  unfold entry_reads, staged, Manifest.partial, final_of, entry_json, entry_text_json. intros (H1 & H2 & H3).
  apply obind_Ok in H1 as (ps & H1 & [= <-]). apply obind_Ok in H3 as (pf & H3 & [= <-]). rewrite H1, H3.
  destruct (ref_len (partial_path e) =? 0).
  - injection H2 as <-. done.
  - apply obind_Ok in H2 as (pp & H2 & [= <-]). by rewrite H2.
Qed.

Lemma manifest_json_text m t : means m t -> manifest_json m = Ok (text_json t).
Proof using Type.
  intros [Hv Hu Hi Hk Hp [Hs Hsi] Ho Hd (es & He & HF) Hc]. unfold manifest_json, text_json.
  rewrite Hi, Hs, Ho, Hd, He, Hv, Hu, Hk, Hp, Hsi. cbn [obind].
  assert (collect (entry_json m) es = Ok (map entry_text_json (t_entries t))) as ->.
  { clear -HF. induction HF as [|e x es ts H HF IH]; [done|]. cbn [collect map].
    rewrite (entry_json_text _ _ _ H). cbn [obind]. by rewrite IH. }
  cbn [obind]. destruct (t_version t =? MANIFEST_VERSION); [by rewrite Hc|done].
Qed.

(** *** The seeds read what was written *)

(** Room for [n] more bytes in the arena of the manifest that is being read. *)
Record room (a : PathArena) (n : Z) : Prop := mkRoom {
  rm_ok : arena_ok a;
  rm_size : zlen (bytes a) <= u32_max;
  rm_fits : used a + n <= zlen (bytes a);
}.

Lemma room_le a n n' : room a n -> n' <= n -> room a n'.
Proof using Type. intros [H1 H2 H3] H. constructor; [done|done|lia]. Qed.

Lemma room_next a a' n s : room a (n + s) -> 0 <= n -> 0 <= s -> grows a a' -> used a' = used a + n -> room a' s.
Proof using Type.
  intros [[H1 H2] H3 H4] Hn Hs [G1 G2 _] Hu. unfold arena_ok. constructor; rewrite ?G1; [|done|lia].
  split; lia.
Qed.

Lemma u32_le_u64 : u32_max <= u64_max.
Proof using Type. done. Qed.

Lemma str_seed_run s m : room (path_arena m) (slen s) -> utf8 s = true ->
  exists a r, str_seed (str_json s) m = (m <| path_arena := a |>, Ok r)
              /\ named a r s /\ grows (path_arena m) a /\ used a = used (path_arena m) + slen s.
Proof using Type.
  intros [[H0 H1] H2 H3] Hs. pose proof (slen_nonneg s). pose proof u32_le_u64.
  destruct (push_fits s (path_arena m)) as (a & E & Hn & Hg & Hu); [done|done|lia|lia|lia|lia|].
  exists a, (mkPathRef (used (path_arena m)) (slen s)). split; [|done].
  unfold str_seed, str_json, map_custom, push_path. cbn [json_string text]. by rewrite E.
Qed.

Lemma next_option_run (o : option FileIdentity) (m : TransactionManifest) :
  next_option (opt_to_json o) m = (m, Ok o).
Proof using laws_identity.
  unfold next_option. destruct o as [i|]; [|done]. cbn. unfold opt_of_json. pose proof (to_json_null i) as Hn.
  pose proof (of_to_json i) as Hi. destruct (to_json i); try done; by rewrite Hi.
Qed.

Lemma next_value_run {A} {codec : JsonCodec A} {laws : JsonLaws A} (x : A) (m : TransactionManifest) :
  next_value (to_json x) m = (m, Ok x).
Proof using Type. unfold next_value. by rewrite of_to_json. Qed.

Lemma visit_field_run {A} (visit : A -> string -> Json -> M TransactionManifest string A) name j rest a m m1 a1 :
  needs_escape name = false -> visit a name j m = (m1, Ok a1) ->
  visit_fields visit (field name j :: rest) a m = visit_fields visit rest a1 m1.
Proof using Type.
  intros Hn Hv. unfold field. cbn [visit_fields]. unfold next_key, json_string. cbn [borrowed text]. rewrite Hn.
  cbn [negb]. msteps. by rewrite (bind_run _ _ _ _ _ Hv).
Qed.

Lemma path_seed_run p i m : room (path_arena m) (slen p) -> utf8 p = true ->
  exists a r, path_seed (path_json p i) m = (m <| path_arena := a |>, Ok (r, i))
              /\ named a r p /\ grows (path_arena m) a /\ used a = used (path_arena m) + slen p.
Proof using laws_identity.
  intros Hr Hp. destruct (str_seed_run p m Hr Hp) as (a & r & E & Hn). exists a, r. split; [|done].
  unfold path_seed, path_json.
  rewrite (visit_field_run visit_path "path" _ _ _ _ (m <| path_arena := a |>) (r, None)); [|done|].
  - rewrite (visit_field_run visit_path "identity" _ _ _ _ (m <| path_arena := a |>) (r, i)); [done|done|].
    unfold visit_path. cbn [String.eqb Ascii.eqb Bool.eqb]. by rewrite (bind_run _ _ _ _ _ (next_option_run _ _)).
  - unfold visit_path. cbn [String.eqb Ascii.eqb Bool.eqb]. by rewrite (bind_run _ _ _ _ _ E).
Qed.

(** An optional path: a reference and an identity, or the empty reference. *)
Definition option_named (a : PathArena) (r : PathRef) (i : option FileIdentity)
    (o : option (string * option FileIdentity)) : Prop :=
  match o with
  | Some (p, j) => named a r p /\ i = j /\ p <> ""
  | None => r = no_path /\ i = None
  end.

Definition option_utf8 (o : option (string * option FileIdentity)) : Prop :=
  match o with Some (p, _) => utf8 p = true /\ p <> "" | None => True end.

Lemma option_path_seed_run o m : room (path_arena m) (option_size o) -> option_utf8 o ->
  exists a x, option_path_seed (option_path_json o) m = (m <| path_arena := a |>, Ok x)
              /\ match x with Some (r, i) => option_named a r i o | None => o = None end
              /\ grows (path_arena m) a /\ used a = used (path_arena m) + option_size o.
Proof using laws_identity.
  intros Hr Ho. destruct o as [[p i]|].
  - destruct Ho as [Hp Hne]. destruct (path_seed_run p i m Hr Hp) as (a & r & E & Hn & Hg & Hu).
    exists a, (Some (r, i)). split; [|done]. unfold option_path_seed, option_path_json.
    change (path_json p i) with (JObject [field "path" (str_json p); field "identity" (opt_to_json i)]) at 1.
    cbv iota. by rewrite (bind_run _ _ _ _ _ E).
  - exists (path_arena m), None. split; [by destruct m|]. split; [done|]. split; [done|]. cbn. lia.
Qed.

Definition entry_named (a : PathArena) (e : ManifestEntrySlot) (t : EntryText) : Prop :=
  (named a (staged_path e) (t_staged t).1 /\ staged_identity e = (t_staged t).2)
  /\ option_named a (partial_path e) (partial_identity e) (t_partial t)
  /\ (named a (final_path e) (t_final t).1 /\ final_identity e = (t_final t).2).

Definition entry_utf8 (t : EntryText) : Prop :=
  utf8 (t_staged t).1 = true /\ option_utf8 (t_partial t) /\ utf8 (t_final t).1 = true.

Lemma option_named_grows a a' r i o : grows a a' -> option_named a r i o -> option_named a' r i o.
Proof using Type. intros Hg. destruct o as [[p j]|]; [|done]. intros (H1 & H2). split; [by apply Hg|done]. Qed.

Lemma entry_named_grows a a' e t : grows a a' -> entry_named a e t -> entry_named a' e t.
Proof using Type.
  intros Hg ([H1 H2] & H3 & [H4 H5]). split; [split; [by apply Hg|done]|].
  split; [by eapply option_named_grows|]. split; [by apply Hg|done].
Qed.

Lemma visit_entry_run t m : room (path_arena m) (entry_size t) -> entry_utf8 t ->
  exists a e, visit_fields visit_entry
      [field "staged" (path_json (t_staged t).1 (t_staged t).2); field "partial" (option_path_json (t_partial t));
       field "final_path" (path_json (t_final t).1 (t_final t).2)] default_entry m = (m <| path_arena := a |>, Ok e)
    /\ entry_named a e t /\ grows (path_arena m) a /\ used a = used (path_arena m) + entry_size t.
Proof using laws_identity.
  intros Hr (Hu1 & Hu2 & Hu3). unfold entry_size in *.
  pose proof (slen_nonneg (t_staged t).1). pose proof (slen_nonneg (t_final t).1).
  pose proof (option_size_nonneg (t_partial t)).
  destruct (path_seed_run (t_staged t).1 (t_staged t).2 m) as (a1 & r1 & E1 & N1 & G1 & U1);
    [eapply room_le; [exact Hr|lia]|done|].
  set (m1 := m <| path_arena := a1 |>) in *.
  assert (room (path_arena m1) (option_size (t_partial t) + slen (t_final t).1)) as Hr1.
  { eapply room_next; [|exact H| |exact G1|exact U1]; [|lia]. eapply room_le; [exact Hr|lia]. }
  destruct (option_path_seed_run (t_partial t) m1) as (a2 & x & E2 & N2 & G2 & U2);
    [eapply room_le; [exact Hr1|lia]|done|].
  set (m2 := m1 <| path_arena := a2 |>) in *.
  assert (room (path_arena m2) (slen (t_final t).1)) as Hr2 by (eapply room_next; [exact Hr1|lia..|exact G2|exact U2]).
  destruct (path_seed_run (t_final t).1 (t_final t).2 m2 Hr2 Hu3) as (a3 & r3 & E3 & N3 & G3 & U3).
  set (e1 := default_entry <| staged_path := r1 |> <| staged_identity := (t_staged t).2 |>).
  set (e2 := match x with
             | Some (p, i) => e1 <| partial_path := p |> <| partial_identity := i |>
             | None => e1 <| partial_path := no_path |> <| partial_identity := None |>
             end).
  exists a3, (e2 <| final_path := r3 |> <| final_identity := (t_final t).2 |>).
  assert (grows (path_arena m1) a2) as G2' by exact G2. assert (grows a1 a3) as G13 by (etrans; [exact G2|exact G3]).
  split; [|split; [split; [|split]|split]].
  - rewrite (visit_field_run _ _ _ _ _ _ m1 e1); [|done|].
    2: { unfold visit_entry. cbn [String.eqb Ascii.eqb Bool.eqb]. by rewrite (bind_run _ _ _ _ _ E1). }
    rewrite (visit_field_run _ _ _ _ _ _ m2 e2); [|done|].
    2: { unfold visit_entry. cbn [String.eqb Ascii.eqb Bool.eqb]. rewrite (bind_run _ _ _ _ _ E2). by destruct x as [[]|]. }
    rewrite (visit_field_run _ _ _ _ _ _ (m2 <| path_arena := a3 |>)
              (e2 <| final_path := r3 |> <| final_identity := (t_final t).2 |>)); [done|done|].
    unfold visit_entry. cbn [String.eqb Ascii.eqb Bool.eqb]. by rewrite (bind_run _ _ _ _ _ E3).
  - unfold e2, e1. destruct x as [[p i]|]; cbn; (split; [apply G13; exact N1|done]).
  - apply (option_named_grows a2); [exact G3|]. unfold e2. destruct x as [[p i]|]; [exact N2|]. by rewrite N2.
  - split; [exact N3|done].
  - etrans; [exact G1|]. exact G13.
  - rewrite U3. change (path_arena m2) with a2. rewrite U2. change (path_arena m1) with a1. lia.
Qed.

Lemma entry_slot_seed_run index t m : room (path_arena m) (entry_size t) -> entry_utf8 t ->
  0 <= index < zlen (slots m) ->
  exists a e, entry_slot_seed index (entry_text_json t) m
              = (m <| path_arena := a |> <| slots ::= fun l => zupdate l index (fun _ => e) |>, Ok tt)
    /\ entry_named a e t /\ grows (path_arena m) a /\ used a = used (path_arena m) + entry_size t.
Proof using laws_identity.
  intros Hr Hu Hi. destruct (visit_entry_run t m Hr Hu) as (a & e & E & Hn). exists a, e. split; [|done].
  unfold entry_slot_seed, entry_text_json. rewrite (bind_run _ _ _ _ _ E). msteps.
  destruct (zlookup_lt (slots m) index Hi) as [x Hx].
  change (slots (m <| path_arena := a |>)) with (slots m). by rewrite Hx.
Qed.

(** The elements of a sequence fill the slots from the first one on. *)
Lemma segment_zupdate {A} (l : list A) i x : 0 <= i < zlen l ->
  segment (zupdate l i (fun _ => x)) 0 (i + 1) = segment l 0 i ++ [x].
Proof using Type.
  intros Hi. rewrite segment_split by lia. f_equal.
  - unfold segment, zupdate. rewrite !drop_0. decide_cmp. apply list_eq. intros j.
    destruct (decide (j < Z.to_nat i)%nat) as [Hj|Hj].
    + rewrite !lookup_take by lia. by rewrite list_lookup_alter_ne by lia.
    + by rewrite !lookup_take_ge by lia.
  - rewrite Z.add_0_l. unfold segment, zupdate, zlen in *. decide_cmp. change (Z.to_nat 1) with 1%nat.
    destruct (lookup_lt_is_Some_2 l (Z.to_nat i)) as [y Hy]; [lia|].
    rewrite (drop_S _ x); [done|]. by rewrite list_lookup_alter_eq, Hy.
Qed.

Lemma entries_seed_run l count es ts m :
  room (path_arena m) (entries_size l) -> Forall entry_utf8 l -> 0 <= count -> count + zlen l <= zlen (slots m) ->
  segment (slots m) 0 count = es -> Forall2 (entry_named (path_arena m)) es ts ->
  exists a s es', visit_seq entry_slot_seed (map entry_text_json l) count m
                  = (m <| path_arena := a |> <| slots := s |>, Ok (count + zlen l))
    /\ zlen s = zlen (slots m) /\ segment s 0 (count + zlen l) = es' /\ Forall2 (entry_named a) es' (ts ++ l)
    /\ grows (path_arena m) a /\ used a = used (path_arena m) + entries_size l.
Proof using laws_identity.
  revert count es ts m. induction l as [|t l IH]; intros count es ts m Hr Hu H0 Hc Hs HF.
  { exists (path_arena m), (slots m), es. change (zlen (@nil EntryText)) with 0. rewrite !Z.add_0_r, app_nil_r.
    split; [by destruct m|]. split; [done|]. split; [done|]. split; [done|]. split; [done|]. cbn. lia. }
  apply Forall_cons in Hu as [Hu1 Hu]. cbn [entries_size] in *. pose proof (entry_size_nonneg t).
  pose proof (entries_size_nonneg l). assert (zlen (t :: l) = 1 + zlen l) as El by (unfold zlen; cbn [length]; lia).
  pose proof (zlen_nonneg l). rewrite El in *.
  destruct (entry_slot_seed_run count t m) as (a & e & E & Hn & Hg & Hus); [eapply room_le; [exact Hr|lia]|done|lia|].
  set (m1 := m <| path_arena := a |> <| slots ::= fun l => zupdate l count (fun _ => e) |>) in *.
  assert (zlen (slots m1) = zlen (slots m)) as Hz by by apply zlen_zupdate.
  destruct (IH (count + 1) (es ++ [e]) (ts ++ [t]) m1) as (a' & s & es' & E' & Hzs & Hseg & HF' & Hg' & Hus').
  - eapply room_next; [exact Hr|lia|lia|exact Hg|exact Hus].
  - done.
  - lia.
  - lia.
  - rewrite <-Hs. apply segment_zupdate. lia.
  - apply Forall2_app; [|by constructor]. eapply Forall2_impl; [exact HF|]. intros. by eapply entry_named_grows.
  - exists a', s, es'. cbn [map visit_seq]. rewrite (bind_run _ _ _ _ _ E), E'. rewrite <-app_assoc in HF'.
    replace (count + 1 + zlen l) with (count + (1 + zlen l)) in * by lia.
    split; [done|]. split; [lia|]. split; [done|]. split; [done|]. split; [by etrans|].
    rewrite Hus'. change (path_arena m1) with a. lia.
Qed.

Lemma directory_slot_seed_run index d m : state d <> None -> 0 <= index < zlen (directory_slots m) ->
  directory_slot_seed index (directory_json d) m
  = (m <| directory_slots ::= fun l => zupdate l index (fun _ => d) |>, Ok tt).
Proof using laws_identity laws_state laws_z.
  intros Hd Hi. destruct d as [i n [s|] o]; [|done]. unfold directory_slot_seed, directory_json.
  cbn [entry_index prefix_len state identity]. change (opt_to_json (Some s)) with (to_json s).
  assert (visit_fields visit_directory
            [field "entry_index" (to_json i); field "prefix_len" (to_json n); field "state" (to_json s);
             field "identity" (opt_to_json o)] (mkDirectoryFields None None None None) m
          = (m, Ok (mkDirectoryFields (Some i) (Some n) (Some s) (Some o)))) as E.
  { rewrite (visit_field_run _ _ _ _ _ _ m (mkDirectoryFields (Some i) None None None)); [|done|].
    2: { unfold visit_directory. cbn [String.eqb Ascii.eqb Bool.eqb]. by rewrite (bind_run _ _ _ _ _ (next_value_run _ _)). }
    rewrite (visit_field_run _ _ _ _ _ _ m (mkDirectoryFields (Some i) (Some n) None None)); [|done|].
    2: { unfold visit_directory. cbn [String.eqb Ascii.eqb Bool.eqb]. by rewrite (bind_run _ _ _ _ _ (next_value_run _ _)). }
    rewrite (visit_field_run _ _ _ _ _ _ m (mkDirectoryFields (Some i) (Some n) (Some s) None)); [|done|].
    2: { unfold visit_directory. cbn [String.eqb Ascii.eqb Bool.eqb]. by rewrite (bind_run _ _ _ _ _ (next_value_run _ _)). }
    rewrite (visit_field_run _ _ _ _ _ _ m (mkDirectoryFields (Some i) (Some n) (Some s) (Some o))); [done|done|].
    unfold visit_directory. cbn [String.eqb Ascii.eqb Bool.eqb]. by rewrite (bind_run _ _ _ _ _ (next_option_run _ _)). }
  rewrite (bind_run _ _ _ _ _ E). msteps. destruct (zlookup_lt (directory_slots m) index Hi) as [x Hx]. by rewrite Hx.
Qed.

Lemma directories_seed_run l count m : Forall (fun d => state d <> None) l -> 0 <= count ->
  count + zlen l <= zlen (directory_slots m) ->
  exists s, visit_seq directory_slot_seed (map directory_json l) count m
            = (m <| directory_slots := s |>, Ok (count + zlen l))
    /\ zlen s = zlen (directory_slots m) /\ segment s 0 (count + zlen l) = segment (directory_slots m) 0 count ++ l.
Proof using laws_identity laws_state laws_z.
  revert count m. induction l as [|d l IH]; intros count m Hd H0 Hc.
  { exists (directory_slots m). change (zlen (@nil ManifestDirectorySlot)) with 0. rewrite !Z.add_0_r, app_nil_r.
    split; [by destruct m|done]. }
  apply Forall_cons in Hd as [Hd1 Hd]. pose proof (zlen_nonneg l).
  assert (zlen (d :: l) = 1 + zlen l) as El by (unfold zlen; cbn [length]; lia). rewrite El in *.
  pose proof (directory_slot_seed_run count d m Hd1 ltac:(lia)) as E.
  set (m1 := m <| directory_slots ::= fun l => zupdate l count (fun _ => d) |>) in *.
  assert (zlen (directory_slots m1) = zlen (directory_slots m)) as Hz by by apply zlen_zupdate.
  destruct (IH (count + 1) m1) as (s & E' & Hzs & Hseg); [done|lia|lia|]. exists s.
  cbn [map visit_seq]. rewrite (bind_run _ _ _ _ _ E), E'.
  replace (count + 1 + zlen l) with (count + (1 + zlen l)) in * by lia.
  split; [done|]. split; [lia|]. rewrite Hseg. change (directory_slots m1) with (zupdate (directory_slots m) count (fun _ => d)).
  rewrite segment_zupdate by lia. by rewrite <-app_assoc.
Qed.

(** A text that can be read: its strings are valid, its directories have a state,
    and only version two has a journal. *)
Record readable (t : ManifestText) : Prop := mkReadable {
  rd_id : utf8 (t_id t) = true;
  rd_staging : utf8 (t_staging t).1 = true;
  rd_output : utf8 (t_output t) = true;
  rd_directory : option_utf8 (t_directory t);
  rd_entries : Forall entry_utf8 (t_entries t);
  rd_created : Forall (fun d => state d <> None) (t_created t);
  rd_journal : t_version t = MANIFEST_VERSION \/ t_created t = [];
}.

(** Texts that were read from an arena are valid. *)
Lemma option_read_utf8 m r i o : (if ref_len r =? 0 then Ok None else let? p := path m r in Ok (Some (p, i))) = Ok o ->
  option_utf8 o.
Proof using Type.
  destruct (ref_len r =? 0) eqn:E; [by intros [= <-]|]. apply Z.eqb_neq in E. intros H.
  apply obind_Ok in H as (p & H & [= <-]). apply slice_text in H as [H1 H2]. split; [done|].
  intros ->. by rewrite <-H2 in E.
Qed.

Lemma means_readable m t : means m t -> Forall (fun d => state d <> None) (t_created t) ->
  t_version t = MANIFEST_VERSION \/ t_created t = [] -> readable t.
Proof using Type.
  intros [_ _ Hi _ _ [Hs _] Ho Hd (es & _ & HF) _] H1 H2. constructor; try done.
  - by apply slice_text in Hi as [? _].
  - by apply slice_text in Hs as [? _].
  - by apply slice_text in Ho as [? _].
  - by eapply option_read_utf8.
  - clear -HF. induction HF as [|e x es ts (R1 & R2 & R3) HF IH]; [done|]. constructor; [|done].
    apply obind_Ok in R1 as (p & R1 & E1). apply obind_Ok in R3 as (q & R3 & E3). injection E1 as E1. injection E3 as E3.
    apply slice_text in R1 as [R1 _], R3 as [R3 _]. split; [by rewrite <-E1|]. split; [|by rewrite <-E3].
    by eapply option_read_utf8.
Qed.

(** *** The whole manifest *)

(** The manifest after its fields up to the entries. *)
Definition head_of (t : ManifestText) (m0 : TransactionManifest) (a : PathArena) (r1 r2 r3 r4 : PathRef)
    (i4 : option FileIdentity) : TransactionManifest :=
  mkManifest (t_version t) (t_uid t) (t_kind t) (t_phase t) r1 r2 (t_staging t).2 r3 r4 i4 (entry_count m0)
    (slots m0) (directory_slots m0) (directory_count m0) (directory_journal_present m0) a.

Definition head_fields (t : ManifestText) : list (JsonString * Json) :=
  [field "version" (to_json (t_version t)); field "uid" (to_json (t_uid t));
   field "transaction_id" (str_json (t_id t)); field "kind" (to_json (t_kind t));
   field "phase" (to_json (t_phase t));
   field "staging_root" (path_json (t_staging t).1 (t_staging t).2);
   field "output_root" (str_json (t_output t));
   field "final_directory" (option_path_json (t_directory t))].

Definition head_size (t : ManifestText) : Z :=
  slen (t_id t) + slen (t_staging t).1 + slen (t_output t) + option_size (t_directory t).

Ltac manifest_field E :=
  erewrite visit_field_run;
  [|reflexivity|unfold visit_manifest; cbn [String.eqb Ascii.eqb Bool.eqb]; rewrite (bind_run _ _ _ _ _ E); reflexivity].

Lemma head_run t m0 rest : readable t -> room (path_arena m0) (head_size t) ->
  exists a r1 r2 r3 r4 i4, visit_fields visit_manifest (head_fields t ++ rest) tt m0
                           = visit_fields visit_manifest rest tt (head_of t m0 a r1 r2 r3 r4 i4)
    /\ named a r1 (t_id t) /\ named a r2 (t_staging t).1 /\ named a r3 (t_output t)
    /\ option_named a r4 i4 (t_directory t) /\ grows (path_arena m0) a /\ used a = used (path_arena m0) + head_size t.
Proof using laws_identity laws_kind laws_phase laws_z.
  intros [U1 U2 U3 U4 _ _ _] Hr. unfold head_size in *. pose proof (slen_nonneg (t_id t)).
  pose proof (slen_nonneg (t_staging t).1). pose proof (slen_nonneg (t_output t)).
  pose proof (option_size_nonneg (t_directory t)).
  set (m1 := m0 <| version := t_version t |> <| uid := t_uid t |>).
  destruct (str_seed_run (t_id t) m1) as (a1 & r1 & E1 & N1 & G1 & S1); [eapply room_le; [exact Hr|lia]|done|].
  set (m2 := m1 <| path_arena := a1 |> <| transaction_id := r1 |> <| kind := t_kind t |> <| phase := t_phase t |>).
  assert (room (path_arena m2) (slen (t_staging t).1 + (slen (t_output t) + option_size (t_directory t)))) as Hr2.
  { eapply room_next; [|exact H| |exact G1|exact S1]; [|lia]. eapply room_le; [exact Hr|lia]. }
  destruct (path_seed_run (t_staging t).1 (t_staging t).2 m2) as (a2 & r2 & E2 & N2 & G2 & S2);
    [eapply room_le; [exact Hr2|lia]|done|].
  set (m3 := m2 <| path_arena := a2 |> <| staging_root_path := r2 |> <| staging_root_identity := (t_staging t).2 |>).
  assert (room (path_arena m3) (slen (t_output t) + option_size (t_directory t))) as Hr3
    by (eapply room_next; [exact Hr2|lia..|exact G2|exact S2]).
  destruct (str_seed_run (t_output t) m3) as (a3 & r3 & E3 & N3 & G3 & S3); [eapply room_le; [exact Hr3|lia]|done|].
  set (m4 := m3 <| path_arena := a3 |> <| output_root := r3 |>).
  assert (room (path_arena m4) (option_size (t_directory t))) as Hr4
    by (eapply room_next; [exact Hr3|lia..|exact G3|exact S3]).
  destruct (option_path_seed_run (t_directory t) m4 Hr4 U4) as (a4 & x & E4 & N4 & G4 & S4).
  assert (grows a2 a4) as G24 by (etrans; [exact G3|exact G4]).
  assert (grows a1 a4) as G14 by (etrans; [exact G2|exact G24]).
  exists a4, r1, r2, r3, (match x with Some (p, _) => p | None => no_path end), (match x with Some (_, i) => i | None => None end).
  split.
  - unfold head_fields. cbn [app]. manifest_field (next_value_run (t_version t) m0).
    manifest_field (next_value_run (t_uid t) (m0 <| version := t_version t |>)).
    manifest_field E1. manifest_field (next_value_run (t_kind t) (m1 <| path_arena := a1 |> <| transaction_id := r1 |>)).
    manifest_field (next_value_run (t_phase t)
      (m1 <| path_arena := a1 |> <| transaction_id := r1 |> <| kind := t_kind t |>)).
    manifest_field E2. manifest_field E3.
    erewrite visit_field_run; [|reflexivity|].
    2: { unfold visit_manifest. cbn [String.eqb Ascii.eqb Bool.eqb]. rewrite (bind_run _ _ _ _ _ E4).
         instantiate (2 := head_of t m0 a4 r1 r2 r3 (match x with Some (p, _) => p | None => no_path end)
                             (match x with Some (_, i) => i | None => None end)).
         by destruct x as [[]|]. }
    done.
  - split; [by apply G14|]. split; [by apply G24|]. split; [by apply G4|]. split; [by destruct x as [[]|]; [|rewrite N4]|].
    split; [etrans; [exact G1|exact G14]|]. rewrite S4. change (path_arena m4) with a3. rewrite S3.
    change (path_arena m3) with a2. rewrite S2. change (path_arena m2) with a1. rewrite S1.
    change (path_arena m1) with (path_arena m0). lia.
Qed.

Lemma named_path m a r v : path_arena m = a -> named a r v -> path m r = Ok v.
Proof using Type. intros <- [_ _ _ H]. exact H. Qed.

Lemma option_named_read m a r i o : path_arena m = a -> option_named a r i o ->
  (if ref_len r =? 0 then Ok None else let? p := path m r in Ok (Some (p, i))) = Ok o.
Proof using Type.
  intros Ha. destruct o as [[p j]|]; [intros (Hn & -> & Hne)|by intros [-> ->]].
  rewrite (nm_len _ _ _ Hn), (named_path _ _ _ _ Ha Hn). unfold slen. destruct p as [|c p]; [done|].
  cbn [String.length]. by decide_cmp.
Qed.

Lemma entry_named_reads m e t : entry_named (path_arena m) e t -> entry_reads m e t.
Proof using Type.
  intros ([N1 I1] & N2 & [N3 I3]). unfold entry_reads, staged, final_of.
  rewrite (named_path _ _ _ _ eq_refl N1), (named_path _ _ _ _ eq_refl N3), I1, I3. cbn [obind].
  split; [by destruct (t_staged t)|]. split; [by eapply option_named_read|by destruct (t_final t)].
Qed.

(** The manifest that the fields build up means the text. *)
Lemma read_means t m0 a a' r1 r2 r3 r4 i4 s es ds dn j :
  named a r1 (t_id t) -> named a r2 (t_staging t).1 -> named a r3 (t_output t) -> option_named a r4 i4 (t_directory t) ->
  grows a a' -> segment s 0 (zlen (t_entries t)) = es -> Forall2 (entry_named a') es (t_entries t) ->
  zlen (t_entries t) <= zlen s -> unwrap (slice ds 0 dn) = (Ok (t_created t) : Result _) ->
  means ((head_of t m0 a r1 r2 r3 r4 i4) <| path_arena := a' |> <| slots := s |> <| entry_count := zlen (t_entries t) |>
           <| directory_slots := ds |> <| directory_count := dn |> <| directory_journal_present := j |>) t.
Proof using Type.
  intros N1 N2 N3 N4 Ge Hes HF Hlen Hds. set (mf := _ <| directory_journal_present := j |>).
  assert (path_arena mf = a') as Ha by done. constructor; try done.
  - eapply named_path; [exact Ha|]. by apply Ge.
  - split; [|done]. eapply named_path; [exact Ha|]. by apply Ge.
  - eapply named_path; [exact Ha|]. by apply Ge.
  - eapply option_named_read; [exact Ha|]. by eapply option_named_grows.
  - exists es. split.
    + unfold entries. change (slots mf) with s. change (entry_count mf) with (zlen (t_entries t)).
      pose proof (zlen_nonneg (t_entries t)). rewrite slice_Some by lia. by rewrite Z.sub_0_r, Hes.
    + eapply Forall2_impl; [exact HF|]. intros e x. apply (entry_named_reads mf e x).
Qed.

(** What is read from the JSON of a text means the text. *)
Lemma deserialize_text t slots0 dslots pb : readable t ->
  zlen (t_entries t) <= zlen slots0 -> zlen (t_created t) <= zlen dslots -> text_size t <= zlen pb ->
  zlen pb <= u32_max ->
  exists m, deserialize slots0 dslots pb (text_json t) = Ok m /\ means m t
            /\ zlen (slots m) = zlen slots0 /\ zlen (directory_slots m) = zlen dslots
            /\ zlen (bytes (path_arena m)) = zlen pb /\ directory_journal_present m = (t_version t =? MANIFEST_VERSION).
Proof using laws_identity laws_kind laws_phase laws_state laws_z.
  intros Hrd Hcap Hdcap Hsize Hmax. pose proof (zlen_nonneg pb). pose proof (entries_size_nonneg (t_entries t)).
  set (m0 := empty_manifest slots0 dslots pb). unfold text_size in Hsize. fold (head_size t) in Hsize.
  assert (0 <= head_size t) as Hh.
  { unfold head_size. pose proof (slen_nonneg (t_id t)). pose proof (slen_nonneg (t_staging t).1).
    pose proof (slen_nonneg (t_output t)). pose proof (option_size_nonneg (t_directory t)). lia. }
  assert (room (path_arena m0) (head_size t + entries_size (t_entries t))) as Hr0.
  { constructor; cbn; [split; cbn; lia|done|lia]. }
  assert (zlen (slots m0) = zlen slots0) as Hz0 by (unfold zlen; cbn; by rewrite length_map).
  assert (zlen (directory_slots m0) = zlen dslots) as Hdz0 by (unfold zlen; cbn; by rewrite length_map).
  set (tail := field "entries" (JArray (map entry_text_json (t_entries t)))
    :: (if t_version t =? MANIFEST_VERSION
        then [field "created_directories" (JArray (map directory_json (t_created t)))] else [])).
  destruct (head_run t m0 tail Hrd) as (a & r1 & r2 & r3 & r4 & i4 & Eh & N1 & N2 & N3 & N4 & Gh & Sh);
    [eapply room_le; [exact Hr0|lia]|].
  set (mh := head_of t m0 a r1 r2 r3 r4 i4) in *.
  assert (room (path_arena mh) (entries_size (t_entries t))) as Hrh by (eapply room_next; [exact Hr0|lia..|exact Gh|exact Sh]).
  destruct (entries_seed_run (t_entries t) 0 [] [] mh Hrh (rd_entries _ Hrd)) as (a' & s & es & Ee & Hzs & Hes & HF & Ge & _);
    [done|change (slots mh) with (slots m0); lia|done|constructor|]. rewrite Z.add_0_l in *.
  set (me := mh <| path_arena := a' |> <| slots := s |> <| entry_count := zlen (t_entries t) |>).
  assert (forall ds dn j, unwrap (slice ds 0 dn) = (Ok (t_created t) : Result _) ->
    means (me <| directory_slots := ds |> <| directory_count := dn |> <| directory_journal_present := j |>) t) as Hmeans.
  { intros ds dn j Hds. change (slots mh) with (slots m0) in Hzs.
    apply (read_means t m0 a a' r1 r2 r3 r4 i4 s es); auto. rewrite Hzs. lia. }
  assert (visit_fields visit_manifest tail tt mh = visit_fields visit_manifest
    (if t_version t =? MANIFEST_VERSION then [field "created_directories" (JArray (map directory_json (t_created t)))] else [])
    tt me) as Et.
  { unfold tail. apply visit_field_run; [done|]. unfold visit_manifest. cbn [String.eqb Ascii.eqb Bool.eqb].
    unfold entries_seed, seq_seed. by rewrite (bind_run _ _ _ _ _ Ee). }
  assert (forall m, visit_fields visit_manifest tail tt mh = (m, Ok tt) ->
            deserialize slots0 dslots pb (text_json t) = Ok m) as Hd.
  { intros m Hm. unfold deserialize, text_json. fold (head_fields t).
    change (visit_fields visit_manifest _ tt _) with (visit_fields visit_manifest (head_fields t ++ tail) tt m0).
    by rewrite Eh, Hm. }
  assert (zlen (bytes a') = zlen pb) as Hb by (rewrite (gr_size _ _ Ge); change (path_arena mh) with a; by rewrite (gr_size _ _ Gh)).
  destruct (Z.eqb_spec (t_version t) MANIFEST_VERSION) as [Hv|Hv].
  - destruct (directories_seed_run (t_created t) 0 (me <| directory_journal_present := true |>)) as (ds & Ed & Hzd & Hsd);
      [apply Hrd|done|change (directory_slots _) with (directory_slots m0); lia|]. rewrite Z.add_0_l in *.
    eexists. split; [apply Hd; rewrite Et; erewrite visit_field_run; [|done|]|].
    2: { unfold visit_manifest. cbn [String.eqb Ascii.eqb Bool.eqb]. rewrite bind_get.
         change (directory_journal_present me) with false. msteps. unfold directories_seed, seq_seed.
         rewrite (bind_run _ _ _ _ _ Ed). reflexivity. }
    1: reflexivity.
    change (directory_slots _) with (directory_slots m0) in Hzd.
    split; [|split; [|split; [|split; [|done]]]].
    + apply (Hmeans ds (zlen (t_created t)) true). rewrite slice_Some by (pose proof (zlen_nonneg (t_created t)); lia).
      rewrite Z.sub_0_r. cbn [unwrap]. by rewrite Hsd.
    + by rewrite <-Hz0.
    + cbn. lia.
    + done.
  - exists me. split; [apply Hd; by rewrite Et|]. split; [|split; [by rewrite <-Hz0|split; [by rewrite <-Hdz0|done]]].
    apply (Hmeans (directory_slots me) 0 false). destruct (rd_journal _ Hrd) as [?| ->]; [done|].
    rewrite slice_Some; [done|lia|lia|apply zlen_nonneg].
Qed.

(** C13. A manifest that is serialized and parsed again, into any buffers with enough
    slots and bytes, has the same version, owner, kind, phase, journal and the
    same texts and identities in every place, whatever references the arena
    hands out. *)
Theorem manifest_round_trip {json_text : JsonText} buffer_len m t content slots0 dslots pb :
  means m t -> Forall (fun d => state d <> None) (t_created t) ->
  t_version t = MANIFEST_VERSION \/ t_created t = [] ->
  serialize_bounded buffer_len m = Ok content ->
  first_value (to_writer (text_json t)) = Some (text_json t) ->
  zlen (t_entries t) <= zlen slots0 -> zlen (t_created t) <= zlen dslots ->
  text_size t <= zlen pb -> zlen pb <= u32_max ->
  slen content <= buffer_len
  /\ exists m', parse_manifest slots0 dslots pb content = Ok m' /\ means m' t
       /\ directory_journal_present m' = (t_version t =? MANIFEST_VERSION).
Proof using laws_identity laws_kind laws_phase laws_state laws_z.
  intros Hm Hs Hj Hser Htext H1 H2 H3 H4. unfold serialize_bounded in Hser.
  rewrite (manifest_json_text _ _ Hm) in Hser. cbn [obind] in Hser. destruct (_ <=? _) eqn:E; [|done].
  injection Hser as <-. split; [by apply Z.leb_le|].
  destruct (deserialize_text t slots0 dslots pb (means_readable _ _ Hm Hs Hj) H1 H2 H3 H4) as (m' & Hd & Hm' & _ & _ & _ & Hp).
  exists m'. unfold parse_manifest. by rewrite Htext, Hd.
Qed.
End round_trip.

(** ** Reading any text

    Whatever the text, the reader stays within the buffers it was given. *)
Section reading.
Context {json_z : JsonCodec Z} {json_kind : JsonCodec TransactionKind} {json_phase : JsonCodec ManifestPhase}
  {json_identity : JsonCodec FileIdentity} {json_state : JsonCodec ManifestDirectoryState}.
Context (ns nd nb : Z) (ns_nonneg : 0 <= ns) (nd_nonneg : 0 <= nd).

Record within (m : TransactionManifest) : Prop := mkWithin {
  wi_arena : arena_ok (path_arena m);
  wi_bytes : zlen (bytes (path_arena m)) = nb;
  wi_slots : zlen (slots m) = ns;
  wi_directories : zlen (directory_slots m) = nd;
  wi_entry_count : 0 <= entry_count m <= ns;
  wi_directory_count : 0 <= directory_count m <= nd;
}.

(** A step of the reader that stays within the buffers and does not panic; its
    results satisfy [Q]. *)
Definition reads_within {A} (c : M TransactionManifest string A) (Q : A -> Prop) : Prop :=
  forall m, within m -> match c m with
                        | (_, Panic) => False
                        | (m', Ok a) => within m' /\ Q a
                        | (m', Err _) => within m'
                        end.

Lemma within_weaken {A} (c : M TransactionManifest string A) (Q Q' : A -> Prop) :
  reads_within c Q -> (forall a, Q a -> Q' a) -> reads_within c Q'.
Proof using Type. intros H HQ m Hm. specialize (H m Hm). destruct (c m) as [m' [a|e|]]; [|done|done]. destruct H. auto. Qed.

Lemma within_bind {A B} (c : M TransactionManifest string A) (k : A -> M TransactionManifest string B) Q Q' :
  reads_within c Q -> (forall a, Q a -> reads_within (k a) Q') -> reads_within (bind c k) Q'.
Proof using Type.
  intros Hc Hk m Hm. specialize (Hc m Hm). unfold bind. destruct (c m) as [m' [a|e|]]; [|done|done].
  destruct Hc as [Hm' Ha]. exact (Hk a Ha m' Hm').
Qed.

Lemma within_ret {A} (a : A) (Q : A -> Prop) : Q a -> reads_within (ret a) Q.
Proof using Type. by intros H m Hm. Qed.
Lemma within_fail {A} e (Q : A -> Prop) : reads_within (fail e) Q.
Proof using Type. by intros m Hm. Qed.
Lemma within_get (Q : TransactionManifest -> Prop) : (forall m, within m -> Q m) -> reads_within get Q.
Proof using Type. intros H m Hm. split; [done|by apply H]. Qed.
Lemma within_lift {A} (o : option A) e (Q : A -> Prop) : (forall a, o = Some a -> Q a) -> reads_within (lift (ok_or o e)) Q.
Proof using Type. intros H m Hm. destruct o as [a|]; cbn; [split; [done|by apply H]|done]. Qed.
Lemma within_fail_if b e : reads_within (fail_if b e) (fun _ => True).
Proof using Type. intros m Hm. by destruct b. Qed.
Lemma within_modify f : (forall m, within m -> within (f m)) -> reads_within (modify f) (fun _ => True).
Proof using Type. intros H m Hm. split; [by apply H|done]. Qed.

(** One step of such a proof. *)
Ltac within_step :=
  lazymatch goal with
  | |- reads_within (bind _ _) _ => apply within_bind with (Q := fun _ => True); [|intros]
  | |- reads_within (ret _) _ => by apply within_ret
  | |- reads_within (fail _) _ => apply within_fail
  | |- reads_within get _ => by apply within_get
  | |- reads_within (lift (ok_or _ _)) _ => by apply within_lift
  | |- reads_within (fail_if _ _) _ => apply within_fail_if
  | |- reads_within (modify _) _ => apply within_modify; intros ? []; by constructor
  | |- reads_within (next_value _) _ => by apply within_lift
  | |- reads_within (next_option _) _ => by apply within_lift
  | |- reads_within (match ?x with _ => _ end) _ => destruct x
  end.
Ltac within_steps := repeat first [done | within_step].

Lemma push_within value : reads_within (map_custom (push_path value)) (fun _ => True).
Proof using Type.
  intros m [[A1 A2] B S D E F]. pose proof (slen_nonneg value) as Hv. unfold map_custom, push_path, push.
  rewrite !zlen_text. set (a := path_arena m) in *.
  assert (forall b u, zlen b = nb -> 0 <= u <= zlen b -> within (m <| path_arena := mkPathArena b u |>)) as Hw.
  { intros b u Hb Hu. by constructor. }
  assert (within (m <| path_arena := a |>)) as Hself by by constructor.
  destruct (checked u32_max (slen value)); cbn [ok_or]; msteps; [|exact Hself].
  destruct (add_checked (used a) (slen value)) as [e|] eqn:Ea; cbn [ok_or]; msteps;
    [|exact Hself]. apply add_checked_inv in Ea as [-> _].
  destruct (Z.ltb_spec (zlen (bytes a)) (used a + slen value)) as [Hl|Hl]; msteps; [exact Hself|].
  rewrite copy_into_Some by (rewrite ?zlen_text; lia). cbn [unwrap]. msteps. cbn [used].
  set (bs := segment (bytes a) 0 (used a) ++ _). assert (zlen bs = nb) as Hbs.
  { rewrite <-B. apply (copy_into_length (bytes a) (used a) (String.list_ascii_of_string value)).
    by rewrite copy_into_Some by (rewrite ?zlen_text; lia). }
  destruct (checked u32_max (used a)); cbn [ok_or]; msteps; [split; [|done]|]; apply Hw; try done;
    change (zlen (bytes (a <| bytes := bs |>))) with (zlen bs); lia.
Qed.

Lemma str_seed_within j : reads_within (str_seed j) (fun _ => True).
Proof using Type. unfold str_seed. within_steps. apply push_within. Qed.

Lemma visit_fields_within {A} (visit : A -> string -> Json -> M TransactionManifest string A) fields a :
  (forall a key j, reads_within (visit a key j) (fun _ => True)) -> reads_within (visit_fields visit fields a) (fun _ => True).
Proof using Type.
  intros Hv. revert a. induction fields as [|[k j] fields IH]; intros a; cbn [visit_fields]; [by apply within_ret|].
  unfold next_key. within_steps.
Qed.

Lemma path_seed_within j : reads_within (path_seed j) (fun _ => True).
Proof using Type.
  unfold path_seed. within_steps. apply visit_fields_within. intros a key j'. unfold visit_path, unknown_field.
  within_steps. apply str_seed_within.
Qed.

Lemma option_path_seed_within j : reads_within (option_path_seed j) (fun _ => True).
Proof using Type. unfold option_path_seed. within_steps; apply path_seed_within. Qed.

Lemma zlookup_bound {A} (l : list A) i x : zlookup l i = Some x -> i < zlen l.
Proof using Type. intros H. apply zlookup_Some_lt in H. lia. Qed.

Lemma entry_slot_seed_within index j : reads_within (entry_slot_seed index j) (fun _ => index < ns).
Proof using Type.
  unfold entry_slot_seed. destruct j; try apply within_fail. apply within_bind with (Q := fun _ => True).
  { apply visit_fields_within. intros e key j'. unfold visit_entry, unknown_field. within_steps;
      first [apply path_seed_within|apply option_path_seed_within]. }
  intros e _. apply within_bind with (Q := fun m => zlen (slots m) = ns); [apply within_get; by intros m []|].
  intros m Hm. apply within_bind with (Q := fun _ => index < ns).
  { apply within_lift. intros x Hx. apply zlookup_bound in Hx. lia. }
  intros _ Hi. eapply within_weaken; [apply within_modify|done]. intros m' []. constructor; try done.
  change (zlen (zupdate (slots m') index (fun _ => e)) = ns). by rewrite zlen_zupdate.
Qed.

Lemma directory_slot_seed_within index j : reads_within (directory_slot_seed index j) (fun _ => index < nd).
Proof using Type.
  unfold directory_slot_seed. destruct j; try apply within_fail. apply within_bind with (Q := fun _ => True).
  { apply visit_fields_within. intros [] key j'. unfold visit_directory, unknown_field. within_steps. }
  intros d _. apply within_bind with (Q := fun m => zlen (directory_slots m) = nd); [apply within_get; by intros m []|].
  intros m Hm. apply within_bind with (Q := fun _ => index < nd).
  { apply within_lift. intros x Hx. apply zlookup_bound in Hx. lia. }
  intros _ Hi. do 4 (apply within_bind with (Q := fun _ => True); [by apply within_lift|intros ? _]).
  eapply within_weaken; [apply within_modify|done]. intros m' []. constructor; try done.
  change (zlen (zupdate (directory_slots m') index (fun _ => mkDirectorySlot a a0 (Some a1) a2)) = nd). by rewrite zlen_zupdate.
Qed.

Lemma visit_seq_within element n l count : (forall i j, reads_within (element i j) (fun _ => i < n)) ->
  0 <= count <= n -> reads_within (visit_seq element l count) (fun c => 0 <= c <= n).
Proof using Type.
  intros He. revert count. induction l as [|j l IH]; intros count Hc; cbn [visit_seq]; [by apply within_ret|].
  eapply within_bind; [apply He|]. intros ? Hlt. cbn in Hlt. apply IH. lia.
Qed.

Lemma seq_seed_within element n expected j : (forall i j, reads_within (element i j) (fun _ => i < n)) -> 0 <= n ->
  reads_within (seq_seed element expected j) (fun c => 0 <= c <= n).
Proof using Type. intros He Hn. unfold seq_seed. destruct j; try apply within_fail. apply visit_seq_within; [done|lia]. Qed.

Lemma entries_seed_within j : reads_within (entries_seed j) (fun c => 0 <= c <= ns).
Proof using ns_nonneg. by apply seq_seed_within; [apply entry_slot_seed_within|]. Qed.

Lemma directories_seed_within j : reads_within (directories_seed j) (fun c => 0 <= c <= nd).
Proof using nd_nonneg. by apply seq_seed_within; [apply directory_slot_seed_within|]. Qed.

Lemma visit_manifest_within a key j : reads_within (visit_manifest a key j) (fun _ => True).
Proof using ns_nonneg nd_nonneg.
  unfold visit_manifest. repeat lazymatch goal with
    | |- reads_within (if String.eqb key ?k then _ else _) _ => destruct (String.eqb key k)
    end.
  all: try (eapply within_bind; [apply entries_seed_within|]; intros n Hn; apply within_modify; intros ? []; by constructor).
  all: try (do 3 (apply within_bind with (Q := fun _ => True); [within_steps|intros ? _]);
            eapply within_bind; [apply directories_seed_within|]; intros n Hn; apply within_modify; intros ? []; by constructor).
  all: within_steps; first [apply str_seed_within|apply path_seed_within|apply option_path_seed_within].
Qed.
End reading.

(** Whatever text is read as a manifest, the reader does not panic and stays
    within the caller's buffers: a manifest that it accepts counts no more entries
    and directories than there are slots, and its arena holds the bytes it was
    given; more entries, directories or path bytes than that are an error. *)
Theorem parse_stays_within `{JsonText, JsonCodec Z, JsonCodec TransactionKind, JsonCodec ManifestPhase,
    JsonCodec FileIdentity, JsonCodec ManifestDirectoryState} slots0 dslots pb content :
  match parse_manifest slots0 dslots pb content with
  | Ok m => zlen (slots m) = zlen slots0 /\ zlen (directory_slots m) = zlen dslots
            /\ zlen (bytes (path_arena m)) = zlen pb /\ arena_ok (path_arena m)
            /\ (exists es, entries m = Ok es /\ zlen es = entry_count m /\ entry_count m <= zlen slots0)
            /\ (exists ds, directories m = Ok ds /\ zlen ds = directory_count m /\ directory_count m <= zlen dslots)
  | Err _ => True
  | Panic => False
  end.
Proof.
  unfold parse_manifest. destruct (first_value content) as [j|]; [|done]. unfold deserialize. destruct j; try done.
  set (m0 := empty_manifest slots0 dslots pb).
  assert (within (zlen slots0) (zlen dslots) (zlen pb) m0) as Hw.
  { pose proof (zlen_nonneg slots0). pose proof (zlen_nonneg dslots). pose proof (zlen_nonneg pb).
    constructor; cbn; [split; cbn; lia|done|unfold zlen; by rewrite length_map..|lia|lia]. }
  pose proof (visit_fields_within (zlen slots0) (zlen dslots) (zlen pb) visit_manifest fields tt
    (visit_manifest_within _ _ _ (zlen_nonneg _) (zlen_nonneg _)) m0 Hw) as H'.
  destruct (visit_fields visit_manifest fields tt m0) as [m [[]|e|]]; [|done|done].
  destruct H' as [[A B S D E F] _]. split; [done|]. split; [done|]. split; [done|]. split; [done|].
  unfold entries, directories. rewrite !slice_Some by lia. rewrite !Z.sub_0_r. split.
  - exists (segment (slots m) 0 (entry_count m)). rewrite zlen_segment by lia. split; [done|lia].
  - exists (segment (directory_slots m) 0 (directory_count m)). rewrite zlen_segment by lia. split; [done|lia].
Qed.

(** ** The check before and after publication

    [verify_matches] reads the identity fields with borrowed strings, which
    serde_json can lend only from texts without escapes. *)
Section existing.
Context {json_z : JsonCodec Z} {json_kind : JsonCodec TransactionKind} {json_phase : JsonCodec ManifestPhase}
  {json_identity : JsonCodec FileIdentity} {json_state : JsonCodec ManifestDirectoryState}.
Context {laws_z : JsonLaws Z} {laws_kind : JsonLaws TransactionKind} {laws_identity : JsonLaws FileIdentity}.

Lemma borrowed_str_text s : borrowed_str (str_json s) = if needs_escape s then None else Some s.
Proof using Type. unfold borrowed_str, str_json, json_string. cbn. by destruct (needs_escape s). Qed.

Lemma opt_of_to_json (o : option FileIdentity) : opt_of_json (opt_to_json o) = Some o.
Proof using laws_identity.
  destruct o as [i|]; [|done]. cbn. unfold opt_of_json. pose proof (to_json_null i) as Hn.
  pose proof (of_to_json i) as Hi. destruct (to_json i); try done; by rewrite Hi.
Qed.

(** C37. Of the text of a manifest, the check of the identity fields reads exactly
    the version, owner, id, kind and roots, unless the id or one of the roots
    has a character that JSON escapes (a quote, a backslash, a control
    character): then it rejects the text that the program itself wrote, although
    the reader of recovery accepts it. *)
Theorem existing_check_reads t :
  existing_check (text_json t) =
  if needs_escape (t_id t) || needs_escape (t_staging t).1 || needs_escape (t_output t) then None
  else Some (mkExistingCheck (t_version t) (t_uid t) (t_id t) (t_kind t) (t_staging t).1 (t_output t)).
Proof using laws_identity laws_kind laws_z.
  unfold existing_check, text_json, required_field, path_json, field, option_path_json.
  destruct (t_version t =? MANIFEST_VERSION); cbn [app List.filter json_string text fst snd String.eqb Ascii.eqb Bool.eqb];
    cbn [mbind option_bind]; rewrite !of_to_json, !borrowed_str_text, opt_of_to_json; cbn [mbind option_bind];
    destruct (needs_escape (t_id t)), (needs_escape (t_staging t).1), (needs_escape (t_output t)); done.
Qed.
End existing.
