(* ===== verification/Recovery.v ===== *)
(** * Recovery of interrupted publications (src/recovery.rs)

    A publication writes its manifest before it moves a file. Recovery reads the
    manifest of a transaction that did not end, validates it and either keeps
    the complete set of final files or removes what the transaction owns. It
    decides and removes by the identity of each file, never by its name alone.
    The effective user is the parameter [geteuid]; serde_json is [JsonText] and
    [JsonCodec]. *)
From Stdlib Require Import Ascii.
From S2P Require Import Prelude.
From S2P Require Import Errors.
From S2P Require Import Paths.
From S2P Require Import FileSystem.
From S2P Require Import Manifest.
From S2P Require Import ManifestJson.

Abbreviation R := (M FileSystem LambError).

(** [map_err(|source| io_error(path, source))] *)
Definition io {A} (path : string) (m : FS A) : R A := fun fs =>
  match m fs with
  | (fs', Ok a) => (fs', Ok a)
  | (fs', Err e) => (fs', Err (io_error path (describe e)))
  | (fs', Panic) => (fs', Panic)
  end.

(** The outcome of a call, for a [match] on it. *)
Definition attempt {A} (m : FS A) : R (outcome IoError A) := fun fs =>
  match m fs with
  | (fs', Panic) => (fs', Panic)
  | (fs', o) => (fs', Ok o)
  end.

Definition invalid {A} (message : string) : R A := fail (Validation message).
Definition reject (b : bool) (message : string) : Result unit := if b then Err (Validation message) else Ok tt.

Inductive RecoveryOutcome := OutcomeComplete | OutcomeRolledBack | OutcomePending.

(** ** Files by identity *)

(** [capture_identity] *)
Definition capture_identity (path : string) : R FileIdentity :=
  let! md := io path (symlink_metadata path) in
  if is_symlink md then invalid ("refusing to capture symlink identity: " +:+ path)
  else ret (identity_from_metadata md).

Definition identity_matches (path : string) (expected : FileIdentity) (directory : bool) : R bool :=
  let! r := attempt (symlink_metadata path) in
  match r with
  | Err NotFound => ret false
  | Err e => fail (io_error path (describe e))
  | Panic => panic
  | Ok md =>
      let right_kind := if directory then is_dir md else is_file md in
      ret (negb (is_symlink md) && right_kind && bool_decide (identity_from_metadata md = expected))
  end.

Definition path_exists (path : string) : R bool :=
  let! r := attempt (symlink_metadata path) in
  match r with
  | Ok _ => ret true
  | Err NotFound => ret false
  | Err e => fail (io_error path (describe e))
  | Panic => panic
  end.

Definition read_manifest_identity (path : string) : FS FileIdentity :=
  let! md := symlink_metadata path in
  if is_symlink md || negb (is_file md) then fail (InvalidData "manifest is not a regular file")
  else ret (identity_from_metadata md).

Definition remove_if_identity (path : string) (expected : FileIdentity) : R unit :=
  let! r := attempt (symlink_metadata path) in
  match r with
  | Err NotFound => ret tt
  | Err e => fail (io_error path (describe e))
  | Panic => panic
  | Ok md =>
      if negb (bool_decide (identity_from_metadata md = expected)) then ret tt
      else if is_symlink md || negb (is_file md) then ret tt
      else io path (remove_file path)
  end.

(** The last arm of the cleanups: a failed removal is not an error. *)
Definition removed (m : FS unit) : R bool :=
  let! r := attempt m in
  match r with
  | Ok _ => ret true
  | Err NotFound => ret true
  | Err _ => ret false
  | Panic => panic
  end.

Definition cleanup_file (path : string) (identity : option FileIdentity) : R bool :=
  match identity with
  | None => let! b := path_exists path in ret (negb b)
  | Some identity =>
      let! r := attempt (symlink_metadata path) in
      match r with
      | Err NotFound => ret true
      | Err e => fail (io_error path (describe e))
      | Panic => panic
      | Ok md =>
          if negb (bool_decide (identity_from_metadata md = identity)) then ret true
          else if is_symlink md || negb (is_file md) then ret false
          else removed (remove_file path)
      end
  end.

Definition remove_directory_if_identity (path : string) (identity : option FileIdentity) : R bool :=
  match identity with
  | None => let! b := path_exists path in ret (negb b)
  | Some identity =>
      let! r := attempt (symlink_metadata path) in
      match r with
      | Err NotFound => ret true
      | Err e => fail (io_error path (describe e))
      | Panic => panic
      | Ok md =>
          if negb (bool_decide (identity_from_metadata md = identity)) then ret true
          else if is_symlink md || negb (is_dir md) then ret false
          else removed (remove_dir path)
      end
  end.

Fixpoint all_entries_are (allowed : string) (entries : list string) (directory : string) : R bool :=
  match entries with
  | [] => ret true
  | entry :: rest =>
      let! entry := io directory (next_entry entry) in
      if negb (path_eq entry allowed) then ret false else all_entries_are allowed rest directory
  end.

Definition directory_contains_only (directory allowed : string) : R bool :=
  let! entries := io directory (read_dir directory) in
  all_entries_are allowed entries directory.

Definition sync_directory (path : string) : R unit :=
  let! directory := io path (open_directory_nofollow path) in
  io path (sync_all directory).

Definition sync_owned_directory (path : string) (expected : FileIdentity) : R unit :=
  let! directory := io path (open_directory_nofollow path) in
  let! md := io path (file_metadata directory) in
  fail_if (negb (bool_decide (identity_from_metadata md = expected)))
    (Validation "published directory identity changed before synchronization") ;;
  io path (sync_all directory) ;;
  let! same := identity_matches path expected true in
  fail_if (negb same) (Validation "published directory identity changed during synchronization").

Definition sync_regular_file (path : string) (expected : FileIdentity) : R unit :=
  let! file := io path (open_nofollow path) in
  let! md := io path (file_metadata file) in
  fail_if (negb (is_file md)) (Validation "published path is not a regular file") ;;
  fail_if (negb (bool_decide (identity_from_metadata md = expected)))
    (Validation "published file identity changed before synchronization") ;;
  io path (sync_all file) ;;
  let! same := identity_matches path expected false in
  fail_if (negb same) (Validation "published file identity changed during synchronization").

Fixpoint reject_prefixes (prefix : string) (l : list Component) : R unit :=
  match l with
  | [] => ret tt
  | c :: rest =>
      let prefix := path_join prefix (as_os_str c) in
      let! r := attempt (symlink_metadata prefix) in
      match r with
      | Ok md =>
          if is_symlink md then invalid ("manifest path traverses a symlink: " +:+ prefix)
          else reject_prefixes prefix rest
      | Err NotFound => ret tt
      | Err e => fail (io_error prefix (describe e))
      | Panic => panic
      end
  end.

Definition reject_symlink_path (path : string) : R unit := reject_prefixes "" (components path).

Definition manifest_temp_path (manifest_path transaction_id : string) : Result string :=
  let? name := ok_or (file_name manifest_path ≫= to_str) (Validation "manifest filename is invalid") in
  Ok (with_file_name manifest_path ("." +:+ name +:+ "." +:+ transaction_id +:+ ".tmp")).

Definition cleanup_dump_temp_manifest (manifest_path transaction_id : string) : R bool :=
  let! temp_path := lift (manifest_temp_path manifest_path transaction_id) in
  let! r := attempt (symlink_metadata temp_path) in
  match r with
  | Err NotFound => ret true
  | Err e => fail (io_error temp_path (describe e))
  | Panic => panic
  | Ok md => if is_symlink md || negb (is_file md) then ret true else removed (remove_file temp_path)
  end.

(** ** Validation of paths *)

Definition validate_component (component description : string) : Result unit :=
  match components component with
  | [Normal _] => Ok tt
  | _ => Err (Validation (description +:+ " is not a safe path component"))
  end.

Definition dots (c : Component) : bool := match c with CurDir | ParentDir => true | _ => false end.
Definition is_normal (c : Component) : bool := match c with Normal _ => true | _ => false end.

Definition validate_lexical_path (path : string) : Result unit :=
  reject (negb (is_absolute path) || existsb dots (components path))
    ("path is not absolute and lexically canonical: " +:+ path).

Definition validate_contained (root path : string) : Result unit :=
  let? _ := validate_lexical_path path in
  let? relative := ok_or (Paths.strip_prefix path root)
                     (Validation ("path escapes approved root " +:+ root +:+ ": " +:+ path)) in
  reject (match relative with [] => true | _ => existsb (fun c => negb (is_normal c)) relative end)
    ("path is not canonically contained by " +:+ root +:+ ": " +:+ path).

Definition validate_direct_child (dir path : string) : Result unit :=
  let? _ := validate_contained dir path in
  let? relative := unwrap (Paths.strip_prefix path dir) in
  match relative with
  | [c] =>
      let? name := ok_or (to_str (as_os_str c)) (Validation "manifest path is not valid UTF-8") in
      validate_component name "manifest filename"
  | _ => Err (Validation ("path is not an adjacent child of " +:+ dir +:+ ": " +:+ path))
  end.

(** A [HashSet<PathBuf>] as the components of its paths. *)
Definition insert_unique_path (paths : list (list Component)) (path : string)
    : Result (list (list Component)) :=
  if bool_decide (components path ∈ paths)
  then Err (Validation ("transaction manifest contains duplicate path " +:+ path))
  else Ok (components path :: paths).

(** ** Validation of manifests *)

Section validation.
Context (geteuid : Z).

Definition version_matches (m : TransactionManifest) : bool :=
  match kind m with
  | Recall | Dump => version m =? LEGACY_MANIFEST_VERSION
  | FileSet | AtomicDirectory => version m =? MANIFEST_VERSION
  end.

Definition validate_manifest_basics (m : TransactionManifest) : Result unit :=
  let? _ := reject (negb (version m =? MANIFEST_VERSION) && negb (version m =? LEGACY_MANIFEST_VERSION))
              ("unsupported transaction manifest version " +:+ pretty (version m)) in
  let? _ := reject (negb (version_matches m)) "transaction manifest version and strategy do not match" in
  let? _ := reject (negb (uid m =? geteuid)) "transaction manifest belongs to a different uid" in
  let? id := transaction_id_str m in
  let? _ := validate_component id "transaction id" in
  let? _ := reject (entry_count m =? 0) "transaction manifest has no file entries" in
  let? _ := reject ((version m =? MANIFEST_VERSION) && negb (directory_journal_present m))
              "version-two manifest omits created directory journal" in
  reject ((version m =? LEGACY_MANIFEST_VERSION) && negb (directory_count m =? 0))
    "version-one manifest may not contain created directory journal".

(** The kind a recovery function expects, [FileSet] or [AtomicDirectory]. *)
Definition kind_matches (expected : TransactionKind) (m : TransactionManifest) : bool :=
  match expected, kind m with
  | FileSet, Recall | AtomicDirectory, Dump => version m =? LEGACY_MANIFEST_VERSION
  | FileSet, FileSet | AtomicDirectory, AtomicDirectory => version m =? MANIFEST_VERSION
  | _, _ => false
  end.

Definition is_file_set (k : TransactionKind) : bool :=
  match k with Recall | FileSet => true | Dump | AtomicDirectory => false end.

Definition validate_roots (m : TransactionManifest) (expected_kind : TransactionKind)
    (expected_staging_root expected_output_root manifest_path : string) : Result unit :=
  let? _ := validate_lexical_path expected_staging_root in
  let? _ := validate_lexical_path expected_output_root in
  let? staging_root := path m (staging_root_path m) in
  let? output := path m (output_root m) in
  let? _ := reject (negb (path_eq staging_root expected_staging_root) || negb (path_eq output expected_output_root))
              "transaction manifest roots do not match approved recovery roots" in
  let? _ := reject (bool_decide (staging_root_identity m = None))
              "transaction staging root has no recorded identity" in
  let? id := transaction_id_str m in
  let? expected_name := match expected_kind with
                        | FileSet => Ok id
                        | AtomicDirectory => Ok (".tmp-lamb-" +:+ id)
                        | _ => Panic
                        end in
  let? _ := reject (negb (bool_decide (file_name staging_root ≫= to_str = Some expected_name)))
              "transaction id does not match its staging directory" in
  let? _ := match phase m with
            | Publishing index =>
                reject (entry_count m <=? index) "manifest publication index exceeds its file entries"
            | _ => Ok tt
            end in
  if bool_decide (expected_kind = FileSet)
  then reject (negb (path_eq manifest_path (path_join expected_staging_root RECALL_MANIFEST_NAME)))
         "recall manifest is not inside its transaction directory"
  else reject (negb (bool_decide (file_name manifest_path ≫= to_str = Some ("." +:+ id +:+ ".manifest.json"))))
         "dump manifest name does not match its transaction id".

(** One turn of the loop over the journal of created directories; [previous] are
    the paths of the earlier ones. *)
Fixpoint check_previous (previous : list string) (p : string) : Result unit :=
  match previous with
  | [] => Ok tt
  | q :: rest =>
      let? _ := reject (path_eq q p) "created directory journal contains duplicate derived path" in
      let? _ := reject (path_starts_with q p && negb (path_eq q p))
                  "created directory journal is not parent-first" in
      check_previous rest p
  end.

Fixpoint validate_directories (m : TransactionManifest) (expected_output_root : string)
    (l : list ManifestDirectorySlot) (previous : list string) : Result unit :=
  match l with
  | [] => Ok tt
  | directory :: rest =>
      let? p := directory_path m directory in
      let? es := entries m in
      let? e := ok_or (zlookup es (entry_index directory))
                  (Validation "directory entry index exceeds sparse entry count") in
      let? (final, _) := final_of m e in
      let? _ := validate_contained expected_output_root p in
      let? _ := validate_contained p final in
      let? _ := reject (path_eq p expected_output_root) "created directory journal may not own output root" in
      let? _ := check_previous previous p in
      let? _ := match state directory, identity directory with
                | Some Intent, None | Some Owned, Some _ => Ok tt
                | _, _ => Err (Validation "created directory journal state and identity disagree")
                end in
      validate_directories m expected_output_root rest (previous ++ [p])
  end.

(** The adjacent partial of a recall entry. *)
Definition validate_partial (m : TransactionManifest) (e : ManifestEntrySlot) (final : string)
    (paths : list (list Component)) : Result (list (list Component)) :=
  let? o := partial m e in
  let? (partial_path, _) := ok_or o (Validation "recall entry has no adjacent partial path") in
  let? final_parent := ok_or (parent final) (Validation "final path has no parent") in
  let? _ := reject (match parent partial_path with Some p => negb (path_eq p final_parent) | None => true end)
              "file-set partial is not adjacent to its final" in
  let? name := ok_or (file_name partial_path ≫= to_str) (Validation "partial path has an invalid filename") in
  let? _ := validate_component name "partial filename" in
  let? _ := reject (negb (str_starts_with name ".") || negb (str_ends_with name ".partial"))
              "recall partial filename is not transaction-hidden" in
  insert_unique_path paths partial_path.

Definition validate_dump_entry (m : TransactionManifest) (e : ManifestEntrySlot)
    (staging_root staged final : string) : Result unit :=
  let? o := partial m e in
  let? _ := reject (match o with Some _ => true | None => false end) "dump entry must not contain a partial file" in
  let? d := final_directory m in
  let? (directory, _) := unwrap d in
  let? _ := validate_direct_child staging_root staged in
  validate_direct_child directory final.

Definition validate_entry (m : TransactionManifest) (expected_kind : TransactionKind)
    (expected_staging_root expected_output_root staging_root : string) (e : ManifestEntrySlot)
    (paths : list (list Component)) : R (list (list Component)) :=
  let! (staged, _) := lift (staged m e) in
  let! (final, _) := lift (final_of m e) in
  lift (validate_contained expected_staging_root staged) ;;
  lift (validate_contained expected_output_root final) ;;
  let! staged_parent := lift (ok_or (parent staged) (Validation "staged path has no parent")) in
  lift (validate_direct_child staged_parent staged) ;;
  let! paths :=
    if bool_decide (expected_kind = FileSet) then lift (validate_partial m e final paths)
    else lift (let? _ := validate_dump_entry m e staging_root staged final in Ok paths) in
  let! paths := lift (insert_unique_path paths staged) in
  let! paths := lift (insert_unique_path paths final) in
  reject_symlink_path staged ;;
  let! o := lift (partial m e) in
  match o with Some (partial_path, _) => reject_symlink_path partial_path | None => ret tt end ;;
  reject_symlink_path final ;;
  ret paths.

Fixpoint validate_entries (m : TransactionManifest) (expected_kind : TransactionKind)
    (expected_staging_root expected_output_root staging_root : string) (l : list ManifestEntrySlot)
    (paths : list (list Component)) : R unit :=
  match l with
  | [] => ret tt
  | e :: rest =>
      let! paths := validate_entry m expected_kind expected_staging_root expected_output_root staging_root e paths in
      validate_entries m expected_kind expected_staging_root expected_output_root staging_root rest paths
  end.

(** The roots in the set of paths, with the final directory of a dump. *)
Definition validate_root_paths (m : TransactionManifest) (expected_kind : TransactionKind)
    (expected_output_root staging_root manifest_path : string) : Result (list (list Component)) :=
  let? paths := insert_unique_path [] staging_root in
  let? paths := insert_unique_path paths manifest_path in
  let? final := final_directory m in
  if bool_decide (expected_kind = AtomicDirectory) then
    let? (final_directory, _) := ok_or final (Validation "dump manifest has no final directory") in
    let? _ := validate_direct_child expected_output_root staging_root in
    let? _ := validate_direct_child expected_output_root final_directory in
    insert_unique_path paths final_directory
  else
    let? _ := reject (match final with Some _ => true | None => false end)
                "recall manifest must not name a final directory" in
    Ok paths.

Definition has_partial (e : ManifestEntrySlot) : bool := negb (bool_decide (partial_identity e = None)).
Definition has_final (e : ManifestEntrySlot) : bool := negb (bool_decide (final_identity e = None)).

(** The identities of one entry in the phase [Publishing]. *)
Definition publishing_entry_valid (active index : Z) (e : ManifestEntrySlot) : bool :=
  if index <? active then has_final e && negb (has_partial e)
  else if index =? active then negb (has_final e && has_partial e)
  else negb (has_final e) && negb (has_partial e).

Fixpoint publishing_valid (active index : Z) (l : list ManifestEntrySlot) : bool :=
  match l with
  | [] => true
  | e :: rest => publishing_entry_valid active index e && publishing_valid active (index + 1) rest
  end.

Definition validate_phase_state (m : TransactionManifest) : Result unit :=
  if negb (is_file_set (kind m)) then
    let? _ := match phase m with
              | Publishing _ => Err (Validation "dump manifest has an impossible publishing phase")
              | _ => Ok tt
              end in
    let? d := final_directory m in
    let? directory_identity := ok_or (d ≫= snd) (Validation "dump final directory identity is missing") in
    let? es := entries m in
    reject (negb (bool_decide (staging_root_identity m = Some directory_identity))
            || existsb (fun e => bool_decide (staged_identity e = None)
                                 || negb (bool_decide (final_identity e = staged_identity e))) es)
      "dump manifest identities do not describe one directory rename"
  else
    let? es := entries m in
    match phase m with
    | Prepared =>
        reject (existsb (fun e => has_final e || has_partial e) es)
          "prepared recall manifest contains publication identities"
    | Complete =>
        reject (existsb (fun e => negb (has_final e) || has_partial e) es)
          "complete recall manifest has incomplete identities"
    | Publishing active =>
        reject (negb (publishing_valid active 0 es)) "recall manifest identities contradict publication phase"
    end.

(** [HashSet::insert] of an identity, if there is one. *)
Definition insert_identity (o : option FileIdentity) (seen : list FileIdentity) : Result (list FileIdentity) :=
  match o with
  | None => Ok seen
  | Some i =>
      if bool_decide (i ∈ seen) then Err (Validation "transaction manifest contains duplicate owned identity")
      else Ok (i :: seen)
  end.

Fixpoint insert_identities (l : list (option FileIdentity)) (seen : list FileIdentity)
    : Result (list FileIdentity) :=
  match l with
  | [] => Ok seen
  | o :: rest => let? seen := insert_identity o seen in insert_identities rest seen
  end.

(** The identities that an entry adds to the set. *)
Definition entry_identities (k : TransactionKind) (e : ManifestEntrySlot) : list (option FileIdentity) :=
  staged_identity e :: (if is_file_set k then [partial_identity e; final_identity e] else []).

Definition validate_identity_uniqueness (m : TransactionManifest) : Result unit :=
  let? es := entries m in
  let? seen := insert_identities (staging_root_identity m :: concat (map (entry_identities (kind m)) es)) [] in
  let? ds := directories m in
  let? _ := insert_identities (map identity ds) seen in
  Ok tt.

Definition validate_manifest (m : TransactionManifest) (expected_kind : TransactionKind)
    (expected_staging_root expected_output_root manifest_path : string) : R unit :=
  lift (validate_manifest_basics m) ;;
  lift (reject (negb (kind_matches expected_kind m)) "transaction manifest kind does not match recovery API") ;;
  lift (validate_roots m expected_kind expected_staging_root expected_output_root manifest_path) ;;
  reject_symlink_path expected_staging_root ;;
  reject_symlink_path expected_output_root ;;
  reject_symlink_path manifest_path ;;
  let! staging_root := lift (path m (staging_root_path m)) in
  let! paths := lift (validate_root_paths m expected_kind expected_output_root staging_root manifest_path) in
  (if bool_decide (expected_kind = FileSet)
   then let! ds := lift (directories m) in lift (validate_directories m expected_output_root ds [])
   else lift (reject (negb (directory_count m =? 0))
                "atomic-directory manifest may not contain created directory journal")) ;;
  let! es := lift (entries m) in
  validate_entries m expected_kind expected_staging_root expected_output_root staging_root es paths ;;
  lift (validate_phase_state m) ;;
  lift (validate_identity_uniqueness m).
End validation.

(** ** The decision *)

Definition publishes (m : TransactionManifest) (index : Z) : bool :=
  match phase m with Publishing active => active =? index | _ => false end.

(** An entry that was being moved when the publication ended has its final
    identity once the partial file is gone. *)
Definition inferred_final_identity (m : TransactionManifest) (index : Z) : R (option FileIdentity) :=
  let! es := lift (entries m) in
  let! e := lift (unwrap (zlookup es index)) in
  if has_final e then ret (final_identity e)
  else if negb (publishes m index) then ret None
  else
    match partial_identity e with
    | None => ret None
    | Some partial_identity =>
        let! o := lift (partial m e) in
        let! (partial_path, _) := lift (unwrap o) in
        let! exists_ := path_exists partial_path in
        ret (if exists_ then None else Some partial_identity)
    end.

(** The loop over the entries, from [index] on. *)
Fixpoint finals_match (m : TransactionManifest) (index : Z) (l : list ManifestEntrySlot) : R bool :=
  match l with
  | [] => ret true
  | e :: rest =>
      let! identity := inferred_final_identity m index in
      match identity with
      | None => ret false
      | Some identity =>
          let! (final_path, _) := lift (final_of m e) in
          let! same := identity_matches final_path identity false in
          if same then finals_match m (index + 1) rest else ret false
      end
  end.

Definition complete_final_set (m : TransactionManifest) : R bool :=
  let! directory_matches :=
    if negb (is_file_set (kind m)) then
      let! d := lift (final_directory m) in
      match d with
      | Some (final_directory_path, Some identity) => identity_matches final_directory_path identity true
      | _ => ret false
      end
    else ret true in
  if negb directory_matches then ret false
  else let! es := lift (entries m) in finals_match m 0 es.

(** ** Synchronization of the parents of a file set *)

(** The end of the component of [parent] that starts after [end_]. *)
Definition next_end (parent : string) (end_ : Z) : Result Z :=
  let? tail := unwrap (str_suffix parent (end_ + 1)) in
  match Paths.find (Ascii.eqb slash) tail with
  | Some (before, _) => Ok (end_ + 1 + slen before)
  | None => Ok (slen parent)
  end.

(** An earlier entry has a parent at or under [candidate]. *)
Fixpoint seen_before (m : TransactionManifest) (candidate : string) (prior : list ManifestEntrySlot)
    : Result bool :=
  match prior with
  | [] => Ok false
  | e :: rest =>
      let? (final, _) := final_of m e in
      if match parent final with Some p => path_starts_with p candidate | None => false end then Ok true
      else seen_before m candidate rest
  end.

Definition sync_ancestors_turn (m : TransactionManifest) (parent : string) (prior : list ManifestEntrySlot)
    (end_ : Z) : R (Z + unit) :=
  if slen parent <=? end_ then ret (inr tt)
  else
    let! end_ := lift (next_end parent end_) in
    let! candidate := lift (unwrap (str_prefix parent end_)) in
    let! seen := lift (seen_before m candidate prior) in
    (if seen then ret tt else sync_directory candidate) ;;
    ret (if end_ =? slen parent then inr tt else inl end_).

Fixpoint sync_parents (m : TransactionManifest) (output_root : string) (prior l : list ManifestEntrySlot)
    : R unit :=
  match l with
  | [] => ret tt
  | e :: rest =>
      let! (final, _) := lift (final_of m e) in
      match Paths.parent final with
      | None => ret tt
      | Some parent =>
          let! root := lift (ok_or (to_str output_root) (Validation "output root is not valid UTF-8")) in
          let! parent := lift (ok_or (to_str parent) (Validation "final parent is not valid UTF-8")) in
          mloop (sync_ancestors_turn m parent prior) (slen root)
      end ;;
      sync_parents m output_root (prior ++ [e]) rest
  end.

Definition sync_file_set_directories (m : TransactionManifest) (output_root : string) : R unit :=
  sync_directory output_root ;;
  let! es := lift (entries m) in
  sync_parents m output_root [] es.

(** [best_effort_remove_recall_metadata]: failures are ignored. *)
Fixpoint cleanup_entries (m : TransactionManifest) (l : list ManifestEntrySlot) : R unit :=
  match l with
  | [] => ret tt
  | e :: rest =>
      let! (staged_path, staged_identity) := lift (staged m e) in
      let! _ := catch (cleanup_file staged_path staged_identity) in
      let! o := lift (partial m e) in
      match o with
      | Some (partial_path, partial_identity) => let! _ := catch (cleanup_file partial_path partial_identity) in ret tt
      | None => ret tt
      end ;;
      cleanup_entries m rest
  end.

Definition best_effort_remove_recall_metadata (m : TransactionManifest) (manifest_path : string)
    (manifest_identity : FileIdentity) : R unit :=
  let! es := lift (entries m) in
  cleanup_entries m es ;;
  let! staging_root := lift (path m (staging_root_path m)) in
  let! only := catch (directory_contains_only staging_root manifest_path) in
  match only with
  | Ok true =>
      let! _ := catch (remove_if_identity manifest_path manifest_identity) in
      let! _ := catch (remove_directory_if_identity staging_root (staging_root_identity m)) in
      ret tt
  | _ => ret tt
  end.

(** ** Reading a manifest *)

Section recovery.
Context `{JsonText}.
Context `{JsonCodec Z, JsonCodec TransactionKind, JsonCodec ManifestPhase, JsonCodec FileIdentity,
          JsonCodec ManifestDirectoryState}.
Context (geteuid : Z).

(** The reading loop of [read_file_bounded]; its state is what was read. *)
Definition read_turn (manifest_path : string) (buffer_len : Z) (file : Node) (read : string)
    : R (string + string) :=
  if slen read <? buffer_len then
    let! chunk := io manifest_path (file_read file (slen read) (buffer_len - slen read)) in
    ret (if String.eqb chunk "" then inr read else inl (read +:+ chunk))
  else ret (inr read).

(** [read_file_bounded], into a buffer of [buffer_len] bytes. *)
Definition read_file_bounded (buffer_len : Z) (manifest_path : string) : R string :=
  fail_if (buffer_len =? 0) (Validation "manifest buffer must not be empty") ;;
  let! file := io manifest_path (open_nofollow manifest_path) in
  let! md := io manifest_path (file_metadata file) in
  fail_if (negb (is_file md)) (Validation "manifest must be a regular file") ;;
  let! read := mloop (read_turn manifest_path buffer_len file) "" in
  if slen read =? buffer_len then
    let! extra := io manifest_path (file_read file (slen read) 1) in
    fail_if (negb (String.eqb extra "")) (Validation "manifest exceeds the fixed recovery buffer") ;;
    ret read
  else ret read.

(** The caller's buffers: their lengths and slots. *)
Record Buffers := mkBuffers {
  buffer_len : Z;
  entry_slots : list ManifestEntrySlot;
  created_slots : list ManifestDirectorySlot;
  path_buffer : list ascii;
}.

Definition read_with_identity_directories (b : Buffers) (manifest_path : string)
    : R (TransactionManifest * FileIdentity) :=
  let! content := read_file_bounded (buffer_len b) manifest_path in
  let! r := attempt (read_manifest_identity manifest_path) in
  match r with
  | Err e => invalid ("failed to read manifest identity: " +:+ describe e)
  | Panic => panic
  | Ok identity =>
      let! m := lift (parse_manifest (entry_slots b) (created_slots b) (path_buffer b) content) in
      ret (m, identity)
  end.

(** [read_with_identity]: without slots for created directories. *)
Definition without_directories (b : Buffers) : Buffers :=
  mkBuffers (buffer_len b) (entry_slots b) [] (path_buffer b).

(** [read_identity_fields] *)
Definition read_identity_fields (buffer_len : Z) (manifest_path : string) : R ExistingManifestCheck :=
  let! content := read_file_bounded buffer_len manifest_path in
  lift (ok_or (from_slice content ≫= existing_check) (malformed "syntax")).

Definition existing_matches (previous : ExistingManifestCheck) (m : TransactionManifest) : Result bool :=
  let? id := transaction_id_str m in
  let? staging := path m (staging_root_path m) in
  let? output := path m (output_root m) in
  Ok ((ex_version previous =? version m) && (ex_uid previous =? uid m)
      && String.eqb (ex_transaction_id previous) id && bool_decide (ex_kind previous = kind m)
      && path_eq (ex_staging_root previous) staging && path_eq (ex_output_root previous) output).

(** [verify_matches] and [verify_manifest_matches] *)
Definition verify_matches (buffer_len : Z) (manifest_path : string) (expected : TransactionManifest) : R unit :=
  let! previous := read_identity_fields buffer_len manifest_path in
  let! same := lift (existing_matches previous expected) in
  fail_if (negb same) (Validation "transaction manifest changed before publication outcome").

Definition verify_manifest_matches (buffer_len : Z) (manifest_path : string) (expected : TransactionManifest)
    : R FileIdentity :=
  let! identity := io manifest_path (read_manifest_identity manifest_path) in
  verify_matches buffer_len manifest_path expected ;;
  ret identity.

(** ** Recovery of a recall *)

Fixpoint sync_finals (m : TransactionManifest) (index : Z) (l : list ManifestEntrySlot) : R unit :=
  match l with
  | [] => ret tt
  | e :: rest =>
      let! o := inferred_final_identity m index in
      let! identity := lift (ok_or o (Validation "complete recall identity disappeared")) in
      let! (final_path, _) := lift (final_of m e) in
      sync_regular_file final_path identity ;;
      sync_finals m (index + 1) rest
  end.

(** The cleanup of one entry: whether all of its files are gone. *)
Definition rollback_entry (m : TransactionManifest) (index : Z) (e : ManifestEntrySlot) : R bool :=
  let! (final_path, _) := lift (final_of m e) in
  let! final_identity := inferred_final_identity m index in
  let! final_gone := cleanup_file final_path final_identity in
  let! o := lift (partial m e) in
  let! partial_gone :=
    match o with
    | Some (partial_path, partial_identity) => cleanup_file partial_path partial_identity
    | None => ret true
    end in
  let! (staged_path, staged_identity) := lift (staged m e) in
  let! staged_gone := cleanup_file staged_path staged_identity in
  ret (final_gone && partial_gone && staged_gone).

Fixpoint rollback_entries (m : TransactionManifest) (index : Z) (l : list ManifestEntrySlot) (pending : bool)
    : R bool :=
  match l with
  | [] => ret pending
  | e :: rest =>
      let! gone := rollback_entry m index e in
      rollback_entries m (index + 1) rest (pending || negb gone)
  end.

Fixpoint remove_created (m : TransactionManifest) (l : list ManifestDirectorySlot) : R unit :=
  match l with
  | [] => ret tt
  | directory :: rest =>
      (if bool_decide (state directory = Some Owned) then
         let! p := lift (directory_path m directory) in
         let! _ := remove_directory_if_identity p (identity directory) in ret tt
       else ret tt) ;;
      remove_created m rest
  end.

Definition finish_recall (m : TransactionManifest) (output_root manifest_path : string)
    (manifest_identity : FileIdentity) : R RecoveryOutcome :=
  let! es := lift (entries m) in
  sync_finals m 0 es ;;
  sync_file_set_directories m output_root ;;
  best_effort_remove_recall_metadata m manifest_path manifest_identity ;;
  let! staging_root := lift (path m (staging_root_path m)) in
  match Paths.parent staging_root with
  | Some parent => let! _ := catch (sync_directory parent) in ret tt
  | None => ret tt
  end ;;
  ret OutcomeComplete.

Definition rollback_recall (m : TransactionManifest) (manifest_path : string)
    (manifest_identity : FileIdentity) : R RecoveryOutcome :=
  let! es := lift (entries m) in
  let! pending := rollback_entries m 0 es false in
  if pending then ret OutcomePending
  else
    let! ds := lift (directories m) in
    remove_created m (reverse ds) ;;
    let! staging_root := lift (path m (staging_root_path m)) in
    let! only := directory_contains_only staging_root manifest_path in
    if negb only then ret OutcomePending
    else
      remove_if_identity manifest_path manifest_identity ;;
      let! gone := remove_directory_if_identity staging_root (staging_root_identity m) in
      ret (if gone then OutcomeRolledBack else OutcomePending).

Definition recover_recall_root_with_directories (b : Buffers) (transaction_root output_root : string)
    : R RecoveryOutcome :=
  let manifest_path := path_join transaction_root RECALL_MANIFEST_NAME in
  let! (m, manifest_identity) := read_with_identity_directories b manifest_path in
  validate_manifest geteuid m FileSet transaction_root output_root manifest_path ;;
  let! complete := complete_final_set m in
  if complete then finish_recall m output_root manifest_path manifest_identity
  else rollback_recall m manifest_path manifest_identity.

(** [recover_recall_root]: for manifests without a journal of directories. *)
Definition recover_recall_root (b : Buffers) (transaction_root output_root : string) : R RecoveryOutcome :=
  recover_recall_root_with_directories (without_directories b) transaction_root output_root.

(** ** Recovery of a dump *)

Fixpoint sync_dump_finals (m : TransactionManifest) (l : list ManifestEntrySlot) : R unit :=
  match l with
  | [] => ret tt
  | e :: rest =>
      let! (final_path, final_identity) := lift (final_of m e) in
      let! identity := lift (ok_or final_identity (Validation "complete dump identity disappeared")) in
      sync_regular_file final_path identity ;;
      sync_dump_finals m rest
  end.

(** The end of both branches: the manifest goes, then its temporary file. *)
Definition remove_dump_manifest (m : TransactionManifest) (manifest_path : string)
    (manifest_identity : FileIdentity) : R bool :=
  remove_if_identity manifest_path manifest_identity ;;
  let! id := lift (transaction_id_str m) in
  cleanup_dump_temp_manifest manifest_path id.

Definition no_final_directory : LambError := Validation "dump manifest has no final directory".

Definition finish_dump (m : TransactionManifest) (output_parent manifest_path : string)
    (manifest_identity : FileIdentity) : R RecoveryOutcome :=
  let! es := lift (entries m) in
  sync_dump_finals m es ;;
  let! d := lift (final_directory m) in
  let! (directory, identity) := lift (ok_or d no_final_directory) in
  let! identity := lift (ok_or identity (Validation "complete dump directory identity disappeared")) in
  sync_owned_directory directory identity ;;
  sync_directory output_parent ;;
  let! gone := remove_dump_manifest m manifest_path manifest_identity in
  if negb gone then ret OutcomePending
  else sync_directory output_parent ;; ret OutcomeComplete.

Fixpoint cleanup_staged (m : TransactionManifest) (l : list ManifestEntrySlot) : R bool :=
  match l with
  | [] => ret true
  | e :: rest =>
      let! (staged_path, staged_identity) := lift (staged m e) in
      let! gone := cleanup_file staged_path staged_identity in
      if negb gone then ret false else cleanup_staged m rest
  end.

(** The final directory is there and may be the transaction's own. *)
Definition final_directory_blocks (directory : string) (identity : option FileIdentity) : R bool :=
  let! exists_ := path_exists directory in
  if negb exists_ then ret false
  else
    match identity with
    | None => ret true
    | Some identity => identity_matches directory identity true
    end.

Definition rollback_dump (m : TransactionManifest) (manifest_path : string)
    (manifest_identity : FileIdentity) : R RecoveryOutcome :=
  let! d := lift (final_directory m) in
  let! (directory, identity) := lift (ok_or d no_final_directory) in
  let! blocked := final_directory_blocks directory identity in
  if blocked then ret OutcomePending
  else
    let! es := lift (entries m) in
    let! gone := cleanup_staged m es in
    if negb gone then ret OutcomePending
    else
      let! staging_root := lift (path m (staging_root_path m)) in
      let! gone := remove_directory_if_identity staging_root (staging_root_identity m) in
      if negb gone then ret OutcomePending
      else
        let! gone := remove_dump_manifest m manifest_path manifest_identity in
        ret (if gone then OutcomeRolledBack else OutcomePending).

Definition recover_dump_parent (b : Buffers) (output_parent manifest_path : string) : R RecoveryOutcome :=
  let! (m, manifest_identity) := read_with_identity_directories (without_directories b) manifest_path in
  let! staging_root := lift (path m (staging_root_path m)) in
  validate_manifest geteuid m AtomicDirectory staging_root output_parent manifest_path ;;
  let! complete := complete_final_set m in
  if complete then finish_dump m output_parent manifest_path manifest_identity
  else rollback_dump m manifest_path manifest_identity.

(** ** The scan at startup *)

Record RecoveryIssue := mkIssue { issue_path : string; issue_error : string }.

Record RecoveryScanSummary := mkScan {
  discovered : Z;
  completed : Z;
  rolled_back : Z;
  pending : Z;
  failed : Z;
  issues : list RecoveryIssue;
}.

#[export] Instance RecoveryScanSummary_eta : Eta RecoveryScanSummary := fun r =>
  mkScan (discovered r) (completed r) (rolled_back r) (pending r) (failed r) (issues r).

Definition empty_scan : RecoveryScanSummary := mkScan 0 0 0 0 0 [].

Definition merge (s other : RecoveryScanSummary) : RecoveryScanSummary :=
  mkScan (discovered s + discovered other) (completed s + completed other)
    (rolled_back s + rolled_back other) (pending s + pending other) (failed s + failed other)
    (issues s ++ issues other).

Definition incomplete : string := "recovery incomplete; transaction remains pending".

(** The [match] on the outcome of one transaction. *)
Definition count_outcome (path : string) (r : Result RecoveryOutcome) (s : RecoveryScanSummary)
    : RecoveryScanSummary :=
  match r with
  | Ok OutcomeComplete => s <| completed ::= Z.add 1 |>
  | Ok OutcomeRolledBack => s <| rolled_back ::= Z.add 1 |>
  | Ok OutcomePending => s <| pending ::= Z.add 1 |> <| issues ::= fun l => l ++ [mkIssue path incomplete] |>
  | Err e => s <| failed ::= Z.add 1 |> <| issues ::= fun l => l ++ [mkIssue path (display e)] |>
  | Panic => s
  end.

(** The body of the loop of a scan: [marked] says whether an entry is a
    transaction, [recover] recovers it. A failed step ends the iteration. *)
Section scan.
Context (marked : string -> R bool) (recover : string -> R RecoveryOutcome).

Fixpoint scan_entries (l : list string) (s : RecoveryScanSummary) : R RecoveryScanSummary :=
  match l with
  | [] => ret s
  | entry :: rest =>
      let! r := attempt (next_entry entry) in
      match r with
      | Ok entry =>
          let! b := marked entry in
          if negb b then scan_entries rest s
          else
            let! r := catch (recover entry) in
            scan_entries rest (count_outcome entry r (s <| discovered ::= Z.add 1 |>))
      | Err _ => ret s
      | Panic => panic
      end
  end.

Definition scan (root : string) : R RecoveryScanSummary :=
  let! r := attempt (read_dir root) in
  match r with
  | Ok l => scan_entries l empty_scan
  | Err _ => ret empty_scan
  | Panic => panic
  end.
End scan.

(** [Path::is_dir] and [Path::is_file]: an error is [false]. *)
Definition path_is (f : Node -> bool) (path : string) : R bool :=
  let! r := attempt (metadata path) in
  match r with Ok md => ret (f md) | Err _ => ret false | Panic => panic end.

Definition recall_marked (path : string) : R bool :=
  let! dir := path_is is_dir path in
  if negb dir then ret false else path_is is_file (path_join path RECALL_MANIFEST_NAME).

Definition recover_recall_staging_root_with_directories (b : Buffers) (staging_root output_root : string)
    : R RecoveryScanSummary :=
  scan recall_marked (fun path => recover_recall_root_with_directories b path output_root) staging_root.

Definition dump_marked (manifest_path : string) : R bool :=
  ret (match file_name manifest_path ≫= to_str with
       | Some name => str_starts_with name "." && str_ends_with name ".manifest.json"
       | None => false
       end).

Definition recover_dump_root (b : Buffers) (dump_parent : string) : R RecoveryScanSummary :=
  scan dump_marked (fun manifest_path => recover_dump_parent b dump_parent manifest_path) dump_parent.
End recovery.
