(* ===== verification/RecoverySpec.v ===== *)
(** * What recovery relies on and promises

    Equations for the cleanups, what a validated manifest says about the tree,
    and the abstract view of a transaction: the node of each of its files by its
    names from the root. *)
From Stdlib Require Import Ascii.
From S2P Require Import Prelude.
From S2P Require Import Errors.
From S2P Require Import Paths.
From S2P Require Import FileSystem.
From S2P Require Import Manifest.
From S2P Require Import ManifestJson.
From S2P Require Import Recovery.

(** ** Canonical paths *)

Lemma inner_names parts names : inner_components parts = map Normal names ->
  Forall (fun p => contains slash p = false) parts -> Forall normal_name names.
Proof.
  revert names. induction parts as [|p parts IH]; intros names.
  { by destruct names; [constructor|]. }
  change (inner_components (p :: parts)) with (part_component false p ++ inner_components parts).
  unfold part_component. rewrite Forall_cons.
  destruct (String.eqb p "") eqn:E1; [intros H [_ Hs]; by apply IH|].
  destruct (String.eqb p ".") eqn:E2; [intros H [_ Hs]; by apply IH|].
  destruct (String.eqb p "..") eqn:E3; destruct names as [|n names]; cbn; intros H [Hp Hs]; try done.
  injection H as <- H. apply String.eqb_neq in E1, E2, E3. constructor; [done|]. by apply IH.
Qed.

Lemma canonical_absolute p names : canonical p names -> is_absolute p = true.
Proof.
  intros H. destruct (canonical_os _ _ H) as (l & Hl & _). unfold os_components in Hl.
  destruct (is_absolute p); [done|]. destruct (split_slash p) as [|q qs]; [done|]. cbn in Hl. unfold os_part in Hl.
  destruct (String.eqb q ""); [done|]. destruct (String.eqb q "."); [done|]. by destruct (String.eqb q "..").
Qed.

Lemma canonical_normal p names : canonical p names -> Forall normal_name names.
Proof.
  intros H. pose proof (canonical_absolute _ _ H) as Ha. unfold canonical in H.
  rewrite components_absolute in H by done. injection H as H.
  eapply inner_names; [done|]. apply split_slash_parts.
Qed.

Lemma canonical_inj p names names' : canonical p names -> canonical p names' -> names = names'.
Proof.
  unfold canonical. intros -> H. injection H as H. revert names' H.
  induction names as [|n names IH]; intros [|n' names'] H; try done. injection H as <- H. by rewrite (IH names').
Qed.

Lemma map_Normal_inj names names' : map Normal names = map Normal names' -> names = names'.
Proof.
  revert names'. induction names as [|n names IH]; intros [|n' names'] H; try done.
  injection H as <- H. by rewrite (IH names').
Qed.

Lemma part_normal n : normal_name n -> part_component false n = [Normal n] /\ os_part n = Normal n.
Proof.
  intros (H1 & H2 & H3 & _). apply String.eqb_neq in H1, H2, H3. unfold part_component, os_part. by rewrite H1, H2, H3.
Qed.

Lemma normal_relative n : normal_name n -> is_absolute n = false.
Proof.
  intros (H & _ & _ & Hs). destruct n as [|c n]; [done|]. rewrite contains_cons, orb_false_iff in Hs.
  unfold is_absolute. cbn. rewrite Ascii.eqb_sym. apply Hs.
Qed.

Lemma split_join p n : is_absolute p = true -> normal_name n ->
  exists parts, split_slash (path_join p n) = parts ++ [n].
Proof.
  intros Ha Hn. pose proof (normal_relative _ Hn) as Hr. destruct Hn as (_ & _ & _ & Hs).
  unfold path_join. rewrite Hr. replace (String.eqb p "") with false by by destruct p. cbn [orb].
  destruct (ends_slash p) eqn:E.
  - apply ends_slash_inv in E as [p' ->].
    rewrite string_app_assoc, string_cons_app, string_nil_app, split_slash_app. eexists. by rewrite (split_slash_whole n).
  - rewrite split_slash_app. eexists. by rewrite (split_slash_whole n).
Qed.

Lemma canonical_join p names n : canonical p names -> normal_name n ->
  canonical (path_join p n) (names ++ [n]) /\ last (os_components (path_join p n)) = Some (Normal n).
Proof.
  intros Hc Hn. pose proof (canonical_absolute _ _ Hc) as Ha. pose proof (normal_relative _ Hn) as Hr. split.
  - unfold canonical. rewrite components_join, Hc by done. destruct Hn as (H1 & H2 & H3 & Hs).
    rewrite split_slash_whole by done. unfold inner_components. cbn [map concat].
    rewrite (proj1 (part_normal n ltac:(done))), map_app. done.
  - destruct (split_join p n Ha Hn) as [parts Hp]. unfold os_components.
    rewrite Hp, map_app, app_assoc, last_app. cbn. by rewrite (proj2 (part_normal n Hn)).
Qed.

Lemma canonical_root : canonical "/" [].
Proof. vm_compute. reflexivity. Qed.

Lemma lexical_canonical p : validate_lexical_path p = Ok tt -> exists names, canonical p names.
Proof.
  unfold validate_lexical_path, reject. destruct (_ || _) eqn:E; [done|]. intros _.
  apply orb_false_iff in E as [Ha Hd]. apply negb_false_iff in Ha. unfold canonical.
  rewrite components_absolute in * by done. cbn in Hd.
  enough (exists names, inner_components (split_slash p) = map Normal names) as [names ->] by by exists names.
  revert Hd. generalize (split_slash p). intros l. induction l as [|q l IH]; [by exists []|].
  change (inner_components (q :: l)) with (part_component false q ++ inner_components l).
  rewrite existsb_app. intros Hd. apply orb_false_iff in Hd as [Hq Hl]. destruct (IH Hl) as [names ->].
  revert Hq. unfold part_component. destruct (String.eqb q ""); [by exists names|].
  destruct (String.eqb q "."); [by exists names|]. destruct (String.eqb q ".."); [done|]. by exists (q :: names).
Qed.

Lemma path_eq_canonical p q names : path_eq p q = true -> canonical q names -> canonical p names.
Proof. unfold path_eq, canonical. intros H%bool_decide_eq_true. congruence. Qed.

Lemma path_eq_iff p q k l : canonical p k -> canonical q l -> path_eq p q = true <-> k = l.
Proof.
  unfold path_eq, canonical. intros Hp Hq. rewrite bool_decide_eq_true, Hp, Hq. split; [|by intros ->].
  intros H. injection H as H. by apply map_Normal_inj.
Qed.

(** ** Symbolic links are refused *)

Lemma clear_below nodes k l : wf_tree nodes -> clear nodes k -> nodes !! k = None -> clear nodes (k ++ l).
Proof.
  intros Hw Hc Hn p n Hp Hpn. destruct (prefix_weak_total p k (k ++ l)) as [H|H]; [done|by apply prefix_app_r| |].
  { by eapply Hc. }
  destruct H as [s ->]. destruct s as [|x s]; [rewrite app_nil_r in Hpn; congruence|].
  destruct (wf_prefix nodes k (x :: s) Hw) as (d & Hd & _); [by rewrite Hpn|done|congruence].
Qed.

Lemma clear_snoc nodes k x : clear nodes k ->
  (forall n, nodes !! (k ++ [x]) = Some n -> is_symlink n = false) -> clear nodes (k ++ [x]).
Proof.
  intros Hc Hx p n Hp Hn. destruct (decide (p = k ++ [x])) as [->|]; [by apply Hx|].
  eapply Hc; [|done]. destruct Hp as [s Hs]. destruct s as [|y s] using rev_ind.
  { rewrite app_nil_r in Hs. congruence. }
  rewrite app_assoc in Hs. apply app_inj_tail in Hs as [-> _]. by apply prefix_app_r.
Qed.

Lemma clear_above_snoc nodes k x : clear nodes k -> clear_above nodes (k ++ [x]).
Proof.
  intros Hc p n Hp Hne Hn. eapply Hc; [|done]. destruct Hp as [s Hs]. destruct s as [|y s] using rev_ind.
  { rewrite app_nil_r in Hs. congruence. }
  rewrite app_assoc in Hs. apply app_inj_tail in Hs as [-> _]. by apply prefix_app_r.
Qed.

(** ** Single operations *)

Section keeping.
Context (P : Key -> Node -> Prop).

Lemma keeps_io {A} p (m : FS A) : keeps (removes_only P) m -> keeps (removes_only P) (io p m).
Proof using Type. intros Hm fs. specialize (Hm fs). unfold io. by destruct (m fs) as [fs' []]. Qed.
Lemma keeps_attempt {A} (m : FS A) : keeps (removes_only P) m -> keeps (removes_only P) (attempt m).
Proof using Type. intros Hm fs. specialize (Hm fs). unfold attempt. by destruct (m fs) as [fs' []]. Qed.
Lemma keeps_panic {A} : keeps (removes_only P) (@panic FileSystem LambError A).
Proof using Type. intros fs. cbn. reflexivity. Qed.
End keeping.

(** Reduces the claim that recovery keeps [removes_only] to its removals. *)
Ltac recovery_step :=
  lazymatch goal with
  | |- keeps _ (bind _ _) => apply keeps_bind; [tc_solve | | intros ?]
  | |- keeps _ (io _ _) => apply keeps_io
  | |- keeps _ (attempt _) => apply keeps_attempt
  | |- keeps _ (catch _) => apply keeps_catch
  | |- keeps _ panic => apply keeps_panic
  | |- keeps _ get => apply keeps_get; tc_solve
  | |- keeps _ (lift _) => apply keeps_lift; tc_solve
  | |- keeps _ (ret _) => apply keeps_ret; tc_solve
  | |- keeps _ (fail _) => apply keeps_fail; tc_solve
  | |- keeps _ (invalid _) => apply keeps_fail; tc_solve
  | |- keeps _ (fail_if _ _) => apply keeps_fail_if; tc_solve
  | |- keeps _ (match _ with _ => _ end) => case_match
  | _ => solve [auto with files]
  end.
Ltac recovery_steps := repeat recovery_step.

Lemma bind_meta {B} p (k : outcome IoError Node -> R B) fs :
  bind (attempt (symlink_metadata p)) k fs = k (meta fs p) (next fs).
Proof.
  unfold bind, attempt. rewrite symlink_metadata_run. fold (meta fs p).
  pose proof (meta_no_panic fs p). by destruct (meta fs p).
Qed.

Lemma meta_next_found fs p n : meta fs p = Ok n -> exists k, lookup_at fs p = Ok (k, n).
Proof.
  unfold meta. destruct (fault_now fs); [done|]. destruct (lookup_at fs p) as [[k m]|e|]; cbn; try done.
  intros [= ->]. by exists k.
Qed.

Lemma meta_not_found fs p : meta fs p = Err NotFound -> lookup_at fs p = Err NotFound.
Proof. unfold meta. destruct (fault_now fs); [done|]. by destruct (lookup_at fs p) as [[]|[]|]. Qed.

Lemma identity_matches_run p i d fs :
  identity_matches p i d fs =
    (next fs, match meta fs p with
              | Ok md => Ok (negb (is_symlink md) && (if d then is_dir md else is_file md)
                             && bool_decide (identity_from_metadata md = i))
              | Err NotFound => Ok false
              | Err e => Err (io_error p (describe e))
              | Panic => Panic
              end).
Proof. unfold identity_matches. rewrite bind_meta. by destruct (meta fs p) as [md|[]|]. Qed.

Lemma path_exists_run p fs :
  path_exists p fs =
    (next fs, match meta fs p with
              | Ok _ => Ok true
              | Err NotFound => Ok false
              | Err e => Err (io_error p (describe e))
              | Panic => Panic
              end).
Proof. unfold path_exists. rewrite bind_meta. by destruct (meta fs p) as [md|[]|]. Qed.

Lemma keeps_identity_matches P p i d : keeps (removes_only P) (identity_matches p i d).
Proof. unfold identity_matches. recovery_steps. Qed.
Lemma keeps_path_exists P p : keeps (removes_only P) (path_exists p).
Proof. unfold path_exists. recovery_steps. Qed.
Lemma keeps_sync_directory P p : keeps (removes_only P) (sync_directory p).
Proof. unfold sync_directory. recovery_steps. Qed.
#[export] Hint Resolve keeps_identity_matches keeps_path_exists keeps_sync_directory : files.

Lemma keeps_sync_owned_directory P p i : keeps (removes_only P) (sync_owned_directory p i).
Proof. unfold sync_owned_directory. recovery_steps. Qed.
Lemma keeps_sync_regular_file P p i : keeps (removes_only P) (sync_regular_file p i).
Proof. unfold sync_regular_file. recovery_steps. Qed.
Lemma keeps_reject_prefixes P prefix l : keeps (removes_only P) (reject_prefixes prefix l).
Proof. revert prefix. induction l as [|c l IH]; intros prefix; cbn [reject_prefixes]; recovery_steps; apply IH. Qed.
Lemma keeps_reject_symlink_path P p : keeps (removes_only P) (reject_symlink_path p).
Proof. apply keeps_reject_prefixes. Qed.
Lemma keeps_all_entries_are P allowed l d : keeps (removes_only P) (all_entries_are allowed l d).
Proof. induction l as [|x l IH]; cbn [all_entries_are]; recovery_steps; apply IH. Qed.
#[export] Hint Resolve keeps_sync_owned_directory keeps_sync_regular_file keeps_reject_symlink_path
  keeps_all_entries_are : files.
Lemma keeps_directory_contains_only P d allowed : keeps (removes_only P) (directory_contains_only d allowed).
Proof. unfold directory_contains_only. recovery_steps. Qed.
#[export] Hint Resolve keeps_directory_contains_only : files.

(** The node that is checked is the node that is removed. *)
Lemma removed_file_spec p fs fs' r (P : Key -> Node -> Prop) :
  removed (remove_file p) fs = (fs', r) ->
  (forall k n, lookup_at fs p = Ok (k, n) -> is_dir n = false -> P k n) ->
  removes_only P fs fs'
  /\ (r = Ok true -> forall k n, lookup_at fs p = Ok (k, n) -> tree fs' !! k = None)
  /\ (faults fs = [] -> forall k n, lookup_at fs p = Ok (k, n) -> is_dir n = false -> r = Ok true).
Proof.
  unfold removed. intros H HP. unfold bind, attempt in H. rewrite remove_file_run in H.
  unfold fault_now in H. destruct (faults fs) as [|[] l] eqn:Ef; cbn [negb] in H.
  2: { injection H as <- <-. split; [apply next_removes|]. done. }
  all: destruct (lookup_at fs p) as [[k n]|e|] eqn:E;
    [|by destruct e; injection H as <- <-; (split; [apply next_removes|done])|by apply lookup_no_panic in E].
  all: destruct (is_dir n) eqn:Ed; injection H as <- <-;
    [split; [apply next_removes|]; split; [done|]; intros _ k' n' [= <- <-]; congruence|].
  all: apply lookup_at_found in E as Hn; split;
    [etrans; [apply next_removes|]; apply remove_key_removes; [done|by apply HP|]; intros Hw; by eapply file_leaf|].
  all: split; [intros _ k' n' [= <- <-]; cbn; apply lookup_delete_eq|done].
Qed.

Lemma removed_dir_spec p fs fs' r (P : Key -> Node -> Prop) :
  removed (remove_dir p) fs = (fs', r) ->
  (forall k n, lookup_at fs p = Ok (k, n) -> is_dir n = true -> P k n) ->
  removes_only P fs fs'
  /\ (r = Ok true -> forall k n, lookup_at fs p = Ok (k, n) -> tree fs' !! k = None)
  /\ (faults fs = [] -> forall k n, lookup_at fs p = Ok (k, n) -> is_dir n = true -> k <> [] ->
      children (tree fs) k = [] -> r = Ok true).
Proof.
  unfold removed. intros H HP. unfold bind, attempt in H. rewrite remove_dir_run in H.
  unfold fault_now in H. destruct (faults fs) as [|[] l] eqn:Ef; cbn [negb] in H.
  2: { injection H as <- <-. split; [apply next_removes|]. done. }
  all: destruct (lookup_at fs p) as [[k n]|e|] eqn:E;
    [|by destruct e; injection H as <- <-; (split; [apply next_removes|done])|by apply lookup_no_panic in E].
  all: destruct (is_dir n) eqn:Ed; cbn [negb] in H;
    [|injection H as <- <-; split; [apply next_removes|]; split; [done|]; intros _ k' n' [= <- <-]; congruence].
  all: destruct (bool_decide_reflect (k = [])) as [->|Hk];
    [injection H as <- <-; split; [apply next_removes|]; split; [done|]; by intros _ k' n' [= <- <-]|].
  all: destruct (bool_decide_reflect (children (tree fs) k = [])) as [Hc|Hc]; injection H as <- <-;
    [|split; [apply next_removes|]; split; [done|]; by intros _ k' n' [= <- <-]].
  all: apply lookup_at_found in E as Hn; split;
    [etrans; [apply next_removes|]; apply remove_key_removes; [done|by apply HP|];
     intros _ name; by apply (children_nil _ _ name) in Hc|].
  all: split; [intros _ k' n' [= <- <-]; cbn; apply lookup_delete_eq|done].
Qed.

(** ** Cleanups of canonical paths *)

Definition own_file (names : Key) (i : FileIdentity) (k : Key) (n : Node) : Prop :=
  k = names /\ is_file n = true /\ identity_from_metadata n = i.
Definition own_directory (names : Key) (i : FileIdentity) (k : Key) (n : Node) : Prop :=
  k = names /\ is_dir n = true /\ identity_from_metadata n = i.

(** Where a path leads, from the tree alone. *)
Record at_names (nodes : gmap Key Node) (p : string) (names : Key) : Prop := mkAtNames {
  an_canonical : canonical p names;
  an_wf : wf_tree nodes;
  an_clear : clear nodes names;
}.

Lemma at_names_found fs p names k n :
  at_names (tree fs) p names -> lookup_at fs p = Ok (k, n) -> k = names /\ tree fs !! names = Some n.
Proof. intros [Hc Hw Hcl] H. pose proof (lookup_clear fs p names Hc Hw Hcl) as HL. by rewrite H in HL. Qed.

Lemma at_names_missing fs p names :
  at_names (tree fs) p names -> lookup_at fs p = Err NotFound -> tree fs !! names = None.
Proof. intros [Hc Hw Hcl] H. pose proof (lookup_clear fs p names Hc Hw Hcl) as HL. by rewrite H in HL. Qed.

Lemma at_names_step P fs fs' p names : removes_only P fs fs' -> at_names (tree fs) p names -> at_names (tree fs') p names.
Proof.
  intros Hr [Hc Hw Hcl]. constructor; [done|by apply Hr|]. eapply clear_subset; [|done].
  by eapply removes_only_subset.
Qed.

Lemma meta_cases fs p names : at_names (tree fs) p names ->
  (exists n, meta fs p = Ok n /\ lookup_at fs p = Ok (names, n) /\ tree fs !! names = Some n)
  \/ (meta fs p = Err NotFound /\ tree fs !! names = None)
  \/ (exists e, meta fs p = Err e /\ e <> NotFound).
Proof.
  intros Ha. destruct (meta fs p) as [n|e|] eqn:E.
  - left. exists n. destruct (meta_next_found _ _ _ E) as [k Hk]. destruct (at_names_found _ _ _ _ _ Ha Hk) as [-> ?]. done.
  - destruct e; [right; left; split; [done|]; apply (at_names_missing _ _ _ Ha), meta_not_found, E|..];
      right; right; eexists; done.
  - by apply meta_no_panic in E.
Qed.

Lemma file_not_symlink md : is_symlink md || negb (is_file md) = negb (is_file md).
Proof. unfold is_symlink, is_file. by destruct (node_kind md). Qed.
Lemma dir_not_symlink md : is_symlink md || negb (is_dir md) = negb (is_dir md).
Proof. unfold is_symlink, is_dir. by destruct (node_kind md). Qed.
Lemma file_not_dir md : is_file md = true -> is_dir md = false.
Proof. unfold is_file, is_dir. by destruct (node_kind md). Qed.

Lemma cleanup_file_spec p names i fs fs' r : at_names (tree fs) p names ->
  cleanup_file p (Some i) fs = (fs', r) ->
  removes_only (own_file names i) fs fs'
  /\ (r = Ok true -> forall n, tree fs' !! names = Some n -> identity_from_metadata n <> i).
Proof.
  intros Ha. unfold cleanup_file. rewrite bind_meta.
  destruct (meta_cases fs p names Ha) as [(n & -> & Hl & Hn)|[[-> Hn]|(e & -> & He)]].
  - rewrite file_not_symlink. destruct (bool_decide_reflect (identity_from_metadata n = i)) as [Hi|Hi]; cbn [negb].
    2: { intros [= <- <-]. split; [apply next_removes|]. intros _ n'. cbn. rewrite Hn. by intros [= <-]. }
    destruct (is_file n) eqn:Ef; cbn [negb]; [|intros [= <- <-]; split; [apply next_removes|done]].
    intros H. eapply (removed_file_spec _ _ _ _ (own_file names i)) in H as (Hr & Hg & _).
    + split; [by etrans; [apply next_removes|]|]. intros Hok n' Hn'. rewrite (Hg Hok names n) in Hn'; [done|].
      by rewrite lookup_next.
    + intros k m. rewrite lookup_next, Hl. by intros [= <- <-].
  - intros [= <- <-]. split; [apply next_removes|]. intros _ n. cbn. by rewrite Hn.
  - intros H. assert (fs' = next fs /\ r <> Ok true) as [-> Hr] by (by destruct e; injection H as <- <-).
    split; [apply next_removes|done].
Qed.

Lemma remove_directory_spec p names i fs fs' r : at_names (tree fs) p names ->
  remove_directory_if_identity p (Some i) fs = (fs', r) ->
  removes_only (own_directory names i) fs fs'
  /\ (r = Ok true -> forall n, tree fs' !! names = Some n -> identity_from_metadata n <> i).
Proof.
  intros Ha. unfold remove_directory_if_identity. rewrite bind_meta.
  destruct (meta_cases fs p names Ha) as [(n & -> & Hl & Hn)|[[-> Hn]|(e & -> & He)]].
  - rewrite dir_not_symlink. destruct (bool_decide_reflect (identity_from_metadata n = i)) as [Hi|Hi]; cbn [negb].
    2: { intros [= <- <-]. split; [apply next_removes|]. intros _ n'. cbn. rewrite Hn. by intros [= <-]. }
    destruct (is_dir n) eqn:Ef; cbn [negb]; [|intros [= <- <-]; split; [apply next_removes|done]].
    intros H. eapply (removed_dir_spec _ _ _ _ (own_directory names i)) in H as (Hr & Hg & _).
    + split; [by etrans; [apply next_removes|]|]. intros Hok n' Hn'. rewrite (Hg Hok names n) in Hn'; [done|].
      by rewrite lookup_next.
    + intros k m. rewrite lookup_next, Hl. by intros [= <- <-].
  - intros [= <- <-]. split; [apply next_removes|]. intros _ n. cbn. by rewrite Hn.
  - intros H. assert (fs' = next fs /\ r <> Ok true) as [-> Hr] by (by destruct e; injection H as <- <-).
    split; [apply next_removes|done].
Qed.

(** Without an identity nothing is removed. *)
Lemma absent_spec p names fs : at_names (tree fs) p names ->
  forall fs' r, (let! b := path_exists p in ret (negb b)) fs = (fs', r) ->
  reads_only fs fs' /\ (r = Ok true -> tree fs' !! names = None).
Proof.
  intros Ha fs' r. rewrite (bind_run _ _ _ _ _ (path_exists_run p fs)).
  destruct (meta_cases fs p names Ha) as [(n & -> & Hl & Hn)|[[-> Hn]|(e & -> & He)]].
  - intros [= <- <-]. split; [apply next_removes|done].
  - intros [= <- <-]. split; [apply next_removes|done].
  - intros H. assert (fs' = next fs /\ r <> Ok true) as [-> Hr] by (by destruct e; injection H as <- <-).
    split; [apply next_removes|done].
Qed.

Lemma remove_if_identity_spec p names i fs fs' r : at_names (tree fs) p names ->
  remove_if_identity p i fs = (fs', r) ->
  removes_only (own_file names i) fs fs'
  /\ (r = Ok tt -> forall n, tree fs' !! names = Some n -> identity_from_metadata n = i -> is_file n = false).
Proof.
  intros Ha. unfold remove_if_identity. rewrite bind_meta.
  destruct (meta_cases fs p names Ha) as [(n & -> & Hl & Hn)|[[-> Hn]|(e & -> & He)]].
  - rewrite file_not_symlink. destruct (bool_decide_reflect (identity_from_metadata n = i)) as [Hi|Hi]; cbn [negb].
    2: { intros [= <- <-]. split; [apply next_removes|]. intros _ n'. cbn. rewrite Hn. by intros [= <-]. }
    destruct (is_file n) eqn:Ef; cbn [negb].
    2: { intros [= <- <-]. split; [apply next_removes|]. intros _ n'. cbn. rewrite Hn. by intros [= <-]. }
    unfold io. rewrite remove_file_run, lookup_next, Hl, (file_not_dir n Ef).
    destruct (fault_now (next fs)); intros [= <- <-].
    + split; [etrans; apply next_removes|done].
    + split; [|intros _ n'; cbn; by rewrite lookup_delete_eq].
      etrans; [apply next_removes|]. etrans; [apply next_removes|].
      apply remove_key_removes; [done|done|]. intros Hw. eapply file_leaf; [done|done|by apply file_not_dir].
  - intros [= <- <-]. split; [apply next_removes|]. intros _ n. cbn. by rewrite Hn.
  - intros H. assert (fs' = next fs /\ r <> Ok tt) as [-> Hr] by (by destruct e; injection H as <- <-).
    split; [apply next_removes|done].
Qed.

(** ** Symbolic links are refused *)

Lemma reject_prefixes_spec ns ks prefix fs fs' :
  canonical prefix ks -> Forall normal_name ns -> wf_tree (tree fs) -> clear (tree fs) ks ->
  reject_prefixes prefix (map Normal ns) fs = (fs', Ok tt) -> clear (tree fs) (ks ++ ns).
Proof.
  revert ks prefix fs. induction ns as [|n ns IH]; intros ks prefix fs Hc Hn Hw Hcl H.
  { by rewrite app_nil_r. }
  apply Forall_cons in Hn as [Hn Hns]. destruct (canonical_join _ _ _ Hc Hn) as [Hc' Hlast].
  cbn [map reject_prefixes as_os_str] in H. rewrite bind_meta in H. revert H.
  pose proof (lookup_names fs _ _ Hc' Hw (clear_above_snoc _ _ _ Hcl) ltac:(congruence)) as HL.
  unfold meta. destruct (fault_now fs); [done|]. destruct (lookup_at fs _) as [[k m]|e|]; unfold Prelude.omap; cbn [obind snd].
  - destruct HL as [-> Hm]. destruct (is_symlink m) eqn:Es; [done|]. intros H.
    change (ks ++ n :: ns) with (ks ++ [n] ++ ns). rewrite app_assoc. apply (IH _ (path_join prefix n) (next fs)); [done|done|done| |done].
    apply clear_snoc; [done|]. intros n'. cbn. rewrite Hm. by intros [= <-].
  - destruct e; intros H; try done. change (ks ++ n :: ns) with (ks ++ [n] ++ ns). rewrite app_assoc.
    apply clear_below; [done| |done]. apply clear_snoc; [done|]. rewrite HL. done.
  - done.
Qed.

Lemma reject_symlink_path_spec p names fs fs' :
  canonical p names -> wf_tree (tree fs) -> reject_symlink_path p fs = (fs', Ok tt) -> clear (tree fs) names.
Proof.
  intros Hc Hw. unfold reject_symlink_path. rewrite Hc. cbn [reject_prefixes as_os_str].
  change (path_join "" "/") with "/". rewrite bind_meta.
  assert (lookup_at fs "/" = match tree fs !! [] with Some n => Ok ([], n) | None => Err NotFound end) as HL by done.
  unfold meta. destruct (fault_now fs); [done|]. rewrite HL.
  destruct (tree fs !! []) as [n|] eqn:E; unfold Prelude.omap; cbn [obind snd].
  - destruct (is_symlink n) eqn:Es; [done|]. intros H.
    apply (reject_prefixes_spec names [] "/" (next fs) fs'); [apply canonical_root|by eapply canonical_normal|done| |done].
    intros q m Hq. apply prefix_nil_inv in Hq as ->. cbn. rewrite E. by intros [= <-].
  - intros _. apply (clear_below _ [] names Hw); [|done].
    intros q m Hq. apply prefix_nil_inv in Hq as ->. by rewrite E.
Qed.

(** ** The parent of a path *)

Lemma split_slash_join parts : parts <> [] -> Forall (fun p => contains slash p = false) parts ->
  split_slash (join_slash parts) = parts.
Proof.
  induction parts as [|p parts IH]; [done|]. intros _ [Hp Hps]%Forall_cons. destruct parts as [|q parts].
  { cbn. by apply split_slash_whole. }
  change (join_slash (p :: q :: parts)) with (p +:+ String slash (join_slash (q :: parts))).
  rewrite split_slash_app, split_slash_whole, IH by done. done.
Qed.

Lemma inner_drop_blank l : inner_components (reverse (drop_blank l)) = inner_components (reverse l).
Proof.
  induction l as [|p l IH]; [done|]. cbn [drop_blank]. destruct (_ || _) eqn:E; [|done].
  rewrite IH, reverse_cons, inner_components_app. apply orb_true_iff in E as [E|E]; apply String.eqb_eq in E as ->;
    cbn; by rewrite app_nil_r.
Qed.

Lemma inner_trim l : inner_components (trim_right l) = inner_components l.
Proof. unfold trim_right. by rewrite inner_drop_blank, reverse_involutive. Qed.

Lemma drop_blank_head l x up : drop_blank l = x :: up -> x <> "" /\ x <> ".".
Proof.
  induction l as [|p l IH]; [done|]. cbn. destruct (_ || _) eqn:E; [done|].
  intros [= -> _]. apply orb_false_iff in E as [E1 E2]. by apply String.eqb_neq in E1, E2.
Qed.

Lemma trim_right_Forall (Q : string -> Prop) l : Forall Q l -> Forall Q (trim_right l).
Proof.
  intros H. unfold trim_right. apply Forall_reverse. apply Forall_reverse in H. revert H.
  generalize (reverse l). intros l'. induction l' as [|p l' IH]; [done|]. intros [Hp Hl]%Forall_cons. cbn.
  destruct (_ || _); [by apply IH|by constructor].
Qed.

Lemma is_absolute_first p first ps : split_slash p = first :: ps -> ps <> [] ->
  is_absolute p = String.eqb first "".
Proof.
  destruct p as [|c p]; cbn; [by intros [= <- <-]|]. destruct (Ascii.eqb c slash); [by intros [= <- <-]|].
  destruct (split_slash p) as [|q qs]; by intros [= <- <-].
Qed.

Lemma components_parts p first ps : split_slash p = first :: ps ->
  components p = (if is_absolute p then [RootDir] else []) ++ part_component (negb (is_absolute p)) first
                 ++ inner_components ps.
Proof. unfold components. by intros ->. Qed.

Lemma part_nonblank x : x <> "" -> x <> "." -> exists c, part_component false x = [c].
Proof.
  intros H1 H2. apply String.eqb_neq in H1, H2. unfold part_component. rewrite H1, H2.
  destruct (String.eqb x ".."); eauto.
Qed.

Lemma parent_components p q : parent p = Some q -> exists c, components p = components q ++ [c].
Proof.
  unfold parent. destruct (split_slash p) as [|first ps] eqn:Es; [done|].
  pose proof (split_slash_parts p) as Hp. rewrite Es in Hp. apply Forall_cons in Hp as [Hf Hps].
  rewrite (components_parts _ _ _ Es), <-inner_trim.
  destruct (reverse (trim_right ps)) as [|x up] eqn:Et.
  { apply (f_equal reverse) in Et. rewrite reverse_involutive in Et. rewrite Et. cbn [reverse rev_append].
    destruct (String.eqb first "") eqn:Ef; [done|]. intros [= <-].
    assert (is_absolute p = false) as ->.
    { destruct p as [|c p]; [done|]. cbn in *. destruct (Ascii.eqb c slash); [|done]. injection Es as <- _. done. }
    unfold part_component. rewrite Ef. cbn. repeat case_match; eauto. }
  assert (x <> "" /\ x <> ".") as [Hx1 Hx2].
  { unfold trim_right in Et. rewrite reverse_involutive in Et. by eapply drop_blank_head. }
  apply (f_equal reverse) in Et as Et'. rewrite reverse_involutive, reverse_cons in Et'. rewrite Et', inner_components_app.
  assert (ps <> []) as Hne by (intros ->; done).
  rewrite (is_absolute_first _ _ _ Es Hne). destruct (part_nonblank x Hx1 Hx2) as [c Hc].
  assert (inner_components [x] = [c]) as -> by (unfold inner_components; cbn; by rewrite Hc).
  rewrite <-(inner_trim (reverse up)).
  pose proof (trim_right_Forall _ _ Hps) as Hup. rewrite Et' in Hup. apply Forall_app in Hup as [Hup _].
  pose proof (trim_right_Forall _ _ Hup) as Hup'.
  destruct (trim_right (reverse up)) as [|y ys] eqn:Eu; intros Hq; exists c.
  - injection Hq as <-. destruct (String.eqb first "") eqn:Ef; [apply String.eqb_eq in Ef as ->; done|].
    unfold components. rewrite split_slash_whole by done.
    assert (is_absolute first = false) as ->; [|by rewrite !app_nil_r].
    destruct first as [|d first]; [done|]. rewrite contains_cons, orb_false_iff in Hf. cbn.
    rewrite Ascii.eqb_sym. apply Hf.
  - assert (q = join_slash (first :: y :: ys)) as -> by congruence.
    assert (split_slash (join_slash (first :: y :: ys)) = first :: y :: ys) as Ej by (by apply split_slash_join; [|constructor]).
    rewrite (components_parts _ _ _ Ej), (is_absolute_first _ _ _ Ej) by done. by rewrite <-!app_assoc.
Qed.

(** ** What the checks on paths ensure *)

Lemma reject_Ok b s : reject b s = Ok tt <-> b = false.
Proof. by destruct b. Qed.

Lemma contained_spec root p r : validate_contained root p = Ok tt -> canonical root r ->
  exists s, s <> [] /\ canonical p (r ++ s).
Proof.
  unfold validate_contained. destruct (validate_lexical_path p) as [[]| |] eqn:E; cbn [obind]; try done.
  destruct (lexical_canonical _ E) as [names Hp]. unfold Paths.strip_prefix, path_starts_with.
  destruct (is_prefix _ _) eqn:Ei; cbn [ok_or obind]; [|done]. intros H Hr.
  apply is_prefix_spec in Ei as [rest Hrest].
  rewrite Hrest, drop_app_length in H. unfold canonical in *. rewrite Hp, Hr in Hrest. cbn in Hrest.
  injection Hrest as Hrest. apply reject_Ok in H.
  apply map_eq_app in Hrest as (l1 & l2 & -> & H1 & H2). apply map_Normal_inj in H1 as ->.
  exists l2. split; [|done]. intros ->. cbn in H2. by subst.
Qed.

Lemma direct_child_spec root p r : validate_direct_child root p = Ok tt -> canonical root r ->
  exists x, canonical p (r ++ [x]).
Proof.
  unfold validate_direct_child. destruct (validate_contained root p) as [[]| |] eqn:E; cbn [obind]; try done.
  intros H Hr. destruct (contained_spec _ _ _ E Hr) as (s & Hs & Hp). revert H.
  unfold Paths.strip_prefix. destruct (path_starts_with p root); cbn [unwrap obind]; [|done].
  rewrite Hp, Hr, map_app, app_comm_cons. rewrite drop_app_length.
  destruct s as [|x [|y s]]; [done| |done]. intros _. by exists x.
Qed.

Lemma parent_canonical p q k : parent p = Some q -> canonical q k -> forall name, file_name p = Some name ->
  canonical p (k ++ [name]).
Proof.
  intros Hp Hq name. destruct (parent_components _ _ Hp) as [c Hc]. unfold file_name, canonical in *.
  rewrite Hc, last_snoc, Hq, map_app. destruct c; try done. by intros [= ->].
Qed.

(** ** The view of a transaction *)

(** The files of an entry by their names, with their recorded identities. *)
Record EntryView := mkEntryView {
  v_staged : Key * option FileIdentity;
  v_partial : option (Key * option FileIdentity);
  v_final : Key * option FileIdentity;
}.

Record View := mkView {
  v_entries : list EntryView;
  v_directories : list (Key * option FileIdentity);
  v_final_directory : option (Key * option FileIdentity);
  v_staging : Key * FileIdentity;
  v_manifest : Key * FileIdentity;
  v_temporary : option Key;
}.

Definition entry_keys (v : EntryView) : list Key :=
  [(v_final v).1; (v_staged v).1] ++ (match v_partial v with Some x => [x.1] | None => [] end).

Record views_entry (nodes : gmap Key Node) (m : TransactionManifest) (e : ManifestEntrySlot) (v : EntryView) : Prop :=
  mkViewsEntry {
  ve_staged : exists p, staged m e = Ok (p, (v_staged v).2) /\ at_names nodes p (v_staged v).1;
  ve_partial : match v_partial v with
               | Some (k, i) => exists p, partial m e = Ok (Some (p, i)) /\ at_names nodes p k
               | None => partial m e = Ok None
               end;
  ve_final : exists p, final_of m e = Ok (p, (v_final v).2) /\ at_names nodes p (v_final v).1;
}.

(** A journaled directory has an identity if it is owned. *)
Definition views_directory (nodes : gmap Key Node) (m : TransactionManifest) (d : ManifestDirectorySlot)
    (x : Key * option FileIdentity) : Prop :=
  exists p, directory_path m d = Ok p /\ at_names nodes p x.1 /\ identity d = x.2
            /\ (state d = Some Owned <-> x.2 <> None).

(** Where the temporary manifest of a dump is. *)
Definition views_temporary (nodes : gmap Key Node) (m : TransactionManifest) (mp : string) (k : Key) : Prop :=
  exists id p x, transaction_id_str m = Ok id /\ manifest_temp_path mp id = Ok p /\ canonical p k
    /\ last (os_components p) = Some (Normal x) /\ wf_tree nodes /\ clear_above nodes k
    /\ exists K y z, canonical mp (K ++ [y]) /\ k = K ++ [z].

Record views (nodes : gmap Key Node) (m : TransactionManifest) (manifest_path : string) (mid : FileIdentity)
    (V : View) : Prop := mkViews {
  vw_entries : exists es, entries m = Ok es /\ Forall2 (views_entry nodes m) es (v_entries V);
  vw_directories : exists ds, directories m = Ok ds /\ Forall2 (views_directory nodes m) ds (v_directories V);
  vw_final_directory : match v_final_directory V with
                       | Some (k, i) => exists p, final_directory m = Ok (Some (p, i)) /\ at_names nodes p k
                       | None => final_directory m = Ok None
                       end;
  vw_staging : exists p, path m (staging_root_path m) = Ok p /\ at_names nodes p (v_staging V).1
                         /\ staging_root_identity m = Some (v_staging V).2;
  vw_manifest : at_names nodes manifest_path (v_manifest V).1 /\ (v_manifest V).2 = mid;
  vw_temporary : match v_temporary V with Some k => views_temporary nodes m manifest_path k | None => True end;
}.

Definition view_keys (V : View) : list Key :=
  concat (map entry_keys (v_entries V))
  ++ (match v_final_directory V with Some x => [x.1] | None => [] end)
  ++ [(v_manifest V).1; (v_staging V).1].

Lemma views_entry_step P fs fs' m e v :
  removes_only P fs fs' -> views_entry (tree fs) m e v -> views_entry (tree fs') m e v.
Proof.
  intros Hr [(ps & Hs & As) Hp (pf & Hf & Af)]. constructor.
  - exists ps. eauto using at_names_step.
  - destruct (v_partial v) as [[k i]|]; [|done]. destruct Hp as (pp & Hp & Ap). exists pp. eauto using at_names_step.
  - exists pf. eauto using at_names_step.
Qed.

Lemma views_directory_step P fs fs' m d x :
  removes_only P fs fs' -> views_directory (tree fs) m d x -> views_directory (tree fs') m d x.
Proof. intros Hr (p & ? & ? & ? & ?). exists p. eauto using at_names_step. Qed.

Lemma views_step P fs fs' m mp mid V : removes_only P fs fs' -> views (tree fs) m mp mid V -> views (tree fs') m mp mid V.
Proof.
  intros Hr [(es & He & Fe) (ds & Hd & Fd) Hf (p & Hp & Ap & Hi) [Am Hm] Ht]. constructor.
  - exists es. split; [done|]. eapply Forall2_impl; [done|]. intros. by eapply views_entry_step.
  - exists ds. split; [done|]. eapply Forall2_impl; [done|]. intros. by eapply views_directory_step.
  - destruct (v_final_directory V) as [[k i]|]; [|done]. destruct Hf as (q & ? & ?). exists q. eauto using at_names_step.
  - exists p. eauto using at_names_step.
  - eauto using at_names_step.
  - destruct (v_temporary V) as [k|]; [|done]. destruct Ht as (id & q & x & H1 & H2 & H3 & H4 & H5 & H6 & H7).
    exists id, q, x. do 4 (split; [done|]). split; [by apply Hr|]. split; [|done]. intros p' n Hp' Hne Hn. eapply H6; [done|done|].
    eapply lookup_weaken; [done|]. by eapply removes_only_subset.
Qed.

(** ** What validation establishes *)

Definition absolute_components (k : Key) : list Component := RootDir :: map Normal k.

Lemma insert_unique_spec ks p l k : insert_unique_path (map absolute_components ks) p = Ok l -> canonical p k ->
  l = map absolute_components (k :: ks) /\ k ∉ ks.
Proof.
  unfold insert_unique_path. destruct (bool_decide_reflect (components p ∈ map absolute_components ks)) as [|Hn]; [done|].
  intros [= <-] Hc. split; [by rewrite Hc|]. intros Hk. apply Hn. rewrite Hc.
  apply list_elem_of_In, in_map_iff. exists k. split; [done|by apply list_elem_of_In].
Qed.

Lemma bind_lift_inv {S E A B} (o : outcome E A) (k : A -> M S E B) s s' b :
  bind (lift o) k s = (s', Ok b) -> exists a, o = Ok a /\ k a s = (s', Ok b).
Proof. unfold bind, lift. destruct o as [a| |]; [eauto|done|done]. Qed.

(** One step of a successful run of the hypothesis. *)
Ltac run_step H :=
  lazymatch type of H with
  | bind (bind _ _) _ _ = _ => rewrite bind_bind in H
  | bind (lift _) _ _ = (_, Ok _) =>
      let a := fresh "a" in let E := fresh "E" in apply bind_lift_inv in H as (a & E & H)
  | bind _ _ _ = (_, Ok _) =>
      let s1 := fresh "s" in let a := fresh "a" in let E := fresh "E" in
      apply bind_inv in H as (s1 & a & E & H)
  end.

Lemma partial_spec m e final paths l ks kf : validate_partial m e final paths = Ok l ->
  paths = map absolute_components ks -> canonical final kf -> kf <> [] ->
  exists pp k, partial m e = Ok (Some (pp, partial_identity e)) /\ canonical pp k
               /\ l = map absolute_components (k :: ks) /\ k ∉ ks
               /\ exists d x y, kf = d ++ [x] /\ k = d ++ [y].
Proof.
  unfold validate_partial. intros H -> Hf Hkf. apply obind_Ok in H as (o & Eo & H).
  apply obind_Ok in H as ([pp i] & Epp & H). apply ok_or_Ok in Epp as ->.
  apply obind_Ok in H as (q' & Eq' & H). apply ok_or_Ok in Eq'. apply obind_Ok in H as ([] & Ead & H).
  apply obind_Ok in H as (name & En & H). apply ok_or_Ok, bind_Some in En as (name' & En & _).
  apply obind_Ok in H as ([] & _ & H). apply obind_Ok in H as ([] & _ & H).
  assert (i = partial_identity e) as ->.
  { revert Eo. unfold Manifest.partial. destruct (_ =? _); [done|]. intros Eo. ok_steps. congruence. }
  apply reject_Ok in Ead. destruct (Paths.parent pp) as [q|] eqn:Eq; [|done]. apply negb_false_iff in Ead.
  destruct (parent_components _ _ Eq') as [c Hc].
  assert (exists ki x, canonical q' ki /\ kf = ki ++ [x]) as (ki & x & Hki & Hx).
  { unfold canonical in *. rewrite Hf in Hc. destruct (components q') as [|d r]; [by destruct kf as [|? []]|].
    injection Hc as <- Hc. apply map_eq_app in Hc as (l1 & l2 & -> & <- & Hl2). exists l1.
    destruct l2 as [|x [|]]; [done| |done]. by exists x. }
  pose proof (parent_canonical _ _ _ Eq (path_eq_canonical _ _ _ Ead Hki) _ En) as Hpp.
  exists pp, (ki ++ [name']). split; [done|]. split; [done|].
  destruct (insert_unique_spec _ _ _ _ H Hpp) as [? ?]. split; [done|]. split; [done|]. by exists ki, x, name'.
Qed.

(** What lies beside a name below a directory lies below that directory. *)
Lemma beside_under (O s d : Key) x y : O ++ s = d ++ [x] -> s <> [] -> exists s', s' <> [] /\ d ++ [y] = O ++ s'.
Proof.
  intros E Hs. destruct s as [|z s _] using rev_ind; [done|]. rewrite (assoc_L app) in E. apply app_inj_tail in E as [<- _].
  exists (s ++ [y]). split; [by destruct s|]. by rewrite (assoc_L app).
Qed.

(** What a view says about the fields of the entry. *)
Record entry_facts (m : TransactionManifest) (kind : TransactionKind) (staging out : Key)
    (e : ManifestEntrySlot) (v : EntryView) : Prop := mkEntryFacts {
  ef_staged : (v_staged v).2 = staged_identity e;
  ef_final : (v_final v).2 = final_identity e;
  ef_partial : if bool_decide (kind = FileSet) then exists k, v_partial v = Some (k, partial_identity e)
               else v_partial v = None;
  ef_under_staging : exists s, s <> [] /\ (v_staged v).1 = staging ++ s;
  ef_under_output : exists s, s <> [] /\ (v_final v).1 = out ++ s;
  ef_beside : forall x, v_partial v = Some x -> exists s, s <> [] /\ x.1 = out ++ s;
  ef_dump : kind <> FileSet -> forall p i d, final_directory m = Ok (Some (p, i)) -> canonical p d ->
            exists x, (v_final v).1 = d ++ [x];
}.

Lemma reads_step_wf fs fs' : reads_only fs fs' -> wf_tree (tree fs) -> wf_tree (tree fs').
Proof. intros H. apply H. Qed.

Lemma rejected_clear p names fs fs' : canonical p names -> wf_tree (tree fs) ->
  reject_symlink_path p fs = (fs', Ok tt) -> reads_only fs fs' /\ at_names (tree fs') p names.
Proof.
  intros Hc Hw H. pose proof (keeps_reject_symlink_path (fun _ _ => False) p fs) as Hr. rewrite H in Hr. cbn [fst] in Hr.
  split; [done|]. pose proof (reads_only_tree _ _ Hr) as Ht. constructor; [done|by rewrite Ht|].
  rewrite Ht. by eapply reject_symlink_path_spec.
Qed.

Lemma staged_Ok m e p i : staged m e = Ok (p, i) -> i = staged_identity e.
Proof. unfold staged. intros H. by ok_steps; simplify_eq. Qed.
Lemma final_of_Ok m e p i : final_of m e = Ok (p, i) -> i = final_identity e.
Proof. unfold final_of. intros H. by ok_steps; simplify_eq. Qed.
Lemma partial_Ok m e p i : Manifest.partial m e = Ok (Some (p, i)) -> i = partial_identity e.
Proof. unfold Manifest.partial. destruct (_ =? _); [done|]. intros H. by ok_steps; simplify_eq. Qed.

(** The part of an entry's validation that depends on the kind. *)
Lemma validated_partial m kind e sr ps pf ks (a : list (list Component)) kf (fs fs' : FileSystem) :
  (if bool_decide (kind = FileSet)
   then lift (validate_partial m e pf (map absolute_components ks))
   else lift (let? _ := validate_dump_entry m e sr ps pf in Ok (map absolute_components ks))) fs
  = (fs', @Ok LambError _ a) ->
  canonical pf kf -> kf <> [] -> NoDup ks ->
  exists xp, match xp with
             | Some k => exists pp, Manifest.partial m e = Ok (Some (pp, partial_identity e)) /\ canonical pp k
             | None => Manifest.partial m e = Ok None
             end
             /\ (if bool_decide (kind = FileSet) then exists k, xp = Some k /\ exists d x y, kf = d ++ [x] /\ k = d ++ [y]
                 else xp = None /\ validate_dump_entry m e sr ps pf = Ok tt)
             /\ a = map absolute_components ((match xp with Some k => [k] | None => [] end) ++ ks)
             /\ NoDup ((match xp with Some k => [k] | None => [] end) ++ ks)
             /\ fs' = fs.
Proof.
  intros H Hpf Hkf Hnd. destruct (bool_decide (kind = FileSet)).
  - injection H as <- H. destruct (partial_spec _ _ _ _ _ ks _ H eq_refl Hpf Hkf) as (pp & k & Hpp & Hc & -> & Hnin & Hb).
    exists (Some k). split; [by exists pp|]. split; [by exists k|]. split; [done|]. split; [by constructor|done].
  - injection H as <- H. apply obind_Ok in H as ([] & H & [= <-]). exists None. pose proof H as Hd.
    unfold validate_dump_entry in H. apply obind_Ok in H as (o & Ho & H). apply obind_Ok in H as ([] & Hr & _).
    apply reject_Ok in Hr. by destruct o.
Qed.

Lemma dump_entry_final m e sr ps pf kf p i d : validate_dump_entry m e sr ps pf = Ok tt ->
  final_directory m = Ok (Some (p, i)) -> canonical p d -> canonical pf kf -> exists x, kf = d ++ [x].
Proof.
  unfold validate_dump_entry. intros H Hd Hc Hf. apply obind_Ok in H as (o & _ & H). apply obind_Ok in H as ([] & _ & H).
  rewrite Hd in H. cbn in H. apply obind_Ok in H as ([] & _ & H). destruct (direct_child_spec _ _ _ H Hc) as [x Hx].
  exists x. by eapply canonical_inj.
Qed.

Lemma validate_entry_spec m kind tr out sr e ks paths' fs fs' K O :
  validate_entry m kind tr out sr e (map absolute_components ks) fs = (fs', Ok paths') ->
  wf_tree (tree fs) -> canonical tr K -> canonical out O -> NoDup ks ->
  reads_only fs fs' /\
  exists v, views_entry (tree fs') m e v /\ entry_facts m kind K O e v
            /\ paths' = map absolute_components (entry_keys v ++ ks) /\ NoDup (entry_keys v ++ ks).
Proof.
  unfold validate_entry. intros H Hw HK HO Hnd. run_step H. destruct a as [ps js]. run_step H. destruct a as [pf jf]. repeat run_step H.
  destruct a, a0, a2, a6, a8, a9. injection H as <- <-.
  destruct (contained_spec _ _ _ E1 HK) as (t1 & Ht1 & Hps). destruct (contained_spec _ _ _ E2 HO) as (t2 & Ht2 & Hpf).
  destruct (validated_partial _ _ _ _ _ _ _ _ _ _ _ E5 Hpf ltac:(by destruct O, t2) Hnd)
    as (xp & Hxp & Hk & -> & Hnd' & ->).
  destruct (insert_unique_spec _ _ _ _ E6 Hps) as [-> Hn1].
  destruct (insert_unique_spec _ _ _ _ E7 Hpf) as [-> Hn2].
  destruct (rejected_clear _ _ _ _ Hps Hw E8) as [R1 A1]. pose proof (reads_step_wf _ _ R1 Hw) as Hw1.
  assert (reads_only s0 s1 /\ match xp with
                             | Some k => exists pp, a7 = Some (pp, partial_identity e) /\ at_names (tree s1) pp k
                             | None => a7 = None
                             end) as [R2 A2].
  { destruct xp as [k|].
    - destruct Hxp as (pp & Hpp & Hc). rewrite Hpp in E9. injection E9 as <-.
      destruct (rejected_clear _ _ _ _ Hc Hw1 E10) as [R A]. split; [done|]. by exists pp.
    - rewrite Hxp in E9. injection E9 as <-. injection E10 as <-. done. }
  pose proof (reads_step_wf _ _ R2 Hw1) as Hw2. destruct (rejected_clear _ _ _ _ Hpf Hw2 E11) as [R3 A3].
  pose proof (staged_Ok _ _ _ _ E) as ->. pose proof (final_of_Ok _ _ _ _ E0) as ->.
  assert (reads_only s0 s2) as R23 by by etrans.
  split; [by etrans|].
  exists (mkEntryView (K ++ t1, staged_identity e) (option_map (fun k => (k, partial_identity e)) xp)
            (O ++ t2, final_identity e)).
  split; [|split; [|split]].
  - constructor; cbn.
    + exists ps. split; [done|]. exact (at_names_step _ _ _ _ _ R23 A1).
    + destruct xp as [k|]; cbn; [|congruence]. destruct A2 as (pp & -> & A). exists pp. split; [exact E9|]. exact (at_names_step _ _ _ _ _ R3 A).
    + by exists pf.
  - constructor; cbn; [done|done| |by exists t1|by exists t2| |].
    + destruct (bool_decide (kind = FileSet)); [destruct Hk as (k & -> & _); by exists k|by destruct Hk as [-> _]].
    + destruct xp as [k|]; [|done]. intros x [= <-]. cbn. destruct (bool_decide (kind = FileSet)); [|by destruct Hk].
      destruct Hk as (k' & [= <-] & d & x & y & Ho & ->). by apply (beside_under O t2 d x y).
    + intros Hkind p i d Hd Hc. rewrite bool_decide_eq_false_2 in Hk by done. destruct Hk as [_ Hk].
      by eapply dump_entry_final.
  - by destruct xp.
  - by destruct xp; cbn; repeat (constructor; [done|]).
Qed.

Lemma validate_entries_spec m kind tr out sr es ks fs fs' K O :
  validate_entries m kind tr out sr es (map absolute_components ks) fs = (fs', Ok tt) ->
  wf_tree (tree fs) -> canonical tr K -> canonical out O -> NoDup ks ->
  reads_only fs fs' /\
  exists vs, Forall2 (views_entry (tree fs') m) es vs /\ Forall2 (entry_facts m kind K O) es vs
             /\ NoDup (concat (map entry_keys vs) ++ ks).
Proof.
  intros H Hw HK HO. revert ks fs H Hw. induction es as [|e es IH]; intros ks fs H Hw Hnd.
  { injection H as <-. split; [done|]. by exists []. }
  cbn [validate_entries] in H. run_step H.
  destruct (validate_entry_spec _ _ _ _ _ _ _ _ _ _ _ _ E Hw HK HO Hnd) as (R1 & v & Hv & Hf & -> & Hnd1).
  destruct (IH _ _ H (reads_step_wf _ _ R1 Hw) Hnd1) as (R2 & vs & Hvs & Hfs & Hnd2).
  split; [by etrans|]. exists (v :: vs). split; [constructor; [by eapply views_entry_step|done]|].
  split; [by constructor|]. cbn. revert Hnd2. apply NoDup_Permutation_proper.
  rewrite !(assoc_L app). by rewrite (Permutation_app_comm (concat _) (entry_keys v)).
Qed.

Lemma validate_directories_spec m out l previous O d :
  validate_directories m out l previous = Ok tt -> canonical out O -> d ∈ l ->
  exists p k e es pf s, directory_path m d = Ok p /\ canonical p k /\ entries m = Ok es /\ e ∈ es
    /\ final_of m e = Ok (pf, final_identity e) /\ s <> [] /\ canonical pf (k ++ s)
    /\ (exists s', s' <> [] /\ k = O ++ s')
    /\ (state d = Some Owned <-> identity d <> None).
Proof.
  revert previous. induction l as [|d' l IH]; intros previous H HO Hd; [by apply not_elem_of_nil in Hd|].
  cbn [validate_directories] in H. apply obind_Ok in H as (p & Hp & H). apply obind_Ok in H as (es & Hes & H).
  apply obind_Ok in H as (e & He & H). apply ok_or_Ok in He. apply obind_Ok in H as ([pf i] & Hpf & H).
  apply obind_Ok in H as ([] & H1 & H). apply obind_Ok in H as ([] & H2 & H). apply obind_Ok in H as ([] & H3 & H).
  apply obind_Ok in H as ([] & H4 & H). apply obind_Ok in H as ([] & H5 & H).
  apply elem_of_cons in Hd as [->|Hd]; [|by eapply IH].
  destruct (contained_spec _ _ _ H1 HO) as (s' & Hs' & Hk). destruct (contained_spec _ _ _ H2 Hk) as (s & Hs & Hf).
  exists p, (O ++ s'), e, es, pf, s. split_and!; try done.
  - unfold zlookup in He. destruct (_ <=? _); [|done]. by eapply list_elem_of_lookup_2.
  - by rewrite (final_of_Ok _ _ _ _ Hpf) in Hpf.
  - by exists s'.
  - by destruct (state d') as [[]|], (identity d').
Qed.

(** The journaled directories of a view lie above a final file. *)
Definition directory_facts (O : Key) (vs : list EntryView) (x : Key * option FileIdentity) : Prop :=
  (exists v s, v ∈ vs /\ s <> [] /\ (v_final v).1 = x.1 ++ s) /\ exists s, s <> [] /\ x.1 = O ++ s.

Lemma views_directories fs m out ds O es vs :
  validate_directories m out ds [] = Ok tt -> canonical out O -> entries m = Ok es ->
  Forall2 (views_entry (tree fs) m) es vs ->
  exists xs, Forall2 (views_directory (tree fs) m) ds xs /\ Forall (directory_facts O vs) xs.
Proof.
  intros H HO Hes Hvs.
  assert (forall l, (forall d, d ∈ l -> d ∈ ds) ->
            exists xs, Forall2 (views_directory (tree fs) m) l xs /\ Forall (directory_facts O vs) xs) as Hall;
    [|apply Hall; done].
  intros l. induction l as [|d l IH]; intros Hl; [exists []; split; constructor|].
  destruct IH as (xs & H1 & H2); [intros d' Hd'; apply Hl; by constructor|].
  destruct (validate_directories_spec _ _ _ _ _ d H HO) as (p & k & e & es' & pf & s & Hp & Hk & Hes' & He & Hpf & Hs & Hc & Hu & Hi).
  { apply Hl. by constructor. }
  rewrite Hes in Hes'. injection Hes' as <-. apply list_elem_of_lookup_1 in He as [j Hj].
  destruct (Forall2_lookup_l _ _ _ _ _ Hvs Hj) as (v & Hv & [_ _ (pf' & Hpf' & Af)]).
  assert (pf' = pf) as -> by congruence. pose proof (canonical_inj _ _ _ (an_canonical _ _ _ Af) Hc) as Ek.
  exists ((k, identity d) :: xs). split; constructor; try done.
  - exists p. cbn. split; [done|]. split; [|done]. constructor; [done|apply Af|]. eapply clear_prefix; [|apply Af]. rewrite Ek. by apply prefix_app_r.
  - cbn. split; [|done]. exists v, s. split; [by eapply list_elem_of_lookup_2|done].
Qed.

Lemma contains_app_r c a b : contains c (a +:+ b) = false -> contains c b = false.
Proof. rewrite contains_app. by intros [_ ?]%orb_false_iff. Qed.

Lemma parent_exists p k x : canonical p (k ++ [x]) -> exists q, Paths.parent p = Some q /\ canonical q k.
Proof.
  intros H. assert (exists q, Paths.parent p = Some q) as [q Hq].
  { unfold parent. pose proof (canonical_absolute _ _ H) as Ha. unfold canonical in H.
    destruct (split_slash p) as [|first ps] eqn:Es; [by destruct (split_slash_cons p) as (? & ? & ?); congruence|].
    rewrite (components_parts _ _ _ Es), <-inner_trim, Ha in H.
    destruct (reverse (trim_right ps)) as [|y up] eqn:Et; [|by destruct (trim_right (reverse up)); eexists].
    apply (f_equal reverse) in Et. rewrite reverse_involutive in Et. rewrite Et in H. exfalso.
    destruct first as [|c first]; [cbn in H; by destruct k|].
    destruct p as [|d p]; [done|]. cbn in Ha, Es. rewrite Ha in Es. done. }
  exists q. split; [done|]. destruct (parent_components _ _ Hq) as [c Hc]. unfold canonical in *.
  rewrite H, map_app, app_comm_cons in Hc. by apply app_inj_tail in Hc as [-> _].
Qed.

Lemma utf8_dot_name id : contains slash id = false -> normal_name ("." +:+ ("." +:+ id +:+ ".manifest.json") +:+ "." +:+ id +:+ ".tmp").
Proof.
  intros H. split; [done|]. split; [done|]. split; [|by rewrite !contains_app, H].
  rewrite !string_cons_app. intros E. injection E as E. destruct id; done.
Qed.

(** The temporary manifest lies beside the manifest. *)
Lemma views_temporary_spec fs m mp id M :
  transaction_id_str m = Ok id -> contains slash id = false -> file_name mp = Some ("." +:+ id +:+ ".manifest.json") ->
  utf8 ("." +:+ id +:+ ".manifest.json") = true -> at_names (tree fs) mp M -> exists k, views_temporary (tree fs) m mp k.
Proof.
  intros Hid Hs Hf Hu [Hc Hw Hcl]. pose proof Hf as Hf'. unfold file_name in Hf'. rewrite Hc in Hf'.
  destruct M as [|x K _] using rev_ind; [done|].
  destruct (parent_exists _ _ _ Hc) as (q & Hq & Hqc).
  destruct (canonical_join _ _ _ Hqc (utf8_dot_name id Hs)) as [Hj Hl].
  eexists _, id, _, _. split; [done|]. split; [|split; [exact Hj|split; [exact Hl|split; [done|split]]]]; [| |by eexists _, _, _].
  - unfold manifest_temp_path, with_file_name. rewrite Hf. cbn [mbind option_bind]. unfold to_str. rewrite Hu. cbn [ok_or obind].
    by rewrite Hq.
  - apply clear_above_snoc. eapply clear_prefix; [|done]. by apply prefix_app_r.
Qed.

Lemma validate_roots_spec m kind tr out mp : validate_roots m kind tr out mp = Ok tt ->
  exists K O sr, canonical tr K /\ canonical out O /\ path m (staging_root_path m) = Ok sr /\ canonical sr K
    /\ (exists i, staging_root_identity m = Some i)
    /\ (kind = FileSet -> canonical mp (K ++ [RECALL_MANIFEST_NAME]))
    /\ (kind = FileSet \/ kind = AtomicDirectory)
    /\ (exists name, last K = Some name)
    /\ (kind = AtomicDirectory -> exists id, transaction_id_str m = Ok id /\ contains slash id = false
        /\ file_name mp = Some ("." +:+ id +:+ ".manifest.json")
        /\ utf8 ("." +:+ id +:+ ".manifest.json") = true).
Proof.
  unfold validate_roots. intros H. apply obind_Ok in H as ([] & H1 & H). apply obind_Ok in H as ([] & H2 & H).
  apply obind_Ok in H as (sr & Hsr & H). apply obind_Ok in H as (output & Hout & H).
  apply obind_Ok in H as ([] & H3 & H). apply obind_Ok in H as ([] & H4 & H). apply obind_Ok in H as (id & Hid & H).
  apply obind_Ok in H as (nm & Hnm & H). apply obind_Ok in H as ([] & H5 & H). apply obind_Ok in H as ([] & H6 & H).
  apply reject_Ok in H3, H4, H5. apply orb_false_iff in H3 as [H3 _]. apply negb_false_iff in H3, H5.
  destruct (lexical_canonical _ H1) as [K HK]. destruct (lexical_canonical _ H2) as [O HO].
  pose proof (path_eq_canonical _ _ _ H3 HK) as Hk.
  exists K, O, sr. split; [done|]. split; [done|]. split; [done|]. split; [done|]. split.
  { apply bool_decide_eq_false in H4. by destruct (staging_root_identity m); [eexists|]. }
  split; [|split; [|split]].
  - intros ->. rewrite bool_decide_eq_true_2 in H by done. apply reject_Ok, negb_false_iff in H.
    eapply path_eq_canonical; [done|]. apply canonical_join; [done|]. split_and!; done.
  - destruct kind; [done|done|by left|by right].
  - apply bool_decide_eq_true in H5. unfold file_name in H5. rewrite Hk in H5.
    destruct K as [|x K _] using rev_ind; [done|]. rewrite last_snoc. by exists x.
  - intros ->. rewrite bool_decide_eq_false_2 in H by done. apply reject_Ok, negb_false_iff, bool_decide_eq_true in H.
    exists id. split; [done|]. injection Hnm as <-. apply bool_decide_eq_true, bind_Some in H5 as (n1 & H5 & H5').
    apply bind_Some in H as (n2 & H & H'). unfold to_str in H5', H'. destruct (utf8 n1); [|done].
    destruct (utf8 n2) eqn:Eu; [|done]. injection H5' as ->. injection H' as ->. split; [|done].
    unfold file_name in H5. rewrite Hk in H5. pose proof (canonical_normal _ _ Hk) as Hnorm.
    destruct K as [|x K _] using rev_ind; [done|]. apply Forall_app in Hnorm as [_ [Hx _]%Forall_cons].
    change (RootDir :: map Normal (K ++ [x])) with ([RootDir] ++ map Normal (K ++ [x])) in H5.
    rewrite map_app, app_assoc in H5. cbn [map] in H5. rewrite last_snoc in H5. injection H5 as ->. destruct Hx as (_ & _ & _ & Hs).
    by apply contains_app_r in Hs.
Qed.

Record validated (nodes : gmap Key Node) (m : TransactionManifest) (kind : TransactionKind) (mp : string)
    (mid : FileIdentity) (V : View) (O : Key) (es : list ManifestEntrySlot) : Prop := mkValidated {
  vd_views : views nodes m mp mid V;
  vd_entries : entries m = Ok es;
  vd_facts : Forall2 (entry_facts m kind (v_staging V).1 O) es (v_entries V);
  vd_nodup : NoDup (view_keys V);
  vd_directories : Forall (directory_facts O (v_entries V)) (v_directories V);
  vd_manifest : kind = FileSet -> (v_manifest V).1 = (v_staging V).1 ++ [RECALL_MANIFEST_NAME];
  vd_final : if bool_decide (kind = AtomicDirectory) then exists k, v_final_directory V = Some (k, final_directory_identity m)
             else v_final_directory V = None;
  vd_kind : kind_matches kind m = true;
  vd_phase : validate_phase_state m = Ok tt;
  vd_unique : validate_identity_uniqueness m = Ok tt;
  vd_nonroot : (v_staging V).1 <> [];
  vd_final_child : forall k i, v_final_directory V = Some (k, i) -> exists x, k = O ++ [x];
  vd_temporary : if bool_decide (kind = FileSet) then v_temporary V = None else exists k, v_temporary V = Some k;
}.

Lemma final_directory_Ok m p i : final_directory m = Ok (Some (p, i)) -> i = final_directory_identity m.
Proof. unfold final_directory. destruct (_ =? _); [done|]. intros H. by ok_steps; simplify_eq. Qed.

Lemma root_paths_spec m kind out O sr mp K M paths :
  validate_root_paths m kind out sr mp = Ok paths ->
  canonical out O -> canonical sr K -> canonical mp M -> kind = FileSet \/ kind = AtomicDirectory ->
  exists fd, paths = map absolute_components ((match fd with Some k => [k] | None => [] end) ++ [M; K])
    /\ NoDup ((match fd with Some k => [k] | None => [] end) ++ [M; K])
    /\ match fd with
       | Some k => kind = AtomicDirectory
                   /\ exists p, final_directory m = Ok (Some (p, final_directory_identity m)) /\ canonical p k
                                /\ k <> K /\ (exists x, k = O ++ [x])
       | None => kind = FileSet /\ final_directory m = Ok None
       end.
Proof.
  unfold validate_root_paths. intros H HO HK HM Hkind. apply obind_Ok in H as (p1 & H1 & H).
  destruct (insert_unique_spec [] _ _ _ H1 HK) as [-> _]. apply obind_Ok in H as (p2 & H2 & H).
  destruct (insert_unique_spec [K] _ _ _ H2 HM) as [-> Hn]. apply obind_Ok in H as (fd & Hfd & H).
  assert (NoDup [M; K]) as Hnd by (constructor; [done|apply NoDup_singleton]).
  destruct Hkind as [-> | ->].
  - rewrite bool_decide_eq_false_2 in H by done. apply obind_Ok in H as ([] & H3 & [= <-]). apply reject_Ok in H3.
    exists None. destruct fd as [|]; [done|]. done.
  - rewrite bool_decide_eq_true_2 in H by done. apply obind_Ok in H as ([p i] & H3 & H). apply ok_or_Ok in H3 as ->.
    apply obind_Ok in H as ([] & H3 & H). apply obind_Ok in H as ([] & H4 & H).
    destruct (direct_child_spec _ _ _ H4 HO) as [x Hx]. destruct (insert_unique_spec [M; K] _ _ _ H Hx) as [-> Hn'].
    rewrite (final_directory_Ok _ _ _ Hfd) in Hfd. exists (Some (O ++ [x])). split; [done|]. split; [by constructor|].
    split; [done|]. exists p. split; [done|]. split; [done|]. split; [|by exists x].
    intros E. apply Hn'. rewrite E. by right; left.
Qed.

Lemma entries_nonempty geteuid m es : entries m = Ok es -> validate_manifest_basics geteuid m = Ok tt -> es <> [].
Proof.
  unfold entries, validate_manifest_basics. intros He H -> . do 3 (apply obind_Ok in H as ([] & _ & H)).
  apply obind_Ok in H as (id & _ & H). apply obind_Ok in H as ([] & _ & H). apply obind_Ok in H as ([] & Hn & _).
  apply reject_Ok, Z.eqb_neq in Hn. unfold slice in He. destruct (_ && _) eqn:E; [|done]. to_prop.
  injection He as He. apply (f_equal zlen) in He. rewrite zlen_segment in He by lia. unfold zlen in He. cbn in He. lia.
Qed.

(** What a successful validation says about whose transaction it is: the user, the
    kind that the recovery is for, and the roots that it was approved for. *)
Record approved (geteuid : Z) (m : TransactionManifest) (kind : TransactionKind) (tr out : string) : Prop := mkApproved {
  ap_user : uid m = geteuid;
  ap_kind : kind_matches kind m = true;
  ap_staging : exists p, path m (staging_root_path m) = Ok p /\ path_eq p tr = true;
  ap_output : exists p, path m (output_root m) = Ok p /\ path_eq p out = true;
  ap_child : kind = AtomicDirectory -> forall S O, canonical tr S -> canonical out O -> exists x, S = O ++ [x];
}.

Lemma validate_manifest_approved geteuid m kind tr out mp fs fs' :
  validate_manifest geteuid m kind tr out mp fs = (fs', Ok tt) -> approved geteuid m kind tr out.
Proof.
  unfold validate_manifest. intros H. repeat run_step H. destruct a, a0, a1. unfold validate_manifest_basics in E.
  do 3 (apply obind_Ok in E as ([] & ?%reject_Ok & E)). apply reject_Ok, negb_false_iff in E0. unfold validate_roots in E1.
  do 2 (apply obind_Ok in E1 as ([] & _ & E1)). apply obind_Ok in E1 as (sr & Hsr & E1). apply obind_Ok in E1 as (o & Ho & E1).
  apply obind_Ok in E1 as ([] & [Hs Ho']%reject_Ok%orb_false_iff & _). apply negb_false_iff in Hs, Ho'.
  constructor; [|done|by exists sr|by exists o|].
  - match goal with Hu : negb (uid m =? geteuid) = false |- _ => by apply negb_false_iff, Z.eqb_eq in Hu end.
  - intros -> S O HS HO. assert (a5 = sr) as -> by congruence. unfold validate_root_paths in E6.
    do 2 (apply obind_Ok in E6 as (? & _ & E6)). apply obind_Ok in E6 as (fd & _ & E6). rewrite bool_decide_eq_true_2 in E6 by done.
    apply obind_Ok in E6 as ([] & _ & E6). apply obind_Ok in E6 as ([] & Hc & _). destruct (direct_child_spec _ _ _ Hc HO) as [y Hy].
    exists y. eapply canonical_inj; [|exact Hy]. by eapply path_eq_canonical.
Qed.

(** A successful validation gives a view of the transaction. *)
Lemma validate_manifest_spec geteuid m kind tr out mp mid fs fs' :
  validate_manifest geteuid m kind tr out mp fs = (fs', Ok tt) -> wf_tree (tree fs) ->
  (kind = AtomicDirectory -> exists M, canonical mp M) ->
  reads_only fs fs' /\
  exists V O es, canonical tr (v_staging V).1 /\ canonical out O /\ validated (tree fs') m kind mp mid V O es.
Proof.
  unfold validate_manifest. intros H Hw HM. repeat run_step H. destruct a, a0, a1, a2, a3, a4, a7, a9, a10.
  destruct (validate_roots_spec _ _ _ _ _ E1) as (K & O & sr & HK & HO & Hsr & Hk & (i & Hi) & Hmp & Hkind & (nm & Hnm) & Hdump).
  assert (a5 = sr) as -> by congruence.
  assert (exists M, canonical mp M /\ (kind = FileSet -> M = K ++ [RECALL_MANIFEST_NAME])) as (M & HMc & HMe).
  { destruct Hkind as [->| ->]; [exists (K ++ [RECALL_MANIFEST_NAME]); split; [by apply Hmp|done]|].
    destruct (HM eq_refl) as [M Hc]. by exists M. }
  destruct (rejected_clear _ _ _ _ HK Hw E2) as [R1 A1]. pose proof (reads_step_wf _ _ R1 Hw) as W1.
  destruct (rejected_clear _ _ _ _ HO W1 E3) as [R2 A2]. pose proof (reads_step_wf _ _ R2 W1) as W2.
  destruct (rejected_clear _ _ _ _ HMc W2 E4) as [R3 A3]. pose proof (reads_step_wf _ _ R3 W2) as W3.
  destruct (root_paths_spec _ _ _ _ _ _ _ _ _ E6 HO Hk HMc Hkind) as (fd & -> & Hnd & Hfd).
  assert (s2 = s1) as ->.
  { destruct (bool_decide (kind = FileSet)); [run_step E7|]; by injection E7 as <-. }
  destruct (validate_entries_spec _ _ _ _ _ _ _ _ _ _ _ E9 W3 HK HO Hnd) as (R4 & vs & Hvs & Hfs & Hnd').
  injection H as <- Hun. pose proof (entries_nonempty _ _ _ E8 E) as Hne.
  assert (exists xs, (exists ds, directories m = Ok ds /\ Forall2 (views_directory (tree s3) m) ds xs)
            /\ Forall (directory_facts O vs) xs) as (xs & Hxs & Hxf).
  { destruct Hkind as [-> | ->].
    - rewrite bool_decide_eq_true_2 in E7 by done. run_step E7. injection E7 as E7.
      destruct (views_directories _ _ _ _ _ _ _ E7 HO E8 Hvs) as (xs & H1 & H2). exists xs. split; [|done]. eexists. by split; [eassumption|].
    - rewrite bool_decide_eq_false_2 in E7 by done. injection E7 as E7. apply reject_Ok, negb_false_iff, Z.eqb_eq in E7.
      exists []. split; [|constructor]. exists []. split; [|constructor]. unfold directories. rewrite E7.
      rewrite slice_Some; [done|lia|lia|apply zlen_nonneg]. }
  assert (reads_only s1 s3) as R14 by done.
  assert (reads_only s s3) as Rs by (etrans; [exact R2|]; etrans; [exact R3|exact R4]).
  split; [by etrans; [exact R1|]|].
  pose proof (at_names_step _ _ _ _ _ R4 A3) as A4.
  assert (exists tk, match tk with Some k => views_temporary (tree s3) m mp k | None => True end
                     /\ if bool_decide (kind = FileSet) then tk = None else exists k, tk = Some k)
    as (tk & Htk & Htk').
  { destruct Hkind as [-> | ->]; [by exists None|]. destruct (Hdump eq_refl) as (id & Hid & H1 & H2 & H3).
    destruct (views_temporary_spec _ _ _ _ _ Hid H1 H2 H3 A4) as [k Hk']. exists (Some k). split; [done|]. by exists k. }
  exists (mkView vs xs (option_map (fun k => (k, final_directory_identity m)) fd) (K, i) (M, mid) tk), O, a8.
  split; [done|]. split; [done|]. constructor; cbn [v_entries v_directories v_final_directory v_staging v_manifest v_temporary fst snd].
  - constructor; cbn [v_entries v_directories v_final_directory v_staging v_manifest v_temporary fst snd].
    + by exists a8.
    + done.
    + destruct fd as [k|]; cbn; [|apply Hfd]. destruct Hfd as (Hkd & p & Hp & Hpc & _ & _). exists p. split; [done|].
      subst kind. destruct a8 as [|e0 a8]; [done|]. destruct vs as [|v0 vs]; [by inversion Hvs|].
      apply Forall2_cons in Hvs as [[_ _ (pf & _ & Af)] _]. apply Forall2_cons in Hfs as [Hf0 _].
      destruct (ef_dump _ _ _ _ _ _ Hf0 ltac:(done) _ _ _ Hp Hpc) as [x Hx].
      constructor; [done|apply Af|]. eapply clear_prefix; [|apply Af]. rewrite Hx. by apply prefix_app_r.
    + exists sr. split; [done|]. split; [|done]. destruct (at_names_step _ _ _ _ _ Rs A1). by constructor.
    + done.
    + done.
  - done.
  - done.
  - by destruct fd.
  - done.
  - done.
  - destruct fd as [k|]; destruct Hfd as [-> _]; [by exists k|done].
  - by apply reject_Ok, negb_false_iff in E0.
  - done.
  - done.
  - intros ->. done.
  - intros k i' Hki. destruct fd as [k'|]; [|done]. injection Hki as <- _. destruct Hfd as (_ & p & _ & _ & _ & Hx). exact Hx.
  - done.
Qed.
