(* ===== verification/RecoverySync.v ===== *)
(** * Synchronization of a complete recall

    Before recovery removes the manifest of a complete recall it synchronizes
    every final file and every directory from the output root down to it. The
    walk over the directories works on the text of the paths; here it is shown
    to visit exactly the names on the way, for paths written without empty or
    dot parts. *)
From Stdlib Require Import Ascii.
From S2P Require Import Prelude.
From S2P Require Import Errors.
From S2P Require Import Paths.
From S2P Require Import FileSystem.
From S2P Require Import Manifest.
From S2P Require Import ManifestJson.
From S2P Require Import Recovery.
From S2P Require Import RecoverySpec.

(** ** Texts *)

Lemma substring_app_l a b : String.substring 0 (String.length a) (a +:+ b) = a.
Proof. induction a as [|c a IH]; [by destruct b|]. rewrite string_cons_app. cbn. by rewrite IH. Qed.

Lemma substring_all a : String.substring 0 (String.length a) a = a.
Proof. induction a as [|c a IH]; [done|]. cbn. by rewrite IH. Qed.

Lemma substring_app_r a b : String.substring (String.length a) (String.length b) (a +:+ b) = b.
Proof. induction a as [|c a IH]; [apply substring_all|]. rewrite string_cons_app. exact IH. Qed.

Lemma length_app_string a b : String.length (a +:+ b) = (String.length a + String.length b)%nat.
Proof. induction a as [|c a IH]; [done|]. rewrite string_cons_app. cbn. by rewrite IH. Qed.

(** A character is not torn at a slash. *)
Definition expects_follow (l : list (Z * Z)) : Prop := Forall (fun x => 128 <= x.1) l.

Lemma utf8_follow_range b l : utf8_follow b = Some l -> expects_follow l.
Proof. unfold utf8_follow, expects_follow. repeat case_match; intros [= <-]; repeat (constructor; cbn; [lia|]); constructor. Qed.

Lemma utf8_from_slash l a b : expects_follow l -> utf8_from l (a +:+ String slash b) = true ->
  utf8_from l a = true /\ utf8 b = true.
Proof.
  revert l. induction a as [|c a IH]; intros l Hl.
  - rewrite string_nil_app. cbn. destruct l as [|[lo hi] l]; [done|].
    apply Forall_cons in Hl as [Hlo _]. cbn in Hlo. intros H. to_prop. lia.
  - rewrite string_cons_app. cbn. destruct l as [|[lo hi] l].
    + destruct (utf8_follow _) as [e|] eqn:E; [|done]. apply IH. by eapply utf8_follow_range.
    + apply Forall_cons in Hl as [_ Hl]. intros H. apply andb_prop in H as [H1 H2]. rewrite H1. by apply IH.
Qed.

Lemma utf8_slash a b : utf8 (a +:+ String slash b) = true -> utf8 a = true /\ utf8 b = true.
Proof. apply utf8_from_slash. constructor. Qed.

Lemma utf8_from_app_slash l a : utf8_from l a = true -> utf8_from l (a +:+ String slash "") = true.
Proof.
  revert l. induction a as [|c a IH]; intros l; [by destruct l|]. rewrite string_cons_app. cbn.
  destruct l as [|[lo hi] l].
  - destruct (utf8_follow _); [apply IH|done].
  - intros H. apply andb_prop in H as [-> H]. by apply IH.
Qed.

Lemma str_prefix_app a b : utf8 a = true -> str_prefix (a +:+ b) (slen a) = Some a.
Proof.
  intros Hu. unfold str_prefix, slen. rewrite Nat2Z.id, substring_app_l, Hu, length_app_string. by decide_cmp.
Qed.

Lemma str_suffix_app a b : utf8 a = true -> str_suffix (a +:+ b) (slen a) = Some b.
Proof.
  intros Hu. unfold str_suffix. rewrite str_prefix_app by done. unfold slen.
  rewrite Nat2Z.id, length_app_string, Nat.add_comm, Nat.add_sub, substring_app_r. done.
Qed.

(** The text of an absolute path with the given names. *)
Definition abs_text (names : Key) : string := String slash (join_slash names).

Lemma join_slash_app k l : k <> [] -> l <> [] -> join_slash (k ++ l) = join_slash k +:+ String slash (join_slash l).
Proof.
  intros Hk Hl. induction k as [|x k IH]; [done|]. destruct k as [|y k].
  - by destruct l.
  - change (join_slash ((x :: y :: k) ++ l)) with (x +:+ String slash (join_slash ((y :: k) ++ l))).
    rewrite IH by done. change (join_slash (x :: y :: k)) with (x +:+ String slash (join_slash (y :: k))).
    by rewrite string_app_assoc, string_cons_app.
Qed.

Lemma abs_text_app k l : k <> [] -> l <> [] -> abs_text (k ++ l) = abs_text k +:+ abs_text l.
Proof. intros Hk Hl. unfold abs_text. by rewrite join_slash_app, string_cons_app by done. Qed.

Lemma split_abs_text k : k <> [] -> Forall normal_name k -> split_slash (abs_text k) = "" :: k.
Proof.
  intros Hk Hn. unfold abs_text. cbn [split_slash]. rewrite split_slash_join; [done|done|].
  eapply Forall_impl; [exact Hn|]. by intros n (_ & _ & _ & H).
Qed.

Lemma inner_normal k : Forall normal_name k -> inner_components k = map Normal k.
Proof.
  induction k as [|x k IH]; [done|]. intros [Hx Hk]%Forall_cons.
  change (inner_components (x :: k)) with (part_component false x ++ inner_components k).
  by rewrite (proj1 (part_normal x Hx)), IH.
Qed.

Lemma canonical_abs_text k : k <> [] -> Forall normal_name k -> canonical (abs_text k) k.
Proof.
  intros Hk Hn. unfold canonical. rewrite components_absolute by done. rewrite split_abs_text by done.
  change (inner_components ("" :: k)) with (inner_components k). by rewrite inner_normal.
Qed.

Lemma trim_right_normal k x : normal_name x -> trim_right (k ++ [x]) = k ++ [x].
Proof.
  intros (H1 & H2 & _). unfold trim_right. rewrite reverse_snoc. cbn [drop_blank].
  apply String.eqb_neq in H1, H2. rewrite H1, H2. cbn [orb]. by rewrite reverse_cons, reverse_involutive.
Qed.

Lemma parent_abs_text k x : k <> [] -> Forall normal_name (k ++ [x]) -> Paths.parent (abs_text (k ++ [x])) = Some (abs_text k).
Proof.
  intros Hk Hn. unfold parent. rewrite split_abs_text by (by destruct k || done).
  apply Forall_app in Hn as [Hn [Hx _]%Forall_cons]. rewrite trim_right_normal by done. rewrite reverse_snoc, reverse_involutive.
  destruct k as [|y k _] using rev_ind; [done|]. apply Forall_app in Hn as [_ [Hy _]%Forall_cons].
  rewrite trim_right_normal by done. destruct (k ++ [y]) as [|z l] eqn:E; [by destruct k|]. done.
Qed.

(** One step of the walk: the next name. *)
Lemma next_end_spec k n rest : k <> [] -> Forall normal_name (n :: rest) -> utf8 (abs_text (k ++ n :: rest)) = true ->
  next_end (abs_text (k ++ n :: rest)) (slen (abs_text k)) = Ok (slen (abs_text (k ++ [n]))).
Proof.
  intros Hk [Hn Hrest]%Forall_cons Hu. rewrite abs_text_app in * by done.
  assert (abs_text (n :: rest) = String slash n +:+ match rest with [] => "" | _ => abs_text rest end) as Er.
  { destruct rest as [|x rest]; [by rewrite string_app_nil|].
    change (n :: x :: rest) with ([n] ++ x :: rest). by rewrite abs_text_app. }
  assert (abs_text k +:+ abs_text (n :: rest) =
          (abs_text k +:+ String slash "") +:+ (n +:+ match rest with [] => "" | _ => abs_text rest end)) as Et.
  { rewrite Er, string_app_assoc. done. }
  unfold next_end. rewrite Et. unfold abs_text in Hu at 2. apply utf8_slash in Hu as [Hu _].
  assert (slen (abs_text k) + 1 = slen (abs_text k +:+ String slash "")) as ->.
  { unfold slen. rewrite length_app_string. cbn [String.length]. lia. }
  rewrite str_suffix_app by by apply utf8_from_app_slash. cbn [unwrap obind].
  rewrite abs_text_app, slen_app by done. cbn [abs_text join_slash].
  assert (Paths.free_of (Ascii.eqb slash) n = true) as Hfree.
  { destruct Hn as (_ & _ & _ & Hs). unfold contains in Hs. destruct (Paths.find _ n) as [[]|] eqn:E; [done|].
    by apply find_None. }
  destruct rest as [|x rest].
  - rewrite string_app_nil, find_free by done. f_equal. rewrite !slen_app, !slen_cons. unfold slen. cbn. lia.
  - change (abs_text (x :: rest)) with (String slash (join_slash (x :: rest))).
    rewrite find_app by done. f_equal. rewrite slen_app, !slen_cons. unfold slen. cbn. lia.
Qed.

(** ** Synchronized nodes *)

Definition logged (fs fs' : FileSystem) (e : Effect) : Prop := exists l, effects fs' = l ++ effects fs /\ e ∈ l.

Definition dir_synced (fs fs' : FileSystem) (k : Key) : Prop :=
  exists n, tree fs !! k = Some n /\ is_dir n = true /\ logged fs fs' (Synced (identity_from_metadata n)).

Lemma logged_later P fs fs1 fs2 e : removes_only P fs1 fs2 -> logged fs fs1 e -> logged fs fs2 e.
Proof.
  intros Hr (l & E & He). destruct (ro_effects _ _ _ Hr) as [l' E']. exists (l' ++ l). rewrite E', E, app_assoc.
  split; [done|]. apply elem_of_app. by right.
Qed.

Lemma logged_earlier P fs fs1 fs2 e : removes_only P fs fs1 -> logged fs1 fs2 e -> logged fs fs2 e.
Proof.
  intros Hr (l & E & He). destruct (ro_effects _ _ _ Hr) as [l' E']. exists (l ++ l'). rewrite E, E', app_assoc.
  split; [done|]. apply elem_of_app. by left.
Qed.

Lemma dir_synced_later P fs fs1 fs2 k : removes_only P fs1 fs2 -> dir_synced fs fs1 k -> dir_synced fs fs2 k.
Proof. intros Hr (n & H1 & H2 & H3). exists n. eauto using logged_later. Qed.

Lemma dir_synced_earlier fs fs1 fs2 k : reads_only fs fs1 -> dir_synced fs1 fs2 k -> dir_synced fs fs2 k.
Proof.
  intros Hr (n & H1 & H2 & H3). exists n. rewrite <-(reads_only_tree _ _ Hr). eauto using logged_earlier.
Qed.

Lemma run_keeps {A} P (c : R A) fs fs' o : c fs = (fs', o) -> keeps (removes_only P) c -> removes_only P fs fs'.
Proof. intros H Hk. specialize (Hk fs). by rewrite H in Hk. Qed.

Lemma sync_directory_spec p k fs fs' : at_names (tree fs) p k -> sync_directory p fs = (fs', Ok tt) ->
  dir_synced fs fs' k.
Proof.
  intros Ha H. unfold sync_directory in H. apply bind_inv in H as (fs1 & n & H1 & H2). unfold io in H1, H2.
  rewrite open_directory_nofollow_run in H1. destruct (fault_now fs); [done|].
  destruct (lookup_at fs p) as [[k' n']|e|] eqn:E; cbn in H1; try done.
  destruct (at_names_found _ _ _ _ _ Ha E) as [-> Hn]. destruct (is_dir n') eqn:Ed; [|done]. injection H1 as <- <-.
  rewrite sync_all_run in H2. destruct (fault_now (next fs)); [done|]. injection H2 as <-. exists n'.
  split; [done|]. split; [done|]. exists [Synced (identity_from_metadata n')]. split; [done|]. by left.
Qed.

Lemma sync_directory_no_panic p fs fs' : sync_directory p fs <> (fs', Panic).
Proof.
  unfold sync_directory, bind, io. rewrite open_directory_nofollow_run. destruct (fault_now fs); [done|].
  pose proof (lookup_no_panic fs p) as Hp. destruct (lookup_at fs p) as [[k n]|e|]; cbn [obind snd]; [|done|done].
  destruct (is_dir n); [|done]. cbv beta iota. rewrite sync_all_run. by destruct (fault_now (next fs)).
Qed.

Lemma sync_regular_file_spec p i fs fs' : sync_regular_file p i fs = (fs', Ok tt) -> logged fs fs' (Synced i).
Proof.
  intros H. unfold sync_regular_file in H. apply bind_inv in H as (fs1 & n & H1 & H).
  pose proof (run_keeps (fun _ _ => False) _ _ _ _ H1 (keeps_io _ _ _ (keeps_open_nofollow _ _))) as R1.
  apply bind_inv in H as (fs2 & md & H2 & H). unfold io in H2. rewrite file_metadata_run in H2.
  destruct (fault_now fs1); [done|]. injection H2 as <- <-.
  destruct (negb (is_file n)); [done|]. unfold fail_if at 1 in H. rewrite bind_ret in H.
  destruct (bool_decide_reflect (identity_from_metadata n = i)) as [<-|]; [|done]. cbn [negb] in H.
  unfold fail_if at 1 in H. rewrite bind_ret in H. apply bind_inv in H as (fs3 & [] & H3 & H). unfold io in H3.
  rewrite sync_all_run in H3. destruct (fault_now (next fs1)); [done|]. injection H3 as <-.
  apply bind_inv in H as (fs4 & same & H4 & H).
  pose proof (run_keeps (fun _ _ => False) _ _ _ _ H4 (keeps_identity_matches _ _ _ _)) as R4.
  destruct same; [|done]. injection H as <-. eapply logged_later; [exact R4|]. eapply logged_earlier; [exact R1|].
  exists [Synced (identity_from_metadata n)]. split; [done|]. by left.
Qed.

Lemma names_prefix k l : RootDir :: map Normal k `prefix_of` RootDir :: map Normal l -> k `prefix_of` l.
Proof.
  intros [s H]. injection H as H. apply map_eq_app in H as (l1 & l2 & -> & H & _).
  apply map_Normal_inj in H as ->. by apply prefix_app_r.
Qed.

Section walk.
Context (m : TransactionManifest) (O : Key) (base : FileSystem).
Context (nonroot : O <> []) (wf : wf_tree (tree base)).

(** A final path below the output root, in its plain spelling. *)
Definition final_text (e : ManifestEntrySlot) (k : Key) : Prop :=
  exists x i, final_of m e = Ok (abs_text (k ++ [x]), i) /\ Forall normal_name (k ++ [x])
    /\ O `prefix_of` k /\ utf8 (abs_text (k ++ [x])) = true /\ slen (abs_text (k ++ [x])) <= u64_max
    /\ clear (tree base) (k ++ [x]).

(** The directories below the root down to [k] are synchronized. *)
Definition down_to (fs : FileSystem) (k : Key) : Prop :=
  forall d, O `prefix_of` d -> d <> O -> d `prefix_of` k -> dir_synced base fs d.

Lemma seen_before_spec candidate c prior b : seen_before m candidate prior = Ok b -> canonical candidate c ->
  (forall e, e ∈ prior -> exists k, final_text e k) ->
  b = true -> exists e k, e ∈ prior /\ final_text e k /\ c `prefix_of` k.
Proof using nonroot.
  intros H Hc Hp ->. induction prior as [|e prior IH]; [done|]. cbn [seen_before] in H.
  apply obind_Ok in H as ([pf i] & Hpf & H). destruct (Hp e) as (k & Hft); [by left|].
  pose proof Hft as (x & j & Hf & Hn & HO & _). assert (pf = abs_text (k ++ [x])) as -> by congruence.
  assert (k <> []) as Hk by (intros ->; by apply prefix_nil_inv in HO).
  rewrite parent_abs_text in H by done. destruct (path_starts_with _ _) eqn:E.
  - exists e, k. split; [by left|]. split; [done|].
    apply Forall_app in Hn as [Hn _]. unfold path_starts_with in E. rewrite (canonical_abs_text k), Hc in E by done.
    by apply names_prefix, is_prefix_spec.
  - destruct (IH H) as (e' & k' & He' & Hr); [intros e' He'; apply Hp; by right|]. exists e', k'.
    split; [by right|done].
Qed.

Lemma seen_before_total candidate prior : (forall e, e ∈ prior -> exists k, final_text e k) ->
  exists b, seen_before m candidate prior = Ok b.
Proof using Type.
  intros Hp. induction prior as [|e prior IH]; [by exists false|].
  destruct (Hp e) as (k & x & j & Hf & _); [by left|]. cbn [seen_before]. rewrite Hf. cbn [obind].
  destruct (match Paths.parent _ with Some p => _ | None => _ end); [by exists true|].
  apply IH. intros e' He'. apply Hp. by right.
Qed.

Lemma utf8_prefix k l : k <> [] -> utf8 (abs_text (k ++ l)) = true -> utf8 (abs_text k) = true.
Proof using Type.
  intros Hk. destruct l as [|y l]; [by rewrite app_nil_r|]. rewrite abs_text_app by done. intros H.
  by apply utf8_slash in H as [H _].
Qed.

Lemma slen_prefix k l : k <> [] -> slen (abs_text k) <= slen (abs_text (k ++ l)).
Proof using Type.
  intros Hk. destruct l as [|y l]; [rewrite app_nil_r; lia|]. rewrite abs_text_app, slen_app by done. unfold slen. lia.
Qed.

Lemma slen_longer k n l : k <> [] -> slen (abs_text k) < slen (abs_text (k ++ n :: l)).
Proof using Type.
  intros Hk. rewrite abs_text_app, slen_app by done. assert (1 <= slen (abs_text (n :: l))); [|lia].
  change (abs_text (n :: l)) with (String slash (join_slash (n :: l))). rewrite slen_cons. unfold slen. lia.
Qed.

Lemma str_prefix_text k l : k <> [] -> utf8 (abs_text (k ++ l)) = true ->
  str_prefix (abs_text (k ++ l)) (slen (abs_text k)) = Some (abs_text k).
Proof using Type.
  intros Hk Hu. pose proof (utf8_prefix _ _ Hk Hu) as Hk'. destruct l as [|y l].
  - rewrite app_nil_r. rewrite <-(string_app_nil (abs_text k)) at 1. by apply str_prefix_app.
  - rewrite abs_text_app by done. by apply str_prefix_app.
Qed.

Lemma down_to_snoc fs pre n : down_to fs pre -> O `prefix_of` pre -> dir_synced base fs (pre ++ [n]) ->
  down_to fs (pre ++ [n]).
Proof using Type.
  intros Hd HO Hn d H1 H2 H3. destruct (decide (d = pre ++ [n])) as [->|Hne]; [done|]. apply Hd; [done|done|].
  destruct H3 as [s Hs]. destruct s as [|y s _] using rev_ind; [rewrite app_nil_r in Hs; congruence|].
  rewrite app_assoc in Hs. apply app_inj_tail in Hs as [-> _]. by apply prefix_app_r.
Qed.

Lemma down_to_later fs fs' k : reads_only fs fs' -> down_to fs k -> down_to fs' k.
Proof using Type. intros Hr Hd d H1 H2 H3. eapply dir_synced_later; [exact Hr|]. by apply Hd. Qed.

(** One directory of the walk: synchronized now, or already with an earlier
    entry. *)
Lemma ancestor_turn pre n rest prior fs :
  pre <> [] -> Forall normal_name (pre ++ n :: rest) -> utf8 (abs_text (pre ++ n :: rest)) = true ->
  clear (tree base) (pre ++ n :: rest) -> O `prefix_of` pre -> reads_only base fs ->
  (forall e', e' ∈ prior -> exists k', final_text e' k') ->
  (forall e' k', e' ∈ prior -> final_text e' k' -> down_to fs k') ->
  match sync_ancestors_turn m (abs_text (pre ++ n :: rest)) prior (slen (abs_text pre)) fs with
  | (fs', Ok r) => reads_only fs fs' /\ dir_synced base fs' (pre ++ [n])
                   /\ r = match rest with [] => inr tt | _ => inl (slen (abs_text (pre ++ [n]))) end
  | (fs', Err _) => reads_only fs fs'
  | (_, Panic) => False
  end.
Proof using nonroot wf.
  intros Hpre Hn Hu Hcl HO Hbase Hprior Hdone. unfold sync_ancestors_turn.
  assert (Forall normal_name (n :: rest)) as Hnr by by apply Forall_app in Hn as [_ Hn].
  assert (slen (abs_text pre) < slen (abs_text (pre ++ n :: rest))) as Hlt.
  { by apply slen_longer. }
  decide_cmp. rewrite next_end_spec, bind_lift_Ok by done.
  assert (pre ++ n :: rest = (pre ++ [n]) ++ rest) as Eapp by by rewrite <-app_assoc.
  assert (pre ++ [n] <> []) as Hpn by by destruct pre. rewrite Eapp in *. rewrite str_prefix_text by done.
  cbn [unwrap]. rewrite bind_lift_Ok. destruct (seen_before_total (abs_text (pre ++ [n])) prior Hprior) as [b Hb].
  rewrite Hb, bind_lift_Ok. apply Forall_app in Hn as [Hn _].
  pose proof (canonical_abs_text _ Hpn Hn) as Hc.
  assert (bool_decide (rest = []) = (slen (abs_text (pre ++ [n])) =? slen (abs_text ((pre ++ [n]) ++ rest)))) as Hend.
  { destruct rest as [|y rest]; [by rewrite app_nil_r, Z.eqb_refl|].
    pose proof (slen_longer _ y rest Hpn). symmetry. apply Z.eqb_neq. lia. }
  rewrite <-Hend. destruct b.
  - rewrite bind_ret. cbn. split; [done|]. split; [|by destruct rest].
    destruct (seen_before_spec _ _ _ _ Hb Hc Hprior eq_refl) as (e & k & He & Hk & Hp).
    apply (Hdone e k He Hk); [by apply prefix_app_r| |done]. intros E.
    destruct HO as [s ->]. apply (f_equal length) in E. rewrite !length_app in E. cbn in E. lia.
  - unfold bind. destruct (sync_directory (abs_text (pre ++ [n])) fs) as [fs1 [[]|e|]] eqn:Es.
    + pose proof (run_keeps (fun _ _ => False) _ _ _ _ Es (keeps_sync_directory _ _)) as R1.
      cbn. split; [done|]. split; [|by destruct rest]. eapply dir_synced_earlier; [exact Hbase|].
      eapply sync_directory_spec; [|exact Es]. rewrite (reads_only_tree _ _ Hbase). constructor; [done|done|].
      eapply clear_prefix; [|exact Hcl]. by apply prefix_app_r.
    + exact (run_keeps (fun _ _ => False) _ _ _ _ Es (keeps_sync_directory _ _)).
    + by apply sync_directory_no_panic in Es.
Qed.

(** One entry: after the walk every directory down to its parent is
    synchronized; the walk returns and does not panic. *)
Lemma ancestors_synced e k prior fs :
  final_text e k -> (forall e', e' ∈ prior -> exists k', final_text e' k') ->
  (forall e' k', e' ∈ prior -> final_text e' k' -> down_to fs k') ->
  reads_only base fs ->
  exists fs' o, mloop (sync_ancestors_turn m (abs_text k) prior) (slen (abs_text O)) fs = (fs', o)
    /\ reads_only fs fs' /\ (o = Ok tt -> down_to fs' k) /\ o <> Panic.
Proof using nonroot wf.
  intros (x & i & Hf & Hn & HO & Hu & Hlen & Hcl) Hprior Hdone Hbase.
  apply Forall_app in Hn as [Hn [Hx _]%Forall_cons].
  assert (k <> []) as Hk by (intros ->; by apply prefix_nil_inv in HO).
  assert (clear (tree base) k) as Hclk by (eapply clear_prefix; [|exact Hcl]; by apply prefix_app_r).
  destruct (mloop_rule (sync_ancestors_turn m (abs_text k) prior)
    (fun fs1 l => reads_only fs fs1 /\ exists pre rest, k = pre ++ rest /\ O `prefix_of` pre
                  /\ l = slen (abs_text pre) /\ down_to fs1 pre)
    (fun _ l => slen (abs_text k) - l)
    (fun fs1 o => reads_only fs fs1 /\ (o = Ok tt -> down_to fs1 k) /\ o <> Panic)) with (s := fs) (l := slen (abs_text O))
    as (fs' & o & Hrun & HQ).
  - intros fs1 l [R1 (pre & rest & -> & HOp & -> & Hd)].
    assert (pre <> []) as Hpre by (intros ->; by apply prefix_nil_inv in HOp).
    destruct rest as [|n rest].
    { rewrite app_nil_r. unfold sync_ancestors_turn. rewrite Z.leb_refl. done. }
    pose proof (ancestor_turn pre n rest prior fs1 Hpre Hn (utf8_prefix _ _ Hk Hu)
      Hclk HOp ltac:(by etrans) Hprior
      (fun e' k' He' Hk' => down_to_later _ _ _ R1 (Hdone e' k' He' Hk'))) as Ht.
    destruct (sync_ancestors_turn _ _ _ _ fs1) as [fs2 [r|e'|]]; [|split; [by etrans|done]|done].
    destruct Ht as (R2 & Hs & ->). pose proof (down_to_snoc _ _ n (down_to_later _ _ _ R2 Hd) HOp Hs) as Hd'.
    destruct rest as [|y rest]; [split; [by etrans|done]|].
    assert (slen (abs_text pre) < slen (abs_text (pre ++ [n]))) as H1.
    { by apply slen_longer. }
    pose proof (slen_prefix (pre ++ [n]) (y :: rest) ltac:(by destruct pre)) as H2. rewrite <-app_assoc in H2. cbn [app] in H2.
    split; [|lia]. split; [by etrans|]. exists (pre ++ [n]), (y :: rest). rewrite <-app_assoc. split; [done|].
    split; [|done]. by apply prefix_app_r.
  - split; [done|]. destruct HO as [s ->]. exists O, s. split; [done|]. split; [done|]. split; [done|].
    intros d H1 H2 H3. destruct H2. by apply (anti_symm prefix).
  - pose proof (slen_prefix k [x] Hk). unfold slen in *. lia.
  - exists fs', o. done.
Qed.
End walk.

(** ** The directories of all entries *)

Lemma canonical_abs_inj k x k' x' : Forall normal_name (k ++ [x]) -> Forall normal_name (k' ++ [x']) ->
  abs_text (k ++ [x]) = abs_text (k' ++ [x']) -> k = k'.
Proof.
  intros H1 H2 E. assert (k ++ [x] = k' ++ [x']) as Ek.
  { eapply canonical_inj; [by apply canonical_abs_text; [destruct k|]|]. rewrite E. by apply canonical_abs_text; [destruct k'|]. }
  by apply app_inj_tail in Ek as [-> _].
Qed.

Lemma sync_parents_spec m O base l prior fs :
  O <> [] -> wf_tree (tree base) ->
  (forall e, e ∈ prior ++ l -> exists k, final_text m O base e k) ->
  (forall e k, e ∈ prior -> final_text m O base e k -> down_to O base fs k) -> reads_only base fs ->
  exists fs' o, sync_parents m (abs_text O) prior l fs = (fs', o) /\ reads_only fs fs' /\ o <> Panic
    /\ (o = Ok tt -> forall e k, e ∈ prior ++ l -> final_text m O base e k -> down_to O base fs' k).
Proof.
  intros HO Hw. revert prior fs. induction l as [|e l IH]; intros prior fs Hp Hd Hb.
  { exists fs, (Ok tt). rewrite app_nil_r. done. }
  destruct (Hp e) as (k & Hk); [apply elem_of_app; right; by left|].
  pose proof Hk as (x & i & Hf & Hn & HOk & Hu & _).
  assert (k <> []) as Hk0 by (intros ->; by apply prefix_nil_inv in HOk).
  cbn [sync_parents]. rewrite Hf, bind_lift_Ok, parent_abs_text by done.
  assert (utf8 (abs_text k) = true) as Huk by by eapply utf8_prefix.
  assert (utf8 (abs_text O) = true) as HuO by (destruct HOk as [s ->]; by eapply utf8_prefix).
  unfold to_str. rewrite HuO, Huk. cbn [ok_or]. rewrite !bind_bind, bind_lift_Ok, bind_bind, bind_lift_Ok.
  assert (forall e', e' ∈ prior -> exists k', final_text m O base e' k') as Hpp.
  { intros e' He'. apply Hp, elem_of_app. by left. }
  destruct (ancestors_synced m O base HO Hw e k prior fs Hk Hpp Hd Hb) as (fs1 & o & Hrun & R1 & Hdown & Hnp).
  destruct o as [[]|er|]; [|exists fs1, (Err er)|done].
  - rewrite (bind_run _ _ _ _ _ Hrun).
    destruct (IH (prior ++ [e]) fs1) as (fs' & o & Hrun' & R2 & Hnp' & Hall).
    + intros e' He'. apply Hp. by rewrite <-app_assoc in He'.
    + intros e' k' [He' | ->%list_elem_of_singleton]%elem_of_app Hk'.
      * eapply down_to_later; [exact R1|]. by eapply Hd.
      * destruct Hk' as (x' & i' & Hf' & Hn' & _).
        assert (abs_text (k ++ [x]) = abs_text (k' ++ [x'])) as E by congruence.
        rewrite <-(canonical_abs_inj _ _ _ _ Hn Hn' E). by apply Hdown.
    + by etrans.
    + exists fs', o. split; [done|]. split; [by etrans|]. split; [done|]. by rewrite <-app_assoc in Hall.
  - split; [unfold bind; by rewrite Hrun|]. done.
Qed.

(** A successful synchronization covers every directory from the output root
    down to the final files. *)
Lemma sync_file_set_directories_spec m O fs fs' es :
  sync_file_set_directories m (abs_text O) fs = (fs', Ok tt) -> entries m = Ok es ->
  O <> [] -> wf_tree (tree fs) -> (forall e, e ∈ es -> exists k, final_text m O fs e k) ->
  forall e k d, e ∈ es -> final_text m O fs e k -> O `prefix_of` d -> d `prefix_of` k -> dir_synced fs fs' d.
Proof.
  unfold sync_file_set_directories. intros H Hes HO Hw Hall e k d He Hk Hd Hdk.
  apply bind_inv in H as (fs1 & [] & H1 & H). rewrite Hes, bind_lift_Ok in H.
  pose proof (run_keeps (fun _ _ => False) _ _ _ _ H1 (keeps_sync_directory _ _)) as R1.
  destruct (sync_parents_spec m O fs es [] fs1 HO Hw Hall) as (fs2 & o & Hrun & R2 & _ & Hdown); [|done|].
  { by intros e' k' Hin%not_elem_of_nil. }
  rewrite H in Hrun. injection Hrun as <- <-. destruct (decide (d = O)) as [->|Hne].
  - eapply dir_synced_later; [exact R2|]. eapply sync_directory_spec; [|exact H1].
    destruct Hk as (x & i & Hf & Hn & HOk & Hu & _ & Hcl). destruct HOk as [s ->].
    rewrite <-!app_assoc in *. apply Forall_app in Hn as [Hn _]. constructor; [by apply canonical_abs_text|done|].
    eapply clear_prefix; [|exact Hcl]. by apply prefix_app_r.
  - by eapply Hdown.
Qed.
