(* ===== verification/RecoveryTheorems.v ===== *)
(** * Properties of recovery

    Recovery removes only nodes that the manifest names with their identity;
    a complete set of final files stays; a rolled back transaction leaves
    nothing of its own; an interrupted recovery can be run again. *)
From Stdlib Require Import Ascii.
From S2P Require Import Prelude.
From S2P Require Import Errors.
From S2P Require Import Paths.
From S2P Require Import FileSystem.
From S2P Require Import Manifest.
From S2P Require Import ManifestJson.
From S2P Require Import Recovery.
From S2P Require Import RecoverySpec.
From S2P Require Import RecoverySync.

(** ** Ownership *)

(** The final file of an entry, by its own identity or by that of the partial file
    that was moved to it. *)
Definition entry_owns_final (v : EntryView) (k : Key) (i : FileIdentity) : Prop :=
  v_final v = (k, Some i) \/ (v_final v).1 = k /\ exists q, v_partial v = Some (q, Some i).

(** The nodes that a transaction may remove in any case: its staged and partial
    files, its manifests and its staging directory. *)
Definition meta_owned (V : View) (k : Key) (n : Node) : Prop :=
  let i := identity_from_metadata n in
  is_file n = true /\ ((k, i) = v_manifest V \/ v_temporary V = Some k
                      \/ exists v, v ∈ v_entries V /\ (v_staged v = (k, Some i) \/ v_partial v = Some (k, Some i)))
  \/ is_dir n = true /\ (k, i) = v_staging V.

(** The nodes that a transaction that is rolled back may remove: also its final
    files and the directories that it created. *)
Definition owned (V : View) (k : Key) (n : Node) : Prop :=
  let i := identity_from_metadata n in
  meta_owned V k n
  \/ is_file n = true /\ (exists v, v ∈ v_entries V /\ entry_owns_final v k i)
  \/ is_dir n = true /\ (k, Some i) ∈ v_directories V.

Lemma meta_owned_owned V k n : meta_owned V k n -> owned V k n.
Proof. by left. Qed.

(** A method that removes nodes of [P] only, as long as the view holds. *)
Definition safe {A} (P : Key -> Node -> Prop) (m : TransactionManifest) (mp : string) (mid : FileIdentity)
    (V : View) (c : R A) : Prop :=
  forall fs, views (tree fs) m mp mid V -> removes_only P fs (c fs).1.

Section safe.
Context (P : Key -> Node -> Prop) (m : TransactionManifest) (mp : string) (mid : FileIdentity) (V : View).
Context (meta_P : forall k n, meta_owned V k n -> P k n).
#[local] Abbreviation safe := (safe P m mp mid V).

Lemma safe_keeps {A} (c : R A) : keeps (removes_only P) c -> safe c.
Proof using Type. intros H fs _. apply H. Qed.

Lemma safe_bind {A B} (c : R A) (k : A -> R B) :
  safe c -> (forall fs a fs', c fs = (fs', Ok a) -> safe (k a)) -> safe (bind c k).
Proof using Type.
  intros Hc Hk fs Hv. specialize (Hc fs Hv). unfold bind. destruct (c fs) as [fs1 [a|e|]] eqn:E; cbn in *; try done.
  etrans; [done|]. apply (Hk _ _ _ E). by eapply views_step.
Qed.

Lemma safe_catch {A} (c : R A) : safe c -> safe (catch c).
Proof using Type. intros Hc fs Hv. specialize (Hc fs Hv). unfold catch. by destruct (c fs) as [? []]. Qed.

Lemma safe_ret {A} (a : A) : safe (ret a).
Proof using Type. apply safe_keeps, keeps_ret, _. Qed.
Lemma safe_lift {A} (o : Result A) : safe (lift o).
Proof using Type. apply safe_keeps, keeps_lift, _. Qed.

(** A cleanup of a path with the identity that is recorded for it. *)
Lemma safe_cleanup p o :
  (forall fs, views (tree fs) m mp mid V -> exists names, at_names (tree fs) p names
     /\ forall n, is_file n = true -> o = Some (identity_from_metadata n) -> P names n) ->
  safe (cleanup_file p o).
Proof using Type.
  intros H fs Hv. destruct (H fs Hv) as (names & Ha & Ho). destruct (cleanup_file p o fs) as [fs' r] eqn:E. cbn.
  destruct o as [i|].
  - apply (cleanup_file_spec _ _ _ _ _ _ Ha) in E as [E _]. eapply removes_only_weaken; [|exact E].
    intros k n (-> & Hf & Hi). apply Ho; [done|by rewrite Hi].
  - apply (absent_spec _ _ _ Ha) in E as [E _]. by eapply removes_only_weaken; [|exact E].
Qed.

Lemma safe_remove_directory p o :
  (forall fs, views (tree fs) m mp mid V -> exists names, at_names (tree fs) p names
     /\ forall n, is_dir n = true -> o = Some (identity_from_metadata n) -> P names n) ->
  safe (remove_directory_if_identity p o).
Proof using Type.
  intros H fs Hv. destruct (H fs Hv) as (names & Ha & Ho).
  destruct (remove_directory_if_identity p o fs) as [fs' r] eqn:E. cbn. destruct o as [i|].
  - apply (remove_directory_spec _ _ _ _ _ _ Ha) in E as [E _]. eapply removes_only_weaken; [|exact E].
    intros k n (-> & Hf & Hi). apply Ho; [done|by rewrite Hi].
  - apply (absent_spec _ _ _ Ha) in E as [E _]. by eapply removes_only_weaken; [|exact E].
Qed.

Lemma safe_remove_manifest : safe (remove_if_identity mp mid).
Proof using meta_P.
  intros fs Hv. destruct (vw_manifest _ _ _ _ _ Hv) as [Ha Hm]. destruct (remove_if_identity mp mid fs) as [fs' r] eqn:E.
  apply (remove_if_identity_spec _ _ _ _ _ _ Ha) in E as [E _]. eapply removes_only_weaken; [|exact E].
  intros k n (-> & Hf & Hi). apply meta_P. left. split; [done|]. left. rewrite Hi, <-Hm. by destruct (v_manifest V).
Qed.

Lemma safe_remove_staging p : path m (staging_root_path m) = Ok p ->
  safe (remove_directory_if_identity p (staging_root_identity m)).
Proof using meta_P.
  intros Hp. apply safe_remove_directory. intros fs Hv. destruct (vw_staging _ _ _ _ _ Hv) as (p' & Hp' & Ha & Hi).
  assert (p' = p) as -> by congruence. exists (v_staging V).1. split; [done|]. intros n Hd Hn. apply meta_P. right. split; [done|].
  rewrite Hi in Hn. injection Hn as <-. by destruct (v_staging V).
Qed.

(** The entries of the manifest and those of the view. *)
Lemma view_entry fs es e : views (tree fs) m mp mid V -> entries m = Ok es -> e ∈ es ->
  exists v, v ∈ v_entries V /\ views_entry (tree fs) m e v.
Proof using Type.
  intros Hv Hes He. destruct (vw_entries _ _ _ _ _ Hv) as (es' & Hes' & HF). assert (es' = es) as -> by congruence.
  apply list_elem_of_lookup_1 in He as [j Hj]. destruct (Forall2_lookup_l _ _ _ _ _ HF Hj) as (v & Hl & Hve).
  exists v. split; [by eapply list_elem_of_lookup_2|done].
Qed.

Lemma safe_cleanup_staged es e p o : entries m = Ok es -> e ∈ es -> staged m e = Ok (p, o) -> safe (cleanup_file p o).
Proof using meta_P.
  intros Hes He Hs. apply safe_cleanup. intros fs Hv. destruct (view_entry _ _ _ Hv Hes He) as (v & Hin & [(p' & Hp & Ha) _ _]).
  rewrite Hs in Hp. injection Hp as <- Ho. exists (v_staged v).1. split; [done|]. intros n Hf Hn. apply meta_P. left. split; [done|].
  right; right. exists v. split; [done|]. left. rewrite Hn in Ho. destruct (v_staged v); cbn in *. by subst.
Qed.

Lemma safe_cleanup_partial es e p o : entries m = Ok es -> e ∈ es -> Manifest.partial m e = Ok (Some (p, o)) ->
  safe (cleanup_file p o).
Proof using meta_P.
  intros Hes He Hs. apply safe_cleanup. intros fs Hv. destruct (view_entry _ _ _ Hv Hes He) as (v & Hin & [_ Hp _]).
  destruct (v_partial v) as [[k i]|] eqn:Ev; [|congruence]. destruct Hp as (p' & Hp & Ha). rewrite Hs in Hp.
  injection Hp as <- ->. exists k. split; [done|]. intros n Hf Hn. apply meta_P. left. split; [done|].
  right; right. exists v. split; [done|]. right. by rewrite Ev, Hn.
Qed.

Lemma safe_cleanup_final es e p i o : (forall k n, owned V k n -> P k n) -> entries m = Ok es -> e ∈ es -> final_of m e = Ok (p, i) ->
  (o = final_identity e \/ o = None \/ o = partial_identity e /\ exists q j, Manifest.partial m e = Ok (Some (q, j))) ->
  safe (cleanup_file p o).
Proof using Type.
  intros HP Hes He Hs Ho. apply safe_cleanup. intros fs Hv.
  destruct (view_entry _ _ _ Hv Hes He) as (v & Hin & [_ Hvp (p' & Hp & Ha)]).
  rewrite Hs in Hp. injection Hp as <- Hi. exists (v_final v).1. split; [done|]. intros n Hf Hn. apply HP. right; left. split; [done|].
  exists v. split; [done|]. destruct Ho as [->|[->|[-> (q & j & Hq)]]]; [left| |right].
  - rewrite <-Hn, <-(final_of_Ok _ _ _ _ Hs), Hi. by destruct (v_final v).
  - done.
  - split; [done|]. destruct (v_partial v) as [[k j']|]; [|congruence]. destruct Hvp as (q' & Hq' & _). exists k.
    rewrite Hq in Hq'. injection Hq' as <- <-. by rewrite (partial_Ok _ _ _ _ Hq), Hn.
Qed.
End safe.

(** Reduces the claim that a method is safe to its removals. *)
Ltac safe_step :=
  lazymatch goal with
  | |- safe _ _ _ _ _ (bind _ _) => apply safe_bind; [|intros ? ? ? ?]
  | |- safe _ _ _ _ _ (catch _) => apply safe_catch
  | |- safe _ _ _ _ _ (lift _) => apply safe_lift
  | |- safe _ _ _ _ _ (ret _) => apply safe_ret
  | |- safe _ _ _ _ _ (match _ with _ => _ end) => case_match
  end.
Ltac safe_steps := repeat safe_step.

Lemma lift_Ok_run {S E A} (o : outcome E A) (s s' : S) a : lift o s = (s', Ok a) -> o = Ok a.
Proof. by intros [= _ ->]. Qed.

(** The identity that is inferred for an entry is one of those recorded for it. *)
Lemma inferred_keeps P m index : keeps (removes_only P) (inferred_final_identity m index).
Proof. unfold inferred_final_identity. recovery_steps. Qed.
#[export] Hint Resolve inferred_keeps : files.

Lemma inferred_spec m index es e fs fs' o :
  inferred_final_identity m index fs = (fs', Ok o) -> entries m = Ok es -> zlookup es index = Some e ->
  o = final_identity e \/ o = None \/ o = partial_identity e /\ exists q j, Manifest.partial m e = Ok (Some (q, j)).
Proof.
  unfold inferred_final_identity. intros H Hes He. rewrite Hes in H. rewrite bind_lift_Ok, He in H.
  cbn [unwrap] in H. rewrite bind_lift_Ok in H. destruct (has_final e); [injection H as _ <-; by left|].
  destruct (negb _); [injection H as _ <-; by right; left|].
  destruct (partial_identity e) as [i|] eqn:Ei; [|injection H as _ <-; by right; left].
  apply bind_lift_inv in H as (po & Hpo & H). apply bind_lift_inv in H as ([q j] & Hq & H).
  apply bind_inv in H as (fs1 & b & _ & H). injection H as _ <-. destruct b; [by right; left|]. right; right.
  split; [done|]. exists q, j. destruct po; cbn in Hq; congruence.
Qed.

Section safe_runs.
Context (P : Key -> Node -> Prop) (m : TransactionManifest) (mp : string) (mid : FileIdentity) (V : View).
Context (meta_P : forall k n, meta_owned V k n -> P k n).

Lemma keeps_sync_parents out prior l : keeps (removes_only P) (sync_parents m out prior l).
Proof using Type.
  revert prior. induction l as [|e l IH]; intros prior; cbn [sync_parents]; recovery_steps; try apply IH.
  apply keeps_mloop; [tc_solve|]. intros end_. unfold sync_ancestors_turn. recovery_steps.
Qed.
#[local] Hint Resolve keeps_sync_parents : files.

Lemma keeps_sync_file_set_directories out : keeps (removes_only P) (sync_file_set_directories m out).
Proof using Type. unfold sync_file_set_directories. recovery_steps. Qed.
Lemma safe_cleanup_entries es l : entries m = Ok es -> (forall e, e ∈ l -> e ∈ es) ->
  safe P m mp mid V (cleanup_entries m l).
Proof using meta_P.
  intros Hes. induction l as [|e l IH]; intros Hl; [apply safe_ret|]. cbn [cleanup_entries].
  assert (e ∈ es) as He by (apply Hl; by constructor). safe_steps.
  - eapply safe_cleanup_staged; [exact meta_P|done..|]. by eapply lift_Ok_run.
  - subst. eapply safe_cleanup_partial; [exact meta_P|done..|]. by eapply lift_Ok_run.
  - apply IH. intros e' He'. apply Hl. by constructor.
Qed.

Lemma safe_best_effort : safe P m mp mid V (best_effort_remove_recall_metadata m mp mid).
Proof using meta_P.
  unfold best_effort_remove_recall_metadata. safe_steps.
  - eapply safe_cleanup_entries; [by eapply lift_Ok_run|done].
  - apply safe_keeps. auto with files.
  - apply safe_remove_manifest. exact meta_P.
  - apply safe_remove_staging; [exact meta_P|]. by eapply lift_Ok_run.
Qed.

Lemma keeps_sync_finals index l : keeps (removes_only P) (sync_finals m index l).
Proof using Type. revert index. induction l as [|e l IH]; intros index; cbn [sync_finals]; recovery_steps; apply IH. Qed.

(** The second half of the end of a complete recall. *)
Lemma safe_clear_recall : safe P m mp mid V (best_effort_remove_recall_metadata m mp mid ;;
  let! staging_root := lift (path m (staging_root_path m)) in
  match Paths.parent staging_root with
  | Some parent => let! _ := catch (sync_directory parent) in ret tt
  | None => ret tt
  end ;;
  ret OutcomeComplete).
Proof using meta_P. safe_steps; [apply safe_best_effort|]. apply safe_keeps. auto with files. Qed.

Lemma safe_finish_recall out : safe P m mp mid V (finish_recall m out mp mid).
Proof using meta_P.
  unfold finish_recall. apply safe_bind; [apply safe_lift|]. intros ? es ? ?.
  apply safe_bind; [apply safe_keeps, keeps_sync_finals|]. intros ? [] ? ?.
  apply safe_bind; [apply safe_keeps, keeps_sync_file_set_directories|]. intros ? [] ? ?. apply safe_clear_recall.
Qed.

Lemma safe_rollback_entries es index l pending : (forall k n, owned V k n -> P k n) -> entries m = Ok es -> l = drop (Z.to_nat index) es -> 0 <= index ->
  safe P m mp mid V (rollback_entries m index l pending).
Proof using meta_P.
  intros HP Hes. revert index pending. induction l as [|e l IH]; intros index pending Hl Hi; [apply safe_ret|].
  cbn [rollback_entries]. assert (es !! Z.to_nat index = Some e) as Hlk.
  { pose proof (lookup_drop es (Z.to_nat index) 0) as Hd. rewrite <-Hl, Nat.add_0_r in Hd. by rewrite <-Hd. }
  assert (e ∈ es) as He by by eapply list_elem_of_lookup_2.
  assert (zlookup es index = Some e) as Hz by (unfold zlookup; by decide_cmp).
  apply safe_bind; [|intros; apply IH; [|lia]].
  2: { rewrite Z2Nat.inj_add, Nat.add_comm by lia. rewrite <-skipn_skipn, <-Hl. done. }
  unfold rollback_entry. safe_steps.
  - apply safe_keeps. auto with files.
  - eapply safe_cleanup_final; [done..|by eapply lift_Ok_run|]. by eapply inferred_spec.
  - subst. eapply safe_cleanup_partial; [exact meta_P|done..|]. by eapply lift_Ok_run.
  - eapply safe_cleanup_staged; [exact meta_P|done..|]; by eapply lift_Ok_run.
  - eapply safe_cleanup_staged; [exact meta_P|done..|]; by eapply lift_Ok_run.
Qed.

Lemma safe_remove_created ds l : (forall k n, owned V k n -> P k n) -> directories m = Ok ds -> (forall d, d ∈ l -> d ∈ ds) ->
  safe P m mp mid V (remove_created m l).
Proof using Type.
  intros HP Hds. induction l as [|d l IH]; intros Hl; [apply safe_ret|]. cbn [remove_created].
  apply safe_bind; [|intros; apply IH; intros; apply Hl; by constructor].
  destruct (bool_decide_reflect (state d = Some Owned)) as [Ho|]; [|apply safe_ret]. safe_steps.
  apply safe_remove_directory. intros fs2 Hv. destruct (vw_directories _ _ _ _ _ Hv) as (ds' & Hds' & HF).
  assert (ds' = ds) as -> by congruence. assert (d ∈ ds) as Hd by (apply Hl; by constructor).
  apply list_elem_of_lookup_1 in Hd as [j Hj]. destruct (Forall2_lookup_l _ _ _ _ _ HF Hj) as ([k i] & Hx & p & Hp & Ha & Hid & _).
  apply lift_Ok_run in H. assert (p = a) as -> by congruence. exists k. split; [done|]. intros n Hdir Hn.
  apply HP. right; right. split; [done|]. cbn in *. rewrite <-Hn, Hid. by eapply list_elem_of_lookup_2.
Qed.

Lemma safe_rollback_recall : (forall k n, owned V k n -> P k n) -> safe P m mp mid V (rollback_recall m mp mid).
Proof using meta_P.
  intros HP. unfold rollback_recall. safe_steps.
  - eapply safe_rollback_entries; [done|by eapply lift_Ok_run|done|done].
  - eapply safe_remove_created; [done|by eapply lift_Ok_run|]. intros d. by rewrite elem_of_reverse.
  - apply safe_keeps. auto with files.
  - apply safe_remove_manifest. exact meta_P.
  - apply safe_remove_staging; [exact meta_P|]. by eapply lift_Ok_run.
Qed.
End safe_runs.

Section safe_dumps.
Context (P : Key -> Node -> Prop) (m : TransactionManifest) (mp : string) (mid : FileIdentity) (V : View).
Context (meta_P : forall k n, meta_owned V k n -> P k n).

Lemma safe_temp_manifest id : transaction_id_str m = Ok id -> v_temporary V <> None ->
  safe P m mp mid V (cleanup_dump_temp_manifest mp id).
Proof using meta_P.
  intros Hid HT fs Hv. pose proof (vw_temporary _ _ _ _ _ Hv) as Ht. destruct (v_temporary V) as [k|] eqn:Ek; [|done].
  destruct Ht as (id' & p & x & Hid' & Hp & Hc & Hl & Hw & Hcl & _). assert (id' = id) as -> by congruence.
  unfold cleanup_dump_temp_manifest. rewrite Hp, bind_lift_Ok, bind_meta.
  destruct (meta fs p) as [n|e|] eqn:Em; [|by destruct e; apply next_removes|by apply meta_no_panic in Em].
  rewrite file_not_symlink. destruct (is_file n) eqn:Ef; cbn [negb]; [|apply next_removes].
  destruct (meta_next_found _ _ _ Em) as [k' Hlk].
  pose proof (lookup_names fs p k Hc Hw Hcl ltac:(congruence)) as HL. rewrite Hlk in HL. destruct HL as [-> Hn].
  destruct (removed (remove_file p) (next fs)) as [fs' r] eqn:E. cbn.
  eapply (removed_file_spec _ _ _ _ P) in E as [E _]; [by etrans; [apply next_removes|]|].
  intros k2 n2. rewrite lookup_next, Hlk. intros [= <- <-] _. apply meta_P. left. split; [done|]. by right; left.
Qed.

Lemma safe_remove_dump_manifest : v_temporary V <> None -> safe P m mp mid V (remove_dump_manifest m mp mid).
Proof using meta_P.
  intros HT. unfold remove_dump_manifest. safe_steps; [by apply safe_remove_manifest|].
  apply safe_temp_manifest; [by eapply lift_Ok_run|done].
Qed.

Lemma keeps_sync_dump_finals l : keeps (removes_only P) (sync_dump_finals m l).
Proof using Type. induction l as [|e l IH]; cbn [sync_dump_finals]; recovery_steps; apply IH. Qed.

Lemma safe_finish_dump out : v_temporary V <> None -> safe P m mp mid V (finish_dump m out mp mid).
Proof using meta_P.
  intros HT. unfold finish_dump. safe_steps; try (apply safe_keeps; solve [auto with files]).
  - apply safe_keeps, keeps_sync_dump_finals.
  - by apply safe_remove_dump_manifest.
Qed.

Lemma safe_cleanup_staged_all es l : entries m = Ok es -> (forall e, e ∈ l -> e ∈ es) ->
  safe P m mp mid V (cleanup_staged m l).
Proof using meta_P.
  intros Hes. induction l as [|e l IH]; intros Hl; [apply safe_ret|]. cbn [cleanup_staged].
  assert (e ∈ es) as He by (apply Hl; by constructor). safe_steps.
  - eapply safe_cleanup_staged; [exact meta_P|done..|]. by eapply lift_Ok_run.
  - apply IH. intros e' He'. apply Hl. by constructor.
Qed.

Lemma safe_rollback_dump : v_temporary V <> None -> safe P m mp mid V (rollback_dump m mp mid).
Proof using meta_P.
  intros HT. unfold rollback_dump, final_directory_blocks. safe_steps; try (apply safe_keeps; solve [auto with files]).
  all: first [ eapply safe_cleanup_staged_all; [by eapply lift_Ok_run|done]
             | apply safe_remove_staging; [exact meta_P|]; by eapply lift_Ok_run | by apply safe_remove_dump_manifest ].
Qed.
End safe_dumps.

(** ** The phases of a recovery *)

Section recovery.
Context {json_text : JsonText} {json_z : JsonCodec Z} {json_kind : JsonCodec TransactionKind}
  {json_phase : JsonCodec ManifestPhase} {json_identity : JsonCodec FileIdentity}
  {json_state : JsonCodec ManifestDirectoryState}.
Context (geteuid : Z).

Lemma keeps_read P b mp : keeps (removes_only P) (read_with_identity_directories b mp).
Proof using Type.
  unfold read_with_identity_directories, read_file_bounded, read_manifest_identity. recovery_steps.
  all: try (apply keeps_mloop; [tc_solve|]; intros l; unfold read_turn; recovery_steps).
Qed.

Lemma keeps_finals_match P m index l : keeps (removes_only P) (finals_match m index l).
Proof using Type. revert index. induction l as [|e l IH]; intros index; cbn [finals_match]; recovery_steps; apply IH. Qed.
Lemma keeps_complete P m : keeps (removes_only P) (complete_final_set m).
Proof using Type. unfold complete_final_set. recovery_steps; apply keeps_finals_match. Qed.
Lemma keeps_validate_entries P m kind tr out sr l paths :
  keeps (removes_only P) (validate_entries m kind tr out sr l paths).
Proof using Type.
  revert paths. induction l as [|e l IH]; intros paths; cbn [validate_entries]; recovery_steps; try apply IH.
  unfold validate_entry. recovery_steps.
Qed.
Lemma keeps_validate P m kind tr out mp : keeps (removes_only P) (validate_manifest geteuid m kind tr out mp).
Proof using Type. unfold validate_manifest. recovery_steps; apply keeps_validate_entries. Qed.
#[local] Hint Resolve keeps_read keeps_complete keeps_validate : files.

(** A run that came to a decision: the manifest was read and validated, and
    [complete] says whether the final files are complete. *)
Record decided (kind : TransactionKind) (b : Buffers) (tr out mp : string) (fs fs' : FileSystem)
    (m : TransactionManifest) (mid : FileIdentity) (V : View) (O : Key) (es : list ManifestEntrySlot)
    (complete : bool) : Prop := mkDecided {
  dc_reads : reads_only fs fs';
  dc_wf : wf_tree (tree fs');
  dc_read : exists fs0, read_with_identity_directories b mp fs = (fs0, Ok (m, mid))
              /\ exists fs1, validate_manifest geteuid m kind tr out mp fs0 = (fs1, Ok tt);
  dc_staging : canonical tr (v_staging V).1;
  dc_output : canonical out O;
  dc_valid : validated (tree fs') m kind mp mid V O es;
  dc_complete : exists fs1, reads_only fs fs1 /\ complete_final_set m fs1 = (fs', Ok complete);
}.

Lemma validated_step P fs fs' m kind mp mid V O es :
  removes_only P fs fs' -> validated (tree fs) m kind mp mid V O es -> validated (tree fs') m kind mp mid V O es.
Proof using Type. intros Hr []. constructor; try done. by eapply views_step. Qed.

Lemma run_reads {A} (c : R A) fs fs' o :
  c fs = (fs', o) -> keeps (removes_only (fun _ _ => False)) c -> reads_only fs fs'.
Proof using Type. intros H Hk. specialize (Hk fs). by rewrite H in Hk. Qed.

(** From the manifest that was read to the decision. *)
Lemma decision_phases (kind : TransactionKind) (b : Buffers) (tr out mp : string) (m : TransactionManifest)
    (mid : FileIdentity) (k : bool -> R RecoveryOutcome) fs fs0 fs' o :
  (let! _ := validate_manifest geteuid m kind tr out mp in
   let! complete := complete_final_set m in k complete) fs0 = (fs', o) ->
  read_with_identity_directories b mp fs = (fs0, Ok (m, mid)) -> wf_tree (tree fs) ->
  (kind = AtomicDirectory -> exists M, canonical mp M) ->
  (reads_only fs fs' /\ forall r, o <> Ok r)
  \/ exists fs2 V O es c, decided kind b tr out mp fs fs2 m mid V O es c /\ k c fs2 = (fs', o).
Proof using Type.
  intros H Hread Hw HM. pose proof (run_reads _ _ _ _ Hread (keeps_read _ _ _)) as R0.
  pose proof (reads_step_wf _ _ R0 Hw) as W0. unfold bind at 1 in H.
  destruct (validate_manifest geteuid m kind tr out mp fs0) as [fs1 [[]|e|]] eqn:Ev.
  2,3: injection H as <- <-; left; split; [|done]; etrans; [exact R0|]; eapply run_reads; [exact Ev|apply keeps_validate].
  destruct (validate_manifest_spec geteuid _ _ _ _ _ mid _ _ Ev W0 HM) as (R1 & V & O & es & Htr & Hout & Hval).
  unfold bind in H. destruct (complete_final_set m fs1) as [fs2 [c|e|]] eqn:Ec;
    pose proof (run_reads _ _ _ _ Ec (keeps_complete _ _)) as R2.
  2,3: injection H as <- <-; left; split; [|done]; by (etrans; [exact R0|]; etrans; [exact R1|]).
  right. exists fs2, V, O, es, c. split; [|done].
  assert (reads_only fs fs1) as R01 by by (etrans; [exact R0|]).
  constructor; try done.
  - by etrans.
  - eapply reads_step_wf; [exact R2|]. by eapply reads_step_wf.
  - exists fs0. split; [done|by exists fs1].
  - by eapply validated_step.
  - by exists fs1.
Qed.

Lemma recall_phases b tr out fs fs' o :
  recover_recall_root_with_directories geteuid b tr out fs = (fs', o) -> wf_tree (tree fs) ->
  let mp := path_join tr RECALL_MANIFEST_NAME in
  (reads_only fs fs' /\ forall r, o <> Ok r)
  \/ exists fs2 m mid V O es c, decided FileSet b tr out mp fs fs2 m mid V O es c
       /\ (if c : bool then finish_recall m out mp mid else rollback_recall m mp mid) fs2 = (fs', o).
Proof using Type.
  intros H Hw mp. unfold recover_recall_root_with_directories in H. fold mp in H. unfold bind at 1 in H.
  destruct (read_with_identity_directories b mp fs) as [fs0 [[m mid]|e|]] eqn:Er.
  2,3: injection H as <- <-; left; split; [|done]; eapply run_reads; [exact Er|apply keeps_read].
  destruct (decision_phases FileSet b tr out mp m mid _ _ _ _ _ H Er Hw ltac:(done)) as [?|(fs2 & V & O & es & c & Hd & Hk)];
    [by left|]. right. by exists fs2, m, mid, V, O, es, c.
Qed.

Lemma dump_phases b out mp fs fs' o :
  recover_dump_parent geteuid b out mp fs = (fs', o) -> wf_tree (tree fs) -> (exists M, canonical mp M) ->
  (reads_only fs fs' /\ forall r, o <> Ok r)
  \/ exists fs2 m mid V O es c tr, decided AtomicDirectory (without_directories b) tr out mp fs fs2 m mid V O es c
       /\ (if c : bool then finish_dump m out mp mid else rollback_dump m mp mid) fs2 = (fs', o).
Proof using Type.
  intros H Hw HM. unfold recover_dump_parent in H. unfold bind at 1 in H.
  destruct (read_with_identity_directories (without_directories b) mp fs) as [fs0 [[m mid]|e|]] eqn:Er.
  2,3: injection H as <- <-; left; split; [|done]; eapply run_reads; [exact Er|apply keeps_read].
  unfold bind at 1, lift at 1 in H. destruct (path m (staging_root_path m)) as [tr|e|] eqn:Et.
  2,3: injection H as <- <-; left; split; [|done]; eapply run_reads; [exact Er|apply keeps_read].
  destruct (decision_phases AtomicDirectory _ tr out mp m mid _ _ _ _ _ H Er Hw ltac:(done))
    as [?|(fs2 & V & O & es & c & Hd & Hk)]; [by left|]. right. by exists fs2, m, mid, V, O, es, c, tr.
Qed.

(** The two recoveries, with the kind of the transaction and the buffers that its
    manifest [mp] is read into. *)
Inductive recovery_of (b : Buffers) (tr out mp : string) : TransactionKind -> Buffers -> R RecoveryOutcome -> Prop :=
  | recovery_of_recall : mp = path_join tr RECALL_MANIFEST_NAME ->
      recovery_of b tr out mp FileSet b (recover_recall_root_with_directories geteuid b tr out)
  | recovery_of_dump : (exists M, canonical mp M) ->
      recovery_of b tr out mp AtomicDirectory (without_directories b) (recover_dump_parent geteuid b out mp).

(** Where a transaction may remove: below the output root, in the transaction
    directory of a recall, beside the manifest of a dump. *)
Definition contained (kind : TransactionKind) (staging out manifest k : Key) : Prop :=
  (exists s, s <> [] /\ k = out ++ s)
  \/ if bool_decide (kind = FileSet) then staging `prefix_of` k
     else exists d x y, manifest = d ++ [x] /\ k = d ++ [y].

Lemma owned_contained tr out nodes m kind mp mid V O es k n :
  kind = FileSet \/ kind = AtomicDirectory -> approved geteuid m kind tr out -> canonical tr (v_staging V).1 -> canonical out O ->
  validated nodes m kind mp mid V O es -> owned V k n -> contained kind (v_staging V).1 O (v_manifest V).1 k.
Proof using Type.
  intros Hk Ha HS HO Hv. pose proof (vd_views _ _ _ _ _ _ _ _ Hv) as Hvw.
  assert (kind = AtomicDirectory -> exists x, (v_staging V).1 = O ++ [x]) as Hchild by (intros ->; by eapply ap_child).
  assert (forall s, contained kind (v_staging V).1 O (v_manifest V).1 ((v_staging V).1 ++ s)) as Hst.
  { intros s. destruct Hk as [-> | ->]; [right; by apply prefix_app_r|]. left. destruct (Hchild eq_refl) as [x ->].
    exists ([x] ++ s). by rewrite (assoc_L app). }
  assert (forall v, v ∈ v_entries V -> exists e, entry_facts m kind (v_staging V).1 O e v) as Hf.
  { apply Forall_forall. eapply Forall2_Forall_r; [apply (vd_facts _ _ _ _ _ _ _ _ Hv)|]. apply Forall_true. eauto. }
  intros [[[_ [Hm|[Ht|(v & Hin & Hsp)]]]|[_ Hs]]|[[_ (v & Hin & Hown)]|[_ Hd]]].
  - destruct (v_manifest V) as [M i] eqn:E. injection Hm as -> _. destruct Hk as [-> | ->].
    + pose proof (vd_manifest _ _ _ _ _ _ _ _ Hv eq_refl) as HM. rewrite E in HM. cbn in *. rewrite HM. apply Hst.
    + right. pose proof (vd_temporary _ _ _ _ _ _ _ _ Hv) as [t Ht]. pose proof (vw_temporary _ _ _ _ _ Hvw) as Hvt. rewrite Ht in Hvt.
      destruct Hvt as (_ & _ & _ & _ & _ & _ & _ & _ & _ & K & y & z & HM & _).
      assert (M = K ++ [y]) as ->; [|by exists K, y, y]. eapply canonical_inj; [|exact HM].
      pose proof (proj1 (vw_manifest _ _ _ _ _ Hvw)) as [HM' _ _]. by rewrite E in HM'.
  - pose proof (vd_temporary _ _ _ _ _ _ _ _ Hv) as Hvt. destruct Hk as [-> | ->]; [by rewrite Ht in Hvt|]. right.
    pose proof (vw_temporary _ _ _ _ _ Hvw) as Hk'. rewrite Ht in Hk'.
    destruct Hk' as (_ & _ & _ & _ & _ & _ & _ & _ & _ & K & y & z & HM & ->). exists K, y, z. split; [|done].
    eapply canonical_inj; [apply (vw_manifest _ _ _ _ _ Hvw)|exact HM].
  - destruct (Hf v Hin) as [e []], Hsp as [Hsp|Hsp].
    + destruct ef_under_staging as (s & _ & Hs). rewrite Hsp in Hs. cbn in Hs. rewrite Hs. apply Hst.
    + left. destruct (ef_beside _ Hsp) as (s & ? & Hs). by exists s.
  - destruct (v_staging V) as [S i]. injection Hs as -> _. cbn. specialize (Hst []). by rewrite app_nil_r in Hst.
  - left. destruct (Hf v Hin) as [e []]. destruct ef_under_output as (s & ? & Hs). exists s. split; [done|]. rewrite <-Hs.
    destruct Hown as [Ho|[Ho _]]; [by rewrite Ho|done].
  - left. pose proof (vd_directories _ _ _ _ _ _ _ _ Hv) as HD. rewrite Forall_forall in HD. destruct (HD _ Hd) as [_ (s & ? & Hs)]. by exists s.
Qed.

(** Recovery removes only what the validated manifest names. *)
Lemma removal_core b tr out mp kind b' c fs fs' o :
  wf_tree (tree fs) -> recovery_of b tr out mp kind b' c -> c fs = (fs', o) ->
  (reads_only fs fs' /\ forall r, o <> Ok r)
  \/ exists m mid fs0 fs1 tr' V O, read_with_identity_directories b' mp fs = (fs0, Ok (m, mid))
       /\ validate_manifest geteuid m kind tr' out mp fs0 = (fs1, Ok tt) /\ (kind = FileSet -> tr' = tr)
       /\ approved geteuid m kind tr' out /\ canonical tr' (v_staging V).1 /\ canonical out O /\ views (tree fs) m mp mid V
       /\ removes_only (fun k n => owned V k n /\ contained kind (v_staging V).1 O (v_manifest V).1 k) fs fs'.
Proof using Type.
  intros Hw [->|HM] H.
  - destruct (recall_phases _ _ _ _ _ _ H Hw) as [?|(fs2 & m & mid & V & O & es & c' & [Hr _ (fs0 & Hrd & fs1 & Hval) HS HO Hv _] & Hk)];
      [by left|]. right. exists m, mid, fs0, fs1, tr, V, O. pose proof (validate_manifest_approved _ _ _ _ _ _ _ _ Hval) as Ha.
    pose proof (vd_views _ _ _ _ _ _ _ _ Hv) as Hvw. split_and!; try done; [by rewrite <-(reads_only_tree _ _ Hr)|].
    set (P := fun k n => _ /\ _). etrans; [by eapply (removes_only_weaken _ P); [|exact Hr]|].
    assert (forall k n, meta_owned V k n -> P k n) as HP by (intros k n Hn; split; [by left|]; eapply owned_contained; eauto; by left).
    assert (fs' = ((if c' : bool then finish_recall m out (path_join tr RECALL_MANIFEST_NAME) mid
                    else rollback_recall m (path_join tr RECALL_MANIFEST_NAME) mid) fs2).1) as -> by by rewrite Hk.
    destruct c'; [by apply (safe_finish_recall P m _ mid V)|]. eapply removes_only_weaken; [|by apply (safe_rollback_recall (owned V) m _ mid V); [apply meta_owned_owned|..]].
    intros k n Hn. split; [done|]. eapply owned_contained; eauto.
  - destruct (dump_phases _ _ _ _ _ _ H Hw HM) as [?|(fs2 & m & mid & V & O & es & c' & tr' & [Hr _ (fs0 & Hrd & fs1 & Hval) HS HO Hv _] & Hk)];
      [by left|]. right. exists m, mid, fs0, fs1, tr', V, O. pose proof (validate_manifest_approved _ _ _ _ _ _ _ _ Hval) as Ha.
    pose proof (vd_views _ _ _ _ _ _ _ _ Hv) as Hvw. split_and!; try done; [by rewrite <-(reads_only_tree _ _ Hr)|].
    set (P := fun k n => _ /\ _). etrans; [by eapply (removes_only_weaken _ P); [|exact Hr]|].
    destruct (vd_temporary _ _ _ _ _ _ _ _ Hv) as [k Ht].
    assert (fs' = ((if c' : bool then finish_dump m out mp mid else rollback_dump m mp mid) fs2).1) as -> by by rewrite Hk.
    eapply (removes_only_weaken (owned V)); [intros k' n Hn; split; [done|]; eapply owned_contained; eauto|].
    destruct c'; [apply (safe_finish_dump (owned V) m _ mid V)|apply (safe_rollback_dump (owned V) m _ mid V)];
      auto using meta_owned_owned; by rewrite Ht.
Qed.

Lemma recovery_removes_only_owned_core b tr out mp fs fs' o :
  wf_tree (tree fs) ->
  recover_recall_root_with_directories geteuid b tr out fs = (fs', o) /\ mp = path_join tr RECALL_MANIFEST_NAME
  \/ recover_dump_parent geteuid b out mp fs = (fs', o) /\ (exists M, canonical mp M) ->
  (reads_only fs fs' /\ forall r, o <> Ok r)
  \/ exists m mid V b' fs0, read_with_identity_directories b' mp fs = (fs0, Ok (m, mid))
       /\ views (tree fs) m mp mid V /\ removes_only (owned V) fs fs'.
Proof using Type.
  intros Hw H. assert (exists kind b' c, recovery_of b tr out mp kind b' c /\ c fs = (fs', o)) as (kind & b' & c & Hc & Hrun).
  { destruct H as [[H ->]|[H HM]]; eexists _, _, _; (split; [|exact H]); by constructor. }
  destruct (removal_core _ _ _ _ _ _ _ _ _ _ Hw Hc Hrun) as [?|(m & mid & fs0 & fs1 & tr' & V & O & Hr & _ & _ & _ & _ & _ & Hv & Hrm)]; [by left|].
  right. exists m, mid, V, b', fs0. split; [done|]. split; [done|]. by eapply removes_only_weaken; [|exact Hrm]; intros ?? [].
Qed.

(** C2. Recovery of a transaction, whatever calls fail and whatever the manifest
    says, creates and changes nothing, and removes something only under a
    manifest that it read and that passes [validate_manifest]: of the calling
    user, of the kind recovered and with the roots approved. What it removes is
    a node at a path the manifest names, with the device and inode recorded for
    that path (the manifest itself included; a dump's temporary manifest goes by
    its name), and lies below the output root, or in a recall's transaction
    directory, or beside a dump's manifest. *)
Theorem recovery_removes_only_owned b tr out mp kind b' c fs fs' o :
  wf_tree (tree fs) -> recovery_of b tr out mp kind b' c -> c fs = (fs', o) ->
  (reads_only fs fs' /\ forall r, o <> Ok r)
  \/ exists m mid fs0 fs1 tr' V O, read_with_identity_directories b' mp fs = (fs0, Ok (m, mid))
       /\ validate_manifest geteuid m kind tr' out mp fs0 = (fs1, Ok tt) /\ (kind = FileSet -> tr' = tr)
       /\ approved geteuid m kind tr' out /\ canonical tr' (v_staging V).1 /\ canonical out O /\ views (tree fs) m mp mid V
       /\ removes_only (fun k n => owned V k n /\ contained kind (v_staging V).1 O (v_manifest V).1 k) fs fs'.
Proof using Type. apply removal_core. Qed.

(** ** The decision *)

(** The final identity of an entry, from the tree. *)
Definition inferred (nodes : gmap Key Node) (m : TransactionManifest) (index : Z) (e : ManifestEntrySlot)
    (v : EntryView) : option FileIdentity :=
  if has_final e then final_identity e
  else if publishes m index then
    match partial_identity e, v_partial v with
    | Some i, Some (k, _) => match nodes !! k with None => Some i | Some _ => None end
    | _, _ => None
    end
  else None.

(** The final file of an entry is in place. *)
Definition final_present (nodes : gmap Key Node) (m : TransactionManifest) (index : Z) (e : ManifestEntrySlot)
    (v : EntryView) : Prop :=
  exists i n, inferred nodes m index e v = Some i /\ nodes !! (v_final v).1 = Some n
              /\ is_file n = true /\ identity_from_metadata n = i.

Fixpoint finals_present (nodes : gmap Key Node) (m : TransactionManifest) (index : Z)
    (es : list ManifestEntrySlot) (vs : list EntryView) : Prop :=
  match es, vs with
  | e :: es', v :: vs' => final_present nodes m index e v /\ finals_present nodes m (index + 1) es' vs'
  | _, _ => True
  end.

Lemma path_exists_Ok p k fs fs' b : at_names (tree fs) p k -> path_exists p fs = (fs', Ok b) ->
  b = bool_decide (is_Some (tree fs !! k)).
Proof using Type.
  intros Ha H. rewrite path_exists_run in H.
  destruct (meta_cases fs p k Ha) as [(n & E & _ & Hn)|[[E Hn]|(e & E & He)]]; rewrite E in H.
  - injection H as _ <-. by rewrite Hn.
  - injection H as _ <-. rewrite Hn. symmetry. by apply bool_decide_eq_false_2, is_Some_None.
  - by destruct e.
Qed.

Lemma identity_matches_Ok p k i d fs fs' b : at_names (tree fs) p k ->
  identity_matches p i d fs = (fs', Ok b) ->
  b = true <-> exists n, tree fs !! k = Some n /\ (if d then is_dir n else is_file n) = true
                         /\ identity_from_metadata n = i.
Proof using Type.
  intros Ha H. rewrite identity_matches_run in H.
  destruct (meta_cases fs p k Ha) as [(n & E & _ & Hn)|[[E Hn]|(e & E & He)]]; rewrite E in H.
  - injection H as _ <-. rewrite Hn. split.
    + intros Hb. apply andb_prop in Hb as [Hb Hi]. apply andb_prop in Hb as [_ Hk].
      exists n. split; [done|]. split; [done|]. by apply bool_decide_eq_true in Hi.
    + intros (n' & [= <-] & Hk & Hi). rewrite Hk, (bool_decide_eq_true_2 _ Hi), !andb_true_r. unfold is_symlink.
      destruct d; unfold is_dir, is_file in Hk; by destruct (node_kind n).
  - injection H as _ <-. rewrite Hn. split; [done|]. by intros (n & ? & _).
  - by destruct e.
Qed.

Lemma inferred_run m index es e v fs fs' o :
  inferred_final_identity m index fs = (fs', Ok o) -> entries m = Ok es -> zlookup es index = Some e ->
  views_entry (tree fs) m e v -> o = inferred (tree fs) m index e v.
Proof using Type.
  unfold inferred_final_identity, inferred. intros H Hes He Hv. rewrite Hes in H. rewrite bind_lift_Ok, He in H.
  cbn [unwrap] in H. rewrite bind_lift_Ok in H. destruct (has_final e); [by injection H as _ <-|].
  destruct (publishes m index); cbn [negb] in H; [|by injection H as _ <-].
  destruct (partial_identity e) as [i|] eqn:Ei; [|by injection H as _ <-].
  apply bind_lift_inv in H as (po & Hpo & H). apply bind_lift_inv in H as ([q j] & Hq & H).
  destruct po as [[q' j']|]; [|done]. injection Hq as -> ->.
  apply bind_inv in H as (fs1 & b & Hb & H). injection H as _ <-.
  pose proof (ve_partial _ _ _ _ Hv) as Hp. destruct (v_partial v) as [[k j'']|]; [|congruence].
  destruct Hp as (p & Hp & Ha). rewrite Hpo in Hp. injection Hp as <- _.
  rewrite (path_exists_Ok _ _ _ _ _ Ha Hb). destruct (tree fs !! k) as [n|]; [by rewrite bool_decide_eq_true_2|].
  by rewrite bool_decide_eq_false_2 by by apply is_Some_None.
Qed.

Lemma zlookup_drop {A} (l rest : list A) index x : rest = drop (Z.to_nat index) l -> 0 <= index ->
  zlookup l index = Some x <-> head rest = Some x.
Proof using Type.
  intros -> Hi. unfold zlookup. decide_cmp. rewrite <-(Nat.add_0_r (Z.to_nat index)) at 1.
  rewrite <-lookup_drop. by destruct (drop _ l).
Qed.

Lemma drop_next {A} (l rest : list A) index x : x :: rest = drop (Z.to_nat index) l -> 0 <= index ->
  rest = drop (Z.to_nat (index + 1)) l.
Proof using Type.
  intros H Hi. rewrite Z2Nat.inj_add, Nat.add_comm by lia. rewrite <-skipn_skipn, <-H. done.
Qed.

Lemma finals_match_Ok m es index l vs fs fs' c :
  finals_match m index l fs = (fs', Ok c) -> entries m = Ok es -> l = drop (Z.to_nat index) es -> 0 <= index ->
  Forall2 (views_entry (tree fs) m) l vs ->
  c = true <-> finals_present (tree fs) m index l vs.
Proof using Type.
  intros H Hes. revert index vs fs H. induction l as [|e l IH]; intros index vs fs H Hl Hi Hvs.
  { injection H as _ <-. by inversion Hvs. }
  apply Forall2_cons_inv_l in Hvs as (v & vs' & Hv & Hvs & ->). cbn [finals_match] in H.
  apply bind_inv in H as (fs1 & o & Hinf & H).
  pose proof (reads_only_tree _ _ (run_reads _ _ _ _ Hinf (inferred_keeps _ _ _))) as T1.
  assert (zlookup es index = Some e) as Hz by by apply (zlookup_drop es (e :: l)).
  pose proof (inferred_run _ _ _ _ _ _ _ _ Hinf Hes Hz Hv) as ->. cbn [finals_present]. unfold final_present.
  destruct (inferred (tree fs) m index e v) as [i|]; [|injection H as _ <-; split; [done|]; by intros [(? & ? & [=] & _) _]].
  apply bind_lift_inv in H as ([pf j] & Hpf & H). destruct (ve_final _ _ _ _ Hv) as (pf' & Hpf' & Ha).
  rewrite Hpf in Hpf'. injection Hpf' as <- _. apply bind_inv in H as (fs2 & same & Hs & H).
  rewrite <-T1 in Ha. pose proof (identity_matches_Ok _ _ _ _ _ _ _ Ha Hs) as Hsame. rewrite T1 in Hsame.
  pose proof (reads_only_tree _ _ (run_reads _ _ _ _ Hs (keeps_identity_matches _ _ _ _))) as T2.
  destruct same.
  - rewrite <-T1, <-T2 in Hvs |- *. rewrite (IH _ _ _ H (drop_next _ _ _ _ Hl Hi) ltac:(lia) Hvs). rewrite T2, T1.
    destruct (proj1 Hsame eq_refl) as (n & H1 & H2 & H3). split; [|tauto]. intros Hf. split; [|done]. by exists i, n.
  - injection H as _ <-. split; [done|]. intros [(i' & n & [= <-] & H1 & H2 & H3) _]. apply Hsame. by exists n.
Qed.

Lemma complete_recall m es V mp mid fs fs' c :
  complete_final_set m fs = (fs', Ok c) -> is_file_set (kind m) = true -> entries m = Ok es ->
  views (tree fs) m mp mid V -> c = true <-> finals_present (tree fs) m 0 es (v_entries V).
Proof using Type.
  unfold complete_final_set. intros H Hk Hes Hv. rewrite Hk in H. cbn [negb] in H. rewrite bind_ret in H. cbn [negb] in H.
  rewrite Hes, bind_lift_Ok in H. destruct (vw_entries _ _ _ _ _ Hv) as (es' & Hes' & HF).
  assert (es' = es) as -> by congruence. by eapply finals_match_Ok.
Qed.

(** ** Distinct names *)

Lemma NoDup_concat_lookup {A} (ls : list (list A)) i j a b x :
  NoDup (concat ls) -> ls !! i = Some a -> ls !! j = Some b -> x ∈ a -> x ∈ b -> i = j.
Proof using Type.
  revert i j. induction ls as [|l ls IH]; intros i j Hnd Hi Hj Ha Hb; [done|].
  cbn in Hnd. apply NoDup_app in Hnd as (H1 & H2 & H3).
  assert (forall k c, ls !! k = Some c -> x ∈ c -> x ∈ concat ls) as Hin.
  { intros k c Hk Hc. apply list_elem_of_In, in_concat. exists c. split; [|by apply list_elem_of_In].
    apply list_elem_of_In. by eapply list_elem_of_lookup_2. }
  destruct i as [|i], j as [|j]; cbn in *; [done| | |f_equal; by eapply IH].
  - injection Hi as ->. exfalso. eapply H2; [exact Ha|by eapply Hin].
  - injection Hj as ->. exfalso. eapply H2; [exact Hb|by eapply Hin].
Qed.

Lemma NoDup_concat_elem {A} (ls : list (list A)) a : NoDup (concat ls) -> a ∈ ls -> NoDup a.
Proof using Type.
  intros Hnd Ha. induction Ha as [ls|a l ls Ha IH]; cbn in Hnd; apply NoDup_app in Hnd as (H1 & H2 & H3); auto.
Qed.

(** A name that is not the final one of any entry. *)
Definition other_key (V : View) (k : Key) : Prop :=
  k = (v_manifest V).1 \/ k = (v_staging V).1
  \/ exists v, v ∈ v_entries V /\ (k = (v_staged v).1 \/ exists i, v_partial v = Some (k, i)).

Lemma final_key_other V v k : NoDup (view_keys V) -> v ∈ v_entries V -> other_key V k -> k <> (v_final v).1.
Proof using Type.
  unfold view_keys. intros Hnd Hv Ho ->. apply NoDup_app in Hnd as (H1 & H2 & _).
  assert ((v_final v).1 ∈ entry_keys v) as Hf by by left.
  destruct Ho as [E|[E|(v' & Hv' & Hk)]].
  1,2: apply (H2 (v_final v).1);
    [apply list_elem_of_In, in_concat; exists (entry_keys v); split; [|by apply list_elem_of_In];
     apply in_map, list_elem_of_In, Hv|rewrite E; apply elem_of_app; right; by (left + (right; left))].
  assert ((v_final v).1 ∈ entry_keys v') as Hf'.
  { unfold entry_keys. destruct Hk as [->|[i ->]]; [by right; left|]. by right; right; left. }
  apply list_elem_of_lookup_1 in Hv as [a Ha], Hv' as [b Hb].
  assert (map entry_keys (v_entries V) !! a = Some (entry_keys v)) as Ha' by by rewrite list_lookup_fmap, Ha.
  assert (map entry_keys (v_entries V) !! b = Some (entry_keys v')) as Hb' by by rewrite list_lookup_fmap, Hb.
  pose proof (NoDup_concat_lookup _ _ _ _ _ _ H1 Ha' Hb' Hf Hf') as ->. assert (v' = v) as -> by congruence.
  assert (NoDup (entry_keys v)) as Hn by (eapply NoDup_concat_elem; [exact H1|by eapply list_elem_of_lookup_2]).
  unfold entry_keys in Hn. apply NoDup_cons in Hn as [Hn _]. apply Hn.
  destruct Hk as [->|[i Hi]]; [by left|rewrite Hi; by right; left].
Qed.

Lemma meta_owned_other V k n : v_temporary V = None -> meta_owned V k n -> other_key V k.
Proof using Type.
  intros Ht [[_ [E|[E|(v & Hv & E)]]]|[_ E]].
  - left. by rewrite <-E.
  - congruence.
  - right; right. exists v. split; [done|]. destruct E as [->|E]; [by left|right; by eexists].
  - right; left. by rewrite <-E.
Qed.

(** Removals elsewhere keep the final files and the decision. *)
Lemma finals_kept P fs fs' (vs : list EntryView) : removes_only P fs fs' ->
  (forall v k n, v ∈ vs -> P k n -> k <> (v_final v).1) ->
  forall v, v ∈ vs -> tree fs' !! (v_final v).1 = tree fs !! (v_final v).1.
Proof using Type.
  intros Hr HP v Hv. destruct (ro_tree _ _ _ Hr (v_final v).1) as [?|(n & _ & _ & Hn)]; [done|].
  by destruct (HP _ _ _ Hv Hn).
Qed.

Lemma finals_present_kept nodes nodes' m index es vs :
  nodes' ⊆ nodes -> (forall v, v ∈ vs -> nodes' !! (v_final v).1 = nodes !! (v_final v).1) ->
  finals_present nodes m index es vs -> finals_present nodes' m index es vs.
Proof using Type.
  intros Hs. revert index vs. induction es as [|e es IH]; intros index [|v vs] Hk; try done.
  intros [(i & n & Hi & Hn & Hf & Hid) Hr]. split; [|apply IH; [|done]; intros v' Hv'; apply Hk; by right].
  exists i, n. rewrite Hk by (by left). split; [|done]. revert Hi. unfold inferred. destruct (has_final e); [done|].
  destruct (publishes m index); [|done]. destruct (partial_identity e); [|done].
  destruct (v_partial v) as [[k ?]|]; [|done]. destruct (nodes !! k) eqn:E; [done|].
  by rewrite (lookup_weaken_None _ _ _ E Hs).
Qed.

(** ** Rollback *)

(** Nothing is left at [x.1] that the transaction may own: no node with the
    recorded identity, or no node at all where none was recorded. *)
Definition gone (nodes : gmap Key Node) (x : Key * option FileIdentity) : Prop :=
  match x.2 with
  | Some i => forall n, nodes !! x.1 = Some n -> identity_from_metadata n <> i
  | None => nodes !! x.1 = None
  end.

Lemma gone_subset nodes nodes' x : nodes' ⊆ nodes -> gone nodes x -> gone nodes' x.
Proof using Type.
  unfold gone. intros Hs. destruct x.2.
  - intros Hg n Hn. apply Hg. by eapply lookup_weaken.
  - intros Hg. by eapply lookup_weaken_None.
Qed.

Lemma cleanup_gone p k o fs fs' : at_names (tree fs) p k -> cleanup_file p o fs = (fs', Ok true) ->
  gone (tree fs') (k, o).
Proof using Type.
  intros Ha H. destruct o as [i|].
  - apply (cleanup_file_spec _ _ _ _ _ _ Ha) in H as [_ H]. intros n Hn. by apply H.
  - apply (absent_spec _ _ _ Ha) in H as [_ H]. by apply H.
Qed.

Lemma directory_gone p k o fs fs' : at_names (tree fs) p k ->
  remove_directory_if_identity p o fs = (fs', Ok true) -> gone (tree fs') (k, o).
Proof using Type.
  intros Ha H. destruct o as [i|].
  - apply (remove_directory_spec _ _ _ _ _ _ Ha) in H as [_ H]. intros n Hn. by apply H.
  - apply (absent_spec _ _ _ Ha) in H as [_ H]. by apply H.
Qed.

(** The identity under which the final file of an entry may exist: the recorded
    one, or that of the partial file while the entry is being published. *)
Definition settled (m : TransactionManifest) (index : Z) (e : ManifestEntrySlot) : option FileIdentity :=
  if has_final e then final_identity e else if publishes m index then partial_identity e else None.

Definition entry_gone (nodes : gmap Key Node) (m : TransactionManifest) (index : Z) (e : ManifestEntrySlot)
    (v : EntryView) : Prop :=
  gone nodes (v_staged v) /\ match v_partial v with Some x => gone nodes x | None => True end
  /\ gone nodes ((v_final v).1, settled m index e).

Lemma entry_gone_subset nodes nodes' m index e v :
  nodes' ⊆ nodes -> entry_gone nodes m index e v -> entry_gone nodes' m index e v.
Proof using Type.
  intros Hs (H1 & H2 & H3). split; [by eapply gone_subset|]. split; [|by eapply gone_subset].
  destruct (v_partial v); [by eapply gone_subset|done].
Qed.

Lemma inferred_gone nodes nodes' m index e v k :
  gone nodes' (k, inferred nodes m index e v) -> gone nodes' (k, settled m index e).
Proof using Type.
  unfold gone, inferred, settled. cbn. destruct (has_final e); [done|]. destruct (publishes m index); [|done].
  destruct (partial_identity e) as [i|]; [|done].
  destruct (v_partial v) as [[q ?]|]; [destruct (nodes !! q); [|done]|]; intros ->; done.
Qed.

Lemma run_safe {A} P m mp mid V (c : R A) fs fs' o :
  c fs = (fs', o) -> safe P m mp mid V c -> views (tree fs) m mp mid V -> removes_only P fs fs'.
Proof using Type. intros H Hs Hv. specialize (Hs fs Hv). by rewrite H in Hs. Qed.

(** Every operation only removes. *)
Lemma keeps_cleanup_shrinks p o : keeps shrinks (cleanup_file p o).
Proof using Type. unfold cleanup_file, removed. recovery_steps. Qed.
Lemma keeps_remove_directory_shrinks p o : keeps shrinks (remove_directory_if_identity p o).
Proof using Type. unfold remove_directory_if_identity, removed. recovery_steps. Qed.
Lemma keeps_remove_if_identity_shrinks p i : keeps shrinks (remove_if_identity p i).
Proof using Type. unfold remove_if_identity. recovery_steps. Qed.
#[local] Hint Resolve keeps_cleanup_shrinks keeps_remove_directory_shrinks keeps_remove_if_identity_shrinks : files.

(** A rollback that reports nothing pending has removed the files of the entry. *)
Lemma rollback_entry_gone m index es e v fs fs' :
  rollback_entry m index e fs = (fs', Ok true) -> entries m = Ok es -> zlookup es index = Some e ->
  views_entry (tree fs) m e v -> wf_tree (tree fs) ->
  shrinks fs fs' /\ entry_gone (tree fs') m index e v.
Proof using Type.
  unfold rollback_entry. intros H Hes He Hv Hw. apply bind_lift_inv in H as ([pf jf] & Hpf & H).
  destruct (ve_final _ _ _ _ Hv) as (pf' & Hpf' & Af). rewrite Hpf in Hpf'. injection Hpf' as <- Hjf.
  apply bind_inv in H as (fs1 & o & Ho & H). pose proof (run_keeps (fun _ _ => True) _ _ _ _ Ho (inferred_keeps _ _ _)) as R1.
  pose proof (inferred_run _ _ _ _ _ _ _ _ Ho Hes He Hv) as ->.
  apply bind_inv in H as (fs2 & b1 & H1 & H). pose proof (run_keeps _ _ _ _ _ H1 (keeps_cleanup_shrinks _ _)) as R2.
  apply bind_lift_inv in H as (po & Hpo & H). apply bind_inv in H as (fs3 & b2 & H2 & H).
  assert (removes_only (fun _ _ => True) fs2 fs3) as R3.
  { destruct po as [[]|]; [by eapply run_keeps, keeps_cleanup_shrinks|injection H2 as <- _; reflexivity]. }
  apply bind_lift_inv in H as ([ps js] & Hps & H). destruct (ve_staged _ _ _ _ Hv) as (ps' & Hps' & As).
  rewrite Hps in Hps'. injection Hps' as <- Hjs. apply bind_inv in H as (fs4 & b3 & H3 & H).
  pose proof (run_keeps _ _ _ _ _ H3 (keeps_cleanup_shrinks _ _)) as R4.
  injection H as <- Hb. apply andb_prop in Hb as [Hb ->]. apply andb_prop in Hb as [-> ->].
  assert (shrinks fs fs2) as R02 by (etrans; [exact R1|exact R2]).
  assert (shrinks fs fs3) as R03 by (etrans; [exact R02|exact R3]).
  assert (shrinks fs2 fs4) as R24 by (etrans; [exact R3|exact R4]).
  split; [etrans; [exact R03|exact R4]|]. split; [|split].
  - apply (cleanup_gone _ (v_staged v).1 _ _ _ (at_names_step _ _ _ _ _ R03 As)) in H3. rewrite Hjs in H3.
    by destruct (v_staged v).
  - pose proof (ve_partial _ _ _ _ Hv) as Hp. destruct (v_partial v) as [[k i]|]; [|done].
    destruct Hp as (p & Hp & Ap). rewrite Hpo in Hp. injection Hp as ->.
    apply (gone_subset (tree fs3)); [by eapply removes_only_subset|].
    by apply (cleanup_gone _ k _ _ _ (at_names_step _ _ _ _ _ R02 Ap)) in H2.
  - apply (gone_subset (tree fs2)); [by eapply removes_only_subset|]. eapply inferred_gone.
    by apply (cleanup_gone _ (v_final v).1 _ _ _ (at_names_step _ _ _ _ _ R1 Af)) in H1.
Qed.

Fixpoint entries_gone (nodes : gmap Key Node) (m : TransactionManifest) (index : Z) (es : list ManifestEntrySlot)
    (vs : list EntryView) : Prop :=
  match es, vs with
  | e :: es', v :: vs' => entry_gone nodes m index e v /\ entries_gone nodes m (index + 1) es' vs'
  | _, _ => True
  end.

Lemma entries_gone_subset nodes nodes' m index es vs :
  nodes' ⊆ nodes -> entries_gone nodes m index es vs -> entries_gone nodes' m index es vs.
Proof using Type.
  intros Hs. revert index vs. induction es as [|e es IH]; intros index [|v vs]; try done.
  intros [H1 H2]. split; [by eapply entry_gone_subset|by apply IH].
Qed.

Lemma rollback_entry_shrinks m index e : keeps shrinks (rollback_entry m index e).
Proof using Type. unfold rollback_entry. recovery_steps. Qed.
#[local] Hint Resolve rollback_entry_shrinks : files.

Lemma rollback_entries_shrinks m index l pending : keeps shrinks (rollback_entries m index l pending).
Proof using Type.
  revert index pending. induction l as [|e l IH]; intros index pending; cbn [rollback_entries]; recovery_steps.
Qed.

Lemma rollback_entries_gone m es index l vs pending fs fs' :
  rollback_entries m index l pending fs = (fs', Ok false) -> entries m = Ok es ->
  l = drop (Z.to_nat index) es -> 0 <= index -> Forall2 (views_entry (tree fs) m) l vs -> wf_tree (tree fs) ->
  entries_gone (tree fs') m index l vs.
Proof using Type.
  intros H Hes. revert index vs pending fs H. induction l as [|e l IH]; intros index vs pending fs H Hl Hi Hvs Hw.
  { by inversion Hvs. }
  apply Forall2_cons_inv_l in Hvs as (v & vs' & Hv & Hvs & ->). cbn [rollback_entries] in H.
  apply bind_inv in H as (fs1 & b & H1 & H). assert (b = true) as ->.
  { destruct b; [done|]. exfalso. rewrite orb_true_r in H. clear - H. revert H. generalize (index + 1).
    revert fs1. induction l as [|e' l IH]; intros fs1 i H; [done|]. cbn [rollback_entries] in H.
    apply bind_inv in H as (fs2 & b & _ & H). by eapply IH. }
  assert (zlookup es index = Some e) as Hz by by apply (zlookup_drop es (e :: l)).
  destruct (rollback_entry_gone _ _ _ _ _ _ _ H1 Hes Hz Hv Hw) as [R1 G1].
  pose proof (run_keeps _ _ _ _ _ H (rollback_entries_shrinks _ _ _ _)) as R2. split.
  - eapply entry_gone_subset; [|exact G1]. by eapply removes_only_subset.
  - eapply IH; [exact H|by eapply drop_next|lia| |by apply R1].
    eapply Forall2_impl; [exact Hvs|]. intros. by eapply views_entry_step.
Qed.

Lemma remove_created_shrinks m l : keeps shrinks (remove_created m l).
Proof using Type. induction l as [|d l IH]; cbn [remove_created]; recovery_steps. Qed.

(** A complete recall is finished or fails; it is never rolled back. *)
Lemma finish_recall_outcome m out mp mid fs fs' o :
  finish_recall m out mp mid fs = (fs', Ok o) -> o = OutcomeComplete.
Proof using Type.
  unfold finish_recall. intros H. repeat (apply bind_inv in H as (? & ? & _ & H)). by injection H as _ <-.
Qed.

(** C4. A recall that recovery reports as rolled back has left nothing of its
    own: at no staged, partial or final path is there a node with the identity
    that the manifest recorded for it (nor any node where none was recorded),
    and the manifest and the staging directory of the transaction are gone. *)
Theorem recall_rolled_back b tr out fs fs' :
  recover_recall_root_with_directories geteuid b tr out fs = (fs', Ok OutcomeRolledBack) -> wf_tree (tree fs) ->
  exists m mid V es fs0, read_with_identity_directories b (path_join tr RECALL_MANIFEST_NAME) fs = (fs0, Ok (m, mid))
    /\ views (tree fs) m (path_join tr RECALL_MANIFEST_NAME) mid V /\ entries m = Ok es
    /\ ~ finals_present (tree fs) m 0 es (v_entries V)
    /\ entries_gone (tree fs') m 0 es (v_entries V)
    /\ gone (tree fs') ((v_staging V).1, Some (v_staging V).2)
    /\ forall n, tree fs' !! (v_manifest V).1 = Some n -> identity_from_metadata n = mid -> is_file n = false.
Proof using Type.
  intros H Hw. destruct (recall_phases _ _ _ _ _ _ H Hw) as [[_ Hn]|(fs2 & m & mid & V & O & es & c & Hd & Hk)];
    [by destruct (Hn _ eq_refl)|].
  destruct Hd as [Hr Hw2 (fs0 & Hrd & _) _ _ Hv (fs1 & Hr1 & Hc)]. pose proof (vd_views _ _ _ _ _ _ _ _ Hv) as Hvw.
  exists m, mid, V, es, fs0. rewrite <-(reads_only_tree _ _ Hr). split; [done|]. split; [done|].
  pose proof (vd_entries _ _ _ _ _ _ _ _ Hv) as Hes. split; [done|].
  destruct c; [by apply finish_recall_outcome in Hk|]. cbv beta iota in Hk.
  assert (tree fs1 = tree fs2) as T12 by by rewrite (reads_only_tree _ _ Hr1), (reads_only_tree _ _ Hr).
  assert (is_file_set (kind m) = true) as Hkind.
  { pose proof (vd_kind _ _ _ _ _ _ _ _ Hv) as Hkm. unfold kind_matches in Hkm. by destruct (kind m). }
  split.
  { rewrite <-T12 in Hvw |- *. intros Hf. by apply (complete_recall _ _ _ _ _ _ _ _ Hc Hkind Hes Hvw) in Hf. }
  unfold rollback_recall in Hk. rewrite Hes, bind_lift_Ok in Hk.
  apply bind_inv in Hk as (fs3 & pending & H3 & Hk). destruct pending; [done|].
  destruct (vw_entries _ _ _ _ _ Hvw) as (es' & Hes' & HF). assert (es' = es) as -> by congruence.
  pose proof (rollback_entries_gone m es 0 es (v_entries V) false fs2 fs3 H3 Hes eq_refl ltac:(done) HF Hw2) as Hg.
  pose proof (run_keeps _ _ _ _ _ H3 (rollback_entries_shrinks _ _ _ _)) as R3.
  apply bind_lift_inv in Hk as (ds & Hds & Hk). apply bind_inv in Hk as (fs4 & [] & H4 & Hk).
  pose proof (run_keeps _ _ _ _ _ H4 (remove_created_shrinks _ _)) as R4.
  destruct (vw_staging _ _ _ _ _ Hvw) as (sr & Hsr & As & Hsi). rewrite Hsr, bind_lift_Ok in Hk.
  apply bind_inv in Hk as (fs5 & only & H5 & Hk). destruct only; [|done]. cbn [negb] in Hk.
  pose proof (run_keeps (fun _ _ => True) _ _ _ _ H5 (keeps_directory_contains_only _ _ _)) as R5.
  apply bind_inv in Hk as (fs6 & [] & H6 & Hk). destruct (vw_manifest _ _ _ _ _ Hvw) as [Am Hm].
  apply bind_inv in Hk as (fs7 & b7 & H7 & Hk). destruct b7; [|done]. injection Hk as <-.
  pose proof (run_keeps _ _ _ _ _ H6 (keeps_remove_if_identity_shrinks _ _)) as R6.
  pose proof (run_keeps _ _ _ _ _ H7 (keeps_remove_directory_shrinks _ _)) as R7.
  assert (removes_only (fun _ _ => True) fs3 fs5) as R35 by (etrans; [exact R4|exact R5]).
  assert (removes_only (fun _ _ => True) fs2 fs5) as R25 by (etrans; [exact R3|exact R35]).
  assert (removes_only (fun _ _ => True) fs2 fs6) as R26 by (etrans; [exact R25|exact R6]).
  assert (removes_only (fun _ _ => True) fs3 fs7) as R37 by (etrans; [exact R35|]; etrans; [exact R6|exact R7]).
  split; [|split].
  - eapply entries_gone_subset; [|exact Hg]. by eapply removes_only_subset.
  - rewrite Hsi in H7. by apply (directory_gone _ _ _ _ _ (at_names_step _ _ _ _ _ R26 As)) in H7.
  - apply (remove_if_identity_spec _ _ _ _ _ _ (at_names_step _ _ _ _ _ R25 Am)) in H6 as [_ H6].
    intros n Hn. apply H6; [done|]. eapply lookup_weaken; [exact Hn|]. by eapply removes_only_subset.
Qed.


(** ** A complete recall *)

(** The final files are synchronized, under the identities that recovery infers. *)
Fixpoint finals_synced (fs fs' : FileSystem) (m : TransactionManifest) (index : Z) (es : list ManifestEntrySlot)
    (vs : list EntryView) : Prop :=
  match es, vs with
  | e :: es', v :: vs' =>
      (exists i, inferred (tree fs) m index e v = Some i /\ logged fs fs' (Synced i))
      /\ finals_synced fs fs' m (index + 1) es' vs'
  | _, _ => True
  end.

(** The final paths are written without empty or dot parts. *)
Definition plain_finals (m : TransactionManifest) (es : list ManifestEntrySlot) : Prop :=
  forall e p i, e ∈ es -> final_of m e = Ok (p, i) ->
  slen p <= u64_max /\ exists names, names <> [] /\ Forall normal_name names /\ p = abs_text names.

(** The directories from the output root down to the final files are synchronized. *)
Definition directories_synced (fs fs' : FileSystem) (O : Key) (vs : list EntryView) : Prop :=
  forall v d, v ∈ vs -> O `prefix_of` d -> d `prefix_of` (v_final v).1 -> d <> (v_final v).1 -> dir_synced fs fs' d.

Lemma finals_synced_earlier fs fs1 fs' m index es vs : reads_only fs fs1 ->
  finals_synced fs1 fs' m index es vs -> finals_synced fs fs' m index es vs.
Proof using Type.
  intros Hr. revert index vs. induction es as [|e es IH]; intros index [|v vs]; try done.
  intros [(i & Hi & Hl) Hs]. split; [|by apply IH]. exists i. rewrite <-(reads_only_tree _ _ Hr).
  split; [done|by eapply logged_earlier].
Qed.

Lemma finals_synced_later fs fs1 fs' m index es vs : reads_only fs1 fs' ->
  finals_synced fs fs1 m index es vs -> finals_synced fs fs' m index es vs.
Proof using Type.
  intros Hr. revert index vs. induction es as [|e es IH]; intros index [|v vs]; try done.
  intros [(i & Hi & Hl) Hs]. split; [|by apply IH]. exists i. split; [done|by eapply logged_later].
Qed.

Lemma sync_finals_Ok m es index l vs base fs fs' :
  sync_finals m index l fs = (fs', Ok tt) -> entries m = Ok es -> l = drop (Z.to_nat index) es -> 0 <= index ->
  reads_only base fs -> Forall2 (views_entry (tree base) m) l vs ->
  reads_only fs fs' /\ finals_synced base fs' m index l vs.
Proof using Type.
  intros H Hes. revert index vs fs H. induction l as [|e l IH]; intros index vs fs H Hl Hi Hb Hvs.
  { injection H as <-. by inversion Hvs. }
  apply Forall2_cons_inv_l in Hvs as (v & vs' & Hv & Hvs & ->). cbn [sync_finals] in H.
  apply bind_inv in H as (fs1 & o & Hinf & H). pose proof (run_reads _ _ _ _ Hinf (inferred_keeps _ _ _)) as R1.
  assert (zlookup es index = Some e) as Hz by by apply (zlookup_drop es (e :: l)).
  assert (views_entry (tree fs) m e v) as Hv' by by rewrite (reads_only_tree _ _ Hb).
  pose proof (inferred_run _ _ _ _ _ _ _ _ Hinf Hes Hz Hv') as ->. rewrite (reads_only_tree _ _ Hb) in H.
  apply bind_lift_inv in H as (i & Hi' & H). apply ok_or_Ok in Hi'. apply bind_lift_inv in H as ([pf j] & _ & H).
  apply bind_inv in H as (fs2 & [] & H2 & H). pose proof (run_reads _ _ _ _ H2 (keeps_sync_regular_file _ _ _)) as R2.
  assert (reads_only base fs1) as B1 by by etrans. assert (reads_only base fs2) as B2 by by etrans.
  destruct (IH _ _ _ H (drop_next _ _ _ _ Hl Hi) ltac:(lia) B2 Hvs) as [R3 Hs].
  split; [by etrans; [exact R1|]; etrans|]. split; [|done]. exists i. split; [done|].
  eapply logged_later; [exact R3|]. eapply logged_earlier; [exact B1|]. by eapply sync_regular_file_spec.
Qed.

Lemma final_of_utf8 m e p i : final_of m e = Ok (p, i) -> utf8 p = true.
Proof using Type.
  unfold final_of, path, path_ref, arena_slice. intros H. apply obind_Ok in H as (q & H & [= <- <-]).
  repeat (apply obind_Ok in H as (? & _ & H)). cbv zeta in H. destruct (utf8 _) eqn:E; [|done]. by injection H as <-.
Qed.

(** In a plain spelling the walk of the synchronization applies. *)
Lemma plain_final_text m K O es e v fs :
  plain_finals m es -> e ∈ es -> views_entry (tree fs) m e v -> entry_facts m FileSet K O e v ->
  exists k x, (v_final v).1 = k ++ [x] /\ O `prefix_of` k /\ final_text m O fs e k.
Proof using Type.
  intros Hp He [_ _ (p & Hf & [Hc _ Hcl])] Hfacts. destruct (Hp _ _ _ He Hf) as (Hlen & names & Hne & Hn & Et).
  assert (names = (v_final v).1) as En.
  { apply (canonical_inj p); [|done]. rewrite Et. by apply canonical_abs_text. }
  destruct (ef_under_output _ _ _ _ _ _ Hfacts) as (s & Hs & Es). destruct s as [|x s _] using rev_ind; [done|].
  rewrite <-En, app_assoc in Es. exists (O ++ s), x. split; [by rewrite <-En|]. split; [by apply prefix_app_r|].
  exists x, (v_final v).2. rewrite <-Es, <-Et. split; [done|]. split; [done|]. split; [by apply prefix_app_r|].
  split; [by eapply final_of_utf8|]. split; [done|]. by rewrite En.
Qed.

Lemma directories_synced_Ok m out K O es vs fs fs1 fs' :
  sync_file_set_directories m out fs1 = (fs', Ok tt) -> entries m = Ok es -> reads_only fs fs1 -> wf_tree (tree fs) ->
  Forall2 (views_entry (tree fs) m) es vs -> Forall2 (entry_facts m FileSet K O) es vs ->
  plain_finals m es -> out = abs_text O -> O <> [] -> directories_synced fs fs' O vs.
Proof using Type.
  intros H Hes Hr Hw Hvs Hfs Hp -> HO v d Hv Hd Hdv Hne. rewrite <-(reads_only_tree _ _ Hr) in Hvs, Hw.
  assert (forall e, e ∈ es -> exists k, final_text m O fs1 e k) as Hall.
  { intros e He. pose proof He as He'. apply list_elem_of_lookup_1 in He' as [j Hj].
    destruct (Forall2_lookup_l _ _ _ _ _ Hvs Hj) as (w & Hw' & Hve).
    destruct (Forall2_lookup_l _ _ _ _ _ Hfs Hj) as (w' & Hw'' & Hfe). assert (w' = w) as -> by congruence.
    destruct (plain_final_text _ _ _ _ _ _ _ Hp He Hve Hfe) as (k & x & _ & _ & Hk). by exists k. }
  apply list_elem_of_lookup_1 in Hv as [j Hj].
  destruct (Forall2_lookup_r _ _ _ _ _ Hvs Hj) as (e & He & Hve).
  destruct (Forall2_lookup_r _ _ _ _ _ Hfs Hj) as (e' & He' & Hfe). assert (e' = e) as -> by congruence.
  pose proof (list_elem_of_lookup_2 _ _ _ He) as Hee.
  destruct (plain_final_text _ _ _ _ _ _ _ Hp Hee Hve Hfe) as (k & x & Ek & _ & Hk).
  eapply dir_synced_earlier; [exact Hr|]. eapply sync_file_set_directories_spec; try done. rewrite Ek in Hdv, Hne.
  destruct Hdv as [s Hs]. destruct s as [|y s _] using rev_ind; [by rewrite app_nil_r in Hs|].
  rewrite app_assoc in Hs. apply app_inj_tail in Hs as [-> _]. by apply prefix_app_r.
Qed.

(** The finish of a complete recall: first everything is synchronized, then the
    files of the transaction itself may go. *)
Lemma finish_recall_phases m out mp mid V O es fs fs' o :
  finish_recall m out mp mid fs = (fs', o) -> wf_tree (tree fs) -> validated (tree fs) m FileSet mp mid V O es ->
  (reads_only fs fs' /\ forall r, o <> Ok r)
  \/ exists fs3, reads_only fs fs3 /\ finals_synced fs fs3 m 0 es (v_entries V)
       /\ (plain_finals m es -> out = abs_text O -> O <> [] -> directories_synced fs fs3 O (v_entries V))
       /\ removes_only (meta_owned V) fs3 fs'.
Proof using Type.
  intros H Hw Hv. pose proof (vd_views _ _ _ _ _ _ _ _ Hv) as Hvw. pose proof (vd_entries _ _ _ _ _ _ _ _ Hv) as Hes.
  destruct (vw_entries _ _ _ _ _ Hvw) as (es' & Hes' & HF). assert (es' = es) as -> by congruence.
  unfold finish_recall in H. rewrite Hes, bind_lift_Ok in H.
  unfold bind at 1 in H. destruct (sync_finals m 0 es fs) as [fs1 [[]|e|]] eqn:E1.
  2,3: injection H as <- <-; left; split; [|done]; eapply run_reads; [exact E1|apply keeps_sync_finals].
  destruct (sync_finals_Ok _ _ _ _ _ fs _ _ E1 Hes eq_refl ltac:(done) ltac:(done) HF) as [R1 Hs].
  unfold bind at 1 in H. destruct (sync_file_set_directories m out fs1) as [fs3 [[]|e|]] eqn:E2.
  all: pose proof (run_reads _ _ _ _ E2 (keeps_sync_file_set_directories _ _ out)) as R2.
  2,3: injection H as <- <-; left; split; [|done]; by etrans.
  right. exists fs3. assert (reads_only fs fs3) as R3 by by etrans. split; [done|]. split; [|split].
  - eapply finals_synced_later; [exact R2|exact Hs].
  - intros Hp Ho HO. eapply directories_synced_Ok; try done. apply Hv.
  - apply (views_step _ _ _ _ _ _ _ R3) in Hvw.
    eapply run_safe; [exact H|by apply safe_clear_recall|done].
Qed.

Lemma rollback_recall_outcome m mp mid fs fs' : rollback_recall m mp mid fs <> (fs', Ok OutcomeComplete).
Proof using Type.
  unfold rollback_recall. intros H. apply bind_lift_inv in H as (es & _ & H).
  apply bind_inv in H as (? & [] & _ & H); [done|]. apply bind_lift_inv in H as (ds & _ & H).
  apply bind_inv in H as (? & _ & _ & H). apply bind_lift_inv in H as (sr & _ & H).
  apply bind_inv in H as (? & [] & _ & H); [|done]. apply bind_inv in H as (? & _ & _ & H).
  by apply bind_inv in H as (? & [] & _ & H).
Qed.

(** C3. A recall is reported complete only if all of its final files are in place,
    and then it is never rolled back, whatever calls fail: every final file stays
    as it is (and stays recognized), the outcome is "complete" or an error, and before the first removal every final
    file has been synchronized, and, for final paths in plain spelling, every
    directory from the output root down to it. *)
Theorem complete_recall_kept b tr out fs fs' o :
  recover_recall_root_with_directories geteuid b tr out fs = (fs', o) -> wf_tree (tree fs) ->
  (reads_only fs fs' /\ forall r, o <> Ok r)
  \/ exists m mid V O es fs0, read_with_identity_directories b (path_join tr RECALL_MANIFEST_NAME) fs = (fs0, Ok (m, mid))
       /\ views (tree fs) m (path_join tr RECALL_MANIFEST_NAME) mid V /\ entries m = Ok es /\ canonical out O
       /\ (o = Ok OutcomeComplete -> finals_present (tree fs) m 0 es (v_entries V))
       /\ (finals_present (tree fs) m 0 es (v_entries V) ->
           (forall r, o = Ok r -> r = OutcomeComplete)
           /\ (forall v, v ∈ v_entries V -> tree fs' !! (v_final v).1 = tree fs !! (v_final v).1)
           /\ finals_present (tree fs') m 0 es (v_entries V)
           /\ ((reads_only fs fs' /\ forall r, o <> Ok r)
               \/ exists fs3, reads_only fs fs3 /\ finals_synced fs fs3 m 0 es (v_entries V)
                    /\ (plain_finals m es -> out = abs_text O -> O <> [] -> directories_synced fs fs3 O (v_entries V))
                    /\ removes_only (meta_owned V) fs3 fs')).
Proof using Type.
  intros H Hw. destruct (recall_phases _ _ _ _ _ _ H Hw) as [?|(fs2 & m & mid & V & O & es & c & Hd & Hk)]; [by left|].
  right. destruct Hd as [Hr Hw2 (fs0 & Hrd & _) _ HO Hv (fs1 & Hr1 & Hc)]. pose proof (vd_views _ _ _ _ _ _ _ _ Hv) as Hvw.
  pose proof (reads_only_tree _ _ Hr) as T2. pose proof (vd_entries _ _ _ _ _ _ _ _ Hv) as Hes.
  exists m, mid, V, O, es, fs0. split; [done|]. split; [by rewrite <-T2|]. split; [done|]. split; [done|].
  assert (tree fs1 = tree fs) as T1 by by rewrite (reads_only_tree _ _ Hr1).
  assert (is_file_set (kind m) = true) as Hkind.
  { pose proof (vd_kind _ _ _ _ _ _ _ _ Hv) as Hkm. unfold kind_matches in Hkm. by destruct (kind m). }
  assert (c = true <-> finals_present (tree fs) m 0 es (v_entries V)) as Hdec.
  { rewrite <-T1. apply (complete_recall m es V (path_join tr RECALL_MANIFEST_NAME) mid fs1 fs2); try done. by rewrite T1, <-T2. }
  split; [intros ->; apply Hdec; destruct c; [done|by apply rollback_recall_outcome in Hk]|].
  intros Hf. apply Hdec in Hf as ->. pose proof (proj1 Hdec eq_refl) as Hf.
  assert (removes_only (meta_owned V) fs2 fs') as Hro.
  { eapply run_safe; [exact Hk|by apply safe_finish_recall|done]. }
  assert (removes_only (meta_owned V) fs fs') as Hro' by (etrans; [by eapply removes_only_weaken; [|exact Hr]|done]).
  assert (forall v, v ∈ v_entries V -> tree fs' !! (v_final v).1 = tree fs !! (v_final v).1) as Hkeep.
  { eapply finals_kept; [exact Hro'|]. intros v k n Hin Hown. eapply final_key_other; [apply Hv|done|].
    eapply meta_owned_other; [apply (vd_temporary _ _ _ _ _ _ _ _ Hv)|done]. }
  split; [intros r ->; by eapply finish_recall_outcome|]. split; [done|]. split.
  { eapply finals_present_kept; [by eapply removes_only_subset|done|done]. }
  destruct (finish_recall_phases _ _ _ _ _ _ _ _ _ _ Hk Hw2 Hv) as [[R3 Ho]|(fs3 & R3 & Hs & Hds & Hrm)].
  - left. split; [etrans; [exact Hr|exact R3]|done].
  - right. exists fs3. split; [etrans; [exact Hr|exact R3]|].
    split; [eapply finals_synced_earlier; [exact Hr|exact Hs]|]. split; [|done].
    intros Hp Ho HO'. intros v d Hvi Hd1 Hd2 Hd3. eapply dir_synced_earlier; [exact Hr|]. by apply (Hds Hp Ho HO' v).
Qed.
End recovery.
