(* ===== verification/RecoveryScan.v ===== *)
(** * The scan at startup

    Recovery of every transaction under a root: each is counted once, the
    failure of one does not stop the others, and what is removed belongs to a
    transaction with a validated manifest. *)
From Stdlib Require Import Ascii.
From S2P Require Import Prelude.
From S2P Require Import Errors.
From S2P Require Import Paths.
From S2P Require Import FileSystem.
From S2P Require Import Manifest.
From S2P Require Import ManifestJson.
From S2P Require Import Recovery.
From S2P Require Import RecoverySpec.
From S2P Require Import RecoverySync.
From S2P Require Import RecoveryTheorems.

(** A summary whose counts add up: every transaction has one outcome, every
    pending or failed one an issue. *)
Record consistent (s : RecoveryScanSummary) : Prop := mkConsistent {
  co_outcomes : discovered s = completed s + rolled_back s + pending s + failed s;
  co_issues : zlen (issues s) = pending s + failed s;
  co_completed : 0 <= completed s;
  co_rolled_back : 0 <= rolled_back s;
  co_pending : 0 <= pending s;
  co_failed : 0 <= failed s;
}.

Lemma count_consistent p r s : consistent s -> r <> Panic ->
  consistent (count_outcome p r (s <| discovered ::= Z.add 1 |>)).
Proof.
  intros [H1 H2 H3 H4 H5 H6] Hr. destruct r as [[]|e|]; [..|done]; constructor; cbn; rewrite ?zlen_app; try lia;
    unfold zlen in *; cbn [length]; lia.
Qed.

Lemma merge_consistent s s' : consistent s -> consistent s' -> consistent (merge s s').
Proof. intros [] []. constructor; cbn; rewrite ?zlen_app; lia. Qed.

(** ** Any scan *)

Section scan.
Context (marked : string -> R bool) (recover : string -> R RecoveryOutcome).
Context (P : Key -> Node -> Prop) (nodes : gmap Key Node) (admitted : string -> Prop).
Context (marked_reads : forall e Q, keeps (removes_only Q) (marked e)).
Context (marked_total : forall e fs fs' er, marked e fs <> (fs', Err er)).
Context (recover_owned : forall e fs, admitted e -> wf_tree (tree fs) -> tree fs ⊆ nodes ->
  removes_only P fs (recover e fs).1).

Lemma scan_entries_spec l s fs fs' o : Forall admitted l -> consistent s -> wf_tree (tree fs) -> tree fs ⊆ nodes ->
  scan_entries marked recover l s fs = (fs', o) ->
  removes_only P fs fs' /\ match o with Ok s' => consistent s' | Err _ => False | Panic => True end.
Proof using marked_reads marked_total recover_owned.
  revert s fs. induction l as [|e l IH]; intros s fs Ha Hs Hw Hsub H; cbn [scan_entries] in H.
  { by injection H as <- <-. }
  apply Forall_cons in Ha as [Ha Hl]. unfold bind at 1 in H.
  pose proof (keeps_attempt P _ (keeps_next_entry P e) fs) as R1.
  destruct (attempt (next_entry e) fs) as [fs1 [r|er|]] eqn:E1; cbn [fst] in R1.
  2: { exfalso. revert E1. unfold attempt. by destruct (next_entry e fs) as [? []]. }
  2: { by injection H as <- <-. }
  assert (wf_tree (tree fs1)) as W1 by by apply R1.
  assert (tree fs1 ⊆ nodes) as S1 by (etrans; [by eapply removes_only_subset|done]).
  destruct r as [e'|er|]; [|by injection H as <- <-|by injection H as <- <-].
  assert (e' = e) as ->.
  { revert E1. unfold attempt, next_entry. rewrite syscall_run. destruct (fault_now fs); [done|]. by intros [= _ <-]. }
  unfold bind at 1 in H. pose proof (marked_reads e P fs1) as R2.
  destruct (marked e fs1) as [fs2 [b|er|]] eqn:E2; cbn [fst] in R2.
  2: { by apply marked_total in E2. }
  2: { injection H as <- <-. split; [etrans; [exact R1|exact R2]|done]. }
  assert (removes_only P fs fs2) as R02 by (etrans; [exact R1|exact R2]).
  assert (wf_tree (tree fs2)) as W2 by by apply R2.
  assert (tree fs2 ⊆ nodes) as S2 by (etrans; [by eapply removes_only_subset|done]).
  destruct b; cbn [negb] in H.
  2: { destruct (IH _ _ Hl Hs W2 S2 H) as [R3 ?]. split; [etrans; [exact R02|exact R3]|done]. }
  unfold bind, catch in H. pose proof (recover_owned e fs2 Ha W2 S2) as R3.
  destruct (recover e fs2) as [fs3 o3] eqn:E3; cbn [fst] in R3. assert (removes_only P fs fs3) as R03 by (etrans; [exact R02|exact R3]).
  assert (wf_tree (tree fs3)) as W3 by by apply R3.
  assert (tree fs3 ⊆ nodes) as S3 by (etrans; [by eapply removes_only_subset|done]).
  destruct o3 as [r|er|]; [| |by injection H as <- <-].
  - destruct (IH _ _ Hl (count_consistent e (Ok r) s Hs ltac:(done)) W3 S3 H) as [R4 ?].
    split; [etrans; [exact R03|exact R4]|done].
  - destruct (IH _ _ Hl (count_consistent e (Err er) s Hs ltac:(done)) W3 S3 H) as [R4 ?].
    split; [etrans; [exact R03|exact R4]|done].
Qed.

Lemma scan_spec root fs fs' o : wf_tree (tree fs) -> tree fs ⊆ nodes ->
  (forall l fs1, read_dir root fs = (fs1, Ok l) -> Forall admitted l) ->
  scan marked recover root fs = (fs', o) ->
  removes_only P fs fs' /\ match o with Ok s' => consistent s' | Err _ => False | Panic => True end.
Proof using marked_reads marked_total recover_owned.
  intros Hw Hsub Ha H. unfold scan, bind in H. pose proof (keeps_read_dir P root fs) as R1. unfold attempt in H.
  destruct (read_dir root fs) as [fs1 [l|er|]] eqn:E1; cbn [fst] in R1.
  - destruct (scan_entries_spec l empty_scan fs1 fs' o) as [R2 ?]; try done; [by eapply Ha|by apply R1| |].
    { etrans; [by eapply removes_only_subset|done]. }
    split; [etrans; [exact R1|exact R2]|done].
  - by injection H as <- <-.
  - by injection H as <- <-.
Qed.
End scan.

(** ** The two scans of the source *)

Section recovery.
Context {json_text : JsonText} {json_z : JsonCodec Z} {json_kind : JsonCodec TransactionKind}
  {json_phase : JsonCodec ManifestPhase} {json_identity : JsonCodec FileIdentity}
  {json_state : JsonCodec ManifestDirectoryState}.
Context (geteuid : Z).

(** A node that some validated manifest in the tree names with its identity. *)
Definition named_by_manifest (nodes : gmap Key Node) (k : Key) (n : Node) : Prop :=
  exists now m mp mid V, now ⊆ nodes /\ views now m mp mid V /\ owned V k n.

Lemma keeps_path_is P f p : keeps (removes_only P) (path_is f p).
Proof using Type. unfold path_is. recovery_steps. Qed.

Lemma path_is_total f p fs fs' er : path_is f p fs <> (fs', Err er).
Proof using Type. unfold path_is, bind, attempt. by destruct (metadata p fs) as [? []]. Qed.

Lemma recall_marked_total p fs fs' er : recall_marked p fs <> (fs', Err er).
Proof using Type.
  unfold recall_marked, bind. destruct (path_is is_dir p fs) as [fs1 [[]|e|]] eqn:E; cbn; try done.
  - apply path_is_total.
  - by apply path_is_total in E.
Qed.

(** The scan of the recall staging root at startup never fails: it reports every
    transaction it found with exactly one outcome and every pending or failed
    one with an issue, and it removes only nodes that a validated manifest names
    with their identity; everything else stays as it is. *)
Theorem recall_scan_accounts b root out fs fs' o :
  recover_recall_staging_root_with_directories geteuid b root out fs = (fs', o) -> wf_tree (tree fs) ->
  removes_only (named_by_manifest (tree fs)) fs fs'
  /\ match o with Ok s => consistent s | Err _ => False | Panic => True end.
Proof using Type.
  intros H Hw. unfold recover_recall_staging_root_with_directories in H.
  eapply (scan_spec recall_marked _ _ (tree fs) (fun _ => True)); [| | |exact Hw|done| |exact H].
  - intros e Q. unfold recall_marked. recovery_steps; apply keeps_path_is.
  - apply recall_marked_total.
  - intros e fs1 _ W1 S1. cbv beta. destruct (recover_recall_root_with_directories geteuid b e out fs1) as [fs2 r] eqn:E.
    destruct (recovery_removes_only_owned_core geteuid b e out (path_join e RECALL_MANIFEST_NAME) fs1 fs2 r W1 (or_introl (conj E eq_refl)))
      as [[R _]|(m & mid & V & b' & fs0 & _ & Hv & R)]; cbn.
    + by eapply removes_only_weaken; [|exact R].
    + eapply removes_only_weaken; [|exact R]. intros k n Hn. by exists (tree fs1), m, (path_join e RECALL_MANIFEST_NAME), mid, V.
  - intros l fs1 _. by apply Forall_true.
Qed.

(** The names in a tree are names that a directory can hold. *)
Definition proper_names (nodes : gmap Key Node) : Prop := forall k n, nodes !! k = Some n -> Forall normal_name k.

Lemma children_normal nodes dir name : proper_names nodes -> name ∈ children nodes dir -> normal_name name.
Proof using Type.
  unfold children. intros Hp [[k n] [Hkn Hc]]%list_elem_of_omap. apply elem_of_map_to_list, Hp in Hkn.
  unfold name_in in Hc. cbn [fst] in Hc. destruct k as [|x k _] using rev_ind; [done|]. rewrite reverse_snoc in Hc.
  apply Forall_app in Hkn as [_ [Hx _]%Forall_cons]. destruct (decide _); [|done]. by injection Hc as <-.
Qed.

Lemma read_dir_entries root K fs fs1 l : read_dir root fs = (fs1, Ok l) -> canonical root K ->
  proper_names (tree fs) -> Forall (fun e => exists M, canonical e M) l.
Proof using Type.
  intros H HK Hp. unfold read_dir in H. rewrite syscall_run in H. destruct (fault_now fs); [done|].
  apply bind_inv in H as (fs2 & x & H1 & H). rewrite bind_get in H.
  assert (tree fs2 = tree fs) as T.
  { unfold find_node in H1. rewrite bind_get in H1. apply bind_lift_inv in H1 as (key & _ & H1).
    destruct (_ !! key); [|done]. by injection H1 as <- _. }
  destruct (is_dir x.2); [|done]. injection H as _ <-. apply Forall_forall. intros e [name [-> Hn]]%list_elem_of_fmap.
  exists (K ++ [name]). apply canonical_join; [done|]. eapply children_normal; [exact Hp|]. by rewrite <-T.
Qed.

(** The same of the scan of the dump parent, for a parent written as an absolute
    path without dot parts. *)
Theorem dump_scan_accounts b parent K fs fs' o :
  recover_dump_root geteuid b parent fs = (fs', o) -> wf_tree (tree fs) -> proper_names (tree fs) ->
  canonical parent K ->
  removes_only (named_by_manifest (tree fs)) fs fs'
  /\ match o with Ok s => consistent s | Err _ => False | Panic => True end.
Proof using Type.
  intros H Hw Hp HK. unfold recover_dump_root in H.
  eapply (scan_spec dump_marked _ _ (tree fs) (fun e => exists M, canonical e M)); [| | |exact Hw|done| |exact H].
  - intros e Q. unfold dump_marked. apply keeps_ret, _.
  - done.
  - intros e fs1 HM W1 S1. cbv beta. destruct (recover_dump_parent geteuid b parent e fs1) as [fs2 r] eqn:E.
    destruct (recovery_removes_only_owned_core geteuid b parent parent e fs1 fs2 r W1 (or_intror (conj E HM)))
      as [[R _]|(m & mid & V & b' & fs0 & _ & Hv & R)]; cbn.
    + by eapply removes_only_weaken; [|exact R].
    + eapply removes_only_weaken; [|exact R]. intros k n Hn. by exists (tree fs1), m, e, mid, V.
  - intros l fs1 Hl. by eapply read_dir_entries.
Qed.
End recovery.
