(* ===== verification/RecoveryDump.v ===== *)
(** * Recovery of a dump

    A dump is published by one rename of its staging directory. Recovery decides
    by the final directory: if it is the transaction's own with all of its files,
    it stays and only the manifests go; otherwise the staging directory goes, and
    a foreign directory at the final path is left alone. *)
From Stdlib Require Import Ascii.
From S2P Require Import Prelude.
From S2P Require Import Errors.
From S2P Require Import Paths.
From S2P Require Import FileSystem.
From S2P Require Import Manifest.
From S2P Require Import ManifestJson.
From S2P Require Import Recovery.
From S2P Require Import RecoverySpec.
From S2P Require Import RecoverySync.
From S2P Require Import RecoveryTheorems.

Section recovery.
Context {json_text : JsonText} {json_z : JsonCodec Z} {json_kind : JsonCodec TransactionKind}
  {json_phase : JsonCodec ManifestPhase} {json_identity : JsonCodec FileIdentity}
  {json_state : JsonCodec ManifestDirectoryState}.
Context (geteuid : Z).

(** The final directory is the transaction's own. *)
Definition directory_present (nodes : gmap Key Node) (V : View) : Prop :=
  exists k i n, v_final_directory V = Some (k, Some i) /\ nodes !! k = Some n /\ is_dir n = true
                /\ identity_from_metadata n = i.

Definition dump_present (nodes : gmap Key Node) (m : TransactionManifest) (es : list ManifestEntrySlot) (V : View) : Prop :=
  directory_present nodes V /\ finals_present nodes m 0 es (v_entries V).

Lemma complete_dump m es V mp mid fs fs' c :
  complete_final_set m fs = (fs', Ok c) -> is_file_set (kind m) = false -> entries m = Ok es ->
  views (tree fs) m mp mid V -> c = true <-> dump_present (tree fs) m es V.
Proof using Type.
  unfold complete_final_set. intros H Hk Hes Hv. rewrite Hk in H. cbn [negb] in H.
  apply bind_inv in H as (fs1 & d & Hd & H). apply bind_lift_inv in Hd as (fd & Hfd & Hd).
  destruct (vw_entries _ _ _ _ _ Hv) as (es' & Hes' & HF). assert (es' = es) as -> by congruence.
  pose proof (vw_final_directory _ _ _ _ _ Hv) as Hvd. unfold dump_present, directory_present.
  destruct (v_final_directory V) as [[k o]|].
  2: { rewrite Hvd in Hfd. injection Hfd as <-. injection Hd as <- <-. injection H as <- <-. split; [done|].
       by intros [(? & ? & ? & ? & _) _]. }
  destruct Hvd as (p & Hp & Ha). rewrite Hp in Hfd. injection Hfd as <-. destruct o as [i|].
  2: { injection Hd as <- <-. injection H as <- <-. split; [done|]. by intros [(? & ? & ? & ? & _) _]. }
  pose proof (identity_matches_Ok _ _ _ _ _ _ _ Ha Hd) as Hm.
  pose proof (reads_only_tree _ _ (run_reads _ _ _ _ Hd (keeps_identity_matches _ _ _ _))) as T.
  destruct d; cbn [negb] in H.
  - rewrite Hes, bind_lift_Ok in H. rewrite <-T in HF.
    rewrite (finals_match_Ok _ _ _ _ _ _ _ _ H Hes eq_refl ltac:(done) HF), T. split; [|tauto]. intros Hf. split; [|done].
    destruct (proj1 Hm eq_refl) as (n & H1 & H2 & H3). by exists k, i, n.
  - injection H as <- <-. split; [done|]. intros [(k' & i' & n & [= <- <-] & H1 & H2 & H3) _]. apply Hm. by exists n.
Qed.

(** *** The manifests lie beside the final directory, not in it *)

Lemma temporary_key nodes m mp mid V k N y : views nodes m mp mid V -> v_temporary V = Some k ->
  canonical mp (N ++ [y]) -> exists z, k = N ++ [z].
Proof using Type.
  intros Hv Hk Hc. pose proof (vw_temporary _ _ _ _ _ Hv) as Ht. rewrite Hk in Ht.
  destruct Ht as (id & p & x & _ & _ & _ & _ & _ & _ & K & y' & z & Hc' & ->).
  pose proof (canonical_inj _ _ _ Hc Hc') as E. apply app_inj_tail in E as [-> _]. by exists z.
Qed.

(** What a finished dump may remove is not one of its final files. *)
Lemma dump_meta_other nodes m mp mid V O es k n v y : validated nodes m AtomicDirectory mp mid V O es ->
  canonical mp (O ++ [y]) -> v ∈ v_entries V -> meta_owned V k n -> k <> (v_final v).1.
Proof using Type.
  intros Hv Hmp Hin Hk. pose proof (vd_views _ _ _ _ _ _ _ _ Hv) as Hvw.
  destruct (decide (v_temporary V = Some k)) as [Ht|Ht].
  2: { eapply final_key_other; [apply Hv|done|]. destruct Hk as [[_ [E|[E|(w & Hw & E)]]]|[_ E]].
       - left. by rewrite <-E.
       - done.
       - right; right. exists w. split; [done|]. destruct E as [->|E]; [by left|right; by eexists].
       - right; left. by rewrite <-E. }
  destruct (temporary_key _ _ _ _ _ _ _ _ Hvw Ht Hmp) as [z ->].
  destruct (vd_final _ _ _ _ _ _ _ _ Hv) as [d Hd].
  destruct (vd_final_child _ _ _ _ _ _ _ _ Hv _ _ Hd) as [x Ex].
  apply list_elem_of_lookup_1 in Hin as [j Hj].
  destruct (Forall2_lookup_r _ _ _ _ _ (vd_facts _ _ _ _ _ _ _ _ Hv) Hj) as (e & _ & Hf).
  pose proof (vw_final_directory _ _ _ _ _ Hvw) as Hfd. rewrite Hd in Hfd. destruct Hfd as (p & Hp & Ap).
  destruct (ef_dump _ _ _ _ _ _ Hf ltac:(done) _ _ _ Hp (an_canonical _ _ _ Ap)) as [x' Ex']. rewrite Ex', Ex.
  intros E. apply (f_equal length) in E. rewrite !length_app in E. cbn in E. lia.
Qed.

(** Nor is it the final directory. *)
Lemma dump_meta_directory nodes m mp mid V O es k n d i : validated nodes m AtomicDirectory mp mid V O es ->
  v_final_directory V = Some (d, i) -> meta_owned V k n -> is_dir n = true -> k <> d.
Proof using Type.
  intros Hv Hd Hk Hn ->. pose proof (vd_nodup _ _ _ _ _ _ _ _ Hv) as Hnd.
  assert (is_file n = false) as Hnf by (unfold is_file, is_dir in *; by destruct (node_kind n)).
  destruct Hk as [[Hf _]|[_ E]]; [congruence|]. unfold view_keys in Hnd. rewrite Hd in Hnd. cbn in Hnd.
  apply NoDup_app in Hnd as (_ & _ & Hnd). apply NoDup_cons in Hnd as [Hnd _]. apply Hnd. rewrite <-E. by right; left.
Qed.

(** Removals of the dump's own metadata keep what decides. *)
Lemma dump_present_kept nodes m mp mid V O es y fs fs' : validated nodes m AtomicDirectory mp mid V O es ->
  canonical mp (O ++ [y]) -> removes_only (meta_owned V) fs fs' ->
  (forall v, v ∈ v_entries V -> tree fs' !! (v_final v).1 = tree fs !! (v_final v).1)
  /\ (dump_present (tree fs) m es V -> dump_present (tree fs') m es V).
Proof using Type.
  intros Hv Hmp Hr. assert (forall v, v ∈ v_entries V -> tree fs' !! (v_final v).1 = tree fs !! (v_final v).1) as Hk.
  { eapply finals_kept; [exact Hr|]. intros v k n Hin Hown. by eapply dump_meta_other. }
  split; [done|]. intros [(d & i & n & Hd & Hn & Hdir & Hi) Hf]. split.
  - exists d, i, n. split; [done|]. split; [|done]. destruct (ro_tree _ _ _ Hr d) as [->|(n' & Hn' & _ & Hown)]; [done|].
    rewrite Hn in Hn'. injection Hn' as <-. by destruct (dump_meta_directory _ _ _ _ _ _ _ _ _ _ _ Hv Hd Hown Hdir).
  - eapply finals_present_kept; [by eapply removes_only_subset|done|done].
Qed.

(** ** The end of a complete dump *)

Lemma sync_owned_directory_spec p i fs fs' : sync_owned_directory p i fs = (fs', Ok tt) -> logged fs fs' (Synced i).
Proof using Type.
  intros H. unfold sync_owned_directory in H. apply bind_inv in H as (fs1 & n & H1 & H).
  pose proof (run_keeps (fun _ _ => False) _ _ _ _ H1 (keeps_io _ _ _ (keeps_open_directory _ _))) as R1.
  apply bind_inv in H as (fs2 & md & H2 & H). unfold io in H2. rewrite file_metadata_run in H2.
  destruct (fault_now fs1); [done|]. injection H2 as <- <-.
  destruct (bool_decide_reflect (identity_from_metadata n = i)) as [<-|]; [|done]. cbn [negb] in H.
  unfold fail_if at 1 in H. rewrite bind_ret in H. apply bind_inv in H as (fs3 & [] & H3 & H). unfold io in H3.
  rewrite sync_all_run in H3. destruct (fault_now (next fs1)); [done|]. injection H3 as <-.
  apply bind_inv in H as (fs4 & same & H4 & H).
  pose proof (run_keeps (fun _ _ => False) _ _ _ _ H4 (keeps_identity_matches _ _ _ _)) as R4.
  destruct same; [|done]. injection H as <-. eapply logged_later; [exact R4|]. eapply logged_earlier; [exact R1|].
  exists [Synced (identity_from_metadata n)]. split; [done|]. by left.
Qed.

(** All recorded final files are synchronized. *)
Definition recorded_synced (fs fs' : FileSystem) (es : list ManifestEntrySlot) : Prop :=
  Forall (fun e => exists i, final_identity e = Some i /\ logged fs fs' (Synced i)) es.

Lemma recorded_synced_later P fs fs1 fs' es : removes_only P fs1 fs' -> recorded_synced fs fs1 es -> recorded_synced fs fs' es.
Proof using Type.
  intros Hr Hs. eapply Forall_impl; [exact Hs|]. intros e (i & Hi & Hl). exists i. split; [done|by eapply logged_later].
Qed.

Lemma sync_dump_finals_Ok m l base fs fs' : sync_dump_finals m l fs = (fs', Ok tt) -> reads_only base fs ->
  reads_only fs fs' /\ recorded_synced base fs' l.
Proof using Type.
  revert fs. induction l as [|e l IH]; intros fs H Hb; cbn [sync_dump_finals] in H.
  { injection H as <-. split; [done|constructor]. }
  apply bind_lift_inv in H as ([p o] & Hf & H). apply bind_lift_inv in H as (i & Hi & H). apply ok_or_Ok in Hi.
  apply bind_inv in H as (fs1 & [] & H1 & H). pose proof (run_reads _ _ _ _ H1 (keeps_sync_regular_file _ _ _)) as R1.
  destruct (IH fs1 H) as [R2 Hs]; [by etrans|]. split; [by etrans|]. constructor; [|done]. exists i.
  split; [by rewrite <-(final_of_Ok _ _ _ _ Hf)|]. eapply logged_later; [exact R2|]. eapply logged_earlier; [exact Hb|].
  by eapply sync_regular_file_spec.
Qed.

Lemma finish_dump_phases m out mp mid V O es fs fs' o :
  finish_dump m out mp mid fs = (fs', o) -> wf_tree (tree fs) -> validated (tree fs) m AtomicDirectory mp mid V O es ->
  (reads_only fs fs' /\ forall r, o <> Ok r)
  \/ exists fs3, reads_only fs fs3 /\ recorded_synced fs fs3 es
       /\ (forall k i, v_final_directory V = Some (k, Some i) -> logged fs fs3 (Synced i))
       /\ removes_only (meta_owned V) fs3 fs'
       /\ forall r, o = Ok r -> r = OutcomePending \/ r = OutcomeComplete.
Proof using Type.
  intros H Hw Hv. pose proof (vd_views _ _ _ _ _ _ _ _ Hv) as Hvw. pose proof (vd_entries _ _ _ _ _ _ _ _ Hv) as Hes.
  assert (v_temporary V <> None) as HT by (by destruct (vd_temporary _ _ _ _ _ _ _ _ Hv) as [k ->]).
  unfold finish_dump in H. rewrite Hes, bind_lift_Ok in H.
  unfold bind at 1 in H. destruct (sync_dump_finals m es fs) as [fs1 [[]|e|]] eqn:E1.
  2,3: injection H as <- <-; left; split; [|done]; eapply run_reads; [exact E1|apply keeps_sync_dump_finals].
  destruct (sync_dump_finals_Ok _ _ fs _ _ E1 ltac:(done)) as [R1 Hs].
  unfold bind at 1, lift at 1 in H. destruct (final_directory m) as [d|e|] eqn:Ed; [|injection H as <- <-; left; split; [exact R1|done]..].
  unfold bind at 1, lift at 1 in H. destruct d as [[p oi]|]; [|injection H as <- <-; left; split; [exact R1|done]].
  cbn [ok_or] in H. unfold bind at 1, lift at 1 in H. destruct oi as [i|]; [|injection H as <- <-; left; split; [exact R1|done]].
  cbn [ok_or] in H. unfold bind at 1 in H. destruct (sync_owned_directory p i fs1) as [fs2 [[]|e|]] eqn:E2.
  all: pose proof (run_reads _ _ _ _ E2 (keeps_sync_owned_directory _ _ _)) as R2.
  2,3: injection H as <- <-; left; split; [etrans; [exact R1|exact R2]|done].
  unfold bind at 1 in H. destruct (sync_directory out fs2) as [fs3 [[]|e|]] eqn:E3.
  all: pose proof (run_reads _ _ _ _ E3 (keeps_sync_directory _ _)) as R3.
  all: assert (reads_only fs1 fs3) as R13 by (etrans; [exact R2|exact R3]).
  all: assert (reads_only fs fs3) as R03 by (etrans; [exact R1|exact R13]).
  2,3: injection H as <- <-; left; split; [exact R03|done].
  right. exists fs3. split; [done|]. split; [eapply recorded_synced_later; [exact R13|exact Hs]|]. split.
  { intros k i' Hk. pose proof (vw_final_directory _ _ _ _ _ Hvw) as Hfd. rewrite Hk in Hfd. destruct Hfd as (q & Hq & _).
    assert (i' = i) as -> by congruence. eapply logged_later; [exact R3|]. eapply logged_earlier; [exact R1|].
    by eapply sync_owned_directory_spec. }
  apply (views_step _ _ _ _ _ _ _ R03) in Hvw. split.
  - eapply run_safe; [exact H| |exact Hvw]. apply safe_bind; [by apply safe_remove_dump_manifest|].
    intros ? gone ? ?. destruct gone; cbn [negb]; apply safe_keeps; recovery_steps.
  - intros r ->. apply bind_inv in H as (fs4 & gone & _ & H). destruct gone; cbn [negb] in H.
    + apply bind_inv in H as (? & ? & _ & H). injection H as _ <-. by right.
    + injection H as _ <-. by left.
Qed.

Lemma rollback_dump_outcome m mp mid fs fs' : rollback_dump m mp mid fs <> (fs', Ok OutcomeComplete).
Proof using Type.
  unfold rollback_dump. intros H. apply bind_lift_inv in H as (d & _ & H). apply bind_lift_inv in H as ([] & _ & H).
  apply bind_inv in H as (? & [] & _ & H); [done|]. apply bind_lift_inv in H as (es & _ & H).
  apply bind_inv in H as (? & [] & _ & H); [|done]. apply bind_lift_inv in H as (sr & _ & H).
  apply bind_inv in H as (? & [] & _ & H); [|done]. by apply bind_inv in H as (? & [] & _ & H).
Qed.

(** What a recovery makes of a dump: it is complete exactly if its directory and
    files are in place, and then they stay. *)
Lemma complete_dump_facts b out mp fs fs' o O y :
  recover_dump_parent geteuid b out mp fs = (fs', o) -> wf_tree (tree fs) ->
  canonical out O -> canonical mp (O ++ [y]) ->
  (reads_only fs fs' /\ forall r, o <> Ok r)
  \/ exists m mid V es fs0, read_with_identity_directories (without_directories b) mp fs = (fs0, Ok (m, mid))
       /\ views (tree fs) m mp mid V /\ entries m = Ok es
       /\ (o = Ok OutcomeComplete -> dump_present (tree fs) m es V)
       /\ (dump_present (tree fs) m es V ->
           (forall r, o = Ok r -> r = OutcomePending \/ r = OutcomeComplete)
           /\ (forall v, v ∈ v_entries V -> tree fs' !! (v_final v).1 = tree fs !! (v_final v).1)
           /\ dump_present (tree fs') m es V
           /\ ((reads_only fs fs' /\ forall r, o <> Ok r)
               \/ exists fs3, reads_only fs fs3 /\ recorded_synced fs fs3 es
                    /\ (forall k i, v_final_directory V = Some (k, Some i) -> logged fs fs3 (Synced i))
                    /\ removes_only (meta_owned V) fs3 fs')).
Proof using Type.
  intros H Hw HOc Hmp.
  destruct (dump_phases geteuid b out mp fs fs' o H Hw ltac:(by eexists)) as [?|(fs2 & m & mid & V & O' & es & c & tr & Hd & Hk)];
    [by left|]. right. destruct Hd as [Hr Hw2 (fs0 & Hrd & _) _ HO Hv (fs1 & Hr1 & Hc)].
  assert (O' = O) as -> by by eapply canonical_inj.
  pose proof (vd_views _ _ _ _ _ _ _ _ Hv) as Hvw. pose proof (reads_only_tree _ _ Hr) as T2.
  pose proof (vd_entries _ _ _ _ _ _ _ _ Hv) as Hes. exists m, mid, V, es, fs0. split; [done|]. split; [by rewrite <-T2|].
  split; [done|]. assert (tree fs1 = tree fs) as T1 by by rewrite (reads_only_tree _ _ Hr1).
  assert (is_file_set (kind m) = false) as Hkind.
  { pose proof (vd_kind _ _ _ _ _ _ _ _ Hv) as Hkm. unfold kind_matches in Hkm. by destruct (kind m). }
  assert (c = true <-> dump_present (tree fs) m es V) as Hdec.
  { rewrite <-T1. apply (complete_dump m es V mp mid fs1 fs2); try done. by rewrite T1, <-T2. }
  split; [intros ->; apply Hdec; destruct c; [done|by apply rollback_dump_outcome in Hk]|].
  intros Hf. apply Hdec in Hf as ->. pose proof (proj1 Hdec eq_refl) as Hf.
  assert (forall P, reads_only fs fs2 -> removes_only P fs2 fs' -> removes_only P fs fs') as Hjoin.
  { intros P _ Hro. etrans; [by eapply removes_only_weaken; [|exact Hr]|exact Hro]. }
  destruct (finish_dump_phases _ _ _ _ _ _ _ _ _ _ Hk Hw2 Hv) as [[R3 Ho]|(fs3 & R3 & Hs & Hds & Hrm & Ho)].
  - assert (tree fs' = tree fs) as -> by by rewrite (reads_only_tree _ _ R3).
    split; [intros r ->; by destruct (Ho r)|]. split; [done|]. split; [done|]. left. split; [etrans; [exact Hr|exact R3]|done].
  - assert (removes_only (meta_owned V) fs2 fs') as Hro by (etrans; [by eapply removes_only_weaken; [|exact R3]|exact Hrm]).
    destruct (dump_present_kept _ _ _ _ _ _ _ _ _ _ Hv Hmp Hro) as [Hkeep Hpres]. rewrite T2 in *.
    split; [done|]. split; [done|]. split; [by apply Hpres|]. right. exists fs3. split; [etrans; [exact Hr|exact R3]|].
    split; [eapply Forall_impl; [exact Hs|]; intros e (i & Hi & Hl); exists i; split; [done|eapply logged_earlier; [exact Hr|exact Hl]]|].
    split; [intros k i Hki; eapply logged_earlier; [exact Hr|exact (Hds _ _ Hki)]|exact Hrm].
Qed.

(** C5. A dump is reported complete only if its final directory and all files in it
    are in place with the recorded identities. Then, for a manifest beside the
    final directory, whatever calls fail: the directory and the files stay, the
    outcome is "complete", "pending" or an error, and before the first removal
    every file and the directory have been synchronized. *)
Theorem complete_dump_kept b out mp fs fs' o O y :
  recover_dump_parent geteuid b out mp fs = (fs', o) -> wf_tree (tree fs) ->
  canonical out O -> canonical mp (O ++ [y]) ->
  (reads_only fs fs' /\ forall r, o <> Ok r)
  \/ exists m mid V es fs0, read_with_identity_directories (without_directories b) mp fs = (fs0, Ok (m, mid))
       /\ views (tree fs) m mp mid V /\ entries m = Ok es
       /\ (o = Ok OutcomeComplete -> dump_present (tree fs) m es V)
       /\ (dump_present (tree fs) m es V ->
           (forall r, o = Ok r -> r = OutcomePending \/ r = OutcomeComplete)
           /\ (forall v, v ∈ v_entries V -> tree fs' !! (v_final v).1 = tree fs !! (v_final v).1)
           /\ dump_present (tree fs') m es V
           /\ ((reads_only fs fs' /\ forall r, o <> Ok r)
               \/ exists fs3, reads_only fs fs3 /\ recorded_synced fs fs3 es
                    /\ (forall k i, v_final_directory V = Some (k, Some i) -> logged fs fs3 (Synced i))
                    /\ removes_only (meta_owned V) fs3 fs')).
Proof using Type. intros. by eapply complete_dump_facts. Qed.

(** ** A dump that is rolled back *)

Lemma keeps_cleanup_staged_shrinks m l : keeps shrinks (cleanup_staged m l).
Proof using Type.
  induction l as [|e l IH]; cbn [cleanup_staged]; recovery_steps; auto using keeps_cleanup_shrinks.
Qed.

Lemma keeps_temp_manifest_shrinks mp id : keeps shrinks (cleanup_dump_temp_manifest mp id).
Proof using Type. unfold cleanup_dump_temp_manifest, removed. recovery_steps. Qed.

Lemma cleanup_staged_gone m l vs fs fs' : cleanup_staged m l fs = (fs', Ok true) -> wf_tree (tree fs) ->
  Forall2 (views_entry (tree fs) m) l vs -> Forall (fun v => gone (tree fs') (v_staged v)) vs.
Proof using Type.
  revert vs fs. induction l as [|e l IH]; intros vs fs H Hw Hvs; [by inversion Hvs|].
  apply Forall2_cons_inv_l in Hvs as (v & vs' & Hv & Hvs & ->). cbn [cleanup_staged] in H.
  apply bind_lift_inv in H as ([p o] & Hp & H). destruct (ve_staged _ _ _ _ Hv) as (p' & Hp' & Ha).
  rewrite Hp in Hp'. injection Hp' as <- ->. apply bind_inv in H as (fs1 & g & H1 & H). destruct g; [|done]. cbn [negb] in H.
  pose proof (run_keeps _ _ _ _ _ H1 (keeps_cleanup_shrinks _ _)) as R1.
  pose proof (run_keeps _ _ _ _ _ H (keeps_cleanup_staged_shrinks _ _)) as R2. constructor.
  - eapply gone_subset; [eapply removes_only_subset; exact R2|]. pose proof (cleanup_gone _ _ _ _ _ Ha H1) as Hg.
    by destruct (v_staged v).
  - eapply IH; [exact H|by apply R1|]. eapply Forall2_impl; [exact Hvs|]. intros. by eapply views_entry_step.
Qed.

(** What does not block is not the transaction's directory. *)
Lemma blocks_gone p k o fs fs' : at_names (tree fs) p k -> final_directory_blocks p o fs = (fs', Ok false) ->
  reads_only fs fs' /\ forall n, tree fs !! k = Some n -> o = Some (identity_from_metadata n) -> is_dir n = false.
Proof using Type.
  intros Ha H. unfold final_directory_blocks in H. apply bind_inv in H as (fs1 & b & H1 & H).
  pose proof (run_reads _ _ _ _ H1 (keeps_path_exists _ _)) as R1. pose proof (path_exists_Ok _ _ _ _ _ Ha H1) as Hb.
  destruct b; cbn [negb] in H.
  2: { injection H as <-. split; [done|]. intros n Hn. symmetry in Hb. apply bool_decide_eq_false in Hb.
       destruct Hb. rewrite Hn. by eexists. }
  destruct o as [i|]; [|done]. pose proof (run_reads _ _ _ _ H (keeps_identity_matches _ _ _ _)) as R2.
  split; [etrans; [exact R1|exact R2]|]. intros n Hn [= ->]. rewrite <-(reads_only_tree _ _ R1) in Ha, Hn.
  pose proof (identity_matches_Ok _ _ _ _ _ _ _ Ha H) as Hm. destruct (is_dir n) eqn:Ed; [|done].
  exfalso. assert (false = true) as Hf; [|done]. apply Hm. by exists n.
Qed.

(** A dump that recovery reports as rolled back was not complete and has left
    nothing of its own: the final path does not hold the transaction's directory,
    no staged file with its recorded identity exists, and the staging directory
    and the manifest are gone. *)
Theorem dump_rolled_back b out mp fs fs' M :
  recover_dump_parent geteuid b out mp fs = (fs', Ok OutcomeRolledBack) -> wf_tree (tree fs) -> canonical mp M ->
  exists m mid V es fs0, read_with_identity_directories (without_directories b) mp fs = (fs0, Ok (m, mid))
    /\ views (tree fs) m mp mid V /\ entries m = Ok es
    /\ ~ dump_present (tree fs) m es V /\ ~ directory_present (tree fs') V
    /\ Forall (fun v => gone (tree fs') (v_staged v)) (v_entries V)
    /\ gone (tree fs') ((v_staging V).1, Some (v_staging V).2)
    /\ forall n, tree fs' !! (v_manifest V).1 = Some n -> identity_from_metadata n = mid -> is_file n = false.
Proof using Type.
  intros H Hw HM.
  destruct (dump_phases geteuid b out mp fs fs' _ H Hw ltac:(by eexists)) as [[_ Hn]|(fs2 & m & mid & V & O & es & c & tr & Hd & Hk)];
    [by destruct (Hn _ eq_refl)|].
  destruct Hd as [Hr Hw2 (fs0 & Hrd & _) _ _ Hv (fs1 & Hr1 & Hc)]. pose proof (vd_views _ _ _ _ _ _ _ _ Hv) as Hvw.
  exists m, mid, V, es, fs0. rewrite <-(reads_only_tree _ _ Hr). split; [done|]. split; [done|].
  pose proof (vd_entries _ _ _ _ _ _ _ _ Hv) as Hes. split; [done|].
  destruct c; [destruct (finish_dump_phases _ _ _ _ _ _ _ _ _ _ Hk Hw2 Hv) as [[_ Ho]|(_ & _ & _ & _ & _ & Ho)];
    [by destruct (Ho _ eq_refl)|by destruct (Ho _ eq_refl)]|].
  assert (tree fs1 = tree fs2) as T12 by by rewrite (reads_only_tree _ _ Hr1), (reads_only_tree _ _ Hr).
  assert (is_file_set (kind m) = false) as Hkind.
  { pose proof (vd_kind _ _ _ _ _ _ _ _ Hv) as Hkm. unfold kind_matches in Hkm. by destruct (kind m). }
  split.
  { rewrite <-T12 in Hvw |- *. intros Hf. by apply (complete_dump _ _ _ _ _ _ _ _ Hc Hkind Hes Hvw) in Hf. }
  unfold rollback_dump in Hk. apply bind_lift_inv in Hk as (d & Hd & Hk). apply bind_lift_inv in Hk as ([p oi] & Hp & Hk).
  apply ok_or_Ok in Hp as ->. apply bind_inv in Hk as (fs3 & blocked & H3 & Hk). destruct blocked; [done|].
  pose proof (vw_final_directory _ _ _ _ _ Hvw) as Hfd.
  destruct (v_final_directory V) as [[kd i]|] eqn:Ekd; [|congruence]. destruct Hfd as (q & Hq & Ad).
  assert (q = p /\ i = oi) as [-> ->] by by rewrite Hd in Hq; injection Hq.
  destruct (blocks_gone _ _ _ _ _ Ad H3) as [R3 Hblock]. rewrite Hes, bind_lift_Ok in Hk.
  apply bind_inv in Hk as (fs4 & g4 & H4 & Hk). destruct g4; [|done]. cbn [negb] in Hk.
  pose proof (run_keeps _ _ _ _ _ H4 (keeps_cleanup_staged_shrinks _ _)) as R4.
  destruct (vw_staging _ _ _ _ _ Hvw) as (sr & Hsr & As & Hsi). rewrite Hsr, bind_lift_Ok in Hk.
  apply bind_inv in Hk as (fs5 & g5 & H5 & Hk). destruct g5; [|done]. cbn [negb] in Hk.
  pose proof (run_keeps _ _ _ _ _ H5 (keeps_remove_directory_shrinks _ _)) as R5.
  apply bind_inv in Hk as (fs6 & g6 & H6 & Hk). destruct g6; [|done]. injection Hk as <-.
  unfold remove_dump_manifest in H6. apply bind_inv in H6 as (fs7 & [] & H7 & H6).
  pose proof (run_keeps _ _ _ _ _ H7 (keeps_remove_if_identity_shrinks _ _)) as R7.
  apply bind_lift_inv in H6 as (id & _ & H6).
  pose proof (run_keeps _ _ _ _ _ H6 (keeps_temp_manifest_shrinks _ _)) as R6.
  assert (removes_only (fun _ _ => True) fs2 fs3) as R23 by (by eapply removes_only_weaken; [|exact R3]).
  assert (removes_only (fun _ _ => True) fs2 fs4) as R24 by (etrans; [exact R23|exact R4]).
  assert (removes_only (fun _ _ => True) fs2 fs5) as R25 by (etrans; [exact R24|exact R5]).
  assert (removes_only (fun _ _ => True) fs5 fs6) as R56 by (etrans; [exact R7|exact R6]).
  assert (removes_only (fun _ _ => True) fs4 fs6) as R46 by (etrans; [exact R5|exact R56]).
  assert (removes_only (fun _ _ => True) fs2 fs6) as R26 by (etrans; [exact R25|exact R56]).
  destruct (vw_entries _ _ _ _ _ Hvw) as (es' & Hes' & HF). assert (es' = es) as -> by congruence.
  split; [|split; [|split]].
  - intros (k & i & n & Hk & Hn & Hdir & Hi). rewrite Ekd in Hk. injection Hk as <- ->.
    rewrite (Hblock n) in Hdir; [done| |by rewrite Hi]. eapply lookup_weaken; [exact Hn|by eapply removes_only_subset].
  - assert (Forall2 (views_entry (tree fs3) m) es (v_entries V)) as HF3 by by rewrite (reads_only_tree _ _ R3).
    pose proof (cleanup_staged_gone _ _ _ _ _ H4 ltac:(by apply R23) HF3) as Hg.
    eapply Forall_impl; [exact Hg|]. intros v Hgv.
    eapply gone_subset; [eapply removes_only_subset; exact R46|exact Hgv].
  - rewrite Hsi in H5. apply (directory_gone _ _ _ _ _ (at_names_step _ _ _ _ _ R24 As)) in H5.
    eapply gone_subset; [eapply removes_only_subset; exact R56|exact H5].
  - destruct (vw_manifest _ _ _ _ _ Hvw) as [Am Hm].
    apply (remove_if_identity_spec _ _ _ _ _ _ (at_names_step _ _ _ _ _ R25 Am)) in H7 as [_ H7].
    intros n Hn. apply H7; [done|]. eapply lookup_weaken; [exact Hn|]. eapply removes_only_subset; exact R6.
Qed.
End recovery.
