(* ===== verification/FileWrites.v ===== *)
(** * Calls that change the file system (openat, write, renameat2, unlinkat)

    Publication works through the descriptors of directories. The descriptor of
    a node is the node as it was when it was opened; a directory is found again
    by its identity, wherever it has been moved. The kernel chooses the identity
    of a new file and how many bytes of a buffer one write takes: the class
    [Kernel]. As for every call, a call that fails has no effect. *)
From Stdlib Require Import Ascii.
From S2P Require Import Prelude.
From S2P Require Import Errors.
From S2P Require Import Paths.
From S2P Require Import FileSystem.

Class Kernel := {
  new_identity : gmap Key Node -> FileIdentity;
  accepted : string -> nat;
}.

(** A new file gets an identity that no node has; a write that succeeds takes
    at least one byte. *)
Class KernelLaws `{Kernel} : Prop := {
  new_identity_fresh nodes k n : nodes !! k = Some n -> identity_from_metadata n <> new_identity nodes;
  accepted_positive data : data <> "" -> accepted data <> 0%nat;
}.

(** ** Descriptors of directories *)

Definition is_directory (i : FileIdentity) (x : Key * Node) : bool :=
  is_dir x.2 && bool_decide (identity_from_metadata x.2 = i).

Definition directory_key (nodes : gmap Key Node) (i : FileIdentity) : option Key :=
  option_map fst (List.find (is_directory i) (map_to_list nodes)).

(** A name is walked from the directory; the last component is not followed. *)
Definition resolve_at (dir : Node) (name : string) (fs : FileSystem) : outcome IoError Key :=
  if negb (is_dir dir) then Err NotADirectory
  else if String.eqb name "" then Err NotFound
  else match directory_key (tree fs) (identity_from_metadata dir) with
       | Some key => walk (tree fs) MAXSYMLINKS false key (os_components name)
       | None => Err NotFound
       end.

Definition lookup_in (fs : FileSystem) (dir : Node) (name : string) : outcome IoError (Key * Node) :=
  let? key := resolve_at dir name fs in
  match tree fs !! key with Some n => Ok (key, n) | None => Err NotFound end.

Definition find_at (dir : Node) (name : string) : FS (Key * Node) :=
  let! fs := get in lift (lookup_in fs dir name).

(** [openat] with [O_RDONLY | O_NOFOLLOW] *)
Definition openat (dir : Node) (name : string) : FS Node :=
  syscall (let! x := find_at dir name in
           if is_symlink x.2 then fail FilesystemLoop else ret x.2).

Section kernel.
Context `{Kernel}.

Definition insert_node (key : Key) (n : Node) (fs : FileSystem) : FileSystem :=
  fs <| tree ::= insert key n |> <| effects ::= cons (Created key (identity_from_metadata n)) |>.

(** [openat] with [O_WRONLY | O_CREAT | O_EXCL | O_NOFOLLOW] *)
Definition openat_create (dir : Node) (name : string) : FS Node :=
  syscall (let! fs := get in
           let! key := lift (resolve_at dir name fs) in
           match tree fs !! key with
           | Some _ => fail AlreadyExists
           | None =>
               let n := mkNode (new_identity (tree fs)) (RegularFile "") in
               modify (insert_node key n) ;; ret n
           end).

(** The node after [data] has been appended to the file with identity [i]. *)
Definition append_content (i : FileIdentity) (data : string) (n : Node) : Node :=
  match node_kind n with
  | RegularFile content =>
      if decide (identity_from_metadata n = i) then mkNode i (RegularFile (content +:+ data)) else n
  | _ => n
  end.

Definition append_file (i : FileIdentity) (data : string) (fs : FileSystem) : FileSystem :=
  fs <| tree ::= fmap (append_content i data) |> <| effects ::= cons (Written i) |>.

(** [File::write] to a file that this descriptor created and alone writes, so
    that the offset is the end of the file. Returns the bytes taken. *)
Definition write (file : Node) (data : string) : FS nat :=
  syscall (let taken := String.substring 0 (accepted data) data in
           modify (append_file (identity_from_metadata file) taken) ;;
           ret (String.length taken)).

(** [Write::write_all]; its state is what is left to write. *)
Definition write_turn (file : Node) (rest : string) : FS (string + unit) :=
  if String.eqb rest "" then ret (inr tt)
  else
    let! n := write file rest in
    if Nat.eqb n 0 then fail WriteZero
    else ret (inl (String.substring n (String.length rest - n) rest)).

Definition write_all (file : Node) (data : string) : FS unit := mloop (write_turn file) data.
End kernel.

(** [unlinkat] of a file *)
Definition unlinkat (dir : Node) (name : string) : FS unit :=
  syscall (let! x := find_at dir name in
           if is_dir x.2 then fail IsADirectory else modify (remove_key x.1 x.2)).

(** ** Renaming *)

Inductive RenameFlags := RENAME_NOREPLACE | RENAME_EXCHANGE.

(** Where the node at [key] is once what is at [a] and what is at [b] have
    changed places. *)
Definition exchanged (a b key : Key) : Key :=
  if decide (a `prefix_of` key) then b ++ drop (length a) key
  else if decide (b `prefix_of` key) then a ++ drop (length b) key
  else key.

Definition moved (a b : Key) (nodes : gmap Key Node) : gmap Key Node := kmap (exchanged a b) nodes.

Definition move_keys (a b : Key) (fs : FileSystem) : FileSystem :=
  fs <| tree ::= moved a b |> <| effects ::= cons (Renamed a b) |>.

(** [renameat2] of two names in one directory. Nothing lies at [b] when it may
    not be replaced. *)
Definition renameat2 (dir : Node) (old new : string) (flags : RenameFlags) : FS unit :=
  syscall (let! fs := get in
           let! (a, _) := lift (lookup_in fs dir old) in
           let! b := lift (resolve_at dir new fs) in
           match flags, tree fs !! b with
           | RENAME_NOREPLACE, Some _ => fail AlreadyExists
           | RENAME_EXCHANGE, None => fail NotFound
           | _, _ =>
               if bool_decide (a <> b /\ (a `prefix_of` b \/ b `prefix_of` a))
               then fail (InvalidInput "Invalid argument")
               else modify (move_keys a b)
           end).

(** [File::open]: symbolic links are followed. *)
Definition open_file (path : string) : FS Node :=
  syscall (let! x := find_node true path in ret x.2).

(** ** Calls as equations *)

(** No two directories have the same identity. *)
Definition dirs_unique (nodes : gmap Key Node) : Prop :=
  forall k k' n n', nodes !! k = Some n -> nodes !! k' = Some n' -> is_dir n = true -> is_dir n' = true ->
  identity_from_metadata n = identity_from_metadata n' -> k = k'.

(** [dir] is the descriptor of the directory at [key] of a sound tree. *)
Record opened (nodes : gmap Key Node) (dir : Node) (key : Key) : Prop := mkOpened {
  op_dir : is_dir dir = true;
  op_node : nodes !! key = Some dir;
  op_unique : dirs_unique nodes;
  op_wf : wf_tree nodes;
}.

Lemma directory_key_opened nodes dir key : opened nodes dir key ->
  directory_key nodes (identity_from_metadata dir) = Some key.
Proof.
  intros [Hd Hn Hu _]. unfold directory_key.
  destruct (List.find _ _) as [[k n]|] eqn:E.
  - apply find_some in E as [Hin Hk]. apply list_elem_of_In, elem_of_map_to_list in Hin.
    unfold is_directory in Hk. cbn in Hk. apply andb_prop in Hk as [Hk Hi]. apply bool_decide_eq_true in Hi.
    cbn. f_equal. by eapply Hu.
  - exfalso. pose proof (find_none _ _ E (key, dir)) as H. unfold is_directory in H. cbn in H.
    rewrite Hd, bool_decide_eq_true_2 in H by done.
    assert (true = false) as Hf; [|done]. by apply H, list_elem_of_In, elem_of_map_to_list.
Qed.

Lemma name_components x : normal_name x -> os_components x = [Normal x].
Proof.
  intros (H1 & H2 & H3 & Hs). unfold os_components. rewrite split_slash_whole by done. cbn [map].
  assert (is_absolute x = false) as ->.
  { unfold is_absolute. destruct x as [|c x]; [done|]. rewrite contains_cons, orb_false_iff in Hs.
    cbn. rewrite Ascii.eqb_sym. apply Hs. }
  apply String.eqb_neq in H1, H2, H3. unfold os_part. by rewrite H1, H2, H3.
Qed.

Lemma resolve_at_name fs dir key x : opened (tree fs) dir key -> normal_name x ->
  resolve_at dir x fs = Ok (key ++ [x]).
Proof.
  intros Ho Hx. unfold resolve_at. rewrite (op_dir _ _ _ Ho). cbn [negb].
  rewrite (proj2 (String.eqb_neq x "")) by apply Hx.
  rewrite (directory_key_opened _ _ _ Ho), (name_components x Hx). done.
Qed.

Lemma lookup_in_name fs dir key x : opened (tree fs) dir key -> normal_name x ->
  lookup_in fs dir x = match tree fs !! (key ++ [x]) with Some n => Ok (key ++ [x], n) | None => Err NotFound end.
Proof. intros Ho Hx. unfold lookup_in. by rewrite (resolve_at_name _ _ _ _ Ho Hx). Qed.

Lemma opened_next fs dir key : opened (tree fs) dir key -> opened (tree (next fs)) dir key.
Proof. done. Qed.

Lemma openat_run fs dir key x : opened (tree fs) dir key -> normal_name x ->
  openat dir x fs =
    (next fs, if fault_now fs then Err Fault
              else match tree fs !! (key ++ [x]) with
                   | None => Err NotFound
                   | Some n => if is_symlink n then Err FilesystemLoop else Ok n
                   end).
Proof.
  intros Ho Hx. unfold openat. rewrite syscall_run. destruct (fault_now fs); [done|].
  unfold find_at. rewrite bind_bind, bind_get. unfold bind, lift.
  rewrite (lookup_in_name (next fs) _ _ _ Ho Hx), next_tree.
  destruct (tree fs !! (key ++ [x])) as [n|]; [|done]. cbn. by destruct (is_symlink n).
Qed.

Lemma unlinkat_run fs dir key x : opened (tree fs) dir key -> normal_name x ->
  unlinkat dir x fs =
    if fault_now fs then (next fs, Err Fault)
    else match tree fs !! (key ++ [x]) with
         | None => (next fs, Err NotFound)
         | Some n => if is_dir n then (next fs, Err IsADirectory) else (remove_key (key ++ [x]) n (next fs), Ok tt)
         end.
Proof.
  intros Ho Hx. unfold unlinkat. rewrite syscall_run. destruct (fault_now fs); [done|].
  unfold find_at. rewrite bind_bind, bind_get. unfold bind, lift.
  rewrite (lookup_in_name (next fs) _ _ _ Ho Hx), next_tree.
  destruct (tree fs !! (key ++ [x])) as [n|]; [|done]. cbn. by destruct (is_dir n).
Qed.

Lemma openat_create_run `{Kernel} fs dir key x : opened (tree fs) dir key -> normal_name x ->
  openat_create dir x fs =
    if fault_now fs then (next fs, Err Fault)
    else match tree fs !! (key ++ [x]) with
         | Some _ => (next fs, Err AlreadyExists)
         | None => let n := mkNode (new_identity (tree fs)) (RegularFile "") in
                   (insert_node (key ++ [x]) n (next fs), Ok n)
         end.
Proof.
  intros Ho Hx. unfold openat_create. rewrite syscall_run. destruct (fault_now fs); [done|].
  rewrite bind_get, (resolve_at_name (next fs) _ _ _ Ho Hx), bind_lift_Ok, next_tree.
  by destruct (tree fs !! (key ++ [x])).
Qed.

(** Two names of one directory. *)
Lemma sibling_prefix (key : Key) x y : x <> y -> ~ (key ++ [x]) `prefix_of` (key ++ [y]).
Proof.
  intros Hxy H%prefix_app_inv. apply prefix_cons_inv_1 in H. done.
Qed.

Lemma renameat2_run fs dir key x y flags : opened (tree fs) dir key -> normal_name x -> normal_name y -> x <> y ->
  renameat2 dir x y flags fs =
    if fault_now fs then (next fs, Err Fault)
    else match tree fs !! (key ++ [x]), flags, tree fs !! (key ++ [y]) with
         | None, _, _ => (next fs, Err NotFound)
         | Some _, RENAME_NOREPLACE, Some _ => (next fs, Err AlreadyExists)
         | Some _, RENAME_EXCHANGE, None => (next fs, Err NotFound)
         | Some _, _, _ => (move_keys (key ++ [x]) (key ++ [y]) (next fs), Ok tt)
         end.
Proof.
  intros Ho Hx Hy Hxy. unfold renameat2. rewrite syscall_run. destruct (fault_now fs); [done|].
  rewrite bind_get. unfold bind at 1, lift at 1. rewrite (lookup_in_name (next fs) _ _ _ Ho Hx), next_tree.
  destruct (tree fs !! (key ++ [x])) as [n|]; [|done].
  rewrite (resolve_at_name (next fs) _ _ _ Ho Hy), bind_lift_Ok, ?next_tree.
  assert (bool_decide (key ++ [x] <> key ++ [y] /\
    (key ++ [x] `prefix_of` key ++ [y] \/ key ++ [y] `prefix_of` key ++ [x])) = false) as ->.
  { apply bool_decide_eq_false. intros [_ [H|H]]; by eapply sibling_prefix; [|exact H]; congruence. }
  by destruct flags, (tree fs !! (key ++ [y])).
Qed.

(** ** Trees after a change *)

(** Neither of two places lies in the other. *)
Definition apart (a b : Key) : Prop := ~ a `prefix_of` b /\ ~ b `prefix_of` a.

Lemma siblings_apart (key : Key) x y : x <> y -> apart (key ++ [x]) (key ++ [y]).
Proof. intros H. split; by apply sibling_prefix. Qed.

Lemma exchanged_left (a b s : Key) : exchanged a b (a ++ s) = b ++ s.
Proof. unfold exchanged. rewrite decide_True by by apply prefix_app_r. by rewrite drop_app_length. Qed.

Lemma exchanged_right (a b : Key) s : apart a b -> exchanged a b (b ++ s) = a ++ s.
Proof.
  intros [Hab Hba]. unfold exchanged. rewrite decide_False; [|].
  - rewrite decide_True by by apply prefix_app_r. by rewrite drop_app_length.
  - intros H. destruct (prefix_weak_total a b (b ++ s)) as [?|?]; [done|by apply prefix_app_r|done|done].
Qed.

Lemma exchanged_at_left (a b : Key) : exchanged a b a = b.
Proof. pose proof (exchanged_left a b []) as H. by rewrite !app_nil_r in H. Qed.
Lemma exchanged_at_right (a b : Key) : apart a b -> exchanged a b b = a.
Proof. intros Hab. pose proof (exchanged_right a b [] Hab) as H. by rewrite !app_nil_r in H. Qed.

Lemma exchanged_other (a b : Key) k : ~ a `prefix_of` k -> ~ b `prefix_of` k -> exchanged a b k = k.
Proof. intros Ha Hb. unfold exchanged. by rewrite !decide_False. Qed.

Lemma exchanged_involutive (a b : Key) k : apart a b -> exchanged a b (exchanged a b k) = k.
Proof.
  intros Hab. destruct (decide (a `prefix_of` k)) as [[s ->]|Ha].
  { by rewrite exchanged_left, exchanged_right. }
  destruct (decide (b `prefix_of` k)) as [[s ->]|Hb].
  { by rewrite exchanged_right, exchanged_left. }
  by rewrite !(exchanged_other a b k) by done.
Qed.

Lemma exchanged_inj (a b : Key) : apart a b -> Inj (=) (=) (exchanged a b).
Proof. intros Hab k k' H. by rewrite <-(exchanged_involutive a b k Hab), H, exchanged_involutive. Qed.

Lemma lookup_moved (a b : Key) (nodes : gmap Key Node) k : apart a b ->
  moved a b nodes !! k = nodes !! exchanged a b k.
Proof.
  intros Hab. pose proof (exchanged_inj a b Hab). unfold moved. rewrite <-(exchanged_involutive a b k Hab) at 1.
  apply (lookup_kmap (M2 := gmap Key) (exchanged a b)).
Qed.

(** A change that keeps the directory [key] open. *)
Lemma exchanged_key (key : Key) x y : exchanged (key ++ [x]) (key ++ [y]) key = key.
Proof. apply exchanged_other; intros H%prefix_length; rewrite length_app in H; cbn in H; lia. Qed.

Lemma moved_wf (key : Key) x y nodes : x <> y -> wf_tree nodes ->
  wf_tree (moved (key ++ [x]) (key ++ [y]) nodes).
Proof.
  intros Hxy Hw k name. pose proof (siblings_apart key x y Hxy) as Hab.
  rewrite !lookup_moved by done. set (a := key ++ [x]) in *. set (b := key ++ [y]) in *.
  assert (exchanged a b key = key) as Hkey by apply exchanged_key. intros Hn.
  destruct (decide (k ++ [name] = a)) as [E|Ha].
  { rewrite E in Hn. rewrite exchanged_at_left in Hn.
    apply app_inj_tail in E as [-> _]. rewrite Hkey. by eapply Hw. }
  destruct (decide (k ++ [name] = b)) as [E|Hb].
  { rewrite E in Hn. rewrite exchanged_at_right in Hn by done.
    apply app_inj_tail in E as [-> _]. rewrite Hkey. by eapply Hw. }
  enough (exchanged a b (k ++ [name]) = exchanged a b k ++ [name]) as E by (rewrite E in Hn; by eapply Hw).
  destruct (decide (a `prefix_of` k)) as [[s ->]|Hak].
  { by rewrite <-app_assoc, !exchanged_left, <-app_assoc. }
  destruct (decide (b `prefix_of` k)) as [[s ->]|Hbk].
  { by rewrite <-app_assoc, !exchanged_right, <-app_assoc. }
  rewrite (exchanged_other a b k) by done. apply exchanged_other; intros [s Hs]; destruct s as [|z s _] using rev_ind.
  1,3: rewrite app_nil_r in Hs; by symmetry in Hs.
  all: rewrite app_assoc in Hs; apply app_inj_tail in Hs as [Hs _].
  - apply Hak. rewrite Hs. by apply prefix_app_r.
  - apply Hbk. rewrite Hs. by apply prefix_app_r.
Qed.

Lemma opened_moved (key : Key) x y nodes dir : x <> y -> opened nodes dir key ->
  opened (moved (key ++ [x]) (key ++ [y]) nodes) dir key.
Proof.
  intros Hxy [Hd Hn Hu Hw]. pose proof (siblings_apart key x y Hxy) as Hab. constructor.
  - done.
  - rewrite lookup_moved by done. by rewrite exchanged_key.
  - intros k k' n n'. rewrite !lookup_moved by done. intros H1 H2 H3 H4 H5.
    apply (exchanged_inj _ _ Hab). by eapply Hu.
  - by apply moved_wf.
Qed.

Lemma opened_insert (key : Key) x nodes dir n : opened nodes dir key -> is_dir n = false ->
  leaf nodes (key ++ [x]) -> opened (<[key ++ [x] := n]> nodes) dir key.
Proof.
  intros [Hd Hn Hu Hw] Hf Hl. assert (key ++ [x] <> key) as Hk.
  { intros E. apply (f_equal length) in E. rewrite length_app in E. cbn in E. lia. }
  constructor; [done|by rewrite lookup_insert_ne| |].
  - intros k k' m m' H1 H2 H3 H4. destruct (decide (key ++ [x] = k)) as [<-|].
    { rewrite lookup_insert_eq in H1. congruence. }
    destruct (decide (key ++ [x] = k')) as [<-|]; [rewrite lookup_insert_eq in H2; congruence|].
    rewrite lookup_insert_ne in H1, H2 by done. by eapply Hu.
  - intros k name Hne. destruct (decide (key ++ [x] = k ++ [name])) as [E|E].
    + apply app_inj_tail in E as [<- <-]. exists dir. by rewrite lookup_insert_ne.
    + rewrite lookup_insert_ne in Hne by done. destruct (Hw _ _ Hne) as (d & H1 & H2).
      destruct (decide (key ++ [x] = k)) as [<-|]; [by rewrite Hl in Hne|]. exists d. by rewrite lookup_insert_ne.
Qed.

Lemma opened_delete (key : Key) x nodes dir : opened nodes dir key -> leaf nodes (key ++ [x]) ->
  opened (delete (key ++ [x]) nodes) dir key.
Proof.
  intros [Hd Hn Hu Hw] Hl. assert (key ++ [x] <> key) as Hk.
  { intros E. apply (f_equal length) in E. rewrite length_app in E. cbn in E. lia. }
  constructor; [done|by rewrite lookup_delete_ne| |by apply wf_delete].
  intros k k' m m' H1 H2. apply lookup_delete_Some in H1 as [_ H1]. apply lookup_delete_Some in H2 as [_ H2]. by eapply Hu.
Qed.

(** Nothing lies below a free name. *)
Lemma free_leaf nodes k : wf_tree nodes -> nodes !! k = None -> leaf nodes k.
Proof.
  intros Hw Hn name. destruct (nodes !! (k ++ [name])) eqn:E; [|done].
  destruct (Hw k name) as (d & Hk & _); [by rewrite E|]. congruence.
Qed.

(** ** What every call keeps *)

Record later (fs fs' : FileSystem) : Prop := mkLater {
  la_directory : working_directory fs' = working_directory fs;
  la_effects : exists l, effects fs' = l ++ effects fs;
  la_faults : exists l, faults fs = l ++ faults fs';
}.

#[export] Instance later_preorder : PreOrder later.
Proof.
  split.
  - intros fs. constructor; [done|by exists []|by exists []].
  - intros fs1 fs2 fs3 [D1 [l1 E1] [f1 F1]] [D2 [l2 E2] [f2 F2]]. constructor; [congruence| |].
    + exists (l2 ++ l1). by rewrite E2, E1, app_assoc.
    + exists (f1 ++ f2). by rewrite F1, F2, app_assoc.
Qed.

Lemma removes_later P fs fs' : removes_only P fs fs' -> later fs fs'.
Proof. by intros [_ D E F _]. Qed.

Lemma next_later fs : later fs (next fs).
Proof. eapply removes_later, (next_removes (fun _ _ => False)). Qed.

Lemma later_no_faults fs fs' : later fs fs' -> faults fs = [] -> faults fs' = [].
Proof. intros [_ _ [l H]] Hf. rewrite Hf in H. by destruct l, (faults fs'). Qed.

(** A step after [next] that only logs one effect. *)
Lemma logs_later fs fs' e : working_directory fs' = working_directory fs -> effects fs' = e :: effects fs ->
  faults fs' = faults fs -> later fs fs'.
Proof. intros H1 H2 H3. constructor; [done|by exists [e]|by exists []]. Qed.

Lemma insert_later key n fs : later fs (insert_node key n fs).
Proof. by eapply logs_later. Qed.
Lemma append_later i data fs : later fs (append_file i data fs).
Proof. by eapply logs_later. Qed.
Lemma move_later a b fs : later fs (move_keys a b fs).
Proof. by eapply logs_later. Qed.
Lemma remove_later k n fs : later fs (remove_key k n fs).
Proof. by eapply logs_later. Qed.
Lemma synced_later i fs : later fs (synced i fs).
Proof. by eapply logs_later. Qed.

(** ** Writing a file *)

(** [i] is the identity of the node at [key] alone. *)
Definition only_at (nodes : gmap Key Node) (i : FileIdentity) (key : Key) : Prop :=
  forall k n, nodes !! k = Some n -> identity_from_metadata n = i -> k = key.

Lemma append_tree nodes i key content data : only_at nodes i key ->
  nodes !! key = Some (mkNode i (RegularFile content)) ->
  append_content i data <$> nodes = <[key := mkNode i (RegularFile (content +:+ data))]> nodes.
Proof.
  intros Ho Hn. apply map_eq. intros k. rewrite lookup_fmap. destruct (decide (key = k)) as [<-|Hk].
  - rewrite Hn, lookup_insert_eq. cbn. unfold append_content. cbn. by rewrite decide_True.
  - rewrite lookup_insert_ne by done. destruct (nodes !! k) as [n|] eqn:E; [|done]. cbn. f_equal.
    unfold append_content. destruct (node_kind n) eqn:En; try done. rewrite decide_False; [done|].
    intros Hi. apply Hk. symmetry. by eapply Ho.
Qed.

Lemma substring_split n s : String.substring 0 n s +:+ String.substring n (String.length s - n) s = s.
Proof.
  revert n. induction s as [|c s IH]; intros n; [by destruct n|]. destruct n as [|n].
  - rewrite Nat.sub_0_r. change (String.substring 0 0 (String c s)) with "". rewrite string_nil_app.
    clear IH. assert (forall s', String.substring 0 (String.length s') s' = s') as H; [|by apply H].
    intros s'. induction s' as [|d s' IH]; [done|]. cbn. by rewrite IH.
  - cbn. rewrite string_cons_app. by rewrite IH.
Qed.

Lemma substring_taken n s : String.length (String.substring 0 n s) = Nat.min n (String.length s).
Proof. revert n. induction s as [|c s IH]; intros [|n]; cbn; [done..|]. by rewrite IH. Qed.

Lemma substring_whole n s : (String.length s <= n)%nat -> String.substring 0 n s = s.
Proof.
  revert n. induction s as [|c s IH]; intros [|n] H; cbn in *; [done|done|lia|]. rewrite IH; [done|lia].
Qed.

(** What was taken and what is left make up the buffer. *)
Lemma taken_split n s :
  let taken := String.length (String.substring 0 n s) in
  String.substring 0 n s +:+ String.substring taken (String.length s - taken) s = s.
Proof.
  cbn. rewrite substring_taken. destruct (Nat.le_ge_cases n (String.length s)) as [H|H].
  - rewrite Nat.min_l by done. apply substring_split.
  - rewrite Nat.min_r by done. rewrite (substring_whole n s) by done.
    rewrite <-(substring_whole (String.length s) s) at 1 by done. apply substring_split.
Qed.

(** The file gets a prefix of the data, and all of it on success. *)
Record appended (i : FileIdentity) (key : Key) (content data : string) (fs fs' : FileSystem) : Prop := mkAppended {
  ap_tree : tree fs' = <[key := mkNode i (RegularFile (content +:+ data))]> (tree fs);
  ap_later : later fs fs';
}.

(** One turn of [write_all], which has written [w] so far. *)
Lemma write_turn_spec `{Kernel} file i key content data fs q rest w :
  identity_from_metadata file = i -> only_at (tree fs) i key ->
  appended i key content w fs q -> w +:+ rest = data ->
  match write_turn file rest q with
  | (q', Ok (inl rest')) =>
      (exists w', appended i key content w' fs q' /\ w' +:+ rest' = data) /\ 0 <= slen rest' < slen rest
  | (q', Ok (inr tt)) => exists w', appended i key content w' fs q' /\ w' = data
  | (q', Err _) => exists w', appended i key content w' fs q'
  | (q', Panic) => False
  end.
Proof.
  intros Hf Ho [Ht Hl] Hw. unfold write_turn. destruct (String.eqb_spec rest "") as [->|Hr].
  { cbn. exists w. rewrite string_app_nil in Hw. split; [by constructor|done]. }
  unfold bind at 1, write. rewrite syscall_run. destruct (fault_now q).
  { exists w. constructor; [done|]. etrans; [exact Hl|apply next_later]. }
  rewrite bind_modify, Hf. cbn [ret]. set (taken := String.substring 0 (accepted rest) rest).
  assert (appended i key content (w +:+ taken) fs (append_file i taken (next q))) as Ha.
  { constructor.
    - cbn. rewrite Ht.
      rewrite (append_tree _ i key (content +:+ w) taken); [by rewrite insert_insert_eq, string_app_assoc| |by rewrite lookup_insert_eq].
      intros k n Hk Hi. destruct (decide (key = k)) as [->|]; [done|]. rewrite lookup_insert_ne in Hk by done. by eapply Ho.
    - etrans; [exact Hl|]. etrans; [apply next_later|apply append_later]. }
  pose proof (taken_split (accepted rest) rest) as Hsplit. cbv zeta in Hsplit. fold taken in Hsplit.
  destruct (Nat.eqb_spec (String.length taken) 0) as [Hz|Hz]; cbn [fail ret]; [by exists (w +:+ taken)|].
  split; [exists (w +:+ taken); split; [done|by rewrite string_app_assoc, Hsplit]|].
  split; [apply slen_nonneg|]. apply (f_equal slen) in Hsplit. rewrite slen_app in Hsplit. unfold slen in Hsplit at 1. lia.
Qed.

Lemma write_all_loop `{Kernel} file data : write_all file data = mloop (write_turn file) data.
Proof. reflexivity. Qed.

Lemma write_all_spec `{Kernel} file i key content data fs fs' o :
  identity_from_metadata file = i -> tree fs !! key = Some (mkNode i (RegularFile content)) ->
  only_at (tree fs) i key -> slen data <= u64_max -> write_all file data fs = (fs', o) ->
  exists w, appended i key content w fs fs' /\ (o = Ok tt -> w = data) /\ o <> Panic.
Proof.
  intros Hf Hn Ho Hlen Hrun.
  destruct (mloop_rule (write_turn file)
    (fun q rest => exists w, appended i key content w fs q /\ w +:+ rest = data)
    (fun _ rest => slen rest)
    (fun q r => exists w, appended i key content w fs q /\ (r = Ok tt -> w = data) /\ r <> Panic))
    with (s := fs) (l := data) as (fs2 & o2 & H1 & H2); [| |exact Hlen|].
  - intros q rest (w & Ha & Hw). pose proof (write_turn_spec _ _ _ _ _ _ _ _ _ Hf Ho Ha Hw) as H2.
    destruct (write_turn file rest q) as [q' [[rest'|[]]|e|]]; [exact H2| | |done].
    + destruct H2 as (w' & H2 & ->). by exists data.
    + destruct H2 as (w' & H2). by exists w'.
  - exists "". split; [|done]. constructor; [|reflexivity]. rewrite string_app_nil, insert_id; done.
  - rewrite write_all_loop, H1 in Hrun. injection Hrun as <- <-. exact H2.
Qed.

Lemma appended_opened i key content data fs fs' dir d x : appended i key content data fs fs' -> key = d ++ [x] ->
  tree fs !! key = Some (mkNode i (RegularFile content)) -> opened (tree fs) dir d -> opened (tree fs') dir d.
Proof.
  intros [-> _] -> Hn Ho. apply opened_insert; [done|done|]. eapply file_leaf; [apply Ho|exact Hn|done].
Qed.

Lemma write_all_no_faults `{KernelLaws} file data fs : faults fs = [] -> slen data <= u64_max ->
  exists fs', write_all file data fs = (fs', Ok tt).
Proof.
  intros Hf Hlen.
  destruct (mloop_rule (write_turn file) (fun q _ => faults q = []) (fun _ rest => slen rest) (fun _ r => r = Ok tt))
    with (s := fs) (l := data) as (fs2 & o2 & H1 & ->); [|exact Hf|exact Hlen|exists fs2; by rewrite write_all_loop].
  intros q rest Hq. unfold write_turn. destruct (String.eqb_spec rest "") as [->|Hr]; [done|].
  unfold bind at 1, write. rewrite syscall_run, no_fault_now by done. rewrite bind_modify. cbn [ret].
  set (taken := String.substring 0 (accepted rest) rest).
  pose proof (taken_split (accepted rest) rest) as Hsplit. cbv zeta in Hsplit. fold taken in Hsplit.
  assert (String.length taken <> 0%nat) as Hz.
  { unfold taken. rewrite substring_taken. pose proof (accepted_positive rest Hr). destruct rest; [done|]. cbn [String.length]. lia. }
  destruct (Nat.eqb_spec (String.length taken) 0) as [|_]; [done|]. cbn [ret].
  split; [cbn; by rewrite Hq|]. split; [apply slen_nonneg|].
  apply (f_equal slen) in Hsplit. rewrite slen_app in Hsplit. unfold slen in Hsplit at 1. lia.
Qed.

(** ** Opening a directory by its path *)

Lemma walk_directory nodes links l names dir : spells l names ->
  (forall p, p `prefix_of` names -> p <> [] -> exists n, nodes !! (dir ++ p) = Some n /\ is_dir n = true) ->
  walk nodes links true dir l = Ok (dir ++ names).
Proof.
  intros Hs. revert dir. induction Hs as [|l names Hs IH|l names name Hs IH]; intros dir Hd.
  - destruct links; cbn; by rewrite app_nil_r.
  - specialize (IH dir Hd). by destruct links.
  - destruct (Hd [name]) as (n & Hn & Hdir); [by apply prefix_cons, prefix_nil|done|].
    assert (walk nodes links true (dir ++ [name]) l = Ok (dir ++ name :: names)) as Hw.
    { rewrite (IH (dir ++ [name])); [by rewrite <-app_assoc|]. intros p Hp Hne. rewrite <-app_assoc. cbn [app].
      apply Hd; [by apply prefix_cons|done]. }
    unfold is_dir in Hdir. destruct links; cbn [walk]; rewrite andb_false_r, Hn; by destruct (node_kind n).
Qed.

Lemma open_file_directory fs fs' path names d n :
  canonical path names -> wf_tree (tree fs) -> tree fs !! names = Some d -> is_dir d = true ->
  open_file path fs = (fs', Ok n) -> n = d.
Proof.
  intros Hc Hw Hd Hdir. unfold open_file. rewrite syscall_run. destruct (fault_now fs); [done|].
  unfold find_node. rewrite bind_bind, bind_get. unfold resolve. rewrite next_tree.
  destruct (contains nul path); [done|]. destruct (String.eqb_spec path "") as [->|]; [by destruct names|].
  destruct (canonical_os _ _ Hc) as (l & Hl & Hs). rewrite Hl.
  assert (walk (tree fs) MAXSYMLINKS true (working_directory (next fs)) (RootDir :: l) =
          walk (tree fs) MAXSYMLINKS true [] l) as -> by done.
  rewrite (walk_directory _ _ _ names []); [|done|].
  - rewrite bind_bind, bind_lift_Ok. cbn [app]. change (tree (next fs)) with (tree fs). rewrite Hd. by intros [= _ <-].
  - intros p [q Hq] _. cbn [app]. destruct q as [|x q].
    + rewrite app_nil_r in Hq. subst p. by exists d.
    + destruct (wf_prefix (tree fs) p (x :: q) Hw) as (e & He & Hed); [by rewrite <-Hq, Hd|done|by exists e].
Qed.
