(* ===== verification/ManifestStore.v ===== *)
(** * Writing a manifest (src/recovery.rs, src/export_wav.rs)

    A manifest is replaced as a whole: its text is written to a new file beside
    it and synchronized, and then takes the manifest's name in one rename. The
    writer remembers the identity of the manifest that it wrote last and refuses
    any other. Theorem: whatever calls fail, the manifest's name holds the old
    manifest or the complete new one, no other name is touched, and a manifest
    that is not the writer's own stays. *)
From Stdlib Require Import Ascii.
From S2P Require Import Prelude.
From S2P Require Import Errors.
From S2P Require Import Paths.
From S2P Require Import FileSystem.
From S2P Require Import FileWrites.
From S2P Require Import Manifest.
From S2P Require Import ManifestJson.
From S2P Require Import Recovery.

(** The file system with [current_manifest_identity]. *)
Record Store := mkStore { files : FileSystem; current_manifest : option FileIdentity }.

#[export] Instance Store_eta : Eta Store := fun r => mkStore (files r) (current_manifest r).

Abbreviation W := (M Store LambError).

Definition on_files {A} (m : R A) : W A := fun s => let (fs, o) := m (files s) in (s <| files := fs |>, o).

(** ** Files beside the manifest *)

Definition open_regular_at (parent : Node) (name : string) : FS Node :=
  let! file := openat parent name in
  let! md := file_metadata file in
  if is_file md then ret file else fail (InvalidInput "manifest is not a regular file").

Definition identity_at (parent : Node) (name display : string) : R FileIdentity :=
  let! file := io display (open_regular_at parent name) in
  let! md := io display (file_metadata file) in
  ret (identity_from_metadata md).

Definition unlink_if_identity_at (parent : Node) (name : string) (expected : FileIdentity) (display : string) : R unit :=
  let! i := identity_at parent name display in
  fail_if (negb (bool_decide (i = expected))) (Validation "refusing to remove identity-changed manifest temporary") ;;
  io display (unlinkat parent name).

Definition rename_at (parent : Node) (source destination : string) (flags : RenameFlags) (display : string) : R unit :=
  io display (renameat2 parent source destination flags).

Definition sync_preopened_directory (directory : Node) (path : string) : R unit := io path (sync_all directory).

Section store.
Context `{Kernel}.
Context `{JsonText}.
Context `{JsonCodec Z, JsonCodec TransactionKind, JsonCodec ManifestPhase, JsonCodec FileIdentity,
          JsonCodec ManifestDirectoryState}.
Context (geteuid : Z).

Definition create_new_at (parent : Node) (name display : string) : R Node := io display (openat_create parent name).

(** The first [match] of [write_prepared_at]. *)
Definition check_current (parent : Node) (manifest_name display : string) : W unit :=
  let! s := get in
  match current_manifest s with
  | None =>
      let! r := on_files (attempt (open_regular_at parent manifest_name)) in
      match r with
      | Err NotFound => ret tt
      | Ok _ => fail (Validation "refusing to replace an unowned manifest")
      | Err e => fail (io_error display (describe e))
      | Panic => panic
      end
  | Some expected =>
      let! i := on_files (identity_at parent manifest_name display) in
      fail_if (negb (bool_decide (i = expected)))
        (Validation "manifest identity changed during prepared publication")
  end.

(** The second [match]: the new file takes the manifest's name. *)
Definition place (parent : Node) (manifest_name temp_name display : string) (temp_identity : FileIdentity) : W unit :=
  let! s := get in
  match current_manifest s with
  | None => on_files (rename_at parent temp_name manifest_name RENAME_NOREPLACE display)
  | Some expected =>
      on_files (rename_at parent temp_name manifest_name RENAME_EXCHANGE display) ;;
      let! replaced := on_files (identity_at parent temp_name display) in
      if negb (bool_decide (replaced = expected)) then
        let! r := catch (on_files (rename_at parent temp_name manifest_name RENAME_EXCHANGE display)) in
        match r with
        | Ok _ => fail (Validation "manifest identity changed during atomic replacement")
        | Err e => fail (IndeterminatePublicationError e)
        | Panic => panic
        end
      else on_files (unlink_if_identity_at parent temp_name expected display)
  end ;;
  modify (fun s => s <| current_manifest := Some temp_identity |>).

(** The closure of [write_prepared_at]; [File::flush] does nothing. *)
Definition write_and_place (parent : Node) (manifest_name temp_name display display_parent content : string)
    (temp : Node) (temp_identity : FileIdentity) : W unit :=
  on_files (io display (write_all temp content)) ;;
  on_files (io display (sync_all temp)) ;;
  place parent manifest_name temp_name display temp_identity ;;
  on_files (sync_preopened_directory parent display_parent).

(** The end of [write_prepared_at], once the new file exists. *)
Definition write_created (parent : Node) (manifest_name temp_name display display_parent content : string)
    (temp : Node) : W unit :=
  let! md := on_files (io display (file_metadata temp)) in
  let temp_identity := identity_from_metadata md in
  let! result := catch (write_and_place parent manifest_name temp_name display display_parent content temp temp_identity) in
  match result with
  | Ok _ => ret tt
  | Err e =>
      let! _ := catch (on_files (unlink_if_identity_at parent temp_name temp_identity display)) in
      fail e
  | Panic => panic
  end.

(** [ManifestStore::write_prepared_at], into a buffer of [buffer_len] bytes and
    with the [sync_preopened_directory] of the hook. *)
Definition write_prepared_at (buffer_len : Z) (parent : Node) (manifest_name temp_name display : string)
    (m : TransactionManifest) : W unit :=
  lift (validate_manifest_basics geteuid m) ;;
  let! display_parent := lift (ok_or (Paths.parent display) (Validation "manifest path has no parent directory")) in
  let! content := lift (serialize_bounded buffer_len m) in
  check_current parent manifest_name display ;;
  let! temp := on_files (create_new_at parent temp_name display) in
  write_created parent manifest_name temp_name display display_parent content temp.

(** ** Names in scratch buffers (src/export_wav.rs) *)

(** [prepare_component], into a buffer of [buffer_len] bytes *)
Definition prepare_component (buffer_len : Z) (name : string) : outcome IoError string :=
  if contains nul name || (buffer_len <=? slen name)
  then Err (InvalidInput "component contains NUL or exceeds scratch capacity")
  else Ok name.

Definition prepare_component_pair (first second : Z) (old new : string) : outcome IoError (string * string) :=
  let? old := prepare_component first old in
  let? new := prepare_component second new in
  Ok (old, new).

(** [persist_manifest_prepared]; the scratch buffers have [component_a] and
    [component_b] bytes. *)
Definition temporary_name (component_b : Z) (manifest_path name transaction_id : string) : Result string :=
  let? required := ok_or (n ← add_checked 1 (slen name); n ← add_checked n 1;
                          n ← add_checked n (slen transaction_id); add_checked n 4)
                     (ExportInvariant "prepared manifest temporary name overflow") in
  if component_b <=? required then Err (ExportInvariant "prepared manifest temporary name exceeds component scratch")
  else
    let temp_name := "." +:+ name +:+ "." +:+ transaction_id +:+ ".tmp" in
    if contains nul temp_name
    then Err (io_error manifest_path "data provided contains an interior nul byte") else Ok temp_name.

Definition persist_manifest_prepared (buffer_len component_a component_b : Z) (manifest_path : string)
    (m : TransactionManifest) (manifest_parent : Node) (transaction_id : string) : W unit :=
  let! name := lift (ok_or (file_name manifest_path) (ExportInvariant "prepared manifest has no filename")) in
  let! name := on_files (io manifest_path (lift (prepare_component component_a name))) in
  let! temp_name := lift (temporary_name component_b manifest_path name transaction_id) in
  write_prepared_at buffer_len manifest_parent name temp_name manifest_path m.
End store.
