(* ===== verification/ManifestStoreTheorems.v ===== *)
(** * Replacing a manifest, whatever fails

    What each step of [write_prepared_at] does to the two names it works on, and
    the theorems about the whole. *)
From Stdlib Require Import Ascii.
From S2P Require Import Prelude.
From S2P Require Import Errors.
From S2P Require Import Paths.
From S2P Require Import FileSystem.
From S2P Require Import FileWrites.
From S2P Require Import Manifest.
From S2P Require Import ManifestJson.
From S2P Require Import Recovery.
From S2P Require Import ManifestStore.

(** ** Steps that change no node *)

Record reads (fs fs' : FileSystem) : Prop := mkReads {
  rd_tree : tree fs' = tree fs;
  rd_later : later fs fs';
}.

#[export] Instance reads_preorder : PreOrder reads.
Proof.
  split; [intros fs; by constructor|]. intros fs1 fs2 fs3 [T1 L1] [T2 L2]. constructor; [congruence|by etrans].
Qed.

Lemma next_reads fs : reads fs (next fs).
Proof. constructor; [done|apply next_later]. Qed.
Lemma synced_reads i fs : reads fs (synced i fs).
Proof. constructor; [done|apply synced_later]. Qed.
Lemma removes_reads fs fs' : reads_only fs fs' -> reads fs fs'.
Proof. intros H. constructor; [by apply reads_only_tree|by eapply removes_later]. Qed.

Lemma io_run {A} p (m : FS A) fs :
  io p m fs = let (fs', o) := m fs in
              (fs', match o with Ok a => Ok a | Err e => Err (io_error p (describe e)) | Panic => Panic end).
Proof. unfold io. by destruct (m fs) as [? []]. Qed.

Lemma attempt_run {A} (m : FS A) fs :
  attempt m fs = let (fs', o) := m fs in (fs', match o with Panic => Panic | _ => Ok o end).
Proof. unfold attempt. by destruct (m fs) as [? []]. Qed.

Lemma io_sync_run p file fs :
  exists fs', io p (sync_all file) fs = (fs', if fault_now fs then Err (io_error p (describe Fault)) else Ok tt)
    /\ reads fs fs'
    /\ (fault_now fs = false -> effects fs' = Synced (identity_from_metadata file) :: effects fs).
Proof.
  rewrite io_run, sync_all_run. destruct (fault_now fs); eexists; (split; [reflexivity|]); (split; [|done]).
  - apply next_reads.
  - etrans; [apply next_reads|apply synced_reads].
Qed.

Section names.
Context (parent : Node) (N : Key).

Section one_name.
Context (x : string) (Hx : normal_name x).

Lemma open_regular_at_spec fs fs' o : opened (tree fs) parent N -> open_regular_at parent x fs = (fs', o) ->
  reads fs fs' /\ o <> Panic
  /\ (forall n, o = Ok n -> tree fs !! (N ++ [x]) = Some n /\ is_file n = true)
  /\ (o = Err NotFound -> tree fs !! (N ++ [x]) = None).
Proof using Hx.
  intros Ho. unfold open_regular_at, bind at 1. rewrite (openat_run _ _ _ _ Ho Hx).
  destruct (fault_now fs); [intros [= <- <-]; split; [apply next_reads|done]|].
  destruct (tree fs !! (N ++ [x])) as [n|] eqn:E; [|intros [= <- <-]; split; [apply next_reads|done]].
  destruct (is_symlink n); [intros [= <- <-]; split; [apply next_reads|done]|].
  unfold bind. rewrite file_metadata_run.
  assert (reads fs (next (next fs))) as R by (etrans; apply next_reads).
  destruct (fault_now (next fs)); [intros [= <- <-]; split; [exact R|done]|].
  destruct (is_file n) eqn:Ef; intros [= <- <-]; (split; [exact R|]); (split; [done|]); (split; [|done]);
    [by intros n' [= ->]|done].
Qed.

Lemma open_regular_at_run fs n : opened (tree fs) parent N -> faults fs = [] -> tree fs !! (N ++ [x]) = Some n ->
  is_file n = true -> exists fs', open_regular_at parent x fs = (fs', Ok n) /\ reads fs fs'.
Proof using Hx.
  intros Ho Hf Hn Hfile. unfold open_regular_at, bind at 1. rewrite (openat_run _ _ _ _ Ho Hx).
  rewrite no_fault_now by done. rewrite Hn.
  assert (is_symlink n = false) as -> by (unfold is_file, is_symlink in *; by destruct (node_kind n)).
  unfold bind. rewrite file_metadata_run, no_fault_now by by apply next_no_faults. rewrite Hfile.
  eexists. split; [reflexivity|]. etrans; apply next_reads.
Qed.

Lemma identity_at_spec d fs fs' o : opened (tree fs) parent N -> identity_at parent x d fs = (fs', o) ->
  reads fs fs' /\ o <> Panic
  /\ forall i, o = Ok i -> exists n, tree fs !! (N ++ [x]) = Some n /\ is_file n = true /\ identity_from_metadata n = i.
Proof using Hx.
  intros Ho. unfold identity_at, bind at 1. rewrite io_run.
  destruct (open_regular_at parent x fs) as [fs1 o1] eqn:E. destruct (open_regular_at_spec _ _ _ Ho E) as (R & Hp & Hok & _).
  destruct o1 as [n|e|]; [|by intros [= <- <-]|done]. unfold bind. rewrite io_run, file_metadata_run.
  assert (reads fs (next fs1)) as R2 by (etrans; [exact R|apply next_reads]).
  destruct (fault_now fs1); intros [= <- <-]; [by split|]. split; [done|]. split; [done|].
  intros i [= <-]. exists n. destruct (Hok n eq_refl). done.
Qed.

Lemma identity_at_run d fs n : opened (tree fs) parent N -> faults fs = [] -> tree fs !! (N ++ [x]) = Some n ->
  is_file n = true -> exists fs', identity_at parent x d fs = (fs', Ok (identity_from_metadata n)) /\ reads fs fs'.
Proof using Hx.
  intros Ho Hf Hn Hfile. destruct (open_regular_at_run _ _ Ho Hf Hn Hfile) as (fs1 & E & R).
  unfold identity_at, bind at 1. rewrite io_run, E. unfold bind. rewrite io_run, file_metadata_run.
  rewrite no_fault_now by by eapply later_no_faults; [apply R|]. eexists. split; [reflexivity|]. etrans; [exact R|apply next_reads].
Qed.

(** The file goes only if it has the expected identity. *)
Lemma unlink_spec i d fs fs' o : opened (tree fs) parent N -> unlink_if_identity_at parent x i d fs = (fs', o) ->
  o <> Panic /\ later fs fs'
  /\ ((tree fs' = tree fs /\ o <> Ok tt)
      \/ (o = Ok tt /\ tree fs' = delete (N ++ [x]) (tree fs)
          /\ exists n, tree fs !! (N ++ [x]) = Some n /\ is_file n = true /\ identity_from_metadata n = i)).
Proof using Hx.
  intros Ho. unfold unlink_if_identity_at, bind at 1. destruct (identity_at parent x d fs) as [fs1 o1] eqn:E.
  destruct (identity_at_spec _ _ _ _ Ho E) as ([T L] & Hp & Hok).
  destruct o1 as [j|e|]; [|intros [= <- <-]; split; [done|]; split; [exact L|by left]|done].
  destruct (Hok j eq_refl) as (n & Hn & Hfile & Hj).
  destruct (bool_decide_reflect (j = i)) as [->|]; cbn [negb]; unfold fail_if;
    [|intros [= <- <-]; split; [done|]; split; [exact L|by left]].
  rewrite bind_ret, io_run, (unlinkat_run _ _ N x); [|by rewrite T|done].
  assert (later fs (next fs1)) as L2 by (etrans; [exact L|apply next_later]).
  destruct (fault_now fs1); [intros [= <- <-]; split; [done|]; split; [exact L2|by left]|].
  rewrite T, Hn. assert (is_dir n = false) as -> by (unfold is_file, is_dir in *; by destruct (node_kind n)).
  intros [= <- <-]. split; [done|]. split; [etrans; [exact L2|apply remove_later]|]. right. cbn. rewrite T.
  split; [done|]. split; [done|]. by exists n.
Qed.

Lemma unlink_run n d fs : opened (tree fs) parent N -> faults fs = [] -> tree fs !! (N ++ [x]) = Some n ->
  is_file n = true -> exists fs', unlink_if_identity_at parent x (identity_from_metadata n) d fs = (fs', Ok tt).
Proof using Hx.
  intros Ho Hf Hn Hfile. destruct (identity_at_run d _ _ Ho Hf Hn Hfile) as (fs1 & E & [T L]).
  unfold unlink_if_identity_at, bind at 1. rewrite E, bool_decide_eq_true_2 by done. cbn [negb]. unfold fail_if.
  rewrite bind_ret, io_run, (unlinkat_run _ _ N x); [|by rewrite T|done].
  rewrite no_fault_now by by eapply later_no_faults. rewrite T, Hn.
  assert (is_dir n = false) as -> by (unfold is_file, is_dir in *; by destruct (node_kind n)). by eexists.
Qed.
End one_name.
End names.

(** ** The two names *)

(** The rename of [a] was logged after a synchronization of [i]. *)
Definition synced_then_renamed (i : FileIdentity) (a b : Key) (fs fs' : FileSystem) : Prop :=
  exists after before, effects fs' = after ++ Renamed a b :: before ++ effects fs /\ Synced i ∈ before.

Lemma synced_then_renamed_later i a b fs fs1 fs2 :
  synced_then_renamed i a b fs fs1 -> later fs1 fs2 -> synced_then_renamed i a b fs fs2.
Proof.
  intros (after & before & E & H) [_ [l El] _]. exists (l ++ after), before. by rewrite El, E, <-app_assoc.
Qed.

Lemma synced_then_renamed_earlier i a b fs fs1 fs2 :
  later fs fs1 -> synced_then_renamed i a b fs1 fs2 -> synced_then_renamed i a b fs fs2.
Proof.
  intros [_ [l El] _] (after & before & E & H). exists after, (before ++ l). rewrite E, El, app_assoc. split; [done|].
  apply elem_of_app. by left.
Qed.

Section store.
Context {kernel : Kernel} {json_text : JsonText} {json_z : JsonCodec Z} {json_kind : JsonCodec TransactionKind}
  {json_phase : JsonCodec ManifestPhase} {json_identity : JsonCodec FileIdentity}
  {json_state : JsonCodec ManifestDirectoryState}.
Context (parent : Node) (N : Key) (mn tn : string) (Hmn : normal_name mn) (Htn : normal_name tn) (Hne : mn <> tn).

Abbreviation manifest_key := (N ++ [mn]).
Abbreviation temp_key := (N ++ [tn]).

(** The tree is that of [base] but for the nodes at the two names. *)
Record view (base : gmap Key Node) (om ot : option Node) (fs : FileSystem) : Prop := mkView' {
  vi_others : forall k, k <> manifest_key -> k <> temp_key -> tree fs !! k = base !! k;
  vi_manifest : tree fs !! manifest_key = om;
  vi_temp : tree fs !! temp_key = ot;
  vi_opened : opened (tree fs) parent N;
}.

Lemma keys_differ : manifest_key <> temp_key.
Proof using Hne. intros E. apply app_inj_tail in E as [_ E]. done. Qed.

Lemma view_reads base om ot fs fs' : view base om ot fs -> reads fs fs' -> view base om ot fs'.
Proof using Type. intros [H1 H2 H3 H4] [T _]. constructor; by rewrite T. Qed.

Lemma view_insert base om ot fs fs' n : view base om ot fs -> is_dir n = false -> leaf (tree fs) temp_key ->
  tree fs' = <[temp_key := n]> (tree fs) -> view base om (Some n) fs'.
Proof using Hne.
  intros [H1 H2 H3 H4] Hd Hl T. pose proof keys_differ. constructor; rewrite T.
  - intros k Hm Ht. rewrite lookup_insert_ne by done. by apply H1.
  - by rewrite lookup_insert_ne.
  - by rewrite lookup_insert_eq.
  - by apply opened_insert.
Qed.

Lemma view_delete base om n fs fs' : view base om (Some n) fs -> is_dir n = false ->
  tree fs' = delete temp_key (tree fs) -> view base om None fs'.
Proof using Hne.
  intros [H1 H2 H3 H4] Hd T. pose proof keys_differ. constructor; rewrite T.
  - intros k Hm Ht. rewrite lookup_delete_ne by done. by apply H1.
  - by rewrite lookup_delete_ne.
  - by rewrite lookup_delete_eq.
  - apply opened_delete; [done|]. eapply file_leaf; [apply H4|exact H3|done].
Qed.

Lemma view_move base om ot fs fs' : view base om ot fs ->
  (forall n, om = Some n -> is_dir n = false) -> (forall n, ot = Some n -> is_dir n = false) ->
  tree fs' = moved temp_key manifest_key (tree fs) -> view base ot om fs'.
Proof using Hne.
  intros [H1 H2 H3 H4] Hm Ht T. pose proof (siblings_apart N tn mn (not_eq_sym Hne)) as Hab.
  assert (forall k x, k `prefix_of` x -> k <> x -> (forall n, tree fs !! k = Some n -> is_dir n = false) -> tree fs !! x = None) as Hleaf.
  { intros k x [s ->] Hk Hd. destruct (tree fs !! (k ++ s)) eqn:E; [|done].
    destruct (wf_prefix (tree fs) k s (op_wf _ _ _ H4)) as (d & Hn & Hdir); [by rewrite E| |].
    - intros ->. by rewrite app_nil_r in Hk.
    - specialize (Hd d Hn). congruence. }
  constructor; rewrite T.
  - intros k Hkm Hkt. rewrite lookup_moved by done. rewrite <-H1 by done.
    destruct (decide (temp_key `prefix_of` k)) as [P|P].
    { rewrite (Hleaf temp_key k) by (try done; by rewrite H3). destruct P as [s ->]. rewrite exchanged_left.
      apply (Hleaf manifest_key); [by apply prefix_app_r| |by rewrite H2].
      intros E. apply Hkt. symmetry in E. rewrite <-(app_nil_r manifest_key) in E at 2. apply app_inv_head in E as ->. by rewrite app_nil_r. }
    destruct (decide (manifest_key `prefix_of` k)) as [Q|Q].
    { rewrite (Hleaf manifest_key k) by (try done; by rewrite H2). destruct Q as [s ->]. rewrite exchanged_right by done.
      apply (Hleaf temp_key); [by apply prefix_app_r| |by rewrite H3].
      intros E. apply Hkm. symmetry in E. rewrite <-(app_nil_r temp_key) in E at 2. apply app_inv_head in E as ->. by rewrite app_nil_r. }
    by rewrite exchanged_other.
  - rewrite lookup_moved, exchanged_at_right by done. exact H3.
  - rewrite lookup_moved, exchanged_at_left by done. exact H2.
  - apply opened_moved; [by apply not_eq_sym|exact H4].
Qed.

(** ** The new file *)

(** No node but the new file has the identity [i]. *)
Record alone (base : gmap Key Node) (om : option Node) (i : FileIdentity) : Prop := mkAlone {
  al_others : forall k n, k <> manifest_key -> k <> temp_key -> base !! k = Some n -> identity_from_metadata n <> i;
  al_manifest : forall n, om = Some n -> identity_from_metadata n <> i;
}.

Lemma alone_only base om ot i fs : alone base om i -> view base om ot fs -> only_at (tree fs) i temp_key.
Proof using Type.
  intros [A1 A2] [V1 V2 V3 V4] k n Hn Hi. destruct (decide (k = temp_key)) as [|Ht]; [done|].
  destruct (decide (k = manifest_key)) as [->|Hm].
  - rewrite V2 in Hn. by destruct (A2 n Hn).
  - rewrite V1 in Hn by done. by destruct (A1 k n Hm Ht Hn).
Qed.

Lemma fresh_alone `{KernelLaws} base om ot fs : view base om ot fs -> alone base om (new_identity (tree fs)).
Proof using Type.
  intros [V1 V2 V3 V4]. constructor.
  - intros k n Hm Ht Hn. rewrite <-V1 in Hn by done. by eapply new_identity_fresh.
  - intros n ->. by eapply new_identity_fresh.
Qed.

Definition file (i : FileIdentity) (content : string) : Node := mkNode i (RegularFile content).

(** [current_manifest_identity] names the regular file that is there. *)
Definition current_is (cur : option FileIdentity) (om : option Node) : Prop :=
  match cur with
  | None => om = None
  | Some e => exists old, om = Some old /\ is_file old = true /\ identity_from_metadata old = e
  end.

(** How the two names may end up: the new file has no name or its temporary
    name; or it has the manifest's name, and then the old manifest may have been
    left at the temporary name. *)
Inductive placed (base : gmap Key Node) (content : string) (i : FileIdentity) (om : option Node)
    (cur : option FileIdentity) (fs : FileSystem) : Store -> Result unit -> Prop :=
  | placed_not s o : view base om None (files s) -> current_manifest s = cur -> o <> Ok tt ->
      placed base content i om cur fs s o
  | placed_temporary s o c : view base om (Some (file i c)) (files s) -> current_manifest s = cur -> o <> Ok tt ->
      placed base content i om cur fs s o
  | placed_left s o old : view base (Some (file i content)) (Some old) (files s) -> om = Some old ->
      current_manifest s = cur -> o <> Ok tt -> synced_then_renamed i temp_key manifest_key fs (files s) ->
      placed base content i om cur fs s o
  | placed_whole s o : view base (Some (file i content)) None (files s) -> current_manifest s = Some i ->
      synced_then_renamed i temp_key manifest_key fs (files s) ->
      (o = Ok tt -> exists before, effects (files s) = Synced (identity_from_metadata parent) :: before) ->
      placed base content i om cur fs s o.

Lemma rename_at_spec flags d fs fs' o base om ot : view base om ot fs ->
  (forall n, om = Some n -> is_dir n = false) -> (forall n, ot = Some n -> is_dir n = false) ->
  rename_at parent tn mn flags d fs = (fs', o) ->
  o <> Panic /\ later fs fs'
  /\ ((reads fs fs' /\ o <> Ok tt)
      \/ (o = Ok tt /\ view base ot om fs' /\ effects fs' = Renamed temp_key manifest_key :: effects fs
          /\ (flags = RENAME_NOREPLACE -> om = None))).
Proof using Hmn Hne Htn.
  intros V Hm Ht. unfold rename_at. rewrite io_run, (renameat2_run _ _ N) by (try apply V; auto).
  rewrite (vi_manifest _ _ _ _ V), (vi_temp _ _ _ _ V).
  assert (reads fs (next fs)) as Hr by apply next_reads. pose proof (rd_later _ _ Hr) as Hl.
  destruct (fault_now fs); [intros [= <- <-]; split; [done|]; split; [done|by left]|].
  destruct ot as [nt|]; [|intros [= <- <-]; split; [done|]; split; [done|by left]].
  assert (forall fs' o, (move_keys temp_key manifest_key (next fs), (Ok tt : Result unit)) = (fs', o) ->
    (flags = RENAME_NOREPLACE -> om = None) ->
    o <> Panic /\ later fs fs' /\ ((reads fs fs' /\ o <> Ok tt) \/ (o = Ok tt /\ view base (Some nt) om fs'
      /\ effects fs' = Renamed temp_key manifest_key :: effects fs /\ (flags = RENAME_NOREPLACE -> om = None)))) as Hmv.
  { intros fs2 o2 [= <- <-] Hf. split; [done|]. split; [etrans; [exact Hl|apply move_later]|]. right.
    split; [done|]. split; [|done]. by eapply view_move; [exact V|..]. }
  destruct flags, om as [nm|]; try (intros [= <- <-]; split; [done|]; split; [done|by left]); intros H; by apply Hmv.
Qed.

Lemma on_files_at {A} (m : R A) fs c : on_files m (mkStore fs c) = let (fs', o) := m fs in (mkStore fs' c, o).
Proof using Type. done. Qed.

Lemma file_is_dir n : is_file n = true -> is_dir n = false.
Proof using Type. unfold is_file, is_dir. by destruct (node_kind n). Qed.

Lemma current_not_dir cur om n : current_is cur om -> om = Some n -> is_dir n = false.
Proof using Type. intros H ->. destruct cur; [|done]. destruct H as (old & [= <-] & Hf & _). by apply file_is_dir. Qed.

(** The second [match]: the rename and the removal of the old manifest. *)
Lemma place_spec base content i om d s s' o :
  view base om (Some (file i content)) (files s) -> current_is (current_manifest s) om ->
  place parent mn tn d i s = (s', o) ->
  o <> Panic /\ later (files s) (files s')
  /\ ((exists c, view base om (Some (file i c)) (files s') /\ current_manifest s' = current_manifest s /\ o <> Ok tt)
      \/ (exists old, view base (Some (file i content)) (Some old) (files s') /\ om = Some old
                      /\ current_manifest s' = current_manifest s /\ o <> Ok tt
                      /\ exists after, effects (files s') = after ++ Renamed temp_key manifest_key :: effects (files s))
      \/ (view base (Some (file i content)) None (files s') /\ current_manifest s' = Some i /\ o = Ok tt
          /\ exists after, effects (files s') = after ++ Renamed temp_key manifest_key :: effects (files s))).
Proof using Hmn Hne Htn.
  intros V Hc. unfold place. destruct s as [fs cur]. cbn [files current_manifest] in *. rewrite bind_get.
  cbn [current_manifest]. assert (forall n, om = Some n -> is_dir n = false) as Hm by (intros n; by eapply current_not_dir).
  assert (forall n, Some (file i content) = Some n -> is_dir n = false) as Ht by (by intros n [= <-]).
  destruct cur as [e|].
  2: { unfold bind at 1. rewrite on_files_at.
    destruct (rename_at parent tn mn RENAME_NOREPLACE d fs) as [fs1 o1] eqn:E.
    destruct (rename_at_spec _ _ _ _ _ _ _ _ V Hm Ht E) as (Hp & Hl & [[Hr Ho]|(-> & V1 & He & Hn)]).
    - destruct o1 as [[]|x|]; [done| |done]. intros [= <- <-]. split; [done|]. split; [done|]. left. exists content.
      split; [by eapply view_reads|done].
    - specialize (Hn eq_refl) as ->. intros [= <- <-]. split; [done|]. split; [done|]. right; right.
      split; [exact V1|]. split; [done|]. split; [done|]. by exists []. }
  destruct Hc as (old & -> & Hold & Hi). rewrite bind_bind. unfold bind at 1. rewrite on_files_at.
  destruct (rename_at parent tn mn RENAME_EXCHANGE d fs) as [fs1 o1] eqn:E.
  destruct (rename_at_spec _ _ _ _ _ _ _ _ V Hm Ht E) as (Hp & Hl & [[Hr Ho]|(-> & V1 & He & _)]).
  { destruct o1 as [[]|x|]; [done| |done]. intros [= <- <-]. split; [done|]. split; [done|]. left. exists content.
    split; [by eapply view_reads|done]. }
  rewrite bind_bind. unfold bind at 1. rewrite on_files_at.
  destruct (identity_at parent tn d fs1) as [fs2 o2] eqn:E2.
  destruct (identity_at_spec _ _ _ Htn _ _ _ _ (vi_opened _ _ _ _ V1) E2) as (R2 & Hp2 & Hok2).
  pose proof (view_reads _ _ _ _ _ V1 R2) as V2.
  assert (later fs fs2) as L2 by (etrans; [exact Hl|apply R2]).
  assert (exists after, effects fs2 = after ++ Renamed temp_key manifest_key :: effects fs) as [a2 He2].
  { destruct (la_effects _ _ (rd_later _ _ R2)) as [l ->]. exists l. by rewrite He. }
  destruct o2 as [j|x|]; [| |done].
  2: { intros [= <- <-]. split; [done|]. split; [exact L2|]. right; left. exists old. split; [exact V2|]. split; [done|].
       split; [done|]. split; [done|]. by exists a2. }
  destruct (Hok2 j eq_refl) as (n & Hn & _ & <-). rewrite (vi_temp _ _ _ _ V1) in Hn. injection Hn as <-.
  rewrite bool_decide_eq_true_2 by done. cbn [negb]. unfold bind at 1. rewrite on_files_at.
  destruct (unlink_if_identity_at parent tn e d fs2) as [fs3 o3] eqn:E3.
  destruct (unlink_spec _ _ _ Htn _ _ _ _ _ (vi_opened _ _ _ _ V2) E3) as (Hp3 & L3 & H3).
  assert (later fs fs3) as L03 by (etrans; [exact L2|exact L3]).
  assert (exists after, effects fs3 = after ++ Renamed temp_key manifest_key :: effects fs) as [a3 He3].
  { destruct (la_effects _ _ L3) as [l ->]. exists (l ++ a2). by rewrite He2, app_assoc. }
  destruct H3 as [[T3 Ho3]|(-> & T3 & _)].
  - destruct o3 as [[]|x|]; [done| |done]. intros [= <- <-]. split; [done|]. split; [exact L03|]. right; left. exists old.
    split; [by eapply view_reads|]. split; [done|]. split; [done|]. split; [done|]. by exists a3.
  - intros [= <- <-]. split; [done|]. split; [exact L03|]. right; right.
    split; [eapply view_delete; [exact V2|by apply file_is_dir|exact T3]|]. split; [done|]. split; [done|]. by exists a3.
Qed.

Lemma write_and_place_spec base content i om d dp temp s s' o :
  identity_from_metadata temp = i -> view base om (Some (file i "")) (files s) -> alone base om i ->
  current_is (current_manifest s) om -> slen content <= u64_max ->
  write_and_place parent mn tn d dp content temp i s = (s', o) ->
  o <> Panic /\ later (files s) (files s') /\ placed base content i om (current_manifest s) (files s) s' o.
Proof using Hmn Hne Htn.
  intros Hi V Ha Hc Hlen. destruct s as [fs cur]. cbn [files current_manifest] in *. unfold write_and_place.
  unfold bind at 1. rewrite on_files_at, io_run.
  destruct (write_all temp content fs) as [fs1 o1] eqn:E1.
  destruct (write_all_spec temp i temp_key "" content fs fs1 o1 Hi (vi_temp _ _ _ _ V) (alone_only _ _ _ _ _ Ha V) Hlen E1)
    as (w & A1 & Hw & Hp1).
  assert (view base om (Some (file i w)) fs1) as V1.
  { eapply view_insert; [exact V|done| |exact (ap_tree _ _ _ _ _ _ A1)]. eapply file_leaf; [apply V|exact (vi_temp _ _ _ _ V)|done]. }
  pose proof (ap_later _ _ _ _ _ _ A1) as L1.
  destruct o1 as [[]|e|]; [| |done].
  2: { intros [= <- <-]. split; [done|]. split; [exact L1|]. by eapply placed_temporary. }
  rewrite (Hw eq_refl) in V1. unfold bind at 1. rewrite on_files_at.
  destruct (io_sync_run d temp fs1) as (fs2 & E2 & R2 & He2). rewrite E2.
  pose proof (view_reads _ _ _ _ _ V1 R2) as V2. assert (later fs fs2) as L2 by (etrans; [exact L1|apply R2]).
  destruct (fault_now fs1).
  { intros [= <- <-]. split; [done|]. split; [exact L2|]. by eapply placed_temporary. }
  specialize (He2 eq_refl). rewrite Hi in He2. unfold bind at 1.
  destruct (place parent mn tn d i (mkStore fs2 cur)) as [s3 o3] eqn:E3.
  destruct (place_spec base content i om d (mkStore fs2 cur) s3 o3 V2 Hc E3) as (Hp3 & L3 & H3). cbn [files current_manifest] in *.
  assert (later fs (files s3)) as L03 by (etrans; [exact L2|exact L3]).
  assert (forall after, effects (files s3) = after ++ Renamed temp_key manifest_key :: effects fs2 ->
    synced_then_renamed i temp_key manifest_key fs (files s3)) as Hsr.
  { intros after He. destruct (la_effects _ _ L1) as [l Hl]. exists after, (Synced i :: l).
    split; [by rewrite He, He2, Hl|]. by left. }
  destruct H3 as [(c & V3 & Hc3 & Ho3)|[(old & V3 & -> & Hc3 & Ho3 & after & He)|(V3 & Hc3 & -> & after & He)]].
  - destruct o3 as [[]|e|]; [done| |done]. intros [= <- <-]. split; [done|]. split; [done|]. by eapply placed_temporary.
  - destruct o3 as [[]|e|]; [done| |done]. intros [= <- <-]. split; [done|]. split; [done|].
    eapply placed_left; [exact V3|done|done|done|by eapply Hsr].
  - destruct s3 as [fs3 cur3]. cbn [files current_manifest] in *. rewrite on_files_at. unfold sync_preopened_directory.
    destruct (io_sync_run dp parent fs3) as (fs4 & E4 & R4 & He4). rewrite E4. intros [= <- <-].
    split; [by destruct (fault_now fs3)|]. split; [etrans; [exact L03|apply R4]|]. eapply placed_whole.
    + by eapply view_reads.
    + done.
    + eapply synced_then_renamed_later; [by eapply Hsr|apply R4].
    + destruct (fault_now fs3); [done|]. intros _. exists (effects fs3). by apply He4.
Qed.

Lemma placed_opened base content i om cur fs0 s o : placed base content i om cur fs0 s o -> opened (tree (files s)) parent N.
Proof using Type. by intros [? ? V|? ? ? V|? ? ? V|? ? V]; apply V. Qed.

Lemma placed_reads base content i om cur fs0 s o fs1 : o <> Ok tt -> placed base content i om cur fs0 s o ->
  reads (files s) fs1 -> placed base content i om cur fs0 (mkStore fs1 (current_manifest s)) o.
Proof using Type.
  intros Ho Hpl R. destruct Hpl as [s o V Hc _|s o z V Hc _|s o old V Hm Hc _ Hs|s o V Hc Hs Hok].
  - apply placed_not; [by eapply view_reads|done|done].
  - eapply placed_temporary; [by eapply view_reads|done|done].
  - eapply placed_left; [by eapply view_reads|done|done|done|by eapply synced_then_renamed_later; [|apply R]].
  - eapply placed_whole; [by eapply view_reads|done|by eapply synced_then_renamed_later; [|apply R]|done].
Qed.

(** The cleanup after an error removes the new file from its temporary name. *)
Lemma cleanup_spec base content i om cur d fs0 s o s' r : alone base om i -> o <> Ok tt ->
  placed base content i om cur fs0 s o ->
  catch (on_files (unlink_if_identity_at parent tn i d)) s = (s', r) ->
  is_ok r = true /\ later (files s) (files s') /\ placed base content i om cur fs0 s' o.
Proof using Hne Htn.
  intros Ha Ho Hpl. unfold catch, on_files.
  destruct (unlink_if_identity_at parent tn i d (files s)) as [fs1 o1] eqn:E. intros H.
  destruct (unlink_spec _ _ _ Htn _ _ _ _ _ (placed_opened _ _ _ _ _ _ _ _ Hpl) E) as (Hp & L & Hcase).
  assert (s' = mkStore fs1 (current_manifest s) /\ is_ok r = true) as [-> Hr] by (by destruct o1; injection H as <- <-).
  split; [done|]. split; [done|]. destruct Hcase as [[T _]|(_ & T & n & Hn & Hfile & Hi)]; [by apply placed_reads|].
  destruct Hpl as [s o V Hc _|s o z V Hc _|s o old V Hm Hc _ Hs|s o V Hc Hs Hok]; rewrite (vi_temp _ _ _ _ V) in Hn; try done.
  - apply placed_not; [by eapply view_delete|done|done].
  - injection Hn as ->. by destruct (al_manifest _ _ _ Ha n Hm).
Qed.

(** ** The whole write *)

Lemma check_current_spec d s s' o : opened (tree (files s)) parent N -> check_current parent mn d s = (s', o) ->
  reads (files s) (files s') /\ current_manifest s' = current_manifest s
  /\ (o = Ok tt -> current_is (current_manifest s) (tree (files s) !! manifest_key)).
Proof using Hmn.
  destruct s as [fs cur]. cbn [files current_manifest]. intros Ho. unfold check_current. rewrite bind_get.
  cbn [current_manifest]. destruct cur as [e|]; unfold bind; rewrite on_files_at.
  - destruct (identity_at parent mn d fs) as [fs1 o1] eqn:E.
    destruct (identity_at_spec _ _ _ Hmn _ _ _ _ Ho E) as (R & Hp & Hok).
    destruct o1 as [i|x|]; [|by intros [= <- <-]|done]. destruct (Hok i eq_refl) as (n & Hn & Hf & <-).
    destruct (bool_decide_reflect (identity_from_metadata n = e)) as [<-|]; cbn [negb fail_if]; intros [= <- <-];
      [|by split]. split; [done|]. split; [done|]. intros _. by exists n.
  - rewrite attempt_run. destruct (open_regular_at parent mn fs) as [fs1 o1] eqn:E.
    destruct (open_regular_at_spec _ _ _ Hmn _ _ _ Ho E) as (R & Hp & _ & Hnf).
    destruct o1 as [n|[]|]; intros [= <- <-]; (split; [done|]); (split; [done|]); try done; intros _; by apply Hnf.
Qed.

Lemma placed_earlier base content i om cur fs0 fs1 s o : later fs0 fs1 ->
  placed base content i om cur fs1 s o -> placed base content i om cur fs0 s o.
Proof using Type.
  intros L Hpl. destruct Hpl as [s o V Hc Ho|s o z V Hc Ho|s o old V Hm Hc Ho Hs|s o V Hc Hs Hok].
  - by apply placed_not.
  - by eapply placed_temporary.
  - eapply placed_left; [done..|]. eapply synced_then_renamed_earlier; [exact L|exact Hs].
  - eapply placed_whole; [done|done| |done]. eapply synced_then_renamed_earlier; [exact L|exact Hs].
Qed.

Lemma write_created_spec base content i om d dp temp s s' o :
  identity_from_metadata temp = i -> view base om (Some (file i "")) (files s) -> alone base om i ->
  current_is (current_manifest s) om -> slen content <= u64_max ->
  write_created parent mn tn d dp content temp s = (s', o) ->
  later (files s) (files s') /\ placed base content i om (current_manifest s) (files s) s' o.
Proof using Hmn Hne Htn.
  intros Hi V Ha Hc Hlen. destruct s as [fs cur]. cbn [files current_manifest] in *. unfold write_created, bind at 1.
  rewrite on_files_at, io_run, file_metadata_run. pose proof (next_reads fs) as R.
  destruct (fault_now fs).
  { intros [= <- <-]. split; [apply R|]. eapply placed_temporary; [by eapply view_reads|done|done]. }
  rewrite Hi. pose proof (view_reads _ _ _ _ _ V R) as V1.
  unfold bind at 1. unfold catch at 1.
  destruct (write_and_place parent mn tn d dp content temp i (mkStore (next fs) cur)) as [s1 o1] eqn:E1.
  destruct (write_and_place_spec base content i om d dp temp (mkStore (next fs) cur) s1 o1 Hi V1 Ha Hc Hlen E1) as (Hp1 & L1 & Hpl).
  cbn [files current_manifest] in L1, Hpl.
  assert (later fs (files s1)) as L2 by (etrans; [apply R|exact L1]).
  apply (placed_earlier _ _ _ _ _ fs) in Hpl; [|apply R].
  destruct o1 as [[]|e|]; [intros [= <- <-]; split; done| |done]. unfold bind.
  destruct (catch (on_files (unlink_if_identity_at parent tn i d)) s1) as [s2 r] eqn:E2.
  assert ((Err e : Result unit) <> Ok tt) as Hne1 by done.
  destruct (cleanup_spec _ _ _ _ _ _ _ _ _ _ _ Ha Hne1 Hpl E2) as (Hr & L3 & Hpl3).
  destruct r as [r|e'|]; [|done|done]. intros [= <- <-]. split; [etrans; [exact L2|exact L3]|exact Hpl3].
Qed.

(** Either no node has changed, or the new file was created and [placed]. *)
Lemma write_prepared_at_spec {laws : KernelLaws} geteuid buffer_len d m s s' o :
  opened (tree (files s)) parent N -> buffer_len <= u64_max ->
  write_prepared_at geteuid buffer_len parent mn tn d m s = (s', o) ->
  (reads (files s) (files s') /\ current_manifest s' = current_manifest s /\ o <> Ok tt)
  \/ exists content, serialize_bounded buffer_len m = Ok content
       /\ tree (files s) !! temp_key = None
       /\ current_is (current_manifest s) (tree (files s) !! manifest_key)
       /\ later (files s) (files s')
       /\ placed (tree (files s)) content (new_identity (tree (files s))) (tree (files s) !! manifest_key)
            (current_manifest s) (files s) s' o.
Proof using Hmn Hne Htn.
  intros Ho Hlen H. unfold write_prepared_at in H. unfold bind at 1, lift at 1 in H.
  destruct (validate_manifest_basics geteuid m) as [[]|e|]; [|injection H as <- <-; left; done..].
  unfold bind at 1, lift at 1 in H. destruct (ok_or _ _) as [dp|e|]; [|injection H as <- <-; left; done..].
  unfold bind at 1, lift at 1 in H.
  destruct (serialize_bounded buffer_len m) as [content|e|] eqn:Es; [|injection H as <- <-; left; done..].
  assert (slen content <= u64_max) as Hc.
  { unfold serialize_bounded in Es. destruct (manifest_json m) as [j|e|]; cbn [obind] in Es; [|done..].
    destruct (Z.leb_spec (slen (to_writer j)) buffer_len); [|done]. injection Es as <-. lia. }
  unfold bind at 1 in H. destruct (check_current parent mn d s) as [s1 o1] eqn:E1.
  destruct (check_current_spec d s s1 o1 Ho E1) as (R1 & C1 & K1).
  destruct o1 as [[]|e|]; [|injection H as <- <-; left; done..]. specialize (K1 eq_refl).
  destruct s1 as [fs1 cur]. cbn [files current_manifest] in C1, R1, H. subst cur.
  unfold bind at 1 in H. rewrite on_files_at in H. unfold create_new_at in H.
  assert (opened (tree fs1) parent N) as Ho1 by by rewrite (rd_tree _ _ R1).
  rewrite io_run, (openat_create_run _ _ N tn Ho1 Htn) in H.
  assert (reads (files s) (next fs1)) as Rn by (etrans; [exact R1|apply next_reads]).
  destruct (fault_now fs1); [injection H as <- <-; left; done|].
  destruct (tree fs1 !! temp_key) eqn:Et; [injection H as <- <-; left; done|]. rewrite (rd_tree _ _ R1) in H, Et.
  right. exists content. split; [done|]. split; [done|]. split; [exact K1|]. cbv zeta in H.
  assert (view (tree (files s)) (tree (files s) !! manifest_key) None (files s)) as V0 by by constructor.
  pose proof (fresh_alone _ _ _ _ V0) as Ha. set (i := new_identity (tree (files s))) in *.
  set (fs2 := insert_node temp_key (mkNode i (RegularFile "")) (next fs1)) in *.
  assert (view (tree (files s)) (tree (files s) !! manifest_key) (Some (file i "")) fs2) as V2.
  { eapply (view_insert _ _ None (next fs1)); [by eapply view_reads|done| |done].
    apply free_leaf; rewrite (rd_tree _ _ Rn); [apply Ho|done]. }
  assert (later (files s) fs2) as L2 by (etrans; [apply Rn|apply insert_later]).
  destruct (write_created_spec _ content i _ d dp (mkNode i (RegularFile "")) (mkStore fs2 (current_manifest s)) s' o
    eq_refl V2 Ha K1 Hc H) as (L3 & Hpl). cbn [files current_manifest] in L3, Hpl.
  split; [etrans; [exact L2|exact L3]|]. by eapply placed_earlier.
Qed.

(** C6. Writing a manifest replaces it as a whole. Whatever calls fail: no name in
    the file system changes but the manifest's and its temporary name, and the
    manifest's name keeps what it held or holds a new file with the complete
    text. The latter happens only if the name was free, for a first manifest, or
    held the regular file that the writer wrote last, and only after the new file
    was synchronized; if the write succeeds, the temporary name is free, the
    writer has the identity of the new file, and the directory was synchronized
    last. *)
Theorem manifest_replaced_whole {laws : KernelLaws} geteuid buffer_len d m s s' o :
  opened (tree (files s)) parent N -> buffer_len <= u64_max ->
  write_prepared_at geteuid buffer_len parent mn tn d m s = (s', o) ->
  let nodes := tree (files s) in
  let nodes' := tree (files s') in
  (forall k, k <> manifest_key -> k <> temp_key -> nodes' !! k = nodes !! k)
  /\ ((nodes' !! manifest_key = nodes !! manifest_key /\ o <> Ok tt)
      \/ exists content i, serialize_bounded buffer_len m = Ok content
           /\ nodes' !! manifest_key = Some (file i content)
           /\ current_is (current_manifest s) (nodes !! manifest_key)
           /\ (forall k n, nodes !! k = Some n -> identity_from_metadata n <> i)
           /\ synced_then_renamed i temp_key manifest_key (files s) (files s')
           /\ (o = Ok tt -> nodes' !! temp_key = None /\ current_manifest s' = Some i
                 /\ exists before, effects (files s') = Synced (identity_from_metadata parent) :: before)).
Proof using Hmn Hne Htn.
  intros Ho Hlen H. cbv zeta.
  destruct (write_prepared_at_spec _ _ _ _ _ _ _ Ho Hlen H) as [([T _] & _ & Hok)|(content & Hs & Ht & Hc & _ & Hpl)].
  { rewrite T. split; [done|]. by left. }
  set (i := new_identity (tree (files s))) in *.
  assert (forall k n, tree (files s) !! k = Some n -> identity_from_metadata n <> i) as Hi.
  { intros k n. apply new_identity_fresh. }
  clearbody i. destruct Hpl as [s' o V _ Hok|s' o c V _ Hok|s' o old V Hm _ Hok Hsr|s' o V Hcur Hsr Hok];
    (split; [apply V|]).
  - left. split; [exact (vi_manifest _ _ _ _ V)|done].
  - left. split; [exact (vi_manifest _ _ _ _ V)|done].
  - right. exists content, i. split; [done|]. split; [exact (vi_manifest _ _ _ _ V)|]. done.
  - right. exists content, i. split; [done|]. split; [exact (vi_manifest _ _ _ _ V)|]. split; [done|]. split; [done|]. split; [done|].
    intros ->. split; [exact (vi_temp _ _ _ _ V)|]. split; [done|]. by apply Hok.
Qed.

(** What is left where a name was taken by something else. *)
Lemma foreign_manifest_kept {laws : KernelLaws} geteuid buffer_len d m s s' o :
  opened (tree (files s)) parent N -> buffer_len <= u64_max ->
  write_prepared_at geteuid buffer_len parent mn tn d m s = (s', o) ->
  tree (files s) !! temp_key <> None \/ ~ current_is (current_manifest s) (tree (files s) !! manifest_key) ->
  tree (files s') = tree (files s) /\ current_manifest s' = current_manifest s /\ o <> Ok tt.
Proof using Hmn Hne Htn.
  intros Ho Hlen H Hf.
  destruct (write_prepared_at_spec _ _ _ _ _ _ _ Ho Hlen H) as [([T _] & ? & ?)|(content & _ & Ht & Hc & _)]; [done|].
  by destruct Hf.
Qed.

(** ** Without faults *)

Lemma rename_at_run flags d fs base om n : view base om (Some n) fs -> faults fs = [] ->
  (match flags with RENAME_NOREPLACE => om = None | RENAME_EXCHANGE => om <> None end) ->
  exists fs', rename_at parent tn mn flags d fs = (fs', Ok tt).
Proof using Hmn Hne Htn.
  intros V Hf Hm. unfold rename_at. rewrite io_run, (renameat2_run _ _ N) by (try apply V; auto).
  rewrite no_fault_now, (vi_manifest _ _ _ _ V), (vi_temp _ _ _ _ V) by done.
  destruct flags, om; try done; by eexists.
Qed.

Lemma place_run base content i om d s :
  view base om (Some (file i content)) (files s) -> current_is (current_manifest s) om -> faults (files s) = [] ->
  exists s', place parent mn tn d i s = (s', Ok tt).
Proof using Hmn Hne Htn.
  intros V Hc Hf. unfold place. destruct s as [fs cur]. cbn [files current_manifest] in *. rewrite bind_get.
  cbn [current_manifest]. assert (forall n, om = Some n -> is_dir n = false) as Hm by (intros n; by eapply current_not_dir).
  assert (forall n, Some (file i content) = Some n -> is_dir n = false) as Ht by (by intros n [= <-]).
  destruct cur as [e|].
  2: { unfold bind at 1. rewrite on_files_at.
       destruct (rename_at_run RENAME_NOREPLACE d _ _ _ _ V Hf Hc) as [fs1 E]. rewrite E. by eexists. }
  destruct Hc as (old & -> & Hold & Hi). rewrite bind_bind. unfold bind at 1. rewrite on_files_at.
  destruct (rename_at_run RENAME_EXCHANGE d _ _ _ _ V Hf ltac:(done)) as [fs1 E]. rewrite E.
  destruct (rename_at_spec _ _ _ _ _ _ _ _ V Hm Ht E) as (_ & L1 & [[_ []]|(_ & V1 & _)]); [done|].
  pose proof (later_no_faults _ _ L1 Hf) as Hf1. rewrite bind_bind. unfold bind at 1. rewrite on_files_at.
  destruct (identity_at_run _ _ _ Htn d fs1 old (vi_opened _ _ _ _ V1) Hf1 (vi_temp _ _ _ _ V1) Hold) as (fs2 & E2 & R2).
  rewrite E2, bool_decide_eq_true_2 by done. cbn [negb]. unfold bind at 1. rewrite on_files_at.
  pose proof (view_reads _ _ _ _ _ V1 R2) as V2. pose proof (later_no_faults _ _ (rd_later _ _ R2) Hf1) as Hf2.
  destruct (unlink_run _ _ _ Htn old d fs2 (vi_opened _ _ _ _ V2) Hf2 (vi_temp _ _ _ _ V2) Hold) as [fs3 E3].
  rewrite <-Hi, E3. by eexists.
Qed.

Lemma write_and_place_run {laws : KernelLaws} base content i om d dp temp s :
  identity_from_metadata temp = i -> view base om (Some (file i "")) (files s) -> alone base om i ->
  current_is (current_manifest s) om -> slen content <= u64_max -> faults (files s) = [] ->
  exists s', write_and_place parent mn tn d dp content temp i s = (s', Ok tt).
Proof using Hmn Hne Htn.
  intros Hi V Ha Hc Hlen Hf. destruct s as [fs cur]. cbn [files current_manifest] in *. unfold write_and_place.
  unfold bind at 1. rewrite on_files_at, io_run.
  destruct (write_all_no_faults temp content fs Hf Hlen) as [fs1 E1]. rewrite E1.
  destruct (write_all_spec temp i temp_key "" content fs fs1 _ Hi (vi_temp _ _ _ _ V) (alone_only _ _ _ _ _ Ha V) Hlen E1)
    as (w & A1 & Hw & _).
  assert (view base om (Some (file i w)) fs1) as V1.
  { eapply view_insert; [exact V|done| |exact (ap_tree _ _ _ _ _ _ A1)]. eapply file_leaf; [apply V|exact (vi_temp _ _ _ _ V)|done]. }
  pose proof (later_no_faults _ _ (ap_later _ _ _ _ _ _ A1) Hf) as Hf1. unfold bind at 1. rewrite on_files_at.
  destruct (io_sync_run d temp fs1) as (fs2 & E2 & R2 & _). rewrite E2, no_fault_now by done.
  pose proof (view_reads _ _ _ _ _ V1 R2) as V2. pose proof (later_no_faults _ _ (rd_later _ _ R2) Hf1) as Hf2.
  unfold bind at 1. destruct (place_run base w i om d (mkStore fs2 cur) V2 Hc Hf2) as [s3 E3]. rewrite E3.
  destruct (place_spec base w i om d (mkStore fs2 cur) s3 _ V2 Hc E3) as (_ & L3 & _).
  pose proof (later_no_faults _ _ L3 Hf2) as Hf3. destruct s3 as [fs3 cur3]. cbn [files] in Hf3. rewrite on_files_at.
  unfold sync_preopened_directory. destruct (io_sync_run dp parent fs3) as (fs4 & E4 & _). rewrite E4, no_fault_now by done.
  by eexists.
Qed.

(** C27. If no call fails, a valid manifest that fits its buffer is written whenever the
    manifest's name is free, for a first manifest, or holds what the writer wrote
    last, and the temporary name is free. *)
Theorem manifest_written {laws : KernelLaws} geteuid buffer_len d dp m content s :
  opened (tree (files s)) parent N -> buffer_len <= u64_max -> faults (files s) = [] ->
  validate_manifest_basics geteuid m = Ok tt -> Paths.parent d = Some dp ->
  serialize_bounded buffer_len m = Ok content ->
  current_is (current_manifest s) (tree (files s) !! manifest_key) -> tree (files s) !! temp_key = None ->
  exists s', write_prepared_at geteuid buffer_len parent mn tn d m s = (s', Ok tt).
Proof using Hmn Hne Htn.
  intros Ho Hlen Hf Hv Hdp Hs Hc Ht. assert (slen content <= u64_max) as Hlc.
  { unfold serialize_bounded in Hs. destruct (manifest_json m) as [j|e|]; cbn [obind] in Hs; [|done..].
    destruct (Z.leb_spec (slen (to_writer j)) buffer_len); [|done]. injection Hs as <-. lia. }
  destruct s as [fs cur]. cbn [files current_manifest] in *. unfold write_prepared_at. rewrite Hv, bind_lift_Ok, Hdp. cbn [ok_or].
  rewrite bind_lift_Ok, Hs, bind_lift_Ok.
  assert (exists fs1, check_current parent mn d (mkStore fs cur) = (mkStore fs1 cur, Ok tt) /\ reads fs fs1) as (fs1 & E1 & R1).
  { unfold check_current. rewrite bind_get. cbn [current_manifest]. destruct cur as [e|]; unfold bind; rewrite on_files_at.
    - destruct Hc as (old & Hn & Hold & <-). destruct (identity_at_run _ _ _ Hmn d fs old Ho Hf Hn Hold) as (fs1 & E & R).
      rewrite E, bool_decide_eq_true_2 by done. by exists fs1.
    - unfold current_is in Hc. rewrite attempt_run. unfold open_regular_at, bind at 1.
      rewrite (openat_run _ _ N mn Ho Hmn), no_fault_now, Hc by done. exists (next fs). split; [done|apply next_reads]. }
  unfold bind at 1. rewrite E1. unfold bind at 1. rewrite on_files_at. unfold create_new_at.
  assert (opened (tree fs1) parent N) as Ho1 by by rewrite (rd_tree _ _ R1).
  pose proof (later_no_faults _ _ (rd_later _ _ R1) Hf) as Hf1.
  rewrite io_run, (openat_create_run _ _ N tn Ho1 Htn), no_fault_now, (rd_tree _ _ R1), Ht by done. cbv zeta.
  set (i := new_identity (tree fs)). set (fs2 := insert_node _ _ (next fs1)).
  assert (reads fs (next fs1)) as Rn by (etrans; [exact R1|apply next_reads]).
  assert (view (tree fs) (tree fs !! manifest_key) None fs) as V0 by by constructor.
  assert (view (tree fs) (tree fs !! manifest_key) (Some (file i "")) fs2) as V2.
  { eapply (view_insert _ _ None (next fs1)); [by eapply view_reads|done| |done].
    apply free_leaf; rewrite (rd_tree _ _ Rn); [apply Ho|done]. }
  assert (faults fs2 = []) as Hf2 by (by eapply later_no_faults; [|exact Hf1]; etrans; [apply next_later|apply insert_later]).
  unfold write_created, bind at 1. rewrite on_files_at, io_run, file_metadata_run, no_fault_now by done.
  unfold bind at 1. unfold catch at 1. cbn [identity_from_metadata].
  destruct (write_and_place_run (tree fs) content i (tree fs !! manifest_key) d dp (mkNode i (RegularFile "")) (mkStore (next fs2) cur))
    as [s' E]; [done|eapply view_reads; [exact V2|apply next_reads]|by eapply fresh_alone|exact Hc|exact Hlc|
    by apply next_no_faults|]. rewrite E. by eexists.
Qed.
End store.
