(* ===== verification/DumpPublish.v ===== *)
(** * Publishing a dump (src/export_wav.rs)

    A dump is staged as a directory beside its final place. Publishing it
    records a manifest of the staged files, renames the directory once and then
    records that it is complete. The hook is the one of the running program,
    which does nothing at a checkpoint. The kernel, the effective user and
    serde_json are parameters, as for [ManifestStore]. *)
From Stdlib Require Import Ascii.
From S2P Require Import Prelude.
From S2P Require Import Errors.
From S2P Require Import Paths.
From S2P Require Import FileSystem.
From S2P Require Import FileWrites.
From S2P Require Import Manifest.
From S2P Require Import ManifestJson.
From S2P Require Import Recovery.
From S2P Require Import ManifestStore.

(** One file of a [FilePlan]. *)
Record PlannedFile := mkPlanned { planned_staged : string; planned_final : string }.

(** [DumpFailure]: the second part says that a manifest may be on disk. *)
Abbreviation DumpFailure := (LambError * option unit)%type.
Abbreviation DP := (M Store DumpFailure).

Definition dump_durable : option unit := Some tt.

(** [map_err(|error| (error, durable))] *)
Definition failing {A} (durable : option unit) (m : W A) : DP A := fun s =>
  match m s with
  | (s', Ok a) => (s', Ok a)
  | (s', Err e) => (s', Err (e, durable))
  | (s', Panic) => (s', Panic)
  end.

Definition path_to_str (path description : string) : Result string :=
  ok_or (to_str path) (Validation (description +:+ " is not valid UTF-8: " +:+ path)).

(** A change of the manifest that the publication builds. *)
Definition change {A} (c : MT A) (m : TransactionManifest) : Result (TransactionManifest * A) :=
  match c m with
  | (m', Ok a) => Ok (m', a)
  | (_, Err e) => Err e
  | (_, Panic) => Panic
  end.

Definition push_text (path description : string) (m : TransactionManifest) : Result (TransactionManifest * PathRef) :=
  let? text := path_to_str path description in change (push_path text) m.

(** [str::strip_prefix] *)
Definition str_strip_prefix (p s : string) : option string :=
  if str_starts_with s p then Some (String.substring (String.length p) (String.length s - String.length p) s) else None.

(** The [transaction_id] of a staging directory. *)
Definition dump_transaction_id (staging_directory : string) : option string :=
  name ← file_name staging_directory; name ← to_str name; id ← str_strip_prefix ".tmp-lamb-" name;
  if String.eqb id "" then None else Some id.

Definition sync_published_file (path : string) : R unit :=
  let! file := io path (open_file path) in io path (sync_all file).

(** The names of the checkpoints; [NoopPreparedPublicationHook] ignores them. *)
Inductive PublicationCheckpoint :=
  | RecallManifestPrepared
  | RecallParentCreatedBeforeOwnedManifest (index : Z) | RecallParentOwnedManifestRecorded (index : Z)
  | RecallPartialCreatedBeforeManifest (index : Z) | RecallPartialSynced (index : Z) | RecallBeforeFinalRename (index : Z)
  | RecallRenamedBeforeManifest (index : Z) | RecallAfterFinalRename (index : Z)
  | RecallFilesSynced | RecallOutputSynced | RecallCompleteRecorded
  | DumpFilesSynced | DumpDirectorySynced | DumpManifestPrepared | DumpAfterRename | DumpParentSynced
  | DumpCompleteRecorded.

Definition checkpoint (c : PublicationCheckpoint) : W unit := ret tt.

(** [rename_no_replace_at] *)
Definition rename_no_replace_at (parent : Node) (old_name new_name error_path : string) : R unit :=
  io error_path (renameat2 parent old_name new_name RENAME_NOREPLACE).

(** The check at the start: nothing may be at the final path. *)
Definition final_directory_absent (output_directory : string) : R unit :=
  let! r := attempt (symlink_metadata output_directory) in
  match r with
  | Err NotFound => ret tt
  | Err e => fail (io_error output_directory (describe e))
  | Ok _ => fail (io_error output_directory "final dump directory already exists")
  | Panic => panic
  end.

(** The loop over the files: their paths and identities go into the manifest. *)
Fixpoint record_entries (index : Z) (planned : list PlannedFile) (m : TransactionManifest) : R TransactionManifest :=
  match planned with
  | [] => ret m
  | file :: rest =>
      let! i := capture_identity (planned_staged file) in
      let! (m, staged_ref) := lift (push_text (planned_staged file) "staged path" m) in
      let! (m, final_ref) := lift (push_text (planned_final file) "final path" m) in
      let! (m, _) := lift (change (entry_mut index (fun slot =>
        slot <| staged_path := staged_ref |> <| staged_identity := Some i |> <| partial_path := no_path |>
             <| final_path := final_ref |> <| final_identity := Some i |>)) m) in
      record_entries (index + 1) rest m
  end.

Fixpoint sync_entries (m : TransactionManifest) (l : list ManifestEntrySlot) : R unit :=
  match l with
  | [] => ret tt
  | e :: rest =>
      let! p := lift (path m (staged_path e)) in
      sync_published_file p ;;
      sync_entries m rest
  end.

(** ** Paths in fixed buffers (src/persistence_workspace.rs)

    A [ReusablePath] is its text, up to the first NUL of a buffer of [capacity]
    bytes. *)
Section reusable_path.
Context (capacity : Z).

Definition push_bytes (value p : string) : Result string :=
  if contains nul value then Err (Export "path contains an embedded NUL byte")
  else
    let? end_ := ok_or (add_checked (slen p) (slen value)) (ExportInvariant "workspace path length overflow") in
    if capacity <? end_
    then Err (Export ("path requires " +:+ pretty end_ +:+ " bytes but workspace capacity is " +:+ pretty capacity))
    else Ok (p +:+ value).

Definition set_path (path : string) : Result string := push_bytes path "".

Definition push_separator (p : string) : Result string :=
  if negb (String.eqb p "") && negb (ends_slash p) then push_bytes "/" p else Ok p.

(** [OwnedTransactionArtifacts::prepare_atomic_manifest_path] *)
Definition prepare_atomic_manifest_path (transaction_root final_root : string) : Result string :=
  let? id := ok_or (dump_transaction_id transaction_root) (ExportInvariant "prepared dump transaction id is invalid") in
  let? output_parent := ok_or (Paths.parent final_root) (ExportInvariant "prepared dump final directory has no parent") in
  let? p := set_path output_parent in
  let? p := push_separator p in
  let? p := push_bytes "." p in
  let? p := push_bytes id p in
  push_bytes ".manifest.json" p.
End reusable_path.

Section publish.
Context `{Kernel}.
Context `{JsonText}.
Context `{JsonCodec Z, JsonCodec TransactionKind, JsonCodec ManifestPhase, JsonCodec FileIdentity,
          JsonCodec ManifestDirectoryState}.
Context (geteuid : Z).

(** The buffers of the workspace. *)
Record Scratch := mkScratch {
  plan_slots : list ManifestEntrySlot;
  path_bytes : list ascii;
  serialization : Z;
  component_a : Z;
  component_b : Z;
}.

(** The manifest before its entries. *)
Definition dump_manifest_head (b : Scratch) (staging_directory output_directory output_parent id : string)
    (staging_identity : FileIdentity) (count : Z) : Result TransactionManifest :=
  let m := new_with_directories (plan_slots b) [] (path_bytes b) in
  let m := m <| version := MANIFEST_VERSION |> <| uid := geteuid |> <| kind := AtomicDirectory |>
             <| phase := Prepared |> in
  let? (m, r) := change (push_path id) m in
  let m := m <| transaction_id := r |> in
  let? (m, r) := push_text staging_directory "staging directory" m in
  let m := m <| staging_root_path := r |> <| staging_root_identity := Some staging_identity |> in
  let? (m, r) := push_text output_parent "dump parent" m in
  let m := m <| output_root := r |> in
  let? (m, r) := push_text output_directory "dump final directory" m in
  let m := m <| final_directory_path := r |> <| final_directory_identity := Some staging_identity |> in
  let? (m, _) := change (set_entry_count count) m in
  Ok m.

(** Whether a failed first write has left a manifest. *)
Definition durable_manifest (manifest_path : string) : M Store DumpFailure (option unit) := fun s =>
  match attempt (symlink_metadata manifest_path) (files s) with
  | (fs', Ok (Ok md)) => (s <| files := fs' |>, Ok (if is_file md && negb (is_symlink md) then Some tt else None))
  | (fs', Panic) => (s <| files := fs' |>, Panic)
  | (fs', _) => (s <| files := fs' |>, Ok None)
  end.

(** What precedes the first write of the manifest. *)
Definition prepare_dump (b : Scratch) (planned : list PlannedFile)
    (staging_directory output_directory output_parent : string) (staging_identity : FileIdentity)
    : W (string * Node * TransactionManifest) :=
  on_files (final_directory_absent output_directory) ;;
  let! id := lift (ok_or (dump_transaction_id staging_directory)
                     (ExportInvariant "prepared dump transaction id is invalid")) in
  let! manifest_parent := on_files (io output_parent (open_file output_parent)) in
  let! m := lift (dump_manifest_head b staging_directory output_directory output_parent id staging_identity (zlen planned)) in
  let! m := on_files (record_entries 0 planned m) in
  let! es := lift (entries m) in
  on_files (sync_entries m es) ;;
  checkpoint DumpFilesSynced ;;
  on_files (sync_directory staging_directory) ;;
  checkpoint DumpDirectorySynced ;;
  ret (id, manifest_parent, m).

Definition persist (b : Scratch) (manifest_path : string) (m : TransactionManifest) (manifest_parent : Node)
    (id : string) : W unit :=
  persist_manifest_prepared geteuid (serialization b) (component_a b) (component_b b) manifest_path m manifest_parent id.

(** The rename and what follows it. *)
Definition commit_dump (b : Scratch) (staging_directory output_directory output_parent manifest_path : string)
    (id : string) (manifest_parent : Node) (m : TransactionManifest) : W unit :=
  checkpoint DumpManifestPrepared ;;
  let! staging_name := lift (ok_or (file_name staging_directory)
                               (ExportInvariant "prepared dump staging directory has no filename")) in
  let! output_name := lift (ok_or (file_name output_directory)
                              (ExportInvariant "prepared dump output directory has no filename")) in
  let! (staging_name, output_name) :=
    on_files (io output_directory (lift (prepare_component_pair (component_a b) (component_b b) staging_name output_name))) in
  on_files (rename_no_replace_at manifest_parent staging_name output_name output_directory) ;;
  checkpoint DumpAfterRename ;;
  on_files (sync_directory output_parent) ;;
  checkpoint DumpParentSynced ;;
  let m := m <| phase := Complete |> in
  persist b manifest_path m manifest_parent id ;;
  checkpoint DumpCompleteRecorded ;;
  let! _ := on_files (verify_manifest_matches (serialization b) manifest_path m) in
  ret tt.

(** [publish_dump_inner] *)
Definition publish_dump_inner (b : Scratch) (planned : list PlannedFile)
    (staging_directory output_directory output_parent manifest_path : string) (staging_identity : FileIdentity) : DP unit :=
  let! (id, manifest_parent, m) :=
    failing None (prepare_dump b planned staging_directory output_directory output_parent staging_identity) in
  modify (fun s => s <| current_manifest := None |>) ;;
  let! r := failing None (catch (persist b manifest_path m manifest_parent id)) in
  match r with
  | Ok _ =>
      failing dump_durable (commit_dump b staging_directory output_directory output_parent manifest_path id manifest_parent m)
  | Err e => let! durable := durable_manifest manifest_path in fail (e, durable)
  | Panic => panic
  end.

(** What the caller does with the staging directory follows from the result:
    [Published] and [Indeterminate] leave it to recovery, after a
    [RetryableFailure] it is removed. *)
Inductive PreparedPublication := Published | RetryableFailure (e : LambError) | Indeterminate (operation : LambError).

(** The three directories of a plan. *)
Definition dump_directories (planned : list PlannedFile) : Result (string * string * string) :=
  match planned with
  | [] => Err (ExportInvariant "prepared dump has no files")
  | first :: _ =>
      let? staging_directory := ok_or (Paths.parent (planned_staged first))
                                  (ExportInvariant "prepared dump staging path has no parent") in
      let? output_directory := ok_or (Paths.parent (planned_final first))
                                 (ExportInvariant "prepared dump final path has no parent") in
      let? output_parent := ok_or (Paths.parent output_directory)
                              (ExportInvariant "prepared dump final directory has no parent") in
      Ok (staging_directory, output_directory, output_parent)
  end.

(** [publish_prepared_dump]; [transaction_root] and [final_root] are the first
    and the third path of the workspace. *)
Definition publish_prepared_dump (b : Scratch) (capacity : Z) (transaction_root final_root : string)
    (planned : list PlannedFile) (staging_identity : FileIdentity) : M Store DumpFailure PreparedPublication := fun s =>
  match prepare_atomic_manifest_path capacity transaction_root final_root with
  | Err e => (s, Ok (RetryableFailure e))
  | Panic => (s, Panic)
  | Ok manifest_path =>
      match dump_directories planned with
      | Err e => (s, Ok (RetryableFailure e))
      | Panic => (s, Panic)
      | Ok (staging_directory, output_directory, output_parent) =>
          match publish_dump_inner b planned staging_directory output_directory output_parent manifest_path
                  staging_identity s with
          | (s', Ok _) => (s', Ok Published)
          | (s', Err (e, Some _)) => (s', Ok (Indeterminate e))
          | (s', Err (e, None)) => (s', Ok (RetryableFailure e))
          | (s', Panic) => (s', Panic)
          end
      end
  end.
End publish.
