(* ===== verification/DumpPublishSpec.v ===== *)
(** * The manifest of a dump, and the steps of its publication

    The manifest that [publish_dump_inner] builds says where every file is
    staged and goes, with the identities that the files have; and every state
    that the publication can leave behind is one of a few. *)
From Stdlib Require Import Ascii.
From S2P Require Import Prelude.
From S2P Require Import Errors.
From S2P Require Import Paths.
From S2P Require Import FileSystem.
From S2P Require Import FileWrites.
From S2P Require Import Manifest.
From S2P Require Import ManifestJson.
From S2P Require Import ManifestTheorems.
From S2P Require Import Recovery.
From S2P Require Import RecoverySpec.
From S2P Require Import RecoverySync.
From S2P Require Import ManifestStore.
From S2P Require Import ManifestStoreTheorems.
From S2P Require Import DumpPublish.

(** ** Pushed texts *)

(** What a push leaves of a manifest. *)
Lemma push_cases value a : arena_ok a -> utf8 value = true ->
  match push value a with
  | (a', Ok r) => arena_ok a' /\ named a' r value /\ grows a a'
  | _ => True
  end.
Proof.
  intros Ha Hv. pose proof (push_reads_back value a Ha Hv) as H. destruct (push value a) as [a' [r|e|]]; [|done|done].
  by destruct H as (H1 & H2 & H3 & _).
Qed.

Lemma change_push_path value m m' r : arena_ok (path_arena m) -> utf8 value = true ->
  change (push_path value) m = Ok (m', r) ->
  exists a', m' = m <| path_arena := a' |> /\ arena_ok a' /\ named a' r value /\ grows (path_arena m) a'.
Proof.
  intros Ha Hv H. unfold change, push_path in H. pose proof (push_cases value (path_arena m) Ha Hv) as Hp.
  destruct (push value (path_arena m)) as [a' [x|e|]]; [|done|done]. injection H as <- <-. by exists a'.
Qed.

Lemma push_text_Ok value description m m' r : arena_ok (path_arena m) ->
  push_text value description m = Ok (m', r) ->
  exists a', m' = m <| path_arena := a' |> /\ arena_ok a' /\ named a' r value /\ grows (path_arena m) a'.
Proof.
  intros Ha H. unfold push_text, path_to_str, to_str in H. destruct (utf8 value) eqn:Hv; [|done]. cbn [ok_or obind] in H.
  by apply change_push_path.
Qed.

(** ** The files of a plan with their identities *)

Definition staged_entry (x : PlannedFile * FileIdentity) : EntryText :=
  mkEntryText (planned_staged x.1, Some x.2) None (planned_final x.1, Some x.2).

(** The identities that the loop captures. *)
Definition captured (nodes : gmap Key Node) (x : PlannedFile * FileIdentity) : Prop :=
  exists fs k n, tree fs = nodes /\ lookup_at fs (planned_staged x.1) = Ok (k, n) /\ identity_from_metadata n = x.2.

Lemma capture_identity_spec p fs fs' o : capture_identity p fs = (fs', o) ->
  reads fs fs' /\ forall i, o = Ok i ->
    exists k n, lookup_at fs p = Ok (k, n) /\ identity_from_metadata n = i /\ is_symlink n = false.
Proof.
  unfold capture_identity, bind. rewrite io_run, symlink_metadata_run.
  assert (reads fs (next fs)) as R by apply next_reads.
  destruct (fault_now fs); [intros [= <- <-]; by split|].
  destruct (lookup_at fs p) as [[k n]|e|]; cbn; [|intros [= <- <-]; by split..].
  destruct (is_symlink n) eqn:E; intros [= <- <-]; (split; [exact R|]); [done|]. intros i [= <-]. by exists k, n.
Qed.

Lemma entry_mut_Ok index f m m' u : change (entry_mut index f) m = Ok (m', u) ->
  0 <= index < zlen (slots m) /\ m' = m <| slots := zupdate (slots m) index f |>.
Proof.
  unfold change, entry_mut. rewrite bind_get. unfold entry, bind at 1, lift. unfold zlookup.
  destruct (Z.leb_spec 0 index); [|done].
  destruct (slots m !! Z.to_nat index) as [e|] eqn:E; cbn [unwrap]; [|done]. intros [= <- _].
  apply lookup_lt_Some in E. unfold zlen. split; [lia|done].
Qed.

(** An empty slot is overwritten as a whole. *)
Definition entry_slot (i : FileIdentity) (staged_ref final_ref : PathRef) (slot : ManifestEntrySlot) : ManifestEntrySlot :=
  slot <| staged_path := staged_ref |> <| staged_identity := Some i |> <| partial_path := no_path |>
       <| final_path := final_ref |> <| final_identity := Some i |>.

Lemma entry_slot_named a i r1 r2 slot p : named a r1 (planned_staged p) -> named a r2 (planned_final p) ->
  partial_identity slot = None -> entry_named a (entry_slot i r1 r2 slot) (staged_entry (p, i)).
Proof. intros H1 H2 Hp. split; [done|]. by split. Qed.

Lemma zupdate_at {A} (l : list A) i f x : zlookup l i = Some x -> zupdate l i f = zupdate l i (fun _ => f x).
Proof.
  unfold zlookup, zupdate. destruct (0 <=? i); [|done]. intros Hx. apply list_alter_ext; [|done].
  intros y Hy. congruence.
Qed.

Definition unpublished (e : ManifestEntrySlot) : Prop := partial_identity e = None.

Lemma record_entries_spec planned index m fs fs' m' ts :
  record_entries index planned m fs = (fs', Ok m') -> arena_ok (path_arena m) -> 0 <= index ->
  Forall unpublished (slots m) -> Forall2 (entry_named (path_arena m)) (segment (slots m) 0 index) ts ->
  exists ids a s, m' = m <| path_arena := a |> <| slots := s |> /\ reads fs fs' /\ length ids = length planned
    /\ arena_ok a /\ grows (path_arena m) a /\ zlen s = zlen (slots m)
    /\ Forall2 (entry_named a) (segment s 0 (index + zlen planned)) (ts ++ map staged_entry (zip planned ids))
    /\ Forall (captured (tree fs)) (zip planned ids).
Proof.
  revert index m fs ts. induction planned as [|p planned IH]; intros index m fs ts H Ha Hi Hun HF; cbn [record_entries] in H.
  { injection H as <- <-. exists [], (path_arena m), (slots m). split; [by destruct m|]. split; [done|]. split; [done|].
    split; [done|]. split; [done|]. split; [done|]. cbn [zip zip_with map]. rewrite app_nil_r. change (zlen (@nil PlannedFile)) with 0.
    rewrite Z.add_0_r. split; [done|constructor]. }
  apply bind_inv in H as (fs1 & i & H1 & H). destruct (capture_identity_spec _ _ _ _ H1) as [R1 Hcap].
  destruct (Hcap i eq_refl) as (k & n & Hk & Hn & _). clear Hcap.
  apply bind_lift_inv in H as ([m1 r1] & P1 & H). destruct (push_text_Ok _ _ _ _ _ Ha P1) as (a1 & -> & Ha1 & N1 & G1).
  apply bind_lift_inv in H as ([m2 r2] & P2 & H).
  eapply push_text_Ok in P2 as (a2 & -> & Ha2 & N2 & G2); [|exact Ha1].
  apply bind_lift_inv in H as ([m3 u] & P3 & H). apply entry_mut_Ok in P3 as [Hb ->].
  change (path_arena (m <| path_arena := a1 |>)) with a1 in G2.
  change (slots ((m <| path_arena := a1 |>) <| path_arena := a2 |>)) with (slots m) in *.
  destruct (zlookup_lt (slots m) index Hb) as [x Hx].
  assert (unpublished x) as Hux.
  { rewrite Forall_forall in Hun. apply Hun. apply list_elem_of_lookup. exists (Z.to_nat index).
    unfold zlookup in Hx. by destruct (0 <=? index). }
  assert (grows (path_arena m) a2) as G02 by (etrans; [exact G1|exact G2]).
  match type of H with record_entries _ _ ?mm _ = _ => set (m4 := mm) in * end.
  assert (slots m4 = zupdate (slots m) index (fun _ => entry_slot i r1 r2 x)) as Hs4.
  { change (slots m4) with (zupdate (slots m) index (entry_slot i r1 r2)). by apply zupdate_at. }
  assert (Forall unpublished (slots m4)) as Hun4.
  { rewrite Hs4. unfold zupdate. destruct (0 <=? index); [|done]. apply Forall_alter; [done|]. by intros. }
  destruct (IH (index + 1) m4 fs1 (ts ++ [staged_entry (p, i)]) H Ha2) as (ids & a & s & Em & R2 & Hl & Ha' & G' & Hz & HF' & Hc').
  - lia.
  - done.
  - rewrite Hs4, segment_zupdate by done. apply Forall2_app.
    + eapply Forall2_impl; [exact HF|]. intros e t. by apply entry_named_grows.
    + constructor; [|constructor]. apply entry_slot_named; [by apply G2|exact N2|exact Hux].
  - exists (i :: ids), a, s. split; [exact Em|]. split; [etrans; [exact R1|exact R2]|]. split; [cbn; by rewrite Hl|].
    split; [done|]. split; [etrans; [exact G02|exact G']|]. split; [by rewrite Hz, Hs4, zlen_zupdate|].
    rewrite <-app_assoc in HF'. cbn [zip zip_with map app] in *.
    replace (index + zlen (p :: planned)) with (index + 1 + zlen planned) by (unfold zlen; cbn [length]; lia).
    split; [exact HF'|]. constructor; [by exists fs, k, n|]. by rewrite <-(rd_tree _ _ R1).
Qed.

(** ** The manifest *)

Definition dump_text (geteuid : Z) (id staging_directory output_directory output_parent : string)
    (i : FileIdentity) (p : ManifestPhase) (files : list (PlannedFile * FileIdentity)) : ManifestText :=
  mkText MANIFEST_VERSION geteuid id AtomicDirectory p (staging_directory, Some i) output_parent
    (Some (output_directory, Some i)) (map staged_entry files) [].

(** The head of the manifest, before the entries. *)
Record heads (m : TransactionManifest) (geteuid : Z) (id staging_directory output_directory output_parent : string)
    (i : FileIdentity) (count : Z) : Prop := mkHeads {
  hd_arena : arena_ok (path_arena m);
  hd_fields : version m = MANIFEST_VERSION /\ uid m = geteuid /\ kind m = AtomicDirectory /\ phase m = Prepared
              /\ staging_root_identity m = Some i /\ final_directory_identity m = Some i
              /\ directory_slots m = [] /\ directory_count m = 0 /\ directory_journal_present m = true;
  hd_id : named (path_arena m) (transaction_id m) id;
  hd_staging : named (path_arena m) (staging_root_path m) staging_directory;
  hd_output : named (path_arena m) (output_root m) output_parent;
  hd_directory : named (path_arena m) (final_directory_path m) output_directory;
  hd_count : entry_count m = count /\ count <= zlen (slots m);
  hd_slots : Forall unpublished (slots m);
}.

(** The head as a record, with the arena and the references so far. *)
Definition head_manifest (geteuid : Z) (i : FileIdentity) (l : list ManifestEntrySlot) (a : PathArena)
    (r1 r2 r3 r4 : PathRef) (s d : option FileIdentity) (count : Z) : TransactionManifest :=
  mkManifest MANIFEST_VERSION geteuid AtomicDirectory Prepared r1 r2 s r3 r4 d count l [] 0 true a.

Lemma head_arena geteuid i l a r1 r2 r3 r4 s d count : path_arena (head_manifest geteuid i l a r1 r2 r3 r4 s d count) = a.
Proof. done. Qed.

Lemma set_entry_count_Ok count m m' u : change (set_entry_count count) m = Ok (m', u) ->
  count <= zlen (slots m) /\ m' = m <| entry_count := count |>.
Proof.
  unfold change, set_entry_count. rewrite bind_get. unfold bind, fail_if.
  destruct (Z.ltb_spec (zlen (slots m)) count) as [|Hc]; [done|]. intros [= <- _]. by split.
Qed.

Lemma dump_manifest_head_spec geteuid b staging out parent id i count m : utf8 id = true ->
  dump_manifest_head geteuid b staging out parent id i count = Ok m ->
  heads m geteuid id staging out parent i count.
Proof.
  intros Hid H. unfold dump_manifest_head in H. cbv zeta in H.
  set (l := map (fun _ => default_entry) (plan_slots b)). set (a0 := new_arena (path_bytes b)).
  assert (arena_ok a0) as A0 by (split; [done|cbn; apply zlen_nonneg]).
  match type of H with context [change (push_path id) ?m] =>
    replace m with (head_manifest geteuid i l a0 no_path no_path no_path no_path None None 0) in H by reflexivity end.
  apply obind_Ok in H as ([m1 r1] & P1 & H). eapply change_push_path in P1 as (a1 & -> & A1 & N1 & G1); [|exact A0|done].
  rewrite head_arena in G1.
  match type of H with context [push_text staging _ ?m] =>
    replace m with (head_manifest geteuid i l a1 r1 no_path no_path no_path None None 0) in H by reflexivity end.
  apply obind_Ok in H as ([m2 r2] & P2 & H). eapply push_text_Ok in P2 as (a2 & -> & A2 & N2 & G2); [|exact A1].
  rewrite head_arena in G2.
  match type of H with context [push_text parent _ ?m] =>
    replace m with (head_manifest geteuid i l a2 r1 r2 no_path no_path (Some i) None 0) in H by reflexivity end.
  apply obind_Ok in H as ([m3 r3] & P3 & H). eapply push_text_Ok in P3 as (a3 & -> & A3 & N3 & G3); [|exact A2].
  rewrite head_arena in G3.
  match type of H with context [push_text out _ ?m] =>
    replace m with (head_manifest geteuid i l a3 r1 r2 r3 no_path (Some i) None 0) in H by reflexivity end.
  apply obind_Ok in H as ([m4 r4] & P4 & H). eapply push_text_Ok in P4 as (a4 & -> & A4 & N4 & G4); [|exact A3].
  rewrite head_arena in G4.
  match type of H with context [change (set_entry_count count) ?m] =>
    replace m with (head_manifest geteuid i l a4 r1 r2 r3 r4 (Some i) (Some i) 0) in H by reflexivity end.
  apply obind_Ok in H as ([m5 u] & P5 & H). injection H as <-. apply set_entry_count_Ok in P5 as [Hc ->].
  match goal with |- heads ?m _ _ _ _ _ _ _ =>
    replace m with (head_manifest geteuid i l a4 r1 r2 r3 r4 (Some i) (Some i) count) by reflexivity end.
  assert (grows a2 a4) as G24 by (etrans; [exact G3|exact G4]).
  assert (grows a1 a4) as G14 by (etrans; [exact G2|exact G24]).
  constructor; [exact A4|done|by apply G14|by apply G24|by apply G4|exact N4|done|].
  apply Forall_forall. intros e He. apply list_elem_of_In, in_map_iff in He as (x & <- & _). done.
Qed.

Lemma strip_prefix_Some p s r : str_strip_prefix p s = Some r -> s = p +:+ r.
Proof.
  unfold str_strip_prefix, str_starts_with. destruct (String.prefix p s) eqn:E; [|done]. intros [= <-].
  apply String.prefix_correct in E. rewrite <-E at 1. by rewrite substring_split.
Qed.

Lemma transaction_id_Some staging id : dump_transaction_id staging = Some id ->
  file_name staging = Some (".tmp-lamb-" +:+ id) /\ utf8 id = true /\ id <> "".
Proof.
  unfold dump_transaction_id, to_str. destruct (file_name staging) as [name|]; [|done]. cbn [mbind option_bind].
  destruct (utf8 name) eqn:Eu; [|done]. cbn [mbind option_bind].
  destruct (str_strip_prefix _ name) as [r|] eqn:E; [|done]. cbn [mbind option_bind].
  destruct (String.eqb_spec r ""); [done|]. intros [= <-]. apply strip_prefix_Some in E as ->. done.
Qed.

Lemma means_phase m t p : means m t ->
  means (m <| phase := p |>) (mkText (t_version t) (t_uid t) (t_id t) (t_kind t) p (t_staging t) (t_output t)
                                (t_directory t) (t_entries t) (t_created t)).
Proof. intros [H1 H2 H3 H4 H5 H6 H7 H8 H9 H10]. by constructor. Qed.

(** The head with the entries. *)
Lemma heads_mean m geteuid id staging out parent i files a s :
  heads m geteuid id staging out parent i (zlen files) -> out <> "" ->
  grows (path_arena m) a -> zlen s = zlen (slots m) ->
  Forall2 (entry_named a) (segment s 0 (zlen files)) (map staged_entry files) ->
  means (m <| path_arena := a |> <| slots := s |>) (dump_text geteuid id staging out parent i Prepared files).
Proof.
  intros [HA (F1 & F2 & F3 & F4 & F5 & F6 & F7 & F8 & F9) H1 H2 H3 H4 [H5 H5'] H6] Hout G Hz HF.
  destruct m as [v u k p r1 r2 si r3 r4 di c l dl dn dj a0]. cbn in F1, F2, F3, F4, F5, F6, F7, F8, F9, H1, H2, H3, H4, H5, Hz, G.
  subst v u k p si di dl dn dj c. cbn [slots] in H5'.
  set (m' := _ <| slots := s |>). assert (path_arena m' = a) as Ha by done.
  constructor; try done.
  - eapply named_path; [exact Ha|by apply G].
  - split; [|done]. eapply named_path; [exact Ha|by apply G].
  - eapply named_path; [exact Ha|by apply G].
  - apply (option_named_read m' a r4 (Some i) (Some (out, Some i))); [done|]. split; [by apply G|done].
  - exists (segment s 0 (zlen files)). split.
    + unfold entries. change (slots m') with s. change (entry_count m') with (zlen files).
      pose proof (zlen_nonneg files). rewrite slice_Some by lia. by rewrite Z.sub_0_r.
    + eapply Forall2_impl; [exact HF|]. intros e t. apply (entry_named_reads m' e t).
Qed.

(** *** Steps that only read *)

Lemma keeps_open_file P p : keeps (removes_only P) (open_file p).
Proof. unfold open_file. apply keeps_syscall. keep_steps. Qed.
#[export] Hint Resolve keeps_open_file : files.

Lemma keeps_sync_published P p : keeps (removes_only P) (sync_published_file p).
Proof. unfold sync_published_file. recovery_steps. Qed.
#[export] Hint Resolve keeps_sync_published : files.

Lemma keeps_sync_entries P m l : keeps (removes_only P) (sync_entries m l).
Proof. induction l as [|e l IH]; cbn [sync_entries]; recovery_steps; apply IH. Qed.
Lemma keeps_final_directory_absent P p : keeps (removes_only P) (final_directory_absent p).
Proof. unfold final_directory_absent. recovery_steps. Qed.
Lemma keeps_capture_identity P p : keeps (removes_only P) (capture_identity p).
Proof. unfold capture_identity. recovery_steps. Qed.
#[export] Hint Resolve keeps_sync_entries keeps_final_directory_absent keeps_capture_identity : files.
Lemma keeps_record_entries P index planned m : keeps (removes_only P) (record_entries index planned m).
Proof.
  revert index m. induction planned as [|p planned IH]; intros index m; cbn [record_entries]; recovery_steps; apply IH.
Qed.
#[export] Hint Resolve keeps_record_entries : files.

(** A step of the publication on the file system alone. *)
Lemma on_files_inv {A} (m : R A) s s' a : on_files m s = (s', Ok a) ->
  m (files s) = (files s', Ok a) /\ current_manifest s' = current_manifest s.
Proof. unfold on_files. destruct (m (files s)) as [fs o]. by intros [= <- ->]. Qed.

(** A relation of stores: only the file system is read. *)
Definition store_reads (s s' : Store) : Prop := reads (files s) (files s') /\ current_manifest s' = current_manifest s.

#[export] Instance store_reads_preorder : PreOrder store_reads.
Proof.
  split; [intros s; by split|]. intros s1 s2 s3 [R1 C1] [R2 C2]. split; [etrans; [exact R1|exact R2]|congruence].
Qed.

Lemma keeps_on_files {A} (m : R A) : keeps (removes_only (fun _ _ => False)) m -> keeps store_reads (on_files m).
Proof.
  intros Hm s. specialize (Hm (files s)). unfold on_files. destruct (m (files s)) as [fs o]. cbn in *.
  split; [by apply removes_reads|done].
Qed.

Section prepare.
Context (geteuid : Z) (b : Scratch) (planned : list PlannedFile) (staging out parent_path : string) (sid : FileIdentity).

Lemma keeps_prepare : keeps store_reads (prepare_dump geteuid b planned staging out parent_path sid).
Proof using Type.
  unfold prepare_dump, checkpoint.
  repeat first [ apply keeps_bind; [tc_solve| |intros ?] | apply keeps_lift; tc_solve | apply keeps_ret; tc_solve
               | apply keeps_on_files; solve [recovery_steps] | progress case_match ].
Qed.

(** What is known once the manifest may be written. *)
Record prepared (s s' : Store) (id : string) (parent : Node) (m : TransactionManifest) (ids : list FileIdentity) : Prop :=
  mkPrepared {
  pr_reads : store_reads s s';
  pr_id : dump_transaction_id staging = Some id;
  pr_parent : exists fs fs', tree fs = tree (files s) /\ open_file parent_path fs = (fs', Ok parent);
  pr_absent : exists fs, tree fs = tree (files s) /\ lookup_at fs out = Err NotFound;
  pr_length : length ids = length planned;
  pr_captured : Forall (captured (tree (files s))) (zip planned ids);
  pr_means : means m (dump_text geteuid id staging out parent_path sid Prepared (zip planned ids));
}.

Lemma io_Ok {A} p (m : FS A) fs fs' a : io p m fs = (fs', Ok a) -> m fs = (fs', Ok a).
Proof using Type. rewrite io_run. destruct (m fs) as [fs1 [x|e|]]; by intros [= <- <-]. Qed.

Lemma prepare_dump_spec s s' id parent m : out <> "" ->
  prepare_dump geteuid b planned staging out parent_path sid s = (s', Ok (id, parent, m)) ->
  exists ids, prepared s s' id parent m ids.
Proof using Type.
  intros Hout H. pose proof (keeps_prepare s) as R. rewrite H in R. cbn [fst] in R. unfold prepare_dump in H.
  apply bind_inv in H as (s1 & [] & H1 & H). pose proof (keeps_on_files _ (keeps_final_directory_absent _ out) s) as R1.
  rewrite H1 in R1. destruct R1 as [R1 C1]. cbn [fst] in *. apply on_files_inv in H1 as [H1 _].
  apply bind_lift_inv in H as (id' & Hid & H). apply ok_or_Ok in Hid.
  apply bind_inv in H as (s2 & parent' & H2 & H). pose proof (keeps_on_files (io parent_path (open_file parent_path)) ltac:(recovery_steps) s1) as R2.
  rewrite H2 in R2. destruct R2 as [R2 C2]. cbn [fst] in *. apply on_files_inv in H2 as [H2 _].
  apply bind_lift_inv in H as (m1 & Hm1 & H).
  apply bind_inv in H as (s3 & m2 & H3 & H). apply on_files_inv in H3 as [H3 _].
  apply bind_lift_inv in H as (es & _ & H). apply bind_inv in H as (s4 & [] & _ & H). unfold checkpoint in H. rewrite bind_ret in H.
  apply bind_inv in H as (s5 & [] & _ & H). rewrite bind_ret in H. injection H as _ <- <- <-.
  destruct (transaction_id_Some _ _ Hid) as (_ & Hu & _).
  pose proof (dump_manifest_head_spec _ _ _ _ _ _ _ _ _ Hu Hm1) as Hd.
  assert (tree (files s2) = tree (files s)) as T2 by by rewrite (rd_tree _ _ R2), (rd_tree _ _ R1).
  destruct (record_entries_spec planned 0 m1 _ _ _ [] H3 (hd_arena _ _ _ _ _ _ _ _ Hd)) as (ids & a & sl & -> & R3 & Hl & Ha & G & Hz & HF & Hc);
    [done|apply Hd|constructor|]. rewrite Z.add_0_l, app_nil_l in HF.
  assert (zlen (zip planned ids) = zlen planned) as Hzip.
  { unfold zlen. rewrite length_zip_with. lia. }
  exists ids. constructor; [done|done| | |done| |].
  - apply io_Ok in H2. exists (files s1), (files s2). by rewrite (rd_tree _ _ R1).
  - unfold final_directory_absent, bind in H1. rewrite attempt_run, symlink_metadata_run in H1.
    exists (files s). split; [done|]. destruct (fault_now (files s)); [done|].
    destruct (lookup_at (files s) out) as [[k n]|[]|]; cbn in H1; done.
  - by rewrite <-T2.
  - apply heads_mean; [by rewrite Hzip|done|done|done|by rewrite Hzip].
Qed.
End prepare.

(** ** The states of a publication *)

Section states.
Context {kernel : Kernel} {laws : KernelLaws} {json_text : JsonText} {json_z : JsonCodec Z}
  {json_kind : JsonCodec TransactionKind} {json_phase : JsonCodec ManifestPhase}
  {json_identity : JsonCodec FileIdentity} {json_state : JsonCodec ManifestDirectoryState}.
Context (geteuid : Z) (parent : Node) (N : Key) (mn tn sn dn : string).
Context (Hmn : normal_name mn) (Htn : normal_name tn) (Hsn : normal_name sn) (Hdn : normal_name dn).
Context (Hdiff : NoDup [mn; tn; sn; dn]).

Abbreviation manifest_key := (N ++ [mn]).
Abbreviation temp_key := (N ++ [tn]).
Abbreviation staging_key := (N ++ [sn]).
Abbreviation final_key := (N ++ [dn]).
Abbreviation shown := (view parent N mn tn).

Lemma names_differ : mn <> tn /\ sn <> dn /\ mn <> sn /\ mn <> dn /\ tn <> sn /\ tn <> dn.
Proof using Hdiff.
  apply NoDup_cons in Hdiff as [H1 HD1]. apply NoDup_cons in HD1 as [H2 HD2]. apply NoDup_cons in HD2 as [H3 _].
  split_and!; intros E; [apply H1|apply H3|apply H1|apply H1|apply H2|apply H2]; rewrite E, !elem_of_cons; auto.
Qed.

Lemma exchanged_name x : x <> sn -> x <> dn -> exchanged staging_key final_key (N ++ [x]) = N ++ [x].
Proof using Type. intros H1 H2. apply exchanged_other; apply sibling_prefix; congruence. Qed.

Lemma view_rename base om ot fs fs' : shown base om ot fs -> tree fs' = moved staging_key final_key (tree fs) ->
  shown (moved staging_key final_key base) om ot fs'.
Proof using Hdiff.
  intros [H1 H2 H3 H4] T. destruct names_differ as (D1 & D2 & D3 & D4 & D5 & D6).
  pose proof (siblings_apart N sn dn D2) as Hab. pose proof (exchanged_inj _ _ Hab) as Hinj.
  constructor; rewrite T.
  - intros k Hm Ht. rewrite !lookup_moved by done. apply H1; intros E; [apply Hm|apply Ht]; apply Hinj; rewrite E;
      by rewrite exchanged_name.
  - rewrite lookup_moved, exchanged_name by done. exact H2.
  - rewrite lookup_moved, exchanged_name by done. exact H3.
  - by apply opened_moved.
Qed.

Lemma view_trans base om ot om' ot' fs fs' : shown base om ot fs -> shown (tree fs) om' ot' fs' -> shown base om' ot' fs'.
Proof using Type.
  intros [H1 _ _ _] [H2 H3 H4 H5]. constructor; [|done..]. intros k Hm Ht. rewrite H2 by done. by apply H1.
Qed.

Lemma view_refl fs om ot : opened (tree fs) parent N -> tree fs !! manifest_key = om -> tree fs !! temp_key = ot ->
  shown (tree fs) om ot fs.
Proof using Type. by constructor. Qed.

(** What the names of the manifest may hold after a write that began without a
    temporary file. *)
Inductive wrote (r : Result string) (om : option Node) (s s' : Store) (o : Result unit) : Prop :=
  | wrote_not ot : shown (tree (files s)) om ot (files s') -> o <> Ok tt ->
      current_manifest s' = current_manifest s -> wrote r om s s' o
  | wrote_new content i ot : r = Ok content -> shown (tree (files s)) (Some (file i content)) ot (files s') ->
      current_is (current_manifest s) om -> synced_then_renamed i temp_key manifest_key (files s) (files s') ->
      (o = Ok tt -> ot = None /\ current_manifest s' = Some i) -> wrote r om s s' o.

Lemma persist_spec b mp m id s s' o : file_name mp = Some mn -> tn = "." +:+ mn +:+ "." +:+ id +:+ ".tmp" ->
  opened (tree (files s)) parent N -> serialization b <= u64_max ->
  persist geteuid b mp m parent id s = (s', o) ->
  later (files s) (files s')
  /\ wrote (serialize_bounded (serialization b) m) (tree (files s) !! manifest_key) s s' o.
Proof using Hdiff Hmn Htn laws.
  intros Hf Htn' Ho Hlen H. destruct names_differ as (D1 & _). unfold persist, persist_manifest_prepared in H.
  set (om := tree (files s) !! manifest_key). set (r := serialize_bounded (serialization b) m).
  assert (shown (tree (files s)) om (tree (files s) !! temp_key) (files s)) as V0 by by apply view_refl.
  assert (forall s1 o1, store_reads s s1 -> o1 <> Ok tt -> (s1, o1) = (s', o) ->
    later (files s) (files s') /\ wrote r om s s' o) as Hnot.
  { intros s1 o1 [R C] Ho1 [= <- <-]. split; [apply R|]. eapply wrote_not; [by eapply view_reads|done|done]. }
  rewrite Hf in H. cbn [ok_or] in H. rewrite bind_lift_Ok in H. unfold bind at 1, on_files in H. rewrite io_run in H.
  assert (store_reads s (s <| files := files s |>)) as Rs by by destruct s.
  unfold lift at 1 in H. unfold prepare_component in H. destruct (_ || _); [eapply Hnot; [exact Rs| |exact H]; done|].
  replace (s <| files := files s |>) with s in H by by destruct s. unfold bind at 1, lift at 1 in H.
  destruct (temporary_name (component_b b) mp mn id) as [t|e|] eqn:Et; [|eapply (Hnot s); [done| |exact H]; done..].
  assert (t = tn) as ->.
  { unfold temporary_name in Et. apply obind_Ok in Et as (req & _ & Et). rewrite Htn'.
    destruct (_ <=? _); [done|]. cbv zeta in Et. destruct (contains nul _); [done|]. by injection Et as <-. }
  destruct (write_prepared_at_spec parent N mn tn Hmn Htn D1 _ _ _ _ _ _ _ Ho Hlen H) as [(R & C & Hok)|(c & Hs & Ht & Hc & L & Hpl)];
    [eapply (Hnot s' o); [by split|done|done]|].
  split; [done|]. fold om in Hpl, Hc. fold r in Hs.
  inversion Hpl as [s1 o1 V Hcur Hok E1 E2|s1 o1 z V Hcur Hok E1 E2|s1 o1 old V Hm Hcur Hok Hsr E1 E2|s1 o1 V Hcur Hsr Hok E1 E2];
    subst s1 o1.
  - by eapply wrote_not.
  - by eapply wrote_not.
  - eapply wrote_new; [exact Hs|exact V|exact Hc|exact Hsr|done].
  - eapply wrote_new; [exact Hs|exact V|exact Hc|exact Hsr|done].
Qed.


Lemma keeps_verify_manifest P len mp m : keeps (removes_only P) (verify_manifest_matches len mp m).
Proof using Type.
  unfold verify_manifest_matches, verify_matches, read_identity_fields, read_file_bounded, read_manifest_identity.
  recovery_steps. apply keeps_mloop; [tc_solve|]. intros l. unfold read_turn. recovery_steps.
Qed.

(** The rename was logged after everything that [fs] had logged. *)
Definition renamed_after (fs fs' : FileSystem) : Prop :=
  exists after before, effects fs' = after ++ Renamed staging_key final_key :: before ++ effects fs.

Lemma renamed_after_later fs fs1 fs2 : renamed_after fs fs1 -> later fs1 fs2 -> renamed_after fs fs2.
Proof using Type. intros (l & l' & E) [_ [x Ex] _]. exists (x ++ l), l'. by rewrite Ex, E, <-app_assoc. Qed.

Lemma renamed_after_earlier fs fs1 fs2 : later fs fs1 -> renamed_after fs1 fs2 -> renamed_after fs fs2.
Proof using Type. intros [_ [x Ex] _] (l & l' & E). exists l, (l' ++ x). by rewrite E, Ex, <-app_assoc. Qed.

(** Where a commit may end: before the rename, or after it with the prepared or
    the complete manifest in place. *)
Inductive committed (base : gmap Key Node) (m : TransactionManifest) (len : Z) (c1 : string) (fs0 : FileSystem)
    (s' : Store) (o : Result unit) : Prop :=
  | not_moved i : shown base (Some (file i c1)) None (files s') -> o <> Ok tt -> committed base m len c1 fs0 s' o
  | moved_as i c ot : shown (moved staging_key final_key base) (Some (file i c)) ot (files s') ->
      c = c1 \/ serialize_bounded len (m <| phase := Complete |>) = Ok c ->
      (o = Ok tt -> ot = None /\ serialize_bounded len (m <| phase := Complete |>) = Ok c) ->
      renamed_after fs0 (files s') -> committed base m len c1 fs0 s' o.

Lemma commit_spec base b staging out parent_path mp m id c1 i s s' o :
  file_name staging = Some sn -> file_name out = Some dn -> file_name mp = Some mn ->
  tn = "." +:+ mn +:+ "." +:+ id +:+ ".tmp" -> serialization b <= u64_max ->
  shown base (Some (file i c1)) None (files s) ->
  commit_dump geteuid b staging out parent_path mp id parent m s = (s', o) ->
  committed base m (serialization b) c1 (files s) s' o.
Proof using Hdiff Hdn Hmn Hsn Htn laws.
  intros Hfs Hfd Hfm Htn' Hlen V H. destruct names_differ as (D1 & D2 & _). unfold commit_dump, checkpoint in H.
  rewrite bind_ret, Hfs, Hfd in H. cbn [ok_or] in H. rewrite !bind_lift_Ok in H.
  destruct s as [fs cur]. cbn [files] in *. unfold bind at 1 in H. rewrite on_files_at, io_run in H. unfold lift at 1 in H.
  destruct (prepare_component_pair _ _ _ _) as [[x y]|e|] eqn:Ep;
    [|injection H as <- <-; by eapply not_moved..].
  assert (x = sn /\ y = dn) as [-> ->].
  { unfold prepare_component_pair, prepare_component in Ep. destruct (_ || _); [done|]. cbn [obind] in Ep.
    destruct (_ || _); [done|]. by injection Ep. }
  unfold bind at 1 in H. rewrite on_files_at in H. unfold rename_no_replace_at in H.
  rewrite io_run, (renameat2_run _ _ N sn dn) in H; [|apply V|done..].
  pose proof (view_reads _ _ _ _ _ _ _ _ _ V (next_reads fs)) as V1.
  destruct (fault_now fs); [injection H as <- <-; by eapply not_moved|].
  destruct (tree fs !! staging_key) as [ns|]; [|injection H as <- <-; by eapply not_moved].
  destruct (tree fs !! final_key) as [nd|]; [injection H as <- <-; by eapply not_moved|].
  set (fs2 := move_keys staging_key final_key (next fs)) in *.
  assert (shown (moved staging_key final_key base) (Some (file i c1)) None fs2) as V2 by by eapply view_rename.
  assert (renamed_after fs fs2) as L2 by by exists [], [].
  assert (forall fs' o', reads fs2 fs' -> o' <> Ok tt -> committed base m (serialization b) c1 fs (mkStore fs' cur) o') as Hearly.
  { intros fs' o' R Ho'. eapply moved_as; [by eapply view_reads|by left|done|eapply renamed_after_later; [exact L2|apply R]]. }
  rewrite bind_ret in H. unfold bind at 1 in H. rewrite on_files_at in H.
  destruct (sync_directory parent_path fs2) as [fs3 o3] eqn:E3.
  pose proof (removes_reads _ _ (run_keeps (fun _ _ => False) _ _ _ _ E3 (keeps_sync_directory _ _))) as R3.
  destruct o3 as [[]|e|]; [|injection H as <- <-; by apply Hearly..]. rewrite bind_ret in H.
  pose proof (view_reads _ _ _ _ _ _ _ _ _ V2 R3) as V3.
  pose proof (renamed_after_later _ _ _ L2 (rd_later _ _ R3)) as L3. clear Hearly.
  unfold bind at 1 in H. destruct (persist geteuid b mp (m <| phase := Complete |>) parent id (mkStore fs3 cur)) as [s4 o4] eqn:E4.
  destruct (persist_spec _ _ _ _ (mkStore fs3 cur) _ _ Hfm Htn' (vi_opened _ _ _ _ _ _ _ _ V3) Hlen E4) as (L4 & HW).
  cbn [files] in *. rewrite (vi_manifest _ _ _ _ _ _ _ _ V3) in HW.
  pose proof (renamed_after_later _ _ _ L3 L4) as L34.
  assert (forall fs5 o5, reads (files s4) fs5 -> (o5 = Ok tt -> o4 = Ok tt) ->
    committed base m (serialization b) c1 fs (mkStore fs5 (current_manifest s4)) o5) as Hend.
  { intros fs5 o5 R5 Ho5. pose proof (renamed_after_later _ _ _ L34 (rd_later _ _ R5)) as L5.
    destruct HW as [ot V4 Hok _|c i' ot Hc V4 _ _ Hok].
    - eapply moved_as; [eapply view_reads; [eapply view_trans; [exact V3|exact V4]|exact R5]|by left| |exact L5].
      intros E. by destruct (Hok (Ho5 E)).
    - eapply moved_as; [eapply view_reads; [eapply view_trans; [exact V3|exact V4]|exact R5]|by right| |exact L5].
      intros E. split; [|done]. by apply Hok, Ho5. }
  destruct s4 as [fs4 cur4]. cbn [files current_manifest] in *.
  destruct o4 as [[]|e|]; [|injection H as <- <-; by apply Hend..]. rewrite bind_ret in H. unfold bind in H. rewrite on_files_at in H.
  destruct (verify_manifest_matches (serialization b) mp (m <| phase := Complete |>) fs4) as [fs5 o5] eqn:E5.
  assert (reads fs4 fs5) as R5.
  { apply removes_reads. eapply run_keeps; [exact E5|]. apply keeps_verify_manifest. }
  destruct o5 as [x|e|]; injection H as <- <-; by apply Hend.
Qed.

(** *** The whole publication *)

Section publication.
Context (b : Scratch) (planned : list PlannedFile) (staging out parent_path mp id : string) (sid : FileIdentity).
Context (Hfs : file_name staging = Some sn) (Hfd : file_name out = Some dn) (Hfm : file_name mp = Some mn).
Context (Hid : sn = ".tmp-lamb-" +:+ id) (Htemp : tn = "." +:+ mn +:+ "." +:+ id +:+ ".tmp").
Context (Hparent : canonical parent_path N) (Hlen : serialization b <= u64_max).

(** Where a publication may end, from a tree [base]. *)
Inductive published (base : gmap Key Node) (s' : Store) : outcome DumpFailure unit -> Prop :=
  | nothing_written o : tree (files s') = base -> o <> Ok tt -> published base s' o
  | nothing_moved om ot o : shown base om ot (files s') -> o <> Ok tt -> published base s' o
  | moved_whole m ids i c ot o :
      length ids = length planned -> Forall (captured base) (zip planned ids) ->
      means m (dump_text geteuid id staging out parent_path sid Prepared (zip planned ids)) ->
      base !! manifest_key = None ->
      shown (moved staging_key final_key base) (Some (file i c)) ot (files s') ->
      serialize_bounded (serialization b) m = Ok c
        \/ serialize_bounded (serialization b) (m <| phase := Complete |>) = Ok c ->
      (forall e d, o = Err (e, d) -> d = dump_durable) ->
      (o = Ok tt -> ot = None /\ serialize_bounded (serialization b) (m <| phase := Complete |>) = Ok c) ->
      published base s' o.

Lemma failing_inv {A} d (m : W A) s s' o : failing d m s = (s', o) ->
  exists o', m s = (s', o') /\ o = match o' with Ok a => Ok a | Err e => Err (e, d) | Panic => Panic end.
Proof using Type. unfold failing. destruct (m s) as [s1 [a|e|]]; intros [= <- <-]; eexists; done. Qed.

(** After a failed first write the publication only looks for the manifest. *)
Lemma durable_case base om ot e s s' o : shown base om ot (files s) ->
  (let! durable := durable_manifest mp in @fail Store DumpFailure unit (e, durable)) s = (s', o) -> published base s' o.
Proof using Type.
  intros V. unfold bind, durable_manifest. rewrite attempt_run, symlink_metadata_run.
  assert (shown base om ot (next (files s))) as V1 by (eapply view_reads; [exact V|apply next_reads]).
  destruct (fault_now (files s)); [intros [= <- <-]; by eapply nothing_moved|].
  destruct (lookup_at (files s) mp) as [[k n]|e'|]; intros [= <- <-]; by eapply nothing_moved.
Qed.

Lemma publish_states s s' o :
  opened (tree (files s)) parent N ->
  publish_dump_inner geteuid b planned staging out parent_path mp sid s = (s', o) ->
  published (tree (files s)) s' o.
Proof using Hdiff Hdn Hfd Hfm Hfs Hid Hlen Hmn Hparent Hsn Htemp Htn laws.
  intros Ho H. unfold publish_dump_inner in H. unfold bind at 1 in H.
  assert (out <> "") as Hout by by intros ->.
  destruct (failing None _ s) as [s1 o1] eqn:E1. apply failing_inv in E1 as (o1' & E1 & ->).
  pose proof (keeps_prepare geteuid b planned staging out parent_path sid s) as R. rewrite E1 in R. destruct R as [R _]. cbn [fst] in *.
  destruct o1' as [[[id' p'] m]|e|]; [|injection H as <- <-; apply nothing_written; [apply R|done]..].
  destruct (prepare_dump_spec _ _ _ _ _ _ _ _ _ _ _ _ Hout E1) as (ids & [_ Hid' (fs2 & fs3 & T2 & Hop) _ Hl Hc Hm]).
  destruct (transaction_id_Some _ _ Hid') as (Hn & _). rewrite Hfs, Hid in Hn. injection Hn as Hn.
  assert (id' = id) as ->.
  { symmetry. exact Hn. }
  assert (p' = parent) as ->.
  { eapply open_file_directory; [exact Hparent|rewrite T2; apply Ho|rewrite T2; apply (op_node _ _ _ Ho)|apply Ho|exact Hop]. }
  rewrite bind_modify in H. set (s1' := s1 <| current_manifest := None |>) in H.
  assert (opened (tree (files s1')) parent N) as Ho1 by by (change (files s1') with (files s1); rewrite (rd_tree _ _ R)).
  unfold bind at 1 in H. destruct (failing None _ s1') as [s2 o2] eqn:E2. apply failing_inv in E2 as (o2' & E2 & ->).
  unfold catch in E2. destruct (persist geteuid b mp m parent id s1') as [s3 o3] eqn:E3.
  destruct (persist_spec _ _ _ _ _ _ _ Hfm Htemp Ho1 Hlen E3) as [L3 HW].
  change (files s1') with (files s1) in HW. rewrite (rd_tree _ _ R) in HW.
  destruct HW as [ot V3 Hok3 _|c i ot Hs V3 Hci _ Hok3].
  all: change (files s1') with (files s1) in V3; rewrite (rd_tree _ _ R) in V3.
  - destruct o3 as [[]|e|]; [done| |]; injection E2 as <- <-; [|injection H as <- <-; by eapply nothing_moved].
    eapply durable_case; [exact V3|exact H].
  - destruct o3 as [[]|e|]; injection E2 as <- <-; [|eapply durable_case; [exact V3|exact H]|injection H as <- <-; by eapply nothing_moved].
    destruct (Hok3 eq_refl) as [-> _]. apply failing_inv in H as (o4 & H & ->).
    pose proof (commit_spec _ _ _ _ _ _ _ _ _ _ _ _ _ Hfs Hfd Hfm Htemp Hlen V3 H) as [i' V4 Hok|i' c' ot V4 Hc' Hok _].
    + eapply nothing_moved; [exact V4|]. by destruct o4 as [[]| |].
    + eapply moved_whole; [exact Hl|exact Hc|exact Hm|exact Hci|exact V4|destruct Hc' as [->|?]; [by left|by right]| |].
      * intros e d. destruct o4 as [[]| |]; by intros [= _ <-].
      * intros E. apply Hok. by destruct o4 as [[]| |].
Qed.
End publication.

End states.
