(* ===== verification/DumpAtomic.v ===== *)
(** * A dump is published as a whole

    Publication and recovery together: however often the program is interrupted
    while it publishes a dump and while it recovers, the final directory is
    missing or holds every staged file as it was staged. *)
From Stdlib Require Import Ascii.
From S2P Require Import Prelude.
From S2P Require Import Errors.
From S2P Require Import Paths.
From S2P Require Import FileSystem.
From S2P Require Import FileWrites.
From S2P Require Import Manifest.
From S2P Require Import ManifestJson.
From S2P Require Import ManifestTheorems.
From S2P Require Import Recovery.
From S2P Require Import RecoverySpec.
From S2P Require Import RecoverySync.
From S2P Require Import RecoveryTheorems.
From S2P Require Import RecoveryScan.
From S2P Require Import RecoveryDump.
From S2P Require Import ManifestStore.
From S2P Require Import ManifestStoreTheorems.
From S2P Require Import DumpPublish.
From S2P Require Import DumpPublishSpec.

(** ** The manifest that recovery reads *)

Lemma substring_skip r rest n : String.substring (Z.to_nat (slen r)) n (r +:+ rest) = String.substring 0 n rest.
Proof.
  unfold slen. rewrite Nat2Z.id. induction r as [|z r IH]; [done|]. rewrite string_cons_app. exact IH.
Qed.

(** A manifest that is read is the whole content of a regular file. *)
Lemma read_file_bounded_spec len mp fs fs' text : is_u64 len ->
  read_file_bounded len mp fs = (fs', Ok text) ->
  exists k n, lookup_at fs mp = Ok (k, n) /\ is_file n = true /\ text = file_content n.
Proof.
  intros [Hpos Hmax] H. unfold read_file_bounded in H. unfold fail_if at 1 in H. destruct (len =? 0); [done|]. rewrite bind_ret in H.
  apply bind_inv in H as (fs1 & n & H1 & H). apply io_Ok in H1. rewrite open_nofollow_run in H1.
  destruct (fault_now fs); [done|]. destruct (lookup_at fs mp) as [[k x]|e|] eqn:El; [|done..]. cbn [obind snd] in H1.
  destruct (is_symlink x); [done|]. injection H1 as _ <-.
  apply bind_inv in H as (fs2 & md & H2 & H). apply io_Ok in H2. rewrite file_metadata_run in H2.
  destruct (fault_now fs1); [done|]. injection H2 as _ <-. destruct (is_file x) eqn:Ef; [|done]. cbn [negb] in H.
  unfold fail_if at 1 in H. rewrite bind_ret in H. apply bind_inv in H as (fs3 & read & H3 & H).
  exists k, x. split; [done|]. split; [done|]. set (c := file_content x) in *.
  assert (is_dir x = false) as Hd by (unfold is_file, is_dir in *; by destruct (node_kind x)).
  assert (exists rest, c = read +:+ rest /\ slen read <= len /\ (slen read < len -> rest = "")) as (rest & Hc & Hle & Hr).
  { destruct (mloop_rule (read_turn mp len x)
      (fun _ r => exists rest, c = r +:+ rest /\ slen r <= len) (fun _ r => len - slen r)
      (fun _ o => forall r, o = Ok r -> exists rest, c = r +:+ rest /\ slen r <= len /\ (slen r < len -> rest = "")))
      with (s := fs2) (l := "") as (s' & o & E & HQ); [|by exists c|change (slen "") with 0; lia|].
    - intros q r (rest & Hrest & Hle). unfold read_turn. destruct (Z.ltb_spec (slen r) len) as [Hlt|Hge].
      2: { cbn. intros r' [= <-]. exists rest. split; [done|]. split; [lia|]. lia. }
      unfold bind. rewrite io_run. unfold file_read. rewrite syscall_run. destruct (fault_now q); [done|]. rewrite Hd. cbn [ret].
      fold c. rewrite Hrest, substring_skip.
      set (n := Z.to_nat (len - slen r)). set (chunk := String.substring 0 n rest).
      destruct (String.eqb_spec chunk "") as [Hz|Hz]; cbn [ret].
      + intros r' [= <-]. exists rest. split; [done|]. split; [lia|]. intros _. subst chunk.
        destruct rest as [|z rest]; [done|]. unfold n in Hz. destruct (Z.to_nat (len - slen r)) eqn:E; [lia|done].
      + assert (0 < slen chunk <= len - slen r) as Hs.
        { split; [unfold slen; destruct chunk; [done|]; cbn [String.length]; lia|].
          unfold chunk, n. unfold slen at 1. rewrite substring_taken. lia. }
        split; [|cbv beta; rewrite slen_app; lia]. eexists. rewrite slen_app. split; [|lia].
        rewrite string_app_assoc. unfold chunk. by rewrite substring_split.
    - rewrite E in H3. injection H3 as -> ->. by apply HQ. }
  destruct (Z.eqb_spec (slen read) len) as [He|He].
  - apply bind_inv in H as (fs4 & extra & H4 & H). apply io_Ok in H4. unfold file_read in H4. rewrite syscall_run in H4.
    destruct (fault_now fs3); [done|]. rewrite Hd in H4. injection H4 as _ <-. fold c in H.
    rewrite Hc, substring_skip in H.
    destruct (String.eqb_spec (String.substring 0 (Z.to_nat 1) rest) "") as [Hz|Hz]; [|done]. cbn [negb] in H.
    unfold fail_if in H. rewrite bind_ret in H. injection H as _ <-.
    destruct rest as [|z rest]; [by rewrite Hc, string_app_nil|done].
  - injection H as _ <-. rewrite Hc, Hr, string_app_nil by lia. done.
Qed.

(** ** A plan *)

(** A planned file: its name and the node that is staged. *)
Record planned_as (nodes : gmap Key Node) (S D : Key) (p : PlannedFile) (x : string * Node) : Prop := mkPlannedAs {
  pa_staged : canonical (planned_staged p) (S ++ [x.1]);
  pa_final : canonical (planned_final p) (D ++ [x.1]);
  pa_node : nodes !! (S ++ [x.1]) = Some x.2;
  pa_file : is_file x.2 = true;
}.

Definition with_identity (planned : list PlannedFile) (items : list (string * Node)) : list (PlannedFile * FileIdentity) :=
  zip planned (map (fun x => identity_from_metadata x.2) items).

(** A regular file is reached by its names. *)
Lemma file_at_names nodes p k n : canonical p k -> wf_tree nodes -> nodes !! k = Some n -> is_symlink n = false ->
  at_names nodes p k.
Proof.
  intros Hc Hw Hn Hs. constructor; [done|done|]. intros q m [s ->] Hm. destruct s as [|y s].
  - rewrite app_nil_r in Hn. congruence.
  - destruct (wf_prefix nodes q (y :: s) Hw) as (d & Hd & Hdir); [by rewrite Hn|done|].
    assert (m = d) as -> by congruence. unfold is_dir, is_symlink in *. by destruct (node_kind d).
Qed.

Lemma file_not_symlink' n : is_file n = true -> is_symlink n = false.
Proof. unfold is_file, is_symlink. by destruct (node_kind n). Qed.

(** The identities that are captured are those of the staged files. *)
Lemma captured_identities nodes S D planned items ids : wf_tree nodes -> Forall2 (planned_as nodes S D) planned items ->
  length ids = length planned -> Forall (captured nodes) (zip planned ids) ->
  zip planned ids = with_identity planned items.
Proof.
  intros Hw HF. revert ids. induction HF as [|p x planned items Hp HF IH]; intros [|i ids] Hl Hc; try done.
  cbn [zip zip_with] in *. apply Forall_cons in Hc as [(fs & k & n & T & Hk & Hi) Hc]. unfold with_identity. cbn.
  rewrite (IH ids) by (try done; cbn in Hl; lia). f_equal. cbn in Hk, Hi. f_equal.
  pose proof (file_at_names nodes _ _ _ (pa_staged _ _ _ _ _ Hp) Hw (pa_node _ _ _ _ _ Hp)
    (file_not_symlink' _ (pa_file _ _ _ _ _ Hp))) as Ha. rewrite <-T in Ha.
  destruct (at_names_found _ _ _ _ _ Ha Hk) as [-> Hn]. rewrite T, (pa_node _ _ _ _ _ Hp) in Hn. by injection Hn as <-.
Qed.

Section reading.
Context {json_text : JsonText} {json_z : JsonCodec Z} {json_kind : JsonCodec TransactionKind}
  {json_phase : JsonCodec ManifestPhase} {json_identity : JsonCodec FileIdentity}
  {json_state : JsonCodec ManifestDirectoryState}.
Context {laws_z : JsonLaws Z} {laws_kind : JsonLaws TransactionKind} {laws_phase : JsonLaws ManifestPhase}
  {laws_identity : JsonLaws FileIdentity} {laws_state : JsonLaws ManifestDirectoryState}.

(** Recovery has room for a manifest of the text [t]. *)
Record roomy (b : Buffers) (t : ManifestText) : Prop := mkRoomy {
  ro_buffer : is_u64 (buffer_len b);
  ro_slots : zlen (t_entries t) <= zlen (entry_slots b);
  ro_bytes : text_size t <= zlen (path_buffer b);
  ro_max : zlen (path_buffer b) <= u32_max;
}.

(** What recovery reads from a manifest is what was written. *)
Lemma manifest_reads_back b t m0 i M mp fs fs0 m mid : roomy b t -> means m0 t -> t_created t = [] ->
  first_value (to_writer (text_json t)) = Some (text_json t) ->
  canonical mp M -> wf_tree (tree fs) -> tree fs !! M = Some (file i (to_writer (text_json t))) ->
  read_with_identity_directories (without_directories b) mp fs = (fs0, Ok (m, mid)) -> means m t.
Proof using laws_identity laws_kind laws_phase laws_state laws_z.
  intros [B1 B2 B3 B4] Hm0 Hcr Htext Hc Hw Hn H. unfold read_with_identity_directories in H.
  apply bind_inv in H as (fs1 & text & H1 & H).
  destruct (read_file_bounded_spec _ _ _ _ _ B1 H1) as (k & n & Hk & _ & ->).
  destruct (at_names_found _ _ _ _ _ (file_at_names _ _ _ _ Hc Hw Hn eq_refl) Hk) as [-> Hn']. rewrite Hn in Hn'. injection Hn' as <-.
  apply bind_inv in H as (fs2 & r & _ & H). destruct r as [j|e|]; [|done..].
  apply bind_lift_inv in H as (m1 & Hp & H). injection H as _ <- _.
  destruct (deserialize_text t (entry_slots b) [] (path_buffer b)) as (m' & Hd & Hm' & _).
  - apply (means_readable m0); [done|by rewrite Hcr|by right].
  - done.
  - by rewrite Hcr.
  - done.
  - done.
  - unfold parse_manifest in Hp. cbn [without_directories entry_slots created_slots path_buffer file_content file node_kind] in Hp.
    rewrite Htext, Hd in Hp. by injection Hp as <-.
Qed.
End reading.

(** ** Recoveries *)

(** The manifest of a dump is written in two phases. *)
Definition dump_phase (p : ManifestPhase) : Prop := p = Prepared \/ p = Complete.

Section atomic.
Context {json_text : JsonText} {json_z : JsonCodec Z} {json_kind : JsonCodec TransactionKind}
  {json_phase : JsonCodec ManifestPhase} {json_identity : JsonCodec FileIdentity}
  {json_state : JsonCodec ManifestDirectoryState}.
Context {laws_z : JsonLaws Z} {laws_kind : JsonLaws TransactionKind} {laws_phase : JsonLaws ManifestPhase}
  {laws_identity : JsonLaws FileIdentity} {laws_state : JsonLaws ManifestDirectoryState}.
Context (geteuid : Z) (N : Key) (mn dn sn : string).
Context (planned : list PlannedFile) (items : list (string * Node)).
Context (staging out parent_path mp id : string) (sid : FileIdentity).
Context (Hmp : canonical mp (N ++ [mn])) (Hout : canonical out (N ++ [dn])) (Hparent : canonical parent_path N).

Abbreviation D := (N ++ [dn]).
Abbreviation text p := (dump_text geteuid id staging out parent_path sid p (with_identity planned items)).

Context (Hjson : forall p, dump_phase p -> first_value (to_writer (text_json (text p))) = Some (text_json (text p))).
Context (Hfinals : Forall2 (fun p x => canonical (planned_final p) (D ++ [x.1]) /\ is_file x.2 = true) planned items).
Context (m0 : TransactionManifest) (Hm0 : means m0 (text Prepared)).

(** The final directory with every file, and a manifest of the dump, if any. *)
Record whole (nodes : gmap Key Node) : Prop := mkWhole {
  wh_wf : wf_tree nodes;
  wh_directory : exists d, nodes !! D = Some d /\ is_dir d = true /\ identity_from_metadata d = sid;
  wh_files : Forall (fun x => nodes !! (D ++ [x.1]) = Some x.2) items;
  wh_manifest : nodes !! (N ++ [mn]) = None
                \/ exists i p, dump_phase p /\ nodes !! (N ++ [mn]) = Some (file i (to_writer (text_json (text p))));
}.

(** What the entries of the manifest say of the final files. *)
Lemma final_entries nodes m es vs index :
  Forall2 (entry_reads m) es (map staged_entry (with_identity planned items)) ->
  Forall2 (views_entry nodes m) es vs -> Forall (fun x => nodes !! (D ++ [x.1]) = Some x.2) items ->
  finals_present nodes m index es vs /\ Forall2 (fun v x => (v_final v).1 = D ++ [x.1]) vs items.
Proof using Hfinals.
  unfold with_identity. pose proof Hfinals as HF0. clear Hjson Hm0 Hfinals. revert es vs index. induction HF0 as [|p x ps xs [Hp Hx] _ IH]; intros es vs index He Hv Hn.
  { inversion He; subst. inversion Hv; subst. by split; [|constructor]. }
  cbn in He. apply Forall2_cons_inv_r in He as (e & es' & (_ & _ & He) & Hes & ->).
  apply Forall2_cons_inv_l in Hv as (v & vs' & Hv & Hvs & ->). apply Forall_cons in Hn as [Hn Hns].
  destruct (IH es' vs' (index + 1) Hes Hvs Hns) as [IH1 IH2].
  destruct (ve_final _ _ _ _ Hv) as (q & Hq & Ha). cbn in He. rewrite He in Hq. injection Hq as <- Hi.
  assert ((v_final v).1 = D ++ [x.1]) as Hk by (eapply canonical_inj; [apply Ha|exact Hp]).
  split; [|by constructor]. split; [|done]. exists (identity_from_metadata x.2), x.2. rewrite Hk. split; [|done].
  apply final_of_Ok in He. unfold inferred, has_final. rewrite <-He. by rewrite bool_decide_eq_false_2.
Qed.

Lemma whole_present nodes m mid V es p : views nodes m mp mid V -> entries m = Ok es -> means m (text p) ->
  whole nodes -> dump_present nodes m es V /\ Forall2 (fun v x => (v_final v).1 = D ++ [x.1]) (v_entries V) items.
Proof using Hfinals Hout.
  intros Hv Hes Hm [W1 (d & Hd & Hdir & Hi) W3 _].
  destruct (mn_entries _ _ Hm) as (es' & Hes' & HF). assert (es' = es) as -> by congruence.
  destruct (vw_entries _ _ _ _ _ Hv) as (es' & Hes2 & HV). assert (es' = es) as -> by congruence.
  destruct (final_entries nodes m es (v_entries V) 0 HF HV W3) as [H1 H2]. split; [|done]. split; [|done].
  pose proof (vw_final_directory _ _ _ _ _ Hv) as Hfd. rewrite (mn_directory _ _ Hm) in Hfd. cbn in Hfd.
  destruct (v_final_directory V) as [[k o]|] eqn:Ev; [|done]. destruct Hfd as (q & [= <- <-] & Ha).
  assert (k = D) as -> by (eapply canonical_inj; [apply Ha|exact Hout]). by exists D, sid, d.
Qed.

(** A recovery, whatever fails, keeps a whole dump whole. *)
Lemma whole_step b fs fs' o : roomy b (text Prepared) -> whole (tree fs) ->
  recover_dump_parent geteuid b parent_path mp fs = (fs', o) -> whole (tree fs').
Proof using All.
  intros Hb W H. destruct (complete_dump_facts geteuid b parent_path mp fs fs' o N mn H (wh_wf _ W) Hparent Hmp)
    as [[R _]|(m & mid & V & es & fs0 & Hr & Hv & Hes & _ & Hk)]; [by rewrite (reads_only_tree _ _ R)|].
  destruct (recovery_removes_only_owned_core geteuid b "" parent_path mp fs fs' o (wh_wf _ W))
    as [[R _]|(m' & mid' & V' & b' & fs0' & _ & _ & R)]; [right; split; [exact H|by eexists]|by rewrite (reads_only_tree _ _ R)|].
  pose proof (removes_only_subset _ _ _ R) as Hsub.
  destruct (wh_manifest _ W) as [Hnone|(i & p & Hph & Hn)].
  { exfalso. unfold read_with_identity_directories in Hr. apply bind_inv in Hr as (fs1 & t & H1 & _).
    destruct (read_file_bounded_spec _ _ _ _ _ (ro_buffer _ _ Hb) H1) as (k & n & Hl & _).
    destruct (at_names_found _ _ _ _ _ (proj1 (vw_manifest _ _ _ _ _ Hv)) Hl) as [-> Hn].
    assert ((v_manifest V).1 = N ++ [mn]) as E by (eapply canonical_inj; [apply (vw_manifest _ _ _ _ _ Hv)|exact Hmp]).
    rewrite E in Hn. congruence. }
  assert (means m (text p)) as Hm.
  { eapply (manifest_reads_back b (text p) (m0 <| phase := p |>)); [by destruct Hb|exact (means_phase _ _ p Hm0)|done|by apply Hjson|
      exact Hmp|apply W|exact Hn|exact Hr]. }
  destruct (whole_present _ _ _ _ _ _ Hv Hes Hm W) as [Hp Hvi]. destruct (Hk Hp) as (_ & Hfin & Hp' & _).
  constructor.
  - by apply R, W.
  - destruct Hp' as [(k & j & n & Hkd & Hnd & Hdir & Hj) _].
    pose proof (vw_final_directory _ _ _ _ _ Hv) as Hfd. rewrite (mn_directory _ _ Hm), Hkd in Hfd.
    destruct Hfd as (q & [= <- <-] & Ha). assert (k = D) as -> by (eapply canonical_inj; [apply Ha|exact Hout]). by exists n.
  - pose proof (wh_files _ W) as Hf. clear -Hvi Hfin Hf. revert Hfin Hf. generalize (v_entries V) Hvi. clear Hvi. intros vs Hvi.
    induction Hvi as [|v x vs xs E Hvi IH]; intros Hfin Hf; [constructor|]. apply Forall_cons in Hf as [H1 H2]. constructor.
    + rewrite <-E, Hfin by by left. by rewrite E.
    + apply IH; [|done]. intros w Hw. apply Hfin. by right.
  - destruct (tree fs' !! (N ++ [mn])) as [n|] eqn:E; [right|by left]. exists i, p. split; [done|].
    rewrite <-Hn. symmetry. by eapply lookup_weaken; [exact E|exact Hsub].
Qed.

(** A free final name stays free. *)
Lemma free_step b fs fs' o : wf_tree (tree fs) -> tree fs !! D = None ->
  recover_dump_parent geteuid b parent_path mp fs = (fs', o) -> wf_tree (tree fs') /\ tree fs' !! D = None.
Proof using Hmp.
  intros Hw Hn H.
  destruct (recovery_removes_only_owned_core geteuid b "" parent_path mp fs fs' o Hw)
    as [[R _]|(m' & mid' & V' & b' & fs0' & _ & _ & R)]; [right; split; [exact H|by eexists]|by rewrite (reads_only_tree _ _ R)|].
  split; [by apply R|]. destruct (tree fs' !! D) as [n|] eqn:E; [|done].
  assert (tree fs !! D = Some n); [|congruence]. eapply lookup_weaken; [exact E|by eapply removes_only_subset].
Qed.

(** Recoveries one after another, each with its own buffers and faults. *)
Fixpoint recover_again (runs : list (Buffers * list bool)) (fs : FileSystem) : FileSystem :=
  match runs with
  | [] => fs
  | (b, new_faults) :: rest =>
      recover_again rest (recover_dump_parent geteuid b parent_path mp (fs <| faults := new_faults |>)).1
  end.

Lemma recover_again_whole runs fs : Forall (fun r => roomy r.1 (text Prepared)) runs -> whole (tree fs) ->
  whole (tree (recover_again runs fs)).
Proof using All.
  revert fs. induction runs as [|[b l] runs IH]; intros fs Hr W; cbn [recover_again]; [done|].
  apply Forall_cons in Hr as [Hb Hr]. apply IH; [done|].
  destruct (recover_dump_parent geteuid b parent_path mp (fs <| faults := l |>)) as [fs' o] eqn:E.
  eapply whole_step; [exact Hb| |exact E]. exact W.
Qed.

Lemma recover_again_free runs fs : wf_tree (tree fs) -> tree fs !! D = None -> tree (recover_again runs fs) !! D = None.
Proof using Hmp.
  revert fs. induction runs as [|[b l] runs IH]; intros fs Hw Hn; cbn [recover_again]; [done|].
  destruct (recover_dump_parent geteuid b parent_path mp (fs <| faults := l |>)) as [fs' o] eqn:E.
  eapply free_step in E as [Hw' Hn']; [by apply IH|exact Hw|exact Hn].
Qed.
End atomic.

(** ** Publication and recovery *)

(** The names of a dump's manifest and of its temporary file. *)
Definition dump_manifest_name (id : string) : string := "." +:+ id +:+ ".manifest.json".
Definition dump_temp_name (id : string) : string := "." +:+ dump_manifest_name id +:+ "." +:+ id +:+ ".tmp".

Lemma dump_names id dn : normal_name (".tmp-lamb-" +:+ id) -> ".tmp-lamb-" +:+ id <> dn ->
  dn <> dump_manifest_name id -> dn <> dump_temp_name id ->
  normal_name (dump_manifest_name id) /\ normal_name (dump_temp_name id)
  /\ NoDup [dump_manifest_name id; dump_temp_name id; ".tmp-lamb-" +:+ id; dn].
Proof.
  intros (_ & _ & _ & Hs) H1 H2 H3. rewrite contains_app in Hs. apply orb_false_iff in Hs as [_ Hs].
  assert (forall x y : string, slen x <> slen y -> x <> y) as Hlen by (intros x y H ->; done).
  assert (slen (dump_manifest_name id) = 15 + slen id) as L1.
  { unfold dump_manifest_name. rewrite !slen_app. change (slen ".") with 1. change (slen ".manifest.json") with 14. lia. }
  assert (slen (dump_temp_name id) = 21 + 2 * slen id) as L2.
  { unfold dump_temp_name. rewrite !slen_app, L1. change (slen ".") with 1. change (slen ".tmp") with 4. lia. }
  assert (slen (".tmp-lamb-" +:+ id) = 10 + slen id) as L3 by (rewrite slen_app; change (slen ".tmp-lamb-") with 10; lia).
  pose proof (slen_nonneg id).
  assert (contains slash (dump_manifest_name id) = false) as C1.
  { unfold dump_manifest_name. by rewrite !contains_app, Hs. }
  assert (contains slash (dump_temp_name id) = false) as C2.
  { unfold dump_temp_name. by rewrite !contains_app, C1, Hs. }
  assert (forall x, 15 <= slen x -> contains slash x = false -> normal_name x) as Hn.
  { intros x Hx Hc. split_and!; [..|done]; intros ->; vm_compute in Hx; by destruct Hx. }
  split; [apply Hn; [lia|done]|]. split; [apply Hn; [lia|done]|].
  rewrite !NoDup_cons, !not_elem_of_cons. split_and!; try (apply Hlen; lia); auto using not_elem_of_nil, NoDup_nil_2.
Qed.

Section publication.
Context {kernel : Kernel} {laws : KernelLaws} {json_text : JsonText} {json_z : JsonCodec Z}
  {json_kind : JsonCodec TransactionKind} {json_phase : JsonCodec ManifestPhase}
  {json_identity : JsonCodec FileIdentity} {json_state : JsonCodec ManifestDirectoryState}.
Context {laws_z : JsonLaws Z} {laws_kind : JsonLaws TransactionKind} {laws_phase : JsonLaws ManifestPhase}
  {laws_identity : JsonLaws FileIdentity} {laws_state : JsonLaws ManifestDirectoryState}.

Lemma serialized_text len m t c : means m t -> serialize_bounded len m = Ok c -> c = to_writer (text_json t).
Proof using Type.
  intros Hm H. unfold serialize_bounded in H. rewrite (manifest_json_text _ _ Hm) in H. cbn [obind] in H.
  destruct (_ <=? _); [|done]. by injection H as <-.
Qed.

(** A publication starts from a staging directory beside the free final name,
    with the planned files in it. *)
Record staged_dump (nodes : gmap Key Node) (N : Key) (parent_path staging out mp id dn : string) (sid : FileIdentity)
    (planned : list PlannedFile) (items : list (string * Node)) : Prop := mkStagedDump {
  sd_parent : canonical parent_path N;
  sd_staging : canonical staging (N ++ [".tmp-lamb-" +:+ id]);
  sd_final : canonical out (N ++ [dn]);
  sd_manifest : canonical mp (N ++ [dump_manifest_name id]);
  sd_names : dn <> dump_manifest_name id /\ dn <> dump_temp_name id;
  sd_directory : exists d, nodes !! (N ++ [".tmp-lamb-" +:+ id]) = Some d /\ is_dir d = true /\ identity_from_metadata d = sid;
  sd_free : nodes !! (N ++ [dn]) = None;
  sd_files : Forall2 (planned_as nodes (N ++ [".tmp-lamb-" +:+ id]) (N ++ [dn])) planned items;
}.

Lemma canonical_name p k x : canonical p (k ++ [x]) -> file_name p = Some x.
Proof using Type.
  unfold canonical, file_name. intros ->. rewrite map_app. cbn [map]. by rewrite app_comm_cons, last_snoc.
Qed.

(** Directly after the publication. *)
Lemma publication_whole geteuid b N parent planned items staging out parent_path mp id dn sid s s' o :
  opened (tree (files s)) parent N -> serialization b <= u64_max ->
  staged_dump (tree (files s)) N parent_path staging out mp id dn sid planned items ->
  publish_dump_inner geteuid b planned staging out parent_path mp sid s = (s', o) ->
  wf_tree (tree (files s')) /\
  ((tree (files s') !! (N ++ [dn]) = None /\ o <> Ok tt)
   \/ (whole geteuid N (dump_manifest_name id) dn planned items staging out parent_path id sid (tree (files s'))
       /\ (forall e, o <> Err (e, None))
       /\ exists m0, means m0 (dump_text geteuid id staging out parent_path sid Prepared (with_identity planned items)))).
Proof using laws.
  intros Ho Hlen [H1 H2 H3 H4 [H5 H6] (d & Hd & Hdir & Hsid) H7 H8] H.
  set (sn := ".tmp-lamb-" +:+ id) in *. set (mn := dump_manifest_name id) in *. set (tn := dump_temp_name id) in *.
  assert (normal_name sn /\ normal_name dn) as [Nsn Ndn].
  { split; [apply canonical_normal in H2|apply canonical_normal in H3];
      [apply Forall_app in H2 as [_ H2]|apply Forall_app in H3 as [_ H3]]; by eapply Forall_inv. }
  assert (sn <> dn) as Hsd by (intros E; rewrite E in Hd; congruence).
  destruct (dump_names id dn Nsn Hsd H5 H6) as (Nmn & Ntn & Hnd). fold sn mn tn in Nmn, Ntn, Hnd.
  destruct (names_differ mn tn sn dn Hnd) as (E1 & _ & _ & E4 & _ & E6).
  pose proof (siblings_apart N sn dn Hsd) as Hab.
  assert (forall k k' : string, k <> k' -> N ++ [k] <> N ++ [k']) as Hkey by (intros k k' Hk E; apply Hk; by apply app_inj_tail in E as [_ E]).
  destruct (publish_states geteuid parent N mn tn sn dn Nmn Ntn Nsn Ndn Hnd b planned staging out parent_path mp id sid
    (canonical_name _ _ _ H2) (canonical_name _ _ _ H3) (canonical_name _ _ _ H4) eq_refl eq_refl H1 Hlen s s' o Ho H)
    as [o T Hok|om ot o V Hok|m ids i c ot o Hl Hc Hm Hfree V Hs Hdur Hok].
  - rewrite T. split; [apply Ho|]. by left.
  - split; [apply V|]. left. split; [|done]. rewrite (vi_others _ _ _ _ _ _ _ _ V); [done|by apply Hkey..].
  - split; [apply V|]. right. assert (wf_tree (tree (files s))) as Hw by apply Ho.
    rewrite (captured_identities _ _ _ _ _ _ Hw H8 Hl Hc) in Hm.
    assert (forall k, k <> N ++ [mn] -> k <> N ++ [tn] -> tree (files s') !! k = tree (files s) !! exchanged (N ++ [sn]) (N ++ [dn]) k) as Hk.
    { intros k K1 K2. rewrite (vi_others _ _ _ _ _ _ _ _ V) by done. by apply lookup_moved. }
    split; [|split; [|by exists m]].
    + constructor; [apply V| | |].
      * exists d. rewrite Hk, exchanged_at_right by (try done; by apply Hkey). done.
      * apply Forall_forall. intros x Hx. apply list_elem_of_lookup in Hx as [j Hj].
        destruct (Forall2_lookup_r _ _ _ _ _ H8 Hj) as (p & _ & Hp).
        assert (forall y, (N ++ [dn]) ++ [x.1] <> N ++ [y]) as Hne.
        { intros y E. apply (f_equal length) in E. rewrite !length_app in E. cbn in E. lia. }
        rewrite Hk, exchanged_right by (try done; apply Hne). apply Hp.
      * right. rewrite (vi_manifest _ _ _ _ _ _ _ _ V). destruct Hs as [Hs|Hs].
        -- exists i, Prepared. split; [by left|]. by rewrite (serialized_text _ _ _ _ Hm Hs).
        -- exists i, Complete. split; [by right|]. by rewrite (serialized_text _ _ _ _ (means_phase _ _ Complete Hm) Hs).
    + intros e E. by specialize (Hdur e None E).
Qed.

(** C1. A dump is published as a whole. Whatever calls fail while it is published, and
    however often recovery runs afterwards, interrupted or not: the final
    directory is missing, or it is the staging directory with every planned file
    exactly as it was staged. It is there if the publication reported success,
    and missing if it reported a failure that may be retried. *)
Theorem dump_all_or_nothing geteuid b capacity N parent planned items transaction_root final_root staging out parent_path mp
    id dn sid s s' o runs :
  opened (tree (files s)) parent N -> serialization b <= u64_max ->
  staged_dump (tree (files s)) N parent_path staging out mp id dn sid planned items ->
  (forall p, dump_phase p -> let j := text_json (dump_text geteuid id staging out parent_path sid p (with_identity planned items)) in
             first_value (to_writer j) = Some j) ->
  prepare_atomic_manifest_path capacity transaction_root final_root = Ok mp ->
  dump_directories planned = Ok (staging, out, parent_path) ->
  publish_prepared_dump geteuid b capacity transaction_root final_root planned sid s = (s', o) ->
  Forall (fun r => roomy r.1 (dump_text geteuid id staging out parent_path sid Prepared (with_identity planned items))) runs ->
  let nodes := tree (recover_again geteuid parent_path mp runs (files s')) in
  (nodes !! (N ++ [dn]) = None /\ o <> Ok Published)
  \/ ((exists d, nodes !! (N ++ [dn]) = Some d /\ is_dir d = true /\ identity_from_metadata d = sid)
      /\ Forall (fun x => nodes !! ((N ++ [dn]) ++ [x.1]) = Some x.2) items
      /\ forall e, o <> Ok (RetryableFailure e)).
Proof using laws laws_identity laws_kind laws_phase laws_state laws_z.
  intros Ho Hlen Hst Hj Hmp Hdirs H Hr. cbv zeta in *. unfold publish_prepared_dump in H. rewrite Hmp, Hdirs in H.
  destruct (publish_dump_inner _ _ _ _ _ _ _ _ _) as [s1 o1] eqn:Ei.
  assert (s1 = s' /\ (o = Ok Published -> o1 = Ok tt) /\ (forall e, o = Ok (RetryableFailure e) -> o1 = Err (e, None)))
    as (-> & Hok & Hfail).
  { destruct o1 as [[]|[e [[]|]]|]; injection H as <- <-; split_and!; try done. by intros ? [= ->]. }
  destruct (publication_whole _ _ _ _ _ _ _ _ _ _ _ _ _ _ _ _ Ho Hlen Hst Ei) as [Hw [[Hn Hno]|(W & He & m0 & Hm0)]].
  - left. split; [|by intros E; apply Hno, Hok]. by eapply recover_again_free; [apply Hst|..].
  - right. assert (Forall2 (fun p x => canonical (planned_final p) ((N ++ [dn]) ++ [x.1]) /\ is_file x.2 = true) planned items) as Hfinals.
    { eapply Forall2_impl; [exact (sd_files _ _ _ _ _ _ _ _ _ _ _ Hst)|]. intros p x Hp. split; apply Hp. }
    destruct (recover_again_whole geteuid N (dump_manifest_name id) dn dn planned items staging out parent_path mp id sid
      (sd_manifest _ _ _ _ _ _ _ _ _ _ _ Hst) (sd_final _ _ _ _ _ _ _ _ _ _ _ Hst) (sd_parent _ _ _ _ _ _ _ _ _ _ _ Hst)
      Hj Hfinals m0 Hm0 runs (files s') Hr W) as [_ W2 W3 _].
    split; [done|]. split; [done|]. intros e E. by apply (He e), Hfail.
Qed.
End publication.
