(* ===== verification/RecoveryExamples.v ===== *)
(** * A recovery on a concrete file system

    The theorems of [RecoveryTheorems] at two transactions of one file: a recall
    whose final file is in place, and one that was only prepared. The manifests
    are written by the model's own serializer; the JSON library is a table of
    a few texts. *)
From Stdlib Require Import Ascii.
From S2P Require Import Prelude.
From S2P Require Import Errors.
From S2P Require Import Paths.
From S2P Require Import FileSystem.
From S2P Require Import Manifest.
From S2P Require Import ManifestJson.
From S2P Require Import ManifestTheorems.
From S2P Require Import Recovery.
From S2P Require Import RecoverySpec.
From S2P Require Import RecoverySync.
From S2P Require Import RecoveryTheorems.
From S2P Require Import RecoveryScan.
From S2P Require Import RecoveryDump.

(** ** Codecs *)

Definition number (j : Json) : option Z := match j with JNumber n => Some n | _ => None end.
Definition json_text_of (j : Json) : option string := match j with JString s => Some (text s) | _ => None end.

#[export] Instance z_codec : JsonCodec Z := { to_json := JNumber; of_json := number }.

#[export] Instance kind_codec : JsonCodec TransactionKind := {
  to_json k := str_json match k with
                        | Recall => "recall" | Dump => "dump" | FileSet => "file-set"
                        | AtomicDirectory => "atomic-directory"
                        end;
  of_json j := s ← json_text_of j;
               if String.eqb s "recall" then Some Recall
               else if String.eqb s "dump" then Some Dump
               else if String.eqb s "file-set" then Some FileSet
               else if String.eqb s "atomic-directory" then Some AtomicDirectory else None;
}.

#[export] Instance phase_codec : JsonCodec ManifestPhase := {
  to_json p := match p with
               | Prepared => str_json "prepared"
               | Complete => str_json "complete"
               | Publishing i => JNumber i
               end;
  of_json j := match j with
               | JNumber i => Some (Publishing i)
               | _ => s ← json_text_of j;
                      if String.eqb s "prepared" then Some Prepared
                      else if String.eqb s "complete" then Some Complete else None
               end;
}.

#[export] Instance identity_codec : JsonCodec FileIdentity := {
  to_json i := JArray [JNumber (device i); JNumber (inode i)];
  of_json j := match j with JArray [JNumber d; JNumber i] => Some (mkIdentity d i) | _ => None end;
}.

#[export] Instance state_codec : JsonCodec ManifestDirectoryState := {
  to_json s := str_json match s with Intent => "intent" | Owned => "owned" end;
  of_json j := s ← json_text_of j;
               if String.eqb s "intent" then Some Intent else if String.eqb s "owned" then Some Owned else None;
}.

(** ** Manifests *)

Definition node (i : Z) (k : NodeKind) : Node := mkNode (mkIdentity 1 i) k.

(** One file in a directory below the output root that the transaction created. *)
Definition one_file (output directory : string) (p : ManifestPhase) (final : option FileIdentity)
    : M TransactionManifest LambError unit :=
  let! id := push_path "tx" in
  let! staging := push_path "/stage/tx" in
  let! output := push_path output in
  let! staged := push_path "/stage/tx/0.wav" in
  let! partial := push_path (path_join directory ".tx-0.partial") in
  let! final_path := push_path (path_join directory "0.wav") in
  modify (fun m => m <| version := MANIFEST_VERSION |> <| uid := 1000 |> <| kind := FileSet |> <| phase := p |>
                     <| transaction_id := id |> <| staging_root_path := staging |>
                     <| staging_root_identity := Some (mkIdentity 1 4) |> <| output_root := output |>) ;;
  set_entry_count 1 ;;
  entry_mut 0 (fun _ => mkEntrySlot staged (Some (mkIdentity 1 5)) partial None final_path final) ;;
  let! d := push_directory_intent 0 (slen directory) in
  directory_mut d (fun s => mkDirectorySlot (entry_index s) (prefix_len s) (Some Owned) (Some (mkIdentity 1 7))).

(** One file in a directory that is published by a rename. *)
Definition one_dump : M TransactionManifest LambError unit :=
  let! id := push_path "tx" in
  let! staging := push_path "/out/.tmp-lamb-tx" in
  let! output := push_path "/out" in
  let! staged := push_path "/out/.tmp-lamb-tx/0.wav" in
  let! final_path := push_path "/out/tx/0.wav" in
  let! directory := push_path "/out/tx" in
  modify (fun m => m <| version := MANIFEST_VERSION |> <| uid := 1000 |> <| kind := AtomicDirectory |>
                     <| phase := Prepared |> <| transaction_id := id |> <| staging_root_path := staging |>
                     <| staging_root_identity := Some (mkIdentity 1 4) |> <| output_root := output |>
                     <| final_directory_path := directory |> <| final_directory_identity := Some (mkIdentity 1 4) |>) ;;
  set_entry_count 1 ;;
  entry_mut 0 (fun _ => mkEntrySlot staged (Some (mkIdentity 1 5)) no_path None final_path (Some (mkIdentity 1 5))).

Definition buffers : Buffers := mkBuffers 64 [default_entry] [default_directory] (replicate 100 zero).

Definition written (c : M TransactionManifest LambError unit) : option Json :=
  let (m, o) := c (new_with_directories (entry_slots buffers) (created_slots buffers) (path_buffer buffers)) in
  match o with Ok _ => (match manifest_json m with Ok j => Some j | _ => None end) | _ => None end.

Definition complete_manifest : option Json := Eval vm_compute in
  written (one_file "/out" "/out/a" Complete (Some (mkIdentity 1 6))).
Definition prepared_manifest : option Json := Eval vm_compute in written (one_file "/out" "/out/a" Prepared None).
Definition dump_manifest : option Json := Eval vm_compute in written one_dump.

(** The letter e with an acute accent, two bytes in UTF-8. *)
Definition accented : string := String "195" (String "169" "").

Definition slash_manifest : option Json := Eval vm_compute in
  written (one_file "/out/" ("/out/" +:+ accented) Complete (Some (mkIdentity 1 6))).

Definition parsed (s : string) : option Json :=
  if String.eqb s "complete" then complete_manifest
  else if String.eqb s "prepared" then prepared_manifest
  else if String.eqb s "dump" then dump_manifest
  else if String.eqb s "slash" then slash_manifest else None.

#[export] Instance table_text : JsonText := {
  from_slice := parsed;
  first_value := parsed;
  to_writer _ := "";
}.

(** ** File systems *)

Definition nodes_with (manifest : string) (more : list (Key * Node)) : gmap Key Node :=
  list_to_map ([([], node 0 Directory); (["out"], node 1 Directory); (["out"; "a"], node 7 Directory);
                (["stage"], node 2 Directory); (["stage"; "tx"], node 4 Directory);
                (["stage"; "tx"; "manifest.json"], node 3 (RegularFile manifest))] ++ more).

Definition complete_fs : FileSystem :=
  mkFileSystem (nodes_with "complete" [(["out"; "a"; "0.wav"], node 6 (RegularFile "RIFF"));
                                       (["stage"; "tx"; "0.wav"], node 5 (RegularFile "RIFF"))]) [] [] [].
Definition prepared_fs : FileSystem :=
  mkFileSystem (nodes_with "prepared" [(["stage"; "tx"; "0.wav"], node 5 (RegularFile "RIFF"))]) [] [] [].

Definition recover (fs : FileSystem) : FileSystem * Result RecoveryOutcome :=
  recover_recall_root_with_directories 1000 buffers "/stage/tx" "/out" fs.

Example recover_complete : (recover complete_fs).2 = Ok OutcomeComplete.
Proof. vm_compute. reflexivity. Qed.

Example recover_prepared : (recover prepared_fs).2 = Ok OutcomeRolledBack
  /\ tree (recover prepared_fs).1
     = list_to_map [([], node 0 Directory); (["out"], node 1 Directory); (["stage"], node 2 Directory)].
Proof. vm_compute. split; reflexivity. Qed.

(** The tree stays well-formed: checked name by name. *)
Definition wf_check (nodes : gmap Key Node) : bool :=
  forallb (fun k => match reverse k with
                    | [] => true
                    | _ :: up => match nodes !! reverse up with Some d => is_dir d | None => false end
                    end) (map fst (map_to_list nodes)).

Lemma wf_check_spec nodes : wf_check nodes = true -> wf_tree nodes.
Proof.
  unfold wf_check. intros H k name Hn. destruct (nodes !! (k ++ [name])) as [n|] eqn:E; [|done].
  rewrite forallb_forall in H. specialize (H (k ++ [name])).
  assert (In (k ++ [name]) (map fst (map_to_list nodes))) as Hin.
  { apply in_map_iff. exists (k ++ [name], n). split; [done|]. by apply list_elem_of_In, elem_of_map_to_list. }
  apply H in Hin. rewrite reverse_snoc, reverse_involutive in Hin.
  destruct (nodes !! k) as [d|]; [|done]. by exists d.
Qed.

Lemma wf_complete : wf_tree (tree complete_fs).
Proof. apply wf_check_spec. vm_compute. reflexivity. Qed.
Lemma wf_prepared : wf_tree (tree prepared_fs).
Proof. apply wf_check_spec. vm_compute. reflexivity. Qed.

Lemma run_pair {A B} (x : A * B) b : x.2 = b -> x = (x.1, b).
Proof. destruct x. by intros <-. Qed.

Lemma complete_run : recover complete_fs = ((recover complete_fs).1, Ok OutcomeComplete).
Proof. apply run_pair, recover_complete. Qed.
Lemma prepared_run : recover prepared_fs = ((recover prepared_fs).1, Ok OutcomeRolledBack).
Proof. apply run_pair, recover_prepared. Qed.

Lemma recall_rolled_back_witness : exists fs', recover prepared_fs = (fs', Ok OutcomeRolledBack)
  /\ exists m mid V es fs0, read_with_identity_directories buffers "/stage/tx/manifest.json" prepared_fs = (fs0, Ok (m, mid))
    /\ views (tree prepared_fs) m "/stage/tx/manifest.json" mid V /\ entries m = Ok es
    /\ entries_gone (tree fs') m 0 es (v_entries V).
Proof.
  exists (recover prepared_fs).1. split; [exact prepared_run|].
  destruct (recall_rolled_back _ _ _ _ _ _ prepared_run wf_prepared) as (m & mid & V & es & fs0 & H1 & H2 & H3 & _ & H5 & _).
  exists m, mid, V, es, fs0. exact (conj H1 (conj H2 (conj H3 H5))).
Defined.

(** The final file of the complete recall stays, its metadata goes. *)
Lemma complete_recall_kept_witness :
  exists m mid V O es, views (tree complete_fs) m "/stage/tx/manifest.json" mid V /\ entries m = Ok es /\ canonical "/out" O
    /\ finals_present (tree complete_fs) m 0 es (v_entries V)
    /\ finals_present (tree (recover complete_fs).1) m 0 es (v_entries V).
Proof.
  destruct (complete_recall_kept _ _ _ _ _ _ _ complete_run wf_complete)
    as [[_ Hn]|(m & mid & V & O & es & fs0 & _ & H2 & H3 & H4 & Hc & H5)].
  - destruct (Hn _ eq_refl).
  - exists m, mid, V, O, es. split; [exact H2|]. split; [exact H3|]. split; [exact H4|].
    split; [exact (Hc eq_refl)|]. exact (proj1 (proj2 (proj2 (H5 (Hc eq_refl))))).
Defined.

Lemma recovery_removes_only_owned_witness :
  exists m mid fs0 fs1 V O, read_with_identity_directories buffers "/stage/tx/manifest.json" prepared_fs = (fs0, Ok (m, mid))
    /\ validate_manifest 1000 m FileSet "/stage/tx" "/out" "/stage/tx/manifest.json" fs0 = (fs1, Ok tt)
    /\ approved 1000 m FileSet "/stage/tx" "/out" /\ views (tree prepared_fs) m "/stage/tx/manifest.json" mid V
    /\ removes_only (fun k n => owned V k n /\ contained FileSet (v_staging V).1 O (v_manifest V).1 k) prepared_fs (recover prepared_fs).1.
Proof.
  destruct (recovery_removes_only_owned 1000 buffers "/stage/tx" "/out" "/stage/tx/manifest.json" FileSet buffers _ _ _ _ wf_prepared
              (recovery_of_recall _ _ _ _ _ eq_refl) prepared_run)
    as [[_ Hn]|(m & mid & fs0 & fs1 & tr' & V & O & Hr & Hv & Ht & Ha & _ & _ & Hvw & Hrm)].
  - destruct (Hn _ eq_refl).
  - rewrite (Ht eq_refl) in *. exists m, mid, fs0, fs1, V, O. exact (conj Hr (conj Hv (conj Ha (conj Hvw Hrm)))).
Defined.

(** ** The text of a manifest *)

#[export] Instance z_laws : JsonLaws Z.
Proof. by split. Qed.
#[export] Instance kind_laws : JsonLaws TransactionKind.
Proof. split; by intros []. Qed.
#[export] Instance phase_laws : JsonLaws ManifestPhase.
Proof. split; by intros []. Qed.
#[export] Instance identity_laws : JsonLaws FileIdentity.
Proof. split; by intros []. Qed.
#[export] Instance state_laws : JsonLaws ManifestDirectoryState.
Proof. split; by intros []. Qed.

Definition one_file_text (output : string) (p : ManifestPhase) (final : option FileIdentity) : ManifestText :=
  mkText MANIFEST_VERSION 1000 "tx" FileSet p ("/stage/tx", Some (mkIdentity 1 4)) output None
    [mkEntryText ("/stage/tx/0.wav", Some (mkIdentity 1 5)) (Some ("/out/a/.tx-0.partial", None)) ("/out/a/0.wav", final)]
    [mkDirectorySlot 0 6 (Some Owned) (Some (mkIdentity 1 7))].

(** A JSON library that writes and reads one value. *)
Definition single (j : Json) : JsonText := {|
  from_slice := fun s => if String.eqb s "M" then Some j else None;
  first_value := fun s => if String.eqb s "M" then Some j else None;
  to_writer := fun _ => "M";
|}.

Definition prepared_text : ManifestText := one_file_text "/out" Prepared None.

Definition built_manifest : TransactionManifest := Eval vm_compute in
  (one_file "/out" "/out/a" Prepared None (new_with_directories [default_entry] [default_directory] (replicate 70 zero))).1.

Lemma built_means : means built_manifest prepared_text.
Proof. constructor; try (vm_compute; done). eexists. split; [reflexivity|]. repeat constructor; vm_compute; reflexivity. Qed.

(** It is read back into a larger arena. *)
Lemma manifest_round_trip_witness :
  exists m', parse_manifest (H := single (text_json prepared_text)) (replicate 3 default_entry) (replicate 2 default_directory)
               (replicate 200 zero) "M" = Ok m' /\ means m' prepared_text.
Proof.
  destruct (manifest_round_trip (json_text := single (text_json prepared_text)) 10 built_manifest prepared_text "M"
    (replicate 3 default_entry) (replicate 2 default_directory) (replicate 200 zero) built_means) as [_ (m' & H1 & H2 & _)];
    [by repeat constructor|by left|vm_compute; reflexivity|reflexivity|vm_compute; done..|].
  exists m'. exact (conj H1 H2).
Defined.

(** A quote in the output root makes the check fail. *)
Definition quoted_text : ManifestText := one_file_text (String "/" (String "034" "out")) Prepared None.

Lemma existing_check_reads_witness :
  existing_check (text_json prepared_text) = Some (mkExistingCheck 2 1000 "tx" FileSet "/stage/tx" "/out")
  /\ existing_check (text_json quoted_text) = None.
Proof.
  split; [exact (existing_check_reads prepared_text)|exact (existing_check_reads quoted_text)].
Defined.

Lemma push_reads_back_witness :
  match push "/out" (mkPathArena (replicate 8 zero) 2) with
  | (a', Ok r) => r = mkPathRef 2 4 /\ arena_slice a' r = Ok "/out"
  | _ => False
  end.
Proof.
  pose proof (push_reads_back "/out" (mkPathArena (replicate 8 zero) 2) ltac:(vm_compute; done) eq_refl) as H.
  destruct (push "/out" (mkPathArena (replicate 8 zero) 2)) as [a' [r|e|]] eqn:E.
  - destruct H as (_ & Hn & _). split; [vm_compute in E; by injection E|apply Hn].
  - vm_compute in E. done.
  - done.
Defined.

(** ** The scans *)

Definition dump_fs : FileSystem :=
  mkFileSystem (list_to_map [([], node 0 Directory); (["out"], node 1 Directory);
    (["out"; ".tx.manifest.json"], node 3 (RegularFile "dump")); (["out"; ".tmp-lamb-tx"], node 4 Directory);
    (["out"; ".tmp-lamb-tx"; "0.wav"], node 5 (RegularFile "RIFF")); (["out"; "other.wav"], node 8 (RegularFile "RIFF"))])
    [] [] [].

Definition recall_scan_run : FileSystem * Result RecoveryScanSummary :=
  recover_recall_staging_root_with_directories 1000 buffers "/stage" "/out" prepared_fs.
Definition dump_scan_run : FileSystem * Result RecoveryScanSummary := recover_dump_root 1000 buffers "/out" dump_fs.

Lemma recall_scan_result : recall_scan_run = (recall_scan_run.1, Ok (mkScan 1 0 1 0 0 [])).
Proof. apply run_pair. vm_compute. reflexivity. Qed.
Lemma dump_scan_result : dump_scan_run = (dump_scan_run.1, Ok (mkScan 1 0 1 0 0 [])).
Proof. apply run_pair. vm_compute. reflexivity. Qed.

Example dump_scan_tree : tree dump_scan_run.1
  = list_to_map [([], node 0 Directory); (["out"], node 1 Directory);
                 (["out"; "other.wav"], node 8 (RegularFile "RIFF"))].
Proof. vm_compute. reflexivity. Qed.

Lemma wf_dump : wf_tree (tree dump_fs).
Proof. apply wf_check_spec. vm_compute. reflexivity. Qed.

Lemma proper_check nodes :
  forallb (fun k => forallb (fun name => negb (String.eqb name "" || String.eqb name "." || String.eqb name ".."
                                               || contains slash name)) k) (map fst (map_to_list nodes)) = true ->
  proper_names nodes.
Proof.
  intros H k n Hn. rewrite forallb_forall in H. specialize (H k).
  assert (In k (map fst (map_to_list nodes))) as Hin.
  { apply in_map_iff. exists (k, n). split; [done|]. by apply list_elem_of_In, elem_of_map_to_list. }
  apply H in Hin. rewrite forallb_forall in Hin. apply Forall_forall. intros name Hname%list_elem_of_In.
  apply Hin in Hname. apply negb_true_iff in Hname. repeat (apply orb_false_iff in Hname as [Hname ?]).
  repeat split; [by apply String.eqb_neq..|done].
Qed.

Lemma proper_dump : proper_names (tree dump_fs).
Proof. apply proper_check. vm_compute. reflexivity. Qed.

Lemma canonical_out : canonical "/out" ["out"].
Proof. reflexivity. Qed.

Lemma recall_scan_accounts_witness : removes_only (named_by_manifest (tree prepared_fs)) prepared_fs recall_scan_run.1
  /\ consistent (mkScan 1 0 1 0 0 []).
Proof. exact (recall_scan_accounts _ _ _ _ _ _ _ recall_scan_result wf_prepared). Defined.

Lemma dump_scan_accounts_witness : removes_only (named_by_manifest (tree dump_fs)) dump_fs dump_scan_run.1
  /\ consistent (mkScan 1 0 1 0 0 []).
Proof. exact (dump_scan_accounts _ _ _ _ _ _ _ dump_scan_result wf_dump proper_dump canonical_out). Defined.

(** *** One dump *)

(** The dump after its rename. *)
Definition renamed_fs : FileSystem :=
  mkFileSystem (list_to_map [([], node 0 Directory); (["out"], node 1 Directory);
    (["out"; ".tx.manifest.json"], node 3 (RegularFile "dump")); (["out"; "tx"], node 4 Directory);
    (["out"; "tx"; "0.wav"], node 5 (RegularFile "RIFF"))]) [] [] [].

Definition recover_dump (fs : FileSystem) : FileSystem * Result RecoveryOutcome :=
  recover_dump_parent 1000 buffers "/out" "/out/.tx.manifest.json" fs.

Lemma dump_run : recover_dump dump_fs = ((recover_dump dump_fs).1, Ok OutcomeRolledBack).
Proof. apply run_pair. vm_compute. reflexivity. Qed.
Lemma renamed_run : recover_dump renamed_fs = ((recover_dump renamed_fs).1, Ok OutcomeComplete).
Proof. apply run_pair. vm_compute. reflexivity. Qed.
Lemma wf_renamed : wf_tree (tree renamed_fs).
Proof. apply wf_check_spec. vm_compute. reflexivity. Qed.
Lemma canonical_dump_manifest : canonical "/out/.tx.manifest.json" (["out"] ++ [".tx.manifest.json"]).
Proof. reflexivity. Qed.

Lemma dump_rolled_back_witness : exists m mid V es,
  views (tree dump_fs) m "/out/.tx.manifest.json" mid V /\ entries m = Ok es
  /\ ~ directory_present (tree (recover_dump dump_fs).1) V
  /\ Forall (fun v => gone (tree (recover_dump dump_fs).1) (v_staged v)) (v_entries V).
Proof.
  destruct (dump_rolled_back _ _ _ _ _ _ _ dump_run wf_dump canonical_dump_manifest)
    as (m & mid & V & es & fs0 & _ & H1 & H2 & _ & H3 & H4 & _).
  exists m, mid, V, es. exact (conj H1 (conj H2 (conj H3 H4))).
Defined.

Lemma complete_dump_kept_witness : exists m mid V es,
  views (tree renamed_fs) m "/out/.tx.manifest.json" mid V /\ entries m = Ok es
  /\ dump_present (tree renamed_fs) m es V /\ dump_present (tree (recover_dump renamed_fs).1) m es V.
Proof.
  destruct (complete_dump_kept _ _ _ _ _ _ _ _ _ renamed_run wf_renamed canonical_out canonical_dump_manifest)
    as [[_ Hn]|(m & mid & V & es & fs0 & _ & H1 & H2 & Hc & H3)].
  - destruct (Hn _ eq_refl).
  - exists m, mid, V, es. exact (conj H1 (conj H2 (conj (Hc eq_refl) (proj1 (proj2 (proj2 (H3 (Hc eq_refl)))))))).
Defined.

(** ** Behaviours at the edge *)

(** An output root that is written with a trailing slash, and a directory below it
    whose name starts with a character of two bytes: the synchronization cuts the
    path inside of that character and panics, although all files are in place. *)
Definition slash_fs : FileSystem :=
  mkFileSystem (list_to_map [([], node 0 Directory); (["out"], node 1 Directory); (["out"; accented], node 7 Directory);
    (["out"; accented; "0.wav"], node 6 (RegularFile "RIFF")); (["stage"], node 2 Directory);
    (["stage"; "tx"], node 4 Directory); (["stage"; "tx"; "manifest.json"], node 3 (RegularFile "slash"))]) [] [] [].

Example trailing_slash_panics :
  (recover_recall_root_with_directories 1000 buffers "/stage/tx" "/out/" slash_fs).2 = Panic.
Proof. vm_compute. reflexivity. Qed.

(** The last call of a rollback fails: the transaction is reported as pending, but
    its manifest is gone, and no later scan finds it. *)
Example pending_without_manifest :
  let r := recover (prepared_fs <| faults := replicate 37 false ++ [true] |>) in
  r.2 = Ok OutcomePending
  /\ tree r.1 = list_to_map [([], node 0 Directory); (["out"], node 1 Directory); (["stage"], node 2 Directory);
                             (["stage"; "tx"], node 4 Directory)]
  /\ (recover_recall_staging_root_with_directories 1000 buffers "/stage" "/out" r.1).2 = Ok empty_scan.
Proof. vm_compute. repeat split; reflexivity. Qed.
