(* ===== verification/PublishExamples.v ===== *)
(** * A publication on a concrete file system

    The theorems of [ManifestStoreTheorems] and [DumpAtomic] at a dump of two
    files: published without a fault, and interrupted. The kernel takes four
    bytes with one write and numbers its files; the JSON library knows the two
    manifests of this dump. *)
From Stdlib Require Import Ascii.
From S2P Require Import Prelude.
From S2P Require Import Errors.
From S2P Require Import Paths.
From S2P Require Import FileSystem.
From S2P Require Import FileWrites.
From S2P Require Import Manifest.
From S2P Require Import ManifestJson.
From S2P Require Import ManifestTheorems.
From S2P Require Import Recovery.
From S2P Require Import RecoverySpec.
From S2P Require Import RecoveryTheorems.
From S2P Require Import ManifestStore.
From S2P Require Import ManifestStoreTheorems.
From S2P Require Import DumpPublish.
From S2P Require Import DumpPublishSpec.
From S2P Require Import DumpAtomic.
From S2P Require Import RecoveryExamples.

(** ** The kernel *)

Definition highest (nodes : gmap Key Node) : Z :=
  fold_right Z.max 0 (map (fun x => inode (identity_from_metadata x.2)) (map_to_list nodes)).

#[export] Instance counting_kernel : Kernel := {
  new_identity nodes := mkIdentity 1 (highest nodes + 1);
  accepted _ := 4%nat;
}.

#[export] Instance counting_laws : KernelLaws.
Proof.
  split; [|done]. intros nodes k n Hn E.
  assert (inode (identity_from_metadata n) <= highest nodes) as H.
  { unfold highest. assert ((k, n) ∈ map_to_list nodes) as Hin by by apply elem_of_map_to_list.
    induction (map_to_list nodes) as [|x l IH]; [by apply elem_of_nil in Hin|]. cbn [map fold_right].
    apply elem_of_cons in Hin as [<-|Hin]; [cbn; lia|]. specialize (IH Hin). lia. }
  rewrite E in H. cbn in H. lia.
Qed.

(** ** The JSON library: the text of a manifest is its phase *)

Definition is_complete (j : Json) : bool :=
  match j with
  | JObject fields =>
      existsb (fun f => String.eqb (text f.1) "phase"
                        && match f.2 with JString s => String.eqb (text s) "complete" | _ => false end) fields
  | _ => false
  end.

Definition staged_files : list PlannedFile :=
  [mkPlanned "/out/.tmp-lamb-tx/0.wav" "/out/tx/0.wav"; mkPlanned "/out/.tmp-lamb-tx/1.wav" "/out/tx/1.wav"].
Definition staged_nodes : list (string * Node) :=
  [("0.wav", node 5 (RegularFile "RIFF")); ("1.wav", node 6 (RegularFile "WAVE"))].

Definition published_text (p : ManifestPhase) : ManifestText :=
  dump_text 1000 "tx" "/out/.tmp-lamb-tx" "/out/tx" "/out" (mkIdentity 1 4) p (with_identity staged_files staged_nodes).

Definition phase_value (s : string) : option Json :=
  if String.eqb s "prepared" then Some (text_json (published_text Prepared))
  else if String.eqb s "complete" then Some (text_json (published_text Complete)) else None.

#[export] Instance phase_text : JsonText := {
  from_slice := phase_value;
  first_value := phase_value;
  to_writer j := if is_complete j then "complete" else "prepared";
}.

(** ** The file system *)

Definition staged_tree : gmap Key Node :=
  list_to_map [([], node 0 Directory); (["out"], node 1 Directory); (["out"; ".tmp-lamb-tx"], node 4 Directory);
    (["out"; ".tmp-lamb-tx"; "0.wav"], node 5 (RegularFile "RIFF"));
    (["out"; ".tmp-lamb-tx"; "1.wav"], node 6 (RegularFile "WAVE"))].

(** The calls fail as the list says, and then succeed. *)
Definition staged_store (calls : list bool) : Store := mkStore (mkFileSystem staged_tree [] calls []) None.

Definition unique_check (nodes : gmap Key Node) : bool :=
  forallb (fun x => forallb (fun y => negb (is_dir x.2 && is_dir y.2
      && bool_decide (identity_from_metadata x.2 = identity_from_metadata y.2)) || bool_decide (x.1 = y.1))
    (map_to_list nodes)) (map_to_list nodes).

Lemma unique_check_spec nodes : unique_check nodes = true -> dirs_unique nodes.
Proof.
  unfold unique_check. intros H k k' n n' Hn Hn' D D' E. rewrite forallb_forall in H.
  assert (In (k, n) (map_to_list nodes)) as Hin by by apply list_elem_of_In, elem_of_map_to_list.
  assert (In (k', n') (map_to_list nodes)) as Hin' by by apply list_elem_of_In, elem_of_map_to_list.
  apply H in Hin. rewrite forallb_forall in Hin. apply Hin in Hin'. cbn [fst snd] in Hin'.
  rewrite D, D', bool_decide_eq_true_2 in Hin' by done. cbn in Hin'. by apply bool_decide_eq_true in Hin'.
Qed.

Lemma staged_opened : opened staged_tree (node 1 Directory) ["out"].
Proof.
  constructor; [done|vm_compute; reflexivity|apply unique_check_spec; vm_compute; reflexivity|].
  apply wf_check_spec. vm_compute. reflexivity.
Qed.

(** ** Publishing *)

Definition scratch : Scratch := mkScratch (replicate 2 default_entry) (replicate 160 zero) 64 64 64.

Definition publish (calls : list bool) : Store * outcome DumpFailure PreparedPublication :=
  publish_prepared_dump 1000 scratch 64 "/out/.tmp-lamb-tx" "/out/tx" staged_files (mkIdentity 1 4) (staged_store calls).

Definition recover_dump (runs : list (Buffers * list bool)) (s : Store) : gmap Key Node :=
  tree (recover_again 1000 "/out" "/out/.tx.manifest.json" runs (files s)).

Definition dump_buffers : Buffers := mkBuffers 64 (replicate 2 default_entry) [] (replicate 160 zero).

(** The first sixteen calls precede the rename of the manifest; after a failure
    there the final directory is missing and the dump may be retried. *)
Definition outcome_is (o : outcome DumpFailure PreparedPublication) : Z :=
  match o with Ok Published => 0 | Ok (RetryableFailure _) => 1 | Ok (Indeterminate _) => 2 | _ => 3 end.

Example one_fault : map (fun k => outcome_is (publish (replicate k false ++ [true])).2) [0; 8; 16; 17; 30; 42; 43]%nat
  = [1; 1; 1; 2; 2; 2; 0].
Proof. vm_compute. reflexivity. Qed.

Example publish_tree : let nodes := tree (files (publish []).1) in
  size nodes = 6%nat /\ nodes !! ["out"; "tx"; "0.wav"] = Some (node 5 (RegularFile "RIFF"))
  /\ nodes !! ["out"; "tx"; "1.wav"] = Some (node 6 (RegularFile "WAVE"))
  /\ nodes !! ["out"; ".tx.manifest.json"] = Some (node 8 (RegularFile "complete")).
Proof. vm_compute. repeat split. Qed.

(** If no call succeeds after the manifest's rename, the check whether a manifest
    is there fails too: the failure counts as one that may be retried although
    the manifest is on disk. *)
Example manifest_not_seen : outcome_is (publish (replicate 17 false ++ replicate 60 true)).2 = 1
  /\ tree (files (publish (replicate 17 false ++ replicate 60 true)).1) !! ["out"; ".tx.manifest.json"]
     = Some (node 7 (RegularFile "prepared")).
Proof. vm_compute. split; reflexivity. Qed.

Lemma published_json p : dump_phase p -> let j := text_json (published_text p) in first_value (to_writer j) = Some j.
Proof. intros [-> | ->]; vm_compute; reflexivity. Qed.

Lemma dump_roomy : roomy dump_buffers (published_text Prepared).
Proof. constructor; vm_compute; (done || by split). Qed.

Lemma staged_tx calls : staged_dump (tree (files (staged_store calls))) ["out"] "/out" "/out/.tmp-lamb-tx" "/out/tx"
  "/out/.tx.manifest.json" "tx" "tx" (mkIdentity 1 4) staged_files staged_nodes.
Proof.
  constructor; [reflexivity..|by split|by exists (node 4 Directory)|reflexivity|].
  repeat constructor; reflexivity.
Qed.

(** A publication that is stopped after its call [crash], and three recoveries, of
    which the first two are interrupted. *)
Definition crash_runs : list (Buffers * list bool) :=
  [(dump_buffers, replicate 5 false ++ [true]); (dump_buffers, replicate 20 false ++ replicate 60 true); (dump_buffers, [])].

Definition stopped (crash : nat) : Store * outcome DumpFailure PreparedPublication :=
  publish (replicate crash false ++ replicate 60 true).

Lemma crash_runs_roomy : Forall (fun r => roomy r.1 (published_text Prepared)) crash_runs.
Proof. repeat constructor; apply dump_roomy. Qed.

(** Stopped before the rename of the directory, the dump is rolled back; stopped
    after it, the dump is there. *)
Lemma dump_all_or_nothing_witness :
  (recover_dump crash_runs (stopped 18).1) !! ["out"; "tx"] = None
  /\ (recover_dump crash_runs (stopped 30).1) !! ["out"; "tx"; "0.wav"] = Some (node 5 (RegularFile "RIFF")).
Proof.
  split.
  - destruct (dump_all_or_nothing 1000 scratch 64 ["out"] (node 1 Directory) staged_files staged_nodes "/out/.tmp-lamb-tx"
      "/out/tx" "/out/.tmp-lamb-tx" "/out/tx" "/out" "/out/.tx.manifest.json" "tx" "tx" (mkIdentity 1 4) (staged_store _) _ _ crash_runs
      staged_opened ltac:(vm_compute; done) (staged_tx _) published_json eq_refl eq_refl (surjective_pairing (stopped 18))
      crash_runs_roomy) as [[H _]|((d & H & _) & _)]; [exact H|].
    exfalso. vm_compute in H. discriminate H.
  - destruct (dump_all_or_nothing 1000 scratch 64 ["out"] (node 1 Directory) staged_files staged_nodes "/out/.tmp-lamb-tx"
      "/out/tx" "/out/.tmp-lamb-tx" "/out/tx" "/out" "/out/.tx.manifest.json" "tx" "tx" (mkIdentity 1 4) (staged_store _) _ _ crash_runs
      staged_opened ltac:(vm_compute; done) (staged_tx _) published_json eq_refl eq_refl (surjective_pairing (stopped 30))
      crash_runs_roomy) as [[H _]|(_ & H & _)].
    + exfalso. vm_compute in H. discriminate H.
    + exact (Forall_inv H).
Defined.

(** ** Replacing a manifest *)

Definition manifest_tree : gmap Key Node := <[["out"; ".tx.manifest.json"] := node 9 (RegularFile "prepared")]> staged_tree.
Definition manifest_at (calls : list bool) : Store := mkStore (mkFileSystem manifest_tree [] calls []) (Some (mkIdentity 1 9)).
Definition complete_version : TransactionManifest := built_manifest <| phase := Complete |>.

Definition replace (calls : list bool) : Store * Result unit :=
  write_prepared_at 1000 64 (node 1 Directory) ".tx.manifest.json" "..tx.manifest.json.tx.tmp" "/out/.tx.manifest.json"
    complete_version (manifest_at calls).

Lemma manifest_opened : opened manifest_tree (node 1 Directory) ["out"].
Proof.
  constructor; [done|vm_compute; reflexivity|apply unique_check_spec; vm_compute; reflexivity|].
  apply wf_check_spec. vm_compute. reflexivity.
Qed.

Lemma tx_names : normal_name ".tx.manifest.json" /\ normal_name "..tx.manifest.json.tx.tmp"
  /\ ".tx.manifest.json" <> "..tx.manifest.json.tx.tmp".
Proof. split_and!; done. Qed.

(** Stopped before the exchange, the old manifest is there; stopped after it, the
    new one. *)
Lemma manifest_replaced_whole_witness :
  tree (files (replace (replicate 8 false ++ replicate 60 true)).1) !! ["out"; ".tx.manifest.json"]
    = Some (node 9 (RegularFile "prepared"))
  /\ tree (files (replace (replicate 9 false ++ replicate 60 true)).1) !! ["out"; ".tx.manifest.json"]
    = Some (node 10 (RegularFile "complete")).
Proof.
  destruct tx_names as (H1 & H2 & H3). split.
  - destruct (manifest_replaced_whole (node 1 Directory) ["out"] _ _ H1 H2 H3 1000 64 _ _ (manifest_at _) _ _
      manifest_opened ltac:(vm_compute; done) (surjective_pairing (replace (replicate 8 false ++ replicate 60 true))))
      as [_ [[H _]|(c & i & _ & H & _ & Hi & _)]]; [exact H|].
    exfalso. apply (Hi ["out"; ".tx.manifest.json"] (node 9 (RegularFile "prepared")) eq_refl).
    vm_compute in H. injection H as <- _. reflexivity.
  - destruct (manifest_replaced_whole (node 1 Directory) ["out"] _ _ H1 H2 H3 1000 64 _ _ (manifest_at _) _ _
      manifest_opened ltac:(vm_compute; done) (surjective_pairing (replace (replicate 9 false ++ replicate 60 true))))
      as [_ [[H _]|(c & i & Hc & H & _ & Hi & _)]].
    + exfalso. vm_compute in H. discriminate H.
    + injection Hc as <-. assert (i = mkIdentity 1 10) as -> by (vm_compute in H; injection H as <-; reflexivity). exact H.
Defined.

Lemma manifest_written_witness : exists s', replace [] = (s', Ok tt).
Proof.
  destruct tx_names as (H1 & H2 & H3).
  exact (manifest_written (node 1 Directory) ["out"] _ _ H1 H2 H3 1000 64 "/out/.tx.manifest.json" "/out" complete_version
    "complete" (manifest_at []) manifest_opened ltac:(vm_compute; done) eq_refl eq_refl eq_refl eq_refl
    ltac:(exists (node 9 (RegularFile "prepared")); split; [reflexivity|split; reflexivity]) eq_refl).
Defined.
